(* ===== verification/_CoqProject ===== *)
-Q . S2P
Prelude.v
Errors.v
Codec.v
StoreKey.v
Messages.v
FileVersion.v
FileVersionProps.v
CryptoLib.v
Header.v
Cipher.v
EncStream.v
Names.v
Contents.v
EncRepo.v
EncRepoProps.v
Stores.v
FileContent.v
FileContentProps.v
ChunkCache.v
Telethon.v
TelethonProps.v
DiscordStore.v
MultiSource.v
MultiSourceProps.v
FileRefs.v
Directory.v
DirectoryProps.v
DirectorySer.v
Mirror.v
MirrorProps.v
FdRepo.v
ContentStoreProps.v
Tee.v
TeeProps.v
FdProps.v
FdSaved.v
ConfigValue.v
CacheEntry.v
LocalCache.v
Config.v
ConfigProps.v
TgStore.v
TgReadProps.v
UploaderProps.v
DiscordStoreProps.v
TgWrites.v
TgTextProps.v
TgDemo.v
Pyrogram.v
LocalCacheProps.v
CacheContent.v
CachedReadProps.v
StagingProps.v
Api.v
Stats.v
PosixPath.v
Http.v
Ops.v
Paths.v
Auth.v
Tasks.v
FsCache.v
Dav.v
DavApp.v
SftpHandleProps.v
Sftp.v
OpsProps.v
DavProps.v
SftpProps.v
Github.v
GhTimes.v
GhDir.v
GhDirProps.v
GhRepo.v
GhRepoProps.v
Migrate.v
Backfill.v
BackfillProps.v
Replication.v
ReplicationProps.v
