(* ===== verification/Prelude.v ===== *)
(** * tgdcfs: a verification development

    tgdcfs is a file system whose storage are the messages of Telegram and
    Discord channels.  A file is cut into part messages; a JSON text message,
    the file descriptor, lists the versions of a file with the ids of their
    parts; a metadata document holds the directory tree, with a reference to
    the descriptor of every file.  Content may be encrypted on the way, kept
    in several stores at once (a primary, aligned mirrors with the same parts,
    replicas cut in their own way), and read from all of them in parallel.

    ** The program and the files of the development

    - [Prelude], [Errors], [Codec]: results, the state and error monad
      ([st], [let!], [let*]), Python dictionaries as association lists in
      insertion order ([Dict]), slices, integers, files under positioned
      writes, the exceptions of [tgdcfs/errors/], [struct] and [base64].
    - [StoreKey]: [backends/base.py], the keys of stores and [plan_parts].
    - [Messages]: [reqres.py], the messages an upload reads.  The class
      [Uploadable] is the interface of [UploadableFileMessage], [UploadLaws]
      what a reader may rely on; buffer, file and stream messages discharge it.
    - [FileVersion], [FileVersionProps]: [core/model/file.py], versions and
      descriptors, their serialized form, [relocate] (a mirror becomes the
      primary).
    - [CryptoLib], [Header], [Cipher], [EncStream], [Names], [EncRepo],
      [EncRepoProps]: [crypto/].  The primitives are the class [CryptoLib];
      [CryptoLaws] states what their documentation promises on honest input,
      and [toy_crypto] is an instance.  [EncRepo] is a decorator of the
      interface [Contents.ContentRepo] (the methods of
      [IFileContentRepository]); its theorems are proved against
      [ContentLaws].
    - [Stores]: the interface [IStore] as the class [Stores W] over an
      arbitrary world [W], with its laws [StoreLaws] (downloads) and
      [WriteLaws] (uploads, texts, server-side copies).  A store may fail at
      any time; a failing download delivers a proper prefix.  [MemWorld] is an
      instance, used by the witnesses.
    - [FileContent], [FileContentProps]: the read path of
      [core/repository/impl/file_content/__init__.py] -- ranges to parts,
      sources of a part, layouts, the breaker of a dead primary, failover --
      and [utils/prefetching_chain.py].
    - [MultiSource], [MultiSourceProps]: [core/multisource.py].  The workers
      and the consumer are a state machine: an event is what one of them does
      between two awaits, so every interleaving is a sequence of events.
    - [FileRefs], [Directory], [DirectoryProps], [DirectorySer]:
      [core/model/directory.py], [stat.py], [metadata.py].  Directories and
      refs are mutable objects that point at each other, so they live in a
      heap and are named by identity.
    - [Mirror], [MirrorProps]: [core/mirror.py], copying parts, descriptors
      and the pinned metadata into the mirror stores.
    - [FdRepo], [FdProps], [FdSaved]:
      [core/repository/impl/fd/store_msg.py], saving, reading and validating
      descriptors.  The text encoding is the class [FDJson] ([json]).
    - [ContentStoreProps]: saving a file version and what a later read finds.
    - [CacheEntry], [LocalCache], [LocalCacheProps], [CacheContent]:
      [core/local_cache.py], cached versions as sparse files of blocks on a
      disk that may fail, eviction, writers, readers and the index file, one
      event at a time.  [CachedReadProps], [StagingProps]: reads through the
      cache and staged writes.
    - [Tee], [TeeProps]: [core/tee.py] and [MirrorGroup.tee], the uploads fed
      from the primary's reads, over every interleaving, and the save that
      records them.
    - [Backfill], [BackfillProps]: [core/backfill.py], which brings the
      copies of a file up to date (uploads that are only in the cache,
      versions of a former primary, missing mirrors), and the walk over a
      whole file system.
    - [Replication], [ReplicationProps]: [core/replication.py], the queue of
      files to copy, its file on disk and the worker.
    - [Api], [Stats]: [core/api/], the listings' sizes and dates, the pinned
      metadata document.  The class [MetaRepo] is the interface of
      [IMetaDataRepository]; the pinned message and the GitHub repository are
      its instances.  [PosixPath], [Ops], [OpsProps]: [posixpath] and
      [core/ops.py].
    - [Github], [GhTimes], [GhDir], [GhDirProps], [GhRepo], [GhRepoProps]:
      [core/repository/impl/metadata/github_repo/], the metadata kept as the
      files of a git repository.  The REST calls are the class [Github] with
      the laws [GithubLaws]; [GitMem] is a server in memory whose calls may be
      made to fail.  A [GithubDirectory] is a directory of the heap that also
      writes itself into the repository; the dates of folders come from a
      store filled by two workers, a state machine.
    - [Http], [Dav], [DavApp], [DavProps]: [asgidav/] and [app/webdav/], the
      text of URLs, the tree of members over the file systems, one function
      per method of the protocol, and the authentication of
      [app/__init__.py].
    - [Paths], [SftpHandleProps], [Sftp], [SftpProps]: [app/sftp/], client
      paths, read and write handles, the requests of a session and its end.  [Auth]: [auth/].  [Tasks]: [tasks/].  [FsCache]:
      the tree caches [core/cache.py] and [app/fs_cache.py].
    - [ConfigValue], [Config], [ConfigProps]: [config.py] on the values of a
      YAML file, and what [core/client.py] decides from it.
    - [ChunkCache]: [utils/chunk_cache.py] and [utils/message_cache.py].
    - [Telethon], [TelethonProps]: the client of
      [backends/telegram/impl/telethon.py]; the library is the class
      [Telethon] over a server, [TelethonLaws] what it promises about reads,
      [TelethonTexts] about texts and uploads.  [TgStore], [TgReadProps], [TgWrites],
      [TgTextProps]: [backends/telegram/store.py] and [broker.py], reads,
      uploads in messages, texts that overflow into documents, edits, copies
      and deletions; [TgDemo] a server in memory and the store over it.
      [UploaderProps]: [backends/telegram/uploader.py], the workers of an
      upload as a state machine.
    - [DiscordStore], [DiscordStoreProps]: [backends/discord/], the bots over
      [discord.py] and the CDN (a class with its laws), the store, and a
      server in memory.

    ** How code is written here

    A method is a function of the state it touches: [st exn S A] maps a state
    to a result ([Ok] or a raised exception) and the state it left, also when
    it raises.  [asyncio] code that awaits one call after the other is
    sequential; where tasks run concurrently ([multisource.py], [tee.py],
    [local_cache.py], [uploader.py], [dir_timestamps.py]) the interleaving is
    explicit, and where
    another task's effect is all that matters it is an argument ([others] of
    [TgStore], [meanwhile] of [Replication], [DavApp] and [GhRepo]).  [datetime.now()], the monotonic clock, random
    bytes and generated ids are arguments or part of the state.  Logging,
    progress reports and type annotations are left out.  Error messages that
    are only shown are shortened.

    Fuel: [EncStream.read_loop] and [EncRepo.drain_full] carry fuel bounded by
    the lengths they consume, and the theorems show the result is never
    [OutOfFuel]; [MultiSource.cut_pieces] by the length of the range, as are the
    loops of [TgStore] ([tg_read_exact] holds for the fuel they are given);
    [overflow_text_of] has the depth of the calls Python allows; the
    walks of [Directory] along the tree by the number of directories, which
    the heap invariant shows to be enough ([metadata_saves]), and those of
    [GhDir] from a folder to the root likewise ([github_path_total]); the
    parents of a path in [GhRepo] by its length ([reload_exact]).

    ** What is shown

    - Reading: [map_range_exact] (the parts of a range are the range),
      [read_failover] and [get_delivers] (whatever sources fail, the caller
      gets a prefix of the requested bytes, and all of them when some layout
      has a working source for every part); for parallel reads
      [multisource_in_order], [multisource_pieces_and_memory],
      [multisource_progress], [multisource_bounded_run] and [fetch_exact];
      through the local cache [cached_read_exact] and [stage_then_read].
    - The Telegram store: [client_download_exact] (a download resumes behind
      an expired file reference and delivers the range) and [tg_read_exact]
      (a read in pieces and through the block cache, which other downloads
      change meanwhile, delivers the range, or a beginning of it and an
      exception); [upload_saves_file] and [upload_ends] for the workers of an
      upload.
      Texts: [text_round_trip] (a text of any length is read back, also one
      that overflows into a document) and [text_edit_supersedes].
    - The Discord store: [discord_upload_plan] (an upload sends what
      [plan_parts] announces) and [discord_text_round_trip].
    - The local cache: [cached_bytes_true], [cache_within_budget],
      [make_room_evicts_lru], [missing_runs_exact].
    - Writing: [upload_then_read]; [tee_bytes_exact], [tee_never_stuck],
      [tee_replica_exact] and [teed_save_true].
    - Encryption: [encrypted_range_read] (every byte range of an encrypted
      file is read back exactly), [encrypted_read_from_stores],
      [encrypted_message_delivers], [save_sends_encrypted],
      [update_sends_encrypted], [bad_header_refused], [header_accepts_iff],
      [chunk_seal_open] and the name round trips.
    - Versions and descriptors: [descriptor_roundtrip],
      [relocate_keeps_copies], [add_version_newest],
      [delete_version_repoints], [set_last_modified_safe]; [save_then_get]
      (a saved descriptor is read back while one copy answers),
      [validation_keeps_version], [served_version_readable].
    - The tree: [tree_invariant] (every operation keeps it, also when it
      raises), [move_moves_subtree], [move_into_itself_refused],
      [relocate_keeps_file], [metadata_roundtrip], [metadata_saves],
      [file_index_consistent], [ref_relocate_keeps_copies]; over it
      [mkdir_found], [path_resolves].
    - Mirroring: [mirror_parts_true_copies], [mirrored_version_held] (what is
      recorded after mirroring satisfies what the read path asks for),
      [mirror_fd_current].  Backfill: [backfill_file_complete] (nothing is lost,
      every copy a version names stays true, also when it moves to another
      primary, and a run without failures leaves a copy in every mirror).
    - SFTP: [resolve_contained] (no path leads out of the published tree),
      [reads_at_any_offset], [written_file_uploaded],
      [readonly_session_changes_nothing], [rename_keeps_target],
      [cut_off_session_uploads_nothing].
    - WebDAV: [refused_changes_nothing] (404, 409 and 412 leave everything as
      it was), [readonly_refused], [href_leads_back] (the references the
      server hands out lead back to what they name), [mkcol_makes_collection]
      and [proppatch_reports_each].
    - The metadata on GitHub: [reload_exact] (the tree built from the
      repository is what the repository has), [folder_move_exact] and
      [folder_deletion_exact] (one commit re-paths or drops exactly the files
      under a folder), [refused_by_github_keeps_tree], [stats_commit_atomic]
      and [stats_survive_reload]; for the dates [restart_keeps_untouched] and
      [dates_looked_up_once].
    - Replication: [queue_keeps_items], [queue_survives_restart],
      [queued_path_found], [failed_backs_off].
    - Configuration: [config_well_formed] (what a configuration that loads
      guarantees), [reuploading_mirrors_teed] (the loader and the mirror group
      agree on the mirrors that re-upload).
    - Behaviour that surprises: [multisource_can_hang],
      [reopened_buffer_restarts], [tied_versions_swap],
      [undated_version_blocks_add], [insert_breaks_index_order],
      [mkdir_parents_nests], [enqueue_while_copying_lost],
      [overflow_starves_queue], [small_cache_forgets],
      [cancelled_upload_returns_size], [failed_read_then_eof],
      [later_parts_read_nothing], [truncating_open_keeps_content],
      [double_slash_is_root], [reset_parent_of_root],
      [cross_client_transfer_loses_target], [path_below_file_is_file],
      [put_without_length_loses_body], [suffix_range_is_prefix],
      [cut_off_listing_loses_files], [refused_deletion_comes_back],
      [lost_answer_hides_files], [undecryptable_folder_misplaced],
      [late_snapshot_wins].

    ** What is not modelled

    The manager's endpoints and the web pages, the Pyrogram client and the
    logins, the SSH connection below the SFTP requests, the web framework
    below the WebDAV requests, logging, process start and the scripts.  What an upload from the cache has sent is not shown equal to the
    version: [later_parts_read_nothing] is why it need not be.  Times are
    integers: [timestamp()] is exact.  Authenticity of ciphertexts is a
    computational property and not stated. *)

From Stdlib Require Export ZArith Lia Strings.Ascii Strings.Byte Sorting.Sorted.
From stdpp Require Export prelude gmap strings.

Open Scope Z_scope.

(** ** Results: values or raised exceptions

    Python code that may raise returns a [result]; the exception type is a
    parameter here and becomes [Errors.exn] in the components. *)

Inductive result (E A : Type) : Type :=
| Ok (a : A)
| Raise (e : E).
Arguments Ok {E A} a.
Arguments Raise {E A} e.

Definition rbind {E A B} (m : result E A) (k : A -> result E B) : result E B :=
  match m with
  | Ok a => k a
  | Raise e => Raise e
  end.

Definition rmap {E A B} (f : A -> B) (m : result E A) : result E B :=
  rbind m (fun a => Ok (f a)).

Lemma Ok_inj {E A} (a b : A) : @Ok E A a = Ok b -> a = b.
Proof. by intros [= ->]. Qed.

Definition is_ok {E A} (m : result E A) : bool :=
  match m with Ok _ => true | Raise _ => false end.

Declare Scope py_scope.
Delimit Scope py_scope with py.

Notation "'let*' x ':=' m 'in' k" := (rbind m (fun x => k))
  (at level 10, x pattern, m at level 100, k at level 200) : py_scope.
Notation "'guard*' b 'else' e 'in' k" := (if b then k else Raise e)
  (at level 10, b at level 100, e at level 100, k at level 200) : py_scope.

Open Scope py_scope.

Fixpoint rmapM {E A B} (f : A -> result E B) (l : list A) : result E (list B) :=
  match l with
  | [] => Ok []
  | x :: xs => let* y := f x in let* ys := rmapM f xs in Ok (y :: ys)
  end.

(** ** Stateful code: state passing in which an exception keeps the state

    A Python statement that raises leaves every mutation made before it in
    place, so the state is returned on both outcomes. *)

Definition st (E S A : Type) : Type := S -> result E A * S.

Definition sret {E S A} (a : A) : st E S A := fun s => (Ok a, s).
Definition sraise {E S A} (e : E) : st E S A := fun s => (Raise e, s).
Definition sbind {E S A B} (m : st E S A) (k : A -> st E S B) : st E S B :=
  fun s => match m s with
           | (Ok a, s') => k a s'
           | (Raise e, s') => (Raise e, s')
           end.
Definition sget {E S} : st E S S := fun s => (Ok s, s).
Definition sput {E S} (s : S) : st E S unit := fun _ => (Ok tt, s).
Definition slift {E S A} (m : result E A) : st E S A := fun s => (m, s).

(** [try m except h]: the handler starts from the state the body left. *)
Definition stry {E S A} (m : st E S A) (h : E -> st E S A) : st E S A :=
  fun s => match m s with
           | (Ok a, s') => (Ok a, s')
           | (Raise e, s') => h e s'
           end.

Notation "'let!' x ':=' m 'in' k" := (sbind m (fun x => k))
  (at level 10, x pattern, m at level 100, k at level 200) : py_scope.
Notation "m ;;; k" := (sbind m (fun _ => k))
  (at level 100, k at level 200, right associativity) : py_scope.

Fixpoint sfor {E S A} (l : list A) (body : A -> st E S unit) : st E S unit :=
  match l with
  | [] => sret tt
  | x :: xs => (body x ;;; sfor xs body)
  end.

(** ** Integers and sequences *)

(** [lia] with [/] and [mod] by constants. *)
Ltac zlia := Z.to_euclidean_division_equations; lia.

(** Python's [len]. *)
Definition zlen {A} (l : list A) : Z := Z.of_nat (length l).

(** [l[b:e]] for [0 <= b]; out of range bounds are clipped, as in Python. *)
Definition zslice {A} (b e : Z) (l : list A) : list A :=
  take (Z.to_nat (e - b)) (drop (Z.to_nat b) l).

Definition ztake {A} (n : Z) (l : list A) : list A := take (Z.to_nat n) l.
Definition zdrop {A} (n : Z) (l : list A) : list A := drop (Z.to_nat n) l.

(** [sum(l)]. *)
Definition zsum (l : list Z) : Z := foldr Z.add 0 l.

(** [l[i]] for [0 <= i]; [None] is an [IndexError]. *)
Definition znth {A} (l : list A) (i : Z) : option A :=
  if i <? 0 then None else l !! Z.to_nat i.

(** [all(p(x) for x in l)]. *)
Definition zall (p : Z -> bool) (l : list Z) : bool := forallb p l.

(** [max(l, default=d)] on integers. *)
Definition zmax_default (d : Z) (l : list Z) : Z :=
  match l with
  | [] => d
  | x :: xs => foldl Z.max x xs
  end.

Abbreviation byte := Init.Byte.byte.
Abbreviation bytes := (list byte).

#[export] Instance byte_eq_decision : EqDecision byte := Byte.byte_eq_dec.

(** The truth value of a list in a condition. *)
Definition nonempty {A} (l : list A) : bool :=
  match l with [] => false | _ => true end.

(** ** Python dictionaries: association lists in insertion order *)

(** The type of a dictionary. *)
Abbreviation dict K V := (list (K * V)).

Module Dict.
Section Dict.
  Context {K V : Type} `{EqDecision K}.

Definition keys (d : list (K * V)) : list K := map fst d.
Definition values (d : list (K * V)) : list V := map snd d.

Fixpoint get (k : K) (d : list (K * V)) : option V :=
  match d with
  | [] => None
  | (k', v) :: d' => if decide (k = k') then Some v else get k d'
  end.

Definition mem (k : K) (d : list (K * V)) : bool :=
  match get k d with Some _ => true | None => false end.

(** [d[k] = v]: an existing key keeps its position, a new one goes last. *)
Fixpoint set (k : K) (v : V) (d : list (K * V)) : list (K * V) :=
  match d with
  | [] => [(k, v)]
  | (k', v') :: d' =>
      if decide (k = k') then (k, v) :: d' else (k', v') :: set k v d'
  end.

(** [del d[k]] for a key that is present, [d.pop(k, None)] otherwise. *)
Definition del (k : K) (d : list (K * V)) : list (K * V) :=
  filter (fun kv => k <> kv.1) d.

(** [d.update(e)]. *)
Definition update (d e : list (K * V)) : list (K * V) :=
  foldl (fun acc kv => set kv.1 kv.2 acc) d e.

(** [d.setdefault(k, v)] as a statement. *)
Definition setdefault (k : K) (v : V) (d : list (K * V)) : list (K * V) :=
  if mem k d then d else set k v d.

(** A dictionary comprehension or [dict(pairs)]: later pairs win. *)
Definition of_pairs (l : list (K * V)) : list (K * V) := update [] l.

Definition wf (d : list (K * V)) : Prop := NoDup (keys d).

Lemma get_set_eq k v d : get k (set k v d) = Some v.
Proof.
  induction d as [|[k' v'] d IH]; simpl.
  - by case_decide.
  - case_decide; simpl; case_decide; done.
Qed.

Lemma get_set_ne k k' v d : k <> k' -> get k (set k' v d) = get k d.
Proof.
  intros Hne. induction d as [|[k2 v2] d IH]; simpl.
  - by case_decide.
  - case_decide as Hk; simpl.
    + destruct (decide (k = k')), (decide (k = k2)); congruence.
    + by case_decide.
Qed.

Lemma get_del_eq k d : get k (del k d) = None.
Proof.
  unfold del. induction d as [|[k' v'] d IH]; [done|].
  rewrite filter_cons. case_decide as Hk; simpl in *; [|done].
  by case_decide.
Qed.

Lemma get_del_ne k k' d : k <> k' -> get k (del k' d) = get k d.
Proof.
  intros Hne. unfold del. induction d as [|[k2 v2] d IH]; [done|].
  rewrite filter_cons. destruct (decide (k' = k2)) as [<-|Hk].
  - rewrite decide_False by (simpl; tauto). simpl. by rewrite decide_False.
  - rewrite decide_True by done. simpl. by rewrite IH.
Qed.

Lemma get_Some_In k v d : get k d = Some v -> In (k, v) d.
Proof.
  induction d as [|[k' v'] d IH]; simpl; [done|].
  case_decide; intros; simplify_eq; auto.
Qed.

Lemma In_get k v d : wf d -> In (k, v) d -> get k d = Some v.
Proof.
  unfold wf, keys. induction d as [|[k' v'] d IH]; simpl; [done|].
  intros [Hk Hnd]%NoDup_cons [Heq|Hin].
  - simplify_eq. by case_decide.
  - case_decide; [subst|by auto].
    destruct Hk. apply list_elem_of_In. by apply (in_map fst) in Hin.
Qed.

Lemma keys_set k v d :
  keys (set k v d) = if mem k d then keys d else keys d ++ [k].
Proof.
  unfold mem, keys. induction d as [|[k' v'] d IH]; simpl; [done|].
  case_decide; simpl.
  - by subst.
  - rewrite IH. by destruct (get k d).
Qed.

Lemma mem_In k d : mem k d = true <-> k ∈ keys d.
Proof.
  unfold mem, keys. induction d as [|[k' v'] d IH]; simpl.
  - split; [done|]. by intros ?%not_elem_of_nil.
  - rewrite elem_of_cons. case_decide; [naive_solver|]. rewrite IH. naive_solver.
Qed.

Lemma wf_set k v d : wf d -> wf (set k v d).
Proof.
  unfold wf. intros Hwf. rewrite keys_set.
  destruct (mem k d) eqn:Hm; [done|].
  apply NoDup_app; split; [done|]. split; [|apply NoDup_singleton].
  intros x Hx ->%list_elem_of_singleton. apply mem_In in Hx. congruence.
Qed.

Lemma wf_del k d : wf d -> wf (del k d).
Proof.
  unfold wf, keys, del. intros Hwf.
  apply (sublist_NoDup (map fst (filter (λ kv : K * V, k ≠ kv.1) d)) (map fst d)); [done|].
  clear Hwf. induction d as [|kv d IH]; [constructor|].
  rewrite filter_cons. case_decide; simpl; by constructor.
Qed.

Lemma wf_update d e : wf d -> wf (update d e).
Proof.
  unfold update. revert d. induction e as [|kv e IH]; intros d Hd; simpl; [done|].
  by apply IH, wf_set.
Qed.

Lemma wf_nil : wf [].
Proof. apply NoDup_nil_2. Qed.

Lemma wf_of_pairs l : wf (of_pairs l).
Proof. apply wf_update, wf_nil. Qed.

End Dict.
End Dict.

(** ** Byte strings in pieces *)

(** [take]/[drop] lemmas stated with integer positions. *)

Lemma zlen_nonneg {A} (l : list A) : 0 <= zlen l.
Proof. unfold zlen. lia. Qed.

Lemma zlen_app {A} (l k : list A) : zlen (l ++ k) = zlen l + zlen k.
Proof. unfold zlen. rewrite length_app. lia. Qed.

Lemma zlen_nil {A} : zlen (@nil A) = 0.
Proof. done. Qed.

Lemma zlen_cons {A} (x : A) l : zlen (x :: l) = 1 + zlen l.
Proof. unfold zlen. simpl. lia. Qed.

Lemma zlen_replicate {A} n (x : A) : zlen (replicate n x) = Z.of_nat n.
Proof. unfold zlen. by rewrite length_replicate. Qed.

Lemma zlen_0 {A} (l : list A) : zlen l <= 0 -> l = [].
Proof. destruct l; [done|]. rewrite zlen_cons. pose proof (zlen_nonneg l). lia. Qed.

Lemma zlen_pos {A} (l : list A) : l <> [] -> 0 < zlen l.
Proof. destruct l; [done|]. intros _. rewrite zlen_cons. pose proof (zlen_nonneg l). lia. Qed.

Lemma nonempty_false {A} (l : list A) : nonempty l = false <-> l = [].
Proof. by destruct l. Qed.

Lemma zlen_ztake {A} n (l : list A) : 0 <= n -> zlen (ztake n l) = Z.min n (zlen l).
Proof. unfold zlen, ztake. rewrite length_take. lia. Qed.

Lemma zlen_ztake_le {A} n (l : list A) : 0 <= n -> zlen (ztake n l) <= n.
Proof. intros. rewrite zlen_ztake by done. lia. Qed.

Lemma zlen_zdrop {A} n (l : list A) :
  0 <= n -> zlen (zdrop n l) = Z.max 0 (zlen l - n).
Proof. unfold zlen, zdrop. rewrite length_drop. lia. Qed.

Lemma ztake_zdrop {A} n (l : list A) : ztake n l ++ zdrop n l = l.
Proof. apply take_drop. Qed.

Lemma ztake_ge {A} n (l : list A) : zlen l <= n -> ztake n l = l.
Proof. unfold zlen, ztake. intros. apply take_ge. lia. Qed.

Lemma ztake_0 {A} n (l : list A) : n <= 0 -> ztake n l = [].
Proof. unfold ztake. intros. by replace (Z.to_nat n) with 0%nat by lia. Qed.

Lemma zdrop_0 {A} n (l : list A) : n <= 0 -> zdrop n l = l.
Proof. unfold zdrop. intros. by replace (Z.to_nat n) with 0%nat by lia. Qed.

Lemma zdrop_ge {A} n (l : list A) : zlen l <= n -> zdrop n l = [].
Proof. unfold zlen, zdrop. intros. apply drop_ge. lia. Qed.

Lemma ztake_app {A} n (l k : list A) :
  ztake n (l ++ k) = ztake n l ++ ztake (n - zlen l) k.
Proof.
  unfold ztake, zlen. rewrite take_app. do 2 f_equal. lia.
Qed.

Lemma zdrop_app {A} n (l k : list A) :
  zdrop n (l ++ k) = zdrop n l ++ zdrop (n - zlen l) k.
Proof. unfold zdrop, zlen. rewrite drop_app. do 2 f_equal. lia. Qed.

Lemma zdrop_zdrop {A} n m (l : list A) :
  0 <= n -> 0 <= m -> zdrop n (zdrop m l) = zdrop (m + n) l.
Proof. unfold zdrop. intros. rewrite drop_drop. f_equal. lia. Qed.

Lemma ztake_ztake {A} n m (l : list A) :
  0 <= n -> 0 <= m -> ztake n (ztake m l) = ztake (Z.min n m) l.
Proof. unfold ztake. intros. rewrite take_take. f_equal. lia. Qed.

Lemma zdrop_ztake {A} n m (l : list A) :
  0 <= n -> zdrop n (ztake m l) = ztake (m - n) (zdrop n l).
Proof.
  unfold zdrop, ztake. intros. rewrite skipn_firstn_comm. f_equal. lia.
Qed.

Lemma zslice_spec {A} b e (l : list A) : zslice b e l = ztake (e - b) (zdrop b l).
Proof. done. Qed.

Lemma zslice_full {A} (l : list A) : zslice 0 (zlen l) l = l.
Proof. rewrite zslice_spec, zdrop_0, ztake_ge; [done|lia|lia]. Qed.

Lemma zslice_nil {A} b e (l : list A) : e <= b -> zslice b e l = [].
Proof. intros. rewrite zslice_spec. apply ztake_0. lia. Qed.

Lemma zlen_zslice {A} b e (l : list A) :
  0 <= b -> b <= e -> e <= zlen l -> zlen (zslice b e l) = e - b.
Proof.
  intros. rewrite zslice_spec, zlen_ztake, zlen_zdrop by lia. lia.
Qed.

Lemma zslice_split {A} b m e (l : list A) :
  0 <= b -> b <= m -> m <= e -> zslice b e l = zslice b m l ++ zslice m e l.
Proof.
  intros. rewrite !zslice_spec.
  rewrite <- (ztake_zdrop (m - b) (ztake (e - b) (zdrop b l))).
  rewrite ztake_ztake, zdrop_ztake, zdrop_zdrop by lia.
  f_equal; f_equal; try lia. f_equal. lia.
Qed.

Lemma zslice_clip {A} b e (l : list A) :
  0 <= b -> zlen l <= e -> zslice b e l = zslice b (zlen l) l.
Proof.
  intros. rewrite !zslice_spec.
  destruct (decide (zlen l <= b)).
  - rewrite !zdrop_ge by lia. unfold ztake. by rewrite !take_nil.
  - rewrite !ztake_ge; [done| |]; rewrite zlen_zdrop; lia.
Qed.

Lemma zslice_app_l {A} b e (l k : list A) :
  0 <= b -> e <= zlen l -> zslice b e (l ++ k) = zslice b e l.
Proof.
  intros. rewrite !zslice_spec.
  destruct (decide (e <= b)); [by rewrite !ztake_0 by lia|].
  rewrite zdrop_app, ztake_app, (ztake_0 _ (zdrop (b - zlen l) k)).
  - apply app_nil_r.
  - rewrite zlen_zdrop; lia.
Qed.

Lemma zslice_app_r {A} b e (l k : list A) :
  zlen l <= b -> zslice b e (l ++ k) = zslice (b - zlen l) (e - zlen l) k.
Proof.
  intros. pose proof (zlen_nonneg l). rewrite !zslice_spec, zdrop_app, zdrop_ge by lia.
  simpl. f_equal. lia.
Qed.

Lemma zslice_app {A} b e (l k : list A) :
  0 <= b -> zslice b e (l ++ k) =
            zslice b (Z.min e (zlen l)) l ++ zslice (Z.max 0 (b - zlen l)) (e - zlen l) k.
Proof.
  intros Hb. pose proof (zlen_nonneg l). destruct (decide (zlen l <= b)).
  - rewrite (zslice_nil b (Z.min e (zlen l))), zslice_app_r, Z.max_r by lia. done.
  - rewrite Z.max_l by lia. destruct (decide (e <= zlen l)).
    + rewrite Z.min_l, (zslice_nil 0 (e - zlen l)), app_nil_r by lia. apply zslice_app_l; lia.
    + rewrite Z.min_r, (zslice_split b (zlen l) e) by lia. f_equal.
      * apply zslice_app_l; lia.
      * rewrite zslice_app_r by lia. f_equal; lia.
Qed.

Lemma znth_lookup {A} (l : list A) i x : znth l i = Some x <-> 0 <= i /\ l !! Z.to_nat i = Some x.
Proof.
  unfold znth. destruct (i <? 0) eqn:Hi; [apply Z.ltb_lt in Hi|apply Z.ltb_ge in Hi].
  - split; [done|]. lia.
  - naive_solver.
Qed.

Lemma znth_app_r {A} (l k : list A) i : 0 <= i -> znth (l ++ k) (zlen l + i) = znth k i.
Proof.
  intros Hi. unfold znth, zlen. rewrite !(proj2 (Z.ltb_ge _ _)) by lia.
  rewrite lookup_app_r by lia. f_equal. lia.
Qed.

Lemma znth_Some {A} (l : list A) i : 0 <= i < zlen l -> exists x, znth l i = Some x.
Proof.
  unfold zlen. intros Hi. unfold znth. rewrite (proj2 (Z.ltb_ge _ _)) by lia.
  apply lookup_lt_is_Some. lia.
Qed.

Lemma zslice_zslice {A} b e b' e' (l : list A) :
  0 <= b -> 0 <= b' -> b + e' <= e ->
  zslice b' e' (zslice b e l) = zslice (b + b') (b + e') l.
Proof.
  intros. rewrite !zslice_spec. rewrite zdrop_ztake, zdrop_zdrop by lia.
  destruct (decide (e' <= b')); [by rewrite !ztake_0 by lia|].
  rewrite ztake_ztake by lia. f_equal. lia.
Qed.

Lemma zsum_app l k : zsum (l ++ k) = zsum l + zsum k.
Proof. unfold zsum. induction l; simpl; lia. Qed.

Lemma zsum_repeat n x : zsum (replicate n x) = Z.of_nat n * x.
Proof. unfold zsum. induction n; simpl; lia. Qed.

Lemma zsum_nonneg l : Forall (fun x => 0 <= x) l -> 0 <= zsum l.
Proof. unfold zsum. induction 1; simpl; lia. Qed.

(** The pieces of [l] of [n] items each, the last one possibly short: what
    [for start in range(0, len(l), n): l[start:start+n]] walks over. *)
Fixpoint chunks_fuel {A} (fuel : nat) (n : Z) (l : list A) : list (list A) :=
  match fuel with
  | O => []
  | S fuel =>
      match l with
      | [] => []
      | _ => ztake n l :: chunks_fuel fuel n (zdrop n l)
      end
  end.

Definition chunks {A} (n : Z) (l : list A) : list (list A) :=
  chunks_fuel (length l) n l.

Lemma chunks_fuel_enough {A} f g n (l : list A) :
  0 < n -> (length l <= f)%nat -> (length l <= g)%nat ->
  chunks_fuel f n l = chunks_fuel g n l.
Proof.
  intros Hn. revert g l. induction f as [|f IH]; intros g l Hf Hg.
  - destruct l; [by destruct g|simpl in Hf; lia].
  - destruct g as [|g]; [destruct l; [done|simpl in Hg; lia]|].
    simpl. destruct l as [|x l]; [done|]. f_equal.
    apply IH; unfold zdrop; rewrite length_drop; simpl in *; lia.
Qed.

Lemma chunks_nil {A} n : chunks n (@nil A) = [].
Proof. done. Qed.

Lemma chunks_unfold {A} n (l : list A) :
  0 < n -> l <> [] -> chunks n l = ztake n l :: chunks n (zdrop n l).
Proof.
  intros Hn Hl. unfold chunks. destruct l as [|x l]; [done|].
  simpl length. cbn [chunks_fuel]. f_equal.
  apply chunks_fuel_enough; [lia| |]; unfold zdrop; rewrite length_drop; simpl; lia.
Qed.

Lemma chunks_ind {A} n (P : list A -> Prop) :
  0 < n -> P [] -> (forall l, l <> [] -> P (zdrop n l) -> P l) -> forall l, P l.
Proof.
  intros Hn H0 HS l. remember (length l) as k eqn:Hk. revert l Hk.
  induction (lt_wf k) as [k _ IH]. intros l ->.
  destruct l as [|x l]; [done|]. apply HS; [done|].
  eapply IH; [|done]. unfold zdrop. rewrite length_drop. simpl. lia.
Qed.

(** Induction on a list in steps of [n] items. *)
Ltac chunk_induction n l :=
  pattern l; apply (chunks_ind n); [lia|try done|clear l; intros l Hl IH].

Lemma concat_chunks {A} n (l : list A) : 0 < n -> concat (chunks n l) = l.
Proof.
  intros Hn. chunk_induction n l.
  rewrite chunks_unfold by done. simpl. rewrite IH. apply ztake_zdrop.
Qed.

(** Cutting a concatenation of [n]-item pieces gives the pieces back. *)
Lemma chunks_concat {A} n (ps : list (list A)) :
  0 < n -> Forall (fun p => zlen p = n) ps -> chunks n (concat ps) = ps.
Proof.
  intros Hn. induction 1 as [|p ps Hp _ IH]; [done|]. simpl.
  rewrite chunks_unfold; [|done|].
  - f_equal.
    + rewrite ztake_app, ztake_ge, ztake_0 by lia. apply app_nil_r.
    + rewrite zdrop_app, zdrop_ge, zdrop_0 by lia. done.
  - destruct p; [rewrite zlen_nil in Hp; lia|done].
Qed.

(** ** [rmapM] *)

Lemma rmapM_Forall2 {E A B} (f : A -> result E B) l r :
  rmapM f l = Ok r <-> Forall2 (fun x y => f x = Ok y) l r.
Proof.
  revert r. induction l as [|x l IH]; intros r; simpl.
  - split; [intros [= <-]; constructor|by inversion 1].
  - destruct (f x) as [y|e] eqn:Hf; simpl.
    + destruct (rmapM f l) as [ys|e'] eqn:Hl; simpl; split.
      * intros [= <-]. constructor; [done|]. by apply IH.
      * inversion 1; subst. apply IH in H4. congruence.
      * done.
      * inversion 1; subst. apply IH in H4. congruence.
    + split; [done|]. inversion 1. congruence.
Qed.

Lemma rmapM_ok {E A B} (f : A -> result E B) (g : A -> B) l :
  Forall (fun x => f x = Ok (g x)) l -> rmapM f l = Ok (map g l).
Proof. induction 1 as [|x l Hx _ IH]; simpl; [done|]. by rewrite Hx, IH. Qed.

(** A dictionary built from pairs with distinct keys is those pairs. *)
Lemma dict_update_app {K V} `{EqDecision K} (d e : dict K V) :
  NoDup (Dict.keys (d ++ e)) -> Dict.update d e = d ++ e.
Proof.
  unfold Dict.update. revert d. induction e as [|[k v] e IH]; intros d Hnd; simpl.
  - by rewrite app_nil_r.
  - assert (Dict.set k v d = d ++ [(k, v)]) as ->.
    { clear IH. unfold Dict.keys in Hnd. induction d as [|[k' v'] d IHd]; simpl; [done|].
      simpl in Hnd. apply NoDup_cons in Hnd as [Hk Hnd].
      case_decide as Hd; [subst|by rewrite IHd].
      destruct Hk. rewrite map_app. apply elem_of_app. right. simpl. left. }
    rewrite IH; rewrite <- app_assoc; done.
Qed.

Lemma dict_of_pairs_id {K V} `{EqDecision K} (d : dict K V) :
  Dict.wf d -> Dict.of_pairs d = d.
Proof. intros. unfold Dict.of_pairs. by rewrite dict_update_app. Qed.

(** ** [list.sort(key=...)]: stable, ascending *)

Fixpoint insert_by {A} (key : A -> Z) (x : A) (l : list A) : list A :=
  match l with
  | [] => [x]
  | y :: l' => if key x <=? key y then x :: l else y :: insert_by key x l'
  end.

Definition sort_by {A} (key : A -> Z) (l : list A) : list A := foldr (insert_by key) [] l.

Lemma insert_by_perm {A} (key : A -> Z) x l : insert_by key x l ≡ₚ x :: l.
Proof.
  induction l as [|y l IH]; simpl; [done|]. destruct (key x <=? key y); [done|].
  rewrite IH. apply Permutation_swap.
Qed.

Lemma sort_by_perm {A} (key : A -> Z) l : sort_by key l ≡ₚ l.
Proof.
  unfold sort_by. induction l as [|x l IH]; simpl; [done|].
  rewrite insert_by_perm. by constructor.
Qed.

Lemma sort_by_sorted {A} (key : A -> Z) l :
  StronglySorted (fun x y => key x <= key y) (sort_by key l).
Proof.
  unfold sort_by. induction l as [|x l IH]; simpl; [constructor|].
  remember (foldr (insert_by key) [] l) as s eqn:Hs. clear Hs.
  induction IH as [|y s Hs IH Hy]; simpl; [repeat constructor|].
  destruct (key x <=? key y) eqn:Hle.
  - apply Z.leb_le in Hle. constructor; [by constructor|].
    constructor; [done|]. eapply Forall_impl; [exact Hy|]. simpl. lia.
  - apply Z.leb_gt in Hle. constructor; [done|].
    rewrite insert_by_perm. constructor; [lia|done].
Qed.

(** [l.index(x)]. *)
Fixpoint index_in {A} `{EqDecision A} (x : A) (l : list A) : option Z :=
  match l with
  | [] => None
  | y :: l => if decide (x = y) then Some 0 else option_map (Z.add 1) (index_in x l)
  end.

(** ** Entries of a dictionary *)

Lemma dict_set_elem {K V} `{EqDecision K} (k k' : K) (v v' : V) d :
  (k, v) ∈ Dict.set k' v' d -> (k = k' /\ v = v') \/ (k, v) ∈ d.
Proof.
  induction d as [|[a b] d IH]; simpl.
  - intros [= -> ->]%list_elem_of_singleton. by left.
  - case_decide as Hd; rewrite !elem_of_cons.
    + intros [[= -> ->]|Hin]; [by left|]. right. by right.
    + intros [Heq|Hin]; [right; by left|]. destruct (IH Hin); [by left|]. right. by right.
Qed.

Lemma dict_update_elem {K V} `{EqDecision K} (d e : dict K V) k v :
  (k, v) ∈ Dict.update d e -> (k, v) ∈ d \/ (k, v) ∈ e.
Proof.
  unfold Dict.update. revert d. induction e as [|[a b] e IH]; intros d; simpl; [by left|].
  intros [Hin|Hin]%IH; [|right; by right]. apply dict_set_elem in Hin as [[-> ->]|Hin]; [|by left].
  right. by left.
Qed.

Lemma of_pairs_elem {K V} `{EqDecision K} (l : list (K * V)) k v :
  Dict.get k (Dict.of_pairs l) = Some v -> (k, v) ∈ l.
Proof.
  intros Hg%Dict.get_Some_In. apply list_elem_of_In, dict_update_elem in Hg as [Hin|Hin]; [|done].
  by apply not_elem_of_nil in Hin.
Qed.

Lemma of_pairs_mem {K V} `{EqDecision K} (l : list (K * V)) k v :
  (k, v) ∈ l -> exists v', Dict.get k (Dict.of_pairs l) = Some v'.
Proof.
  unfold Dict.of_pairs, Dict.update. revert v. cut (forall d : dict K V,
    (is_Some (Dict.get k d) \/ exists v, (k, v) ∈ l) ->
    exists v', Dict.get k (foldl (fun acc kv => Dict.set kv.1 kv.2 acc) d l) = Some v').
  { intros Hcut v Hin. apply Hcut. right. by exists v. }
  induction l as [|[a b] l IH]; intros d [Hd|[v Hin]]; simpl.
  - by destruct Hd as [x Hx]; exists x.
  - by apply not_elem_of_nil in Hin.
  - apply IH. left. destruct (decide (k = a)) as [->|Hne]; [rewrite Dict.get_set_eq; eauto|by rewrite Dict.get_set_ne].
  - apply IH. apply elem_of_cons in Hin as [[= -> ->]|Hin]; [left; rewrite Dict.get_set_eq; eauto|right; by exists v].
Qed.

(** ** The content of a file under positioned writes

    [seek] and [write], or [os.pwrite], on a file in memory or on disk: the
    bytes a gap leaves read as zeros. *)

Definition byte_at (l : bytes) (p : Z) : option byte := znth l p.

(** [os.pwrite] of [data]: the file grows with zeros up to [offset]. *)
Definition pwrite_bytes (offset : Z) (data content : bytes) : bytes :=
  ztake offset content ++ replicate (Z.to_nat (offset - zlen content)) Byte.x00 ++ data ++ zdrop (offset + zlen data) content.

Lemma byte_at_ge l p : zlen l <= p -> byte_at l p = None.
Proof.
  intros Hp. unfold byte_at, znth. destruct (Z.ltb_spec p 0); [done|]. apply lookup_ge_None. unfold zlen in Hp. lia.
Qed.

Lemma zlen_pwrite_max offset data file : 0 <= offset ->
  zlen (pwrite_bytes offset data file) = Z.max (zlen file) (offset + zlen data).
Proof.
  intros Ho. unfold pwrite_bytes. pose proof (zlen_nonneg data). pose proof (zlen_nonneg file).
  rewrite !zlen_app, zlen_replicate. destruct (Z.leb_spec offset (zlen file)).
  - rewrite zlen_ztake by lia. destruct (Z.leb_spec (offset + zlen data) (zlen file)).
    + rewrite zlen_zdrop by lia. lia.
    + rewrite zdrop_ge by lia. change (zlen []) with 0. lia.
  - rewrite ztake_ge, zdrop_ge by lia. change (zlen []) with 0. lia.
Qed.

(** Every byte of the file: the data, what was there, or a zero of the gap. *)
Lemma byte_at_written offset data file p : 0 <= offset -> 0 <= p ->
  byte_at (pwrite_bytes offset data file) p =
    if (offset <=? p) && (p <? offset + zlen data) then byte_at data (p - offset)
    else if p <? zlen file then byte_at file p
    else if p <? offset then Some Byte.x00 else None.
Proof.
  intros Ho Hp. unfold byte_at, pwrite_bytes. pose proof (zlen_nonneg data). pose proof (zlen_nonneg file).
  unfold znth. rewrite (proj2 (Z.ltb_ge p 0)) by lia. set (k := Z.to_nat p). assert (Z.of_nat k = p) as Hk by lia.
  assert (length (ztake offset file) = Nat.min (Z.to_nat offset) (length file)) as Ht by (unfold ztake; apply length_take).
  destruct (Z.leb_spec offset p) as [Hop|Hop]; cbn [andb].
  - rewrite lookup_app_r by lia. rewrite lookup_app_r by (rewrite length_replicate; unfold zlen in *; lia).
    rewrite length_replicate. destruct (Z.ltb_spec p (offset + zlen data)) as [Hpd|Hpd].
    + rewrite (proj2 (Z.ltb_ge (p - offset) 0)) by lia. rewrite lookup_app_l by (unfold zlen in *; lia).
      f_equal. unfold zlen in *. lia.
    + rewrite lookup_app_r by (unfold zlen in *; lia). unfold zdrop. rewrite lookup_drop.
      destruct (Z.ltb_spec p (zlen file)).
      * f_equal. unfold zlen in *. lia.
      * rewrite (proj2 (Z.ltb_ge p offset)) by lia. apply lookup_ge_None. unfold zlen in *. lia.
  - destruct (Z.ltb_spec p (zlen file)).
    + rewrite lookup_app_l by (unfold zlen in *; lia). unfold ztake. rewrite lookup_take_lt by lia. done.
    + rewrite (proj2 (Z.ltb_lt p offset)) by lia. rewrite lookup_app_r by (unfold zlen in *; lia).
      rewrite lookup_app_l by (rewrite length_replicate; unfold zlen in *; lia).
      apply lookup_replicate. split; [done|]. unfold zlen in *. lia.
Qed.
