(* ===== verification/Errors.v ===== *)
(** * Exceptions

    The exception classes of [tgdcfs/errors/] and the built-in Python
    exceptions the modelled code raises or catches.  A [result] of the
    components is [Prelude.result exn]. *)

From S2P Require Import Prelude.

Open Scope Z_scope.
Open Scope py_scope.

Inductive ErrorCode : Set :=
| UNKNOWN
| FILE_IS_EMPTY
| FILE_OR_DIR_ALREADY_EXISTS
| FILE_OR_DIR_DOES_NOT_EXIST
| INVALID_NAME
| RELATIVE_PATH
| UNKNOWN_COMMAND
| DIR_IS_NOT_EMPTY
| FILE_SIZE_TOO_LARGE
| MESSAGE_NOT_FOUND
| BAD_AUTHENTICATION
| METADATA_NOT_FOUND
| METADATA_NOT_INITIALIZED
| UNDOWNLOADABLE_MESSAGE
| NO_PINNED_MESSAGE
| PINNED_MESSAGE_NOT_SUPPORTED
| TASK_CANCELLED
| LOGIN_FAILED
| DUPLICATED_CHANNEL_ID_OR_NAME.

#[export] Instance ErrorCode_eq_dec : EqDecision ErrorCode.
Proof. solve_decision. Defined.

Definition ErrorCode_value (c : ErrorCode) : Z :=
  match c with
  | UNKNOWN => 0
  | FILE_IS_EMPTY => 1
  | FILE_OR_DIR_ALREADY_EXISTS => 2
  | FILE_OR_DIR_DOES_NOT_EXIST => 3
  | INVALID_NAME => 4
  | RELATIVE_PATH => 5
  | UNKNOWN_COMMAND => 6
  | DIR_IS_NOT_EMPTY => 7
  | FILE_SIZE_TOO_LARGE => 8
  | MESSAGE_NOT_FOUND => 9
  | BAD_AUTHENTICATION => 10
  | METADATA_NOT_FOUND => 11
  | METADATA_NOT_INITIALIZED => 12
  | UNDOWNLOADABLE_MESSAGE => 13
  | NO_PINNED_MESSAGE => 14
  | PINNED_MESSAGE_NOT_SUPPORTED => 15
  | TASK_CANCELLED => 16
  | LOGIN_FAILED => 17
  | DUPLICATED_CHANNEL_ID_OR_NAME => 18
  end.

(** The subclasses of [asyncssh.SFTPError] the code raises. *)
Inductive SFTPStatus : Set :=
| SFTPNoSuchFile
| SFTPFailure
| SFTPPermissionDenied
| SFTPOpUnsupported
| SFTPInvalidHandle
| SFTPFileAlreadyExists
| SFTPNotADirectory
| SFTPFileIsADirectory
| SFTPDirNotEmpty.

#[export] Instance SFTPStatus_eq_dec : EqDecision SFTPStatus.
Proof. solve_decision. Defined.

(** One constructor per exception class; the arguments are the
    constructor's arguments.  The built-in exceptions carry no message. *)
Inductive exn : Set :=
| TechnicalError (message : string)
(* errors/path.py *)
| FileOrDirectoryAlreadyExists (path : string)
| FileOrDirectoryDoesNotExist (path : string)
| InvalidName (name : string)
| InvalidPath (path : string)
| DirectoryIsNotEmpty (path : string)
(* errors/telegram.py *)
| FileSizeTooLarge (size : Z)
| MessageNotFound (message_id : Z)
(* errors/tgdcfs.py *)
| MetadataNotFound
| MetadataNotInitialized
| UnDownloadableMessage (message_id : Z)
| NoPinnedMessage
| PinnedMessageNotSupported
| TaskCancelled (file_name : string)
| LoginFailed (message : string)
| DuplicatedChannelIdOrName (channel_id_or_name : string)
(* crypto *)
| InvalidHeaderError
| CipherError
| NameEncryptionError
| PathNameEncryptionError
(* Python and its standard library *)
| ValueError
| TypeError
| KeyError
| IndexError
| AttributeError
| RuntimeError
| RecursionError
| ZeroDivisionError
| OverflowError
| UnicodeDecodeError
| NotImplementedError
| OSError
| StopAsyncIteration
| StructError
| BinasciiError
| CancelledError
(* raised by a backend library *)
| BackendError (what : Z)
| FileReferenceExpiredError
| MessageNotModifiedError
| RPCError (message : string)
| HTTPException (status code : Z)                (* discord.py *)
| RateLimited
| ClientDisconnect                               (* starlette *)
| SFTPError (status : SFTPStatus)                 (* asyncssh *)
(* not an exception: the bound of a loop of the model was reached *)
| OutOfFuel.

#[export] Instance exn_eq_dec : EqDecision exn.
Proof. solve_decision. Defined.

Abbreviation exc := (result exn).

(** [TechnicalError] and its subclasses. *)
Definition is_TechnicalError (e : exn) : bool :=
  match e with
  | TechnicalError _ | FileOrDirectoryAlreadyExists _ | FileOrDirectoryDoesNotExist _
  | InvalidName _ | InvalidPath _ | DirectoryIsNotEmpty _ | FileSizeTooLarge _
  | MessageNotFound _ | MetadataNotFound | MetadataNotInitialized
  | UnDownloadableMessage _ | NoPinnedMessage | PinnedMessageNotSupported
  | TaskCancelled _ | LoginFailed _ | DuplicatedChannelIdOrName _ => true
  | _ => false
  end.

(** [BusinessError.code] of the classes that carry one. *)
Definition exn_code (e : exn) : option ErrorCode :=
  match e with
  | FileOrDirectoryAlreadyExists _ => Some FILE_OR_DIR_ALREADY_EXISTS
  | FileOrDirectoryDoesNotExist _ => Some FILE_OR_DIR_DOES_NOT_EXIST
  | InvalidName _ => Some INVALID_NAME
  | InvalidPath _ => Some RELATIVE_PATH
  | DirectoryIsNotEmpty _ => Some DIR_IS_NOT_EMPTY
  | FileSizeTooLarge _ => Some FILE_SIZE_TOO_LARGE
  | MessageNotFound _ => Some MESSAGE_NOT_FOUND
  | MetadataNotFound => Some METADATA_NOT_FOUND
  | MetadataNotInitialized => Some METADATA_NOT_INITIALIZED
  | UnDownloadableMessage _ => Some UNDOWNLOADABLE_MESSAGE
  | NoPinnedMessage => Some NO_PINNED_MESSAGE
  | PinnedMessageNotSupported => Some PINNED_MESSAGE_NOT_SUPPORTED
  | TaskCancelled _ => Some TASK_CANCELLED
  | LoginFailed _ => Some LOGIN_FAILED
  | DuplicatedChannelIdOrName _ => Some DUPLICATED_CHANNEL_ID_OR_NAME
  | _ => None
  end.

(** [TechnicalError.http_error], as the status code. *)
Definition exn_http_error (e : exn) : option Z :=
  match e with
  | TechnicalError _ => Some 500
  | FileOrDirectoryAlreadyExists _ => Some 409
  | FileOrDirectoryDoesNotExist _ => Some 404
  | FileSizeTooLarge _ => Some 413
  | MessageNotFound _ => Some 404
  | _ => match exn_code e with Some _ => Some 400 | None => None end
  end.

(** The [message] the constructors of [errors/path.py] build. *)
Definition exn_message (e : exn) : option string :=
  match e with
  | FileOrDirectoryAlreadyExists p => Some ("'" +:+ p +:+ "' already exists")
  | FileOrDirectoryDoesNotExist p => Some ("No such file or directory: '" +:+ p +:+ "'")
  | InvalidName n =>
      Some ("Invalid name: '" +:+ n +:+ "'. Name cannot begin with - or contain /")
  | InvalidPath p =>
      Some ("Path invalid: '" +:+ p +:+
            "'. Path must start with /, and must not end with /")
  | DirectoryIsNotEmpty p =>
      Some ("Cannot remove a directory that is not empty: '" +:+ p +:+ "'")
  | _ => None
  end.

(** The exceptions a handler for [Exception] catches: everything but
    [asyncio.CancelledError], which derives from [BaseException]. *)
Definition is_Exception (e : exn) : bool :=
  match e with CancelledError => false | _ => true end.

(** [ValueError] and its subclasses. *)
Definition is_ValueError (e : exn) : bool :=
  match e with
  | ValueError | UnicodeDecodeError | BinasciiError | NameEncryptionError | PathNameEncryptionError | InvalidHeaderError => true
  | _ => false
  end.

Lemma exn_code_technical e c : exn_code e = Some c -> is_TechnicalError e = true.
Proof. by destruct e. Qed.

Lemma exn_http_technical e :
  is_TechnicalError e = true <-> is_Some (exn_http_error e).
Proof. destruct e; simpl; split; (done || (by intros [? ?]) || eauto). Qed.
