(* ===== verification/Codec.v ===== *)
(** * Byte encodings of the Python standard library

    [struct.pack]/[unpack] with big-endian unsigned formats, and
    [base64.urlsafe_b64encode]/[urlsafe_b64decode] (the decoder is
    [binascii.a2b_base64] in its non-strict mode: it skips characters
    outside the alphabet and stops at a complete padding). *)

From S2P Require Import Prelude Errors.

Open Scope Z_scope.
Open Scope py_scope.

(** ** Bytes and integers *)

Definition byte_of_Z (z : Z) : byte :=
  default x00 (Byte.of_N (Z.to_N (z mod 256))).

Definition Z_of_byte (b : byte) : Z := Z.of_N (Byte.to_N b).

Lemma Z_of_byte_range b : 0 <= Z_of_byte b < 256.
Proof. unfold Z_of_byte. pose proof (Byte.to_N_bounded b). lia. Qed.

Lemma byte_of_Z_of_byte b : byte_of_Z (Z_of_byte b) = b.
Proof.
  unfold byte_of_Z. rewrite Z.mod_small by apply Z_of_byte_range.
  unfold Z_of_byte. by rewrite N2Z.id, Byte.of_to_N.
Qed.

Lemma Z_of_byte_of_Z z : Z_of_byte (byte_of_Z z) = z mod 256.
Proof.
  unfold byte_of_Z, Z_of_byte.
  pose proof (Z.mod_pos_bound z 256 ltac:(lia)).
  destruct (Byte.of_N (Z.to_N (z mod 256))) as [b|] eqn:Hb.
  - apply Byte.to_of_N in Hb. simpl. rewrite Hb. lia.
  - apply Byte.of_N_None_iff in Hb. lia.
Qed.

Fixpoint be_encode (n : nat) (z : Z) : bytes :=
  match n with
  | O => []
  | S n => be_encode n (z / 256) ++ [byte_of_Z z]
  end.

Definition be_decode (l : bytes) : Z :=
  foldl (fun acc b => acc * 256 + Z_of_byte b) 0 l.

Lemma length_be_encode n z : length (be_encode n z) = n.
Proof. revert z. induction n; intros; simpl; [done|]. rewrite length_app, IHn. simpl. lia. Qed.

Lemma zlen_be_encode n z : zlen (be_encode n z) = Z.of_nat n.
Proof. unfold zlen. by rewrite length_be_encode. Qed.

Lemma be_decode_encode n z :
  0 <= z < 256 ^ Z.of_nat n -> be_decode (be_encode n z) = z.
Proof.
  unfold be_decode. revert z. induction n as [|n IH]; intros z Hz.
  - simpl in *. lia.
  - cbn [be_encode]. rewrite foldl_app. cbn [foldl].
    rewrite Nat2Z.inj_succ, Z.pow_succ_r in Hz by lia.
    rewrite IH, Z_of_byte_of_Z.
    + pose proof (Z.div_mod z 256). lia.
    + split; [apply Z.div_pos; lia|]. apply Z.div_lt_upper_bound; lia.
Qed.

Lemma be_encode_inj n z z' :
  0 <= z < 256 ^ Z.of_nat n -> 0 <= z' < 256 ^ Z.of_nat n ->
  be_encode n z = be_encode n z' -> z = z'.
Proof.
  intros Hz Hz' Heq. rewrite <- (be_decode_encode n z), <- (be_decode_encode n z') by done.
  by rewrite Heq.
Qed.

Lemma be_decode_app l b : be_decode (l ++ [b]) = be_decode l * 256 + Z_of_byte b.
Proof. unfold be_decode. by rewrite foldl_app. Qed.

Lemma be_decode_range l : 0 <= be_decode l < 256 ^ zlen l.
Proof.
  induction l as [|b l IH] using rev_ind; [done|].
  rewrite be_decode_app, zlen_app. pose proof (zlen_nonneg l).
  replace (zlen [b]) with 1 by done. rewrite Z.pow_add_r by lia.
  pose proof (Z_of_byte_range b). nia.
Qed.

Lemma be_encode_decode l : be_encode (length l) (be_decode l) = l.
Proof.
  induction l as [|b l IH] using rev_ind; [done|].
  rewrite length_app, Nat.add_1_r. cbn [be_encode]. rewrite be_decode_app.
  pose proof (Z_of_byte_range b). f_equal.
  - rewrite Z.div_add_l, Z.div_small, Z.add_0_r by lia. done.
  - f_equal. rewrite <- (byte_of_Z_of_byte b) at 2. unfold byte_of_Z.
    by rewrite Z.add_comm, Z.mod_add.
Qed.

(** [struct.pack(">B|H|I|Q", z)] for an [n]-byte format. *)
Definition struct_pack (n : nat) (z : Z) : exc bytes :=
  if (0 <=? z) && (z <? 256 ^ Z.of_nat n) then Ok (be_encode n z) else Raise StructError.

(** [struct.unpack] of one [n]-byte integer. *)
Definition struct_unpack (n : nat) (l : bytes) : exc Z :=
  if (length l =? n)%nat then Ok (be_decode l) else Raise StructError.

Lemma struct_pack_unpack n z l :
  struct_pack n z = Ok l -> length l = n /\ struct_unpack n l = Ok z.
Proof.
  unfold struct_pack, struct_unpack.
  destruct ((0 <=? z) && (z <? 256 ^ Z.of_nat n)) eqn:Hr; [|done].
  apply andb_prop in Hr as [?%Z.leb_le ?%Z.ltb_lt]. intros [= <-].
  rewrite length_be_encode, Nat.eqb_refl, be_decode_encode; done.
Qed.

Lemma struct_unpack_pack n z l : struct_unpack n l = Ok z -> struct_pack n z = Ok l.
Proof.
  unfold struct_pack, struct_unpack. destruct (_ =? _)%nat eqn:Hn; [|done].
  apply Nat.eqb_eq in Hn. intros [= <-]. pose proof (be_decode_range l) as [H0 H1].
  unfold zlen in H1. rewrite Hn in H1.
  rewrite (proj2 (Z.leb_le _ _)), (proj2 (Z.ltb_lt _ _)) by done.
  simpl. rewrite <- Hn. by rewrite be_encode_decode.
Qed.

(** ** base64url *)

Definition b64_alphabet : list ascii :=
  String.list_ascii_of_string "ABCDEFGHIJKLMNOPQRSTUVWXYZabcdefghijklmnopqrstuvwxyz0123456789-_".

Definition b64_char (s : Z) : ascii := default "A"%char (b64_alphabet !! Z.to_nat s).

(** Position of a character in a list. *)
Fixpoint index_of (c : ascii) (l : list ascii) (i : Z) : option Z :=
  match l with
  | [] => None
  | x :: xs => if decide (c = x) then Some i else index_of c xs (i + 1)
  end.

(** [urlsafe_b64decode] maps [-_] to [+/] and decodes with the standard
    alphabet, so both spellings of the last two sextets are accepted. *)
Definition b64_value (c : ascii) : option Z :=
  if decide (c = "+"%char) then Some 62
  else if decide (c = "/"%char) then Some 63
  else index_of c b64_alphabet 0.

Fixpoint b64_encode (l : bytes) : list ascii :=
  match l with
  | [] => []
  | [a] =>
      let a := Z_of_byte a in
      [b64_char (a / 4); b64_char (a mod 4 * 16); "="%char; "="%char]
  | [a; b] =>
      let a := Z_of_byte a in let b := Z_of_byte b in
      [b64_char (a / 4); b64_char (a mod 4 * 16 + b / 16);
       b64_char (b mod 16 * 4); "="%char]
  | a :: b :: c :: r =>
      let a := Z_of_byte a in let b := Z_of_byte b in let c := Z_of_byte c in
      b64_char (a / 4) :: b64_char (a mod 4 * 16 + b / 16)
      :: b64_char (b mod 16 * 4 + c / 64) :: b64_char (c mod 64) :: b64_encode r
  end.

(** The loop of [binascii.a2b_base64]: [quad] is the position in the
    quadruple, [left] the bits carried over, [pads] the padding seen. *)
Fixpoint a2b_base64 (quad left pads : Z) (l : list ascii) : exc bytes :=
  match l with
  | [] => if quad =? 0 then Ok [] else Raise BinasciiError
  | c :: l =>
      if decide (c = "="%char) then
        if (2 <=? quad) && (4 <=? quad + (pads + 1)) then Ok []
        else a2b_base64 quad left (if 2 <=? quad then pads + 1 else pads) l
      else
        match b64_value c with
        | None => a2b_base64 quad left pads l
        | Some v =>
            if quad =? 0 then a2b_base64 1 v 0 l
            else if quad =? 1 then
              let* r := a2b_base64 2 (v mod 16) 0 l in
              Ok (byte_of_Z (left * 4 + v / 16) :: r)
            else if quad =? 2 then
              let* r := a2b_base64 3 (v mod 4) 0 l in
              Ok (byte_of_Z (left * 16 + v / 4) :: r)
            else
              let* r := a2b_base64 0 0 0 l in
              Ok (byte_of_Z (left * 64 + v) :: r)
        end
  end.

Definition b64_decode (l : list ascii) : exc bytes := a2b_base64 0 0 0 l.

(** [s.rstrip("=")] and [s + "=" * (-len(s) % 4)]. *)
Fixpoint rstrip_pad (l : list ascii) : list ascii :=
  match l with
  | [] => []
  | c :: r =>
      match rstrip_pad r with
      | [] => if decide (c = "="%char) then [] else [c]
      | r' => c :: r'
      end
  end.

Definition repad (l : list ascii) : list ascii :=
  l ++ replicate (Z.to_nat (- zlen l mod 4)) "="%char.

Lemma b64_value_char s : 0 <= s < 64 -> b64_value (b64_char s) = Some s.
Proof.
  intros Hs.
  assert (forallb (fun n => bool_decide (b64_value (b64_char (Z.of_nat n)) = Some (Z.of_nat n)))
            (seq 0 64) = true) as Hall by (by vm_compute).
  rewrite forallb_forall in Hall.
  specialize (Hall (Z.to_nat s)). rewrite bool_decide_eq_true in Hall.
  rewrite Z2Nat.id in Hall by lia. apply Hall, in_seq. lia.
Qed.

Lemma b64_char_not_pad s : 0 <= s < 64 -> b64_char s <> "="%char.
Proof.
  intros Hs Heq. pose proof (b64_value_char s Hs) as Hv. rewrite Heq in Hv. done.
Qed.

(** One decoding step on a character of the encoder's alphabet. *)
Lemma a2b_char q left pads s l :
  0 <= s < 64 ->
  a2b_base64 q left pads (b64_char s :: l) =
  if q =? 0 then a2b_base64 1 s 0 l
  else if q =? 1 then
    let* r := a2b_base64 2 (s mod 16) 0 l in Ok (byte_of_Z (left * 4 + s / 16) :: r)
  else if q =? 2 then
    let* r := a2b_base64 3 (s mod 4) 0 l in Ok (byte_of_Z (left * 16 + s / 4) :: r)
  else let* r := a2b_base64 0 0 0 l in Ok (byte_of_Z (left * 64 + s) :: r).
Proof.
  intros Hs. cbn [a2b_base64].
  rewrite decide_False by by apply b64_char_not_pad. by rewrite b64_value_char.
Qed.

(** The padding the encoder writes ends the decoding. *)
Lemma a2b_pad2 left l : a2b_base64 2 left 0 ("="%char :: "="%char :: l) = Ok [].
Proof. done. Qed.

Lemma a2b_pad1 left l : a2b_base64 3 left 0 ("="%char :: l) = Ok [].
Proof. done. Qed.

Ltac byte_ranges :=
  repeat match goal with
  | b : byte |- _ =>
      lazymatch goal with
      | _ : 0 <= Z_of_byte b < 256 |- _ => fail
      | _ => pose proof (Z_of_byte_range b)
      end
  end.

Lemma byte_of_Z_eq z b : z = Z_of_byte b -> byte_of_Z z = b.
Proof. intros ->. apply byte_of_Z_of_byte. Qed.

(** Three bytes at a time. *)
Lemma bytes3_ind (P : bytes -> Prop) :
  P [] -> (forall a, P [a]) -> (forall a b, P [a; b]) ->
  (forall a b c r, P r -> P (a :: b :: c :: r)) -> forall l, P l.
Proof.
  intros H0 H1 H2 H3. fix IH 1. intros [|a [|b [|c r]]].
  - apply H0.
  - apply H1.
  - apply H2.
  - apply H3, IH.
Qed.

Lemma b64_decode_encode l : b64_decode (b64_encode l) = Ok l.
Proof.
  unfold b64_decode. induction l as [|a|a b|a b c r IH] using bytes3_ind;
    cbn [b64_encode]; byte_ranges; [done|..];
    repeat (rewrite a2b_char by zlia; cbn [Z.eqb Pos.eqb rbind]).
  - rewrite a2b_pad2. cbn [rbind]. by repeat f_equal; apply byte_of_Z_eq; zlia.
  - rewrite a2b_pad1. cbn [rbind]. by repeat f_equal; apply byte_of_Z_eq; zlia.
  - rewrite IH. cbn [rbind]. by repeat f_equal; apply byte_of_Z_eq; zlia.
Qed.

(** Stripping the padding and putting it back is the identity on the
    encoder's output. *)
Lemma rstrip_pad_char s l :
  0 <= s < 64 -> rstrip_pad (b64_char s :: l) = b64_char s :: rstrip_pad l.
Proof.
  intros Hs. cbn. destruct (rstrip_pad l); [|done].
  by rewrite decide_False by by apply b64_char_not_pad.
Qed.

Lemma repad_rstrip_encode l : repad (rstrip_pad (b64_encode l)) = b64_encode l.
Proof.
  unfold repad. induction l as [|a|a b|a b c r IH] using bytes3_ind;
    cbn [b64_encode]; byte_ranges; [done|..];
    repeat rewrite rstrip_pad_char by zlia; [done|done|].
  cbn [app]. do 4 f_equal. etransitivity; [|exact IH]. do 3 f_equal.
  rewrite !zlen_cons. pose proof (zlen_nonneg (rstrip_pad (b64_encode r))). zlia.
Qed.

(** Every character of the encoder's output is in its alphabet or padding,
    so the output is a single path segment. *)
Lemma b64_encode_safe l c :
  c ∈ rstrip_pad (b64_encode l) -> c ∈ b64_alphabet.
Proof.
  assert (forall s, 0 <= s < 64 -> b64_char s ∈ b64_alphabet) as Hs.
  { intros s Hs. unfold b64_char.
    destruct (lookup_lt_is_Some_2 b64_alphabet (Z.to_nat s)) as [x Hx].
    { change (length b64_alphabet) with 64%nat. lia. }
    rewrite Hx. simpl. by eapply list_elem_of_lookup_2. }
  induction l as [|a|a b|a b d r IH] using bytes3_ind;
    cbn [b64_encode]; byte_ranges; [by intros ?%not_elem_of_nil|..];
    repeat rewrite rstrip_pad_char by zlia;
    try change (rstrip_pad ["="%char; "="%char]) with (@nil ascii);
    try change (rstrip_pad ["="%char]) with (@nil ascii);
    rewrite ?elem_of_cons, ?elem_of_nil; intros; destruct_or?; subst;
    solve [apply Hs; zlia | tauto].
Qed.
