(* ===== verification/StoreKey.v ===== *)
(** * Store keys and part planning ([tgdcfs/backends/base.py])

    A store key is [<prefix>:<channel>]; a key without an alphabetic prefix
    was written by tgfs and means Telegram.  Strings are sequences of ASCII
    characters here, so [str.isalpha] is the ASCII test. *)

From S2P Require Import Prelude Errors.

Open Scope Z_scope.
Local Open Scope string_scope.

Definition DEFAULT_PREFIX : string := "tg".
Definition KEY_SEPARATOR : ascii := ":"%char.

Definition make_store_key (prefix channel : string) : string :=
  prefix +:+ String KEY_SEPARATOR channel.

(** [key.partition(":")]: the part before the first separator, whether there
    is one, and the part after it. *)
Fixpoint str_partition (sep : ascii) (s : string) : string * bool * string :=
  match s with
  | EmptyString => (EmptyString, false, EmptyString)
  | String c s =>
      if decide (c = sep) then (EmptyString, true, s)
      else let '(p, f, r) := str_partition sep s in (String c p, f, r)
  end.

Definition is_letter (c : ascii) : bool :=
  let n := nat_of_ascii c in
  ((65 <=? n) && (n <=? 90) || (97 <=? n) && (n <=? 122))%nat.

Fixpoint all_letters (s : string) : bool :=
  match s with
  | EmptyString => true
  | String c s => is_letter c && all_letters s
  end.

(** [str.isalpha]: not empty, letters only. *)
Definition isalpha (s : string) : bool :=
  match s with EmptyString => false | _ => all_letters s end.

Definition parse_store_key (key : string) : string * string :=
  let '(prefix, sep, channel) := str_partition KEY_SEPARATOR key in
  if negb sep || negb (isalpha prefix) then (DEFAULT_PREFIX, key)
  else (prefix, channel).

Definition normalize_store_key (key : string) : string :=
  let '(prefix, channel) := parse_store_key key in make_store_key prefix channel.

Lemma letter_not_separator c : is_letter c = true -> c <> KEY_SEPARATOR.
Proof. by intros H ->. Qed.

Lemma partition_letters p c :
  all_letters p = true ->
  str_partition KEY_SEPARATOR (make_store_key p c) = (p, true, c).
Proof.
  unfold make_store_key. induction p as [|x p IH]; simpl.
  - done.
  - intros [Hx Hp]%andb_prop. rewrite decide_False by by apply letter_not_separator.
    by rewrite IH.
Qed.

Lemma isalpha_letters p : isalpha p = true -> all_letters p = true.
Proof. by destruct p. Qed.

(** Parsing what [make_store_key] built gives its parts back. *)
Lemma parse_make_store_key p c :
  isalpha p = true -> parse_store_key (make_store_key p c) = (p, c).
Proof.
  intros Hp. unfold parse_store_key.
  rewrite partition_letters by by apply isalpha_letters. by rewrite Hp.
Qed.

Lemma partition_sep sep s p r :
  str_partition sep s = (p, true, r) -> s = p +:+ String sep r.
Proof.
  revert p r. induction s as [|c s IH]; intros p r; simpl; [done|].
  case_decide as Hc; [intros [= <- <-]; by subst|].
  destruct (str_partition sep s) as [[p' f'] r'] eqn:Hs. intros [= <- -> <-].
  rewrite (IH _ _ eq_refl). done.
Qed.

(** What [parse_store_key] answers: an alphabetic prefix, and parts that
    spell the key unless the key is a bare Telegram channel. *)
Lemma parse_store_key_spec key p c :
  parse_store_key key = (p, c) ->
  isalpha p = true /\ (make_store_key p c = key \/ (p = DEFAULT_PREFIX /\ c = key)).
Proof.
  unfold parse_store_key. destruct (str_partition KEY_SEPARATOR key) as [[p' f'] r'] eqn:Hk.
  destruct f'; simpl; [destruct (isalpha p') eqn:Ha; simpl|];
    intros [= <- <-]; split; auto.
  left. symmetry. by apply partition_sep.
Qed.

(** Normalising is idempotent, so keys read from old metadata and written
    back are stable. *)
Lemma normalize_store_key_idem key :
  normalize_store_key (normalize_store_key key) = normalize_store_key key.
Proof.
  unfold normalize_store_key at 2 3. destruct (parse_store_key key) as [p c] eqn:Hk.
  apply parse_store_key_spec in Hk as [Hp _].
  unfold normalize_store_key. by rewrite parse_make_store_key.
Qed.

(** ** [IStore.plan_parts] *)

Open Scope Z_scope.

(** The default partitioning: full parts and the rest. [max_part_bytes] is
    positive for every store. *)
Definition plan_parts (max_part_bytes size : Z) : list Z :=
  let part := max_part_bytes in
  if size <=? 0 then [0]
  else
    let parts := (size + part - 1) / part in
    replicate (Z.to_nat (parts - 1)) part ++ [size - (parts - 1) * part].

Lemma plan_parts_count part size :
  0 < part -> 0 < size ->
  1 <= (size + part - 1) / part /\
  ((size + part - 1) / part - 1) * part < size <= (size + part - 1) / part * part.
Proof.
  intros Hp Hs. pose proof (Z.div_mod (size + part - 1) part ltac:(lia)) as Hdm.
  pose proof (Z.mod_pos_bound (size + part - 1) part Hp).
  assert (1 <= (size + part - 1) / part) by (apply Z.div_le_lower_bound; lia).
  nia.
Qed.

(** The parts of a non-empty file are non-empty, fit the store's messages
    and add up to the file. *)
Lemma plan_parts_spec part size :
  0 < part -> 0 < size ->
  zsum (plan_parts part size) = size /\
  Forall (fun p => 0 < p <= part) (plan_parts part size).
Proof.
  intros Hp Hs. destruct (plan_parts_count part size Hp Hs) as (H1 & H2 & H3).
  unfold plan_parts. rewrite (proj2 (Z.leb_gt _ _)) by lia.
  split.
  - rewrite zsum_app, zsum_repeat, Z2Nat.id by lia. unfold zsum. simpl. lia.
  - apply Forall_app. split; [|constructor; [nia|constructor]].
    apply Forall_replicate. lia.
Qed.

(** [TelegramStore._partition]: as [plan_parts], without the case for an
    empty file. *)
Definition tg_partition (size part_size : Z) : list Z :=
  let parts := (size + part_size - 1) / part_size in
  replicate (Z.to_nat (parts - 1)) part_size ++ [size - (parts - 1) * part_size].

Definition PART_SIZE_DEFAULT : Z := 512 * 1024 * 4000.
Definition PART_SIZE_PREMIUM : Z := 512 * 1024 * 8000.

(** [TelegramStore._part_size_for]: the part size and whether the premium
    account uploads. *)
Definition part_size_for (has_premium : bool) (size : Z) : Z * bool :=
  let premium_upload := (PART_SIZE_DEFAULT <? size) && has_premium in
  (if premium_upload then PART_SIZE_PREMIUM else PART_SIZE_DEFAULT, premium_upload).

(** [TelegramStore.plan_parts]. *)
Definition tg_plan_parts (has_premium : bool) (size : Z) : list Z :=
  let '(part_size, _) := part_size_for has_premium size in
  tg_partition size part_size.

Lemma tg_partition_plan size part :
  0 < size -> tg_partition size part = plan_parts part size.
Proof.
  intros Hs. unfold tg_partition, plan_parts. by rewrite (proj2 (Z.leb_gt _ _)) by lia.
Qed.
