(* ===== verification/Messages.v ===== *)
(** * Messages that can be uploaded, and byte streams ([tgdcfs/reqres.py])

    [UploadableFileMessage] and its subclasses.  The subclasses share the
    interface [Uploadable]; [UploadLaws] is what a store or a wrapper may
    rely on when it reads one: every read delivers the next bytes of the
    content, possibly fewer than asked for, and none only at its end.

    The progress tracker and the (empty) tags of a message are left out. *)

From S2P Require Import Prelude Errors.

Open Scope Z_scope.
Open Scope py_scope.

(** ** Streams

    A [FileContent] is an asynchronous iterator of byte strings; consumed to
    its end it is the pieces it yields and the exception that stopped it, if
    any. *)

Record stream := { pieces : list bytes; fault : option exn }.

Definition stream_bytes (s : stream) : bytes := concat (pieces s).

Definition empty_stream : stream := {| pieces := []; fault := None |}.

(** [a], which did not fail, and then [b]. *)
Definition then_stream (a : stream) (b : stream) : stream :=
  {| pieces := pieces a ++ pieces b; fault := fault b |}.

(** [prefetching_chain] over the state [S]: the concatenation of its sources
    in order, stopped by the first failure. *)
Fixpoint chain_streams {S} (gens : list (S -> stream * S)) : S -> stream * S :=
  match gens with
  | [] => fun s => (empty_stream, s)
  | g :: gens => fun s =>
      let '(a, s) := g s in
      match fault a with
      | Some _ => (a, s)
      | None => let '(b, s) := chain_streams gens s in (then_stream a b, s)
      end
  end.

(** ** Python slices with a negative bound *)

Definition py_take {A} (n : Z) (l : list A) : list A :=
  if n <? 0 then ztake (zlen l + n) l else ztake n l.
Definition py_drop {A} (n : Z) (l : list A) : list A :=
  if n <? 0 then zdrop (zlen l + n) l else zdrop n l.

Lemma py_take_pos {A} n (l : list A) : 0 <= n -> py_take n l = ztake n l.
Proof. intros. unfold py_take. by rewrite (proj2 (Z.ltb_ge _ _)) by lia. Qed.
Lemma py_drop_pos {A} n (l : list A) : 0 <= n -> py_drop n l = zdrop n l.
Proof. intros. unfold py_drop. by rewrite (proj2 (Z.ltb_ge _ _)) by lia. Qed.

(** ** The interface *)

(** The fields [UploadableFileMessage] declares. *)
Record UploadableFileMessage := {
  um_name : string;
  um_size : Z;
  um_caption : string;
  um_offset : Z;
  um_read_size : Z;
  um_version_id : option string
}.

Definition um_set_read (off rs : Z) (m : UploadableFileMessage) : UploadableFileMessage :=
  {| um_name := um_name m; um_size := um_size m; um_caption := um_caption m;
     um_offset := off; um_read_size := rs; um_version_id := um_version_id m |}.
Definition um_set_name (n : string) (m : UploadableFileMessage) : UploadableFileMessage :=
  {| um_name := n; um_size := um_size m; um_caption := um_caption m;
     um_offset := um_offset m; um_read_size := um_read_size m;
     um_version_id := um_version_id m |}.
Definition um_set_version (v : option string) (m : UploadableFileMessage)
  : UploadableFileMessage :=
  {| um_name := um_name m; um_size := um_size m; um_caption := um_caption m;
     um_offset := um_offset m; um_read_size := um_read_size m; um_version_id := v |}.

(** [next_part] of the base class. *)
Definition um_next_part (part_size : Z) (m : UploadableFileMessage) : UploadableFileMessage :=
  um_set_read (um_offset m + part_size) 0 m.

Class Uploadable (M : Type) := {
  um : M -> UploadableFileMessage;
  with_um : UploadableFileMessage -> M -> M;
  um_get_size : M -> Z;                          (* _get_size *)
  um_open : st exn M unit;
  um_read : Z -> st exn M bytes;
  um_close : st exn M unit;
  next_part : Z -> M -> M
}.

(** [self.size or self._get_size()]. *)
Definition get_size {M} `{Uploadable M} (m : M) : Z :=
  if um_size (um m) =? 0 then um_get_size m else um_size (um m).


(** [self.name or "unnamed"]. *)
Definition file_name {M} `{Uploadable M} (m : M) : string :=
  if decide (um_name (um m) = "") then "unnamed" else um_name (um m).

(** What a reader may rely on: [rest m] are the bytes still to come. *)
Class UploadLaws (M : Type) `{Uploadable M} := {
  readable : M -> Prop;
  rest : M -> bytes;
  read_spec : forall m n, readable m -> 0 < n ->
    exists p m', um_read n m = (Ok p, m') /\ readable m' /\
      rest m = p ++ rest m' /\ zlen p <= n /\ (rest m <> [] -> p <> []) /\
      get_size m' = get_size m
}.

(** Reading with a sequence of sizes, as an uploader does. *)
Fixpoint read_sizes {M} `{Uploadable M} (ns : list Z) : st exn M bytes :=
  match ns with
  | [] => sret []
  | n :: ns => let! p := um_read n in let! ps := read_sizes ns in sret (p ++ ps)
  end.

(** Whatever sizes are asked for, the bytes come in order and none is lost. *)
Lemma read_sizes_spec {M} `{UploadLaws M} ns m :
  readable m -> Forall (fun n => 0 < n) ns ->
  exists p m', read_sizes ns m = (Ok p, m') /\ readable m' /\ rest m = p ++ rest m'.
Proof.
  revert m. induction ns as [|n ns IH]; intros m Hr Hns; simpl.
  - exists [], m. done.
  - apply Forall_cons in Hns as [Hn Hns].
    destruct (read_spec m n Hr Hn) as (p & m1 & Hp & Hr1 & Hrest & _).
    destruct (IH m1 Hr1 Hns) as (q & m2 & Hq & Hr2 & Hrest2).
    exists (p ++ q), m2. unfold sbind, sret. rewrite Hp, Hq. split; [done|]. split; [done|].
    by rewrite Hrest, Hrest2, app_assoc.
Qed.

(** ** [FileMessageFromBuffer] *)

Record FileMessageFromBuffer := {
  fb_um : UploadableFileMessage;
  fb_buffer : bytes;
  fb_unread : bytes                              (* __buffer *)
}.

Definition buffer_message (buffer : bytes) (name : string) : FileMessageFromBuffer :=
  {| fb_um := {| um_name := name; um_size := zlen buffer; um_caption := "";
                 um_offset := 0; um_read_size := 0; um_version_id := None |};
     fb_buffer := buffer; fb_unread := [] |}.

Definition fb_set_unread (u : bytes) (m : FileMessageFromBuffer) : FileMessageFromBuffer :=
  {| fb_um := fb_um m; fb_buffer := fb_buffer m; fb_unread := u |}.

Definition fb_open : st exn FileMessageFromBuffer unit :=
  let! m := sget in sput (fb_set_unread (py_drop (um_offset (fb_um m)) (fb_buffer m)) m).

Definition fb_read (length : Z) : st exn FileMessageFromBuffer bytes :=
  let! m := sget in
  let chunk := py_take length (fb_unread m) in
  sput (fb_set_unread (py_drop length (fb_unread m)) m) ;;;
  sret chunk.

#[export] Instance buffer_uploadable : Uploadable FileMessageFromBuffer := {
  um := fb_um;
  with_um u m := {| fb_um := u; fb_buffer := fb_buffer m; fb_unread := fb_unread m |};
  um_get_size m := zlen (fb_buffer m);
  um_open := fb_open;
  um_read := fb_read;
  um_close := sret tt;
  next_part n m := {| fb_um := um_next_part n (fb_um m); fb_buffer := fb_buffer m; fb_unread := fb_unread m |}
}.

#[export] Program Instance buffer_laws : UploadLaws FileMessageFromBuffer := {
  readable _ := True;
  rest := fb_unread
}.
Next Obligation.
  intros m n _ Hn. simpl. unfold fb_read, sbind, sget, sput, sret.
  eexists _, _. split; [done|]. simpl. rewrite py_take_pos, py_drop_pos by lia.
  split; [done|]. split; [by rewrite ztake_zdrop|].
  rewrite zlen_ztake by lia. split; [lia|]. split; [|done].
  intros Hne He%(f_equal zlen). rewrite zlen_ztake, zlen_nil in He by lia.
  apply Hne, zlen_0. lia.
Qed.

(** ** [FileMessageFromStream] *)

Record FileMessageFromStream := {
  fs_um : UploadableFileMessage;
  fs_stream : stream;
  fs_buffer : bytes
}.

Definition stream_message (s : stream) (size : Z) (name : string) : FileMessageFromStream :=
  {| fs_um := {| um_name := name; um_size := size; um_caption := "";
                 um_offset := 0; um_read_size := 0; um_version_id := None |};
     fs_stream := s; fs_buffer := [] |}.

(** [while len(buffer) < n: buffer.extend(await anext(stream))]. *)
Fixpoint fs_fill (n : Z) (ps : list bytes) (flt : option exn) (buf : bytes)
  : exc unit * (list bytes * bytes) :=
  if n <=? zlen buf then (Ok tt, (ps, buf))
  else
    match ps with
    | [] => (Raise (default StopAsyncIteration flt), ([], buf))
    | p :: ps => fs_fill n ps flt (buf ++ p)
    end.

Definition fs_get_size (m : FileMessageFromStream) : Z :=
  if um_size (fs_um m) =? 0 then 0 else um_size (fs_um m).

Definition fs_read (length : Z) : st exn FileMessageFromStream bytes :=
  fun m =>
    let size_to_return := Z.min length (fs_get_size m - um_read_size (fs_um m)) in
    match fs_fill size_to_return (pieces (fs_stream m)) (fault (fs_stream m)) (fs_buffer m) with
    | (Raise e, (ps, buf)) =>
        (Raise e, {| fs_um := fs_um m;
                     fs_stream := {| pieces := ps; fault := None |}; fs_buffer := buf |})
    | (Ok _, (ps, buf)) =>
        (Ok (py_take size_to_return buf),
         {| fs_um := um_set_read (um_offset (fs_um m))
                                 (um_read_size (fs_um m) + size_to_return) (fs_um m);
            fs_stream := {| pieces := ps; fault := fault (fs_stream m) |};
            fs_buffer := py_drop size_to_return buf |})
    end.

#[export] Instance stream_uploadable : Uploadable FileMessageFromStream := {
  um := fs_um;
  with_um u m := {| fs_um := u; fs_stream := fs_stream m; fs_buffer := fs_buffer m |};
  um_get_size _ := 0;
  um_open := sret tt;
  um_read := fs_read;
  um_close := sret tt;
  next_part n m := {| fs_um := um_next_part n (fs_um m); fs_stream := fs_stream m; fs_buffer := fs_buffer m |}
}.

(** What is left of the declared size. *)
Definition fs_remaining (m : FileMessageFromStream) : Z :=
  fs_get_size m - um_read_size (fs_um m).

Lemma fs_fill_spec n ps flt buf :
  n <= zlen (buf ++ concat ps) ->
  exists ps' buf', fs_fill n ps flt buf = (Ok tt, (ps', buf')) /\
    buf' ++ concat ps' = buf ++ concat ps /\ n <= zlen buf'.
Proof.
  revert buf. induction ps as [|p ps IH]; intros buf Hn; simpl in *.
  - rewrite app_nil_r in Hn. rewrite (proj2 (Z.leb_le _ _)) by done. by exists [], buf.
  - destruct (n <=? zlen buf) eqn:Hle.
    + apply Z.leb_le in Hle. by exists (p :: ps), buf.
    + destruct (IH (buf ++ p)) as (ps' & buf' & -> & He & Hl); [by rewrite <- app_assoc|].
      exists ps', buf'. split; [done|]. split; [|done]. by rewrite He, <- app_assoc.
Qed.

#[export] Program Instance stream_laws : UploadLaws FileMessageFromStream := {
  readable m := 0 <= fs_remaining m <= zlen (fs_buffer m ++ concat (pieces (fs_stream m)));
  rest m := ztake (fs_remaining m) (fs_buffer m ++ concat (pieces (fs_stream m)))
}.
Next Obligation.
  intros m n [Hr0 Hr1] Hn. simpl. unfold fs_read.
  set (k := Z.min n (fs_get_size m - um_read_size (fs_um m))).
  fold (fs_remaining m) in k.
  destruct (fs_fill_spec k (pieces (fs_stream m)) (fault (fs_stream m)) (fs_buffer m))
    as (ps & buf & -> & He & Hl); [lia|].
  eexists _, _. split; [done|]. simpl. rewrite <- He in *.
  rewrite py_take_pos, py_drop_pos by lia. pose proof (zlen_nonneg (concat ps)).
  unfold fs_remaining, fs_get_size in *. simpl in *.
  rewrite zlen_app in *. rewrite zlen_zdrop by lia.
  set (s := if um_size (fs_um m) =? 0 then 0 else um_size (fs_um m)) in *.
  split; [lia|]. split.
  - rewrite (ztake_app (s - (_ + k))), zlen_zdrop by lia.
    rewrite <- (ztake_zdrop k buf) at 1. rewrite <- app_assoc, ztake_app.
    rewrite ztake_ztake, zlen_ztake by lia. f_equal; [f_equal; lia|].
    rewrite ztake_app, zlen_zdrop by lia. f_equal; f_equal; lia.
  - rewrite zlen_ztake by lia. split; [lia|]. split; [|done].
    intros Hne Hz%(f_equal zlen). rewrite zlen_ztake, zlen_nil in Hz by lia.
    apply Hne, zlen_0. rewrite zlen_ztake, zlen_app by lia. lia.
Qed.

(** ** [FileMessageFromPath]

    The file is its content and the position of the descriptor; a closed
    descriptor refuses reads. *)

Record FileMessageFromPath := {
  fp_um : UploadableFileMessage;
  fp_content : bytes;
  fp_pos : Z;
  fp_closed : bool
}.

Definition path_message (content : bytes) (name : string) : FileMessageFromPath :=
  {| fp_um := {| um_name := name; um_size := zlen content; um_caption := "";
                 um_offset := 0; um_read_size := 0; um_version_id := None |};
     fp_content := content; fp_pos := 0; fp_closed := false |}.

(** [IOBase.read(n)]: everything up to the end when [n] is negative. *)
Definition fp_read (length : Z) : st exn FileMessageFromPath bytes :=
  let! m := sget in
  if fp_closed m then sraise ValueError
  else
    let left := zdrop (fp_pos m) (fp_content m) in
    let chunk := if length <? 0 then left else ztake length left in
    sput {| fp_um := fp_um m; fp_content := fp_content m;
            fp_pos := fp_pos m + zlen chunk; fp_closed := false |} ;;;
    sret chunk.

Definition fp_close : st exn FileMessageFromPath unit :=
  let! m := sget in
  sput {| fp_um := fp_um m; fp_content := fp_content m; fp_pos := fp_pos m;
          fp_closed := true |}.

#[export] Instance path_uploadable : Uploadable FileMessageFromPath := {
  um := fp_um;
  with_um u m := {| fp_um := u; fp_content := fp_content m; fp_pos := fp_pos m;
                    fp_closed := fp_closed m |};
  um_get_size m := zlen (fp_content m);
  um_open := sret tt;
  um_read := fp_read;
  um_close := fp_close;
  next_part n m := {| fp_um := um_next_part n (fp_um m); fp_content := fp_content m; fp_pos := fp_pos m;
                      fp_closed := fp_closed m |}
}.

#[export] Program Instance path_laws : UploadLaws FileMessageFromPath := {
  readable m := fp_closed m = false /\ 0 <= fp_pos m;
  rest m := zdrop (fp_pos m) (fp_content m)
}.
Next Obligation.
  intros m n [Hc Hp] Hn. simpl. unfold fp_read, sbind, sget, sput, sret. rewrite Hc.
  rewrite (proj2 (Z.ltb_ge _ _)) by lia. eexists _, _. split; [done|]. simpl.
  set (left := zdrop (fp_pos m) (fp_content m)).
  pose proof (zlen_nonneg (ztake n left)). split; [split; [done|lia]|]. split.
  - rewrite <- zdrop_zdrop by lia. fold left.
    rewrite zlen_ztake by lia. rewrite <- (ztake_zdrop n left) at 1. f_equal.
    destruct (decide (n <= zlen left)); [by rewrite Z.min_l|].
    rewrite Z.min_r, !zdrop_ge by lia. done.
  - rewrite zlen_ztake by lia. split; [lia|]. split; [|done].
    intros Hne Hz%(f_equal zlen). rewrite zlen_ztake, zlen_nil in Hz by lia.
    apply Hne, zlen_0. lia.
Qed.
