(* ===== verification/FileVersion.v ===== *)
(** * File versions and descriptors ([tgdcfs/core/model/file.py])

    [TGFSFileVersion], its serialized form, [Replica] (of [reqres.py]) and
    [TGFSFileDesc].  A [datetime] is its instant in microseconds and whether
    it carries a time zone; naive ones are read in a local zone with a fixed
    offset, and [timestamp()] is exact (no binary rounding). *)

From S2P Require Import Prelude Errors Codec StoreKey.

Open Scope Z_scope.
Open Scope py_scope.

(** ** Dates ([tgdcfs/utils/time.py]) *)

Record datetime := { dt_aware : bool; dt_us : Z }.

#[export] Instance datetime_eq_dec : EqDecision datetime.
Proof. solve_decision. Defined.

Definition FIRST_DAY_OF_EPOCH : datetime := {| dt_aware := true; dt_us := 0 |}.

(** [int(dt.timestamp() * 1000)]: milliseconds, truncated toward zero. *)
Definition ts (dt : datetime) : Z := Z.quot (dt_us dt) 1000.

(** [datetime.datetime.fromtimestamp(ms / 1000)]. *)
Definition fromtimestamp_ms (ms : Z) : datetime :=
  {| dt_aware := false; dt_us := ms * 1000 |}.

(** [<] and [>=]: Python refuses to order a naive and an aware datetime. *)
Definition dt_lt (a b : datetime) : exc bool :=
  if Bool.eqb (dt_aware a) (dt_aware b) then Ok (dt_us a <? dt_us b) else Raise TypeError.
Definition dt_ge (a b : datetime) : exc bool :=
  if Bool.eqb (dt_aware a) (dt_aware b) then Ok (dt_us b <=? dt_us a) else Raise TypeError.

(** ** Replicas *)

Record Replica := { r_message_ids : list Z; r_part_sizes : list Z }.

Definition replica_size (r : Replica) : Z := zsum (r_part_sizes r).

Record ReplicaSerialized := {
  rs_m : option (list Z);
  rs_mb : option (list ascii);
  rs_p : option (list Z);
  rs_n : option Z
}.

Definition COMPACT_IDS_THRESHOLD : Z := 100.

Definition encode_ids (ids : list Z) : exc (list ascii) :=
  let* packed := rmapM (struct_pack 8) ids in
  Ok (rstrip_pad (b64_encode (concat packed))).

Definition decode_ids (encoded : list ascii) : exc (list Z) :=
  let* packed := b64_decode (repad encoded) in
  rmapM (struct_unpack 8) (chunks 8 packed).

(** [len(set(l)) == 1]. *)
Definition all_same (l : list Z) : bool :=
  (length (remove_dups l) =? 1)%nat.

Definition replica_to_dict (replica : Replica) : exc ReplicaSerialized :=
  let* (m, mb) :=
    (if COMPACT_IDS_THRESHOLD <? zlen (r_message_ids replica)
     then rmap (fun e => (None, Some e)) (encode_ids (r_message_ids replica))
     else Ok (Some (r_message_ids replica), None)) in
  let sizes := r_part_sizes replica in
  if (2 <? zlen sizes) && all_same (removelast sizes) then
    Ok {| rs_m := m; rs_mb := mb;
          rs_p := Some [hd 0 sizes; List.last sizes 0]; rs_n := Some (zlen sizes) |}
  else if nonempty sizes then
    Ok {| rs_m := m; rs_mb := mb; rs_p := Some sizes; rs_n := None |}
  else Ok {| rs_m := m; rs_mb := mb; rs_p := None; rs_n := None |}.

Definition replica_from_dict (data : ReplicaSerialized) : exc Replica :=
  let* ids :=
    (match rs_mb data with
     | Some encoded => decode_ids encoded
     | None => Ok (default [] (rs_m data))
     end) in
  let sizes := default [] (rs_p data) in
  let sizes :=
    match rs_n data, sizes with
    | Some n, [common; last] =>
        if 2 <? n then replicate (Z.to_nat (n - 1)) common ++ [last] else sizes
    | _, _ => sizes
    end in
  Ok {| r_message_ids := ids; r_part_sizes := sizes |}.

(** ** File versions *)

Definition EMPTY_FILE_MESSAGE : Z := -1.
Definition INVALID_FILE_SIZE : Z := -1.
Definition INVALID_VERSION_ID : string := "".

Record TGFSFileVersion := {
  fv_id : string;
  updated_at : datetime;
  fv_size_field : Z;                       (* _size *)
  message_ids : list Z;
  part_sizes : list Z;
  mirrors : dict string (list Z);
  replicas : dict string Replica;
  store : option string;
  pending : bool;
  cacheable : bool;
  recorded_size : Z
}.

Record TGFSFileVersionSerialized := {
  vs_id : option string;
  vs_updatedAt : option Z;
  vs_messageId : option Z;
  vs_messageIds : option (list Z);
  vs_size : option Z;
  vs_mirrors : option (dict string (list Z));
  vs_replicas : option (dict string ReplicaSerialized);
  vs_store : option string;
  vs_pending : option bool
}.

Definition updated_at_timestamp (v : TGFSFileVersion) : Z := ts (updated_at v).

(** Attribute updates. *)
Definition set_size_field (s : Z) (v : TGFSFileVersion) : TGFSFileVersion :=
  {| fv_id := fv_id v; updated_at := updated_at v; fv_size_field := s;
     message_ids := message_ids v; part_sizes := part_sizes v; mirrors := mirrors v;
     replicas := replicas v; store := store v; pending := pending v;
     cacheable := cacheable v; recorded_size := recorded_size v |}.
Definition set_updated_at (d : datetime) (v : TGFSFileVersion) : TGFSFileVersion :=
  {| fv_id := fv_id v; updated_at := d; fv_size_field := fv_size_field v;
     message_ids := message_ids v; part_sizes := part_sizes v; mirrors := mirrors v;
     replicas := replicas v; store := store v; pending := pending v;
     cacheable := cacheable v; recorded_size := recorded_size v |}.
Definition set_part_sizes (p : list Z) (v : TGFSFileVersion) : TGFSFileVersion :=
  {| fv_id := fv_id v; updated_at := updated_at v; fv_size_field := fv_size_field v;
     message_ids := message_ids v; part_sizes := p; mirrors := mirrors v;
     replicas := replicas v; store := store v; pending := pending v;
     cacheable := cacheable v; recorded_size := recorded_size v |}.
Definition set_store (s : option string) (v : TGFSFileVersion) : TGFSFileVersion :=
  {| fv_id := fv_id v; updated_at := updated_at v; fv_size_field := fv_size_field v;
     message_ids := message_ids v; part_sizes := part_sizes v; mirrors := mirrors v;
     replicas := replicas v; store := s; pending := pending v;
     cacheable := cacheable v; recorded_size := recorded_size v |}.
Definition set_replicas (r : dict string Replica) (v : TGFSFileVersion) : TGFSFileVersion :=
  {| fv_id := fv_id v; updated_at := updated_at v; fv_size_field := fv_size_field v;
     message_ids := message_ids v; part_sizes := part_sizes v; mirrors := mirrors v;
     replicas := r; store := store v; pending := pending v;
     cacheable := cacheable v; recorded_size := recorded_size v |}.

(** [size]: the property caches the sum of the part sizes in [_size]. *)
Definition size_fill (v : TGFSFileVersion) : TGFSFileVersion :=
  if (fv_size_field v =? INVALID_FILE_SIZE) && nonempty (part_sizes v)
  then set_size_field (zsum (part_sizes v)) v else v.

(** The first replica with a recorded layout. *)
Definition replica_known_size (rs : dict string Replica) : option Z :=
  let known r := nonempty (r_part_sizes r) &&
                 (zlen (r_part_sizes r) =? zlen (r_message_ids r)) in
  option_map replica_size (List.find known (Dict.values rs)).

Definition fv_size (v : TGFSFileVersion) : Z :=
  let v := size_fill v in
  if fv_size_field v =? INVALID_FILE_SIZE
  then default (fv_size_field v) (replica_known_size (replicas v))
  else fv_size_field v.

Definition truthy_str (s : option string) : option string :=
  match s with
  | Some EmptyString => None
  | _ => s
  end.

Definition is_valid (v : TGFSFileVersion) : bool := nonempty (message_ids v).

Definition owned_by (store_key : string) (v : TGFSFileVersion) : bool :=
  match store v with
  | None => true
  | Some s => bool_decide (s = store_key)
  end.

(** [len(ids) == n and all(i > 0 for i in ids)], for a present entry. *)
Definition aligned_complete (n : Z) (ids : list Z) : bool :=
  nonempty ids && (zlen ids =? n) && zall (fun i => 0 <? i) ids.

Definition has_copy_in (store_key : string) (v : TGFSFileVersion) : bool :=
  if bool_decide (store v = Some store_key) && is_valid v then true
  else
    match Dict.get store_key (mirrors v) with
    | Some ids =>
        if aligned_complete (zlen (message_ids v)) ids then true
        else match Dict.get store_key (replicas v) with
             | Some r => nonempty (r_message_ids r)
             | None => false
             end
    | None =>
        match Dict.get store_key (replicas v) with
        | Some r => nonempty (r_message_ids r)
        | None => false
        end
    end.

Definition set_invalid (v : TGFSFileVersion) : TGFSFileVersion :=
  {| fv_id := fv_id v; updated_at := updated_at v; fv_size_field := INVALID_FILE_SIZE;
     message_ids := []; part_sizes := []; mirrors := []; replicas := [];
     store := store v; pending := pending v; cacheable := cacheable v;
     recorded_size := recorded_size v |}.

Definition materialize (st : string) (ids sizes : list Z) (v : TGFSFileVersion)
  : TGFSFileVersion :=
  {| fv_id := fv_id v; updated_at := updated_at v; fv_size_field := INVALID_FILE_SIZE;
     message_ids := ids; part_sizes := sizes; mirrors := mirrors v;
     replicas := replicas v; store := Some st; pending := false;
     cacheable := cacheable v; recorded_size := recorded_size v |}.

(** [datetime.now()] and fresh ids are arguments. *)
Definition pending_version (now : datetime) (version_id : string) (size : Z)
  : TGFSFileVersion :=
  {| fv_id := version_id; updated_at := now; fv_size_field := size;
     message_ids := []; part_sizes := []; mirrors := []; replicas := [];
     store := None; pending := true; cacheable := true;
     recorded_size := INVALID_FILE_SIZE |}.

Definition empty_version (now : datetime) (uuid : string) : TGFSFileVersion :=
  {| fv_id := uuid; updated_at := now; fv_size_field := INVALID_FILE_SIZE;
     message_ids := []; part_sizes := []; mirrors := []; replicas := [];
     store := None; pending := false; cacheable := true;
     recorded_size := INVALID_FILE_SIZE |}.

(** A sent part, as the stores report it ([reqres.SentFileMessage]). *)
Record SentFileMessage := {
  sm_message_id : Z;
  sm_size : Z;
  sm_mirrors : dict string Z;
  sm_replicas : dict string Replica
}.

(** The store keys any part has a mirror copy in.  Python iterates over a
    set here; the model fixes one of its orders. *)
Definition sent_channels (messages : list SentFileMessage) : list string :=
  remove_dups (concat (map (fun m => Dict.keys (sm_mirrors m)) messages)).

Definition from_sent_file_message (now : datetime) (uuid : string)
    (st version_id : option string) (messages : list SentFileMessage)
  : TGFSFileVersion :=
  {| fv_id := default uuid (truthy_str version_id);
     updated_at := now;
     fv_size_field := INVALID_FILE_SIZE;
     message_ids := map sm_message_id messages;
     part_sizes := map sm_size messages;
     mirrors := map (fun channel =>
                  (channel, map (fun m => default 0 (Dict.get channel (sm_mirrors m)))
                                messages)) (sent_channels messages);
     replicas := foldl (fun acc m => Dict.update acc (sm_replicas m)) [] messages;
     store := st;
     pending := false; cacheable := true; recorded_size := INVALID_FILE_SIZE |}.

(** [x or None] for a dictionary that is only serialized when non-empty. *)
Definition some_nonempty {A} (l : list A) : option (list A) :=
  match l with [] => None | _ => Some l end.

(** [to_dict]: reading [size] may cache it, so the version is returned too. *)
Definition version_to_dict (v : TGFSFileVersion)
  : exc TGFSFileVersionSerialized * TGFSFileVersion :=
  let size := fv_size v in
  let v := size_fill v in
  ((let* reps := rmapM (fun kr => rmap (pair kr.1) (replica_to_dict kr.2)) (replicas v) in
    Ok {| vs_id := Some (fv_id v);
          vs_updatedAt := Some (updated_at_timestamp v);
          vs_messageId := None;
          vs_messageIds := Some (message_ids v);
          vs_size := Some size;
          vs_mirrors := some_nonempty (mirrors v);
          vs_replicas := some_nonempty reps;
          vs_store := truthy_str (store v);
          vs_pending := if pending v then Some true else None |}), v).

Definition version_from_dict (data : TGFSFileVersionSerialized) : exc TGFSFileVersion :=
  let updated_at_ts := default 0 (vs_updatedAt data) in
  let upd := if 0 <? updated_at_ts then fromtimestamp_ms updated_at_ts
             else FIRST_DAY_OF_EPOCH in
  let* ids :=
    (match vs_messageIds data with
     | Some ids => Ok ids
     | None =>
         match vs_messageId data with
         | None => Raise KeyError
         | Some m => Ok (if m =? EMPTY_FILE_MESSAGE then [] else [m])
         end
     end) in
  let pend := default false (vs_pending data) in
  let* id := (match vs_id data with Some i => Ok i | None => Raise KeyError end) in
  let* reps := rmapM (fun kr => rmap (pair (normalize_store_key kr.1))
                                     (replica_from_dict kr.2))
                     (default [] (vs_replicas data)) in
  let size := default INVALID_FILE_SIZE (vs_size data) in
  Ok {| fv_id := id;
        updated_at := upd;
        fv_size_field := if pend then size else INVALID_FILE_SIZE;
        message_ids := ids;
        part_sizes := [];
        mirrors := Dict.of_pairs
          (map (fun kv => (normalize_store_key kv.1, kv.2)) (default [] (vs_mirrors data)));
        replicas := Dict.of_pairs reps;
        store := option_map normalize_store_key (truthy_str (vs_store data));
        pending := pend;
        cacheable := true;
        recorded_size := size |}.

(** [relocate]: re-express the version relative to a new primary. *)
Definition relocate_aligned (primary_key : string) (ids : list Z) (v : TGFSFileVersion)
  : TGFSFileVersion :=
  {| fv_id := fv_id v; updated_at := updated_at v; fv_size_field := fv_size_field v;
     message_ids := ids; part_sizes := part_sizes v;
     mirrors := Dict.del primary_key (mirrors v);
     replicas := replicas v; store := Some primary_key; pending := pending v;
     cacheable := cacheable v; recorded_size := recorded_size v |}.

(** The replica branch: the old primary and every complete aligned mirror
    become replicas with the old layout, all mirrors are dropped. *)
Definition relocate_replica (primary_key old_store : string) (replica : Replica)
    (v : TGFSFileVersion) : TGFSFileVersion :=
  let old_ids := default (message_ids v) (Dict.get old_store (mirrors v)) in
  let mirrors' := Dict.del old_store (mirrors v) in
  let reps := Dict.set old_store
                {| r_message_ids := old_ids; r_part_sizes := part_sizes v |} (replicas v) in
  let reps :=
    foldl (fun acc ka =>
             if (zlen ka.2 =? zlen old_ids) && zall (fun i => 0 <? i) ka.2
             then Dict.set ka.1
                    {| r_message_ids := ka.2; r_part_sizes := part_sizes v |} acc
             else acc) reps mirrors' in
  {| fv_id := fv_id v; updated_at := updated_at v; fv_size_field := INVALID_FILE_SIZE;
     message_ids := r_message_ids replica; part_sizes := r_part_sizes replica;
     mirrors := []; replicas := reps; store := Some primary_key; pending := pending v;
     cacheable := cacheable v; recorded_size := recorded_size v |}.

Definition set_mirrors (m : dict string (list Z)) (v : TGFSFileVersion) : TGFSFileVersion :=
  {| fv_id := fv_id v; updated_at := updated_at v; fv_size_field := fv_size_field v;
     message_ids := message_ids v; part_sizes := part_sizes v; mirrors := m;
     replicas := replicas v; store := store v; pending := pending v;
     cacheable := cacheable v; recorded_size := recorded_size v |}.

Definition relocate (primary_key : string) (v : TGFSFileVersion) : TGFSFileVersion :=
  match store v with
  | None => v
  | Some old_store =>
      if owned_by primary_key v then v
      else
        let v := set_mirrors (Dict.setdefault old_store (message_ids v) (mirrors v)) v in
        let ids := default [] (Dict.get primary_key (mirrors v)) in
        if aligned_complete (zlen (message_ids v)) ids then relocate_aligned primary_key ids v
        else
          match Dict.get primary_key (replicas v) with
          | Some replica =>
              let v := set_replicas (Dict.del primary_key (replicas v)) v in
              if nonempty (r_message_ids replica)
              then relocate_replica primary_key old_store replica v
              else v
          | None => v
          end
  end.

(** ** File descriptors *)

Record TGFSFileDesc := {
  fd_name : string;
  latest_version_id : string;
  created_at : datetime;
  versions : dict string TGFSFileVersion;
  complete : bool
}.

Definition with_latest (l : string) (fd : TGFSFileDesc) : TGFSFileDesc :=
  {| fd_name := fd_name fd; latest_version_id := l; created_at := created_at fd;
     versions := versions fd; complete := complete fd |}.
Definition with_created (d : datetime) (fd : TGFSFileDesc) : TGFSFileDesc :=
  {| fd_name := fd_name fd; latest_version_id := latest_version_id fd; created_at := d;
     versions := versions fd; complete := complete fd |}.
Definition with_versions (vs : dict string TGFSFileVersion) (fd : TGFSFileDesc)
  : TGFSFileDesc :=
  {| fd_name := fd_name fd; latest_version_id := latest_version_id fd;
     created_at := created_at fd; versions := vs; complete := complete fd |}.

(** [validate_name] ([model/common.py]): [name[0]] raises on an empty name. *)
Fixpoint str_mem (c : ascii) (s : string) : bool :=
  match s with
  | EmptyString => false
  | String x s => bool_decide (x = c) || str_mem c s
  end.

Definition validate_name (name : string) : exc unit :=
  match name with
  | EmptyString => Raise IndexError
  | String c _ =>
      if bool_decide (c = "-"%char) || str_mem "/"%char name
      then Raise (InvalidName name) else Ok tt
  end.

(** The constructor with its defaults; [__post_init__] checks the name. *)
Definition new_file_desc (now : datetime) (name : string) : exc TGFSFileDesc :=
  let* _ := validate_name name in
  Ok {| fd_name := name; latest_version_id := ""; created_at := now;
        versions := []; complete := true |}.

(** [sorted(enumerate(values), key=(timestamp, index), reverse=True)]. *)
Definition newer (a b : nat * TGFSFileVersion) : bool :=
  let ta := updated_at_timestamp a.2 in
  let tb := updated_at_timestamp b.2 in
  (tb <? ta) || ((tb =? ta) && (b.1 <=? a.1)%nat).

Fixpoint insert_newest (a : nat * TGFSFileVersion) (l : list (nat * TGFSFileVersion))
  : list (nat * TGFSFileVersion) :=
  match l with
  | [] => [a]
  | b :: l' => if newer a b then a :: l else b :: insert_newest a l'
  end.

Definition enumerate {A} (l : list A) : list (nat * A) := zip (seq 0 (length l)) l.

Definition sort_newest (l : list TGFSFileVersion) : list TGFSFileVersion :=
  map snd (foldr insert_newest [] (enumerate l)).

Definition get_versions (sort exclude_invalid : bool) (fd : TGFSFileDesc)
  : list TGFSFileVersion :=
  let res := if sort then sort_newest (Dict.values (versions fd))
             else Dict.values (versions fd) in
  if exclude_invalid then List.filter is_valid res else res.

(** [max(l, key=...)]: the first of the greatest items. *)
Fixpoint max_by {A} (key : A -> Z) (best : A) (l : list A) : A :=
  match l with
  | [] => best
  | x :: xs => max_by key (if key best <? key x then x else best) xs
  end.

Definition latest_of (vs : dict string TGFSFileVersion) : string :=
  match vs with
  | [] => INVALID_VERSION_ID
  | kv :: rest => (max_by (fun kv => updated_at_timestamp kv.2) kv rest).1
  end.

(** [TGFSFileDesc.to_dict]: the serialized versions, newest first.  The size
    caches it fills are dropped here: no later read depends on them. *)
Definition desc_to_dict (fd : TGFSFileDesc) : exc (list TGFSFileVersionSerialized) :=
  rmapM (fun v => (version_to_dict v).1) (get_versions true false fd).

Definition version_key (data : TGFSFileVersionSerialized) : exc string :=
  match vs_id data with Some i => Ok i | None => Raise KeyError end.

Definition desc_from_dict (now : datetime) (data : list TGFSFileVersionSerialized)
    (name : string) : exc TGFSFileDesc :=
  let* vs := rmapM (fun d => let* k := version_key d in
                             rmap (pair k) (version_from_dict d)) data in
  let vs := Dict.of_pairs vs in
  let* _ := validate_name name in
  Ok {| fd_name := name; latest_version_id := latest_of vs; created_at := now;
        versions := vs; complete := true |}.

Definition empty_desc (now : datetime) (name : string) : exc TGFSFileDesc :=
  new_file_desc now name.

Definition get_version (id : string) (fd : TGFSFileDesc) : exc TGFSFileVersion :=
  match Dict.get id (versions fd) with Some v => Ok v | None => Raise KeyError end.

Definition get_latest_version (now : datetime) (uuid : string) (fd : TGFSFileDesc)
  : exc TGFSFileVersion :=
  if decide (latest_version_id fd = "") then Ok (empty_version now uuid)
  else get_version (latest_version_id fd) fd.

Definition desc_updated_at_timestamp (fd : TGFSFileDesc) : exc Z :=
  if negb (nonempty (versions fd)) || bool_decide (latest_version_id fd = INVALID_VERSION_ID)
  then Ok (ts (created_at fd))
  else rmap updated_at_timestamp (get_version (latest_version_id fd) fd).

(** [add_version], statement by statement: a failing comparison leaves the
    version stored. *)
Definition add_version (v : TGFSFileVersion) : st exn TGFSFileDesc unit :=
  let! fd := sget in
  let fd := with_versions (Dict.set (fv_id v) v (versions fd)) fd in
  sput fd ;;;
  let! newest :=
    (if decide (latest_version_id fd = INVALID_VERSION_ID) then sret true
     else slift (let* cur := get_version (latest_version_id fd) fd in
                 dt_ge (updated_at v) (updated_at cur))) in
  let fd := if newest then with_latest (fv_id v) fd else fd in
  sput fd ;;;
  let! older := slift (dt_lt (updated_at v) (created_at fd)) in
  if older then sput (with_created (updated_at v) fd) else sret tt.

Definition add_empty_version (now : datetime) (uuid : string) : st exn TGFSFileDesc unit :=
  add_version (empty_version now uuid).

Definition update_version (id : string) (v : TGFSFileVersion) (fd : TGFSFileDesc)
  : TGFSFileDesc := with_versions (Dict.set id v (versions fd)) fd.

(** [max(..., default=None)] of the timestamps of the other versions. *)
Definition newest_other (fd : TGFSFileDesc) : option Z :=
  let others := List.filter (fun kv => negb (bool_decide (kv.1 = latest_version_id fd)))
                            (versions fd) in
  match map (fun kv => updated_at_timestamp kv.2) others with
  | [] => None
  | t :: rest => Some (foldl Z.max t rest)
  end.

Definition set_last_modified (when : datetime) : st exn TGFSFileDesc TGFSFileVersion :=
  let! fd := sget in
  if decide (latest_version_id fd = INVALID_VERSION_ID) then sraise ValueError
  else
    let! latest := slift (get_version (latest_version_id fd) fd) in
    if match newest_other fd with Some n => ts when <=? n | None => false end
    then sraise ValueError
    else
      let latest := set_updated_at when latest in
      let fd := with_versions (Dict.set (latest_version_id fd) latest (versions fd)) fd in
      let fd := if ts when <? ts (created_at fd) then with_created when fd else fd in
      sput fd ;;; sret latest.

(** [add_version_from_sent_file_message]: returns the latest version. *)
Definition add_version_from_sent_file_message (now : datetime) (uuid : string)
    (version_id : option string) (msgs : list SentFileMessage)
  : st exn TGFSFileDesc TGFSFileVersion :=
  add_version (from_sent_file_message now uuid None version_id msgs) ;;;
  let! fd := sget in
  slift (get_version (latest_version_id fd) fd).

(** [max(enumerate(versions), key=(updated_at, index))]: datetimes are
    compared as tuples are, item by item, equality first. *)
Fixpoint max_date (best : string * TGFSFileVersion) (l : dict string TGFSFileVersion)
  : exc string :=
  match l with
  | [] => Ok best.1
  | kv :: l =>
      if decide (updated_at kv.2 = updated_at best.2) then max_date kv l
      else
        let* lt := dt_lt (updated_at best.2) (updated_at kv.2) in
        max_date (if lt then kv else best) l
  end.

Definition delete_version (id : string) : st exn TGFSFileDesc unit :=
  let! fd := sget in
  if negb (Dict.mem id (versions fd)) then sraise ValueError
  else
    let fd := with_versions (Dict.del id (versions fd)) fd in
    sput fd ;;;
    if decide (id = latest_version_id fd) then
      match versions fd with
      | [] => sput (with_latest "" fd)
      | kv :: rest =>
          let! l := slift (max_date kv rest) in sput (with_latest l fd)
      end
    else sret tt.
