(* ===== verification/FileVersionProps.v ===== *)
(** * Properties of file versions and descriptors

    Serialization round trips, promotion of a mirror ([relocate]) and the
    order of versions. *)

From S2P Require Import Prelude Errors Codec StoreKey FileVersion.

Open Scope Z_scope.

(** ** Message ids and replicas *)

Lemma decode_encode_ids ids e : encode_ids ids = Ok e -> decode_ids e = Ok ids.
Proof.
  unfold encode_ids, decode_ids.
  destruct (rmapM (struct_pack 8) ids) as [ps|] eqn:Hp; simpl; [|done].
  intros [= <-]. rewrite repad_rstrip_encode, b64_decode_encode. simpl.
  apply rmapM_Forall2 in Hp.
  assert (Forall2 (fun i p => length p = 8%nat /\ struct_unpack 8 p = Ok i) ids ps) as Hq.
  { eapply Forall2_impl; [exact Hp|]. intros i p. apply struct_pack_unpack. }
  rewrite chunks_concat; [|lia|].
  - apply rmapM_Forall2, Forall2_flip. eapply Forall2_impl; [exact Hq|]. simpl. tauto.
  - clear Hp. induction Hq as [|i p ids' ps' [Hl _] _ IH]; constructor; [|done].
    unfold zlen. lia.
Qed.

(** A message id that fits an unsigned 64-bit field. *)
Definition id_ok (i : Z) : Prop := 0 <= i < 2 ^ 64.

Lemma encode_ids_total ids : Forall id_ok ids -> exists e, encode_ids ids = Ok e.
Proof.
  intros Hids. unfold encode_ids.
  rewrite (rmapM_ok _ (be_encode 8)); [by eexists|].
  eapply Forall_impl; [exact Hids|]. intros i [H0 H1]. unfold struct_pack.
  rewrite (proj2 (Z.leb_le _ _)), (proj2 (Z.ltb_lt _ _)) by (done || lia). done.
Qed.

Lemma all_same_replicate l :
  all_same l = true -> l = replicate (length l) (hd 0 l).
Proof.
  unfold all_same. intros Hl%Nat.eqb_eq.
  assert (forall x y, x ∈ l -> y ∈ l -> x = y) as Hxy.
  { intros x y Hx Hy. apply elem_of_remove_dups in Hx, Hy.
    destruct (remove_dups l) as [|a [|b r]]; simpl in Hl; try lia.
    apply list_elem_of_singleton in Hx, Hy. congruence. }
  clear Hl. destruct l as [|x l]; [done|]. simpl. f_equal.
  symmetry. apply replicate_as_Forall. split; [done|].
  apply Forall_forall. intros y Hy. apply Hxy; set_solver.
Qed.

Lemma removelast_last {A} (l : list A) d : l <> [] -> l = removelast l ++ [List.last l d].
Proof. apply app_removelast_last. Qed.

Lemma replica_roundtrip_lemma r d :
  replica_to_dict r = Ok d -> replica_from_dict d = Ok r.
Proof.
  destruct r as [ids sizes]. unfold replica_to_dict, replica_from_dict. simpl.
  set (mm := if COMPACT_IDS_THRESHOLD <? zlen ids then _ else _).
  destruct mm as [[m mb]|] eqn:Hm; simpl; [|done].
  assert (match mb with Some e => decode_ids e | None => Ok (default [] m) end = Ok ids) as Hids.
  { subst mm. destruct (COMPACT_IDS_THRESHOLD <? zlen ids); [|by simplify_eq].
    destruct (encode_ids ids) as [e|] eqn:He; simpl in Hm; simplify_eq.
    by apply decode_encode_ids. }
  clear mm Hm. destruct (_ && _) eqn:Hs; [|destruct sizes; simpl; intros [= <-]; simpl; by rewrite Hids].
  apply andb_prop in Hs as [Hlen Hsame]. apply Z.ltb_lt in Hlen.
  intros [= <-]. simpl. rewrite Hids. simpl. do 2 f_equal.
  rewrite (proj2 (Z.ltb_lt _ _)) by done.
  assert (sizes <> []) as Hne by (intros ->; rewrite zlen_nil in Hlen; lia).
  pose proof (removelast_last sizes 0 Hne) as Hl.
  pose proof (f_equal length Hl) as Hll. rewrite length_app in Hll. simpl in Hll.
  assert (hd 0 (removelast sizes) = hd 0 sizes) as Hhd.
  { rewrite Hl at 2. destruct (removelast sizes) eqn:?; [|done].
    unfold zlen in Hlen. simpl in Hll. lia. }
  rewrite Hl at 4. f_equal. rewrite (all_same_replicate _ Hsame), Hhd. f_equal.
  unfold zlen. lia.
Qed.

(** ** Promotion of a mirror *)

(** A version as the stores write it: the ids are ids, and the store that
    owns them is not listed among its own mirrors. *)
Record fv_wf (v : TGFSFileVersion) : Prop := {
  fv_wf_ids : Forall (fun i => 0 < i) (message_ids v);
  fv_wf_valid : message_ids v <> [];
  fv_wf_owner : forall s, store v = Some s -> Dict.get s (mirrors v) = None
}.

Lemma zall_pos l : zall (fun i => 0 <? i) l = true <-> Forall (fun i => 0 < i) l.
Proof.
  unfold zall. rewrite forallb_forall, List.Forall_forall.
  split; intros H x Hx; apply Z.ltb_lt; auto.
Qed.

Lemma aligned_complete_spec n ids :
  aligned_complete n ids = true <->
  ids <> [] /\ zlen ids = n /\ Forall (fun i => 0 < i) ids.
Proof.
  unfold aligned_complete. rewrite !andb_true_iff, zall_pos, Z.eqb_eq.
  destruct ids; simpl; naive_solver.
Qed.

(** What [has_copy_in] accepts, as a disjunction. *)
Lemma has_copy_in_spec k v :
  has_copy_in k v = true <->
  (store v = Some k /\ message_ids v <> []) \/
  (exists ids, Dict.get k (mirrors v) = Some ids /\
               aligned_complete (zlen (message_ids v)) ids = true) \/
  (exists r, Dict.get k (replicas v) = Some r /\ r_message_ids r <> []).
Proof.
  unfold has_copy_in, is_valid.
  assert (forall (o : option Replica),
    match o with Some r => nonempty (r_message_ids r) | None => false end = true <->
    exists r, o = Some r /\ r_message_ids r <> []) as Hr.
  { intros [[[|i ids] sizes]|]; simpl; split.
    - done.
    - by intros (r & [= <-] & ?).
    - intros _. by eexists.
    - done.
    - done.
    - by intros (r & ? & ?). }
  destruct (bool_decide (store v = Some k) && nonempty (message_ids v)) eqn:Ho.
  - apply andb_prop in Ho as [Hs%bool_decide_eq_true Hm].
    split; [intros _; left|done]. split; [done|]. by destruct (message_ids v).
  - assert (~ (store v = Some k /\ message_ids v <> [])) as Hno.
    { intros [Hs Hm]. rewrite bool_decide_eq_true_2 in Ho by done.
      by destruct (message_ids v). }
    destruct (Dict.get k (mirrors v)) as [ids|]; [destruct (aligned_complete _ ids) eqn:Ha|];
      rewrite ?Hr.
    + split; [|done]. intros _. right; left. eauto.
    + split; [by auto|]. intros [?|[(ids' & [= <-] & ?)|?]]; [tauto|congruence|done].
    + split; [by auto|]. intros [?|[(ids' & ? & ?)|?]]; [tauto|congruence|done].
Qed.

Lemma setdefault_get_ne {V} k k' (x : V) (d : dict string V) :
  k <> k' -> Dict.get k (Dict.setdefault k' x d) = Dict.get k d.
Proof. intros. unfold Dict.setdefault. destruct (Dict.mem k' d); [done|]. by apply Dict.get_set_ne. Qed.

Lemma setdefault_get_new {V} k (x : V) (d : dict string V) :
  Dict.get k d = None -> Dict.get k (Dict.setdefault k x d) = Some x.
Proof. intros H. unfold Dict.setdefault, Dict.mem. rewrite H. apply Dict.get_set_eq. Qed.

(** The mirrors turned into replicas: an entry that is non-empty stays so,
    and every complete aligned mirror becomes one. *)
Lemma fold_replicas_nonempty (k : string) (old sizes : list Z) (ms : dict string (list Z)) acc :
  old <> [] ->
  (exists r, Dict.get k acc = Some r /\ r_message_ids r <> []) \/
  (exists ids, Dict.get k ms = Some ids /\ aligned_complete (zlen old) ids = true) ->
  exists r, Dict.get k
    (foldl (fun acc ka =>
       if (zlen ka.2 =? zlen old) && zall (fun i => 0 <? i) ka.2
       then Dict.set ka.1 {| r_message_ids := ka.2; r_part_sizes := sizes |} acc
       else acc) acc ms) = Some r /\ r_message_ids r <> [].
Proof.
  intros Hold. revert acc. induction ms as [|[k' ids'] ms IH]; intros acc Hk; simpl.
  { destruct Hk as [?|(?&[=]&_)]; done. }
  apply IH. destruct ((zlen ids' =? zlen old) && _) eqn:Hc.
  - apply andb_prop in Hc as [Hl%Z.eqb_eq _].
    destruct (decide (k = k')) as [->|Hne].
    + left. rewrite Dict.get_set_eq. eexists. split; [done|]. simpl.
      intros ->. rewrite zlen_nil in Hl. apply Hold, zlen_0. lia.
    + rewrite Dict.get_set_ne by done. destruct Hk as [?|(ids & Hg & Ha)]; [by left|].
      right. simpl in Hg. rewrite decide_False in Hg by done. eauto.
  - destruct Hk as [?|(ids & Hg & Ha)]; [by left|]. simpl in Hg. case_decide.
    + simplify_eq. unfold aligned_complete in Ha.
      rewrite <- andb_assoc, Hc, andb_false_r in Ha. done.
    + right. eauto.
Qed.

Lemma relocate_aligned_copies pk s k ids v :
  s <> pk -> Forall (fun i => 0 < i) (message_ids v) -> message_ids v <> [] ->
  store v = Some s -> Dict.get s (mirrors v) = Some (message_ids v) ->
  aligned_complete (zlen (message_ids v)) ids = true ->
  has_copy_in k v = true -> has_copy_in k (relocate_aligned pk ids v) = true.
Proof.
  intros Hs Hpos Hne Hst Hms Hal. apply aligned_complete_spec in Hal as (Hine & Hlen & Hip).
  rewrite !has_copy_in_spec. simpl. intros Hk.
  destruct (decide (k = pk)) as [->|Hkp]; [by left|].
  rewrite (Dict.get_del_ne k pk), Hlen by done.
  destruct Hk as [[Hst' _]|[Hk|Hk]]; [|by auto..].
  right; left. exists (message_ids v). assert (k = s) as -> by congruence.
  split; [done|]. by apply aligned_complete_spec.
Qed.

Lemma relocate_replica_copies pk s k r v :
  Forall (fun i => 0 < i) (message_ids v) -> message_ids v <> [] ->
  store v = Some s -> Dict.get s (mirrors v) = Some (message_ids v) ->
  Dict.get pk (replicas v) = Some r -> r_message_ids r <> [] ->
  has_copy_in k v = true ->
  has_copy_in k (relocate_replica pk s r (set_replicas (Dict.del pk (replicas v)) v)) = true.
Proof.
  intros Hpos Hne Hst Hms Hr Hrne. rewrite !has_copy_in_spec. simpl. rewrite Hms. simpl.
  intros Hk. destruct (decide (k = pk)) as [->|Hkp]; [by left|].
  right; right. apply fold_replicas_nonempty; [done|].
  destruct (decide (k = s)) as [->|Hks].
  { left. rewrite Dict.get_set_eq. eexists. split; [done|]. done. }
  rewrite Dict.get_set_ne, !Dict.get_del_ne by done.
  destruct Hk as [[? _]|[?|?]]; [congruence|by right|by left].
Qed.

Lemma relocate_copies pk k v :
  fv_wf v -> has_copy_in k v = true -> has_copy_in k (relocate pk v) = true.
Proof.
  intros [Hpos Hne Hown] Hk. unfold relocate.
  destruct (store v) as [s|] eqn:Hst; [|done].
  destruct (owned_by pk v) eqn:Hob; [done|].
  unfold owned_by in Hob. rewrite Hst in Hob. apply bool_decide_eq_false in Hob.
  specialize (Hown s eq_refl).
  set (v1 := set_mirrors _ v).
  assert (has_copy_in k v1 = true) as Hk1.
  { revert Hk. rewrite !has_copy_in_spec. subst v1. simpl. rewrite Hst.
    intros [H|[H|H]]; [by left| |by auto].
    destruct (decide (k = s)) as [->|Hks]; [by left|].
    right; left. by rewrite setdefault_get_ne. }
  assert (Dict.get s (mirrors v1) = Some (message_ids v1)) as Hms
    by (subst v1; simpl; by apply setdefault_get_new).
  destruct (aligned_complete _ _) eqn:Hal.
  { eapply (relocate_aligned_copies pk s); eauto. }
  destruct (Dict.get pk (replicas v1)) as [r|] eqn:Hr; [|done].
  destruct (nonempty (r_message_ids r)) eqn:Hrn.
  { eapply relocate_replica_copies; eauto. by destruct (r_message_ids r). }
  apply nonempty_false in Hrn. revert Hk1. rewrite !has_copy_in_spec. simpl.
  intros [H|[H|(r' & Hr' & Hn')]]; [by auto|by auto|].
  right; right. exists r'. rewrite Dict.get_del_ne; [done|].
  intros ->. subst v1. simpl in Hr, Hr'. congruence.
Qed.

(** After a promotion the version is the new primary's, exactly when that
    store has a complete copy; otherwise the ids keep naming the old store. *)
Lemma relocate_owner pk s v :
  fv_wf v -> store v = Some s -> s <> pk ->
  if has_copy_in pk v then store (relocate pk v) = Some pk /\ message_ids (relocate pk v) <> []
  else store (relocate pk v) = Some s /\ message_ids (relocate pk v) = message_ids v.
Proof.
  intros [Hpos Hne Hown] Hst Hs. unfold relocate, owned_by. rewrite Hst.
  rewrite bool_decide_eq_false_2 by done. specialize (Hown s Hst). simpl.
  rewrite setdefault_get_ne by done.
  unfold has_copy_in. rewrite Hst, bool_decide_eq_false_2 by congruence. simpl.
  destruct (Dict.get pk (mirrors v)) as [ids|]; simpl.
  - destruct (aligned_complete _ ids) eqn:Ha; simpl.
    + apply aligned_complete_spec in Ha as (?&?&?). done.
    + destruct (Dict.get pk (replicas v)) as [r|]; [|done].
      destruct (r_message_ids r) eqn:Hrn; simpl; rewrite ?Hrn; done.
  - destruct (Dict.get pk (replicas v)) as [r|]; [|done].
    destruct (r_message_ids r) eqn:Hrn; simpl; rewrite ?Hrn; done.
Qed.

(** ** Serialized versions *)

(** Dictionaries whose keys are store keys in normal form. *)
Definition keys_normal {V} (d : dict string V) : Prop :=
  Dict.wf d /\ Forall (fun k => normalize_store_key k = k) (Dict.keys d).

Record fv_canonical (v : TGFSFileVersion) : Prop := {
  can_date : 0 < updated_at_timestamp v;
  can_mirrors : keys_normal (mirrors v);
  can_replicas : keys_normal (replicas v);
  can_store : forall s, store v = Some s -> s <> "" /\ normalize_store_key s = s
}.

(** A version as it comes back from storage: dates lose their microseconds,
    part sizes are not stored, the size is kept as the recorded one. *)
Definition reloaded (v : TGFSFileVersion) : TGFSFileVersion :=
  {| fv_id := fv_id v;
     updated_at := fromtimestamp_ms (updated_at_timestamp v);
     fv_size_field := if pending v then fv_size v else INVALID_FILE_SIZE;
     message_ids := message_ids v; part_sizes := []; mirrors := mirrors v;
     replicas := replicas v; store := store v; pending := pending v;
     cacheable := true; recorded_size := fv_size v |}.

Lemma default_some_nonempty {A} (l : list A) : default [] (some_nonempty l) = l.
Proof. by destruct l. Qed.

Lemma map_normal_keys {V} (d : dict string V) :
  keys_normal d -> map (fun kv => (normalize_store_key kv.1, kv.2)) d = d.
Proof.
  intros [_ Hd]. induction d as [|[k v] d IH]; simpl in *; [done|].
  apply Forall_cons in Hd as [Hk Hd]. by rewrite Hk, IH.
Qed.

Lemma replicas_roundtrip (d : dict string Replica) reps :
  keys_normal d ->
  rmapM (fun kr => rmap (pair kr.1) (replica_to_dict kr.2)) d = Ok reps ->
  rmapM (fun kr => rmap (pair (normalize_store_key kr.1)) (replica_from_dict kr.2)) reps = Ok d.
Proof.
  intros [_ Hn]. rewrite !rmapM_Forall2. intros HF. apply Forall2_flip.
  induction HF as [|[k r] kd d' reps' Hd _ IH]; constructor.
  - simpl in *. apply Forall_cons in Hn as [Hk _].
    destruct (replica_to_dict r) as [rd|] eqn:Hr; simpl in Hd; simplify_eq.
    simpl. by rewrite Hk, (replica_roundtrip_lemma _ _ Hr).
  - apply IH. simpl in Hn. by apply Forall_cons in Hn as [_ ?].
Qed.

Lemma size_fill_eq v :
  fv_id (size_fill v) = fv_id v /\ updated_at (size_fill v) = updated_at v /\
  message_ids (size_fill v) = message_ids v /\ mirrors (size_fill v) = mirrors v /\
  replicas (size_fill v) = replicas v /\ store (size_fill v) = store v /\
  pending (size_fill v) = pending v.
Proof. unfold size_fill. by destruct (_ && _). Qed.

Lemma truthy_canonical v :
  fv_canonical v -> option_map normalize_store_key (truthy_str (store v)) = store v /\
                    truthy_str (store v) = store v.
Proof.
  intros [_ _ _ Hs]. destruct (store v) as [s|]; [|done].
  destruct (Hs s eq_refl) as [Hne Hn]. destruct s; [done|]. simpl. by rewrite Hn.
Qed.

Lemma version_roundtrip_lemma v d :
  fv_canonical v -> (version_to_dict v).1 = Ok d -> version_from_dict d = Ok (reloaded v).
Proof.
  intros Hc. unfold version_to_dict. simpl.
  destruct (size_fill_eq v) as (Ei & Eu & Em & Emi & Er & Es & Ep).
  unfold updated_at_timestamp. rewrite Ei, Eu, Em, Emi, Er, Es, Ep.
  destruct (rmapM _ (replicas v)) as [reps|] eqn:Hr; simpl; [|done]. intros [= <-].
  destruct (truthy_canonical v Hc) as [Hs1 Hs2].
  unfold version_from_dict. cbn -[replica_from_dict Dict.of_pairs].
  rewrite !default_some_nonempty.
  rewrite (replicas_roundtrip (replicas v) reps) by (done || apply Hc). cbn [rbind].
  rewrite map_normal_keys by apply Hc.
  rewrite !dict_of_pairs_id by apply Hc.
  rewrite Hs2. unfold reloaded. rewrite <- Hs1 at 2. rewrite Hs2.
  destruct Hc as [Hd _ _ _]. unfold updated_at_timestamp in Hd.
  rewrite (proj2 (Z.ltb_lt _ _)) by done.
  by destruct (pending v).
Qed.

(** ** The order of versions *)

Lemma insert_newest_perm a l : insert_newest a l ≡ₚ a :: l.
Proof.
  induction l as [|b l IH]; simpl; [done|].
  destruct (newer a b); [done|]. rewrite IH. apply Permutation_swap.
Qed.

Lemma snd_enumerate {A} (l : list A) : map snd (enumerate l) = l.
Proof. unfold enumerate. apply snd_zip. by rewrite length_seq. Qed.

Lemma sort_newest_perm l : sort_newest l ≡ₚ l.
Proof.
  unfold sort_newest. rewrite <- (snd_enumerate l) at 2.
  apply Permutation_map. induction (enumerate l) as [|a m IH]; simpl; [done|].
  rewrite insert_newest_perm. by constructor.
Qed.

Lemma max_by_spec {A} (key : A -> Z) b l :
  (max_by key b l ∈ b :: l) /\ forall x, x ∈ b :: l -> key x <= key (max_by key b l).
Proof.
  revert b. induction l as [|y l IH]; intros b; simpl.
  - split; [set_solver|]. intros x ->%list_elem_of_singleton. lia.
  - destruct (IH (if key b <? key y then y else b)) as [Hin Hmax].
    destruct (key b <? key y) eqn:Hlt; [apply Z.ltb_lt in Hlt|apply Z.ltb_ge in Hlt];
      (split; [set_solver|]); intros x Hx; rewrite !elem_of_cons in Hx.
    + destruct Hx as [->|[->|Hx]]; [|apply Hmax; set_solver|apply Hmax; set_solver].
      specialize (Hmax y ltac:(set_solver)). lia.
    + destruct Hx as [->|[->|Hx]]; [apply Hmax; set_solver| |apply Hmax; set_solver].
      specialize (Hmax b ltac:(set_solver)). lia.
Qed.

(** [latest_of] names a version with the greatest timestamp. *)
Lemma latest_of_spec vs :
  vs <> [] -> exists v, (latest_of vs, v) ∈ vs /\
    forall k v', (k, v') ∈ vs -> updated_at_timestamp v' <= updated_at_timestamp v.
Proof.
  destruct vs as [|kv rest]; [done|]. intros _. simpl.
  destruct (max_by_spec (fun kv => updated_at_timestamp kv.2) kv rest) as [Hin Hmax].
  exists (max_by (fun kv => updated_at_timestamp kv.2) kv rest).2. split.
  - by rewrite <- surjective_pairing.
  - intros k v' Hk. by apply (Hmax (k, v')).
Qed.

(** ** Descriptors *)

Record fd_wf (fd : TGFSFileDesc) : Prop := {
  fd_keys : Dict.wf (versions fd);
  fd_ids : forall k v, Dict.get k (versions fd) = Some v -> fv_id v = k /\ k <> "";
  fd_naive : dt_aware (created_at fd) = false /\
             forall k v, Dict.get k (versions fd) = Some v -> dt_aware (updated_at v) = false;
  fd_latest :
    (versions fd = [] /\ latest_version_id fd = "") \/
    exists v, Dict.get (latest_version_id fd) (versions fd) = Some v /\
      forall k v', Dict.get k (versions fd) = Some v' ->
        dt_us (updated_at v') <= dt_us (updated_at v)
}.

Lemma dict_get_nil_all {K V} `{EqDecision K} (d : dict K V) :
  (forall k, Dict.get k d = None) -> d = [].
Proof.
  destruct d as [|[k v] d]; [done|]. intros H. specialize (H k). simpl in H.
  by rewrite decide_True in H.
Qed.

Lemma naive_lt a b :
  dt_aware a = false -> dt_aware b = false -> dt_lt a b = Ok (dt_us a <? dt_us b).
Proof. intros Ha Hb. unfold dt_lt. by rewrite Ha, Hb. Qed.

Lemma naive_ge a b :
  dt_aware a = false -> dt_aware b = false -> dt_ge a b = Ok (dt_us b <=? dt_us a).
Proof. intros Ha Hb. unfold dt_ge. by rewrite Ha, Hb. Qed.

(** Which version the descriptor points at after [add_version]. *)
Definition latest_after (v : TGFSFileVersion) (fd : TGFSFileDesc) : string :=
  match Dict.get (latest_version_id fd) (versions fd) with
  | Some cur => if dt_us (updated_at cur) <=? dt_us (updated_at v)
                then fv_id v else latest_version_id fd
  | None => fv_id v
  end.

Lemma fd_latest_empty fd : fd_wf fd -> latest_version_id fd = "" -> versions fd = [].
Proof.
  intros Hw Hl. destruct (fd_latest _ Hw) as [[? _]|(w & Hw' & _)]; [done|].
  rewrite Hl in Hw'. by apply (fd_ids _ Hw) in Hw' as [_ ?].
Qed.

Lemma add_version_run v fd :
  fd_wf fd -> dt_aware (updated_at v) = false -> fv_id v <> "" ->
  Dict.get (fv_id v) (versions fd) = None ->
  add_version v fd =
  (Ok tt, {| fd_name := fd_name fd; latest_version_id := latest_after v fd;
             created_at := if dt_us (updated_at v) <? dt_us (created_at fd)
                           then updated_at v else created_at fd;
             versions := Dict.set (fv_id v) v (versions fd); complete := complete fd |}).
Proof.
  intros Hw Hn Hid Hnew. destruct Hw as [Hk Hi [Hc Hna] Hl]. destruct fd as [nm lat cr vs cmp].
  unfold add_version, latest_after, sbind, sget, sput, slift, sret, with_versions,
    with_latest, with_created, INVALID_VERSION_ID, get_version in *. simpl in *.
  assert (dt_lt (updated_at v) cr = Ok (dt_us (updated_at v) <? dt_us cr)) as Hlt
    by by apply naive_lt.
  destruct Hl as [[-> ->]|(cur & Hcur & Hmax)]; simpl.
  - rewrite Hlt. by destruct (dt_us (updated_at v) <? dt_us cr).
  - destruct (Hi _ _ Hcur) as [_ Hne]. rewrite decide_False by done.
    rewrite Dict.get_set_ne by congruence. rewrite Hcur. simpl.
    rewrite naive_ge by eauto.
    destruct (dt_us (updated_at cur) <=? dt_us (updated_at v)); simpl; rewrite Hlt;
      by destruct (dt_us (updated_at v) <? dt_us cr).
Qed.

Lemma add_version_wf v fd fd' :
  fd_wf fd -> dt_aware (updated_at v) = false -> fv_id v <> "" ->
  Dict.get (fv_id v) (versions fd) = None ->
  add_version v fd = (Ok tt, fd') -> fd_wf fd'.
Proof.
  intros Hw Hn Hid Hnew. rewrite add_version_run by done. intros [= <-].
  destruct Hw as [Hk Hi [Hc Hna] Hl]. split; simpl.
  - by apply Dict.wf_set.
  - intros k w. destruct (decide (k = fv_id v)) as [->|Hne].
    + rewrite Dict.get_set_eq. by intros [= <-].
    + rewrite Dict.get_set_ne by done. apply Hi.
  - split; [by destruct (_ <? _)|]. intros k w. destruct (decide (k = fv_id v)) as [->|Hne].
    + rewrite Dict.get_set_eq. by intros [= <-].
    + rewrite Dict.get_set_ne by done. apply Hna.
  - right. unfold latest_after.
    assert (forall w, (forall k w', Dict.get k (versions fd) = Some w' ->
              dt_us (updated_at w') <= dt_us (updated_at w)) ->
            dt_us (updated_at v) <= dt_us (updated_at w) ->
            forall k w', Dict.get k (Dict.set (fv_id v) v (versions fd)) = Some w' ->
              dt_us (updated_at w') <= dt_us (updated_at w)) as Hmax.
    { intros w H1 H2 k w'. destruct (decide (k = fv_id v)) as [->|Hne].
      - rewrite Dict.get_set_eq. by intros [= <-].
      - rewrite Dict.get_set_ne by done. apply H1. }
    destruct Hl as [[Hv _]|(cur & Hcur & Hm)].
    + rewrite Hv in *. simpl. exists v. rewrite decide_True by done. split; [done|].
      apply (Hmax v); [done|lia].
    + rewrite Hcur. destruct (_ <=? _) eqn:Hle; [apply Z.leb_le in Hle|apply Z.leb_gt in Hle].
      * exists v. rewrite Dict.get_set_eq. split; [done|]. apply Hmax; [|lia].
        intros k w' Hk'. specialize (Hm _ _ Hk'). lia.
      * exists cur. rewrite Dict.get_set_ne by congruence. split; [done|]. apply Hmax; [done|lia].
Qed.

(** [max_date] on naive dates: the last of the newest versions. *)
Lemma max_date_spec best l :
  dt_aware (updated_at best.2) = false ->
  Forall (fun kv => dt_aware (updated_at kv.2) = false) l ->
  exists k v, max_date best l = Ok k /\ (k, v) ∈ best :: l /\
    forall k' v', (k', v') ∈ best :: l -> dt_us (updated_at v') <= dt_us (updated_at v).
Proof.
  revert best. induction l as [|kv l IH]; intros [kb vb] Hb Hl; simpl in *.
  - exists kb, vb. split; [done|]. split; [set_solver|].
    intros k' v' [= -> ->]%list_elem_of_singleton. lia.
  - apply Forall_cons in Hl as [Hkv Hl]. destruct kv as [kk vv]; simpl in *.
    assert (forall b : string * TGFSFileVersion, dt_aware (updated_at b.2) = false ->
              b ∈ [(kb, vb); (kk, vv)] ->
              dt_us (updated_at vb) <= dt_us (updated_at b.2) ->
              dt_us (updated_at vv) <= dt_us (updated_at b.2) ->
              exists k v, max_date b l = Ok k /\ (k, v) ∈ (kb, vb) :: (kk, vv) :: l /\
                forall k' v', (k', v') ∈ (kb, vb) :: (kk, vv) :: l ->
                  dt_us (updated_at v') <= dt_us (updated_at v)) as Hstep.
    { intros b Hbn Hbin H1 H2. destruct (IH b Hbn Hl) as (k & v & Hm & Hin & Hmax).
      exists k, v. split; [done|]. split; [set_solver|].
      assert (dt_us (updated_at b.2) <= dt_us (updated_at v)).
      { apply (Hmax b.1 b.2). destruct b. set_solver. }
      intros k' v'. rewrite !elem_of_cons. intros [[= -> ->]|[[= -> ->]|Hin']]; [lia|lia|].
      apply (Hmax k'). set_solver. }
    case_decide as He.
    + apply Hstep; [done|set_solver|simpl; rewrite He; lia|simpl; lia].
    + rewrite naive_lt by done. simpl.
      destruct (_ <? _) eqn:Hlt; [apply Z.ltb_lt in Hlt|apply Z.ltb_ge in Hlt];
        (apply Hstep; [done|set_solver|simpl; lia|simpl; lia]).
Qed.

Lemma dict_elem_get {K V} `{EqDecision K} (d : dict K V) k v :
  Dict.wf d -> (k, v) ∈ d <-> Dict.get k d = Some v.
Proof.
  intros Hd. rewrite list_elem_of_In. split; [by apply Dict.In_get|apply Dict.get_Some_In].
Qed.

Lemma delete_version_wf id fd v :
  fd_wf fd -> Dict.get id (versions fd) = Some v ->
  exists fd', delete_version id fd = (Ok tt, fd') /\ fd_wf fd' /\
    versions fd' = Dict.del id (versions fd).
Proof.
  intros [Hk Hi [Hc Hna] Hl] Hv.
  unfold delete_version, sbind, sget, sput, slift, sret, sraise, Dict.mem. rewrite Hv. simpl.
  set (vs := Dict.del id (versions fd)).
  assert (Dict.wf vs) as Hk' by by apply Dict.wf_del.
  assert (forall k w, Dict.get k vs = Some w -> Dict.get k (versions fd) = Some w /\ k <> id) as Hsub.
  { intros k w. subst vs. destruct (decide (k = id)) as [->|Hne].
    - by rewrite Dict.get_del_eq.
    - by rewrite Dict.get_del_ne by done. }
  assert (forall l, (vs = [] /\ l = "") \/
    (exists w, Dict.get l vs = Some w /\ forall k w', Dict.get k vs = Some w' ->
       dt_us (updated_at w') <= dt_us (updated_at w)) ->
    fd_wf (with_latest l (with_versions vs fd))) as Hwf.
  { intros l Hlat. split; simpl; [done| | |done].
    - intros k w [Hw _]%Hsub. by apply Hi.
    - split; [done|]. intros k w [Hw _]%Hsub. by eapply Hna. }
  case_decide as Hid.
  - destruct vs as [|[k0 v0] rest] eqn:Hvs.
    + eexists. split; [done|]. split; [|done]. apply Hwf. by left.
    + assert (Forall (fun kv => dt_aware (updated_at kv.2) = false) ((k0, v0) :: rest)) as Hall.
      { apply Forall_forall. intros [k w] Hin. apply dict_elem_get in Hin; [|done].
        apply Hsub in Hin as [Hin _]. by eapply Hna. }
      apply Forall_cons in Hall as [H0 Hrest].
      destruct (max_date_spec (k0, v0) rest H0 Hrest) as (k & w & Hm & Hin & Hmax).
      rewrite Hm. eexists. split; [done|]. split; [|done]. apply Hwf. right. exists w.
      split; [by apply dict_elem_get|]. intros k' w' Hw'. apply (Hmax k').
      by apply dict_elem_get.
  - eexists. split; [done|]. split; [|done].
    replace (with_versions vs fd) with (with_latest (latest_version_id fd) (with_versions vs fd))
      by done.
    apply Hwf. right. destruct Hl as [[He _]|(cur & Hcur & Hmax)].
    + by rewrite He in Hv.
    + exists cur. subst vs. rewrite Dict.get_del_ne by (simpl in Hid; congruence).
      split; [done|]. intros k w' [Hw' _]%Hsub. by eapply Hmax.
Qed.

(** Truncation to milliseconds is monotone. *)
Lemma ts_mono a b : dt_us a <= dt_us b -> ts a <= ts b.
Proof. unfold ts. intros. apply Z.quot_le_mono; lia. Qed.

Lemma foldl_max_start l t : t <= foldl Z.max t l.
Proof. revert t. induction l as [|y l IH]; intros t; simpl; [lia|]. specialize (IH (t `max` y)). lia. Qed.

Lemma foldl_max_ge l t x : x ∈ t :: l -> x <= foldl Z.max t l.
Proof.
  revert t. induction l as [|y l IH]; intros t; simpl.
  - intros ->%list_elem_of_singleton. lia.
  - pose proof (foldl_max_start l (t `max` y)).
    rewrite !elem_of_cons. intros [->|[->|Hx]]; [lia|lia|].
    apply IH. by right.
Qed.

Lemma newest_other_spec fd k v :
  Dict.wf (versions fd) -> Dict.get k (versions fd) = Some v -> k <> latest_version_id fd ->
  exists n, newest_other fd = Some n /\ updated_at_timestamp v <= n.
Proof.
  intros Hd Hv Hk. unfold newest_other.
  assert (updated_at_timestamp v ∈
    map (fun kv : string * TGFSFileVersion => updated_at_timestamp kv.2)
     (List.filter (fun kv => negb (bool_decide (kv.1 = latest_version_id fd))) (versions fd))) as Hin.
  { apply list_elem_of_In, in_map_iff. exists (k, v). split; [done|].
    apply filter_In. split; [by apply Dict.get_Some_In|].
    simpl. by rewrite bool_decide_eq_false_2. }
  destruct (map _ _) as [|t rest]; [by apply not_elem_of_nil in Hin|].
  eexists. split; [done|]. by apply foldl_max_ge.
Qed.

Lemma set_last_modified_wf when fd v fd' :
  fd_wf fd -> dt_aware when = false ->
  set_last_modified when fd = (Ok v, fd') ->
  fd_wf fd' /\ latest_version_id fd' = latest_version_id fd /\
  Dict.get (latest_version_id fd) (versions fd') = Some v /\ updated_at v = when.
Proof.
  intros Hw Hn. destruct Hw as [Hk Hi [Hc Hna] Hl].
  unfold set_last_modified, sbind, sget, sput, slift, sret, sraise, get_version.
  case_decide as Hid; [done|].
  destruct (Dict.get (latest_version_id fd) (versions fd)) as [cur|] eqn:Hcur; [|done].
  destruct (match newest_other fd with Some n => _ | None => _ end) eqn:Hno; [done|].
  intros [= <- <-].
  set (cur' := set_updated_at when cur).
  set (vs := Dict.set (latest_version_id fd) cur' (versions fd)).
  assert (forall k w, Dict.get k vs = Some w ->
            fv_id w = k /\ k <> "" /\ dt_aware (updated_at w) = false /\
            dt_us (updated_at w) <= dt_us when) as Hvs.
  { intros k w. subst vs. destruct (decide (k = latest_version_id fd)) as [->|Hne].
    - rewrite Dict.get_set_eq. intros [= <-]. subst cur'. simpl.
      destruct (Hi _ _ Hcur) as [-> ?]. repeat split; done || lia.
    - rewrite Dict.get_set_ne by done. intros Hw.
      destruct (newest_other_spec fd k w Hk Hw Hne) as (n & Hn' & Hle).
      rewrite Hn' in Hno. apply Z.leb_gt in Hno.
      destruct (Hi _ _ Hw). split; [done|]. split; [done|]. split; [by eapply Hna|].
      destruct (Z.le_gt_cases (dt_us (updated_at w)) (dt_us when)) as [|Hgt]; [done|].
      pose proof (ts_mono when (updated_at w) ltac:(lia)).
      unfold updated_at_timestamp in Hle. lia. }
  assert (Dict.get (latest_version_id fd) vs = Some cur') as Hget by apply Dict.get_set_eq.
  destruct (ts when <? ts (created_at fd)); simpl;
    (split; [|by repeat split]); split; simpl;
    [by apply Dict.wf_set|intros k w Hkw; by destruct (Hvs k w Hkw) as (?&?&?&?)
    |split; [done|intros k w Hkw; by destruct (Hvs k w Hkw) as (?&?&?&?)]
    |right; exists cur'; split; [done|intros k w Hkw; by destruct (Hvs k w Hkw) as (?&?&?&?)]
    |by apply Dict.wf_set|intros k w Hkw; by destruct (Hvs k w Hkw) as (?&?&?&?)
    |split; [done|intros k w Hkw; by destruct (Hvs k w Hkw) as (?&?&?&?)]
    |right; exists cur'; split; [done|intros k w Hkw; by destruct (Hvs k w Hkw) as (?&?&?&?)]].
Qed.

Lemma set_last_modified_fail when fd e fd' :
  set_last_modified when fd = (Raise e, fd') -> fd' = fd.
Proof.
  unfold set_last_modified, sbind, sget, sput, slift, sret, sraise, get_version.
  case_decide; [by intros [=]|].
  destruct (Dict.get _ _); [|by intros [=]].
  destruct (match newest_other fd with Some n => _ | None => _ end); by intros [=].
Qed.

(** ** Descriptors through storage *)

Lemma rmapM_compose {E A B C} (f : A -> result E B) (g : B -> result E C) (h : A -> C) l r :
  rmapM f l = Ok r -> (forall x y, x ∈ l -> f x = Ok y -> g y = Ok (h x)) ->
  rmapM g r = Ok (map h l).
Proof.
  rewrite !rmapM_Forall2. induction 1 as [|x y l r Hxy _ IH]; intros Hg; simpl; constructor.
  - apply Hg; [set_solver|done].
  - apply IH. intros x' y' Hx'. apply Hg. set_solver.
Qed.

(** The pairs a stored descriptor is rebuilt from. *)
Definition stored_pairs (fd : TGFSFileDesc) : dict string TGFSFileVersion :=
  map (fun v => (fv_id v, reloaded v)) (get_versions true false fd).

Lemma version_to_dict_id v d : (version_to_dict v).1 = Ok d -> version_key d = Ok (fv_id v).
Proof.
  unfold version_to_dict. simpl. destruct (rmapM _ _); simpl; [|done].
  intros [= <-]. unfold version_key. simpl. f_equal. by destruct (size_fill_eq v).
Qed.

Lemma in_versions_sorted fd v :
  v ∈ get_versions true false fd <-> v ∈ Dict.values (versions fd).
Proof.
  simpl. pose proof (sort_newest_perm (Dict.values (versions fd))) as Hp.
  by rewrite Hp.
Qed.

Lemma in_values_get fd v :
  fd_wf fd -> v ∈ Dict.values (versions fd) <-> Dict.get (fv_id v) (versions fd) = Some v.
Proof.
  intros Hw. unfold Dict.values. rewrite list_elem_of_In, in_map_iff. split.
  - intros ([k w] & <- & Hin%list_elem_of_In). simpl.
    apply dict_elem_get in Hin as Hg; [|apply Hw]. by destruct (fd_ids _ Hw _ _ Hg) as [-> _].
  - intros Hg. exists (fv_id v, v). split; [done|]. by apply Dict.get_Some_In.
Qed.

Lemma keys_are_ids fd :
  fd_wf fd -> map fv_id (Dict.values (versions fd)) = Dict.keys (versions fd).
Proof.
  intros Hw. unfold Dict.values, Dict.keys. rewrite map_map. apply map_ext_in.
  intros [k v] Hin%list_elem_of_In. simpl.
  apply dict_elem_get in Hin; [|apply Hw]. by destruct (fd_ids _ Hw _ _ Hin).
Qed.

Lemma stored_pairs_wf fd : fd_wf fd -> Dict.wf (stored_pairs fd).
Proof.
  intros Hw. unfold Dict.wf, stored_pairs, Dict.keys. rewrite map_map. simpl.
  rewrite (sort_newest_perm (Dict.values (versions fd))), keys_are_ids by done.
  apply Hw.
Qed.

Lemma stored_pairs_get fd k :
  fd_wf fd -> Dict.get k (stored_pairs fd) = reloaded <$> Dict.get k (versions fd).
Proof.
  intros Hw.
  assert (forall w, Dict.get k (stored_pairs fd) = Some w <->
            exists v, Dict.get k (versions fd) = Some v /\ w = reloaded v) as Hiff.
  { intros w. rewrite <- dict_elem_get by by apply stored_pairs_wf.
    unfold stored_pairs. rewrite list_elem_of_In, in_map_iff. split.
    - intros (v & [= <- <-] & Hin%list_elem_of_In). rewrite in_versions_sorted in Hin.
      apply in_values_get in Hin; [eauto|done].
    - intros (v & Hv & ->). exists v. destruct (fd_ids _ Hw _ _ Hv) as [Hid _].
      split; [by rewrite Hid|]. apply list_elem_of_In, in_versions_sorted, in_values_get; [done|].
      by rewrite Hid. }
  destruct (Dict.get k (versions fd)) as [v|] eqn:Hv; simpl.
  - apply Hiff. eauto.
  - destruct (Dict.get k (stored_pairs fd)) as [w|] eqn:Hg; [|done].
    by destruct (proj1 (Hiff w) eq_refl) as (v & ? & _).
Qed.

Definition fd_canonical (fd : TGFSFileDesc) : Prop :=
  fd_wf fd /\ forall k v, Dict.get k (versions fd) = Some v -> fv_canonical v.

Lemma desc_reload fd ds now name :
  fd_canonical fd -> desc_to_dict fd = Ok ds -> validate_name name = Ok tt ->
  desc_from_dict now ds name =
  Ok {| fd_name := name; latest_version_id := latest_of (stored_pairs fd);
        created_at := now; versions := stored_pairs fd; complete := true |}.
Proof.
  intros [Hw Hc] Hds Hname. unfold desc_from_dict, desc_to_dict in *.
  rewrite (rmapM_compose _ _ (fun v => (fv_id v, reloaded v)) _ _ Hds).
  - cbn [rbind]. rewrite Hname. cbn [rbind].
    fold (stored_pairs fd). by rewrite dict_of_pairs_id by by apply stored_pairs_wf.
  - intros v d Hv Hd. rewrite (version_to_dict_id v d Hd). cbn [rbind].
    rewrite (version_roundtrip_lemma v d); [done| |done].
    apply in_versions_sorted, in_values_get in Hv; [|done]. by eapply Hc.
Qed.

(** No two versions carry the same serialized date. *)
Definition dates_distinct (fd : TGFSFileDesc) : Prop :=
  forall k k' v v', Dict.get k (versions fd) = Some v -> Dict.get k' (versions fd) = Some v' ->
    updated_at_timestamp v = updated_at_timestamp v' -> k = k'.

Lemma reloaded_ts v : updated_at_timestamp (reloaded v) = updated_at_timestamp v.
Proof.
  unfold updated_at_timestamp, reloaded, ts, fromtimestamp_ms. simpl.
  by rewrite Z.quot_mul.
Qed.

Lemma latest_of_stored fd :
  fd_wf fd -> dates_distinct fd -> latest_of (stored_pairs fd) = latest_version_id fd.
Proof.
  intros Hw Hd. destruct (fd_latest _ Hw) as [[Hv Hl]|(v & Hv & Hmax)].
  { unfold stored_pairs. simpl. rewrite Hv, Hl. done. }
  destruct (latest_of_spec (stored_pairs fd)) as (w & Hin & Hge).
  { intros He. pose proof (stored_pairs_get fd (latest_version_id fd) Hw) as Hg.
    rewrite He, Hv in Hg. done. }
  apply dict_elem_get in Hin; [|by apply stored_pairs_wf].
  rewrite stored_pairs_get in Hin by done.
  destruct (Dict.get (latest_of (stored_pairs fd)) (versions fd)) as [u|] eqn:Hu; [|done].
  simpl in Hin. injection Hin as <-.
  apply (Hd _ _ u v Hu Hv). apply Z.le_antisymm.
  - apply ts_mono. by eapply Hmax.
  - rewrite <- (reloaded_ts v), <- (reloaded_ts u). apply (Hge (latest_version_id fd)).
    apply dict_elem_get; [by apply stored_pairs_wf|].
    by rewrite stored_pairs_get, Hv by done.
Qed.

(** Two equally dated versions are written in reverse order. *)
Lemma sort_newest_tied a b :
  updated_at_timestamp a = updated_at_timestamp b -> sort_newest [a; b] = [b; a].
Proof.
  intros Hab. unfold sort_newest, enumerate, newer. simpl. unfold newer. simpl.
  rewrite Hab, Z.ltb_irrefl, Z.eqb_refl. done.
Qed.

Lemma tied_stored_pairs fd a b va vb :
  fd_wf fd -> versions fd = [(a, va); (b, vb)] ->
  updated_at_timestamp va = updated_at_timestamp vb ->
  stored_pairs fd = [(b, reloaded vb); (a, reloaded va)] /\
  latest_of (stored_pairs fd) = b.
Proof.
  intros Hw Hvs Ht. unfold stored_pairs, get_versions. rewrite Hvs. simpl.
  pose proof (fd_ids _ Hw) as Hi. rewrite Hvs in Hi.
  pose proof (fd_keys _ Hw) as Hk. rewrite Hvs in Hk. unfold Dict.wf in Hk. simpl in Hk.
  assert (a <> b) as Hab by (apply NoDup_cons in Hk as [Hk _]; set_solver).
  assert (fv_id va = a) as Ha by (apply (Hi a va); simpl; by rewrite decide_True).
  assert (fv_id vb = b) as Hb
    by (apply (Hi b vb); simpl; rewrite decide_False by done; by rewrite decide_True).
  rewrite sort_newest_tied by done. simpl. rewrite Ha, Hb. split; [done|].
  rewrite !reloaded_ts, Ht, Z.ltb_irrefl. done.
Qed.

Lemma version_to_dict_ok v :
  is_ok (version_to_dict v).1 =
  is_ok (rmapM (fun kr => rmap (pair kr.1) (replica_to_dict kr.2)) (replicas v)).
Proof.
  unfold version_to_dict. simpl. destruct (size_fill_eq v) as (_&_&_&_&->&_&_).
  by destruct (rmapM _ _).
Qed.

Lemma reloaded_to_dict v :
  is_ok (version_to_dict (reloaded v)).1 = is_ok (version_to_dict v).1.
Proof. by rewrite !version_to_dict_ok. Qed.

Lemma reloaded_canonical v : fv_canonical v -> fv_canonical (reloaded v).
Proof. intros [? ? ? ?]. split; [by rewrite reloaded_ts|done..]. Qed.

(** The descriptor read back is canonical again. *)
Lemma reloaded_desc_canonical fd now l :
  fd_canonical fd -> dt_aware now = false ->
  (exists v, Dict.get l (versions fd) = Some v /\
     forall k w, Dict.get k (versions fd) = Some w ->
       updated_at_timestamp w <= updated_at_timestamp v) ->
  fd_canonical {| fd_name := fd_name fd; latest_version_id := l; created_at := now;
                  versions := stored_pairs fd; complete := true |}.
Proof.
  intros [Hw Hc] Hnow (v & Hv & Hmax).
  assert (forall k w, Dict.get k (stored_pairs fd) = Some w ->
            exists u, Dict.get k (versions fd) = Some u /\ w = reloaded u) as Hget.
  { intros k w. rewrite stored_pairs_get by done.
    destruct (Dict.get k (versions fd)); simpl; [|done]. intros [= <-]. eauto. }
  split; [split|]; simpl.
  - by apply stored_pairs_wf.
  - intros k w (u & Hu & ->)%Hget. by apply (fd_ids _ Hw) in Hu.
  - split; [done|]. by intros k w (u & Hu & ->)%Hget.
  - right. exists (reloaded v). rewrite stored_pairs_get, Hv by done. split; [done|].
    intros k w (u & Hu & ->)%Hget. simpl. specialize (Hmax _ _ Hu). lia.
  - intros k w (u & Hu & ->)%Hget. apply reloaded_canonical. by eapply Hc.
Qed.

(** ** The properties of the component *)

(** A replica whose ids fit 64 bits is always serialized, and reading the
    serialized form gives the replica back: ids (plain or packed in base64
    when there are more than a hundred) and part sizes (in full or collapsed
    to [common, last] and a count). *)
Theorem replica_roundtrip r :
  Forall id_ok (r_message_ids r) ->
  exists d, replica_to_dict r = Ok d /\ replica_from_dict d = Ok r.
Proof.
  intros Hids.
  assert (exists d, replica_to_dict r = Ok d) as [d Hd].
  { unfold replica_to_dict. destruct (encode_ids_total _ Hids) as [e ->].
    destruct (_ <? _); simpl; destruct (_ && _); eauto; destruct (nonempty _); eauto. }
  exists d. split; [done|]. by apply replica_roundtrip_lemma.
Qed.

(** Promoting a mirror ([relocate]) loses no complete copy -- every store
    that held one still does -- and the version belongs to the new primary
    exactly when that store had a complete copy, otherwise its ids keep
    naming the old store. *)
Theorem relocate_keeps_copies pk s v :
  fv_wf v -> store v = Some s -> s <> pk ->
  (forall k, has_copy_in k v = true -> has_copy_in k (relocate pk v) = true) /\
  (if has_copy_in pk v
   then store (relocate pk v) = Some pk /\ message_ids (relocate pk v) <> []
   else store (relocate pk v) = Some s /\ message_ids (relocate pk v) = message_ids v).
Proof.
  intros Hw Hs Hne. split.
  - intros k. by apply relocate_copies.
  - by apply relocate_owner.
Qed.

(** Adding a fresh version to a well-formed descriptor succeeds, keeps
    the descriptor well-formed (the pointer names a newest version), stores
    the version, and makes it the latest one exactly when no stored version
    is newer -- of equally dated versions the one added last wins. *)
Theorem add_version_newest v fd :
  fd_wf fd -> dt_aware (updated_at v) = false -> fv_id v <> "" ->
  Dict.get (fv_id v) (versions fd) = None ->
  exists fd', add_version v fd = (Ok tt, fd') /\ fd_wf fd' /\
    versions fd' = Dict.set (fv_id v) v (versions fd) /\
    (latest_version_id fd' = fv_id v <->
     forall k w, Dict.get k (versions fd) = Some w ->
       dt_us (updated_at w) <= dt_us (updated_at v)).
Proof.
  intros Hw Hn Hid Hnew. eexists. split; [by apply add_version_run|]. split.
  { eapply add_version_wf; [..|by apply add_version_run]; done. }
  split; [done|]. simpl. unfold latest_after.
  destruct (fd_latest _ Hw) as [[Hv Hl]|(cur & Hcur & Hmax)].
  - by rewrite Hv.
  - rewrite Hcur. destruct (_ <=? _) eqn:Hle; [apply Z.leb_le in Hle|apply Z.leb_gt in Hle].
    + split; [|done]. intros _ k w Hw'. specialize (Hmax _ _ Hw'). lia.
    + split; [congruence|]. intros Hall. specialize (Hall _ _ Hcur). lia.
Qed.

(** Deleting a version removes exactly that version and leaves the
    descriptor well-formed: the pointer moves to a newest remaining version,
    or to none. *)
Theorem delete_version_repoints id fd v :
  fd_wf fd -> Dict.get id (versions fd) = Some v ->
  exists fd', delete_version id fd = (Ok tt, fd') /\ fd_wf fd' /\
    Dict.get id (versions fd') = None /\
    forall k, k <> id -> Dict.get k (versions fd') = Dict.get k (versions fd).
Proof.
  intros Hw Hv. destruct (delete_version_wf id fd v Hw Hv) as (fd' & Hrun & Hwf & Hvs).
  exists fd'. rewrite Hvs. split; [done|]. split; [done|]. split.
  - apply Dict.get_del_eq.
  - intros k Hk. by apply Dict.get_del_ne.
Qed.

(** A client's modification time never promotes older content: when
    [set_last_modified] succeeds the same version stays the latest, now dated
    as asked and strictly newest as serialized, and when it fails nothing
    changed. *)
Theorem set_last_modified_safe when fd :
  fd_wf fd -> dt_aware when = false ->
  match set_last_modified when fd with
  | (Ok v, fd') =>
      fd_wf fd' /\ latest_version_id fd' = latest_version_id fd /\
      Dict.get (latest_version_id fd) (versions fd') = Some v /\ updated_at v = when /\
      forall k w, k <> latest_version_id fd -> Dict.get k (versions fd') = Some w ->
        updated_at_timestamp w < ts when
  | (Raise _, fd') => fd' = fd
  end.
Proof.
  intros Hw Hn. destruct (set_last_modified when fd) as [[v|e] fd'] eqn:Hrun;
    [|by eapply set_last_modified_fail].
  destruct (set_last_modified_wf _ _ _ _ Hw Hn Hrun) as (H1 & H2 & H3 & H4).
  split; [done|]. split; [done|]. split; [done|]. split; [done|]. intros k w Hk Hkw.
  revert Hrun. unfold set_last_modified, sbind, sget, sput, slift, sret, sraise, get_version.
  case_decide; [done|]. destruct (Dict.get (latest_version_id fd) (versions fd)); [|done].
  destruct (match newest_other fd with Some n => _ | None => _ end) eqn:Hno; [done|].
  intros [= _ <-].
  assert (Dict.get k (versions fd) = Some w) as Hold.
  { revert Hkw. destruct (_ <? _); simpl; by rewrite Dict.get_set_ne. }
  destruct (newest_other_spec fd k w (fd_keys _ Hw) Hold Hk) as (n & Hn' & Hle).
  rewrite Hn' in Hno. apply Z.leb_gt in Hno. lia.
Qed.

(** C38: a descriptor whose versions carry distinct serialized dates survives
    storage: the same version is the latest one and every version comes back
    with its ids, mirrors, replicas, store and date (in milliseconds). *)
Theorem descriptor_roundtrip fd ds now :
  fd_canonical fd -> dates_distinct fd -> validate_name (fd_name fd) = Ok tt ->
  desc_to_dict fd = Ok ds ->
  exists fd', desc_from_dict now ds (fd_name fd) = Ok fd' /\
    latest_version_id fd' = latest_version_id fd /\
    forall k, Dict.get k (versions fd') = reloaded <$> Dict.get k (versions fd).
Proof.
  intros Hc Hd Hn Hds. eexists. split; [by apply desc_reload|]. simpl. destruct Hc as [Hw _]. split.
  - by apply latest_of_stored.
  - intros k. by apply stored_pairs_get.
Qed.

(** Two versions stamped within one millisecond swap roles over two
    write/read cycles: after the first the one added last is still the
    latest, after the second the older one is.  The writer puts the newest
    first by insertion order, and the reader's insertion order is then the
    reverse of it. *)
Theorem tied_versions_swap fd a b va vb now ds :
  fd_canonical fd -> versions fd = [(a, va); (b, vb)] ->
  updated_at_timestamp va = updated_at_timestamp vb ->
  dt_aware now = false -> validate_name (fd_name fd) = Ok tt ->
  desc_to_dict fd = Ok ds ->
  exists fd1, desc_from_dict now ds (fd_name fd) = Ok fd1 /\ latest_version_id fd1 = b /\
    exists ds1 fd2, desc_to_dict fd1 = Ok ds1 /\
      desc_from_dict now ds1 (fd_name fd) = Ok fd2 /\ latest_version_id fd2 = a.
Proof.
  intros Hc Hvs Ht Hnow Hname Hds. pose proof Hc as [Hw _].
  destruct (tied_stored_pairs fd a b va vb Hw Hvs Ht) as [Hsp Hl].
  eexists. split; [by apply desc_reload|]. simpl. split; [done|].
  set (fd1 := {| fd_name := _; latest_version_id := _; created_at := now;
                 versions := _; complete := _ |}).
  assert (fd_canonical fd1) as Hc1.
  { apply reloaded_desc_canonical; [done|done|]. rewrite Hl. exists vb.
    pose proof (fd_keys _ Hw) as Hk. rewrite Hvs in Hk |- *. unfold Dict.wf in Hk. simpl in *.
    apply NoDup_cons in Hk as [Hk _]. rewrite decide_False by set_solver.
    rewrite decide_True by done. split; [done|]. intros k w.
    repeat case_decide; intros [= <-]; lia. }
  assert (exists ds1, desc_to_dict fd1 = Ok ds1) as [ds1 Hds1].
  { revert Hds. unfold desc_to_dict, get_versions. subst fd1. cbn [versions].
    rewrite Hvs, Hsp. cbn [Dict.values map snd].
    rewrite !sort_newest_tied by (rewrite ?reloaded_ts; lia). cbn [rmapM].
    pose proof (reloaded_to_dict va) as Oa. pose proof (reloaded_to_dict vb) as Ob.
    destruct (version_to_dict va).1, (version_to_dict vb).1,
      (version_to_dict (reloaded va)).1, (version_to_dict (reloaded vb)).1;
      simpl in *; (discriminate || eauto). }
  eexists ds1, _. split; [done|]. split; [by apply (desc_reload fd1)|]. simpl.
  eapply (tied_stored_pairs fd1 b a); [apply Hc1|done|]. rewrite !reloaded_ts. lia.
Qed.

(** A version without a stored date (a descriptor written by tgfs) is
    loaded with the time-zone aware epoch, so as soon as it is the latest one
    adding a version with a local date raises [TypeError] instead of
    recording the upload. *)
Theorem undated_version_blocks_add old v fd now d0 name :
  version_from_dict d0 = Ok old -> default 0 (vs_updatedAt d0) <= 0 -> fv_id old <> "" ->
  desc_from_dict now [d0] name = Ok fd ->
  dt_aware (updated_at v) = false -> fv_id v <> fv_id old ->
  fst (add_version v fd) = Raise TypeError.
Proof.
  intros Hold Hts Hid Hfd Hn Hne.
  assert (version_key d0 = Ok (fv_id old) /\ updated_at old = FIRST_DAY_OF_EPOCH) as [Hkey Hup].
  { revert Hold. unfold version_from_dict, version_key.
    rewrite (proj2 (Z.ltb_ge _ _)) by done.
    destruct (match vs_messageIds d0 with Some _ => _ | None => _ end); simpl; [|done].
    destruct (vs_id d0); simpl; [|done]. destruct (rmapM _ _); simpl; [|done].
    by intros [= <-]. }
  revert Hfd. unfold desc_from_dict. simpl. rewrite Hkey. simpl. rewrite Hold. simpl.
  destruct (validate_name name); simpl; [|done]. intros [= <-].
  unfold add_version, sbind, sget, sput, slift, get_version, INVALID_VERSION_ID. simpl.
  rewrite decide_False by done. rewrite decide_False by congruence.
  simpl. rewrite decide_True by done. simpl.
  rewrite Hup. unfold dt_ge. by rewrite Hn.
Qed.

(** ** Witnesses *)

(** Concrete versions and descriptors. *)
Definition demo_version (id : string) (us : Z) (ids : list Z) : TGFSFileVersion :=
  {| fv_id := id; updated_at := {| dt_aware := false; dt_us := us |};
     fv_size_field := 10; message_ids := ids; part_sizes := [];
     mirrors := [("dc:7", map (fun i => i + 100) ids)]; replicas := []; store := Some "tg:1";
     pending := false; cacheable := true; recorded_size := 10 |}.

Definition demo_desc (l : string) (vs : list TGFSFileVersion) : TGFSFileDesc :=
  {| fd_name := "a.txt"; latest_version_id := l;
     created_at := {| dt_aware := false; dt_us := 1000 |};
     versions := map (fun v => (fv_id v, v)) vs; complete := true |}.

Definition demo_a : TGFSFileVersion := demo_version "a" 1000000 [1; 2].
Definition demo_b : TGFSFileVersion := demo_version "b" 2000000 [3].
Definition demo_ab : TGFSFileDesc := demo_desc "b" [demo_a; demo_b].
(** The same millisecond, different microseconds. *)
Definition demo_tied : TGFSFileDesc :=
  demo_desc "b" [demo_version "a" 1000001 [1]; demo_version "b" 1000002 [2]].

Lemma demo_wf us1 us2 i j :
  us1 <= us2 -> fd_wf (demo_desc "b" [demo_version "a" us1 i; demo_version "b" us2 j]).
Proof.
  intros Hus. split; simpl.
  - by apply (bool_decide_unpack _).
  - intros k v. repeat case_decide; intros [= <-]; by subst.
  - split; [done|]. intros k v. repeat case_decide; intros [= <-]; done.
  - right. eexists. split; [done|]. intros k v.
    repeat case_decide; intros [= <-]; simpl; lia.
Qed.

Lemma demo_keys_normal {V} (x : V) : keys_normal [("dc:7", x)].
Proof.
  split; [apply NoDup_singleton|]. repeat constructor.
Qed.

Lemma demo_canonical us1 us2 i j :
  1000 <= us1 -> us1 <= us2 ->
  fd_canonical (demo_desc "b" [demo_version "a" us1 i; demo_version "b" us2 j]).
Proof.
  intros H1 H2. split; [by apply demo_wf|]. intros k v. simpl.
  repeat case_decide; intros [= <-].
  1,2: split; [|apply demo_keys_normal|split; [apply NoDup_nil_2|constructor]|by intros s [= <-]];
    unfold updated_at_timestamp, ts; simpl; pose proof (Z.quot_le_mono 1000 us1 1000);
    pose proof (Z.quot_le_mono 1000 us2 1000); rewrite Z.quot_same in *; lia.
Qed.

Lemma replica_roundtrip_witness :
  exists d, replica_to_dict {| r_message_ids := [5; 6; 7]; r_part_sizes := [4; 4; 1] |} = Ok d /\
    replica_from_dict d = Ok {| r_message_ids := [5; 6; 7]; r_part_sizes := [4; 4; 1] |}.
Proof. apply replica_roundtrip. repeat constructor; done. Defined.

Lemma relocate_keeps_copies_witness :
  has_copy_in "dc:7" demo_a = true /\ has_copy_in "tg:1" (relocate "dc:7" demo_a) = true /\
  store (relocate "dc:7" demo_a) = Some "dc:7".
Proof.
  assert (fv_wf demo_a) as Hw.
  { split; [repeat constructor|done|]. by intros s [= <-]. }
  destruct (relocate_keeps_copies "dc:7" "tg:1" demo_a Hw eq_refl ltac:(done)) as [H1 H2].
  split; [reflexivity|]. split; [by apply H1|]. apply H2.
Defined.

Lemma add_version_newest_witness :
  exists fd', add_version (demo_version "c" 2000000 [9]) demo_ab = (Ok tt, fd') /\
    latest_version_id fd' = "c".
Proof.
  destruct (add_version_newest (demo_version "c" 2000000 [9]) demo_ab) as (fd' & H & _ & _ & Hl);
    [by apply demo_wf|done|done|done|].
  exists fd'. split; [exact H|]. apply Hl. intros k w. simpl.
  repeat case_decide; intros [= <-]; simpl; lia.
Defined.

Lemma delete_version_repoints_witness :
  exists fd', delete_version "b" demo_ab = (Ok tt, fd') /\ Dict.get "b" (versions fd') = None.
Proof.
  destruct (delete_version_repoints "b" demo_ab demo_b) as (fd' & H & _ & Hg & _);
    [by apply demo_wf|done|]. by exists fd'.
Defined.

Lemma set_last_modified_safe_witness :
  exists v fd', set_last_modified (fromtimestamp_ms 1500) demo_ab = (Ok v, fd') /\
    latest_version_id fd' = "b" /\ updated_at v = fromtimestamp_ms 1500.
Proof.
  pose proof (set_last_modified_safe (fromtimestamp_ms 1500) demo_ab
                (demo_wf 1000000 2000000 [1; 2] [3] ltac:(lia)) eq_refl) as H.
  destruct (set_last_modified (fromtimestamp_ms 1500) demo_ab) as [[v|e] fd'] eqn:Hr.
  - exists v, fd'. by destruct H as (_ & H2 & _ & H4 & _).
  - vm_compute in Hr. discriminate.
Defined.

Lemma descriptor_roundtrip_witness :
  exists ds fd', desc_to_dict demo_ab = Ok ds /\
    desc_from_dict FIRST_DAY_OF_EPOCH ds "a.txt" = Ok fd' /\ latest_version_id fd' = "b".
Proof.
  destruct (desc_to_dict demo_ab) as [ds|] eqn:Hds; [|discriminate].
  destruct (descriptor_roundtrip demo_ab ds FIRST_DAY_OF_EPOCH) as (fd' & H1 & H2 & _);
    [by apply demo_canonical| |done|exact Hds|by exists ds, fd'].
  intros k k' v v'. simpl. repeat case_decide; intros [= <-] [= <-]; by subst.
Defined.

Lemma tied_versions_swap_witness :
  exists ds fd1, desc_to_dict demo_tied = Ok ds /\
    desc_from_dict (fromtimestamp_ms 5) ds "a.txt" = Ok fd1 /\ latest_version_id fd1 = "b".
Proof.
  destruct (desc_to_dict demo_tied) as [ds|] eqn:Hds; [|discriminate].
  destruct (tied_versions_swap demo_tied "a" "b" (demo_version "a" 1000001 [1])
              (demo_version "b" 1000002 [2]) (fromtimestamp_ms 5) ds) as (fd1 & H1 & H2 & _);
    [by apply demo_canonical|done|done|done|done|exact Hds|by exists ds, fd1].
Defined.

Definition demo_undated : TGFSFileVersionSerialized :=
  {| vs_id := Some "a"; vs_updatedAt := None; vs_messageId := Some 7; vs_messageIds := None;
     vs_size := None; vs_mirrors := None; vs_replicas := None; vs_store := None;
     vs_pending := None |}.

Lemma undated_version_blocks_add_witness :
  exists fd, desc_from_dict (fromtimestamp_ms 5) [demo_undated] "a.txt" = Ok fd /\
    fst (add_version demo_b fd) = Raise TypeError.
Proof.
  destruct (version_from_dict demo_undated) as [old|] eqn:Ho; [|discriminate].
  destruct (desc_from_dict (fromtimestamp_ms 5) [demo_undated] "a.txt") as [fd|] eqn:Hf;
    [|discriminate].
  exists fd. split; [done|].
  eapply (undated_version_blocks_add old); [exact Ho|simpl; lia| |exact Hf|done|];
    vm_compute in Ho; injection Ho as <-; done.
Defined.
