(* ===== verification/CryptoLib.v ===== *)
(** * The cryptographic primitives and the key derivation ([tgdcfs/crypto/kdf.py])

    [cryptography] and [hashlib] are libraries: their functions are fields of
    the class [CryptoLib], and what their documentation promises are the
    fields of [CryptoLaws].  Nothing here says that a forged tag is refused
    -- that is a computational assumption -- only what the calls return on
    honest input.  [toy_crypto] is a model of the laws for the witnesses. *)

From S2P Require Import Prelude Errors.

Open Scope Z_scope.
Open Scope py_scope.

Class CryptoLib := {
  (** [hmac.new(key, msg, sha256).digest()] *)
  hmac_sha256 : bytes -> bytes -> bytes;
  (** [HKDF(SHA256(), length, salt, info).derive(key)]: length, salt, info, key *)
  hkdf_sha256 : Z -> bytes -> bytes -> bytes -> bytes;
  (** [AESGCM(key).encrypt(nonce, data, None)] *)
  aesgcm_encrypt : bytes -> bytes -> bytes -> bytes;
  (** [AESGCM(key).decrypt(nonce, data, None)]; [None] is [InvalidTag] *)
  aesgcm_decrypt : bytes -> bytes -> bytes -> option bytes;
  (** [AESSIV(key).encrypt(data, None)] and [decrypt] *)
  aessiv_encrypt : bytes -> bytes -> bytes;
  aessiv_decrypt : bytes -> bytes -> option bytes
}.

Class CryptoLaws `{CryptoLib} := {
  hmac_length k m : zlen (hmac_sha256 k m) = 32;
  hkdf_length n salt info k : 0 <= n -> zlen (hkdf_sha256 n salt info k) = n;
  gcm_length k n p : zlen k = 32 -> zlen n = 12 -> zlen p < 2 ^ 31 ->
    zlen (aesgcm_encrypt k n p) = zlen p + 16;
  gcm_correct k n p : zlen k = 32 -> zlen n = 12 -> zlen p < 2 ^ 31 ->
    aesgcm_decrypt k n (aesgcm_encrypt k n p) = Some p;
  siv_length k p : zlen k = 64 -> 0 < zlen p -> zlen (aessiv_encrypt k p) = zlen p + 16;
  siv_correct k p : zlen k = 64 -> 0 < zlen p ->
    aessiv_decrypt k (aessiv_encrypt k p) = Some p
}.

(** A byte string from a literal. *)
Definition bytes_of (s : string) : bytes := String.list_byte_of_string s.

(** ** Key derivation *)

Definition HKDF_INFO_FILE : bytes := bytes_of "tgfs-file-key-v1".

Definition derive_file_key `{CryptoLib} (master_key file_salt : bytes) : exc bytes :=
  if negb (zlen master_key =? 32) then Raise ValueError
  else if zlen file_salt <? 16 then Raise ValueError
  else Ok (hkdf_sha256 32 file_salt HKDF_INFO_FILE master_key).

Lemma derive_file_key_ok `{CryptoLaws} mk salt :
  zlen mk = 32 -> 16 <= zlen salt ->
  exists k, derive_file_key mk salt = Ok k /\ zlen k = 32.
Proof.
  intros Hm Hs. unfold derive_file_key. rewrite Hm, (proj2 (Z.ltb_ge _ _)) by lia.
  eexists. split; [done|]. by apply hkdf_length.
Qed.

(** ** A model of the laws *)

(** [n] bytes: [l] cut or filled up with zeros. *)
Definition pad_to (n : Z) (l : bytes) : bytes :=
  ztake n l ++ replicate (Z.to_nat (n - zlen l)) x00.

Lemma zlen_pad_to n l : 0 <= n -> zlen (pad_to n l) = n.
Proof.
  intros. unfold pad_to. rewrite zlen_app, zlen_ztake, zlen_replicate by lia.
  pose proof (zlen_nonneg l). lia.
Qed.

(** A tag that depends on key and nonce only, in front of the plaintext. *)
Definition toy_seal (k n p : bytes) : bytes := p ++ pad_to 16 (ztake 4 k ++ n).

Definition toy_open (k n c : bytes) : option bytes :=
  let m := zlen c - 16 in
  if (0 <=? m) && bool_decide (zdrop m c = pad_to 16 (ztake 4 k ++ n))
  then Some (ztake m c) else None.

#[export] Instance toy_crypto : CryptoLib := {|
  hmac_sha256 k m := pad_to 32 k;
  hkdf_sha256 n salt info k := pad_to n (ztake 8 k ++ salt);
  aesgcm_encrypt := toy_seal;
  aesgcm_decrypt := toy_open;
  aessiv_encrypt k p := toy_seal k [] p;
  aessiv_decrypt k c := toy_open k [] c
|}.

Lemma toy_open_seal k n p : toy_open k n (toy_seal k n p) = Some p.
Proof.
  unfold toy_open, toy_seal. rewrite zlen_app, zlen_pad_to by lia.
  replace (zlen p + 16 - 16) with (zlen p) by lia.
  pose proof (zlen_nonneg p). rewrite (proj2 (Z.leb_le _ _)) by lia.
  rewrite zdrop_app, zdrop_ge, zdrop_0 by lia. simpl app. rewrite bool_decide_eq_true_2 by done.
  cbn [andb]. rewrite ztake_app, ztake_ge, ztake_0 by lia. by rewrite app_nil_r.
Qed.

#[export] Instance toy_crypto_laws : CryptoLaws.
Proof.
  split.
  - intros. simpl. by apply zlen_pad_to.
  - intros. simpl. by apply zlen_pad_to.
  - intros. simpl. unfold toy_seal. rewrite zlen_app, zlen_pad_to by lia. done.
  - intros. apply toy_open_seal.
  - intros. simpl. unfold toy_seal. rewrite zlen_app, zlen_pad_to by lia. done.
  - intros. apply toy_open_seal.
Qed.
