(* ===== verification/Header.v ===== *)
(** * The header of an encrypted file ([tgdcfs/crypto/header.py])

    Sixty bytes: magic, version, algorithm, chunk size, salt and a truncated
    HMAC. *)

From S2P Require Import Prelude Errors Codec CryptoLib.

Open Scope Z_scope.
Open Scope py_scope.

Definition HEADER_SIZE : Z := 60.
Definition MAGIC : bytes := bytes_of "TGFS".
Definition HEADER_VERSION : Z := 1.
Definition DEFAULT_CHUNK_SIZE : Z := 64 * 1024.
Definition FILE_SALT_SIZE : Z := 32.
Definition HEADER_MAC_SIZE : Z := 16.
Definition BODY_SIZE : Z := 44.
Definition MAX_CHUNK_SIZE : Z := 16 * 1024 * 1024.

Inductive Algorithm := AES_256_GCM.

Definition Algorithm_value (a : Algorithm) : Z := match a with AES_256_GCM => 1 end.

(** [Algorithm(algo)]. *)
Definition Algorithm_of (z : Z) : option Algorithm :=
  if z =? 1 then Some AES_256_GCM else None.

Record FileHeader := {
  version : Z;
  algorithm : Algorithm;
  chunk_size : Z;
  file_salt : bytes
}.

(** [FileHeader.new]; the random salt is an argument. *)
Definition new_header (salt : bytes) (cs : Z) : FileHeader :=
  {| version := HEADER_VERSION; algorithm := AES_256_GCM; chunk_size := cs;
     file_salt := salt |}.

(** [struct.pack(">4sHHI32s", ...)]. *)
Definition header_body (h : FileHeader) : exc bytes :=
  let* v := struct_pack 2 (version h) in
  let* a := struct_pack 2 (Algorithm_value (algorithm h)) in
  let* c := struct_pack 4 (chunk_size h) in
  Ok (pad_to 4 MAGIC ++ v ++ a ++ c ++ pad_to FILE_SALT_SIZE (file_salt h)).

Section Header.
  Context `{CryptoLib}.

Definition header_tag (file_key body : bytes) : bytes :=
  ztake HEADER_MAC_SIZE (hmac_sha256 file_key body).

Definition serialize (h : FileHeader) (file_key : bytes) : exc bytes :=
  let* body := header_body h in
  Ok (body ++ header_tag file_key body).

Definition parse (raw : bytes) : exc FileHeader :=
  if zlen raw <? HEADER_SIZE then Raise InvalidHeaderError
  else
    let body := ztake BODY_SIZE raw in
    let magic := zslice 0 4 body in
    let* ver := struct_unpack 2 (zslice 4 6 body) in
    let* algo := struct_unpack 2 (zslice 6 8 body) in
    let* cs := struct_unpack 4 (zslice 8 12 body) in
    let salt := zslice 12 44 body in
    if negb (bool_decide (magic = MAGIC)) then Raise InvalidHeaderError
    else if negb (ver =? HEADER_VERSION) then Raise InvalidHeaderError
    else
      match Algorithm_of algo with
      | None => Raise InvalidHeaderError
      | Some a =>
          if (cs <=? 0) || (MAX_CHUNK_SIZE <? cs) then Raise InvalidHeaderError
          else Ok {| version := ver; algorithm := a; chunk_size := cs; file_salt := salt |}
      end.

Definition verify (raw file_key : bytes) : exc unit :=
  if zlen raw <? HEADER_SIZE then Raise InvalidHeaderError
  else
    let body := ztake BODY_SIZE raw in
    let tag := zslice BODY_SIZE HEADER_SIZE raw in
    if negb (bool_decide (tag = header_tag file_key body)) then Raise InvalidHeaderError
    else Ok tt.

(** A header as [new] builds it, with a chunk size the parser accepts. *)
Record header_ok (h : FileHeader) : Prop := {
  ho_version : version h = HEADER_VERSION;
  ho_chunk : 0 < chunk_size h <= MAX_CHUNK_SIZE;
  ho_salt : zlen (file_salt h) = FILE_SALT_SIZE
}.

Lemma pad_to_exact n l : zlen l = n -> pad_to n l = l.
Proof.
  intros <-. unfold pad_to. rewrite ztake_ge by lia.
  replace (zlen l - zlen l) with 0 by lia. apply app_nil_r.
Qed.

Lemma header_body_ok h :
  header_ok h ->
  header_body h = Ok (MAGIC ++ be_encode 2 HEADER_VERSION ++ be_encode 2 1 ++
                      be_encode 4 (chunk_size h) ++ file_salt h).
Proof.
  intros [Hv [Hc0 Hc1] Hs]. unfold header_body. rewrite Hv.
  rewrite (pad_to_exact FILE_SALT_SIZE) by done. destruct (algorithm h).
  unfold struct_pack at 3.
  rewrite (proj2 (Z.leb_le 0 (chunk_size h))), (proj2 (Z.ltb_lt _ _)).
  - done.
  - unfold MAX_CHUNK_SIZE in Hc1. simpl. lia.
  - lia.
Qed.

Lemma serialize_length `{!CryptoLaws} h k raw :
  header_ok h -> serialize h k = Ok raw -> zlen raw = HEADER_SIZE.
Proof.
  intros Hh. unfold serialize. rewrite header_body_ok by done. cbn [rbind]. intros <-%Ok_inj.
  unfold header_tag. rewrite !zlen_app, !zlen_be_encode, zlen_ztake by done.
  rewrite (ho_salt _ Hh), hmac_length. reflexivity.
Qed.

(** Reading a field of a header. *)
Lemma zslice_field {A} (l m r : list A) b e :
  zlen l = b -> e = b + zlen m -> zslice b e (l ++ m ++ r) = m.
Proof.
  intros <- ->. rewrite zslice_app_r by lia.
  replace (zlen l - zlen l) with 0 by lia.
  rewrite zslice_app_l by lia. replace (zlen l + zlen m - zlen l) with (zlen m) by lia.
  apply zslice_full.
Qed.

Lemma struct_unpack_encode n z :
  0 <= z < 256 ^ Z.of_nat n -> struct_unpack n (be_encode n z) = Ok z.
Proof.
  intros Hz. unfold struct_unpack. rewrite length_be_encode, Nat.eqb_refl.
  by rewrite be_decode_encode.
Qed.

Lemma serialize_ok `{!CryptoLaws} h k :
  header_ok h ->
  exists body, header_body h = Ok body /\ zlen body = BODY_SIZE /\
    serialize h k = Ok (body ++ header_tag k body) /\ zlen (header_tag k body) = HEADER_MAC_SIZE.
Proof.
  intros Hh. unfold serialize. rewrite header_body_ok by done. eexists. split; [done|].
  rewrite !zlen_app, !zlen_be_encode, (ho_salt _ Hh). split; [done|]. split; [done|].
  unfold header_tag. by rewrite zlen_ztake, hmac_length.
Qed.

Lemma parse_body h body tail :
  header_ok h -> header_body h = Ok body -> zlen body = BODY_SIZE ->
  HEADER_MAC_SIZE <= zlen tail -> parse (body ++ tail) = Ok h.
Proof.
  intros Hh Hb Hl Ht. unfold parse. rewrite zlen_app, Hl, (proj2 (Z.ltb_ge _ _)).
  2: { unfold HEADER_SIZE, BODY_SIZE, HEADER_MAC_SIZE in *. lia. }
  rewrite ztake_app, Hl, (ztake_ge BODY_SIZE body), (ztake_0 (BODY_SIZE - BODY_SIZE)), app_nil_r by lia.
  rewrite header_body_ok in Hb by done. apply Ok_inj in Hb. rewrite <- Hb.
  destruct Hh as [Hv [Hc0 Hc1] Hs]. unfold MAX_CHUNK_SIZE, FILE_SALT_SIZE in *.
  match goal with |- context [zslice 0 4 (MAGIC ++ ?x)] =>
    rewrite (zslice_field [] MAGIC x 0 4 eq_refl eq_refl : zslice 0 4 (MAGIC ++ x) = MAGIC) end.
  rewrite (zslice_field MAGIC (be_encode 2 HEADER_VERSION)) by done.
  rewrite (app_assoc MAGIC), (zslice_field (MAGIC ++ _) (be_encode 2 1)) by done.
  rewrite (app_assoc (MAGIC ++ _)), (zslice_field ((MAGIC ++ _) ++ _) (be_encode 4 _)) by done.
  rewrite (app_assoc ((MAGIC ++ _) ++ _)), <- (app_nil_r (file_salt h)).
  rewrite (zslice_field (((MAGIC ++ _) ++ _) ++ _) (file_salt h) []).
  2: done. 2: rewrite Hs; reflexivity.
  rewrite !struct_unpack_encode by (unfold HEADER_VERSION; simpl; lia). cbn [rbind].
  rewrite bool_decide_eq_true_2, Z.eqb_refl by done. cbn [negb].
  rewrite (proj2 (Z.leb_gt (chunk_size h) 0)), (proj2 (Z.ltb_ge MAX_CHUNK_SIZE _)).
  2: unfold MAX_CHUNK_SIZE; lia. 2: lia.
  destruct h as [v [] cs salt]. simpl in *. by rewrite Hv.
Qed.

Lemma verify_tag `{!CryptoLaws} k body tail :
  zlen body = BODY_SIZE -> verify (body ++ header_tag k body ++ tail) k = Ok tt.
Proof.
  intros Hb. unfold verify. pose proof (zlen_nonneg tail).
  assert (zlen (header_tag k body) = HEADER_MAC_SIZE) as Ht
    by (unfold header_tag; by rewrite zlen_ztake, hmac_length).
  rewrite !zlen_app, Hb, Ht, (proj2 (Z.ltb_ge _ _)).
  2: unfold HEADER_SIZE, BODY_SIZE, HEADER_MAC_SIZE; lia.
  rewrite ztake_app, Hb, (ztake_ge _ body), (ztake_0 (BODY_SIZE - BODY_SIZE)), app_nil_r by lia.
  rewrite (zslice_field body) by (done || by rewrite Ht).
  by rewrite bool_decide_eq_true_2.
Qed.

(** What [parse] accepted determines the body it read. *)
Lemma parse_inv raw h :
  parse raw = Ok h -> HEADER_SIZE <= zlen raw /\ header_ok h /\ header_body h = Ok (ztake BODY_SIZE raw).
Proof.
  unfold parse. destruct (zlen raw <? HEADER_SIZE) eqn:Hl; [done|]. apply Z.ltb_ge in Hl.
  set (body := ztake BODY_SIZE raw).
  assert (zlen body = 44) as Hb.
  { unfold body. rewrite zlen_ztake by done. unfold HEADER_SIZE, BODY_SIZE in *. lia. }
  destruct (struct_unpack 2 (zslice 4 6 body)) as [ver|] eqn:Hver; cbn [rbind]; [|done].
  destruct (struct_unpack 2 (zslice 6 8 body)) as [algo|] eqn:Halgo; cbn [rbind]; [|done].
  destruct (struct_unpack 4 (zslice 8 12 body)) as [cs|] eqn:Hcs; cbn [rbind]; [|done].
  case_bool_decide as Hm; cbn [negb]; [|done].
  destruct (ver =? HEADER_VERSION) eqn:Hv; cbn [negb]; [|done]. apply Z.eqb_eq in Hv.
  unfold Algorithm_of. destruct (algo =? 1) eqn:Ha; [|done]. apply Z.eqb_eq in Ha.
  destruct (cs <=? 0) eqn:Hc0; [done|]. destruct (MAX_CHUNK_SIZE <? cs) eqn:Hc1; [done|].
  cbn [orb]. intros <-%Ok_inj. apply Z.leb_gt in Hc0. apply Z.ltb_ge in Hc1.
  assert (zlen (zslice 12 44 body) = 32) as Hsalt by (rewrite zlen_zslice; lia).
  split; [done|]. split; [by split|]. unfold header_body. simpl version. simpl algorithm.
  simpl chunk_size. simpl file_salt. apply struct_unpack_pack in Hver, Halgo, Hcs.
  rewrite Ha in Halgo. rewrite Hver, Hcs. simpl Algorithm_value. rewrite Halgo. cbn [rbind].
  rewrite (pad_to_exact FILE_SALT_SIZE) by done. rewrite (pad_to_exact 4 MAGIC) by done.
  rewrite <- Hm, <- !zslice_split by lia. f_equal. rewrite <- Hb. apply zslice_full.
Qed.

Lemma struct_unpack_slice (n : nat) b e l :
  0 <= b -> e = b + Z.of_nat n -> e <= zlen l -> exists z, struct_unpack n (zslice b e l) = Ok z.
Proof.
  intros Hb -> He. unfold struct_unpack. pose proof (zlen_zslice b (b + Z.of_nat n) l) as Hz.
  unfold zlen in Hz at 2. rewrite (proj2 (Nat.eqb_eq _ _)) by lia. by eexists.
Qed.

(** Every failure of [parse] is an [InvalidHeaderError]. *)
Lemma parse_error raw x : parse raw = Raise x -> x = InvalidHeaderError.
Proof.
  unfold parse. destruct (zlen raw <? HEADER_SIZE) eqn:Hl; [by intros [= <-]|]. apply Z.ltb_ge in Hl.
  set (body := ztake BODY_SIZE raw).
  assert (zlen body = 44) as Hb.
  { unfold body. rewrite zlen_ztake by done. unfold HEADER_SIZE, BODY_SIZE in *. lia. }
  destruct (struct_unpack_slice 2 4 6 body) as [? ->]; [lia..|].
  destruct (struct_unpack_slice 2 6 8 body) as [? ->]; [lia..|].
  destruct (struct_unpack_slice 4 8 12 body) as [? ->]; [lia..|]. cbn [rbind].
  destruct (negb _); [by intros [= <-]|]. destruct (negb _); [by intros [= <-]|].
  destruct (Algorithm_of _); [|by intros [= <-]]. destruct (_ || _); [by intros [= <-]|done].
Qed.

Lemma verify_inv raw k :
  zlen raw = HEADER_SIZE -> verify raw k = Ok tt ->
  raw = ztake BODY_SIZE raw ++ header_tag k (ztake BODY_SIZE raw).
Proof.
  intros Hl. unfold verify. rewrite Hl, Z.ltb_irrefl. case_bool_decide as Ht; [|done].
  intros _. rewrite <- Ht, zslice_spec, (ztake_ge (HEADER_SIZE - BODY_SIZE)).
  - by rewrite ztake_zdrop.
  - rewrite zlen_zdrop by done. rewrite Hl. done.
Qed.

(** The reader accepts exactly the headers the writer produces: sixty
    bytes parse to [h] and authenticate under [k] if and only if they are
    what [serialize h k] wrote, for a header of the supported version and
    algorithm with a 32-byte salt and a chunk size up to 16 MiB.  In
    particular any other magic, version, algorithm, chunk size or tag is
    refused. *)
Theorem header_accepts_iff `{!CryptoLaws} raw h k :
  zlen raw = HEADER_SIZE ->
  (parse raw = Ok h /\ verify raw k = Ok tt <-> header_ok h /\ serialize h k = Ok raw).
Proof.
  intros Hl. split.
  - intros [Hp Hv]. apply parse_inv in Hp as (_ & Hh & Hb). split; [done|].
    unfold serialize. rewrite Hb. cbn [rbind]. f_equal. symmetry. by apply verify_inv.
  - intros [Hh Hs]. destruct (serialize_ok h k Hh) as (body & Hb & Hbl & Hs' & Htl).
    rewrite Hs in Hs'. apply Ok_inj in Hs'. subst raw. split.
    + eapply parse_body; eauto. lia.
    + rewrite <- (app_nil_r (header_tag k body)). by apply verify_tag.
Qed.

End Header.

Lemma header_accepts_iff_witness :
  exists raw, parse raw = Ok (new_header (replicate 32 x01) 65536) /\
              verify raw (replicate 32 x02) = Ok tt.
Proof.
  destruct (serialize (new_header (replicate 32 x01) 65536) (replicate 32 x02)) as [raw|] eqn:Hs;
    [|vm_compute in Hs; discriminate].
  exists raw. apply header_accepts_iff.
  - vm_compute in Hs. injection Hs as <-. reflexivity.
  - split; [|exact Hs]. by split.
Defined.
