(* ===== verification/Cipher.v ===== *)
(** * The chunked cipher ([tgdcfs/crypto/cipher.py])

    Every chunk is sealed on its own under a nonce made of the salt and the
    index of the chunk. *)

From S2P Require Import Prelude Errors Codec CryptoLib.

Open Scope Z_scope.
Open Scope py_scope.

Definition NONCE_SIZE : Z := 12.
Definition TAG_SIZE : Z := 16.
Definition CHUNK_OVERHEAD : Z := NONCE_SIZE + TAG_SIZE.

(** Python's [divmod] on integers. *)
Definition divmod (a b : Z) : exc (Z * Z) :=
  if b =? 0 then Raise ZeroDivisionError else Ok (a / b, a mod b).

Definition chunk_nonce (file_salt : bytes) (chunk_index : Z) : exc bytes :=
  if (chunk_index <? 0) || (0xFFFFFFFFFFFFFFFF <? chunk_index) then Raise ValueError
  else let* i := struct_pack 8 chunk_index in Ok (ztake 4 file_salt ++ i).

Record ChunkedAESGCM := { cg_key : bytes; cg_salt : bytes; cg_chunk_size : Z }.

(** The constructor with the checks of [__post_init__]. *)
Definition new_cipher (key salt : bytes) (cs : Z) : exc ChunkedAESGCM :=
  if negb (zlen key =? 32) then Raise ValueError
  else if zlen salt <? 4 then Raise ValueError
  else if cs <=? 0 then Raise ValueError
  else Ok {| cg_key := key; cg_salt := salt; cg_chunk_size := cs |}.

Definition ciphertext_chunk_size (plaintext_chunk_size : Z) : Z :=
  plaintext_chunk_size + CHUNK_OVERHEAD.

Definition ciphertext_size_for_plaintext (plaintext_size cs : Z) : exc Z :=
  if plaintext_size <? 0 then Raise ValueError
  else if plaintext_size =? 0 then Ok 0
  else
    let* (full_chunks, remainder) := divmod plaintext_size cs in
    let n_chunks := full_chunks + (if remainder =? 0 then 0 else 1) in
    Ok (plaintext_size + n_chunks * CHUNK_OVERHEAD).

Definition plaintext_offset_to_chunk (offset cs : Z) : exc (Z * Z) :=
  if offset <? 0 then Raise ValueError else divmod offset cs.

Definition chunk_to_ciphertext_offset (chunk_index cs : Z) : exc Z :=
  if chunk_index <? 0 then Raise ValueError else Ok (chunk_index * (cs + CHUNK_OVERHEAD)).

(** A cipher the constructor accepts, with chunks the library can seal. *)
Record cipher_ok (c : ChunkedAESGCM) : Prop := {
  co_key : zlen (cg_key c) = 32;
  co_salt : 4 <= zlen (cg_salt c);
  co_chunk : 0 < cg_chunk_size c < 2 ^ 31
}.

Section Cipher.
  Context `{CryptoLib}.

Definition encrypt_chunk (c : ChunkedAESGCM) (plaintext : bytes) (chunk_index : Z)
  : exc bytes :=
  if cg_chunk_size c <? zlen plaintext then Raise ValueError
  else
    let* nonce := chunk_nonce (cg_salt c) chunk_index in
    Ok (nonce ++ aesgcm_encrypt (cg_key c) nonce plaintext).

Definition decrypt_chunk (c : ChunkedAESGCM) (blob : bytes) (chunk_index : Z)
  : exc bytes :=
  if zlen blob <? CHUNK_OVERHEAD then Raise CipherError
  else
    let nonce := ztake NONCE_SIZE blob in
    let ct_and_tag := zdrop NONCE_SIZE blob in
    let* expected := chunk_nonce (cg_salt c) chunk_index in
    if negb (bool_decide (nonce = expected)) then Raise CipherError
    else
      match aesgcm_decrypt (cg_key c) nonce ct_and_tag with
      | Some p => Ok p
      | None => Raise CipherError
      end.

(** ** Specification: the blob of a chunk *)

Definition nonce_of (c : ChunkedAESGCM) (i : Z) : bytes :=
  ztake 4 (cg_salt c) ++ be_encode 8 i.

Definition sealed (c : ChunkedAESGCM) (i : Z) (p : bytes) : bytes :=
  nonce_of c i ++ aesgcm_encrypt (cg_key c) (nonce_of c i) p.

(** An index a nonce can carry. *)
Definition index_ok (i : Z) : Prop := 0 <= i < 2 ^ 64.

Lemma chunk_nonce_ok c i : index_ok i -> chunk_nonce (cg_salt c) i = Ok (nonce_of c i).
Proof.
  intros [H0 H1]. unfold chunk_nonce, struct_pack.
  rewrite (proj2 (Z.ltb_ge i 0)), (proj2 (Z.ltb_ge _ i)) by lia.
  rewrite (proj2 (Z.leb_le 0 i)), (proj2 (Z.ltb_lt i _)) by (done || simpl; lia). done.
Qed.

Lemma zlen_nonce c i : cipher_ok c -> zlen (nonce_of c i) = NONCE_SIZE.
Proof.
  intros [_ Hs _]. unfold nonce_of. rewrite zlen_app, zlen_ztake, zlen_be_encode by lia.
  unfold NONCE_SIZE. lia.
Qed.

Lemma encrypt_chunk_sealed c p i :
  index_ok i -> zlen p <= cg_chunk_size c -> encrypt_chunk c p i = Ok (sealed c i p).
Proof.
  intros Hi Hp. unfold encrypt_chunk. rewrite (proj2 (Z.ltb_ge _ _)) by done.
  by rewrite chunk_nonce_ok.
Qed.

Lemma zlen_sealed `{!CryptoLaws} c i p :
  cipher_ok c -> zlen p <= cg_chunk_size c ->
  zlen (sealed c i p) = zlen p + CHUNK_OVERHEAD.
Proof.
  intros Hc Hp. unfold sealed. pose proof (co_chunk _ Hc). pose proof (co_key _ Hc).
  rewrite zlen_app, zlen_nonce, gcm_length by (done || lia || by apply zlen_nonce).
  unfold CHUNK_OVERHEAD, TAG_SIZE. lia.
Qed.

Lemma nonce_inj c i j : index_ok i -> index_ok j -> nonce_of c i = nonce_of c j -> i = j.
Proof.
  intros Hi Hj Heq. unfold nonce_of in Heq. apply app_inv_head in Heq.
  eapply (be_encode_inj 8); [| |exact Heq]; simpl; unfold index_ok in *; lia.
Qed.

Lemma decrypt_sealed `{!CryptoLaws} c i j p :
  cipher_ok c -> index_ok i -> index_ok j -> zlen p <= cg_chunk_size c ->
  decrypt_chunk c (sealed c i p) j = if decide (i = j) then Ok p else Raise CipherError.
Proof.
  intros Hc Hi Hj Hp. pose proof (co_chunk _ Hc). pose proof (co_key _ Hc).
  pose proof (zlen_nonneg p).
  unfold decrypt_chunk. rewrite zlen_sealed by done.
  rewrite (proj2 (Z.ltb_ge _ _)) by lia. unfold sealed.
  pose proof (zlen_nonce c i Hc) as Hn.
  rewrite ztake_app, (ztake_ge NONCE_SIZE), (ztake_0 (NONCE_SIZE - _)), app_nil_r by lia.
  rewrite zdrop_app, (zdrop_ge NONCE_SIZE), (zdrop_0 (NONCE_SIZE - _)) by lia. cbn [app].
  rewrite chunk_nonce_ok by done. cbn [rbind].
  destruct (decide (i = j)) as [->|Hne].
  - rewrite bool_decide_eq_true_2 by done. cbn [negb]. rewrite gcm_correct by (done || lia). done.
  - rewrite bool_decide_eq_false_2; [done|]. intros Heq. by apply Hne, (nonce_inj c).
Qed.

(** A chunk sealed at an index opens at that index to the plaintext that
    went in, and at every other index it is refused, so chunks of one file
    cannot be reordered or replayed; a blob too short for nonce and tag is
    refused as well. *)
Theorem chunk_seal_open `{!CryptoLaws} c i p :
  cipher_ok c -> index_ok i -> zlen p <= cg_chunk_size c ->
  exists blob, encrypt_chunk c p i = Ok blob /\
    zlen blob = ciphertext_chunk_size (zlen p) /\
    decrypt_chunk c blob i = Ok p /\
    (forall j, index_ok j -> j <> i -> decrypt_chunk c blob j = Raise CipherError) /\
    (forall n j, n < CHUNK_OVERHEAD -> decrypt_chunk c (ztake n blob) j = Raise CipherError).
Proof.
  intros Hc Hi Hp. exists (sealed c i p). split; [by apply encrypt_chunk_sealed|].
  split; [by apply zlen_sealed|]. split; [|split].
  - rewrite decrypt_sealed by done. by rewrite decide_True.
  - intros j Hj Hne. rewrite decrypt_sealed by done. by rewrite decide_False by congruence.
  - intros n j Hn. unfold decrypt_chunk. rewrite (proj2 (Z.ltb_lt _ _)); [done|].
    destruct (decide (n <= 0)); [by rewrite ztake_0|]. rewrite zlen_ztake by lia. lia.
Qed.

(** ** A file as a sequence of sealed chunks *)

Fixpoint sealed_from (c : ChunkedAESGCM) (i : Z) (ps : list bytes) : list bytes :=
  match ps with
  | [] => []
  | p :: ps => sealed c i p :: sealed_from c (i + 1) ps
  end.

(** The ciphertext of a plaintext, without the header. *)
Definition payload (c : ChunkedAESGCM) (i : Z) (p : bytes) : bytes :=
  concat (sealed_from c i (chunks (cg_chunk_size c) p)).

(** Number of chunks of [n] plaintext bytes. *)
Definition n_chunks (n cs : Z) : Z := (n + cs - 1) / cs.

Lemma n_chunks_0 cs : 0 < cs -> n_chunks 0 cs = 0.
Proof. intros. unfold n_chunks. apply Z.div_small. lia. Qed.

Lemma n_chunks_bounds n cs :
  0 < cs -> 0 <= n -> (n_chunks n cs - 1) * cs < n + (if n =? 0 then 1 else 0) /\ n <= n_chunks n cs * cs.
Proof.
  intros Hc Hn. unfold n_chunks. pose proof (Z.div_mod (n + cs - 1) cs ltac:(lia)).
  pose proof (Z.mod_pos_bound (n + cs - 1) cs Hc). destruct (n =? 0) eqn:?; nia.
Qed.

Lemma n_chunks_step n cs : 0 < cs -> 0 < n -> n_chunks n cs = 1 + n_chunks (Z.max 0 (n - cs)) cs.
Proof.
  intros Hc Hn. destruct (decide (n <= cs)).
  - rewrite Z.max_l, n_chunks_0 by lia. unfold n_chunks.
    symmetry. apply (Z.div_unique _ _ _ (n - 1)); lia.
  - rewrite Z.max_r by lia. unfold n_chunks. replace (n + cs - 1) with (n - cs + cs - 1 + 1 * cs) by lia.
    rewrite Z.div_add by lia. lia.
Qed.

(** The declared size: full chunks and the rest. *)
Lemma ciphertext_size_ok n cs :
  0 <= n -> 0 < cs -> ciphertext_size_for_plaintext n cs = Ok (n + n_chunks n cs * CHUNK_OVERHEAD).
Proof.
  intros Hn Hc. unfold ciphertext_size_for_plaintext. rewrite (proj2 (Z.ltb_ge _ _)) by lia.
  destruct (n =? 0) eqn:H0; [apply Z.eqb_eq in H0; subst; by rewrite n_chunks_0|].
  apply Z.eqb_neq in H0. unfold divmod. rewrite (proj2 (Z.eqb_neq _ _)) by lia. cbn [rbind].
  do 3 f_equal. unfold n_chunks.
  pose proof (Z.div_mod n cs ltac:(lia)). pose proof (Z.mod_pos_bound n cs Hc).
  destruct (n mod cs =? 0) eqn:Hm; [apply Z.eqb_eq in Hm|apply Z.eqb_neq in Hm].
  - apply (Z.div_unique _ _ _ (cs - 1)); lia.
  - apply (Z.div_unique _ _ _ (n mod cs - 1)); lia.
Qed.

Lemma payload_nil c i : payload c i [] = [].
Proof. done. Qed.

Lemma payload_unfold c i p :
  cipher_ok c -> p <> [] ->
  payload c i p = sealed c i (ztake (cg_chunk_size c) p) ++ payload c (i + 1) (zdrop (cg_chunk_size c) p).
Proof.
  intros Hc Hp. pose proof (co_chunk _ Hc). unfold payload.
  by rewrite chunks_unfold by (done || lia).
Qed.

Lemma zlen_payload `{!CryptoLaws} c i p :
  cipher_ok c ->
  zlen (payload c i p) = zlen p + n_chunks (zlen p) (cg_chunk_size c) * CHUNK_OVERHEAD.
Proof.
  intros Hc. pose proof (co_chunk _ Hc) as [Hcs _]. revert i.
  chunk_induction (cg_chunk_size c) p.
  - intros i. rewrite payload_nil, zlen_nil, n_chunks_0 by done. done.
  - intros i. apply zlen_pos in Hl as Hpos.
    rewrite payload_unfold, zlen_app, IH, zlen_sealed by (done || apply zlen_ztake_le; lia).
    rewrite zlen_ztake, zlen_zdrop, (n_chunks_step (zlen p)) by lia. lia.
Qed.

(** Chunk [k] starts at [k] strides: the ciphertext from there on is the
    payload of the plaintext from chunk [k] on. *)
Lemma payload_drop `{!CryptoLaws} c i k p :
  cipher_ok c -> 0 <= k ->
  zdrop (k * (cg_chunk_size c + CHUNK_OVERHEAD)) (payload c i p) =
  payload c (i + k) (zdrop (k * cg_chunk_size c) p).
Proof.
  intros Hc Hk. pose proof (co_chunk _ Hc) as [Hcs _]. set (cs := cg_chunk_size c) in *.
  assert (0 < CHUNK_OVERHEAD) by done. revert i k Hk. chunk_induction cs p.
  - intros i k Hk. rewrite !payload_nil, !zdrop_ge by (rewrite zlen_nil; nia). done.
  - intros i k Hk. destruct (decide (k = 0)) as [->|Hne].
    { rewrite !zdrop_0, Z.add_0_r by lia. done. }
    rewrite payload_unfold by done. fold cs.
    assert (zlen (ztake cs p) <= cs) by (apply zlen_ztake_le; lia).
    rewrite zdrop_app, zdrop_ge, zlen_sealed by (rewrite ?zlen_sealed by done; nia || done).
    cbn [app]. destruct (decide (cs <= zlen p)).
    + rewrite zlen_ztake, Z.min_l by lia.
      replace (k * (cs + CHUNK_OVERHEAD) - (cs + CHUNK_OVERHEAD)) with ((k - 1) * (cs + CHUNK_OVERHEAD)) by lia.
      rewrite IH, zdrop_zdrop by nia. f_equal; [lia|]. f_equal. lia.
    + rewrite !(zdrop_ge _ p) by nia. rewrite !payload_nil. by rewrite zdrop_ge by (rewrite zlen_nil; nia).
Qed.

Lemma payload_take `{!CryptoLaws} c i k p :
  cipher_ok c -> 0 <= k ->
  ztake (k * (cg_chunk_size c + CHUNK_OVERHEAD)) (payload c i p) =
  payload c i (ztake (k * cg_chunk_size c) p).
Proof.
  intros Hc Hk. pose proof (co_chunk _ Hc) as [Hcs _]. set (cs := cg_chunk_size c) in *.
  assert (0 < CHUNK_OVERHEAD) by done. revert i k Hk. chunk_induction cs p.
  - intros i k Hk. rewrite payload_nil. unfold ztake. rewrite !take_nil. done.
  - intros i k Hk. destruct (decide (k = 0)) as [->|Hne].
    { by rewrite !ztake_0 by lia. }
    assert (zlen (ztake cs p) <= cs) by (apply zlen_ztake_le; lia).
    assert (ztake (k * cs) p <> []) as Hne'.
    { intros He%(f_equal zlen). rewrite zlen_ztake, zlen_nil in He by nia.
      apply zlen_pos in Hl. nia. }
    rewrite (payload_unfold c i p), (payload_unfold c i (ztake (k * cs) p)) by done. fold cs.
    rewrite ztake_ztake, Z.min_l, zdrop_ztake by nia.
    rewrite ztake_app, ztake_ge by (rewrite zlen_sealed by done; nia). f_equal.
    rewrite zlen_sealed by done. fold cs. destruct (decide (cs <= zlen p)).
    + rewrite zlen_ztake, Z.min_l by lia.
      replace (k * (cs + CHUNK_OVERHEAD) - (cs + CHUNK_OVERHEAD)) with ((k - 1) * (cs + CHUNK_OVERHEAD)) by lia.
      rewrite IH by lia. f_equal. f_equal. lia.
    + rewrite (zdrop_ge cs p), payload_nil by lia. unfold ztake. rewrite !take_nil. done.
Qed.

(** The ciphertext of the chunks [s .. l]. *)
Lemma payload_slice `{!CryptoLaws} c p s l :
  cipher_ok c -> 0 <= s -> s <= l ->
  zslice (s * (cg_chunk_size c + CHUNK_OVERHEAD)) ((l + 1) * (cg_chunk_size c + CHUNK_OVERHEAD)) (payload c 0 p) =
  payload c s (zslice (s * cg_chunk_size c) ((l + 1) * cg_chunk_size c) p).
Proof.
  intros Hc Hs Hl. rewrite !zslice_spec, payload_drop by done.
  replace ((l + 1) * (cg_chunk_size c + CHUNK_OVERHEAD) - s * (cg_chunk_size c + CHUNK_OVERHEAD))
    with ((l + 1 - s) * (cg_chunk_size c + CHUNK_OVERHEAD)) by lia.
  rewrite payload_take by (done || lia). f_equal. f_equal. lia.
Qed.

End Cipher.

Definition demo_cipher : ChunkedAESGCM :=
  {| cg_key := replicate 32 x07; cg_salt := replicate 32 x01; cg_chunk_size := 4 |}.

Lemma demo_cipher_ok : cipher_ok demo_cipher.
Proof. by split. Qed.

Lemma chunk_seal_open_witness :
  exists blob, encrypt_chunk demo_cipher [x61; x62] 3 = Ok blob /\
    decrypt_chunk demo_cipher blob 3 = Ok [x61; x62] /\
    decrypt_chunk demo_cipher blob 4 = Raise CipherError.
Proof.
  destruct (chunk_seal_open demo_cipher 3 [x61; x62]) as (b & H1 & _ & H2 & H3 & _);
    [apply demo_cipher_ok|by split|by apply Z.leb_le|].
  exists b. split; [done|]. split; [done|]. apply H3; [by split|done].
Defined.
