(* ===== verification/EncStream.v ===== *)
(** * The encrypting upload wrapper ([tgdcfs/crypto/stream.py])

    [EncryptingFileMessage] turns a plaintext message into one that delivers
    header and sealed chunks.  It is written against the interface
    [Uploadable] and discharges [UploadLaws] again, so the uploader's view
    of an encrypted message is the one it has of any other. *)

From S2P Require Import Prelude Errors Codec Messages CryptoLib Header Cipher.

Open Scope Z_scope.
Open Scope py_scope.

Record EncryptingFileMessage (M : Type) := {
  em_um : UploadableFileMessage;
  em_inner : M;
  em_cipher : ChunkedAESGCM;
  em_header_bytes : bytes;
  em_pending : bytes;
  em_chunk_index : Z;
  em_plaintext_read : Z;
  em_header_emitted : bool
}.
Arguments em_um {M}.
Arguments em_inner {M}.
Arguments em_cipher {M}.
Arguments em_header_bytes {M}.
Arguments em_pending {M}.
Arguments em_chunk_index {M}.
Arguments em_plaintext_read {M}.
Arguments em_header_emitted {M}.

Definition encrypted_size_for (plaintext_size cs : Z) : exc Z :=
  rmap (Z.add HEADER_SIZE) (ciphertext_size_for_plaintext plaintext_size cs).

Section EncStream.
  Context `{CryptoLib} {M : Type} `{Uploadable M}.
  Local Abbreviation Enc := (EncryptingFileMessage M).

Definition wrap (inner : M) (file_key : bytes) (header : FileHeader) : exc Enc :=
  let* cipher := new_cipher file_key (file_salt header) (chunk_size header) in
  let* header_bytes := serialize header file_key in
  if negb (zlen header_bytes =? HEADER_SIZE) then Raise RuntimeError
  else
    let plaintext_size := get_size inner in
    let* n := ciphertext_size_for_plaintext plaintext_size (chunk_size header) in
    Ok {| em_um := {| um_name := um_name (um inner); um_size := HEADER_SIZE + n;
                      um_caption := um_caption (um inner); um_offset := 0;
                      um_read_size := 0; um_version_id := None |};
          em_inner := inner; em_cipher := cipher; em_header_bytes := header_bytes;
          em_pending := []; em_chunk_index := 0; em_plaintext_read := 0;
          em_header_emitted := false |}.

(** Attribute updates. *)
Definition em_set_um (u : UploadableFileMessage) (e : Enc) : Enc :=
  {| em_um := u; em_inner := em_inner e; em_cipher := em_cipher e;
     em_header_bytes := em_header_bytes e; em_pending := em_pending e;
     em_chunk_index := em_chunk_index e; em_plaintext_read := em_plaintext_read e;
     em_header_emitted := em_header_emitted e |}.
Definition em_set_inner (m : M) (e : Enc) : Enc :=
  {| em_um := em_um e; em_inner := m; em_cipher := em_cipher e;
     em_header_bytes := em_header_bytes e; em_pending := em_pending e;
     em_chunk_index := em_chunk_index e; em_plaintext_read := em_plaintext_read e;
     em_header_emitted := em_header_emitted e |}.
Definition em_set_pending (p : bytes) (i : Z) (e : Enc) : Enc :=
  {| em_um := em_um e; em_inner := em_inner e; em_cipher := em_cipher e;
     em_header_bytes := em_header_bytes e; em_pending := p;
     em_chunk_index := i; em_plaintext_read := em_plaintext_read e;
     em_header_emitted := em_header_emitted e |}.
Definition em_set_read (n : Z) (e : Enc) : Enc :=
  {| em_um := em_um e; em_inner := em_inner e; em_cipher := em_cipher e;
     em_header_bytes := em_header_bytes e; em_pending := em_pending e;
     em_chunk_index := em_chunk_index e; em_plaintext_read := n;
     em_header_emitted := em_header_emitted e |}.
Definition em_emit_header (e : Enc) : Enc :=
  {| em_um := em_um e; em_inner := em_inner e; em_cipher := em_cipher e;
     em_header_bytes := em_header_bytes e; em_pending := em_header_bytes e;
     em_chunk_index := em_chunk_index e; em_plaintext_read := em_plaintext_read e;
     em_header_emitted := true |}.

(** A call on the wrapped message. *)
Definition on_inner {A} (m : st exn M A) : st exn Enc A :=
  fun e => let '(r, i) := m (em_inner e) in (r, em_set_inner i e).

Definition em_open : st exn Enc unit :=
  on_inner um_open ;;;
  let! e := sget in
  if negb (em_header_emitted e) then sput (em_emit_header e) else sret tt.

Definition em_close : st exn Enc unit := on_inner um_close.

(** [while len(buf) < want]: every pass but the last adds a byte, so [want]
    passes and one to leave are enough. *)
Fixpoint plaintext_loop (fuel : nat) (want : Z) (buf : bytes) : st exn M bytes :=
  match fuel with
  | O => sraise OutOfFuel
  | S fuel =>
      if want <=? zlen buf then sret buf
      else
        let! piece := um_read (want - zlen buf) in
        if nonempty piece then plaintext_loop fuel want (buf ++ piece) else sret buf
  end.

Definition read_plaintext_chunk : st exn Enc bytes :=
  let! e := sget in
  let target := cg_chunk_size (em_cipher e) in
  let remaining_plaintext := get_size (em_inner e) - em_plaintext_read e in
  if remaining_plaintext <=? 0 then sret []
  else
    let want := Z.min target remaining_plaintext in
    let! buf := on_inner (plaintext_loop (S (Z.to_nat want)) want []) in
    let! e := sget in
    sput (em_set_read (em_plaintext_read e + zlen buf) e) ;;;
    sret buf.

(** [while len(out) < length]: a pass drains the pending bytes or refills
    them, so two passes add a byte. *)
Fixpoint read_loop (fuel : nat) (length : Z) (out : bytes) : st exn Enc bytes :=
  match fuel with
  | O => sraise OutOfFuel
  | S fuel =>
      if length <=? zlen out then sret out
      else
        let! e := sget in
        if nonempty (em_pending e) then
          let take := Z.min (length - zlen out) (zlen (em_pending e)) in
          sput (em_set_pending (zdrop take (em_pending e)) (em_chunk_index e) e) ;;;
          read_loop fuel length (out ++ ztake take (em_pending e))
        else
          let! plaintext_chunk := read_plaintext_chunk in
          if nonempty plaintext_chunk then
            let! e := sget in
            let! encrypted :=
              slift (encrypt_chunk (em_cipher e) plaintext_chunk (em_chunk_index e)) in
            sput (em_set_pending encrypted (em_chunk_index e + 1) e) ;;;
            read_loop fuel length out
          else sret out
  end.

Definition em_read (length : Z) : st exn Enc bytes :=
  read_loop (S (S (2 * Z.to_nat length))) length [].

#[export] Instance enc_uploadable : Uploadable Enc := {
  um := em_um;
  with_um := em_set_um;
  um_get_size e := um_size (em_um e);
  um_open := em_open;
  um_read := em_read;
  um_close := em_close;
  next_part n e := em_set_um (um_next_part n (em_um e)) e
}.

(** ** What it delivers *)

Context `{!UploadLaws M} `{!CryptoLaws}.

Definition enc_rest (e : Enc) : bytes :=
  em_pending e ++ payload (em_cipher e) (em_chunk_index e) (rest (em_inner e)).

(** Opened, over a message that still has exactly the plaintext it declared. *)
Record enc_readable (e : Enc) : Prop := {
  er_emitted : em_header_emitted e = true;
  er_cipher : cipher_ok (em_cipher e);
  er_inner : readable (em_inner e);
  er_sizes : get_size (em_inner e) - em_plaintext_read e = zlen (rest (em_inner e));
  er_index : 0 <= em_chunk_index e /\
    em_chunk_index e + n_chunks (zlen (rest (em_inner e))) (cg_chunk_size (em_cipher e)) <= 2 ^ 64
}.

Lemma plaintext_loop_spec fuel want buf m :
  readable m -> zlen buf <= want -> want - zlen buf <= zlen (rest m) ->
  (Z.to_nat (want - zlen buf) < fuel)%nat ->
  exists m', plaintext_loop fuel want buf m = (Ok (buf ++ ztake (want - zlen buf) (rest m)), m') /\
    readable m' /\ rest m' = zdrop (want - zlen buf) (rest m) /\ get_size m' = get_size m.
Proof.
  revert buf m. induction fuel as [|fuel IH]; intros buf m Hr Hb Hw Hf; [lia|].
  cbn [plaintext_loop]. destruct (want <=? zlen buf) eqn:Hle.
  { apply Z.leb_le in Hle. exists m. rewrite ztake_0, zdrop_0, app_nil_r by lia. done. }
  apply Z.leb_gt in Hle.
  destruct (read_spec m (want - zlen buf) Hr ltac:(lia)) as (p & m1 & Hp & Hr1 & Hrest & Hpl & Hne & Hg).
  unfold sbind. rewrite Hp.
  assert (p <> []) as Hpn.
  { apply Hne. intros He. rewrite He, zlen_nil in Hw. lia. }
  assert (nonempty p = true) as -> by by destruct p.
  apply zlen_pos in Hpn. rewrite Hrest, zlen_app in Hw.
  destruct (IH (buf ++ p) m1) as (m2 & -> & Hr2 & Hrest2 & Hg2); [done|rewrite zlen_app; lia..|].
  exists m2. rewrite Hrest, zlen_app in *.
  rewrite ztake_app, zdrop_app, (ztake_ge _ p), (zdrop_ge _ p) by lia.
  cbn [app]. rewrite <- app_assoc. rewrite Hrest2, Hg2, Hg.
  replace (want - zlen buf - zlen p) with (want - (zlen buf + zlen p)) by lia. done.
Qed.

(** One plaintext chunk: the next [chunk_size] bytes, or what is left. *)
Lemma read_plaintext_chunk_spec e :
  enc_readable e ->
  let cs := cg_chunk_size (em_cipher e) in
  exists e', read_plaintext_chunk e = (Ok (ztake cs (rest (em_inner e))), e') /\
    readable (em_inner e') /\ rest (em_inner e') = zdrop cs (rest (em_inner e)) /\
    get_size (em_inner e') - em_plaintext_read e' = zlen (rest (em_inner e')) /\
    em_cipher e' = em_cipher e /\ em_chunk_index e' = em_chunk_index e /\
    em_pending e' = em_pending e /\ em_header_emitted e' = em_header_emitted e /\
    em_um e' = em_um e.
Proof.
  intros [He Hc Hr Hs Hi] cs. pose proof (co_chunk _ Hc) as [Hcs _]. fold cs in Hcs.
  unfold read_plaintext_chunk, sbind, sget, sput, sret. fold cs. rewrite Hs.
  pose proof (zlen_nonneg (rest (em_inner e))).
  destruct (_ <=? 0) eqn:Hle.
  { apply Z.leb_le in Hle. assert (rest (em_inner e) = []) as Hnil by by apply zlen_0.
    exists e. rewrite Hnil, zdrop_ge by (rewrite zlen_nil; lia). unfold ztake. rewrite take_nil.
    rewrite Hnil in Hs. done. }
  apply Z.leb_gt in Hle. set (want := Z.min cs (zlen (rest (em_inner e)))).
  destruct (plaintext_loop_spec (S (Z.to_nat want)) want [] (em_inner e)) as (m' & Hrun & Hr' & Hrest & Hg);
    rewrite ?zlen_nil in *; [done|lia..|].
  unfold on_inner. rewrite Hrun. cbn [app]. replace (want - 0) with want in * by lia.
  assert (ztake want (rest (em_inner e)) = ztake cs (rest (em_inner e)) /\
          zdrop want (rest (em_inner e)) = zdrop cs (rest (em_inner e))) as [Ht Hd].
  { unfold want. destruct (decide (cs <= zlen (rest (em_inner e)))); [by rewrite Z.min_l by lia|].
    rewrite Z.min_r, !ztake_ge, !zdrop_ge by lia. done. }
  eexists. split; [by rewrite Ht|]. simpl. rewrite Hrest, Hd. split; [done|]. split; [done|].
  split; [|done]. rewrite Hg, zlen_ztake, zlen_zdrop by lia. lia.
Qed.

Lemma enc_rest_nil e :
  enc_readable e -> em_pending e = [] -> rest (em_inner e) = [] -> enc_rest e = [].
Proof. intros _ Hp Hr. unfold enc_rest. by rewrite Hp, Hr. Qed.

(** Refilling the pending bytes changes nothing to come. *)
Lemma refill_spec e :
  enc_readable e -> em_pending e = [] -> rest (em_inner e) <> [] ->
  exists chunk e1, read_plaintext_chunk e = (Ok chunk, e1) /\ chunk <> [] /\
    exists blob, encrypt_chunk (em_cipher e1) chunk (em_chunk_index e1) = Ok blob /\
      blob <> [] /\
      let e2 := em_set_pending blob (em_chunk_index e1 + 1) e1 in
      enc_readable e2 /\ enc_rest e2 = enc_rest e /\ em_um e2 = em_um e.
Proof.
  intros Hr Hp Hne. destruct (read_plaintext_chunk_spec e Hr)
    as (e1 & Hrun & Hr1 & Hrest & Hs1 & Hc1 & Hi1 & _ & Hh1 & Hu1).
  destruct Hr as [He Hc Hri Hs [Hi0 Hi]]. pose proof (co_chunk _ Hc) as [Hcs _].
  set (cs := cg_chunk_size (em_cipher e)) in *. apply zlen_pos in Hne as Hpos.
  rewrite n_chunks_step in Hi by lia. rewrite <- zlen_zdrop in Hi by lia.
  exists (ztake cs (rest (em_inner e))), e1. split; [done|].
  assert (zlen (ztake cs (rest (em_inner e))) <= cs) as Hle by (apply zlen_ztake_le; lia).
  assert (0 <= n_chunks (zlen (zdrop cs (rest (em_inner e)))) cs) as Hn0.
  { unfold n_chunks. apply Z.div_pos; [|lia]. pose proof (zlen_nonneg (zdrop cs (rest (em_inner e)))). lia. }
  split.
  { intros Hz%(f_equal zlen). rewrite zlen_ztake, zlen_nil in Hz by lia. lia. }
  rewrite Hc1, Hi1. eexists. split; [apply encrypt_chunk_sealed; unfold index_ok; fold cs; lia|].
  split.
  { intros Hz%(f_equal zlen). rewrite zlen_sealed, zlen_nil in Hz by done.
    pose proof (zlen_nonneg (ztake cs (rest (em_inner e)))). unfold CHUNK_OVERHEAD in Hz.
    unfold NONCE_SIZE, TAG_SIZE in Hz. lia. }
  split; [|split; [|done]].
  - split; simpl; rewrite ?Hc1, ?Hrest, ?Hi1; [congruence|done|done| |].
    + rewrite <- Hrest. done.
    + fold cs. lia.
  - unfold enc_rest. simpl. rewrite ?Hc1, ?Hi1, Hp, Hrest. cbn [app].
    fold cs. rewrite (payload_unfold _ _ (rest (em_inner e))) by done. done.
Qed.

Lemma read_loop_spec fuel length out e :
  enc_readable e -> zlen out <= length ->
  (2 * Z.to_nat (length - zlen out) + (if nonempty (em_pending e) then 1 else 2) <= fuel)%nat ->
  exists e', read_loop fuel length out e =
      (Ok (out ++ ztake (length - zlen out) (enc_rest e)), e') /\
    enc_readable e' /\ enc_rest e' = zdrop (length - zlen out) (enc_rest e) /\ em_um e' = em_um e.
Proof.
  revert out e. induction fuel as [|fuel IH]; intros out e Hr Ho Hf;
    [destruct (nonempty (em_pending e)); lia|].
  cbn [read_loop]. destruct (length <=? zlen out) eqn:Hle.
  { apply Z.leb_le in Hle. exists e. rewrite ztake_0, zdrop_0, app_nil_r by lia. done. }
  apply Z.leb_gt in Hle. unfold sbind at 1, sget at 1. cbv beta iota.
  destruct (nonempty (em_pending e)) eqn:Hp; cbv iota in Hf.
  - set (t := Z.min (length - zlen out) (zlen (em_pending e))).
    assert (0 < zlen (em_pending e)) by (apply zlen_pos; by destruct (em_pending e)).
    unfold sbind, sput.
    assert (zlen (ztake t (em_pending e)) = t) as Ht by (rewrite zlen_ztake; lia).
    set (e1 := em_set_pending (zdrop t (em_pending e)) (em_chunk_index e) e).
    assert (enc_readable e1) as Hr1 by (destruct Hr; by split).
    assert (enc_rest e1 = zdrop t (enc_rest e)) as Hrest1.
    { unfold enc_rest. simpl. rewrite zdrop_app, (zdrop_0 (t - _)) by lia. done. }
    destruct (IH (out ++ ztake t (em_pending e)) e1) as (e2 & -> & Hr2 & Hrest2 & Hu2);
      [done|rewrite zlen_app, Ht; lia| |].
    { rewrite zlen_app, Ht.
      destruct (nonempty (em_pending e1)); lia. }
    exists e2. rewrite zlen_app, Ht in *. rewrite Hrest1 in *. rewrite zdrop_zdrop in Hrest2 by lia.
    split; [|split; [done|]; split; [|done]].
    + f_equal. rewrite <- app_assoc. do 2 f_equal.
      rewrite <- (ztake_zdrop t (ztake (length - zlen out) (enc_rest e))).
      rewrite ztake_ztake, Z.min_l, zdrop_ztake by lia. f_equal.
      * unfold enc_rest. rewrite ztake_app, (ztake_0 (t - _)) by lia. by rewrite app_nil_r.
      * f_equal. lia.
    + rewrite Hrest2. f_equal. lia.
  - apply nonempty_false in Hp. destruct (decide (rest (em_inner e) = [])) as [Hnil|Hne].
    + destruct (read_plaintext_chunk_spec e Hr) as (e1 & Hrun & Hr1 & Hrest & Hs1 & Hc1 & Hi1 & Hp1 & Hh1 & Hu1).
      unfold sbind. rewrite Hrun. pose proof (co_chunk _ (er_cipher _ Hr)).
      rewrite Hnil in *. unfold ztake at 1. rewrite take_nil. cbn [nonempty]. unfold sret.
      exists e1. rewrite enc_rest_nil by done. unfold ztake. rewrite take_nil, app_nil_r.
      rewrite (zdrop_ge (cg_chunk_size (em_cipher e))) in Hrest by (rewrite zlen_nil; lia).
      split; [done|]. rewrite (zdrop_ge (length - _)) by (rewrite zlen_nil; lia).
      assert (enc_readable e1) as Hre1.
      { destruct Hr as [? ? ? ? [? ?]]. split; rewrite ?Hh1, ?Hc1, ?Hi1, ?Hrest, ?Hnil in *; try done. }
      split; [done|]. split; [|done]. apply enc_rest_nil; [done|congruence|done].
    + destruct (refill_spec e Hr Hp Hne) as (chunk & e1 & Hrun & Hcne & blob & Henc & Hbne & Hr2 & Hrest2 & Hu2).
      unfold sbind at 1. rewrite Hrun. cbv beta iota.
      assert (nonempty chunk = true) as -> by by destruct chunk.
      unfold sbind, sget, slift, sput. rewrite Henc. cbv beta iota.
      destruct (IH out (em_set_pending blob (em_chunk_index e1 + 1) e1)) as (e3 & -> & Hr3 & Hrest3 & Hu3);
        [done|lia| |exists e3; rewrite Hrest2 in *; by rewrite Hu3].
      assert (nonempty (em_pending (em_set_pending blob (em_chunk_index e1 + 1) e1)) = true) as ->
        by by destruct blob.
      lia.
Qed.

(** A read delivers exactly what was asked for, or everything left. *)
Lemma em_read_exact e n :
  enc_readable e -> 0 < n ->
  exists e', em_read n e = (Ok (ztake n (enc_rest e)), e') /\
    enc_readable e' /\ enc_rest e' = zdrop n (enc_rest e) /\ em_um e' = em_um e.
Proof.
  intros Hr Hn. destruct (read_loop_spec (S (S (2 * Z.to_nat n))) n [] e) as (e' & Hrun & H');
    rewrite ?zlen_nil; [done|lia|replace (n - 0) with n by lia; destruct (nonempty _); lia|].
  exists e'. unfold em_read. rewrite Hrun. rewrite zlen_nil in *.
  replace (n - 0) with n in * by lia. done.
Qed.

#[export] Program Instance enc_laws : UploadLaws Enc := {
  readable := enc_readable;
  rest := enc_rest
}.
Next Obligation.
  intros e n Hr Hn. destruct (em_read_exact e n Hr Hn) as (e' & Hrun & Hr' & Hrest & Hu).
  eexists _, e'. split; [exact Hrun|]. split; [done|]. rewrite Hrest, ztake_zdrop.
  split; [done|]. split; [apply zlen_ztake_le; lia|]. split.
  - intros Hne Hz%(f_equal zlen). rewrite zlen_ztake, zlen_nil in Hz by lia.
    apply zlen_pos in Hne. lia.
  - unfold get_size. simpl. by rewrite Hu.
Qed.

Lemma read_sizes_exact ns (e : Enc) :
  enc_readable e -> Forall (fun n => 0 < n) ns ->
  exists e', read_sizes ns e = (Ok (ztake (zsum ns) (enc_rest e)), e') /\
    enc_readable e' /\ enc_rest e' = zdrop (zsum ns) (enc_rest e).
Proof.
  revert e. induction ns as [|n ns IH]; intros e Hr Hns.
  { exists e. rewrite ztake_0, zdrop_0 by done. done. }
  apply Forall_cons in Hns as [Hn Hns].
  assert (0 <= zsum ns) by (apply zsum_nonneg; eapply Forall_impl; [exact Hns|]; simpl; lia).
  destruct (em_read_exact e n Hr Hn) as (e1 & Hrun & Hr1 & Hrest & _).
  destruct (IH e1 Hr1 Hns) as (e2 & Hrun2 & Hr2 & Hrest2).
  exists e2. cbn [read_sizes]. unfold sbind, sret. cbn [um_read enc_uploadable].
  rewrite Hrun, Hrun2, Hrest2, Hrest, zdrop_zdrop by lia.
  change (zsum (n :: ns)) with (n + zsum ns). split; [|done]. do 2 f_equal.
  rewrite <- (ztake_zdrop n (ztake (n + zsum ns) (enc_rest e))), ztake_ztake, Z.min_l, zdrop_ztake by lia.
  do 2 f_equal. lia.
Qed.

Definition cipher_of (h : FileHeader) (key : bytes) : ChunkedAESGCM :=
  {| cg_key := key; cg_salt := file_salt h; cg_chunk_size := chunk_size h |}.

Lemma header_cipher_ok h key : header_ok h -> zlen key = 32 -> cipher_ok (cipher_of h key).
Proof.
  intros [_ Hc Hs] Hk. split; simpl; [done|rewrite Hs; done|]. unfold MAX_CHUNK_SIZE in Hc. lia.
Qed.

Lemma new_cipher_ok h key :
  header_ok h -> zlen key = 32 ->
  new_cipher key (file_salt h) (chunk_size h) = Ok (cipher_of h key).
Proof.
  intros [_ Hc Hs] Hk. unfold new_cipher. rewrite Hk, Hs. cbn [negb Z.eqb Z.ltb].
  rewrite (proj2 (Z.leb_gt _ _)) by lia. done.
Qed.

(** The encrypted file: header and payload. *)
Definition encrypted_file (h : FileHeader) (key p : bytes) : exc bytes :=
  rmap (fun hb => hb ++ payload (cipher_of h key) 0 p) (serialize h key).

Lemma wrap_ok (m : M) key h p :
  header_ok h -> zlen key = 32 -> get_size m = zlen p ->
  exists e hb, wrap m key h = Ok e /\ serialize h key = Ok hb /\ zlen hb = HEADER_SIZE /\
    em_inner e = m /\ em_cipher e = cipher_of h key /\ em_header_bytes e = hb /\
    em_chunk_index e = 0 /\ em_plaintext_read e = 0 /\ em_header_emitted e = false /\
    um_size (em_um e) = HEADER_SIZE + zlen (payload (cipher_of h key) 0 p).
Proof.
  intros Hh Hk Hg. destruct (serialize_ok h key Hh) as (body & _ & _ & Hs & _).
  pose proof (serialize_length h key _ Hh Hs) as Hl.
  unfold wrap. rewrite new_cipher_ok by done. cbn [rbind]. rewrite Hs. cbn [rbind].
  rewrite Hl, Z.eqb_refl, Hg. cbn [negb]. pose proof (ho_chunk _ Hh).
  rewrite ciphertext_size_ok by (pose proof (zlen_nonneg p); lia). cbn [rbind].
  eexists _, _. split; [done|]. split; [done|]. split; [done|]. simpl.
  rewrite zlen_payload by by apply header_cipher_ok. done.
Qed.

(** [encrypted.version_id = v]. *)
Definition em_with_version (v : option string) (e : Enc) : Enc :=
  em_set_um (um_set_version v (em_um e)) e.

(** A wrapped message, under any version id, delivers the encrypted file. *)
Lemma encrypted_delivers (m m1 : M) p h key ns v :
  um_open m = (Ok tt, m1) -> readable m1 -> rest m1 = p ->
  get_size m = zlen p -> get_size m1 = zlen p ->
  header_ok h -> zlen key = 32 -> zlen p < 2 ^ 64 -> Forall (fun n => 0 < n) ns ->
  exists e e1 e2 ct, wrap m key h = Ok e /\ encrypted_file h key p = Ok ct /\
    get_size (em_with_version v e) = zlen ct /\ um_open (em_with_version v e) = (Ok tt, e1) /\
    read_sizes ns e1 = (Ok (ztake (zsum ns) ct), e2).
Proof.
  intros Ho Hr Hrest Hg Hg1 Hh Hk Hlen Hns.
  destruct (wrap_ok m key h p Hh Hk Hg) as (e & hb & Hw & Hs & Hl & Ei & Ec & Eh & Ex & Ep & Ee & Eu).
  set (e1 := em_emit_header (em_set_inner m1 (em_with_version v e))).
  assert (enc_readable e1) as Hr1.
  { pose proof (ho_chunk _ Hh). split; simpl; rewrite ?Ec, ?Ex, ?Ep, ?Hrest, ?Hg1; try done.
    - by apply header_cipher_ok.
    - lia.
    - split; [lia|]. unfold n_chunks. pose proof (zlen_nonneg p). simpl chunk_size.
      apply Z.div_le_upper_bound; simpl; nia. }
  destruct (read_sizes_exact ns e1 Hr1 Hns) as (e2 & Hrun & _).
  exists e, e1, e2, (hb ++ payload (cipher_of h key) 0 p). split; [done|].
  unfold encrypted_file. rewrite Hs. split; [done|]. split.
  { unfold get_size. simpl. rewrite Eu, zlen_app, Hl. by destruct (_ =? 0). }
  split.
  { simpl. unfold em_open, on_inner, sbind, sget, sput. simpl. rewrite Ei, Ho. simpl. by rewrite Ee. }
  rewrite Hrun. unfold enc_rest. simpl. by rewrite Eh, Ec, Ex, Hrest.
Qed.

(** C26: wrapping a plaintext message gives a message that, opened and read
    with any sequence of request sizes, delivers byte for byte the header
    followed by the sealed chunks of the plaintext -- whatever short reads
    the wrapped message makes -- and whose declared size is exactly the
    length of that content. *)
Theorem encrypted_message_delivers (m m1 : M) p h key ns :
  um_open m = (Ok tt, m1) -> readable m1 -> rest m1 = p ->
  get_size m = zlen p -> get_size m1 = zlen p ->
  header_ok h -> zlen key = 32 -> zlen p < 2 ^ 64 -> Forall (fun n => 0 < n) ns ->
  exists e e1 e2 ct, wrap m key h = Ok e /\ encrypted_file h key p = Ok ct /\
    get_size e = zlen ct /\ um_open e = (Ok tt, e1) /\
    read_sizes ns e1 = (Ok (ztake (zsum ns) ct), e2).
Proof.
  intros Ho Hr Hrest Hg Hg1 Hh Hk Hlen Hns.
  destruct (encrypted_delivers m m1 p h key ns None) as (e & e1 & e2 & ct & Hw & H'); [done..|].
  exists e, e1, e2, ct. split; [done|]. assert (em_with_version None e = e) as He; [|by rewrite He in H'].
  revert Hw. unfold wrap. destruct (new_cipher _ _ _); simpl; [|done]. destruct (serialize h key); simpl; [|done].
  destruct (negb _); [done|]. destruct (ciphertext_size_for_plaintext _ _); simpl; [|done].
  by intros <-%Ok_inj.
Qed.

End EncStream.

(** Re-opening an encrypted buffer for its next part rewinds the
    plaintext: [next_part] moves only the offset of the wrapper, so [open]
    makes the wrapped buffer start over while the chunk index goes on, and
    the next chunk sealed is the beginning of the file again. *)
Theorem reopened_buffer_restarts `{CryptoLib} (e : EncryptingFileMessage FileMessageFromBuffer) part :
  let b := fb_buffer (em_inner e) in
  let left := zlen b - em_plaintext_read e in
  em_header_emitted e = true -> um_offset (fb_um (em_inner e)) = 0 ->
  um_size (fb_um (em_inner e)) = zlen b -> 0 <= em_plaintext_read e < zlen b ->
  0 < cg_chunk_size (em_cipher e) ->
  exists e1 e2, um_open (next_part part e) = (Ok tt, e1) /\
    em_chunk_index e1 = em_chunk_index e /\ em_pending e1 = em_pending e /\
    read_plaintext_chunk e1 = (Ok (ztake (Z.min (cg_chunk_size (em_cipher e)) left) b), e2).
Proof.
  intros b left He Ho Hsz Hleft Hcs.
  set (m1 := fb_set_unread b (em_inner e)).
  set (e1 := em_set_inner m1 (next_part part e)).
  exists e1. assert (get_size m1 = zlen b) as Hg.
  { unfold get_size. simpl. rewrite Hsz. by destruct (_ =? 0). }
  destruct (plaintext_loop_spec (S (Z.to_nat (Z.min (cg_chunk_size (em_cipher e)) left)))
              (Z.min (cg_chunk_size (em_cipher e)) left) [] m1) as (m2 & Hrun & _);
    [done|rewrite ?zlen_nil; simpl; lia..|].
  eexists. split.
  { simpl. unfold em_open, on_inner, sbind, sget, sput, sret. simpl.
    unfold fb_open, sbind, sget, sput. simpl. rewrite Ho, He. simpl. rewrite py_drop_pos, zdrop_0 by lia. done. }
  split; [done|]. split; [done|].
  unfold read_plaintext_chunk, sbind, sget, sput, sret. change (em_inner e1) with m1. rewrite Hg.
  change (em_plaintext_read e1) with (em_plaintext_read e). fold left. rewrite (proj2 (Z.leb_gt _ _)) by lia. change (em_cipher e1) with (em_cipher e).
  unfold on_inner. change (em_inner e1) with m1. rewrite Hrun. rewrite zlen_nil, Z.sub_0_r. simpl. done.
Qed.

(** ** Witnesses *)

Definition demo_plain : bytes := bytes_of "hello, world".
Definition demo_header : FileHeader := new_header (replicate 32 x01) 4.
Definition demo_key : bytes := replicate 32 x07.

Lemma encrypted_message_delivers_witness :
  exists e e1 e2 ct, wrap (buffer_message demo_plain "f") demo_key demo_header = Ok e /\
    encrypted_file demo_header demo_key demo_plain = Ok ct /\
    um_open e = (Ok tt, e1) /\
    read_sizes [50; 1; 70] e1 = (Ok (ztake 121 ct), e2).
Proof.
  destruct (encrypted_message_delivers (buffer_message demo_plain "f")
              (fb_set_unread demo_plain (buffer_message demo_plain "f"))
              demo_plain demo_header demo_key [50; 1; 70])
    as (e & e1 & e2 & ct & H1 & H2 & _ & H3 & H4);
    [done|done|done|done|done|by split|done|done|by repeat constructor|].
  by exists e, e1, e2, ct.
Defined.

(** The same buffer uploaded in two parts of 100 bytes: the second part
    seals the first chunk of the plaintext again. *)
Definition demo_second_part : exc (EncryptingFileMessage FileMessageFromBuffer) :=
  let* e := wrap (buffer_message demo_plain "f") demo_key demo_header in
  match (um_open ;;; um_read 92) e with
  | (Ok _, e) => Ok e
  | (Raise x, _) => Raise x
  end.

Lemma reopened_buffer_restarts_witness :
  exists e e1 e2, demo_second_part = Ok e /\ em_plaintext_read e = 4 /\
    um_open (next_part 92 e) = (Ok tt, e1) /\
    read_plaintext_chunk e1 = (Ok (bytes_of "hell"), e2).
Proof.
  destruct demo_second_part as [e|] eqn:He; [|vm_compute in He; discriminate].
  vm_compute in He. injection He as He.
  destruct (reopened_buffer_restarts e 92) as (e1 & e2 & H1 & _ & _ & H2);
    [subst e; done|subst e; done|subst e; done|subst e; done|subst e; done|].
  exists e, e1, e2. split; [done|]. split; [by subst e|]. split; [done|].
  rewrite H2. by subst e.
Defined.
