(* ===== verification/Names.v ===== *)
(** * Encrypted names ([tgdcfs/crypto/names.py], [tgdcfs/crypto/path_names.py])

    Document names are sealed under a random nonce, path components with the
    deterministic AES-SIV.  A [str] is its UTF-8 encoding, one character per
    byte, so [encode] is the identity and [decode] checks validity. *)

From S2P Require Import Prelude Errors Codec StoreKey CryptoLib FileVersion.

Open Scope Z_scope.
Open Scope py_scope.

(** ** UTF-8 *)

Definition cont (b : byte) : bool := (128 <=? Z_of_byte b) && (Z_of_byte b <? 192).
Definition in_range (lo hi : Z) (b : byte) : bool :=
  (lo <=? Z_of_byte b) && (Z_of_byte b <=? hi).

(** Well-formed UTF-8 (table 3-7 of the Unicode standard). *)
Fixpoint utf8_valid (l : bytes) : bool :=
  match l with
  | [] => true
  | a :: l1 =>
      if in_range 0 127 a then utf8_valid l1
      else
        match l1 with
        | [] => false
        | b :: l2 =>
            if in_range 194 223 a then cont b && utf8_valid l2
            else
              match l2 with
              | [] => false
              | c :: l3 =>
                  if in_range 224 239 a then
                    in_range (if Z_of_byte a =? 224 then 160 else 128)
                             (if Z_of_byte a =? 237 then 159 else 191) b
                    && cont c && utf8_valid l3
                  else
                    match l3 with
                    | [] => false
                    | d :: l4 =>
                        in_range 240 244 a
                        && in_range (if Z_of_byte a =? 240 then 144 else 128)
                                    (if Z_of_byte a =? 244 then 143 else 191) b
                        && cont c && cont d && utf8_valid l4
                    end
              end
        end
  end.

Definition encode_utf8 (s : string) : bytes := String.list_byte_of_string s.

Definition decode_utf8 (l : bytes) : exc string :=
  if utf8_valid l then Ok (String.string_of_list_byte l) else Raise UnicodeDecodeError.

(** A [str] of Python. *)
Definition is_str (s : string) : Prop := utf8_valid (encode_utf8 s) = true.

Lemma decode_encode_utf8 s : is_str s -> decode_utf8 (encode_utf8 s) = Ok s.
Proof.
  unfold is_str, decode_utf8, encode_utf8. intros ->.
  by rewrite String.string_of_list_byte_of_string.
Qed.

(** [body.encode("ascii")]. *)
Definition all_ascii (s : string) : bool :=
  forallb (fun c => (nat_of_ascii c <? 128)%nat) (String.list_ascii_of_string s).

(** [s.startswith(p)] and [s[len(p):]]. *)
Fixpoint strip_prefix (p s : string) : option string :=
  match p, s with
  | EmptyString, _ => Some s
  | String c p, String d s => if decide (c = d) then strip_prefix p s else None
  | _, EmptyString => None
  end.

Lemma strip_prefix_app p s : strip_prefix p (p +:+ s) = Some s.
Proof. induction p; simpl; [done|]. by case_decide. Qed.

(** [prefix + urlsafe_b64encode(blob).rstrip("=")] and its inverse. *)
Definition b64_text (blob : bytes) : string :=
  String.string_of_list_ascii (rstrip_pad (b64_encode blob)).

Definition b64_blob (err : exn) (body : string) : exc bytes :=
  if negb (all_ascii body) then Raise err
  else match b64_decode (repad (String.list_ascii_of_string body)) with
       | Ok b => Ok b
       | Raise _ => Raise err
       end.

Lemma b64_alphabet_chars c :
  c ∈ b64_alphabet -> (nat_of_ascii c < 128)%nat /\ c <> "/"%char.
Proof.
  intros Hc.
  assert (forallb (fun c => ((nat_of_ascii c <? 128)%nat && negb (bool_decide (c = "/"%char))))
            b64_alphabet = true) as Hall by (by vm_compute).
  rewrite forallb_forall in Hall. apply list_elem_of_In, Hall in Hc.
  apply andb_prop in Hc as [H1%Nat.ltb_lt H2%negb_true_iff%bool_decide_eq_false]. done.
Qed.

Lemma b64_blob_text err blob : b64_blob err (b64_text blob) = Ok blob.
Proof.
  unfold b64_blob, b64_text, all_ascii.
  rewrite String.list_ascii_of_string_of_list_ascii, repad_rstrip_encode, b64_decode_encode.
  assert (forallb (fun c => (nat_of_ascii c <? 128)%nat) (rstrip_pad (b64_encode blob)) = true) as ->;
    [|done].
  apply forallb_forall. intros c Hc%list_elem_of_In%b64_encode_safe%b64_alphabet_chars.
  apply Nat.ltb_lt. tauto.
Qed.

Lemma str_mem_In c s : str_mem c s = true <-> c ∈ String.list_ascii_of_string s.
Proof.
  induction s as [|x s IH]; simpl.
  - split; [done|]. by intros ?%not_elem_of_nil.
  - rewrite orb_true_iff, bool_decide_eq_true, elem_of_cons, IH. naive_solver.
Qed.

(** A prefixed base64 text is a single path segment that
    [model/common.validate_name] accepts. *)
Lemma b64_text_valid_name c p blob :
  c <> "-"%char -> str_mem "/"%char (String c p) = false ->
  validate_name (String c p +:+ b64_text blob) = Ok tt.
Proof.
  intros Hc Hp. simpl. rewrite bool_decide_eq_false_2 by done. simpl in Hp.
  apply orb_false_elim in Hp as [Hc' Hp]. apply bool_decide_eq_false in Hc'.
  rewrite bool_decide_eq_false_2 by done. cbn [orb].
  destruct (str_mem "/"%char (p +:+ b64_text blob)) eqn:Hm; [|done].
  exfalso. revert Hm Hp. clear. induction p as [|x p IH]; simpl.
  - intros Hm%str_mem_In _. change ("" +:+ b64_text blob) with (b64_text blob) in Hm. unfold b64_text in Hm.
    rewrite String.list_ascii_of_string_of_list_ascii in Hm.
    apply b64_encode_safe, b64_alphabet_chars in Hm. tauto.
  - intros [H1|H2]%orb_prop [H3 H4]%orb_false_elim; [congruence|auto].
Qed.

Section Names.
  Context `{CryptoLib}.

(** ** Document names *)

Definition HKDF_INFO_NAME : bytes := bytes_of "tgfs-name-key-v1".
Definition NAME_PREFIX : string := "TGFS1_".
Definition NAME_NONCE_SIZE : Z := 12.
Definition NAME_TAG_SIZE : Z := 16.

Definition derive_name_key (master_key : bytes) : exc bytes :=
  if negb (zlen master_key =? 32) then Raise ValueError
  else Ok (hkdf_sha256 32 [] HKDF_INFO_NAME master_key).

Definition is_encrypted_name (name : string) : bool :=
  match strip_prefix NAME_PREFIX name with Some _ => true | None => false end.

(** The random nonce is an argument. *)
Definition encrypt_name (nonce name_key : bytes) (plaintext : string) : string :=
  let ct := aesgcm_encrypt name_key nonce (encode_utf8 plaintext) in
  let blob := nonce ++ ct in
  NAME_PREFIX +:+ b64_text blob.

Definition decrypt_name (name_key : bytes) (encrypted : string) : exc string :=
  match strip_prefix NAME_PREFIX encrypted with
  | None => Raise NameEncryptionError
  | Some body =>
      let* blob := b64_blob NameEncryptionError body in
      if zlen blob <? NAME_NONCE_SIZE + NAME_TAG_SIZE then Raise NameEncryptionError
      else
        match aesgcm_decrypt name_key (ztake NAME_NONCE_SIZE blob) (zdrop NAME_NONCE_SIZE blob) with
        | None => Raise NameEncryptionError
        | Some plain => decode_utf8 plain
        end
  end.

(** ** Path components *)

Definition HKDF_INFO_PATH : bytes := bytes_of "tgfs-path-name-key-v1".
Definition PATH_NAME_PREFIX : string := "TGFSP1_".

Definition derive_path_name_key (master_key : bytes) : exc bytes :=
  if negb (zlen master_key =? 32) then Raise ValueError
  else Ok (hkdf_sha256 64 [] HKDF_INFO_PATH master_key).

Definition is_encrypted_path_name (name : string) : bool :=
  match strip_prefix PATH_NAME_PREFIX name with Some _ => true | None => false end.

Definition encrypt_path_name (key : bytes) (plaintext : string) : string :=
  let blob := aessiv_encrypt key (encode_utf8 plaintext) in
  PATH_NAME_PREFIX +:+ b64_text blob.

Definition decrypt_path_name (key : bytes) (encrypted : string) : exc string :=
  match strip_prefix PATH_NAME_PREFIX encrypted with
  | None => Raise PathNameEncryptionError
  | Some body =>
      let* blob := b64_blob PathNameEncryptionError body in
      match aessiv_decrypt key blob with
      | None => Raise PathNameEncryptionError
      | Some plain => decode_utf8 plain
      end
  end.

(** A document name sealed under any 12-byte nonce comes back from
    [decrypt_name], carries the prefix, and is a valid single path segment
    whatever the original contained. *)
Theorem document_name_roundtrip `{!CryptoLaws} nonce key name :
  zlen nonce = 12 -> zlen key = 32 -> is_str name -> zlen (encode_utf8 name) < 2 ^ 31 ->
  decrypt_name key (encrypt_name nonce key name) = Ok name /\
  is_encrypted_name (encrypt_name nonce key name) = true /\
  validate_name (encrypt_name nonce key name) = Ok tt.
Proof.
  intros Hn Hk Hs Hl. split; [|split].
  - unfold decrypt_name, encrypt_name. rewrite strip_prefix_app, b64_blob_text. cbn [rbind].
    pose proof (zlen_nonneg (encode_utf8 name)).
    rewrite zlen_app, gcm_length, (proj2 (Z.ltb_ge _ _))
      by (done || (unfold NAME_NONCE_SIZE, NAME_TAG_SIZE; lia)).
    unfold NAME_NONCE_SIZE.
    rewrite ztake_app, (ztake_ge 12), (ztake_0 (12 - _)), app_nil_r by lia.
    rewrite zdrop_app, (zdrop_ge 12), (zdrop_0 (12 - _)) by lia. cbn [app].
    rewrite gcm_correct by done. by apply decode_encode_utf8.
  - unfold is_encrypted_name, encrypt_name. by rewrite strip_prefix_app.
  - by apply b64_text_valid_name.
Qed.

(** Path components encrypt to valid path segments, decrypt back to the
    name, and distinct names stay distinct, so an encrypted tree has the
    same shape as the plain one. *)
Theorem path_name_roundtrip `{!CryptoLaws} key name name' :
  zlen key = 64 -> is_str name -> is_str name' -> name <> "" -> name' <> "" ->
  decrypt_path_name key (encrypt_path_name key name) = Ok name /\
  validate_name (encrypt_path_name key name) = Ok tt /\
  (encrypt_path_name key name = encrypt_path_name key name' <-> name = name').
Proof.
  intros Hk Hs Hs' Hne Hne'.
  assert (forall n, is_str n -> n <> "" ->
            decrypt_path_name key (encrypt_path_name key n) = Ok n) as Hrt.
  { intros n Hn Hn0. unfold decrypt_path_name, encrypt_path_name.
    rewrite strip_prefix_app, b64_blob_text. cbn [rbind].
    rewrite siv_correct; [by apply decode_encode_utf8|done|].
    apply zlen_pos. by destruct n. }
  split; [by apply Hrt|]. split; [by apply b64_text_valid_name|]. split; [|by intros ->].
  intros Heq. pose proof (Hrt name Hs Hne) as H1. rewrite Heq, (Hrt name' Hs' Hne') in H1.
  by injection H1.
Qed.

End Names.

(** ** Witnesses *)

Lemma document_name_roundtrip_witness :
  decrypt_name (replicate 32 x07) (encrypt_name (replicate 12 x01) (replicate 32 x07) "a/b.txt") =
  Ok "a/b.txt".
Proof.
  apply (document_name_roundtrip (replicate 12 x01) (replicate 32 x07) "a/b.txt"); done.
Defined.

Lemma path_name_roundtrip_witness :
  decrypt_path_name (replicate 64 x07) (encrypt_path_name (replicate 64 x07) "dir") = Ok "dir".
Proof. apply (path_name_roundtrip (replicate 64 x07) "dir" "other"); done. Defined.
