(* ===== verification/Contents.v ===== *)
(** * What a content repository promises
      ([tgdcfs/core/repository/interface/__init__.py])

    [ContentRepo] has the methods of [IFileContentRepository]; [ContentLaws]
    is the promise the encrypting decorator and the file API rely on: a byte
    range inside a version is delivered exactly, with the inclusive ends of
    HTTP ranges. *)

From S2P Require Import Prelude Errors Messages FileVersion.

Open Scope Z_scope.

Class ContentRepo (R : Type) := {
  cr_save : forall M, Uploadable M -> M -> st exn R (list SentFileMessage);
  cr_get : TGFSFileVersion -> Z -> Z -> string -> bool -> st exn R stream;
  cr_update : Z -> bytes -> string -> st exn R Z;
  cr_stage : forall M, Uploadable M -> M -> string -> st exn R (option Z);
  cr_forget : list string -> st exn R unit;
  cr_content_length : TGFSFileVersion -> st exn R Z
}.

(** A step on one version keeps what the repository holds: that version and
    all versions with other ids. *)
Definition keeps {R} (C : R -> TGFSFileVersion -> bytes -> Prop) (fv : TGFSFileVersion)
    (r r' : R) : Prop :=
  forall fv' b, fv' = fv \/ fv_id fv' <> fv_id fv -> C r fv' b -> C r' fv' b.

Lemma keeps_refl {R} (C : R -> TGFSFileVersion -> bytes -> Prop) fv r : keeps C fv r r.
Proof. by intros fv' b _. Qed.

Lemma keeps_trans {R} (C : R -> TGFSFileVersion -> bytes -> Prop) fv r1 r2 r3 :
  keeps C fv r1 r2 -> keeps C fv r2 r3 -> keeps C fv r1 r3.
Proof. intros H1 H2 fv' b Hf Hb. by apply H2, H1. Qed.

(** [content r fv b]: in state [r] the version [fv] holds the bytes [b].  A
    read of one version leaves the others alone. *)
Class ContentLaws (R : Type) `{ContentRepo R} := {
  content : R -> TGFSFileVersion -> bytes -> Prop;
  get_law : forall r fv b first last name admit_,
    content r fv b -> 0 <= first -> first <= last -> last < zlen b ->
    exists s r', cr_get fv first last name admit_ r = (Ok s, r') /\
      stream_bytes s = zslice first (last + 1) b /\ fault s = None /\ keeps content fv r r';
  length_law : forall r fv b, content r fv b ->
    exists r', cr_content_length fv r = (Ok (zlen b), r') /\ keeps content fv r r'
}.

(** Two contents of one length are the same bytes: they are read alike. *)
Lemma content_unique `{ContentLaws R} r fv b1 b2 :
  content r fv b1 -> content r fv b2 -> zlen b1 = zlen b2 -> b1 = b2.
Proof.
  intros H1 H2 Hl. destruct (decide (b1 = [])) as [->|Hne].
  { rewrite zlen_nil in Hl. symmetry. apply zlen_0. lia. }
  apply zlen_pos in Hne.
  destruct (get_law r fv b1 0 (zlen b1 - 1) "" true H1) as (s1 & r1 & G1 & E1 & _); [lia..|].
  destruct (get_law r fv b2 0 (zlen b2 - 1) "" true H2) as (s2 & r2 & G2 & E2 & _); [lia..|].
  rewrite Hl in G1. rewrite G1 in G2. injection G2 as -> _.
  rewrite E1 in E2. rewrite !Z.sub_add, !zslice_full in E2. done.
Qed.

(** ** A repository in memory, for witnesses

    Versions by id; every read yields the requested bytes in pieces of
    [mr_piece]. *)

Record MemRepo := { mr_files : dict string bytes; mr_piece : Z; mr_saved : list bytes }.

Definition mem_get (fv : TGFSFileVersion) (first last : Z) (name : string) (admit_ : bool)
  : st exn MemRepo stream := fun r =>
  match Dict.get (fv_id fv) (mr_files r) with
  | None => (Raise (TechnicalError "no such version"), r)
  | Some b => (Ok {| pieces := chunks (mr_piece r) (zslice first (last + 1) b); fault := None |}, r)
  end.

Definition mem_update (message_id : Z) (buffer : bytes) (name : string) : st exn MemRepo Z :=
  fun r => (Ok message_id, {| mr_files := mr_files r; mr_piece := mr_piece r;
                              mr_saved := buffer :: mr_saved r |}).

#[export] Instance mem_repo : ContentRepo MemRepo := {
  cr_save M U m := sret [];
  cr_get := mem_get;
  cr_update := mem_update;
  cr_stage M U m v := sret None;
  cr_forget vs := sret tt;
  cr_content_length fv := sret (fv_size fv)
}.

#[export] Program Instance mem_laws : ContentLaws MemRepo := {
  content r fv b := 0 < mr_piece r /\ Dict.get (fv_id fv) (mr_files r) = Some b /\
                    fv_size fv = zlen b
}.
Next Obligation.
  intros r fv b first last name admit_ (Hp & Hg & _) H0 H1 H2. simpl. unfold mem_get. rewrite Hg.
  eexists _, _. split; [done|]. unfold stream_bytes. simpl. rewrite concat_chunks by done.
  split; [done|]. split; [done|]. apply keeps_refl.
Qed.
Next Obligation.
  intros r fv b (Hp & Hg & Hs). simpl. rewrite Hs. exists r. split; [done|]. apply keeps_refl.
Qed.
