(* ===== verification/EncRepo.v ===== *)
(** * The encrypting content repository ([tgdcfs/crypto/repository.py])

    A decorator over any [ContentRepo]: uploads are wrapped in
    [EncryptingFileMessage], reads translate the plaintext range to a
    ciphertext range and decrypt on the fly, files without the magic pass
    through.  The random bytes the code draws ([secrets.token_bytes]) are an
    arbitrary sequence in the state. *)

From S2P Require Import Prelude Errors Codec Messages FileVersion CryptoLib Header Cipher EncStream Names Contents.

Open Scope Z_scope.
Open Scope py_scope.

(** ** The cache of parsed headers *)

Module HeaderCache.

Definition CAPACITY : Z := 1024.

Record t := {
  capacity : Z;
  store : dict string (option (FileHeader * bytes));
  order : list string
}.

Definition new : t := {| capacity := CAPACITY; store := []; order := [] |}.

(** [(hit, entry)] as an option: [Some None] marks a plaintext file. *)
Definition lookup (version_id : string) (c : t) : option (option (FileHeader * bytes)) :=
  Dict.get version_id (store c).

Definition put (version_id : string) (entry : option (FileHeader * bytes)) (c : t) : exc t :=
  if Dict.mem version_id (store c) then Ok c
  else
    let* (st', ord) :=
      (if capacity c <=? zlen (store c) then
         match order c with
         | [] => Raise IndexError
         | evict :: ord => Ok (Dict.del evict (store c), ord)
         end
       else Ok (store c, order c)) in
    Ok {| capacity := capacity c; store := Dict.set version_id entry st';
          order := ord ++ [version_id] |}.

(** The insertion order is the order of the dictionary, within capacity. *)
Record wf (c : t) : Prop := {
  wf_order : Dict.keys (store c) = order c;
  wf_nodup : Dict.wf (store c);
  wf_bound : 0 < capacity c /\ zlen (store c) <= capacity c
}.

Lemma new_wf : wf new.
Proof. split; [done|apply Dict.wf_nil|done]. Qed.

Lemma del_head {V} (k : string) (v : V) d :
  Dict.wf ((k, v) :: d) -> Dict.del k ((k, v) :: d) = d.
Proof.
  intros [Hk _]%NoDup_cons. unfold Dict.del. rewrite filter_cons, decide_False by (simpl; tauto).
  induction d as [|[k' v'] d IH]; [done|]. simpl in Hk. apply not_elem_of_cons in Hk as [Hne Hk].
  rewrite filter_cons, decide_True by done. f_equal. by apply IH.
Qed.

(** [put] of a new version: in the cache afterwards; at most the oldest
    entry left it. *)
Lemma put_spec id entry c :
  wf c -> lookup id c = None ->
  exists c', put id entry c = Ok c' /\ wf c' /\ lookup id c' = Some entry /\
    forall k, k <> id -> lookup k c' = lookup k c \/ (lookup k c' = None /\ head (order c) = Some k).
Proof.
  intros [Ho Hn [Hc Hb]] Hl. unfold put, lookup, Dict.mem in *. rewrite Hl.
  assert (forall st', Dict.wf st' -> Dict.get id st' = None -> zlen st' < capacity c ->
            wf {| capacity := capacity c; store := Dict.set id entry st';
                  order := Dict.keys st' ++ [id] |}) as Hwf.
  { intros st' Hw Hg Hz. split; simpl.
    - rewrite Dict.keys_set. unfold Dict.mem. by rewrite Hg.
    - by apply Dict.wf_set.
    - split; [done|]. pose proof (f_equal zlen (Dict.keys_set id entry st')) as Hk.
      unfold Dict.mem in Hk. rewrite Hg in Hk. unfold Dict.keys in Hk.
      unfold zlen in *. rewrite length_app, !length_map in Hk. simpl in Hk. lia. }
  destruct (capacity c <=? zlen (store c)) eqn:Hfull.
  - apply Z.leb_le in Hfull. destruct (store c) as [|[k0 v0] d] eqn:Hs; [rewrite zlen_nil in *; lia|].
    rewrite <- Ho. simpl Dict.keys. cbn [rbind]. rewrite del_head by done.
    assert (Dict.get id d = None) as Hgd.
    { simpl in Hl. case_decide; done. }
    eexists. split; [done|]. simpl. rewrite zlen_cons in *.
    split; [apply Hwf; [|done|lia]; by apply NoDup_cons in Hn as [_ ?]|].
    rewrite Dict.get_set_eq. split; [done|]. intros k Hk. rewrite Dict.get_set_ne by done.
    case_decide as Hk0; [subst k0; right|by left]. split; [|done].
    apply NoDup_cons in Hn as [Hn _]. destruct (Dict.get k d) eqn:Hg; [|done].
    destruct Hn. apply (Dict.mem_In k d). unfold Dict.mem. by rewrite Hg.
  - apply Z.leb_gt in Hfull. cbn [rbind]. eexists. split; [done|]. rewrite <- Ho.
    split; [by apply Hwf|]. simpl. rewrite Dict.get_set_eq. split; [done|].
    intros k Hk. left. by rewrite Dict.get_set_ne.
Qed.

End HeaderCache.

(** ** Reading: from ciphertext pieces to plaintext *)

Definition plaintext_size_from_ciphertext (ciphertext_size cs : Z) : exc Z :=
  if ciphertext_size <=? HEADER_SIZE then Ok 0
  else
    let payload := ciphertext_size - HEADER_SIZE in
    let full_stride := cs + CHUNK_OVERHEAD in
    let* (full_chunks, tail) := divmod payload full_stride in
    if tail =? 0 then Ok (full_chunks * cs)
    else if tail <? CHUNK_OVERHEAD then Raise ValueError
    else Ok (full_chunks * cs + (tail - CHUNK_OVERHEAD)).

(** The local variables of [_decrypting_stream]. *)
Record dstate := {
  ds_buf : bytes;
  ds_index : Z;
  ds_emitted : Z;
  ds_done : Z;
  ds_head : Z
}.

Definition ds_feed (piece : bytes) (s : dstate) : dstate :=
  {| ds_buf := ds_buf s ++ piece; ds_index := ds_index s; ds_emitted := ds_emitted s;
     ds_done := ds_done s; ds_head := ds_head s |}.

(** How a pass over the buffer ends. *)
Inductive dnext := Continue (s : dstate) | Return | Fail (e : exn).

Definition trim_and_count (trim_total : Z) (plaintext : bytes) (s : dstate) : bytes * dstate :=
  let plaintext := if ds_head s =? 0 then plaintext else py_drop (ds_head s) plaintext in
  let remaining := trim_total - ds_emitted s in
  let plaintext :=
    if remaining <? zlen plaintext then py_take remaining plaintext else plaintext in
  (plaintext,
   {| ds_buf := ds_buf s; ds_index := ds_index s;
      ds_emitted := ds_emitted s + zlen plaintext; ds_done := ds_done s; ds_head := 0 |}).

(** [if out: yield out]. *)
Definition yield_nonempty (out : bytes) : list bytes := if nonempty out then [out] else [].

Section Decrypt.
  Context `{CryptoLib} (c : ChunkedAESGCM) (n stride trim_total : Z).

(** The inner [while]: every pass takes [stride] bytes off the buffer, so its
    length bounds the passes. *)
Fixpoint drain_full (fuel : nat) (s : dstate) : list bytes * dnext :=
  match fuel with
  | O => ([], Fail OutOfFuel)
  | S fuel =>
      if (ds_done s <? n - 1) && (stride <=? zlen (ds_buf s)) then
        let blob := ztake stride (ds_buf s) in
        match decrypt_chunk c blob (ds_index s) with
        | Raise e => ([], Fail e)
        | Ok plaintext =>
            let s := {| ds_buf := zdrop stride (ds_buf s); ds_index := ds_index s + 1;
                        ds_emitted := ds_emitted s; ds_done := ds_done s + 1;
                        ds_head := ds_head s |} in
            let '(out, s) := trim_and_count trim_total plaintext s in
            if trim_total <=? ds_emitted s then (yield_nonempty out, Return)
            else let '(outs, nx) := drain_full fuel s in (yield_nonempty out ++ outs, nx)
        end
      else ([], Continue s)
  end.

Fixpoint decrypt_pieces (ps : list bytes) (s : dstate) : list bytes * dnext :=
  match ps with
  | [] => ([], Continue s)
  | piece :: ps =>
      if trim_total <=? ds_emitted s then decrypt_pieces ps s
      else
        let s := ds_feed piece s in
        match drain_full (S (length (ds_buf s))) s with
        | (outs, Continue s) =>
            let '(outs', nx) := decrypt_pieces ps s in (outs ++ outs', nx)
        | (outs, nx) => (outs, nx)
        end
  end.

End Decrypt.

Definition decrypting_stream `{CryptoLib} (inner : stream) (c : ChunkedAESGCM)
    (start_chunk n_chunks trim_head trim_total cs : Z) : stream :=
  let stride := cs + CHUNK_OVERHEAD in
  let s0 := {| ds_buf := []; ds_index := start_chunk; ds_emitted := 0; ds_done := 0;
               ds_head := trim_head |} in
  match decrypt_pieces c n_chunks stride trim_total (pieces inner) s0 with
  | (outs, Return) => {| pieces := outs; fault := None |}
  | (outs, Fail e) => {| pieces := outs; fault := Some e |}
  | (outs, Continue s) =>
      match fault inner with
      | Some e => {| pieces := outs; fault := Some e |}
      | None =>
          if (ds_done s <? n_chunks) && nonempty (ds_buf s) && (ds_emitted s <? trim_total) then
            match decrypt_chunk c (ds_buf s) (ds_index s) with
            | Raise e => {| pieces := outs; fault := Some e |}
            | Ok plaintext =>
                let '(out, _) := trim_and_count trim_total plaintext s in
                {| pieces := outs ++ yield_nonempty out; fault := None |}
            end
          else {| pieces := outs; fault := None |}
      end
  end.

(** ** Correctness of the decrypting stream *)

Section DecryptSpec.
  Context `{CryptoLaws} (c : ChunkedAESGCM) (Hc : cipher_ok c) (n total : Z).
Let cs := cg_chunk_size c.
Let stride := cs + CHUNK_OVERHEAD.

(** The state owes the caller [out]: the bytes buffered and still to come are
    the ciphertext of a plaintext [q], [out] is the part of [q] that is
    asked for, and it ends in the last chunk of [q]. *)
Record owes (s : dstate) (ps : list bytes) (q out : bytes) : Prop := {
  ow_bytes : ds_buf s ++ concat ps = payload c (ds_index s) q;
  ow_index : 0 <= ds_index s /\ ds_index s + n_chunks (zlen q) cs <= 2 ^ 64;
  ow_done : ds_done s = n - n_chunks (zlen q) cs;
  ow_head : 0 <= ds_head s < cs;
  ow_out : out = zslice (ds_head s) (ds_head s + (total - ds_emitted s)) q;
  ow_end : (n_chunks (zlen q) cs - 1) * cs < ds_head s + (total - ds_emitted s) <= zlen q;
  ow_some : ds_emitted s < total
}.

Lemma owes_nonempty s ps q out : owes s ps q out -> q <> [] /\ 0 < zlen q /\ 0 < cs.
Proof.
  intros [_ _ _ Hh _ [He1 He2] Hs]. pose proof (co_chunk _ Hc) as [Hcs _]. fold cs in Hcs.
  assert (0 < zlen q) by lia. split; [|done]. intros ->. rewrite zlen_nil in *. lia.
Qed.

Lemma stride_pos : 0 < stride.
Proof. pose proof (co_chunk _ Hc) as [Hcs _]. fold cs in Hcs. unfold stride, CHUNK_OVERHEAD, NONCE_SIZE, TAG_SIZE. lia. Qed.

Lemma owes_feed s p ps q out : owes s (p :: ps) q out -> owes (ds_feed p s) ps q out.
Proof.
  intros [Hb Hi Hd Hh Ho He Hs]. split; try done. simpl in *. by rewrite <- app_assoc.
Qed.

Lemma trim_plain s p :
  0 <= ds_head s -> Z.max 0 (zlen p - ds_head s) <= total - ds_emitted s ->
  trim_and_count total p s =
  (zdrop (ds_head s) p,
   {| ds_buf := ds_buf s; ds_index := ds_index s;
      ds_emitted := ds_emitted s + zlen (zdrop (ds_head s) p); ds_done := ds_done s;
      ds_head := 0 |}).
Proof.
  intros Hh Ht. unfold trim_and_count.
  assert ((if ds_head s =? 0 then p else py_drop (ds_head s) p) = zdrop (ds_head s) p) as ->.
  { destruct (ds_head s =? 0) eqn:Hz0; [|by rewrite py_drop_pos].
    apply Z.eqb_eq in Hz0. by rewrite Hz0, zdrop_0. }
  destruct (_ <? _) eqn:Hlt; [|done]. apply Z.ltb_lt in Hlt.
  rewrite zlen_zdrop in Hlt by done. lia.
Qed.

(** One pass of the inner loop, on a chunk that is not the last one. *)
Lemma drain_step s ps q out :
  owes s ps q out -> 1 < n_chunks (zlen q) cs -> stride <= zlen (ds_buf s) ->
  let p := ztake cs q in
  let s1 := {| ds_buf := zdrop stride (ds_buf s); ds_index := ds_index s + 1;
               ds_emitted := ds_emitted s; ds_done := ds_done s + 1; ds_head := ds_head s |} in
  decrypt_chunk c (ztake stride (ds_buf s)) (ds_index s) = Ok p /\
  exists y s2 out', trim_and_count total p s1 = (y, s2) /\
    owes s2 ps (zdrop cs q) out' /\ out = y ++ out' /\ ds_buf s2 = zdrop stride (ds_buf s).
Proof.
  intros Ho Hn Hb p s1. destruct (owes_nonempty _ _ _ _ Ho) as (Hq & Hqz & Hcs).
  destruct Ho as [Hby [Hi0 Hi1] Hd [Hh0 Hh1] Hout [He1 He2] Hs].
  pose proof stride_pos as Hst.
  assert (cs < zlen q) as Hqcs.
  { destruct (decide (cs < zlen q)); [done|]. rewrite n_chunks_step, Z.max_l, n_chunks_0 in Hn by lia. lia. }
  rewrite n_chunks_step, Z.max_r in Hi1, Hd, He1, Hn by lia.
  assert (zlen p = cs) as Hp by (unfold p; rewrite zlen_ztake; lia).
  assert (zlen (sealed c (ds_index s) p) = stride) as Hsl.
  { rewrite zlen_sealed by (done || unfold cs in *; lia). unfold stride. lia. }
  rewrite payload_unfold in Hby by done. fold cs in Hby. fold p in Hby.
  assert (ztake stride (ds_buf s) = sealed c (ds_index s) p) as Htake.
  { pose proof (f_equal (ztake stride) Hby) as Ht.
    rewrite !ztake_app, (ztake_0 (stride - zlen (ds_buf s))) in Ht by lia.
    rewrite (ztake_ge stride (sealed _ _ _)), (ztake_0 (stride - zlen (sealed _ _ _))) in Ht by lia.
    by rewrite !app_nil_r in Ht. }
  split.
  { rewrite Htake, decrypt_sealed; [by rewrite decide_True|done| | |fold cs; lia];
      unfold index_ok; lia. }
  rewrite trim_plain; [|done|simpl; nia]. eexists _, _, _. split; [done|].
  simpl ds_head. rewrite zlen_zdrop, Hp by lia.
  split; [split; simpl|split].
  - pose proof (f_equal (zdrop stride) Hby) as Ht.
    rewrite !zdrop_app, (zdrop_0 (stride - zlen (ds_buf s))) in Ht by lia.
    rewrite (zdrop_ge stride (sealed _ _ _)), (zdrop_0 (stride - zlen (sealed _ _ _))) in Ht by lia.
    exact Ht.
  - rewrite zlen_zdrop by lia. rewrite Z.max_r by lia. lia.
  - rewrite zlen_zdrop by lia. rewrite Z.max_r by lia. lia.
  - lia.
  - reflexivity.
  - rewrite zlen_zdrop, Z.max_r by lia. nia.
  - nia.
  - rewrite Hout. rewrite (zslice_split _ cs) by nia. f_equal.
    + unfold p. rewrite zdrop_ztake, zslice_spec by lia. done.
    + rewrite !zslice_spec, (zdrop_0 0) by lia. f_equal. lia.
  - done.
Qed.

Lemma drain_full_spec fuel s ps q out :
  owes s ps q out -> (length (ds_buf s) < fuel)%nat ->
  exists outs s' q' out', drain_full c n stride total fuel s = (outs, Continue s') /\
    owes s' ps q' out' /\ out = concat outs ++ out' /\
    (n_chunks (zlen q') cs = 1 \/ zlen (ds_buf s') < stride).
Proof.
  revert s q out. induction fuel as [|fuel IH]; intros s q out Ho Hf; [lia|].
  destruct (owes_nonempty _ _ _ _ Ho) as (Hq & Hqz & Hcs).
  assert (1 <= n_chunks (zlen q) cs) as Hn1.
  { rewrite n_chunks_step by lia. unfold n_chunks.
    assert (0 <= (Z.max 0 (zlen q - cs) + cs - 1) / cs) by (apply Z.div_pos; lia). lia. }
  cbn [drain_full]. rewrite (ow_done _ _ _ _ Ho).
  destruct ((n - n_chunks (zlen q) cs <? n - 1) && (stride <=? zlen (ds_buf s))) eqn:Hg.
  - apply andb_prop in Hg as [Hg1%Z.ltb_lt Hg2%Z.leb_le].
    destruct (drain_step s ps q out Ho ltac:(lia) Hg2) as (Hdec & y & s2 & out' & Htr & Ho2 & Hout & Hbuf).
    rewrite Hdec. rewrite (ow_done _ _ _ _ Ho) in Htr. rewrite Htr.
    rewrite (proj2 (Z.leb_gt _ _)) by apply Ho2.
    pose proof stride_pos as Hst.
    destruct (IH s2 (zdrop cs q) out' Ho2) as (outs & s' & q' & out'' & Hrun & Ho' & Hout' & Hend).
    { rewrite Hbuf. unfold zdrop. rewrite length_drop. unfold zlen in Hg2. lia. }
    rewrite Hrun. eexists _, s', q', out''. split; [done|]. split; [done|]. split; [|done].
    rewrite Hout, Hout', concat_app, app_assoc. f_equal. f_equal.
    unfold yield_nonempty. destruct y; simpl; [done|]. by rewrite app_nil_r.
  - exists [], s, q, out. split; [done|]. split; [done|]. split; [done|].
    apply andb_false_iff in Hg as [Hg%Z.ltb_ge|Hg%Z.leb_gt]; [left; lia|by right].
Qed.

Lemma decrypt_pieces_spec ps s q out :
  owes s ps q out -> (n_chunks (zlen q) cs = 1 \/ zlen (ds_buf s) < stride) ->
  exists outs s' q' out', decrypt_pieces c n stride total ps s = (outs, Continue s') /\
    owes s' [] q' out' /\ out = concat outs ++ out' /\ n_chunks (zlen q') cs = 1.
Proof.
  revert s q out. induction ps as [|p ps IH]; intros s q out Ho Hst; cbn [decrypt_pieces].
  - exists [], s, q, out. split; [done|]. split; [done|]. split; [done|].
    destruct Hst as [|Hlt]; [done|]. destruct (owes_nonempty _ _ _ _ Ho) as (Hq & Hqz & Hcs).
    rewrite n_chunks_step by lia. destruct (decide (zlen q <= cs)); [by rewrite Z.max_l, n_chunks_0 by lia|].
    pose proof (f_equal zlen (ow_bytes _ _ _ _ Ho)) as Hl. simpl in Hl.
    rewrite app_nil_r, zlen_payload in Hl by done. fold cs in Hl.
    assert (1 <= n_chunks (zlen q) cs) by (unfold n_chunks; apply Z.div_le_lower_bound; lia).
    unfold stride, CHUNK_OVERHEAD, NONCE_SIZE, TAG_SIZE in *. lia.
  - rewrite (proj2 (Z.leb_gt _ _)) by apply Ho.
    destruct (drain_full_spec (S (length (ds_buf (ds_feed p s)))) (ds_feed p s) ps q out)
      as (outs & s' & q' & out' & Hrun & Ho' & Hout & Hend); [by apply owes_feed|lia|].
    rewrite Hrun. destruct (IH s' q' out' Ho' Hend) as (outs2 & s2 & q2 & out2 & Hrun2 & Ho2 & Hout2 & Hn2).
    rewrite Hrun2. eexists _, s2, q2, out2. split; [done|]. split; [done|]. split; [|done].
    by rewrite Hout, Hout2, concat_app, app_assoc.
Qed.

(** The whole stream: with the ciphertext of [q] arriving in any pieces, the
    bytes delivered are the requested part of [q]. *)
Lemma decrypting_stream_spec inner start q h :
  stream_bytes inner = payload c start q -> fault inner = None ->
  0 <= start -> start + n <= 2 ^ 64 -> n = n_chunks (zlen q) cs -> 0 <= h < cs ->
  0 < total -> (n - 1) * cs < h + total <= zlen q ->
  let r := decrypting_stream inner c start n h total cs in
  stream_bytes r = zslice h (h + total) q /\ fault r = None.
Proof.
  intros Hb Hf Hs0 Hs1 Hn Hh Ht He r.
  set (s0 := {| ds_buf := []; ds_index := start; ds_emitted := 0; ds_done := 0; ds_head := h |}).
  assert (owes s0 (pieces inner) q (zslice h (h + total) q)) as Ho.
  { split; simpl; rewrite <- ?Hn, ?Z.sub_0_r; try done; try lia. }
  pose proof stride_pos as Hst.
  destruct (decrypt_pieces_spec (pieces inner) s0 q _ Ho) as (outs & s & q' & out & Hrun & Ho' & Hout & Hn1).
  { right. simpl. by rewrite zlen_nil. }
  destruct (owes_nonempty _ _ _ _ Ho') as (Hq & Hqz & Hcs).
  assert (zlen q' <= cs) as Hqcs.
  { rewrite n_chunks_step in Hn1 by lia. unfold n_chunks in Hn1.
    destruct (decide (zlen q' <= cs)); [done|].
    assert (1 <= (Z.max 0 (zlen q' - cs) + cs - 1) / cs) by (apply Z.div_le_lower_bound; lia). lia. }
  destruct Ho' as [Hby [Hi0 Hi1] Hd [Hh0 Hh1] Hout' [He1 He2] Hso].
  simpl in Hby. rewrite app_nil_r, payload_unfold in Hby by done. fold cs in Hby.
  rewrite ztake_ge, zdrop_ge, payload_nil, app_nil_r in Hby by lia.
  unfold r, decrypting_stream. fold stride. fold s0. rewrite Hrun, Hf, Hd, Hn1.
  rewrite (proj2 (Z.ltb_lt (n - 1) n)), (proj2 (Z.ltb_lt _ _)) by lia.
  assert (nonempty (ds_buf s) = true) as ->.
  { destruct (ds_buf s) eqn:Hnil; [|done]. pose proof (f_equal zlen Hby) as Hz.
    rewrite zlen_nil, zlen_sealed in Hz by done.
    unfold CHUNK_OVERHEAD, NONCE_SIZE, TAG_SIZE in Hz. lia. }
  cbn [andb]. rewrite Hby, decrypt_sealed, decide_True; [|done..|unfold index_ok; lia|unfold index_ok; lia|done].
  cbv beta iota. unfold trim_and_count.
  assert ((if ds_head s =? 0 then q' else py_drop (ds_head s) q') = zdrop (ds_head s) q') as ->.
  { destruct (ds_head s =? 0) eqn:H0'; [|by rewrite py_drop_pos].
    apply Z.eqb_eq in H0'. by rewrite H0', zdrop_0. }
  assert ((if total - ds_emitted s <? zlen (zdrop (ds_head s) q')
           then py_take (total - ds_emitted s) (zdrop (ds_head s) q')
           else zdrop (ds_head s) q') = out) as ->.
  { rewrite Hout', zslice_spec.
    replace (ds_head s + (total - ds_emitted s) - ds_head s) with (total - ds_emitted s) by lia.
    destruct (_ <? _) eqn:Hlt; [by rewrite py_take_pos by lia|]. apply Z.ltb_ge in Hlt.
    by rewrite ztake_ge. }
  unfold stream_bytes. simpl. rewrite concat_app, Hout. split; [|done]. f_equal.
  unfold yield_nonempty. destruct out; simpl; [done|]. by rewrite app_nil_r.
Qed.

End DecryptSpec.

(** The size the reader computes is the size that was written. *)
Lemma plaintext_size_inverse m cs :
  0 <= m -> 0 < cs ->
  plaintext_size_from_ciphertext (HEADER_SIZE + (m + n_chunks m cs * CHUNK_OVERHEAD)) cs = Ok m.
Proof.
  intros Hm Hcs. unfold plaintext_size_from_ciphertext.
  assert (CHUNK_OVERHEAD = 28) as Hov by done. rewrite Hov.
  destruct (decide (m = 0)) as [->|Hne]; [by rewrite n_chunks_0 by lia|].
  assert (1 <= n_chunks m cs) as Hn1 by (unfold n_chunks; apply Z.div_le_lower_bound; lia).
  rewrite (proj2 (Z.leb_gt _ _)) by lia.
  replace (HEADER_SIZE + (m + n_chunks m cs * 28) - HEADER_SIZE) with (m + n_chunks m cs * 28) by lia.
  unfold divmod. rewrite (proj2 (Z.eqb_neq _ _)) by lia. cbn [rbind].
  pose proof (Z.div_mod m cs ltac:(lia)) as Hdm. pose proof (Z.mod_pos_bound m cs Hcs).
  destruct (decide (m mod cs = 0)) as [Hz|Hz].
  - assert (n_chunks m cs = m / cs) as ->.
    { unfold n_chunks. symmetry. apply (Z.div_unique _ _ _ (cs - 1)); lia. }
    replace (m + m / cs * 28) with (m / cs * (cs + 28)) by lia.
    rewrite Z.mod_mul, Z.div_mul by lia. simpl. f_equal. lia.
  - assert (n_chunks m cs = m / cs + 1) as ->.
    { unfold n_chunks. symmetry. apply (Z.div_unique _ _ _ (m mod cs - 1)); lia. }
    replace (m + (m / cs + 1) * 28) with (m mod cs + 28 + m / cs * (cs + 28)) by lia.
    rewrite Z.mod_add, Z.div_add, Z.mod_small, Z.div_small by lia.
    rewrite (proj2 (Z.eqb_neq _ _)), (proj2 (Z.ltb_ge _ _)) by lia. f_equal. lia.
Qed.

(** ** The repository *)

Record EncRepo (R : Type) := {
  er_inner : R;
  er_master_key : bytes;
  er_chunk_size : Z;
  er_name_key : option bytes;
  er_cache : HeaderCache.t;
  er_entropy : nat -> bytes;
  er_draws : nat
}.
Arguments er_inner {R}.
Arguments er_master_key {R}.
Arguments er_chunk_size {R}.
Arguments er_name_key {R}.
Arguments er_cache {R}.
Arguments er_entropy {R}.
Arguments er_draws {R}.

Section EncRepo.
  Context `{CryptoLib} {R : Type} `{ContentRepo R}.
  Local Abbreviation Repo := (EncRepo R).

(** [__init__]. *)
Definition new_repo (inner : R) (master_key : bytes) (cs : Z) (encrypt_names : bool)
    (entropy : nat -> bytes) : exc Repo :=
  let* name_key :=
    (if encrypt_names then rmap Some (derive_name_key master_key) else Ok None) in
  Ok {| er_inner := inner; er_master_key := master_key; er_chunk_size := cs;
        er_name_key := name_key; er_cache := HeaderCache.new;
        er_entropy := entropy; er_draws := 0 |}.

Definition er_set_inner (r : R) (e : Repo) : Repo :=
  {| er_inner := r; er_master_key := er_master_key e; er_chunk_size := er_chunk_size e;
     er_name_key := er_name_key e; er_cache := er_cache e; er_entropy := er_entropy e;
     er_draws := er_draws e |}.
Definition er_set_cache (c : HeaderCache.t) (e : Repo) : Repo :=
  {| er_inner := er_inner e; er_master_key := er_master_key e; er_chunk_size := er_chunk_size e;
     er_name_key := er_name_key e; er_cache := c; er_entropy := er_entropy e;
     er_draws := er_draws e |}.
Definition er_draw (e : Repo) : Repo :=
  {| er_inner := er_inner e; er_master_key := er_master_key e; er_chunk_size := er_chunk_size e;
     er_name_key := er_name_key e; er_cache := er_cache e; er_entropy := er_entropy e;
     er_draws := S (er_draws e) |}.

(** A call on the decorated repository. *)
Definition on_repo {A} (m : st exn R A) : st exn Repo A :=
  fun e => let '(x, r) := m (er_inner e) in (x, er_set_inner r e).

(** [secrets.token_bytes(n)]. *)
Definition token_bytes (n : Z) : st exn Repo bytes :=
  fun e => (Ok (pad_to n (er_entropy e (er_draws e))), er_draw e).

(** [if self._name_key is not None and name: name = encrypt_name(...)]. *)
Definition obfuscate (name : string) : st exn Repo string :=
  let! e := sget in
  match er_name_key e with
  | Some key =>
      if decide (name = "") then sret name
      else let! nonce := token_bytes NAME_NONCE_SIZE in sret (encrypt_name nonce key name)
  | None => sret name
  end.

(** A fresh header and its key. *)
Definition fresh_header : st exn Repo (FileHeader * bytes) :=
  let! e := sget in
  let! salt := token_bytes FILE_SALT_SIZE in
  let header := new_header salt (er_chunk_size e) in
  let! key := slift (derive_file_key (er_master_key e) (file_salt header)) in
  sret (header, key).

(** The wrapping [save] and [stage] share: the wrapped message. *)
Definition seal_message {M} `{Uploadable M} (file_msg : M)
  : st exn Repo (M * EncryptingFileMessage M) :=
  let! name := obfuscate (um_name (um file_msg)) in
  let file_msg := if decide (name = um_name (um file_msg)) then file_msg
                  else with_um (um_set_name name (um file_msg)) file_msg in
  let! (header, file_key) := fresh_header in
  let! encrypted := slift (wrap file_msg file_key header) in
  sret (file_msg, encrypted).

Definition save M (U : Uploadable M) (file_msg : M) : st exn Repo (list SentFileMessage) :=
  let! (file_msg, encrypted) := seal_message file_msg in
  on_repo (cr_save _ enc_uploadable (em_with_version (um_version_id (um file_msg)) encrypted)).

Definition stage M (U : Uploadable M) (file_msg : M) (version_id : string)
  : st exn Repo (option Z) :=
  let! (_, encrypted) := seal_message file_msg in
  on_repo (cr_stage _ enc_uploadable (em_with_version (Some version_id) encrypted) version_id).

Definition forget (version_ids : list string) : st exn Repo unit :=
  on_repo (cr_forget version_ids).

Definition update (message_id : Z) (buffer : bytes) (name : string) : st exn Repo Z :=
  let! name := obfuscate name in
  let! (header, file_key) := fresh_header in
  let! cipher := slift (new_cipher file_key (file_salt header) (chunk_size header)) in
  let! hb := slift (serialize header file_key) in
  let! parts := slift (rmapM (fun ic => encrypt_chunk cipher ic.2 (Z.of_nat ic.1))
                             (enumerate (chunks (chunk_size header) buffer))) in
  let ciphertext := hb ++ concat parts in
  on_repo (cr_update message_id ciphertext name).

(** The probe: pieces until there are enough bytes. *)
Fixpoint probe_loop (target : Z) (ps : list bytes) (flt : option exn) (buf : bytes) : exc bytes :=
  match ps with
  | [] => match flt with Some e => Raise e | None => Ok buf end
  | p :: ps =>
      let buf := buf ++ p in
      if target <=? zlen buf then Ok buf else probe_loop target ps flt buf
  end.

Definition cache_put (id : string) (entry : option (FileHeader * bytes)) : st exn Repo unit :=
  let! e := sget in
  let! c := slift (HeaderCache.put id entry (er_cache e)) in
  let! e := sget in
  sput (er_set_cache c e).

Definition detect (fv : TGFSFileVersion) (name : string)
  : st exn Repo (option (FileHeader * bytes)) :=
  let! e := sget in
  match HeaderCache.lookup (fv_id fv) (er_cache e) with
  | Some cached => sret cached
  | None =>
      if fv_size fv <? zlen MAGIC then
        cache_put (fv_id fv) None ;;; sret None
      else
        let probe_target := Z.min HEADER_SIZE (fv_size fv) in
        let! s := on_repo (cr_get fv 0 (probe_target - 1) name false) in
        let! buf := slift (probe_loop probe_target (pieces s) (fault s) []) in
        if (zlen buf <? zlen MAGIC) || negb (bool_decide (ztake (zlen MAGIC) buf = MAGIC)) then
          cache_put (fv_id fv) None ;;; sret None
        else if zlen buf <? HEADER_SIZE then sraise InvalidHeaderError
        else
          let raw_header := ztake HEADER_SIZE buf in
          let! header := slift (parse raw_header) in
          let! e := sget in
          let! file_key := slift (derive_file_key (er_master_key e) (file_salt header)) in
          let! _ := slift (verify raw_header file_key) in
          let entry := Some (header, file_key) in
          cache_put (fv_id fv) entry ;;; sret entry
  end.

Definition get (fv : TGFSFileVersion) (begin last : Z) (name : string) (admit_ : bool)
  : st exn Repo stream :=
  if fv_size fv <=? 0 then sret empty_stream
  else
    let! detected := detect fv name in
    match detected with
    | None => on_repo (cr_get fv begin last name admit_)
    | Some (header, file_key) =>
        let cs := chunk_size header in
        let! cipher := slift (new_cipher file_key (file_salt header) cs) in
        let! plaintext_total := slift (plaintext_size_from_ciphertext (fv_size fv) cs) in
        let last := if (last <? 0) || (plaintext_total <=? last) then plaintext_total - 1 else last in
        if (last <? begin) || (plaintext_total <=? begin) then sret empty_stream
        else
          let! (start_chunk, start_offset_in_chunk) := slift (plaintext_offset_to_chunk begin cs) in
          let! (last_chunk, _) := slift (plaintext_offset_to_chunk last cs) in
          let n := last_chunk - start_chunk + 1 in
          let! ct0 := slift (chunk_to_ciphertext_offset start_chunk cs) in
          let! ct1 := slift (chunk_to_ciphertext_offset (last_chunk + 1) cs) in
          let ct_begin := HEADER_SIZE + ct0 in
          let ct_end_excl := Z.min (HEADER_SIZE + ct1) (fv_size fv) in
          let! inner_stream := on_repo (cr_get fv ct_begin (ct_end_excl - 1) name admit_) in
          sret (decrypting_stream inner_stream cipher start_chunk n start_offset_in_chunk
                                  (last - begin + 1) cs)
    end.

Definition content_length (fv : TGFSFileVersion) : st exn Repo Z :=
  if fv_size fv <=? 0 then sret 0
  else
    let! detected := detect fv "" in
    match detected with
    | None => sret (fv_size fv)
    | Some (header, _) => slift (plaintext_size_from_ciphertext (fv_size fv) (chunk_size header))
    end.

#[export] Instance enc_repo : ContentRepo Repo := {
  cr_save := save;
  cr_get := get;
  cr_update := update;
  cr_stage := stage;
  cr_forget := forget;
  cr_content_length := content_length
}.

End EncRepo.
