(* ===== verification/EncRepoProps.v ===== *)
(** * Properties of the encrypting repository

    The decorator keeps the promise of [Contents.ContentLaws]: what was
    written encrypted (or left there in plaintext) is read back range by
    range. *)

From S2P Require Import Prelude Errors Codec Messages FileVersion CryptoLib Header Cipher EncStream Names Contents EncRepo.

Open Scope Z_scope.

Section EncRepoProps.
  Context `{CryptoLaws} {R : Type} `{ContentLaws R}.
  Local Abbreviation Repo := (EncRepo R).

(** How the bytes [ct] of a version stand for the plaintext [p]: sealed under
    a header and key, or unencrypted. *)
Definition stored_as (mk ct : bytes) (d : option (FileHeader * bytes)) (p : bytes) : Prop :=
  match d with
  | Some (h, key) =>
      header_ok h /\ derive_file_key mk (file_salt h) = Ok key /\
      encrypted_file h key p = Ok ct /\ zlen p < 2 ^ 64
  | None => p = ct /\ ztake (zlen MAGIC) ct <> MAGIC
  end.

Record enc_stored (d : option (FileHeader * bytes)) (e : Repo) (fv : TGFSFileVersion)
    (p : bytes) : Prop := {
  es_cache : HeaderCache.wf (er_cache e);
  es_bytes : exists ct, content (er_inner e) fv ct /\ fv_size fv = zlen ct /\
    stored_as (er_master_key e) ct d p;
  es_hit : HeaderCache.lookup (fv_id fv) (er_cache e) = None \/
           HeaderCache.lookup (fv_id fv) (er_cache e) = Some d
}.

Definition enc_content (e : Repo) (fv : TGFSFileVersion) (p : bytes) : Prop :=
  exists d, enc_stored d e fv p.

Lemma derived_key_length mk salt key : derive_file_key mk salt = Ok key -> zlen key = 32.
Proof.
  unfold derive_file_key. destruct (negb _); [done|]. destruct (_ <? _); [done|].
  intros <-%Ok_inj. by apply hkdf_length.
Qed.

(** The layout of an encrypted file. *)
Lemma encrypted_file_inv h key p ct :
  header_ok h -> encrypted_file h key p = Ok ct ->
  exists body, ct = body ++ header_tag key body ++ payload (cipher_of h key) 0 p /\
    header_body h = Ok body /\ zlen body = BODY_SIZE /\ zlen (header_tag key body) = HEADER_MAC_SIZE.
Proof.
  intros Hh. unfold encrypted_file. destruct (serialize_ok h key Hh) as (body & Hb & Hl & -> & Ht).
  intros <-%Ok_inj. exists body. by rewrite <- app_assoc.
Qed.

Lemma encrypted_header h key p ct :
  header_ok h -> encrypted_file h key p = Ok ct ->
  parse ct = Ok h /\ verify ct key = Ok tt /\ parse (ztake HEADER_SIZE ct) = Ok h /\
  verify (ztake HEADER_SIZE ct) key = Ok tt /\ HEADER_SIZE <= zlen ct /\
  ztake (zlen MAGIC) ct = MAGIC.
Proof.
  intros Hh He. destruct (encrypted_file_inv h key p ct Hh He) as (body & -> & Hb & Hl & Ht).
  pose proof (zlen_nonneg (payload (cipher_of h key) 0 p)).
  assert (ztake HEADER_SIZE (body ++ header_tag key body ++ payload (cipher_of h key) 0 p) =
          body ++ header_tag key body) as Htk.
  { unfold HEADER_SIZE, BODY_SIZE, HEADER_MAC_SIZE in *. rewrite ztake_app, ztake_ge by lia. f_equal.
    rewrite ztake_app, ztake_ge, ztake_0 by lia. by rewrite app_nil_r. }
  rewrite Htk, !zlen_app, Hl, Ht. split; [|split; [|split; [|split; [|split]]]].
  - eapply parse_body; eauto. rewrite zlen_app, Ht. lia.
  - by apply verify_tag.
  - eapply parse_body; eauto. lia.
  - rewrite <- (app_nil_r (header_tag key body)). by apply verify_tag.
  - unfold HEADER_SIZE, BODY_SIZE, HEADER_MAC_SIZE. lia.
  - rewrite header_body_ok in Hb by done. apply Ok_inj in Hb. rewrite <- Hb, <- !app_assoc.
    rewrite ztake_app, ztake_ge, ztake_0 by lia. apply app_nil_r.
Qed.

(** The bytes determine how they are stored. *)
Lemma stored_as_unique mk ct d1 p1 d2 p2 :
  stored_as mk ct d1 p1 -> stored_as mk ct d2 p2 -> d1 = d2.
Proof.
  destruct d1 as [[h1 k1]|], d2 as [[h2 k2]|]; simpl.
  - intros (Hh1 & Hd1 & He1 & _) (Hh2 & Hd2 & He2 & _).
    destruct (encrypted_header _ _ _ _ Hh1 He1) as [Hp1 _].
    destruct (encrypted_header _ _ _ _ Hh2 He2) as [Hp2 _].
    rewrite Hp1 in Hp2. apply Ok_inj in Hp2 as <-. rewrite Hd1 in Hd2. by apply Ok_inj in Hd2 as <-.
  - intros (Hh1 & _ & He1 & _) [_ Hn]. by destruct (encrypted_header _ _ _ _ Hh1 He1) as (_&_&_&_&_&?).
  - intros [_ Hn] (Hh1 & _ & He1 & _). by destruct (encrypted_header _ _ _ _ Hh1 He1) as (_&_&_&_&_&?).
  - done.
Qed.

(** ** The probe *)

Lemma probe_loop_spec target ps buf :
  zlen (buf ++ concat ps) = target -> zlen buf < target ->
  probe_loop target ps None buf = Ok (buf ++ concat ps).
Proof.
  revert buf. induction ps as [|p ps IH]; intros buf Ht Hb; simpl in *.
  - rewrite app_nil_r in Ht. lia.
  - destruct (target <=? zlen (buf ++ p)) eqn:Hle.
    + apply Z.leb_le in Hle. f_equal. rewrite app_assoc in *. rewrite zlen_app in Ht.
      pose proof (zlen_nonneg (concat ps)).
      rewrite (zlen_0 (concat ps)) by lia. by rewrite app_nil_r.
    + apply Z.leb_gt in Hle. rewrite IH, <- app_assoc; [done|by rewrite <- app_assoc|done].
Qed.

(** What the probe reads: the first bytes, at most a header. *)
Lemma probe_reads r fv ct name :
  let target := Z.min HEADER_SIZE (zlen ct) in
  content r fv ct -> 4 <= zlen ct ->
  exists s r', cr_get fv 0 (target - 1) name false r = (Ok s, r') /\
    probe_loop target (pieces s) (fault s) [] = Ok (ztake target ct) /\ keeps content fv r r'.
Proof.
  intros target Hct H4.
  assert (4 <= target <= zlen ct) as Htg by (unfold target, HEADER_SIZE; lia).
  destruct (get_law r fv ct 0 (target - 1) name false Hct) as (s & r' & Hg & Hb & Hf & Hk); [lia..|].
  exists s, r'. split; [done|]. split; [|done]. rewrite Hf. unfold stream_bytes in Hb.
  rewrite zslice_spec, zdrop_0 in Hb by lia. replace (target - 1 + 1 - 0) with target in Hb by lia.
  rewrite probe_loop_spec; cbn [app]; rewrite ?Hb; [done| |rewrite zlen_nil; lia].
  rewrite zlen_ztake; lia.
Qed.

(** Changing the inner state and caching a right decision keeps contents. *)
Lemma enc_keeps_step d (e : Repo) fv p r c :
  enc_stored d e fv p -> keeps content fv (er_inner e) r ->
  HeaderCache.wf c -> HeaderCache.lookup (fv_id fv) c = Some d ->
  (forall k, k <> fv_id fv -> HeaderCache.lookup k c = HeaderCache.lookup k (er_cache e) \/
                              HeaderCache.lookup k c = None) ->
  keeps enc_content fv e (er_set_cache c (er_set_inner r e)) /\
  enc_stored d (er_set_cache c (er_set_inner r e)) fv p.
Proof.
  intros [_ (ct & Hct & Hsz & Hst) _] Hk Hwf Hl Ho. split.
  - intros fv' p' Hfv [d' [_ (ct' & Hct' & Hsz' & Hst') Hh']]. exists d'. split; simpl.
    + done.
    + exists ct'. split; [by apply Hk|done].
    + destruct Hfv as [->|Hne].
      * right. rewrite Hl. f_equal.
        assert (ct = ct') as -> by (eapply content_unique; eauto; congruence).
        by eapply stored_as_unique.
      * destruct (Ho _ Hne) as [-> | ->]; [done|by left].
  - split; simpl; [done| |by right]. exists ct. split; [apply Hk; auto|done].
Qed.

Lemma cache_put_spec d (e : Repo) fv p r :
  enc_stored d e fv p -> HeaderCache.lookup (fv_id fv) (er_cache e) = None ->
  keeps content fv (er_inner e) r ->
  exists e', cache_put (fv_id fv) d (er_set_inner r e) = (Ok tt, e') /\
    HeaderCache.lookup (fv_id fv) (er_cache e') = Some d /\
    keeps enc_content fv e e' /\ enc_stored d e' fv p.
Proof.
  intros Hs Hmiss Hk. pose proof (es_cache _ _ _ _ Hs) as Hwf.
  destruct (HeaderCache.put_spec (fv_id fv) d (er_cache e) Hwf Hmiss) as (c & Hput & Hwf' & Hl & Ho).
  exists (er_set_cache c (er_set_inner r e)). unfold cache_put, sbind, sget, slift, sput.
  simpl. rewrite Hput. split; [done|]. split; [done|].
  eapply (enc_keeps_step d e fv p r c); eauto. intros k Hne. destruct (Ho k Hne) as [?|[? _]]; auto.
Qed.

(** [_detect] finds out how the version is stored, and remembers it. *)
Lemma detect_spec d (e : Repo) fv name p :
  enc_stored d e fv p ->
  exists e', detect fv name e = (Ok d, e') /\
    HeaderCache.lookup (fv_id fv) (er_cache e') = Some d /\
    keeps enc_content fv e e' /\ enc_stored d e' fv p.
Proof.
  intros Hs. pose proof (es_hit _ _ _ _ Hs) as Hh. unfold detect, sbind at 1, sget at 1.
  destruct (HeaderCache.lookup (fv_id fv) (er_cache e)) as [d'|] eqn:Hl.
  { destruct Hh as [?|Hh]; [done|]. injection Hh as ->. exists e. split; [done|]. split; [done|].
    split; [apply keeps_refl|done]. }
  clear Hh. destruct (es_bytes _ _ _ _ Hs) as (ct & Hct & Hsz & Hst).
  destruct (fv_size fv <? zlen MAGIC) eqn:Hsm.
  { apply Z.ltb_lt in Hsm. destruct d as [[h key]|].
    { destruct Hst as (Hh & _ & He & _). destruct (encrypted_header _ _ _ _ Hh He) as (_&_&_&_&Hge&_).
      unfold HEADER_SIZE in Hge. change (zlen MAGIC) with 4 in Hsm. lia. }
    destruct (cache_put_spec None e fv p (er_inner e) Hs Hl (keeps_refl _ _ _)) as (e' & Hp & He').
    exists e'. unfold sbind, sret. replace e with (er_set_inner (er_inner e) e) at 1 by by destruct e.
    by rewrite Hp. }
  apply Z.ltb_ge in Hsm. rewrite Hsz in *. change (zlen MAGIC) with 4 in *.
  set (target := Z.min HEADER_SIZE (zlen ct)).
  assert (4 <= target <= HEADER_SIZE /\ target <= zlen ct) as Htg.
  { unfold target, HEADER_SIZE. lia. }
  destruct (probe_reads (er_inner e) fv ct name Hct Hsm) as (s & r & Hg & Hpr & Hk).
  fold target in Hg, Hpr. unfold sbind at 1, on_repo. rewrite Hg. cbv beta iota.
  unfold sbind at 1, slift at 1. rewrite Hpr. cbv beta iota.
  rewrite zlen_ztake, Z.min_l, ztake_ztake, Z.min_l by lia.
  rewrite (proj2 (Z.ltb_ge target 4)) by lia. cbn [orb].
  destruct d as [[h key]|].
  - destruct Hst as (Hh & Hd & He & Hp64).
    destruct (encrypted_header _ _ _ _ Hh He) as (_&_&Hp&Hv&Hge&Hm).
    change (zlen MAGIC) with 4 in Hm. rewrite bool_decide_eq_true_2 by done. cbn [negb].
    assert (target = HEADER_SIZE) as -> by (unfold target; lia).
    rewrite Z.ltb_irrefl, (ztake_ge HEADER_SIZE (ztake HEADER_SIZE ct)) by (rewrite zlen_ztake; unfold HEADER_SIZE; lia).
    unfold sbind, slift, sget, sret. rewrite Hp. simpl er_master_key. rewrite Hd, Hv.
    destruct (cache_put_spec (Some (h, key)) e fv p r Hs Hl Hk) as (e' & Hput & He').
    exists e'. by rewrite Hput.
  - destruct Hst as [-> Hm]. rewrite bool_decide_eq_false_2 by done. cbn [negb].
    destruct (cache_put_spec None e fv ct r Hs Hl Hk) as (e' & Hput & He').
    exists e'. unfold sbind, sret. by rewrite Hput.
Qed.

(** ** Range reads *)

(** The last byte of a request: a negative or too large end means the end of
    the file. *)
Definition effective_last (last n : Z) : Z :=
  if (last <? 0) || (n <=? last) then n - 1 else last.

Lemma encrypted_size h key p ct :
  header_ok h -> zlen key = 32 -> encrypted_file h key p = Ok ct ->
  zlen ct = HEADER_SIZE + (zlen p + n_chunks (zlen p) (chunk_size h) * CHUNK_OVERHEAD).
Proof.
  intros Hh Hk He. destruct (encrypted_file_inv h key p ct Hh He) as (body & -> & _ & Hl & Ht).
  rewrite !zlen_app, Hl, Ht, zlen_payload by by apply header_cipher_ok.
  simpl cg_chunk_size. unfold BODY_SIZE, HEADER_MAC_SIZE, HEADER_SIZE. lia.
Qed.

(** The ciphertext of the chunks [s .. l], as the code cuts it out. *)
Lemma encrypted_slice h key p ct s l :
  header_ok h -> zlen key = 32 -> encrypted_file h key p = Ok ct -> 0 <= s -> s <= l ->
  let stride := chunk_size h + CHUNK_OVERHEAD in
  zslice (HEADER_SIZE + s * stride) (Z.min (HEADER_SIZE + (l + 1) * stride) (zlen ct)) ct =
  payload (cipher_of h key) s (zslice (s * chunk_size h) ((l + 1) * chunk_size h) p).
Proof.
  intros Hh Hk He Hs Hl stride.
  destruct (encrypted_file_inv h key p ct Hh He) as (body & -> & _ & Hbl & Ht).
  assert (CHUNK_OVERHEAD = 28) as Hov by done. pose proof (ho_chunk _ Hh).
  rewrite app_assoc. set (hb := body ++ header_tag key body).
  assert (zlen hb = HEADER_SIZE) as Hhb by (unfold hb; rewrite zlen_app, Hbl, Ht; done).
  rewrite zslice_app_r, zlen_app, Hhb by nia.
  set (pl := payload (cipher_of h key) 0 p).
  change (chunk_size h) with (cg_chunk_size (cipher_of h key)).
  rewrite <- payload_slice by (by apply header_cipher_ok || done). simpl cg_chunk_size.
  fold stride. fold pl.
  replace (HEADER_SIZE + s * stride - HEADER_SIZE) with (s * stride) by lia.
  destruct (decide (HEADER_SIZE + (l + 1) * stride <= HEADER_SIZE + zlen pl)).
  - rewrite Z.min_l by lia. f_equal. lia.
  - rewrite Z.min_r by lia. rewrite (zslice_clip _ ((l + 1) * stride)) by nia. f_equal. lia.
Qed.

Lemma get_encrypted h key (e : Repo) fv p begin last name admit_ :
  enc_stored (Some (h, key)) e fv p -> 0 <= begin ->
  exists s e', get fv begin last name admit_ e = (Ok s, e') /\
    stream_bytes s = zslice begin (effective_last last (zlen p) + 1) p /\ fault s = None /\
    keeps enc_content fv e e'.
Proof.
  intros Hs Hb. destruct (detect_spec _ e fv name p Hs) as (e1 & Hdet & Hlk & Hk1 & Hs1).
  pose proof Hs1 as [_ (ct & Hct & Hsz & Hh & Hd & He & Hp64) _].
  pose proof (derived_key_length _ _ _ Hd) as Hk32.
  pose proof (encrypted_size h key p ct Hh Hk32 He) as Hctl. pose proof (ho_chunk _ Hh) as Hcs.
  assert (0 <= n_chunks (zlen p) (chunk_size h)) as Hn0
    by (unfold n_chunks; apply Z.div_pos; pose proof (zlen_nonneg p); lia).
  pose proof (zlen_nonneg p) as Hp0. assert (CHUNK_OVERHEAD = 28) as Hov by done.
  unfold get. rewrite (proj2 (Z.leb_gt _ _)) by (unfold HEADER_SIZE in *; lia).
  unfold sbind at 1. rewrite Hdet. cbv beta iota. cbn zeta.
  unfold sbind at 1, slift at 1. rewrite new_cipher_ok by done. cbv beta iota.
  unfold sbind at 1, slift at 1. rewrite Hsz, Hctl, plaintext_size_inverse by lia. cbv beta iota.
  fold (effective_last last (zlen p)). set (lst := effective_last last (zlen p)).
  assert (lst < zlen p) as Hlst.
  { unfold lst, effective_last. destruct (last <? 0) eqn:?, (zlen p <=? last) eqn:Hle; simpl; lia. }
  destruct ((lst <? begin) || (zlen p <=? begin)) eqn:Hemp.
  { exists empty_stream, e1. split; [done|]. rewrite zslice_nil; [done|].
    apply orb_prop in Hemp as [Hx%Z.ltb_lt|Hx%Z.leb_le]; lia. }
  apply orb_false_elim in Hemp as [Hx%Z.ltb_ge Hy%Z.leb_gt].
  set (cs := chunk_size h) in *. unfold plaintext_offset_to_chunk, divmod, chunk_to_ciphertext_offset.
  rewrite (proj2 (Z.ltb_ge begin 0)), (proj2 (Z.ltb_ge lst 0)), (proj2 (Z.eqb_neq cs 0)) by lia.
  set (sc := begin / cs). set (lc := lst / cs).
  pose proof (Z.div_mod begin cs ltac:(lia)) as Db. pose proof (Z.mod_pos_bound begin cs ltac:(lia)) as Mb.
  pose proof (Z.div_mod lst cs ltac:(lia)) as Dl. pose proof (Z.mod_pos_bound lst cs ltac:(lia)) as Ml.
  fold sc in Db. fold lc in Dl.
  assert (0 <= sc) as Hsc by (apply Z.div_pos; lia).
  assert (sc <= lc) as Hscl by (apply Z.div_le_mono; lia).
  unfold sbind, slift, sret. rewrite (proj2 (Z.ltb_ge sc 0)), (proj2 (Z.ltb_ge (lc + 1) 0)) by lia.
  cbv beta iota. rewrite <- Hctl.
  set (stride := cs + CHUNK_OVERHEAD).
  assert (lc + 1 <= n_chunks (zlen p) cs) as Hlcn.
  { unfold n_chunks. apply Z.div_le_lower_bound; nia. }
  destruct (get_law (er_inner e1) fv ct (HEADER_SIZE + sc * stride)
              (Z.min (HEADER_SIZE + (lc + 1) * stride) (zlen ct) - 1) name admit_ Hct)
    as (s & r & Hg & Hby & Hf & Hk2); [unfold HEADER_SIZE, stride in *; nia..|lia|].
  unfold on_repo. rewrite Hg. eexists _, _. split; [reflexivity|].
  rewrite Z.sub_add in Hby. unfold stride, cs in Hby. rewrite (encrypted_slice h key p) in Hby by done.
  fold cs in Hby. set (q := zslice (sc * cs) ((lc + 1) * cs) p) in Hby.
  assert (zlen q = Z.min ((lc + 1) * cs) (zlen p) - sc * cs) as Hq.
  { unfold q. destruct (decide ((lc + 1) * cs <= zlen p)).
    - rewrite zlen_zslice by nia. lia.
    - rewrite zslice_clip, zlen_zslice by nia. lia. }
  assert (n_chunks (zlen q) cs = lc - sc + 1) as Hnq.
  { unfold n_chunks. destruct (n_chunks_bounds (zlen q) cs) as [_ _]; [lia|nia|].
    symmetry. apply (Z.div_unique _ _ _ (zlen q - 1 - (lc - sc) * cs)); [|lia]. left. nia. }
  destruct (decrypting_stream_spec (cipher_of h key) (header_cipher_ok h key Hh Hk32)
              (lc - sc + 1) (lst - begin + 1) s sc q (begin mod cs)) as [Hout Hflt];
    simpl cg_chunk_size; fold cs; [done|done|done| |done|lia|lia|nia|].
  { assert (lc <= lst) by (apply Z.div_le_upper_bound; nia). lia. }
  simpl cg_chunk_size in Hout, Hflt. fold cs in Hout, Hflt.
  rewrite Hout, Hflt. split; [|split; [done|]].
  - unfold q. rewrite zslice_zslice by nia. f_equal; lia.
  - eapply keeps_trans; [exact Hk1|].
    destruct (enc_keeps_step (Some (h, key)) e1 fv p r (er_cache e1) Hs1 Hk2) as [Hk3 _];
      [apply Hs1|done|by left|]. by replace (er_set_inner r e1) with
        (er_set_cache (er_cache e1) (er_set_inner r e1)) by by destruct e1.
Qed.

Lemma content_length_spec (e : Repo) fv p d :
  enc_stored d e fv p ->
  exists e', content_length fv e = (Ok (zlen p), e') /\ keeps enc_content fv e e'.
Proof.
  intros Hs. pose proof Hs as [_ (ct & Hct & Hsz & Hst) _]. pose proof (zlen_nonneg ct).
  unfold content_length. destruct (fv_size fv <=? 0) eqn:Hz.
  { apply Z.leb_le in Hz. assert (ct = []) as -> by (apply zlen_0; lia). exists e.
    split; [|apply keeps_refl]. destruct d as [[h key]|]; [|by destruct Hst as [-> _]].
    destruct Hst as (Hh & _ & He & _). destruct (encrypted_header _ _ _ _ Hh He) as (_&_&_&_&Hge&_).
    rewrite zlen_nil in Hge. unfold HEADER_SIZE in Hge. lia. }
  destruct (detect_spec _ e fv "" p Hs) as (e1 & Hdet & Hlk & Hk1 & Hs1).
  unfold sbind. rewrite Hdet. destruct d as [[h key]|].
  - destruct Hst as (Hh & Hd & He & _). unfold slift.
    rewrite Hsz, (encrypted_size h key p ct), plaintext_size_inverse;
      [eauto|apply zlen_nonneg|apply Hh|done|by eapply derived_key_length|done].
  - destruct Hst as [-> _]. unfold sret. rewrite Hsz. eauto.
Qed.

Lemma get_plain (e : Repo) fv p begin last name admit_ :
  enc_stored None e fv p -> 0 < fv_size fv ->
  exists e', keeps enc_content fv e e' /\ content (er_inner e') fv p /\
    get fv begin last name admit_ e = on_repo (cr_get fv begin last name admit_) e' /\
    enc_stored None e' fv p /\ HeaderCache.lookup (fv_id fv) (er_cache e') = Some None.
Proof.
  intros Hs Hz. destruct (detect_spec _ e fv name p Hs) as (e1 & Hdet & Hlk & Hk1 & Hs1).
  exists e1. split; [done|]. pose proof Hs1 as [_ (ct & Hct & Hsz & -> & _) _]. split; [done|].
  unfold get. rewrite (proj2 (Z.leb_gt _ _)) by lia. unfold sbind. rewrite Hdet. done.
Qed.

#[export] Program Instance enc_repo_laws : ContentLaws Repo := { content := enc_content }.
Next Obligation.
  intros e fv p first last name admit_ [d Hs] H1' H2' H3'. destruct d as [[h key]|].
  - destruct (get_encrypted h key e fv p first last name admit_ Hs H1') as (s & e' & Hg & Hb & Hf & Hk).
    exists s, e'. split; [done|]. split; [|done]. rewrite Hb. unfold effective_last.
    rewrite (proj2 (Z.ltb_ge _ _)), (proj2 (Z.leb_gt _ _)) by lia. done.
  - pose proof Hs as [_ (ct & _ & Hsz & -> & _) _].
    destruct (get_plain e fv ct first last name admit_ Hs) as (e1 & Hk1 & Hct1 & Hg & Hs1 & Hl1); [lia|].
    destruct (get_law (er_inner e1) fv ct first last name admit_ Hct1) as (s & r & Hr & Hb & Hf & Hk2); [done..|].
    simpl. rewrite Hg. unfold on_repo. rewrite Hr. eexists _, _. split; [done|]. split; [done|]. split; [done|].
    eapply keeps_trans; [exact Hk1|].
    destruct (enc_keeps_step None e1 fv ct r (er_cache e1) Hs1 Hk2) as [Hk3 _];
      [apply Hs1|done|by left|]. by replace (er_set_inner r e1) with
        (er_set_cache (er_cache e1) (er_set_inner r e1)) by by destruct e1.
Qed.
Next Obligation.
  intros e fv p [d Hs]. destruct (content_length_spec e fv p d Hs) as (e' & He & Hk). by exists e'.
Qed.

(** ** The properties of the component *)

(** C22: Reading any range of an encrypted version delivers exactly the
    plaintext bytes asked for -- [begin] to [last] inclusive, a negative or
    too large [last] meaning the end of the file -- however the inner
    repository cuts its stream into pieces, and the reported length is the
    plaintext length. *)
Theorem encrypted_range_read h key (e : Repo) fv p begin last name admit_ :
  enc_stored (Some (h, key)) e fv p -> 0 <= begin ->
  (exists s e', get fv begin last name admit_ e = (Ok s, e') /\ fault s = None /\
    stream_bytes s = zslice begin (effective_last last (zlen p) + 1) p) /\
  exists e', content_length fv e = (Ok (zlen p), e').
Proof.
  intros Hs Hb. split.
  - destruct (get_encrypted h key e fv p begin last name admit_ Hs Hb) as (s & e' & ? & ? & ? & _).
    eauto.
  - destruct (content_length_spec e fv p _ Hs) as (e' & ? & _). eauto.
Qed.

(** A file that was stored before encryption was turned on -- it does not
    start with the magic -- is passed through: its length is the stored one,
    every read is the inner repository's read of the same range, and the
    decision is remembered. *)
Theorem plaintext_passthrough (e : Repo) fv p begin last name admit_ :
  enc_stored None e fv p -> 0 < fv_size fv ->
  (exists e', content_length fv e = (Ok (fv_size fv), e')) /\
  exists e', content (er_inner e') fv p /\
    HeaderCache.lookup (fv_id fv) (er_cache e') = Some None /\
    get fv begin last name admit_ e = on_repo (cr_get fv begin last name admit_) e'.
Proof.
  intros Hs Hz. split.
  - destruct (content_length_spec e fv p _ Hs) as (e' & -> & _). exists e'.
    destruct Hs as [_ (ct & _ & -> & -> & _) _]. done.
  - destruct (get_plain e fv p begin last name admit_ Hs Hz) as (e' & _ & ? & ? & _ & ?). eauto.
Qed.

(** A file that carries the magic but whose header is cut off, malformed
    or not authenticated by the key the master key gives is refused with
    [InvalidHeaderError] -- it is never served as plaintext -- and the
    refusal is not cached. *)
Theorem bad_header_refused (e : Repo) fv ct begin last name admit_ :
  content (er_inner e) fv ct -> fv_size fv = zlen ct ->
  HeaderCache.lookup (fv_id fv) (er_cache e) = None ->
  zlen (er_master_key e) = 32 -> ztake (zlen MAGIC) ct = MAGIC ->
  (forall h key, parse (ztake HEADER_SIZE ct) = Ok h ->
     derive_file_key (er_master_key e) (file_salt h) = Ok key ->
     verify (ztake HEADER_SIZE ct) key = Raise InvalidHeaderError) ->
  exists e', get fv begin last name admit_ e = (Raise InvalidHeaderError, e') /\
    er_cache e' = er_cache e.
Proof.
  intros Hct Hsz Hl Hmk Hm Hbad.
  assert (4 <= zlen ct) as H4.
  { pose proof (f_equal zlen Hm) as Hz. change (zlen MAGIC) with 4 in *.
    rewrite zlen_ztake in Hz by lia. lia. }
  set (target := Z.min HEADER_SIZE (zlen ct)).
  assert (4 <= target <= HEADER_SIZE /\ target <= zlen ct) as Htg by (unfold target, HEADER_SIZE; lia).
  destruct (probe_reads (er_inner e) fv ct name Hct H4) as (s & r & Hg & Hpr & Hk).
  fold target in Hg, Hpr.
  exists (er_set_inner r e). split; [|done]. change (zlen MAGIC) with 4 in *.
  unfold get. rewrite Hsz, (proj2 (Z.leb_gt _ _)) by lia.
  unfold sbind at 1, detect. unfold sbind at 1, sget at 1. rewrite Hl, Hsz.
  change (zlen MAGIC) with 4. rewrite (proj2 (Z.ltb_ge _ _)) by lia. fold target.
  unfold sbind at 1, on_repo. rewrite Hg. cbv beta iota.
  unfold sbind at 1, slift at 1. rewrite Hpr. cbv beta iota.
  rewrite zlen_ztake, Z.min_l, ztake_ztake, Z.min_l by lia.
  rewrite (proj2 (Z.ltb_ge target 4)) by lia. rewrite bool_decide_eq_true_2 by done. cbn [orb negb].
  destruct (target <? HEADER_SIZE) eqn:Hsh; [done|]. apply Z.ltb_ge in Hsh.
  assert (target = HEADER_SIZE) as -> by lia.
  rewrite ztake_ztake, Z.min_l by done. unfold sbind, slift, sget, sret.
  destruct (parse (ztake HEADER_SIZE ct)) as [h|x] eqn:Hp.
  - simpl er_master_key. pose proof (parse_inv _ _ Hp) as (_ & Hh & _).
    destruct (derive_file_key_ok (er_master_key e) (file_salt h) Hmk) as (key & Hd & _);
      [rewrite (ho_salt _ Hh); done|].
    rewrite Hd, (Hbad h key eq_refl Hd). done.
  - by rewrite (parse_error _ _ Hp).
Qed.

(** ** Writing *)

Lemma rmapM_enumerate_seal c ps i :
  cipher_ok c -> 0 <= i -> i + zlen ps <= 2 ^ 64 ->
  Forall (fun p => zlen p <= cg_chunk_size c) ps ->
  rmapM (fun ic => encrypt_chunk c ic.2 (Z.of_nat ic.1)) (zip (seq (Z.to_nat i) (length ps)) ps) =
  Ok (sealed_from c i ps).
Proof.
  intros Hc. revert i. induction ps as [|p ps IH]; intros i Hi Hb Hps; [done|].
  apply Forall_cons in Hps as [Hp Hps]. rewrite zlen_cons in Hb. pose proof (zlen_nonneg ps).
  simpl. rewrite encrypt_chunk_sealed by (unfold index_ok; lia || done). cbn [rbind].
  rewrite Z2Nat.id by lia. specialize (IH (i + 1) ltac:(lia) ltac:(lia) Hps).
  replace (Z.to_nat (i + 1)) with (S (Z.to_nat i)) in IH by lia. by rewrite IH.
Qed.

Lemma chunks_sizes {A} n (l : list A) :
  0 < n -> Forall (fun p => zlen p <= n) (chunks n l) /\ zlen (chunks n l) <= zlen l.
Proof.
  intros Hn. chunk_induction n l. rewrite chunks_unfold by done. destruct IH as [IH1 IH2].
  split.
  - constructor; [apply zlen_ztake_le; lia|done].
  - rewrite zlen_cons. apply zlen_pos in Hl. rewrite zlen_zdrop in IH2 by lia. lia.
Qed.

(** The header a write draws. *)
Definition drawn_header (e : Repo) : FileHeader :=
  new_header (pad_to FILE_SALT_SIZE (er_entropy e (er_draws e))) (er_chunk_size e).

Definition writable (e : Repo) : Prop :=
  zlen (er_master_key e) = 32 /\ 0 < er_chunk_size e <= MAX_CHUNK_SIZE /\ er_name_key e = None.

Lemma drawn_header_ok e : writable e -> header_ok (drawn_header e).
Proof. intros (_ & Hc & _). split; simpl; [done|done|]. by apply zlen_pad_to. Qed.

Lemma fresh_header_run e :
  writable e -> exists key, derive_file_key (er_master_key e) (file_salt (drawn_header e)) = Ok key /\
    zlen key = 32 /\ fresh_header e = (Ok (drawn_header e, key), er_draw e).
Proof.
  intros Hw. destruct (derive_file_key_ok (er_master_key e) (file_salt (drawn_header e))) as (key & Hd & Hk).
  - apply Hw.
  - by rewrite (ho_salt _ (drawn_header_ok e Hw)).
  - exists key. split; [done|]. split; [done|].
    unfold fresh_header, sbind, sget, slift, sret, token_bytes. fold (drawn_header e). by rewrite Hd.
Qed.

(** [update] hands the inner repository the encrypted form of the buffer:
    the header it drew followed by the sealed chunks, which is what
    [enc_stored] describes and the reads above decrypt. *)
Theorem update_sends_encrypted (e : Repo) message_id buffer name :
  writable e -> zlen buffer < 2 ^ 64 ->
  exists key ct, derive_file_key (er_master_key e) (file_salt (drawn_header e)) = Ok key /\
    encrypted_file (drawn_header e) key buffer = Ok ct /\
    update message_id buffer name e = on_repo (cr_update message_id ct name) (er_draw e).
Proof.
  intros Hw Hb. destruct (fresh_header_run e Hw) as (key & Hd & Hk & Hf).
  pose proof (drawn_header_ok e Hw) as Hh. pose proof (header_cipher_ok _ key Hh Hk) as Hc.
  destruct (serialize_ok _ key Hh) as (body & _ & _ & Hs & _).
  eexists key, _. split; [done|]. unfold encrypted_file. rewrite Hs. split; [reflexivity|].
  unfold update, obfuscate. unfold sbind at 1 2, sget at 1. destruct Hw as (_ & Hcs & ->).
  unfold sret at 1, sbind at 1. rewrite Hf. cbv beta iota.
  unfold sbind, slift. rewrite new_cipher_ok by done. rewrite Hs.
  destruct (chunks_sizes (chunk_size (drawn_header e)) buffer) as [Hsz Hn]; [apply Hh|].
  pose proof (rmapM_enumerate_seal (cipher_of (drawn_header e) key)
    (chunks (chunk_size (drawn_header e)) buffer) 0 Hc ltac:(lia) ltac:(lia) Hsz) as Hr.
  unfold enumerate. change (Z.to_nat 0) with 0%nat in Hr. rewrite Hr. done.
Qed.

(** [save] hands the inner repository a message that, opened and read
    with any request sizes, delivers the encrypted form of the plaintext and
    declares exactly its length. *)
Theorem save_sends_encrypted M (U : Uploadable M) (L : UploadLaws M) (e : Repo) (m m1 : M) p ns :
  writable e -> um_open m = (Ok tt, m1) -> readable m1 -> rest m1 = p ->
  get_size m = zlen p -> get_size m1 = zlen p -> zlen p < 2 ^ 64 -> Forall (fun n => 0 < n) ns ->
  exists em key ct em1 em2,
    save M U m e = on_repo (cr_save _ enc_uploadable em) (er_draw e) /\
    derive_file_key (er_master_key e) (file_salt (drawn_header e)) = Ok key /\
    encrypted_file (drawn_header e) key p = Ok ct /\ get_size em = zlen ct /\
    um_open em = (Ok tt, em1) /\ read_sizes ns em1 = (Ok (ztake (zsum ns) ct), em2).
Proof.
  intros Hw Ho Hr Hrest Hg Hg1 Hlen Hns. destruct (fresh_header_run e Hw) as (key & Hd & Hk & Hf).
  pose proof (drawn_header_ok e Hw) as Hh.
  destruct (encrypted_delivers m m1 p (drawn_header e) key ns (um_version_id (um m)))
    as (em0 & em1 & em2 & ct & Hwr & Hct & Hsz & Hop & Hrd); [done..|].
  exists (em_with_version (um_version_id (um m)) em0), key, ct, em1, em2.
  split; [|done]. unfold save, seal_message, obfuscate. destruct Hw as (_ & _ & Hn).
  unfold sbind, sget, sret, slift. rewrite Hn. cbv beta iota. rewrite decide_True by done.
  rewrite Hf, Hwr. done.
Qed.

End EncRepoProps.

(** ** Witnesses: an encrypted and a plain file in memory *)

Definition demo_master : bytes := replicate 32 x05.
Definition demo_salted : FileHeader := new_header (replicate 32 x01) 4.
Definition demo_file_key : bytes := hkdf_sha256 32 (replicate 32 x01) HKDF_INFO_FILE demo_master.
Definition demo_text : bytes := bytes_of "hello, world".

Definition demo_ct : bytes :=
  match encrypted_file demo_salted demo_file_key demo_text with Ok ct => ct | Raise _ => [] end.

Definition demo_fv (id : string) (n : Z) : TGFSFileVersion :=
  {| fv_id := id; updated_at := fromtimestamp_ms 1; fv_size_field := n; message_ids := [1];
     part_sizes := []; mirrors := []; replicas := []; store := None; pending := false;
     cacheable := true; recorded_size := n |}.

(** A header whose tag was overwritten. *)
Definition demo_tampered : bytes := ztake 44 demo_ct ++ replicate 16 x00 ++ zdrop 60 demo_ct.

Definition demo_repo : EncRepo MemRepo :=
  {| er_inner := {| mr_files := [("enc", demo_ct); ("plain", demo_text); ("bad", demo_tampered)];
                    mr_piece := 7; mr_saved := [] |};
     er_master_key := demo_master; er_chunk_size := 4; er_name_key := None;
     er_cache := HeaderCache.new; er_entropy := fun _ => replicate 32 x01; er_draws := 0 |}.

Lemma demo_enc_stored :
  enc_stored (Some (demo_salted, demo_file_key)) demo_repo (demo_fv "enc" (zlen demo_ct)) demo_text.
Proof.
  split; [apply HeaderCache.new_wf| |by left]. exists demo_ct. split; [|split; [done|]].
  - split; [done|]. split; [done|]. done.
  - split; [by split|]. split; [done|]. split; [|done]. vm_compute. reflexivity.
Qed.

Lemma demo_plain_stored :
  enc_stored None demo_repo (demo_fv "plain" 12) demo_text.
Proof.
  split; [apply HeaderCache.new_wf| |by left]. exists demo_text. split; [|split; [done|]]; done.
Qed.

Lemma encrypted_range_read_witness :
  exists s e', get (demo_fv "enc" (zlen demo_ct)) 3 9 "f" true demo_repo = (Ok s, e') /\
    stream_bytes s = bytes_of "lo, wor".
Proof.
  destruct (encrypted_range_read demo_salted demo_file_key demo_repo
              (demo_fv "enc" (zlen demo_ct)) demo_text 3 9 "f" true) as [(s & e' & H1 & _ & H2) _];
    [apply demo_enc_stored|lia|].
  exists s, e'. split; [exact H1|]. rewrite H2. vm_compute. reflexivity.
Defined.

Lemma plaintext_passthrough_witness :
  exists e', content_length (demo_fv "plain" 12) demo_repo = (Ok 12, e').
Proof.
  apply (plaintext_passthrough demo_repo (demo_fv "plain" 12) demo_text 0 5 "f" true);
    [apply demo_plain_stored|done].
Defined.

Lemma bad_header_refused_witness :
  exists e', get (demo_fv "bad" (zlen demo_tampered)) 0 3 "f" true demo_repo =
    (Raise InvalidHeaderError, e').
Proof.
  destruct (bad_header_refused demo_repo (demo_fv "bad" (zlen demo_tampered)) demo_tampered 0 3 "f" true)
    as (e' & H & _); [done|done|done|done|vm_compute; reflexivity| |by exists e'].
  intros h key Hp Hd. vm_compute in Hp. injection Hp as <-. vm_compute in Hd. injection Hd as <-.
  vm_compute. reflexivity.
Defined.

Lemma demo_writable : writable demo_repo.
Proof. by split. Qed.

Lemma update_sends_encrypted_witness :
  exists ct, update 9 demo_text "n" demo_repo = on_repo (cr_update 9 ct "n") (er_draw demo_repo) /\
    zlen ct = 156.
Proof.
  destruct (update_sends_encrypted demo_repo 9 demo_text "n" demo_writable) as (key & ct & Hd & Hct & Hu);
    [done|]. exists ct. split; [exact Hu|].
  vm_compute in Hd. injection Hd as <-. vm_compute in Hct. injection Hct as <-. reflexivity.
Defined.

Lemma save_sends_encrypted_witness :
  exists em : EncryptingFileMessage FileMessageFromBuffer,
    save FileMessageFromBuffer buffer_uploadable (buffer_message demo_text "f") demo_repo =
    on_repo (cr_save _ enc_uploadable em) (er_draw demo_repo) /\
    exists em1 em2 out, um_open em = (Ok tt, em1) /\ read_sizes [100; 56] em1 = (Ok out, em2).
Proof.
  destruct (save_sends_encrypted FileMessageFromBuffer buffer_uploadable buffer_laws demo_repo
              (buffer_message demo_text "f") (fb_set_unread demo_text (buffer_message demo_text "f"))
              demo_text [100; 56] demo_writable)
    as (em & key & ct & em1 & em2 & H1 & _ & _ & _ & H2 & H3);
    [done|done|done|done|done|done|by repeat constructor|].
  exists em. split; [exact H1|]. by exists em1, em2, (ztake (zsum [100; 56]) ct).
Defined.
