(* ===== verification/Stores.v ===== *)
(** * The stores a file system is kept in ([tgdcfs/backends/base.py])

    [Stores W] has the methods of [IStore] as operations on a world [W],
    with a store named by its key.  The backends behind it (Telegram,
    Discord) are remote services; what the core relies on are the fields of
    [StoreLaws].  [MemStores] is a model of the laws for the witnesses. *)

From S2P Require Import Prelude Errors Messages FileVersion.

Open Scope Z_scope.
Open Scope py_scope.

(** [StoreCapabilities] and [IStore.backend], as far as the core asks. *)
Record StoreInfo := {
  si_backend : string;
  si_max_part_bytes : Z;
  si_supports_server_copy : bool
}.

(** [MessageResp] with its document. *)
Record MessageResp := {
  mr_message_id : Z;
  mr_text : string;
  mr_document : option Z                         (* document.size *)
}.

Class Stores (W : Type) := {
  st_info : string -> StoreInfo;
  st_now : W -> Z;                               (* time.monotonic(), in ms *)
  st_download : string -> Z -> Z -> Z -> st exn W stream;
  st_upload : string -> forall M, Uploadable M -> M -> st exn W (list SentFileMessage);
  st_replace : string -> Z -> bytes -> string -> st exn W Z;
  st_get_messages : string -> list Z -> st exn W (list (option MessageResp));
  st_send_text : string -> string -> st exn W Z;
  st_edit_text : string -> Z -> string -> st exn W Z;
  st_copy_from : string -> string -> list Z -> st exn W (option (list Z));
  st_copy_within : string -> list Z -> st exn W (list Z);
  st_delete : string -> list Z -> bool -> st exn W unit;
  st_pin : string -> Z -> st exn W unit
}.

(** ** Downloads *)

(** [holds w k m b]: message [m] of store [k] carries the document [b];
    [up w k]: store [k] answers downloads.  A download of a range inside a
    document delivers the range, or fails -- at once or on the way, having
    delivered only part of it -- and changes no document. *)
Class StoreLaws (W : Type) `{Stores W} := {
  holds : W -> string -> Z -> bytes -> Prop;
  up : W -> string -> Prop;
  download_law : forall w k m b first last,
    holds w k m b -> 0 <= first -> first <= last -> last < zlen b ->
    let '(r, w') := st_download k m first last w in
    (forall k' m' b', holds w k' m' b' -> holds w' k' m' b') /\
    (forall k', up w k' -> up w' k') /\
    match r with
    | Raise x => is_Exception x = true /\ ~ up w k
    | Ok s =>
        match fault s with
        | None => stream_bytes s = zslice first (last + 1) b
        | Some x => is_Exception x = true /\ ~ up w k /\
            exists t, t <> [] /\ stream_bytes s ++ t = zslice first (last + 1) b
        end
    end
}.

(** ** Writes and texts *)

(** What a store may do with a message it uploads, and the bytes it read. *)
Inductive reads {M : Type} `{Uploadable M} : M -> bytes -> M -> Prop :=
| reads_done m : reads m [] m
| reads_open m m1 c m2 : um_open m = (Ok tt, m1) -> reads m1 c m2 -> reads m c m2
| reads_next n m c m2 : reads (next_part n m) c m2 -> reads m c m2
| reads_read n m p m1 c m2 : 0 <= n -> um_read n m = (Ok p, m1) -> reads m1 c m2 -> reads m (p ++ c) m2
| reads_close m m1 c m2 : um_close m = (Ok tt, m1) -> reads m1 c m2 -> reads m c m2.

(** [says w k m t]: message [m] of store [k] has the text [t].  An upload
    that returns has stored what it read of the message, the whole size, in
    the messages it names; a server-side copy has the bytes of its source; a
    message is described by what it carries; nothing else changes. *)
Class WriteLaws (W : Type) `{StoreLaws W} := {
  says : W -> string -> Z -> string -> Prop;
  (* the answer [m] for message [i] of store [k] *)
  described (w : W) (k : string) (i : Z) (m : option MessageResp) : Prop :=
    (forall x, m = Some x -> mr_message_id x = i) /\
    (forall b, holds w k i b -> exists x, m = Some x /\ mr_document x = Some (zlen b)) /\
    (forall t, says w k i t -> exists x, m = Some x /\ mr_text x = t) /\
    (forall x n, m = Some x -> mr_document x = Some n -> exists b, holds w k i b /\ n = zlen b);
  docs_kept (w w' : W) : Prop := forall k m b, holds w k m b -> holds w' k m b;
  texts_kept (w w' : W) : Prop := forall k m t, says w k m t -> says w' k m t;
  upload_law : forall w k M (U : Uploadable M) (msg : M),
    let '(r, w') := st_upload k M U msg w in
    docs_kept w w' /\ texts_kept w w' /\
    match r with
    | Raise _ => True
    | Ok sent => exists c msg' bs, reads msg c msg' /\ zlen c = get_size msg /\ concat bs = c /\
        Forall2 (fun s b => sm_size s = zlen b /\ (0 < sm_message_id s /\ holds w' k (sm_message_id s) b) /\
                            sm_mirrors s = [] /\ sm_replicas s = []) sent bs
    end;
  copy_from_law : forall w k src ids,
    let '(r, w') := st_copy_from k src ids w in
    docs_kept w w' /\ texts_kept w w' /\
    match r with
    | Ok (Some ids') => Forall2 (fun i i' => 0 < i' /\ forall b, holds w src i b -> holds w' k i' b) ids ids'
    | _ => True
    end;
  get_messages_law : forall w k ids,
    let '(r, w') := st_get_messages k ids w in
    docs_kept w w' /\ docs_kept w' w /\ texts_kept w w' /\ (forall k', up w k' -> up w' k') /\
    match r with
    | Ok ms => Forall2 (described w k) ids ms
    | Raise x => is_Exception x = true /\ ~ up w k
    end;
  download_keeps : forall w k m first last,
    docs_kept w (st_download k m first last w).2 /\ texts_kept w (st_download k m first last w).2;
  send_text_law : forall w k text,
    let '(r, w') := st_send_text k text w in
    docs_kept w w' /\ texts_kept w w' /\
    match r with Ok i => 0 < i /\ says w' k i text | Raise _ => True end;
  edit_text_law : forall w k m text,
    let '(r, w') := st_edit_text k m text w in
    docs_kept w w' /\ (forall k' m' t, (k', m') <> (k, m) -> says w k' m' t -> says w' k' m' t) /\
    match r with Ok i => says w' k i text | Raise _ => texts_kept w w' end
}.

(** ** A world in memory *)

Record MemWorld := {
  mw_docs : list (string * Z * bytes);           (* store, message, document *)
  mw_down : list string;                         (* stores whose downloads fail *)
  mw_texts : list (string * Z * string);         (* store, message, text *)
  mw_next : Z;
  mw_clock : Z
}.

Definition mem_doc (w : MemWorld) (k : string) (m : Z) : option bytes :=
  option_map snd (List.find (fun d => bool_decide (d.1 = (k, m))) (mw_docs w)).

(** A store that is down delivers the first byte and then fails. *)
Definition mem_download (k : string) (m first last : Z) : st exn MemWorld stream := fun w =>
  match mem_doc w k m with
  | None => (Raise (MessageNotFound m), w)
  | Some b =>
      let range := zslice first (last + 1) b in
      if bool_decide (k ∈ mw_down w) then
        if 1 <? zlen range
        then (Ok {| pieces := [ztake 1 range]; fault := Some (BackendError 1) |}, w)
        else (Raise (BackendError 1), w)
      else (Ok {| pieces := chunks 3 range; fault := None |}, w)
  end.

(** An id no message of the world has. *)
Definition mem_id (w : MemWorld) : Z :=
  foldr Z.max (Z.max 1 (mw_next w))
    (map (fun d => d.1.2 + 1) (mw_docs w) ++ map (fun d => d.1.2 + 1) (mw_texts w)).

(** Reads a message to its end and keeps it as one document. *)
Definition mem_upload (k : string) (M : Type) (U : Uploadable M) (msg : M)
  : st exn MemWorld (list SentFileMessage) := fun w =>
  match (um_open ;;; um_read (get_size msg)) msg with
  | (Raise x, _) => (Raise x, w)
  | (Ok b, _) =>
      if negb (zlen b =? get_size msg) then (Raise (TechnicalError "short message"), w)
      else
      (Ok [{| sm_message_id := mem_id w; sm_size := zlen b; sm_mirrors := []; sm_replicas := [] |}],
       {| mw_docs := (k, mem_id w, b) :: mw_docs w; mw_down := mw_down w;
          mw_texts := mw_texts w; mw_next := mw_next w + 1; mw_clock := mw_clock w |})
  end.

Definition mem_send_text (k text : string) : st exn MemWorld Z := fun w =>
  (Ok (mem_id w),
   {| mw_docs := mw_docs w; mw_down := mw_down w;
      mw_texts := (k, mem_id w, text) :: mw_texts w;
      mw_next := mw_next w + 1; mw_clock := mw_clock w |}).

Definition mem_edit_text (k : string) (m : Z) (text : string) : st exn MemWorld Z := fun w =>
  if bool_decide (mem_doc w k m = None) && existsb (fun d => bool_decide (d.1 = (k, m))) (mw_texts w) then
    (Ok m,
     {| mw_docs := mw_docs w; mw_down := mw_down w;
        mw_texts := map (fun d => if bool_decide (d.1 = (k, m)) then (k, m, text) else d) (mw_texts w);
        mw_next := mw_next w; mw_clock := mw_clock w |})
  else (Raise (MessageNotFound m), w).

Definition mem_message (w : MemWorld) (k : string) (m : Z) : option MessageResp :=
  match mem_doc w k m with
  | Some b => Some {| mr_message_id := m; mr_text := ""; mr_document := Some (zlen b) |}
  | None =>
      option_map (fun d => {| mr_message_id := m; mr_text := d.2; mr_document := None |})
                 (List.find (fun d => bool_decide (d.1 = (k, m))) (mw_texts w))
  end.

#[export] Instance mem_stores : Stores MemWorld := {
  st_info k := {| si_backend := "memory"; si_max_part_bytes := 1000;
                  si_supports_server_copy := false |};
  st_now := mw_clock;
  st_download := mem_download;
  st_upload := mem_upload;
  st_replace k m b name := fun w =>
    (Ok m, {| mw_docs := (k, m, b) :: mw_docs w; mw_down := mw_down w;
              mw_texts := mw_texts w; mw_next := mw_next w; mw_clock := mw_clock w |});
  st_get_messages k ids := fun w => (Ok (map (mem_message w k) ids), w);
  st_send_text := mem_send_text;
  st_edit_text := mem_edit_text;
  st_copy_from k src ids := sret None;
  st_copy_within k ids := sret ids;
  st_delete k ids force := fun w =>
    (Ok tt, {| mw_docs := List.filter (fun d => negb (bool_decide (d.1.1 = k /\ d.1.2 ∈ ids))) (mw_docs w);
               mw_down := mw_down w; mw_texts := mw_texts w; mw_next := mw_next w;
               mw_clock := mw_clock w |});
  st_pin k m := sret tt
}.

#[export] Program Instance mem_store_laws : StoreLaws MemWorld := {
  holds w k m b := mem_doc w k m = Some b;
  up w k := k ∉ mw_down w
}.
Next Obligation.
  intros w k m b first last Hb H0 H1 H2. simpl. unfold mem_download. rewrite Hb.
  pose proof (zlen_zslice first (last + 1) b H0 ltac:(lia) ltac:(lia)) as Hl.
  case_bool_decide as Hd.
  - destruct (1 <? _) eqn:Hlt; [apply Z.ltb_lt in Hlt|].
    + split; [done|]. split; [done|]. cbn [fault]. split; [done|]. split; [tauto|].
      exists (zdrop 1 (zslice first (last + 1) b)). unfold stream_bytes. cbn [pieces concat].
      rewrite app_nil_r, ztake_zdrop. split; [|done]. intros Hn%(f_equal zlen).
      pose proof (zlen_zdrop 1 (zslice first (last + 1) b) ltac:(lia)) as Hz.
      rewrite Hn in Hz. change (zlen (@nil byte)) with 0 in Hz. lia.
    + split; [done|]. split; [done|]. split; [done|tauto].
  - split; [done|]. split; [done|]. cbn [fault]. unfold stream_bytes. cbn [pieces].
    by rewrite concat_chunks.
Qed.

Lemma mem_id_bound w l x : x ∈ l -> x <= foldr Z.max (Z.max 1 (mw_next w)) l.
Proof.
  induction l as [|y l IH]; [by intros ?%not_elem_of_nil|]. intros [->|Hin]%elem_of_cons; simpl; [lia|].
  specialize (IH Hin). lia.
Qed.

Lemma mem_id_pos w : 0 < mem_id w.
Proof. unfold mem_id. generalize (map (fun d => d.1.2 + 1) (mw_docs w) ++ map (fun d => d.1.2 + 1) (mw_texts w)). induction l; simpl; lia. Qed.

Lemma find_new {A} (k : string) (m : Z) (x : A) (l : list (string * Z * A)) k' m' y :
  option_map snd (List.find (fun d => bool_decide (d.1 = (k', m'))) l) = Some y ->
  (forall d, d ∈ l -> d.1 <> (k, m)) ->
  option_map snd (List.find (fun d => bool_decide (d.1 = (k', m'))) ((k, m, x) :: l)) = Some y.
Proof.
  intros Hf Hnew. simpl. case_bool_decide as Hd; [|done]. injection Hd as -> ->. exfalso.
  destruct (List.find _ l) as [d|] eqn:He; [|done]. apply find_some in He as [Hin Hd%bool_decide_eq_true].
  by apply (Hnew d); [apply list_elem_of_In|].
Qed.

Lemma mem_id_docs w k d : d ∈ mw_docs w -> d.1 <> (k, mem_id w).
Proof.
  intros Hin Hd. assert (d.1.2 + 1 <= mem_id w) as Hb; [|rewrite Hd in Hb; simpl in Hb; lia].
  apply mem_id_bound. apply elem_of_app. left. by apply (list_elem_of_fmap_2 (fun d => d.1.2 + 1)).
Qed.

Lemma mem_id_texts w k d : d ∈ mw_texts w -> d.1 <> (k, mem_id w).
Proof.
  intros Hin Hd. assert (d.1.2 + 1 <= mem_id w) as Hb; [|rewrite Hd in Hb; simpl in Hb; lia].
  apply mem_id_bound. apply elem_of_app. right. by apply (list_elem_of_fmap_2 (fun d => d.1.2 + 1)).
Qed.

Definition mem_text (w : MemWorld) (k : string) (m : Z) : option string :=
  option_map snd (List.find (fun d => bool_decide (d.1 = (k, m))) (mw_texts w)).

(** Replacing the text of the messages [(k, m)]. *)
Lemma find_edit_ne (k : string) (m : Z) (text : string) l k' m' :
  (k', m') <> (k, m) ->
  List.find (fun d : string * Z * string => bool_decide (d.1 = (k', m')))
    (map (fun d => if bool_decide (d.1 = (k, m)) then (k, m, text) else d) l) =
  List.find (fun d => bool_decide (d.1 = (k', m'))) l.
Proof.
  intros Hne. induction l as [|d l IH]; simpl; [done|]. destruct (decide (d.1 = (k, m))) as [Hd|Hd].
  - rewrite (bool_decide_eq_true_2 _ Hd), !bool_decide_eq_false_2 by (simpl; congruence). done.
  - rewrite (bool_decide_eq_false_2 _ Hd). by rewrite IH.
Qed.

Lemma find_edit_eq (k : string) (m : Z) (text : string) l :
  existsb (fun d : string * Z * string => bool_decide (d.1 = (k, m))) l = true ->
  option_map snd (List.find (fun d => bool_decide (d.1 = (k, m)))
    (map (fun d => if bool_decide (d.1 = (k, m)) then (k, m, text) else d) l)) = Some text.
Proof.
  induction l as [|d l IH]; simpl; [done|]. destruct (decide (d.1 = (k, m))) as [Hd|Hd].
  - rewrite (bool_decide_eq_true_2 _ Hd). intros _. by rewrite bool_decide_eq_true_2.
  - rewrite (bool_decide_eq_false_2 _ Hd). simpl. rewrite (bool_decide_eq_false_2 _ Hd). apply IH.
Qed.

#[export] Program Instance mem_write_laws : WriteLaws MemWorld := {
  says w k m t := mem_doc w k m = None /\ mem_text w k m = Some t
}.
Next Obligation.
  intros w k M U msg. simpl. unfold mem_upload, sbind. destruct (um_open msg) as [[[]|x] m1] eqn:Ho; [|done].
  destruct (um_read (get_size msg) m1) as [[b|x] m2] eqn:Hr; [|done].
  destruct (zlen b =? get_size msg) eqn:Hl; simpl; [|done]. apply Z.eqb_eq in Hl.
  split; [|split].
  - intros k' m' b' Hb. unfold mem_doc in *. simpl mw_docs. apply find_new; [done|]. intros d. apply mem_id_docs.
  - intros k' m' t [Hd Ht]. split; [|done]. unfold mem_doc in *. simpl. case_bool_decide as He; [|done].
    exfalso. injection He as -> <-. unfold mem_text in Ht.
    destruct (List.find _ (mw_texts w)) as [d|] eqn:Hf; [|done]. apply find_some in Hf as [Hin Hd'%bool_decide_eq_true].
    by eapply mem_id_texts; [apply list_elem_of_In|].
  - exists b, m2, [b]. split.
    { eapply reads_open; [exact Ho|]. rewrite <- (app_nil_r b). eapply reads_read; [|exact Hr|constructor].
      rewrite <- Hl. apply zlen_nonneg. }
    split; [done|]. split; [apply app_nil_r|]. constructor; [|constructor]. simpl. split; [done|].
    split; [|done]. split; [apply mem_id_pos|]. unfold mem_doc. simpl. by rewrite bool_decide_eq_true_2.
Qed.
Next Obligation. done. Qed.
Next Obligation.
  intros w k ids. simpl. split; [done|]. split; [done|]. split; [done|]. split; [done|].
  induction ids as [|i ids IH]; simpl; constructor; [|done]. unfold mem_message. split; [|split; [|split]].
  - intros x. destruct (mem_doc w k i); [by intros [= <-]|]. destruct (List.find _ (mw_texts w)); [|done].
    by intros [= <-].
  - intros b Hb. rewrite Hb. by eexists.
  - intros t [Hd Ht]. rewrite Hd. unfold mem_text in Ht.
    destruct (List.find _ (mw_texts w)) as [d|]; [|done]. simpl in *. injection Ht as <-. by eexists.
  - intros x n. destruct (mem_doc w k i) as [b|]; [intros [= <-] [= <-]; by exists b|].
    destruct (List.find _ (mw_texts w)) as [d|]; [|done]. by intros [= <-].
Qed.
Next Obligation.
  intros w k m first last. simpl. unfold mem_download. destruct (mem_doc w k m); [|done].
  case_bool_decide; [|done]. by destruct (1 <? _).
Qed.
Next Obligation.
  intros w k text. simpl. split; [done|]. assert (mem_doc w k (mem_id w) = None) as Hnew.
  { unfold mem_doc. destruct (List.find _ (mw_docs w)) as [d|] eqn:Hf; [|done]. exfalso.
    apply find_some in Hf as [Hin Hd%bool_decide_eq_true]. by eapply mem_id_docs; [apply list_elem_of_In|]. }
  split.
  - intros k' m' t [Hd Ht]. split; [done|]. unfold mem_text in *. cbn [mw_texts]. apply find_new; [done|].
    intros d. apply mem_id_texts.
  - split; [apply mem_id_pos|]. split; [exact Hnew|]. unfold mem_text. simpl. by rewrite bool_decide_eq_true_2.
Qed.
Next Obligation.
  intros w k m text. simpl. unfold mem_edit_text.
  destruct (bool_decide (mem_doc w k m = None)) eqn:Hnone; simpl; [|done]. apply bool_decide_eq_true in Hnone.
  destruct (existsb _ (mw_texts w)) eqn:Hex; [|done]. split; [done|]. unfold mem_text. cbn [mw_texts]. split.
  - intros k' m' t Hne [Hd Ht]. split; [done|]. by rewrite find_edit_ne.
  - split; [done|]. by rewrite find_edit_eq.
Qed.
