(* ===== verification/FileContent.v ===== *)
(** * Reading file content from the stores
      ([tgdcfs/core/repository/impl/file_content/__init__.py])

    A version is cut into part messages; a byte range is mapped onto parts,
    every part is fetched from the first source that delivers it, and a
    layout that fails is followed by the next one from the byte where it
    stopped.  An asynchronous generator is run to its end: it turns the
    state into the stream it yielded and the state it left ([gen]). *)

From S2P Require Import Prelude Errors Messages FileVersion Stores.

Open Scope Z_scope.
Open Scope py_scope.

(** ** Mapping a range onto parts *)

(** A part range: part index, message id, first and last byte in the part. *)
Record part_range := { pr_part : Z; pr_mid : Z; pr_begin : Z; pr_end : Z }.

(** The first [while]: parts that end before [begin]. *)
Fixpoint skip_parts (part_sizes : list Z) (begin offset i : Z) : list Z * Z * Z :=
  match part_sizes with
  | [] => ([], offset, i)
  | p :: ps =>
      if offset + p <=? begin then skip_parts ps begin (offset + p) (i + 1)
      else (part_sizes, offset, i)
  end.

(** The second [while]: the parts up to [last]. *)
Fixpoint take_parts (message_ids part_sizes : list Z) (begin last offset i : Z)
  : exc (list part_range) :=
  match part_sizes with
  | [] => Ok []
  | part_size :: ps =>
      if offset <=? last then
        let part_begin := Z.max 0 (begin - offset) in
        let part_end := Z.min (part_size - 1) (last - offset) in
        let* here :=
          (if part_begin <=? part_end then
             match znth message_ids i with
             | None => Raise IndexError
             | Some mid => Ok [{| pr_part := i; pr_mid := mid; pr_begin := part_begin;
                                  pr_end := part_end |}]
             end
           else Ok []) in
        let* rest := take_parts message_ids ps begin last (offset + part_size) (i + 1) in
        Ok (here ++ rest)
      else Ok []
  end.

Definition bad_range : exn := TechnicalError "Invalid range".

Definition map_range (message_ids part_sizes : list Z) (size : Z) (begin last : Z)
  : exc (list part_range) :=
  if size <=? 0 then Ok []
  else
    let last := if (last <? 0) || (size <=? last) then size - 1 else last in
    if begin <? 0 then Raise bad_range
    else if last <? begin then Raise bad_range
    else
      let '(rest, offset, i) := skip_parts part_sizes begin 0 0 in
      match rest with
      | [] => Raise bad_range
      | _ => take_parts message_ids rest begin last offset i
      end.

(** [_get_file_parts_indexed]: the primary layout of a version. *)
Definition get_file_parts_indexed (fv : TGFSFileVersion) (begin last : Z) : exc (list part_range) :=
  map_range (message_ids fv) (part_sizes fv) (fv_size fv) begin last.

(** ** Layouts *)

Record Layout := {
  ly_part_sizes : list Z;
  ly_candidates : list (list (string * Z));      (* (store key, message id) *)
  ly_label : string
}.

Definition layout_size (l : Layout) : Z := zsum (ly_part_sizes l).

(** The repository: its primary store, the mirrors of its group (if any) and
    the read settings. *)
Record ContentConfig := {
  cc_store : string;
  cc_group : option (list string);
  cc_read_preference : list string;
  cc_read_parallel : bool;
  cc_read_sources : list string;
  cc_piece_size : Z;
  cc_parallel_threshold : Z;
  cc_read_window : Z
}.

(** [MirrorGroup.store_for]. *)
Definition store_for (cc : ContentConfig) (group : list string) (key : string) : option string :=
  if decide (key = cc_store cc) then Some key
  else if bool_decide (key ∈ group) then Some key else None.

Definition preference_rank (cc : ContentConfig) (store_key : string) : Z :=
  default (zlen (cc_read_preference cc)) (index_in store_key (cc_read_preference cc)).

(** [PRIMARY_DEAD_SECONDS], in milliseconds. *)
Definition PRIMARY_DEAD_MS : Z := 60 * 1000.

(** The world of the stores and the circuit breaker of the group. *)
Record Live (W : Type) := { lv_world : W; lv_dead_until : Z }.
Arguments lv_world {W}.
Arguments lv_dead_until {W}.

Section FileContent.
  Context {W : Type} `{Stores W} (cc : ContentConfig).
  Local Abbreviation Live := (Live W).

Definition set_world (w : W) (l : Live) : Live :=
  {| lv_world := w; lv_dead_until := lv_dead_until l |}.

Definition mark_primary_dead (l : Live) : Live :=
  {| lv_world := lv_world l; lv_dead_until := st_now (lv_world l) + PRIMARY_DEAD_MS |}.

Definition primary_dead (l : Live) : bool := st_now (lv_world l) <? lv_dead_until l.

(** The sources of part [i], which has the id [mid] in the primary. *)
Definition part_sources (fv : TGFSFileVersion) (dead : bool) (i : nat) (mid : Z)
  : list (string * Z) :=
  let sources := if owned_by (cc_store cc) fv && (0 <? mid) then [(cc_store cc, mid)] else [] in
  let sources :=
    match cc_group cc with
    | None => sources
    | Some group =>
        let sources :=
          sources ++
          concat (map (fun ki =>
                    match store_for cc group ki.1, ki.2 !! i with
                    | Some k, Some m => if 0 <? m then [(k, m)] else []
                    | _, _ => []
                    end) (mirrors fv)) in
        if dead && (1 <? zlen sources) then zdrop 1 sources ++ ztake 1 sources else sources
    end in
  sort_by (fun km => preference_rank cc km.1) sources.

Definition replica_layouts (fv : TGFSFileVersion) : list Layout :=
  match cc_group cc with
  | None => []
  | Some group =>
      concat (map (fun kr =>
        match store_for cc group kr.1 with
        | None => []
        | Some k =>
            let r := kr.2 in
            if negb (nonempty (r_message_ids r)) ||
               negb (zlen (r_part_sizes r) =? zlen (r_message_ids r)) then []
            else [{| ly_part_sizes := r_part_sizes r;
                     ly_candidates := map (fun mid => [(k, mid)]) (r_message_ids r);
                     ly_label := "replica " +:+ kr.1 |}]
        end) (replicas fv))
  end.

(** [min(ranks, default=len(preference))]. *)
Definition layout_rank (l : Layout) : Z :=
  match map (fun km => preference_rank cc km.1) (concat (ly_candidates l)) with
  | [] => zlen (cc_read_preference cc)
  | r :: rs => foldl Z.min r rs
  end.

Definition layouts (fv : TGFSFileVersion) (dead : bool) : list Layout :=
  let primary :=
    if nonempty (message_ids fv) && (zlen (part_sizes fv) =? zlen (message_ids fv)) then
      [{| ly_part_sizes := part_sizes fv;
          ly_candidates := imap (part_sources fv dead) (message_ids fv);
          ly_label := "primary" |}]
    else [] in
  sort_by layout_rank (primary ++ replica_layouts fv).

(** ** Streams *)

Definition gen := Live -> stream * Live.

(** A source failed: the primary's breaker trips. *)
Definition note_failure (store : string) (l : Live) : Live :=
  if bool_decide (store = cc_store cc) && bool_decide (is_Some (cc_group cc))
  then mark_primary_dead l else l.

Fixpoint download_sources (sources : list (string * Z)) (begin last served : Z)
    (last_ex : option exn) : gen :=
  match sources with
  | [] => fun l =>
      ({| pieces := [];
          fault := Some (default (TechnicalError "No download source available") last_ex) |}, l)
  | (store, mid) :: rest => fun l =>
      let '(r, w) := st_download store mid (begin + served) last (lv_world l) in
      let l := set_world w l in
      match r with
      | Raise ex =>
          if is_Exception ex
          then download_sources rest begin last served (Some ex) (note_failure store l)
          else ({| pieces := []; fault := Some ex |}, l)
      | Ok s =>
          match fault s with
          | None => (s, l)
          | Some ex =>
              if is_Exception ex then
                let '(s', l) :=
                  download_sources rest begin last (served + zlen (stream_bytes s)) (Some ex)
                                   (note_failure store l) in
                ({| pieces := pieces s ++ pieces s'; fault := fault s' |}, l)
              else (s, l)
          end
      end
  end.

Definition download_part (layout : Layout) (part_idx begin last : Z) : gen :=
  match znth (ly_candidates layout) part_idx with
  | None => fun l => ({| pieces := []; fault := Some IndexError |}, l)
  | Some sources => download_sources sources begin last 0 None
  end.

(** [prefetching_chain]: the concatenation of its sources in order, stopped
    by the first failure.  (That it reads ahead is not visible in its
    output.) *)
Fixpoint chain (gens : list gen) : gen :=
  match gens with
  | [] => fun l => (empty_stream, l)
  | g :: gens => fun l =>
      let '(s, l) := g l in
      match fault s with
      | Some _ => (s, l)
      | None =>
          let '(s', l) := chain gens l in
          ({| pieces := pieces s ++ pieces s'; fault := fault s' |}, l)
      end
  end.

(** The ids a layout is mapped with: the first candidate of every part that
    has one. *)
Definition first_ids (layout : Layout) : list Z :=
  concat (map (fun sources => map snd (ztake 1 sources)) (ly_candidates layout)).

Definition stream_layout (layout : Layout) (begin last : Z) : gen :=
  match map_range (first_ids layout) (ly_part_sizes layout) (layout_size layout) begin last with
  | Raise ex => fun l => ({| pieces := []; fault := Some ex |}, l)
  | Ok parts =>
      chain (map (fun p => download_part layout (pr_part p) (pr_begin p) (pr_end p)) parts)
  end.

(** The generator of [_stream_layouts]: layout after layout. *)
Fixpoint failover (ls : list Layout) (begin last served : Z) (last_ex : option exn) : gen :=
  match ls with
  | [] => fun l => ({| pieces := []; fault := last_ex |}, l)
  | layout :: rest => fun l =>
      let '(s, l) := stream_layout layout (begin + served) last l in
      match fault s with
      | None => (s, l)
      | Some ex =>
          if is_Exception ex then
            let '(s', l) := failover rest begin last (served + zlen (stream_bytes s)) (Some ex) l in
            ({| pieces := pieces s ++ pieces s'; fault := fault s' |}, l)
          else (s, l)
      end
  end.

(** ** Views for multi-source reads *)

Record StoreView := { sv_key : string; sv_message_ids : list Z; sv_part_sizes : list Z }.

(** [per_store.setdefault(key, []).append(mid)] over the candidates. *)
Definition per_store (layout : Layout) : dict string (list Z) :=
  foldl (fun acc km => Dict.set km.1 (default [] (Dict.get km.1 acc) ++ [km.2]) acc) []
        (concat (ly_candidates layout)).

(** The views a layout adds to the stores already seen. *)
Definition layout_views (layout : Layout) (seen : list string) : list StoreView :=
  concat (map (fun ki =>
    if bool_decide (ki.1 ∈ seen) || negb (zlen ki.2 =? zlen (ly_part_sizes layout)) then []
    else if nonempty (cc_read_sources cc) && negb (bool_decide (ki.1 ∈ cc_read_sources cc)) then []
    else [{| sv_key := ki.1; sv_message_ids := ki.2; sv_part_sizes := ly_part_sizes layout |}])
    (per_store layout)).

Definition store_views (ls : list Layout) : list StoreView :=
  let views := foldl (fun acc ly => acc ++ layout_views ly (map sv_key acc)) [] ls in
  sort_by (fun v => preference_rank cc (sv_key v)) views.

(** [MultiSourceRead(views, size, begin, last, ...).stream()]. *)
Context (multi_source : list StoreView -> Z -> Z -> Z -> gen).

Definition stream_layouts (ls : list Layout) (begin last : Z) : gen :=
  let size := match ls with [] => 0 | ly :: _ => layout_size ly end in
  let last' := if (last <? 0) || (size <=? last) then size - 1 else last in
  let views := store_views ls in
  if cc_read_parallel cc && (cc_parallel_threshold cc <? last' - begin + 1) && (1 <? zlen views)
  then multi_source views size begin last'
  else failover ls begin last 0 None.

(** [get] of a repository without a local cache. *)
Definition get_uncached (fv : TGFSFileVersion) (begin last : Z) (l : Live) : exc stream * Live :=
  if pending fv then (Raise (TechnicalError "still being distributed"), l)
  else
    match layouts fv (primary_dead l) with
    | [] =>
        if fv_size fv <=? 0 then (Ok empty_stream, l)
        else (Raise (TechnicalError "No readable copy"), l)
    | ly :: rest =>
        match map_range (replicate (length (ly_part_sizes ly)) 0) (ly_part_sizes ly)
                        (layout_size ly) begin last with
        | Raise ex => (Raise ex, l)
        | Ok _ => let '(s, l) := stream_layouts (ly :: rest) begin last l in (Ok s, l)
        end
    end.

End FileContent.
Arguments gen : clear implicits.
