(* ===== verification/FileContentProps.v ===== *)
(** * Properties of the read path

    The parts of a range are exactly the range, and whatever sources and
    layouts fail, what reaches the caller is a prefix of the requested bytes
    -- all of them when some layout has a working source for every part. *)

From S2P Require Import Prelude Errors Messages FileVersion Stores FileContent.

Open Scope Z_scope.

(** ** Ranges and parts *)

(** The bytes a part range names, in a version cut into the parts [bs]. *)
Definition range_bytes (bs : list bytes) (p : part_range) : bytes :=
  zslice (pr_begin p) (pr_end p + 1) (default [] (znth bs (pr_part p))).

Definition range_ok (mids : list Z) (bs : list bytes) (p : part_range) : Prop :=
  exists b, znth bs (pr_part p) = Some b /\ znth mids (pr_part p) = Some (pr_mid p) /\
    0 <= pr_begin p <= pr_end p /\ pr_end p < zlen b.

Lemma take_parts_spec mids all pre bs begin last :
  all = pre ++ bs -> zlen all <= zlen mids ->
  exists l, take_parts mids (map zlen bs) begin last (zlen (concat pre)) (zlen pre) = Ok l /\
    concat (map (range_bytes all) l) =
      zslice (Z.max 0 (begin - zlen (concat pre))) (last + 1 - zlen (concat pre)) (concat bs) /\
    Forall (range_ok mids all) l.
Proof.
  revert pre. induction bs as [|b bs IH]; intros pre Hall Hm.
  { exists []. simpl. unfold zslice. rewrite drop_nil, take_nil. done. }
  cbn [map take_parts]. set (off := zlen (concat pre)).
  destruct (off <=? last) eqn:Hoff; [apply Z.leb_le in Hoff|apply Z.leb_gt in Hoff].
  2: { exists []. rewrite zslice_nil by lia. done. }
  destruct (IH (pre ++ [b])) as (l & Hrun & Hbytes & Hok); [by rewrite <- app_assoc|done|].
  rewrite concat_app in Hrun, Hbytes. cbn [concat] in Hrun, Hbytes. rewrite app_nil_r in Hrun, Hbytes.
  rewrite zlen_app in Hrun, Hbytes. fold off in Hrun, Hbytes.
  rewrite zlen_app in Hrun. change (zlen [b]) with 1 in Hrun.
  assert (0 <= zlen pre < zlen all) as Hpre.
  { rewrite Hall, zlen_app, zlen_cons. pose proof (zlen_nonneg pre). pose proof (zlen_nonneg bs). lia. }
  assert (znth all (zlen pre) = Some b) as Hb.
  { rewrite Hall. replace (zlen pre) with (zlen pre + 0) by lia. by rewrite znth_app_r by lia. }
  destruct (znth_Some mids (zlen pre)) as [mid Hmid]; [lia|].
  rewrite Hrun, Hmid. cbn [rbind concat].
  rewrite (zslice_app _ _ b) by lia.
  replace (Z.max 0 (Z.max 0 (begin - off) - zlen b)) with (Z.max 0 (begin - (off + zlen b)))
    by (pose proof (zlen_nonneg b); lia).
  replace (last + 1 - off - zlen b) with (last + 1 - (off + zlen b)) by lia.
  rewrite <- Hbytes.
  destruct (Z.max 0 (begin - off) <=? Z.min (zlen b - 1) (last - off)) eqn:Hle;
    [apply Z.leb_le in Hle|apply Z.leb_gt in Hle]; cbn [rbind]; eexists; (split; [done|]); simpl.
  - split; [|constructor; [|done]].
    + f_equal. unfold range_bytes. simpl. rewrite Hb. simpl. f_equal. lia.
    + exists b. simpl. split; [done|]. split; [done|]. lia.
  - split; [|done]. rewrite zslice_nil by lia. done.
Qed.

Lemma skip_parts_spec (all pre bs : list bytes) begin :
  all = pre ++ bs -> zlen (concat pre) <= begin < zlen (concat all) ->
  exists pre' b bs', skip_parts (map zlen bs) begin (zlen (concat pre)) (zlen pre) =
      (map zlen (b :: bs'), zlen (concat pre'), zlen pre') /\
    all = pre' ++ b :: bs' /\ zlen (concat pre') <= begin.
Proof.
  revert pre. induction bs as [|b bs IH]; intros pre Hall Hb.
  { rewrite app_nil_r in Hall. subst. lia. }
  cbn [map skip_parts]. destruct (_ <=? begin) eqn:Hle; [apply Z.leb_le in Hle|].
  - destruct (IH (pre ++ [b])) as (pre' & b' & bs' & Hrun & Hall' & Hb').
    + by rewrite <- app_assoc.
    + rewrite concat_app, zlen_app. cbn [concat]. rewrite app_nil_r. lia.
    + rewrite concat_app, zlen_app in Hrun. cbn [concat] in Hrun. rewrite app_nil_r, zlen_app in Hrun.
      change (zlen [b]) with 1 in Hrun. eauto 10.
  - exists pre, b, bs. split; [done|]. split; [done|]. lia.
Qed.

Lemma zsum_map_zlen {A} (bs : list (list A)) : zsum (map zlen bs) = zlen (concat bs).
Proof. unfold zsum. induction bs as [|b bs IH]; simpl; [done|]. by rewrite IH, zlen_app. Qed.

(** The last byte of a request. *)
Definition last_byte (last size : Z) : Z := if (last <? 0) || (size <=? last) then size - 1 else last.

Lemma last_byte_in begin last : 0 <= begin <= last -> forall n, last < n -> last_byte last n = last.
Proof.
  intros Hb n Hn. unfold last_byte. by rewrite (proj2 (Z.ltb_ge _ _)), (proj2 (Z.leb_gt _ _)) by lia.
Qed.

Lemma map_range_spec mids bs begin last :
  let c := concat bs in let e := last_byte last (zlen c) in
  zlen bs <= zlen mids -> 0 <= begin <= e -> 0 < zlen c ->
  exists l, map_range mids (map zlen bs) (zlen c) begin last = Ok l /\
    concat (map (range_bytes bs) l) = zslice begin (e + 1) c /\ Forall (range_ok mids bs) l.
Proof.
  intros c e Hm [Hb0 Hb1] Hc. unfold map_range. rewrite (proj2 (Z.leb_gt _ _)) by done.
  fold (last_byte last (zlen c)). fold e.
  assert (e < zlen c) as He.
  { unfold e, last_byte. destruct (last <? 0) eqn:?, (zlen c <=? last) eqn:?; simpl; lia. }
  rewrite (proj2 (Z.ltb_ge begin 0)), (proj2 (Z.ltb_ge e begin)) by lia.
  destruct (skip_parts_spec bs [] bs begin eq_refl) as (pre & b & bs' & Hrun & Hall & Hpre);
    [change (zlen (concat (@nil bytes))) with 0; fold c; lia|].
  change (zlen (concat (@nil bytes))) with 0 in Hrun. change (zlen (@nil bytes)) with 0 in Hrun. rewrite Hrun.
  cbn [map]. destruct (take_parts_spec mids bs pre (b :: bs') begin e Hall Hm) as (l & Hl & Hbytes & Hok).
  exists l. split; [exact Hl|]. split; [|done]. rewrite Hbytes. unfold c. rewrite Hall, concat_app.
  rewrite zslice_app_r by done. f_equal; lia.
Qed.

(** A byte range of a version is mapped onto its parts without gap,
    overlap or disorder: every range it yields lies inside its part and
    names that part's message, and the named bytes in order are exactly the
    requested ones ([last] negative or past the end means the end); a range
    that begins outside the file, or after its end, is refused. *)
Theorem map_range_exact mids bs begin last :
  let c := concat bs in let e := last_byte last (zlen c) in
  zlen bs <= zlen mids -> 0 < zlen c ->
  if (0 <=? begin) && (begin <=? e)
  then exists l, map_range mids (map zlen bs) (zlen c) begin last = Ok l /\
    concat (map (range_bytes bs) l) = zslice begin (e + 1) c /\ Forall (range_ok mids bs) l
  else map_range mids (map zlen bs) (zlen c) begin last = Raise bad_range.
Proof.
  intros c e Hm Hc. destruct (0 <=? begin) eqn:Hb; [apply Z.leb_le in Hb|apply Z.leb_gt in Hb]; simpl.
  - destruct (begin <=? e) eqn:Hbe; [apply Z.leb_le in Hbe; by apply map_range_spec|].
    apply Z.leb_gt in Hbe. unfold map_range. rewrite (proj2 (Z.leb_gt _ _)) by done.
    fold (last_byte last (zlen c)). fold e.
    by rewrite (proj2 (Z.ltb_ge begin 0)), (proj2 (Z.ltb_lt e begin)) by lia.
  - unfold map_range. rewrite (proj2 (Z.leb_gt _ _)) by done. fold (last_byte last (zlen c)). fold e.
    by rewrite (proj2 (Z.ltb_lt begin 0)) by lia.
Qed.

(** ** Mapping with missing ids *)

Definition same_range (p q : part_range) : Prop :=
  pr_part p = pr_part q /\ pr_begin p = pr_begin q /\ pr_end p = pr_end q.

(** Too few ids can only make the mapping fail; they do not move ranges. *)
Lemma take_parts_ids mids mids' ps begin last off i l' :
  take_parts mids' ps begin last off i = Ok l' ->
  take_parts mids ps begin last off i = Raise IndexError \/
  exists l, take_parts mids ps begin last off i = Ok l /\ Forall2 same_range l l'.
Proof.
  revert off i l'. induction ps as [|p ps IH]; intros off i l'; cbn [take_parts].
  { intros <-%Ok_inj. right. exists []. done. }
  destruct (off <=? last); [|intros <-%Ok_inj; right; exists []; done].
  set (cond := Z.max 0 (begin - off) <=? Z.min (p - 1) (last - off)).
  destruct cond.
  - destruct (znth mids' i) as [mid'|]; cbn [rbind]; [|done].
    destruct (take_parts mids' ps begin last (off + p) (i + 1)) as [r'|] eqn:Hr'; cbn [rbind]; [|done].
    intros <-%Ok_inj. destruct (znth mids i) as [mid|]; cbn [rbind]; [|by left].
    destruct (IH _ _ _ Hr') as [-> | (r & -> & Hr)]; [by left|right].
    cbn [rbind]. eexists. split; [done|]. constructor; done.
  - cbn [rbind]. destruct (take_parts mids' ps begin last (off + p) (i + 1)) as [r'|] eqn:Hr';
      cbn [rbind]; [|done].
    intros <-%Ok_inj. destruct (IH _ _ _ Hr') as [-> | (r & -> & Hr)]; [by left|right].
    cbn [rbind]. eexists. split; [done|]. done.
Qed.

Lemma map_range_ids mids mids' ps size begin last l' :
  map_range mids' ps size begin last = Ok l' ->
  map_range mids ps size begin last = Raise IndexError \/
  exists l, map_range mids ps size begin last = Ok l /\ Forall2 same_range l l'.
Proof.
  unfold map_range. destruct (size <=? 0); [intros <-%Ok_inj; right; exists []; done|].
  destruct (begin <? 0); [done|]. destruct (_ <? begin); [done|].
  destruct (skip_parts ps begin 0 0) as [[rest off] i]. destruct rest; [done|].
  apply take_parts_ids.
Qed.

(** ** Failover *)

Section Failover.
  Context {W : Type} `{StoreLaws W} (cc : ContentConfig).

(** Nothing stored is lost and no store went down. *)
Definition kept (w w' : W) : Prop :=
  (forall k m b, holds w k m b -> holds w' k m b) /\ (forall k, up w k -> up w' k).

Lemma kept_refl w : kept w w.
Proof. by split. Qed.
Lemma kept_trans w1 w2 w3 : kept w1 w2 -> kept w2 w3 -> kept w1 w3.
Proof. intros [] []. split; auto. Qed.

(** A generator run that owes the caller [want]: all of it, or a strict
    prefix and an error. *)
Definition delivers (want : bytes) (l : Live W) (r : stream * Live W) : Prop :=
  kept (lv_world l) (lv_world r.2) /\
  match fault r.1 with
  | None => stream_bytes r.1 = want
  | Some x => is_Exception x = true /\ exists t, t <> [] /\ stream_bytes r.1 ++ t = want
  end.

(** What the caller sees of it. *)
Lemma delivers_iff want l r :
  delivers want l r ->
  (exists t, stream_bytes r.1 ++ t = want) /\ (fault r.1 = None <-> stream_bytes r.1 = want).
Proof.
  intros [_ Hf]. destruct (fault r.1) as [x|].
  - destruct Hf as (Hx & t & Ht & Hst). split; [eauto|]. split; [done|].
    intros Heq. rewrite Heq in Hst. rewrite <- (app_nil_r want) in Hst at 2.
    by apply app_inv_head in Hst.
  - split; [exists []; by rewrite app_nil_r|]. done.
Qed.

Definition part_held (w : W) (sources : list (string * Z)) (b : bytes) : Prop :=
  forall k m, (k, m) ∈ sources -> holds w k m b.

Definition has_up (w : W) (sources : list (string * Z)) : Prop :=
  exists k m, (k, m) ∈ sources /\ up w k.

Lemma note_failure_world store (l : Live W) : lv_world (note_failure cc store l) = lv_world l.
Proof. unfold note_failure. by destruct (_ && _). Qed.

Lemma delivers_more want l s l1 r :
  kept (lv_world l) (lv_world l1) -> delivers want l1 r ->
  delivers (stream_bytes s ++ want) l ({| pieces := pieces s ++ pieces r.1; fault := fault r.1 |}, r.2).
Proof.
  intros Hk [Hk' Hf]. split; [by eapply kept_trans|]. unfold stream_bytes in *. simpl.
  rewrite concat_app. destruct (fault r.1).
  - destruct Hf as (Hx & t & Ht & <-). split; [done|]. exists t. split; [done|]. by rewrite <- app_assoc.
  - by rewrite Hf.
Qed.

Lemma slice_rest (b : bytes) first n s t :
  0 <= first -> s ++ t = zslice first n b -> t <> [] ->
  0 <= zlen s < n - first /\ t = zslice (first + zlen s) n b.
Proof.
  intros Hf Hst Ht. apply zlen_pos in Ht. pose proof (zlen_nonneg s).
  assert (zlen (zslice first n b) <= Z.max 0 (n - first)) as Hz.
  { rewrite zslice_spec. unfold zlen, ztake. rewrite length_take. lia. }
  pose proof (f_equal zlen Hst) as Hl. rewrite zlen_app in Hl. split; [lia|].
  pose proof (f_equal (zdrop (zlen s)) Hst) as Hd. rewrite zdrop_app, zdrop_ge, zdrop_0 in Hd by lia.
  cbn [app] in Hd. rewrite Hd, !zslice_spec, zdrop_ztake, zdrop_zdrop by lia. f_equal. lia.
Qed.

Lemma download_sources_spec sources b begin last served last_ex (l : Live W) :
  part_held (lv_world l) sources b -> 0 <= begin + served -> begin + served <= last -> last < zlen b ->
  (forall x, last_ex = Some x -> is_Exception x = true) ->
  let r := download_sources cc sources begin last served last_ex l in
  delivers (zslice (begin + served) (last + 1) b) l r /\
  (has_up (lv_world l) sources -> fault r.1 = None).
Proof.
  revert served last_ex l. induction sources as [|[k m] rest IH];
    intros served last_ex l Hheld H1' H2' H3' Hex; cbn [download_sources].
  { split; [|intros (k & m & []%not_elem_of_nil & _)]. split; [apply kept_refl|]. simpl. split.
    - destruct last_ex as [x|]; simpl; [by apply Hex|done].
    - exists (zslice (begin + served) (last + 1) b). split; [|done].
      intros Hn%(f_equal zlen). rewrite zlen_zslice, zlen_nil in Hn by lia. lia. }
  assert (holds (lv_world l) k m b) as Hh by (apply Hheld; left).
  pose proof (download_law (lv_world l) k m b (begin + served) last Hh H1' H2' H3') as Hlaw.
  destruct (st_download k m (begin + served) last (lv_world l)) as [r w'].
  destruct Hlaw as (Hk1 & Hk2 & Hr).
  assert (kept (lv_world l) w') as Hk by by split.
  assert (forall l', lv_world l' = w' -> part_held (lv_world l') rest b) as Hheld'.
  { intros l' -> k' m' Hin. apply Hk1, Hheld. by right. }
  assert (~ up (lv_world l) k -> has_up (lv_world l) ((k, m) :: rest) ->
          forall l', lv_world l' = w' -> has_up (lv_world l') rest) as Hup.
  { intros Hn (k' & m' & Hin & Hu) l' ->. apply elem_of_cons in Hin as [[= -> ->]|Hin]; [done|].
    exists k', m'. split; [done|]. by apply Hk2. }
  set (l1 := note_failure cc k (set_world w' l)).
  assert (lv_world l1 = w') as Hl1 by by (unfold l1; rewrite note_failure_world).
  destruct r as [s|x].
  - destruct (fault s) as [x|] eqn:Hf.
    + destruct Hr as (Hx & Hnu & t & Ht & Hst). rewrite Hx.
      destruct (slice_rest b (begin + served) (last + 1) (stream_bytes s) t) as [Hs Htt]; [done..|].
      destruct (IH (served + zlen (stream_bytes s)) (Some x) l1) as [Hd Hu];
        [by apply Hheld'|lia|lia|done|by intros ? [= <-]|].
      destruct (download_sources cc rest begin last (served + zlen (stream_bytes s)) (Some x) l1)
        as [s' l2] eqn:Hrun.
      rewrite Z.add_assoc, <- Htt in Hd. split.
      * rewrite <- Hst. change s' with (s', l2).1. change l2 with (s', l2).2 at 2.
        eapply delivers_more; [|exact Hd]. by rewrite Hl1.
      * intros Hup'. apply Hu. by apply Hup.
    + split; [|done]. split; [done|]. simpl. by rewrite Hf.
  - destruct Hr as [Hx Hnu]. rewrite Hx.
    destruct (IH served (Some x) l1) as [[Hk' Hd] Hu]; [by apply Hheld'|done..|by intros ? [= <-]|].
    split; [split; [|done]|intros Hup'; apply Hu; by apply Hup].
    eapply kept_trans; [|exact Hk']. by rewrite Hl1.
Qed.

Lemma chain_spec (gens : list (gen W)) wants (l : Live W) :
  Forall2 (fun g want => forall l', kept (lv_world l) (lv_world l') -> delivers want l' (g l')) gens wants ->
  delivers (concat wants) l (chain gens l) /\
  (Forall (fun g : gen W => forall l', kept (lv_world l) (lv_world l') -> fault (g l').1 = None) gens ->
   fault (chain gens l).1 = None).
Proof.
  intros Hg. revert l Hg. generalize dependent wants.
  induction gens as [|g gens IH]; intros wants l Hg; inversion Hg as [|? want ? wants' Hd Hrest]; subst.
  { split; [|done]. split; [apply kept_refl|done]. }
  cbn [chain concat]. specialize (Hd l (kept_refl _)) as Hl. destruct (g l) as [s l1] eqn:Hgl.
  destruct Hl as [Hk Hf]. simpl in Hk, Hf.
  assert (forall l', kept (lv_world l1) (lv_world l') -> kept (lv_world l) (lv_world l')) as Htr
    by (intros l' ?; by eapply kept_trans).
  destruct (fault s) as [x|] eqn:Hfs.
  - split.
    + split; [done|]. simpl. rewrite Hfs. destruct Hf as (Hx & t & Ht & Hst). split; [done|].
      exists (t ++ concat wants'). split; [by destruct t|]. by rewrite app_assoc, Hst.
    + intros Hall. apply Forall_cons in Hall as [Hall _].
      specialize (Hall l (kept_refl _)). rewrite Hgl in Hall. simpl in Hall. congruence.
  - destruct (IH wants' l1) as [Hd' Hn'].
    { eapply Forall2_impl; [exact Hrest|]. simpl. auto. }
    destruct (chain gens l1) as [s' l2] eqn:Hrun. rewrite <- Hf. split.
    + change s' with (s', l2).1. change l2 with (s', l2).2 at 2. by eapply delivers_more.
    + intros Hall. apply Forall_cons in Hall as [_ Hall]. simpl. apply Hn'.
      eapply Forall_impl; [exact Hall|]. simpl. auto.
Qed.

(** A layout of the content [c]: its parts are the pieces of [c], and every
    candidate of a part holds that piece. *)
Definition layout_ok (w : W) (c : bytes) (ly : Layout) : Prop :=
  exists bs, ly_part_sizes ly = map zlen bs /\ c = concat bs /\
    Forall2 (part_held w) (ly_candidates ly) bs.

(** Every part of the layout has a source that is up. *)
Definition layout_up (w : W) (ly : Layout) : Prop := Forall (has_up w) (ly_candidates ly).

Lemma layout_ok_kept w w' c ly : kept w w' -> layout_ok w c ly -> layout_ok w' c ly.
Proof.
  intros [Hk _] (bs & Hp & Hc & Hh). exists bs. split; [done|]. split; [done|].
  eapply Forall2_impl; [exact Hh|]. intros srcs b Hb k m Hin. by apply Hk, Hb.
Qed.

Lemma layout_up_kept w w' ly : kept w w' -> layout_up w ly -> layout_up w' ly.
Proof.
  intros [_ Hk] Hu. eapply Forall_impl; [exact Hu|]. intros srcs (k & m & Hin & Hup).
  exists k, m. auto.
Qed.

Lemma first_ids_full (w : W) ly : layout_up w ly -> zlen (first_ids ly) = zlen (ly_candidates ly).
Proof.
  unfold layout_up, first_ids. induction 1 as [|srcs cands Hs _ IH]; [done|].
  destruct Hs as (k & m & Hin & _). simpl. rewrite zlen_app, IH, zlen_cons.
  destruct srcs as [|km srcs]; [by apply not_elem_of_nil in Hin|]. done.
Qed.

Lemma download_part_spec ly bs p mids (l : Live W) :
  Forall2 (part_held (lv_world l)) (ly_candidates ly) bs -> range_ok mids bs p ->
  let r := download_part cc ly (pr_part p) (pr_begin p) (pr_end p) l in
  delivers (range_bytes bs p) l r /\ (layout_up (lv_world l) ly -> fault r.1 = None).
Proof.
  intros Hh (b & Hb & _ & Hr1 & Hr2). unfold download_part, range_bytes. rewrite Hb. simpl.
  apply znth_lookup in Hb as [Hi Hb].
  destruct (Forall2_lookup_r _ _ _ _ _ Hh Hb) as (srcs & Hs & Hheld).
  rewrite (proj2 (znth_lookup _ _ srcs) (conj Hi Hs)).
  destruct (download_sources_spec srcs b (pr_begin p) (pr_end p) 0 None l) as [Hd Hu];
    rewrite ?Z.add_0_r; [done|lia..|done|].
  rewrite Z.add_0_r in Hd. split; [done|]. intros Hup. apply Hu.
  by eapply Forall_lookup_1 in Hup.
Qed.

Lemma stream_layout_spec ly c begin last (l : Live W) :
  let e := last_byte last (zlen c) in
  layout_ok (lv_world l) c ly -> 0 <= begin <= e -> 0 < zlen c ->
  let r := stream_layout cc ly begin last l in
  delivers (zslice begin (e + 1) c) l r /\ (layout_up (lv_world l) ly -> fault r.1 = None).
Proof.
  intros e Hok Hb Hc. pose proof Hok as (bs & Hps & Hcb & Hh).
  set (ids := replicate (length bs) 0).
  destruct (map_range_spec ids bs begin last) as (l' & Hrun' & Hbytes & Hro).
  { unfold ids, zlen. rewrite length_replicate. lia. }
  { rewrite <- Hcb. done. }
  { rewrite <- Hcb. done. }
  rewrite <- Hcb in Hbytes, Hrun'. fold e in Hbytes. unfold stream_layout, layout_size.
  rewrite Hps, zsum_map_zlen, <- Hcb.
  assert (zlen (zslice begin (e + 1) c) = e + 1 - begin) as Hz.
  { apply zlen_zslice; [lia|lia|]. unfold e, last_byte.
    destruct (last <? 0) eqn:?, (zlen c <=? last) eqn:?; simpl; lia. }
  destruct (map_range_ids (first_ids ly) ids _ _ _ _ _ Hrun') as [Hie|(ps & Hrun & Hsame)].
  - rewrite Hie. split.
    + split; [apply kept_refl|]. simpl. split; [done|]. exists (zslice begin (e + 1) c). split; [|done].
      intros Hn. rewrite Hn, zlen_nil in Hz. lia.
    + intros Hup. exfalso.
      destruct (map_range_spec (first_ids ly) bs begin last) as (l2 & Hrun2 & _).
      { rewrite (first_ids_full _ _ Hup). unfold zlen. rewrite (Forall2_length _ _ _ Hh). lia. }
      { rewrite <- Hcb. done. }
      { rewrite <- Hcb. done. }
      rewrite <- Hcb, Hie in Hrun2. done.
  - rewrite Hrun.
    assert (Forall (fun p => exists q, same_range p q /\ range_ok ids bs q) ps) as Hps'.
    { clear -Hsame Hro. induction Hsame as [|p q ps qs Hpq _ IH]; [constructor|].
      apply Forall_cons in Hro as [Hq Hro]. constructor; [eauto|by apply IH]. }
    assert (map (range_bytes bs) ps = map (range_bytes bs) l') as Hsb.
    { clear -Hsame. induction Hsame as [|p q ps qs (H1 & H2 & H3) _ IH]; [done|]. simpl.
      f_equal; [|done]. unfold range_bytes. by rewrite H1, H2, H3. }
    assert (forall p l2, p ∈ ps -> kept (lv_world l) (lv_world l2) ->
              let r := download_part cc ly (pr_part p) (pr_begin p) (pr_end p) l2 in
              delivers (range_bytes bs p) l2 r /\ (layout_up (lv_world l2) ly -> fault r.1 = None)) as Hpart.
    { intros p l2 Hp Hk. rewrite List.Forall_forall in Hps'.
      destruct (Hps' p) as (q & (E1 & E2 & E3) & Hq); [by apply list_elem_of_In|].
      unfold range_bytes. rewrite E1, E2, E3. eapply download_part_spec; [|exact Hq].
      eapply Forall2_impl; [exact Hh|]. intros srcs b Hs k m Hin. by apply Hk, Hs. }
    destruct (chain_spec (map (fun p => download_part cc ly (pr_part p) (pr_begin p) (pr_end p)) ps)
                (map (range_bytes bs) ps) l) as [Hd Hn].
    { clear -Hpart. induction ps as [|p ps IH]; [constructor|]. simpl. constructor.
      - intros l2 Hk. apply (Hpart p l2); [left|done].
      - apply IH. intros q l2 Hq. apply Hpart. by right. }
    rewrite Hsb, Hbytes in Hd. split; [done|]. intros Hup. apply Hn.
    apply List.Forall_forall. intros g Hg. apply in_map_iff in Hg as (p & <- & Hp).
    intros l2 Hk. apply (Hpart p l2); [by apply list_elem_of_In|done|]. by eapply layout_up_kept.
Qed.

Lemma failover_spec ls c begin last served last_ex (l : Live W) :
  let e := last_byte last (zlen c) in
  Forall (layout_ok (lv_world l) c) ls -> 0 <= begin -> 0 <= served -> begin + served <= e -> 0 < zlen c ->
  (forall x, last_ex = Some x -> is_Exception x = true) -> (ls = [] -> is_Some last_ex) ->
  let r := failover cc ls begin last served last_ex l in
  delivers (zslice (begin + served) (e + 1) c) l r /\
  (Exists (layout_up (lv_world l)) ls -> fault r.1 = None).
Proof.
  intros e. revert served last_ex l.
  assert (e < zlen c \/ zlen c <= 0) as He.
  { unfold e, last_byte. destruct (last <? 0) eqn:?, (zlen c <=? last) eqn:?; simpl; lia. }
  induction ls as [|ly ls IH]; intros served last_ex l Hok H1' H2' H3' Hc Hex Hnil; cbn [failover].
  { split; [|by inversion 1]. destruct (Hnil eq_refl) as [x ->]. split; [apply kept_refl|]. simpl.
    split; [by apply Hex|]. exists (zslice (begin + served) (e + 1) c). split; [|done].
    intros Hn%(f_equal zlen). rewrite zlen_zslice, zlen_nil in Hn by lia. lia. }
  apply Forall_cons in Hok as [Hly Hok].
  destruct (stream_layout_spec ly c (begin + served) last l Hly) as [Hd Hu]; [fold e; lia|done|].
  fold e in Hd. destruct (stream_layout cc ly (begin + served) last l) as [s l1].
  destruct Hd as [Hk Hf]. simpl in Hk, Hf, Hu. destruct (fault s) as [x|] eqn:Hfs.
  - destruct Hf as (Hx & t & Ht & Hst). rewrite Hx.
    destruct (slice_rest c (begin + served) (e + 1) (stream_bytes s) t) as [Hs Htt]; [lia|done|done|].
    destruct (IH (served + zlen (stream_bytes s)) (Some x) l1) as [Hd' Hu'];
      [|lia|lia|lia|done|by intros ? [= <-]|done|].
    { eapply Forall_impl; [exact Hok|]. intros ly'. by apply layout_ok_kept. }
    destruct (failover cc ls begin last (served + zlen (stream_bytes s)) (Some x) l1) as [s' l2] eqn:Hrun.
    rewrite Z.add_assoc, <- Htt in Hd'. split.
    + rewrite <- Hst. change s' with (s', l2).1. change l2 with (s', l2).2 at 2. by eapply delivers_more.
    + intros Hup. apply Hu'. inversion Hup as [? ? Hh|? ? Ht']; subst.
      * specialize (Hu Hh). congruence.
      * eapply Exists_impl; [exact Ht'|]. intros ly'. by apply layout_up_kept.
  - split; [|done]. split; [done|]. simpl. by rewrite Hfs.
Qed.

(** ** The layouts of a version *)

(** The stores hold what the metadata of [fv] says: the parts [bs] of the
    content [c] in the primary (if the version is its own) and in the aligned
    mirrors, and every replica in its own cut. *)
Record version_held (w : W) (fv : TGFSFileVersion) (c : bytes) (bs : list bytes) : Prop := {
  vh_content : concat bs = c;
  vh_parts : part_sizes fv = map zlen bs;
  vh_primary : owned_by (cc_store cc) fv = true -> forall i m b,
    message_ids fv !! i = Some m -> bs !! i = Some b -> 0 < m -> holds w (cc_store cc) m b;
  vh_mirrors : forall k ids i m b, (k, ids) ∈ mirrors fv ->
    ids !! i = Some m -> bs !! i = Some b -> 0 < m -> holds w k m b;
  vh_replicas : forall k r, (k, r) ∈ replicas fv -> zlen (r_part_sizes r) = zlen (r_message_ids r) ->
    exists bs', concat bs' = c /\ r_part_sizes r = map zlen bs' /\
      Forall2 (fun m b => holds w k m b) (r_message_ids r) bs'
}.

Lemma store_for_key group key k : store_for cc group key = Some k -> k = key.
Proof. unfold store_for. case_decide; [by intros [= <-]|]. case_bool_decide; [by intros [= <-]|done]. Qed.

Lemma part_sources_elem fv dead i mid k m :
  (k, m) ∈ part_sources cc fv dead i mid ->
  0 < m /\ ((k = cc_store cc /\ owned_by (cc_store cc) fv = true /\ m = mid) \/
            exists ids, (k, ids) ∈ mirrors fv /\ ids !! i = Some m).
Proof.
  unfold part_sources. rewrite (sort_by_perm _ _).
  set (own := if owned_by (cc_store cc) fv && (0 <? mid) then [(cc_store cc, mid)] else []).
  assert ((k, m) ∈ own -> 0 < m /\ k = cc_store cc /\ owned_by (cc_store cc) fv = true /\ m = mid) as Hown.
  { unfold own. destruct (owned_by (cc_store cc) fv); simpl; [|by intros ?%not_elem_of_nil].
    destruct (0 <? mid) eqn:Hm; [|by intros ?%not_elem_of_nil]. apply Z.ltb_lt in Hm.
    by intros [= -> ->]%list_elem_of_singleton. }
  destruct (cc_group cc) as [group|]; [|intros Hin; destruct (Hown Hin) as (? & ? & ? & ?); auto].
  set (mirr := concat _).
  assert ((k, m) ∈ mirr -> 0 < m /\ exists ids, (k, ids) ∈ mirrors fv /\ ids !! i = Some m) as Hmirr.
  { unfold mirr. rewrite list_elem_of_In, in_concat. intros (x & Hx & Hkm).
    apply in_map_iff in Hx as ([key ids] & <- & Hin). simpl in Hkm.
    destruct (store_for cc group key) as [k'|] eqn:Hs; [|done]. apply store_for_key in Hs as ->.
    destruct (ids !! i) as [m'|] eqn:Hi; [|done]. destruct (0 <? m') eqn:Hp; [|done].
    apply Z.ltb_lt in Hp. destruct Hkm as [[= -> ->]|[]]. split; [done|]. exists ids.
    split; [by apply list_elem_of_In|done]. }
  assert ((k, m) ∈ own ++ mirr -> 0 < m /\
    ((k = cc_store cc /\ owned_by (cc_store cc) fv = true /\ m = mid) \/
     exists ids, (k, ids) ∈ mirrors fv /\ ids !! i = Some m)) as Hall.
  { intros [Hin|Hin]%elem_of_app; [destruct (Hown Hin) as (? & ? & ? & ?); auto|].
    destruct (Hmirr Hin); auto. }
  destruct (dead && (1 <? zlen (own ++ mirr))); [|done].
  intros Hin. apply Hall. rewrite <- (ztake_zdrop 1 (own ++ mirr)).
  rewrite elem_of_app in Hin |- *. tauto.
Qed.

Lemma layouts_ok w fv dead c bs :
  version_held w fv c bs -> Forall (layout_ok w c) (layouts cc fv dead).
Proof.
  intros Hv. unfold layouts. rewrite (sort_by_perm _ _). apply Forall_app. split.
  - destruct (nonempty (message_ids fv) && _) eqn:Hc; [|constructor].
    apply andb_prop in Hc as [_ Hlen%Z.eqb_eq]. constructor; [|constructor].
    exists bs. simpl. split; [apply Hv|]. split; [by rewrite (vh_content _ _ _ _ Hv)|].
    rewrite (vh_parts _ _ _ _ Hv) in Hlen. unfold zlen in Hlen. rewrite length_map in Hlen.
    apply Forall2_same_length_lookup. split; [rewrite length_imap; lia|].
    intros i srcs b Hs Hb k m Hin. rewrite list_lookup_imap in Hs.
    destruct (message_ids fv !! i) as [mid|] eqn:Hm; [|done]. simpl in Hs. injection Hs as <-.
    apply part_sources_elem in Hin as [Hpos [(-> & Ho & ->)|(ids & Hids & Hi)]].
    + by eapply (vh_primary _ _ _ _ Hv).
    + by eapply (vh_mirrors _ _ _ _ Hv).
  - unfold replica_layouts. destruct (cc_group cc) as [group|]; [|constructor].
    apply List.Forall_forall. intros ly Hly. apply in_concat in Hly as (x & Hx & Hly).
    apply in_map_iff in Hx as ([key r] & <- & Hin%list_elem_of_In). simpl in Hly.
    destruct (store_for cc group key) as [k|] eqn:Hs; [|done]. apply store_for_key in Hs as ->.
    destruct (negb (nonempty (r_message_ids r))) eqn:Hn; [done|].
    destruct (zlen (r_part_sizes r) =? zlen (r_message_ids r)) eqn:Hl; [|done]. simpl in Hly.
    apply Z.eqb_eq in Hl. destruct Hly as [<-|[]].
    destruct (vh_replicas _ _ _ _ Hv key r Hin Hl) as (bs' & Hc' & Hp' & Hh).
    exists bs'. simpl. split; [done|]. split; [done|].
    clear -Hh. induction Hh as [|m b ms bs Hb _ IH]; [constructor|]. simpl. constructor; [|done].
    by intros k m' [= -> ->]%list_elem_of_singleton.
Qed.

(** Reading a range over several layouts, whatever sources fail and when:
    the caller receives a prefix of the requested bytes, all of them exactly
    when the stream ends without an error, and the stream does end without
    an error as soon as one layout has, for each of its parts, a source that
    is up.  No failover repeats or skips a byte. *)
Theorem read_failover ls c begin last (l : Live W) :
  let e := last_byte last (zlen c) in
  Forall (layout_ok (lv_world l) c) ls -> ls <> [] -> 0 <= begin <= e -> 0 < zlen c ->
  let '(s, _) := failover cc ls begin last 0 None l in
  (exists t, stream_bytes s ++ t = zslice begin (e + 1) c) /\
  (fault s = None <-> stream_bytes s = zslice begin (e + 1) c) /\
  (Exists (layout_up (lv_world l)) ls -> fault s = None).
Proof.
  intros e Hok Hne Hb Hc.
  destruct (failover_spec ls c begin last 0 None l) as [Hd Hu]; [done|lia..|done|done|done|].
  fold e in Hd. rewrite Z.add_0_r in Hd. destruct (failover cc ls begin last 0 None l) as [s l'].
  simpl in Hd, Hu. destruct (delivers_iff _ _ _ Hd). done.
Qed.

(** The read of a range, and what it leaves behind. *)
Lemma get_uncached_spec multi fv c bs begin last (l : Live W) :
  let e := last_byte last (zlen c) in
  cc_read_parallel cc = false -> pending fv = false ->
  version_held (lv_world l) fv c bs -> layouts cc fv (primary_dead l) <> [] ->
  0 <= begin <= e -> 0 < zlen c ->
  exists s l', get_uncached cc multi fv begin last l = (Ok s, l') /\
    kept (lv_world l) (lv_world l') /\
    (exists t, stream_bytes s ++ t = zslice begin (e + 1) c) /\
    (fault s = None <-> stream_bytes s = zslice begin (e + 1) c) /\
    (Exists (layout_up (lv_world l)) (layouts cc fv (primary_dead l)) -> fault s = None).
Proof.
  intros e Hpar Hpen Hv Hne Hb Hc. pose proof (layouts_ok _ _ (primary_dead l) _ _ Hv) as Hok.
  unfold get_uncached. rewrite Hpen.
  destruct (layouts cc fv (primary_dead l)) as [|ly rest]; [done|].
  pose proof Hok as Hok'. apply Forall_cons in Hok' as [(bs0 & Hp0 & Hc0 & _) _].
  destruct (map_range_spec (replicate (length (ly_part_sizes ly)) 0) bs0 begin last) as (ps & Hrun & _);
    rewrite <- ?Hc0; [|done|done|].
  { unfold zlen. rewrite length_replicate, Hp0, length_map. lia. }
  unfold layout_size. rewrite Hp0 in Hrun |- *. rewrite zsum_map_zlen, Hrun. unfold stream_layouts. rewrite Hpar. cbn [andb].
  destruct (failover_spec (ly :: rest) c begin last 0 None l) as [Hd Hu]; [done|lia..|done|done|done|].
  fold e in Hd. rewrite Z.add_0_r in Hd.
  destruct (failover cc (ly :: rest) begin last 0 None l) as [s l'].
  exists s, l'. split; [done|]. simpl in Hd, Hu. split; [apply Hd|]. destruct (delivers_iff _ _ _ Hd). done.
Qed.

(** C2: [get] (no local cache, one store at a time) of a range of a version
    whose messages hold its content delivers the requested bytes in the sense
    above: a prefix, complete exactly when no error ends the stream, and
    without error if some layout has a source up for every part. *)
Theorem get_delivers multi fv c bs begin last (l : Live W) :
  let e := last_byte last (zlen c) in
  cc_read_parallel cc = false -> pending fv = false ->
  version_held (lv_world l) fv c bs -> layouts cc fv (primary_dead l) <> [] ->
  0 <= begin <= e -> 0 < zlen c ->
  exists s l', get_uncached cc multi fv begin last l = (Ok s, l') /\
    (exists t, stream_bytes s ++ t = zslice begin (e + 1) c) /\
    (fault s = None <-> stream_bytes s = zslice begin (e + 1) c) /\
    (Exists (layout_up (lv_world l)) (layouts cc fv (primary_dead l)) -> fault s = None).
Proof.
  intros e Hpar Hpen Hv Hne Hb Hc.
  destruct (get_uncached_spec multi fv c bs begin last l) as (s & l' & Hs & _ & Hrest); [done..|]. by exists s, l'.
Qed.

End Failover.

(** ** Witnesses: two parts, the primary failing after a byte *)

Definition demo_parts : list bytes := [[x61; x62; x63]; [x64; x65]].

Definition demo_world : MemWorld :=
  {| mw_docs := [("tg:1", 11, [x61; x62; x63]); ("tg:1", 12, [x64; x65]);
                 ("dc:2", 21, [x61; x62; x63]); ("dc:2", 22, [x64; x65])];
     mw_down := ["tg:1"]; mw_texts := []; mw_next := 100; mw_clock := 5 |}.

Definition demo_config : ContentConfig :=
  {| cc_store := "tg:1"; cc_group := Some ["dc:2"]; cc_read_preference := [];
     cc_read_parallel := false; cc_read_sources := []; cc_piece_size := 4;
     cc_parallel_threshold := 10; cc_read_window := 8 |}.

Definition demo_mirrored : TGFSFileVersion :=
  {| fv_id := "v"; updated_at := fromtimestamp_ms 1; fv_size_field := 5; message_ids := [11; 12];
     part_sizes := [3; 2]; mirrors := [("dc:2", [21; 22])]; replicas := []; store := Some "tg:1";
     pending := false; cacheable := true; recorded_size := 5 |}.

Definition demo_live : Live MemWorld := {| lv_world := demo_world; lv_dead_until := 0 |}.

Lemma demo_held : version_held demo_config demo_world demo_mirrored (concat demo_parts) demo_parts.
Proof.
  split; [done|done| | |by intros k r ?%not_elem_of_nil].
  - intros _ [|[|i]] m b; simpl; [intros [= <-] [= <-] _; done..|done].
  - intros k ids [|[|i]] m b Hin; apply list_elem_of_singleton in Hin as [= -> ->]; simpl;
      [intros [= <-] [= <-] _; done..|done].
Qed.

Lemma map_range_exact_witness :
  exists l, map_range [11; 12] [3; 2] 5 2 3 = Ok l /\
    concat (map (range_bytes demo_parts) l) = [x63; x64].
Proof.
  pose proof (map_range_exact [11; 12] demo_parts 2 3 ltac:(vm_compute; done) ltac:(vm_compute; done)) as H.
  simpl in H. destruct H as (l & H1 & H2 & _). exists l. split; [exact H1|]. rewrite H2. reflexivity.
Defined.

Lemma demo_layout_up :
  Exists (layout_up demo_world) (layouts demo_config demo_mirrored false).
Proof.
  left. repeat constructor.
  - exists "dc:2", 21. split; [vm_compute; right; left|]. simpl.
    by intros ?%list_elem_of_singleton.
  - exists "dc:2", 22. split; [vm_compute; right; left|]. simpl.
    by intros ?%list_elem_of_singleton.
Qed.

Lemma read_failover_witness :
  let '(s, _) := failover demo_config (layouts demo_config demo_mirrored false) 0 (-1) 0 None demo_live in
  fault s = None.
Proof.
  pose proof (read_failover demo_config (layouts demo_config demo_mirrored false)
                (concat demo_parts) 0 (-1) demo_live
                (layouts_ok _ _ _ _ _ _ demo_held)) as Hr.
  destruct (failover demo_config (layouts demo_config demo_mirrored false) 0 (-1) 0 None demo_live) as [s l'].
  apply Hr; [done|by vm_compute|done|apply demo_layout_up].
Defined.

Lemma get_delivers_witness :
  exists s l', get_uncached demo_config (fun _ _ _ _ l => (empty_stream, l)) demo_mirrored 1 3 demo_live =
    (Ok s, l') /\ stream_bytes s = [x62; x63; x64].
Proof.
  destruct (get_delivers demo_config (fun _ _ _ _ l => (empty_stream, l)) demo_mirrored
              (concat demo_parts) demo_parts 1 3 demo_live) as (s & l' & H1 & _ & H2 & H3);
    [done|done|apply demo_held|done|by vm_compute|done|].
  exists s, l'. split; [exact H1|]. rewrite (proj1 H2); [reflexivity|]. apply H3, demo_layout_up.
Defined.
