(* ===== verification/ChunkCache.v ===== *)
(** * The block cache ([tgdcfs/utils/chunk_cache.py])

    Blocks of message content under a byte budget, dropped least recently used
    first.  The [OrderedDict] is the list of its entries, oldest first. *)

From S2P Require Import Prelude Errors.

Open Scope Z_scope.
Open Scope py_scope.

(** Channel, message, block index. *)
Definition BlockKey : Type := Z * Z * Z.

#[export] Instance BlockKey_eq_dec : EqDecision BlockKey.
Proof. solve_decision. Defined.

Record ChunkCache := {
  cc_budget : Z;
  cc_blocks : dict BlockKey bytes;
  cc_size : Z;
  cc_hits : Z;
  cc_misses : Z
}.

Definition chunk_cache (budget_bytes : Z) : ChunkCache :=
  {| cc_budget := Z.max 0 budget_bytes; cc_blocks := []; cc_size := 0; cc_hits := 0; cc_misses := 0 |}.

Definition enabled (c : ChunkCache) : bool := 0 <? cc_budget c.

Definition set_blocks (blocks : dict BlockKey bytes) (size : Z) (c : ChunkCache) : ChunkCache :=
  {| cc_budget := cc_budget c; cc_blocks := blocks; cc_size := size; cc_hits := cc_hits c; cc_misses := cc_misses c |}.

(** [OrderedDict.move_to_end]. *)
Definition move_to_end (key : BlockKey) (block : bytes) (blocks : dict BlockKey bytes) : dict BlockKey bytes :=
  Dict.del key blocks ++ [(key, block)].

Definition cache_get (key : BlockKey) (c : ChunkCache) : option bytes * ChunkCache :=
  if negb (enabled c) then (None, c)
  else match Dict.get key (cc_blocks c) with
       | None => (None, {| cc_budget := cc_budget c; cc_blocks := cc_blocks c; cc_size := cc_size c;
                           cc_hits := cc_hits c; cc_misses := cc_misses c + 1 |})
       | Some block => (Some block, {| cc_budget := cc_budget c; cc_blocks := move_to_end key block (cc_blocks c);
                                       cc_size := cc_size c; cc_hits := cc_hits c + 1; cc_misses := cc_misses c |})
       end.

Definition cache_contains (key : BlockKey) (c : ChunkCache) : bool := enabled c && Dict.mem key (cc_blocks c).

(** [while self._size > self._budget: ... popitem(last=False)]. *)
Fixpoint evict_oldest (budget : Z) (blocks : dict BlockKey bytes) (size : Z) : exc (dict BlockKey bytes * Z) :=
  if budget <? size then
    match blocks with
    | [] => Raise KeyError
    | (_, evicted) :: blocks => evict_oldest budget blocks (size - zlen evicted)
    end
  else Ok (blocks, size).

Definition cache_put (key : BlockKey) (block : bytes) (c : ChunkCache) : exc ChunkCache :=
  if negb (enabled c) || negb (nonempty block) then Ok c
  else if cc_budget c <? zlen block then Ok c
  else
    let size := match Dict.get key (cc_blocks c) with Some old => cc_size c - zlen old | None => cc_size c end in
    let blocks := Dict.del key (cc_blocks c) ++ [(key, block)] in
    let* bs := evict_oldest (cc_budget c) blocks (size + zlen block) in
    Ok (set_blocks bs.1 bs.2 c).

Definition of_message (channel message_id : Z) (key : BlockKey) : bool :=
  let '(ch, mid, _) := key in (ch =? channel) && (mid =? message_id).

Fixpoint drop_keys (keys : list BlockKey) (blocks : dict BlockKey bytes) (size : Z) : dict BlockKey bytes * Z :=
  match keys with
  | [] => (blocks, size)
  | key :: keys => drop_keys keys (Dict.del key blocks) (size - zlen (default [] (Dict.get key blocks)))
  end.

Definition cache_invalidate (channel message_id : Z) (c : ChunkCache) : ChunkCache :=
  if negb (enabled c) then c
  else
    let stale := List.filter (of_message channel message_id) (Dict.keys (cc_blocks c)) in
    let '(blocks, size) := drop_keys stale (cc_blocks c) (cc_size c) in
    set_blocks blocks size c.

Definition cache_clear (c : ChunkCache) : ChunkCache :=
  {| cc_budget := cc_budget c; cc_blocks := []; cc_size := 0; cc_hits := 0; cc_misses := 0 |}.

(** ** Blocks of a document *)

(** [range(start, stop)]. *)
Definition block_range (begin last block_size : Z) : Z * Z := (begin / block_size, last / block_size + 1).
Definition block_bounds (index block_size total_size : Z) : Z * Z :=
  (index * block_size, Z.min (index * block_size + block_size) total_size - 1).
Definition block_length (index block_size total_size : Z) : Z :=
  let '(begin, last) := block_bounds index block_size total_size in Z.max 0 (last - begin + 1).

(** ** Sizes *)

Definition held (blocks : dict BlockKey bytes) : Z := zsum (map (fun kb => zlen kb.2) blocks).

(** The size counts what is held, within the budget; no block is empty. *)
Record cache_ok (c : ChunkCache) : Prop := {
  co_budget : 0 <= cc_budget c;
  co_wf : Dict.wf (cc_blocks c);
  co_size : cc_size c = held (cc_blocks c);
  co_bound : cc_size c <= cc_budget c;
  co_full : Forall (fun kb => kb.2 <> []) (cc_blocks c)
}.

Lemma held_app a b : held (a ++ b) = held a + held b.
Proof. unfold held. by rewrite map_app, zsum_app. Qed.

Lemma held_nonneg a : 0 <= held a.
Proof. apply zsum_nonneg, Forall_map, List.Forall_forall. intros kb _. apply zlen_nonneg. Qed.

Lemma del_notin key (blocks : dict BlockKey bytes) : key ∉ Dict.keys blocks -> Dict.del key blocks = blocks.
Proof.
  unfold Dict.del, Dict.keys. induction blocks as [|[k b] l IH]; [done|]. rewrite filter_cons. simpl. intros Hk.
  rewrite decide_True by (intros ->; apply Hk; left). f_equal. apply IH. intros Hin. apply Hk. by right.
Qed.

Lemma held_del key blocks :
  Dict.wf blocks -> held (Dict.del key blocks) = held blocks - zlen (default [] (Dict.get key blocks)).
Proof.
  unfold Dict.wf. induction blocks as [|[k b] l IH]; [done|]. simpl. intros [Hk Hwf]%NoDup_cons.
  unfold Dict.del. rewrite filter_cons. simpl. destruct (decide (key = k)) as [->|Hne].
  - rewrite decide_False by tauto. fold (Dict.del k l). rewrite del_notin by done. unfold held. simpl. lia.
  - rewrite decide_True by done. fold (Dict.del key l). unfold held in *. simpl. rewrite (IH Hwf). lia.
Qed.

Lemma keys_del_in key k (blocks : dict BlockKey bytes) : k ∈ Dict.keys (Dict.del key blocks) -> k <> key /\ k ∈ Dict.keys blocks.
Proof.
  unfold Dict.keys, Dict.del. rewrite !list_elem_of_fmap. intros (kb & -> & [Hne Hin]%list_elem_of_filter).
  split; [congruence|]. by exists kb.
Qed.

Lemma wf_move key block blocks : Dict.wf blocks -> Dict.wf (move_to_end key block blocks).
Proof.
  intros Hwf. unfold Dict.wf, Dict.keys, move_to_end. rewrite map_app. apply NoDup_app. split; [by apply Dict.wf_del|].
  split; [|apply NoDup_singleton]. intros k Hk ->%list_elem_of_singleton. by apply keys_del_in in Hk as [? _].
Qed.

Lemma wf_tail kb (blocks : dict BlockKey bytes) : Dict.wf (kb :: blocks) -> Dict.wf blocks.
Proof. unfold Dict.wf. simpl. by intros [_ ?]%NoDup_cons. Qed.

Lemma full_del key (blocks : dict BlockKey bytes) :
  Forall (fun kb => kb.2 <> []) blocks -> Forall (fun kb => kb.2 <> []) (Dict.del key blocks).
Proof. unfold Dict.del. rewrite !List.Forall_forall. intros Hf kb [_ Hin]%list_elem_of_In%list_elem_of_filter. by apply Hf, list_elem_of_In. Qed.

(** Evicting stops, at the latest with one block left, and keeps a suffix. *)
Lemma evict_oldest_spec budget blocks size :
  0 <= budget -> size = held blocks ->
  exists old left, blocks = old ++ left /\ evict_oldest budget blocks size = Ok (left, held left) /\ held left <= budget /\
    (old = [] \/ exists kb, last old = Some kb /\ budget < held (kb :: left)).
Proof.
  intros Hb. revert size. induction blocks as [|[k b] l IH]; intros size ->.
  - exists [], []. simpl. rewrite (proj2 (Z.ltb_ge _ _)) by done. split; [done|]. split; [done|]. split; [done|by left].
  - simpl. destruct (Z.ltb_spec budget (held ((k, b) :: l))) as [Hlt|Hle].
    + assert (held ((k, b) :: l) = zlen b + held l) as Hh by done. rewrite Hh.
      destruct (IH (zlen b + held l - zlen b)) as (old & left & -> & He & Hl & Ho); [lia|].
      exists ((k, b) :: old), left. split; [done|]. split; [exact He|]. split; [done|]. right.
      destruct Ho as [-> | (kb & Hlast & Hkb)]; [by exists (k, b)|]. exists kb. split; [|done].
      destruct old; [done|]. exact Hlast.
    + exists [], ((k, b) :: l). split; [done|]. split; [done|]. split; [done|by left].
Qed.

(** ** What the operations keep *)

Lemma get_ok key c : cache_ok c -> cache_ok (cache_get key c).2.
Proof.
  intros Hc. unfold cache_get. destruct (negb (enabled c)); [done|]. destruct Hc as [Hb Hwf Hs Hbd Hf].
  destruct (Dict.get key (cc_blocks c)) as [b|] eqn:Hg; [|by constructor]. constructor; try done; simpl.
  - by apply wf_move.
  - unfold move_to_end. rewrite held_app, held_del, Hg by done. unfold held at 2. simpl. lia.
  - unfold move_to_end. apply Forall_app. split; [by apply full_del|]. constructor; [|done]. simpl.
    apply Dict.get_Some_In in Hg. rewrite List.Forall_forall in Hf. by apply (Hf (key, b)).
Qed.

Lemma chunk_put_spec key block c :
  cache_ok c -> exists c', cache_put key block c = Ok c' /\ cache_ok c' /\
    (c' = c \/ exists old left, Dict.del key (cc_blocks c) = old ++ left /\ cc_blocks c' = left ++ [(key, block)] /\
                               cc_budget c' = cc_budget c /\ enabled c = true /\ nonempty block = true).
Proof.
  intros Hc. pose proof Hc as [Hb Hwf Hs Hbd Hf]. unfold cache_put.
  destruct (negb (enabled c) || negb (nonempty block)) eqn:Hskip; [by exists c; split; [|split; [|left]]|].
  apply orb_false_iff in Hskip as [Hen%negb_false_iff Hne%negb_false_iff].
  destruct (Z.ltb_spec (cc_budget c) (zlen block)) as [Hbig|Hfit]; [by exists c; split; [|split; [|left]]|].
  destruct (evict_oldest_spec (cc_budget c) (Dict.del key (cc_blocks c) ++ [(key, block)])
    ((match Dict.get key (cc_blocks c) with Some old => cc_size c - zlen old | None => cc_size c end) + zlen block))
    as (old & left & Hspl & -> & Hl & Ho); [done| |].
  { rewrite held_app, held_del, Hs by done. unfold held at 4. simpl. destruct (Dict.get key (cc_blocks c)); simpl; rewrite ?zlen_nil; lia. }
  assert (exists left', left = left' ++ [(key, block)] /\ Dict.del key (cc_blocks c) = old ++ left') as (left' & -> & Hdel).
  { destruct left as [|x xs _] using rev_ind.
    - exfalso. rewrite app_nil_r in Hspl. destruct Ho as [-> | (kb & Hlast & Hkb)]; [by destruct (Dict.del key (cc_blocks c))|].
      rewrite <- Hspl in Hlast. rewrite last_app in Hlast. simpl in Hlast. injection Hlast as <-. unfold held in Hkb. simpl in Hkb. lia.
    - rewrite app_assoc in Hspl. apply app_inj_2 in Hspl as [Hd [= <-]]; [|done]. by exists xs. }
  cbn [rbind fst snd]. eexists. split; [done|]. split.
  - pose proof (wf_move key block (cc_blocks c) Hwf) as Hwf'. unfold move_to_end in Hwf'. rewrite Hspl in Hwf'.
    unfold Dict.wf, Dict.keys in Hwf'. rewrite map_app in Hwf'. apply NoDup_app in Hwf' as (_ & _ & Hwf').
    constructor; try done; simpl. assert (Forall (fun kb => kb.2 <> []) (old ++ left')) as [_ Hf']%Forall_app by (rewrite <- Hdel; by apply full_del).
    apply Forall_app. split; [done|]. constructor; [|done]. simpl. by destruct block.
  - right. exists old, left'. by split_and!.
Qed.

Lemma drop_keys_spec keys : forall blocks size,
  Dict.wf blocks -> size = held blocks -> Forall (fun kb => kb.2 <> []) blocks ->
  Dict.wf (drop_keys keys blocks size).1 /\ (drop_keys keys blocks size).2 = held (drop_keys keys blocks size).1 /\
  Forall (fun kb => kb.2 <> []) (drop_keys keys blocks size).1 /\ held (drop_keys keys blocks size).1 <= held blocks /\
  forall k, Dict.get k (drop_keys keys blocks size).1 = if decide (k ∈ keys) then None else Dict.get k blocks.
Proof.
  induction keys as [|key keys IH]; intros blocks size Hwf -> Hf; cbn [drop_keys fst snd].
  - split; [done|]. split; [done|]. split; [done|]. split; [lia|]. intros k. by rewrite decide_False by apply not_elem_of_nil.
  - destruct (IH (Dict.del key blocks) (held blocks - zlen (default [] (Dict.get key blocks)))) as (H1 & H2 & H3 & H4 & H5);
      [by apply Dict.wf_del|by rewrite held_del|by apply full_del|].
    split; [done|]. split; [done|]. split; [done|]. split.
    + rewrite held_del in H4 by done. pose proof (zlen_nonneg (default [] (Dict.get key blocks))). lia.
    + intros k. rewrite H5. destruct (decide (k ∈ keys)) as [Hin|Hnin]; [by rewrite decide_True by by right|].
      destruct (decide (k = key)) as [->|Hne]; [rewrite decide_True by left; apply Dict.get_del_eq|].
      rewrite Dict.get_del_ne by done. rewrite decide_False; [done|]. by intros [?|?]%elem_of_cons.
Qed.

Lemma invalidate_spec channel mid c :
  cache_ok c -> cache_ok (cache_invalidate channel mid c) /\
  forall k, Dict.get k (cc_blocks (cache_invalidate channel mid c)) =
    if enabled c && of_message channel mid k then None else Dict.get k (cc_blocks c).
Proof.
  intros Hc. unfold cache_invalidate. destruct (enabled c); simpl; [|by split].
  pose proof Hc as [Hb Hwf Hs Hbd Hf].
  destruct (drop_keys_spec (List.filter (of_message channel mid) (Dict.keys (cc_blocks c))) (cc_blocks c) (cc_size c) Hwf Hs Hf)
    as (H1 & H2 & H3 & H4 & H5).
  destruct (drop_keys _ _ _) as [blocks size] eqn:Hd. simpl in *. subst size. split; [constructor; simpl; (done || lia)|].
  intros k. rewrite H5. destruct (of_message channel mid k) eqn:Ho.
  - destruct (decide (k ∈ _)) as [|Hnin]; [done|]. destruct (Dict.get k (cc_blocks c)) eqn:Hg; [|done]. exfalso. apply Hnin.
    apply list_elem_of_In, filter_In. split; [|done]. apply list_elem_of_In, Dict.mem_In. unfold Dict.mem. by rewrite Hg.
  - rewrite decide_False; [done|]. rewrite list_elem_of_In, filter_In. intros [_ ?]. congruence.
Qed.

(** ** The message caches ([tgdcfs/utils/message_cache.py])

    An LRU dictionary of a fixed size, most recently used entry first (the
    [lru] package).  An entry may hold [None]; [get] does not tell it from a
    missing one.  A cache may forget, it does not lie ([mc_all]). *)

Section Cache.
  Context {K V : Type} `{EqDecision K}.

Record MessageCache := { mc_size : Z; mc_items : dict K (option V) }.

Definition message_cache (size : Z) : MessageCache := {| mc_size := size; mc_items := [] |}.

Definition set_size (size : Z) (c : MessageCache) : MessageCache := {| mc_size := size; mc_items := ztake size (mc_items c) |}.

Definition mc_get (k : K) (c : MessageCache) : option V * MessageCache :=
  match Dict.get k (mc_items c) with
  | None => (None, c)
  | Some v => (v, {| mc_size := mc_size c; mc_items := (k, v) :: Dict.del k (mc_items c) |})
  end.

Definition mc_set (k : K) (v : option V) (c : MessageCache) : MessageCache :=
  {| mc_size := mc_size c; mc_items := ztake (mc_size c) ((k, v) :: Dict.del k (mc_items c)) |}.

Definition mc_contains (k : K) (c : MessageCache) : bool := Dict.mem k (mc_items c).

Fixpoint mc_gets (ks : list K) (c : MessageCache) : list (option V) * MessageCache :=
  match ks with
  | [] => ([], c)
  | k :: ks => let '(v, c) := mc_get k c in let '(vs, c) := mc_gets ks c in (v :: vs, c)
  end.

Fixpoint find_nonexistent (ks : list K) (c : MessageCache) : list K * MessageCache :=
  match ks with
  | [] => ([], c)
  | k :: ks =>
      let '(v, c) := mc_get k c in
      let '(rest, c) := find_nonexistent ks c in
      (match v with Some _ => rest | None => k :: rest end, c)
  end.

(** Storing a batch of entries, one after another. *)
Definition mc_sets (kvs : list (K * V)) (c : MessageCache) : MessageCache :=
  foldl (fun c kv => mc_set kv.1 (Some kv.2) c) c kvs.

(** ** A cache whose entries are true *)

Definition mc_all (P : K -> V -> Prop) (c : MessageCache) : Prop := forall k v, (k, Some v) ∈ mc_items c -> P k v.

Lemma mc_all_weaken (P Q : K -> V -> Prop) c : (forall k v, P k v -> Q k v) -> mc_all P c -> mc_all Q c.
Proof. intros HPQ Hc k v Hin. by apply HPQ, Hc. Qed.

Lemma mc_all_new P size : mc_all P (message_cache size).
Proof. by intros k v ?%not_elem_of_nil. Qed.

Lemma del_elem k kv (d : dict K (option V)) : kv ∈ Dict.del k d -> kv ∈ d.
Proof. unfold Dict.del. by intros [_ ?]%list_elem_of_filter. Qed.

Lemma ztake_elem {A} n (x : A) l : x ∈ ztake n l -> x ∈ l.
Proof. unfold ztake. intros Hin. rewrite <- (take_drop (Z.to_nat n) l). apply elem_of_app. by left. Qed.

Lemma mc_get_spec P k c : mc_all P c ->
  (forall v, (mc_get k c).1 = Some v -> P k v) /\ mc_all P (mc_get k c).2.
Proof.
  intros Hc. unfold mc_get. destruct (Dict.get k (mc_items c)) as [v|] eqn:Hg; [|done]. apply Dict.get_Some_In in Hg as Hin.
  split; simpl.
  - intros w ->. by apply Hc, list_elem_of_In.
  - intros k' v' [[= -> <-]|H%del_elem]%elem_of_cons; [by apply Hc, list_elem_of_In|by apply Hc].
Qed.

Lemma mc_set_all P k v c : (forall x, v = Some x -> P k x) -> mc_all P c -> mc_all P (mc_set k v c).
Proof. intros Hv Hc k' v' [[= -> <-]|H%del_elem]%ztake_elem%elem_of_cons; [by apply Hv|by apply Hc]. Qed.

(** Storing [None] leaves no value. *)
Lemma mc_set_none_all k c : mc_all (fun k' _ => k' <> k) (mc_set k None c).
Proof.
  intros k' v [[=]|Hin]%ztake_elem%elem_of_cons ->. unfold Dict.del in Hin. by apply list_elem_of_filter in Hin as [? _].
Qed.

Lemma mc_sets_all P kvs : forall c, Forall (fun kv => P kv.1 kv.2) kvs -> mc_all P c -> mc_all P (mc_sets kvs c).
Proof.
  induction kvs as [|[k v] kvs IH]; intros c; [done|]. intros [Hp Hps]%Forall_cons Hc. simpl. apply IH; [done|].
  apply mc_set_all; [|done]. by intros x [= <-].
Qed.

Lemma mc_gets_spec P ks : forall c, mc_all P c ->
  Forall2 (fun k ov => forall v, ov = Some v -> P k v) ks (mc_gets ks c).1 /\ mc_all P (mc_gets ks c).2.
Proof.
  induction ks as [|k ks IH]; intros c Hc; cbn [mc_gets]; [done|]. destruct (mc_get_spec P k c Hc) as [Hv Hc1].
  destruct (mc_get k c) as [v c1]. destruct (IH c1 Hc1) as [Hvs Hc2]. destruct (mc_gets ks c1) as [vs c2]. simpl in *.
  split; [by constructor|done].
Qed.

Lemma find_nonexistent_spec P ks : forall c, mc_all P c ->
  mc_all P (find_nonexistent ks c).2 /\ forall k, k ∈ (find_nonexistent ks c).1 -> k ∈ ks.
Proof.
  induction ks as [|k ks IH]; intros c Hc; cbn [find_nonexistent]; [done|]. destruct (mc_get_spec P k c Hc) as [_ Hc1].
  destruct (mc_get k c) as [v c1]. destruct (IH c1 Hc1) as [Hc2 Hks]. destruct (find_nonexistent ks c1) as [rest c2]. simpl in *.
  split; [done|]. intros k'. destruct v; [intros ?; by right; apply Hks|].
  intros [->|?]%elem_of_cons; [by left|by right; apply Hks].
Qed.

(** ** What stays *)

(** Bounded, every key once. *)
Definition mc_ok (c : MessageCache) : Prop := 0 < mc_size c /\ Dict.wf (mc_items c) /\ zlen (mc_items c) <= mc_size c.

Lemma zlen_cache_del k (d : dict K (option V)) : zlen (Dict.del k d) <= zlen d.
Proof. unfold Dict.del, zlen. pose proof (length_filter (fun kv : K * option V => k <> kv.1) d). lia. Qed.

Lemma zlen_cache_del_in k v (d : dict K (option V)) : Dict.get k d = Some v -> zlen (Dict.del k d) < zlen d.
Proof.
  intros Hg%Dict.get_Some_In%list_elem_of_In. unfold Dict.del, zlen. apply Nat2Z.inj_lt.
  apply (length_filter_lt _ _ (k, v)); [done|]. simpl. tauto.
Qed.

Lemma wf_front k v (d : dict K (option V)) : Dict.wf d -> Dict.wf ((k, v) :: Dict.del k d).
Proof.
  intros Hwf. unfold Dict.wf, Dict.keys. simpl. apply NoDup_cons. split; [|by apply Dict.wf_del].
  intros Hin. apply (Dict.mem_In k (Dict.del k d)) in Hin. unfold Dict.mem in Hin. by rewrite Dict.get_del_eq in Hin.
Qed.

Lemma wf_ztake n (d : dict K (option V)) : Dict.wf d -> Dict.wf (ztake n d).
Proof.
  unfold Dict.wf, Dict.keys, ztake. intros Hwf. rewrite <- (take_drop (Z.to_nat n) d), map_app in Hwf.
  by apply NoDup_app in Hwf as [? _].
Qed.

Lemma mc_get_ok k c : mc_ok c -> mc_ok (mc_get k c).2.
Proof.
  intros (Hs & Hwf & Hl). unfold mc_get. destruct (Dict.get k (mc_items c)) as [v|] eqn:Hg; [|done]. split; [done|].
  split; simpl; [by apply wf_front|]. rewrite zlen_cons. pose proof (zlen_cache_del_in _ _ _ Hg). lia.
Qed.

Lemma mc_set_ok k v c : mc_ok c -> mc_ok (mc_set k v c).
Proof.
  intros (Hs & Hwf & Hl). split; [done|]. split; simpl; [by apply wf_ztake, wf_front|].
  rewrite zlen_ztake by lia. lia.
Qed.

Lemma mc_get_set k v c : mc_ok c -> (mc_get k (mc_set k v c)).1 = v.
Proof.
  intros (Hs & _ & _). unfold mc_get, mc_set, ztake. simpl. destruct (Z.to_nat (mc_size c)) as [|n] eqn:Hn; [lia|].
  simpl. by rewrite decide_True.
Qed.

End Cache.

#[global] Arguments MessageCache : clear implicits.
