(* ===== verification/Telethon.v ===== *)
(** * The Telegram client over Telethon
      ([tgdcfs/backends/telegram/impl/telethon.py] and [interface.py])

    [Telethon T] is the library, on a server [T]; the class has the calls the
    client makes.  The client keeps the process-wide caches in step with what
    it does: the messages of a channel ([channel_cache]) and the blocks of
    their documents ([chunk_cache]).  Several connections of one session are
    one client here, and every call runs alone. *)

From S2P Require Import Prelude Errors Messages ChunkCache.

Open Scope Z_scope.
Open Scope py_scope.

(** The clients of [TDLibApi]: the bots and, perhaps, a user account. *)
Inductive Client := Bot (i : nat) | Account.

Record Document := { doc_size : Z; doc_id : Z; doc_access_hash : Z; doc_file_reference : bytes }.

(** A message as the library returns it. *)
Inductive RawMedia := NoDocument | EmptyDocument | MediaDocument (d : Document).
Record RawMessage := { rm_id : Z; rm_message : option string; rm_media : RawMedia }.

(** [MessageResp]. *)
Record TgMessage := { tm_id : Z; tm_text : string; tm_document : option Document }.

Record UploadedFile := { uf_id : Z; uf_parts : Z; uf_name : string }.

Class Telethon (T : Type) := {
  lib_max_chunk_size : Z;                        (* telethon.client.downloads.MAX_CHUNK_SIZE *)
  lib_get_messages : Client -> Z -> list Z -> st exn T (list (option RawMessage));
  lib_iter_download : Client -> Document -> Z -> T -> stream * T;
  lib_send_message : Client -> Z -> string -> st exn T Z;
  lib_edit_text : Client -> Z -> Z -> string -> st exn T Z;
  lib_edit_file : Client -> Z -> Z -> UploadedFile -> st exn T Z;
  lib_forward_messages : Client -> Z -> Z -> list Z -> st exn T (list (option Z));
  lib_delete_messages : Client -> Z -> list Z -> st exn T unit;
  lib_save_part : Client -> Z -> Z -> option Z -> bytes -> st exn T bool;
  lib_send_file : Client -> Z -> UploadedFile -> bool -> st exn T (option Z);
  lib_random_long : T -> Z * T                   (* telethon.helpers.generate_random_long *)
}.

(** What one [TelegramStore] remembers: the overflow documents its text
    messages point to, their texts, and the read-ahead that is running. *)
Record StoreState := {
  ss_overflow_of : dict Z Z;
  ss_overflow_text : MessageCache Z string;
  ss_readahead : list (Z * Z * Z)
}.

(** The server, the caches of the process and the store. *)
Record Tg (T : Type) := {
  tg_server : T;
  tg_ids : dict Z (MessageCache Z TgMessage);
  tg_ids_size : Z;                               (* _id_cache_size *)
  tg_chunks : ChunkCache;
  tg_cycle : nat;                                (* how far [next_bot] is *)
  tg_store : StoreState
}.
Arguments tg_server {T}. Arguments tg_ids {T}. Arguments tg_ids_size {T}. Arguments tg_chunks {T}. Arguments tg_cycle {T}. Arguments tg_store {T}.

Definition transform_message (m : RawMessage) : TgMessage :=
  {| tm_id := rm_id m; tm_text := default EmptyString (rm_message m);
     tm_document := match rm_media m with MediaDocument d => Some d | _ => None end |}.

(** [exclude_none(self._transform_messages(fetched))]. *)
Definition transform_messages (l : list (option RawMessage)) : list TgMessage :=
  concat (map (fun m => match m with Some m => [transform_message m] | None => [] end) l).

Section Client.
  Context {T : Type} `{Telethon T}.

Definition DOWNLOAD_REQUEST_SIZE : Z := lib_max_chunk_size.

Definition set_server (t : T) (w : Tg T) : Tg T :=
  {| tg_server := t; tg_ids := tg_ids w; tg_ids_size := tg_ids_size w; tg_chunks := tg_chunks w; tg_cycle := tg_cycle w; tg_store := tg_store w |}.
Definition set_ids (ids : dict Z (MessageCache Z TgMessage)) (w : Tg T) : Tg T :=
  {| tg_server := tg_server w; tg_ids := ids; tg_ids_size := tg_ids_size w; tg_chunks := tg_chunks w; tg_cycle := tg_cycle w; tg_store := tg_store w |}.
Definition set_chunks (c : ChunkCache) (w : Tg T) : Tg T :=
  {| tg_server := tg_server w; tg_ids := tg_ids w; tg_ids_size := tg_ids_size w; tg_chunks := c; tg_cycle := tg_cycle w; tg_store := tg_store w |}.
Definition set_cycle (n : nat) (w : Tg T) : Tg T :=
  {| tg_server := tg_server w; tg_ids := tg_ids w; tg_ids_size := tg_ids_size w; tg_chunks := tg_chunks w; tg_cycle := n; tg_store := tg_store w |}.
Definition set_store (s : StoreState) (w : Tg T) : Tg T :=
  {| tg_server := tg_server w; tg_ids := tg_ids w; tg_ids_size := tg_ids_size w; tg_chunks := tg_chunks w; tg_cycle := tg_cycle w; tg_store := s |}.

(** A call of the library. *)
Definition call {A} (m : st exn T A) : st exn (Tg T) A :=
  fun w => let '(r, t) := m (tg_server w) in (r, set_server t w).

(** [channel_cache(chat).id]: the default dictionary makes a new one. *)
Definition channel_ids (chat : Z) (w : Tg T) : MessageCache Z TgMessage :=
  default (message_cache (tg_ids_size w)) (Dict.get chat (tg_ids w)).
Definition put_ids (chat : Z) (c : MessageCache Z TgMessage) (w : Tg T) : Tg T := set_ids (Dict.set chat c (tg_ids w)) w.

Definition set_message_cache_size (size : Z) : st exn (Tg T) unit := fun w =>
  if size <? 1 then (Raise ValueError, w)
  else (Ok tt, {| tg_server := tg_server w; tg_ids := map (fun kc => (kc.1, set_size size kc.2)) (tg_ids w); tg_ids_size := size;
                  tg_chunks := tg_chunks w; tg_cycle := tg_cycle w; tg_store := tg_store w |}).

(** [channel_cache(chat).id[message_id] = None], [chunk_cache().invalidate]. *)
Definition forget_message (chat message_id : Z) (w : Tg T) : Tg T :=
  let w := put_ids chat (mc_set message_id None (channel_ids chat w)) w in
  set_chunks (cache_invalidate chat message_id (tg_chunks w)) w.

Definition client_get_messages (c : Client) (chat : Z) (ids : list Z) : st exn (Tg T) (list (option TgMessage)) := fun w =>
  let '(missing, cache) := find_nonexistent ids (channel_ids chat w) in
  let w := put_ids chat cache w in
  match (if nonempty missing then
           (let! fetched := call (lib_get_messages c chat missing) in
            let! w := sget in
            sput (put_ids chat (mc_sets (map (fun m => (tm_id m, m)) (transform_messages fetched)) (channel_ids chat w)) w)) w
         else (Ok tt, w)) with
  | (Raise ex, w) => (Raise ex, w)
  | (Ok _, w) => let '(found, cache) := mc_gets ids (channel_ids chat w) in (Ok found, put_ids chat cache w)
  end.

Definition client_send_text (c : Client) (chat : Z) (text : string) : st exn (Tg T) Z := call (lib_send_message c chat text).

Definition client_edit_message_text (c : Client) (chat message_id : Z) (text : string) : st exn (Tg T) Z := fun w =>
  call (lib_edit_text c chat message_id text) (forget_message chat message_id w).

Definition client_edit_message_media (c : Client) (chat message_id : Z) (file : UploadedFile) : st exn (Tg T) Z := fun w =>
  call (lib_edit_file c chat message_id file) (forget_message chat message_id w).

Definition client_save_part (c : Client) (file_id part : Z) (total : option Z) (b : bytes) : st exn (Tg T) bool :=
  call (lib_save_part c file_id part total b).

Definition client_send_file (c : Client) (chat : Z) (file : UploadedFile) (big : bool) : st exn (Tg T) Z :=
  let! m := call (lib_send_file c chat file big) in
  match m with Some id => sret id | None => sraise (TechnicalError "Unexpected response type from send_file") end.

Definition client_forward_messages (c : Client) (from_chat to_chat : Z) (ids : list Z) : st exn (Tg T) (list Z) :=
  let! forwarded := call (lib_forward_messages c from_chat to_chat ids) in
  if negb (zlen forwarded =? zlen ids) || existsb (fun m => match m with None => true | Some _ => false end) forwarded
  then sraise (TechnicalError "Forwarding returned fewer messages")
  else sret (concat (map (fun m => match m with Some id => [id] | None => [] end) forwarded)).

Definition client_delete_messages (c : Client) (chat : Z) (ids : list Z) : st exn (Tg T) unit := fun w =>
  if negb (nonempty ids) then (Ok tt, w)
  else call (lib_delete_messages c chat ids) (foldl (fun w mid => forget_message chat mid w) w ids).

(** ** Downloads *)

Definition document_in (message_id : Z) (messages : list (option TgMessage)) : exc Document :=
  match messages with
  | Some m :: _ => match tm_document m with Some d => Ok d | None => Raise (UnDownloadableMessage message_id) end
  | _ => Raise (UnDownloadableMessage message_id)
  end.

Definition document_for (c : Client) (chat message_id : Z) (refresh : bool) : st exn (Tg T) Document := fun w =>
  let w := if refresh then put_ids chat (mc_set message_id None (channel_ids chat w)) w else w in
  (let! messages := client_get_messages c chat [message_id] in slift (document_in message_id messages)) w.

(** The chunks of one [iter_download]: the bytes before the wanted offset are
    skipped, those behind the range cut off; what is left to deliver. *)
Fixpoint take_chunks (skip rest : Z) (chunks : list bytes) : list bytes * Z :=
  match chunks with
  | [] => ([], rest)
  | chunk :: chunks =>
      if negb (skip =? 0) && (zlen chunk <=? skip) then take_chunks (skip - zlen chunk) rest chunks
      else
        let chunk := if skip =? 0 then chunk else zdrop skip chunk in
        let chunk := if rest <? zlen chunk then ztake rest chunk else chunk in
        let rest := rest - zlen chunk in
        if rest <=? 0 then ([chunk], rest)
        else let '(out, rest) := take_chunks 0 rest chunks in (chunk :: out, rest)
  end.

Definition iter_from (c : Client) (d : Document) (offset rest : Z) (w : Tg T) : list bytes * Z * option exn * Tg T :=
  let aligned := offset - offset mod DOWNLOAD_REQUEST_SIZE in
  let '(s, t) := lib_iter_download c d aligned (tg_server w) in
  let '(out, rest) := take_chunks (offset - aligned) rest (pieces s) in
  (out, rest, fault s, set_server t w).

Definition ended_early : exn := TechnicalError "Download ended early".

(** The end of [chunks()] once the stream of the library is through. *)
Definition finish_chunks (out : list bytes) (rest : Z) (flt : option exn) : stream :=
  {| pieces := out;
     fault := if rest <=? 0 then None else match flt with Some ex => Some ex | None => Some ended_early end |}.

(** [chunks()]; an expired file reference is resolved anew once. *)
Definition download_chunks (c : Client) (chat message_id : Z) (d : Document) (begin last : Z) : Tg T -> stream * Tg T := fun w =>
  if last <? begin then ({| pieces := []; fault := Some (TechnicalError "Invalid range") |}, w)
  else
    let '(out, rest, flt, w) := iter_from c d begin (last - begin + 1) w in
    if (0 <? rest) && bool_decide (flt = Some FileReferenceExpiredError) then
      match document_for c chat message_id true w with
      | (Raise ex, w) => ({| pieces := out; fault := Some ex |}, w)
      | (Ok d, w) =>
          let '(out', rest, flt, w) := iter_from c d (last + 1 - rest) rest w in
          (finish_chunks (out ++ out') rest flt, w)
      end
    else (finish_chunks out rest flt, w).

Definition client_download_file (c : Client) (chat message_id begin last : Z) : st exn (Tg T) stream := fun w =>
  match document_for c chat message_id false w with
  | (Raise ex, w) => (Raise ex, w)
  | (Ok d, w) => let '(s, w) := download_chunks c chat message_id d begin last w in (Ok s, w)
  end.

End Client.
