(* ===== verification/TelethonProps.v ===== *)
(** * Downloads through the Telethon client deliver the range

    [TelethonLaws] is what the library promises: the messages it returns are
    those asked for, a download hands out the document's bytes in order, and
    stops early only when it fails or the connection does.  The message cache
    tells the truth, so a range read of a document delivers the range, or a
    part of it and an exception; on a connection that works it does not fail,
    an expired file reference included. *)

From S2P Require Import Prelude Errors Messages ChunkCache Telethon.

Open Scope Z_scope.
Open Scope py_scope.

(** [carries t chat m b]: the message has a document with the bytes [b];
    [content t d b]: the document of this description has them; [online t c]:
    the server answers this client; [fresh t d]: the file reference of the
    description is accepted. *)
Class TelethonLaws (T : Type) `{Telethon T} := {
  carries : T -> Z -> Z -> bytes -> Prop;
  content : T -> Document -> bytes -> Prop;
  online : T -> Client -> Prop;
  fresh : T -> Document -> Prop;
  chunk_size_law : 0 < lib_max_chunk_size;
  get_messages_law : forall c chat ids t,
    let '(r, t') := lib_get_messages c chat ids t in
    (forall ch m b, carries t ch m b -> carries t' ch m b) /\ (forall d b, content t d b -> content t' d b) /\
    (forall k, online t k -> online t' k) /\
    match r with
    | Raise x => is_Exception x = true /\ ~ online t c
    | Ok found => Forall2 (fun i om =>
        (forall m, om = Some m -> rm_id m = i) /\
        (forall b, carries t chat i b -> exists m d, om = Some m /\ rm_media m = MediaDocument d /\
           content t' d b /\ doc_size d = zlen b /\ fresh t' d)) ids found
    end;
  iter_download_law : forall c d b offset t,
    content t d b -> 0 <= offset -> offset <= zlen b ->
    let '(s, t') := lib_iter_download c d offset t in
    (forall ch m b, carries t ch m b -> carries t' ch m b) /\ (forall d b, content t d b -> content t' d b) /\
    (forall k, online t k -> online t' k) /\
    (exists left, stream_bytes s ++ left = zdrop offset b) /\
    (online t c -> fault s = None -> stream_bytes s = zdrop offset b) /\
    (forall x, fault s = Some x -> is_Exception x = true /\ (online t c -> x = FileReferenceExpiredError /\ ~ fresh t d))
}.

Section Props.
  Context {T : Type} `{TelethonLaws T}.

(** What one server state says, a later one does too. *)
Record keeps (t t' : T) : Prop := {
  keeps_carries : forall ch m b, carries t ch m b -> carries t' ch m b;
  keeps_content : forall d b, content t d b -> content t' d b;
  keeps_online : forall k, online t k -> online t' k
}.

#[export] Instance keeps_preorder : PreOrder keeps.
Proof.
  split; [by intros t; split|]. intros t1 t2 t3 [a1 a2 a3] [b1 b2 b3]. split; intros *; eauto.
Qed.

(** A description of message [mid] that a cache may hold while the message
    carries [b]. *)
Definition true_of (t : T) (chat mid : Z) (b : bytes) (m : TgMessage) : Prop :=
  tm_id m = mid /\ exists d, tm_document m = Some d /\ content t d b /\ doc_size d = zlen b.

Definition ids_ok (w : Tg T) : Prop :=
  0 < tg_ids_size w /\ forall chat cache, Dict.get chat (tg_ids w) = Some cache -> mc_ok cache.

(** The documents one knows of, by channel and message. *)
Definition documents := Z -> Z -> option bytes.
Definition just (chat mid : Z) (b : bytes) : documents := fun c i => if decide (c = chat /\ i = mid) then Some b else None.

Lemma just_spec chat mid b c i x : just chat mid b c i = Some x <-> c = chat /\ i = mid /\ x = b.
Proof. unfold just. destruct (decide (c = chat /\ i = mid)) as [[-> ->]|Hn]; [|by split; [|intros (-> & -> & _); destruct Hn]]. split; [by intros [= <-]|by intros (_ & _ & ->)]. Qed.

(** The server has them, and every cached description of one of them is
    true. *)
Definition carries_all (t : T) (docs : documents) : Prop := forall ch mid b, docs ch mid = Some b -> carries t ch mid b.
Definition ids_true (docs : documents) (w : Tg T) : Prop :=
  forall ch, mc_all (fun k m => forall b, docs ch k = Some b -> true_of (tg_server w) ch k b m) (channel_ids ch w).

Lemma carries_all_keeps t t' docs : keeps t t' -> carries_all t docs -> carries_all t' docs.
Proof. intros Hk Hc ch mid b Hd. by apply (keeps_carries _ _ Hk), Hc. Qed.

Lemma channel_ids_put chat c (w : Tg T) : channel_ids chat (put_ids chat c w) = c.
Proof. unfold channel_ids, put_ids. simpl. by rewrite Dict.get_set_eq. Qed.

Lemma channel_ids_put_ne ch chat c (w : Tg T) : ch <> chat -> channel_ids ch (put_ids chat c w) = channel_ids ch w.
Proof. intros Hne. unfold channel_ids, put_ids. simpl. by rewrite Dict.get_set_ne. Qed.

Lemma channel_ok chat (w : Tg T) : ids_ok w -> mc_ok (channel_ids chat w).
Proof.
  intros [Hs Hc]. unfold channel_ids. destruct (Dict.get chat (tg_ids w)) as [c|] eqn:Hg; [by eapply Hc|].
  split; [done|]. split; [apply Dict.wf_nil|]. simpl. rewrite zlen_nil. lia.
Qed.

Lemma put_ok chat c (w : Tg T) : mc_ok c -> ids_ok w -> ids_ok (put_ids chat c w).
Proof.
  intros Hok [Hs Hc]. split; [done|]. intros ch cache. simpl. destruct (decide (ch = chat)) as [->|Hne].
  - rewrite Dict.get_set_eq. by intros [= <-].
  - rewrite Dict.get_set_ne by done. apply Hc.
Qed.

Lemma server_ok (t : T) w : ids_ok w -> ids_ok (set_server t w).
Proof. done. Qed.

Lemma true_keeps t t' chat mid b m : keeps t t' -> true_of t chat mid b m -> true_of t' chat mid b m.
Proof. intros Hk (Hi & d & Hd & Hc & Hs). split; [done|]. exists d. split; [done|]. split; [by apply (keeps_content _ _ Hk)|done]. Qed.

Lemma ids_true_server t docs w : keeps (tg_server w) t -> ids_true docs w -> ids_true docs (set_server t w).
Proof. intros Hk Ht ch. eapply mc_all_weaken; [|exact (Ht ch)]. intros k m Hm c Hd. by eapply true_keeps; [|apply Hm]. Qed.

(** ** Resolving a document *)

Lemma transform_one m : transform_messages [Some m] = [transform_message m].
Proof. done. Qed.

Section Fact.
  (** A fact about message [mid] that the server states ([base]): [P] is
      what the cached descriptions say while it holds, and [F] what only a
      description from the server says. *)
  Context (chat mid : Z) (base : T -> Prop) (P : T -> Z -> Z -> TgMessage -> Prop) (F : T -> TgMessage -> Prop).
  Hypothesis Pid : forall t m, P t chat mid m -> tm_id m = mid.
  Hypothesis fetch : forall c t, base t ->
    let '(r, t') := lib_get_messages c chat [mid] t in
    keeps t t' /\ base t' /\ (forall ch k m, P t ch k m -> P t' ch k m) /\
    match r with
    | Raise x => is_Exception x = true /\ ~ online t c
    | Ok found => exists m, found = [Some m] /\ P t' chat mid (transform_message m) /\ F t' (transform_message m)
    end.

Definition cached_fact (w : Tg T) : Prop := forall ch, mc_all (P (tg_server w) ch) (channel_ids ch w).

Lemma cached_fact_server t w : (forall ch k m, P (tg_server w) ch k m -> P t ch k m) -> cached_fact w -> cached_fact (set_server t w).
Proof. intros Hq Ht ch. eapply mc_all_weaken; [|exact (Ht ch)]. apply Hq. Qed.

Record fact_ok (w : Tg T) : Prop := {
  fo_ids : ids_ok w;
  fo_cached : cached_fact w;
  fo_base : base (tg_server w)
}.

Lemma fact_ok_put cache w : fact_ok w -> mc_ok cache -> mc_all (P (tg_server w) chat) cache -> fact_ok (put_ids chat cache w).
Proof.
  intros [? Hc ?] Hok Hall. split; [by apply put_ok| |done]. intros ch. destruct (decide (ch = chat)) as [->|Hne].
  - by rewrite channel_ids_put.
  - rewrite channel_ids_put_ne by done. apply Hc.
Qed.

(** One message: from the cache, or from the server. *)
Lemma get_message_fact c w : fact_ok w ->
  let '(r, w') := client_get_messages c chat [mid] w in
  keeps (tg_server w) (tg_server w') /\ fact_ok w' /\ tg_chunks w' = tg_chunks w /\ tg_cycle w' = tg_cycle w /\ tg_store w' = tg_store w /\
  match r with
  | Raise x => is_Exception x = true /\ ~ online (tg_server w) c
  | Ok found => exists m, found = [Some m] /\ P (tg_server w') chat mid m /\
      ((mc_get mid (channel_ids chat w)).1 = None -> F (tg_server w') m)
  end.
Proof.
  intros Hfo. pose proof Hfo as [Hok Htrue Hb]. unfold client_get_messages. cbn [find_nonexistent].
  pose proof (mc_get_spec _ mid (channel_ids chat w) (Htrue chat)) as [Hv Ht1].
  pose proof (mc_get_ok mid _ (channel_ok chat w Hok)) as Hok1.
  destruct (mc_get mid (channel_ids chat w)) as [v cache] eqn:Hg. cbn [fst snd] in *.
  pose proof (fact_ok_put cache w Hfo Hok1 Ht1) as Hfo1.
  destruct v as [m|]; cbn [nonempty].
  - rewrite channel_ids_put. cbn [mc_gets].
    pose proof (mc_get_ok mid cache Hok1) as Hok2. pose proof (mc_get_spec _ mid cache Ht1) as [_ Ht2].
    assert ((mc_get mid cache).1 = Some m) as Hm2.
    { unfold mc_get in Hg |- *. destruct (Dict.get mid (mc_items (channel_ids chat w))) as [v|]; [|done]. injection Hg as -> <-.
      simpl. by rewrite decide_True. }
    destruct (mc_get mid cache) as [v2 cache2]. simpl in Hm2. subst v2. split; [done|].
    split; [by apply fact_ok_put|]. do 3 (split; [done|]). exists m. split; [done|]. split; [by apply Hv|done].
  - pose proof (fetch c (tg_server w) Hb) as Hlaw. unfold sbind, call. cbn [tg_server put_ids set_ids].
    destruct (lib_get_messages c chat [mid] (tg_server w)) as [r t'].
    destruct Hlaw as (Hk & Hb' & HQ & Hr).
    assert (mc_all (P t' chat) cache) as Ht2 by (eapply mc_all_weaken; [|exact Ht1]; exact (HQ chat)).
    assert (fact_ok (set_server t' (put_ids chat cache w))) as Hfo2.
    { split; [by apply server_ok, put_ok| |done]. apply cached_fact_server; [exact HQ|]. apply (fo_cached _ Hfo1). }
    destruct r as [found|x]; [|split; [done|]; split; [done|]; by do 3 (split; [done|])].
    destruct Hr as (m & -> & Hm & HF). unfold sget, sput. cbn [transform_messages map concat app mc_sets foldl fst snd].
    rewrite (Pid _ _ Hm). set (w1 := set_server t' (put_ids chat cache w)) in *.
    assert (channel_ids chat w1 = cache) as Hch by apply channel_ids_put. 
    rewrite Hch, channel_ids_put. set (msg := transform_message m) in *.
    assert (mc_all (P t' chat) (mc_set mid (Some msg) cache)) as Hall by (apply mc_set_all; [by intros x [= <-]|done]).
    pose proof (mc_set_ok mid (Some msg) cache Hok1) as Hok2. pose proof (mc_get_set mid (Some msg) cache Hok1) as Hgs.
    cbn [mc_gets]. pose proof (mc_get_ok mid _ Hok2) as Hok3. pose proof (mc_get_spec _ mid _ Hall) as [_ Ht3].
    destruct (mc_get mid (mc_set mid (Some msg) cache)) as [v3 cache3]. simpl in Hgs. subst v3.
    split; [done|]. split; [by apply fact_ok_put; [apply fact_ok_put| |]|]. do 3 (split; [done|]).
    exists msg. split; [done|]. by split.
Qed.

End Fact.

(** The document of one message. *)
Lemma document_fact chat docs mid b c t : docs chat mid = Some b -> carries_all t docs ->
  let '(r, t') := lib_get_messages c chat [mid] t in
  keeps t t' /\ carries_all t' docs /\
  (forall ch k m, (forall b, docs ch k = Some b -> true_of t ch k b m) -> forall b, docs ch k = Some b -> true_of t' ch k b m) /\
  match r with
  | Raise x => is_Exception x = true /\ ~ online t c
  | Ok found => exists m, found = [Some m] /\ (forall b, docs chat mid = Some b -> true_of t' chat mid b (transform_message m)) /\
      forall d, tm_document (transform_message m) = Some d -> fresh t' d
  end.
Proof.
  intros Hdb Hall. pose proof (get_messages_law c chat [mid] t) as Hlaw. destruct (lib_get_messages c chat [mid] t) as [r t'].
  destruct Hlaw as (K1 & K2 & K3 & Hr). assert (keeps t t') as Hk by done. split; [done|]. split; [by eapply carries_all_keeps|].
  split; [intros ch k m Hm c' Hd; by eapply true_keeps; [|apply Hm]|]. destruct r as [found|x]; [|done].
  apply Forall2_cons_inv_l in Hr as (om & rest & [Hid Hdoc] & ->%Forall2_nil_inv_l & ->).
  destruct (Hdoc b (Hall chat mid b Hdb)) as (m & d & -> & Hm & Hc & Hs & Hf). specialize (Hid m eq_refl). exists m. split; [done|].
  unfold transform_message. simpl. rewrite Hm. split; [|by intros d' [= <-]]. intros b' Hb'. rewrite Hdb in Hb'. injection Hb' as <-.
  split; [done|by exists d].
Qed.

Lemma get_message_spec c chat docs mid b w :
  ids_ok w -> ids_true docs w -> carries_all (tg_server w) docs -> docs chat mid = Some b ->
  let '(r, w') := client_get_messages c chat [mid] w in
  keeps (tg_server w) (tg_server w') /\ ids_ok w' /\ ids_true docs w' /\ tg_chunks w' = tg_chunks w /\ tg_cycle w' = tg_cycle w /\
  match r with
  | Raise x => is_Exception x = true /\ ~ online (tg_server w) c
  | Ok found => exists m, found = [Some m] /\ true_of (tg_server w') chat mid b m /\
      ((mc_get mid (channel_ids chat w)).1 = None -> forall d, tm_document m = Some d -> fresh (tg_server w') d)
  end.
Proof.
  intros Hok Htrue Hb Hdb.
  pose proof (get_message_fact chat mid (fun t => carries_all t docs) (fun t ch k m => forall b, docs ch k = Some b -> true_of t ch k b m)
    (fun t m => forall d, tm_document m = Some d -> fresh t d) (fun t m Hm => proj1 (Hm b Hdb)) (fun c t => document_fact chat docs mid b c t Hdb)
    c w ltac:(by split)) as Hg.
  destruct (client_get_messages c chat [mid] w) as [r w']. destruct Hg as (Hk & [Hi1 Ht1 Hb1] & Hch & Hcy & _ & Hr).
  do 5 (split; [done|]). destruct r; [|done]. destruct Hr as (m & -> & Hm & Hf). exists m. split; [done|]. by split; [apply Hm|].
Qed.

(** ** Resolving a document *)

Lemma document_for_spec c chat docs mid b refresh w :
  ids_ok w -> ids_true docs w -> carries_all (tg_server w) docs -> docs chat mid = Some b ->
  let '(r, w') := document_for c chat mid refresh w in
  keeps (tg_server w) (tg_server w') /\ ids_ok w' /\ ids_true docs w' /\ tg_chunks w' = tg_chunks w /\ tg_cycle w' = tg_cycle w /\
  match r with
  | Raise x => is_Exception x = true /\ ~ online (tg_server w) c
  | Ok d => content (tg_server w') d b /\ doc_size d = zlen b /\ (refresh = true -> fresh (tg_server w') d)
  end.
Proof.
  intros Hok Ht Hb Hdb. unfold document_for, sbind, slift.
  set (w1 := if refresh then put_ids chat (mc_set mid None (channel_ids chat w)) w else w).
  assert (ids_ok w1 /\ ids_true docs w1 /\ tg_server w1 = tg_server w /\ tg_chunks w1 = tg_chunks w /\ tg_cycle w1 = tg_cycle w /\
          (refresh = true -> (mc_get mid (channel_ids chat w1)).1 = None)) as (Hok1 & Ht1 & Hs1 & Hc1 & Hy1 & Hn1).
  { unfold w1. destruct refresh; [|by split_and!]. pose proof (channel_ok chat w Hok) as Hch. split; [by apply put_ok, Hok; apply mc_set_ok|].
    split.
    { intros ch. destruct (decide (ch = chat)) as [->|Hne]; [rewrite channel_ids_put; by apply mc_set_all|rewrite channel_ids_put_ne by done; apply Ht]. }
    split; [done|]. split; [done|]. split; [done|].
    intros _. rewrite channel_ids_put. by apply mc_get_set. }
  clearbody w1. pose proof (get_message_spec c chat docs mid b w1 Hok1 Ht1) as Hg. rewrite Hs1, Hc1, Hy1 in Hg. specialize (Hg Hb Hdb).
  destruct (client_get_messages c chat [mid] w1) as [[found|x] w2]; cbn beta iota zeta; [|exact Hg].
  destruct Hg as (Hk & Hok2 & Ht2 & Hc2 & Hy2 & m & -> & (_ & d & Hd & Hcd & Hsd) & Hf). cbn [document_in]. rewrite Hd. cbn beta iota.
  do 5 (split; [done|]). split; [done|]. split; [done|]. intros Href. by apply Hf; [apply Hn1|].
Qed.

(** ** Cutting a stream to the range *)

Lemma take_chunks_spec chunks : forall skip rest, 0 <= skip -> 0 < rest ->
  let '(out, lft) := take_chunks skip rest chunks in
  concat out = ztake rest (zdrop skip (concat chunks)) /\ lft = rest - zlen (concat out) /\ 0 <= lft.
Proof.
  induction chunks as [|chunk chunks IH]; intros skip rest Hs Hr; cbn [take_chunks].
  - simpl. split; [|rewrite zlen_nil; lia]. unfold ztake, zdrop. by rewrite drop_nil, take_nil.
  - pose proof (zlen_nonneg chunk) as Hl. destruct (Z.eqb_spec skip 0) as [->|Hne]; cbn [negb andb].
    + rewrite zdrop_0 by lia. set (chunk' := if rest <? zlen chunk then ztake rest chunk else chunk).
      assert (chunk' = ztake rest chunk) as Hch.
      { unfold chunk'. destruct (Z.ltb_spec rest (zlen chunk)); [done|]. by rewrite ztake_ge. }
      assert (zlen chunk' = Z.min rest (zlen chunk)) as Hlc by (rewrite Hch, zlen_ztake by lia; done).
      destruct (Z.leb_spec (rest - zlen chunk') 0) as [Hle|Hgt].
      * simpl. rewrite app_nil_r. split; [|lia]. rewrite Hch, ztake_app. rewrite (ztake_0 (rest - zlen chunk)) by lia. by rewrite app_nil_r.
      * specialize (IH 0 (rest - zlen chunk') ltac:(lia) ltac:(lia)). rewrite zdrop_0 in IH by lia.
        destruct (take_chunks 0 (rest - zlen chunk') chunks) as [out lft]. destruct IH as (Ho & Hlft & Hpos).
        simpl. rewrite zlen_app. split; [|lia]. rewrite ztake_app, Ho, Hch. f_equal. f_equal. rewrite zlen_ztake by lia. lia.
    + destruct (Z.leb_spec (zlen chunk) skip) as [Hle|Hgt].
      * specialize (IH (skip - zlen chunk) rest ltac:(lia) Hr). destruct (take_chunks (skip - zlen chunk) rest chunks) as [out lft].
        destruct IH as (Ho & Hlft & Hpos). split; [|done]. simpl. rewrite Ho, zdrop_app, (zdrop_ge skip chunk) by lia. done.
      * set (cut := zdrop skip chunk). assert (zlen cut = zlen chunk - skip) as Hcut by (unfold cut; rewrite zlen_zdrop by lia; lia).
        set (chunk' := if rest <? zlen cut then ztake rest cut else cut).
        assert (chunk' = ztake rest cut) as Hch.
        { unfold chunk'. destruct (Z.ltb_spec rest (zlen cut)); [done|]. by rewrite ztake_ge. }
        assert (zlen chunk' = Z.min rest (zlen cut)) as Hlc by (rewrite Hch, zlen_ztake by lia; done).
        simpl concat. rewrite zdrop_app. rewrite (zdrop_0 (skip - zlen chunk)) by lia. fold cut.
        destruct (Z.leb_spec (rest - zlen chunk') 0) as [Hle'|Hgt'].
        -- simpl. rewrite app_nil_r. split; [|lia]. rewrite Hch, ztake_app. rewrite (ztake_0 (rest - zlen cut)) by lia. by rewrite app_nil_r.
        -- specialize (IH 0 (rest - zlen chunk') ltac:(lia) ltac:(lia)). rewrite zdrop_0 in IH by lia.
           destruct (take_chunks 0 (rest - zlen chunk') chunks) as [out lft]. destruct IH as (Ho & Hlft & Hpos).
           simpl. rewrite zlen_app. split; [|lia]. rewrite ztake_app, Ho, Hch. f_equal. f_equal. rewrite zlen_ztake by lia. lia.
Qed.

(** One download of the library: the next [n] bytes of the range, all of them
    unless it fails or the connection does. *)
Lemma iter_from_spec c d b offset rest w :
  content (tg_server w) d b -> 0 <= offset -> 0 < rest -> offset + rest <= zlen b ->
  let '(out, lft, flt, w') := iter_from c d offset rest w in
  exists t' n, w' = set_server t' w /\ keeps (tg_server w) t' /\ lft = rest - n /\ 0 <= n <= rest /\
    concat out = zslice offset (offset + n) b /\ (forall x, flt = Some x -> is_Exception x = true) /\
    (online (tg_server w) c -> n < rest -> flt = Some FileReferenceExpiredError /\ ~ fresh (tg_server w) d).
Proof.
  intros Hc Ho Hr Hb. unfold iter_from. set (al := offset - offset mod DOWNLOAD_REQUEST_SIZE).
  pose proof (Z.mod_pos_bound offset DOWNLOAD_REQUEST_SIZE chunk_size_law) as Hmod.
  assert (0 <= al <= offset) as Hal.
  { unfold al. pose proof (Z.mod_le offset DOWNLOAD_REQUEST_SIZE Ho chunk_size_law). lia. }
  pose proof (iter_download_law c d b al (tg_server w) Hc ltac:(lia) ltac:(lia)) as Hlaw.
  destruct (lib_iter_download c d al (tg_server w)) as [s t'].
  destruct Hlaw as (K1 & K2 & K3 & (tl & Htl) & Hfull & Hflt).
  pose proof (take_chunks_spec (pieces s) (offset - al) rest ltac:(lia) Hr) as Htake.
  destruct (take_chunks (offset - al) rest (pieces s)) as [out lft]. destruct Htake as (Hout & -> & Hlft).
  exists t', (zlen (concat out)). unfold stream_bytes in *. split; [done|]. split; [done|]. split; [done|].
  split; [pose proof (zlen_nonneg (concat out)); lia|].
  assert (zdrop offset b = zdrop (offset - al) (concat (pieces s)) ++ zdrop (offset - al - zlen (concat (pieces s))) tl) as Hd.
  { rewrite <- zdrop_app, Htl, zdrop_zdrop by lia. f_equal. lia. }
  set (avail := zdrop (offset - al) (concat (pieces s))) in *.
  assert (zlen (concat out) = Z.min rest (zlen avail)) as Hlen by (rewrite Hout; apply zlen_ztake; lia).
  split; [|split].
  - rewrite zslice_spec, Hd, ztake_app. replace (offset + zlen (concat out) - offset) with (zlen (concat out)) by lia.
    rewrite (ztake_0 (_ - zlen avail)) by lia. rewrite app_nil_r. rewrite Hlen, Hout.
    destruct (Z.leb_spec (zlen avail) rest); [rewrite Z.min_r by lia; by rewrite !ztake_ge by lia|by rewrite Z.min_l by lia].
  - intros x Hx. by apply Hflt.
  - intros Hon Hn. destruct (fault s) as [x|] eqn:Hs.
    + destruct (Hflt x eq_refl) as [_ Hx]. destruct (Hx Hon) as [-> Hfr]. done.
    + exfalso. specialize (Hfull Hon eq_refl). assert (zlen avail = zlen b - offset) as Ha; [|lia].
      unfold avail. rewrite Hfull, zdrop_zdrop, zlen_zdrop by lia. lia.
Qed.

(** A stream that delivers [want], or part of it and an exception the
    connection is to blame for. *)
Definition delivers (t : T) (c : Client) (want : bytes) (s : stream) : Prop :=
  match fault s with
  | None => stream_bytes s = want
  | Some x => is_Exception x = true /\ ~ online t c /\ exists lft, lft <> [] /\ stream_bytes s ++ lft = want
  end.

Lemma slice_missing (b : bytes) begin last n :
  0 <= begin -> 0 <= n -> begin + n <= last -> last < zlen b -> zslice begin (begin + n) b <> zslice begin (last + 1) b /\
  zslice (begin + n) (last + 1) b <> [] /\ zslice begin (begin + n) b ++ zslice (begin + n) (last + 1) b = zslice begin (last + 1) b.
Proof.
  intros H1 H2 H3 H4. assert (zslice (begin + n) (last + 1) b <> []) as Hne.
  { intros He%(f_equal zlen). rewrite zlen_zslice, zlen_nil in He by lia. lia. }
  split; [|split; [done|by rewrite <- zslice_split by lia]].
  intros He%(f_equal zlen). rewrite !zlen_zslice in He by lia. lia.
Qed.

Lemma finish_delivers t c b begin last out n flt :
  0 <= begin -> 0 <= n -> begin + n <= last + 1 -> last < zlen b ->
  concat out = zslice begin (begin + n) b -> (forall x, flt = Some x -> is_Exception x = true) ->
  (begin + n <= last -> ~ online t c) ->
  delivers t c (zslice begin (last + 1) b) (finish_chunks out (last + 1 - begin - n) flt).
Proof.
  intros H1 H2 H3 H4 Ho Hx Hon. unfold delivers, finish_chunks, stream_bytes. simpl. rewrite Ho.
  destruct (Z.leb_spec (last + 1 - begin - n) 0); [f_equal; lia|].
  destruct (slice_missing b begin last n ltac:(lia) ltac:(lia) ltac:(lia) ltac:(lia)) as (_ & Hne & He).
  assert (is_Exception (match flt with Some x => x | None => ended_early end) = true) as Hex by (destruct flt; [by apply Hx|done]).
  destruct flt as [x|]; (split; [exact Hex|]); (split; [apply Hon; lia|by exists (zslice (begin + n) (last + 1) b)]).
Qed.

Lemma download_chunks_spec c chat docs mid d b begin last w :
  ids_ok w -> ids_true docs w -> carries_all (tg_server w) docs -> docs chat mid = Some b -> content (tg_server w) d b ->
  0 <= begin -> begin <= last -> last < zlen b ->
  let '(s, w') := download_chunks c chat mid d begin last w in
  keeps (tg_server w) (tg_server w') /\ ids_ok w' /\ ids_true docs w' /\ tg_chunks w' = tg_chunks w /\ tg_cycle w' = tg_cycle w /\
  delivers (tg_server w) c (zslice begin (last + 1) b) s.
Proof.
  intros Hok Ht Hb Hdb Hc H1 H2 H3. unfold download_chunks. rewrite (proj2 (Z.ltb_ge _ _)) by lia.
  pose proof (iter_from_spec c d b begin (last - begin + 1) w Hc H1 ltac:(lia) ltac:(lia)) as Hi.
  destruct (iter_from c d begin (last - begin + 1) w) as [[[out rest] flt] w1].
  destruct Hi as (t' & n & -> & Hk & -> & Hn & Hout & Hx & Hon).
  pose proof (ids_true_server t' docs w Hk Ht) as Ht1.
  destruct ((0 <? last - begin + 1 - n) && bool_decide (flt = Some FileReferenceExpiredError)) eqn:He.
  - apply andb_true_iff in He as [Hlt%Z.ltb_lt ->%bool_decide_eq_true].
    pose proof (document_for_spec c chat docs mid b true (set_server t' w) (server_ok t' w Hok) Ht1 (carries_all_keeps _ _ _ Hk Hb) Hdb) as Hd.
    destruct (document_for c chat mid true (set_server t' w)) as [[d2|x] w2]; simpl in Hd.
    + destruct Hd as (Hk2 & Hok2 & Ht2 & Hch2 & Hcy2 & Hc2 & Hs2 & Hf2). specialize (Hf2 eq_refl).
      replace (last + 1 - (last - begin + 1 - n)) with (begin + n) by lia.
      pose proof (iter_from_spec c d2 b (begin + n) (last - begin + 1 - n) w2 Hc2 ltac:(lia) ltac:(lia) ltac:(lia)) as Hi2.
      destruct (iter_from c d2 (begin + n) (last - begin + 1 - n) w2) as [[[out2 rest2] flt2] w3].
      destruct Hi2 as (t3 & n2 & -> & Hk3 & -> & Hn2 & Hout2 & Hx2 & Hon2).
      split; [etrans; [exact Hk|]; etrans; [exact Hk2|exact Hk3]|]. split; [done|]. split; [by apply ids_true_server|].
      split; [done|]. split; [done|].
      replace (last - begin + 1 - n - n2) with (last + 1 - begin - (n + n2)) by lia.
      apply finish_delivers; try lia; [|done|].
      * rewrite concat_app, Hout, Hout2. replace (begin + (n + n2)) with (begin + n + n2) by lia. symmetry. apply zslice_split; lia.
      * intros Hle Hol. apply (keeps_online _ _ Hk), (keeps_online _ _ Hk2) in Hol. by destruct (Hon2 Hol ltac:(lia)).
    + destruct Hd as (Hk2 & Hok2 & Ht2 & Hch2 & Hcy2 & Hxx & Hnon). split; [by etrans|]. do 4 (split; [done|]).
      unfold delivers, stream_bytes. simpl. split; [done|]. split; [by intros Hol%(keeps_online _ _ Hk)|].
      destruct (slice_missing b begin last n ltac:(lia) ltac:(lia) ltac:(lia) ltac:(lia)) as (_ & Hne & Heq).
      exists (zslice (begin + n) (last + 1) b). by rewrite Hout.
  - split; [done|]. split; [done|]. split; [done|]. split; [done|]. split; [done|].
    replace (last - begin + 1 - n) with (last + 1 - begin - n) in * by lia.
    apply finish_delivers; try lia; [done|done|]. intros Hle Hol. destruct (Hon Hol ltac:(lia)) as [-> _].
    rewrite (proj2 (Z.ltb_lt _ _)) in He by lia. by rewrite bool_decide_eq_true_2 in He.
Qed.

Lemma client_download_spec c chat docs mid b begin last w :
  ids_ok w -> ids_true docs w -> carries_all (tg_server w) docs -> docs chat mid = Some b ->
  0 <= begin -> begin <= last -> last < zlen b ->
  let '(r, w') := client_download_file c chat mid begin last w in
  keeps (tg_server w) (tg_server w') /\ ids_ok w' /\ ids_true docs w' /\ tg_chunks w' = tg_chunks w /\ tg_cycle w' = tg_cycle w /\
  match r with
  | Raise x => is_Exception x = true /\ ~ online (tg_server w) c
  | Ok s => delivers (tg_server w) c (zslice begin (last + 1) b) s
  end.
Proof.
  intros Hok Ht Hb Hdb H1 H2 H3. unfold client_download_file. pose proof (document_for_spec c chat docs mid b false w Hok Ht Hb Hdb) as Hd.
  destruct (document_for c chat mid false w) as [[d|x] w1]; [|exact Hd].
  destruct Hd as (Hk & Hok1 & Ht1 & Hch & Hcy & Hc & Hs & _).
  pose proof (download_chunks_spec c chat docs mid d b begin last w1 Hok1 Ht1 (carries_all_keeps _ _ _ Hk Hb) Hdb Hc H1 H2 H3) as Hdl.
  destruct (download_chunks c chat mid d begin last w1) as [s w2]. destruct Hdl as (Hk2 & Hok2 & Ht2 & Hch2 & Hcy2 & Hdel).
  split; [by etrans|]. split; [done|]. split; [done|]. split; [congruence|]. split; [congruence|].
  unfold delivers in *. destruct (fault s); [|done]. destruct Hdel as (? & Hno & ?). split; [done|]. split; [|done].
  by intros ?%(keeps_online _ _ Hk).
Qed.

(** A range of a document read through the client is that range, or a
    proper beginning of it and an exception; a connection that works delivers
    it, even when the file reference in the cache has expired. *)
Theorem client_download_exact c chat docs mid b begin last w :
  ids_ok w -> ids_true docs w -> carries_all (tg_server w) docs -> docs chat mid = Some b ->
  0 <= begin -> begin <= last -> last < zlen b ->
  let '(r, w') := client_download_file c chat mid begin last w in
  ids_ok w' /\ ids_true docs w' /\ carries_all (tg_server w') docs /\ tg_chunks w' = tg_chunks w /\
  match r with
  | Raise x => is_Exception x = true /\ ~ online (tg_server w) c
  | Ok s => delivers (tg_server w) c (zslice begin (last + 1) b) s
  end.
Proof.
  intros. destruct (client_download_file c chat mid begin last w) as [r w'] eqn:He.
  pose proof (client_download_spec c chat docs mid b begin last w) as Hs. rewrite He in Hs.
  destruct Hs as (Hk & ? & ? & ? & ? & ?); try done. split_and!; try done. by eapply carries_all_keeps.
Qed.

End Props.

(** ** What the Telegram server promises about texts and uploads

    [TextView] is what can be said of a server's state next to
    [TelethonLaws], [TelethonTexts] how the calls that write change it.  A
    promise holds when the call succeeds, and it fails only for a client that
    is not answered.  Texts the server changes (Telethon reads them as
    Markdown, Telegram strips them) are not [accepted]. *)

(** [says t chat m s]: the message has the text [s]; [known t chat m]: the id
    has been given to a message; [stored t f big p b]: part [p] of file [f]
    has been saved with the call for big files or the one for small files. *)
Class TextView (T : Type) := {
  says : T -> Z -> Z -> string -> Prop;
  known : T -> Z -> Z -> Prop;
  stored : T -> Z -> bool -> Z -> bytes -> Prop;
  accepted : string -> Prop
}.

Record grows {T} `{TelethonLaws T} `{TextView T} (t t' : T) : Prop := {
  grows_keeps : keeps t t';
  grows_says : forall ch m s, says t ch m s -> says t' ch m s;
  grows_known : forall ch m, known t ch m -> known t' ch m
}.

#[export] Instance grows_preorder {T} `{TelethonLaws T} `{TextView T} : PreOrder grows.
Proof. split; [by intros t; split|]. intros t1 t2 t3 [a1 a2 a3] [b1 b2 b3]. split; [by etrans|eauto|eauto]. Qed.

Definition is_some {A} (x : option A) : bool := match x with Some _ => true | None => false end.

(** The answers to an edit that changes nothing. *)
Definition unmodified (x : exn) : bool :=
  match x with MessageNotModifiedError => true | RPCError m => bool_decide (m = "Message is not modified") | _ => false end.

Class TelethonTexts (T : Type) `{TelethonLaws T} `{TextView T} := {
  get_texts_law : forall c chat ids t,
    let '(r, t') := lib_get_messages c chat ids t in
    grows t t' /\
    match r with
    | Raise _ => True
    | Ok found => Forall2 (fun i om => forall s, says t chat i s ->
        exists m, om = Some m /\ rm_id m = i /\ rm_message m = Some s /\ rm_media m = NoDocument) ids found
    end;
  send_message_law : forall c chat s t, accepted s ->
    let '(r, t') := lib_send_message c chat s t in
    grows t t' /\
    match r with
    | Raise _ => ~ online t c
    | Ok id => ~ known t chat id /\ known t' chat id /\ says t' chat id s
    end;
  edit_text_law : forall c chat mid s old t, accepted s -> says t chat mid old ->
    let '(r, t') := lib_edit_text c chat mid s t in
    keeps t t' /\ (forall ch m, known t ch m -> known t' ch m) /\
    (forall ch m s', (ch, m) <> (chat, mid) -> says t ch m s' -> says t' ch m s') /\
    match r with
    | Raise x => if unmodified x then says t' chat mid s else ~ online t c
    | Ok id => id = mid /\ says t' chat mid s
    end;
  delete_law : forall c chat ids t,
    let '(r, t') := lib_delete_messages c chat ids t in
    (forall k, online t k -> online t' k) /\ (forall ch m, known t ch m -> known t' ch m) /\
    (forall ch m s, (ch = chat -> m ∉ ids) -> says t ch m s -> says t' ch m s) /\
    (forall ch m b, (ch = chat -> m ∉ ids) -> carries t ch m b -> carries t' ch m b) /\
    match r with
    | Raise _ => ~ online t c
    | Ok _ => forall m, m ∈ ids -> (forall s, ~ says t' chat m s) /\ (forall b, ~ carries t' chat m b)
    end;
  save_part_law : forall c file part total b t,
    let '(r, t') := lib_save_part c file part total b t in
    grows t t' /\
    (forall f big p x, stored t f big p x -> (f, p) <> (file, part) -> stored t' f big p x) /\
    match r with
    | Ok true => stored t' file (is_some total) part b
    | _ => ~ online t c
    end;
  send_file_law : forall c chat f big parts t,
    zlen parts = uf_parts f -> (forall p x, parts !! Z.to_nat p = Some x -> 0 <= p -> stored t (uf_id f) big p x) ->
    let '(r, t') := lib_send_file c chat f big t in
    grows t t' /\
    match r with
    | Ok (Some id) => ~ known t chat id /\ known t' chat id /\ carries t' chat id (concat parts)
    | _ => ~ online t c
    end;
  random_long_law : forall t, grows t (lib_random_long t).2
}.

Section Calls.
  Context {T : Type} `{TelethonTexts T}.

(** What the uploads and sends do not touch: the caches and the store. *)
Record quiet (w w' : Tg T) : Prop := {
  quiet_grows : grows (tg_server w) (tg_server w');
  quiet_ids : tg_ids w' = tg_ids w;
  quiet_ids_size : tg_ids_size w' = tg_ids_size w;
  quiet_chunks : tg_chunks w' = tg_chunks w;
  quiet_store : tg_store w' = tg_store w
}.

#[export] Instance quiet_preorder : PreOrder quiet.
Proof. split; [by intros w; split|]. intros w1 w2 w3 [] []. split; [by etrans|congruence..]. Qed.

Lemma quiet_server t w : grows (tg_server w) t -> quiet w (set_server t w).
Proof. done. Qed.

Lemma quiet_online w w' c : quiet w w' -> ~ online (tg_server w') c -> ~ online (tg_server w) c.
Proof. intros [[Hk _ _] _ _ _ _] Hn Ho. by apply Hn, (keeps_online _ _ Hk). Qed.

Lemma quiet_unknown w w' chat m : quiet w w' -> ~ known (tg_server w') chat m -> ~ known (tg_server w) chat m.
Proof. intros [[_ _ Hk] _ _ _ _] Hn Ho. by apply Hn, Hk. Qed.

End Calls.
