(* ===== verification/DiscordStore.v ===== *)
(** * The Discord client ([tgdcfs/backends/discord/client.py])

    [DiscordLib D] is discord.py and the HTTP client, on a server [D]; a bot
    is named by its place in the pool.  [NotFound] and [Forbidden] are the
    [HTTPException]s of status 404 and 403.  The requests of one call that
    discord.py paces run one after another here; logins are left out. *)

From stdpp Require Import pretty.
From S2P Require Import Prelude Errors Messages FileVersion ChunkCache Telethon.

Open Scope Z_scope.
Open Scope py_scope.

Record Attachment := { at_size : Z; at_id : Z; at_url : string }.

Record DcMessage := { dm_id : Z; dm_content : string; dm_attachments : list Attachment; dm_author : Z }.

Class DiscordLib (D : Type) := {
  dl_user : nat -> option Z;                     (* bot.user.id *)
  dl_get_channel : nat -> Z -> D -> bool;        (* get_channel found it *)
  dl_fetch_channel : nat -> Z -> st exn D unit;
  dl_fetch_message : nat -> Z -> Z -> st exn D DcMessage;
  dl_send : nat -> Z -> option string -> option (bytes * string) -> st exn D Z;
  dl_edit : nat -> Z -> Z -> option string -> list (bytes * string) -> st exn D unit;
  dl_bulk_delete : nat -> Z -> list Z -> st exn D unit;
  dl_delete : nat -> Z -> Z -> st exn D unit;
  dl_pins : nat -> Z -> st exn D (list DcMessage);
  dl_pin : nat -> Z -> Z -> st exn D unit;
  dl_get : nat -> string -> option (Z * Z) -> st exn D (Z * stream);   (* status and content *)
  dl_now : D -> Z;
  dl_snowflake_time : Z -> Z                     (* discord.utils.snowflake_time, in seconds *)
}.

Definition BULK_DELETE_MAX_AGE : Z := 14 * 24 * 3600.
Definition BULK_DELETE_BATCH_SIZE : Z := 100.

Definition is_NotFound (ex : exn) : bool := match ex with HTTPException status _ => status =? 404 | _ => false end.
Definition is_Forbidden (ex : exn) : bool := match ex with HTTPException status _ => status =? 403 | _ => false end.

Definition is_transient (ex : exn) : bool :=
  match ex with
  | RateLimited => true
  | HTTPException status _ => (status =? 429) || ((500 <=? status) && (status <? 600))
  | OSError => true
  | _ => false
  end.

(** [_to_message_resp]. *)
Definition to_message_resp (m : DcMessage) : TgMessage :=
  {| tm_id := dm_id m; tm_text := dm_content m;
     tm_document := match dm_attachments m with
                    | [] => None
                    | a :: _ => Some {| doc_size := at_size a; doc_id := at_id a; doc_access_hash := 0; doc_file_reference := [] |}
                    end |}.

Section Client.
  Context {D : Type} `{DiscordLib D} (bot : nat) (channel : Z).

(** [_channel]. *)
Definition dc_channel : st exn D unit := fun t =>
  if dl_get_channel bot channel t then (Ok tt, t)
  else
    stry (dl_fetch_channel bot channel) (fun ex =>
      if is_NotFound ex then sraise (TechnicalError "Discord channel not found")
      else if is_Forbidden ex then sraise (TechnicalError "The bot may not access Discord channel")
      else sraise ex) t.

(** [_fetch]. *)
Definition dc_fetch (mid : Z) : st exn D DcMessage :=
  dc_channel ;;;
  stry (dl_fetch_message bot channel mid) (fun ex => if is_NotFound ex then sraise (MessageNotFound mid) else sraise ex).

Definition bot_send_text (text : string) : st exn D Z := (dc_channel ;;; dl_send bot channel (Some text) None).

Definition bot_send_file (data : bytes) (name caption : string) : st exn D Z :=
  (dc_channel ;;; dl_send bot channel (if decide (caption = "") then None else Some caption) (Some (data, name))).

Definition get_author_id (mid : Z) : st exn D Z := let! m := dc_fetch mid in sret (dm_author m).

Definition bot_edit_text (mid : Z) (text : string) : st exn D Z :=
  let! m := dc_fetch mid in dl_edit bot channel (dm_id m) (Some text) [] ;;; sret (dm_id m).

Definition bot_edit_file (mid : Z) (data : bytes) (name : string) (caption : option string) : st exn D Z :=
  let! m := dc_fetch mid in dl_edit bot channel (dm_id m) caption [(data, name)] ;;; sret (dm_id m).

Definition bot_get_message (mid : Z) : st exn D (option TgMessage) :=
  stry (let! m := dc_fetch mid in sret (Some (to_message_resp m)))
    (fun ex => match ex with MessageNotFound _ => sret None | _ => sraise ex end).

Fixpoint bot_get_messages (ids : list Z) : st exn D (list (option TgMessage)) :=
  match ids with
  | [] => sret []
  | i :: ids => let! m := bot_get_message i in let! ms := bot_get_messages ids in sret (m :: ms)
  end.

Definition bot_get_pinned_messages : st exn D (list TgMessage) :=
  (dc_channel ;;; let! pins := dl_pins bot channel in sret (map to_message_resp pins)).

Definition bot_pin_message (mid : Z) : st exn D unit := let! m := dc_fetch mid in dl_pin bot channel (dm_id m).

(** ** Deletion *)

(** [_delete_one]. *)
Definition delete_one (mid : Z) : st exn D unit :=
  stry (dl_delete bot channel mid) (fun ex => if is_NotFound ex then sret tt else sraise ex).

Fixpoint bulk_delete (fuel : nat) (recent : list Z) : st exn D unit :=
  match fuel, recent with
  | O, _ | _, [] => sret tt
  | S fuel, _ =>
      let batch := ztake BULK_DELETE_BATCH_SIZE recent in
      (match batch with
       | [mid] => delete_one mid
       | _ => stry (dl_bulk_delete bot channel batch) (fun ex => if is_NotFound ex then sfor batch delete_one else sraise ex)
       end) ;;;
      bulk_delete fuel (zdrop BULK_DELETE_BATCH_SIZE recent)
  end.

Definition bot_delete_messages (ids : list Z) : st exn D unit :=
  dc_channel ;;;
  let! t := sget in
  let cutoff := dl_now t - BULK_DELETE_MAX_AGE + 5 * 60 in
  let recent := List.filter (fun mid => cutoff <? dl_snowflake_time mid) ids in
  let old := List.filter (fun mid => dl_snowflake_time mid <=? cutoff) ids in
  bulk_delete (length recent) recent ;;;
  sfor old delete_one.

(** ** Downloads *)

(** The range of an answer that holds the whole attachment; [true] when the
    loop breaks and what follows is not read. *)
Fixpoint cut_range (begin size skipped delivered : Z) (chunks : list bytes) : list bytes * bool :=
  match chunks with
  | [] => ([], false)
  | chunk :: chunks =>
      let drop := if skipped <? begin then Z.min (zlen chunk) (begin - skipped) else 0 in
      let chunk := zdrop drop chunk in
      let skipped := skipped + drop in
      if negb (nonempty chunk) then cut_range begin size skipped delivered chunks
      else
        let take := Z.min (zlen chunk) (size - delivered) in
        if take <=? 0 then ([], true)
        else if size <=? delivered + take then ([ztake take chunk], true)
        else let '(out, stop) := cut_range begin size skipped (delivered + take) chunks in (ztake take chunk :: out, stop)
  end.

Definition bot_download (mid begin last : Z) : st exn D (stream * Z) :=
  let! m := dc_fetch mid in
  match dm_attachments m with
  | [] => sraise (TechnicalError "Discord message has no attachment")
  | a :: _ =>
      let last := if (last <? 0) || (at_size a <=? last) then at_size a - 1 else last in
      if last <? begin then sraise (TechnicalError "Invalid range")
      else
        let size := last - begin + 1 in
        let wants_range := (0 <? begin) || (last <? at_size a - 1) in
        let! answer := dl_get bot (at_url a) (if wants_range then Some (begin, last) else None) in
        let '(status, content) := answer in
        if 400 <=? status then sraise (TechnicalError "Discord CDN answered")
        else if negb wants_range || (status =? 206) then sret (content, size)
        else
          let '(out, stop) := cut_range begin size 0 0 (pieces content) in
          sret ({| pieces := out; fault := if stop then None else fault content |}, size)
  end.

End Client.

(** ** The Discord store ([tgdcfs/backends/discord/store.py])

    One channel through a pool of bots, every request retried while its
    failure is transient.  A bot edits its own messages only, so the store
    keeps the sender of a message.  The parts of an upload are sent one after
    another here, in the order in which they are read; the slots that bound
    how many are in the air are left out, as are delays and logging. *)

Definition DC_MAX_TEXT_CHARS : Z := 2000.
Definition DC_OVERFLOW_FILENAME : string := "overflow.json".
Definition OVERFLOW_CAPTION : string := "TGDCFS_OVERFLOW".
Definition DC_READ_CHUNK : Z := 1024 * 1024.
Definition CANNOT_EDIT_FOREIGN_MESSAGE : Z := 50005.
Definition AUTHOR_CACHE_SIZE : Z := 16384.

Definition is_foreign_message_error (ex : exn) : bool :=
  match ex with HTTPException status code => (status =? 403) && (code =? CANNOT_EDIT_FOREIGN_MESSAGE) | _ => false end.

(** The arguments of [DiscordStore]; [dk_bots] is the size of the pool. *)
Record DcConfig := {
  dk_bots : nat;
  dk_channel : Z;
  dk_max_part_bytes : Z;
  dk_delete_on_remove : bool;
  dk_max_retries : nat
}.

(** The server, the message cache of the channel and the store. *)
Record Dc (D : Type) := {
  dc_server : D;
  dc_ids : MessageCache Z TgMessage;             (* channel_cache(channel_id).id *)
  dc_cycle : nat;
  dc_authors : MessageCache Z nat
}.
Arguments dc_server {D}. Arguments dc_ids {D}. Arguments dc_cycle {D}. Arguments dc_authors {D}.

Section Store.
  Context {D : Type} `{DiscordLib D} (k : DcConfig).
  Context (encode : string -> bytes) (decode : bytes -> exc string) (text_len : string -> Z).

Definition dc_set_server (t : D) (w : Dc D) : Dc D :=
  {| dc_server := t; dc_ids := dc_ids w; dc_cycle := dc_cycle w; dc_authors := dc_authors w |}.
Definition dc_set_ids (c : MessageCache Z TgMessage) (w : Dc D) : Dc D :=
  {| dc_server := dc_server w; dc_ids := c; dc_cycle := dc_cycle w; dc_authors := dc_authors w |}.
Definition dc_set_authors (c : MessageCache Z nat) (w : Dc D) : Dc D :=
  {| dc_server := dc_server w; dc_ids := dc_ids w; dc_cycle := dc_cycle w; dc_authors := c |}.

Definition on_server {A} (m : st exn D A) : st exn (Dc D) A := fun w => let '(r, t) := m (dc_server w) in (r, dc_set_server t w).

(** [next_bot]. *)
Definition dc_next_bot : st exn (Dc D) nat := fun w =>
  (Ok (dc_cycle w mod dk_bots k)%nat,
   {| dc_server := dc_server w; dc_ids := dc_ids w; dc_cycle := S (dc_cycle w); dc_authors := dc_authors w |}).

(** [_retry]. *)
Fixpoint retry {A} (attempts : nat) (action : st exn (Dc D) A) : st exn (Dc D) A :=
  match attempts with
  | O => sraise (TechnicalError "failed after all attempts")
  | S attempts => stry action (fun ex => if is_transient ex then retry attempts action else sraise ex)
  end.
Definition dc_retry {A} (action : st exn (Dc D) A) : st exn (Dc D) A := retry (dk_max_retries k) action.

(** ** Who sent what *)

(** [_send]. *)
Definition dc_send (action : nat -> st exn D Z) : st exn (Dc D) Z :=
  let! sent := dc_retry (let! bot := dc_next_bot in let! mid := on_server (action bot) in sret (mid, bot)) in
  let! w := sget in
  sput (dc_set_authors (mc_set sent.1 (Some sent.2) (dc_authors w)) w) ;;;
  sret sent.1.

(** The bot of the pool with this user id. *)
Definition bot_of_user (author : Z) : option nat :=
  List.find (fun bot => bool_decide (dl_user bot = Some author)) (seq 0 (dk_bots k)).

(** [_author_bot]. *)
Definition author_bot (mid : Z) (refresh : bool) : st exn (Dc D) nat := fun w =>
  let '(known, w) := if refresh then (None, w)
                     else let '(v, c) := mc_get mid (dc_authors w) in (v, dc_set_authors c w) in
  match known with
  | Some bot => (Ok bot, w)
  | None =>
      (let! author := dc_retry (let! bot := dc_next_bot in on_server (get_author_id bot (dk_channel k) mid)) in
       match bot_of_user author with
       | None => sraise (MessageNotFound mid)
       | Some bot =>
           let! w := sget in
           sput (dc_set_authors (mc_set mid (Some bot) (dc_authors w)) w) ;;; sret bot
       end) w
  end.

(** [_edit]. *)
Definition dc_edit {A} (mid : Z) (action : nat -> st exn D A) : st exn (Dc D) A :=
  let! bot := author_bot mid false in
  stry (dc_retry (on_server (action bot))) (fun ex =>
    if negb (is_foreign_message_error ex) then sraise ex
    else let! bot := author_bot mid true in dc_retry (on_server (action bot))).

(** ** Texts *)

Definition remember (mid : Z) (m : option TgMessage) : st exn (Dc D) unit :=
  let! w := sget in sput (dc_set_ids (mc_set mid m (dc_ids w)) w).

Definition plain_text (mid : Z) (text : string) : TgMessage := {| tm_id := mid; tm_text := text; tm_document := None |}.

Definition dc_send_text (text : string) : st exn (Dc D) Z :=
  let! mid := dc_send (fun bot =>
    if text_len text <=? DC_MAX_TEXT_CHARS then bot_send_text bot (dk_channel k) text
    else bot_send_file bot (dk_channel k) (encode text) DC_OVERFLOW_FILENAME OVERFLOW_CAPTION) in
  remember mid (Some (plain_text mid text)) ;;; sret mid.

Definition dc_edit_message_text (message_id : Z) (text : string) : st exn (Dc D) Z :=
  let! mid := dc_edit message_id (fun bot =>
    if text_len text <=? DC_MAX_TEXT_CHARS then bot_edit_text bot (dk_channel k) message_id text
    else bot_edit_file bot (dk_channel k) message_id (encode text) DC_OVERFLOW_FILENAME (Some OVERFLOW_CAPTION)) in
  remember mid (Some (plain_text mid text)) ;;; sret mid.

(** [_resolve_overflow]. *)
Definition dc_resolve_overflow (m : TgMessage) : st exn (Dc D) TgMessage :=
  match tm_document m with
  | None => sret m
  | Some d =>
      if negb (bool_decide (tm_text m = OVERFLOW_CAPTION)) then sret m
      else
        let! bot := dc_next_bot in
        let! answer := on_server (bot_download bot (dk_channel k) (tm_id m) 0 (-1)) in
        match fault answer.1 with
        | Some ex => sraise ex
        | None => let! text := slift (decode (stream_bytes answer.1)) in
                  sret {| tm_id := tm_id m; tm_text := text; tm_document := Some d |}
        end
  end.

(** The fetched messages, resolved and cached. *)
Fixpoint dc_store_fetched (ids : list Z) (fetched : list (option TgMessage)) : st exn (Dc D) unit :=
  match ids, fetched with
  | i :: ids, Some m :: fetched => let! m := dc_resolve_overflow m in remember i (Some m) ;;; dc_store_fetched ids fetched
  | _ :: ids, None :: fetched => dc_store_fetched ids fetched
  | _, _ => sret tt
  end.

Definition dc_get_messages (ids : list Z) : st exn (Dc D) (list (option TgMessage)) := fun w =>
  let '(cached, c) := mc_gets ids (dc_ids w) in
  let w := dc_set_ids c w in
  let missing := concat (map (fun im : Z * option TgMessage => match im.2 with None => [im.1] | Some _ => [] end) (zip ids cached)) in
  match (if nonempty missing then
           let! fetched := dc_retry (let! bot := dc_next_bot in on_server (bot_get_messages bot (dk_channel k) missing)) in
           dc_store_fetched missing fetched
         else sret tt) w with
  | (Raise ex, w) => (Raise ex, w)
  | (Ok _, w) => let '(found, c) := mc_gets ids (dc_ids w) in (Ok found, dc_set_ids c w)
  end.

(** ** Uploads *)

Section Upload.
  Context {M : Type} `{Uploadable M}.

(** [_read_part]; a chunk that is not empty is at least a byte long. *)
Fixpoint read_part (fuel : nat) (limit : Z) (data : bytes) : st exn M bytes :=
  if limit <=? zlen data then sret data
  else
    match fuel with
    | O => sraise OutOfFuel
    | S fuel =>
        let! chunk := um_read (Z.min DC_READ_CHUNK (limit - zlen data)) in
        if nonempty chunk then read_part fuel limit (data ++ chunk) else sret data
    end.

Definition send_part (data : bytes) (name : string) : st exn (Dc D) SentFileMessage :=
  let! mid := dc_send (fun bot => bot_send_file bot (dk_channel k) data name "") in
  sret {| sm_message_id := mid; sm_size := zlen data; sm_mirrors := []; sm_replicas := [] |}.

(** The loop of [upload]; a round that is not the last reads a byte. *)
Fixpoint dc_upload_loop (fuel : nat) (index remaining size : Z) (name : string) (m : M) : Dc D -> (exc (list SentFileMessage) * M) * Dc D := fun w =>
  match fuel with
  | O => ((Raise OutOfFuel, m), w)
  | S fuel =>
      let limit := if 0 <=? size then Z.min (dk_max_part_bytes k) remaining else dk_max_part_bytes k in
      match (if 0 <? limit then read_part (Z.to_nat limit) limit [] else sret []) m with
      | (Raise ex, m) => ((Raise ex, m), w)
      | (Ok data, m) =>
          if negb (nonempty data) && (0 <? index) then ((Ok [], m), w)
          else
            match send_part data ("[part" +:+ pretty (index + 1) +:+ "]" +:+ name) w with
            | (Raise ex, w) => ((Raise ex, m), w)
            | (Ok sent, w) =>
                let remaining := remaining - zlen data in
                if ((0 <=? size) && (remaining <=? 0)) || (zlen data <? dk_max_part_bytes k) then ((Ok [sent], m), w)
                else
                  match dc_upload_loop fuel (index + 1) remaining size name m w with
                  | ((Ok rest, m), w) => ((Ok (sent :: rest), m), w)
                  | ((Raise ex, m), w) => ((Raise ex, m), w)
                  end
            end
      end
  end.

Definition dc_upload (m : M) : st exn (Dc D) (list SentFileMessage) := fun w =>
  match um_open m with
  | (Raise ex, _) => (Raise ex, w)
  | (Ok _, m) =>
      let size := get_size m in
      let '((r, m), w) := dc_upload_loop (S (S (Z.to_nat size))) 0 size size (file_name m) m w in
      match um_close m with
      | (Raise ex, _) => (Raise ex, w)
      | (Ok _, _) => (r, w)
      end
  end.

End Upload.

(** ** Documents *)

Definition dc_download_file (mid begin last : Z) : st exn (Dc D) stream :=
  let! answer := dc_retry (let! bot := dc_next_bot in on_server (bot_download bot (dk_channel k) mid begin last)) in
  sret answer.1.

Definition dc_replace_document (mid : Z) (buffer : bytes) (name : string) : st exn (Dc D) Z :=
  if dk_max_part_bytes k <? zlen buffer then sraise (TechnicalError "The document does not fit one Discord message")
  else
    let! mid := dc_edit mid (fun bot => bot_edit_file bot (dk_channel k) mid buffer name None) in
    let! w := sget in
    let '(cached, c) := mc_get mid (dc_ids w) in
    sput (dc_set_ids c w) ;;;
    match cached with
    | Some m =>
        match tm_document m with
        | Some d => remember mid (Some {| tm_id := mid; tm_text := tm_text m;
              tm_document := Some {| doc_size := zlen buffer; doc_id := doc_id d; doc_access_hash := 0; doc_file_reference := [] |} |})
        | None => sret tt
        end
    | None => sret tt
    end ;;;
    sret mid.

(** ** Copies and deletion *)

Fixpoint dc_copy_within (ids : list Z) : st exn (Dc D) (list Z) :=
  match ids with
  | [] => sret []
  | mid :: ids =>
      let! messages := dc_get_messages [mid] in
      match messages with
      | Some m :: _ =>
          match tm_document m with
          | None => sraise (MessageNotFound mid)
          | Some d =>
              let! s := dc_download_file mid 0 (doc_size d - 1) in
              let! sent := dc_upload (stream_message s (doc_size d) ("part-" +:+ pretty mid)) in
              match sent with
              | [] => sraise IndexError
              | one :: _ => let! rest := dc_copy_within ids in sret (sm_message_id one :: rest)
              end
          end
      | None :: _ => sraise (MessageNotFound mid)
      | [] => sraise IndexError
      end
  end.

Definition dc_copy_from (source : string) (ids : list Z) : st exn (Dc D) (option (list Z)) := sret None.

Definition dc_delete_messages (ids : list Z) (force : bool) : st exn (Dc D) unit :=
  if negb force && negb (dk_delete_on_remove k) then sret tt
  else
    let unique := remove_dups (List.filter (fun i => 0 <? i) ids) in
    if negb (nonempty unique) then sret tt
    else
      stry (dc_retry (let! bot := dc_next_bot in on_server (bot_delete_messages bot (dk_channel k) unique)))
        (fun ex => if is_Exception ex then sret tt else sraise ex) ;;;
      sfor unique (fun mid => let! w := sget in if mc_contains mid (dc_ids w) then remember mid None else sret tt).

Definition dc_pin_message (mid : Z) : st exn (Dc D) unit :=
  dc_retry (let! bot := dc_next_bot in on_server (bot_pin_message bot (dk_channel k) mid)).

Definition dc_get_pinned_message : st exn (Dc D) TgMessage :=
  let! pins := dc_retry (let! bot := dc_next_bot in on_server (bot_get_pinned_messages bot (dk_channel k))) in
  match List.find (fun m => match tm_document m with Some _ => negb (bool_decide (tm_text m = OVERFLOW_CAPTION)) | None => false end) pins with
  | Some m => sret m
  | None => sraise NoPinnedMessage
  end.

End Store.
