(* ===== verification/MultiSource.v ===== *)
(** * Multi-source reads ([tgdcfs/core/multisource.py])

    Several stores share one download.  The scheduler is a state machine: its
    events are the points where a worker or the consumer acts under the
    condition variable, [exec] is what they do, and a run is any sequence of
    events the state allows -- every interleaving of the workers is one. *)

From S2P Require Import Prelude Errors Messages FileVersion Stores FileContent.

Open Scope Z_scope.
Open Scope py_scope.

Definition BENCH_AFTER : Z := 2.
Definition DEFAULT_SLOTS : Z := 2.

Record piece := { pc_index : Z; pc_begin : Z; pc_end : Z; pc_tried : list string }.

(** [range(b, last + 1, step)] cut into pieces; [fuel] bounds their number. *)
Fixpoint cut_pieces (fuel : nat) (i b last piece_size : Z) : list piece :=
  match fuel with
  | O => []
  | S fuel =>
      if b <=? last then
        {| pc_index := i; pc_begin := b; pc_end := Z.min (b + piece_size - 1) last;
           pc_tried := [] |}
        :: cut_pieces fuel (i + 1) (b + Z.max 1 piece_size) last piece_size
      else []
  end.

Definition pieces_of (begin last piece_size : Z) : list piece :=
  cut_pieces (Z.to_nat (last + 1 - begin)) 0 begin last piece_size.

(** ** Fetching a piece *)

Section Fetch.
  Context {W : Type} `{Stores W}.

Fixpoint fetch_parts (store : string) (ps : list part_range) (out : bytes) : st exn W bytes :=
  match ps with
  | [] => sret out
  | p :: ps =>
      let! s := st_download store (pr_mid p) (pr_begin p) (pr_end p) in
      match fault s with
      | Some x => sraise x
      | None => fetch_parts store ps (out ++ stream_bytes s)
      end
  end.

Definition fetch (view : StoreView) (size : Z) (p : piece) : st exn W bytes :=
  let! ps := slift (map_range (sv_message_ids view) (sv_part_sizes view) size (pc_begin p) (pc_end p)) in
  let! out := fetch_parts (sv_key view) ps [] in
  let expected := pc_end p - pc_begin p + 1 in
  if negb (zlen out =? expected) then sraise (TechnicalError "wrong number of bytes")
  else sret out.

End Fetch.

(** ** The scheduler *)

(** A worker waits, fetches a piece or has returned. *)
Inductive wstate := Idle | Busy (p : piece) | Gone.

Record ms := {
  ms_pending : list piece;
  ms_workers : list (string * wstate);           (* store of each worker *)
  ms_results : dict Z bytes;
  ms_next : Z;                                   (* _next_to_emit *)
  ms_failures : dict string Z;
  ms_benched : list string;
  ms_fatal : bool;
  ms_out : list bytes                            (* yielded so far *)
}.

Section Scheduler.
  (** The stores (in order, with their slots), the number of pieces and the
      window of the read. *)
  Context (views : list (string * Z)) (n window : Z).

Definition ms_init (ps : list piece) : ms :=
  {| ms_pending := ps;
     ms_workers := concat (map (fun v => replicate (Z.to_nat (Z.max 1 v.2)) (v.1, Idle)) views);
     ms_results := []; ms_next := 0;
     ms_failures := map (fun v => (v.1, 0)) views;
     ms_benched := []; ms_fatal := false; ms_out := [] |}.

(** [_claim]: the piece and what stays pending. *)
Fixpoint claim (key : string) (limit : Z) (pending : list piece) : option (piece * list piece) :=
  match pending with
  | [] => None
  | p :: ps =>
      if limit <=? pc_index p then None
      else if bool_decide (key ∈ pc_tried p) then
        option_map (fun qr => (qr.1, p :: qr.2)) (claim key limit ps)
      else Some (p, ps)
  end.

Definition set_worker (i : nat) (key : string) (w : wstate) (ws : list (string * wstate))
  : list (string * wstate) := <[i := (key, w)]> ws.

(** A worker takes a piece. *)
Definition do_claim (i : nat) (key : string) (s : ms) : option ms :=
  if ms_fatal s || (n <=? ms_next s) || bool_decide (key ∈ ms_benched s) then None
  else
    match claim key (ms_next s + Z.max 1 window) (ms_pending s) with
    | None => None
    | Some (p, pending) =>
        Some {| ms_pending := pending; ms_workers := set_worker i key (Busy p) (ms_workers s);
                ms_results := ms_results s; ms_next := ms_next s; ms_failures := ms_failures s;
                ms_benched := ms_benched s; ms_fatal := ms_fatal s; ms_out := ms_out s |}
    end.

(** A worker returns from its loop. *)
Definition do_leave (i : nat) (key : string) (s : ms) : option ms :=
  if ms_fatal s || (n <=? ms_next s) || bool_decide (key ∈ ms_benched s) then
    Some {| ms_pending := ms_pending s; ms_workers := set_worker i key Gone (ms_workers s);
            ms_results := ms_results s; ms_next := ms_next s; ms_failures := ms_failures s;
            ms_benched := ms_benched s; ms_fatal := ms_fatal s; ms_out := ms_out s |}
  else None.

(** Its fetch succeeded. *)
Definition do_ok (i : nat) (key : string) (p : piece) (data : bytes) (s : ms) : ms :=
  {| ms_pending := ms_pending s; ms_workers := set_worker i key Idle (ms_workers s);
     ms_results := Dict.set (pc_index p) data (ms_results s); ms_next := ms_next s;
     ms_failures := Dict.set key 0 (ms_failures s); ms_benched := ms_benched s;
     ms_fatal := ms_fatal s; ms_out := ms_out s |}.

(** Its fetch failed: the piece goes back, unless no store is left for it. *)
Definition do_fail (i : nat) (key : string) (p : piece) (s : ms) : ms :=
  let p := {| pc_index := pc_index p; pc_begin := pc_begin p; pc_end := pc_end p;
              pc_tried := key :: pc_tried p |} in
  let fails := default 0 (Dict.get key (ms_failures s)) + 1 in
  let benched := if BENCH_AFTER <=? fails then key :: ms_benched s else ms_benched s in
  let remaining := List.filter (fun v => negb (bool_decide (v.1 ∈ pc_tried p)) &&
                                         negb (bool_decide (v.1 ∈ benched))) views in
  let lost := negb (nonempty remaining) in
  {| ms_pending := if lost then ms_pending s
                   else sort_by pc_index (ms_pending s ++ [p]);
     ms_workers := set_worker i key (if bool_decide (key ∈ benched) then Gone else Idle) (ms_workers s);
     ms_results := ms_results s; ms_next := ms_next s;
     ms_failures := Dict.set key fails (ms_failures s); ms_benched := benched;
     ms_fatal := ms_fatal s || lost; ms_out := ms_out s |}.

(** The consumer hands out the next piece. *)
Definition do_emit (s : ms) : option ms :=
  if ms_fatal s || (n <=? ms_next s) then None
  else
    match Dict.get (ms_next s) (ms_results s) with
    | None => None
    | Some data =>
        Some {| ms_pending := ms_pending s; ms_workers := ms_workers s;
                ms_results := Dict.del (ms_next s) (ms_results s); ms_next := ms_next s + 1;
                ms_failures := ms_failures s; ms_benched := ms_benched s;
                ms_fatal := ms_fatal s; ms_out := ms_out s ++ [data] |}
    end.

Inductive event := EvClaim (i : nat) | EvLeave (i : nat) | EvOk (i : nat) (data : bytes)
                 | EvFail (i : nat) | EvEmit.

Definition exec (ev : event) (s : ms) : option ms :=
  match ev with
  | EvEmit => do_emit s
  | EvClaim i =>
      match ms_workers s !! i with Some (key, Idle) => do_claim i key s | _ => None end
  | EvLeave i =>
      match ms_workers s !! i with Some (key, Idle) => do_leave i key s | _ => None end
  | EvOk i data =>
      match ms_workers s !! i with Some (key, Busy p) => Some (do_ok i key p data s) | _ => None end
  | EvFail i =>
      match ms_workers s !! i with Some (key, Busy p) => Some (do_fail i key p s) | _ => None end
  end.

Fixpoint exec_all (evs : list event) (s : ms) : option ms :=
  match evs with
  | [] => Some s
  | ev :: evs => match exec ev s with Some s => exec_all evs s | None => None end
  end.

(** The runs in which every successful fetch delivered the piece: [data]
    gives the bytes of a piece. *)
Inductive reachable (data : piece -> bytes) (s0 : ms) : ms -> Prop :=
| reach_start : reachable data s0 s0
| reach_step s ev s' :
    reachable data s0 s -> exec ev s = Some s' ->
    (forall i d key p, ev = EvOk i d -> ms_workers s !! i = Some (key, Busy p) -> d = data p) ->
    reachable data s0 s'.

(** The read is over for the consumer. *)
Definition finished (s : ms) : bool :=
  ms_fatal s || (n <=? ms_next s) ||
  (forallb (fun w => match w.2 with Gone => true | _ => false end) (ms_workers s) &&
   negb (nonempty (ms_results s))).

End Scheduler.
