(* ===== verification/MultiSourceProps.v ===== *)
(** * Properties of multi-source reads

    Invariants of every reachable state of the scheduler: no piece is lost or
    delivered twice, the output is the content in order, and the memory held
    is bounded by the window. *)

From AAC_tactics Require Import AAC.
From AAC_tactics Require Instances.
From S2P Require Import Prelude Errors Messages FileVersion Stores FileContent FileContentProps MultiSource.
Import Instances.Lists.

Open Scope Z_scope.

(** Reordering concatenations up to permutation. *)
#[local] Instance perm_lift {A} : AAC_lift (@Permutation A) (@Permutation A).
Proof.
  constructor; [apply Permutation_Equivalence|].
  intros x y H x' y' H'. split; intros; by rewrite ?H, ?H' in *.
Qed.

(** The bytes of a piece of the content [c]. *)
Definition piece_data (c : bytes) (p : piece) : bytes := zslice (pc_begin p) (pc_end p + 1) c.

(** ** The pieces *)

Definition busy_of (w : wstate) : list piece := match w with Busy p => [p] | _ => [] end.
Definition busy (ws : list (string * wstate)) : list piece := concat (map (fun w => busy_of w.2) ws).

Lemma busy_insert ws i k old new :
  ws !! i = Some (k, old) ->
  busy_of old ++ busy (<[i := (k, new)]> ws) ≡ₚ busy_of new ++ busy ws.
Proof.
  revert i. induction ws as [|w ws IH]; intros [|i] Hi; simpl in *; [done..| |].
  - injection Hi as ->. simpl. unfold busy. simpl. aac_reflexivity.
  - unfold busy in *. simpl. specialize (IH i Hi).
    transitivity (busy_of w.2 ++ (busy_of old ++ concat (map (fun w => busy_of w.2) (<[i:=(k, new)]> ws))));
      [aac_reflexivity|]. rewrite IH. aac_reflexivity.
Qed.

Lemma claim_spec key limit pending p rest :
  claim key limit pending = Some (p, rest) ->
  pending ≡ₚ p :: rest /\ pc_index p < limit /\ key ∉ pc_tried p.
Proof.
  revert rest. induction pending as [|q ps IH]; intros rest; simpl; [done|].
  destruct (limit <=? pc_index q) eqn:Hl; [done|]. apply Z.leb_gt in Hl.
  case_bool_decide as Ht.
  - destruct (claim key limit ps) as [[p' r']|] eqn:Hc; simpl; [|done]. intros [= <- <-].
    destruct (IH r' eq_refl) as (Hp & Hi & Hk). split; [|done]. rewrite Hp. apply Permutation_swap.
  - intros [= <- <-]. done.
Qed.

Section Invariant.
  Context (views : list (string * Z)) (window : Z) (c : bytes) (ps : list piece).
Let n := zlen ps.

(** [q] is the original of [p], which may have been tried meanwhile. *)
Definition genuine (p : piece) : Prop :=
  0 <= pc_index p /\ exists q, ps !! Z.to_nat (pc_index p) = Some q /\
    pc_begin p = pc_begin q /\ pc_end p = pc_end q.

Record ms_inv (s : ms) : Prop := {
  mi_next : 0 <= ms_next s <= n;
  mi_pieces : exists lost, (ms_fatal s = false -> lost = []) /\
    lost ++ map pc_index (ms_pending s) ++ map pc_index (busy (ms_workers s)) ++
    Dict.keys (ms_results s) ++ seqZ 0 (ms_next s) ≡ₚ seqZ 0 n;
  mi_genuine : Forall genuine (ms_pending s ++ busy (ms_workers s));
  mi_results : Forall (fun id => exists q, ps !! Z.to_nat id.1 = Some q /\ id.2 = piece_data c q) (ms_results s);
  mi_window : Forall (fun i => i < ms_next s + Z.max 1 window)
                (map pc_index (busy (ms_workers s)) ++ Dict.keys (ms_results s));
  mi_out : ms_out s = map (piece_data c) (take (Z.to_nat (ms_next s)) ps)
}.

Lemma window_mono (l : list Z) a b : a <= b -> Forall (fun i => i < a) l -> Forall (fun i => i < b) l.
Proof. intros Hab Hl. eapply Forall_impl; [exact Hl|]. simpl. lia. Qed.

Lemma ms_inv_init : (forall i p, ps !! i = Some p -> pc_index p = Z.of_nat i) -> ms_inv (ms_init views ps).
Proof.
  intros Hidx.
  assert (busy (ms_workers (ms_init views ps)) = []) as Hbusy.
  { unfold busy. simpl. induction views as [|v vs IH]; simpl; [done|].
    rewrite map_app, concat_app, IH, app_nil_r. induction (Z.to_nat _); [done|]. simpl. done. }
  assert (map pc_index ps = seqZ 0 n) as Hseq.
  { apply list_eq. intros i. unfold n, zlen. rewrite list_lookup_fmap. destruct (ps !! i) as [p|] eqn:Hp; simpl.
    - symmetry. apply lookup_seqZ. apply lookup_lt_Some in Hp as Hlt. rewrite (Hidx _ _ Hp). lia.
    - symmetry. apply lookup_ge_None in Hp. apply lookup_seqZ_ge. lia. }
  split; rewrite ?Hbusy; simpl.
  - unfold n, zlen. lia.
  - exists []. split; [done|]. simpl. rewrite app_nil_r, Hseq. done.
  - rewrite app_nil_r. apply List.Forall_forall. intros p Hp. apply list_elem_of_In, list_elem_of_lookup in Hp as [i Hi].
    unfold genuine. rewrite (Hidx _ _ Hi), Nat2Z.id. split; [lia|]. exists p. done.
  - constructor.
  - constructor.
  - done.
Qed.

Lemma claim_inv i key s s' :
  ms_workers s !! i = Some (key, Idle) -> do_claim n window i key s = Some s' -> ms_inv s -> ms_inv s'.
Proof.
  intros Hw. unfold do_claim. destruct (_ || _); [done|].
  destruct (claim key _ (ms_pending s)) as [[p pend]|] eqn:Hc; [|done]. intros [= <-] [Hn Hp Hg Hr Hwi Ho].
  destruct (claim_spec _ _ _ _ _ Hc) as (Hpe & Hlt & _).
  pose proof (busy_insert (ms_workers s) i key Idle (Busy p) Hw) as Hb. cbn [busy_of app] in Hb.
  split; simpl; unfold set_worker; [done| | |done| |done].
  - destruct Hp as (lost & Hl & Hperm). exists lost. split; [done|]. rewrite <- Hperm, Hb, Hpe. simpl.
    change (pc_index p :: ?l) with ([pc_index p] ++ l). aac_reflexivity.
  - rewrite Hb. rewrite Hpe in Hg. rewrite <- Permutation_middle. done.
  - rewrite Hb. simpl. constructor; [lia|done].
Qed.

Lemma ok_inv i key p s :
  ms_workers s !! i = Some (key, Busy p) -> ms_inv s -> ms_inv (do_ok i key p (piece_data c p) s).
Proof.
  intros Hw [Hn Hp Hg Hr Hwi Ho].
  pose proof (busy_insert (ms_workers s) i key (Busy p) Idle Hw) as Hb. cbn [busy_of app] in Hb.
  assert (Dict.get (pc_index p) (ms_results s) = None) as Hnew.
  { destruct Hp as (lost & _ & Hperm). pose proof (NoDup_seqZ 0 n) as Hnd. rewrite <- Hperm, <- Hb in Hnd.
    destruct (Dict.get (pc_index p) (ms_results s)) as [d|] eqn:Hgd; [|done]. exfalso.
    assert (pc_index p ∈ Dict.keys (ms_results s)) as Hin by (apply Dict.mem_In; unfold Dict.mem; by rewrite Hgd).
    simpl in Hnd. rewrite !NoDup_app in Hnd. destruct Hnd as (_ & _ & _ & _ & Hnd).
    rewrite NoDup_cons in Hnd. destruct Hnd as [Hnd _]. apply Hnd.
    rewrite elem_of_app. right. rewrite elem_of_app. by left. }
  assert (Dict.keys (Dict.set (pc_index p) (piece_data c p) (ms_results s)) =
          Dict.keys (ms_results s) ++ [pc_index p]) as Hk.
  { rewrite Dict.keys_set. unfold Dict.mem. by rewrite Hnew. }
  split; simpl; unfold set_worker; [done| | | | |done].
  - destruct Hp as (lost & Hl & Hperm). exists lost. split; [done|]. rewrite Hk, <- Hperm, <- Hb. simpl.
    change (pc_index p :: ?l) with ([pc_index p] ++ l). aac_reflexivity.
  - rewrite <- Hb in Hg. rewrite <- Permutation_middle in Hg. by apply Forall_cons in Hg as [_ ?].
  - assert (genuine p) as [Hp0 (q & Hq & E1 & E2)].
    { rewrite <- Hb, <- Permutation_middle in Hg. by apply Forall_cons in Hg as [? _]. }
    assert (exists q, ps !! Z.to_nat (pc_index p) = Some q /\ piece_data c p = piece_data c q) as Hpq.
    { exists q. unfold piece_data. by rewrite E1, E2. }
    revert Hr. generalize (ms_results s). clear -Hpq. intros d Hr. induction Hr as [|[k v] d Hkv Hrest IH]; simpl.
    + by constructor.
    + case_decide as Hd; by constructor.
  - rewrite Hk. rewrite <- Hb in Hwi. simpl in Hwi. apply Forall_cons in Hwi as [H1 H2].
    rewrite app_assoc. apply Forall_app. split; [done|]. by constructor.
Qed.

Lemma fail_inv i key p s :
  ms_workers s !! i = Some (key, Busy p) -> ms_inv s -> ms_inv (do_fail views i key p s).
Proof.
  intros Hw [Hn Hp Hg Hr Hwi Ho]. unfold do_fail.
  set (p' := {| pc_index := pc_index p; pc_begin := pc_begin p; pc_end := pc_end p; pc_tried := _ |}).
  set (benched := if _ <=? _ then _ else _). set (lost := negb _).
  set (w' := if bool_decide (key ∈ benched) then Gone else Idle).
  pose proof (busy_insert (ms_workers s) i key (Busy p) w' Hw) as Hb.
  assert (busy_of w' = []) as Hw' by (unfold w'; by case_bool_decide). rewrite Hw' in Hb. cbn [busy_of app] in Hb.
  assert (genuine p') as Hgp.
  { rewrite <- Hb, <- Permutation_middle in Hg. by apply Forall_cons in Hg as [? _]. }
  split; simpl; unfold set_worker; [done| | |done| |done].
  - destruct Hp as (l0 & Hl & Hperm). destruct lost.
    + exists (pc_index p :: l0). rewrite orb_true_r. split; [done|]. rewrite <- Hperm, <- Hb. simpl.
      change (pc_index p :: ?l) with ([pc_index p] ++ l). aac_reflexivity.
    + exists l0. rewrite orb_false_r. split; [done|]. rewrite (sort_by_perm _ _), <- Hperm, <- Hb.
      rewrite map_app. simpl. change (pc_index p :: ?l) with ([pc_index p] ++ l). aac_reflexivity.
  - rewrite <- Hb, <- Permutation_middle in Hg. apply Forall_cons in Hg as [_ Hg].
    destruct lost; [done|]. rewrite (sort_by_perm _ _), <- app_assoc. cbn [app].
    rewrite <- Permutation_middle. by constructor.
  - rewrite <- Hb in Hwi. simpl in Hwi. by apply Forall_cons in Hwi as [_ ?].
Qed.

Lemma del_perm (k : Z) (d : dict Z bytes) v :
  NoDup (Dict.keys d) -> Dict.get k d = Some v -> Dict.keys d ≡ₚ k :: Dict.keys (Dict.del k d).
Proof.
  unfold Dict.keys, Dict.del. induction d as [|[k' v'] d IH]; simpl; [done|].
  intros [Hk Hnd]%NoDup_cons. rewrite filter_cons. case_decide as Hd.
  - intros _. subst k'. rewrite decide_False by (simpl; tauto). simpl.
    assert (filter (fun kv : Z * bytes => k <> kv.1) d = d) as ->; [|done].
    clear -Hk. induction d as [|[a b] d IH]; [done|]. simpl in Hk. apply not_elem_of_cons in Hk as [Hne Hk].
    rewrite filter_cons, decide_True by done. by rewrite IH.
  - intros Hg. rewrite decide_True by done. simpl. rewrite (IH Hnd Hg). apply Permutation_swap.
Qed.

Lemma emit_inv s s' : do_emit n s = Some s' -> ms_inv s -> ms_inv s'.
Proof.
  unfold do_emit. destruct (ms_fatal s) eqn:Hf; [done|]. destruct (n <=? ms_next s) eqn:Hn; [done|]. simpl.
  apply Z.leb_gt in Hn. destruct (Dict.get (ms_next s) (ms_results s)) as [d|] eqn:Hd; [|done].
  intros [= <-] [Hn0 Hp Hg Hr Hwi Ho].
  assert (NoDup (Dict.keys (ms_results s))) as Hnd.
  { destruct Hp as (lost & _ & Hperm). pose proof (NoDup_seqZ 0 n) as Hnd. rewrite <- Hperm in Hnd.
    rewrite !NoDup_app in Hnd. tauto. }
  pose proof (del_perm _ _ _ Hnd Hd) as Hk.
  assert (exists q, ps !! Z.to_nat (ms_next s) = Some q /\ d = piece_data c q) as (q & Hq & Hdq).
  { apply Dict.get_Some_In in Hd. rewrite List.Forall_forall in Hr. apply (Hr _ Hd). }
  split; simpl; rewrite ?Hf; [lia| |done| | |].
  - destruct Hp as (lost & Hl & Hperm). exists lost. split; [intros _; by apply Hl|].
    rewrite <- Hperm, Hk. rewrite (seqZ_app 0 (ms_next s) 1) by lia.
    change (seqZ (0 + ms_next s) 1) with [0 + ms_next s]. rewrite Z.add_0_l.
    change (ms_next s :: ?l) with ([ms_next s] ++ l). aac_reflexivity.
  - unfold Dict.del. rewrite List.Forall_forall in Hr |- *. intros x Hx.
    apply Hr. apply list_elem_of_In in Hx. apply list_elem_of_In. by apply list_elem_of_filter in Hx as [_ ?].
  - rewrite Hk, <- Permutation_middle in Hwi. apply Forall_cons in Hwi as [_ Hwi].
    eapply window_mono; [|exact Hwi]. lia.
  - rewrite Ho, Hdq. replace (Z.to_nat (ms_next s + 1)) with (S (Z.to_nat (ms_next s))) by lia.
    by rewrite (take_S_r _ _ _ Hq), map_app.
Qed.

Lemma leave_inv i key s s' :
  ms_workers s !! i = Some (key, Idle) -> do_leave n i key s = Some s' -> ms_inv s -> ms_inv s'.
Proof.
  intros Hw. unfold do_leave. destruct (_ || _); [|done]. intros [= <-] [Hn Hp Hg Hr Hwi Ho].
  pose proof (busy_insert (ms_workers s) i key Idle Gone Hw) as Hb. cbn [busy_of app] in Hb.
  split; simpl; unfold set_worker; [done| |by rewrite Hb|done|by rewrite Hb|done].
  destruct Hp as (lost & Hl & Hperm). exists lost. split; [done|]. by rewrite Hb.
Qed.

Lemma reachable_inv s :
  (forall i p, ps !! i = Some p -> pc_index p = Z.of_nat i) ->
  reachable views n window (piece_data c) (ms_init views ps) s -> ms_inv s.
Proof.
  intros Hidx. induction 1 as [|s ev s' _ IH Hex Hdata]; [by apply ms_inv_init|].
  destruct ev as [i|i|i d|i|]; simpl in Hex.
  - destruct (ms_workers s !! i) as [[key []]|] eqn:Hw; try done. by eapply claim_inv.
  - destruct (ms_workers s !! i) as [[key []]|] eqn:Hw; try done. by eapply leave_inv.
  - destruct (ms_workers s !! i) as [[key []]|] eqn:Hw; try done. injection Hex as <-.
    rewrite (Hdata i d key p eq_refl Hw). by apply ok_inv.
  - destruct (ms_workers s !! i) as [[key []]|] eqn:Hw; try done. injection Hex as <-. by apply fail_inv.
  - by eapply emit_inv.
Qed.

End Invariant.

(** ** The pieces tile the range *)

Lemma cut_pieces_index fuel i b last size j p :
  cut_pieces fuel i b last size !! j = Some p -> pc_index p = i + Z.of_nat j.
Proof.
  revert i b j. induction fuel as [|fuel IH]; intros i b j; simpl; [done|].
  destruct (b <=? last); [|done]. destruct j as [|j]; simpl.
  - intros [= <-]. simpl. lia.
  - intros Hj. rewrite (IH _ _ _ Hj). lia.
Qed.

Lemma cut_pieces_take fuel i b last size c j :
  0 <= b -> 0 < size -> (Z.to_nat (last + 1 - b) <= fuel)%nat ->
  concat (map (piece_data c) (take j (cut_pieces fuel i b last size))) =
  zslice b (Z.min (b + Z.of_nat j * size) (last + 1)) c.
Proof.
  revert i b j. induction fuel as [|fuel IH]; intros i b j Hb Hs Hf; simpl.
  - rewrite take_nil. simpl. rewrite zslice_nil by lia. done.
  - destruct (b <=? last) eqn:Hl; [apply Z.leb_le in Hl|apply Z.leb_gt in Hl].
    + destruct j as [|j]; [simpl; rewrite zslice_nil by lia; done|]. cbn [take map concat].
      rewrite Z.max_r, IH by lia. unfold piece_data at 1. cbn [pc_begin pc_end].
      destruct (Z.le_ge_cases (b + size) (last + 1)) as [Hle|Hge].
      * rewrite !Z.min_l with (n := b + size - 1) by lia.
        replace (b + size - 1 + 1) with (b + size) by lia.
        rewrite <- (zslice_split b (b + size)) by lia. f_equal; lia.
      * rewrite (Z.min_r (b + size - 1)) by lia. rewrite (zslice_nil (b + size)) by lia.
        rewrite app_nil_r. f_equal. lia.
    + rewrite take_nil. simpl. rewrite zslice_nil by lia. done.
Qed.

Lemma pieces_of_index begin last size j p :
  pieces_of begin last size !! j = Some p -> pc_index p = Z.of_nat j.
Proof. intros Hj. apply cut_pieces_index in Hj. lia. Qed.

Lemma pieces_of_take begin last size c j :
  0 <= begin -> 0 < size ->
  concat (map (piece_data c) (take j (pieces_of begin last size))) =
  zslice begin (Z.min (begin + Z.of_nat j * size) (last + 1)) c.
Proof. intros H0 Hs. by apply cut_pieces_take. Qed.

Lemma pieces_of_all begin last size c :
  0 <= begin -> 0 < size ->
  concat (map (piece_data c) (pieces_of begin last size)) = zslice begin (last + 1) c.
Proof.
  intros H0 Hs. pose proof (pieces_of_take begin last size c (Z.to_nat (last + 1 - begin) + length (pieces_of begin last size)) H0 Hs) as Ht.
  rewrite take_ge in Ht by lia. rewrite Ht. destruct (Z.le_gt_cases (last + 1) begin).
  - rewrite !zslice_nil by lia. done.
  - f_equal. apply Z.min_r. nia.
Qed.

(** The states a read of [begin .. last] can get into. *)
Definition read_state (views : list (string * Z)) (window : Z) (c : bytes) (begin last size : Z) (s : ms) : Prop :=
  let ps := pieces_of begin last size in
  reachable views (zlen ps) window (piece_data c) (ms_init views ps) s.

Lemma read_state_inv views window c begin last size s :
  read_state views window c begin last size s ->
  ms_inv window c (pieces_of begin last size) s.
Proof. intros Hr. eapply reachable_inv; [|exact Hr]. intros i p. apply pieces_of_index. Qed.

(** C1: however the workers interleave, fail and retry, what a multi-source
    read has handed out is the requested range of the content in order, up to
    the piece it stands at, and the whole range once every piece is out. *)
Theorem multisource_in_order views window c begin last size s :
  0 <= begin -> 0 < size -> read_state views window c begin last size s ->
  concat (ms_out s) = zslice begin (Z.min (begin + ms_next s * size) (last + 1)) c /\
  (ms_next s = zlen (pieces_of begin last size) -> concat (ms_out s) = zslice begin (last + 1) c).
Proof.
  intros Hb Hs Hr. destruct (read_state_inv _ _ _ _ _ _ _ Hr) as [Hn _ _ _ _ Ho]. split.
  - rewrite Ho, pieces_of_take by done. f_equal. rewrite Z2Nat.id; lia.
  - intros Hall. rewrite Ho, take_ge by (unfold zlen in *; lia). by apply pieces_of_all.
Qed.

Lemma count_below (l : list Z) a k : NoDup l -> Forall (fun i => a <= i < a + k) l -> 0 <= k -> zlen l <= k.
Proof.
  intros Hnd Hall Hk. assert (l ⊆ seqZ a k) as Hsub.
  { intros x Hx. rewrite List.Forall_forall in Hall. apply elem_of_seqZ.
    apply Hall. by apply list_elem_of_In. }
  apply NoDup_submseteq in Hsub; [|done]. apply submseteq_length in Hsub. rewrite length_seqZ in Hsub.
  unfold zlen. lia.
Qed.

(** A read that has not failed has every piece in exactly one place:
    pending, with a worker, waiting in the reorder window or handed out; and
    it holds at most [max 1 window] pieces in flight and in the window, which
    bounds the memory it uses. *)
Theorem multisource_pieces_and_memory views window c begin last size s :
  read_state views window c begin last size s -> ms_fatal s = false ->
  let held := map pc_index (busy (ms_workers s)) ++ Dict.keys (ms_results s) in
  map pc_index (ms_pending s) ++ held ++ seqZ 0 (ms_next s) ≡ₚ seqZ 0 (zlen (pieces_of begin last size)) /\
  NoDup held /\ zlen held <= Z.max 1 window.
Proof.
  intros Hr Hf held. destruct (read_state_inv _ _ _ _ _ _ _ Hr) as [Hn Hp _ _ Hw _].
  destruct Hp as (lost & Hl & Hperm). rewrite (Hl Hf) in Hperm. cbn [app] in Hperm.
  assert (map pc_index (ms_pending s) ++ held ++ seqZ 0 (ms_next s) ≡ₚ
          seqZ 0 (zlen (pieces_of begin last size))) as Hall by (unfold held; rewrite <- Hperm; aac_reflexivity).
  pose proof (NoDup_seqZ 0 (zlen (pieces_of begin last size))) as Hnd. rewrite <- Hall in Hnd.
  rewrite !NoDup_app in Hnd. destruct Hnd as (_ & _ & Hnd & Hdis & _).
  split; [done|]. split; [done|]. apply (count_below _ (ms_next s)); [done| |lia].
  apply List.Forall_forall. intros x Hx%list_elem_of_In. split.
  - specialize (Hdis x Hx). assert (x ∈ seqZ 0 (zlen (pieces_of begin last size))) as Hin%elem_of_seqZ.
    { rewrite <- Hall, !elem_of_app. tauto. }
    destruct (Z.le_gt_cases (ms_next s) x); [done|]. exfalso. apply Hdis, elem_of_seqZ. lia.
  - rewrite List.Forall_forall in Hw. apply Hw. by apply list_elem_of_In.
Qed.

(** ** Progress *)

Definition worker_ok (n : Z) (s : ms) (w : string * wstate) : Prop :=
  match w.2 with
  | Idle => True
  | Busy p => w.1 ∉ pc_tried p
  | Gone => w.1 ∈ ms_benched s \/ ms_fatal s = true \/ n <= ms_next s
  end.

Record live_inv (views : list (string * Z)) (n : Z) (s : ms) : Prop := {
  li_sorted : StronglySorted (fun p q => pc_index p <= pc_index q) (ms_pending s);
  li_keys : map fst (ms_workers s) = concat (map (fun v => replicate (Z.to_nat (Z.max 1 v.2)) v.1) views);
  li_workers : Forall (worker_ok n s) (ms_workers s)
}.

Lemma claim_sublist key limit pending p rest :
  claim key limit pending = Some (p, rest) -> rest `sublist_of` pending.
Proof.
  revert rest. induction pending as [|q ps IH]; intros rest; simpl; [done|].
  destruct (limit <=? pc_index q); [done|]. case_bool_decide.
  - destruct (claim key limit ps) as [[p' r']|]; simpl; [|done]. intros [= <- <-].
    constructor. by apply IH.
  - intros [= <- <-]. by constructor.
Qed.

Lemma sorted_sublist {A} (R : A -> A -> Prop) (l k : list A) :
  l `sublist_of` k -> StronglySorted R k -> StronglySorted R l.
Proof.
  induction 1 as [|x l k Hs IH|x l k Hs IH]; intros Hk; [done| |];
    apply StronglySorted_inv in Hk as [Hk Hx]; [|by apply IH].
  constructor; [by apply IH|]. rewrite List.Forall_forall in Hx |- *. intros y Hy. apply Hx.
  apply list_elem_of_In. eapply elem_of_submseteq; [by apply list_elem_of_In|by apply sublist_submseteq].
Qed.

Lemma claim_none key limit pending p :
  StronglySorted (fun p q => pc_index p <= pc_index q) pending ->
  claim key limit pending = None -> p ∈ pending -> pc_index p < limit -> key ∈ pc_tried p.
Proof.
  induction 1 as [|q ps Hs IH Hq]; simpl; [by intros _ ?%not_elem_of_nil|].
  intros Hc [->|Hin]%elem_of_cons Hlt.
  - rewrite (proj2 (Z.leb_gt _ _)) in Hc by done. by case_bool_decide.
  - rewrite List.Forall_forall in Hq. pose proof (Hq p (proj1 (list_elem_of_In _ _) Hin)).
    rewrite (proj2 (Z.leb_gt _ _)) in Hc by lia. case_bool_decide; [|done].
    destruct (claim key limit ps); [done|]. by apply IH.
Qed.

Lemma worker_ok_mono n s s' ws :
  ms_benched s ⊆ ms_benched s' -> (ms_fatal s = true -> ms_fatal s' = true) -> ms_next s <= ms_next s' ->
  Forall (worker_ok n s) ws -> Forall (worker_ok n s') ws.
Proof.
  intros Hb Hf Hn Hws. eapply Forall_impl; [exact Hws|]. intros [k []]; unfold worker_ok; simpl; [done..|].
  intros [?|[?|?]]; [left; by apply Hb|right; left; by apply Hf|right; right; lia].
Qed.

Lemma set_worker_keys i key old new ws :
  ws !! i = Some (key, old) -> map fst (set_worker i key new ws) = map fst ws.
Proof.
  intros Hi. unfold set_worker. change (map fst) with (fmap (M := list) (@fst string wstate)).
  rewrite list_fmap_insert. apply list_insert_id. by rewrite list_lookup_fmap, Hi.
Qed.

Lemma exec_live views n window ev s s' :
  exec views n window ev s = Some s' -> live_inv views n s -> live_inv views n s'.
Proof.
  intros Hex [Hs Hk Hw].
  destruct ev as [i|i|i d|i|]; simpl in Hex;
    try (destruct (ms_workers s !! i) as [[key w]|] eqn:Hi; [|done]; destruct w as [|p|]; try done).
  - unfold do_claim in Hex. destruct (_ || _); [done|].
    destruct (claim key _ (ms_pending s)) as [[p rest]|] eqn:Hc; [|done]. injection Hex as <-.
    split; simpl; [eapply sorted_sublist; [eapply claim_sublist; exact Hc|done]
                  |by rewrite (set_worker_keys _ _ _ _ _ Hi)|].
    apply Forall_insert; [by apply (worker_ok_mono n s)|]. by apply claim_spec in Hc as (_ & _ & ?).
  - unfold do_leave in Hex. destruct (_ || _) eqn:Hg; [|done]. injection Hex as <-.
    split; simpl; [done|by rewrite (set_worker_keys _ _ _ _ _ Hi)|].
    apply Forall_insert; [by apply (worker_ok_mono n s)|]. unfold worker_ok. simpl.
    rewrite !orb_true_iff, Z.leb_le, bool_decide_eq_true in Hg. tauto.
  - injection Hex as <-. split; simpl; [done|by rewrite (set_worker_keys _ _ _ _ _ Hi)|].
    apply Forall_insert; [by apply (worker_ok_mono n s)|done].
  - injection Hex as <-. unfold do_fail. set (benched := if _ <=? _ then _ else _). set (lost := negb _).
    assert (ms_benched s ⊆ benched) as Hsub by (unfold benched; destruct (_ <=? _); set_solver).
    split; simpl; [destruct lost; [done|apply sort_by_sorted]|by rewrite (set_worker_keys _ _ _ _ _ Hi)|].
    apply Forall_insert.
    + apply (worker_ok_mono n s); simpl; [done|by intros ->|done|done].
    + unfold worker_ok. simpl. case_bool_decide; [by left|done].
  - unfold do_emit in Hex. destruct (_ || _); [done|].
    destruct (Dict.get _ _); [|done]. injection Hex as <-. split; simpl; [done..|].
    apply (worker_ok_mono n s); simpl; [done|done|lia|done].
Qed.

Lemma init_live views n ps :
  (forall i p, ps !! i = Some p -> pc_index p = Z.of_nat i) -> live_inv views n (ms_init views ps).
Proof.
  intros Hidx. split; simpl.
  - assert (forall m, (forall i p, ps !! i = Some p -> pc_index p = m + Z.of_nat i) ->
      StronglySorted (fun p q => pc_index p <= pc_index q) ps) as Hgen; [|by apply (Hgen 0)].
    clear. induction ps as [|p ps IH]; intros m Hm; [constructor|].
    constructor; [apply (IH (m + 1)); intros i q Hq; specialize (Hm (S i) q Hq); lia|].
    apply List.Forall_forall. intros q Hq%list_elem_of_In. apply list_elem_of_lookup in Hq as [i Hi].
    pose proof (Hm 0%nat p eq_refl). pose proof (Hm (S i) q Hi). lia.
  - induction views as [|v vs IH]; simpl; [done|]. rewrite map_app, IH. f_equal.
    induction (Z.to_nat _) as [|k IHk]; simpl; [done|]. by rewrite IHk.
  - apply List.Forall_forall. intros w Hw. induction views as [|v vs IH]; simpl in Hw; [done|].
    apply in_app_or in Hw as [Hw|Hw]; [|by apply IH].
    apply list_elem_of_In, elem_of_replicate in Hw as [-> _]. done.
Qed.

Lemma read_state_live views window c begin last size s :
  read_state views window c begin last size s -> live_inv views (zlen (pieces_of begin last size)) s.
Proof.
  unfold read_state. induction 1 as [|s ev s' _ IH Hex _]; [|by eapply exec_live].
  apply init_live. intros i p. apply pieces_of_index.
Qed.

(** Whoever a store of the read belongs to has a worker. *)
Lemma has_worker views n s v :
  live_inv views n s -> v ∈ views -> exists i w, ms_workers s !! i = Some (v.1, w).
Proof.
  intros [_ Hk _] Hv. assert (v.1 ∈ map fst (ms_workers s)) as Hin.
  { rewrite Hk. apply list_elem_of_In, in_concat. exists (replicate (Z.to_nat (Z.max 1 v.2)) v.1). split.
    - apply in_map_iff. exists v. split; [done|]. by apply list_elem_of_In.
    - apply list_elem_of_In, elem_of_replicate. split; [done|lia]. }
  apply (list_elem_of_fmap fst) in Hin as ([k w] & Hkw & Hin). apply list_elem_of_lookup in Hin as [i Hi].
  exists i, w. simpl in Hkw. by rewrite Hkw.
Qed.

(** C9: a multi-source read is never stuck as long as some store that is
    neither benched nor tried on the piece it waits for is left: before it
    is over, a worker or the consumer can always take a step that is not a
    worker giving up. *)
Theorem multisource_progress views window c begin last size s :
  read_state views window c begin last size s -> ms_fatal s = false ->
  let n := zlen (pieces_of begin last size) in
  ms_next s < n ->
  (forall p, p ∈ ms_pending s -> pc_index p = ms_next s ->
    Exists (fun v => v.1 ∉ pc_tried p /\ v.1 ∉ ms_benched s) views) ->
  exists ev s', exec views n window ev s = Some s' /\ forall i, ev <> EvLeave i.
Proof.
  intros Hr Hf n Hn Havail. pose proof (read_state_live _ _ _ _ _ _ _ Hr) as Hlive.
  destruct (read_state_inv _ _ _ _ _ _ _ Hr) as [Hn0 (lost & Hl & Hperm) _ _ _ _].
  rewrite (Hl Hf) in Hperm. cbn [app] in Hperm.
  assert (ms_next s ∈ seqZ 0 n) as Hin by (apply elem_of_seqZ; lia).
  unfold n in Hin. rewrite <- Hperm, !elem_of_app in Hin. destruct Hin as [Hin|[Hin|[Hin|Hin]]].
  - apply (list_elem_of_fmap pc_index) in Hin as (p & Hidx & Hp).
    pose proof (Havail p Hp (eq_sym Hidx)) as Hex. apply List.Exists_exists in Hex as (v & Hv & Ht & Hb).
    apply list_elem_of_In in Hv. destruct (has_worker _ _ _ _ Hlive Hv) as (i & w & Hi).
    destruct w as [|q|].
    + exists (EvClaim i). simpl. rewrite Hi. unfold do_claim. rewrite Hf. cbn [orb].
      rewrite (proj2 (Z.leb_gt n (ms_next s)) Hn), (bool_decide_eq_false_2 _ Hb). cbn [orb].
      destruct (claim v.1 (ms_next s + Z.max 1 window) (ms_pending s)) as [[q rest]|] eqn:Hc; [by eexists|].
      exfalso. apply Ht. destruct Hlive as [Hs _ _]. eapply claim_none; [exact Hs|exact Hc|done|lia].
    + exists (EvOk i []). simpl. rewrite Hi. by eexists.
    + exfalso. destruct Hlive as [_ _ Hw]. rewrite Forall_lookup in Hw. specialize (Hw _ _ Hi).
      unfold worker_ok in Hw. simpl in Hw. destruct Hw as [?|[?|?]]; [done|congruence|unfold n in Hn; lia].
  - apply (list_elem_of_fmap pc_index) in Hin as (p & Hidx & Hp). unfold busy in Hp.
    apply list_elem_of_In, in_concat in Hp as (l & Hl' & Hp). apply in_map_iff in Hl' as ([k w] & <- & Hw).
    destruct w as [|q|]; simpl in Hp; try done. apply list_elem_of_In, list_elem_of_lookup in Hw as [i Hi].
    exists (EvOk i []). simpl. rewrite Hi. by eexists.
  - exists EvEmit. simpl. unfold do_emit. rewrite Hf. cbn [orb]. rewrite (proj2 (Z.leb_gt n (ms_next s)) Hn).
    apply Dict.mem_In in Hin. unfold Dict.mem in Hin. destruct (Dict.get _ _); [by eexists|done].
  - apply elem_of_seqZ in Hin. lia.
Qed.

(** ** Termination *)

Section Cost.
  Context (views : list (string * Z)).

(** Stores a piece was not tried on. *)
Definition untried (tried : list string) : Z := zlen (List.filter (fun v => negb (bool_decide (v.1 ∈ tried))) views).

Definition piece_cost (p : piece) : Z := 2 * untried (pc_tried p) + 2.

Definition worker_cost (w : string * wstate) : Z :=
  match w.2 with Idle => 1 | Busy p => piece_cost p | Gone => 0 end.

(** Bounds the number of events a state can still see. *)
Definition cost (s : ms) : Z :=
  zsum (map piece_cost (ms_pending s)) + zsum (map worker_cost (ms_workers s)) + zlen (ms_results s).

Lemma zsum_perm l k : l ≡ₚ k -> zsum l = zsum k.
Proof. induction 1; simpl in *; lia. Qed.

Lemma worker_cost_insert i key old new ws :
  ws !! i = Some (key, old) ->
  zsum (map worker_cost (set_worker i key new ws)) =
  zsum (map worker_cost ws) - worker_cost (key, old) + worker_cost (key, new).
Proof.
  revert i. induction ws as [|w ws IH]; intros [|i] Hi; simpl in *; [done..| |].
  - injection Hi as ->. unfold set_worker. simpl. lia.
  - unfold set_worker in *. simpl. rewrite (IH i Hi). lia.
Qed.

Lemma filter_len_le {A} (f g : A -> bool) l :
  (forall x, f x = true -> g x = true) -> zlen (List.filter f l) <= zlen (List.filter g l).
Proof.
  intros Hfg. induction l as [|x l IH]; simpl; [lia|]. specialize (Hfg x).
  destruct (f x), (g x); rewrite ?zlen_cons; try lia; by specialize (Hfg eq_refl).
Qed.

Lemma untried_less key tried v :
  v ∈ views -> v.1 = key -> key ∉ tried -> untried (key :: tried) + 1 <= untried tried.
Proof.
  intros Hv <- Hk. unfold untried. induction views as [|u vs IH]; [by apply not_elem_of_nil in Hv|]. simpl.
  assert (forall l : list (string * Z), zlen (List.filter (fun u => negb (bool_decide (u.1 ∈ v.1 :: tried))) l) <=
            zlen (List.filter (fun u => negb (bool_decide (u.1 ∈ tried))) l)) as Hle.
  { intros l. apply filter_len_le. intros x. rewrite !negb_true_iff, !bool_decide_eq_false. set_solver. }
  apply elem_of_cons in Hv as [<-|Hv].
  - rewrite (bool_decide_eq_true_2 (v.1 ∈ v.1 :: tried)), (bool_decide_eq_false_2 (v.1 ∈ tried)) by set_solver.
    cbn [negb]. rewrite zlen_cons. specialize (Hle vs). lia.
  - specialize (IH Hv). destruct (bool_decide (u.1 ∈ v.1 :: tried)) eqn:H1, (bool_decide (u.1 ∈ tried)) eqn:H2;
      cbn [negb]; rewrite ?zlen_cons; try lia.
    apply bool_decide_eq_false in H1. apply bool_decide_eq_true in H2. set_solver.
Qed.

Lemma worker_view n s i key w :
  live_inv views n s -> ms_workers s !! i = Some (key, w) -> exists v, v ∈ views /\ v.1 = key.
Proof.
  intros [_ Hk _] Hi. apply (list_lookup_fmap_Some_2 fst) in Hi. simpl in Hi.
  change (fst <$> ms_workers s) with (map fst (ms_workers s)) in Hi. rewrite Hk in Hi.
  apply list_elem_of_lookup_2, list_elem_of_In, in_concat in Hi as (l & Hl & Hin).
  apply in_map_iff in Hl as (v & <- & Hv). apply list_elem_of_In, elem_of_replicate in Hin as [Hin _].
  exists v. split; [by apply list_elem_of_In|done].
Qed.

Lemma del_shorter (k : Z) (d : dict Z bytes) v : Dict.get k d = Some v -> zlen (Dict.del k d) + 1 <= zlen d.
Proof.
  unfold Dict.del. induction d as [|[k' v'] d IH]; simpl; [done|]. rewrite filter_cons.
  pose proof (length_filter (fun kv : Z * bytes => k <> kv.1) d) as Hlen.
  case_decide as Hd; intros Hg.
  - rewrite decide_False by (simpl; tauto). unfold zlen. simpl. lia.
  - rewrite decide_True by done. rewrite !zlen_cons. specialize (IH Hg). lia.
Qed.

Lemma set_longer (k : Z) v (d : dict Z bytes) : zlen (Dict.set k v d) <= zlen d + 1.
Proof. induction d as [|[k' v'] d IH]; simpl; [done|]. case_decide; rewrite ?zlen_cons; lia. Qed.

Lemma untried_nonneg t : 0 <= untried t.
Proof. apply zlen_nonneg. Qed.

Lemma exec_cost n window ev s s' :
  exec views n window ev s = Some s' -> live_inv views n s -> cost s' + 1 <= cost s.
Proof.
  intros Hex Hlive. unfold cost.
  destruct ev as [i|i|i d|i|]; simpl in Hex;
    try (destruct (ms_workers s !! i) as [[key w]|] eqn:Hi; [|done]; destruct w as [|p|]; try done).
  - unfold do_claim in Hex. destruct (_ || _); [done|].
    destruct (claim key _ (ms_pending s)) as [[p rest]|] eqn:Hc; [|done]. injection Hex as <-. cbn [ms_pending ms_workers ms_results].
    apply claim_spec in Hc as (Hp & _). rewrite (worker_cost_insert _ _ _ _ _ Hi).
    rewrite (zsum_perm _ _ (Permutation_map piece_cost Hp)). cbn [worker_cost snd map zsum foldr] in *. unfold zsum in *. simpl. lia.
  - unfold do_leave in Hex. destruct (_ || _) eqn:Hg; [|done]. injection Hex as <-. cbn [ms_pending ms_workers ms_results].
    rewrite (worker_cost_insert _ _ _ _ _ Hi). cbn [worker_cost snd map zsum foldr] in *. unfold zsum in *. simpl. lia.
  - injection Hex as <-. unfold do_ok. cbn [ms_pending ms_workers ms_results]. rewrite (worker_cost_insert _ _ _ _ _ Hi).
    destruct (worker_view _ _ _ _ _ Hlive Hi) as (v & Hv & Hk). destruct Hlive as [_ _ Hw].
    rewrite Forall_lookup in Hw. specialize (Hw _ _ Hi). unfold worker_ok in Hw. simpl in Hw.
    pose proof (untried_less _ _ _ Hv Hk Hw). pose proof (untried_nonneg (key :: pc_tried p)).
    pose proof (set_longer (pc_index p) d (ms_results s)). unfold worker_cost at 2 3. unfold piece_cost. simpl. lia.
  - injection Hex as <-. unfold do_fail. set (benched := if _ <=? _ then _ else _). set (lost := negb _). cbn [ms_pending ms_workers ms_results].
    rewrite (worker_cost_insert _ _ _ _ _ Hi).
    destruct (worker_view _ _ _ _ _ Hlive Hi) as (v & Hv & Hk). destruct Hlive as [_ _ Hw].
    rewrite Forall_lookup in Hw. specialize (Hw _ _ Hi). unfold worker_ok in Hw. simpl in Hw.
    pose proof (untried_less _ _ _ Hv Hk Hw). pose proof (untried_nonneg (key :: pc_tried p)).
    assert (worker_cost (key, if bool_decide (key ∈ benched) then Gone else Idle) <= 1)
      by (unfold worker_cost; simpl; case_bool_decide; lia).
    destruct lost; [unfold worker_cost at 2, piece_cost; simpl; lia|].
    rewrite (zsum_perm _ _ (Permutation_map piece_cost (sort_by_perm _ _))), map_app, zsum_app.
    unfold worker_cost at 2, piece_cost at 2 3. simpl. lia.
  - unfold do_emit in Hex. destruct (_ || _); [done|].
    destruct (Dict.get _ _) eqn:Hg; [|done]. injection Hex as <-. cbn [ms_pending ms_workers ms_results].
    apply del_shorter in Hg. lia.
Qed.

Lemma exec_all_cost n window evs s s' :
  exec_all views n window evs s = Some s' -> live_inv views n s -> zlen evs + cost s' <= cost s.
Proof.
  revert s. induction evs as [|ev evs IH]; intros s; simpl; [intros [= <-] _; rewrite zlen_nil; lia|].
  destruct (exec views n window ev s) as [s1|] eqn:Hex; [|done]. intros Hall Hlive.
  pose proof (exec_cost _ _ _ _ _ Hex Hlive). specialize (IH s1 Hall (exec_live _ _ _ _ _ _ Hex Hlive)).
  rewrite zlen_cons. lia.
Qed.

Lemma cut_pieces_cost fuel i b last size :
  zsum (map piece_cost (cut_pieces fuel i b last size)) =
  zlen (cut_pieces fuel i b last size) * (2 * zlen views + 2).
Proof.
  revert i b. induction fuel as [|fuel IH]; intros i b; simpl; [done|]. destruct (b <=? last); [|done].
  rewrite zlen_cons. cbn [map zsum foldr]. unfold zsum in IH. rewrite IH.
  assert (forall p, pc_tried p = [] -> piece_cost p = 2 * zlen views + 2) as Hnew; [|rewrite Hnew by done; lia].
  intros p Hp. unfold piece_cost, untried. rewrite Hp. do 2 f_equal. clear. induction views as [|v vs IH]; simpl; [done|].
  simpl in IH. by rewrite !zlen_cons, IH.
Qed.

Lemma idle_cost (l : list (string * Z)) :
  zsum (map worker_cost (concat (map (fun v => replicate (Z.to_nat (Z.max 1 v.2)) (v.1, Idle)) l))) =
  zsum (map (fun v => Z.max 1 v.2) l).
Proof.
  induction l as [|v l IH]; [done|]. cbn [map concat]. rewrite map_app, zsum_app, IH.
  cbn [zsum foldr]. f_equal. rewrite <- (Z2Nat.id (Z.max 1 v.2)) at 2 by lia.
  induction (Z.to_nat _) as [|k IHk]; [done|]. cbn [replicate map zsum foldr] in *.
  unfold zsum in IHk. rewrite IHk. unfold worker_cost. simpl. lia.
Qed.

End Cost.

(** C10: a multi-source read cannot go on for ever: every piece is tried at
    most once on a store, so a run of [n] pieces over [k] stores has at most
    [n * (2 k + 2)] events and one more for each worker. *)
Theorem multisource_bounded_run views window begin last size evs s :
  let ps := pieces_of begin last size in
  exec_all views (zlen ps) window evs (ms_init views ps) = Some s ->
  zlen evs <= zlen ps * (2 * zlen views + 2) + zsum (map (fun v => Z.max 1 v.2) views).
Proof.
  intros ps Hall. pose proof (init_live views (zlen ps) ps (pieces_of_index begin last size)) as Hlive.
  pose proof (exec_all_cost _ _ _ _ _ _ Hall Hlive) as Hc.
  assert (0 <= cost views s) as H0.
  { unfold cost. pose proof (zlen_nonneg (ms_results s)).
    assert (forall l, 0 <= zsum (map (piece_cost views) l)) as Hp.
    { intros l. apply zsum_nonneg, Forall_map, Forall_true. intros p. unfold piece_cost.
      pose proof (untried_nonneg views (pc_tried p)). lia. }
    assert (0 <= zsum (map (worker_cost views) (ms_workers s))).
    { apply zsum_nonneg, Forall_map, Forall_true. intros [k [|p|]]; unfold worker_cost, piece_cost; simpl; try lia.
      pose proof (untried_nonneg views (pc_tried p)). lia. }
    specialize (Hp (ms_pending s)). lia. }
  assert (cost views (ms_init views ps) =
          zlen ps * (2 * zlen views + 2) + zsum (map (fun v => Z.max 1 v.2) views)) as Hinit; [|lia].
  unfold cost. cbn [ms_init ms_pending ms_workers ms_results]. rewrite zlen_nil, Z.add_0_r. f_equal.
  - apply cut_pieces_cost.
  - apply idle_cost.
Qed.

(** ** Fetching *)

Section FetchSpec.
  Context {W : Type} `{StoreLaws W}.

(** The store of a view holds the parts [bs] of the version. *)
Record view_ok (w : W) (view : StoreView) (bs : list bytes) : Prop := {
  vo_sizes : sv_part_sizes view = map zlen bs;
  vo_len : zlen bs <= zlen (sv_message_ids view);
  vo_held : forall i m b, znth (sv_message_ids view) i = Some m -> znth bs i = Some b ->
    holds w (sv_key view) m b
}.

Lemma fetch_parts_spec key mids bs ps out (w : W) :
  (forall i m b, znth mids i = Some m -> znth bs i = Some b -> holds w key m b) ->
  Forall (range_ok mids bs) ps ->
  let '(r, w') := fetch_parts key ps out w in
  kept w w' /\
  match r with
  | Ok d => d = out ++ concat (map (range_bytes bs) ps)
  | Raise x => is_Exception x = true /\ ~ up w key
  end.
Proof.
  intros Hh Hok. revert out w Hh. induction Hok as [|p ps (b & Hb & Hm & Hr & He) Hok IH]; intros out w Hh; simpl.
  { rewrite app_nil_r. split; [apply kept_refl|done]. }
  unfold sbind. pose proof (download_law w key (pr_mid p) b (pr_begin p) (pr_end p) (Hh _ _ _ Hm Hb)
    ltac:(lia) ltac:(lia) He) as Hd.
  destruct (st_download key (pr_mid p) (pr_begin p) (pr_end p) w) as [r w1]. destruct Hd as (K1 & K2 & Hd).
  destruct r as [s|x]; [|split; [by split|done]].
  destruct (fault s) as [x|]; [destruct Hd as (Hx & Hu & _); split; [by split|done]|].
  specialize (IH (out ++ stream_bytes s) w1 (fun i m b' H1 H2 => K1 _ _ _ (Hh i m b' H1 H2))).
  destruct (fetch_parts key ps (out ++ stream_bytes s) w1) as [r w2]. destruct IH as [K3 Hres].
  split; [eapply kept_trans; [by split|done]|]. destruct r as [d|x].
  - rewrite Hres, Hd, <- app_assoc. unfold range_bytes at 2. by rewrite Hb.
  - destruct Hres as [? Hu]. split; [done|]. intros ?. apply Hu. by apply K2.
Qed.

(** A worker fetches exactly its piece from the store it works for,
    across whatever part boundaries that store's layout has, or its fetch
    raises an [Exception], and then only because the store is failing; no
    other byte string is ever put into the reorder window. *)
Theorem fetch_exact view bs p (w : W) :
  let c := concat bs in
  view_ok w view bs -> 0 <= pc_begin p -> pc_begin p <= pc_end p -> pc_end p < zlen c ->
  let '(r, w') := fetch view (zlen c) p w in
  kept w w' /\
  match r with
  | Ok d => d = piece_data c p
  | Raise x => is_Exception x = true /\ ~ up w (sv_key view)
  end.
Proof.
  intros c [Hs Hl Hh] Hp0 Hp1 Hp2. unfold fetch. rewrite Hs.
  destruct (map_range_spec (sv_message_ids view) bs (pc_begin p) (pc_end p)) as (l & Hrun & Hbytes & Hok);
    [done|rewrite last_byte_in with (begin := pc_begin p); fold c; lia|fold c; lia|].
  fold c in Hrun, Hbytes. rewrite (last_byte_in (pc_begin p)) in Hbytes by lia.
  unfold sbind at 1, slift. rewrite Hrun. unfold sbind.
  pose proof (fetch_parts_spec (sv_key view) _ _ _ [] w Hh Hok) as Hf.
  destruct (fetch_parts (sv_key view) l [] w) as [r w']. destruct Hf as [Hk Hr].
  destruct r as [d|x]; [|done]. cbn [app] in Hr. rewrite Hbytes in Hr.
  assert (zlen d = pc_end p - pc_begin p + 1) as Hlen.
  { rewrite Hr, zlen_zslice; lia. }
  rewrite Hlen, Z.eqb_refl. simpl. done.
Qed.

End FetchSpec.

(** ** A run that never ends *)

Definition two_views : list (string * Z) := [("A", 2); ("B", 2)]%string.
Definition four_bytes : bytes := [x61; x62; x63; x64].
Definition four_pieces : list piece := pieces_of 0 3 1.

(** Store B fails piece 0, which is put back for A; A then fails two other
    pieces and is benched. *)
Definition hang_run : list event :=
  [EvClaim 2; EvClaim 0; EvClaim 1; EvFail 0; EvClaim 0; EvFail 2; EvFail 0;
   EvOk 1 [x63]; EvLeave 1; EvClaim 2; EvOk 2 [x62]; EvClaim 2; EvOk 2 [x64]].

(** A multi-source read can hang: when a store is benched, the pieces
    already put back for it are not looked at again, so the read may wait for
    a piece that every store left has failed -- it is not over, no error is
    raised, and no worker nor the consumer can take a step. *)
Theorem multisource_can_hang :
  exists s, exec_all two_views 4 8 hang_run (ms_init two_views four_pieces) = Some s /\
    finished 4 s = false /\ ms_next s = 0 /\ ms_fatal s = false /\
    forall ev, exec two_views 4 8 ev s = None.
Proof.
  eexists. split; [vm_compute; reflexivity|]. repeat split.
  intros [i|i|i d|i|]; [..|reflexivity]; simpl;
    destruct i as [|[|[|[|i]]]]; reflexivity.
Qed.

(** ** Witnesses *)

(** Every fetch of a run that succeeds delivers its piece. *)
Fixpoint faithful (views : list (string * Z)) (n window : Z) (c : bytes) (evs : list event) (s : ms) : Prop :=
  match evs with
  | [] => True
  | ev :: evs =>
      match ev with
      | EvOk i d => match ms_workers s !! i with Some (_, Busy p) => d = piece_data c p | _ => True end
      | _ => True
      end /\ match exec views n window ev s with Some s => faithful views n window c evs s | None => True end
  end.

Lemma exec_reachable views n window c s0 evs s1 s :
  reachable views n window (piece_data c) s0 s1 -> faithful views n window c evs s1 ->
  exec_all views n window evs s1 = Some s -> reachable views n window (piece_data c) s0 s.
Proof.
  revert s1. induction evs as [|ev evs IH]; intros s1 Hr Hd Hall; simpl in Hall, Hd; [by injection Hall as <-|].
  destruct (exec views n window ev s1) as [s2|] eqn:Hex; [|done]. destruct Hd as [Hd Hrest].
  apply (IH s2); [|done|done]. eapply reach_step; [exact Hr|exact Hex|].
  intros i d key p -> Hw. by rewrite Hw in Hd.
Qed.

(** The first steps of [hang_run]. *)
Definition early_run : list event := [EvClaim 2; EvClaim 0; EvOk 2 [x61]; EvEmit; EvFail 0].
Definition early_state : ms :=
  default (ms_init two_views four_pieces) (exec_all two_views 4 8 early_run (ms_init two_views four_pieces)).

Lemma early_reachable : read_state two_views 8 four_bytes 0 3 1 early_state.
Proof.
  apply (exec_reachable _ _ _ _ _ early_run (ms_init two_views four_pieces));
    [constructor|vm_compute; repeat split|vm_compute; reflexivity].
Qed.

Lemma multisource_in_order_witness : concat (ms_out early_state) = [x61].
Proof.
  destruct (multisource_in_order two_views 8 four_bytes 0 3 1 early_state ltac:(lia) ltac:(lia) early_reachable)
    as [Ho _]. rewrite Ho. reflexivity.
Defined.

Lemma multisource_pieces_and_memory_witness :
  zlen (map pc_index (busy (ms_workers early_state)) ++ Dict.keys (ms_results early_state)) <= 8.
Proof.
  apply (multisource_pieces_and_memory two_views 8 four_bytes 0 3 1 early_state early_reachable). reflexivity.
Defined.

Lemma multisource_progress_witness :
  exists ev s', exec two_views 4 8 ev early_state = Some s' /\ forall i, ev <> EvLeave i.
Proof.
  apply (multisource_progress two_views 8 four_bytes 0 3 1 early_state early_reachable); [reflexivity|reflexivity|].
  assert (Forall (fun p => "B"%string ∉ pc_tried p) (ms_pending early_state)) as Hb
    by (apply (bool_decide_unpack _); vm_compute; exact I).
  intros p Hp _. right. left. split; [|by apply not_elem_of_nil].
  rewrite List.Forall_forall in Hb. by apply Hb, list_elem_of_In.
Defined.

Lemma multisource_bounded_run_witness : zlen hang_run <= 28.
Proof.
  assert (exists s, exec_all two_views (zlen four_pieces) 8 hang_run (ms_init two_views four_pieces) = Some s)
    as [s Hs] by (eexists; vm_compute; reflexivity).
  apply (multisource_bounded_run two_views 8 0 3 1 hang_run s Hs).
Defined.

Definition demo_view : StoreView :=
  {| sv_key := "dc:2"; sv_message_ids := [21; 22]; sv_part_sizes := [3; 2] |}.

Lemma demo_view_ok : view_ok demo_world demo_view demo_parts.
Proof.
  split; [done|done|]. intros i m b [_ Hm]%znth_lookup [_ Hb]%znth_lookup.
  destruct (Z.to_nat i) as [|[|k]]; simpl in *; [by injection Hm as <-; injection Hb as <-..|done].
Qed.

Lemma fetch_exact_witness :
  match (fetch demo_view (zlen (concat demo_parts))
           {| pc_index := 0; pc_begin := 1; pc_end := 3; pc_tried := [] |} demo_world).1 with
  | Ok d => d = [x62; x63; x64]
  | Raise _ => False
  end.
Proof.
  pose proof (fetch_exact demo_view demo_parts {| pc_index := 0; pc_begin := 1; pc_end := 3; pc_tried := [] |}
                demo_world demo_view_ok ltac:(done) ltac:(done) ltac:(done)) as Hf.
  revert Hf. destruct (fetch _ _ _ _) as [[d|x] w']; intros [_ Hr]; [exact Hr|].
  destruct Hr as [_ Hu]. apply Hu. simpl. by intros ?%list_elem_of_singleton.
Defined.
