(* ===== verification/FileRefs.v ===== *)
(** * File references and their list ([TGFSFileRef], [FileRefList] of
      [tgdcfs/core/model/directory.py]; [tgdcfs/core/model/stat.py])

    Objects live in a heap and are named by identity, a [nat].  The list of
    the file refs of a directory keeps an index by name; every mutator
    maintains both.  The name of a ref never changes, so it is a function of
    the identity. *)

From S2P Require Import Prelude Errors StoreKey FileVersion.

Open Scope Z_scope.
Open Scope py_scope.

(** ** Stats *)

Record FileStat := { fst_size : Z; fst_created_at : Z; fst_modified_at : Z }.

#[export] Instance FileStat_eq_dec : EqDecision FileStat.
Proof. solve_decision. Defined.

(** Python values a metadata reader may find. *)
Inductive pyval :=
| PNone
| PBool (b : bool)
| PInt (n : Z)
| PStr (s : string)
| PDict (d : list (string * pyval)).

(** [isinstance(v, int) and not isinstance(v, bool)]. *)
Definition as_int (v : pyval) : option Z := match v with PInt n => Some n | _ => None end.

Definition stat_to_dict (s : FileStat) : pyval :=
  PDict [("size", PInt (fst_size s)); ("createdAt", PInt (fst_created_at s));
         ("modifiedAt", PInt (fst_modified_at s))]%string.

Definition stat_from_dict (data : pyval) : option FileStat :=
  match data with
  | PDict d =>
      match Dict.get "size"%string d, Dict.get "createdAt"%string d, Dict.get "modifiedAt"%string d with
      | Some size, Some created, Some modified =>
          match as_int size, as_int created, as_int modified with
          | Some s, Some c, Some m => Some {| fst_size := s; fst_created_at := c; fst_modified_at := m |}
          | _, _, _ => None
          end
      | _, _, _ => None
      end
  | _ => None
  end.

(** ** File refs *)

Record TGFSFileRef := {
  fr_message_id : Z;
  fr_name : string;
  fr_location : nat;                             (* the directory, by identity *)
  fr_mirrors : dict string Z;
  fr_store : option string;
  fr_stat : option FileStat;
  fr_stat_epoch : Z
}.

(** [bool(s)] of an optional string. *)
Definition truthy (s : option string) : bool :=
  match s with Some s => negb (bool_decide (s = EmptyString)) | None => false end.

Record TGFSFileRefSerialized := {
  frs_messageId : Z;
  frs_name : string;
  frs_mirrors : option (dict string Z);
  frs_store : option string;
  frs_stat : option pyval
}.

Definition ref_to_dict (r : TGFSFileRef) : TGFSFileRefSerialized :=
  {| frs_messageId := fr_message_id r;
     frs_name := fr_name r;
     frs_mirrors := if nonempty (fr_mirrors r) then Some (fr_mirrors r) else None;
     frs_store := if truthy (fr_store r) then fr_store r else None;
     frs_stat := option_map stat_to_dict (fr_stat r) |}.

(** The ref [TGFSDirectory.from_dict] builds for the directory [location]. *)
Definition ref_from_dict (location : nat) (data : TGFSFileRefSerialized) : TGFSFileRef :=
  {| fr_message_id := frs_messageId data;
     fr_name := frs_name data;
     fr_location := location;
     fr_mirrors := Dict.of_pairs (map (fun kv => (normalize_store_key kv.1, kv.2))
                                      (default [] (frs_mirrors data)));
     fr_store := if truthy (frs_store data) then option_map normalize_store_key (frs_store data) else None;
     fr_stat := match frs_stat data with Some d => stat_from_dict d | None => None end;
     fr_stat_epoch := 0 |}.

Definition ref_owned_by (store_key : string) (r : TGFSFileRef) : bool :=
  match fr_store r with None => true | Some s => bool_decide (s = store_key) end.

Definition with_place (mid : Z) (mirrors : dict string Z) (store : option string) (r : TGFSFileRef) : TGFSFileRef :=
  {| fr_message_id := mid; fr_name := fr_name r; fr_location := fr_location r; fr_mirrors := mirrors;
     fr_store := store; fr_stat := fr_stat r; fr_stat_epoch := fr_stat_epoch r |}.

Definition ref_relocate (primary_key : string) (r : TGFSFileRef) : TGFSFileRef :=
  match fr_store r with
  | None => r
  | Some s =>
      if bool_decide (s = primary_key) then r
      else
        let m := Dict.setdefault s (fr_message_id r) (fr_mirrors r) in
        match Dict.get primary_key m with
        | Some mid =>
            if 0 <? mid then with_place mid (Dict.del primary_key m) (Some primary_key) r
            else with_place (fr_message_id r) m (fr_store r) r
        | None => with_place (fr_message_id r) m (fr_store r) r
        end
  end.

(** ** The indexed list *)

Record FileRefList := { items : list nat; by_name : dict string (list nat) }.

Section FileRefList.
  Context (nm : nat -> string).                  (* the name of a ref *)

Definition index (r : nat) (idx : dict string (list nat)) : dict string (list nat) :=
  Dict.set (nm r) (default [] (Dict.get (nm r) idx) ++ [r]) idx.

Definition unindex (r : nat) (idx : dict string (list nat)) : dict string (list nat) :=
  match Dict.get (nm r) idx with
  | None => idx
  | Some refs =>
      let refs := List.filter (fun x => negb (x =? r)%nat) refs in
      if nonempty refs then Dict.set (nm r) refs idx else Dict.del (nm r) idx
  end.

Definition reindex (l : list nat) : dict string (list nat) :=
  foldl (fun idx r => index r idx) [] l.

(** [FileRefList(refs)]. *)
Definition frl_of (l : list nat) : FileRefList := {| items := l; by_name := reindex l |}.

Definition named (name : string) (l : FileRefList) : list nat := default [] (Dict.get name (by_name l)).

Definition frl_append (r : nat) (l : FileRefList) : FileRefList :=
  {| items := items l ++ [r]; by_name := index r (by_name l) |}.

Definition frl_extend (rs : list nat) (l : FileRefList) : FileRefList :=
  foldl (fun l r => frl_append r l) l rs.

(** [list.insert]: a negative index counts from the end, and both clamp. *)
Definition insert_at (i : Z) (r : nat) (l : list nat) : list nat :=
  let i := if i <? 0 then Z.max 0 (i + zlen l) else Z.min i (zlen l) in
  ztake i l ++ r :: zdrop i l.

Definition frl_insert (i : Z) (r : nat) (l : FileRefList) : FileRefList :=
  {| items := insert_at i r (items l); by_name := index r (by_name l) |}.

(** [list.remove]: the first item that is [x] or compares equal to it. *)
Fixpoint list_remove (eq : nat -> nat -> exc bool) (x : nat) (l : list nat) : exc (list nat) :=
  match l with
  | [] => Raise ValueError
  | y :: l' =>
      let* same := (if (y =? x)%nat then Ok true else eq y x) in
      if same then Ok l' else rmap (cons y) (list_remove eq x l')
  end.

Definition frl_remove (eq : nat -> nat -> exc bool) (r : nat) (l : FileRefList) : exc FileRefList :=
  let* its := list_remove eq r (items l) in
  Ok {| items := its; by_name := unindex r (by_name l) |}.

(** An integer index of a list: negative ones count from the end. *)
Definition norm_index (i : Z) (l : list nat) : option nat :=
  let i := if i <? 0 then i + zlen l else i in
  if (0 <=? i) && (i <? zlen l) then Some (Z.to_nat i) else None.

Definition frl_pop (i : Z) (l : FileRefList) : exc (nat * FileRefList) :=
  match norm_index i (items l) with
  | None => Raise IndexError
  | Some j =>
      match items l !! j with
      | None => Raise IndexError
      | Some r => Ok (r, {| items := delete j (items l); by_name := unindex r (by_name l) |})
      end
  end.

Definition frl_clear (l : FileRefList) : FileRefList := {| items := []; by_name := [] |}.

(** [l[i] = r] and [del l[i]] for an integer [i]. *)
Definition frl_setitem (i : Z) (r : nat) (l : FileRefList) : exc FileRefList :=
  match norm_index i (items l) with
  | None => Raise IndexError
  | Some j => Ok (frl_of (<[j := r]> (items l)))
  end.

Definition frl_delitem (i : Z) (l : FileRefList) : exc FileRefList :=
  match norm_index i (items l) with
  | None => Raise IndexError
  | Some j => Ok (frl_of (delete j (items l)))
  end.

Definition frl_iadd (rs : list nat) (l : FileRefList) : FileRefList := frl_extend rs l.

Definition frl_imul (n : Z) (l : FileRefList) : FileRefList :=
  frl_of (concat (replicate (Z.to_nat n) (items l))).

(** [__reduce__]: a copy is rebuilt from the items. *)
Definition frl_copy (l : FileRefList) : FileRefList := frl_of (items l).

(** *** The index is the list, by name *)

(** Looking a name up finds the refs of that name, in list order. *)
Definition index_ok (l : FileRefList) : Prop :=
  Dict.wf (by_name l) /\
  forall n, Dict.get n (by_name l) =
    match List.filter (fun r => bool_decide (nm r = n)) (items l) with [] => None | rs => Some rs end.

Lemma named_filter n l : index_ok l -> named n l = List.filter (fun r => bool_decide (nm r = n)) (items l).
Proof.
  intros [_ Hl]. unfold named. rewrite Hl.
  by destruct (List.filter _ (items l)).
Qed.

Lemma append_ok r l : index_ok l -> index_ok (frl_append r l).
Proof.
  intros [Hwf Hl]. split; [by apply Dict.wf_set|]. intros n. simpl. unfold index.
  rewrite List.filter_app. simpl. case_bool_decide as Hn.
  - subst n. rewrite Dict.get_set_eq, Hl. by destruct (List.filter _ (items l)).
  - rewrite Dict.get_set_ne, app_nil_r by done. apply Hl.
Qed.

Lemma extend_ok rs l : index_ok l -> index_ok (frl_extend rs l).
Proof. revert l. induction rs as [|r rs IH]; intros l Hl; simpl; [done|]. by apply IH, append_ok. Qed.

Lemma clear_ok l : index_ok (frl_clear l).
Proof. split; [apply Dict.wf_nil|done]. Qed.

Lemma frl_of_ok l : index_ok (frl_of l).
Proof.
  assert (forall acc, index_ok acc ->
    index_ok {| items := items acc ++ l; by_name := foldl (fun idx r => index r idx) (by_name acc) l |}) as Hgen;
    [|apply (Hgen (frl_clear {| items := []; by_name := [] |})), clear_ok].
  induction l as [|r l IH]; intros acc Hacc; simpl.
  - rewrite app_nil_r. by destruct acc.
  - rewrite cons_middle, app_assoc. apply (IH (frl_append r acc)). by apply append_ok.
Qed.

Lemma filter_none {A} (f : A -> bool) l : (forall x, x ∈ l -> f x = true) -> List.filter f l = l.
Proof.
  induction l as [|x l IH]; intros Hf; simpl; [done|]. rewrite Hf by left. f_equal.
  apply IH. intros y Hy. apply Hf. by right.
Qed.

Lemma filter_comm {A} (f g : A -> bool) l : List.filter f (List.filter g l) = List.filter g (List.filter f l).
Proof.
  induction l as [|x l IH]; simpl; [done|]. destruct (f x) eqn:Hf, (g x) eqn:Hg; simpl; rewrite ?Hf, ?Hg; by rewrite ?IH.
Qed.

(** The index after [r] is gone from the list. *)
Lemma unindex_ok r l :
  index_ok l ->
  index_ok {| items := List.filter (fun x => negb (x =? r)%nat) (items l); by_name := unindex r (by_name l) |}.
Proof.
  intros [Hwf Hl]. unfold unindex, index_ok. simpl.
  assert (forall n, nm r <> n -> List.filter (fun x => bool_decide (nm x = n))
            (List.filter (fun x => negb (x =? r)%nat) (items l)) =
          List.filter (fun x => bool_decide (nm x = n)) (items l)) as Hother.
  { intros n Hn. rewrite filter_comm. apply filter_none. intros x [_ Hx%bool_decide_eq_true]%list_elem_of_In%filter_In.
    destruct (x =? r)%nat eqn:He; [|done]. apply Nat.eqb_eq in He. congruence. }
  rewrite Hl. destruct (List.filter (fun x => bool_decide (nm x = nm r)) (items l)) as [|y ys] eqn:Hf.
  - split; [done|]. intros n. rewrite Hl. destruct (decide (nm r = n)) as [<-|Hn]; [|by rewrite Hother].
    by rewrite filter_comm, Hf.
  - rewrite <- Hf. set (refs := List.filter (fun x => negb (x =? r)%nat) _).
    assert (List.filter (fun x => bool_decide (nm x = nm r))
             (List.filter (fun x => negb (x =? r)%nat) (items l)) = refs) as Hr by (by rewrite filter_comm).
    destruct (nonempty refs) eqn:Hne.
    + split; [by apply Dict.wf_set|]. intros n. destruct (decide (nm r = n)) as [<-|Hn].
      * rewrite Dict.get_set_eq, Hr. by destruct refs.
      * rewrite Dict.get_set_ne, Hother by done. apply Hl.
    + apply nonempty_false in Hne. split; [by apply Dict.wf_del|]. intros n. destruct (decide (nm r = n)) as [<-|Hn].
      * by rewrite Dict.get_del_eq, Hr, Hne.
      * rewrite Dict.get_del_ne, Hother by done. apply Hl.
Qed.

Lemma filter_away r l : r ∉ l -> List.filter (fun x => negb (x =? r)%nat) l = l.
Proof.
  intros Hr. apply filter_none. intros x Hx. destruct (x =? r)%nat eqn:He; [|done].
  apply Nat.eqb_eq in He. congruence.
Qed.

(** Removing an item that compares equal to no other one. *)
Lemma list_remove_spec eq r l :
  NoDup l -> r ∈ l -> (forall y, y ∈ l -> y <> r -> eq y r = Ok false) ->
  list_remove eq r l = Ok (List.filter (fun x => negb (x =? r)%nat) l).
Proof.
  induction l as [|y l IH]; [by intros _ ?%not_elem_of_nil|]. intros [Hy Hnd]%NoDup_cons Hin Heq. simpl.
  destruct (y =? r)%nat eqn:He; simpl.
  - apply Nat.eqb_eq in He as ->. by rewrite filter_away.
  - apply Nat.eqb_neq in He. rewrite (Heq y) by (try left; done). simpl.
    apply elem_of_cons in Hin as [->|Hin]; [done|].
    rewrite IH; [done..|]. intros z Hz. apply Heq. by right.
Qed.

Lemma remove_ok eq r l :
  index_ok l -> NoDup (items l) -> r ∈ items l -> (forall y, y ∈ items l -> y <> r -> eq y r = Ok false) ->
  exists l', frl_remove eq r l = Ok l' /\ index_ok l' /\
    items l' = List.filter (fun x => negb (x =? r)%nat) (items l).
Proof.
  intros Hl Hnd Hin Heq. unfold frl_remove. rewrite (list_remove_spec _ _ _ Hnd Hin Heq). simpl.
  eexists. split; [done|]. split; [by apply unindex_ok|done].
Qed.

Lemma delete_filter j r (l : list nat) :
  NoDup l -> l !! j = Some r -> delete j l = List.filter (fun x => negb (x =? r)%nat) l.
Proof.
  revert j. induction l as [|y l IH]; intros j Hnd Hj; [done|]. apply NoDup_cons in Hnd as [Hy Hnd].
  destruct j as [|j]; simpl in *.
  - injection Hj as ->. by rewrite Nat.eqb_refl, filter_away.
  - destruct (y =? r)%nat eqn:He; simpl; [|by rewrite (IH j Hnd Hj)].
    apply Nat.eqb_eq in He as ->. by apply list_elem_of_lookup_2 in Hj.
Qed.

Lemma pop_ok i r l l' : index_ok l -> NoDup (items l) -> frl_pop i l = Ok (r, l') -> index_ok l'.
Proof.
  intros Hl Hnd. unfold frl_pop. destruct (norm_index i (items l)) as [j|]; [|done].
  destruct (items l !! j) as [x|] eqn:Hj; [|done]. intros [= -> <-].
  rewrite (delete_filter _ _ _ Hnd Hj). by apply unindex_ok.
Qed.

Lemma insert_ok i r l :
  index_ok l -> (forall x, x ∈ items l -> nm x <> nm r) -> index_ok (frl_insert i r l).
Proof.
  intros Hl Hnew. destruct (append_ok r l Hl) as [Hwf Hget]. split; [done|]. intros n.
  cbn [frl_insert by_name items] in *. rewrite Hget. cbn [frl_append items]. f_equal.
  unfold insert_at. set (j := if i <? 0 then _ else _).
  rewrite !List.filter_app. simpl. rewrite <- (ztake_zdrop j (items l)) at 1. rewrite List.filter_app.
  case_bool_decide as Hn; [|by rewrite app_nil_r].
  assert (forall k, k ⊆ items l -> List.filter (fun x => bool_decide (nm x = n)) k = []) as Hnone.
  { intros k Hk. induction k as [|x k IH]; simpl; [done|].
    rewrite bool_decide_eq_false_2; [|rewrite <- Hn; apply Hnew, Hk; left].
    apply IH. intros y Hy. apply Hk. by right. }
  assert (ztake j (items l) ⊆ items l /\ zdrop j (items l) ⊆ items l) as [H1 H2].
  { rewrite <- (ztake_zdrop j (items l)) at 2 4. set_solver. }
  by rewrite !Hnone.
Qed.

(** The mutators of the list. *)
Inductive frl_op :=
| OpAppend (r : nat) | OpExtend (rs : list nat) | OpInsert (i : Z) (r : nat)
| OpRemove (eq : nat -> nat -> exc bool) (r : nat) | OpPop (i : Z) | OpClear
| OpSet (i : Z) (r : nat) | OpDel (i : Z) | OpIadd (rs : list nat) | OpImul (n : Z) | OpCopy.

Definition frl_exec (op : frl_op) (l : FileRefList) : exc FileRefList :=
  match op with
  | OpAppend r => Ok (frl_append r l)
  | OpExtend rs => Ok (frl_extend rs l)
  | OpInsert i r => Ok (frl_insert i r l)
  | OpRemove eq r => frl_remove eq r l
  | OpPop i => rmap snd (frl_pop i l)
  | OpClear => Ok (frl_clear l)
  | OpSet i r => frl_setitem i r l
  | OpDel i => frl_delitem i l
  | OpIadd rs => Ok (frl_iadd rs l)
  | OpImul n => Ok (frl_imul n l)
  | OpCopy => Ok (frl_copy l)
  end.

(** What a call has to respect: a ref to be taken out is in the list once
    and compares equal to no other, an inserted one has a new name. *)
Definition frl_pre (op : frl_op) (l : FileRefList) : Prop :=
  match op with
  | OpRemove eq r => NoDup (items l) /\ r ∈ items l /\ forall y, y ∈ items l -> y <> r -> eq y r = Ok false
  | OpPop _ => NoDup (items l)
  | OpInsert _ r => forall x, x ∈ items l -> nm x <> nm r
  | _ => True
  end.

(** Whatever sequence of list operations changes the refs of a
    directory, the index by name stays what a scan of the list would give:
    [named] returns the refs of a name, all of them, in list order. *)
Theorem file_index_consistent op l l' :
  index_ok l -> frl_pre op l -> frl_exec op l = Ok l' ->
  index_ok l' /\ forall n, named n l' = List.filter (fun r => bool_decide (nm r = n)) (items l').
Proof.
  intros Hl Hpre Hex. assert (index_ok l') as Hok; [|split; [done|]; intros n; by apply named_filter].
  destruct op; simpl in *; try (injection Hex as <-).
  - by apply append_ok.
  - by apply extend_ok.
  - by apply insert_ok.
  - destruct Hpre as (Hnd & Hin & Heq). destruct (remove_ok _ _ _ Hl Hnd Hin Heq) as (k & Hk & Hok & _).
    congruence.
  - destruct (frl_pop i l) as [[r k]|] eqn:Hp; simpl in Hex; [|done]. injection Hex as <-. by eapply pop_ok.
  - apply clear_ok.
  - unfold frl_setitem in Hex. destruct (norm_index i (items l)); [|done]. injection Hex as <-. apply frl_of_ok.
  - unfold frl_delitem in Hex. destruct (norm_index i (items l)); [|done]. injection Hex as <-. apply frl_of_ok.
  - by apply extend_ok.
  - apply frl_of_ok.
  - apply frl_of_ok.
Qed.

End FileRefList.

Definition demo_names (r : nat) : string := if (r <? 2)%nat then "a" else "b".

Lemma file_index_consistent_witness :
  named "a" {| items := [0; 1; 2]%nat; by_name := [("a", [0; 1]%nat); ("b", [2%nat])] |} = [0; 1]%nat.
Proof.
  destruct (file_index_consistent demo_names (OpAppend 2) (frl_of demo_names [0; 1]%nat)
    {| items := [0; 1; 2]%nat; by_name := [("a", [0; 1]%nat); ("b", [2%nat])] |}) as [_ Hn];
    [apply frl_of_ok|exact I|reflexivity|]. rewrite Hn. reflexivity.
Defined.

(** [insert] is the exception to "in list order": a ref inserted before
    one of the same name is indexed after it. *)
Theorem insert_breaks_index_order :
  let l := frl_insert demo_names 0 1 (frl_of demo_names [0; 2]%nat) in
  items l = [1; 0; 2]%nat /\ named "a" l = [0; 1]%nat.
Proof. done. Qed.

(** ** Relocation *)

(** The descriptor id a ref knows for a store. *)
Definition id_in (k : string) (r : TGFSFileRef) : option Z :=
  if bool_decide (fr_store r = Some k) then Some (fr_message_id r) else Dict.get k (fr_mirrors r).

(** Re-expressing a ref for a new primary loses no copy of the
    descriptor: every store keeps the id it had, and the ref belongs to the
    new primary exactly when that store has a copy (a ref of no recorded
    store belongs to any primary and is left alone). *)
Theorem ref_relocate_keeps_copies primary s r :
  fr_store r = Some s -> (forall m, Dict.get s (fr_mirrors r) = Some m -> m = fr_message_id r) ->
  (forall k, id_in k (ref_relocate primary r) = id_in k r) /\
  (ref_owned_by primary (ref_relocate primary r) = true <->
   s = primary \/ exists m, Dict.get primary (fr_mirrors r) = Some m /\ 0 < m).
Proof.
  intros Hs Hcons. unfold ref_relocate, ref_owned_by, id_in. rewrite !Hs.
  case_bool_decide as Hp; [rewrite Hs; split; [done|]; rewrite bool_decide_eq_true; tauto|].
  assert (forall k, Dict.get k (Dict.setdefault s (fr_message_id r) (fr_mirrors r)) =
    if bool_decide (Some s = Some k) then Some (fr_message_id r) else Dict.get k (fr_mirrors r)) as Hsd.
  { intros k. unfold Dict.setdefault, Dict.mem.
    destruct (Dict.get s (fr_mirrors r)) as [m|] eqn:Hm; case_bool_decide as Hk.
    - injection Hk as <-. by rewrite Hm, (Hcons m eq_refl).
    - done.
    - injection Hk as <-. by rewrite Dict.get_set_eq.
    - rewrite Dict.get_set_ne; [done|congruence]. }
  rewrite (Hsd primary), (bool_decide_eq_false_2 (Some s = Some primary)) by congruence.
  destruct (Dict.get primary (fr_mirrors r)) as [mid|] eqn:Hm; [destruct (0 <? mid) eqn:H0|]; simpl; rewrite ?Hs; split.
  - intros k. case_bool_decide as Hk.
    + injection Hk as <-. rewrite bool_decide_eq_false_2 by congruence. done.
    + rewrite Dict.get_del_ne, Hsd by congruence. done.
  - rewrite bool_decide_eq_true_2 by done. split; [|done]. intros _. right. exists mid. split; [done|lia].
  - intros k. rewrite Hsd. by case_bool_decide.
  - rewrite bool_decide_eq_false_2 by done. split; [done|]. intros [?|(m & [= <-] & ?)]; [done|lia].
  - intros k. rewrite Hsd. by case_bool_decide.
  - rewrite bool_decide_eq_false_2 by done. split; [done|]. by intros [?|(m & ? & ?)].
Qed.

Lemma ref_relocate_keeps_copies_witness :
  ref_owned_by "dc:2" (ref_relocate "dc:2"
    {| fr_message_id := 5; fr_name := "f"; fr_location := 0; fr_mirrors := [("dc:2", 9)]%string;
       fr_store := Some "tg:1"%string; fr_stat := None; fr_stat_epoch := 0 |}) = true.
Proof.
  apply (ref_relocate_keeps_copies "dc:2" "tg:1"); [reflexivity|done|]. right. exists 9. split; [reflexivity|lia].
Defined.

(** A complete stat survives; anything else reads as missing. *)
Lemma stat_roundtrip s : stat_from_dict (stat_to_dict s) = Some s.
Proof. by destruct s. Qed.
