(* ===== verification/Directory.v ===== *)
(** * The directory tree ([TGFSDirectory] of [tgdcfs/core/model/directory.py];
      [tgdcfs/core/model/metadata.py])

    Directories and file refs are mutable objects that point at each other,
    so the tree is a heap of objects named by identity.  Every method is a
    state transformer of the heap; [datetime.now()] is an argument.  Loops
    along parent and child pointers carry fuel; on a well-formed heap the
    number of directories is enough. *)

From S2P Require Import Prelude Errors StoreKey FileVersion FileRefs.

Open Scope Z_scope.
Open Scope py_scope.

Record TGFSDirectory := {
  d_name : string;
  parent : option nat;
  children : list nat;
  files : FileRefList;
  d_created_at : datetime;
  d_modified_at : datetime
}.

Record heap := {
  h_dirs : gmap nat TGFSDirectory;
  h_refs : gmap nat TGFSFileRef;
  h_fresh : nat                                  (* the next identity *)
}.

Definition empty_heap : heap := {| h_dirs := ∅; h_refs := ∅; h_fresh := 0 |}.

Definition no_dir : TGFSDirectory :=
  {| d_name := ""; parent := None; children := []; files := {| items := []; by_name := [] |};
     d_created_at := FIRST_DAY_OF_EPOCH; d_modified_at := FIRST_DAY_OF_EPOCH |}.
Definition no_ref : TGFSFileRef :=
  {| fr_message_id := 0; fr_name := ""; fr_location := 0; fr_mirrors := []; fr_store := None;
     fr_stat := None; fr_stat_epoch := 0 |}.

(** Attribute access on an object. *)
Definition dir_at (h : heap) (d : nat) : TGFSDirectory := default no_dir (h_dirs h !! d).
Definition ref_at (h : heap) (r : nat) : TGFSFileRef := default no_ref (h_refs h !! r).
Definition name_of (h : heap) (r : nat) : string := fr_name (ref_at h r).

Definition put_dir (d : nat) (x : TGFSDirectory) (h : heap) : heap :=
  {| h_dirs := <[d := x]> (h_dirs h); h_refs := h_refs h; h_fresh := h_fresh h |}.
Definition put_ref (r : nat) (x : TGFSFileRef) (h : heap) : heap :=
  {| h_dirs := h_dirs h; h_refs := <[r := x]> (h_refs h); h_fresh := h_fresh h |}.

Definition with_name (n : string) (x : TGFSDirectory) : TGFSDirectory :=
  {| d_name := n; parent := parent x; children := children x; files := files x;
     d_created_at := d_created_at x; d_modified_at := d_modified_at x |}.
Definition with_parent (p : option nat) (x : TGFSDirectory) : TGFSDirectory :=
  {| d_name := d_name x; parent := p; children := children x; files := files x;
     d_created_at := d_created_at x; d_modified_at := d_modified_at x |}.
Definition with_children (c : list nat) (x : TGFSDirectory) : TGFSDirectory :=
  {| d_name := d_name x; parent := parent x; children := c; files := files x;
     d_created_at := d_created_at x; d_modified_at := d_modified_at x |}.
Definition with_files (f : FileRefList) (x : TGFSDirectory) : TGFSDirectory :=
  {| d_name := d_name x; parent := parent x; children := children x; files := f;
     d_created_at := d_created_at x; d_modified_at := d_modified_at x |}.
Definition with_modified (t : datetime) (x : TGFSDirectory) : TGFSDirectory :=
  {| d_name := d_name x; parent := parent x; children := children x; files := files x;
     d_created_at := d_created_at x; d_modified_at := t |}.

Abbreviation hst := (st exn heap).

Definition modify_dir (d : nat) (f : TGFSDirectory -> TGFSDirectory) : hst unit := fun h =>
  (Ok tt, put_dir d (f (dir_at h d)) h).

Definition touch_modified (now : datetime) (d : nat) : hst unit := modify_dir d (with_modified now).

(** A new directory object; [__post_init__] checks the name. *)
Definition new_dir (name : string) (parent : option nat) (created modified : datetime) : hst nat := fun h =>
  match validate_name name with
  | Raise e => (Raise e, h)
  | Ok _ =>
      (Ok (h_fresh h),
       {| h_dirs := <[h_fresh h := {| d_name := name; parent := parent; children := [];
                                      files := {| items := []; by_name := [] |};
                                      d_created_at := created; d_modified_at := modified |}]> (h_dirs h);
          h_refs := h_refs h; h_fresh := S (h_fresh h) |})
  end.

(** A new ref object. *)
Definition new_ref (x : TGFSFileRef) : hst nat := fun h =>
  (Ok (h_fresh h),
   {| h_dirs := h_dirs h; h_refs := <[h_fresh h := x]> (h_refs h); h_fresh := S (h_fresh h) |}).

Definition root_dir (now : datetime) : hst nat := new_dir "root" None now now.

(** ** Equality

    [==] of the two dataclasses: identity, or the compared fields in order,
    the first difference deciding.  It recurs through parents, children and
    locations; [fuel] is the interpreter's recursion limit. *)

Definition dict_eq (d e : dict string Z) : bool :=
  (zlen d =? zlen e) && forallb (fun kv => bool_decide (Dict.get kv.1 e = Some kv.2)) d.

(** Element by element, after the lengths. *)
Fixpoint all_eq (eq : nat -> nat -> exc bool) (l k : list nat) : exc bool :=
  match l, k with
  | [], [] => Ok true
  | x :: l, y :: k =>
      let* same := (if (x =? y)%nat then Ok true else eq x y) in
      if same then all_eq eq l k else Ok false
  | _, _ => Ok false
  end.

Definition list_eq (eq : nat -> nat -> exc bool) (l k : list nat) : exc bool :=
  if (length l =? length k)%nat then all_eq eq l k else Ok false.

Definition ref_eq_with (dir_eq : nat -> nat -> exc bool) (h : heap) (a b : nat) : exc bool :=
  if (a =? b)%nat then Ok true
  else
    let x := ref_at h a in let y := ref_at h b in
    if negb (fr_message_id x =? fr_message_id y) then Ok false
    else if negb (bool_decide (fr_name x = fr_name y)) then Ok false
    else
      let* here := dir_eq (fr_location x) (fr_location y) in
      Ok (here && dict_eq (fr_mirrors x) (fr_mirrors y) && bool_decide (fr_store x = fr_store y)).

Fixpoint dir_eq (fuel : nat) (h : heap) (a b : nat) : exc bool :=
  if (a =? b)%nat then Ok true
  else
    match fuel with
    | O => Raise RecursionError
    | S fuel =>
        let x := dir_at h a in let y := dir_at h b in
        if negb (bool_decide (d_name x = d_name y)) then Ok false
        else
          let* up := match parent x, parent y with
                     | None, None => Ok true
                     | Some p, Some q => dir_eq fuel h p q
                     | _, _ => Ok false
                     end in
          if negb up then Ok false
          else
            let* below := list_eq (dir_eq fuel h) (children x) (children y) in
            if negb below then Ok false
            else
              let* fs := list_eq (ref_eq_with (dir_eq fuel h) h) (items (files x)) (items (files y)) in
              Ok (fs && bool_decide (d_created_at x = d_created_at y) &&
                  bool_decide (d_modified_at x = d_modified_at y))
    end.

Definition recursion_limit : nat := 1000.

Definition ref_eq (h : heap) (a b : nat) : exc bool := ref_eq_with (dir_eq recursion_limit h) h a b.

(** ** Lookups *)

Definition find_dirs (h : heap) (d : nat) (names : list string) : list nat :=
  if nonempty names
  then List.filter (fun c => bool_decide (d_name (dir_at h c) ∈ names)) (children (dir_at h d))
  else children (dir_at h d).

Definition find_dir (h : heap) (d : nat) (name : string) : exc nat :=
  match find_dirs h d [name] with
  | [] => Raise (FileOrDirectoryDoesNotExist name)
  | c :: _ => Ok c
  end.

Definition find_files (h : heap) (d : nat) (names : list string) : list nat :=
  match names with
  | [] => items (files (dir_at h d))
  | [n] => named n (files (dir_at h d))
  | _ => List.filter (fun r => bool_decide (name_of h r ∈ names)) (items (files (dir_at h d)))
  end.

Definition find_file (h : heap) (d : nat) (name : string) : exc nat :=
  match find_files h d [name] with
  | [] => Raise (FileOrDirectoryDoesNotExist name)
  | r :: _ => Ok r
  end.

(** ** Creation *)

Definition create_dir (now : datetime) (d : nat) (name : string) : hst nat :=
  let! h := sget in
  if nonempty (find_dirs h d [name]) then sraise (FileOrDirectoryAlreadyExists name)
  else
    let! c := new_dir name (Some d) now now in
    modify_dir d (fun x => with_children (children x ++ [c]) x) ;;;
    touch_modified now d ;;;
    sret c.

Definition append_file (d r : nat) : hst unit := fun h =>
  modify_dir d (fun x => with_files (frl_append (name_of h) r (files x)) x) h.

Definition attach_file_ref (d : nat) (name : string) (fd_message_id : Z) : hst nat :=
  let! h := sget in
  if nonempty (find_files h d [name]) then sraise (FileOrDirectoryAlreadyExists name)
  else
    let! r := new_ref {| fr_message_id := fd_message_id; fr_name := name; fr_location := d;
                         fr_mirrors := []; fr_store := None; fr_stat := None; fr_stat_epoch := 0 |} in
    append_file d r ;;;
    sret r.

Definition create_file_ref (now : datetime) (d : nat) (name : string) (fd_message_id : Z) : hst nat :=
  let! r := attach_file_ref d name fd_message_id in
  touch_modified now d ;;;
  sret r.

Definition delete_file_ref (now : datetime) (d r : nat) : hst unit :=
  let! h := sget in
  let! fs := slift (frl_remove (name_of h) (ref_eq h) r (files (dir_at h d))) in
  modify_dir d (with_files fs) ;;;
  touch_modified now d.

(** [TGFSFileRef.delete]. *)
Definition ref_delete (now : datetime) (r : nat) : hst unit :=
  let! h := sget in delete_file_ref now (fr_location (ref_at h r)) r.

(** ** Moving *)

(** [new_name or name]. *)
Definition name_or (new_name : option string) (name : string) : string :=
  match new_name with Some n => if bool_decide (n = EmptyString) then name else n | None => name end.

Definition carry_over (src : TGFSFileRef) (x : TGFSFileRef) : TGFSFileRef :=
  {| fr_message_id := fr_message_id x; fr_name := fr_name x; fr_location := fr_location x;
     fr_mirrors := fr_mirrors src; fr_store := fr_store src; fr_stat := fr_stat src;
     fr_stat_epoch := fr_stat_epoch src |}.

Definition modify_ref (r : nat) (f : TGFSFileRef -> TGFSFileRef) : hst unit := fun h =>
  (Ok tt, put_ref r (f (ref_at h r)) h).

Definition relocate_file_ref (now : datetime) (d fr to : nat) (new_name : option string) : hst nat :=
  let! h := sget in
  let name := name_or new_name (name_of h fr) in
  if (to =? d)%nat && bool_decide (name = name_of h fr) then sret fr
  else
    let! moved := create_file_ref now to name (fr_message_id (ref_at h fr)) in
    modify_ref moved (carry_over (ref_at h fr)) ;;;
    stry (delete_file_ref now d fr)
         (fun ex => if is_Exception ex then (delete_file_ref now to moved ;;; sraise ex) else sraise ex) ;;;
    sret moved.

Fixpoint ancestor_loop (fuel : nat) (h : heap) (d : nat) (node : option nat) : exc bool :=
  match node with
  | None => Ok false
  | Some n =>
      if (n =? d)%nat then Ok true
      else match fuel with
           | O => Raise OutOfFuel
           | S fuel => ancestor_loop fuel h d (parent (dir_at h n))
           end
  end.

Definition is_ancestor_of (h : heap) (d other : nat) : exc bool :=
  ancestor_loop (size (h_dirs h)) h d (Some other).

Fixpoint path_loop (fuel : nat) (h : heap) (d : nat) : exc string :=
  match parent (dir_at h d) with
  | None => Ok ""%string
  | Some p =>
      match fuel with
      | O => Raise OutOfFuel
      | S fuel =>
          let* up := path_loop fuel h p in
          let n := d_name (dir_at h d) in
          Ok (if bool_decide (n = EmptyString) then up else (up +:+ "/" +:+ n)%string)
      end
  end.

Definition absolute_path (h : heap) (d : nat) : exc string := path_loop (size (h_dirs h)) h d.

Definition remove_child (d c : nat) : hst unit :=
  let! h := sget in
  let! cs := slift (list_remove (dir_eq recursion_limit h) c (children (dir_at h d))) in
  modify_dir d (with_children cs).

Definition move_to (now : datetime) (d new_parent : nat) (new_name : option string) : hst unit :=
  let! h := sget in
  match parent (dir_at h d) with
  | None => sraise (TechnicalError "The root directory cannot be moved")
  | Some old_parent =>
      let name := name_or new_name (d_name (dir_at h d)) in
      let! _ := slift (validate_name name) in
      if (new_parent =? old_parent)%nat && bool_decide (name = d_name (dir_at h d)) then sret tt
      else
        let! inside := slift (is_ancestor_of h d new_parent) in
        if inside then
          let! p := slift (absolute_path h d) in
          sraise (InvalidPath (p +:+ " cannot be moved into itself"))
        else if nonempty (find_dirs h new_parent [name]) then sraise (FileOrDirectoryAlreadyExists name)
        else
          remove_child old_parent d ;;;
          touch_modified now old_parent ;;;
          modify_dir d (fun x => with_parent (Some new_parent) (with_name name x)) ;;;
          modify_dir new_parent (fun x => with_children (children x ++ [d]) x) ;;;
          touch_modified now new_parent
  end.

Definition delete (now : datetime) (d : nat) : hst unit :=
  let! h := sget in
  match parent (dir_at h d) with
  | Some p =>
      remove_child p d ;;;
      touch_modified now p
  | None =>
      modify_dir d (with_children []) ;;;
      modify_dir d (fun x => with_files (frl_clear (files x)) x) ;;;
      touch_modified now d
  end.

(** ** Serialization *)

Inductive TGFSDirectorySerialized := DirSer {
  ds_name : string;
  ds_createdAt : option Z;
  ds_modifiedAt : option Z;
  ds_children : list TGFSDirectorySerialized;
  ds_files : list TGFSFileRefSerialized
}.

Fixpoint to_dict (fuel : nat) (h : heap) (d : nat) : exc TGFSDirectorySerialized :=
  match fuel with
  | O => Raise OutOfFuel
  | S fuel =>
      let x := dir_at h d in
      let* cs := rmapM (to_dict fuel h) (children x) in
      Ok (DirSer (d_name x) (Some (ts (d_created_at x))) (Some (ts (d_modified_at x))) cs
                 (map (fun r => ref_to_dict (ref_at h r)) (items (files x))))
  end.

Definition read_ts (value : Z) : datetime :=
  if 0 <? value then fromtimestamp_ms value else FIRST_DAY_OF_EPOCH.

Fixpoint load_files (d : nat) (data : list TGFSFileRefSerialized) : hst (list nat) :=
  match data with
  | [] => sret []
  | f :: data =>
      if negb (bool_decide (frs_name f = EmptyString)) && negb (frs_messageId f =? 0) then
        let! r := new_ref (ref_from_dict d f) in
        let! rs := load_files d data in
        sret (r :: rs)
      else load_files d data
  end.

Fixpoint from_dict (data : TGFSDirectorySerialized) (parent : option nat) : hst nat :=
  let '(DirSer name created modified cs fs) := data in
  let! d := new_dir name parent (read_ts (default 0 created)) (read_ts (default 0 modified)) in
  (if nonempty fs then
     let! rs := load_files d fs in
     let! h := sget in
     modify_dir d (with_files (frl_of (name_of h) rs))
   else sret tt) ;;;
  let! loaded := (fix go cs := match cs with
                  | [] => sret []
                  | c :: cs => let! i := from_dict c (Some d) in let! r := go cs in sret (i :: r)
                  end) cs in
  modify_dir d (with_children loaded) ;;;
  sret d.

(** [TGFSMetadata]: the root directory. *)
Record TGFSMetadata := { md_dir : nat }.

Definition metadata_from_dict (data : TGFSDirectorySerialized) : hst TGFSMetadata :=
  let! d := from_dict data None in sret {| md_dir := d |}.

Definition metadata_to_dict (h : heap) (m : TGFSMetadata) : exc TGFSDirectorySerialized :=
  to_dict (size (h_dirs h)) h (md_dir m).
