(* ===== verification/DirectoryProps.v ===== *)
(** * Properties of the directory tree

    The heap invariant [wf]: parent and child pointers agree, siblings have
    different names, every ref is in the list of its location, the indexes
    agree with the lists and no directory is below itself.  Every operation
    keeps it, whether it succeeds or raises. *)

From S2P Require Import Prelude Errors StoreKey FileVersion FileRefs Directory.

Open Scope Z_scope.
Open Scope py_scope.

Definition dir_name (h : heap) (d : nat) : string := d_name (dir_at h d).

(** ** The invariant *)

(** The directories from [d] up to the root. *)
Inductive up_chain (h : heap) : nat -> list nat -> Prop :=
| chain_root d : parent (dir_at h d) = None -> up_chain h d [d]
| chain_up d p l : parent (dir_at h d) = Some p -> up_chain h p l -> up_chain h d (d :: l).

Record dir_ok (h : heap) (d : nat) (x : TGFSDirectory) : Prop := {
  do_name : validate_name (d_name x) = Ok tt;
  do_parent : forall p, parent x = Some p -> is_Some (h_dirs h !! p);
  do_children : forall c, c ∈ children x -> exists y, h_dirs h !! c = Some y /\ parent y = Some d;
  do_siblings : NoDup (map (dir_name h) (children x));
  do_files : forall r, r ∈ items (files x) -> exists f, h_refs h !! r = Some f /\ fr_location f = d;
  do_file_names : NoDup (map (name_of h) (items (files x)));
  do_index : index_ok (name_of h) (files x)
}.

Record wf (h : heap) : Prop := {
  wf_dirs : forall d x, h_dirs h !! d = Some x -> dir_ok h d x;
  wf_chain : forall d, is_Some (h_dirs h !! d) -> exists l, up_chain h d l;
  wf_fresh_dirs : forall d, is_Some (h_dirs h !! d) -> (d < h_fresh h)%nat;
  wf_fresh_refs : forall r, is_Some (h_refs h !! r) -> (r < h_fresh h)%nat
}.

Lemma dir_at_some h d x : h_dirs h !! d = Some x -> dir_at h d = x.
Proof. unfold dir_at. by intros ->. Qed.

Lemma dir_at_put h d x e : dir_at (put_dir d x h) e = if decide (d = e) then x else dir_at h e.
Proof.
  unfold dir_at, put_dir. simpl. case_decide as Hd.
  - subst e. by rewrite lookup_insert_eq.
  - by rewrite lookup_insert_ne.
Qed.

Lemma dirs_put h d x e y :
  h_dirs (put_dir d x h) !! e = Some y <-> (d = e /\ x = y) \/ (d <> e /\ h_dirs h !! e = Some y).
Proof. simpl. apply lookup_insert_Some. Qed.

(** ** Chains *)

Lemma up_chain_fun h d l k : up_chain h d l -> up_chain h d k -> l = k.
Proof.
  intros Hl. revert k. induction Hl as [d Hd|d p l Hd _ IH]; intros k Hk; inversion Hk; subst; try congruence.
  f_equal. apply IH. congruence.
Qed.

Lemma up_chain_in h d l x : up_chain h d l -> x ∈ l -> exists k, up_chain h x k /\ (length k <= length l)%nat.
Proof.
  induction 1 as [d Hd|d p l Hd Hc IH]; intros Hx.
  - apply list_elem_of_singleton in Hx as ->. exists [d]. split; [by constructor|done].
  - apply elem_of_cons in Hx as [->|Hx].
    + exists (d :: l). split; [by econstructor|done].
    + destruct (IH Hx) as (k & Hk & Hlen). exists k. split; [done|]. simpl. lia.
Qed.

Lemma up_chain_nodup h d l : up_chain h d l -> NoDup l.
Proof.
  induction 1 as [d Hd|d p l Hd Hc IH]; [apply NoDup_singleton|]. apply NoDup_cons. split; [|done].
  intros Hin. destruct (up_chain_in _ _ _ _ Hc Hin) as (k & Hk & Hlen).
  assert (k = d :: l) as -> by (eapply up_chain_fun; [done|by econstructor]). simpl in Hlen. lia.
Qed.

Lemma up_chain_exist h d l : wf h -> is_Some (h_dirs h !! d) -> up_chain h d l -> Forall (fun x => is_Some (h_dirs h !! x)) l.
Proof.
  intros Hwf Hd Hc. revert Hd. induction Hc as [d Hp|d p l Hp Hc IH]; intros Hd; [by repeat constructor|].
  constructor; [done|]. apply IH. destruct Hd as [x Hx]. rewrite (dir_at_some _ _ _ Hx) in Hp.
  by apply (do_parent _ _ _ (wf_dirs _ Hwf _ _ Hx)).
Qed.

(** A chain has at most as many links as there are directories. *)
Lemma up_chain_size h d l : wf h -> is_Some (h_dirs h !! d) -> up_chain h d l -> (length l <= size (h_dirs h))%nat.
Proof.
  intros Hwf Hd Hc. pose proof (up_chain_nodup _ _ _ Hc) as Hnd. pose proof (up_chain_exist _ _ _ Hwf Hd Hc) as Hex.
  rewrite <- (size_dom (h_dirs h)), <- (size_list_to_set (C := gset nat) l Hnd). apply subseteq_size. intros x Hx%elem_of_list_to_set.
  apply elem_of_dom. rewrite List.Forall_forall in Hex. by apply Hex, list_elem_of_In.
Qed.

Lemma ancestor_loop_spec h a d l fuel :
  up_chain h d l -> (length l <= fuel)%nat -> ancestor_loop fuel h a (Some d) = Ok (bool_decide (a ∈ l)).
Proof.
  intros Hc. revert fuel. induction Hc as [d Hp|d p l Hp Hc IH]; intros fuel Hf; destruct fuel as [|fuel]; simpl in *; try lia;
    destruct (d =? a)%nat eqn:He.
  - apply Nat.eqb_eq in He as ->. rewrite bool_decide_eq_true_2; [done|left].
  - apply Nat.eqb_neq in He. rewrite Hp. destruct fuel; simpl; rewrite bool_decide_eq_false_2; try done;
      intros ?%list_elem_of_singleton; congruence.
  - apply Nat.eqb_eq in He as ->. rewrite bool_decide_eq_true_2; [done|left].
  - apply Nat.eqb_neq in He. rewrite Hp, IH by lia. f_equal. apply bool_decide_ext.
    rewrite elem_of_cons. split; [tauto|]. intros [->|?]; done.
Qed.

(** The walk up the parents ends, and finds [a] iff it is on the way. *)
Lemma is_ancestor_of_spec h a d :
  wf h -> is_Some (h_dirs h !! d) ->
  exists l, up_chain h d l /\ is_ancestor_of h a d = Ok (bool_decide (a ∈ l)).
Proof.
  intros Hwf Hd. destruct (wf_chain _ Hwf _ Hd) as [l Hl]. exists l. split; [done|].
  apply ancestor_loop_spec; [done|]. by eapply up_chain_size.
Qed.

(** Chains that avoid a changed directory are unchanged. *)
Lemma up_chain_ext h h' d l :
  (forall x, x ∈ l -> parent (dir_at h' x) = parent (dir_at h x)) -> up_chain h d l -> up_chain h' d l.
Proof.
  intros Hp Hc. induction Hc as [d Hd|d p l Hd Hc IH].
  - constructor. rewrite Hp by left. done.
  - econstructor; [rewrite Hp by left; exact Hd|]. apply IH. intros x Hx. apply Hp. by right.
Qed.

(** ** Elementary steps *)

Lemma index_ok_ext nm nm' l :
  (forall r, r ∈ items l -> nm r = nm' r) -> index_ok nm l -> index_ok nm' l.
Proof.
  intros Hnm [Hwf Hl]. split; [done|]. intros n. rewrite Hl.
  assert (forall k, k ⊆ items l ->
    List.filter (fun r => bool_decide (nm r = n)) k = List.filter (fun r => bool_decide (nm' r = n)) k) as Heq.
  { induction k as [|r k IH]; intros Hk; simpl; [done|]. rewrite (Hnm r) by (apply Hk; left).
    rewrite IH; [done|]. intros y Hy. apply Hk. by right. }
  by rewrite Heq.
Qed.

Lemma map_ext_elem {A B} (f g : A -> B) l : (forall x, x ∈ l -> f x = g x) -> map f l = map g l.
Proof. intros Hfg. apply map_ext_in. intros x Hx. by apply Hfg, list_elem_of_In. Qed.

(** A directory stays in order when what it refers to does. *)
Lemma dir_ok_ext h h' e y :
  (forall p, is_Some (h_dirs h !! p) -> is_Some (h_dirs h' !! p)) ->
  (forall c z, c ∈ children y -> h_dirs h !! c = Some z ->
     exists z', h_dirs h' !! c = Some z' /\ parent z' = parent z /\ d_name z' = d_name z) ->
  (forall r f, r ∈ items (files y) -> h_refs h !! r = Some f ->
     exists f', h_refs h' !! r = Some f' /\ fr_location f' = fr_location f /\ fr_name f' = fr_name f) ->
  dir_ok h e y -> dir_ok h' e y.
Proof.
  intros Hp Hc Hr [H1 H2 H3 H4 H5 H6 H7].
  assert (forall r, r ∈ items (files y) -> name_of h r = name_of h' r) as Hnm.
  { intros r Hin. destruct (H5 r Hin) as (f & Hf & _). destruct (Hr r f Hin Hf) as (f' & Hf' & _ & Hn).
    unfold name_of, ref_at. by rewrite Hf, Hf'. }
  split; [done|..].
  - intros p Hpp. by apply Hp, H2.
  - intros c Hin. destruct (H3 c Hin) as (z & Hz & Hpz). destruct (Hc c z Hin Hz) as (z' & Hz' & Hpz' & _).
    exists z'. split; [done|congruence].
  - rewrite <- (map_ext_elem (dir_name h)); [done|]. intros c Hin. destruct (H3 c Hin) as (z & Hz & _).
    destruct (Hc c z Hin Hz) as (z' & Hz' & _ & Hn). unfold dir_name, dir_at. by rewrite Hz, Hz'.
  - intros r Hin. destruct (H5 r Hin) as (f & Hf & Hloc). destruct (Hr r f Hin Hf) as (f' & Hf' & Hl & _).
    exists f'. split; [done|congruence].
  - by rewrite <- (map_ext_elem (name_of h)).
  - by apply (index_ok_ext (name_of h)).
Qed.

(** Replacing a directory, its name and parent kept. *)
Lemma wf_put_dir h d x x' :
  wf h -> h_dirs h !! d = Some x -> d_name x' = d_name x -> parent x' = parent x ->
  dir_ok (put_dir d x' h) d x' -> wf (put_dir d x' h).
Proof.
  intros Hwf Hd Hn Hp Hok. pose proof (dir_at_some _ _ _ Hd) as Hat. split.
  - intros e y [[<- <-]|[Hne Hy]]%dirs_put; [done|]. apply (dir_ok_ext h); [| | |by apply (wf_dirs _ Hwf)].
    + intros p Hpp. simpl. rewrite lookup_insert_is_Some'. by right.
    + intros c z _ Hz. simpl. destruct (decide (d = c)) as [<-|Hdc].
      * exists x'. rewrite lookup_insert_eq. split; [done|]. rewrite Hd in Hz. injection Hz as <-. done.
      * exists z. by rewrite lookup_insert_ne.
    + intros r f _ Hf. by exists f.
  - intros e He. assert (is_Some (h_dirs h !! e)) as He'.
    { destruct He as [y [[<- <-]|[_ Hy]]%dirs_put]; by eexists. }
    destruct (wf_chain _ Hwf _ He') as [l Hl]. exists l. eapply up_chain_ext; [|exact Hl].
    intros z _. rewrite dir_at_put. case_decide; [by subst z; rewrite Hat|done].
  - intros e [y [[<- <-]|[_ Hy]]%dirs_put]; apply (wf_fresh_dirs _ Hwf); by eexists.
  - apply (wf_fresh_refs _ Hwf).
Qed.

(** In the heap after [put_dir d], other things look the same. *)
Lemma put_dir_name h d x x' c :
  h_dirs h !! d = Some x -> d_name x' = d_name x -> dir_name (put_dir d x' h) c = dir_name h c.
Proof.
  intros Hd Hn. unfold dir_name. rewrite dir_at_put. case_decide; [|done]. subst c. by rewrite (dir_at_some _ _ _ Hd).
Qed.

Lemma put_dir_child h d x x' c y e :
  h_dirs h !! d = Some x -> parent x' = parent x -> h_dirs h !! c = Some y -> parent y = Some e ->
  exists z, h_dirs (put_dir d x' h) !! c = Some z /\ parent z = Some e.
Proof.
  intros Hd Hp Hc He. simpl. destruct (decide (d = c)) as [<-|Hne].
  - exists x'. rewrite lookup_insert_eq. split; [done|congruence].
  - exists y. by rewrite lookup_insert_ne.
Qed.

(** Changing the children and files of a directory. *)
Lemma dir_ok_update h d x x' :
  h_dirs h !! d = Some x -> dir_ok h d x -> d_name x' = d_name x -> parent x' = parent x ->
  (forall c, c ∈ children x' -> exists y, h_dirs h !! c = Some y /\ parent y = Some d) ->
  NoDup (map (dir_name h) (children x')) ->
  (forall r, r ∈ items (files x') -> exists f, h_refs h !! r = Some f /\ fr_location f = d) ->
  NoDup (map (name_of h) (items (files x'))) -> index_ok (name_of h) (files x') ->
  dir_ok (put_dir d x' h) d x'.
Proof.
  intros Hd [H1 H2 _ _ _ _ _] Hn Hp Hc Hs Hf Hfn Hi. split.
  - by rewrite Hn.
  - intros p. rewrite Hp. intros Hpp. simpl. rewrite lookup_insert_is_Some'. right. by apply H2.
  - intros c (y & Hy & Hpy)%Hc. by eapply put_dir_child.
  - rewrite (map_ext_elem _ (dir_name h)); [done|]. intros c _. by eapply put_dir_name.
  - done.
  - done.
  - done.
Qed.

Lemma wf_touch h d x t : wf h -> h_dirs h !! d = Some x -> wf (put_dir d (with_modified t x) h).
Proof.
  intros Hwf Hd. pose proof (wf_dirs _ Hwf _ _ Hd) as Hok. destruct (Hok) as [H1 H2 H3 H4 H5 H6 H7].
  eapply wf_put_dir; [done..|]. by eapply dir_ok_update.
Qed.

Lemma wf_set_children h d x cs :
  wf h -> h_dirs h !! d = Some x ->
  (forall c, c ∈ cs -> exists y, h_dirs h !! c = Some y /\ parent y = Some d) ->
  NoDup (map (dir_name h) cs) -> wf (put_dir d (with_children cs x) h).
Proof.
  intros Hwf Hd Hcs Hnd. pose proof (wf_dirs _ Hwf _ _ Hd) as Hok. destruct (Hok) as [H1 H2 H3 H4 H5 H6 H7].
  eapply wf_put_dir; [done..|]. by eapply dir_ok_update.
Qed.

Lemma wf_set_files h d x fs :
  wf h -> h_dirs h !! d = Some x ->
  (forall r, r ∈ items fs -> exists f, h_refs h !! r = Some f /\ fr_location f = d) ->
  NoDup (map (name_of h) (items fs)) -> index_ok (name_of h) fs -> wf (put_dir d (with_files fs x) h).
Proof.
  intros Hwf Hd Hfs Hnd Hi. pose proof (wf_dirs _ Hwf _ _ Hd) as Hok. destruct (Hok) as [H1 H2 H3 H4 H5 H6 H7].
  eapply wf_put_dir; [done..|]. by eapply dir_ok_update.
Qed.

Lemma fresh_dir_none h : wf h -> h_dirs h !! h_fresh h = None.
Proof.
  intros Hwf. destruct (h_dirs h !! h_fresh h) as [x|] eqn:Hx; [|done].
  pose proof (wf_fresh_dirs _ Hwf (h_fresh h) (ex_intro _ x Hx)). lia.
Qed.

Lemma fresh_ref_none h : wf h -> h_refs h !! h_fresh h = None.
Proof.
  intros Hwf. destruct (h_refs h !! h_fresh h) as [x|] eqn:Hx; [|done].
  pose proof (wf_fresh_refs _ Hwf (h_fresh h) (ex_intro _ x Hx)). lia.
Qed.

Definition blank_dir (name : string) (p : option nat) (created modified : datetime) : TGFSDirectory :=
  {| d_name := name; parent := p; children := []; files := {| items := []; by_name := [] |};
     d_created_at := created; d_modified_at := modified |}.

Definition alloc_dir (x : TGFSDirectory) (h : heap) : heap :=
  {| h_dirs := <[h_fresh h := x]> (h_dirs h); h_refs := h_refs h; h_fresh := S (h_fresh h) |}.

Lemma new_dir_eq name p created modified h :
  validate_name name = Ok tt ->
  new_dir name p created modified h = (Ok (h_fresh h), alloc_dir (blank_dir name p created modified) h).
Proof. intros Hn. unfold new_dir. by rewrite Hn. Qed.

Lemma wf_alloc_dir h name p created modified :
  wf h -> validate_name name = Ok tt -> (forall q, p = Some q -> is_Some (h_dirs h !! q)) ->
  wf (alloc_dir (blank_dir name p created modified) h).
Proof.
  intros Hwf Hn Hp. set (x := blank_dir _ _ _ _). pose proof (fresh_dir_none _ Hwf) as Hnone.
  assert (forall d, is_Some (h_dirs h !! d) -> dir_at (alloc_dir x h) d = dir_at h d) as Hold.
  { intros d [y Hy]. unfold dir_at. simpl. rewrite lookup_insert_ne; [done|]. intros <-. congruence. }
  assert (forall d l, is_Some (h_dirs h !! d) -> up_chain h d l -> up_chain (alloc_dir x h) d l) as Hch.
  { intros d l Hd Hl. eapply up_chain_ext; [|exact Hl]. intros z Hz.
    pose proof (up_chain_exist _ _ _ Hwf Hd Hl) as Hex. rewrite List.Forall_forall in Hex.
    by rewrite Hold by by apply Hex, list_elem_of_In. }
  split.
  - intros e y Hy. cbn [alloc_dir h_dirs] in Hy. apply lookup_insert_Some in Hy as [[<- <-]|[Hne Hy]].
    + split; simpl; [done| |by intros c ?%not_elem_of_nil|constructor|by intros r ?%not_elem_of_nil|constructor|].
      * intros q Hq. rewrite lookup_insert_is_Some'. right. by apply Hp.
      * split; [apply Dict.wf_nil|done].
    + apply (dir_ok_ext h); [| | |by apply (wf_dirs _ Hwf)].
      * intros q Hq. simpl. rewrite lookup_insert_is_Some'. by right.
      * intros c z _ Hz. exists z. simpl. rewrite lookup_insert_ne; [done|]. intros <-. congruence.
      * intros r f _ Hf. by exists f.
  - intros e He. destruct (decide (e = h_fresh h)) as [->|Hne].
    + destruct p as [q|].
      * destruct (wf_chain _ Hwf q (Hp q eq_refl)) as [l Hl]. exists (h_fresh h :: l).
        econstructor; [unfold dir_at; simpl; by rewrite lookup_insert_eq|]. apply Hch; [by apply Hp|done].
      * exists [h_fresh h]. constructor. unfold dir_at. simpl. by rewrite lookup_insert_eq.
    + simpl in He. rewrite lookup_insert_ne in He by done. destruct (wf_chain _ Hwf e He) as [l Hl].
      exists l. by apply Hch.
  - intros e He. simpl in *. rewrite lookup_insert_is_Some in He. destruct He as [<-|[_ He]]; [lia|].
    apply (wf_fresh_dirs _ Hwf) in He. lia.
  - intros r Hr. apply (wf_fresh_refs _ Hwf) in Hr. simpl. lia.
Qed.

Definition alloc_ref (x : TGFSFileRef) (h : heap) : heap :=
  {| h_dirs := h_dirs h; h_refs := <[h_fresh h := x]> (h_refs h); h_fresh := S (h_fresh h) |}.

Lemma wf_alloc_ref h x : wf h -> wf (alloc_ref x h).
Proof.
  intros Hwf. pose proof (fresh_ref_none _ Hwf) as Hnone. split.
  - intros e y Hy. apply (dir_ok_ext h); [done| | |by apply (wf_dirs _ Hwf)].
    + intros c z _ Hz. by exists z.
    + intros r f _ Hf. exists f. simpl. rewrite lookup_insert_ne; [done|]. intros <-. congruence.
  - intros d Hd. destruct (wf_chain _ Hwf d Hd) as [l Hl]. exists l. eapply up_chain_ext; [|exact Hl]; done.
  - intros d Hd. apply (wf_fresh_dirs _ Hwf) in Hd. simpl. lia.
  - intros r Hr. simpl in *. rewrite lookup_insert_is_Some in Hr. destruct Hr as [<-|[_ Hr]]; [lia|].
    apply (wf_fresh_refs _ Hwf) in Hr. lia.
Qed.

(** Changing a ref, its name and location kept. *)
Lemma wf_put_ref h r x x' :
  wf h -> h_refs h !! r = Some x -> fr_name x' = fr_name x -> fr_location x' = fr_location x -> wf (put_ref r x' h).
Proof.
  intros Hwf Hr Hn Hl. split.
  - intros e y Hy. apply (dir_ok_ext h); [done| | |by apply (wf_dirs _ Hwf)].
    + intros c z _ Hz. by exists z.
    + intros q f _ Hf. simpl. destruct (decide (r = q)) as [<-|Hne].
      * exists x'. rewrite lookup_insert_eq. split; [done|]. rewrite Hr in Hf. by injection Hf as <-.
      * exists f. by rewrite lookup_insert_ne.
  - intros d Hd. destruct (wf_chain _ Hwf d Hd) as [l Hl']. exists l. eapply up_chain_ext; [|exact Hl']; done.
  - intros d Hd. by apply (wf_fresh_dirs _ Hwf).
  - intros q Hq. simpl in *. apply (wf_fresh_refs _ Hwf). rewrite lookup_insert_is_Some in Hq.
    destruct Hq as [<-|[_ Hq]]; [by eexists|done].
Qed.

(** Re-parenting and renaming a directory nobody lists as a child. *)
Lemma wf_reparent h d x name np l :
  wf h -> h_dirs h !! d = Some x -> validate_name name = Ok tt -> is_Some (h_dirs h !! np) ->
  up_chain h np l -> d ∉ l -> (forall e y, h_dirs h !! e = Some y -> d ∉ children y) ->
  wf (put_dir d (with_parent (Some np) (with_name name x)) h).
Proof.
  intros Hwf Hd Hn Hnp Hl Hdl Hfree. set (x' := with_parent _ _). pose proof (wf_dirs _ Hwf _ _ Hd) as Hokd.
  assert (forall e, is_Some (h_dirs (put_dir d x' h) !! e) <-> is_Some (h_dirs h !! e)) as Hsame.
  { intros e. simpl. rewrite lookup_insert_is_Some. split; [intros [<-|[_ ?]]; [by eexists|done]|].
    intros He. destruct (decide (d = e)); [by left|by right]. }
  assert (forall e y, h_dirs h !! e = Some y -> dir_ok h e y -> dir_ok (put_dir d x' h) e y) as Hext.
  { intros e y He. apply dir_ok_ext.
    - intros p Hp. by apply Hsame.
    - intros c z Hc Hz. exists z. simpl. rewrite lookup_insert_ne; [done|]. intros <-. by apply (Hfree e y He).
    - intros r f _ Hf. by exists f. }
  split.
  - intros e y [[<- <-]|[Hne Hy]]%dirs_put; [|by apply Hext, (wf_dirs _ Hwf)].
    destruct (Hext d x Hd Hokd) as [H1 H2 H3 H4 H5 H6 H7]. split; [done| |done..].
    intros p [= <-]. by apply Hsame.
  - intros e He%Hsame. destruct (wf_chain _ Hwf _ He) as [k Hk]. clear He.
    assert (up_chain (put_dir d x' h) np l) as Hnp'.
    { eapply up_chain_ext; [|exact Hl]. intros z Hz. rewrite dir_at_put. rewrite decide_False by congruence. done. }
    induction Hk as [e Hr|e p k Hr Hk IH].
    + destruct (decide (d = e)) as [<-|Hne].
      * exists (d :: l). econstructor; [|exact Hnp']. by rewrite dir_at_put, decide_True.
      * exists [e]. constructor. by rewrite dir_at_put, decide_False.
    + destruct (decide (d = e)) as [<-|Hne].
      * exists (d :: l). econstructor; [|exact Hnp']. by rewrite dir_at_put, decide_True.
      * destruct IH as [k' Hk']. exists (e :: k'). econstructor; [|exact Hk']. by rewrite dir_at_put, decide_False.
  - intros e He%Hsame. by apply (wf_fresh_dirs _ Hwf).
  - apply (wf_fresh_refs _ Hwf).
Qed.

(** ** Lookups by name *)

Lemma nodup_map_inj {A B} (f : A -> B) l a b : NoDup (map f l) -> a ∈ l -> b ∈ l -> f a = f b -> a = b.
Proof.
  induction l as [|x l IH]; [by intros _ ?%not_elem_of_nil|]. simpl. intros [Hx Hnd]%NoDup_cons Ha Hb Hab.
  assert (forall y, y ∈ l -> f y <> f x) as Hne.
  { intros y Hy Hyx. apply Hx. rewrite <- Hyx. by apply (list_elem_of_fmap_2 f). }
  apply elem_of_cons in Ha as [->|Ha], Hb as [->|Hb]; [done| | |by apply IH].
  - exfalso. by apply (Hne b Hb).
  - exfalso. by apply (Hne a Ha).
Qed.

Lemma nodup_of_map {A B} (f : A -> B) l : NoDup (map f l) -> NoDup l.
Proof. apply (NoDup_fmap_1 f). Qed.

Lemma nodup_map_filter {A B} (f : A -> B) (p : A -> bool) l : NoDup (map f l) -> NoDup (map f (List.filter p l)).
Proof.
  induction l as [|x l IH]; simpl; [done|]. intros [Hx Hnd]%NoDup_cons. destruct (p x); [|by apply IH].
  simpl. apply NoDup_cons. split; [|by apply IH]. intros Hin. apply Hx.
  apply list_elem_of_In, in_map_iff in Hin as (y & Hy & Hin). apply filter_In in Hin as [Hin _].
  apply list_elem_of_In, in_map_iff. by exists y.
Qed.

Lemma find_dirs_none h d name :
  find_dirs h d [name] = [] <-> name ∉ map (dir_name h) (children (dir_at h d)).
Proof.
  unfold find_dirs. cbn [nonempty]. induction (children (dir_at h d)) as [|c l IH]; simpl.
  - split; [by intros _ ?%not_elem_of_nil|done].
  - unfold dir_name at 1. case_bool_decide as Hc; rewrite not_elem_of_cons; split.
    + done.
    + apply list_elem_of_singleton in Hc. unfold dir_name. by intros [? _].
    + intros Hl%IH. split; [|done]. intros ->. apply Hc. by left.
    + intros [_ Hl]. by apply IH.
Qed.

Lemma find_files_named h d name x :
  wf h -> h_dirs h !! d = Some x ->
  find_files h d [name] = List.filter (fun r => bool_decide (name_of h r = name)) (items (files x)).
Proof.
  intros Hwf Hd. unfold find_files. rewrite (dir_at_some _ _ _ Hd). apply named_filter.
  apply (do_index _ _ _ (wf_dirs _ Hwf _ _ Hd)).
Qed.

Lemma find_files_none h d name x :
  wf h -> h_dirs h !! d = Some x -> find_files h d [name] = [] <-> name ∉ map (name_of h) (items (files x)).
Proof.
  intros Hwf Hd. rewrite (find_files_named _ _ _ _ Hwf Hd). induction (items (files x)) as [|r l IH]; simpl.
  - split; [by intros _ ?%not_elem_of_nil|done].
  - case_bool_decide as Hr; rewrite not_elem_of_cons; split.
    + done.
    + by intros [? _].
    + intros Hl%IH. split; [|done]. intros ->. done.
    + intros [_ Hl]. by apply IH.
Qed.

Lemma dir_eq_names h fuel a b : dir_name h a <> dir_name h b -> dir_eq (S fuel) h a b = Ok false.
Proof.
  intros Hn. simpl. destruct (a =? b)%nat eqn:He; [apply Nat.eqb_eq in He; congruence|].
  by rewrite bool_decide_eq_false_2.
Qed.

Lemma ref_eq_names h a b : name_of h a <> name_of h b -> ref_eq h a b = Ok false.
Proof.
  intros Hn. unfold ref_eq, ref_eq_with. destruct (a =? b)%nat eqn:He; [apply Nat.eqb_eq in He; congruence|].
  destruct (negb _); [done|]. unfold name_of in Hn. by rewrite bool_decide_eq_false_2.
Qed.

(** [l] without [x]. *)
Definition without (x : nat) (l : list nat) : list nat := List.filter (fun y => negb (y =? x)%nat) l.

Lemma elem_of_without x y l : y ∈ without x l <-> y ∈ l /\ y <> x.
Proof.
  unfold without. rewrite list_elem_of_In, filter_In, <- list_elem_of_In, negb_true_iff, Nat.eqb_neq. done.
Qed.

(** [children.remove(c)] takes out exactly [c]. *)
Lemma remove_child_eq h d x c :
  wf h -> h_dirs h !! d = Some x -> c ∈ children x ->
  remove_child d c h = (Ok tt, put_dir d (with_children (without c (children x)) x) h).
Proof.
  intros Hwf Hd Hc. destruct (wf_dirs _ Hwf _ _ Hd) as [_ _ _ Hnd _ _ _].
  unfold remove_child, sbind, sget, slift. rewrite (dir_at_some _ _ _ Hd). unfold recursion_limit.
  rewrite list_remove_spec; [|by eapply nodup_of_map|done|].
  - unfold modify_dir. by rewrite (dir_at_some _ _ _ Hd).
  - intros y Hy Hne. apply (dir_eq_names _ 999). intros Heq. apply Hne. by eapply nodup_map_inj.
Qed.

Lemma wf_remove_child h d x c :
  wf h -> h_dirs h !! d = Some x -> wf (put_dir d (with_children (without c (children x)) x) h).
Proof.
  intros Hwf Hd. destruct (wf_dirs _ Hwf _ _ Hd) as [_ _ Hch Hnd _ _ _]. apply wf_set_children; [done..| |].
  - intros e [He _]%elem_of_without. by apply Hch.
  - by apply nodup_map_filter.
Qed.

(** The directory without the ref [r]. *)
Definition drop_ref (h : heap) (r : nat) (x : TGFSDirectory) : TGFSDirectory :=
  with_files {| items := without r (items (files x)); by_name := unindex (name_of h) r (by_name (files x)) |} x.

Lemma delete_file_ref_eq now h d x r :
  wf h -> h_dirs h !! d = Some x -> r ∈ items (files x) ->
  delete_file_ref now d r h = (Ok tt, put_dir d (with_modified now (drop_ref h r x)) h).
Proof.
  intros Hwf Hd Hr. destruct (wf_dirs _ Hwf _ _ Hd) as [_ _ _ _ _ Hnd Hi].
  unfold delete_file_ref, sbind, sget, slift. rewrite (dir_at_some _ _ _ Hd). unfold frl_remove.
  rewrite list_remove_spec; [|by eapply nodup_of_map|done|].
  - cbn [rbind]. unfold touch_modified, modify_dir. rewrite (dir_at_some _ _ _ Hd).
    rewrite dir_at_put, decide_True by done. unfold put_dir. simpl. by rewrite insert_insert_eq.
  - intros y Hy Hne. apply ref_eq_names. intros Heq. apply Hne. by eapply nodup_map_inj.
Qed.

Lemma wf_drop_ref now h d x r :
  wf h -> h_dirs h !! d = Some x -> wf (put_dir d (with_modified now (drop_ref h r x)) h).
Proof.
  intros Hwf Hd. destruct (wf_dirs _ Hwf _ _ Hd) as [_ _ _ _ Hf Hnd Hi].
  assert (wf (put_dir d (drop_ref h r x) h)) as Hwf1.
  { apply wf_set_files; [done..| | |by apply unindex_ok].
    - intros q [Hq _]%elem_of_without. by apply Hf.
    - by apply nodup_map_filter. }
  assert (h_dirs (put_dir d (drop_ref h r x) h) !! d = Some (drop_ref h r x)) as Hd1 by apply lookup_insert_eq.
  pose proof (wf_touch _ _ _ now Hwf1 Hd1) as Hwf2. unfold put_dir in Hwf2. simpl in Hwf2.
  by rewrite insert_insert_eq in Hwf2.
Qed.

(** ** Operations *)

Lemma put_put d a b h : put_dir d a (put_dir d b h) = put_dir d a h.
Proof. unfold put_dir. simpl. by rewrite insert_insert_eq. Qed.

Lemma put_lookup d a h : h_dirs (put_dir d a h) !! d = Some a.
Proof. apply lookup_insert_eq. Qed.

Lemma modify_dir_eq d f h x : h_dirs h !! d = Some x -> modify_dir d f h = (Ok tt, put_dir d (f x) h).
Proof. intros Hd. unfold modify_dir. by rewrite (dir_at_some _ _ _ Hd). Qed.

(** The heap after a new directory [c] was made below [d]. *)
Definition with_new_dir (now : datetime) (d : nat) (x : TGFSDirectory) (name : string) (h : heap) : heap :=
  put_dir d (with_modified now (with_children (children x ++ [h_fresh h]) x))
    (alloc_dir (blank_dir name (Some d) now now) h).

Lemma create_dir_spec now h d x name :
  wf h -> h_dirs h !! d = Some x ->
  let r := if bool_decide (name ∈ map (dir_name h) (children x)) then (Raise (FileOrDirectoryAlreadyExists name), h)
           else match validate_name name with
                | Raise e => (Raise e, h)
                | Ok _ => (Ok (h_fresh h), with_new_dir now d x name h)
                end in
  create_dir now d name h = r /\ wf r.2.
Proof.
  intros Hwf Hd r. unfold r. clear r. pose proof (find_dirs_none h d name) as Hfd. rewrite (dir_at_some _ _ _ Hd) in Hfd.
  unfold create_dir. unfold sbind at 1, sget. case_bool_decide as Hin.
  { destruct (find_dirs h d [name]) eqn:He; [exfalso; by apply (proj1 Hfd)|]. by split. }
  rewrite (proj2 Hfd Hin). cbn [nonempty]. unfold sbind at 1.
  destruct (validate_name name) as [[]|e] eqn:Hv; [|unfold new_dir; by rewrite Hv].
  rewrite (new_dir_eq _ _ _ _ _ Hv). set (h1 := alloc_dir _ h). pose proof (fresh_dir_none _ Hwf) as Hnone.
  assert (d <> h_fresh h) as Hdf by congruence.
  assert (h_dirs h1 !! d = Some x) as Hd1 by (simpl; by rewrite lookup_insert_ne).
  unfold sbind at 1. rewrite (modify_dir_eq _ _ _ _ Hd1). unfold sbind, touch_modified.
  rewrite (modify_dir_eq _ _ _ _ (put_lookup _ _ _)), put_put. split; [done|]. cbn [snd sret].
  assert (wf h1) as Hwf1 by (apply wf_alloc_dir; [done..|]; intros q [= <-]; by eexists).
  destruct (wf_dirs _ Hwf1 _ _ Hd1) as [_ _ Hch Hnd _ _ _].
  assert (h_dirs h1 !! h_fresh h = Some (blank_dir name (Some d) now now)) as Hc by apply lookup_insert_eq.
  assert (dir_name h1 (h_fresh h) = name) as Hnc by (unfold dir_name; by rewrite (dir_at_some _ _ _ Hc)).
  assert (wf (put_dir d (with_children (children x ++ [h_fresh h]) x) h1)) as Hwf2.
  { apply wf_set_children; [done..| |].
    - intros c [Hcx| ->%list_elem_of_singleton]%elem_of_app; [by apply Hch|]. eauto.
    - rewrite map_app. apply NoDup_app. split; [done|]. split; [|apply NoDup_singleton].
      intros n Hn Hn2%list_elem_of_singleton. apply Hin. rewrite <- Hnc, <- Hn2.
      rewrite (map_ext_elem _ (dir_name h1)); [done|]. intros c Hcx. unfold dir_name, dir_at. simpl.
      rewrite lookup_insert_ne; [done|]. intros <-.
      destruct (wf_dirs _ Hwf _ _ Hd) as [_ _ Hch0 _ _ _ _]. destruct (Hch0 _ Hcx) as (y & Hy & _). congruence. }
  pose proof (wf_touch _ _ _ now Hwf2 (put_lookup _ _ _)) as Hwf3. by rewrite put_put in Hwf3.
Qed.

(** The heap after a new ref [r] was put into [d]. *)
Definition fresh_ref (d : nat) (name : string) (mid : Z) : TGFSFileRef :=
  {| fr_message_id := mid; fr_name := name; fr_location := d; fr_mirrors := []; fr_store := None;
     fr_stat := None; fr_stat_epoch := 0 |}.

Definition with_new_ref (d : nat) (x : TGFSDirectory) (name : string) (mid : Z) (h : heap) : heap :=
  let h1 := alloc_ref (fresh_ref d name mid) h in
  put_dir d (with_files (frl_append (name_of h1) (h_fresh h) (files x)) x) h1.

Lemma attach_file_ref_spec h d x name mid :
  wf h -> h_dirs h !! d = Some x ->
  let r := if bool_decide (name ∈ map (name_of h) (items (files x))) then (Raise (FileOrDirectoryAlreadyExists name), h)
           else (Ok (h_fresh h), with_new_ref d x name mid h) in
  attach_file_ref d name mid h = r /\ wf r.2.
Proof.
  intros Hwf Hd r. unfold r. clear r. pose proof (find_files_none h d name x Hwf Hd) as Hff.
  unfold attach_file_ref. unfold sbind at 1, sget. case_bool_decide as Hin.
  { destruct (find_files h d [name]) eqn:He; [exfalso; by apply (proj1 Hff)|]. by split. }
  rewrite (proj2 Hff Hin). cbn [nonempty]. unfold sbind at 1, new_ref. fold (fresh_ref d name mid).
  fold (alloc_ref (fresh_ref d name mid) h). set (h1 := alloc_ref _ h).
  assert (h_dirs h1 !! d = Some x) as Hd1 by done.
  unfold sbind, append_file. rewrite (modify_dir_eq _ _ _ _ Hd1). split; [done|]. cbn [snd sret].
  pose proof (wf_alloc_ref h (fresh_ref d name mid) Hwf) as Hwf1. fold h1 in Hwf1.
  destruct (wf_dirs _ Hwf1 _ _ Hd1) as [_ _ _ _ Hf Hnd Hi].
  assert (h_refs h1 !! h_fresh h = Some (fresh_ref d name mid)) as Hr by apply lookup_insert_eq.
  assert (name_of h1 (h_fresh h) = name) as Hnr by (unfold name_of, ref_at; by rewrite Hr).
  apply wf_set_files; [done..| | |by apply append_ok]; cbn [frl_append items].
  - intros r [Hrx| ->%list_elem_of_singleton]%elem_of_app; [by apply Hf|]. eauto.
  - rewrite map_app. apply NoDup_app. split; [done|]. split; [|apply NoDup_singleton].
    intros n Hn Hn2%list_elem_of_singleton. assert (n = name) as -> by (rewrite <- Hnr; exact Hn2). apply Hin.
    rewrite (map_ext_elem _ (name_of h1)); [done|]. intros r Hrx. unfold name_of, ref_at. simpl.
    rewrite lookup_insert_ne; [done|]. intros <-.
    destruct (wf_dirs _ Hwf _ _ Hd) as [_ _ _ _ Hf0 _ _]. destruct (Hf0 _ Hrx) as (y & Hy & _).
    rewrite (fresh_ref_none _ Hwf) in Hy. done.
Qed.

Lemma create_file_ref_spec now h d x name mid :
  wf h -> h_dirs h !! d = Some x ->
  let r := if bool_decide (name ∈ map (name_of h) (items (files x))) then (Raise (FileOrDirectoryAlreadyExists name), h)
           else (Ok (h_fresh h), (touch_modified now d (with_new_ref d x name mid h)).2) in
  create_file_ref now d name mid h = r /\ wf r.2.
Proof.
  intros Hwf Hd r. unfold r. clear r. destruct (attach_file_ref_spec h d x name mid Hwf Hd) as [He Hw].
  unfold create_file_ref. unfold sbind at 1. rewrite He. clear He.
  case_bool_decide; [done|]. unfold sbind, touch_modified. cbn [snd] in Hw. unfold with_new_ref in *.
  rewrite (modify_dir_eq _ _ _ _ (put_lookup _ _ _)). cbn [snd sret]. split; [done|].
  by apply wf_touch; [|apply put_lookup].
Qed.

Lemma path_loop_total h d l fuel : up_chain h d l -> (length l <= S fuel)%nat -> exists s, path_loop fuel h d = Ok s.
Proof.
  intros Hc. revert fuel. induction Hc as [d Hp|d p l Hp Hc IH]; intros fuel Hf.
  - exists ""%string. destruct fuel; simpl; by rewrite Hp.
  - destruct fuel as [|fuel]; simpl in *; [destruct l; [inversion Hc|simpl in Hf; lia]|]. rewrite Hp.
    destruct (IH fuel) as [s Hs]; [lia|]. rewrite Hs. simpl. eauto.
Qed.

Lemma absolute_path_total h d : wf h -> is_Some (h_dirs h !! d) -> exists s, absolute_path h d = Ok s.
Proof.
  intros Hwf Hd. destruct (wf_chain _ Hwf _ Hd) as [l Hl]. eapply path_loop_total; [exact Hl|].
  pose proof (up_chain_size _ _ _ Hwf Hd Hl). lia.
Qed.

Lemma up_chain_head h d l : up_chain h d l -> d ∈ l.
Proof. intros Hc. inversion Hc; left. Qed.

Lemma not_own_parent h d : wf h -> is_Some (h_dirs h !! d) -> parent (dir_at h d) <> Some d.
Proof.
  intros Hwf Hd Hp. destruct (wf_chain _ Hwf _ Hd) as [k Hk]. pose proof (up_chain_nodup _ _ _ Hk) as Hnd.
  inversion Hk as [? Hq|? q k' Hq Hk']; subst; [congruence|]. assert (q = d) as -> by congruence.
  apply NoDup_cons in Hnd as [Hnd _]. by apply Hnd, (up_chain_head h).
Qed.

(** [d] is where its parent pointer says, unless it is a root. *)
Definition attached (h : heap) (d : nat) : Prop :=
  forall p, parent (dir_at h d) = Some p -> d ∈ children (dir_at h p).

(** The heap after [d] moved from [p] to [np] under [name]. *)
Definition moved_heap (now : datetime) (d p np : nat) (name : string) (h : heap) : heap :=
  let h1 := put_dir p (with_modified now (with_children (without d (children (dir_at h p))) (dir_at h p))) h in
  let h2 := put_dir d (with_parent (Some np) (with_name name (dir_at h d))) h1 in
  put_dir np (with_modified now (with_children (children (dir_at h2 np) ++ [d]) (dir_at h2 np))) h2.

Lemma dir_at_lookup h d : is_Some (h_dirs h !! d) -> h_dirs h !! d = Some (dir_at h d).
Proof. intros [x Hx]. by rewrite (dir_at_some _ _ _ Hx). Qed.

Lemma wf_moved now h d p np name l :
  wf h -> is_Some (h_dirs h !! d) -> is_Some (h_dirs h !! np) -> parent (dir_at h d) = Some p ->
  validate_name name = Ok tt -> up_chain h np l -> d ∉ l ->
  name ∉ map (dir_name h) (children (dir_at h np)) ->
  wf (moved_heap now d p np name h).
Proof.
  intros Hwf Hd Hnp Hp Hv Hl Hdl Hfree. unfold moved_heap.
  pose proof (dir_at_lookup _ _ Hd) as Hdx. pose proof (dir_at_lookup _ _ Hnp) as Hnpx.
  pose proof (wf_dirs _ Hwf _ _ Hdx) as Hokd.
  pose proof (dir_at_lookup _ _ (do_parent _ _ _ Hokd _ Hp)) as Hpx.
  assert (d <> np) as Hdnp by (intros ->; by apply Hdl, (up_chain_head h)).
  assert (d <> p) as Hdp by (intros <-; by apply (not_own_parent h d)).
  set (px := with_modified now (with_children (without d (children (dir_at h p))) (dir_at h p))). set (h1 := put_dir p px h).
  assert (wf h1) as Hwf1.
  { pose proof (wf_remove_child h p (dir_at h p) d Hwf Hpx) as Hw.
    pose proof (wf_touch _ _ _ now Hw (put_lookup _ _ _)) as Hw'. rewrite put_put in Hw'. exact Hw'. }
  assert (forall e, parent (dir_at h1 e) = parent (dir_at h e)) as Hpar.
  { intros e. unfold h1. rewrite dir_at_put. case_decide; [by subst e|done]. }
  assert (forall e, dir_name h1 e = dir_name h e) as Hnm.
  { intros e. unfold dir_name, h1. rewrite dir_at_put. case_decide; [by subst e|done]. }
  assert (h_dirs h1 !! d = Some (dir_at h d)) as Hd1 by (simpl; by rewrite lookup_insert_ne).
  assert (forall e y, h_dirs h1 !! e = Some y -> d ∉ children y) as Hnochild.
  { intros e y [[<- <-]|[Hne Hy]]%dirs_put Hin.
    - by apply elem_of_without in Hin as [_ ?].
    - destruct (do_children _ _ _ (wf_dirs _ Hwf _ _ Hy) _ Hin) as (z & Hz & Hpz).
      rewrite (dir_at_some _ _ _ Hz) in Hp. congruence. }
  set (dx := with_parent (Some np) (with_name name (dir_at h d))). set (h2 := put_dir d dx h1).
  assert (wf h2) as Hwf2.
  { eapply wf_reparent; [done..| | |exact Hdl|exact Hnochild].
    - simpl. rewrite lookup_insert_is_Some'. by right.
    - eapply up_chain_ext; [|exact Hl]. intros e _. apply Hpar. }
  assert (h_dirs h2 !! np = Some (dir_at h2 np)) as Hnp2.
  { apply dir_at_lookup. simpl. rewrite !lookup_insert_is_Some'. by right; right. }
  assert (dir_at h2 np = dir_at h1 np) as Hat2.
  { unfold h2. by rewrite dir_at_put, decide_False by done. }
  assert (wf (put_dir np (with_children (children (dir_at h2 np) ++ [d]) (dir_at h2 np)) h2)) as Hwf3.
  { destruct (wf_dirs _ Hwf2 _ _ Hnp2) as [_ _ Hch Hnd _ _ _]. apply wf_set_children; [done..| |].
    - intros c [Hc| ->%list_elem_of_singleton]%elem_of_app; [by apply Hch|].
      exists dx. split; [apply put_lookup|done].
    - rewrite map_app. apply NoDup_app. split; [done|]. split; [|apply NoDup_singleton].
      assert (dir_name h2 d = name) as Hd2 by (unfold dir_name, h2; by rewrite dir_at_put, decide_True).
      intros n Hn Hn2%list_elem_of_singleton. assert (n = name) as -> by (by rewrite <- Hd2).
      assert (name ∈ map (dir_name h) (children (dir_at h1 np))) as Hin.
      { rewrite (map_ext_elem _ (dir_name h2)); [by rewrite <- Hat2|]. intros c Hc.
        unfold dir_name, h2. rewrite dir_at_put. case_decide as Hcd; [|exact (eq_sym (Hnm c))].
        subst c. exfalso. eapply Hnochild; [|exact Hc]. apply dir_at_lookup. simpl.
        rewrite lookup_insert_is_Some'. by right. }
      unfold h1 in Hin. rewrite dir_at_put in Hin. case_decide as Hpn.
      + subst np. cbn [with_modified with_children children] in Hin.
        apply Hfree. apply (list_elem_of_fmap (dir_name h)) in Hin as (c & -> & Hc).
        apply elem_of_without in Hc as [Hc _]. by apply (list_elem_of_fmap_2 (dir_name h)).
      + done. }
  pose proof (wf_touch _ _ _ now Hwf3 (put_lookup _ _ _)) as Hwf4. by rewrite put_put in Hwf4.
Qed.

(** [move_to] on every branch. *)
Definition move_result (now : datetime) (d np : nat) (new_name : option string) (h : heap) : exc unit * heap :=
  match parent (dir_at h d) with
  | None => (Raise (TechnicalError "The root directory cannot be moved"), h)
  | Some p =>
      let name := name_or new_name (dir_name h d) in
      match validate_name name with
      | Raise e => (Raise e, h)
      | Ok _ =>
          if (np =? p)%nat && bool_decide (name = dir_name h d) then (Ok tt, h)
          else match is_ancestor_of h d np, absolute_path h d with
               | Ok true, Ok path => (Raise (InvalidPath (path +:+ " cannot be moved into itself")), h)
               | Ok false, _ =>
                   if bool_decide (name ∈ map (dir_name h) (children (dir_at h np)))
                   then (Raise (FileOrDirectoryAlreadyExists name), h)
                   else (Ok tt, moved_heap now d p np name h)
               | Raise e, _ => (Raise e, h)
               | _, Raise e => (Raise e, h)
               end
      end
  end.

Lemma modify_moved now d p np name h l :
  wf h -> is_Some (h_dirs h !! d) -> is_Some (h_dirs h !! np) -> parent (dir_at h d) = Some p ->
  d ∈ children (dir_at h p) -> up_chain h np l -> d ∉ l ->
  (remove_child p d ;;; touch_modified now p ;;;
   modify_dir d (fun x => with_parent (Some np) (with_name name x)) ;;;
   modify_dir np (fun x => with_children (children x ++ [d]) x) ;;;
   touch_modified now np) h = (Ok tt, moved_heap now d p np name h).
Proof.
  intros Hwf Hd Hnp Hp Hin Hl Hdl. pose proof (dir_at_lookup _ _ Hd) as Hdx. pose proof (dir_at_lookup _ _ Hnp) as Hnpx.
  pose proof (dir_at_lookup _ _ (do_parent _ _ _ (wf_dirs _ Hwf _ _ Hdx) _ Hp)) as Hpx.
  assert (d <> p) as Hdp by (intros <-; by apply (not_own_parent h d)).
  unfold sbind at 1. rewrite (remove_child_eq _ _ _ _ Hwf Hpx Hin).
  unfold sbind at 1, touch_modified at 1. rewrite (modify_dir_eq _ _ _ _ (put_lookup _ _ _)), put_put.
  set (h1 := put_dir p _ h). assert (h_dirs h1 !! d = Some (dir_at h d)) as Hd1 by (simpl; by rewrite lookup_insert_ne).
  unfold sbind at 1. rewrite (modify_dir_eq _ _ _ _ Hd1). set (h2 := put_dir d _ h1).
  assert (h_dirs h2 !! np = Some (dir_at h2 np)) as Hnp2.
  { apply dir_at_lookup. simpl. rewrite !lookup_insert_is_Some'. by right; right. }
  unfold sbind. rewrite (modify_dir_eq _ _ _ _ Hnp2). unfold touch_modified.
  by rewrite (modify_dir_eq _ _ _ _ (put_lookup _ _ _)), put_put.
Qed.

Lemma move_to_spec now h d np new_name :
  wf h -> is_Some (h_dirs h !! d) -> is_Some (h_dirs h !! np) -> attached h d ->
  move_to now d np new_name h = move_result now d np new_name h /\ wf (move_result now d np new_name h).2.
Proof.
  intros Hwf Hd Hnp Hatt. unfold move_to, move_result. unfold sbind at 1, sget.
  destruct (parent (dir_at h d)) as [p|] eqn:Hp; [|done]. fold (dir_name h d). set (name := name_or _ _).
  unfold sbind at 1, slift. destruct (validate_name name) as [[]|e] eqn:Hv; [|done].
  destruct (_ && _); [done|]. unfold sbind at 1.
  destruct (is_ancestor_of_spec h d np Hwf Hnp) as (l & Hl & ->).
  destruct (absolute_path_total h d Hwf Hd) as [path Hpath]. rewrite Hpath.
  case_bool_decide as Hdl; [split; [reflexivity|exact Hwf]|].
  pose proof (find_dirs_none h np name) as Hfd. case_bool_decide as Hin.
  - destruct (find_dirs h np [name]); [exfalso; by apply (proj1 Hfd)|done].
  - rewrite (proj2 Hfd Hin). cbn [nonempty].
    split; [apply modify_moved with (l := l); try done; by apply Hatt|]. cbn [snd]. by eapply wf_moved.
Qed.

(** [relocate_file_ref] on every branch: [fr] is in [d]. *)
Definition relocated_heap (now : datetime) (d fr to : nat) (name : string) (h : heap) : heap :=
  let h1 := (touch_modified now to (with_new_ref to (dir_at h to) name (fr_message_id (ref_at h fr)) h)).2 in
  let h2 := put_ref (h_fresh h) (carry_over (ref_at h fr) (ref_at h1 (h_fresh h))) h1 in
  put_dir d (with_modified now (drop_ref h2 fr (dir_at h2 d))) h2.

Definition relocate_result (now : datetime) (d fr to : nat) (new_name : option string) (h : heap) : exc nat * heap :=
  let name := name_or new_name (name_of h fr) in
  if (to =? d)%nat && bool_decide (name = name_of h fr) then (Ok fr, h)
  else if bool_decide (name ∈ map (name_of h) (items (files (dir_at h to))))
  then (Raise (FileOrDirectoryAlreadyExists name), h)
  else (Ok (h_fresh h), relocated_heap now d fr to name h).

Lemma relocate_spec now h d fr to new_name :
  wf h -> is_Some (h_dirs h !! d) -> is_Some (h_dirs h !! to) -> fr ∈ items (files (dir_at h d)) ->
  relocate_file_ref now d fr to new_name h = relocate_result now d fr to new_name h /\
  wf (relocate_result now d fr to new_name h).2.
Proof.
  intros Hwf Hd Hto Hfr. unfold relocate_file_ref, relocate_result. unfold sbind at 1, sget.
  set (name := name_or _ _). destruct (_ && _); [done|].
  destruct (create_file_ref_spec now h to (dir_at h to) name (fr_message_id (ref_at h fr)) Hwf (dir_at_lookup _ _ Hto))
    as [Hc Hw]. unfold sbind at 1. rewrite Hc. clear Hc. case_bool_decide as Hin; [done|].
  unfold relocated_heap. cbn [snd] in Hw. set (h1 := (touch_modified _ _ _).2) in *.
  unfold sbind at 1, modify_ref. set (h2 := put_ref _ _ h1).
  assert (h_refs h1 !! h_fresh h = Some (fresh_ref to name (fr_message_id (ref_at h fr)))) as Hr1 by apply lookup_insert_eq.
  assert (wf h2) as Hwf2.
  { eapply wf_put_ref; [exact Hw|exact Hr1|unfold ref_at; by rewrite Hr1|unfold ref_at; by rewrite Hr1]. }
  assert (is_Some (h_dirs h2 !! d)) as Hd2.
  { unfold h2, h1, touch_modified, modify_dir, with_new_ref. simpl. rewrite !lookup_insert_is_Some'. by right; right. }
  assert (fr ∈ items (files (dir_at h2 d))) as Hfr2.
  { assert (dir_at h2 d = dir_at h1 d) as -> by done. unfold h1, touch_modified, modify_dir, with_new_ref. cbn [snd].
    destruct (decide (to = d)) as [->|Htd].
    - rewrite !dir_at_put, !decide_True by done. cbn. apply elem_of_app. by left.
    - by rewrite !dir_at_put, !(decide_False (P := to = d)) by done. }
  unfold sbind, stry. rewrite (delete_file_ref_eq now _ _ _ _ Hwf2 (dir_at_lookup _ _ Hd2) Hfr2).
  split; [done|]. cbn [snd]. apply wf_drop_ref; [done|by apply dir_at_lookup].
Qed.

Lemma delete_spec now h d :
  wf h -> is_Some (h_dirs h !! d) -> attached h d ->
  let h' := match parent (dir_at h d) with
            | Some p => put_dir p (with_modified now (with_children (without d (children (dir_at h p))) (dir_at h p))) h
            | None => put_dir d (with_modified now (with_files (frl_clear (files (dir_at h d)))
                                  (with_children [] (dir_at h d)))) h
            end in
  delete now d h = (Ok tt, h') /\ wf h'.
Proof.
  intros Hwf Hd Hatt h'. unfold h', delete. clear h'. pose proof (dir_at_lookup _ _ Hd) as Hdx. unfold sbind at 1, sget.
  destruct (parent (dir_at h d)) as [p|] eqn:Hp.
  - pose proof (dir_at_lookup _ _ (do_parent _ _ _ (wf_dirs _ Hwf _ _ Hdx) _ Hp)) as Hpx.
    unfold sbind. rewrite (remove_child_eq _ _ _ _ Hwf Hpx (Hatt _ Hp)). unfold touch_modified.
    rewrite (modify_dir_eq _ _ _ _ (put_lookup _ _ _)), put_put. split; [done|].
    pose proof (wf_remove_child h p (dir_at h p) d Hwf Hpx) as Hw.
    pose proof (wf_touch _ _ _ now Hw (put_lookup _ _ _)) as Hw'. rewrite put_put in Hw'. exact Hw'.
  - unfold sbind. rewrite (modify_dir_eq _ _ _ _ Hdx), (modify_dir_eq _ _ _ _ (put_lookup _ _ _)), put_put.
    unfold touch_modified. rewrite (modify_dir_eq _ _ _ _ (put_lookup _ _ _)), put_put. split; [done|].
    assert (wf (put_dir d (with_children [] (dir_at h d)) h)) as Hw1.
    { apply wf_set_children; [done..|by intros c ?%not_elem_of_nil|constructor]. }
    assert (wf (put_dir d (with_files (frl_clear (files (dir_at h d))) (with_children [] (dir_at h d))) h)) as Hw2.
    { rewrite <- (put_put _ _ (with_children [] (dir_at h d))).
      apply wf_set_files; [done|apply put_lookup|by intros r ?%not_elem_of_nil|constructor|apply clear_ok]. }
    pose proof (wf_touch _ _ _ now Hw2 (put_lookup _ _ _)) as Hw3. rewrite put_put in Hw3. exact Hw3.
Qed.

(** ** The invariant is kept *)

Inductive tree_op :=
| CreateDir (d : nat) (name : string)
| AttachRef (d : nat) (name : string) (mid : Z)
| CreateRef (d : nat) (name : string) (mid : Z)
| DeleteRef (d r : nat)
| RelocateRef (d r to : nat) (new_name : option string)
| MoveDir (d new_parent : nat) (new_name : option string)
| DeleteDir (d : nat).

Definition tree_exec (now : datetime) (op : tree_op) : hst unit :=
  match op with
  | CreateDir d name => create_dir now d name ;;; sret tt
  | AttachRef d name mid => attach_file_ref d name mid ;;; sret tt
  | CreateRef d name mid => create_file_ref now d name mid ;;; sret tt
  | DeleteRef d r => delete_file_ref now d r
  | RelocateRef d r to new_name => relocate_file_ref now d r to new_name ;;; sret tt
  | MoveDir d np new_name => move_to now d np new_name
  | DeleteDir d => delete now d
  end.

(** The objects a call names exist, and what it moves or deletes is still
    in the tree. *)
Definition tree_pre (op : tree_op) (h : heap) : Prop :=
  match op with
  | CreateDir d _ | AttachRef d _ _ | CreateRef d _ _ => is_Some (h_dirs h !! d)
  | DeleteRef d r => is_Some (h_dirs h !! d) /\ r ∈ items (files (dir_at h d))
  | RelocateRef d r to _ =>
      is_Some (h_dirs h !! d) /\ is_Some (h_dirs h !! to) /\ r ∈ items (files (dir_at h d))
  | MoveDir d np _ => is_Some (h_dirs h !! d) /\ is_Some (h_dirs h !! np) /\ attached h d
  | DeleteDir d => is_Some (h_dirs h !! d) /\ attached h d
  end.

(** C39: every operation on the tree keeps it a tree: parents and children
    agree, siblings and the files of a directory have different names, the
    name index agrees with the file list and no directory is inside itself;
    and an operation that raises leaves the tree exactly as it was. *)
Theorem tree_invariant now op h :
  wf h -> tree_pre op h ->
  let '(r, h') := tree_exec now op h in
  wf h' /\ match r with Ok _ => True | Raise _ => h' = h end.
Proof.
  intros Hwf Hpre. destruct op as [d name|d name mid|d name mid|d r|d r to nn|d np nn|d]; simpl in Hpre |- *.
  - destruct (create_dir_spec now h d (dir_at h d) name Hwf (dir_at_lookup _ _ Hpre)) as [He Hw].
    unfold sbind. rewrite He. case_bool_decide; [done|]. by destruct (validate_name name).
  - destruct (attach_file_ref_spec h d (dir_at h d) name mid Hwf (dir_at_lookup _ _ Hpre)) as [He Hw].
    unfold sbind. rewrite He. by case_bool_decide.
  - destruct (create_file_ref_spec now h d (dir_at h d) name mid Hwf (dir_at_lookup _ _ Hpre)) as [He Hw].
    unfold sbind. rewrite He. by case_bool_decide.
  - destruct Hpre as [Hd Hr]. rewrite (delete_file_ref_eq now _ _ _ _ Hwf (dir_at_lookup _ _ Hd) Hr).
    split; [|done]. apply wf_drop_ref; [done|by apply dir_at_lookup].
  - destruct Hpre as (Hd & Hto & Hr). destruct (relocate_spec now h d r to nn Hwf Hd Hto Hr) as [He Hw].
    unfold sbind. rewrite He. clear He. unfold relocate_result in *. destruct (_ && _); [done|]. by case_bool_decide.
  - destruct Hpre as (Hd & Hnp & Hatt). destruct (move_to_spec now h d np nn Hwf Hd Hnp Hatt) as [He Hw].
    rewrite He. clear He. unfold move_result in *. destruct (parent (dir_at h d)) as [p|]; [|done].
    destruct (validate_name _) as [[]|]; [|done]. destruct (_ && _); [done|].
    destruct (is_ancestor_of h d np) as [[]|], (absolute_path h d); try done; by case_bool_decide.
  - destruct Hpre as [Hd Hatt]. destruct (delete_spec now h d Hwf Hd Hatt) as [He Hw]. rewrite He. done.
Qed.

(** ** What lookups find *)

Lemma filter_unique {A} (p : A -> bool) l x :
  x ∈ l -> p x = true -> (forall y, y ∈ l -> p y = true -> y = x) -> NoDup l -> List.filter p l = [x].
Proof.
  induction l as [|y l IH]; [by intros ?%not_elem_of_nil|]. intros Hx Hp Huniq [Hy Hnd]%NoDup_cons. simpl.
  destruct (p y) eqn:Hpy.
  - assert (y = x) as -> by (apply Huniq; [left|done]). f_equal.
    destruct (List.filter p l) as [|z zs] eqn:Hf; [done|]. exfalso.
    assert (In z (List.filter p l)) as Hz by (rewrite Hf; by left). apply filter_In in Hz as [Hz Hpz].
    apply list_elem_of_In in Hz. apply Hy. by rewrite <- (Huniq z (list_elem_of_further z x l Hz) Hpz).
  - apply elem_of_cons in Hx as [->|Hx]; [congruence|]. apply IH; [done..| |done].
    intros z Hz. apply Huniq. by right.
Qed.

Lemma find_dir_unique h d c :
  wf h -> is_Some (h_dirs h !! d) -> c ∈ children (dir_at h d) -> find_dir h d (dir_name h c) = Ok c.
Proof.
  intros Hwf Hd Hc. destruct (wf_dirs _ Hwf _ _ (dir_at_lookup _ _ Hd)) as [_ _ _ Hnd _ _ _].
  unfold find_dir, find_dirs. cbn [nonempty]. rewrite (filter_unique _ _ c); [done|done| | |by eapply nodup_of_map].
  - apply bool_decide_eq_true. by apply list_elem_of_singleton.
  - intros y Hy Heq%bool_decide_eq_true%list_elem_of_singleton. by eapply nodup_map_inj.
Qed.

Lemma find_file_unique h d r :
  wf h -> is_Some (h_dirs h !! d) -> r ∈ items (files (dir_at h d)) -> find_file h d (name_of h r) = Ok r.
Proof.
  intros Hwf Hd Hr. destruct (wf_dirs _ Hwf _ _ (dir_at_lookup _ _ Hd)) as [_ _ _ _ _ Hnd _].
  unfold find_file. rewrite (find_files_named _ _ _ _ Hwf (dir_at_lookup _ _ Hd)).
  rewrite (filter_unique _ _ r); [done|done|by apply bool_decide_eq_true| |by eapply nodup_of_map].
  intros y Hy Heq%bool_decide_eq_true. by eapply nodup_map_inj.
Qed.

(** ** Moving *)

(** Moving a directory moves it with everything below it: it keeps its
    identity, its children and its files, it is found under the new parent
    by the new name and no longer under the old one, and no other directory
    and no file ref changes. *)
Theorem move_moves_subtree now h h' d p np new_name :
  let name := name_or new_name (dir_name h d) in
  wf h -> is_Some (h_dirs h !! d) -> is_Some (h_dirs h !! np) -> attached h d ->
  parent (dir_at h d) = Some p -> ~ (np = p /\ name = dir_name h d) ->
  move_to now d np new_name h = (Ok tt, h') ->
  h_dirs h' !! d = Some (with_parent (Some np) (with_name name (dir_at h d))) /\
  find_dir h' np name = Ok d /\ (p <> np -> d ∉ children (dir_at h' p)) /\
  (forall e, e <> d -> e <> p -> e <> np -> h_dirs h' !! e = h_dirs h !! e) /\ h_refs h' = h_refs h.
Proof.
  intros name Hwf Hd Hnp Hatt Hp Hmoved Hrun.
  destruct (move_to_spec now h d np new_name Hwf Hd Hnp Hatt) as [He Hw]. rewrite He in Hrun. clear He.
  unfold move_result in *. rewrite Hp in *. fold name in Hrun, Hw. destruct (validate_name name) as [[]|]; [|done].
  destruct (_ && _) eqn:Hs.
  { apply andb_true_iff in Hs as [->%Nat.eqb_eq Hs%bool_decide_eq_true]. tauto. }
  destruct (is_ancestor_of_spec h d np Hwf Hnp) as (l & Hl & Ha). rewrite Ha in Hrun, Hw.
  destruct (bool_decide (d ∈ l)) eqn:Hdl; [by destruct (absolute_path h d)|].
  destruct (bool_decide (name ∈ _)) eqn:Hn; [done|]. injection Hrun as <-. cbn [snd] in Hw.
  apply bool_decide_eq_false in Hdl. assert (d <> np) as Hdnp by (intros ->; by apply Hdl, (up_chain_head h)).
  unfold moved_heap in *. set (h1 := put_dir p _ h) in *. set (h2 := put_dir d _ h1) in *. set (h3 := put_dir np _ h2) in *.
  assert (h_dirs h3 !! d = Some (with_parent (Some np) (with_name name (dir_at h d)))) as Hd3.
  { simpl. rewrite lookup_insert_ne by done. apply lookup_insert_eq. }
  split; [done|]. split; [|split; [|split; [|done]]].
  - assert (dir_name h3 d = name) as Hnm by (unfold dir_name; by rewrite (dir_at_some _ _ _ Hd3)). rewrite <- Hnm.
    apply find_dir_unique; [done|by eexists; apply put_lookup|]. unfold h3 at 1.
    rewrite dir_at_put, decide_True by done. cbn. apply elem_of_app. right. by apply list_elem_of_singleton.
  - intros Hpn. unfold h3, h2. rewrite dir_at_put, decide_False by done. rewrite dir_at_put.
    destruct (decide (d = p)) as [Hdp|_]; [exfalso; apply (not_own_parent h d Hwf Hd); congruence|].
    unfold h1. rewrite dir_at_put, decide_True by done. cbn. by intros [_ ?]%elem_of_without.
  - intros e H1 H2 H3. simpl. by rewrite !lookup_insert_ne.
Qed.

(** A directory cannot be moved into itself or below itself: the call
    raises [InvalidPath] and changes nothing, so no move can make a cycle. *)
Theorem move_into_itself_refused now h d np l new_name :
  let name := name_or new_name (dir_name h d) in
  wf h -> is_Some (h_dirs h !! d) -> is_Some (h_dirs h !! np) -> attached h d ->
  parent (dir_at h d) <> None -> validate_name name = Ok tt ->
  up_chain h np l -> d ∈ l ->
  exists path, move_to now d np new_name h = (Raise (InvalidPath path), h).
Proof.
  intros name Hwf Hd Hnp Hatt Hp Hv Hl Hdl.
  destruct (move_to_spec now h d np new_name Hwf Hd Hnp Hatt) as [He _]. rewrite He. clear He.
  unfold move_result. fold name. destruct (parent (dir_at h d)) as [p|] eqn:Hpp; [|done]. rewrite Hv.
  destruct (np =? p)%nat eqn:Hnpp; cbn [andb].
  - exfalso. apply Nat.eqb_eq in Hnpp as ->. assert (up_chain h d (d :: l)) as Hc by (by econstructor).
    apply up_chain_nodup, NoDup_cons in Hc as [? _]. done.
  - destruct (is_ancestor_of_spec h d np Hwf Hnp) as (k & Hk & Ha). rewrite Ha.
    rewrite (up_chain_fun _ _ _ _ Hk Hl), bool_decide_eq_true_2 by done.
    destruct (absolute_path_total h d Hwf Hd) as [path ->]. by eexists.
Qed.

(** Moving a file keeps the messages behind it: the ref that appears at
    the new place has the descriptor id, mirrors, store and stat of the old
    one, which is gone from where it was; every other ref stays in its
    directory, unchanged. *)
Theorem relocate_keeps_file now h h' d fr to new_name moved :
  let name := name_or new_name (name_of h fr) in
  wf h -> is_Some (h_dirs h !! d) -> is_Some (h_dirs h !! to) -> fr ∈ items (files (dir_at h d)) ->
  ~ (to = d /\ name = name_of h fr) ->
  relocate_file_ref now d fr to new_name h = (Ok moved, h') ->
  find_file h' to name = Ok moved /\
  ref_at h' moved =
    {| fr_message_id := fr_message_id (ref_at h fr); fr_name := name; fr_location := to;
       fr_mirrors := fr_mirrors (ref_at h fr); fr_store := fr_store (ref_at h fr);
       fr_stat := fr_stat (ref_at h fr); fr_stat_epoch := fr_stat_epoch (ref_at h fr) |} /\
  fr ∉ items (files (dir_at h' d)) /\
  (forall e r, is_Some (h_dirs h !! e) -> r ∈ items (files (dir_at h e)) -> r <> fr ->
     r ∈ items (files (dir_at h' e)) /\ ref_at h' r = ref_at h r).
Proof.
  intros name Hwf Hd Hto Hfr Hmoved Hrun.
  destruct (relocate_spec now h d fr to new_name Hwf Hd Hto Hfr) as [He Hw]. rewrite He in Hrun. clear He.
  unfold relocate_result in *. fold name in Hrun, Hw. destruct (_ && _) eqn:Hs.
  { apply andb_true_iff in Hs as [->%Nat.eqb_eq Hs%bool_decide_eq_true]. tauto. }
  destruct (bool_decide (name ∈ _)) eqn:Hn; [done|]. injection Hrun as <- <-. cbn [snd] in Hw.
  unfold relocated_heap in *. set (h1 := (touch_modified _ _ _).2) in *. set (h2 := put_ref _ _ h1) in *.
  set (h3 := put_dir d _ h2) in *.
  assert (h_refs h1 !! h_fresh h = Some (fresh_ref to name (fr_message_id (ref_at h fr)))) as Hr1 by apply lookup_insert_eq.
  assert (ref_at h3 (h_fresh h) = carry_over (ref_at h fr) (fresh_ref to name (fr_message_id (ref_at h fr)))) as Hr3.
  { unfold ref_at at 1. simpl. rewrite lookup_insert_eq. simpl. unfold ref_at at 2. by rewrite Hr1. }
  assert (forall e, is_Some (h_dirs h !! e) -> items (files (dir_at h2 e)) =
            if decide (to = e) then items (files (dir_at h e)) ++ [h_fresh h] else items (files (dir_at h e))) as Hitems2.
  { intros e He. assert (dir_at h2 e = dir_at h1 e) as -> by done.
    unfold h1, touch_modified, modify_dir, with_new_ref. cbn [snd].
    destruct (decide (to = e)) as [<-|Hte].
    - by rewrite !dir_at_put, !decide_True by done.
    - by rewrite !dir_at_put, !(decide_False (P := to = e)) by done. }
  assert (forall e, items (files (dir_at h3 e)) =
            if decide (d = e) then without fr (items (files (dir_at h2 e))) else items (files (dir_at h2 e))) as Hitems3.
  { intros e. unfold h3. rewrite dir_at_put. by destruct (decide (d = e)) as [<-|]. }
  assert (h_fresh h <> fr) as Hff.
  { intros <-. destruct (do_files _ _ _ (wf_dirs _ Hwf _ _ (dir_at_lookup _ _ Hd)) _ Hfr) as (f & Hf & _).
    by rewrite (fresh_ref_none _ Hwf) in Hf. }
  split; [|split; [done|split]].
  - assert (name_of h3 (h_fresh h) = name) as Hnm by (unfold name_of; by rewrite Hr3). rewrite <- Hnm.
    apply find_file_unique; [done| |].
    + unfold h3, h2, h1, touch_modified, modify_dir, with_new_ref. simpl. rewrite !lookup_insert_is_Some'. by right; left.
    + rewrite Hitems3, Hitems2, (decide_True (P := to = to)) by done. destruct (decide (d = to)); [apply elem_of_without; split; [|done]|];
        apply elem_of_app; right; by apply list_elem_of_singleton.
  - rewrite Hitems3, decide_True by done. by intros [_ ?]%elem_of_without.
  - intros e r Hex Hr Hne. split.
    + rewrite Hitems3, Hitems2 by done.
      destruct (decide (d = e)), (decide (to = e)); rewrite ?elem_of_without, ?elem_of_app; tauto.
    + destruct (do_files _ _ _ (wf_dirs _ Hwf _ _ (dir_at_lookup _ _ Hex)) _ Hr) as (f & Hf & _).
      assert (r <> h_fresh h) by (intros ->; by rewrite (fresh_ref_none _ Hwf) in Hf).
      unfold ref_at. simpl. by rewrite !lookup_insert_ne.
Qed.
