(* ===== verification/DirectorySer.v ===== *)
(** * Saving and loading the directory tree

    [from_dict] rebuilds the heap of a serialized tree: the result is a
    well-formed tree whose serialized form is the one it was read from. *)

From S2P Require Import Prelude Errors StoreKey FileVersion FileRefs Directory DirectoryProps.

Open Scope Z_scope.
Open Scope py_scope.

(** ** Serialized trees *)

Section DirSerInd.
  Context (P : TGFSDirectorySerialized -> Prop)
    (Hnode : forall n c m cs fs, Forall P cs -> P (DirSer n c m cs fs)).

Fixpoint ser_ind (data : TGFSDirectorySerialized) : P data :=
  match data with
  | DirSer n c m cs fs =>
      Hnode n c m cs fs ((fix go cs := match cs return Forall P cs with
                          | [] => Forall_nil_2 P
                          | x :: xs => Forall_cons_2 P x xs (ser_ind x) (go xs)
                          end) cs)
  end.

End DirSerInd.

(** A ref as [to_dict] writes it. *)
Record ref_normal (f : TGFSFileRefSerialized) : Prop := {
  rn_name : frs_name f <> EmptyString;
  rn_id : frs_messageId f <> 0;
  rn_mirrors : match frs_mirrors f with
               | Some m => m <> [] /\ Dict.wf m /\ Forall (fun kv => normalize_store_key kv.1 = kv.1) m
               | None => True
               end;
  rn_store : match frs_store f with Some s => s <> EmptyString /\ normalize_store_key s = s | None => True end;
  rn_stat : match frs_stat f with Some d => exists s, d = stat_to_dict s | None => True end
}.

(** A tree as [to_dict] writes it: valid and, among siblings, different
    names; dates not before 1970. *)
Fixpoint ser_normal (data : TGFSDirectorySerialized) : Prop :=
  let '(DirSer name created modified cs fs) := data in
  validate_name name = Ok tt /\
  (exists c, created = Some c /\ 0 <= c) /\ (exists m, modified = Some m /\ 0 <= m) /\
  Forall ref_normal fs /\ NoDup (map frs_name fs) /\
  NoDup (map ds_name cs) /\
  (fix go cs := match cs with [] => True | c :: cs => ser_normal c /\ go cs end) cs.

Lemma ser_normal_children n c m cs fs : ser_normal (DirSer n c m cs fs) -> Forall ser_normal cs.
Proof.
  simpl. intros (_ & _ & _ & _ & _ & _ & Hcs). induction cs as [|x xs IH]; [constructor|].
  destruct Hcs. constructor; [done|by apply IH].
Qed.

Lemma ref_from_to d f : ref_normal f -> ref_to_dict (ref_from_dict d f) = f.
Proof.
  intros [Hn Hi Hm Hs Hst]. destruct f as [mid name mirrors store stat]. simpl in *.
  unfold ref_to_dict, ref_from_dict. simpl. f_equal.
  - destruct mirrors as [m|]; simpl; [|done]. destruct Hm as (Hne & Hwf & Hall).
    assert (map (fun kv => (normalize_store_key kv.1, kv.2)) m = m) as ->.
    { clear -Hall. induction Hall as [|[k v] m Hk Hall IH]; simpl; [done|]. simpl in Hk. by rewrite Hk, IH. }
    rewrite dict_of_pairs_id by done. by destruct m.
  - destruct store as [s|]; [|done]. destruct Hs as [Hne Hk]. simpl. rewrite bool_decide_eq_false_2 by done. simpl.
    by rewrite Hk, bool_decide_eq_false_2.
  - destruct stat as [d'|]; [|done]. destruct Hst as [s ->]. by rewrite stat_roundtrip.
Qed.

Lemma ts_read_ts v : 0 <= v -> ts (read_ts v) = v.
Proof.
  intros Hv. unfold read_ts. destruct (0 <? v) eqn:H0; [|apply Z.ltb_ge in H0].
  - unfold ts, fromtimestamp_ms. simpl. apply Z.quot_mul. lia.
  - change (ts FIRST_DAY_OF_EPOCH) with 0. lia.
Qed.

(** ** What a heap represents *)

(** The subtree at [d] is [data], and every object of it is in
    [lo <= id < hi]. *)
Fixpoint repr (h : heap) (lo hi : nat) (data : TGFSDirectorySerialized) (d : nat) : Prop :=
  let '(DirSer name created modified cs fs) := data in
  (lo <= d < hi)%nat /\
  exists x, h_dirs h !! d = Some x /\ d_name x = name /\
    Some (ts (d_created_at x)) = created /\ Some (ts (d_modified_at x)) = modified /\
    map (fun r => ref_to_dict (ref_at h r)) (items (files x)) = fs /\
    Forall (fun r => (lo <= r < hi)%nat) (items (files x)) /\
    (fix go cs ds := match cs, ds with
     | [], [] => True
     | c :: cs, d :: ds => repr h lo hi c d /\ go cs ds
     | _, _ => False
     end) cs (children x).

Lemma repr_go h lo hi cs ds :
  (fix go cs ds := match cs, ds with
     | [], [] => True
     | c :: cs, d :: ds => repr h lo hi c d /\ go cs ds
     | _, _ => False
     end) cs ds <-> Forall2 (repr h lo hi) cs ds.
Proof.
  revert ds. induction cs as [|c cs IH]; intros [|d ds]; (split; [intros Hgo|intros Hf; inversion Hf; subst]);
    try done.
  - destruct Hgo as [Hc Hgo]. constructor; [done|]. by apply IH.
  - split; [done|]. by apply IH.
Qed.

Fixpoint depth (data : TGFSDirectorySerialized) : nat :=
  let '(DirSer _ _ _ cs _) := data in S (foldr (fun c n => Nat.max (depth c) n) 0%nat cs).

Lemma depth_child c cs : c ∈ cs -> (depth c <= foldr (fun c n => Nat.max (depth c) n) 0%nat cs)%nat.
Proof.
  induction cs as [|x cs IH]; [by intros ?%not_elem_of_nil|]. intros [->|Hin]%elem_of_cons; simpl; [lia|].
  specialize (IH Hin). lia.
Qed.

(** A represented tree is what [to_dict] writes. *)
Lemma repr_to_dict h lo hi data d fuel :
  repr h lo hi data d -> (depth data <= fuel)%nat -> to_dict fuel h d = Ok data.
Proof.
  revert d fuel. induction data as [n c m cs fs Hcs] using ser_ind. intros d fuel Hr Hf.
  destruct fuel as [|fuel]; simpl in Hf; [lia|]. simpl in Hr.
  destruct Hr as (_ & x & Hx & Hn & Hc & Hm & Hfs & _ & Hgo). apply repr_go in Hgo. simpl.
  rewrite (dir_at_some _ _ _ Hx). rewrite Hn, Hc, Hm, Hfs.
  assert (rmapM (to_dict fuel h) (children x) = Ok cs) as ->; [|done].
  assert (Forall (fun c => (depth c <= fuel)%nat) cs) as Hd.
  { apply List.Forall_forall. intros y Hy%list_elem_of_In. pose proof (depth_child _ _ Hy). lia. }
  clear -Hcs Hgo Hd. induction Hgo as [|c d cs ds Hc Hgo IH]; simpl; [done|].
  apply Forall_cons in Hcs as [H1 H2]. apply Forall_cons in Hd as [D1 D2].
  rewrite (H1 d fuel Hc D1). simpl. by rewrite IH.
Qed.

(** ** Heaps that only grow *)

(** [h'] has the objects of [h], and new ones. *)
Definition grown (h h' : heap) : Prop :=
  (h_fresh h <= h_fresh h')%nat /\
  (forall i, (i < h_fresh h)%nat -> h_dirs h' !! i = h_dirs h !! i /\ h_refs h' !! i = h_refs h !! i).

Lemma grown_refl h : grown h h.
Proof. split; [lia|done]. Qed.

Lemma grown_trans h1 h2 h3 : grown h1 h2 -> grown h2 h3 -> grown h1 h3.
Proof.
  intros [F1 G1] [F2 G2]. split; [lia|]. intros i Hi. destruct (G1 i Hi), (G2 i ltac:(lia)). split; congruence.
Qed.

Lemma repr_grown h h' lo hi data d :
  grown h h' -> (hi <= h_fresh h)%nat -> repr h lo hi data d -> repr h' lo hi data d.
Proof.
  intros [_ Hg] Hhi. revert d. induction data as [n c m cs fs Hcs] using ser_ind. intros d. simpl.
  intros (Hd & x & Hx & Hn & Hc & Hm & Hfs & Hids & Hgo). split; [done|]. exists x.
  destruct (Hg d ltac:(lia)) as [-> _]. repeat split; [done..| | |].
  - rewrite <- Hfs. apply map_ext_elem. intros r Hr. rewrite List.Forall_forall in Hids.
    pose proof (Hids r (proj1 (list_elem_of_In _ _) Hr)). unfold ref_at. by destruct (Hg r ltac:(lia)) as [_ ->].
  - done.
  - apply repr_go. apply repr_go in Hgo. clear -Hcs Hgo. induction Hgo as [|c d cs ds Hc Hgo IH]; [constructor|].
    apply Forall_cons in Hcs as [H1 H2]. constructor; [by apply H1|by apply IH].
Qed.

Lemma repr_weaken h lo lo' hi hi' data d :
  (lo' <= lo)%nat -> (hi <= hi')%nat -> repr h lo hi data d -> repr h lo' hi' data d.
Proof.
  intros Hlo Hhi. revert d. induction data as [n c m cs fs Hcs] using ser_ind. intros d. simpl.
  intros (Hd & x & Hx & Hn & Hc & Hm & Hfs & Hids & Hgo). split; [lia|]. exists x. repeat split; [done..| |].
  - eapply Forall_impl; [exact Hids|]. simpl. lia.
  - apply repr_go. apply repr_go in Hgo. clear -Hcs Hgo. induction Hgo as [|c d cs ds Hc Hgo IH]; [constructor|].
    apply Forall_cons in Hcs as [H1 H2]. constructor; [by apply H1|by apply IH].
Qed.

(** Changing a directory outside the range changes nothing in it. *)
Lemma repr_put h lo hi data e d x :
  (d < lo)%nat -> repr h lo hi data e -> repr (put_dir d x h) lo hi data e.
Proof.
  intros Hdlo. revert e. induction data as [n c m cs fs Hcs] using ser_ind. intros e. simpl.
  intros (He & y & Hy & Hn & Hc & Hm & Hfs & Hids & Hgo). split; [done|]. exists y.
  rewrite lookup_insert_ne by lia. repeat split; [done..|].
  apply repr_go. apply repr_go in Hgo. clear -Hcs Hgo. induction Hgo as [|c d' cs ds Hc Hgo IH]; [constructor|].
  apply Forall_cons in Hcs as [H1 H2]. constructor; [by apply H1|by apply IH].
Qed.

Lemma grown_put h h' d x : grown h h' -> (h_fresh h <= d)%nat -> grown h (put_dir d x h').
Proof.
  intros [Hf Hg] Hd. split; [done|]. intros i Hi. simpl. rewrite lookup_insert_ne by lia. by apply Hg.
Qed.

Lemma grown_alloc_dir h x : grown h (alloc_dir x h).
Proof. split; [simpl; lia|]. intros i Hi. simpl. rewrite lookup_insert_ne by lia. done. Qed.

Lemma grown_alloc_ref h x : grown h (alloc_ref x h).
Proof. split; [simpl; lia|]. intros i Hi. simpl. rewrite lookup_insert_ne by lia. done. Qed.

Lemma repr_name h lo hi data d : repr h lo hi data d -> is_Some (h_dirs h !! d) /\ dir_name h d = ds_name data.
Proof.
  destruct data as [n c m cs fs]. simpl. intros (_ & x & Hx & Hn & _). split; [by eexists|].
  unfold dir_name. by rewrite (dir_at_some _ _ _ Hx).
Qed.

(** ** Loading *)

Lemma load_files_spec d fs h :
  wf h -> Forall ref_normal fs ->
  exists rs h', load_files d fs h = (Ok rs, h') /\ wf h' /\ grown h h' /\ h_dirs h' = h_dirs h /\
    map (fun r => ref_to_dict (ref_at h' r)) rs = fs /\
    Forall (fun r => (h_fresh h <= r < h_fresh h')%nat) rs /\
    (forall r, r ∈ rs -> exists f, h_refs h' !! r = Some f /\ fr_location f = d) /\
    map (name_of h') rs = map frs_name fs.
Proof.
  intros Hwf Hn. revert h Hwf. induction Hn as [|f fs Hf Hn IH]; intros h Hwf.
  { exists [], h. split_and!; try done; by intros r ?%not_elem_of_nil. }
  cbn [load_files]. pose proof (rn_name _ Hf) as Hname. pose proof (rn_id _ Hf) as Hid.
  rewrite (bool_decide_eq_false_2 _ Hname), (proj2 (Z.eqb_neq _ _) Hid). cbn [negb andb].
  unfold sbind at 1, new_ref. fold (alloc_ref (ref_from_dict d f) h). set (h1 := alloc_ref _ h).
  destruct (IH h1 (wf_alloc_ref _ _ Hwf)) as (rs & h' & Hrun & Hwf' & Hg & Hd & Hmap & Hids & Hloc & Hnames).
  unfold sbind at 1. rewrite Hrun.
  assert (h_refs h' !! h_fresh h = Some (ref_from_dict d f)) as Hr.
  { destruct Hg as [_ Hg]. destruct (Hg (h_fresh h)) as [_ ->]; [simpl; lia|]. apply lookup_insert_eq. }
  exists (h_fresh h :: rs), h'. split; [done|]. split; [done|].
  split; [eapply grown_trans; [apply grown_alloc_ref|exact Hg]|]. split; [done|]. split_and!.
  - simpl. f_equal; [|done]. unfold ref_at. rewrite Hr. simpl. by apply ref_from_to.
  - constructor; [destruct Hg as [Hg _]; simpl in Hg; lia|]. eapply Forall_impl; [exact Hids|]. simpl. lia.
  - intros r [->|Hin]%elem_of_cons; [|by apply Hloc]. by eexists.
  - simpl. f_equal; [|done]. unfold name_of, ref_at. by rewrite Hr.
Qed.

(** Loading the children of [d]. *)
Lemma load_children_spec d cs h :
  Forall (fun data => ser_normal data -> forall p h, wf h -> (forall q, p = Some q -> is_Some (h_dirs h !! q)) ->
    exists d h', from_dict data p h = (Ok d, h') /\ wf h' /\ grown h h' /\
      repr h' (h_fresh h) (h_fresh h') data d /\ parent (dir_at h' d) = p) cs ->
  Forall ser_normal cs -> wf h -> is_Some (h_dirs h !! d) ->
  exists ds h', (fix go cs := match cs with
                  | [] => sret []
                  | c :: cs => let! i := from_dict c (Some d) in let! r := go cs in sret (i :: r)
                  end) cs h = (Ok ds, h') /\ wf h' /\ grown h h' /\
    Forall2 (repr h' (h_fresh h) (h_fresh h')) cs ds /\ Forall (fun c => parent (dir_at h' c) = Some d) ds.
Proof.
  intros Hspec Hn. revert h Hspec. induction Hn as [|c cs Hc Hn IH]; intros h Hspec Hwf Hd.
  { exists [], h. split; [done|]. split; [done|]. split; [apply grown_refl|]. by split. }
  apply Forall_cons in Hspec as [Hspec Hrest].
  destruct (Hspec Hc (Some d) h Hwf) as (i & h1 & Hrun & Hwf1 & Hg1 & Hr1 & Hp1); [by intros q [= <-]|].
  unfold sbind at 1. rewrite Hrun.
  assert (is_Some (h_dirs h1 !! d)) as Hd1.
  { destruct Hg1 as [_ Hg1]. destruct (Hg1 d (wf_fresh_dirs _ Hwf _ Hd)) as [-> _]. done. }
  destruct (IH h1 Hrest Hwf1 Hd1) as (ds & h2 & Hrun2 & Hwf2 & Hg2 & Hr2 & Hp2).
  unfold sbind at 1. rewrite Hrun2. exists (i :: ds), h2. split; [done|]. split; [done|].
  split; [by eapply grown_trans|]. pose proof (proj1 Hg1). pose proof (proj1 Hg2). split.
  - constructor.
    + apply (repr_weaken _ (h_fresh h) _ (h_fresh h1)); [lia|lia|]. eapply repr_grown; [exact Hg2|done|exact Hr1].
    + eapply Forall2_impl; [exact Hr2|]. intros x y. apply repr_weaken; lia.
  - constructor; [|done]. apply repr_name in Hr1 as [Hi _]. unfold dir_at in *.
    destruct Hg2 as [_ Hg2]. destruct (Hg2 i (wf_fresh_dirs _ Hwf1 _ Hi)) as [-> _]. done.
Qed.

Lemma from_dict_spec data :
  ser_normal data -> forall p h, wf h -> (forall q, p = Some q -> is_Some (h_dirs h !! q)) ->
  exists d h', from_dict data p h = (Ok d, h') /\ wf h' /\ grown h h' /\
    repr h' (h_fresh h) (h_fresh h') data d /\ parent (dir_at h' d) = p.
Proof.
  induction data as [n c m cs fs Hcs] using ser_ind. intros Hnorm p h Hwf Hp.
  pose proof (ser_normal_children _ _ _ _ _ Hnorm) as Hnc. simpl in Hnorm.
  destruct Hnorm as (Hv & (cv & -> & Hcv) & (mv & -> & Hmv) & Hfs & Hfn & Hcn & _).
  cbn [from_dict]. unfold sbind at 1. rewrite (new_dir_eq _ _ _ _ _ Hv). cbn [default].
  set (d := h_fresh h). set (x0 := blank_dir _ _ _ _). set (h1 := alloc_dir x0 h).
  assert (wf h1) as Hwf1 by (by apply wf_alloc_dir).
  assert (h_dirs h1 !! d = Some x0) as Hd1 by apply lookup_insert_eq.
  (* the files *)
  assert (exists x2 h2, (if nonempty fs then
       let! rs := load_files d fs in let! h := sget in modify_dir d (with_files (frl_of (name_of h) rs))
     else sret tt) h1 = (Ok tt, h2) /\ wf h2 /\ grown h h2 /\ (h_fresh h1 <= h_fresh h2)%nat /\
     h_dirs h2 !! d = Some x2 /\ with_files (files x0) x2 = x0 /\
     map (fun r => ref_to_dict (ref_at h2 r)) (items (files x2)) = fs /\
     Forall (fun r => (d <= r < h_fresh h2)%nat) (items (files x2))) as
     (x2 & h2 & Hrun2 & Hwf2 & Hg2 & Hf2 & Hd2 & Hx2 & Hmap2 & Hids2).
  { destruct (nonempty fs) eqn:Hne.
    - destruct (load_files_spec d fs h1 Hwf1 Hfs) as (rs & h' & Hrun & Hwf' & Hg & Hdirs & Hmap & Hids & Hloc & Hnames).
      unfold sbind at 1. rewrite Hrun. unfold sbind, sget.
      assert (h_dirs h' !! d = Some x0) as Hd' by (by rewrite Hdirs).
      rewrite (modify_dir_eq _ _ _ _ Hd'). eexists _, _. split; [done|]. split.
      { apply wf_set_files; [done..| |apply frl_of_ok]. simpl. by rewrite Hnames. }
      split; [apply grown_put; [eapply grown_trans; [apply grown_alloc_dir|exact Hg]|unfold d; lia]|].
      split; [apply Hg|]. split; [apply put_lookup|]. split; [done|]. split; [done|].
      eapply Forall_impl; [exact Hids|]. simpl. unfold d. lia.
    - apply nonempty_false in Hne as ->. exists x0, h1. split_and!; try done. apply grown_alloc_dir. }
  unfold sbind at 1. rewrite Hrun2. unfold sbind at 1.
  destruct (load_children_spec d cs h2 Hcs Hnc Hwf2 (ex_intro _ _ Hd2)) as (ds & h3 & Hrun3 & Hwf3 & Hg3 & Hr3 & Hp3).
  rewrite Hrun3. assert (h_dirs h3 !! d = Some x2) as Hd3.
  { destruct Hg3 as [_ Hg3]. destruct (Hg3 d) as [-> _]; [simpl in Hf2; unfold d; lia|done]. }
  unfold sbind. rewrite (modify_dir_eq _ _ _ _ Hd3). eexists _, _. split; [done|].
  assert (map (dir_name h3) ds = map ds_name cs) as Hdn.
  { clear -Hr3. induction Hr3 as [|c e cs ds Hc Hr IH]; simpl; [done|]. f_equal; [|done]. by apply repr_name in Hc as [_ ->]. }
  pose proof (proj1 Hg3) as Hf3. assert (d < h_fresh h2)%nat as Hd2f by (simpl in Hf2; unfold d; lia).
  split; [|split; [|split]].
  - apply wf_set_children; [done..| |by rewrite Hdn]. intros e He. apply list_elem_of_lookup in He as [i Hi].
    pose proof (Forall2_lookup_r _ _ _ _ _ Hr3 Hi) as (c' & _ & Hrc). apply repr_name in Hrc as [[y Hy] _].
    exists y. split; [done|]. rewrite Forall_lookup in Hp3. specialize (Hp3 _ _ Hi).
    by rewrite (dir_at_some _ _ _ Hy) in Hp3.
  - apply grown_put; [by eapply grown_trans|unfold d; lia].
  - simpl. split; [fold d; lia|]. eexists. split; [apply lookup_insert_eq|].
    assert (d_name x2 = n /\ d_created_at x2 = read_ts cv /\ d_modified_at x2 = read_ts mv) as (E1 & E2 & E3).
    { destruct x2. unfold with_files in Hx2. simpl in *. by injection Hx2 as -> -> -> -> ->. }
    split; [done|]. simpl. rewrite E2, E3, !ts_read_ts by done. split; [done|]. split; [done|]. split; [|split].
    + rewrite <- Hmap2. apply map_ext_elem. intros r Hr. rewrite List.Forall_forall in Hids2.
      pose proof (Hids2 r (proj1 (list_elem_of_In _ _) Hr)). unfold ref_at. simpl. destruct Hg3 as [_ Hg3].
      by destruct (Hg3 r ltac:(lia)) as [_ ->].
    + eapply Forall_impl; [exact Hids2|]. simpl. fold d. lia.
    + apply repr_go. eapply Forall2_impl; [exact Hr3|]. intros a b Hab. fold (put_dir d (with_children ds x2) h3).
      apply (repr_weaken _ (h_fresh h2) _ (h_fresh h3)); [fold d; lia|simpl; lia|]. by apply repr_put.
  - rewrite dir_at_put, decide_True by done. simpl. destruct x2. unfold with_files in Hx2. simpl in *.
    by injection Hx2 as -> -> -> -> ->.
Qed.

(** ** Saving *)

Lemma to_dict_mono h f g d a : to_dict f h d = Ok a -> (f <= g)%nat -> to_dict g h d = Ok a.
Proof.
  revert g d a. induction f as [|f IH]; intros g d a; [done|]. destruct g as [|g]; [lia|]. simpl. intros Hrun Hle.
  destruct (rmapM (to_dict f h) (children (dir_at h d))) as [cs|] eqn:Hcs; [|done].
  assert (rmapM (to_dict g h) (children (dir_at h d)) = Ok cs) as ->; [|done].
  clear Hrun. revert cs Hcs. induction (children (dir_at h d)) as [|c l IHl]; intros cs; simpl; [done|].
  destruct (to_dict f h c) as [x|] eqn:Hx; [|done]. rewrite (IH g c x Hx ltac:(lia)). simpl.
  destruct (rmapM (to_dict f h) l) as [xs|]; [|done]. by rewrite (IHl xs eq_refl).
Qed.

(** With as much fuel as directories, saving never stops short. *)
Lemma to_dict_total h d l fuel :
  wf h -> is_Some (h_dirs h !! d) -> up_chain h d l -> (size (h_dirs h) < fuel + length l)%nat ->
  exists data, to_dict fuel h d = Ok data.
Proof.
  intros Hwf. revert d l. induction fuel as [|fuel IH]; intros d l Hd Hl Hf.
  { pose proof (up_chain_size _ _ _ Hwf Hd Hl). lia. }
  simpl. destruct (wf_dirs _ Hwf _ _ (dir_at_lookup _ _ Hd)) as [_ _ Hch _ _ _ _].
  assert (exists cs, rmapM (to_dict fuel h) (children (dir_at h d)) = Ok cs) as [cs ->]; [|by eexists].
  induction (children (dir_at h d)) as [|c cs IHc]; [by exists []|]. simpl.
  destruct (Hch c) as (y & Hy & Hp); [left|].
  destruct (IH c (c :: l)) as [x ->]; [by eexists|econstructor; [by rewrite (dir_at_some _ _ _ Hy)|done]|simpl; lia|].
  destruct IHc as [xs ->]; [|by eexists]. intros e He. apply Hch. by right.
Qed.

(** The tree of a file system can always be saved: from a root of a
    well-formed heap, [TGFSMetadata.to_dict] comes to an end and raises
    nothing. *)
Theorem metadata_saves h m :
  wf h -> is_Some (h_dirs h !! md_dir m) -> parent (dir_at h (md_dir m)) = None ->
  exists data, metadata_to_dict h m = Ok data.
Proof.
  intros Hwf Hd Hp. apply (to_dict_total h (md_dir m) [md_dir m]); [done..|by constructor|simpl; lia].
Qed.

Lemma wf_empty : wf empty_heap.
Proof. split; simpl; [done|..]; intros d [x Hx]; by rewrite lookup_empty in Hx. Qed.

(** C40: loading saved metadata gives the tree that was saved: a well-formed
    tree -- every file in its directory, every index and parent pointer in
    place -- which is written back as exactly the same metadata. *)
Theorem metadata_roundtrip data :
  ser_normal data ->
  exists m h, metadata_from_dict data empty_heap = (Ok m, h) /\ wf h /\ metadata_to_dict h m = Ok data.
Proof.
  intros Hn. destruct (from_dict_spec data Hn None empty_heap wf_empty) as (d & h & Hrun & Hwf & _ & Hr & Hp); [done|].
  exists {| md_dir := d |}, h. unfold metadata_from_dict, sbind. rewrite Hrun. split; [done|]. split; [done|].
  destruct (repr_name _ _ _ _ _ Hr) as [Hd _].
  destruct (to_dict_total h d [d] (size (h_dirs h)) Hwf Hd) as [data' Hdata']; [by constructor|simpl; lia|].
  unfold metadata_to_dict. simpl. rewrite Hdata'. f_equal.
  pose proof (repr_to_dict _ _ _ _ _ (depth data + size (h_dirs h)) Hr ltac:(lia)) as H1.
  pose proof (to_dict_mono _ _ _ _ _ Hdata' (Nat.le_add_l (size (h_dirs h)) (depth data))) as H2.
  rewrite H1 in H2. by injection H2.
Qed.

(** ** Witnesses *)

Definition demo_ser : TGFSDirectorySerialized :=
  DirSer "root" (Some 5) (Some 7)
    [DirSer "a" (Some 1) (Some 2) []
       [{| frs_messageId := 11; frs_name := "f"; frs_mirrors := Some [("dc:2", 21)]; frs_store := Some "tg:1";
           frs_stat := Some (stat_to_dict {| fst_size := 3; fst_created_at := 1; fst_modified_at := 2 |}) |}];
     DirSer "b" (Some 0) (Some 0) [] []]%string
    [{| frs_messageId := 12; frs_name := "g"; frs_mirrors := None; frs_store := None; frs_stat := None |}]%string.

Lemma nodup_bool {A} `{EqDecision A} (l : list A) : bool_decide (NoDup l) = true -> NoDup l.
Proof. apply bool_decide_eq_true. Qed.

Lemma demo_ser_normal : ser_normal demo_ser.
Proof.
  simpl. split_and!; try done; try (by eexists; split; [done|lia]);
    try (apply nodup_bool; vm_compute; reflexivity); try constructor; try constructor; simpl; try done.
  - split_and!; [done|apply nodup_bool; vm_compute; reflexivity|by repeat constructor].
  - by eexists.
Qed.

Definition demo_heap : heap := (metadata_from_dict demo_ser empty_heap).2.

Lemma metadata_roundtrip_witness :
  exists m h, metadata_from_dict demo_ser empty_heap = (Ok m, h) /\ wf h /\ metadata_to_dict h m = Ok demo_ser.
Proof. apply (metadata_roundtrip demo_ser). apply demo_ser_normal. Defined.

Lemma demo_heap_wf : wf demo_heap.
Proof.
  destruct (from_dict_spec demo_ser demo_ser_normal None empty_heap wf_empty) as (d & h & Hrun & Hwf & _); [done|].
  unfold demo_heap, metadata_from_dict, sbind. by rewrite Hrun.
Qed.

Lemma metadata_saves_witness : exists data, metadata_to_dict demo_heap {| md_dir := 0 |} = Ok data.
Proof. apply (metadata_saves demo_heap {| md_dir := 0 |}); [apply demo_heap_wf|by vm_compute; eexists|by vm_compute]. Defined.

Definition demo_now : datetime := fromtimestamp_ms 100.

Lemma demo_attached d : (d = 2 \/ d = 4)%nat -> attached demo_heap d.
Proof. intros [-> | ->] p; vm_compute; intros [= <-]; [left|right; left]. Qed.

Lemma tree_invariant_witness : wf (tree_exec demo_now (MoveDir 2 4 (Some "c"%string)) demo_heap).2.
Proof.
  pose proof (tree_invariant demo_now (MoveDir 2 4 (Some "c"%string)) demo_heap demo_heap_wf) as Hinv.
  destruct (tree_exec demo_now _ demo_heap) as [r h']. apply Hinv.
  split; [by vm_compute; eexists|]. split; [by vm_compute; eexists|]. apply demo_attached. by left.
Defined.

Lemma move_moves_subtree_witness :
  exists h', move_to demo_now 2 4 (Some "c"%string) demo_heap = (Ok tt, h') /\ find_dir h' 4 "c" = Ok 2%nat.
Proof.
  eexists. split; [vm_compute; reflexivity|].
  eapply (move_moves_subtree demo_now demo_heap _ 2 0 4 (Some "c"%string));
    [apply demo_heap_wf|by vm_compute; eexists|by vm_compute; eexists|apply demo_attached; by left|by vm_compute
    |by intros [? _]|vm_compute; reflexivity].
Defined.

Lemma move_into_itself_refused_witness :
  exists path, move_to demo_now 2 2 None demo_heap = (Raise (InvalidPath path), demo_heap).
Proof.
  apply (move_into_itself_refused demo_now demo_heap 2 2 [2; 0]%nat None);
    [apply demo_heap_wf|by vm_compute; eexists|by vm_compute; eexists|apply demo_attached; by left|by vm_compute
    |by vm_compute| |left].
  eapply chain_up; [by vm_compute|]. by constructor.
Defined.

Lemma relocate_keeps_file_witness :
  exists m h', relocate_file_ref demo_now 2 3 4 (Some "z"%string) demo_heap = (Ok m, h') /\
    find_file h' 4 "z" = Ok m.
Proof.
  eexists _, _. split; [vm_compute; reflexivity|].
  eapply (relocate_keeps_file demo_now demo_heap _ 2 3 4 (Some "z"%string));
    [apply demo_heap_wf|by vm_compute; eexists|by vm_compute; eexists|vm_compute; left|by intros [? _]|vm_compute; reflexivity].
Defined.
