(* ===== verification/Mirror.v ===== *)
(** * Mirroring ([tgdcfs/core/mirror.py])

    A [MirrorGroup] copies the parts of a version, descriptors and the pinned
    metadata of a primary store into its mirror stores.  The stores are named
    by key and act on a world [W] ([Stores]).  A local copy of a version
    ([VersionBytes] of the cache) is its [read] method; that a download fills
    the cache on the way is left out, it changes nothing here. *)

From stdpp Require Import pretty.
From S2P Require Import Prelude Errors Messages FileVersion Stores.

Open Scope Z_scope.
Open Scope py_scope.

Inductive MirrorMode := Auto | Forward | Reupload.

#[export] Instance MirrorMode_eq_dec : EqDecision MirrorMode.
Proof. solve_decision. Defined.

Record MirrorGroup := {
  mg_primary : string;
  mg_stores : list string;
  mg_mode : MirrorMode;
  mg_strict : bool
}.

Record MirrorResult := { mres_mirrors : dict string (list Z); mres_replicas : dict string Replica }.

Definition no_copies : MirrorResult := {| mres_mirrors := []; mres_replicas := [] |}.

Definition result_keys (r : MirrorResult) : list string := Dict.keys (mres_mirrors r) ++ Dict.keys (mres_replicas r).

(** [MirrorResult.apply_to]. *)
Definition apply_to (res : MirrorResult) (v : TGFSFileVersion) : TGFSFileVersion :=
  set_replicas (Dict.update (replicas v) (mres_replicas res))
    (set_mirrors (Dict.update (mirrors v) (mres_mirrors res)) v).

Section Mirror.
  Context {W : Type} `{Stores W} (mg : MirrorGroup).

(** [MirrorGroup.store_for]. *)
Definition group_store (key : string) : option string :=
  if decide (key = mg_primary mg) then Some key
  else if bool_decide (key ∈ mg_stores mg) then Some key else None.

Definition missing_stores (v : TGFSFileVersion) : list string :=
  List.filter (fun key => negb (has_copy_in key v)) (mg_stores mg).

Definition handle_write_error (ex : exn) : st exn W unit :=
  if mg_strict mg then
    if is_TechnicalError ex then sraise ex else sraise (TechnicalError "Mirroring failed")
  else sret tt.

(** [except Exception as ex: self._handle_write_error(...)] and go on. *)
Definition on_write_error {A} (ex : exn) (continue : st exn W A) : st exn W A :=
  if is_Exception ex then (handle_write_error ex ;;; continue) else sraise ex.

(** ** Aligned copies and replicas *)

Definition max_default0 (l : list Z) : Z := match l with [] => 0 | x :: xs => foldl Z.max x xs end.

Definition fits_aligned (target source : string) (part_sizes : list Z) : bool :=
  if bool_decide (si_backend (st_info target) = si_backend (st_info source)) then true
  else max_default0 part_sizes <=? si_max_part_bytes (st_info target).

(** The loop over [zip(message_ids, messages)]. *)
Fixpoint sizes_of (ids : list Z) (messages : list (option MessageResp)) : exc (list Z) :=
  match ids, messages with
  | mid :: ids, message :: messages =>
      match message with
      | Some m => match mr_document m with
                  | Some size => let* rest := sizes_of ids messages in Ok (size :: rest)
                  | None => Raise (MessageNotFound mid)
                  end
      | None => Raise (MessageNotFound mid)
      end
  | _, _ => Ok []
  end.

Definition part_sizes_in (source : string) (message_ids : list Z) : st exn W (list Z) :=
  let! messages := st_get_messages source message_ids in
  slift (sizes_of message_ids messages).

(** A local copy of the version: [VersionBytes.read]. *)
Definition local_copy := Z -> Z -> stream.

Definition reupload_one (target source : string) (message_id : Z)
    (local_range : option (local_copy * Z * Z)) : st exn W Z :=
  let! (size, chunks) :=
    (match local_range with
     | Some (local, b, e) => sret (e - b + 1, local b e)
     | None =>
         let! messages := st_get_messages source [message_id] in
         match messages with
         | Some m :: _ =>
             match mr_document m with
             | Some size => let! s := st_download source message_id 0 (size - 1) in sret (size, s)
             | None => sraise (MessageNotFound message_id)
             end
         | None :: _ => sraise (MessageNotFound message_id)
         | [] => sraise IndexError
         end
     end) in
  let! sent := st_upload target FileMessageFromStream stream_uploadable
                 (stream_message chunks size ("part-" +:+ pretty message_id)) in
  match sent with
  | [m] => sret (sm_message_id m)
  | _ => sraise (TechnicalError "split the part")
  end.

(** The offset of every part in the local copy. *)
Fixpoint local_ranges (local : local_copy) (begin : Z) (part_sizes : list Z)
  : list (option (local_copy * Z * Z)) :=
  match part_sizes with
  | [] => []
  | size :: sizes => Some (local, begin, begin + size - 1) :: local_ranges local (begin + size) sizes
  end.

Fixpoint reupload_all (target source : string) (ids : list Z) (ranges : list (option (local_copy * Z * Z)))
  : st exn W (list Z) :=
  match ids, ranges with
  | mid :: ids, r :: ranges =>
      let! i := reupload_one target source mid r in
      let! rest := reupload_all target source ids ranges in
      sret (i :: rest)
  | _, _ => sret []
  end.

Definition reupload (target source : string) (ids : list Z) (part_sizes : option (list Z))
    (local : option local_copy) : st exn W (list Z) :=
  let ranges :=
    match local, part_sizes with
    | Some l, Some sizes =>
        if nonempty sizes && (zlen sizes =? zlen ids) then local_ranges l 0 sizes
        else replicate (length ids) None
    | _, _ => replicate (length ids) None
    end in
  reupload_all target source ids ranges.

Definition copy_to (target source : string) (ids : list Z) (part_sizes : option (list Z))
    (local : option local_copy) : st exn W (list Z) :=
  if negb (nonempty ids) then sret []
  else
    match mg_mode mg with
    | Reupload => reupload target source ids part_sizes local
    | mode =>
        let! copied := stry (st_copy_from target source ids)
          (fun ex => if is_Exception ex && negb (bool_decide (mode = Forward)) then sret None else sraise ex) in
        match copied with
        | Some ids' => sret ids'
        | None =>
            if bool_decide (mode = Forward) then sraise (TechnicalError "cannot receive server-side copies")
            else reupload target source ids part_sizes local
        end
    end.

(** The generator [content()] of [_replicate], run to its end. *)
Fixpoint part_stream (source : string) (parts : list (Z * Z)) : st exn W stream :=
  match parts with
  | [] => sret empty_stream
  | (mid, size) :: parts =>
      if size <=? 0 then part_stream source parts
      else fun w =>
        match st_download source mid 0 (size - 1) w with
        | (Raise x, w) => (Ok {| pieces := []; fault := Some x |}, w)
        | (Ok s, w) =>
            match fault s with
            | Some _ => (Ok s, w)
            | None =>
                (let! more := part_stream source parts in
                 sret {| pieces := pieces s ++ pieces more; fault := fault more |}) w
            end
        end
  end.

Definition replica_of (sent : list SentFileMessage) : Replica :=
  {| r_message_ids := map sm_message_id sent; r_part_sizes := map sm_size sent |}.

Definition replicate_parts (target source : string) (ids part_sizes : list Z) (local : option local_copy)
  : st exn W Replica :=
  let total := zsum part_sizes in
  let! s := (match local with
             | Some l => sret (l 0 (total - 1))
             | None => part_stream source (zip ids part_sizes)
             end) in
  match ids with
  | [] => sraise IndexError
  | first :: _ =>
      let! sent := st_upload target FileMessageFromStream stream_uploadable
                     (stream_message s total ("replica-" +:+ pretty first)) in
      sret (replica_of sent)
  end.

(** ** [mirror_parts] *)

Definition add_mirror (key : string) (ids : list Z) (r : MirrorResult) : MirrorResult :=
  {| mres_mirrors := Dict.set key ids (mres_mirrors r); mres_replicas := mres_replicas r |}.
Definition add_replica (key : string) (rep : Replica) (r : MirrorResult) : MirrorResult :=
  {| mres_mirrors := mres_mirrors r; mres_replicas := Dict.set key rep (mres_replicas r) |}.

(** The sizes of the parts, looked up when they are not known. *)
Definition known_sizes (source : string) (ids : list Z) (sizes : option (list Z)) : st exn W (list Z) :=
  match sizes with
  | Some s => if zlen s =? zlen ids then sret s else part_sizes_in source ids
  | None => part_sizes_in source ids
  end.

Definition mirror_one (key source : string) (ids sizes : list Z) (local : option local_copy) (res : MirrorResult)
  : st exn W MirrorResult :=
  if fits_aligned key source sizes then
    let! copied := copy_to key source ids (Some sizes) local in sret (add_mirror key copied res)
  else
    let! rep := replicate_parts key source ids sizes local in sret (add_replica key rep res).

Fixpoint mirror_loop (stores : list string) (source : string) (ids : list Z) (sizes : option (list Z))
    (only : option (list string)) (local : option local_copy) (res : MirrorResult) : st exn W MirrorResult :=
  match stores with
  | [] => sret res
  | key :: stores =>
      if match only with Some o => negb (bool_decide (key ∈ o)) | None => false end ||
         bool_decide (key = source)
      then mirror_loop stores source ids sizes only local res
      else fun w =>
        match known_sizes source ids sizes w with
        | (Raise ex, w) => on_write_error ex (mirror_loop stores source ids sizes only local res) w
        | (Ok sizes, w) =>
            match mirror_one key source ids sizes local res w with
            | (Raise ex, w) => on_write_error ex (mirror_loop stores source ids (Some sizes) only local res) w
            | (Ok res, w) => mirror_loop stores source ids (Some sizes) only local res w
            end
        end
  end.

Definition mirror_parts (ids : list Z) (part_sizes : option (list Z)) (only : option (list string))
    (source : option string) (local : option local_copy) : st exn W MirrorResult :=
  if negb (nonempty ids) then sret no_copies
  else mirror_loop (mg_stores mg) (default (mg_primary mg) source) ids part_sizes only local no_copies.

Definition copy_into_primary (v : TGFSFileVersion) : st exn W (bool * TGFSFileVersion) :=
  match store v with
  | None => sret (owned_by (mg_primary mg) v, v)
  | Some old =>
      if owned_by (mg_primary mg) v then sret (true, v)
      else
        match group_store old with
        | None => sret (false, v)
        | Some source =>
            let! sizes := (if zlen (part_sizes v) =? zlen (message_ids v) then sret (part_sizes v)
                           else part_sizes_in source (message_ids v)) in
            let! v := (if fits_aligned (mg_primary mg) source sizes then
                         let! ids := copy_to (mg_primary mg) source (message_ids v) None None in
                         sret (set_mirrors (Dict.set (mg_primary mg) ids (mirrors v)) v)
                       else
                         let! rep := replicate_parts (mg_primary mg) source (message_ids v) sizes None in
                         sret (set_replicas (Dict.set (mg_primary mg) rep (replicas v)) v)) in
            let v := relocate (mg_primary mg) (set_part_sizes sizes v) in
            sret (owned_by (mg_primary mg) v, v)
        end
  end.

(** ** Uploads split while they run *)

Definition must_reupload (target : string) : bool :=
  bool_decide (mg_mode mg = Reupload) ||
  negb (bool_decide (si_backend (st_info target) = si_backend (st_info (mg_primary mg)))) ||
  negb (si_supports_server_copy (st_info (mg_primary mg)) && si_supports_server_copy (st_info target)).

Definition tee_targets : list string := List.filter must_reupload (mg_stores mg).

Fixpoint collect_tee (results : list (string * exc Replica)) (acc : dict string Replica) : st exn W (dict string Replica) :=
  match results with
  | [] => sret acc
  | (key, Ok rep) :: results => collect_tee results (Dict.set key rep acc)
  | (key, Raise ex) :: results => (handle_write_error ex ;;; collect_tee results acc)
  end.

Definition needs_replica (target : string) (sizes : list Z) : bool :=
  negb (fits_aligned target (mg_primary mg) sizes).

(** ** Descriptors, the pinned metadata, deletion *)

(** One store's turn: edit the copy there is, or send a fresh one. *)
Definition mirror_fd_one (key text : string) (res : dict string Z) : st exn W (dict string Z) :=
  let send := let! i := st_send_text key text in sret (Dict.set key i res) in
  match Dict.get key res with
  | Some mid =>
      if mid =? 0 then send
      else stry (let! i := st_edit_text key mid text in sret (Dict.set key i res))
                (fun ex => match ex with MessageNotFound _ => send | _ => sraise ex end)
  | None => send
  end.

Fixpoint mirror_fd_loop (stores : list string) (text : string) (res : dict string Z) : st exn W (dict string Z) :=
  match stores with
  | [] => sret res
  | key :: stores => fun w =>
      match mirror_fd_one key text res w with
      | (Ok res, w) => mirror_fd_loop stores text res w
      | (Raise ex, w) => on_write_error ex (mirror_fd_loop stores text res) w
      end
  end.

Definition mirror_fd (text : string) (existing : option (dict string Z)) : st exn W (dict string Z) :=
  mirror_fd_loop (mg_stores mg) text (default [] existing).

(** The pinned copies are recorded in a dictionary of the caller, which is
    updated in place: it is part of the state, also when the call raises. *)
Local Abbreviation pinst := (st exn (W * dict string Z)).

Definition on_fst {A} (m : st exn W A) : pinst A := fun s => let '(r, w) := m s.1 in (r, (w, s.2)).

(** Pinning the copy [new_id] in place of the previous one. *)
Definition pin_copy (key : string) (new_id : Z) : pinst unit := fun s =>
  (on_fst (st_pin key new_id ;;;
           match Dict.get key s.2 with
           | Some old => if negb (old =? 0) && negb (old =? new_id) then st_delete key [old] true else sret tt
           | None => sret tt
           end) ;;;
   fun s => (Ok tt, (s.1, Dict.set key new_id s.2))) s.

(** The size of the blob, looked up once, when a store of another backend
    asks for it. *)
Definition pinned_fits (key : string) (blob : Z) (size : option Z) : st exn W (bool * option Z) :=
  if bool_decide (si_backend (st_info key) = si_backend (st_info (mg_primary mg))) then sret (true, size)
  else
    let! s := (match size with
               | Some s => sret s
               | None => let! sizes := part_sizes_in (mg_primary mg) [blob] in
                         match sizes with s :: _ => sret s | [] => sraise IndexError end
               end) in
    sret (s <=? si_max_part_bytes (st_info key), Some s).

Definition copy_pinned (key : string) (blob : Z) : pinst unit :=
  let! ids := on_fst (copy_to key (mg_primary mg) [blob] None None) in
  match ids with
  | new_id :: _ => pin_copy key new_id
  | [] => sraise IndexError
  end.

(** [except Exception as ex: self._handle_write_error(...)]. *)
Definition or_write_error (m next : pinst unit) : pinst unit := fun s =>
  match m s with
  | (Ok _, s) => next s
  | (Raise ex, s) => if is_Exception ex then (on_fst (handle_write_error ex) ;;; next) s else (Raise ex, s)
  end.

Fixpoint mirror_pinned_loop (stores : list string) (blob : Z) (size : option Z) : pinst unit :=
  match stores with
  | [] => sret tt
  | key :: stores => fun s =>
      match on_fst (pinned_fits key blob size) s with
      | (Raise ex, s) => or_write_error (sraise ex) (mirror_pinned_loop stores blob size) s
      | (Ok (false, size), s) => mirror_pinned_loop stores blob size s
      | (Ok (true, size), s) => or_write_error (copy_pinned key blob) (mirror_pinned_loop stores blob size) s
      end
  end.

Definition mirror_pinned (blob : Z) : pinst unit := mirror_pinned_loop (mg_stores mg) blob None.

Fixpoint adopt_pinned (new_ids : list (string * Z)) : pinst unit :=
  match new_ids with
  | [] => sret tt
  | (key, new_id) :: new_ids =>
      if negb (bool_decide (key ∈ mg_stores mg)) || (new_id <=? 0) then adopt_pinned new_ids
      else or_write_error (pin_copy key new_id) (adopt_pinned new_ids)
  end.

Fixpoint group_delete (per_store : list (string * list Z)) (force : bool) : st exn W unit :=
  match per_store with
  | [] => sret tt
  | (key, ids) :: per_store =>
      if negb (nonempty ids) then group_delete per_store force
      else match group_store key with
           | None => group_delete per_store force
           | Some store => (st_delete store ids force ;;; group_delete per_store force)
           end
  end.

End Mirror.
