(* ===== verification/MirrorProps.v ===== *)
(** * Properties of mirroring

    Whatever a mirroring call records is a true copy: an aligned copy has
    the parts of the version one by one, a replica has its bytes in its own
    cut, and nothing that was stored is lost. *)

From S2P Require Import Prelude Errors Messages FileVersion FileVersionProps Stores FileContent FileContentProps Mirror.

Open Scope Z_scope.

(** ** Uploading a stream *)

Lemma fs_fill_bytes n ps flt buf ps' buf' :
  fs_fill n ps flt buf = (Ok tt, (ps', buf')) -> buf' ++ concat ps' = buf ++ concat ps /\ n <= zlen buf'.
Proof.
  revert buf. induction ps as [|p ps IH]; intros buf; simpl; destruct (n <=? zlen buf) eqn:Hn;
    try (intros [= <- <-]; apply Z.leb_le in Hn; done).
  intros [He Hl]%IH. split; [|done]. by rewrite He, <- app_assoc.
Qed.

(** Whatever was read of a stream message is a prefix of the stream. *)
Lemma stream_reads (m m' : FileMessageFromStream) c :
  reads m c m' -> 0 <= um_read_size (fs_um m) <= um_size (fs_um m) ->
  exists t, c ++ t = fs_buffer m ++ concat (pieces (fs_stream m)).
Proof.
  induction 1 as [m|m m1 c m2 Ho Hr IH|n m c m2 Hr IH|n m p m1 c m2 Hn Hrd Hr IH|m m1 c m2 Ho Hr IH]; intros Hinv.
  - by eexists.
  - injection Ho as <-. by apply IH.
  - apply IH. simpl. lia.
  - simpl in Hrd. unfold fs_read, fs_get_size in Hrd.
    set (size := if um_size (fs_um m) =? 0 then 0 else um_size (fs_um m)) in Hrd.
    assert (size = um_size (fs_um m)) as Hsz by (unfold size; destruct (um_size (fs_um m) =? 0) eqn:?; lia).
    set (k := Z.min n (size - um_read_size (fs_um m))) in Hrd.
    destruct (fs_fill k _ _ _) as [[[]|x] [ps buf]] eqn:Hfill; [|done].
    injection Hrd as <- <-. apply fs_fill_bytes in Hfill as [He Hl].
    assert (0 <= k) by lia. rewrite py_take_pos by done. simpl in IH. rewrite py_drop_pos in IH by done.
    destruct IH as [t Ht]; [lia|]. exists t. rewrite <- app_assoc, Ht, app_assoc, ztake_zdrop. done.
  - injection Ho as <-. by apply IH.
Qed.

(** All of it, when the size of the message says so. *)
Lemma stream_reads_all s size name c m' b :
  reads (stream_message s size name) c m' -> zlen c = get_size (stream_message s size name) -> 0 <= size ->
  (exists t, stream_bytes s ++ t = b) -> size = zlen b -> c = b.
Proof.
  intros Hr Hl Hs [t Ht] Hb. unfold get_size in Hl. simpl in Hl.
  assert (zlen c = zlen b) as Hcb by (destruct (size =? 0) eqn:?; lia).
  apply stream_reads in Hr as [t' Ht']; [|simpl; lia]. simpl in Ht'. unfold stream_bytes in Ht.
  rewrite <- Ht' in Ht. rewrite <- app_assoc in Ht.
  rewrite <- (app_nil_r b) in Ht. unfold zlen in Hcb. by apply app_inj_1 in Ht as [-> _]; [|lia].
Qed.

Section Copies.
  Context {W : Type} `{WriteLaws W} (mg : MirrorGroup).

Lemma docs_kept_refl (w : W) : docs_kept w w.
Proof. by intros k m b. Qed.
Lemma docs_kept_trans (w1 w2 w3 : W) : docs_kept w1 w2 -> docs_kept w2 w3 -> docs_kept w1 w3.
Proof. intros H12 H23 k m b Hb. by apply H23, H12. Qed.

(** Messages of [k] that hold the byte strings [bs], in order. *)
Definition copies (w : W) (k : string) (ids : list Z) (bs : list bytes) : Prop :=
  Forall2 (fun m b => 0 < m /\ holds w k m b) ids bs.

Definition sources (w : W) (k : string) (ids : list Z) (bs : list bytes) : Prop :=
  Forall2 (fun m b => holds w k m b) ids bs.

Lemma copies_kept w w' k ids bs : docs_kept w w' -> copies w k ids bs -> copies w' k ids bs.
Proof. intros Hk Hc. eapply Forall2_impl; [exact Hc|]. intros m b [? ?]. split; [done|]. by apply Hk. Qed.

Lemma sources_kept w w' k ids bs : docs_kept w w' -> sources w k ids bs -> sources w' k ids bs.
Proof. intros Hk Hc. eapply Forall2_impl; [exact Hc|]. intros m b ?. by apply Hk. Qed.

(** A run that changes nothing stored, and a property of its result. *)
Definition safe {A} (m : st exn W A) (w : W) (post : A -> W -> Prop) : Prop :=
  let '(r, w') := m w in
  docs_kept w w' /\ match r with Ok a => post a w' | Raise _ => True end.

Lemma safe_ret {A} (a : A) w (post : A -> W -> Prop) : post a w -> safe (sret a) w post.
Proof. intros Hp. split; [apply docs_kept_refl|done]. Qed.

Lemma safe_raise {A} x w (post : A -> W -> Prop) : safe (sraise x) w post.
Proof. split; [apply docs_kept_refl|done]. Qed.

Lemma safe_bind {A B} (m : st exn W A) (k : A -> st exn W B) w post post' :
  safe m w post -> (forall a w', docs_kept w w' -> post a w' -> safe (k a) w' post') -> safe (sbind m k) w post'.
Proof.
  unfold safe, sbind. destruct (m w) as [[a|x] w1]; intros [Hk Hp] Hnext; [|done].
  specialize (Hnext a w1 Hk Hp). destruct (k a w1) as [r w2]. destruct Hnext as [Hk2 Hp2].
  split; [by eapply docs_kept_trans|done].
Qed.

Lemma safe_weaken {A} (m : st exn W A) w post post' :
  safe m w post -> (forall a w', docs_kept w w' -> post a w' -> post' a w') -> safe m w post'.
Proof.
  unfold safe. destruct (m w) as [[a|x] w1]; intros [Hk Hp] Himp; [|done]. split; [done|]. by apply Himp.
Qed.

(** The documents a store describes. *)
Lemma sizes_of_spec (w : W) k ids bs ms :
  sources w k ids bs ->
  Forall2 (described w k) ids ms ->
  sizes_of ids ms = Ok (map zlen bs).
Proof.
  intros Hs. revert ms. induction Hs as [|i b ids bs Hb Hs IH]; intros ms Hms.
  - by inversion Hms.
  - inversion Hms as [|? m ? ms' (_ & Hm & _) Hms']; subst. destruct (Hm b Hb) as (x & -> & Hx).
    simpl. rewrite Hx, (IH ms' Hms'). done.
Qed.

Lemma part_sizes_safe k ids bs (w : W) :
  sources w k ids bs -> safe (part_sizes_in k ids) w (fun sizes _ => sizes = map zlen bs).
Proof.
  intros Hs. unfold part_sizes_in, safe, sbind, slift. pose proof (get_messages_law w k ids) as Hl.
  destruct (st_get_messages k ids w) as [[ms|x] w1]; destruct Hl as (Hk & _ & _ & _ & Hms); [|done].
  by rewrite (sizes_of_spec _ _ _ _ _ Hs Hms).
Qed.

(** Uploading a stream of a known content; of an empty one nothing is read. *)
Lemma upload_safe k s size name b (w : W) :
  (b <> [] -> exists t, stream_bytes s ++ t = b) -> size = zlen b ->
  safe (st_upload k FileMessageFromStream stream_uploadable (stream_message s size name)) w
    (fun sent w' => exists bs, concat bs = b /\ map sm_size sent = map zlen bs /\
       copies w' k (map sm_message_id sent) bs).
Proof.
  intros Hs Hsize. unfold safe. pose proof (upload_law w k _ stream_uploadable (stream_message s size name)) as Hl.
  destruct (st_upload k _ _ _ w) as [[sent|x] w1]; destruct Hl as (Hk & _ & Hsent); [|done]. split; [done|].
  destruct Hsent as (c & m' & bs & Hr & Hlen & Hc & Hall). exists bs. pose proof (zlen_nonneg b).
  split.
  { rewrite Hc. destruct (decide (b = [])) as [->|Hne]; [|eapply stream_reads_all; try done; [lia|by apply Hs]].
    apply zlen_0. rewrite Hlen. unfold get_size. simpl. subst size. by destruct (_ =? _). }
  clear -Hall. split; induction Hall as [|m b sent bs (Hm1 & Hm2 & _) Hall IH]; simpl; [done|congruence|constructor|].
  constructor; [done|]. apply IH.
Qed.

(** Part [b] of the content read from the local copy. *)
Definition local_ok (local : local_copy) (c : bytes) : Prop :=
  forall b e, 0 <= b <= e -> e < zlen c -> exists t, stream_bytes (local b e) ++ t = zslice b (e + 1) c.

Lemma download_safe k m b (w : W) :
  holds w k m b -> safe (st_download k m 0 (zlen b - 1)) w (fun s _ => exists t, stream_bytes s ++ t = b) \/ b = [].
Proof.
  intros Hb. destruct (decide (b = [])) as [->|Hne]; [by right|left]. apply zlen_pos in Hne.
  unfold safe. pose proof (download_law w k m b 0 (zlen b - 1) Hb ltac:(lia) ltac:(lia) ltac:(lia)) as Hl.
  destruct (st_download k m 0 (zlen b - 1) w) as [[s|x] w1]; destruct Hl as (Hk & _ & Hs); [|done]. split; [exact Hk|].
  replace (zlen b - 1 + 1) with (zlen b) in Hs by lia. rewrite zslice_full in Hs.
  destruct (fault s) as [x|]; [destruct Hs as (_ & _ & t & _ & Ht); by exists t|]. exists []. by rewrite app_nil_r.
Qed.

(** What a range of the local copy must deliver. *)
Definition range_ok_for (r : option (local_copy * Z * Z)) (b : bytes) : Prop :=
  match r with
  | None => True
  | Some (l, s, e) => e - s + 1 = zlen b /\ (b <> [] -> exists t, stream_bytes (l s e) ++ t = b)
  end.

Lemma upload_one_safe k s size name b (w : W) :
  (b <> [] -> exists t, stream_bytes s ++ t = b) -> size = zlen b ->
  safe (let! sent := st_upload k FileMessageFromStream stream_uploadable (stream_message s size name) in
        match sent with [m] => sret (sm_message_id m) | _ => sraise (TechnicalError "split the part") end) w
    (fun i w' => 0 < i /\ holds w' k i b).
Proof.
  intros Hs Hsize. eapply safe_bind; [by apply upload_safe|]. intros sent w' _ (bs & Hc & _ & Hcp).
  destruct sent as [|m [|m2 sent]]; [apply safe_raise| |apply safe_raise]. apply safe_ret.
  simpl in Hcp. inversion Hcp as [|? b1 ? bs1 Hm Hrest]; subst. inversion Hrest; subst. simpl. by rewrite app_nil_r.
Qed.

Lemma reupload_one_safe target source mid r b (w : W) :
  holds w source mid b -> range_ok_for r b ->
  safe (reupload_one target source mid r) w (fun i w' => 0 < i /\ holds w' target i b).
Proof.
  intros Hb Hr. unfold reupload_one.
  apply (safe_bind _ _ _ (fun sz _ => sz.1 = zlen b /\ (b <> [] -> exists t, stream_bytes sz.2 ++ t = b))).
  2: { intros [size s] w' _ [Hsz Ht]. by apply upload_one_safe. }
  destruct r as [[[l s] e]|]; [by apply safe_ret|].
  eapply safe_bind.
    { instantiate (1 := fun ms _ => exists x rest, ms = Some x :: rest /\ mr_document x = Some (zlen b)).
      unfold safe. pose proof (get_messages_law w source [mid]) as Hl.
      destruct (st_get_messages source [mid] w) as [[ms|x] w1]; destruct Hl as (Hk & _ & _ & _ & Hms); [|done]. split; [done|].
      inversion Hms as [|? m ? ms' (_ & Hm & _) Hms']; subst. destruct (Hm b Hb) as (x & -> & Hx). by eexists _, _. }
    intros ms w1 Hk1 (x & rest & -> & Hx). rewrite Hx.
    destruct (download_safe source mid b w1 (Hk1 _ _ _ Hb)) as [Hd| ->].
    + eapply safe_bind; [exact Hd|]. intros s w2 _ Ht. apply safe_ret. by split.
    + eapply safe_bind; [|intros s w2 _ _; apply safe_ret; by split].
      instantiate (1 := fun _ _ => True). unfold safe. pose proof (download_keeps w1 source mid 0 (zlen (@nil byte) - 1)) as [Hd _].
      destruct (st_download source mid 0 (zlen (@nil byte) - 1) w1) as [[s|y] w2]; done.
Qed.

Lemma reupload_all_safe target source ids rs bs (w : W) :
  sources w source ids bs -> Forall2 range_ok_for rs bs ->
  safe (reupload_all target source ids rs) w (fun ids' w' => copies w' target ids' bs).
Proof.
  revert rs bs w. induction ids as [|i ids IH]; intros rs bs w Hs Hrs.
  - inversion Hs; subst. simpl. apply safe_ret. constructor.
  - inversion Hs as [|? b ? bs' Hb Hs']; subst. inversion Hrs as [|r ? rs' ? Hr Hrs']; subst. simpl.
    eapply safe_bind; [by apply reupload_one_safe|]. intros i' w1 Hk1 [Hpos Hi'].
    eapply safe_bind; [apply IH; [eapply sources_kept; [exact Hk1|exact Hs']|done]|]. intros rest w2 Hk2 Hrest. apply safe_ret.
    constructor; [|done]. split; [done|]. by apply Hk2.
Qed.

Lemma local_ranges_ok l c pre bs :
  local_ok l c -> c = pre ++ concat bs -> Forall2 range_ok_for (local_ranges l (zlen pre) (map zlen bs)) bs.
Proof.
  intros Hl. revert pre. induction bs as [|b bs IH]; intros pre Hc; simpl; [constructor|]. constructor.
  - split; [lia|]. intros Hne%zlen_pos. pose proof (zlen_nonneg pre). pose proof (zlen_nonneg (concat bs)).
    destruct (Hl (zlen pre) (zlen pre + zlen b - 1)) as [t Ht]; [lia|rewrite Hc, zlen_app; cbn [concat]; rewrite zlen_app; lia|].
    exists t. rewrite Ht, Hc.
    rewrite zslice_app_r by lia. cbn [concat].
    rewrite zslice_app_l; [|lia|lia]. rewrite Z.sub_diag.
    replace (zlen pre + zlen b - 1 + 1 - zlen pre) with (zlen b) by lia. apply zslice_full.
  - rewrite <- zlen_app. apply IH. by rewrite Hc, <- app_assoc.
Qed.

Lemma reupload_safe target source ids sizes local bs (w : W) :
  sources w source ids bs -> (forall s, sizes = Some s -> zlen s = zlen ids -> s = map zlen bs) ->
  (forall l, local = Some l -> local_ok l (concat bs)) ->
  safe (reupload target source ids sizes local) w (fun ids' w' => copies w' target ids' bs).
Proof.
  intros Hs Hsz Hl. unfold reupload. apply reupload_all_safe; [done|].
  assert (Forall2 range_ok_for (replicate (length ids) None) bs) as Hnone.
  { clear -Hs. induction Hs; simpl; constructor; done. }
  destruct local as [l|]; [|done]. destruct sizes as [s|]; [|done].
  destruct (nonempty s); simpl; [|done]. destruct (zlen s =? zlen ids) eqn:He; [|done]. apply Z.eqb_eq in He.
  rewrite (Hsz s eq_refl He). apply (local_ranges_ok l (concat bs) []); [by apply Hl|done].
Qed.

Lemma copy_to_safe target source ids sizes local bs (w : W) :
  sources w source ids bs -> (forall s, sizes = Some s -> zlen s = zlen ids -> s = map zlen bs) ->
  (forall l, local = Some l -> local_ok l (concat bs)) ->
  safe (copy_to mg target source ids sizes local) w (fun ids' w' => copies w' target ids' bs).
Proof.
  intros Hs Hsz Hl. unfold copy_to. destruct (nonempty ids) eqn:Hne; cbn [negb].
  2: { apply nonempty_false in Hne as ->. inversion Hs; subst. apply safe_ret. constructor. }
  assert (forall mode, safe (stry (st_copy_from target source ids)
      (fun ex => if is_Exception ex && negb (bool_decide (mode = Forward)) then sret None else sraise ex)) w
      (fun r w' => forall ids', r = Some ids' -> copies w' target ids' bs)) as Htry.
  { intros mode. unfold safe, stry. pose proof (copy_from_law w target source ids) as Hc.
    destruct (st_copy_from target source ids w) as [[r|x] w1]; destruct Hc as (Hk & _ & Hids).
    - split; [done|]. intros ids' ->. clear -Hs Hids. revert bs Hs.
      induction Hids as [|i i' ids ids' [Hpos Hi] Hids IH]; intros bs Hs; inversion Hs; subst; constructor; [|by apply IH].
      split; [done|]. by apply Hi.
    - by destruct (_ && _). }
  assert (forall mode, safe (let! copied := stry (st_copy_from target source ids)
      (fun ex => if is_Exception ex && negb (bool_decide (mode = Forward)) then sret None else sraise ex) in
      match copied with
      | Some ids' => sret ids'
      | None => if bool_decide (mode = Forward) then sraise (TechnicalError "cannot receive server-side copies")
                else reupload target source ids sizes local
      end) w (fun ids' w' => copies w' target ids' bs)) as Hmode.
  { intros mode. eapply safe_bind; [apply Htry|]. intros [ids'|] w1 Hk1 Hr; [apply safe_ret; by apply Hr|].
    case_bool_decide; [apply safe_raise|]. apply reupload_safe; [by eapply sources_kept|done|done]. }
  destruct (mg_mode mg); [apply (Hmode Auto)|apply (Hmode Forward)|by apply reupload_safe].
Qed.

(** The content streamed part by part. *)
Lemma part_stream_safe source ids bs (w : W) :
  sources w source ids bs ->
  safe (part_stream source (zip ids (map zlen bs))) w (fun s _ => exists t, stream_bytes s ++ t = concat bs).
Proof.
  intros Hs. revert w Hs. induction bs as [|b bs IH] in ids |- *; intros w Hs; inversion Hs as [|i ? ids' ? Hb Hs']; subst; simpl.
  { apply safe_ret. by exists []. }
  destruct (zlen b <=? 0) eqn:Hl.
  { apply Z.leb_le, zlen_0 in Hl as ->. by apply IH. }
  unfold safe. destruct (download_safe source i b w Hb) as [Hd| ->]; [|done]. unfold safe in Hd.
  destruct (st_download source i 0 (zlen b - 1) w) as [[s|x] w1] eqn:Hdl; destruct Hd as [Hk Hst].
  2: { split; [done|]. by exists (b ++ concat bs). }
  destruct Hst as [t Ht]. destruct (fault s) as [x|] eqn:Hf.
  { split; [done|]. exists (t ++ concat bs). by rewrite app_assoc, Ht. }
  assert (stream_bytes s = b) as Hsb.
  { apply Z.leb_gt in Hl. pose proof (download_law w source i b 0 (zlen b - 1) Hb ltac:(lia) ltac:(lia) ltac:(lia)) as Hlaw.
    rewrite Hdl in Hlaw. destruct Hlaw as (_ & _ & Hlaw). rewrite Hf in Hlaw.
    replace (zlen b - 1 + 1) with (zlen b) in Hlaw by lia. by rewrite zslice_full in Hlaw. }
  pose proof (IH ids' w1 (sources_kept _ _ _ _ _ Hk Hs')) as Hrest. unfold safe, sbind in *.
  destruct (part_stream source (zip ids' (map zlen bs)) w1) as [[more|x] w2]; destruct Hrest as [Hk2 Hm].
  - split; [by eapply docs_kept_trans|]. destruct Hm as [t2 Ht2]. exists t2. unfold stream_bytes in *. cbn [pieces].
    rewrite concat_app, Hsb, <- app_assoc, Ht2. done.
  - split; [by eapply docs_kept_trans|done].
Qed.

Lemma replicate_safe target source ids local bs (w : W) :
  sources w source ids bs -> (forall l, local = Some l -> local_ok l (concat bs)) ->
  safe (replicate_parts target source ids (map zlen bs) local) w
    (fun r w' => exists bs', concat bs' = concat bs /\ r_part_sizes r = map zlen bs' /\
       copies w' target (r_message_ids r) bs').
Proof.
  intros Hs Hl. unfold replicate_parts. rewrite zsum_map_zlen.
  apply (safe_bind _ _ _ (fun s _ => concat bs <> [] -> exists t, stream_bytes s ++ t = concat bs)).
  - destruct local as [l|]; [|eapply safe_weaken; [by apply part_stream_safe|done]]. apply safe_ret. intros Hne%zlen_pos.
    destruct (Hl l eq_refl 0 (zlen (concat bs) - 1)) as [t Ht]; [lia|lia|]. exists t. rewrite Ht, Z.sub_add. apply zslice_full.
  - intros s w1 Hk1 Hst. destruct ids as [|i ids]; [apply safe_raise|].
    eapply safe_bind; [by apply upload_safe|]. intros sent w2 _ (bs' & Hc & Hsz & Hcp). apply safe_ret.
    by exists bs'.
Qed.

(** ** [mirror_parts] *)

(** Every copy a result names is a true one, in a store that was asked. *)
Definition res_ok (w : W) (stores : list string) (source : string) (bs : list bytes) (res : MirrorResult) : Prop :=
  (forall k ids, (k, ids) ∈ mres_mirrors res -> k ∈ stores /\ k <> source /\ copies w k ids bs) /\
  (forall k r, (k, r) ∈ mres_replicas res -> k ∈ stores /\ k <> source /\
     exists bs', concat bs' = concat bs /\ r_part_sizes r = map zlen bs' /\ copies w k (r_message_ids r) bs').

Lemma res_ok_kept w w' stores source bs res :
  docs_kept w w' -> res_ok w stores source bs res -> res_ok w' stores source bs res.
Proof.
  intros Hk [Hm Hr]. split.
  - intros k ids Hin. destruct (Hm k ids Hin) as (? & ? & ?). split; [done|]. split; [done|]. by eapply copies_kept.
  - intros k r Hin. destruct (Hr k r Hin) as (? & ? & bs' & ? & ? & ?). split; [done|]. split; [done|]. exists bs'.
    split; [done|]. split; [done|]. by eapply copies_kept.
Qed.

Lemma known_sizes_safe source ids sizes bs (w : W) :
  sources w source ids bs -> (forall s, sizes = Some s -> zlen s = zlen ids -> s = map zlen bs) ->
  safe (known_sizes source ids sizes) w (fun s _ => s = map zlen bs).
Proof.
  intros Hs Hsz. unfold known_sizes. destruct sizes as [s|]; [|by apply part_sizes_safe].
  destruct (zlen s =? zlen ids) eqn:He; [|by apply part_sizes_safe]. apply Z.eqb_eq in He.
  apply safe_ret. by apply Hsz.
Qed.

Lemma mirror_one_safe stores key source ids local bs res (w : W) :
  sources w source ids bs -> (forall l, local = Some l -> local_ok l (concat bs)) ->
  key ∈ stores -> key <> source -> res_ok w stores source bs res ->
  safe (mirror_one mg key source ids (map zlen bs) local res) w (fun res' w' => res_ok w' stores source bs res').
Proof.
  intros Hs Hl Hin Hne Hres. unfold mirror_one. destruct (fits_aligned _ _ _).
  - eapply safe_bind; [apply copy_to_safe; [done| |done]; by intros s [= <-]|]. intros ids' w1 Hk Hc. apply safe_ret.
    destruct (res_ok_kept _ _ _ _ _ _ Hk Hres) as [Hm Hr]. split; [|done].
    intros k i [[-> ->]|Hki]%dict_set_elem; [done|by apply Hm].
  - eapply safe_bind; [by apply replicate_safe|]. intros r w1 Hk Hc. apply safe_ret.
    destruct (res_ok_kept _ _ _ _ _ _ Hk Hres) as [Hm Hr]. split; [done|].
    intros k i [[-> ->]|Hki]%dict_set_elem; [done|by apply Hr].
Qed.

Lemma mirror_loop_spec all todo source ids sizes only local bs res (w : W) :
  (forall k, k ∈ todo -> k ∈ all) ->
  sources w source ids bs -> (forall s, sizes = Some s -> zlen s = zlen ids -> s = map zlen bs) ->
  (forall l, local = Some l -> local_ok l (concat bs)) -> res_ok w all source bs res ->
  let '(r, w') := mirror_loop mg todo source ids sizes only local res w in
  docs_kept w w' /\
  match r with
  | Ok res' => res_ok w' all source bs res'
  | Raise x => mg_strict mg = true \/ is_Exception x = false
  end.
Proof.
  revert sizes res w. induction todo as [|key todo IH]; intros sizes res w Hall Hs Hsz Hl Hres; simpl.
  { split; [apply docs_kept_refl|done]. }
  assert (forall k, k ∈ todo -> k ∈ all) as Hall' by (intros k Hk; apply Hall; by right).
  assert (forall sizes ex w1, docs_kept w w1 -> (forall s, sizes = Some s -> zlen s = zlen ids -> s = map zlen bs) ->
    let '(r, w') := on_write_error mg ex (mirror_loop mg todo source ids sizes only local res) w1 in
    docs_kept w w' /\
    match r with
    | Ok res' => res_ok w' all source bs res'
    | Raise x => mg_strict mg = true \/ is_Exception x = false
    end) as Herr.
  { intros sz ex w1 Hk1 Hsz'. unfold on_write_error. destruct (is_Exception ex) eqn:Hex; [|split; [done|by right]].
    unfold sbind, handle_write_error. destruct (mg_strict mg) eqn:Hst.
    - destruct (is_TechnicalError ex); (split; [done|by left]).
    - specialize (IH sz res w1 Hall' (sources_kept _ _ _ _ _ Hk1 Hs) Hsz' Hl (res_ok_kept _ _ _ _ _ _ Hk1 Hres)).
      simpl. destruct (mirror_loop mg todo source ids sz only local res w1) as [r w2]. destruct IH as [Hk2 Hr].
      split; [by eapply docs_kept_trans|done]. }
  destruct (_ || bool_decide (key = source)) eqn:Hskip; [by apply IH|].
  apply orb_false_iff in Hskip as [_ Hne%bool_decide_eq_false].
  pose proof (known_sizes_safe source ids sizes bs w Hs Hsz) as Hks. unfold safe in Hks.
  destruct (known_sizes source ids sizes w) as [[sz|ex] w1]; destruct Hks as [Hk1 Hsize]; [|by apply Herr].
  rewrite Hsize. assert (forall s, Some (map zlen bs) = Some s -> zlen s = zlen ids -> s = map zlen bs) as Hsz1 by (by intros s [= <-]).
  pose proof (mirror_one_safe all key source ids local bs res w1 (sources_kept _ _ _ _ _ Hk1 Hs) Hl
    (Hall key (list_elem_of_here _ _)) Hne (res_ok_kept _ _ _ _ _ _ Hk1 Hres)) as Hone. unfold safe in Hone.
  destruct (mirror_one mg key source ids (map zlen bs) local res w1) as [[res1|ex] w2]; destruct Hone as [Hk2 Hres1].
  - specialize (IH (Some (map zlen bs)) res1 w2 Hall' (sources_kept _ _ _ _ _ (docs_kept_trans _ _ _ Hk1 Hk2) Hs) Hsz1 Hl Hres1).
    destruct (mirror_loop mg todo source ids (Some (map zlen bs)) only local res1 w2) as [r w3]. destruct IH as [Hk3 Hr].
    split; [|done]. by eapply docs_kept_trans; [eapply docs_kept_trans|].
  - apply Herr; [by eapply docs_kept_trans|done].
Qed.

(** The copies of one call. *)
Lemma mirror_parts_spec ids sizes only local bs (w : W) :
  let source := mg_primary mg in
  sources w source ids bs -> (forall s, sizes = Some s -> zlen s = zlen ids -> s = map zlen bs) ->
  (forall l, local = Some l -> local_ok l (concat bs)) ->
  let '(r, w') := mirror_parts mg ids sizes only None local w in
  docs_kept w w' /\
  match r with
  | Ok res => res_ok w' (mg_stores mg) source bs res
  | Raise x => mg_strict mg = true \/ is_Exception x = false
  end.
Proof.
  intros source Hs Hsz Hl. unfold mirror_parts. destruct (nonempty ids) eqn:Hne; cbn [negb].
  - apply mirror_loop_spec; [done..|]. split; intros k x Hin; by apply not_elem_of_nil in Hin.
  - split; [apply docs_kept_refl|]. split; intros k x Hin; by apply not_elem_of_nil in Hin.
Qed.

(** Whatever [mirror_parts] records as a copy is one: an aligned copy has
    every part of the version, in order, and a replica has the bytes of the
    version in its own cut, in a mirror store that is not the source; nothing
    stored before is lost, and with a lenient group no failing mirror makes
    the call fail. *)
Theorem mirror_parts_true_copies ids sizes only local bs (w : W) :
  let source := mg_primary mg in
  sources w source ids bs -> (forall s, sizes = Some s -> zlen s = zlen ids -> s = map zlen bs) ->
  (forall l, local = Some l -> local_ok l (concat bs)) ->
  let '(r, w') := mirror_parts mg ids sizes only None local w in
  docs_kept w w' /\
  match r with
  | Ok res => res_ok w' (mg_stores mg) source bs res
  | Raise x => mg_strict mg = true \/ is_Exception x = false
  end.
Proof. apply mirror_parts_spec. Qed.

(** C32: a version to which the copies of [mirror_parts] are added is held
    as its metadata says -- by the primary, by every aligned mirror part by
    part and by every replica in its cut -- which is what every read and
    every failover rests on. *)
Theorem mirrored_version_held cc fv c bs local (w : W) :
  cc_store cc = mg_primary mg -> version_held cc w fv c bs ->
  owned_by (mg_primary mg) fv = true -> Forall (fun m => 0 < m) (message_ids fv) ->
  zlen (message_ids fv) = zlen bs -> (forall l, local = Some l -> local_ok l c) ->
  let '(r, w') := mirror_parts mg (message_ids fv) (Some (part_sizes fv)) None None local w in
  match r with
  | Ok res => version_held cc w' (apply_to res fv) c bs
  | Raise _ => docs_kept w w'
  end.
Proof.
  intros Hcc Hv Ho Hpos Hlen Hl. destruct (Hv) as [Hc Hp Hprim Hmir Hrep].
  assert (sources w (mg_primary mg) (message_ids fv) bs) as Hs.
  { apply Forall2_same_length_lookup. split; [unfold zlen in Hlen; lia|]. intros i m b Hm Hb.
    rewrite <- Hcc. eapply Hprim; [by rewrite Hcc|done|done|]. by eapply Forall_lookup_1 in Hpos. }
  pose proof (mirror_parts_spec (message_ids fv) (Some (part_sizes fv)) None local bs w Hs) as Hmp.
  destruct (mirror_parts mg _ _ _ _ _ w) as [[res|x] w'].
  2: { apply Hmp; [by intros s [= <-]|]. by rewrite Hc. }
  destruct Hmp as [Hk [Hm Hr]]; [by intros s [= <-]|by rewrite Hc|].
  split; simpl; [done|done| | |].
  - intros Ho' i m b H1' H2' H3'. apply Hk. by eapply Hprim.
  - intros k ids i m b [Hin|Hin]%dict_update_elem Hi Hb Hm0; [apply Hk; by eapply Hmir|].
    destruct (Hm k ids Hin) as (_ & _ & Hcp). by destruct (Forall2_lookup_lr _ _ _ _ _ _ Hcp Hi Hb).
  - intros k r [Hin|Hin]%dict_update_elem Hzl.
    + destruct (Hrep k r Hin Hzl) as (bs' & ? & ? & Hcp). exists bs'. split; [done|]. split; [done|].
      eapply Forall2_impl; [exact Hcp|]. intros m b. apply Hk.
    + destruct (Hr k r Hin) as (_ & _ & bs' & Hbs' & ? & Hcp). exists bs'. split; [congruence|]. split; [done|].
      eapply Forall2_impl; [exact Hcp|]. by intros m b [_ ?].
Qed.

(** ** Descriptors *)

(** The copy of the text a store is recorded to have. *)
Definition current (w : W) (text : string) (res : dict string Z) (key : string) : Prop :=
  exists i, Dict.get key res = Some i /\ says w key i text.

Definition texts_kept_but (keys : list string) (w w' : W) : Prop :=
  forall k m t, k ∉ keys -> says w k m t -> says w' k m t.

Lemma mirror_fd_one_spec key text res (w : W) :
  let '(r, w') := mirror_fd_one key text res w in
  docs_kept w w' /\ texts_kept_but [key] w w' /\
  match r with
  | Ok res' => current w' text res' key /\ forall k, k <> key -> Dict.get k res' = Dict.get k res
  | Raise _ => True
  end.
Proof.
  assert (forall w0 (w : W), docs_kept w0 w -> texts_kept_but [key] w0 w ->
    let '(r, w') := (let! i := st_send_text key text in sret (Dict.set key i res)) w in
    docs_kept w0 w' /\ texts_kept_but [key] w0 w' /\
    match r with
    | Ok res' => current w' text res' key /\ forall k, k <> key -> Dict.get k res' = Dict.get k res
    | Raise _ => True
    end) as Hsend.
  { intros w0 w1 Hk Ht. unfold sbind. pose proof (send_text_law w1 key text) as Hl.
    destruct (st_send_text key text w1) as [[i|x] w2]; destruct Hl as (Hk2 & Ht2 & Hi).
    - split; [by eapply docs_kept_trans|]. split; [intros k m t Hn Hs; by apply Ht2, Ht|].
      destruct Hi as [_ Hi]. split; [exists i; by rewrite Dict.get_set_eq|]. intros k Hne. by rewrite Dict.get_set_ne.
    - split; [by eapply docs_kept_trans|]. split; [intros k m t Hn Hs; by apply Ht2, Ht|done]. }
  unfold mirror_fd_one. specialize (Hsend w).
  destruct (Dict.get key res) as [mid|]; [|apply Hsend; [apply docs_kept_refl|by intros k m t]].
  destruct (mid =? 0); [apply Hsend; [apply docs_kept_refl|by intros k m t]|].
  unfold stry, sbind at 1. pose proof (edit_text_law w key mid text) as Hl.
  destruct (st_edit_text key mid text w) as [[i|x] w1]; destruct Hl as (Hk & Ht & Hi); simpl.
  - split; [done|].
    split; [intros k m t Hn Hs; apply Ht; [intros [= -> ->]; apply Hn; left|exact Hs]|].
    split; [exists i; by rewrite Dict.get_set_eq|]. intros k Hne. by rewrite Dict.get_set_ne.
  - assert (texts_kept_but [key] w w1) as Htb by (intros k m t _ Hs; by apply Hi).
    destruct x; try (split; [done|]; split; [done|done]). by apply Hsend.
Qed.

Lemma mirror_fd_loop_spec stores text res (w : W) :
  NoDup stores -> mg_strict mg = false ->
  let '(r, w') := mirror_fd_loop mg stores text res w in
  docs_kept w w' /\ texts_kept_but stores w w' /\
  match r with
  | Ok res' => forall k, current w' text res' k /\ k ∈ stores \/ Dict.get k res' = Dict.get k res
  | Raise x => is_Exception x = false
  end.
Proof.
  intros Hnd Hst. revert res w. induction Hnd as [|key stores Hkey Hnd IH]; intros res w; simpl.
  { split; [apply docs_kept_refl|]. split; [by intros k m t|]. intros k. by right. }
  pose proof (mirror_fd_one_spec key text res w) as Hone.
  destruct (mirror_fd_one key text res w) as [[res1|x] w1]; destruct Hone as (Hk & Ht & Hr).
  - specialize (IH res1 w1). destruct (mirror_fd_loop mg stores text res1 w1) as [r w2]. destruct IH as (Hk2 & Ht2 & Hr2).
    split; [by eapply docs_kept_trans|]. split; [intros k m t Hn Hs; apply Ht2, Ht; set_solver|].
    destruct r as [res2|]; [|done]. destruct Hr as [(i & Hi & Hsays) Hother]. intros k.
    destruct (Hr2 k) as [[Hc Hin]|Heq]; [left; split; [done|by right]|].
    destruct (decide (k = key)) as [->|Hne].
    + left. split; [|left]. exists i. split; [by rewrite Heq|]. by apply Ht2.
    + right. by rewrite Heq, Hother.
  - unfold on_write_error. destruct (is_Exception x) eqn:Hx.
    + unfold sbind, handle_write_error. rewrite Hst. simpl.
      specialize (IH res w1). destruct (mirror_fd_loop mg stores text res w1) as [r w2]. destruct IH as (Hk2 & Ht2 & Hr2).
      split; [by eapply docs_kept_trans|]. split; [intros k m t Hn Hs; apply Ht2, Ht; set_solver|].
      destruct r as [res2|]; [|done]. intros k. destruct (Hr2 k) as [[Hc Hin]|Heq]; [left; split; [done|by right]|by right].
    + split; [done|]. split; [|done]. intros k m t Hn. apply Ht. set_solver.
Qed.

(** After [mirror_fd] (a lenient group) every mirror store is recorded
    with a message that carries the new text, or -- if it could not be
    written -- with what was recorded before: no entry is dropped, none names
    a message with another text than the store was given, and the call does
    not fail. *)
Theorem mirror_fd_current text existing (w : W) :
  NoDup (mg_stores mg) -> mg_strict mg = false ->
  let '(r, w') := mirror_fd mg text existing w in
  docs_kept w w' /\
  match r with
  | Ok res => forall k, (k ∈ mg_stores mg /\ current w' text res k) \/
                        Dict.get k res = Dict.get k (default [] existing)
  | Raise x => is_Exception x = false
  end.
Proof.
  intros Hnd Hst. pose proof (mirror_fd_loop_spec (mg_stores mg) text (default [] existing) w Hnd Hst) as Hl.
  unfold mirror_fd. destruct (mirror_fd_loop mg _ _ _ w) as [[res|x] w']; destruct Hl as (Hk & _ & Hr); [|done].
  split; [done|]. intros k. destruct (Hr k) as [[? ?]|?]; [by left|by right].
Qed.

End Copies.

(** ** Witnesses *)

Definition up_world : MemWorld :=
  {| mw_docs := mw_docs demo_world; mw_down := []; mw_texts := []; mw_next := 100; mw_clock := 5 |}.

Definition demo_group : MirrorGroup :=
  {| mg_primary := "tg:1"; mg_stores := ["tg:3"]; mg_mode := Auto; mg_strict := false |}.

Lemma demo_sources : sources up_world "tg:1" [11; 12] demo_parts.
Proof. by repeat constructor. Qed.

Lemma mirror_parts_true_copies_witness :
  match mirror_parts demo_group [11; 12] None None None None up_world with
  | (Ok res, w') => res_ok w' ["tg:3"%string] "tg:1" demo_parts res
  | (Raise _, _) => False
  end.
Proof.
  pose proof (mirror_parts_true_copies demo_group [11; 12] None None None demo_parts up_world demo_sources) as Hm.
  assert (is_ok (mirror_parts demo_group [11; 12] None None None None up_world).1 = true) as Hok by (vm_compute; reflexivity).
  destruct (mirror_parts demo_group [11; 12] None None None None up_world) as [[res|x] w']; [|done]. by apply Hm.
Defined.

Lemma demo_held_up : version_held demo_config up_world demo_mirrored (concat demo_parts) demo_parts.
Proof.
  destruct demo_held as [H1 H2 H3 H4 H5]. split; [done|done| | |done].
  - intros Ho i m b Hi Hb Hm. exact (H3 Ho i m b Hi Hb Hm).
  - intros k ids i m b Hin Hi Hb Hm. exact (H4 k ids i m b Hin Hi Hb Hm).
Qed.

Lemma mirrored_version_held_witness :
  match mirror_parts demo_group (message_ids demo_mirrored) (Some (part_sizes demo_mirrored)) None None None up_world with
  | (Ok res, w') => version_held demo_config w' (apply_to res demo_mirrored) (concat demo_parts) demo_parts
  | (Raise _, _) => False
  end.
Proof.
  pose proof (mirrored_version_held demo_group demo_config demo_mirrored (concat demo_parts) demo_parts None up_world
    eq_refl demo_held_up eq_refl ltac:(by repeat constructor) eq_refl ltac:(done)) as Hm.
  assert (is_ok (mirror_parts demo_group (message_ids demo_mirrored) (Some (part_sizes demo_mirrored)) None None None up_world).1 = true)
    as Hok by (vm_compute; reflexivity).
  destruct (mirror_parts demo_group _ _ _ _ _ up_world) as [[res|x] w']; [exact Hm|done].
Defined.

Lemma mirror_fd_current_witness :
  match mirror_fd demo_group "text" (Some [("tg:3", 7); ("dc:9", 4)]%string) up_world with
  | (Ok res, w') => Dict.get "dc:9"%string res = Some 4 \/ current w' "text" res "dc:9"
  | (Raise _, _) => False
  end.
Proof.
  pose proof (mirror_fd_current demo_group "text" (Some [("tg:3", 7); ("dc:9", 4)]%string) up_world
    ltac:(apply NoDup_singleton) eq_refl) as Hm.
  assert (is_ok (mirror_fd demo_group "text" (Some [("tg:3", 7); ("dc:9", 4)]%string) up_world).1 = true)
    as Hok by (vm_compute; reflexivity).
  destruct (mirror_fd demo_group "text" _ up_world) as [[res|x] w']; [|done].
  destruct Hm as [_ Hm]. destruct (Hm "dc:9"%string) as [[_ Hc]|Heq]; [by right|by left].
Defined.
