(* ===== verification/FdRepo.v ===== *)
(** * File descriptors in a store
      ([tgdcfs/core/repository/impl/fd/store_msg.py])

    A descriptor is a JSON text message; mirror copies are kept by the
    [MirrorGroup] and read back when the primary copy is gone.  [json] is the
    encoding of the serialized descriptor as text ([json.dumps] and
    [json.loads]).  Versions are objects that belong to one descriptor; they
    are values here and written back where the code mutates them. *)

From S2P Require Import Prelude Errors Messages FileVersion FileRefs Stores FileContent Mirror.

Open Scope Z_scope.
Open Scope py_scope.

(** [json.dumps]/[json.loads] on the descriptors of [TGFSFileDesc.to_dict]. *)
Class FDJson := {
  dumps : list TGFSFileVersionSerialized -> string;
  loads : string -> exc (list TGFSFileVersionSerialized)
}.

(** Reading back gives what was written, and no text is empty. *)
Class FDJsonLaws `{FDJson} := {
  loads_dumps : forall d, loads (dumps d) = Ok d;
  dumps_nonempty : forall d, dumps d <> EmptyString
}.

Record FDRepositoryResp := {
  rp_message_id : Z;
  rp_fd : TGFSFileDesc;
  rp_mirrors : dict string Z;
  rp_store : option string
}.

(** The repository: its store, the group and what the local cache holds. *)
Record FDConfig := {
  fc_key : string;
  fc_group : option MirrorGroup;
  fc_local_versions : option (string -> bool)
}.

Section FdRepo.
  Context {W : Type} `{Stores W} `{FDJson} (fc : FDConfig).
  Local Abbreviation lst := (st exn (Live W)).

(** A call to a store. *)
Definition onw {A} (m : st exn W A) : lst A := fun l =>
  let '(r, w) := m (lv_world l) in (r, set_world w l).

Definition readable_locally (v : TGFSFileVersion) : bool :=
  pending v && match fc_local_versions fc with Some f => f (fv_id v) | None => false end.

(** [_stamp]. *)
Definition stamp_version (v : TGFSFileVersion) : TGFSFileVersion :=
  if bool_decide (store v = None) && is_valid v then set_store (Some (fc_key fc)) v else v.

Definition stamp (fd : TGFSFileDesc) : TGFSFileDesc :=
  with_versions (map (fun kv => (kv.1, stamp_version kv.2)) (versions fd)) fd.

Definition fd_to_json (fd : TGFSFileDesc) : exc string :=
  let* d := desc_to_dict fd in Ok (dumps d).

Definition mirror_descriptor (fd : TGFSFileDesc) (existing : option (dict string Z)) : lst (dict string Z) :=
  match fc_group fc with
  | None => sret (default [] existing)
  | Some mg => let! text := slift (fd_to_json fd) in onw (mirror_fd mg text existing)
  end.

(** A fresh descriptor message, recorded for the copies [existing]. *)
Definition send_descriptor (fd : TGFSFileDesc) (existing : option (dict string Z)) : lst FDRepositoryResp :=
  let! text := slift (fd_to_json fd) in
  let! mid := onw (st_send_text (fc_key fc) text) in
  let! mirrors := mirror_descriptor fd existing in
  sret {| rp_message_id := mid; rp_fd := fd; rp_mirrors := mirrors; rp_store := Some (fc_key fc) |}.

Definition fd_save (fd : TGFSFileDesc) (fr : option TGFSFileRef) : lst FDRepositoryResp :=
  let fd := stamp fd in
  match fr with
  | None => send_descriptor fd None
  | Some fr =>
      if negb (ref_owned_by (fc_key fc) fr) then
        let existing := if truthy (fr_store fr)
                        then Dict.setdefault (default "" (fr_store fr)) (fr_message_id fr) (fr_mirrors fr)
                        else fr_mirrors fr in
        send_descriptor fd (Some existing)
      else
        stry (let! text := slift (fd_to_json fd) in
              let! mid := onw (st_edit_text (fc_key fc) (fr_message_id fr) text) in
              let! mirrors := mirror_descriptor fd (Some (fr_mirrors fr)) in
              sret {| rp_message_id := mid; rp_fd := fd; rp_mirrors := mirrors; rp_store := Some (fc_key fc) |})
             (fun ex => match ex with
                        | MessageNotFound _ => send_descriptor (stamp fd) None
                        | _ => sraise ex
                        end)
  end.

(** ** Validation *)

(** [by_channel.setdefault(key, []).append(mid)]. *)
Definition group_by_store (missing : list (string * Z)) : dict string (list Z) :=
  foldl (fun acc km => Dict.set km.1 (default [] (Dict.get km.1 acc) ++ [km.2]) acc) [] missing.

(** The documents among [zip(mids, messages)]. *)
Fixpoint found_sizes (key : string) (mids : list Z) (messages : list (option MessageResp))
    (res : dict (string * Z) Z) : dict (string * Z) Z :=
  match mids, messages with
  | mid :: mids, m :: messages =>
      let res := match m with
                 | Some x => match mr_document x with Some size => Dict.set (key, mid) size res | None => res end
                 | None => res
                 end in
      found_sizes key mids messages res
  | _, _ => res
  end.

Fixpoint lookup_loop (mg : MirrorGroup) (groups : list (string * list Z)) (res : dict (string * Z) Z)
  : lst (dict (string * Z) Z) :=
  match groups with
  | [] => sret res
  | (key, mids) :: groups =>
      match group_store mg key with
      | None => lookup_loop mg groups res
      | Some api => fun l =>
          match onw (st_get_messages api mids) l with
          | (Ok messages, l) => lookup_loop mg groups (found_sizes key mids messages res) l
          | (Raise ex, l) => if is_Exception ex then lookup_loop mg groups res l else (Raise ex, l)
          end
      end
  end.

Definition lookup_mirror_parts (missing : list (string * Z)) : lst (dict (string * Z) Z) :=
  match fc_group fc with
  | None => sret []
  | Some mg => lookup_loop mg (group_by_store missing) []
  end.

(** The sizes of the documents, when every message has one. *)
Fixpoint all_documents (messages : list (option MessageResp)) : option (list Z) :=
  match messages with
  | [] => Some []
  | m :: messages =>
      match m with
      | Some x => match mr_document x, all_documents messages with
                  | Some size, Some sizes => Some (size :: sizes)
                  | _, _ => None
                  end
      | None => None
      end
  end.

Fixpoint verify_loop (mg : MirrorGroup) (reps : list (string * Replica)) (complete : bool)
    (done : dict string Replica) : lst (bool * dict string Replica) :=
  match reps with
  | [] => sret (complete, done)
  | (key, r) :: reps =>
      let skip := verify_loop mg reps complete (done ++ [(key, r)]) in
      match group_store mg key with
      | None => skip
      | Some store =>
          if negb (nonempty (r_message_ids r)) then skip
          else fun l =>
            match onw (st_get_messages store (r_message_ids r)) l with
            | (Raise ex, l) => if is_Exception ex then skip l else (Raise ex, l)
            | (Ok messages, l) =>
                match all_documents messages with
                | None => skip l
                | Some sizes =>
                    verify_loop mg reps true
                      (done ++ [(key, {| r_message_ids := r_message_ids r; r_part_sizes := sizes |})]) l
                end
            end
      end
  end.

Definition verify_replicas (v : TGFSFileVersion) : lst (bool * TGFSFileVersion) :=
  match fc_group fc with
  | None => sret (false, v)
  | Some mg =>
      let! (ok, reps) := verify_loop mg (replicas v) false [] in
      sret (ok, set_replicas reps v)
  end.

(** The copies of part [j] in the aligned mirrors. *)
Definition mirror_candidates (j : nat) (v : TGFSFileVersion) : list (string * Z) :=
  concat (map (fun ki => match ki.2 !! j with
                         | Some m => if 0 <? m then [(ki.1, m)] else []
                         | None => []
                         end) (mirrors v)).

(** The loop over the parts: their sizes, or [None] at the first part that
    no store has. *)
Fixpoint check_parts (message_map : dict Z MessageResp) (v : TGFSFileVersion) (owned : bool)
    (j : nat) (ids : list Z) (sizes : list Z) : lst (bool * list Z) :=
  match ids with
  | [] => sret (true, sizes)
  | mid :: ids =>
      match (if owned then match Dict.get mid message_map with Some m => mr_document m | None => None end else None) with
      | Some size => check_parts message_map v owned (S j) ids (sizes ++ [size])
      | None =>
          let! found := lookup_mirror_parts (mirror_candidates j v) in
          match found with
          | (_, size) :: _ => check_parts message_map v owned (S j) ids (sizes ++ [size])
          | [] => sret (false, sizes)
          end
      end
  end.

Definition validate_version (message_map : dict Z MessageResp) (v : TGFSFileVersion) : lst TGFSFileVersion :=
  let owned := owned_by (fc_key fc) v in
  let! (ok, sizes) := check_parts message_map v owned 0 (message_ids v) [] in
  let v := set_part_sizes sizes v in
  if ok then sret v
  else
    let! (readable, v) := verify_replicas v in
    sret (if readable then set_size_field INVALID_FILE_SIZE (set_part_sizes [] v) else set_invalid v).

Fixpoint validate_loop (message_map : dict Z MessageResp) (vs : list (string * TGFSFileVersion))
    (include_all has_valid : bool) (fd : TGFSFileDesc) : lst (bool * TGFSFileDesc) :=
  match vs with
  | [] => sret (has_valid, fd)
  | (key, v) :: vs =>
      let! v := validate_version message_map v in
      let fd := update_version key v fd in
      if is_valid v then
        if include_all then validate_loop message_map vs include_all true fd else sret (true, fd)
      else validate_loop message_map vs include_all has_valid fd
  end.

(** ** The version served *)

Definition readable (v : TGFSFileVersion) : bool := is_valid v || readable_locally v.

Definition point_at_readable (now : datetime) (has_valid : bool) (fd : TGFSFileDesc) : exc TGFSFileDesc :=
  let has_valid := has_valid || existsb readable_locally (get_versions false false fd) in
  let keep := match Dict.get (latest_version_id fd) (versions fd) with Some v => readable v | None => false end in
  let fd :=
    if keep then fd
    else match List.filter readable (Dict.values (versions fd)) with
         | [] => fd
         | v :: vs => with_latest (fv_id (max_by updated_at_timestamp v vs)) fd
         end in
  if has_valid then Ok fd
  else
    let* empty := empty_desc now (fd_name fd) in
    Ok {| fd_name := fd_name empty; latest_version_id := latest_version_id empty; created_at := created_at empty;
          versions := versions empty; complete := complete fd |}.

Definition set_complete (b : bool) (fd : TGFSFileDesc) : TGFSFileDesc :=
  {| fd_name := fd_name fd; latest_version_id := latest_version_id fd; created_at := created_at fd;
     versions := versions fd; complete := b |}.

Definition message_map_of (messages : list (option MessageResp)) : dict Z MessageResp :=
  Dict.of_pairs (map (fun m => (mr_message_id m, m)) (omap id messages)).

Definition validate_fv (now : datetime) (fd : TGFSFileDesc) (include_all : bool) : lst TGFSFileDesc :=
  let vs := List.filter (fun kv => is_valid kv.2) (versions fd) in
  let all_ids := concat (map (fun kv => if owned_by (fc_key fc) kv.2 then message_ids kv.2 else []) vs) in
  let! (messages, fd) := (fun l =>
    match onw (st_get_messages (fc_key fc) all_ids) l with
    | (Ok messages, l) => (Ok (messages, fd), l)
    | (Raise ex, l) =>
        match fc_group fc with
        | Some _ =>
            if is_Exception ex
            then (Ok (replicate (length all_ids) None, set_complete false fd), mark_primary_dead l)
            else (Raise ex, l)
        | None => (Raise ex, l)
        end
    end) in
  let! (has_valid, fd) := validate_loop (message_map_of messages) vs include_all false fd in
  slift (point_at_readable now has_valid fd).

(** ** Reading *)

Fixpoint mirror_texts (mg : MirrorGroup) (copies : list (string * Z)) : lst (option string) :=
  match copies with
  | [] => sret None
  | (key, mid) :: copies =>
      match group_store mg key with
      | None => mirror_texts mg copies
      | Some api => fun l =>
          match onw (st_get_messages api [mid]) l with
          | (Raise ex, l) => if is_Exception ex then mirror_texts mg copies l else (Raise ex, l)
          | (Ok [], l) => mirror_texts mg copies l          (* IndexError, caught *)
          | (Ok (m :: _), l) =>
              match m with
              | Some x => if bool_decide (mr_text x = EmptyString) then mirror_texts mg copies l
                          else (Ok (Some (mr_text x)), l)
              | None => mirror_texts mg copies l
              end
          end
      end
  end.

(** The text of the primary copy; a failure trips the breaker. *)
Definition primary_text (fr : TGFSFileRef) : lst (option string) := fun l =>
  if ref_owned_by (fc_key fc) fr then
    let failed l := match fc_group fc with Some _ => mark_primary_dead l | None => l end in
    match onw (st_get_messages (fc_key fc) [fr_message_id fr]) l with
    | (Raise ex, l) => if is_Exception ex then (Ok None, failed l) else (Raise ex, l)
    | (Ok [], l) => (Ok None, failed l)
    | (Ok (m :: _), l) => (Ok (option_map mr_text m), l)
    end
  else (Ok None, l).

Definition get_fd_text (fr : TGFSFileRef) : lst (option string) :=
  let! text := primary_text fr in
  if truthy text then sret text
  else match fc_group fc with
       | None => sret None
       | Some mg => mirror_texts mg (fr_mirrors fr)
       end.

(** A recorded size fills in for an unknown one. *)
Definition trust_version (v : TGFSFileVersion) : TGFSFileVersion :=
  if negb (is_valid v) then v
  else
    let v := size_fill v in
    if (fv_size v =? INVALID_FILE_SIZE) && (0 <=? recorded_size v) then set_size_field (recorded_size v) v else v.

Definition trust_recorded (now : datetime) (fd : TGFSFileDesc) : exc TGFSFileDesc :=
  let has_valid := existsb is_valid (get_versions false false fd) in
  point_at_readable now has_valid (with_versions (map (fun kv => (kv.1, trust_version kv.2)) (versions fd)) fd).

(** [get]: the ref is relocated in place, so it is returned as well. *)
Definition fd_get (now : datetime) (fr : TGFSFileRef) (include_all validate : bool)
  : lst (TGFSFileRef * TGFSFileDesc) :=
  let fr := ref_relocate (fc_key fc) fr in
  let! text := get_fd_text fr in
  match text with
  | Some t =>
      if bool_decide (t = EmptyString) then
        let! missing := slift (empty_desc now (fr_name fr)) in sret (fr, set_complete false missing)
      else
        let! data := slift (loads t) in
        let! fd := slift (desc_from_dict now data (fr_name fr)) in
        let fd := with_versions (map (fun kv => (kv.1, relocate (fc_key fc) kv.2)) (versions fd)) fd in
        let! fd := (if validate then validate_fv now fd include_all else slift (trust_recorded now fd)) in
        sret (fr, fd)
  | None =>
      let! missing := slift (empty_desc now (fr_name fr)) in sret (fr, set_complete false missing)
  end.

End FdRepo.
