(* ===== verification/ContentStoreProps.v ===== *)
(** * The content repository over the stores
      ([StoreFileContentRepository] of
      [tgdcfs/core/repository/impl/file_content/__init__.py])

    [save], [update], [get] and [content_length] of a repository without a
    local cache and without tee mirroring, as an instance of the interface
    [ContentRepo] -- the one the encrypting repository and the file API are
    written against.  The instance keeps the promise [ContentLaws]. *)

From S2P Require Import Prelude Errors Codec Messages FileVersion FileVersionProps CryptoLib Header Cipher EncStream Contents EncRepo EncRepoProps Stores FileContent FileContentProps Mirror MirrorProps FdRepo.

Open Scope Z_scope.
Open Scope py_scope.

(** [for sent, mirror_id in zip(res, ids): sent.mirrors[key] = mirror_id]. *)
Fixpoint attach_mirror (key : string) (ids : list Z) (res : list SentFileMessage) : list SentFileMessage :=
  match res, ids with
  | m :: res, i :: ids =>
      {| sm_message_id := sm_message_id m; sm_size := sm_size m; sm_mirrors := Dict.set key i (sm_mirrors m);
         sm_replicas := sm_replicas m |} :: attach_mirror key ids res
  | _, _ => res
  end.

(** [res[0].replicas.update(replicas)]. *)
Definition attach_replicas (replicas : dict string Replica) (res : list SentFileMessage) : list SentFileMessage :=
  match res with
  | [] => []
  | m :: res => {| sm_message_id := sm_message_id m; sm_size := sm_size m; sm_mirrors := sm_mirrors m;
                   sm_replicas := Dict.update (sm_replicas m) replicas |} :: res
  end.

Definition attach_copies (copies : MirrorResult) (res : list SentFileMessage) : list SentFileMessage :=
  attach_replicas (mres_replicas copies)
    (foldl (fun res ki => attach_mirror ki.1 ki.2 res) res (mres_mirrors copies)).

Section ContentStore.
  Context {W : Type} `{Stores W} (cc : ContentConfig) (group : option MirrorGroup) (inline_mirroring : bool).
  Context (multi : list StoreView -> Z -> Z -> Z -> gen W).

Definition store_save (M : Type) (U : Uploadable M) (msg : M) : st exn (Live W) (list SentFileMessage) :=
  let! res := onw (st_upload (cc_store cc) M U msg) in
  match group with
  | Some mg =>
      if nonempty res && inline_mirroring then
        let! copies := onw (mirror_parts mg (map sm_message_id res) (Some (map sm_size res)) None None None) in
        sret (attach_copies copies res)
      else sret res
  | None => sret res
  end.

Definition store_update (message_id : Z) (buffer : bytes) (name : string) : st exn (Live W) Z :=
  onw (st_replace (cc_store cc) message_id buffer name).

Definition store_repo : ContentRepo (Live W) := {|
  cr_save := store_save;
  cr_get fv begin last name admit_ := get_uncached cc multi fv begin last;
  cr_update := store_update;
  cr_stage M U msg version_id := sret None;
  cr_forget version_ids := sret tt;
  cr_content_length fv := sret (fv_size fv)
|}.

End ContentStore.

(** ** The store-backed repository keeps its promise

    The repository of [ContentStore] is an instance of [ContentLaws], so
    every theorem about a client of the interface holds over the stores: in
    particular the encrypted reads.  What [save] stores is what [get] of the
    recorded version delivers. *)

Section Laws.
  Context {W : Type} `{WriteLaws W} (cc : ContentConfig) (group : option MirrorGroup) (inline_mirroring : bool).
  Context (multi : list StoreView -> Z -> Z -> Z -> gen W) (Hseq : cc_read_parallel cc = false).

(** The version is in the stores, and some layout of it can be read. *)
Definition stored_content (l : Live W) (fv : TGFSFileVersion) (b : bytes) : Prop :=
  pending fv = false /\ fv_size fv = zlen b /\
  (exists bs, version_held cc (lv_world l) fv b bs) /\
  forall dead, Exists (layout_up (lv_world l)) (layouts cc fv dead).

Lemma version_held_docs w w' fv b bs : docs_kept w w' -> version_held cc w fv b bs -> version_held cc w' fv b bs.
Proof.
  intros Hk [H1' H2' H3' H4' H5']. split; [done|done| | |].
  - intros Ho i m x Hi Hx Hm. by apply Hk, (H3' Ho i).
  - intros k ids i m x Hin Hi Hx Hm. by eapply Hk, H4'.
  - intros k r Hin Hl. destruct (H5' k r Hin Hl) as (bs' & Hc & Hp & Hf). exists bs'. split; [done|]. split; [done|].
    eapply Forall2_impl; [exact Hf|]. intros m x. apply Hk.
Qed.

Lemma version_held_kept w w' fv b bs : kept w w' -> version_held cc w fv b bs -> version_held cc w' fv b bs.
Proof. intros [Hk _]. by apply version_held_docs. Qed.

Lemma stored_content_kept l l' fv b : kept (lv_world l) (lv_world l') -> stored_content l fv b -> stored_content l' fv b.
Proof.
  intros Hk (Hp & Hs & (bs & Hv) & Hu). split; [done|]. split; [done|]. split; [exists bs; by eapply version_held_kept|].
  intros dead. eapply Exists_impl; [apply Hu|]. intros ly. by apply layout_up_kept.
Qed.

#[local] Existing Instance store_repo.

(** The interface of the content repository, discharged by the stores. *)
#[program] Definition store_content_laws : @ContentLaws (Live W) (store_repo cc group inline_mirroring multi) := {|
  content := stored_content
|}.
Next Obligation.
  intros l fv b first last name admit_ (Hp & Hs & (bs & Hv) & Hu) H0' H1' H2'. cbn [cr_get store_repo].
  assert (last_byte last (zlen b) = last) as Hlb by (apply (last_byte_in first); lia).
  destruct (get_uncached_spec cc multi fv b bs first last l) as (s & l' & Hg & Hk & _ & Hiff & Hok); [done..| | |lia|].
  - intros He. specialize (Hu (primary_dead l)). rewrite He in Hu. by inversion Hu.
  - rewrite Hlb. lia.
  - exists s, l'. split; [done|]. specialize (Hok (Hu _)). rewrite Hlb in Hiff. split; [by apply Hiff|]. split; [done|].
    intros fv' b' _. by apply stored_content_kept.
Qed.
Next Obligation.
  intros l fv b (_ & Hs & _). cbn [cr_content_length store_repo]. rewrite Hs. exists l. split; [done|]. apply keeps_refl.
Qed.

End Laws.

(** ** Encrypted files in the stores *)

Section Encrypted.
  Context `{CryptoLaws} {W : Type} `{WriteLaws W} (cc : ContentConfig) (group : option MirrorGroup) (inline_mirroring : bool).
  Context (multi : list StoreView -> Z -> Z -> Z -> gen W) (Hseq : cc_read_parallel cc = false).

#[local] Instance inner_repo : ContentRepo (Live W) := store_repo cc group inline_mirroring multi.
#[local] Instance inner_laws : ContentLaws (Live W) := store_content_laws cc group inline_mirroring multi Hseq.


End Encrypted.

(** ** What is saved is what is read *)

(** A sent part with the copies attached to it. *)
Lemma attach_mirror_lookup key ids res i r :
  attach_mirror key ids res !! i = Some r ->
  exists r0, res !! i = Some r0 /\ sm_message_id r = sm_message_id r0 /\ sm_size r = sm_size r0 /\
    sm_replicas r = sm_replicas r0 /\
    forall k m, Dict.get k (sm_mirrors r) = Some m ->
      Dict.get k (sm_mirrors r0) = Some m \/ (k = key /\ ids !! i = Some m).
Proof.
  revert ids i. induction res as [|r0 res IH]; intros ids i; [by destruct ids, i|]. destruct ids as [|x ids]; [intros Hr; exists r; split_and!; try done; intros k m Hm; by left|].
  destruct i as [|i]; simpl; [|apply IH]. intros [= <-]. exists r0. split; [done|]. split; [done|]. split; [done|]. split; [done|].
  intros k m. cbn. destruct (decide (k = key)) as [->|Hne]; [rewrite Dict.get_set_eq; intros [= ->]; by right|].
  rewrite Dict.get_set_ne by done. by left.
Qed.

Lemma attach_all_lookup ms res i r :
  foldl (fun res ki => attach_mirror ki.1 ki.2 res) res ms !! i = Some r ->
  exists r0, res !! i = Some r0 /\ sm_message_id r = sm_message_id r0 /\ sm_size r = sm_size r0 /\
    sm_replicas r = sm_replicas r0 /\
    forall k m, Dict.get k (sm_mirrors r) = Some m ->
      Dict.get k (sm_mirrors r0) = Some m \/ exists ids, (k, ids) ∈ ms /\ ids !! i = Some m.
Proof.
  revert res. induction ms as [|[key ids] ms IH]; intros res; simpl; [intros Hr; exists r; split_and!; try done; intros k m Hm; by left|].
  intros (r1 & Hr1 & E1 & E2 & E3 & E4)%IH. apply attach_mirror_lookup in Hr1 as (r0 & Hr0 & F1 & F2 & F3 & F4).
  exists r0. split; [done|]. split; [congruence|]. split; [congruence|]. split; [congruence|].
  intros k m [Hm|(ids' & Hin & Hi)]%E4; [|right; exists ids'; split; [by right|done]].
  apply F4 in Hm as [Hm|[-> Hm]]; [by left|]. right. exists ids. split; [left|done].
Qed.

Lemma length_attach_mirror key ids res : length (attach_mirror key ids res) = length res.
Proof. revert ids. induction res as [|r res IH]; intros [|i ids]; simpl; auto. Qed.

Lemma length_attach_all ms res :
  length (foldl (fun res ki => attach_mirror ki.1 ki.2 res) res ms) = length res.
Proof. revert res. induction ms as [|[k i] ms IH]; intros res; simpl; [done|]. by rewrite IH, length_attach_mirror. Qed.

(** The parts as [save] reports them: the ids and sizes are the store's, the
    copies are those of the mirror group. *)
Lemma attach_copies_spec copies res :
  Forall (fun r => sm_mirrors r = [] /\ sm_replicas r = []) res ->
  map sm_message_id (attach_copies copies res) = map sm_message_id res /\
  map sm_size (attach_copies copies res) = map sm_size res /\
  (forall i r k m, attach_copies copies res !! i = Some r -> Dict.get k (sm_mirrors r) = Some m ->
     exists ids, (k, ids) ∈ mres_mirrors copies /\ ids !! i = Some m) /\
  (forall i r k rep, attach_copies copies res !! i = Some r -> (k, rep) ∈ sm_replicas r -> (k, rep) ∈ mres_replicas copies).
Proof.
  intros Hempty. unfold attach_copies. set (res1 := foldl _ res (mres_mirrors copies)).
  assert (length res1 = length res) as Hlen by apply length_attach_all.
  assert (forall i r, res1 !! i = Some r -> exists r0, res !! i = Some r0 /\ sm_message_id r = sm_message_id r0 /\
    sm_size r = sm_size r0 /\ sm_replicas r = [] /\
    forall k m, Dict.get k (sm_mirrors r) = Some m -> exists ids, (k, ids) ∈ mres_mirrors copies /\ ids !! i = Some m) as Hres1.
  { intros i r Hr. apply attach_all_lookup in Hr as (r0 & Hr0 & E1 & E2 & E3 & E4). exists r0. split; [done|].
    pose proof (Forall_lookup_1 _ _ _ _ Hempty Hr0) as [Hm Hrep]. split; [done|]. split; [done|]. split; [congruence|].
    intros k m [Hk|?]%E4; [by rewrite Hm in Hk|done]. }
  assert (forall (f : SentFileMessage -> Z), (forall i r r0, res1 !! i = Some r -> res !! i = Some r0 -> f r = f r0) ->
    map f res1 = map f res) as Hmap.
  { intros f Hf. apply list_eq. intros i. rewrite !list_lookup_fmap. destruct (res1 !! i) as [r|] eqn:Hr.
    - destruct (Hres1 i r Hr) as (r0 & Hr0 & _). rewrite Hr0. simpl. f_equal. by eapply Hf.
    - apply lookup_ge_None in Hr. rewrite Hlen in Hr. by rewrite (lookup_ge_None_2 _ _ Hr). }
  assert (forall f : SentFileMessage -> Z, (forall m reps, f {| sm_message_id := sm_message_id m; sm_size := sm_size m;
      sm_mirrors := sm_mirrors m; sm_replicas := reps |} = f m) ->
    map f (attach_replicas (mres_replicas copies) res1) = map f res1) as Hrep.
  { intros f Hf. destruct res1 as [|m rest]; simpl; [done|]. by rewrite Hf. }
  split; [rewrite Hrep by done; apply Hmap; intros i r r0 Hr Hr0; destruct (Hres1 i r Hr) as (? & ? & ? & _); congruence|].
  split; [rewrite Hrep by done; apply Hmap; intros i r r0 Hr Hr0; destruct (Hres1 i r Hr) as (? & ? & ? & ? & _); congruence|].
  split.
  - intros i r k m Hr Hk. destruct res1 as [|m1 rest]; [done|]. destruct i as [|i]; simpl in Hr.
    + injection Hr as <-. destruct (Hres1 0%nat m1 eq_refl) as (_ & _ & _ & _ & _ & Hm). by apply Hm.
    + destruct (Hres1 (S i) r Hr) as (_ & _ & _ & _ & _ & Hm). by apply Hm.
  - intros i r k rep Hr Hin. destruct res1 as [|m1 rest]; [done|]. destruct i as [|i]; simpl in Hr.
    + injection Hr as <-. cbn in Hin. destruct (Hres1 0%nat m1 eq_refl) as (_ & _ & _ & _ & E & _). rewrite E in Hin.
      apply dict_update_elem in Hin as [Hin|?]; [by apply not_elem_of_nil in Hin|done].
    + destruct (Hres1 (S i) r Hr) as (_ & _ & _ & _ & E & _). rewrite E in Hin. by apply not_elem_of_nil in Hin.
Qed.

Lemma foldl_replicas_elem (res : list SentFileMessage) acc k r :
  (k, r) ∈ foldl (fun acc m => Dict.update acc (sm_replicas m)) acc res ->
  (k, r) ∈ acc \/ exists m, m ∈ res /\ (k, r) ∈ sm_replicas m.
Proof.
  revert acc. induction res as [|m res IH]; intros acc; simpl; [by left|].
  intros [[Hin|Hin]%dict_update_elem|(m' & Hm' & Hin)]%IH; [by left| |].
  - right. exists m. split; [left|done].
  - right. exists m'. split; [by right|done].
Qed.

Section SaveRead.
  Context {W : Type} `{WriteLaws W} (cc : ContentConfig) (group : option MirrorGroup) (inline_mirroring : bool).
  Context (Hgroup : forall mg, group = Some mg -> mg_primary mg = cc_store cc).

(** Parts of the primary with true copies, as a version records them. *)
Lemma sent_version_held (w : W) now u vid bs res stores copies :
  Forall2 (fun s b => sm_size s = zlen b /\ (0 < sm_message_id s /\ holds w (cc_store cc) (sm_message_id s) b) /\
                      sm_mirrors s = [] /\ sm_replicas s = []) res bs ->
  res_ok w stores (cc_store cc) bs copies ->
  version_held cc w (from_sent_file_message now u None vid (attach_copies copies res)) (concat bs) bs.
Proof.
  intros Hres [Hcm Hcr]. destruct (attach_copies_spec copies res) as (Hids & Hsizes & Hm & Hr).
  { apply List.Forall_forall. intros r (i & Hi)%list_elem_of_In%list_elem_of_lookup.
    destruct (Forall2_lookup_l _ _ _ _ _ Hres Hi) as (b & _ & _ & _ & ?). done. }
  assert (forall k ids, (k, ids) ∈ mres_mirrors copies -> MirrorProps.copies w k ids bs) as Hmir.
  { intros k ids Hin. by destruct (Hcm k ids Hin) as (_ & _ & ?). }
  split; simpl; [done| | | |].
  - rewrite Hsizes. clear -Hres. induction Hres as [|s b ? ? [? _] _ IH]; simpl; [done|congruence].
  - intros _ i m b Hi Hb _. rewrite Hids, list_lookup_fmap in Hi. destruct (res !! i) as [s|] eqn:Hs; [|done].
    injection Hi as <-. by destruct (Forall2_lookup_lr _ _ _ _ _ _ Hres Hs Hb) as (_ & [_ ?] & _).
  - intros k ids i m b Hin Hi Hb Hpos. apply list_elem_of_fmap in Hin as (ch & [= -> ->] & _).
    rewrite list_lookup_fmap in Hi. destruct (attach_copies copies res !! i) as [s|] eqn:Hs; [|done].
    injection Hi as <-. destruct (Dict.get ch (sm_mirrors s)) as [m|] eqn:Hg; [|simpl in Hpos; lia].
    destruct (Hm i s ch m Hs Hg) as (ids & Hin & Hi). by destruct (Forall2_lookup_lr _ _ _ _ _ _ (Hmir _ _ Hin) Hi Hb).
  - intros k r [Hin|(s & (i & Hi)%list_elem_of_lookup & Hin)]%foldl_replicas_elem _; [by apply not_elem_of_nil in Hin|].
    apply (Hr i s k r Hi) in Hin. destruct (Hcr k r Hin) as (_ & _ & bs' & ? & ? & Hcp). exists bs'. split; [done|]. split; [done|].
    eapply Forall2_impl; [exact Hcp|]. by intros m b [_ ?].
Qed.

Lemma attach_no_copies res : attach_copies no_copies res = res.
Proof. by destruct res as [|[] res]. Qed.

Lemma no_copies_ok (w : W) stores source bs : res_ok w stores source bs no_copies.
Proof. split; intros k x Hin; by apply not_elem_of_nil in Hin. Qed.

(** The parts [bs] in the primary and the copies of them the result names. *)
Definition saved_as (w : W) (res : list SentFileMessage) (bs : list bytes) : Prop :=
  exists sent copies stores, res = attach_copies copies sent /\
    Forall2 (fun s b => sm_size s = zlen b /\ (0 < sm_message_id s /\ holds w (cc_store cc) (sm_message_id s) b) /\
                        sm_mirrors s = [] /\ sm_replicas s = []) sent bs /\
    res_ok w stores (cc_store cc) bs copies.

(** What a [save] that returns has stored. *)
Lemma store_save_spec s size name b (l l1 : Live W) res :
  store_save cc group inline_mirroring _ stream_uploadable (stream_message s size name) l = (Ok res, l1) ->
  (exists t, stream_bytes s ++ t = b) -> size = zlen b ->
  docs_kept (lv_world l) (lv_world l1) /\ exists bs, concat bs = b /\ saved_as (lv_world l1) res bs.
Proof.
  intros Hrun Hs Hsize. unfold store_save, sbind in Hrun. unfold onw at 1 in Hrun.
  pose proof (upload_law (lv_world l) (cc_store cc) _ stream_uploadable (stream_message s size name)) as Hl.
  destruct (st_upload _ _ _ _ _) as [[sent|x] w1]; [|done]. destruct Hl as (Hk & _ & c & m' & bs & Hr & Hlen & Hc & Hall).
  pose proof (zlen_nonneg b). assert (concat bs = b) as Hb by (rewrite Hc; eapply stream_reads_all; try done; lia).
  assert (saved_as w1 sent bs) as Hplain.
  { exists sent, no_copies, []. rewrite attach_no_copies. split; [done|]. split; [done|]. apply no_copies_ok. }
  destruct group as [mg|] eqn:Hg; [|injection Hrun as <- <-; split; [done|by exists bs]].
  destruct (nonempty sent && inline_mirroring); [|injection Hrun as <- <-; split; [done|by exists bs]].
  unfold onw in Hrun. change (lv_world (set_world w1 l)) with w1 in Hrun.
  pose proof (mirror_parts_spec mg (map sm_message_id sent) (Some (map sm_size sent)) None None bs w1) as Hmp. cbn zeta in Hmp.
  rewrite (Hgroup mg eq_refl) in Hmp. destruct (mirror_parts _ _ _ _ _ _ w1) as [[copies|x] w2]; [|done].
  injection Hrun as <- <-. destruct Hmp as [Hk2 Hok].
  - clear -Hall. induction Hall as [|m b ms bs (_ & [_ ?] & _) _ IH]; simpl; by constructor.
  - intros s' [= <-] _. clear -Hall. induction Hall as [|m b ms bs [? _] _ IH]; simpl; [done|congruence].
  - done.
  - split; [by eapply docs_kept_trans|]. exists bs. split; [done|]. exists sent, copies, (mg_stores mg). split; [done|].
    split; [|done]. eapply Forall2_impl; [exact Hall|]. intros m x (? & [? ?] & ?). split; [done|]. split; [|done]. split; [done|by apply Hk2].
Qed.

(** A version the primary holds all of can be read from it. *)
Lemma own_source fv dead i mid :
  owned_by (cc_store cc) fv = true -> 0 < mid -> (cc_store cc, mid) ∈ part_sources cc fv dead i mid.
Proof.
  intros Ho Hm. unfold part_sources. rewrite (sort_by_perm _ _), Ho, (proj2 (Z.ltb_lt _ _)) by done. cbn [andb].
  destruct (cc_group cc) as [g|]; [|left]. set (l := _ ++ concat _). assert ((cc_store cc, mid) ∈ l) as Hl by left.
  destruct (dead && _); [|done]. rewrite <- (ztake_zdrop 1 l) in Hl. rewrite elem_of_app in Hl |- *. tauto.
Qed.

Lemma primary_layout_up (w : W) fv dead :
  owned_by (cc_store cc) fv = true -> Forall (fun m => 0 < m) (message_ids fv) -> message_ids fv <> [] ->
  zlen (part_sizes fv) = zlen (message_ids fv) -> up w (cc_store cc) ->
  Exists (layout_up w) (layouts cc fv dead).
Proof.
  intros Ho Hpos Hne Hlen Hup. unfold layouts.
  assert (nonempty (message_ids fv) = true) as -> by by destruct (message_ids fv).
  rewrite (proj2 (Z.eqb_eq _ _)) by lia. cbn [andb app]. rewrite (sort_by_perm _ _). constructor.
  apply Forall_lookup. intros i srcs Hs. cbn [ly_candidates] in Hs. rewrite list_lookup_imap in Hs.
  destruct (message_ids fv !! i) as [m|] eqn:Hm; [|done]. injection Hs as <-.
  exists (cc_store cc), m. split; [|done]. apply own_source; [done|]. by eapply Forall_lookup_1 in Hpos.
Qed.


End SaveRead.

(** ** Witnesses *)


(** The encrypted file of [EncRepoProps] in one message of the store. *)
Definition enc_fv : TGFSFileVersion :=
  {| fv_id := "enc"; updated_at := fromtimestamp_ms 1; fv_size_field := zlen demo_ct; message_ids := [7];
     part_sizes := [zlen demo_ct]; mirrors := []; replicas := []; store := None; pending := false;
     cacheable := true; recorded_size := zlen demo_ct |}.

Definition enc_world : Live MemWorld :=
  {| lv_world := {| mw_docs := [("tg:1"%string, 7, demo_ct)]; mw_down := []; mw_texts := []; mw_next := 8; mw_clock := 0 |};
     lv_dead_until := 0 |}.

Definition enc_over_stores : EncRepo (Live MemWorld) :=
  {| er_inner := enc_world; er_master_key := demo_master; er_chunk_size := 4; er_name_key := None;
     er_cache := HeaderCache.new; er_entropy := fun _ => replicate 32 x01; er_draws := 0 |}.

Lemma enc_held : version_held demo_config (lv_world enc_world) enc_fv demo_ct [demo_ct].
Proof.
  split; [apply app_nil_r|done| |by intros k ids i m b ?%not_elem_of_nil|by intros k r ?%not_elem_of_nil].
  intros _ [|i] m b; simpl; [intros [= <-] [= <-] _; reflexivity|done].
Qed.

