(* ===== verification/Tee.v ===== *)
(** * Tee mirroring ([tgdcfs/core/tee.py])

    While the primary store reads an upload, every byte it takes is handed to
    one bounded branch per mirror that would otherwise download the version
    again.  The primary's uploader, [collect] and [abort] on one side and the
    upload task of every branch on the other run concurrently: the upload is
    a state machine, an event is what one of them does between two waits, and
    every interleaving is a sequence of events ([tee_run]). *)

From S2P Require Import Prelude Errors Messages FileVersion Stores FileContent Mirror FdRepo ContentStoreProps.

Open Scope Z_scope.
Open Scope py_scope.

(** ** [TeeBranch] *)

Record TeeBranch := {
  tb_key : string;
  tb_capacity : Z;
  tb_chunks : list bytes;
  tb_buffered : Z;
  tb_eof : bool;
  tb_detached : bool
}.

Definition tee_branch (key : string) (capacity : Z) : TeeBranch :=
  {| tb_key := key; tb_capacity := Z.max 1 capacity; tb_chunks := []; tb_buffered := 0; tb_eof := false; tb_detached := false |}.

(** [feed]: [None] while the branch is full and the producer waits; the
    condition is looked at again after every change. *)
Definition feed (data : bytes) (b : TeeBranch) : option TeeBranch :=
  if negb (nonempty data) || tb_detached b then Some b
  else if negb (tb_buffered b =? 0) && (tb_capacity b <? tb_buffered b + zlen data) then None
  else Some {| tb_key := tb_key b; tb_capacity := tb_capacity b; tb_chunks := tb_chunks b ++ [data];
               tb_buffered := tb_buffered b + zlen data; tb_eof := tb_eof b; tb_detached := false |}.

Definition finish (b : TeeBranch) : TeeBranch :=
  {| tb_key := tb_key b; tb_capacity := tb_capacity b; tb_chunks := tb_chunks b; tb_buffered := tb_buffered b;
     tb_eof := true; tb_detached := tb_detached b |}.

Definition detach (b : TeeBranch) : TeeBranch :=
  {| tb_key := tb_key b; tb_capacity := tb_capacity b; tb_chunks := []; tb_buffered := 0;
     tb_eof := tb_eof b; tb_detached := true |}.

(** One turn of [stream]. *)
Inductive turn := Waits | Ends | Fails (ex : exn) | Yields (data : bytes) (b : TeeBranch).

Definition stream_turn (b : TeeBranch) : turn :=
  if negb (nonempty (tb_chunks b)) && negb (tb_eof b) && negb (tb_detached b) then Waits
  else if tb_detached b then Fails (TechnicalError "tee branch was detached")
  else match tb_chunks b with
       | [] => Ends
       | data :: chunks =>
           Yields data {| tb_key := tb_key b; tb_capacity := tb_capacity b; tb_chunks := chunks;
                          tb_buffered := tb_buffered b - zlen data; tb_eof := tb_eof b; tb_detached := tb_detached b |}
       end.

(** ** [TeeFileMessage] and [TeeUpload] *)

(** The upload task of a branch: it still reads, the stream ended or failed
    under it, or it returned (and detached its branch). *)
Inductive task := Reading | SawEnd | SawError (ex : exn) | Returned.

(** A branch, what its task was given so far, and the task. *)
Record side := { sd_branch : TeeBranch; sd_got : list bytes; sd_task : task }.

(** What the coroutine that reads the message is doing: nothing (the uploader
    is between two reads), feeding the chunk it read into branch [i], calling
    [finish] or [detach] on branch [i]. *)
Inductive phase :=
| Between
| Feeding (data : bytes) (i : nat)
| Finishing (i : nat)
| Collecting (i : nat)
| Collected
| Aborting (i : nat)
| Aborted.

Section Tee.
  Context {M : Type} `{Uploadable M}.

Record TeeFileMessage := {
  tm_um : UploadableFileMessage;
  tm_inner : M;
  tm_total : Z;
  tm_fed : Z
}.

Definition tee_wrap (inner : M) : TeeFileMessage :=
  {| tm_um := {| um_name := um_name (um inner); um_size := get_size inner; um_caption := um_caption (um inner); um_offset := 0;
                 um_read_size := 0; um_version_id := um_version_id (um inner) |};
     tm_inner := inner; tm_total := get_size inner; tm_fed := 0 |}.

Definition tm_set_inner (m : M) (t : TeeFileMessage) : TeeFileMessage :=
  {| tm_um := tm_um t; tm_inner := m; tm_total := tm_total t; tm_fed := tm_fed t |}.

(** [next_part]: the base class is not called, [_read_size] stays. *)
Definition tee_next_part (n : Z) (t : TeeFileMessage) : TeeFileMessage :=
  {| tm_um := um_set_read (um_offset (tm_um t) + n) (um_read_size (tm_um t)) (tm_um t);
     tm_inner := next_part n (tm_inner t); tm_total := tm_total t; tm_fed := tm_fed t |}.

Definition tee_file_name (t : TeeFileMessage) : string :=
  if decide (um_name (tm_um t) = EmptyString) then file_name (tm_inner t) else um_name (tm_um t).

Record TeeUpload := {
  tu_message : TeeFileMessage;
  tu_sides : list side;
  tu_phase : phase;
  tu_seen : bytes                                (* everything read from the inner message *)
}.

Definition tee_upload (inner : M) (branches : list TeeBranch) : TeeUpload :=
  {| tu_message := tee_wrap inner; tu_sides := map (fun b => {| sd_branch := b; sd_got := []; sd_task := Reading |}) branches;
     tu_phase := Between; tu_seen := [] |}.

Definition tu_go (p : phase) (u : TeeUpload) : TeeUpload :=
  {| tu_message := tu_message u; tu_sides := tu_sides u; tu_phase := p; tu_seen := tu_seen u |}.
Definition tu_with (t : TeeFileMessage) (u : TeeUpload) : TeeUpload :=
  {| tu_message := t; tu_sides := tu_sides u; tu_phase := tu_phase u; tu_seen := tu_seen u |}.
Definition tu_side (i : nat) (sd : side) (u : TeeUpload) : TeeUpload :=
  {| tu_message := tu_message u; tu_sides := <[i := sd]> (tu_sides u); tu_phase := tu_phase u; tu_seen := tu_seen u |}.
Definition on_branch (b : TeeBranch) (sd : side) : side := {| sd_branch := b; sd_got := sd_got sd; sd_task := sd_task sd |}.
Definition task_goes (t : task) (sd : side) : side := {| sd_branch := sd_branch sd; sd_got := sd_got sd; sd_task := t |}.

(** [read(length)], up to the first branch. *)
Definition read_begin (length : Z) (u : TeeUpload) : TeeUpload :=
  match um_read length (tm_inner (tu_message u)) with
  | (Raise _, m) => tu_with (tm_set_inner m (tu_message u)) u
  | (Ok data, m) =>
      let t := tm_set_inner m (tu_message u) in
      if nonempty data then
        {| tu_message := {| tm_um := tm_um t; tm_inner := tm_inner t; tm_total := tm_total t; tm_fed := tm_fed t + zlen data |};
           tu_sides := tu_sides u; tu_phase := Feeding data 0; tu_seen := tu_seen u ++ data |}
      else tu_with t u
  end.

(** The next step of [read], [collect] or [abort] along the branches. *)
Definition producer_step (u : TeeUpload) : option TeeUpload :=
  match tu_phase u with
  | Feeding data i =>
      match tu_sides u !! i with
      | Some sd => match feed data (sd_branch sd) with
                   | Some b => Some (tu_go (Feeding data (S i)) (tu_side i (on_branch b sd) u))
                   | None => None
                   end
      | None => Some (tu_go (if tm_total (tu_message u) <=? tm_fed (tu_message u) then Finishing 0 else Between) u)
      end
  | Finishing i =>
      Some match tu_sides u !! i with
           | Some sd => tu_go (Finishing (S i)) (tu_side i (on_branch (finish (sd_branch sd)) sd) u)
           | None => tu_go Between u
           end
  | Collecting i =>
      Some match tu_sides u !! i with
           | Some sd => tu_go (Collecting (S i)) (tu_side i (on_branch (finish (sd_branch sd)) sd) u)
           | None => tu_go Collected u
           end
  | Aborting i =>
      Some match tu_sides u !! i with
           | Some sd => tu_go (Aborting (S i)) (tu_side i (on_branch (detach (sd_branch sd)) sd) u)
           | None => tu_go Aborted u
           end
  | Between | Collected | Aborted => None
  end.

(** The task of branch [i] asks its stream for the next chunk. *)
Definition take_step (i : nat) (u : TeeUpload) : option TeeUpload :=
  match tu_sides u !! i with
  | Some sd =>
      match sd_task sd, stream_turn (sd_branch sd) with
      | Reading, Ends => Some (tu_side i (task_goes SawEnd sd) u)
      | Reading, Fails ex => Some (tu_side i (task_goes (SawError ex) sd) u)
      | Reading, Yields data b =>
          Some (tu_side i {| sd_branch := b; sd_got := sd_got sd ++ [data]; sd_task := Reading |} u)
      | _, _ => None
      end
  | None => None
  end.

(** The upload of branch [i] returns, fails or is cancelled: [finally]. *)
Definition leave_step (i : nat) (u : TeeUpload) : option TeeUpload :=
  match tu_sides u !! i with
  | Some sd =>
      match sd_task sd with
      | Returned => None
      | _ => Some (tu_side i (task_goes Returned (on_branch (detach (sd_branch sd)) sd)) u)
      end
  | None => None
  end.

Inductive event :=
| Read (length : Z)                              (* the uploader reads the message *)
| Open | Close | NextPart (n : Z)                (* its other calls; an exception is the uploader's *)
| Go                                             (* the producer's next step *)
| Take (i : nat) | Leave (i : nat)               (* the task of branch [i] *)
| Collect                                        (* the upload succeeded *)
| Abort.                                         (* it failed, possibly inside a read *)

Definition tee_event (e : event) (u : TeeUpload) : option TeeUpload :=
  match e, tu_phase u with
  | Read length, Between => if 0 <=? length then Some (read_begin length u) else None
  | Open, Between => Some (tu_with (tm_set_inner (um_open (tm_inner (tu_message u))).2 (tu_message u)) u)
  | Close, Between => Some (tu_with (tm_set_inner (um_close (tm_inner (tu_message u))).2 (tu_message u)) u)
  | NextPart n, Between => Some (tu_with (tee_next_part n (tu_message u)) u)
  | Go, _ => producer_step u
  | Take i, _ => take_step i u
  | Leave i, _ => leave_step i u
  | Collect, Between => Some (tu_go (Collecting 0) u)
  | Abort, (Between | Feeding _ _ | Finishing _) => Some (tu_go (Aborting 0) u)
  | _, _ => None
  end.

(** A run: [None] when an event was not enabled. *)
Fixpoint tee_run (es : list event) (u : TeeUpload) : option TeeUpload :=
  match es with
  | [] => Some u
  | e :: es => match tee_event e u with Some u => tee_run es u | None => None end
  end.

End Tee.
Arguments TeeFileMessage : clear implicits.
Arguments TeeUpload : clear implicits.

(** ** Around the upload ([core/mirror.py], [save]) *)

Section Save.
  Context {W : Type} `{Stores W} (mg : MirrorGroup).

(** [MirrorGroup.tee]. *)
Definition tee {M} `{Uploadable M} (file_msg : M) (buffer_bytes : Z) : option (TeeUpload M) :=
  let targets := tee_targets mg in
  if negb (nonempty targets) || (get_size file_msg <=? 0) then None
  else Some (tee_upload file_msg (map (fun key => tee_branch key buffer_bytes) targets)).

(** [upload_into(ch)(branch)], once the stream it reads is known. *)
Definition upload_into (key : string) (s : stream) (size : Z) (name : string) : st exn W Replica :=
  let! sent := st_upload key FileMessageFromStream stream_uploadable (stream_message s size ("replica-" +:+ name)) in
  sret (replica_of sent).

(** The end of [save]: the primary's messages are [res], the tasks of the tee
    came to [results]. *)
Definition save_collect (res : list SentFileMessage) (results : list (string * exc Replica)) : st exn W (list SentFileMessage) :=
  if negb (nonempty res) then sret res
  else
    let! replicas := collect_tee mg results [] in
    let res := attach_replicas replicas res in
    let only_stores := List.filter (fun key => negb (bool_decide (key ∈ map fst results))) (mg_stores mg) in
    let! copies := mirror_parts mg (map sm_message_id res) (Some (map sm_size res)) (Some only_stores) None None in
    sret (attach_copies copies res).

End Save.
