(* ===== verification/TeeProps.v ===== *)
(** * Tee mirroring is exact

    Whatever the interleaving, a mirror's task is given a prefix of what the
    primary read, in order; when its stream ends it has all of it; a branch
    never buffers more than its capacity (or one chunk), and a full branch
    never blocks the upload for good. *)

From S2P Require Import Prelude Errors Messages FileVersion FileVersionProps Contents Stores FileContent FileContentProps Mirror MirrorProps FdRepo ContentStoreProps Tee.

Open Scope Z_scope.

(** What was read of a message, whatever else was called on it; a call may
    also have raised. *)
Inductive consumed {M : Type} `{Uploadable M} (m0 : M) : bytes -> M -> Prop :=
| consumed_none : consumed m0 [] m0
| consumed_open c m : consumed m0 c m -> consumed m0 c (um_open m).2
| consumed_close c m : consumed m0 c m -> consumed m0 c (um_close m).2
| consumed_next n c m : consumed m0 c m -> consumed m0 c (next_part n m)
| consumed_read n c m p m1 : consumed m0 c m -> 0 <= n -> um_read n m = (Ok p, m1) -> consumed m0 (c ++ p) m1
| consumed_fail n c m ex m1 : consumed m0 c m -> 0 <= n -> um_read n m = (Raise ex, m1) -> consumed m0 c m1.

(** A message that never delivers more than its size. *)
Definition within_size {M : Type} `{Uploadable M} (m : M) : Prop :=
  forall c m', consumed m c m' -> zlen c <= get_size m.

(** A stream that is shorter than the size it is uploaded with. *)
Lemma upload_short {W} `{WriteLaws W} k s size name (w : W) :
  zlen (stream_bytes s) < size ->
  safe (st_upload k FileMessageFromStream stream_uploadable (stream_message s size name)) w (fun _ _ => False).
Proof.
  intros Hs. unfold safe. pose proof (upload_law w k _ stream_uploadable (stream_message s size name)) as Hl.
  destruct (st_upload k _ _ _ w) as [[sent|x] w1]; destruct Hl as (Hk & _ & Hsent); [|done]. split; [done|].
  destruct Hsent as (c & m' & bs & Hr & Hlen & _). pose proof (zlen_nonneg (stream_bytes s)).
  apply stream_reads in Hr as [t Ht]; [|simpl; lia]. apply (f_equal zlen) in Ht. simpl in Ht.
  rewrite zlen_app in Ht. pose proof (zlen_nonneg t). unfold get_size in Hlen. simpl in Hlen.
  unfold stream_bytes in *. destruct (size =? 0) eqn:?; lia.
Qed.

Definition waiting_for (p : phase) (i : nat) : bytes :=
  match p with Feeding data j => if (j <=? i)%nat then data else [] | _ => [] end.

Definition is_over (p : phase) : bool :=
  match p with Collecting _ | Collected | Aborting _ | Aborted => true | _ => false end.

Definition is_abort (p : phase) : bool := match p with Aborting _ | Aborted => true | _ => false end.

(** From [p] to [p'] in the order of an upload. *)
Definition later (p p' : phase) : Prop :=
  (is_over p = true -> is_over p' = true) /\ (is_abort p = true -> is_abort p' = true).

Record side_ok (total : Z) (seen : bytes) (p : phase) (i : nat) (sd : side) : Prop := {
  so_capacity : 0 < tb_capacity (sd_branch sd);
  so_count : tb_buffered (sd_branch sd) = zlen (concat (tb_chunks (sd_branch sd)));
  so_chunks : Forall (fun c => c <> []) (tb_chunks (sd_branch sd));
  so_room : tb_buffered (sd_branch sd) <= tb_capacity (sd_branch sd) \/ exists c, tb_chunks (sd_branch sd) = [c];
  so_detached : tb_detached (sd_branch sd) = true -> tb_chunks (sd_branch sd) = [] /\ exists t, concat (sd_got sd) ++ t = seen;
  so_flow : tb_detached (sd_branch sd) = false -> exists t, concat (sd_got sd) ++ concat (tb_chunks (sd_branch sd)) ++ t = seen /\
    (is_abort p = false \/ tb_eof (sd_branch sd) = true -> t = waiting_for p i);
  so_eof : tb_eof (sd_branch sd) = true -> (total <= zlen seen \/ is_over p = true) /\ waiting_for p i = [];
  so_end : sd_task sd = SawEnd -> tb_eof (sd_branch sd) = true /\ concat (sd_got sd) = seen;
  so_gone : sd_task sd = Returned \/ (exists ex, sd_task sd = SawError ex) -> tb_detached (sd_branch sd) = true
}.

Section Machine.
  Context {M : Type} `{Uploadable M} (inner : M) (Hsize : within_size inner).

Record tee_ok (u : TeeUpload M) : Prop := {
  to_total : tm_total (tu_message u) = get_size inner;
  to_fed : tm_fed (tu_message u) = zlen (tu_seen u);
  to_read : consumed inner (tu_seen u) (tm_inner (tu_message u));
  to_data : match tu_phase u with Feeding data _ => data <> [] | _ => True end;
  to_finish : match tu_phase u with Finishing _ => get_size inner <= zlen (tu_seen u) | _ => True end;
  to_sides : forall i sd, tu_sides u !! i = Some sd -> side_ok (get_size inner) (tu_seen u) (tu_phase u) i sd
}.

Lemma tee_init_ok branches capacity : tee_ok (tee_upload inner (map (fun k => tee_branch k capacity) branches)).
Proof.
  constructor; try done. { apply consumed_none. } intros i sd. simpl. rewrite map_map, list_lookup_fmap.
  destruct (branches !! i); [|done]. simpl. intros [= <-].
  constructor; simpl; try done; try lia; [by exists []|by intros [|[]]].
Qed.

(** ** A side that changes, and the others *)

Lemma side_ok_phase total seen p p' i sd :
  side_ok total seen p i sd -> waiting_for p' i = waiting_for p i -> later p p' -> side_ok total seen p' i sd.
Proof.
  intros [? ? ? ? ? Hf He ? ?] Hw [Ho Ha]. constructor; try done.
  - intros Hx. destruct (Hf Hx) as (t & Ht & Hp). exists t. split; [done|]. rewrite Hw. intros [Hap|Hap]; apply Hp; [left|by right].
    destruct (is_abort p); [|done]. by rewrite Ha in Hap.
  - intros Hx. rewrite Hw. destruct (He Hx) as [[?|?] ?]; (split; [|done]); [by left|right; by apply Ho].
Qed.

Lemma waiting_fed data i : waiting_for (Feeding data (S i)) i = [].
Proof. unfold waiting_for. by rewrite (proj2 (Nat.leb_gt _ _)) by lia. Qed.

Lemma feed_side total seen data i j sd b :
  data <> [] -> j = i -> feed data (sd_branch sd) = Some b ->
  side_ok total seen (Feeding data j) i sd -> side_ok total seen (Feeding data (S j)) i (on_branch b sd).
Proof.
  intros Hd -> Hb [Hc Hn Hch Hr Hdt Hf He Hse Hg]. unfold feed in Hb. pose proof (waiting_fed data i) as Hw.
  simpl in Hf, He. rewrite Nat.leb_refl in Hf, He. assert (nonempty data = true) as Hne by (by destruct data).
  rewrite Hne in Hb. simpl in Hb. destruct (tb_detached (sd_branch sd)) eqn:Ht.
  - injection Hb as <-. constructor; simpl; try done; rewrite ?Ht; try done.
    intros Hx. by destruct (He Hx).
  - destruct (negb (tb_buffered (sd_branch sd) =? 0) && _) eqn:Hfull; [done|]. injection Hb as <-.
    assert (tb_eof (sd_branch sd) = false) as Hne2 by (destruct (tb_eof _) eqn:Hx; [by destruct (He eq_refl)|done]).
    constructor; simpl; try done.
    + rewrite concat_app, zlen_app, Hn. simpl. by rewrite app_nil_r.
    + apply Forall_app. split; [done|]. by constructor.
    + apply andb_false_iff in Hfull as [Hz%negb_false_iff%Z.eqb_eq|Hz%Z.ltb_ge]; [|by left].
      right. exists data. rewrite Hn in Hz. destruct (tb_chunks (sd_branch sd)) as [|c l]; [done|].
      apply Forall_cons in Hch as [Hc1 _]. apply zlen_pos in Hc1. simpl in Hz. rewrite zlen_app in Hz.
      pose proof (zlen_nonneg (concat l)). lia.
    + intros _. destruct (Hf eq_refl) as (t & <- & Htw). rewrite Htw by (by left). exists []. split.
      * rewrite concat_app. simpl. by rewrite !app_nil_r.
      * intros _. symmetry. exact Hw.
    + congruence.
Qed.


Lemma finish_side total seen p p' i sd :
  side_ok total seen p i sd -> is_abort p = false -> waiting_for p i = [] -> waiting_for p' i = [] -> total <= zlen seen \/ is_over p' = true ->
  side_ok total seen p' i (on_branch (finish (sd_branch sd)) sd).
Proof.
  intros [? ? ? ? ? Hf He Hse ?] Hna Hw Hw' Hdone. constructor; simpl; try done.
  - intros Hx. destruct (Hf Hx) as (t & Ht & Htw). exists t. split; [done|]. intros _. rewrite Hw', <- Hw. apply Htw. by left.
  - intros Hx. by destruct (Hse Hx).
Qed.

Lemma detached_side total seen p p' i sd b t :
  side_ok total seen p i sd -> waiting_for p' i = waiting_for p i \/ waiting_for p' i = [] -> later p p' ->
  b = detach (sd_branch sd) -> (t = sd_task sd \/ t = Returned) ->
  side_ok total seen p' i {| sd_branch := b; sd_got := sd_got sd; sd_task := t |}.
Proof.
  intros [Hc Hn Hch Hr Hdt Hf He Hse Hg] Hw [Ho Ha] -> Ht. constructor; simpl; try done; try lia.
  - intros _. split; [done|]. destruct (tb_detached (sd_branch sd)); [by apply Hdt|].
    destruct (Hf eq_refl) as (t' & <- & _). by eexists.
  - intros Hx. destruct (He Hx) as [Hor Hwn]. split; [|destruct Hw as [-> | ->]; done].
    destruct Hor as [?|?]; [by left|right; by apply Ho].
  - destruct Ht as [->| ->]; [apply Hse|done].
Qed.

(** ** Every event keeps the invariant *)

(** Side [i] and the phase change, the other sides do not notice. *)
Lemma tee_ok_at u i sd sd' p' :
  tee_ok u -> tu_sides u !! i = Some sd -> side_ok (get_size inner) (tu_seen u) p' i sd' ->
  (forall j, j <> i -> waiting_for p' j = waiting_for (tu_phase u) j) -> later (tu_phase u) p' ->
  match p' with Feeding data _ => data <> [] | _ => True end ->
  match p' with Finishing _ => get_size inner <= zlen (tu_seen u) | _ => True end ->
  tee_ok (tu_go p' (tu_side i sd' u)).
Proof.
  intros [Ht Hf Hr Hd Hfi Hs] Hi Hok Hw Ho Hd' Hf'. constructor; try done. simpl.
  intros j sdj [(-> & <- & _)|[Hne Hj]]%list_lookup_insert_Some; [done|].
  eapply side_ok_phase; [by apply Hs|by apply Hw|done].
Qed.

(** Only the phase changes. *)
Lemma tee_ok_go u p' :
  tee_ok u -> (forall j sd, tu_sides u !! j = Some sd -> waiting_for p' j = waiting_for (tu_phase u) j) ->
  later (tu_phase u) p' ->
  match p' with Feeding data _ => data <> [] | _ => True end ->
  match p' with Finishing _ => get_size inner <= zlen (tu_seen u) | _ => True end ->
  tee_ok (tu_go p' u).
Proof.
  intros [Ht Hf Hr Hd Hfi Hs] Hw Ho Hd' Hf'. constructor; try done. simpl.
  intros j sd Hj. eapply side_ok_phase; [by apply Hs|by eapply Hw|done].
Qed.

(** Past the last branch nobody waits for the chunk. *)
Lemma waiting_past data i (l : list side) j sd : l !! i = None -> l !! j = Some sd -> waiting_for (Feeding data i) j = [].
Proof.
  intros Hi Hj. apply lookup_ge_None in Hi. apply lookup_lt_Some in Hj. simpl. by rewrite (proj2 (Nat.leb_gt _ _)) by lia.
Qed.

Lemma waiting_others data i j : j <> i -> waiting_for (Feeding data (S i)) j = waiting_for (Feeding data i) j.
Proof. intros. unfold waiting_for. destruct (Nat.leb_spec (S i) j), (Nat.leb_spec i j); (done || lia). Qed.

Lemma producer_step_ok u u' : tee_ok u -> producer_step u = Some u' -> tee_ok u'.
Proof.
  intros Hok. pose proof Hok as [Ht Hf Hr Hd Hfi Hs]. unfold producer_step.
  destruct (tu_phase u) as [|data i|i|i| |i|] eqn:Hp; try done; destruct (tu_sides u !! i) as [sd|] eqn:Hi.
  - destruct (feed data (sd_branch sd)) as [b|] eqn:Hb; [|done]. intros [= <-].
    eapply tee_ok_at; try done; rewrite ?Hp; try done.
    + by eapply feed_side; [| |exact Hb|apply Hs].
    + intros j Hj. by apply waiting_others.
  - intros [= <-]. apply tee_ok_go; try done.
    + intros j sd Hj. rewrite Hp, (waiting_past data i _ _ _ Hi Hj). by destruct (_ <=? _).
    + by rewrite Hp.
    + by destruct (_ <=? _).
    + rewrite Ht, Hf. destruct (_ <=? _) eqn:Hle; [|done]. by apply Z.leb_le.
  - intros [= <-]. eapply tee_ok_at; try done; rewrite ?Hp; try done.
    eapply finish_side; [by apply Hs|done|done|done|by left].
  - intros [= <-]. apply tee_ok_go; try done; rewrite ?Hp; done.
  - intros [= <-]. eapply tee_ok_at; try done; rewrite ?Hp; try done.
    eapply finish_side; [by apply Hs|done|done|done|by right].
  - intros [= <-]. apply tee_ok_go; try done; rewrite ?Hp; done.
  - intros [= <-]. eapply tee_ok_at; try done; rewrite ?Hp; try done.
    by eapply detached_side; [apply Hs|left| |..|left].
  - intros [= <-]. apply tee_ok_go; try done; rewrite ?Hp; done.
Qed.

Lemma tee_ok_side u i sd sd' :
  tee_ok u -> tu_sides u !! i = Some sd -> side_ok (get_size inner) (tu_seen u) (tu_phase u) i sd' -> tee_ok (tu_side i sd' u).
Proof. intros Hok Hi Hs. pose proof Hok as [_ _ _ Hd Hf _]. by apply (tee_ok_at u i sd sd' (tu_phase u)). Qed.

Lemma take_step_ok u i u' : tee_ok u -> take_step i u = Some u' -> tee_ok u'.
Proof.
  intros Hok. unfold take_step. destruct (tu_sides u !! i) as [sd|] eqn:Hi; [|done].
  destruct (sd_task sd) eqn:Ht; try done. pose proof (to_sides u Hok i sd Hi) as [Hc Hn Hch Hr Hdt Hf He Hse Hg].
  unfold stream_turn. destruct (negb _ && _ && _) eqn:Hw; [done|]. destruct (tb_detached (sd_branch sd)) eqn:Hd.
  - intros [= <-]. eapply tee_ok_side; [done..|]. constructor; simpl; rewrite ?Hd; done.
  - destruct (tb_chunks (sd_branch sd)) as [|c cs] eqn:Hcs; intros [= <-]; (eapply tee_ok_side; [done..|]).
    + simpl in Hw. apply andb_false_iff in Hw as [Hw%negb_false_iff|Hw]; [|done]. destruct (He Hw) as [_ Hwn].
      destruct (Hf eq_refl) as (t & Hts & Htw). rewrite Htw, Hwn in Hts by (by right). simpl in Hts. rewrite app_nil_r in Hts.
      constructor; simpl; rewrite ?Hcs, ?Hd; try done.
      by intros [?|[??]].
    + apply Forall_cons in Hch as [Hc1 Hch]. destruct (Hf eq_refl) as (t & Hts & Htw). simpl in Hn, Hts. rewrite zlen_app in Hn.
      pose proof (zlen_nonneg (concat cs)). constructor; simpl; rewrite ?Hd; try done; try lia.
      * destruct Hr as [?|[c' [= -> ->]]]; [left; pose proof (zlen_nonneg c); lia|left; simpl in Hn; rewrite zlen_nil in Hn; lia].
      * intros _. exists t. split; [|done]. rewrite concat_app. simpl. by rewrite app_nil_r, <- Hts, <- !app_assoc.
      * by intros [?|[??]].
Qed.

Lemma leave_step_ok u i u' : tee_ok u -> leave_step i u = Some u' -> tee_ok u'.
Proof.
  intros Hok. unfold leave_step. destruct (tu_sides u !! i) as [sd|] eqn:Hi; [|done].
  pose proof (to_sides u Hok i sd Hi) as Hs.
  assert (side_ok (get_size inner) (tu_seen u) (tu_phase u) i (task_goes Returned (on_branch (detach (sd_branch sd)) sd))) as Hd.
  { exact (detached_side _ _ _ _ _ sd _ Returned Hs (or_introl eq_refl) (conj (fun x => x) (fun x => x)) eq_refl (or_intror eq_refl)). }
  destruct (sd_task sd); try done; intros [= <-]; by eapply tee_ok_side.
Qed.

(** A read that is cancelled leaves branches without the chunk; none of them
    was told that the stream ended. *)
Lemma abort_ok u data i : tee_ok u -> tu_phase u = Feeding data i -> tee_ok (tu_go (Aborting 0) u).
Proof.
  intros [Ht Hf Hr Hd Hfi Hs] Hp. constructor; try done. simpl. intros j sd Hj.
  pose proof (Hs j sd Hj) as [Hc Hn Hch Hro Hdt Hfl He Hse Hg]. rewrite Hp in *. constructor; try done.
  - intros Hx. destruct (Hfl Hx) as (t & Hts & Htw). exists t. split; [done|]. intros [?|Hx2]; [done|].
    rewrite Htw by (by left). by destruct (He Hx2).
  - intros Hx. by destruct (He Hx) as [[?|?] ?]; (split; [|done]); [left|right].
Qed.

(** More bytes were read of the inner message: nobody had seen the end. *)
Lemma side_ok_read seen data i sd p :
  side_ok (get_size inner) seen p i sd -> is_over p = false -> waiting_for p i = [] -> data <> [] ->
  zlen (seen ++ data) <= get_size inner -> side_ok (get_size inner) (seen ++ data) (Feeding data 0) i sd.
Proof.
  intros [Hc Hn Hch Hr Hdt Hf He Hse Hg] Hp Hw Hd Hlen. apply zlen_pos in Hd. rewrite zlen_app in Hlen.
  assert (tb_eof (sd_branch sd) = false) as Hne.
  { destruct (tb_eof (sd_branch sd)); [|done]. destruct (He eq_refl) as [[?|?] _]; [lia|congruence]. }
  constructor; try done.
  - intros Hx. destruct (Hdt Hx) as [Hcs [t <-]]. split; [done|]. exists (t ++ data). by rewrite app_assoc.
  - intros Hx. destruct (Hf Hx) as (t & Hts & Htw). rewrite Htw, Hw, app_nil_r in Hts by (left; by destruct p).
    exists data. split; [|done]. by rewrite app_assoc, Hts.
  - congruence.
  - intros Hx. destruct (Hse Hx). congruence.
Qed.

Lemma read_begin_ok u n : tee_ok u -> tu_phase u = Between -> 0 <= n -> tee_ok (read_begin n u).
Proof.
  intros [Ht Hf Hr Hd Hfi Hs] Hp Hn. unfold read_begin. destruct (um_read n _) as [[data|ex] m] eqn:Hrd.
  - assert (consumed inner (tu_seen u ++ data) m) as Hc by (by eapply consumed_read).
    destruct data as [|x data]; simpl.
    + rewrite app_nil_r in Hc. by constructor.
    + constructor; simpl; try done; [rewrite Hf; rewrite zlen_app; done|].
      intros i sd Hi. eapply side_ok_read; [by apply Hs|by rewrite Hp|by rewrite Hp|done|by eapply Hsize].
  - assert (consumed inner (tu_seen u) m) as Hc by (by eapply consumed_fail). by constructor.
Qed.

Lemma tee_ok_message u t :
  tee_ok u -> tm_total t = tm_total (tu_message u) -> tm_fed t = tm_fed (tu_message u) -> consumed inner (tu_seen u) (tm_inner t) ->
  tee_ok (tu_with t u).
Proof. intros [Ht Hf Hr Hd Hfi Hs] Ht' Hf' Hc. constructor; simpl; [congruence|congruence|done..]. Qed.

Lemma tee_event_ok e u u' : tee_ok u -> tee_event e u = Some u' -> tee_ok u'.
Proof.
  intros Hok. pose proof (to_read u Hok) as Hc. destruct e; simpl.
  - destruct (tu_phase u) eqn:Hp; try done. destruct (0 <=? length) eqn:Hl; [|done]. intros [= <-].
    apply read_begin_ok; [done..|]. by apply Z.leb_le.
  - destruct (tu_phase u); try done. intros [= <-]. apply tee_ok_message; try done. by apply consumed_open.
  - destruct (tu_phase u); try done. intros [= <-]. apply tee_ok_message; try done. by apply consumed_close.
  - destruct (tu_phase u); try done. intros [= <-]. apply tee_ok_message; try done. by apply consumed_next.
  - by apply producer_step_ok.
  - by apply take_step_ok.
  - by apply leave_step_ok.
  - destruct (tu_phase u) eqn:Hp; try done. intros [= <-]. apply tee_ok_go; rewrite ?Hp; done.
  - destruct (tu_phase u) eqn:Hp; try done; intros [= <-].
    + apply tee_ok_go; rewrite ?Hp; done.
    + by eapply abort_ok.
    + apply tee_ok_go; rewrite ?Hp; done.
Qed.

Lemma tee_run_ok es u u' : tee_ok u -> tee_run es u = Some u' -> tee_ok u'.
Proof.
  revert u. induction es as [|e es IH]; intros u Hok; simpl; [by intros [= <-]|].
  destruct (tee_event e u) as [u1|] eqn:He; [|done]. intros Hr. eapply IH; [|exact Hr]. by eapply tee_event_ok.
Qed.

Lemma tee_reachable es branches capacity u :
  tee_run es (tee_upload inner (map (fun k => tee_branch k capacity) branches)) = Some u -> tee_ok u.
Proof. intros Hr. eapply tee_run_ok; [apply tee_init_ok|exact Hr]. Qed.

(** What side [i] was given is a prefix of what was read. *)
Lemma got_prefix u i sd : tee_ok u -> tu_sides u !! i = Some sd -> exists t, concat (sd_got sd) ++ t = tu_seen u.
Proof.
  intros Hok Hi. pose proof (to_sides u Hok i sd Hi) as Hs. destruct (tb_detached (sd_branch sd)) eqn:Hd.
  - by apply (so_detached _ _ _ _ _ Hs).
  - destruct (so_flow _ _ _ _ _ Hs Hd) as (t & Ht & _). by eexists.
Qed.

(** ** No deadlock *)

(** The producer waits for a branch whose task is reading and finds a chunk. *)
Lemma blocked_branch u data i :
  tee_ok u -> tu_phase u = Feeding data i -> producer_step u = None ->
  exists sd c cs, tu_sides u !! i = Some sd /\ sd_task sd = Reading /\ tb_detached (sd_branch sd) = false /\
    tb_chunks (sd_branch sd) = c :: cs.
Proof.
  intros Hok Hp. unfold producer_step. rewrite Hp. destruct (tu_sides u !! i) as [sd|] eqn:Hi; [|done].
  pose proof (to_sides u Hok i sd Hi) as [Hc Hn Hch Hr Hdt Hf He Hse Hg]. pose proof (to_data u Hok) as Hd. rewrite Hp in He, Hd.
  unfold feed. destruct (negb (nonempty data)) eqn:Hne; [done|]. simpl.
  destruct (tb_detached (sd_branch sd)) eqn:Hdet; [done|]. destruct (_ && _) eqn:Hfull; [|done]. intros _.
  apply andb_true_iff in Hfull as [Hz%negb_true_iff%Z.eqb_neq _]. rewrite Hn in Hz.
  destruct (tb_chunks (sd_branch sd)) as [|c cs] eqn:Hcs; [done|].
  exists sd, c, cs. split; [done|]. split; [|by rewrite Hcs].
  assert (tb_eof (sd_branch sd) = false) as Hnot.
  { destruct (tb_eof (sd_branch sd)); [|done]. destruct (He eq_refl) as [_ Hw]. simpl in Hw. by rewrite Nat.leb_refl in Hw. }
  destruct (sd_task sd) as [| |ex|] eqn:Ht; [done| | |].
  - destruct (Hse eq_refl). congruence.
  - exfalso. specialize (Hg (or_intror (ex_intro _ ex eq_refl))). done.
  - exfalso. specialize (Hg (or_introl eq_refl)). done.
Qed.

(** A turn of a task that finds a chunk. *)
Lemma take_chunk (u : TeeUpload M) i sd c cs :
  tu_sides u !! i = Some sd -> sd_task sd = Reading -> tb_detached (sd_branch sd) = false -> tb_chunks (sd_branch sd) = c :: cs ->
  exists u' sd', take_step i u = Some u' /\ tu_phase u' = tu_phase u /\ tu_sides u' !! i = Some sd' /\ tb_chunks (sd_branch sd') = cs.
Proof.
  intros Hi Ht Hd Hc. unfold take_step, stream_turn. rewrite Hi, Ht, Hc, Hd. simpl.
  eexists _, _. split; [done|]. split; [done|]. simpl. split; [|shelve].
  rewrite list_lookup_insert_eq by (by eapply lookup_lt_Some). reflexivity.
  Unshelve. done.
Qed.

Lemma unblock n : forall (u : TeeUpload M) data i sd,
  tee_ok u -> tu_phase u = Feeding data i -> tu_sides u !! i = Some sd -> (length (tb_chunks (sd_branch sd)) <= n)%nat ->
  exists k u', (k <= n)%nat /\ tee_run (replicate k (Take i) ++ [Go]) u = Some u'.
Proof.
  induction n as [|n IH]; intros u data i sd Hok Hp Hi Hl; (destruct (producer_step u) as [u1|] eqn:Hs; [exists 0%nat, u1; split; [lia|]; simpl; by rewrite Hs|]);
    destruct (blocked_branch u data i Hok Hp Hs) as (sd1 & c & cs & Hi1 & Ht & Hd & Hc); simplify_eq; rewrite Hc in Hl; simpl in Hl; [lia|].
  destruct (take_chunk u i sd c cs Hi Ht Hd Hc) as (u1 & sd1 & Hu1 & Hp1 & Hi1 & Hc1).
  destruct (IH u1 data i sd1) as (k & u2 & Hk & Hrun); [by eapply take_step_ok|congruence|done|rewrite Hc1; lia|].
  exists (S k), u2. split; [lia|]. simpl. by rewrite Hu1.
Qed.

(** Branches that [collect] or [abort] has told stay told. *)
Definition told (p : phase) (i : nat) (sd : side) : Prop :=
  match p with
  | Collecting n => (i < n)%nat -> tb_eof (sd_branch sd) = true
  | Collected => tb_eof (sd_branch sd) = true
  | Aborting n => (i < n)%nat -> tb_detached (sd_branch sd) = true
  | Aborted => tb_detached (sd_branch sd) = true
  | _ => True
  end.

Definition all_told (u : TeeUpload M) : Prop := forall i sd, tu_sides u !! i = Some sd -> told (tu_phase u) i sd.

Lemma told_side (u : TeeUpload M) i sd sd' :
  all_told u -> tu_sides u !! i = Some sd ->
  (tb_eof (sd_branch sd) = true -> tb_eof (sd_branch sd') = true) ->
  (tb_detached (sd_branch sd) = true -> tb_detached (sd_branch sd') = true) -> all_told (tu_side i sd' u).
Proof.
  intros Hall Hi He Hd j sdj. simpl. intros [(-> & <- & _)|[Hne Hj]]%list_lookup_insert_Some; [|by apply Hall].
  specialize (Hall j sd Hi). unfold told in *. destruct (tu_phase u); auto.
Qed.

Lemma told_next (u : TeeUpload M) p' n sd sd' :
  all_told u -> tu_sides u !! n = Some sd -> told p' n sd' ->
  (forall j x, j <> n -> told (tu_phase u) j x -> told p' j x) -> all_told (tu_go p' (tu_side n sd' u)).
Proof.
  intros Hall Hn Hs Ho j sdj. simpl. intros [(-> & <- & _)|[Hne Hj]]%list_lookup_insert_Some; [done|].
  apply Ho; [done|]. by apply Hall.
Qed.

Lemma told_last (u : TeeUpload M) p' n :
  all_told u -> tu_sides u !! n = None -> (forall j x, (j < n)%nat -> told (tu_phase u) j x -> told p' j x) -> all_told (tu_go p' u).
Proof.
  intros Hall Hn Ho j sdj Hj. simpl in *. apply Ho; [|by apply Hall]. apply lookup_ge_None in Hn.
  apply lookup_lt_Some in Hj. lia.
Qed.

Lemma told_producer (u u' : TeeUpload M) : all_told u -> producer_step u = Some u' -> all_told u'.
Proof.
  intros Hall. unfold producer_step. destruct (tu_phase u) as [|data i|i|i| |i|] eqn:Hp; try done; destruct (tu_sides u !! i) as [sd|] eqn:Hi.
  - destruct (feed data (sd_branch sd)) as [b|]; [|done]. intros [= <-]. by eapply told_next.
  - intros [= <-] j sdj Hj. simpl. by destruct (_ <=? _).
  - intros [= <-]. by eapply told_next.
  - by intros [= <-] j sdj Hj.
  - intros [= <-]. eapply told_next; [done..|]. rewrite Hp. simpl. intros j x Hne Hx Hlt. apply Hx. lia.
  - intros [= <-]. eapply told_last; [done..|]. rewrite Hp. simpl. auto.
  - intros [= <-]. eapply told_next; [done..|]. rewrite Hp. simpl. intros j x Hne Hx Hlt. apply Hx. lia.
  - intros [= <-]. eapply told_last; [done..|]. rewrite Hp. simpl. auto.
Qed.

Lemma told_event e (u u' : TeeUpload M) : all_told u -> tee_event e u = Some u' -> all_told u'.
Proof.
  intros Hall. destruct e; simpl.
  - destruct (tu_phase u) eqn:Hp; try done. destruct (0 <=? length); [|done]. intros [= <-]. unfold read_begin.
    destruct (um_read _ _) as [[[|x data]|ex] m]; intros i sd Hi; simpl in *; rewrite ?Hp; done.
  - destruct (tu_phase u) eqn:Hp; try done. intros [= <-] i sd Hi. simpl. by rewrite Hp.
  - destruct (tu_phase u) eqn:Hp; try done. intros [= <-] i sd Hi. simpl. by rewrite Hp.
  - destruct (tu_phase u) eqn:Hp; try done. intros [= <-] i sd Hi. simpl. by rewrite Hp.
  - by apply told_producer.
  - unfold take_step, stream_turn. destruct (tu_sides u !! i) as [sd|] eqn:Hi; [|done]. destruct (sd_task sd); try done.
    destruct (_ && _); [done|]. destruct (tb_detached (sd_branch sd)) eqn:Hd; [intros [= <-]; by eapply told_side|].
    destruct (tb_chunks (sd_branch sd)); intros [= <-]; eapply told_side; try done; simpl; congruence.
  - unfold leave_step. destruct (tu_sides u !! i) as [sd|] eqn:Hi; [|done].
    destruct (sd_task sd); try done; intros [= <-]; by eapply told_side.
  - destruct (tu_phase u); try done. intros [= <-] j sd Hj. simpl. lia.
  - destruct (tu_phase u); try done; intros [= <-] j sd Hj; simpl; lia.
Qed.

Lemma told_run es : forall u u' : TeeUpload M, all_told u -> tee_run es u = Some u' -> all_told u'.
Proof.
  induction es as [|e es IH]; intros u u' Hall; simpl; [by intros [= <-]|].
  destruct (tee_event e u) as [u1|] eqn:He; [|done]. apply IH. by eapply told_event.
Qed.

(** ** The properties *)


(** The upload is never held up for good: a producer that waits for a full
    branch goes on after some turns of that branch's task alone, and once the
    primary is done (or failed) every task that still reads finds a chunk, the
    end or an error. *)
Theorem tee_never_stuck es keys capacity u :
  tee_run es (tee_upload inner (map (fun k => tee_branch k capacity) keys)) = Some u ->
  (forall data i, tu_phase u = Feeding data i -> exists n u', tee_run (replicate n (Take i) ++ [Go]) u = Some u') /\
  (forall i sd, (tu_phase u = Collected \/ tu_phase u = Aborted) -> tu_sides u !! i = Some sd -> sd_task sd = Reading ->
     exists u', take_step i u = Some u').
Proof.
  intros Hrun. pose proof (tee_reachable _ _ _ _ Hrun) as Hok. split.
  - intros data i Hp. destruct (tu_sides u !! i) as [sd|] eqn:Hi.
    + destruct (unblock _ u data i sd Hok Hp Hi (le_n _)) as (k & u' & _ & Hk). by exists k, u'.
    + assert (exists u', producer_step u = Some u') as [u' Hu'] by (unfold producer_step; rewrite Hp, Hi; by eexists).
      exists 0%nat, u'. simpl. by rewrite Hu'.
  - intros i sd Hp Hi Ht. assert (told (tu_phase u) i sd) as Htold.
    { eapply (told_run es); [|exact Hrun|exact Hi]. intros j sdj Hj. exact I. }
    unfold take_step, stream_turn. rewrite Hi, Ht.
    assert (negb (tb_eof (sd_branch sd)) && negb (tb_detached (sd_branch sd)) = false) as Hw.
    { destruct Hp as [Hp|Hp]; rewrite Hp in Htold; simpl in Htold; rewrite Htold; [done|apply andb_false_r]. }
    rewrite <- andb_assoc, Hw, andb_false_r. destruct (tb_detached (sd_branch sd)); [by eexists|].
    destruct (tb_chunks (sd_branch sd)); by eexists.
Qed.

(** A mirror's upload of the tee that returns has stored, in messages of
    its own cut, exactly the bytes the primary read -- however the tasks
    interleaved and even when the branch was dropped later. *)
Theorem tee_replica_exact {W} `{WriteLaws W} es keys capacity u i sd key name flt (w : W) :
  tee_run es (tee_upload inner (map (fun k => tee_branch k capacity) keys)) = Some u -> tu_sides u !! i = Some sd ->
  safe (upload_into key {| pieces := sd_got sd; fault := flt |} (get_size inner) name) w
    (fun rep w' => exists bs, concat bs = tu_seen u /\ r_part_sizes rep = map zlen bs /\ copies w' key (r_message_ids rep) bs).
Proof.
  intros Hok%tee_reachable Hi. destruct (got_prefix u i sd Hok Hi) as [t Ht].
  pose proof (Hsize _ _ (to_read u Hok)) as Hle.
  destruct (decide (get_size inner = zlen (tu_seen u))) as [Heq|Hne].
  - eapply safe_bind; [apply (upload_safe key _ _ _ (tu_seen u)); [by exists t|done]|].
    intros sent w' _ (bs & Hc & Hsz & Hcp). apply safe_ret. by exists bs.
  - eapply safe_bind; [apply upload_short|done]. unfold stream_bytes. simpl. apply (f_equal zlen) in Ht.
    rewrite zlen_app in Ht. pose proof (zlen_nonneg t). lia.
Qed.

End Machine.

(** ** A message that keeps to its size *)

Lemma fs_fill_raise n ps flt buf x ps' buf' :
  fs_fill n ps flt buf = (Raise x, (ps', buf')) -> buf' ++ concat ps' = buf ++ concat ps.
Proof.
  revert buf. induction ps as [|p ps IH]; intros buf; simpl; destruct (n <=? zlen buf); try done.
  - by intros [= _ <- <-].
  - intros ->%IH. by rewrite <- app_assoc.
Qed.

Lemma stream_consumed s size name c m :
  0 <= size -> consumed (stream_message s size name) c m ->
  c ++ fs_buffer m ++ concat (pieces (fs_stream m)) = stream_bytes s /\
  um_size (fs_um m) = size /\ 0 <= um_read_size (fs_um m) <= size.
Proof.
  intros Hs. induction 1 as [|c m _ IH|c m _ IH|n c m _ IH|n c m p m1 _ IH Hn Hrd|n c m ex m1 _ IH Hn Hrd]; simpl; try done.
  - destruct IH as (He & Hz & Hb). split; [done|]. simpl. lia.
  - destruct IH as (He & Hz & Hb). simpl in Hrd. unfold fs_read, fs_get_size in Hrd.
    assert ((if um_size (fs_um m) =? 0 then 0 else um_size (fs_um m)) = size) as Hg by (destruct (um_size (fs_um m) =? 0) eqn:?; lia).
    rewrite Hg in Hrd. destruct (fs_fill _ _ _ _) as [[[]|x] [ps buf]] eqn:Hf; [|done].
    injection Hrd as <- <-. apply fs_fill_bytes in Hf as [Hf Hl]. simpl. rewrite py_take_pos, py_drop_pos by lia.
    split; [|split; [done|lia]]. rewrite <- He, <- Hf, <- app_assoc. f_equal. by rewrite app_assoc, ztake_zdrop.
  - destruct IH as (He & Hz & Hb). simpl in Hrd. unfold fs_read in Hrd.
    destruct (fs_fill _ _ _ _) as [[[]|x] [ps buf]] eqn:Hf; [done|]. injection Hrd as <- <-. simpl.
    split; [|done]. rewrite <- He. f_equal. by eapply fs_fill_raise.
Qed.

Lemma stream_within_size s size name : 0 <= size -> zlen (stream_bytes s) <= size -> within_size (stream_message s size name).
Proof.
  intros Hs Hl c m Hc. apply stream_consumed in Hc as (He & _ & _); [|done]. apply (f_equal zlen) in He.
  rewrite zlen_app in He. pose proof (zlen_nonneg (fs_buffer m ++ concat (pieces (fs_stream m)))).
  unfold get_size. simpl. destruct (size =? 0) eqn:?; lia.
Qed.

(** ** A small upload: five bytes, a mirror with room for two *)

Definition tee_stream : stream := {| pieces := [[x61; x62]; [x63; x64; x65]]; fault := None |}.
Definition tee_demo : FileMessageFromStream := stream_message tee_stream 5 "f".
Definition tee_demo_run : list event :=
  [Open; Read 3; Go; Go; Read 3; Take 0; Go; Go; Go; Go; Take 0; Take 0; Collect; Go; Go].

Lemma tee_demo_size : within_size tee_demo.
Proof. apply stream_within_size; vm_compute; congruence. Qed.

Definition tee_demo_end : TeeUpload FileMessageFromStream :=
  default (tee_upload tee_demo []) (tee_run tee_demo_run (tee_upload tee_demo (map (fun k => tee_branch k 2) ["dc:9"]))).
Definition tee_demo_side : side :=
  default {| sd_branch := tee_branch "" 1; sd_got := []; sd_task := Returned |} (tu_sides tee_demo_end !! 0%nat).


(** Blocked: the second chunk does not fit next to the first. *)
Definition tee_demo_blocked : TeeUpload FileMessageFromStream :=
  default (tee_upload tee_demo []) (tee_run [Open; Read 3; Go; Go; Read 3] (tee_upload tee_demo (map (fun k => tee_branch k 2) ["dc:9"]))).

Lemma tee_never_stuck_witness :
  producer_step tee_demo_blocked = None /\ exists n u', tee_run (replicate n (Take 0) ++ [Go]) tee_demo_blocked = Some u'.
Proof.
  split; [vm_compute; reflexivity|].
  destruct (tee_never_stuck tee_demo tee_demo_size [Open; Read 3; Go; Go; Read 3] ["dc:9"] 2 tee_demo_blocked) as [Hs _];
    [vm_compute; reflexivity|].
  apply (Hs [x64; x65]). vm_compute. reflexivity.
Defined.

Lemma tee_replica_exact_witness :
  safe (upload_into "dc:9" {| pieces := sd_got tee_demo_side; fault := None |} (get_size tee_demo) "f") up_world
    (fun rep w' => exists bs, concat bs = tu_seen tee_demo_end /\ r_part_sizes rep = map zlen bs /\ copies w' "dc:9" (r_message_ids rep) bs) /\ is_ok (upload_into "dc:9" {| pieces := sd_got tee_demo_side; fault := None |} (get_size tee_demo) "f" up_world).1 = true.
Proof.
  split; [|vm_compute; reflexivity].
  apply (tee_replica_exact tee_demo tee_demo_size tee_demo_run ["dc:9"] 2 tee_demo_end 0); vm_compute; reflexivity.
Defined.

(** ** What a teed upload records is true

    The end of [save] under [sync: tee]: the replicas the tasks of the tee
    came to and the server-side copies made afterwards are all copies of what
    the primary stored. *)

(** ** Attaching replicas twice *)

Lemma attach_mirror_replicas key ids reps res :
  attach_mirror key ids (attach_replicas reps res) = attach_replicas reps (attach_mirror key ids res).
Proof. by destruct res as [|m res], ids as [|i ids]. Qed.

Lemma attach_all_replicas ms reps res :
  foldl (fun res ki => attach_mirror ki.1 ki.2 res) (attach_replicas reps res) ms =
    attach_replicas reps (foldl (fun res ki => attach_mirror ki.1 ki.2 res) res ms).
Proof. revert res. induction ms as [|[k i] ms IH]; intros res; simpl; [done|]. by rewrite attach_mirror_replicas, IH. Qed.

Lemma attach_all_nil ms : foldl (fun res ki => attach_mirror ki.1 ki.2 res) [] ms = [].
Proof. induction ms as [|[k i] ms IH]; [done|]. by destruct i. Qed.

Lemma attach_all_head_replicas ms m res :
  sm_replicas m = [] ->
  match foldl (fun res ki => attach_mirror ki.1 ki.2 res) (m :: res) ms with m' :: _ => sm_replicas m' = [] | [] => False end.
Proof.
  revert m res. induction ms as [|[k i] ms IH]; intros m res Hm; simpl; [done|]. destruct i as [|i0 i]; by apply IH.
Qed.

(** The replicas of the tee and then the copies are one result. *)
Definition with_teed (reps : dict string Replica) (copies : MirrorResult) : MirrorResult :=
  {| mres_mirrors := mres_mirrors copies; mres_replicas := Dict.update (Dict.of_pairs reps) (mres_replicas copies) |}.

Lemma attach_teed reps copies res :
  Forall (fun r => sm_mirrors r = [] /\ sm_replicas r = []) res ->
  attach_copies copies (attach_replicas reps res) = attach_copies (with_teed reps copies) res.
Proof.
  intros Hempty. unfold attach_copies. rewrite attach_all_replicas. cbn [mres_mirrors with_teed].
  destruct res as [|m res]; [by rewrite attach_all_nil|].
  apply Forall_cons in Hempty as [[_ Hm] _]. pose proof (attach_all_head_replicas (mres_mirrors copies) m res Hm) as Hh.
  destruct (foldl _ (m :: res) (mres_mirrors copies)) as [|m' res']; [done|]. simpl. rewrite Hh.
  change (Dict.update [] (Dict.update ?d ?e)) with (Dict.of_pairs (Dict.update d e)).
  rewrite (dict_of_pairs_id (Dict.update (Dict.of_pairs reps) _)); [done|]. apply Dict.wf_update, Dict.wf_of_pairs.
Qed.

Section TeeSave.
  Context {W : Type} `{WriteLaws W} (mg : MirrorGroup).

Lemma collect_tee_safe results acc (w : W) :
  safe (collect_tee mg results acc) w
    (fun reps w' => w' = w /\ forall k r, (k, r) ∈ reps -> (k, r) ∈ acc \/ (k, Ok r) ∈ results).
Proof.
  revert acc. induction results as [|[key [r|ex]] results IH]; intros acc; simpl.
  - apply safe_ret. split; [done|]. by left.
  - eapply safe_weaken; [apply IH|]. intros reps w' _ [-> Hin]. split; [done|]. intros k r' Hk.
    destruct (Hin k r' Hk) as [[[-> ->]|?]%dict_set_elem|?]; [right; left|by left|by right; right].
  - eapply safe_bind; [instantiate (1 := fun _ w' => w' = w)|].
    + unfold handle_write_error. destruct (mg_strict mg); [destruct (is_TechnicalError ex); apply safe_raise|by apply safe_ret].
    + intros _ w' _ ->. eapply safe_weaken; [apply IH|]. intros reps w' _ [-> Hin]. split; [done|]. intros k r' Hk.
      destruct (Hin k r' Hk); [by left|by right; right].
Qed.

(** C24: when the end of a teed [save] returns, everything it attaches to the
    primary's parts is a true copy: the replicas of the tee that it was given
    as such, and the copies it made itself in the other mirrors. *)
Theorem teed_save_true (cc : ContentConfig) sent bs results (w : W) :
  mg_primary mg = cc_store cc -> (forall k, k ∈ mg_stores mg -> k <> mg_primary mg) ->
  Forall2 (fun s b => sm_size s = zlen b /\ (0 < sm_message_id s /\ holds w (cc_store cc) (sm_message_id s) b) /\
                      sm_mirrors s = [] /\ sm_replicas s = []) sent bs ->
  (forall k r, (k, Ok r) ∈ results -> k ∈ mg_stores mg /\
     exists bs', concat bs' = concat bs /\ r_part_sizes r = map zlen bs' /\ MirrorProps.copies w k (r_message_ids r) bs') ->
  safe (save_collect mg sent results) w (fun res w' => saved_as cc w' res bs).
Proof.
  intros Hp Hst Hall Hres. unfold save_collect.
  assert (Forall (fun r => sm_mirrors r = [] /\ sm_replicas r = []) sent) as Hempty.
  { eapply Forall2_Forall_l; [exact Hall|]. apply List.Forall_forall. by intros b _ s (_ & _ & ?). }
  destruct (nonempty sent) eqn:Hne; cbn [negb]; [|apply safe_ret; exists sent, no_copies, []; rewrite attach_no_copies; split; [done|]; split; [done|apply no_copies_ok]].
  eapply safe_bind; [apply collect_tee_safe|]. intros reps w1 _ [-> Hreps]. cbn zeta.
  set (res := attach_replicas reps sent).
  assert (map sm_message_id res = map sm_message_id sent /\ map sm_size res = map sm_size sent) as [-> ->] by (by destruct sent).
  eapply safe_bind.
  { pose proof (mirror_parts_spec mg (map sm_message_id sent) (Some (map sm_size sent))
      (Some (List.filter (fun key => negb (bool_decide (key ∈ map fst results))) (mg_stores mg))) None bs w) as Hmp. cbn zeta in Hmp.
    rewrite Hp in Hmp. unfold safe. instantiate (1 := fun copies w' => res_ok w' (mg_stores mg) (cc_store cc) bs copies).
    destruct (mirror_parts _ _ _ _ _ _ w) as [[copies|x] w2]; (destruct Hmp as [Hk Hok]; [| | |by split]).
    all: try done.
    all: try (clear -Hall; induction Hall as [|m b ms bs (_ & [_ ?] & _) _ IH]; simpl; by constructor).
    all: intros s' [= <-] _; clear -Hall; induction Hall as [|m b ms bs [? _] _ IH]; simpl; [done|congruence]. }
  intros copies w2 Hk [Hcm Hcr]. apply safe_ret. exists sent, (with_teed reps copies), (mg_stores mg).
  split; [by apply attach_teed|]. split; [eapply Forall2_impl; [exact Hall|]; intros s b (? & [? ?] & ? & ?); split_and!; (done || by apply Hk)|].
  split; [done|]. intros k r Hin. cbn [mres_replicas with_teed] in Hin.
  apply dict_update_elem in Hin as [[Hin|Hin]%dict_update_elem|Hin]; [by apply not_elem_of_nil in Hin| |by apply Hcr].
  destruct (Hreps k r Hin) as [Hin'|(Hks & bs' & ? & ? & Hcp)%Hres]; [by apply not_elem_of_nil in Hin'|].
  split; [done|]. split; [rewrite <- Hp; by apply Hst|]. exists bs'. split; [done|]. split; [done|]. by eapply copies_kept.
Qed.

End TeeSave.

(** A mirror that was fed, one whose upload failed, and one that is copied
    afterwards. *)
Definition tee_group : MirrorGroup :=
  {| mg_primary := "tg:1"; mg_stores := ["dc:5"; "dc:6"; "tg:3"]; mg_mode := Auto; mg_strict := false |}.
Definition tee_world : MemWorld :=
  {| mw_docs := [("tg:1"%string, 11, [x61; x62; x63]); ("tg:1"%string, 12, [x64; x65]); ("dc:5"%string, 7, [x61; x62; x63; x64; x65])];
     mw_down := []; mw_texts := []; mw_next := 100; mw_clock := 5 |}.
Definition tee_sent : list SentFileMessage :=
  [{| sm_message_id := 11; sm_size := 3; sm_mirrors := []; sm_replicas := [] |};
   {| sm_message_id := 12; sm_size := 2; sm_mirrors := []; sm_replicas := [] |}].
Definition tee_results : list (string * exc Replica) :=
  [("dc:5"%string, Ok {| r_message_ids := [7]; r_part_sizes := [5] |}); ("dc:6"%string, Raise (TechnicalError "upload failed"))].

Lemma teed_save_true_witness :
  match save_collect tee_group tee_sent tee_results tee_world with
  | (Ok res, w') => saved_as demo_config w' res [[x61; x62; x63]; [x64; x65]] /\
      map (fun m => Dict.keys (sm_mirrors m) ++ Dict.keys (sm_replicas m)) res = [["tg:3"; "dc:5"]; ["tg:3"]]%string
  | (Raise _, _) => False
  end.
Proof.
  pose proof (teed_save_true tee_group demo_config tee_sent [[x61; x62; x63]; [x64; x65]] tee_results tee_world) as Ht.
  unfold safe in Ht.
  assert (match save_collect tee_group tee_sent tee_results tee_world with
          | (Ok res, _) => map (fun m => Dict.keys (sm_mirrors m) ++ Dict.keys (sm_replicas m)) res = [["tg:3"; "dc:5"]; ["tg:3"]]%string
          | (Raise _, _) => False end) as Hok by (vm_compute; reflexivity).
  destruct (save_collect tee_group tee_sent tee_results tee_world) as [[res|x] w']; [|done].
  split; [|exact Hok]. apply Ht; [done| | |].
  - intros k Hk. repeat (apply elem_of_cons in Hk as [->|Hk]; [done|]). by apply not_elem_of_nil in Hk.
  - repeat constructor; vm_compute; congruence.
  - intros k r Hin. apply elem_of_cons in Hin as [[= -> ->]|Hin].
    + split; [left|]. exists [[x61; x62; x63; x64; x65]]. split; [done|]. split; [done|]. repeat constructor; vm_compute; congruence.
    + apply elem_of_cons in Hin as [Hin|Hin]; [done|]. by apply not_elem_of_nil in Hin.
Defined.
