(* ===== verification/FdProps.v ===== *)
(** * Properties of the descriptor repository

    A descriptor is readable while one copy is; validation keeps every
    version some store still has, with the sizes of the parts as they are;
    and the version served is a readable one. *)

From S2P Require Import Prelude Errors Messages FileVersion FileVersionProps FileRefs Stores FileContent FileContentProps Mirror MirrorProps FdRepo.

Open Scope Z_scope.
Open Scope py_scope.

(** ** The text of a descriptor *)

Section Text.
  Context {W : Type} `{WriteLaws W} `{FDJson} (fc : FDConfig).

(** Reading changes nothing that is stored, nor who answers. *)
Definition read_kept (w w' : W) : Prop :=
  (docs_kept w w' /\ docs_kept w' w) /\ texts_kept w w' /\ forall k, up w k -> up w' k.

Lemma read_kept_refl w : read_kept w w.
Proof. split; [split; by intros k m b|]. split; [by intros k m t|done]. Qed.

Lemma read_kept_trans w1 w2 w3 : read_kept w1 w2 -> read_kept w2 w3 -> read_kept w1 w3.
Proof.
  intros ((D1 & E1) & T1 & U1) ((D2 & E2) & T2 & U2).
  split; [split; [intros k m b Hb; by apply D2, D1|intros k m b Hb; by apply E1, E2]|].
  split; [intros k m t Ht; by apply T2, T1|auto].
Qed.

Lemma get_messages_spec k ids (l : Live W) :
  let '(r, l') := onw (st_get_messages k ids) l in
  read_kept (lv_world l) (lv_world l') /\ lv_dead_until l' = lv_dead_until l /\
  match r with
  | Ok ms => Forall2 (described (lv_world l) k) ids ms
  | Raise x => is_Exception x = true /\ ~ up (lv_world l) k
  end.
Proof.
  unfold onw. pose proof (get_messages_law (lv_world l) k ids) as Hl.
  destruct (st_get_messages k ids (lv_world l)) as [r w']. destruct Hl as (Hd & Hd2 & Ht & Hu & Hr). done.
Qed.

(** Every mirror copy of the group that is recorded carries [t]. *)
Definition copies_say (w : W) (mg : MirrorGroup) (copies : list (string * Z)) (t : string) : Prop :=
  Forall (fun km => group_store mg km.1 <> None -> says w km.1 km.2 t) copies.

Lemma group_store_key mg key k : group_store mg key = Some k -> k = key.
Proof. unfold group_store. case_decide; [by intros [= <-]|]. case_bool_decide; [by intros [= <-]|done]. Qed.

Lemma copies_say_kept w w' mg cs t : texts_kept w w' -> copies_say w mg cs t -> copies_say w' mg cs t.
Proof. intros Hk Hc. eapply Forall_impl; [exact Hc|]. intros [k m] Hs Hg. by apply Hk, Hs. Qed.

Lemma mirror_texts_spec mg cs t (l : Live W) :
  t <> EmptyString -> copies_say (lv_world l) mg cs t ->
  Exists (fun km => group_store mg km.1 <> None /\ up (lv_world l) km.1) cs ->
  exists l', mirror_texts mg cs l = (Ok (Some t), l').
Proof.
  intros Ht. revert l. induction cs as [|[key mid] cs IH]; intros l Hsay Hup; [by inversion Hup|]. simpl.
  apply Forall_cons in Hsay as [Hs Hsay]. destruct (group_store mg key) as [api|] eqn:Hg.
  2: { apply IH; [done|]. by inversion Hup as [? ? [? _]|]; subst. }
  apply group_store_key in Hg as Hk. subst api. pose proof (get_messages_spec key [mid] l) as Hm.
  assert (forall l', read_kept (lv_world l) (lv_world l') -> ~ up (lv_world l) key ->
    exists l2, mirror_texts mg cs l' = (Ok (Some t), l2)) as Hnext.
  { intros l' (Hd & Htk & Hu) Hdown. apply IH; [by eapply copies_say_kept|].
    inversion Hup as [? ? [_ ?]|? ? Hrest]; subst; [done|].
    eapply Exists_impl; [exact Hrest|]. intros [k m] [? ?]. split; [done|]. by apply Hu. }
  destruct (onw (st_get_messages key [mid]) l) as [[ms|x] l1]; destruct Hm as (Hkept & _ & Hr).
  - inversion Hr as [|? m ? ms' (_ & _ & Hsays & _) Hms]; subst. inversion Hms; subst.
    destruct (Hsays t) as (x & -> & Hx); [apply Hs; simpl; congruence|].
    rewrite bool_decide_eq_false_2 by congruence. exists l1. by rewrite Hx.
  - destruct Hr as [-> Hdown]. by apply Hnext.
Qed.

(** A descriptor can be read as long as one of its copies can: if the
    primary copy and the copies in the configured mirrors all carry the text
    [t] and one of the stores that has a copy answers, [_get_fd_text]
    returns [t], whatever the other stores do. *)
Lemma get_fd_text_spec fr mg t (l : Live W) :
  fc_group fc = Some mg -> t <> EmptyString ->
  (ref_owned_by (fc_key fc) fr = true -> says (lv_world l) (fc_key fc) (fr_message_id fr) t) ->
  copies_say (lv_world l) mg (fr_mirrors fr) t ->
  (ref_owned_by (fc_key fc) fr = true /\ up (lv_world l) (fc_key fc)) \/
    Exists (fun km => group_store mg km.1 <> None /\ up (lv_world l) km.1) (fr_mirrors fr) ->
  exists l', get_fd_text fc fr l = (Ok (Some t), l').
Proof.
  intros Hg Ht Hprim Hcs Hup. unfold get_fd_text, sbind, primary_text. rewrite Hg.
  destruct (ref_owned_by (fc_key fc) fr) eqn:Ho.
  - pose proof (get_messages_spec (fc_key fc) [fr_message_id fr] l) as Hm.
    destruct (onw (st_get_messages (fc_key fc) [fr_message_id fr]) l) as [[ms|x] l1]; destruct Hm as ((Hd & Htk & Hu) & _ & Hr).
    + inversion Hr as [|? m ? ms' (_ & _ & Hsays & _) Hms]; subst. inversion Hms; subst.
      destruct (Hsays t) as (x & -> & Hx); [by apply Hprim|]. simpl. rewrite Hx.
      rewrite bool_decide_eq_false_2 by done. by exists l1.
    + destruct Hr as [-> Hdown]. simpl. apply mirror_texts_spec; [done|by eapply copies_say_kept|].
      destruct Hup as [[_ ?]|Hex]; [done|]. eapply Exists_impl; [exact Hex|]. intros [k m] [? ?]. split; [done|].
      by apply Hu.
  - simpl. destruct Hup as [[? _]|Hex]; [done|]. by apply mirror_texts_spec.
Qed.

End Text.

(** ** The version served *)

Section Served.
  Context (fc : FDConfig).

(** The versions are filed under their ids. *)
Definition keyed (fd : TGFSFileDesc) : Prop :=
  Dict.wf (versions fd) /\ forall k v, (k, v) ∈ versions fd -> fv_id v = k.

(** The version a descriptor points at after a read is a readable one
    whenever there is any: the recorded latest one is kept if it can be read,
    and otherwise the newest readable version takes its place; with nothing
    readable an empty descriptor is served in its stead. *)
Theorem served_version_readable now has_valid fd fd' :
  keyed fd -> has_valid = existsb is_valid (Dict.values (versions fd)) ->
  point_at_readable fc now has_valid fd = Ok fd' ->
  match List.filter (readable fc) (Dict.values (versions fd)) with
  | [] => versions fd' = [] /\ complete fd' = complete fd
  | _ => versions fd' = versions fd /\
      exists v, Dict.get (latest_version_id fd') (versions fd) = Some v /\ readable fc v = true /\
        (latest_version_id fd' = latest_version_id fd \/
         Forall (fun v' => readable fc v' = true -> updated_at_timestamp v' <= updated_at_timestamp v)
                (Dict.values (versions fd)))
  end.
Proof.
  intros [Hwf Hkeyed] Hhv. unfold point_at_readable. set (vals := Dict.values (versions fd)) in *.
  assert (forall v, v ∈ vals -> Dict.get (fv_id v) (versions fd) = Some v) as Hget.
  { intros v Hv. apply (list_elem_of_fmap snd) in Hv as ([k v'] & Hv' & Hin). simpl in Hv'. subst v'.
    rewrite (Hkeyed _ _ Hin).
    apply Dict.In_get; [done|]. by apply list_elem_of_In. }
  change (get_versions false false fd) with vals. rewrite Hhv.
  assert (existsb is_valid vals || existsb (readable_locally fc) vals = nonempty (List.filter (readable fc) vals)) as ->.
  { clear. induction vals as [|v vals IH]; simpl; [done|]. unfold readable at 1.
    destruct (is_valid v); simpl; [done|]. destruct (readable_locally fc v); simpl; [by rewrite orb_true_r|done]. }
  destruct (List.filter (readable fc) vals) as [|v vs] eqn:Hf; cbn [nonempty].
  - destruct (match _ with Some _ => _ | None => _ end); (destruct (empty_desc now (fd_name fd)) as [e|x] eqn:He; [|done]);
      cbn [rbind]; intros <-%Ok_inj; (split; [|done]); unfold empty_desc, new_file_desc in He;
      destruct (validate_name (fd_name fd)); simpl in He; try done; by injection He as <-.
  - destruct (Dict.get (latest_version_id fd) (versions fd)) as [cur|] eqn:Hcur; [destruct (readable fc cur) eqn:Hr|].
    { intros <-%Ok_inj. split; [done|]. exists cur. split; [done|]. split; [done|]. by left. }
    all: intros <-%Ok_inj; (split; [done|]); simpl; destruct (max_by_spec updated_at_timestamp v vs) as [Hin Hmax];
      set (m := max_by updated_at_timestamp v vs) in *; rewrite <- Hf in Hin, Hmax;
      apply list_elem_of_In, filter_In in Hin as [Hmv Hmr]; apply list_elem_of_In in Hmv;
      exists m; (split; [by apply Hget|]); (split; [done|]); right; apply List.Forall_forall; intros v' Hv' Hr';
      apply Hmax, list_elem_of_In; by apply filter_In.
Qed.

End Served.

(** ** Validation *)

Section Validate.
  Context {W : Type} `{WriteLaws W} `{FDJson} (fc : FDConfig) (mg : MirrorGroup) (Hgroup : fc_group fc = Some mg).

(** The grouping by store keeps the pairs. *)
Lemma group_by_store_spec (missing : list (string * Z)) k m :
  (exists mids, Dict.get k (group_by_store missing) = Some mids /\ m ∈ mids) <-> (k, m) ∈ missing.
Proof.
  unfold group_by_store.
  assert (forall acc : dict string (list Z),
    (exists mids, Dict.get k (foldl (fun acc km => Dict.set km.1 (default [] (Dict.get km.1 acc) ++ [km.2]) acc) acc missing) = Some mids /\ m ∈ mids)
    <-> (exists mids, Dict.get k acc = Some mids /\ m ∈ mids) \/ (k, m) ∈ missing) as Hgen.
  { induction missing as [|[a b] missing IH]; intros acc; simpl.
    - split; [by left|]. intros [?|Hin]; [done|]. by apply not_elem_of_nil in Hin.
    - rewrite IH, elem_of_cons. destruct (decide (k = a)) as [->|Hne].
      + rewrite Dict.get_set_eq. split.
        * intros [(mids & [= <-] & Hin)|?]; [|tauto]. apply elem_of_app in Hin as [Hin| ->%list_elem_of_singleton]; [|by right; left].
          left. destruct (Dict.get a acc) as [l|]; simpl in Hin; [by exists l|by apply not_elem_of_nil in Hin].
        * intros [(mids & Hg & Hin)|[[= ->]|Hin]]; [left|left|by right].
          -- rewrite Hg. eexists. split; [done|]. simpl. apply elem_of_app. by left.
          -- eexists. split; [done|]. apply elem_of_app. right. by apply list_elem_of_singleton.
      + rewrite Dict.get_set_ne by done. split; [intros [?|?]; tauto|]. intros [?|[[= -> ->]|?]]; [tauto|done|tauto]. }
  rewrite Hgen. split; [|by right]. by intros [(mids & [=] & _)|?].
Qed.

Lemma group_by_store_wf missing : Dict.wf (group_by_store missing).
Proof.
  unfold group_by_store. assert (forall acc : dict string (list Z), Dict.wf acc ->
    Dict.wf (foldl (fun acc km => Dict.set km.1 (default [] (Dict.get km.1 acc) ++ [km.2]) acc) acc missing)) as Hgen;
    [|apply Hgen, Dict.wf_nil].
  induction missing as [|[a b] missing IH]; intros acc Hwf; simpl; [done|]. by apply IH, Dict.wf_set.
Qed.

(** Message [m] of store [k] is recorded as the aligned copy of part [j]. *)
Definition mirror_of (v : TGFSFileVersion) (j : nat) (k : string) (m : Z) : Prop :=
  exists ids, (k, ids) ∈ mirrors v /\ ids !! j = Some m /\ 0 < m.

Lemma mirror_candidates_spec v j k m : (k, m) ∈ mirror_candidates j v <-> mirror_of v j k m.
Proof.
  unfold mirror_candidates, mirror_of. rewrite list_elem_of_In, in_concat. split.
  - intros (l & ([k' ids] & <- & Hin)%in_map_iff & Hm). simpl in Hm. destruct (ids !! j) as [m'|] eqn:Hj; [|done].
    destruct (0 <? m') eqn:Hp; [|done]. destruct Hm as [[= -> ->]|[]]. exists ids.
    split; [by apply list_elem_of_In|]. split; [done|]. by apply Z.ltb_lt.
  - intros (ids & Hin & Hj & Hp%Z.ltb_lt). eexists. split.
    + apply in_map_iff. exists (k, ids). split; [done|]. by apply list_elem_of_In.
    + simpl. rewrite Hj, Hp. by left.
Qed.

(** Every copy that exists is [b]. *)
Definition copies_are (w : W) (v : TGFSFileVersion) (j : nat) (b : bytes) : Prop :=
  forall k m b', mirror_of v j k m -> group_store mg k <> None -> holds w k m b' -> b' = b.

Lemma found_sizes_spec w key mids ms b res :
  Forall2 (described w key) mids ms -> (forall m b', m ∈ mids -> holds w key m b' -> b' = b) ->
  Forall (fun e : string * Z * Z => e.2 = zlen b) res ->
  Forall (fun e : string * Z * Z => e.2 = zlen b) (found_sizes key mids ms res) /\
  (res <> [] -> found_sizes key mids ms res <> []) /\
  ((exists m, m ∈ mids /\ holds w key m b) -> found_sizes key mids ms res <> []).
Proof.
  intros Hd Hb. revert res. induction Hd as [|i m mids ms (_ & Hdoc & _ & Hsound) Hd IH]; intros res Hres; simpl.
  { split; [done|]. split; [done|]. intros (m & Hin & _). by apply not_elem_of_nil in Hin. }
  assert (forall m0 b', m0 ∈ mids -> holds w key m0 b' -> b' = b) as Hb' by (intros m0 b' Hin; apply Hb; by right).
  set (res1 := match m with Some x => _ | None => _ end).
  assert (Forall (fun e : string * Z * Z => e.2 = zlen b) res1 /\ (res <> [] -> res1 <> []) /\ (holds w key i b -> res1 <> [])) as (R1 & R2 & R3).
  { unfold res1. destruct m as [x|]; [destruct (mr_document x) as [n|] eqn:Hx|].
    - destruct (Hsound x n eq_refl Hx) as (b' & Hb1 & ->). rewrite (Hb i b' (list_elem_of_here _ _) Hb1).
      assert (Dict.set (key, i) (zlen b) res <> []) as Hne by (destruct res as [|[? ?] ?]; simpl; [done|case_decide; done]).
      split; [|done]. apply List.Forall_forall. intros [kk v] Hin%list_elem_of_In.
      apply dict_set_elem in Hin as [[_ ->]|Hin]; [done|]. rewrite List.Forall_forall in Hres. by apply (Hres (kk, v)), list_elem_of_In.
    - split; [done|]. split; [done|]. intros Hi. destruct (Hdoc b Hi) as (y & [= <-] & Hy). congruence.
    - split; [done|]. split; [done|]. intros Hi. by destruct (Hdoc b Hi) as (y & ? & _). }
  destruct (IH Hb' res1 R1) as (I1 & I2 & I3). split; [done|]. split; [auto|].
  intros (m0 & [->|Hin]%elem_of_cons & Hm0); [auto|]. apply I3. by exists m0.
Qed.

Lemma lookup_loop_spec groups b res (l : Live W) :
  (forall k mids m b', (k, mids) ∈ groups -> m ∈ mids -> group_store mg k <> None -> holds (lv_world l) k m b' -> b' = b) ->
  Forall (fun e : string * Z * Z => e.2 = zlen b) res ->
  exists found l', lookup_loop mg groups res l = (Ok found, l') /\ read_kept (lv_world l) (lv_world l') /\
    Forall (fun e : string * Z * Z => e.2 = zlen b) found /\
    (res <> [] \/ Exists (fun km => group_store mg km.1 <> None /\ up (lv_world l) km.1 /\
                            exists m, m ∈ km.2 /\ holds (lv_world l) km.1 m b) groups -> found <> []).
Proof.
  revert res l. induction groups as [|[key mids] groups IH]; intros res l Hb Hres.
  { exists res, l. split; [done|]. split; [apply read_kept_refl|]. split; [done|]. intros [?|He]; [done|by inversion He]. }
  assert (forall res l', read_kept (lv_world l) (lv_world l') -> Forall (fun e : string * Z * Z => e.2 = zlen b) res ->
    exists found l2, lookup_loop mg groups res l' = (Ok found, l2) /\ read_kept (lv_world l) (lv_world l2) /\
      Forall (fun e : string * Z * Z => e.2 = zlen b) found /\
      (res <> [] \/ Exists (fun km => group_store mg km.1 <> None /\ up (lv_world l) km.1 /\
                              exists m, m ∈ km.2 /\ holds (lv_world l) km.1 m b) groups -> found <> [])) as Hnext.
  { intros res' l' ((D1 & D2) & T & U) Hr'. destruct (IH res' l') as (found & l2 & Hrun & Hk & Hf & Hne); [|done|].
    - intros k ms m b' Hin Hm Hg Hh. eapply Hb; [by right|done|done|by apply D2].
    - exists found, l2. split; [done|]. split; [eapply read_kept_trans; [|exact Hk]; done|]. split; [done|].
      intros [?|He]; apply Hne; [by left|right]. eapply Exists_impl; [exact He|].
      intros [k ms] (? & ? & m & ? & ?). split; [done|]. split; [by apply U|]. exists m. split; [done|]. by apply D1. }
  simpl. destruct (group_store mg key) as [api|] eqn:Hg.
  2: { destruct (Hnext res l (read_kept_refl _) Hres) as (found & l2 & Hrun & Hk & Hf & Hne). exists found, l2.
       split; [done|]. split; [done|]. split; [done|]. intros [?|He]; apply Hne; [by left|].
       inversion He as [? ? [? _]|]; subst; [done|by right]. }
  apply group_store_key in Hg as Hapi. subst api. pose proof (get_messages_spec key mids l) as Hm.
  destruct (onw (st_get_messages key mids) l) as [[ms|x] l1]; destruct Hm as (Hkept & _ & Hr).
  - destruct (found_sizes_spec (lv_world l) key mids ms b res Hr) as (F1 & F2 & F3); [|done|].
    { intros m b' Hm. eapply Hb; [left|done|congruence]. }
    destruct (Hnext (found_sizes key mids ms res) l1 Hkept F1) as (found & l2 & Hrun & Hk & Hf & Hne).
    exists found, l2. split; [done|]. split; [done|]. split; [done|]. intros [?|He]; apply Hne; [left; by apply F2|].
    inversion He as [? ? (_ & _ & Hex)|? ? He']; subst; [left; by apply F3|by right].
  - destruct Hr as [-> Hdown]. destruct (Hnext res l1 Hkept Hres) as (found & l2 & Hrun & Hk & Hf & Hne).
    exists found, l2. split; [done|]. split; [done|]. split; [done|]. intros [?|He]; apply Hne; [by left|].
    inversion He as [? ? (_ & ? & _)|? ? He']; subst; [done|by right].
Qed.

(** A part some mirror that answers still has is found, with its size. *)
Lemma lookup_mirror_parts_spec v j b (l : Live W) :
  copies_are (lv_world l) v j b ->
  (exists k m, mirror_of v j k m /\ group_store mg k <> None /\ up (lv_world l) k /\ holds (lv_world l) k m b) ->
  exists e found l', lookup_mirror_parts fc (mirror_candidates j v) l = (Ok (e :: found), l') /\ e.2 = zlen b /\
    read_kept (lv_world l) (lv_world l').
Proof.
  intros Hc (k0 & m0 & Hin0 & Hg0 & Hu0 & Hh0). set (cands := mirror_candidates j v). unfold lookup_mirror_parts. rewrite Hgroup.
  destruct (lookup_loop_spec (group_by_store cands) b [] l) as (found & l' & Hrun & Hk & Hf & Hne); [|done|].
  - intros k mids m b' Hin Hm Hg Hh. eapply Hc; [|done|exact Hh]. apply mirror_candidates_spec. fold cands. apply group_by_store_spec. exists mids.
    split; [|done]. apply Dict.In_get; [apply group_by_store_wf|]. by apply list_elem_of_In.
  - rewrite Hrun. destruct found as [|e found].
    + exfalso. apply Hne; [|done]. right. apply mirror_candidates_spec in Hin0.
      destruct (proj2 (group_by_store_spec cands k0 m0) Hin0) as (mids & Hget & Hm).
      apply List.Exists_exists. exists (k0, mids). split; [by apply Dict.get_Some_In|]. split; [done|]. split; [done|].
      by exists m0.
    + exists e, found, l'. split; [done|]. split; [|done]. by apply Forall_cons in Hf as [? _].
Qed.

(** ** A version some store still has *)

(** The primary's answers give the right sizes. *)
Definition map_ok (w : W) (map : dict Z MessageResp) (mid : Z) (b : bytes) : Prop :=
  forall m n, Dict.get mid map = Some m -> mr_document m = Some n -> n = zlen b.

(** Part [j] of [v] is still somewhere: in the primary's answers, or in an
    aligned mirror that answers. *)
Definition part_left (w : W) (map : dict Z MessageResp) (v : TGFSFileVersion) (j : nat) (mid : Z) (b : bytes) : Prop :=
  (owned_by (fc_key fc) v = true /\ exists m n, Dict.get mid map = Some m /\ mr_document m = Some n) \/
  (exists k m, mirror_of v j k m /\ group_store mg k <> None /\ up w k /\ holds w k m b).

Lemma check_parts_spec map v j ids bs sizes (l : Live W) :
  length ids = length bs ->
  (forall i mid b, ids !! i = Some mid -> bs !! i = Some b ->
     map_ok (lv_world l) map mid b /\ copies_are (lv_world l) v (j + i) b /\
     part_left (lv_world l) map v (j + i) mid b) ->
  exists l', check_parts fc map v (owned_by (fc_key fc) v) j ids sizes l =
    (Ok (true, sizes ++ List.map zlen bs), l') /\ read_kept (lv_world l) (lv_world l').
Proof.
  revert j bs sizes l. induction ids as [|mid ids IH]; intros j [|b bs] sizes l Hlen Hp; simpl in Hlen; try lia.
  { exists l. simpl. rewrite app_nil_r. split; [done|]. apply read_kept_refl. }
  assert (forall l' size, read_kept (lv_world l) (lv_world l') -> size = zlen b ->
    exists l2, check_parts fc map v (owned_by (fc_key fc) v) (S j) ids (sizes ++ [size]) l' =
      (Ok (true, sizes ++ List.map zlen (b :: bs)), l2) /\ read_kept (lv_world l) (lv_world l2)) as Hnext.
  { intros l' size Hk ->. destruct (IH (S j) bs (sizes ++ [zlen b]) l') as (l2 & Hrun & Hk2); [lia| |].
    - intros i m b' Hi Hb'. destruct (Hp (S i) m b' Hi Hb') as (H1' & H2' & H3'). rewrite Nat.add_succ_r in H2', H3'.
      destruct Hk as ((D1 & D2) & T & U). split; [done|]. split.
      + intros k x b0 Hin Hg Hh. eapply H2'; [done|done|by apply D2].
      + destruct H3' as [?|(k & x & ? & ? & ? & ?)]; [by left|right]. exists k, x.
        split; [done|]. split; [done|]. split; [by apply U|by apply D1].
    - exists l2. rewrite <- app_assoc in Hrun. split; [done|]. by eapply read_kept_trans. }
  destruct (Hp 0%nat mid b eq_refl eq_refl) as (Hmap & Hcp & Hleft). rewrite Nat.add_0_r in Hcp, Hleft. cbn [check_parts].
  destruct (if owned_by (fc_key fc) v then _ else None) as [size|] eqn:Hprim.
  - apply Hnext; [apply read_kept_refl|]. destruct (owned_by (fc_key fc) v); [|done].
    destruct (Dict.get mid map) as [m|] eqn:Hg; [|done]. by eapply Hmap.
  - destruct Hleft as [(Ho & m & n & Hg & Hd)|Hex]; [by rewrite Ho, Hg, Hd in Hprim|].
    destruct (lookup_mirror_parts_spec _ _ _ _ Hcp Hex) as ([e size] & found & l1 & Hrun & Hsz & Hk).
    unfold sbind. rewrite Hrun. by apply Hnext.
Qed.

(** C34: a version is kept, with the sizes of its parts as they are, as long
    as every part is still in the primary or in an aligned mirror that
    answers -- whatever other copies are gone or unreachable. *)
Theorem validation_keeps_version map v bs (l : Live W) :
  length (message_ids v) = length bs ->
  (forall j mid b, message_ids v !! j = Some mid -> bs !! j = Some b ->
     map_ok (lv_world l) map mid b /\ copies_are (lv_world l) v j b /\
     part_left (lv_world l) map v j mid b) ->
  exists l', validate_version fc map v l = (Ok (set_part_sizes (List.map zlen bs) v), l') /\
    read_kept (lv_world l) (lv_world l').
Proof.
  intros Hlen Hp. destruct (check_parts_spec map v 0 (message_ids v) bs [] l Hlen Hp) as (l' & Hrun & Hk).
  exists l'. split; [|done]. unfold validate_version, sbind. by rewrite Hrun.
Qed.

End Validate.
