(* ===== verification/FdSaved.v ===== *)
(** * A saved descriptor is read back
      ([StoreFDRepository.save] followed by [StoreFDRepository.get])

    The text [save] leaves in the primary and in the mirrors is the one [get]
    reads, and what it decodes to is the descriptor that was saved.  The file
    ends with a text encoding of descriptors that satisfies [FDJsonLaws], and
    with concrete runs of the repository. *)

From stdpp Require Import countable.
From S2P Require Import Prelude Errors Messages StoreKey FileVersion FileVersionProps FileRefs Stores FileContent FileContentProps Mirror MirrorProps FdRepo FdProps.

Open Scope Z_scope.
Open Scope py_scope.

(** ** The versions as they are stamped, stored and read back *)

Lemma dict_get_map {V V'} (f : V -> V') k (d : dict string V) :
  Dict.get k (map (fun kv => (kv.1, f kv.2)) d) = f <$> Dict.get k d.
Proof. induction d as [|[k' v] d IH]; simpl; [done|]. case_decide; [done|exact IH]. Qed.

Lemma dict_keys_map {V V'} (f : V -> V') (d : dict string V) :
  Dict.keys (map (fun kv => (kv.1, f kv.2)) d) = Dict.keys d.
Proof. unfold Dict.keys. rewrite map_map. by apply map_ext. Qed.

Section Stamped.
  Context (fc : FDConfig).

Lemma stamp_version_fields v :
  fv_id (stamp_version fc v) = fv_id v /\ updated_at (stamp_version fc v) = updated_at v /\
  mirrors (stamp_version fc v) = mirrors v /\ replicas (stamp_version fc v) = replicas v /\
  (store (stamp_version fc v) = store v \/ store (stamp_version fc v) = Some (fc_key fc)).
Proof. unfold stamp_version. destruct (_ && _); simpl; auto 10. Qed.

Lemma stamp_get k fd : Dict.get k (versions (stamp fc fd)) = stamp_version fc <$> Dict.get k (versions fd).
Proof. apply dict_get_map. Qed.

Lemma stamp_get_inv k fd w : Dict.get k (versions (stamp fc fd)) = Some w ->
  exists v, Dict.get k (versions fd) = Some v /\ w = stamp_version fc v.
Proof. rewrite stamp_get. destruct (Dict.get k (versions fd)); [|done]. intros [= <-]. eauto. Qed.

(** Stamping keeps a descriptor in the form it can be stored in. *)
Lemma stamp_canonical fd :
  fc_key fc <> ""%string -> normalize_store_key (fc_key fc) = fc_key fc ->
  fd_canonical fd -> fd_canonical (stamp fc fd).
Proof.
  intros Hne Hnorm [[Hk Hi [Hc Hna] Hl] Hcan]. split; [split|].
  - unfold Dict.wf, stamp, with_versions in *. cbn [versions]. by rewrite (dict_keys_map (stamp_version fc)).
  - intros k w (v & Hv & ->)%stamp_get_inv. destruct (stamp_version_fields v) as [-> _]. by apply Hi.
  - split; [done|]. intros k w (v & Hv & ->)%stamp_get_inv. destruct (stamp_version_fields v) as (_ & -> & _). by eapply Hna.
  - destruct Hl as [[Hv Hl]|(v & Hv & Hmax)]; [left|right].
    + split; [|done]. simpl. by rewrite Hv.
    + exists (stamp_version fc v). change (latest_version_id (stamp fc fd)) with (latest_version_id fd).
      rewrite stamp_get, Hv. split; [done|]. intros k w (u & Hu & ->)%stamp_get_inv.
      destruct (stamp_version_fields u) as (_ & -> & _), (stamp_version_fields v) as (_ & -> & _). by eapply Hmax.
  - intros k w (v & Hv & ->)%stamp_get_inv. destruct (Hcan _ _ Hv) as [C1 C2 C3 C4].
    destruct (stamp_version_fields v) as (_ & E2 & E3 & E4 & E5). split.
    + unfold updated_at_timestamp in *. by rewrite E2.
    + by rewrite E3.
    + by rewrite E4.
    + intros s Hs. destruct E5 as [E5|E5]; rewrite E5 in Hs; [by apply C4|]. by injection Hs as <-.
Qed.

Lemma stamp_dates fd : dates_distinct fd -> dates_distinct (stamp fc fd).
Proof.
  intros Hd k k' w w' (v & Hv & ->)%stamp_get_inv (v' & Hv' & ->)%stamp_get_inv. unfold updated_at_timestamp.
  destruct (stamp_version_fields v) as (_ & -> & _), (stamp_version_fields v') as (_ & -> & _). by apply (Hd k k' v v').
Qed.

(** What becomes of a version of this store. *)
Definition served_version (v : TGFSFileVersion) : TGFSFileVersion := trust_version (reloaded (stamp_version fc v)).

Lemma trust_version_fields v :
  fv_id (trust_version v) = fv_id v /\ updated_at (trust_version v) = updated_at v /\
  message_ids (trust_version v) = message_ids v.
Proof.
  unfold trust_version, size_fill. destruct (negb _); [done|].
  destruct ((fv_size_field v =? INVALID_FILE_SIZE) && nonempty (part_sizes v)); simpl; destruct (_ && _); done.
Qed.

Lemma relocate_owned v : owned_by (fc_key fc) v = true -> relocate (fc_key fc) v = v.
Proof. intros Ho. unfold relocate. destruct (store v); [|done]. by rewrite Ho. Qed.

End Stamped.

(** ** Saving *)

Section Saved.
  Context {W : Type} `{WriteLaws W} `{FDJsonLaws} (fc : FDConfig) (mg : MirrorGroup) (Hgroup : fc_group fc = Some mg).

Lemma mirror_fd_one_wf key text res (w w' : W) res' :
  mirror_fd_one key text res w = (Ok res', w') -> Dict.wf res -> Dict.wf res'.
Proof.
  assert (forall w1 : W, (let! i := st_send_text key text in sret (Dict.set key i res)) w1 = (Ok res', w') ->
    Dict.wf res -> Dict.wf res') as Hsend.
  { intros w1. unfold sbind, sret. destruct (st_send_text key text w1) as [[i|x] w2]; [|done].
    intros [= <- _]. by apply Dict.wf_set. }
  unfold mirror_fd_one. destruct (Dict.get key res) as [mid|]; [|apply Hsend].
  destruct (mid =? 0); [apply Hsend|]. unfold stry, sbind at 1, sret.
  destruct (st_edit_text key mid text w) as [[i|x] w1]; [intros [= <- _]; by apply Dict.wf_set|].
  destruct x; try done. apply Hsend.
Qed.

Lemma mirror_fd_loop_wf stores text res (w w' : W) res' :
  mirror_fd_loop mg stores text res w = (Ok res', w') -> Dict.wf res -> Dict.wf res'.
Proof.
  revert res w. induction stores as [|key stores IH]; intros res w; simpl; [by intros [= -> ->]|].
  destruct (mirror_fd_one key text res w) as [[res1|x] w1] eqn:Ho.
  - intros Hl Hwf. eapply IH; [exact Hl|]. by eapply mirror_fd_one_wf.
  - unfold on_write_error, sbind, handle_write_error. destruct (is_Exception x); [|done].
    destruct (mg_strict mg); [by destruct (is_TechnicalError x)|]. apply IH.
Qed.

(** After a save every recorded copy carries the text of the descriptor. *)
Lemma send_descriptor_spec fd r (l l1 : Live W) :
  NoDup (mg_stores mg) -> mg_strict mg = false -> fc_key fc ∉ mg_stores mg ->
  send_descriptor fc fd None l = (Ok r, l1) ->
  exists text, fd_to_json fd = Ok text /\ rp_store r = Some (fc_key fc) /\
    says (lv_world l1) (fc_key fc) (rp_message_id r) text /\ copies_say (lv_world l1) mg (rp_mirrors r) text.
Proof.
  intros Hnd Hst Hkey. unfold send_descriptor, sbind at 1, slift. destruct (fd_to_json fd) as [text|] eqn:Ht; [|done].
  unfold sbind at 1, onw at 1. pose proof (send_text_law (lv_world l) (fc_key fc) text) as Hs.
  destruct (st_send_text (fc_key fc) text (lv_world l)) as [[mid|] w1]; [|done]. destruct Hs as (_ & _ & _ & Hsays).
  unfold sbind at 1, mirror_descriptor. rewrite Hgroup. unfold sbind at 1, slift. rewrite Ht. unfold onw, mirror_fd.
  cbn [lv_world set_world default]. pose proof (mirror_fd_loop_spec mg (mg_stores mg) text [] w1 Hnd Hst) as Hm.
  destruct (mirror_fd_loop mg (mg_stores mg) text [] w1) as [[res|] w2] eqn:Hloop; [|done].
  unfold sret. intros [= <- <-]. destruct Hm as (_ & Hkept & Hres). exists text. cbn. split; [done|]. split; [done|].
  split; [by apply Hkept|]. apply List.Forall_forall. intros [k m] Hin _. cbn.
  assert (Dict.wf res) as Hwf by (eapply mirror_fd_loop_wf; [exact Hloop|apply Dict.wf_nil]).
  apply (Dict.In_get _ _ _ Hwf) in Hin. destruct (Hres k) as [[(i & Hi & Hi2) _]|Hnone]; [|simpl in Hnone; congruence].
  by simplify_eq.
Qed.

(** The reference that is kept for a saved descriptor. *)
Definition ref_of (name : string) (loc : nat) (r : FDRepositoryResp) : TGFSFileRef :=
  {| fr_message_id := rp_message_id r; fr_name := name; fr_location := loc; fr_mirrors := rp_mirrors r;
     fr_store := rp_store r; fr_stat := None; fr_stat_epoch := 0 |}.

(** A copy of the descriptor that can be asked for. *)
Definition copy_answers (w : W) (r : FDRepositoryResp) : Prop :=
  up w (fc_key fc) \/ Exists (fun km => group_store mg km.1 <> None /\ up w km.1) (rp_mirrors r).

(** The text is read while one copy answers. *)
Lemma get_fd_text_of r name loc text (l : Live W) :
  text <> EmptyString -> rp_store r = Some (fc_key fc) ->
  says (lv_world l) (fc_key fc) (rp_message_id r) text -> copies_say (lv_world l) mg (rp_mirrors r) text ->
  copy_answers (lv_world l) r ->
  exists l', get_fd_text fc (ref_of name loc r) l = (Ok (Some text), l').
Proof.
  intros Ht Hstore Hs Hcs Hup. apply (get_fd_text_spec fc (ref_of name loc r) mg text l Hgroup Ht); [done|done|].
  destruct Hup as [?|?]; [left|by right]. split; [|done]. unfold ref_owned_by. cbn. rewrite Hstore.
  by apply bool_decide_eq_true_2.
Qed.

(** The descriptor [get] rebuilds, before it chooses the version to serve. *)
Definition rebuilt (now : datetime) (name : string) (fd : TGFSFileDesc) : TGFSFileDesc :=
  {| fd_name := name; latest_version_id := latest_of (stored_pairs (stamp fc fd)); created_at := now;
     versions := map (fun kv => (kv.1, trust_version kv.2))
       (map (fun kv => (kv.1, relocate (fc_key fc) kv.2)) (stored_pairs (stamp fc fd)));
     complete := true |}.

Lemma rebuilt_get now name fd k v :
  fd_canonical (stamp fc fd) -> Dict.get k (versions fd) = Some v ->
  owned_by (fc_key fc) (stamp_version fc v) = true ->
  Dict.get k (versions (rebuilt now name fd)) = Some (served_version fc v).
Proof.
  intros [Hwf _] Hv Ho. unfold rebuilt. cbn [versions]. rewrite (dict_get_map trust_version), (dict_get_map (relocate (fc_key fc))).
  rewrite stored_pairs_get, stamp_get, Hv by done. cbn. rewrite relocate_owned; [done|].
  unfold owned_by, reloaded in *. exact Ho.
Qed.

Lemma point_at_latest now hv fd v :
  Dict.get (latest_version_id fd) (versions fd) = Some v -> readable fc v = true -> hv = true ->
  point_at_readable fc now hv fd = Ok fd.
Proof. intros Hv Hr ->. unfold point_at_readable. by rewrite Hv, Hr. Qed.

(** The descriptor a successful save leaves is served by [get], from
    whichever copy answers first. *)
Lemma saved_served name loc fd r now ia (l l1 l2 : Live W) v :
  NoDup (mg_stores mg) -> mg_strict mg = false -> fc_key fc ∉ mg_stores mg ->
  fd_canonical (stamp fc fd) -> dates_distinct fd -> validate_name name = Ok tt ->
  Dict.get (latest_version_id fd) (versions fd) = Some v -> is_valid v = true ->
  owned_by (fc_key fc) v = true ->
  fd_save fc fd None l = (Ok r, l1) ->
  texts_kept (lv_world l1) (lv_world l2) -> copy_answers (lv_world l2) r ->
  exists l3, fd_get fc now (ref_of name loc r) ia false l2 = (Ok (ref_of name loc r, rebuilt now name fd), l3).
Proof.
  intros Hnd Hst Hkey Hcan Hdd Hname Hv Hval Hown Hsave Hkept Hup. unfold fd_save in Hsave.
  destruct (send_descriptor_spec _ _ _ _ Hnd Hst Hkey Hsave) as (text & Htext & Hstore & Hsays & Hcs).
  unfold fd_to_json in Htext. destruct (desc_to_dict (stamp fc fd)) as [ds|] eqn:Hds; [|done].
  cbn [rbind] in Htext. apply Ok_inj in Htext. subst text.
  destruct (get_fd_text_of r name loc (dumps ds) l2) as (l3 & Hget);
    [apply dumps_nonempty|done|by apply Hkept|by eapply copies_say_kept|done|].
  exists l3. unfold fd_get. replace (ref_relocate (fc_key fc) (ref_of name loc r)) with (ref_of name loc r).
  2: { unfold ref_relocate. cbn. rewrite Hstore. by rewrite bool_decide_eq_true_2. }
  unfold sbind at 1. rewrite Hget, bool_decide_eq_false_2 by apply dumps_nonempty.
  unfold sbind at 1, slift at 1. rewrite loads_dumps. unfold sbind at 1, slift at 1. cbn [fr_name ref_of].
  rewrite (desc_reload (stamp fc fd) ds now _ Hcan Hds Hname). unfold sbind, slift, trust_recorded, with_versions. cbn [fd_name latest_version_id created_at versions complete].
  change (point_at_readable fc now ?hv _) with (point_at_readable fc now hv (rebuilt now name fd)).
  assert (owned_by (fc_key fc) (stamp_version fc v) = true) as Ho.
  { unfold stamp_version, owned_by in *. destruct (_ && _); [|done]. cbn. by apply bool_decide_eq_true_2. }
  assert (is_valid (stamp_version fc v) = true) as Hval' by (unfold stamp_version; by destruct (_ && _)).
  erewrite (point_at_latest now _ (rebuilt now name fd) (served_version fc v)); [done| | |].
  - unfold rebuilt at 1. cbn [latest_version_id]. rewrite latest_of_stored by (apply Hcan || by apply stamp_dates).
    by apply rebuilt_get.
  - unfold readable, served_version, is_valid. destruct (trust_version_fields (reloaded (stamp_version fc v))) as (_ & _ & ->).
    unfold is_valid in Hval'. cbn. by rewrite Hval'.
  - apply existsb_exists. exists (reloaded (stamp_version fc v)). split; [|exact Hval'].
    unfold get_versions, Dict.values. cbn [versions]. apply in_map_iff. exists (latest_version_id fd, reloaded (stamp_version fc v)). split; [done|].
    apply in_map_iff. exists (latest_version_id fd, reloaded (stamp_version fc v)). split; [cbn; by rewrite relocate_owned|].
    apply Dict.get_Some_In. destruct Hcan as [Hwf _]. by rewrite stored_pairs_get, stamp_get, Hv.
Qed.


End Saved.

(** ** A text encoding *)

(** A descriptor as a string of bits. *)
Fixpoint bits (p : positive) : string :=
  match p with
  | xH => "]"
  | xO p => String "0" (bits p)
  | xI p => String "1" (bits p)
  end.

Fixpoint of_bits (s : string) : option positive :=
  match s with
  | EmptyString => None
  | String c s =>
      if bool_decide (c = "]"%char) then Some xH
      else if bool_decide (c = "0"%char) then xO <$> of_bits s
      else xI <$> of_bits s
  end.

Lemma of_bits_bits p : of_bits (bits p) = Some p.
Proof. induction p as [p IH|p IH|]; simpl; by rewrite ?IH. Qed.

#[export] Instance ReplicaSerialized_eq_dec : EqDecision ReplicaSerialized.
Proof. solve_decision. Defined.

#[export] Instance TGFSFileVersionSerialized_eq_dec : EqDecision TGFSFileVersionSerialized.
Proof. solve_decision. Defined.

#[export] Instance ReplicaSerialized_countable : Countable ReplicaSerialized.
Proof.
  refine (inj_countable' (fun r => (rs_m r, rs_mb r, rs_p r, rs_n r))
    (fun '(a, b, c, d) => {| rs_m := a; rs_mb := b; rs_p := c; rs_n := d |}) _). by intros [].
Defined.

#[export] Instance TGFSFileVersionSerialized_countable : Countable TGFSFileVersionSerialized.
Proof.
  refine (inj_countable' (fun v => (vs_id v, vs_updatedAt v, vs_messageId v, vs_messageIds v, vs_size v,
                                    vs_mirrors v, vs_replicas v, vs_store v, vs_pending v))
    (fun '(a, b, c, d, e, f, g, h, i) =>
       {| vs_id := a; vs_updatedAt := b; vs_messageId := c; vs_messageIds := d; vs_size := e;
          vs_mirrors := f; vs_replicas := g; vs_store := h; vs_pending := i |}) _). by intros [].
Defined.

#[export] Instance bits_json : FDJson := {
  dumps ds := bits (encode ds);
  loads s := match of_bits s ≫= decode with Some ds => Ok ds | None => Raise ValueError end
}.

#[export] Instance bits_json_laws : FDJsonLaws.
Proof.
  split; intros ds; cbn [loads dumps bits_json].
  - rewrite of_bits_bits. cbn [mbind option_bind]. by rewrite decode_encode.
  - by destruct (encode ds).
Qed.

(** ** Witnesses *)

Definition demo_repo : FDConfig :=
  {| fc_key := "tg:1"; fc_group := Some demo_group; fc_local_versions := None |}.

Definition up_live : Live MemWorld := {| lv_world := up_world; lv_dead_until := 0 |}.

(** The same world with the primary out of order. *)
Definition without_primary (l : Live MemWorld) : Live MemWorld :=
  {| lv_world := {| mw_docs := mw_docs (lv_world l); mw_down := ["tg:1"%string]; mw_texts := mw_texts (lv_world l);
                    mw_next := mw_next (lv_world l); mw_clock := mw_clock (lv_world l) |};
     lv_dead_until := lv_dead_until l |}.


(** The latest version has lost its messages; the older one is served. *)
Lemma served_version_readable_witness :
  exists fd', point_at_readable demo_repo FIRST_DAY_OF_EPOCH true (demo_desc "b" [demo_a; set_invalid demo_b]) = Ok fd' /\
    Dict.get (latest_version_id fd') (versions fd') = Some demo_a.
Proof.
  destruct (point_at_readable demo_repo FIRST_DAY_OF_EPOCH true (demo_desc "b" [demo_a; set_invalid demo_b])) as [fd'|] eqn:Hp;
    [|by vm_compute in Hp].
  pose proof (served_version_readable demo_repo FIRST_DAY_OF_EPOCH true (demo_desc "b" [demo_a; set_invalid demo_b]) fd') as Hs.
  exists fd'. split; [done|]. destruct Hs as (Hv & v & Hg & Hr & _).
  - split; [by apply (bool_decide_unpack _)|]. intros k v Hin. cbn in Hin.
    apply elem_of_cons in Hin as [[= -> ->]|Hin%list_elem_of_singleton]; [done|]. by injection Hin as -> ->.
  - done.
  - exact Hp.
  - rewrite Hv, Hg. apply Dict.get_Some_In in Hg. destruct Hg as [[= _ <-]|[[= _ <-]|[]]]; [done|by vm_compute in Hr].
Defined.

(** The primary has lost the second part; the mirror still has it. *)
Definition torn_world : MemWorld :=
  {| mw_docs := [("tg:1", 11, [x61; x62; x63]); ("tg:3", 31, [x61; x62; x63]); ("tg:3", 32, [x64; x65])]%string;
     mw_down := []; mw_texts := []; mw_next := 100; mw_clock := 5 |}.

Definition torn_version : TGFSFileVersion := set_mirrors [("tg:3", [31; 32])]%string demo_mirrored.

Lemma validation_keeps_version_witness :
  exists l', validate_version demo_repo
      [(11, {| mr_message_id := 11; mr_text := ""; mr_document := Some 3 |})] torn_version
      {| lv_world := torn_world; lv_dead_until := 0 |} = (Ok (set_part_sizes [3; 2] torn_version), l').
Proof.
  destruct (validation_keeps_version demo_repo demo_group eq_refl
    [(11, {| mr_message_id := 11; mr_text := ""; mr_document := Some 3 |})] torn_version demo_parts
    {| lv_world := torn_world; lv_dead_until := 0 |} eq_refl) as (l' & Hl & _); [|by exists l'].
  assert (forall j k m, mirror_of torn_version j k m -> k = "tg:3"%string /\ [31; 32] !! j = Some m) as Hof.
  { intros j k m (ids & Hin & Hm & _). apply list_elem_of_singleton in Hin. by injection Hin as -> ->. }
  assert (forall j m b, [31; 32] !! j = Some m -> 0 < m -> mem_doc torn_world "tg:3" m = Some b ->
    exists k m, mirror_of torn_version j k m /\ group_store demo_group k <> None /\ up torn_world k /\ holds torn_world k m b) as Hex.
  { intros j m b Hj Hp Hm. exists "tg:3"%string, m. split; [exists [31; 32]; split; [left|done]|].
    split; [done|]. split; [apply not_elem_of_nil|exact Hm]. }
  intros [|[|j]] mid b; cbn; [intros [= <-] [= <-]|intros [= <-] [= <-]|done].
  - split; [by intros m n [= <-] [= <-]|]. split; [|right; by apply (Hex 0%nat 31)].
    intros k m b' [-> [= <-]]%Hof _ Hb. by injection Hb.
  - split; [by intros m n [=]|]. split; [|right; by apply (Hex 1%nat 32)].
    intros k m b' [-> [= <-]]%Hof _ Hb. by injection Hb.
Defined.
