(* ===== verification/ConfigValue.v ===== *)
(** * Values of a YAML file, as Python handles them

    [yaml.safe_load] yields these values; the functions are the built-ins the
    configuration is read with, errors included.  Text forms that depend on
    Python's printer ([str] of a list or a date) are [py_repr]. *)

From stdpp Require Import pretty.
From S2P Require Import Prelude Errors.

Open Scope Z_scope.
Open Scope py_scope.

Inductive yaml :=
| YNull
| YBool (b : bool)
| YInt (n : Z)
| YFloat (trunc : exc Z) (repr : string) (zero : bool)   (* [int(x)], [str(x)], [x == 0] *)
| YStr (s : string)
| YList (l : list yaml)
| YDict (d : list (yaml * yaml))
| YOther (repr : string).                                (* dates *)

(** The truth value of a value, [x or default]. *)
Definition truth (y : yaml) : bool :=
  match y with
  | YNull => false
  | YBool b => b
  | YInt n => negb (n =? 0)
  | YFloat _ _ zero => negb zero
  | YStr s => negb (bool_decide (s = EmptyString))
  | YList l => nonempty l
  | YDict d => nonempty d
  | YOther _ => true
  end.

Definition y_or (y dflt : yaml) : yaml := if truth y then y else dflt.

(** ** [int(str)] *)

Definition is_space (c : ascii) : bool :=
  let n := nat_of_ascii c in (((9 <=? n) && (n <=? 13)) || (n =? 32))%nat.

Fixpoint lstrip (s : string) : string :=
  match s with
  | String c s' => if is_space c then lstrip s' else s
  | EmptyString => EmptyString
  end.

Fixpoint str_rev_app (s acc : string) : string :=
  match s with EmptyString => acc | String c s => str_rev_app s (String c acc) end.
Definition str_rev (s : string) : string := str_rev_app s EmptyString.
Definition strip (s : string) : string := str_rev (lstrip (str_rev (lstrip s))).

Definition digit_of (c : ascii) : option Z :=
  let n := nat_of_ascii c in if ((48 <=? n) && (n <=? 57))%nat then Some (Z.of_nat n - 48) else None.

Fixpoint digits (s : string) (acc : Z) (after_digit : bool) : option Z :=
  match s with
  | EmptyString => if after_digit then Some acc else None
  | String c s =>
      match digit_of c with
      | Some d => digits s (acc * 10 + d) true
      | None => if bool_decide (c = "_"%char) && after_digit then digits s acc false else None
      end
  end.

Definition int_of_string (s : string) : exc Z :=
  let r := match strip s with
           | String "-" s => option_map Z.opp (digits s 0 false)
           | String "+" s => digits s 0 false
           | s => digits s 0 false
           end in
  match r with Some n => Ok n | None => Raise ValueError end.

Definition py_int (y : yaml) : exc Z :=
  match y with
  | YInt n => Ok n
  | YBool b => Ok (if b then 1 else 0)
  | YFloat trunc _ _ => trunc
  | YStr s => int_of_string s
  | _ => Raise TypeError
  end.

(** ** Dictionaries and sequences *)

Definition is_key (key : string) (y : yaml) : bool := match y with YStr s => bool_decide (s = key) | _ => false end.

Definition y_lookup (key : string) (d : list (yaml * yaml)) : option yaml :=
  option_map snd (List.find (fun kv => is_key key kv.1) d).

(** [data.get(key)] *)
Definition y_get (data : yaml) (key : string) : exc (option yaml) :=
  match data with YDict d => Ok (y_lookup key d) | _ => Raise AttributeError end.

(** [data.get(key, dflt)] *)
Definition y_get_or (data : yaml) (key : string) (dflt : yaml) : exc yaml := rmap (default dflt) (y_get data key).

(** [data[key]] *)
Definition y_item (data : yaml) (key : string) : exc yaml :=
  match data with
  | YDict d => match y_lookup key d with Some v => Ok v | None => Raise KeyError end
  | _ => Raise TypeError
  end.

(** [key in data] *)
Definition y_in (key : string) (data : yaml) : exc bool :=
  match data with
  | YDict d => Ok (bool_decide (is_Some (y_lookup key d)))
  | YList l => Ok (existsb (is_key key) l)
  | YStr s => Ok (bool_decide (is_Some (String.index 0 key s)))
  | _ => Raise TypeError
  end.

(** [data.items()] *)
Definition y_items (data : yaml) : exc (list (yaml * yaml)) :=
  match data with YDict d => Ok d | _ => Raise AttributeError end.

Fixpoint str_chars (s : string) : list yaml :=
  match s with EmptyString => [] | String c s => YStr (String c EmptyString) :: str_chars s end.

(** [for x in data] *)
Definition y_iter (data : yaml) : exc (list yaml) :=
  match data with
  | YList l => Ok l
  | YDict d => Ok (map fst d)
  | YStr s => Ok (str_chars s)
  | _ => Raise TypeError
  end.

Section Text.
  Context (py_repr : yaml -> string).

(** [str(x)] *)
Definition py_str (y : yaml) : string :=
  match y with
  | YNull => "None"
  | YBool b => if b then "True" else "False"
  | YInt n => pretty n
  | YFloat _ repr _ => repr
  | YStr s => s
  | YList _ | YDict _ => py_repr y
  | YOther repr => repr
  end.

(** [[str(x) for x in data]] *)
Definition py_strs (data : yaml) : exc (list string) := rmap (map py_str) (y_iter data).

End Text.

(** ** Entries of a section of the file

    [int(data.get(key, dflt))] with a bound that makes a [ValueError]. *)
Definition int_entry (data : yaml) (key : string) (dflt : Z) : exc Z :=
  let* y := y_get_or data key (YInt dflt) in py_int y.

Definition at_least (bound : Z) (data : yaml) (key : string) (dflt : Z) : exc Z :=
  let* value := int_entry data key dflt in
  if value <? bound then Raise ValueError else Ok value.

Definition bool_entry (data : yaml) (key : string) (dflt : bool) : exc bool :=
  rmap truth (y_get_or data key (YBool dflt)).

Lemma at_least_bound bound data key dflt n : at_least bound data key dflt = Ok n -> bound <= n.
Proof.
  unfold at_least. destruct (int_entry data key dflt) as [m|]; simpl; [|done].
  destruct (Z.ltb_spec m bound); [done|]. by intros [= <-].
Qed.

(** A chain of readers that returned returned at every step. *)
Lemma rbind_Ok {A B} (m : exc A) (k : A -> exc B) b : rbind m k = Ok b -> exists a, m = Ok a /\ k a = Ok b.
Proof. destruct m as [a|]; simpl; [|done]. intros Hk. by exists a. Qed.

Lemma rmap_Ok {A B} (f : A -> B) (m : exc A) b : rmap f m = Ok b -> exists a, m = Ok a /\ b = f a.
Proof. unfold rmap. intros (a & Hm & [= <-])%rbind_Ok. by exists a. Qed.

(** Takes a successful reader apart, one binding at a time. *)
Ltac read_step H :=
  let x := fresh "x" in let Hx := fresh "Hx" in
  apply rbind_Ok in H as (x & Hx & H); cbn beta in H.
Ltac read_guard H :=
  match type of H with
  | (if ?b then _ else _) = Ok _ => let E := fresh "E" in destruct b eqn:E; try discriminate H
  end.
Ltac read_all H := repeat (first [read_step H | read_guard H]).

Example int_of_string_1 : int_of_string " -1_000 " = Ok (-1000).
Proof. reflexivity. Qed.
Example int_of_string_2 : int_of_string "1__0" = Raise ValueError.
Proof. reflexivity. Qed.

(** ** [int(str(n))] is [n]: the decimal text of a message id *)

Lemma digit_of_char n : (n < 10)%N -> digit_of (pretty_N_char n) = Some (Z.of_N n).
Proof. intros Hn. destruct n as [|n]; [done|]. by repeat (destruct n as [n|n|]; try done; try lia). Qed.

(** The digits of [x] in front of [s] are read as [x]. *)
Lemma digits_go x : (0 < x)%N -> forall s ad, digits (pretty_N_go x s) 0 ad = digits s (Z.of_N x) true.
Proof.
  induction (N.lt_wf_0 x) as [x _ IH]. intros Hx s ad. rewrite pretty_N_go_step by done.
  pose proof (N.mod_lt x 10 ltac:(done)) as Hm. pose proof (N.div_mod x 10 ltac:(done)) as Hd.
  destruct (decide (x / 10 = 0)%N) as [He|Hne].
  - rewrite He, pretty_N_go_0. cbn [digits]. rewrite digit_of_char by done. f_equal. lia.
  - rewrite IH; [|by apply N.div_lt|lia]. cbn [digits]. rewrite digit_of_char by done. f_equal. lia.
Qed.

Fixpoint spaceless (s : string) : bool := match s with EmptyString => true | String c s => negb (is_space c) && spaceless s end.

Lemma lstrip_spaceless s : spaceless s = true -> lstrip s = s.
Proof. destruct s as [|c s]; [done|]. simpl. by destruct (is_space c). Qed.

Lemma spaceless_rev_app s : forall acc, spaceless (str_rev_app s acc) = spaceless s && spaceless acc.
Proof.
  induction s as [|c s IH]; intros acc; [done|]. simpl. rewrite IH. simpl. by destruct (is_space c), (spaceless s), (spaceless acc).
Qed.

Lemma rev_app_twice s : forall acc acc', str_rev_app (str_rev_app s acc) acc' = str_rev_app acc (s +:+ acc').
Proof. induction s as [|c s IH]; intros acc acc'; [done|]. simpl. by rewrite IH. Qed.

Lemma strip_spaceless s : spaceless s = true -> strip s = s.
Proof.
  intros Hs. unfold strip, str_rev. rewrite (lstrip_spaceless s Hs), lstrip_spaceless, rev_app_twice by by rewrite spaceless_rev_app, Hs.
  simpl. clear Hs. induction s as [|c s IH]; [done|]. change (String c (s +:+ "") = String c s). by rewrite IH.
Qed.

Lemma spaceless_go x : forall s, spaceless s = true -> spaceless (pretty_N_go x s) = true.
Proof.
  induction (N.lt_wf_0 x) as [x _ IH]. intros s Hs. destruct (decide (0 < x)%N) as [Hx|Hx].
  - rewrite pretty_N_go_step by done. apply IH; [by apply N.div_lt|]. simpl. rewrite Hs, andb_true_r.
    pose proof (N.mod_lt x 10 ltac:(done)) as Hm. destruct (x `mod` 10)%N as [|n]; [done|].
    by repeat (destruct n as [n|n|]; try done; try lia).
  - assert (x = 0%N) as -> by lia. done.
Qed.

(** A text that is read as [n], and the same text behind a sign. *)
Lemma digits_pretty_N (n : N) : spaceless (pretty n) = true /\ digits (pretty n) 0 false = Some (Z.of_N n).
Proof.
  unfold pretty, pretty_N. destruct (decide (n = 0%N)) as [->|Hne]; [done|]. split; [by apply spaceless_go|].
  rewrite digits_go by lia. done.
Qed.

Lemma pretty_N_digit (n : N) : exists c s, pretty n = String c s /\ digit_of c <> None.
Proof.
  destruct (digits_pretty_N n) as [_ Hd]. destruct (pretty n) as [|c s]; [done|]. exists c, s. split; [done|]. simpl in Hd.
  intros He. rewrite He in Hd. by rewrite andb_false_r in Hd.
Qed.

Lemma unsigned c s : digit_of c <> None ->
  match String c s with String "-" s => option_map Z.opp (digits s 0 false) | String "+" s => digits s 0 false | s => digits s 0 false end
  = digits (String c s) 0 false.
Proof. intros Hc. destruct c as [[] [] [] [] [] [] [] []]; first [reflexivity | by destruct Hc]. Qed.

Lemma int_of_pretty (n : Z) : int_of_string (pretty n) = Ok n.
Proof.
  unfold int_of_string. destruct n as [|p|p]; [done| |].
  - destruct (digits_pretty_N (N.pos p)) as [Hs Hd]. destruct (pretty_N_digit (N.pos p)) as (c & s & He & Hc).
    change (pretty (Z.pos p)) with (pretty (N.pos p)). rewrite strip_spaceless by done. rewrite He in Hd |- *. by rewrite unsigned, Hd.
  - destruct (digits_pretty_N (N.pos p)) as [Hs Hd].
    change (pretty (Z.neg p)) with (String "-" (pretty (N.pos p))). rewrite strip_spaceless by done. by rewrite Hd.
Qed.
