(* ===== verification/CacheEntry.v ===== *)
(** * Blocks of a cached version
      ([CacheEntry] of [tgdcfs/core/local_cache.py])

    An entry knows which blocks of a version are on disk.  What is missing of
    a range is a list of block-aligned runs; what an entry is charged for is
    the sum of the blocks it holds, or its whole size while it is written. *)

From S2P Require Import Prelude.

Open Scope Z_scope.

(** [ce_uid] is the identity of the object; a byte of [present] is a bool. *)
Record CacheEntry := {
  ce_uid : nat;
  ce_version_id : string;
  ce_fs : string;
  ce_size : Z;
  ce_block_size : Z;
  ce_present : list bool;
  ce_last_access : Z;
  ce_pins : Z;
  ce_writing : bool;
  ce_inflight : Z;
  ce_pinned_at : Z
}.

Definition blocks_for (size block_size : Z) : Z := Z.max 0 ((size + block_size - 1) / block_size).

Section CacheEntry.
  Context (e : CacheEntry).

Definition evictable : bool := (ce_pins e =? 0) && negb (ce_writing e) && (ce_inflight e =? 0).

Definition blocks : Z := zlen (ce_present e).

Definition block_length (index : Z) : Z :=
  if index <? blocks - 1 then ce_block_size e else ce_size e - index * ce_block_size e.

Definition present_at (index : Z) : bool := default false (znth (ce_present e) index).

Definition present_bytes : Z :=
  zsum (map (fun ip => if ip.2 : bool then block_length ip.1 else 0) (zip (seqZ 0 blocks) (ce_present e))).

Definition charged_bytes : Z := if ce_writing e then ce_size e else present_bytes + ce_inflight e.

Definition is_complete : bool := (ce_size e =? 0) || forallb id (ce_present e).

Definition entry_has_range (begin last : Z) : bool :=
  if ce_size e =? 0 then true
  else if (begin <? 0) || (ce_size e <=? last) || (last <? begin) then false
  else forallb id (zslice (begin / ce_block_size e) (last / ce_block_size e + 1) (ce_present e)).

Fixpoint runs_loop (last : Z) (indices : list Z) (run_start : option Z) (runs : list (Z * Z)) : list (Z * Z) :=
  match indices with
  | [] => runs
  | index :: indices =>
      let missing := (index <=? last) && negb (present_at index) in
      match missing, run_start with
      | true, None => runs_loop last indices (Some index) runs
      | false, Some start =>
          runs_loop last indices None
            (runs ++ [(start * ce_block_size e, (index - 1) * ce_block_size e + block_length (index - 1) - 1)])
      | _, _ => runs_loop last indices run_start runs
      end
  end.

Definition missing_runs (begin last : Z) : list (Z * Z) :=
  if ce_size e =? 0 then []
  else
    let last := Z.min last (ce_size e - 1) in
    let first_block := begin / ce_block_size e in
    let last_block := last / ce_block_size e in
    runs_loop last_block (seqZ first_block (last_block + 2 - first_block)) None [].

End CacheEntry.

(** ** Well-formed entries *)

Record entry_ok (e : CacheEntry) : Prop := {
  eo_size : 0 <= ce_size e;
  eo_block : 0 < ce_block_size e;
  eo_blocks : blocks e = blocks_for (ce_size e) (ce_block_size e);
  eo_pins : 0 <= ce_pins e;
  eo_inflight : 0 <= ce_inflight e;
  eo_writing : ce_writing e = true -> ce_inflight e = 0
}.

Section EntryOk.
  Context (e : CacheEntry) (He : entry_ok e).

Lemma blocks_cover : ce_size e <= blocks e * ce_block_size e /\ (0 < ce_size e -> (blocks e - 1) * ce_block_size e < ce_size e).
Proof.
  destruct He as [Hs Hb Hn _ _ _]. rewrite Hn. unfold blocks_for.
  pose proof (Z.div_mod (ce_size e + ce_block_size e - 1) (ce_block_size e) ltac:(lia)).
  pose proof (Z.mod_pos_bound (ce_size e + ce_block_size e - 1) (ce_block_size e) Hb).
  pose proof (Z.div_pos (ce_size e + ce_block_size e - 1) (ce_block_size e) ltac:(lia) Hb). nia.
Qed.

(** The block of a byte. *)
Lemma block_of_byte p : 0 <= p < ce_size e -> 0 <= p / ce_block_size e < blocks e.
Proof.
  intros Hp. destruct He as [Hs Hb _ _ _ _]. destruct blocks_cover as [Hc _].
  split; [apply Z.div_pos; lia|]. apply Z.div_lt_upper_bound; lia.
Qed.

Lemma block_length_pos i : 0 <= i < blocks e -> 0 < block_length e i <= ce_block_size e.
Proof.
  intros Hi. destruct He as [Hs Hb _ _ _ _]. destruct blocks_cover as [Hc Hc']. unfold block_length.
  destruct (i <? blocks e - 1) eqn:Hl; [apply Z.ltb_lt in Hl; lia|apply Z.ltb_ge in Hl].
  assert (i = blocks e - 1) as -> by lia.
  assert (0 < ce_size e) by (destruct (decide (ce_size e = 0)); [|lia]; destruct He as [_ _ Hn _ _ _];
    rewrite Hn in Hi; unfold blocks_for in Hi; rewrite Z.div_small in Hi; lia).
  specialize (Hc' ltac:(done)). lia.
Qed.

(** Byte [p] is in block [i] exactly when it lies between its bounds. *)
Lemma in_block i p : 0 <= i < blocks e -> 0 <= p < ce_size e ->
  p / ce_block_size e = i <-> i * ce_block_size e <= p < i * ce_block_size e + block_length e i.
Proof.
  intros Hi Hp. destruct He as [Hs Hb _ _ _ _]. pose proof (block_of_byte p Hp) as Hpb.
  pose proof (Z.div_mod p (ce_block_size e) ltac:(lia)). pose proof (Z.mod_pos_bound p (ce_block_size e) Hb).
  unfold block_length. destruct (i <? blocks e - 1) eqn:Hl; [apply Z.ltb_lt in Hl|apply Z.ltb_ge in Hl].
  - split; [intros <-; lia|]. intros. nia.
  - split; [intros <-; nia|]. intros. nia.
Qed.

(** ** What an entry is charged for *)

(** The bytes of the blocks selected by [f]. *)
Definition bytes_of_blocks (f : Z -> bool) (l : list Z) : Z :=
  zsum (map (fun i => if f i then block_length e i else 0) l).

Lemma zip_seqZ (l : list bool) a :
  zip (seqZ a (zlen l)) l = map (fun i => (i, default false (znth l (i - a)))) (seqZ a (zlen l)).
Proof.
  revert a. induction l as [|x l IH]; intros a; [done|]. rewrite zlen_cons. pose proof (zlen_nonneg l).
  rewrite seqZ_cons by lia. replace (Z.pred (1 + zlen l)) with (zlen l) by lia. cbn [zip_with map].
  rewrite Z.sub_diag. f_equal. rewrite IH. apply map_ext_in. intros i Hi%list_elem_of_In%elem_of_seqZ. f_equal. f_equal.
  unfold znth. rewrite !(proj2 (Z.ltb_ge _ _)) by lia. by replace (Z.to_nat (i - a)) with (S (Z.to_nat (i - Z.succ a))) by lia.
Qed.

Lemma present_bytes_sum : present_bytes e = bytes_of_blocks (present_at e) (seqZ 0 (blocks e)).
Proof.
  unfold present_bytes, bytes_of_blocks, blocks. rewrite zip_seqZ, map_map. f_equal. apply map_ext. intros i.
  cbn [fst snd]. by rewrite Z.sub_0_r.
Qed.

Lemma bytes_of_blocks_le f g l :
  (forall i, i ∈ l -> f i = true -> g i = true) -> (forall i, i ∈ l -> 0 <= i < blocks e) ->
  0 <= bytes_of_blocks f l <= bytes_of_blocks g l.
Proof.
  unfold bytes_of_blocks. induction l as [|i l IH]; intros Hfg Hl; simpl; [lia|].
  destruct IH; [intros j Hj; apply Hfg; by right|intros j Hj; apply Hl; by right|].
  pose proof (block_length_pos i (Hl i ltac:(left))). specialize (Hfg i ltac:(left)).
  destruct (f i); [rewrite Hfg by done; lia|]. destruct (g i); lia.
Qed.

Lemma bytes_of_all n : 0 <= n < blocks e -> bytes_of_blocks (fun _ => true) (seqZ 0 n) = n * ce_block_size e.
Proof.
  intros Hn. assert (0 <= n) as Hn0 by lia. revert Hn. pattern n. apply natlike_ind; [done| |done]. clear n Hn0.
  intros n Hn IH Hl. rewrite <- Z.add_1_r, seqZ_app by lia. unfold bytes_of_blocks in *. rewrite map_app, zsum_app, IH by lia.
  rewrite Z.add_0_l, seqZ_cons, seqZ_nil by lia. simpl. unfold block_length. rewrite (proj2 (Z.ltb_lt _ _)) by lia. lia.
Qed.

Lemma bytes_of_all_blocks : bytes_of_blocks (fun _ => true) (seqZ 0 (blocks e)) = ce_size e.
Proof.
  destruct blocks_cover as [Hc Hc']. pose proof (eo_size _ He). pose proof (eo_block _ He). pose proof (zlen_nonneg (ce_present e)) as Hz.
  fold (blocks e) in Hz. destruct (decide (blocks e = 0)) as [Hnone|Hnone].
  - rewrite Hnone, seqZ_nil by lia. cbn. nia.
  - replace (blocks e) with ((blocks e - 1) + 1) at 1 by lia. rewrite seqZ_app by lia.
    unfold bytes_of_blocks. rewrite map_app, zsum_app. fold (bytes_of_blocks (fun _ => true) (seqZ 0 (blocks e - 1))).
    rewrite bytes_of_all by lia. rewrite Z.add_0_l, seqZ_cons, seqZ_nil by lia. simpl. unfold block_length.
    rewrite Z.ltb_irrefl. lia.
Qed.

Lemma present_bytes_bounds : 0 <= present_bytes e <= ce_size e.
Proof.
  rewrite present_bytes_sum, <- bytes_of_all_blocks. apply bytes_of_blocks_le; [done|].
  intros i Hi%elem_of_seqZ. lia.
Qed.

Lemma charged_bytes_nonneg : 0 <= charged_bytes e.
Proof.
  unfold charged_bytes. pose proof (eo_size _ He). pose proof (eo_inflight _ He). pose proof present_bytes_bounds.
  destruct (ce_writing e); lia.
Qed.

(** ** What is missing of a range *)

(** Blocks [a] to [b] as the byte range of a run. *)
Definition run_bytes (ab : Z * Z) : Z * Z :=
  (ab.1 * ce_block_size e, ab.2 * ce_block_size e + block_length e ab.2 - 1).

(** The maximal runs of absent blocks from [lo] to [last]. *)
Record runs_ok (lo last : Z) (rest : list (Z * Z)) : Prop := {
  ro_sorted : StronglySorted (fun x y => x.2 < y.1) rest;
  ro_absent : forall a b, (a, b) ∈ rest ->
    lo <= a /\ a <= b /\ b <= last /\ forall j, a <= j <= b -> present_at e j = false;
  ro_all : forall j, lo <= j <= last -> present_at e j = false -> exists a b, (a, b) ∈ rest /\ a <= j <= b
}.

Lemma runs_loop_spec last n i start runs :
  0 <= n -> i + n = last + 2 ->
  (forall s, start = Some s -> s < i <= last + 1 /\ forall j, s <= j < i -> present_at e j = false) ->
  exists rest, runs_loop e last (seqZ i n) start runs = runs ++ map run_bytes rest /\ runs_ok (default i start) last rest.
Proof.
  intros Hn. revert i start runs. pattern n. apply natlike_ind; [| |done]; clear n Hn.
  - intros i start runs Hi Hs. exists []. rewrite seqZ_nil by lia. simpl. rewrite app_nil_r. split; [done|].
    destruct start as [s|]; [destruct (Hs s eq_refl); lia|]. simpl. split; [constructor| |lia]. by intros a b ?%not_elem_of_nil.
  - intros n Hn IH i start runs Hi Hs. rewrite seqZ_cons by lia. rewrite Z.pred_succ. cbn [runs_loop].
    destruct ((i <=? last) && negb (present_at e i)) eqn:Hm.
    + apply andb_prop in Hm as [Hil%Z.leb_le Hp%negb_true_iff].
      destruct (IH (Z.succ i) (Some (default i start)) runs ltac:(lia)) as (rest & Hr & Hok).
      { intros s [= <-]. destruct start as [s|]; simpl; [destruct (Hs s eq_refl) as [? Hj]|].
        - split; [lia|]. intros j Hj'. destruct (decide (j = i)) as [->|]; [done|]. apply Hj. lia.
        - split; [lia|]. intros j Hj'. by replace j with i by lia. }
      exists rest. simpl in Hok. split; [|by destruct start]. destruct start; exact Hr.
    + assert (last < i \/ present_at e i = true) as Hno.
      { apply andb_false_iff in Hm as [Hm%Z.leb_gt|Hm%negb_false_iff]; auto. }
      destruct start as [s|].
      * destruct (Hs s eq_refl) as [Hsi Habs].
        destruct (IH (Z.succ i) None (runs ++ [run_bytes (s, i - 1)]) ltac:(lia) ltac:(done)) as (rest & Hr & Hok).
        exists ((s, i - 1) :: rest). simpl in Hok. split; [unfold run_bytes in *; simpl in *; by rewrite Hr, <- app_assoc|].
        destruct Hok as [Hsort Habsent Hall]. simpl. split.
        -- constructor; [done|]. apply List.Forall_forall. intros [a b] Hin%list_elem_of_In. simpl. destruct (Habsent a b Hin). lia.
        -- intros a b [[= -> ->]|Hin]%elem_of_cons; [split_and!; try lia; intros j Hj; apply Habs; lia|].
           destruct (Habsent a b Hin) as (? & ? & ? & ?). split_and!; try lia; done.
        -- intros j Hj Hp. destruct (decide (j < i)); [exists s, (i - 1); split; [left|lia]|].
           destruct (decide (j = i)) as [->|]; [destruct Hno; [lia|congruence]|].
           destruct (Hall j ltac:(lia) Hp) as (a & b & ? & ?). exists a, b. split; [by right|done].
      * destruct (IH (Z.succ i) None runs ltac:(lia) ltac:(done)) as (rest & Hr & [Hsort Habsent Hall]).
        exists rest. simpl in *. split; [done|]. split; [done| |].
        -- intros a b Hin. destruct (Habsent a b Hin) as (? & ? & ? & ?). split_and!; try lia; done.
        -- intros j Hj Hp. destruct (decide (j = i)) as [->|]; [destruct Hno; [lia|congruence]|]. apply Hall; [lia|done].
Qed.

Lemma missing_runs_blocks begin last :
  0 < ce_size e -> 0 <= begin <= last -> begin < ce_size e ->
  let lo := begin / ce_block_size e in let hi := Z.min last (ce_size e - 1) / ce_block_size e in
  exists rest, missing_runs e begin last = map run_bytes rest /\ runs_ok lo hi rest.
Proof.
  intros Hs Hb Hbs lo hi. unfold missing_runs. rewrite (proj2 (Z.eqb_neq _ _)) by lia.
  destruct He as [_ Hbl _ _ _ _]. assert (lo <= hi) by (apply Z.div_le_mono; lia).
  destruct (runs_loop_spec hi (hi + 2 - lo) lo None [] ltac:(lia) ltac:(lia) ltac:(done)) as (rest & Hr & Hok).
  exists rest. split; [exact Hr|exact Hok].
Qed.

End EntryOk.

(** What has to be fetched to serve [[begin, last]]. *)
Record exact_runs (e : CacheEntry) (begin last : Z) (runs : list (Z * Z)) : Prop := {
  er_bytes : forall p, begin <= p <= Z.min last (ce_size e - 1) ->
    present_at e (p / ce_block_size e) = false <-> exists r, r ∈ runs /\ r.1 <= p <= r.2;
  er_sorted : StronglySorted (fun x y => x.2 < y.1) runs;
  er_runs : Forall (fun r =>
    0 <= r.1 <= r.2 /\ r.2 < ce_size e /\ r.1 <= last /\ begin <= r.2 /\ (ce_block_size e | r.1) /\
    ((ce_block_size e | r.2 + 1) \/ r.2 = ce_size e - 1) /\
    forall p, r.1 <= p <= r.2 -> present_at e (p / ce_block_size e) = false) runs
}.

Lemma missing_runs_spec e begin last :
  entry_ok e -> 0 <= begin <= last -> begin < ce_size e -> exact_runs e begin last (missing_runs e begin last).
Proof.
  intros He Hb Hbs. pose proof (eo_block e He) as Hbl.
  destruct (missing_runs_blocks e He begin last) as (rest & Hruns & [Hsort Habs Hall]); [lia..|].
  set (hi := Z.min last (ce_size e - 1) / ce_block_size e) in *. rewrite Hruns.
  assert (0 <= begin / ce_block_size e) as Hlo by (apply Z.div_pos; lia).
  assert (hi < blocks e) as Hhi by (apply block_of_byte; [done|lia]).
  assert (forall a b p, (a, b) ∈ rest -> 0 <= p < ce_size e ->
    a <= p / ce_block_size e <= b <-> (run_bytes e (a, b)).1 <= p <= (run_bytes e (a, b)).2) as Hrun.
  { intros a b p Hin Hp. destruct (Habs a b Hin) as (? & ? & ? & _). unfold run_bytes. cbn [fst snd].
    pose proof (block_length_pos e He b ltac:(lia)). pose proof (block_of_byte e He p Hp) as Hpb.
    pose proof (proj1 (in_block e He _ p Hpb Hp) eq_refl). pose proof (block_length_pos e He _ Hpb).
    split; [|intros Hr; split; [apply Z.div_le_lower_bound; lia|]].
    - intros [Ha Hb0]. split; [nia|]. destruct (decide (p / ce_block_size e = b)) as [<-|]; [lia|]. nia.
    - apply Z.lt_succ_r, Z.div_lt_upper_bound; nia. }
  split.
  - intros p Hp. split.
    + intros Hf. assert (begin / ce_block_size e <= p / ce_block_size e <= hi) as Hpb by (split; apply Z.div_le_mono; lia).
      destruct (Hall _ Hpb Hf) as (a & b & Hin & Hab). exists (run_bytes e (a, b)).
      split; [by apply list_elem_of_fmap_2|]. by apply Hrun; [|lia|].
    + intros (r & ([a b] & -> & Hin)%list_elem_of_fmap & Hr). destruct (Habs a b Hin) as (_ & _ & _ & Hj). apply Hj.
      by apply Hrun; [|lia|].
  - clear -Hsort Habs Hlo Hhi Hbl He. induction Hsort as [|[a b] rest Hs IH Hf]; simpl; [constructor|].
    constructor; [apply IH; intros x y Hin; apply Habs; by right|]. apply List.Forall_forall.
    intros r ([a' b'] & <- & Hin)%in_map_iff. rewrite List.Forall_forall in Hf. specialize (Hf _ Hin). simpl in *.
    destruct (Habs a b ltac:(left)) as (? & ? & ? & _). pose proof (block_length_pos e He b ltac:(lia)). nia.
  - apply List.Forall_forall. intros r ([a b] & <- & Hin%list_elem_of_In)%in_map_iff.
    destruct (Habs a b Hin) as (? & ? & ? & Hj). pose proof (block_length_pos e He b ltac:(lia)) as Hbp.
    assert ((run_bytes e (a, b)).2 < ce_size e /\ ((ce_block_size e | (run_bytes e (a, b)).2 + 1) \/ (run_bytes e (a, b)).2 = ce_size e - 1)) as [Hr2 Hr2'].
    { unfold run_bytes, block_length. cbn [fst snd]. destruct (blocks_cover e He) as [_ Hc]. specialize (Hc ltac:(lia)).
      destruct (b <? blocks e - 1) eqn:Hbb; [apply Z.ltb_lt in Hbb|apply Z.ltb_ge in Hbb].
      - split; [nia|]. left. exists (b + 1). lia.
      - split; [lia|]. right. lia. }
    assert ((run_bytes e (a, b)).1 <= last /\ begin <= (run_bytes e (a, b)).2) as [Hov1 Hov2].
    { pose proof (Z.mul_div_le (Z.min last (ce_size e - 1)) (ce_block_size e) Hbl). fold hi in H2.
      pose proof (block_of_byte e He begin ltac:(lia)) as Hpb. pose proof (proj1 (in_block e He _ begin Hpb ltac:(lia)) eq_refl).
      pose proof (block_length_pos e He _ Hpb). unfold run_bytes. cbn [fst snd]. split; [nia|].
      destruct (decide (b = begin / ce_block_size e)) as [->|]; [lia|]. nia. }
    split_and!; [unfold run_bytes; simpl; nia|unfold run_bytes; simpl; nia|done|done|done|by exists a|done|].
    intros p Hp. apply Hj, Hrun; [done| |done]. unfold run_bytes in *. simpl in *. nia.
Qed.

(** The runs of [missing_runs] are what has to be fetched to serve a
    range: a byte of the range is in some run exactly when its block is not on
    disk; the runs ascend without touching one another, each overlaps the
    range, starts at a block boundary and ends at one or at the end of the
    version, and every byte of a run -- also the bytes the run was widened
    by -- is in an absent block. *)
Theorem missing_runs_exact e begin last :
  entry_ok e -> 0 <= begin <= last -> begin < ce_size e -> exact_runs e begin last (missing_runs e begin last).
Proof. apply missing_runs_spec. Qed.

(** Ten bytes in blocks of four, all but the first block missing. *)
Definition holed_entry : CacheEntry :=
  {| ce_uid := 0; ce_version_id := "v"; ce_fs := "fs"; ce_size := 10; ce_block_size := 4; ce_present := [true; false; false];
     ce_last_access := 0; ce_pins := 0; ce_writing := false; ce_inflight := 0; ce_pinned_at := 0 |}.

Lemma missing_runs_exact_witness :
  missing_runs holed_entry 2 9 = [(4, 9)] /\ exists r, r ∈ missing_runs holed_entry 2 9 /\ r.1 <= 5 <= r.2.
Proof.
  split; [reflexivity|]. assert (He : entry_ok holed_entry) by (split; simpl; try done; lia).
  apply (er_bytes _ _ _ _ (missing_runs_exact holed_entry 2 9 He ltac:(lia) ltac:(simpl; lia))); [simpl; lia|reflexivity].
Defined.

(** ** Marking blocks *)

Definition with_present (p : list bool) (e : CacheEntry) : CacheEntry :=
  {| ce_uid := ce_uid e; ce_version_id := ce_version_id e; ce_fs := ce_fs e; ce_size := ce_size e;
     ce_block_size := ce_block_size e; ce_present := p; ce_last_access := ce_last_access e; ce_pins := ce_pins e;
     ce_writing := ce_writing e; ce_inflight := ce_inflight e; ce_pinned_at := ce_pinned_at e |}.

(** [[i for i in blocks if not entry.present[i]]]. *)
Definition absent_blocks (e : CacheEntry) (blocks : list Z) : list Z :=
  List.filter (fun i => negb (present_at e i)) blocks.

(** [for i in changed: entry.present[i] = 1]. *)
Definition set_bits (changed : list Z) (p : list bool) : list bool :=
  foldl (fun p i => <[Z.to_nat i := true]> p) p changed.

Definition mark_blocks (blocks : list Z) (e : CacheEntry) : CacheEntry :=
  with_present (set_bits (absent_blocks e blocks) (ce_present e)) e.

Lemma length_set_bits l p : length (set_bits l p) = length p.
Proof. revert p. induction l as [|i l IH]; intros p; simpl; [done|]. by rewrite IH, length_insert. Qed.

Lemma znth_set_bits l p i : Forall (fun j => 0 <= j) l -> 0 <= i < zlen p ->
  default false (znth (set_bits l p) i) = default false (znth p i) || bool_decide (i ∈ l).
Proof.
  revert p. induction l as [|j l IH]; intros p Hl Hi; simpl.
  - by rewrite orb_false_r.
  - apply Forall_cons in Hl as [Hj Hl]. assert (zlen (<[Z.to_nat j:=true]> p) = zlen p) as Hlen by (unfold zlen; by rewrite length_insert).
    rewrite IH by (done || lia). unfold znth. rewrite !(proj2 (Z.ltb_ge _ _)) by lia.
    destruct (decide (i = j)) as [->|Hne].
    + rewrite list_lookup_insert_eq by (unfold zlen in Hi; lia). simpl. rewrite (bool_decide_eq_true_2 (j ∈ j :: l)) by left.
      by rewrite orb_true_r.
    + rewrite list_lookup_insert_ne by lia. f_equal. apply bool_decide_ext. rewrite elem_of_cons. naive_solver.
Qed.

Lemma Forall_absent (P : Z -> Prop) e l : Forall P l -> Forall P (absent_blocks e l).
Proof. rewrite !List.Forall_forall. intros Hl i [Hi _]%filter_In. by apply Hl. Qed.

Lemma mark_blocks_blocks l e : blocks (mark_blocks l e) = blocks e.
Proof. unfold blocks, zlen. simpl. by rewrite length_set_bits. Qed.

Lemma mark_blocks_at l e i : Forall (fun j => 0 <= j) l -> 0 <= i < blocks e ->
  present_at (mark_blocks l e) i = present_at e i || bool_decide (i ∈ l).
Proof.
  intros Hl Hi. unfold present_at at 1. simpl. rewrite znth_set_bits; [|by apply Forall_absent|done].
  fold (present_at e i). destruct (present_at e i) eqn:Hp; [done|]. simpl. apply bool_decide_ext.
  unfold absent_blocks. rewrite !list_elem_of_In, filter_In, Hp. naive_solver.
Qed.

Lemma mark_blocks_ok l e : entry_ok e -> entry_ok (mark_blocks l e).
Proof. intros [H1 H2 H3 H4 H5 H6]. split; try done. by rewrite mark_blocks_blocks. Qed.

(** The sum over a set of blocks is at most the sum over a list of them. *)
Lemma bytes_of_listed e l : entry_ok e -> Forall (fun i => 0 <= i < blocks e) l ->
  bytes_of_blocks e (fun i => bool_decide (i ∈ l)) (seqZ 0 (blocks e)) <= zsum (map (block_length e) l).
Proof.
  intros He. induction l as [|x l IH]; intros Hl; simpl.
  - unfold bytes_of_blocks. induction (seqZ 0 (blocks e)) as [|j js IHj]; simpl; [lia|].
    exact IHj.
  - apply Forall_cons in Hl as [Hx Hl]. specialize (IH Hl).
    assert (forall js, NoDup js -> Forall (fun i => 0 <= i < blocks e) js ->
      bytes_of_blocks e (fun i => bool_decide (i ∈ x :: l)) js <=
      (if bool_decide (x ∈ js) then block_length e x else 0) + bytes_of_blocks e (fun i => bool_decide (i ∈ l)) js) as Hstep.
    { induction js as [|j js IHj]; intros Hnd Hjs; [done|]. apply NoDup_cons in Hnd as [Hj Hnd]. apply Forall_cons in Hjs as [Hjb Hjs].
      specialize (IHj Hnd Hjs). unfold bytes_of_blocks in *. simpl. pose proof (block_length_pos e He j Hjb).
      destruct (decide (j = x)) as [->|Hne].
      - rewrite (bool_decide_eq_true_2 (x ∈ x :: l)), (bool_decide_eq_true_2 (x ∈ x :: js)) by left.
        rewrite (bool_decide_eq_false_2 (x ∈ js)) in IHj by done. destruct (bool_decide (x ∈ l)); lia.
      - assert (bool_decide (j ∈ x :: l) = bool_decide (j ∈ l)) as -> by (apply bool_decide_ext; rewrite elem_of_cons; naive_solver).
        assert (bool_decide (x ∈ j :: js) = bool_decide (x ∈ js)) as -> by (apply bool_decide_ext; rewrite elem_of_cons; naive_solver).
        lia. }
    specialize (Hstep (seqZ 0 (blocks e)) (NoDup_seqZ _ _)). rewrite bool_decide_eq_true_2 in Hstep by (apply elem_of_seqZ; lia).
    enough (Forall (fun i => 0 <= i < blocks e) (seqZ 0 (blocks e))) as Hf by (specialize (Hstep Hf); lia).
    apply Forall_seqZ. lia.
Qed.

(** Marking costs no more than the blocks that were absent. *)
Lemma mark_blocks_bytes l absent e :
  entry_ok e -> Forall (fun i => 0 <= i < blocks e) l -> Forall (fun i => 0 <= i < blocks e) absent ->
  (forall i, i ∈ l -> present_at e i = false -> i ∈ absent) ->
  present_bytes (mark_blocks l e) <= present_bytes e + zsum (map (block_length e) absent).
Proof.
  intros He Hl Habs Hin. rewrite !present_bytes_sum, mark_blocks_blocks.
  pose proof (bytes_of_listed e absent He Habs) as Hb.
  assert (Forall (fun j => 0 <= j) l) as Hl0 by (eapply Forall_impl; [exact Hl|]; simpl; lia).
  assert (forall js, Forall (fun i => 0 <= i < blocks e) js ->
    bytes_of_blocks (mark_blocks l e) (present_at (mark_blocks l e)) js <=
    bytes_of_blocks e (present_at e) js + bytes_of_blocks e (fun i => bool_decide (i ∈ absent)) js) as Hsum.
  { induction js as [|j js IH]; intros Hjs; [done|]. apply Forall_cons in Hjs as [Hj Hjs]. specialize (IH Hjs).
    unfold bytes_of_blocks in *. simpl. assert (block_length (mark_blocks l e) j = block_length e j) as ->.
    { unfold block_length. by rewrite mark_blocks_blocks. }
    pose proof (block_length_pos e He j Hj). rewrite (mark_blocks_at l e j Hl0 Hj).
    destruct (present_at e j) eqn:Hp; cbn [orb].
    - destruct (bool_decide (j ∈ absent)); lia.
    - destruct (bool_decide (j ∈ l)) eqn:Hjl; [|destruct (bool_decide (j ∈ absent)); lia].
      apply bool_decide_eq_true in Hjl. rewrite (bool_decide_eq_true_2 (j ∈ absent)) by by apply Hin. lia. }
  specialize (Hsum (seqZ 0 (blocks e)) ltac:(apply Forall_seqZ; lia)). lia.
Qed.
