(* ===== verification/LocalCache.v ===== *)
(** * The local cache on disk ([tgdcfs/core/local_cache.py])

    The state is the dictionary of entries and the cache directory.  An entry
    object is named by its [ce_uid]; code that holds an entry across an await
    names it by uid, and acts on it only while the dictionary still has it.
    What the operating system answers is part of the disk: every call draws
    whether it fails, a failing write after how many bytes, and how much of
    the disk is free.  Log messages are left out. *)

From S2P Require Import Prelude Errors CacheEntry.

Open Scope Z_scope.
Open Scope py_scope.

(** [CacheConfig] of [tgdcfs/config.py]. *)
Record CacheConfig := {
  cf_enabled : bool;
  cf_max_size_mb : Z;
  cf_max_files : Z;
  cf_max_file_size_mb : Z;
  cf_block_kb : Z;
  cf_stage_uploads : bool;
  cf_keep_for_reads : bool;
  cf_min_free_mb : Z;
  cf_max_age_hours : Z;
  cf_target_fill_percent : Z
}.

Definition min_free_bytes (cfg : CacheConfig) : Z := cf_min_free_mb cfg * 1024 * 1024.
Definition max_age_seconds (cfg : CacheConfig) : Z := cf_max_age_hours cfg * 3600.
Definition max_size_bytes (cfg : CacheConfig) : Z := cf_max_size_mb cfg * 1024 * 1024.
Definition max_file_size_bytes (cfg : CacheConfig) : Z := cf_max_file_size_mb cfg * 1024 * 1024.
Definition block_bytes (cfg : CacheConfig) : Z := cf_block_kb cfg * 1024.
Definition target_bytes (cfg : CacheConfig) : option Z :=
  if (cf_max_size_mb cfg =? 0) || (100 <=? cf_target_fill_percent cfg) then None
  else Some (max_size_bytes cfg * cf_target_fill_percent cfg / 100).

(** One entry of [index.json]. *)
Record IndexEntry := {
  ix_fs : string;
  ix_size : Z;
  ix_block_size : Z;
  ix_last_access : Z;
  ix_pins : Z;
  ix_pinned_at : Z;
  ix_writing : bool
}.

Definition entry_to_dict (e : CacheEntry) : IndexEntry :=
  {| ix_fs := ce_fs e; ix_size := ce_size e; ix_block_size := ce_block_size e; ix_last_access := ce_last_access e;
     ix_pins := ce_pins e; ix_pinned_at := ce_pinned_at e; ix_writing := ce_writing e |}.

(** A data file is an inode and its bytes; an open file keeps the inode. *)
Record Disk := {
  dk_data : gmap string (nat * bytes);
  dk_map : gmap string (list bool);
  dk_index : option (dict string IndexEntry);
  dk_os : nat -> option Z;                       (* the next calls: [Some k] is an OSError after [k] bytes *)
  dk_free : nat -> option Z;
  dk_calls : nat
}.

Record LocalCache := {
  lc_entries : dict string CacheEntry;
  lc_disk : Disk;
  lc_next_uid : nat;
  lc_last_sweep : option Z
}.

(** ** The operating system *)

Definition with_files (data : gmap string (nat * bytes)) (maps : gmap string (list bool)) (d : Disk) : Disk :=
  {| dk_data := data; dk_map := maps; dk_index := dk_index d; dk_os := dk_os d; dk_free := dk_free d; dk_calls := dk_calls d |}.
Definition with_index (ix : dict string IndexEntry) (d : Disk) : Disk :=
  {| dk_data := dk_data d; dk_map := dk_map d; dk_index := Some ix; dk_os := dk_os d; dk_free := dk_free d; dk_calls := dk_calls d |}.

Definition os_call (d : Disk) : option Z * Disk :=
  (dk_os d (dk_calls d),
   {| dk_data := dk_data d; dk_map := dk_map d; dk_index := dk_index d; dk_os := dk_os d; dk_free := dk_free d;
      dk_calls := S (dk_calls d) |}).

(** [shutil.disk_usage(...).free]. *)
Definition disk_free (d : Disk) : option Z * Disk := (dk_free d (dk_calls d), (os_call d).2).

(** [os.remove] of both files; a failure leaves the file. *)
Definition unlink (v : string) (d : Disk) : Disk :=
  let '(f, d) := os_call d in
  let d := match f with None => with_files (delete v (dk_data d)) (dk_map d) d | Some _ => d end in
  let '(f, d) := os_call d in
  match f with None => with_files (dk_data d) (delete v (dk_map d)) d | Some _ => d end.

(** The loop of [pwrite] calls through an open file: whether it came to the
    end, and how many bytes were written. *)
Definition pwrite_file (v : string) (inode : nat) (offset : Z) (data : bytes) (d : Disk) : bool * Z * Disk :=
  let '(f, d) := os_call d in
  let n := match f with None => zlen data | Some k => Z.max 0 (Z.min k (zlen data - 1)) end in
  let d := match dk_data d !! v with
           | Some (i, content) =>
               if bool_decide (i = inode)
               then with_files (<[v := (i, pwrite_bytes offset (ztake n data) content)]> (dk_data d)) (dk_map d) d
               else d
           | None => d
           end in
  (bool_decide (f = None), n, d).

(** ** Entries *)

Definition with_entries (es : dict string CacheEntry) (s : LocalCache) : LocalCache :=
  {| lc_entries := es; lc_disk := lc_disk s; lc_next_uid := lc_next_uid s; lc_last_sweep := lc_last_sweep s |}.
Definition with_disk (d : Disk) (s : LocalCache) : LocalCache :=
  {| lc_entries := lc_entries s; lc_disk := d; lc_next_uid := lc_next_uid s; lc_last_sweep := lc_last_sweep s |}.

Definition set_entry (last_access pins : Z) (writing : bool) (inflight pinned_at : Z) (e : CacheEntry) : CacheEntry :=
  {| ce_uid := ce_uid e; ce_version_id := ce_version_id e; ce_fs := ce_fs e; ce_size := ce_size e;
     ce_block_size := ce_block_size e; ce_present := ce_present e; ce_last_access := last_access; ce_pins := pins;
     ce_writing := writing; ce_inflight := inflight; ce_pinned_at := pinned_at |}.

Definition with_pins (pins pinned_at : Z) (e : CacheEntry) : CacheEntry :=
  set_entry (ce_last_access e) pins (ce_writing e) (ce_inflight e) pinned_at e.
Definition with_writing (w : bool) (e : CacheEntry) : CacheEntry :=
  set_entry (ce_last_access e) (ce_pins e) w (ce_inflight e) (ce_pinned_at e) e.
Definition with_inflight (n : Z) (e : CacheEntry) : CacheEntry :=
  set_entry (ce_last_access e) (ce_pins e) (ce_writing e) n (ce_pinned_at e) e.
Definition with_last_access (t : Z) (e : CacheEntry) : CacheEntry :=
  set_entry t (ce_pins e) (ce_writing e) (ce_inflight e) (ce_pinned_at e) e.

Definition entry_of (v : string) (s : LocalCache) : option CacheEntry := Dict.get v (lc_entries s).

Definition put_entry (e : CacheEntry) (s : LocalCache) : LocalCache :=
  with_entries (Dict.set (ce_version_id e) e (lc_entries s)) s.

(** A change of the entry object [uid]; one the dictionary no longer has is
    out of reach of everybody else. *)
Definition modify_live (v : string) (uid : nat) (f : CacheEntry -> CacheEntry) (s : LocalCache) : LocalCache :=
  match entry_of v s with
  | Some e => if bool_decide (ce_uid e = uid) then put_entry (f e) s else s
  | None => s
  end.

Definition save_index (s : LocalCache) : LocalCache :=
  let '(f, d) := os_call (lc_disk s) in
  match f with
  | None => with_disk (with_index (map (fun ve => (ve.1, entry_to_dict ve.2)) (lc_entries s)) d) s
  | Some _ => with_disk d s
  end.

(** [_drop], [remove], [remove_many]. *)
Definition drop_entry (v : string) (s : LocalCache) : bool * LocalCache :=
  match entry_of v s with
  | None => (false, s)
  | Some _ => (true, with_disk (unlink v (lc_disk s)) (with_entries (Dict.del v (lc_entries s)) s))
  end.

Definition remove (v : string) (s : LocalCache) : LocalCache :=
  let '(dropped, s) := drop_entry v s in if dropped then save_index s else s.

Fixpoint drop_all (vs : list string) (any : bool) (s : LocalCache) : bool * LocalCache :=
  match vs with
  | [] => (any, s)
  | v :: vs => let '(dropped, s) := drop_entry v s in drop_all vs (any || dropped) s
  end.

Definition remove_many (vs : list string) (s : LocalCache) : LocalCache :=
  let '(any, s) := drop_all vs false s in if any then save_index s else s.

(** ** Lookups *)

Definition complete (v : string) (s : LocalCache) : bool :=
  match entry_of v s with Some e => negb (ce_writing e) && is_complete e | None => false end.

Definition has_range (v : string) (begin last : Z) (s : LocalCache) : bool :=
  match entry_of v s with Some e => entry_has_range e begin last | None => false end.

Definition used_bytes (s : LocalCache) : Z := zsum (map (fun ve => charged_bytes ve.2) (lc_entries s)).

(** ** The budget *)

Section Budget.
  Context (cfg : CacheConfig).

(** The evictable entries, the one read longest ago last. *)
Definition lru_order (keep : option nat) (s : LocalCache) : list CacheEntry :=
  sort_by (fun e => - ce_last_access e)
    (List.filter (fun e => evictable e && negb (bool_decide (Some (ce_uid e) = keep))) (Dict.values (lc_entries s))).

Definition evict (victim : CacheEntry) (s : LocalCache) : Z * LocalCache :=
  (charged_bytes victim, (drop_entry (ce_version_id victim) s).2).

Definition fits (size : Z) : bool :=
  negb (negb (max_file_size_bytes cfg =? 0) && (max_file_size_bytes cfg <? size)).

(** One pass: [victims] in the order they are popped, [used] the running
    total; the answer says whether the bytes fit and whether anything was
    evicted. *)
Fixpoint make_room_loop (size : Z) (new_entry : bool) (victims : list CacheEntry) (used : Z) (any : bool)
    (s : LocalCache) : bool * bool * LocalCache :=
  let over_bytes := negb (max_size_bytes cfg =? 0) && (max_size_bytes cfg <? used + size) in
  let over_files := new_entry && negb (cf_max_files cfg =? 0) && (cf_max_files cfg <? zlen (lc_entries s) + 1) in
  let '(free, s) :=
    if min_free_bytes cfg =? 0 then (None, s)
    else let '(free, d) := disk_free (lc_disk s) in (free, with_disk d s) in
  let over_disk := match free with Some f => f - size <? min_free_bytes cfg | None => false end in
  if negb over_bytes && negb over_files && negb over_disk then (true, any, s)
  else
    match victims with
    | [] => (false, any, s)
    | victim :: victims =>
        let '(freed, s) := evict victim s in
        make_room_loop size new_entry victims (used - freed) true s
    end.

Definition make_room (size : Z) (new_entry : bool) (keep : option nat) (s : LocalCache) : bool * LocalCache :=
  let '(ok, any, s) := make_room_loop size new_entry (rev (lru_order keep s)) (used_bytes s) false s in
  (ok, if any then save_index s else s).

(** ** Opening entries *)

(** The sparse data file and the empty block map. *)
Definition create_files (e : CacheEntry) (s : LocalCache) : bool * LocalCache :=
  let v := ce_version_id e in
  let '(f, d) := os_call (lc_disk s) in
  match f with
  | Some _ => (false, with_disk (unlink v d) s)
  | None =>
      let inode := match dk_data d !! v with Some (i, _) => i | None => ce_uid e end in
      let d := with_files (<[v := (inode, replicate (Z.to_nat (ce_size e)) Byte.x00)]> (dk_data d)) (dk_map d) d in
      let '(f, d) := os_call d in
      match f with
      | Some _ => (false, with_disk (unlink v d) s)
      | None => (true, with_disk (with_files (dk_data d) (<[v := ce_present e]> (dk_map d)) d) s)
      end
  end.

Definition new_entry_of (uid : nat) (fs v : string) (size now : Z) (writing : bool) : CacheEntry :=
  {| ce_uid := uid; ce_version_id := v; ce_fs := fs; ce_size := size; ce_block_size := block_bytes cfg;
     ce_present := replicate (Z.to_nat (blocks_for size (block_bytes cfg))) false; ce_last_access := now;
     ce_pins := 0; ce_writing := writing; ce_inflight := 0; ce_pinned_at := 0 |}.

Definition draw_uid (s : LocalCache) : nat * LocalCache :=
  (lc_next_uid s,
   {| lc_entries := lc_entries s; lc_disk := lc_disk s; lc_next_uid := S (lc_next_uid s); lc_last_sweep := lc_last_sweep s |}).

(** The common end of [open_staging] and [reserve]. *)
Definition add_entry (fs v : string) (size now : Z) (writing : bool) (s : LocalCache) : option CacheEntry * LocalCache :=
  let '(uid, s) := draw_uid s in
  let e := new_entry_of uid fs v size now writing in
  let '(created, s) := create_files e s in
  if created then (Some e, save_index (put_entry e s)) else (None, s).

(** [StagingWriter]: the fields of its entry it uses never change. *)
Record StagingWriter := {
  sw_version_id : string;
  sw_uid : nat;
  sw_size : Z;
  sw_block_size : Z;
  sw_blocks : Z;
  sw_offset : Z;
  sw_fd : option nat;                            (* the inode of the open file *)
  sw_failed : bool
}.

Definition open_staging (fs v : string) (size now : Z) (s : LocalCache) : option StagingWriter * LocalCache :=
  if negb (cf_enabled cfg) || (size <? 0) then (None, s)
  else
    let s := if Dict.mem v (lc_entries s) then remove v s else s in
    if negb (fits size) then (None, s)
    else
      let '(ok, s) := make_room size true None s in
      if negb ok then (None, s)
      else
        let '(e, s) := add_entry fs v size now true s in
        (option_map (fun e => {| sw_version_id := v; sw_uid := ce_uid e; sw_size := size; sw_block_size := ce_block_size e;
                                 sw_blocks := blocks e; sw_offset := 0; sw_fd := None; sw_failed := false |}) e, s).

Definition reserve (fs v : string) (size now : Z) (s : LocalCache) : option CacheEntry * LocalCache :=
  if negb (cf_enabled cfg) || (size <? 0) then (None, s)
  else
    let s := if Dict.mem v (lc_entries s) then remove v s else s in
    let '(ok, s) := make_room 0 true None s in
    if negb ok then (None, s) else add_entry fs v size now false s.

(** ** Blocks *)

(** The pwrites into the block map; a failure stops them. *)
Definition write_map (v : string) (changed : list Z) (d : Disk) : Disk :=
  let '(f, d) := os_call d in
  match dk_map d !! v with
  | None => d
  | Some m =>
      let changed := match f with None => changed | Some k => ztake k changed end in
      with_files (dk_data d) (<[v := set_bits changed m]> (dk_map d)) d
  end.

Definition mark_present (v : string) (uid : nat) (bs : list Z) (s : LocalCache) : LocalCache :=
  match entry_of v s with
  | None => s
  | Some e =>
      if negb (bool_decide (ce_uid e = uid)) then s
      else if negb (nonempty (absent_blocks e bs)) then s
      else let s := put_entry (mark_blocks bs e) s in
           with_disk (write_map v (absent_blocks e bs) (lc_disk s)) s
  end.

(** [write_blocks] up to its await: the blocks it will store and what it
    claimed of the budget for them. *)
Record Fill := {
  fl_version_id : string;
  fl_uid : nat;
  fl_begin : Z;
  fl_data : bytes;
  fl_blocks : list Z;
  fl_added : Z
}.

Definition fill_blocks (e : CacheEntry) (begin : Z) (data : bytes) : list Z :=
  let first := begin / ce_block_size e in
  let end_offset := begin + zlen data in
  let last_full := if ce_size e <=? end_offset then blocks e else end_offset / ce_block_size e in
  seqZ first (last_full - first).

Definition fill_claim (v : string) (begin : Z) (data : bytes) (s : LocalCache) : option Fill * LocalCache :=
  match entry_of v s with
  | None => (None, s)
  | Some e =>
      if ce_writing e || negb (nonempty data) then (None, s)
      else if negb (begin mod ce_block_size e =? 0) || (ce_size e <? begin + zlen data) then (None, s)
      else
        let bs := fill_blocks e begin data in
        if negb (nonempty bs) then (None, s)
        else
          let added := zsum (map (block_length e) (absent_blocks e bs)) in
          let '(ok, s) := if added =? 0 then (true, s) else make_room added false (Some (ce_uid e)) s in
          if negb ok then (None, s)
          else
            (Some {| fl_version_id := v; fl_uid := ce_uid e; fl_begin := begin; fl_data := data; fl_blocks := bs; fl_added := added |},
             modify_live v (ce_uid e) (fun e => with_inflight (ce_inflight e + added) e) s)
  end.

(** The thread: [os.open] of the path and the writes. *)
Definition fill_write (f : Fill) (s : LocalCache) : bool * LocalCache :=
  let '(x, d) := os_call (lc_disk s) in
  match x, dk_data d !! fl_version_id f with
  | None, Some (inode, _) =>
      let '(ok, _, d) := pwrite_file (fl_version_id f) inode (fl_begin f) (fl_data f) d in (ok, with_disk d s)
  | _, _ => (false, with_disk d s)
  end.

(** The rest of [write_blocks] after the await. *)
Definition fill_end (f : Fill) (ok : bool) (now : Z) (s : LocalCache) : LocalCache :=
  let unclaim := modify_live (fl_version_id f) (fl_uid f) (fun e => with_inflight (ce_inflight e - fl_added f) e) in
  if ok then
    modify_live (fl_version_id f) (fl_uid f) (with_last_access now) (mark_present (fl_version_id f) (fl_uid f) (fl_blocks f) (unclaim s))
  else remove (fl_version_id f) (unclaim s).

Definition write_blocks (v : string) (begin : Z) (data : bytes) (now : Z) (s : LocalCache) : LocalCache :=
  let '(f, s) := fill_claim v begin data s in
  match f with
  | None => s
  | Some f => let '(ok, s) := fill_write f s in fill_end f ok now s
  end.

(** ** [StagingWriter] *)

Definition sw_set (offset : Z) (fd : option nat) (failed : bool) (w : StagingWriter) : StagingWriter :=
  {| sw_version_id := sw_version_id w; sw_uid := sw_uid w; sw_size := sw_size w; sw_block_size := sw_block_size w;
     sw_blocks := sw_blocks w; sw_offset := offset; sw_fd := fd; sw_failed := failed |}.

(** [_write_sync], in the thread. *)
Definition write_sync (w : StagingWriter) (data : bytes) (s : LocalCache) : bool * StagingWriter * LocalCache :=
  let '(fd, d) :=
    match sw_fd w with
    | Some i => (Some i, lc_disk s)
    | None =>
        let '(x, d) := os_call (lc_disk s) in
        (match x with None => option_map fst (dk_data d !! sw_version_id w) | Some _ => None end, d)
    end in
  match fd with
  | None => (false, w, with_disk d s)
  | Some inode =>
      let '(ok, n, d) := pwrite_file (sw_version_id w) inode (sw_offset w) data d in
      (ok, sw_set (sw_offset w + n) (Some inode) (sw_failed w) w, with_disk d s)
  end.

(** The blocks that are whole once [offset] bytes are written. *)
Definition staged_blocks (w : StagingWriter) : list Z :=
  seqZ 0 (if sw_size w <=? sw_offset w then sw_blocks w else sw_offset w / sw_block_size w).

Definition writer_mark (w : StagingWriter) (s : LocalCache) : LocalCache :=
  mark_present (sw_version_id w) (sw_uid w) (staged_blocks w) s.

Definition writer_finish (w : StagingWriter) (s : LocalCache) : StagingWriter * LocalCache :=
  (sw_set (sw_offset w) None (sw_failed w) w,
   save_index (modify_live (sw_version_id w) (sw_uid w) (with_writing false) s)).

Definition writer_abort (w : StagingWriter) (s : LocalCache) : StagingWriter * LocalCache :=
  (sw_set (sw_offset w) None true w,
   remove (sw_version_id w) (modify_live (sw_version_id w) (sw_uid w) (with_writing false) s)).

Definition writer_write (w : StagingWriter) (data : bytes) (s : LocalCache) : StagingWriter * LocalCache :=
  if sw_failed w || negb (nonempty data) then (w, s)
  else
    let '(ok, w, s) := write_sync w data s in
    if negb ok then writer_abort w s
    else
      let s := writer_mark w s in
      if sw_size w <=? sw_offset w then writer_finish w s else (w, s).

Definition writer_close (w : StagingWriter) (s : LocalCache) : StagingWriter * LocalCache :=
  if sw_failed w then (w, s)
  else if sw_size w <=? sw_offset w then
    match sw_fd w with Some _ => writer_finish w s | None => (w, s) end
  else writer_abort w s.

(** ** Pins *)

Definition pin (v : string) (now : Z) (s : LocalCache) : LocalCache :=
  match entry_of v s with
  | None => s
  | Some e =>
      save_index (put_entry (with_pins (ce_pins e + 1) (if ce_pins e =? 0 then now else ce_pinned_at e) e) s)
  end.

Definition unpin (v : string) (s : LocalCache) : LocalCache :=
  match entry_of v s with
  | None => s
  | Some e => put_entry (with_pins (Z.max 0 (ce_pins e - 1)) (ce_pinned_at e) e) s
  end.

Definition release (v : string) (s : LocalCache) : LocalCache :=
  match entry_of v s with
  | None => s
  | Some e =>
      let s := put_entry (with_pins 0 0 e) s in
      if negb (cf_keep_for_reads cfg) then remove v s else save_index s
  end.

Definition evict_unpinned (s : LocalCache) : LocalCache :=
  remove_many (map ce_version_id (List.filter evictable (Dict.values (lc_entries s)))) s.

(** ** Reading *)

Definition READ_CHUNK : Z := 1024 * 1024.

(** The checks of [read]: the clipped end of the range. *)
Definition read_start (v : string) (begin last now : Z) (s : LocalCache) : exc Z * LocalCache :=
  match entry_of v s with
  | None => (Raise KeyError, s)
  | Some e =>
      let last := if (last <? 0) || (ce_size e <=? last) then ce_size e - 1 else last in
      if negb (entry_has_range e begin last) then (Raise KeyError, s)
      else (Ok last, put_entry (with_last_access now e) s)
  end.

(** One [_pread]; [b""] is a short read. *)
Definition read_chunk (v : string) (offset length : Z) (s : LocalCache) : exc bytes * LocalCache :=
  let '(x, d) := os_call (lc_disk s) in
  let s := with_disk d s in
  match x, dk_data d !! v with
  | None, Some (_, content) =>
      match zslice offset (offset + length) content with [] => (Raise OSError, s) | chunk => (Ok chunk, s) end
  | _, _ => (Raise OSError, s)
  end.

(** ** Housekeeping *)

Definition STALE_PIN_SECONDS : Z := 24 * 3600.

(** Files no entry refers to; a failing [os.remove] leaves the file. *)
Fixpoint remove_orphans (names : list (bool * string)) (n : Z) (s : LocalCache) : Z * LocalCache :=
  match names with
  | [] => (n, s)
  | (is_data, v) :: names =>
      if Dict.mem v (lc_entries s) then remove_orphans names n s
      else
        let '(f, d) := os_call (lc_disk s) in
        match f with
        | Some _ => remove_orphans names n (with_disk d s)
        | None =>
            let d := if is_data : bool then with_files (delete v (dk_data d)) (dk_map d) d
                     else with_files (dk_data d) (delete v (dk_map d)) d in
            remove_orphans names (n + 1) (with_disk d s)
        end
  end.

Definition sweep_orphans (s : LocalCache) : Z * LocalCache :=
  let '(f, d) := os_call (lc_disk s) in
  match f with
  | Some _ => (0, with_disk d s)
  | None =>
      remove_orphans (map (fun x => (true, x.1)) (map_to_list (dk_data d)) ++ map (fun x => (false, x.1)) (map_to_list (dk_map d)))
        0 (with_disk d s)
  end.

Definition stale_pin (queue_empty : option (string -> bool)) (now : Z) (e : CacheEntry) : bool :=
  (0 <? ce_pins e) && negb (ce_writing e) && (STALE_PIN_SECONDS <=? now - ce_pinned_at e) &&
  match queue_empty with None => true | Some q => q (ce_fs e) end.

Definition expired (now : Z) (e : CacheEntry) : bool :=
  negb (max_age_seconds cfg =? 0) && evictable e && (max_age_seconds cfg <=? now - ce_last_access e).

(** Down to [target]; what is left of [victims] goes on. *)
Fixpoint sweep_target (target used : Z) (victims : list CacheEntry) (n : Z) (s : LocalCache)
  : list CacheEntry * Z * LocalCache :=
  match victims with
  | victim :: rest =>
      if target <? used then
        let '(freed, s) := evict victim s in sweep_target target (used - freed) rest (n + 1) s
      else (victims, n, s)
  | [] => (victims, n, s)
  end.

Fixpoint sweep_disk (victims : list CacheEntry) (n : Z) (s : LocalCache) : Z * LocalCache :=
  match victims with
  | [] => (n, s)
  | victim :: rest =>
      if min_free_bytes cfg =? 0 then (n, s)
      else
        let '(free, d) := disk_free (lc_disk s) in
        let s := with_disk d s in
        match free with
        | Some f => if f <? min_free_bytes cfg then sweep_disk rest (n + 1) (evict victim s).2 else (n, s)
        | None => (n, s)
        end
  end.

Record SweepReport := { sr_orphans : Z; sr_released : Z; sr_expired : Z; sr_evicted : Z }.

Definition sweep (queue_empty : option (string -> bool)) (now : Z) (s : LocalCache) : SweepReport * LocalCache :=
  let '(orphans, s) := sweep_orphans s in
  let stale := List.filter (stale_pin queue_empty now) (Dict.values (lc_entries s)) in
  let s := foldl (fun s e => release (ce_version_id e) s) s stale in
  let old := List.filter (expired now) (Dict.values (lc_entries s)) in
  let s := foldl (fun s e => (evict e s).2) s old in
  let victims := rev (lru_order None s) in
  let '(victims, n, s) :=
    match target_bytes cfg with
    | Some target => sweep_target target (used_bytes s) victims 0 s
    | None => (victims, 0, s)
    end in
  let '(n, s) := sweep_disk victims n s in
  ({| sr_orphans := orphans; sr_released := zlen stale; sr_expired := zlen old; sr_evicted := n |},
   save_index {| lc_entries := lc_entries s; lc_disk := lc_disk s; lc_next_uid := lc_next_uid s; lc_last_sweep := Some now |}).

(** ** Start-up *)

(** One entry of the index; what does not match its files is dropped.
    [mtime] is the modification time of the data file. *)
Definition load_entry (mtime : string -> Z) (v : string) (ix : IndexEntry) (s : LocalCache) : option CacheEntry * LocalCache :=
  let '(f, d) := os_call (lc_disk s) in
  let drop := (None, with_disk (unlink v d) s) in
  match f, dk_map d !! v, dk_data d !! v with
  | None, Some present, Some (_, content) =>
      if (ix_block_size ix =? 0) || negb (zlen present =? blocks_for (ix_size ix) (ix_block_size ix)) ||
         (zlen content <? ix_size ix) || ix_writing ix
      then drop
      else
        let pinned := 0 <? ix_pins ix in
        let '(uid, s) := draw_uid (with_disk d s) in
        (Some {| ce_uid := uid; ce_version_id := v; ce_fs := ix_fs ix; ce_size := ix_size ix; ce_block_size := ix_block_size ix;
                 ce_present := present; ce_last_access := ix_last_access ix; ce_pins := if pinned then 1 else 0;
                 ce_writing := false; ce_inflight := 0;
                 ce_pinned_at := if pinned then (if ix_pinned_at ix =? 0 then mtime v else ix_pinned_at ix) else 0 |}, s)
  | _, _, _ => drop
  end.

Fixpoint load_index (mtime : string -> Z) (index : dict string IndexEntry) (s : LocalCache) : LocalCache :=
  match index with
  | [] => s
  | (v, ix) :: index =>
      let '(e, s) := load_entry mtime v ix s in
      load_index mtime index (match e with Some e => put_entry e s | None => s end)
  end.

Definition load (mtime : string -> Z) (s : LocalCache) : LocalCache :=
  let '(f, d) := os_call (lc_disk s) in
  let index := match f with None => default [] (dk_index d) | Some _ => [] end in
  save_index (sweep_orphans (load_index mtime index (with_entries [] (with_disk d s)))).2.

End Budget.

(** ** Statistics *)

Record FsStats := { fss_entries : Z; fss_bytes : Z; fss_pinned : Z }.

Definition count_entry (res : dict string FsStats) (e : CacheEntry) : dict string FsStats :=
  let fs := default {| fss_entries := 0; fss_bytes := 0; fss_pinned := 0 |} (Dict.get (ce_fs e) res) in
  Dict.set (ce_fs e) {| fss_entries := fss_entries fs + 1; fss_bytes := fss_bytes fs + charged_bytes e;
                        fss_pinned := if 0 <? ce_pins e then fss_pinned fs + 1 else fss_pinned fs |} res.

Definition per_filesystem (s : LocalCache) : dict string FsStats := foldl count_entry [] (Dict.values (lc_entries s)).

Record CacheStats := {
  st_entries : Z;
  st_complete_entries : Z;
  st_used_bytes : Z;
  st_max_size_bytes : Z;
  st_max_files : Z;
  st_pinned_entries : Z;
  st_pinned_bytes : Z;
  st_writing_entries : Z;
  st_disk_free_bytes : option Z;
  st_min_free_bytes : Z;
  st_target_bytes : option Z;
  st_max_age_hours : Z;
  st_last_sweep : option Z;
  st_per_filesystem : dict string FsStats
}.

(** [stats]; the counters of hits and misses are not part of the state. *)
Definition cache_stats (cfg : CacheConfig) (s : LocalCache) : CacheStats * LocalCache :=
  let es := Dict.values (lc_entries s) in
  let pinned := List.filter (fun e => 0 <? ce_pins e) es in
  let '(free, d) := disk_free (lc_disk s) in
  ({| st_entries := zlen es;
      st_complete_entries := zlen (List.filter (fun e => is_complete e && negb (ce_writing e)) es);
      st_used_bytes := used_bytes s; st_max_size_bytes := max_size_bytes cfg; st_max_files := cf_max_files cfg;
      st_pinned_entries := zlen pinned; st_pinned_bytes := zsum (map charged_bytes pinned);
      st_writing_entries := zlen (List.filter ce_writing es);
      st_disk_free_bytes := free; st_min_free_bytes := min_free_bytes cfg; st_target_bytes := target_bytes cfg;
      st_max_age_hours := cf_max_age_hours cfg; st_last_sweep := lc_last_sweep s;
      st_per_filesystem := per_filesystem s |}, with_disk d s).

Lemma zsum_set {K V} `{EqDecision K} (f : V -> Z) (k : K) v d :
  zsum (map f (Dict.values (Dict.set k v d))) =
  zsum (map f (Dict.values d)) + f v - match Dict.get k d with Some old => f old | None => 0 end.
Proof.
  unfold Dict.values, zsum. induction d as [|[k' v'] d IH]; simpl; [lia|]. destruct (decide (k = k')); simpl; lia.
Qed.

(** What the file systems are shown to hold adds up to the whole cache. *)
Lemma per_filesystem_adds_up cfg s :
  let st := (cache_stats cfg s).1 in
  zsum (map fss_bytes (Dict.values (st_per_filesystem st))) = st_used_bytes st /\
  zsum (map fss_entries (Dict.values (st_per_filesystem st))) = st_entries st /\
  zsum (map fss_pinned (Dict.values (st_per_filesystem st))) = st_pinned_entries st.
Proof.
  unfold cache_stats. destruct (disk_free (lc_disk s)) as [free d]. cbn [fst st_per_filesystem st_used_bytes st_entries st_pinned_entries].
  unfold per_filesystem, used_bytes. replace (map (fun ve => charged_bytes ve.2) (lc_entries s)) with (map charged_bytes (Dict.values (lc_entries s)))
    by (unfold Dict.values; by rewrite map_map).
  assert (forall es acc,
    zsum (map fss_bytes (Dict.values (foldl count_entry acc es))) = zsum (map fss_bytes (Dict.values acc)) + zsum (map charged_bytes es) /\
    zsum (map fss_entries (Dict.values (foldl count_entry acc es))) = zsum (map fss_entries (Dict.values acc)) + zlen es /\
    zsum (map fss_pinned (Dict.values (foldl count_entry acc es))) =
      zsum (map fss_pinned (Dict.values acc)) + zlen (List.filter (fun e => 0 <? ce_pins e) es)) as Hgen.
  { induction es as [|e es IH]; intros acc; cbn [foldl map List.filter]; [unfold zlen, zsum; simpl; lia|].
    destruct (IH (count_entry acc e)) as (-> & -> & ->). unfold count_entry. rewrite !zsum_set. cbn [fss_bytes fss_entries fss_pinned].
    rewrite zlen_cons. change (zsum (charged_bytes e :: map charged_bytes es)) with (charged_bytes e + zsum (map charged_bytes es)).
    destruct (Dict.get (ce_fs e) acc) as [[]|], (0 <? ce_pins e); rewrite ?zlen_cons; cbn [default id from_option fss_bytes fss_entries fss_pinned]; lia. }
  destruct (Hgen (Dict.values (lc_entries s)) []) as (H1 & H2 & H3). unfold Dict.values at 2 in H1. unfold Dict.values at 2 in H2. unfold Dict.values at 2 in H3. cbn in H1, H2, H3. done.
Qed.
