(* ===== verification/Config.v ===== *)
(** * The configuration ([tgdcfs/config.py])

    Every section of the file is a record read by its [from_dict]; a section
    that is wrong raises.  Values the code only passes on keep their YAML form
    ([yaml]); names of stores and file systems are strings.  The environment
    (variables, home directories, files) and Python's printer are parameters.
    Warnings that are only logged are left out. *)

From S2P Require Import Prelude Errors StoreKey Messages FileVersion Stores FileContent Mirror ConfigValue LocalCache.

Open Scope Z_scope.
Open Scope py_scope.

Record Env := {
  environ : string -> option string;
  expanduser : string -> string;
  read_file : string -> exc string
}.

Definition BACKEND_PREFIXES : dict string string := [("telegram"%string, "tg"%string); ("discord"%string, "dc"%string)].
Definition BACKEND_NAMES : list string := ["telegram"; "discord"]%string.

(** ** The sections *)

Record WebDAVConfig := { wd_host : yaml; wd_port : yaml; wd_path : yaml }.
Record ManagerConfig := { mc_host : yaml; mc_port : yaml }.
Record UserConfig := { uc_password : yaml; uc_readonly : yaml }.
Record JWTConfig := { jwt_secret : yaml; jwt_algorithm : yaml; jwt_life : yaml }.
Record ServerConfig := { sv_host : yaml; sv_port : yaml }.
Record GithubRepoConfig := { gh_repo : yaml; gh_commit : yaml; gh_access_token : yaml }.

Record EncryptionConfig := {
  ec_enabled : bool;
  ec_encrypt_names : bool;
  ec_passphrase : option yaml;
  ec_passphrase_env : option yaml;
  ec_passphrase_file : option string;
  ec_master_salt_file : string;
  ec_chunk_size : Z
}.

Inductive MetadataType := PINNED_MESSAGE | GITHUB_REPO.
Record MetadataConfig := { md_name : yaml; md_type : MetadataType; md_github_repo : option GithubRepoConfig }.

Record SFTPConfig := {
  sf_enabled : bool;
  sf_host : string;
  sf_port : Z;
  sf_host_key_file : string;
  sf_authorized_keys_dir : option string;
  sf_upload_buffer_size_mb : Z;
  sf_upload_buffer_dir : option string
}.

Record TransferConfig := {
  tc_upload_workers_small : Z;
  tc_upload_workers_big : Z;
  tc_upload_part_size_kb : Z;
  tc_download_piece_size_kb : Z;
  tc_download_pieces_in_flight : Z;
  tc_parallel_download_threshold_mb : Z;
  tc_connection_pool_size : Z;
  tc_chunk_cache_mb : Z;
  tc_chunk_cache_readahead : Z;
  tc_chunk_cache_block_kb : Z;
  tc_upload_parts_in_flight : Z;
  tc_read_parallel_window : Z;
  tc_tee_buffer_mb : Z
}.

Definition download_piece_size_bytes (c : TransferConfig) : Z := tc_download_piece_size_kb c * 1024.
Definition upload_part_size_bytes (c : TransferConfig) : Z := tc_upload_part_size_kb c * 1024.
Definition tee_buffer_bytes (c : TransferConfig) : Z := tc_tee_buffer_mb c * 1024 * 1024.
Definition parallel_download_threshold_bytes (c : TransferConfig) : Z := tc_parallel_download_threshold_mb c * 1024 * 1024.
Definition chunk_cache_bytes (c : TransferConfig) : Z := tc_chunk_cache_mb c * 1024 * 1024.
Definition chunk_cache_block_bytes (c : TransferConfig) : Z := tc_chunk_cache_block_kb c * 1024.

Record ListingConfig := { lg_stat_in_metadata : bool; lg_validate_on_list : bool; lg_message_cache_size : Z }.

Record BotConfig := { bc_token : yaml; bc_session_file : string; bc_tokens : yaml }.
Record AccountConfig := { ac_session_file : string; ac_used_to_upload : yaml; ac_used_to_download : yaml }.

Record RedundancyConfig := { rd_mirrors : dict string (list string); rd_mode : MirrorMode; rd_strict : bool }.

Record TelegramConfig := {
  tl_api_id : yaml;
  tl_api_hash : yaml;
  tl_account : option AccountConfig;
  tl_bot : BotConfig;
  tl_private_file_channel : list string;
  tl_lib : yaml;
  tl_delete_messages_on_remove : bool;
  tl_redundancy : option RedundancyConfig
}.

Record DiscordConfig := {
  dc_bot_tokens : list string;
  dc_max_file_size_bytes : Z;
  dc_delete_messages_on_remove : bool;
  dc_upload_max_retries : Z;
  dc_upload_retry_interval : yaml;
  dc_max_concurrent_uploads : Z;
  dc_max_concurrent_downloads : Z
}.

Record StoreConfig := { sc_name : string; sc_backend : string; sc_channel : string }.

Inductive SyncMode := Inline | Background | TeeSync.
Inductive WriteAck := AckPrimary | AckCache.
#[export] Instance SyncMode_eq_dec : EqDecision SyncMode.
Proof. solve_decision. Defined.
#[export] Instance WriteAck_eq_dec : EqDecision WriteAck.
Proof. solve_decision. Defined.

Record FilesystemConfig := {
  fs_name : string;
  fs_primary : string;
  fs_mirrors : list string;
  fs_mode : MirrorMode;
  fs_sync : SyncMode;
  fs_strict : bool;
  fs_read_preference : list string;
  fs_metadata : MetadataConfig;
  fs_allow_shared_store : bool;
  fs_sync_is_default : bool;
  fs_write_ack : WriteAck;
  fs_read_parallel : bool;
  fs_read_sources : list string
}.

Record TGFSConfig := {
  ap_users : list (yaml * UserConfig);
  ap_jwt : JWTConfig;
  ap_metadata : list (yaml * MetadataConfig);
  ap_server : ServerConfig;
  ap_encryption : EncryptionConfig;
  ap_sftp : SFTPConfig;
  ap_transfer : TransferConfig;
  ap_cache : CacheConfig;
  ap_cache_dir : string;
  ap_listing : ListingConfig
}.

Record Config := {
  cg_telegram : TelegramConfig;
  cg_tgdcfs : TGFSConfig;
  cg_stores : dict string StoreConfig;
  cg_filesystems : dict string FilesystemConfig;
  cg_discord : option DiscordConfig
}.

Section Load.
  Context (env : Env) (py_repr : yaml -> string) (py_float : yaml -> exc yaml).

Definition env_with_legacy_fallback (name legacy_name dflt : string) : string :=
  match environ env name with
  | Some value => value
  | None => match environ env legacy_name with Some value => value | None => dflt end
  end.

Definition DATA_DIR : string := env_with_legacy_fallback "TGDCFS_DATA_DIR" "TGFS_DATA_DIR" (expanduser env "~/.tgdcfs").
Definition CONFIG_FILE : string := env_with_legacy_fallback "TGDCFS_CONFIG_FILE" "TGFS_CONFIG_FILE" "config.yaml".

(** [os.path.join] of two parts. *)
Definition path_join (a b : string) : string :=
  match b with
  | String "/" _ => b
  | _ => match str_rev a with
         | EmptyString | String "/" _ => a +:+ b
         | _ => a +:+ "/" +:+ b
         end
  end.

Definition expand_path (path : string) : string := expanduser env (path_join DATA_DIR path).

(** The same on a value of the file. *)
Definition expand (y : yaml) : exc string := match y with YStr s => Ok (expand_path s) | _ => Raise TypeError end.

(** [expand_path(data[key]) if data.get(key) else None] *)
Definition path_entry (data : yaml) (key : string) : exc (option string) :=
  let* y := y_get data key in
  match y with
  | Some v => if truth v then rmap Some (expand v) else Ok None
  | None => Ok None
  end.

Definition webdav_from_dict (data : yaml) : exc WebDAVConfig :=
  let* host := y_item data "host" in let* port := y_item data "port" in let* path := y_item data "path" in
  Ok {| wd_host := host; wd_port := port; wd_path := path |}.

Definition manager_from_dict (data : yaml) : exc ManagerConfig :=
  let* host := y_item data "host" in let* port := y_item data "port" in Ok {| mc_host := host; mc_port := port |}.

Definition user_from_dict (data : yaml) : exc UserConfig :=
  let* password := y_item data "password" in
  let* readonly := y_get_or data "readonly" (YBool false) in
  Ok {| uc_password := password; uc_readonly := readonly |}.

Definition jwt_from_dict (data : yaml) : exc JWTConfig :=
  let* secret := y_item data "secret" in let* algorithm := y_item data "algorithm" in let* life := y_item data "life" in
  Ok {| jwt_secret := secret; jwt_algorithm := algorithm; jwt_life := life |}.

Definition server_from_dict (data : yaml) : exc ServerConfig :=
  let* host := y_item data "host" in let* port := y_item data "port" in Ok {| sv_host := host; sv_port := port |}.

Definition github_from_dict (data : yaml) : exc GithubRepoConfig :=
  let* repo := y_item data "repo" in let* commit := y_item data "commit" in let* token := y_item data "access_token" in
  Ok {| gh_repo := repo; gh_commit := commit; gh_access_token := token |}.

(** [x or {}] of an optional section. *)
Definition or_empty (data : option yaml) : yaml := y_or (default YNull data) (YDict []).

Definition encryption_from_dict (data : option yaml) : exc EncryptionConfig :=
  let data := default YNull data in
  if negb (truth data) then
    Ok {| ec_enabled := false; ec_encrypt_names := false; ec_passphrase := None; ec_passphrase_env := None;
          ec_passphrase_file := None; ec_master_salt_file := expand_path "master.salt"; ec_chunk_size := 64 * 1024 |}
  else
    let* enabled := bool_entry data "enabled" false in
    let* encrypt_names := bool_entry data "encrypt_names" false in
    let* passphrase := y_get data "passphrase" in
    let* passphrase_env := y_get data "passphrase_env" in
    let* passphrase_file := path_entry data "passphrase_file" in
    let* salt := y_get_or data "master_salt_file" (YStr "master.salt") in
    let* master_salt_file := expand salt in
    let* chunk_size := int_entry data "chunk_size" (64 * 1024) in
    Ok {| ec_enabled := enabled; ec_encrypt_names := encrypt_names; ec_passphrase := passphrase; ec_passphrase_env := passphrase_env;
          ec_passphrase_file := passphrase_file; ec_master_salt_file := master_salt_file; ec_chunk_size := chunk_size |}.

Definition set_truth (y : option yaml) : bool := match y with Some v => truth v | None => false end.

(** [str.rstrip("\n")] *)
Fixpoint drop_newlines (s : string) : string :=
  match s with String c s' => if bool_decide (c = "010"%char) then drop_newlines s' else s | EmptyString => EmptyString end.

Definition resolve_passphrase (c : EncryptionConfig) : exc yaml :=
  if set_truth (ec_passphrase_env c) then
    match ec_passphrase_env c with
    | Some (YStr name) => match environ env name with Some value => Ok (YStr value) | None => Raise ValueError end
    | _ => Raise TypeError
    end
  else match ec_passphrase_file c with
       | Some f => if bool_decide (f = EmptyString)
                   then (if set_truth (ec_passphrase c) then Ok (default YNull (ec_passphrase c)) else Raise ValueError)
                   else rmap (fun s => YStr (str_rev (drop_newlines (str_rev s)))) (read_file env f)
       | None => if set_truth (ec_passphrase c) then Ok (default YNull (ec_passphrase c)) else Raise ValueError
       end.

Definition metadata_from_dict (data : yaml) : exc MetadataConfig :=
  let* type := y_get_or data "type" (YStr "pinned_message") in
  if is_key "pinned_message" type then
    let* name := y_get_or data "name" (YStr "default") in
    Ok {| md_name := name; md_type := PINNED_MESSAGE; md_github_repo := None |}
  else
    let* type := y_item data "type" in
    if is_key "github_repo" type then
      let* gh := y_get data "github_repo" in
      match gh with
      | Some gh =>
          if truth gh then
            let* name := y_get_or data "name" (YStr "default") in
            let* repo := github_from_dict gh in
            Ok {| md_name := name; md_type := GITHUB_REPO; md_github_repo := Some repo |}
          else Raise ValueError
      | None => Raise ValueError
      end
    else Raise ValueError.

Definition sftp_from_dict (data : option yaml) : exc SFTPConfig :=
  let data := or_empty data in
  let* port := int_entry data "port" 2222 in
  if negb ((1 <=? port) && (port <=? 65535)) then Raise ValueError
  else
    let* buffer := at_least 0 data "upload_buffer_size_mb" 64 in
    let* enabled := bool_entry data "enabled" false in
    let* host := y_get_or data "host" (YStr "0.0.0.0") in
    let* key := y_get_or data "host_key_file" YNull in
    let* host_key_file := expand (y_or key (YStr "sftp_host_key")) in
    let* keys_dir := path_entry data "authorized_keys_dir" in
    let* buffer_dir := path_entry data "upload_buffer_dir" in
    Ok {| sf_enabled := enabled; sf_host := py_str py_repr host; sf_port := port; sf_host_key_file := host_key_file;
          sf_authorized_keys_dir := keys_dir; sf_upload_buffer_size_mb := buffer; sf_upload_buffer_dir := buffer_dir |}.

Definition transfer_from_dict (data : option yaml) : exc TransferConfig :=
  let data := or_empty data in
  let positive := at_least 1 data in
  let non_negative := at_least 0 data in
  let* part_size := positive "upload_part_size_kb"%string 512 in
  if (512 <? part_size) || negb (512 mod part_size =? 0) then Raise ValueError
  else
    let* small := positive "upload_workers_small"%string 3 in
    let* big := positive "upload_workers_big"%string 8 in
    let* piece := positive "download_piece_size_kb"%string 4096 in
    let* pieces := positive "download_pieces_in_flight"%string 4 in
    let* threshold := positive "parallel_download_threshold_mb"%string 10 in
    let* pool := positive "connection_pool_size"%string 1 in
    let* cache := non_negative "chunk_cache_mb"%string 0 in
    let* readahead := non_negative "chunk_cache_readahead"%string 2 in
    let* block := positive "chunk_cache_block_kb"%string 1024 in
    let* parts := positive "upload_parts_in_flight"%string 1 in
    let* window := positive "read_parallel_window"%string 8 in
    let* tee := positive "tee_buffer_mb"%string 64 in
    Ok {| tc_upload_workers_small := small; tc_upload_workers_big := big; tc_upload_part_size_kb := part_size;
          tc_download_piece_size_kb := piece; tc_download_pieces_in_flight := pieces; tc_parallel_download_threshold_mb := threshold;
          tc_connection_pool_size := pool; tc_chunk_cache_mb := cache; tc_chunk_cache_readahead := readahead;
          tc_chunk_cache_block_kb := block; tc_upload_parts_in_flight := parts; tc_read_parallel_window := window;
          tc_tee_buffer_mb := tee |}.

(** The directory and the rest of the cache section. *)
Definition cache_from_dict (data : option yaml) : exc (string * CacheConfig) :=
  let data := or_empty data in
  let non_negative := at_least 0 data in
  let* block_kb := at_least 64 data "block_kb" (4 * 1024) in
  let* target := int_entry data "target_fill_percent" 90 in
  if negb ((1 <=? target) && (target <=? 100)) then Raise ValueError
  else
    let* enabled := bool_entry data "enabled" false in
    let* dir := y_get_or data "dir" YNull in
    let* max_size := non_negative "max_size_mb"%string (20 * 1024) in
    let* max_files := non_negative "max_files"%string 0 in
    let* max_file_size := non_negative "max_file_size_mb"%string (4 * 1024) in
    let* stage := bool_entry data "stage_uploads" true in
    let* keep := bool_entry data "keep_for_reads" true in
    let* min_free := non_negative "min_free_mb"%string 1024 in
    let* max_age := non_negative "max_age_hours"%string 0 in
    Ok (py_str py_repr (y_or dir (YStr "cache")),
        {| cf_enabled := enabled; cf_max_size_mb := max_size; cf_max_files := max_files; cf_max_file_size_mb := max_file_size;
           cf_block_kb := block_kb; cf_stage_uploads := stage; cf_keep_for_reads := keep; cf_min_free_mb := min_free;
           cf_max_age_hours := max_age; cf_target_fill_percent := target |}).

Definition listing_from_dict (data : option yaml) : exc ListingConfig :=
  let data := or_empty data in
  let* size := at_least 1 data "message_cache_size" 1024 in
  let* stat := bool_entry data "stat_in_metadata" false in
  let* validate := bool_entry data "validate_on_list" true in
  Ok {| lg_stat_in_metadata := stat; lg_validate_on_list := validate; lg_message_cache_size := size |}.

(** [{k: f(v) for k, v in data.items()}], the keys being those of a dict. *)
Definition map_values {A} (f : yaml -> exc A) (kvs : list (yaml * yaml)) : exc (list (yaml * A)) :=
  rmapM (fun kv => rmap (fun v => (kv.1, v)) (f kv.2)) kvs.

Definition app_from_dict (data : yaml) : exc TGFSConfig :=
  let* metadata_config := y_get_or data "metadata" (YDict []) in
  let* users := y_item data "users" in
  let* users := (if truth users then let* kvs := y_items users in map_values user_from_dict kvs else Ok []) in
  let* jwt := y_item data "jwt" in let* jwt := jwt_from_dict jwt in
  let* kvs := y_items metadata_config in let* metadata := map_values metadata_from_dict kvs in
  let* server := y_item data "server" in let* server := server_from_dict server in
  let* encryption := y_get data "encryption" in let* encryption := encryption_from_dict encryption in
  let* sftp := y_get data "sftp" in let* sftp := sftp_from_dict sftp in
  let* transfer := y_get data "transfer" in let* transfer := transfer_from_dict transfer in
  let* cache := y_get data "cache" in let* cache := cache_from_dict cache in
  let* listing := y_get data "listing" in let* listing := listing_from_dict listing in
  Ok {| ap_users := users; ap_jwt := jwt; ap_metadata := metadata; ap_server := server; ap_encryption := encryption;
        ap_sftp := sftp; ap_transfer := transfer; ap_cache := cache.2; ap_cache_dir := cache.1; ap_listing := listing |}.

(** ** Telegram and Discord *)

Definition bot_from_dict (data : yaml) : exc BotConfig :=
  let* token := y_get_or data "token" (YStr "") in
  let* tokens := y_get_or data "tokens" (YList []) in
  let* session := y_item data "session_file" in let* session := expand session in
  Ok {| bc_token := token; bc_session_file := session; bc_tokens := tokens |}.

Definition account_from_dict (data : yaml) : exc AccountConfig :=
  let* session := y_item data "session_file" in let* session := expand session in
  let* up := y_get_or data "used_to_upload" (YBool false) in
  let* down := y_get_or data "used_to_download" (YBool false) in
  Ok {| ac_session_file := session; ac_used_to_upload := up; ac_used_to_download := down |}.

Definition has_dup (l : list string) : bool := negb (bool_decide (NoDup l)).

Fixpoint mirrors_from (raw : list (yaml * yaml)) (acc : dict string (list string)) : exc (dict string (list string)) :=
  match raw with
  | [] => Ok acc
  | (primary, ids) :: raw =>
      if negb (truth ids) then mirrors_from raw acc
      else
        let* l := py_strs py_repr ids in
        if bool_decide (py_str py_repr primary ∈ l) then Raise ValueError
        else if has_dup l then Raise ValueError
        else mirrors_from raw (Dict.set (py_str py_repr primary) l acc)
  end.

Definition redundancy_from_dict (data : option yaml) : exc (option RedundancyConfig) :=
  let data := default YNull data in
  if negb (truth data) then Ok None
  else
    let* raw := y_get_or data "mirrors" YNull in
    let* raw := y_items (y_or raw (YDict [])) in
    let* mirrors := mirrors_from raw [] in
    if negb (nonempty mirrors) then Ok None
    else
      let* mode := y_get_or data "mode" (YStr "forward") in
      let* mode := (if is_key "forward" mode then Ok Forward else if is_key "reupload" mode then Ok Reupload else Raise ValueError) in
      let* strict := bool_entry data "strict" false in
      Ok (Some {| rd_mirrors := mirrors; rd_mode := mode; rd_strict := strict |}).

Definition telegram_disabled : TelegramConfig :=
  {| tl_api_id := YInt 0; tl_api_hash := YStr ""; tl_account := None;
     tl_bot := {| bc_token := YStr ""; bc_session_file := expand_path "bot.session"; bc_tokens := YList [] |};
     tl_private_file_channel := []; tl_lib := YStr "telethon"; tl_delete_messages_on_remove := false; tl_redundancy := None |}.

Definition telegram_from_dict (data : yaml) : exc TelegramConfig :=
  let* channels := y_get_or data "private_file_channel" YNull in
  let channels := y_or channels (YList []) in
  let channels := match channels with YStr _ | YInt _ | YBool _ => YList [channels] | _ => channels end in
  let* api_id := y_item data "api_id" in
  let* api_hash := y_item data "api_hash" in
  let* has_account := y_in "account" data in
  let* account := (if has_account then let* a := y_item data "account" in rmap Some (account_from_dict a) else Ok None) in
  let* bot := y_item data "bot" in let* bot := bot_from_dict bot in
  let* channels := py_strs py_repr channels in
  let* lib := y_get_or data "lib" YNull in
  let* delete := bool_entry data "delete_messages_on_remove" false in
  let* redundancy := y_get data "redundancy" in let* redundancy := redundancy_from_dict redundancy in
  Ok {| tl_api_id := api_id; tl_api_hash := api_hash; tl_account := account; tl_bot := bot; tl_private_file_channel := channels;
        tl_lib := y_or lib (YStr "telethon"); tl_delete_messages_on_remove := delete; tl_redundancy := redundancy |}.

Definition discord_from_dict (data : yaml) : exc DiscordConfig :=
  let* tokens := y_get_or data "bot_tokens" YNull in
  let* tokens := y_iter (y_or tokens (YList [])) in
  let* token := y_get_or data "bot_token" YNull in
  let tokens := if truth token then token :: tokens else tokens in
  if negb (nonempty tokens) then Raise ValueError
  else
    let* max_file_size := at_least 1024 data "max_file_size_bytes" 10000000 in
    let* delete := bool_entry data "delete_messages_on_remove" false in
    let* retries := at_least 1 data "upload_max_retries" 10 in
    let* interval := y_get_or data "upload_retry_interval" (YFloat (Ok 5) "5.0" false) in
    let* interval := py_float interval in
    let* uploads := at_least 1 data "max_concurrent_uploads" (Z.max 3 (zlen tokens)) in
    let* downloads := at_least 1 data "max_concurrent_downloads" 3 in
    Ok {| dc_bot_tokens := map (py_str py_repr) tokens; dc_max_file_size_bytes := max_file_size; dc_delete_messages_on_remove := delete;
          dc_upload_max_retries := retries; dc_upload_retry_interval := interval; dc_max_concurrent_uploads := uploads;
          dc_max_concurrent_downloads := downloads |}.

(** ** Stores and file systems *)

(** [StoreConfig.key]. *)
Definition store_key (s : StoreConfig) : exc string :=
  match Dict.get (sc_backend s) BACKEND_PREFIXES with
  | Some prefix => Ok (make_store_key prefix (sc_channel s))
  | None => Raise KeyError
  end.

Definition store_from_dict (name : string) (data : yaml) : exc StoreConfig :=
  let* backend := y_get_or data "backend" YNull in
  let backend := py_str py_repr (y_or backend (YStr "telegram")) in
  if negb (Dict.mem backend BACKEND_PREFIXES) then Raise ValueError
  else if negb (bool_decide (backend ∈ BACKEND_NAMES)) then Raise ValueError
  else
    let* channel := y_get_or data "channel" YNull in
    match channel with
    | YNull => Raise ValueError
    | _ => if bool_decide (py_str py_repr channel = EmptyString) then Raise ValueError
           else Ok {| sc_name := name; sc_backend := backend; sc_channel := py_str py_repr channel |}
    end.

(** [metadata_data.update(other)]: a dictionary, or an iterable of pairs. *)
Definition y_pair (y : yaml) : exc (yaml * yaml) :=
  let* l := y_iter y in
  match l with
  | [k; v] => match k with YList _ | YDict _ => Raise TypeError | _ => Ok (k, v) end
  | _ => Raise ValueError
  end.

Definition y_pairs (y : yaml) : exc (list (yaml * yaml)) :=
  match y with YDict d => Ok d | _ => let* l := y_iter y in rmapM y_pair l end.

Fixpoint y_set (k v : yaml) (d : list (yaml * yaml)) : list (yaml * yaml) :=
  match d with
  | [] => [(k, v)]
  | (k', v') :: d =>
      if match k with YStr s => is_key s k' | _ => false end then (k', v) :: d else (k', v') :: y_set k v d
  end.

Definition y_update (d e : list (yaml * yaml)) : list (yaml * yaml) := foldl (fun d kv => y_set kv.1 kv.2 d) d e.

Definition mode_of (mode : string) : exc MirrorMode :=
  if decide (mode = "auto"%string) then Ok Auto
  else if decide (mode = "forward"%string) then Ok Forward
  else if decide (mode = "reupload"%string) then Ok Reupload
  else Raise ValueError.

Definition sync_of (sync : string) : exc SyncMode :=
  if decide (sync = "inline"%string) then Ok Inline
  else if decide (sync = "background"%string) then Ok Background
  else if decide (sync = "tee"%string) then Ok TeeSync
  else Raise ValueError.

Definition ack_of (ack : string) : exc WriteAck :=
  if decide (ack = "primary"%string) then Ok AckPrimary
  else if decide (ack = "cache"%string) then Ok AckCache
  else Raise ValueError.

Definition str_entry (data : yaml) (key dflt : string) : exc string := rmap (py_str py_repr) (y_get_or data key (YStr dflt)).
Definition strs_entry (data : yaml) (key : string) : exc (list string) :=
  let* y := y_get_or data key YNull in py_strs py_repr (y_or y (YList [])).

Definition filesystem_from_dict (name : string) (data : yaml) : exc FilesystemConfig :=
  let* primary := y_get_or data "primary" YNull in
  if negb (truth primary) then Raise ValueError
  else
    let primary := py_str py_repr primary in
    let* mirrors := strs_entry data "mirrors" in
    if bool_decide (primary ∈ mirrors) then Raise ValueError
    else if has_dup mirrors then Raise ValueError
    else
      let* mode := str_entry data "mode" "auto" in let* mode := mode_of mode in
      let* has_sync := y_in "sync" data in
      let* sync := str_entry data "sync" "inline" in let* sync := sync_of sync in
      let* strict := bool_entry data "strict" false in
      if strict && negb (bool_decide (sync = Inline)) then Raise ValueError
      else
        let* ack := str_entry data "write_ack" "primary" in let* ack := ack_of ack in
        if bool_decide (ack = AckCache) && bool_decide (sync = TeeSync) then Raise ValueError
        else if strict && bool_decide (ack = AckCache) then Raise ValueError
        else
          let* extra := y_get_or data "metadata" YNull in
          let* extra := y_pairs (y_or extra (YDict [])) in
          let* metadata := metadata_from_dict (YDict (y_update
            [(YStr "name", YStr name); (YStr "type", YStr "pinned_message"); (YStr "github_repo", YNull)] extra)) in
          let* read_preference := strs_entry data "read_preference" in
          let* shared := bool_entry data "allow_shared_store" false in
          let* read_parallel := bool_entry data "read_parallel" false in
          let* read_sources := strs_entry data "read_sources" in
          Ok {| fs_name := name; fs_primary := primary; fs_mirrors := mirrors; fs_mode := mode; fs_sync := sync; fs_strict := strict;
                fs_read_preference := read_preference; fs_metadata := metadata; fs_allow_shared_store := shared;
                fs_sync_is_default := negb has_sync; fs_write_ack := ack; fs_read_parallel := read_parallel;
                fs_read_sources := read_sources |}.

Definition store_names (fs : FilesystemConfig) : list string := fs_primary fs :: fs_mirrors fs.

Definition backend_of (stores : dict string StoreConfig) (name : string) : exc string :=
  match Dict.get name stores with Some s => Ok (sc_backend s) | None => Raise KeyError end.

Fixpoint filter_reupload (stores : dict string StoreConfig) (primary : string) (mirrors : list string) : exc (list string) :=
  match mirrors with
  | [] => Ok []
  | m :: mirrors =>
      let* b := backend_of stores m in
      let* rest := filter_reupload stores primary mirrors in
      Ok (if negb (bool_decide (b = primary)) || bool_decide (b = "discord"%string) then m :: rest else rest)
  end.

Definition reuploading_mirrors (stores : dict string StoreConfig) (fs : FilesystemConfig) : exc (list string) :=
  if decide (fs_mode fs = Reupload) then Ok (fs_mirrors fs)
  else let* primary := backend_of stores (fs_primary fs) in filter_reupload stores primary (fs_mirrors fs).

Definition needs_reupload (stores : dict string StoreConfig) (fs : FilesystemConfig) : exc bool :=
  rmap nonempty (reuploading_mirrors stores fs).

Definition with_sync (sync : SyncMode) (fs : FilesystemConfig) : FilesystemConfig :=
  {| fs_name := fs_name fs; fs_primary := fs_primary fs; fs_mirrors := fs_mirrors fs; fs_mode := fs_mode fs; fs_sync := sync;
     fs_strict := fs_strict fs; fs_read_preference := fs_read_preference fs; fs_metadata := fs_metadata fs;
     fs_allow_shared_store := fs_allow_shared_store fs; fs_sync_is_default := fs_sync_is_default fs; fs_write_ack := fs_write_ack fs;
     fs_read_parallel := fs_read_parallel fs; fs_read_sources := fs_read_sources fs |}.

Definition derive_sync (stores : dict string StoreConfig) (fs : FilesystemConfig) : exc FilesystemConfig :=
  if fs_sync_is_default fs && negb (fs_strict fs) then
    let* needs := needs_reupload stores fs in Ok (if needs then with_sync Background fs else fs)
  else Ok fs.

(** ** The tgfs layout *)

Definition legacy_store_name (channel : string) : string := "tg-" +:+ channel.

(** [store_name]: the store is added when it is not there. *)
Definition add_store (channel : string) (stores : dict string StoreConfig) : dict string StoreConfig :=
  let name := legacy_store_name channel in
  if Dict.mem name stores then stores
  else Dict.set name {| sc_name := name; sc_backend := "telegram"; sc_channel := channel |} stores.

Fixpoint legacy_loop (channels : list string) (telegram : TelegramConfig) (metadata : list (yaml * MetadataConfig))
    (stores : dict string StoreConfig) (fss : dict string FilesystemConfig)
  : exc (dict string StoreConfig * dict string FilesystemConfig) :=
  match channels with
  | [] => Ok (stores, fss)
  | channel :: channels =>
      match List.find (fun kv => is_key channel kv.1) metadata with
      | None => Raise ValueError
      | Some (_, md) =>
          let mirrors := match tl_redundancy telegram with Some r => default [] (Dict.get channel (rd_mirrors r)) | None => [] end in
          match md_name md with
          | YStr name =>
              let stores := foldl (fun s m => add_store m s) (add_store channel stores) mirrors in
              let fs := {| fs_name := name; fs_primary := legacy_store_name channel; fs_mirrors := map legacy_store_name mirrors;
                           fs_mode := match tl_redundancy telegram with Some r => rd_mode r | None => Auto end;
                           fs_sync := Inline;
                           fs_strict := match tl_redundancy telegram with Some r => rd_strict r | None => false end;
                           fs_read_preference := []; fs_metadata := md; fs_allow_shared_store := true; fs_sync_is_default := false;
                           fs_write_ack := AckPrimary; fs_read_parallel := false; fs_read_sources := [] |} in
              legacy_loop channels telegram metadata stores (Dict.set name fs fss)
          | _ => Raise TypeError
          end
      end
  end.

Definition legacy_stores_and_filesystems (telegram : TelegramConfig) (app : TGFSConfig)
  : exc (dict string StoreConfig * dict string FilesystemConfig) :=
  legacy_loop (tl_private_file_channel telegram) telegram (ap_metadata app) [] [].

(** ** The whole *)

(** [for x in names: if x not in known: raise ValueError] *)
Definition all_in (names known : list string) : exc unit :=
  if forallb (fun x => bool_decide (x ∈ known)) names then Ok tt else Raise ValueError.

Fixpoint check_filesystems (stores : dict string StoreConfig) (fss : list (string * FilesystemConfig)) (primaries : dict string string)
  : exc (dict string string) :=
  match fss with
  | [] => Ok primaries
  | (_, fs) :: fss =>
      let* _ := all_in (store_names fs) (Dict.keys stores) in
      let* _ := all_in (fs_read_preference fs) (store_names fs) in
      let* _ := all_in (fs_read_sources fs) (store_names fs) in
      if Dict.mem (fs_primary fs) primaries then Raise ValueError
      else check_filesystems stores fss (Dict.set (fs_primary fs) (fs_name fs) primaries)
  end.

(** A mirror that is the primary of another file system has to be allowed. *)
Fixpoint check_shared (fs : FilesystemConfig) (mirrors : list string) (primaries : dict string string)
    (fss : dict string FilesystemConfig) : exc unit :=
  match mirrors with
  | [] => Ok tt
  | mirror :: mirrors =>
      match Dict.get mirror primaries with
      | Some owner =>
          if bool_decide (owner = EmptyString) || fs_allow_shared_store fs then check_shared fs mirrors primaries fss
          else match Dict.get owner fss with
               | Some o => if fs_allow_shared_store o then check_shared fs mirrors primaries fss else Raise ValueError
               | None => Raise KeyError
               end
      | None => check_shared fs mirrors primaries fss
      end
  end.

Fixpoint derive_all (stores : dict string StoreConfig) (todo : list (string * FilesystemConfig)) (primaries : dict string string)
    (fss : dict string FilesystemConfig) : exc (dict string FilesystemConfig) :=
  match todo with
  | [] => Ok []
  | (name, fs) :: todo =>
      let* fs := derive_sync stores fs in
      let* _ := check_shared fs (fs_mirrors fs) primaries fss in
      let* rest := derive_all stores todo primaries fss in
      Ok ((name, fs) :: rest)
  end.

Definition validate_filesystems (stores : dict string StoreConfig) (fss : dict string FilesystemConfig)
  : exc (dict string FilesystemConfig) :=
  let* primaries := check_filesystems stores fss [] in derive_all stores fss primaries fss.

Definition named_sections {A} (f : string -> yaml -> exc A) (data : yaml) (key : string) : exc (dict string A) :=
  let* y := y_get_or data key YNull in
  let* kvs := y_items (y_or y (YDict [])) in
  let* l := rmapM (fun kv => let name := py_str py_repr kv.1 in rmap (fun v => (name, v)) (f name (y_or kv.2 (YDict [])))) kvs in
  Ok (Dict.of_pairs l).

Fixpoint check_backends (stores : list (string * StoreConfig)) (telegram : TelegramConfig) (discord : option DiscordConfig) : exc unit :=
  match stores with
  | [] => Ok tt
  | (_, s) :: stores =>
      if bool_decide (sc_backend s = "discord"%string) && negb (bool_decide (is_Some discord)) then Raise ValueError
      else if bool_decide (sc_backend s = "telegram"%string) && negb (truth (tl_api_hash telegram)) then Raise ValueError
      else check_backends stores telegram discord
  end.

Definition config_from_dict (data : yaml) : exc Config :=
  let* has_app := y_in "tgdcfs" data in
  let* app_data := (if has_app then y_item data "tgdcfs"
                    else let* has_tgfs := y_in "tgfs" data in
                         if has_tgfs then y_item data "tgfs" else Raise ValueError) in
  let* backends := y_get_or data "backends" YNull in
  let backends := y_or backends (YDict []) in
  let* in_backends := y_in "telegram" backends in
  let* at_top := y_in "telegram" data in
  let* has_stores := y_in "stores" data in
  let* has_filesystems := y_in "filesystems" data in
  let* telegram := (if in_backends then let* d := y_item backends "telegram" in telegram_from_dict d
                    else if at_top then let* d := y_item data "telegram" in telegram_from_dict d
                    else if has_stores || has_filesystems then Ok telegram_disabled
                    else Raise ValueError) in
  let* has_discord := y_in "discord" backends in
  let* discord := (if has_discord then let* d := y_item backends "discord" in rmap Some (discord_from_dict d) else Ok None) in
  let* app := app_from_dict app_data in
  let* sf := (if has_stores || has_filesystems then
                if nonempty (tl_private_file_channel telegram) then Raise ValueError
                else let* stores := named_sections store_from_dict data "stores" in
                     let* fss := named_sections filesystem_from_dict data "filesystems" in Ok (stores, fss)
              else legacy_stores_and_filesystems telegram app) in
  let* _ := check_backends sf.1 telegram discord in
  let* fss := validate_filesystems sf.1 sf.2 in
  if existsb (fun nf => bool_decide (fs_write_ack nf.2 = AckCache) && negb (cf_enabled (ap_cache app))) fss then Raise ValueError
  else Ok {| cg_telegram := telegram; cg_tgdcfs := app; cg_stores := sf.1; cg_filesystems := fss; cg_discord := discord |}.

End Load.

Definition filesystem_for_store (c : Config) (store_name : string) : option FilesystemConfig :=
  option_map snd (List.find (fun nf => bool_decide (fs_primary nf.2 = store_name)) (cg_filesystems c)).

Fixpoint filesystem_for_channel_loop (c : Config) (backend channel : string) (stores : list (string * StoreConfig)) : option FilesystemConfig :=
  match stores with
  | [] => None
  | (_, s) :: stores =>
      if bool_decide (sc_backend s = backend) && bool_decide (sc_channel s = channel) then
        match filesystem_for_store c (sc_name s) with
        | Some fs => Some fs
        | None => filesystem_for_channel_loop c backend channel stores
        end
      else filesystem_for_channel_loop c backend channel stores
  end.

Definition filesystem_for_channel (c : Config) (backend channel : string) : option FilesystemConfig :=
  filesystem_for_channel_loop c backend channel (cg_stores c).

Definition uses_backend (c : Config) (name : string) : bool := existsb (fun ns => bool_decide (sc_backend ns.2 = name)) (cg_stores c).

(** ** Putting a file system together ([tgdcfs/core/client.py])

    What [Client.create] decides from the configuration: the stores, the
    mirror group, how the content repository reads and mirrors, and whether a
    write goes to the replication queue. *)

(** [config.stores[name].key]. *)
Definition key_of (stores : dict string StoreConfig) (name : string) : exc string :=
  match Dict.get name stores with Some s => store_key s | None => Raise KeyError end.

(** [replication] and [cache]: whether there is a queue and a local cache. *)
Definition client_inline (fs : FilesystemConfig) (replication : bool) : bool :=
  bool_decide (fs_sync fs = Inline) || negb replication.

Definition client_group (stores : dict string StoreConfig) (fs : FilesystemConfig) : exc (option MirrorGroup) :=
  if negb (nonempty (fs_mirrors fs)) then Ok None
  else
    let* primary := key_of stores (fs_primary fs) in
    let* keys := rmapM (key_of stores) (fs_mirrors fs) in
    Ok (Some {| mg_primary := primary; mg_stores := keys; mg_mode := fs_mode fs; mg_strict := fs_strict fs |}).

Definition client_tee (fs : FilesystemConfig) : bool := bool_decide (fs_sync fs = TeeSync) && nonempty (fs_mirrors fs).

Definition client_content (c : Config) (fs : FilesystemConfig) : exc ContentConfig :=
  let* store := key_of (cg_stores c) (fs_primary fs) in
  let* read_preference := rmapM (key_of (cg_stores c)) (fs_read_preference fs) in
  let* group := client_group (cg_stores c) fs in
  let* read_sources := rmapM (key_of (cg_stores c)) (fs_read_sources fs) in
  let transfer := ap_transfer (cg_tgdcfs c) in
  Ok {| cc_store := store; cc_group := option_map mg_stores group; cc_read_preference := read_preference;
        cc_read_parallel := fs_read_parallel fs; cc_read_sources := read_sources;
        cc_piece_size := download_piece_size_bytes transfer;
        cc_parallel_threshold := parallel_download_threshold_bytes transfer;
        cc_read_window := tc_read_parallel_window transfer |}.

Definition client_write_back (fs : FilesystemConfig) (cache : bool) : bool := bool_decide (fs_write_ack fs = AckCache) && cache.

(** Whether [on_written] queues the file. *)
Definition client_enqueues (fs : FilesystemConfig) (replication cache : bool) : bool :=
  replication && ((negb (client_inline fs replication) && nonempty (fs_mirrors fs)) || client_write_back fs cache).

(** ** The master key ([crypto/bootstrap.py], [crypto/kdf.py]) *)

(** [argon2.low_level.hash_secret_raw] of the secret and the salt, with the
    time cost, memory cost, parallelism and length of the result, type ID. *)
Class Argon2 := { hash_secret_raw : bytes -> bytes -> Z -> Z -> Z -> Z -> bytes }.

Definition ARGON2_TIME_COST : Z := 3.
Definition ARGON2_MEMORY_COST_KIB : Z := 64 * 1024.
Definition ARGON2_PARALLELISM : Z := 4.
Definition ARGON2_HASH_LEN : Z := 32.
Definition MASTER_SALT_SIZE : Z := 16.

Record MasterKey := { mk_key : bytes; mk_salt : bytes }.

(** [fresh] is what [secrets.token_bytes] gives; a passphrase that is no text
    has no [encode]. *)
Definition derive_master_key `{Argon2} (passphrase : yaml) (salt : option bytes) (fresh : bytes) : exc MasterKey :=
  let* salt := match salt with None => Ok fresh | Some s => if zlen s <? 8 then Raise ValueError else Ok s end in
  match passphrase with
  | YStr p => Ok {| mk_key := hash_secret_raw (String.list_byte_of_string p) salt ARGON2_TIME_COST ARGON2_MEMORY_COST_KIB
                                ARGON2_PARALLELISM ARGON2_HASH_LEN;
                    mk_salt := salt |}
  | _ => Raise AttributeError
  end.

Section Bootstrap.
  (** [write] is what creating the salt file with these bytes comes to, and
      the file that is there then; the state is the file. *)
  Context `{Argon2} (env : Env) (write : bytes -> exc unit * option bytes).

Definition load_or_create_master_salt (fresh : bytes) : st exn (option bytes) bytes := fun file =>
  match file with
  | Some salt => (if zlen salt <? 8 then Raise ValueError else Ok salt, file)
  | None => let '(r, file) := write fresh in (rmap (fun _ => fresh) r, file)
  end.

Definition load_master_key (c : EncryptionConfig) (fresh : bytes) : st exn (option bytes) MasterKey :=
  let! passphrase := slift (resolve_passphrase env c) in
  let! salt := load_or_create_master_salt fresh in
  slift (derive_master_key passphrase (Some salt) fresh).

End Bootstrap.
