(* ===== verification/ConfigProps.v ===== *)
(** * What a loaded configuration is

    A configuration that loads is well formed: numbers are in their bounds,
    the stores of a file system exist and are distinct, and the options that
    exclude each other are not combined.  The mirrors the loader expects to
    re-upload are the ones the mirror group feeds by re-uploading. *)

From S2P Require Import Prelude Errors StoreKey Messages FileVersion Stores Mirror ConfigValue LocalCache Config FileContent.

Open Scope Z_scope.
Open Scope py_scope.

Record transfer_ok (c : TransferConfig) : Prop := {
  to_part : 1 <= tc_upload_part_size_kb c <= 512 /\ 512 mod tc_upload_part_size_kb c = 0;
  to_workers : 1 <= tc_upload_workers_small c /\ 1 <= tc_upload_workers_big c;
  to_pieces : 1 <= tc_download_piece_size_kb c /\ 1 <= tc_download_pieces_in_flight c /\ 1 <= tc_parallel_download_threshold_mb c;
  to_pool : 1 <= tc_connection_pool_size c;
  to_cache : 0 <= tc_chunk_cache_mb c /\ 0 <= tc_chunk_cache_readahead c /\ 1 <= tc_chunk_cache_block_kb c;
  to_rest : 1 <= tc_upload_parts_in_flight c /\ 1 <= tc_read_parallel_window c /\ 1 <= tc_tee_buffer_mb c
}.

Record cache_config_ok (c : CacheConfig) : Prop := {
  co_block : 64 <= cf_block_kb c;
  co_fill : 1 <= cf_target_fill_percent c <= 100;
  co_sizes : 0 <= cf_max_size_mb c /\ 0 <= cf_max_files c /\ 0 <= cf_max_file_size_mb c /\ 0 <= cf_min_free_mb c /\ 0 <= cf_max_age_hours c
}.

Record filesystem_ok (fs : FilesystemConfig) : Prop := {
  fo_own : fs_primary fs ∉ fs_mirrors fs;
  fo_mirrors : NoDup (fs_mirrors fs);
  fo_strict : fs_strict fs = true -> fs_sync fs = Inline /\ fs_write_ack fs = AckPrimary;
  fo_ack : fs_write_ack fs = AckCache -> fs_sync fs <> TeeSync
}.

(** The stores of a file system exist, the stores it reads from are its own. *)
Definition stores_exist (stores : dict string StoreConfig) (fs : FilesystemConfig) : Prop :=
  (forall n, n ∈ store_names fs -> n ∈ Dict.keys stores) /\
  (forall n, n ∈ fs_read_preference fs -> n ∈ store_names fs) /\ (forall n, n ∈ fs_read_sources fs -> n ∈ store_names fs).

Definition store_ok (telegram : TelegramConfig) (discord : option DiscordConfig) (s : StoreConfig) : Prop :=
  sc_backend s ∈ BACKEND_NAMES /\ (sc_backend s = "discord"%string -> is_Some discord) /\
  (sc_backend s = "telegram"%string -> truth (tl_api_hash telegram) = true).

Record config_ok (c : Config) : Prop := {
  go_transfer : transfer_ok (ap_transfer (cg_tgdcfs c));
  go_cache : cache_config_ok (ap_cache (cg_tgdcfs c));
  go_sftp : 1 <= sf_port (ap_sftp (cg_tgdcfs c)) <= 65535 /\ 0 <= sf_upload_buffer_size_mb (ap_sftp (cg_tgdcfs c));
  go_listing : 1 <= lg_message_cache_size (ap_listing (cg_tgdcfs c));
  go_stores : forall n s, (n, s) ∈ cg_stores c -> store_ok (cg_telegram c) (cg_discord c) s;
  go_filesystems : forall n fs, (n, fs) ∈ cg_filesystems c ->
    filesystem_ok fs /\ stores_exist (cg_stores c) fs /\ (fs_write_ack fs = AckCache -> cf_enabled (ap_cache (cg_tgdcfs c)) = true);
  go_primaries : NoDup (map (fun nf => fs_primary nf.2) (cg_filesystems c))
}.

(** ** The sections *)

Section Load.
  Context (env : Env) (py_repr : yaml -> string) (py_float : yaml -> exc yaml).

Lemma transfer_from_dict_ok data c : transfer_from_dict data = Ok c -> transfer_ok c.
Proof.
  unfold transfer_from_dict. intros H. read_all H. injection H as <-.
  apply orb_false_iff in E as [E1%Z.ltb_ge E2%negb_false_iff%Z.eqb_eq].
  repeat match goal with H : at_least _ _ _ _ = Ok _ |- _ => apply at_least_bound in H end.
  by constructor; simpl.
Qed.

Lemma cache_from_dict_ok data c : cache_from_dict py_repr data = Ok c -> cache_config_ok c.2.
Proof.
  unfold cache_from_dict. intros H. read_all H. injection H as <-.
  apply negb_false_iff, andb_true_iff in E as [E1%Z.leb_le E2%Z.leb_le].
  repeat match goal with H : at_least _ _ _ _ = Ok _ |- _ => apply at_least_bound in H end.
  by constructor; simpl.
Qed.

Lemma sftp_from_dict_ok data c : sftp_from_dict env py_repr data = Ok c -> 1 <= sf_port c <= 65535 /\ 0 <= sf_upload_buffer_size_mb c.
Proof.
  unfold sftp_from_dict. intros H. read_all H. injection H as <-.
  apply negb_false_iff, andb_true_iff in E as [E1%Z.leb_le E2%Z.leb_le].
  repeat match goal with H : at_least _ _ _ _ = Ok _ |- _ => apply at_least_bound in H end. done.
Qed.

Lemma listing_from_dict_ok data c : listing_from_dict data = Ok c -> 1 <= lg_message_cache_size c.
Proof.
  unfold listing_from_dict. intros H. read_all H. injection H as <-.
  repeat match goal with H : at_least _ _ _ _ = Ok _ |- _ => apply at_least_bound in H end. done.
Qed.

Lemma app_from_dict_ok data c :
  app_from_dict env py_repr data = Ok c ->
  transfer_ok (ap_transfer c) /\ cache_config_ok (ap_cache c) /\
  (1 <= sf_port (ap_sftp c) <= 65535 /\ 0 <= sf_upload_buffer_size_mb (ap_sftp c)) /\ 1 <= lg_message_cache_size (ap_listing c).
Proof.
  unfold app_from_dict. intros H. do 4 read_step H. read_all H. injection H as <-. simpl.
  repeat match goal with
  | H : transfer_from_dict _ = Ok _ |- _ => apply transfer_from_dict_ok in H
  | H : cache_from_dict _ _ = Ok _ |- _ => apply cache_from_dict_ok in H
  | H : sftp_from_dict _ _ _ = Ok _ |- _ => apply sftp_from_dict_ok in H
  | H : listing_from_dict _ = Ok _ |- _ => apply listing_from_dict_ok in H
  end. done.
Qed.

Lemma store_from_dict_ok name data s :
  store_from_dict py_repr name data = Ok s -> sc_name s = name /\ sc_backend s ∈ BACKEND_NAMES /\ sc_channel s <> EmptyString.
Proof.
  unfold store_from_dict. intros H. read_all H. apply negb_false_iff, bool_decide_eq_true in E0.
  destruct x0; try done; (case_bool_decide as Hc; [done|]); injection H as <-; done.
Qed.

Lemma has_dup_false l : has_dup l = false -> NoDup l.
Proof. unfold has_dup. by intros ?%negb_false_iff%bool_decide_eq_true. Qed.

Lemma filesystem_from_dict_ok name data fs :
  filesystem_from_dict py_repr name data = Ok fs -> fs_name fs = name /\ filesystem_ok fs.
Proof.
  unfold filesystem_from_dict. intros H. read_all H. injection H as <-. split; [done|].
  apply bool_decide_eq_false in E0. apply has_dup_false in E1. constructor; simpl; try done.
  - intros ->. simpl in E2, E4. apply negb_false_iff, bool_decide_eq_true in E2. split; [done|].
    match goal with H : ack_of _ = Ok ?a |- _ => destruct a; [done|] end. done.
  - intros ->. simpl in E3. by apply bool_decide_eq_false in E3.
Qed.

(** The options of a file system that is not read from a section. *)
Lemma with_sync_ok fs : filesystem_ok fs -> fs_strict fs = false -> filesystem_ok (with_sync Background fs).
Proof. intros [? ? ? ?] Hs. constructor; simpl; try done. by rewrite Hs. Qed.

Lemma derive_sync_same stores fs fs' :
  derive_sync stores fs = Ok fs' -> fs' = fs \/ (fs' = with_sync Background fs /\ fs_strict fs = false /\ fs_sync_is_default fs = true).
Proof.
  unfold derive_sync. destruct (fs_sync_is_default fs) eqn:Hd; simpl; [|intros [= <-]; by left].
  destruct (fs_strict fs) eqn:Hs; simpl; [intros [= <-]; by left|]. intros (b & _ & H)%rbind_Ok.
  injection H as <-. destruct b; [by right|by left].
Qed.

(** ** Checks over the whole *)

Lemma all_in_ok names known : all_in names known = Ok tt -> forall n, n ∈ names -> n ∈ known.
Proof.
  unfold all_in. destruct (forallb _ names) eqn:Hf; [|done]. intros _ n Hn. rewrite forallb_forall in Hf.
  apply list_elem_of_In in Hn. by apply Hf, bool_decide_eq_true in Hn.
Qed.

Lemma check_filesystems_ok stores fss : forall primaries ps,
  check_filesystems stores fss primaries = Ok ps ->
  (forall n fs, (n, fs) ∈ fss -> stores_exist stores fs) /\ NoDup (map (fun nf => fs_primary nf.2) fss) /\
  forall n fs, (n, fs) ∈ fss -> Dict.mem (fs_primary fs) primaries = false.
Proof.
  induction fss as [|[name fs] fss IH]; intros primaries ps; simpl.
  - intros _. split_and!; [by intros ? ? ?%not_elem_of_nil|by constructor|by intros ? ? ?%not_elem_of_nil].
  - intros ([] & H1 & H)%rbind_Ok. apply rbind_Ok in H as ([] & H2 & H). apply rbind_Ok in H as ([] & H3 & H).
    destruct (Dict.mem (fs_primary fs) primaries) eqn:Hm; [done|]. destruct (IH _ _ H) as (He & Hnd & Hnew).
    split_and!.
    + intros n f [[= -> ->]|Hin]%elem_of_cons; [|by eapply He]. split_and!; by apply all_in_ok.
    + constructor; [|done]. intros ([n f] & Heq & Hin)%list_elem_of_fmap. simpl in Heq. specialize (Hnew n f Hin).
      rewrite <- Heq in Hnew. unfold Dict.mem in Hnew. by rewrite Dict.get_set_eq in Hnew.
    + intros n f [[= -> ->]|Hin]%elem_of_cons; [done|]. specialize (Hnew n f Hin).
      destruct (Dict.mem (fs_primary f) primaries) eqn:Hp; [|done]. unfold Dict.mem in *.
      destruct (decide (fs_primary f = fs_primary fs)) as [Heq|Hne]; [by rewrite Heq, Dict.get_set_eq in Hnew|].
      rewrite Dict.get_set_ne in Hnew by done. by destruct (Dict.get (fs_primary f) primaries).
Qed.

Lemma derive_all_ok stores primaries fss todo : forall res,
  derive_all stores todo primaries fss = Ok res ->
  Forall2 (fun a b => b.1 = a.1 /\ derive_sync stores a.2 = Ok b.2) todo res.
Proof.
  induction todo as [|[name fs] todo IH]; intros res; simpl; [intros [= <-]; constructor|].
  intros (fs' & Hd & H)%rbind_Ok. apply rbind_Ok in H as ([] & _ & H). apply rbind_Ok in H as (rest & Hr & H).
  injection H as <-. constructor; [done|]. by apply IH.
Qed.

Lemma check_backends_ok telegram discord stores :
  check_backends stores telegram discord = Ok tt ->
  forall n s, (n, s) ∈ stores ->
    (sc_backend s = "discord"%string -> is_Some discord) /\ (sc_backend s = "telegram"%string -> truth (tl_api_hash telegram) = true).
Proof.
  induction stores as [|[name s] stores IH]; simpl; [by intros _ ? ? ?%not_elem_of_nil|].
  destruct (bool_decide (sc_backend s = "discord"%string) && _) eqn:E1; [done|].
  destruct (bool_decide (sc_backend s = "telegram"%string) && _) eqn:E2; [done|].
  intros H n x [[= -> ->]|Hin]%elem_of_cons; [|by eapply IH]. split; intros Hb.
  - rewrite bool_decide_eq_true_2 in E1 by done. simpl in E1. by apply negb_false_iff, bool_decide_eq_true in E1.
  - rewrite bool_decide_eq_true_2 in E2 by done. simpl in E2. by apply negb_false_iff in E2.
Qed.

Lemma dict_of_pairs_elem {V} (l : list (string * V)) k v : (k, v) ∈ Dict.of_pairs l -> (k, v) ∈ l.
Proof. intros [Hin|?]%dict_update_elem; [by apply not_elem_of_nil in Hin|done]. Qed.

Lemma named_sections_ok {A} (f : string -> yaml -> exc A) (P : A -> Prop) data key d :
  (forall n y a, f n y = Ok a -> P a) -> named_sections py_repr f data key = Ok d -> forall n a, (n, a) ∈ d -> P a.
Proof.
  intros Hf H. unfold named_sections in H. read_all H. injection H as <-. intros n a Hin%dict_of_pairs_elem.
  match goal with H : rmapM _ _ = Ok _ |- _ => apply rmapM_Forall2 in H; rename H into Hall end.
  apply list_elem_of_lookup in Hin as [i Hi]. destruct (Forall2_lookup_r _ _ _ _ _ Hall Hi) as (kv & _ & Hkv).
  apply rmap_Ok in Hkv as (v & Hv & [= -> ->]). by eapply Hf.
Qed.

(** ** The tgfs layout *)

Lemma mirrors_from_ok raw : forall acc res,
  mirrors_from py_repr raw acc = Ok res -> (forall p l, (p, l) ∈ acc -> p ∉ l /\ NoDup l) -> forall p l, (p, l) ∈ res -> p ∉ l /\ NoDup l.
Proof.
  induction raw as [|[primary ids] raw IH]; intros acc res; simpl; [by intros [= <-]|].
  destruct (negb (truth ids)); [apply IH|]. intros (l & _ & H)%rbind_Ok Hacc. case_bool_decide as Hp; [done|].
  destruct (has_dup l) eqn:Hd; [done|]. apply (IH _ _ H). intros p k [[-> ->]|Hin]%dict_set_elem; [|by apply Hacc].
  split; [done|]. by apply has_dup_false.
Qed.

Definition redundancy_ok (r : option RedundancyConfig) : Prop :=
  match r with Some r => forall p l, (p, l) ∈ rd_mirrors r -> p ∉ l /\ NoDup l | None => True end.

Lemma redundancy_from_dict_ok data r : redundancy_from_dict py_repr data = Ok r -> redundancy_ok r.
Proof.
  unfold redundancy_from_dict. destruct (negb (truth (default YNull data))); [by intros [= <-]|]. intros H.
  do 3 read_step H. destruct (negb (nonempty x1)); [by injection H as <-|]. read_all H. injection H as <-. simpl.
  eapply mirrors_from_ok; [eassumption|]. intros p l Hin. by apply not_elem_of_nil in Hin.
Qed.

Lemma telegram_from_dict_ok data t : telegram_from_dict env py_repr data = Ok t -> redundancy_ok (tl_redundancy t).
Proof.
  unfold telegram_from_dict. intros H. read_all H. injection H as <-. simpl.
  match goal with H : redundancy_from_dict _ _ = Ok _ |- _ => by apply redundancy_from_dict_ok in H end.
Qed.

#[export] Instance legacy_store_name_inj : Inj (=) (=) legacy_store_name.
Proof. intros a b Heq. by injection Heq. Qed.

Lemma add_store_elem c stores n s : (n, s) ∈ add_store c stores -> (n, s) ∈ stores \/ sc_backend s = "telegram"%string.
Proof.
  unfold add_store. destruct (Dict.mem _ stores); [by left|]. intros [[-> ->]|?]%dict_set_elem; [by right|by left].
Qed.

Lemma add_stores_elem l : forall stores n s, (n, s) ∈ foldl (fun s m => add_store m s) stores l -> (n, s) ∈ stores \/ sc_backend s = "telegram"%string.
Proof.
  induction l as [|c l IH]; intros stores n s; simpl; [by left|]. intros [Hin|?]%IH; [|by right]. by apply add_store_elem in Hin.
Qed.

Lemma legacy_loop_ok telegram metadata channels : redundancy_ok (tl_redundancy telegram) -> forall stores fss res,
  legacy_loop channels telegram metadata stores fss = Ok res ->
  (forall n s, (n, s) ∈ stores -> sc_backend s ∈ BACKEND_NAMES) -> (forall n fs, (n, fs) ∈ fss -> filesystem_ok fs) ->
  (forall n s, (n, s) ∈ res.1 -> sc_backend s ∈ BACKEND_NAMES) /\ (forall n fs, (n, fs) ∈ res.2 -> filesystem_ok fs).
Proof.
  intros Hred. induction channels as [|channel channels IH]; intros stores fss res; simpl; [by intros [= <-]|].
  destruct (List.find _ metadata) as [[k md]|]; [|done]. destruct (md_name md) as [| | | |name| | |]; try done.
  intros H Hst Hfs. apply (IH _ _ _ H).
  - intros n s [Hin|Hb]%add_stores_elem; [|rewrite Hb; left]. apply add_store_elem in Hin as [?|Hb]; [by eapply Hst|rewrite Hb; left].
  - intros n fs [[-> ->]|Hin]%dict_set_elem; [|by eapply Hfs].
    set (mirrors := match tl_redundancy telegram with Some r => default [] (Dict.get channel (rd_mirrors r)) | None => [] end).
    assert (channel ∉ mirrors /\ NoDup mirrors) as [Hm Hnd].
    { unfold mirrors. unfold redundancy_ok in Hred. destruct (tl_redundancy telegram) as [r|]; [|split; [apply not_elem_of_nil|constructor]].
      destruct (Dict.get channel (rd_mirrors r)) as [l|] eqn:Hg; [|split; [apply not_elem_of_nil|constructor]].
      apply (Hred channel l). by apply list_elem_of_In, Dict.get_Some_In. }
    constructor; simpl; try done; [|].
    + intros (m & Heq & Hin)%list_elem_of_fmap. apply legacy_store_name_inj in Heq. congruence.
    + apply (NoDup_fmap_2 legacy_store_name). done.
Qed.


End Load.

(** ** The loader and the mirror group agree *)

Section Agree.
  Context {W : Type} `{Stores W}.

(** The store behind a configured name is of the configured backend; only
    Telegram copies server-side. *)
Definition backends_as_configured (stores : dict string StoreConfig) : Prop :=
  forall n s k, Dict.get n stores = Some s -> store_key s = Ok k ->
    si_backend (st_info k) = sc_backend s /\ si_supports_server_copy (st_info k) = bool_decide (sc_backend s = "telegram"%string).

Lemma filter_reupload_spec stores p pk mirrors keys (mg : MirrorGroup) : backends_as_configured stores ->
  Dict.get (fs_primary p) stores = Some pk -> (exists k, store_key pk = Ok k /\ mg_primary mg = k) -> mg_mode mg <> Reupload ->
  (forall n s, Dict.get n stores = Some s -> sc_backend s ∈ BACKEND_NAMES) ->
  rmapM (key_of stores) mirrors = Ok keys ->
  exists ms, filter_reupload stores (sc_backend pk) mirrors = Ok ms /\ rmapM (key_of stores) ms = Ok (List.filter (must_reupload mg) keys).
Proof.
  intros Hb Hp (k & Hk & Hmg) Hmode Hnames. revert keys. induction mirrors as [|m mirrors IH]; intros keys; simpl.
  - intros [= <-]. by exists [].
  - intros (km & Hkm & (rest & Hrest & [= <-])%rbind_Ok)%rbind_Ok. destruct (IH rest Hrest) as (ms & Hms & Hkeys).
    unfold key_of in Hkm. unfold backend_of. destruct (Dict.get m stores) as [s|] eqn:Hs; [|done]. cbn [rbind]. rewrite Hms. cbn [rbind].
    eexists. split; [done|]. destruct (Hb m s km Hs Hkm) as [Hbm Hcm]. destruct (Hb _ pk k Hp Hk) as [Hbp Hcp].
    assert (must_reupload mg km = negb (bool_decide (sc_backend s = sc_backend pk)) || bool_decide (sc_backend s = "discord"%string)) as Hmust.
    { unfold must_reupload. rewrite bool_decide_eq_false_2 by done. rewrite Hmg, Hbm, Hbp, Hcm, Hcp. simpl.
      pose proof (Hnames m s Hs) as Hns. apply elem_of_cons in Hns as [Hns|Hns]; [|apply list_elem_of_singleton in Hns].
      - rewrite Hns. destruct (decide (sc_backend pk = "telegram"%string)) as [->|Hne]; [done|].
        rewrite (bool_decide_eq_false_2 ("telegram"%string = sc_backend pk)) by (intros Heq; by apply Hne). done.
      - rewrite Hns. simpl. by rewrite andb_false_r, !orb_true_r. }
    simpl. rewrite Hmust. destruct (_ || _); [|done]. simpl. unfold key_of at 1. rewrite Hs, Hkm. simpl. by rewrite Hkeys.
Qed.

(** The mirrors that the loader says have to be re-uploaded (and that make
    it choose [sync: background]) are exactly those a teed upload of the mirror
    group feeds from the stream. *)
Theorem reuploading_mirrors_teed stores fs mg :
  backends_as_configured stores -> (forall n s, Dict.get n stores = Some s -> sc_backend s ∈ BACKEND_NAMES) ->
  client_group stores fs = Ok (Some mg) ->
  exists ms, reuploading_mirrors stores fs = Ok ms /\ rmapM (key_of stores) ms = Ok (tee_targets mg).
Proof.
  intros Hb Hnames Hg. unfold client_group in Hg. destruct (nonempty (fs_mirrors fs)); [|done]. simpl in Hg.
  apply rbind_Ok in Hg as (k & Hk & Hg). apply rbind_Ok in Hg as (keys & Hkeys & [= <-]).
  unfold reuploading_mirrors, tee_targets. cbn [mg_stores]. destruct (decide (fs_mode fs = Reupload)) as [Hm|Hm].
  - eexists. split; [done|]. rewrite Hkeys. f_equal. unfold must_reupload. simpl. rewrite bool_decide_eq_true_2 by done. simpl.
    clear. induction keys as [|x l IH]; simpl; [done|]. by rewrite <- IH.
  - unfold key_of in Hk. unfold backend_of. destruct (Dict.get (fs_primary fs) stores) as [pk|] eqn:Hp; [|done]. cbn [rbind].
    eapply filter_reupload_spec; try done; [by exists k].
Qed.

End Agree.


(** ** Examples *)

Definition demo_env : Env :=
  {| environ := fun name => if bool_decide (name = "TGDCFS_DATA_DIR"%string) then Some "/data"%string else None;
     expanduser := fun p => p; read_file := fun _ => Raise ValueError |}.

Definition s_ (s : string) : yaml := YStr s.
Definition d_ (l : list (string * yaml)) : yaml := YDict (map (fun kv => (YStr kv.1, kv.2)) l).

(** One file system on Telegram, mirrored on Discord, acknowledged by the cache. *)
Definition demo_yaml : yaml := d_
  [ ("telegram", d_ [("api_id", YInt 1); ("api_hash", s_ "hash"); ("bot", d_ [("session_file", s_ "bot.session")])]);
    ("backends", d_ [("discord", d_ [("bot_token", s_ "t")])]);
    ("tgdcfs", d_ [("users", YNull); ("jwt", d_ [("secret", s_ "x"); ("algorithm", s_ "HS256"); ("life", YInt 3600)]);
                   ("server", d_ [("host", s_ "0.0.0.0"); ("port", YInt 1900)]); ("cache", d_ [("enabled", YBool true)])]);
    ("stores", d_ [("main", d_ [("channel", YInt 100)]); ("dc", d_ [("backend", s_ "discord"); ("channel", YInt 200)])]);
    ("filesystems", d_ [("default", d_ [("primary", s_ "main"); ("mirrors", YList [s_ "dc"]); ("write_ack", s_ "cache")])])
  ]%string.

Definition demo_loaded : exc Config := config_from_dict demo_env (fun _ => ""%string) Ok demo_yaml.

(** The mirror re-uploads, so the file system became asynchronous. *)
Example demo_sync :
  match demo_loaded with Ok c => map (fun nf => (nf.1, fs_sync nf.2, fs_write_ack nf.2)) (cg_filesystems c) | Raise _ => [] end =
  [("default"%string, Background, AckCache)].
Proof. vm_compute. reflexivity. Qed.


(** Stores in memory under keys of both backends. *)
Definition two_backends : Stores MemWorld :=
  {| st_info := fun k =>
       let telegram := bool_decide (String.prefix "tg:" k = true) in
       {| si_backend := if telegram then "telegram" else "discord"; si_max_part_bytes := 1000; si_supports_server_copy := telegram |};
     st_now := st_now; st_download := st_download; st_upload := st_upload; st_replace := st_replace; st_get_messages := st_get_messages;
     st_send_text := st_send_text; st_edit_text := st_edit_text; st_copy_from := st_copy_from; st_copy_within := st_copy_within;
     st_delete := st_delete; st_pin := st_pin |}.

Definition demo_stores : dict string StoreConfig :=
  [ ("main", {| sc_name := "main"; sc_backend := "telegram"; sc_channel := "100" |});
    ("second", {| sc_name := "second"; sc_backend := "telegram"; sc_channel := "101" |});
    ("dc", {| sc_name := "dc"; sc_backend := "discord"; sc_channel := "200" |}) ]%string.

Definition demo_filesystem : FilesystemConfig :=
  {| fs_name := "default"; fs_primary := "main"; fs_mirrors := ["second"; "dc"]%string; fs_mode := Auto; fs_sync := TeeSync;
     fs_strict := false; fs_read_preference := []; fs_metadata := {| md_name := YNull; md_type := PINNED_MESSAGE; md_github_repo := None |};
     fs_allow_shared_store := false; fs_sync_is_default := false; fs_write_ack := AckPrimary; fs_read_parallel := false; fs_read_sources := [] |}.

Definition demo_client_group : MirrorGroup :=
  {| mg_primary := "tg:100"; mg_stores := ["tg:101"; "dc:200"]%string; mg_mode := Auto; mg_strict := false |}.

Lemma demo_stores_get n s : Dict.get n demo_stores = Some s -> (n, s) ∈ demo_stores.
Proof. intros Hg. by apply list_elem_of_In, Dict.get_Some_In. Qed.

Lemma reuploading_mirrors_teed_witness :
  exists ms, reuploading_mirrors demo_stores demo_filesystem = Ok ms /\
    rmapM (key_of demo_stores) ms = Ok (@tee_targets _ two_backends demo_client_group) /\ ms = ["dc"%string].
Proof.
  destruct (@reuploading_mirrors_teed MemWorld two_backends demo_stores demo_filesystem demo_client_group) as (ms & Hms & Hk).
  - intros n s k Hg Hk. apply demo_stores_get in Hg.
    repeat (apply elem_of_cons in Hg as [[= -> ->]|Hg]; [injection Hk as <-; vm_compute; done|]). by apply not_elem_of_nil in Hg.
  - intros n s Hg. apply demo_stores_get in Hg.
    repeat (apply elem_of_cons in Hg as [[= -> ->]|Hg]; [apply (bool_decide_unpack _); vm_compute; done|]). by apply not_elem_of_nil in Hg.
  - reflexivity.
  - exists ms. split; [exact Hms|]. split; [exact Hk|]. vm_compute in Hms. by injection Hms.
Defined.

(** ** The master key *)

(** A key that was once derived is derived at every later start, whatever
    salt would be drawn then: the first start has stored its salt. *)
Lemma master_key_stable `{Argon2} env write c fresh fresh' file file' k :
  (forall b f, write b = (Ok tt, f) -> f = Some b) ->
  load_master_key env write c fresh file = (Ok k, file') ->
  file' = Some (mk_salt k) /\ 8 <= zlen (mk_salt k) /\ load_master_key env write c fresh' file' = (Ok k, file').
Proof.
  intros Hw. unfold load_master_key, sbind, slift. destruct (resolve_passphrase env c) as [p|x]; [|done].
  assert (forall salt, derive_master_key p (Some salt) fresh = derive_master_key p (Some salt) fresh') as Hd by reflexivity.
  unfold load_or_create_master_salt. destruct file as [salt|].
  - destruct (Z.ltb_spec (zlen salt) 8) as [|Hs]; [done|]. destruct (derive_master_key p (Some salt) fresh) as [k'|] eqn:Hk; [|done].
    intros [= -> <-]. assert (mk_salt k = salt) as ->.
    { unfold derive_master_key in Hk. rewrite (proj2 (Z.ltb_ge _ _)) in Hk by done. cbn [rbind] in Hk. by destruct p; simplify_eq. }
    split; [done|]. split; [done|]. rewrite (proj2 (Z.ltb_ge _ _)) by done. by rewrite <- Hd, Hk.
  - destruct (write fresh) as [[[]|x] f] eqn:Hf; [|done]. apply Hw in Hf as ->. unfold rmap. cbn [rbind].
    unfold derive_master_key at 1. destruct (Z.ltb_spec (zlen fresh) 8) as [|Hs]; [done|]. cbn [rbind].
    destruct p; try done. intros [= <- <-]. cbn [mk_salt]. split; [done|]. split; [done|].
    unfold derive_master_key. rewrite (proj2 (Z.ltb_ge (zlen fresh) 8)) by done. cbn [rbind].
    by rewrite (proj2 (Z.ltb_ge (zlen fresh) 8)) by done.
Qed.
