(* ===== verification/TgStore.v ===== *)
(** * The Telegram store: reads ([tgdcfs/backends/telegram/store.py] and [broker.py])

    One channel read through the pool of bots: messages fetched in batches,
    overflow texts resolved, documents downloaded in pieces and through the
    block cache.  The block cache is shared by every download of the process:
    what the others do to it before a block is looked up or stored is an
    argument, [others].  Read-ahead is such a task; [readahead] is what it
    runs.  Rate limits and logging are left out. *)

From S2P Require Import Prelude Errors Messages ChunkCache Telethon ConfigValue Config.

Open Scope Z_scope.
Open Scope py_scope.

Definition OVERFLOW_PREFIX : string := "TGDCFS_OVERFLOW:".
Definition MAX_READAHEAD_TASKS : Z := 4.

(** [int(text[len(prefix):])] of a text that starts with the prefix. *)
Fixpoint str_drop (n : nat) (s : string) : string :=
  match n, s with S n, String _ s => str_drop n s | _, _ => s end.
Definition overflow_id (text : string) : exc Z := int_of_string (str_drop (String.length OVERFLOW_PREFIX) text).

(** What the store asks of the configuration and the client pool. *)
Record TgConfig := {
  gc_bots : nat;
  gc_account : bool;                             (* tdlib.account is not None *)
  gc_download_with_account : bool;               (* telegram.account.used_to_download *)
  gc_transfer : TransferConfig;
  gc_chat : Z                                    (* private_file_channel *)
}.

Section Store.
  Context {T : Type} `{Telethon T} (g : TgConfig).
  Context (decode : bytes -> exc string).        (* data.decode("utf-8") *)

(** [next_bot]; the cycle of an empty pool ends, inside a coroutine. *)
Definition next_bot : st exn (Tg T) Client := fun w =>
  match gc_bots g with
  | O => (Raise RuntimeError, w)
  | n => (Ok (Bot (tg_cycle w mod n)), set_cycle (S (tg_cycle w)) w)
  end.

(** ** Batches of messages ([MessageBroker]) *)

Fixpoint message_map (messages : list (option TgMessage)) (acc : dict Z TgMessage) : dict Z TgMessage :=
  match messages with
  | [] => acc
  | Some m :: messages => message_map messages (Dict.set (tm_id m) m acc)
  | None :: messages => message_map messages acc
  end.

(** The bots in turn, until one answers; [ex] is the last failure. *)
Fixpoint ask_bots (tries : nat) (bot : Client) (ids : list Z) (ex : option exn) : st exn (Tg T) (list (option TgMessage)) := fun w =>
  match tries with
  | O => (match ex with Some ex => Raise ex | None => Ok [] end, w)
  | S tries =>
      match client_get_messages bot (gc_chat g) ids w with
      | (Ok messages, w) => (Ok messages, w)
      | (Raise ex, w) =>
          if is_Exception ex then
            match next_bot w with
            | (Raise ex, w) => (Raise ex, w)
            | (Ok bot, w) => ask_bots tries bot ids (Some ex) w
            end
          else (Raise ex, w)
      end
  end.

(** [process_requests]: the answers of the requests of one batch, or the
    exception all of them get. *)
Definition process_requests (requests : list (list Z)) : st exn (Tg T) (list (list (option TgMessage))) :=
  let ids := remove_dups (concat requests) in
  let! bot := next_bot in
  let! messages := ask_bots (Nat.max 1 (gc_bots g)) bot ids None in
  let found := message_map messages [] in
  sret (map (map (fun i => Dict.get i found)) requests).

(** [MessageBroker.get_messages], in a batch of its own. *)
Definition broker_get_messages (ids : list Z) : st exn (Tg T) (list (option TgMessage)) := fun w =>
  let '(cached, cache) := mc_gets ids (channel_ids (gc_chat g) w) in
  let w := put_ids (gc_chat g) cache w in
  if nonempty cached && forallb (fun m => match m with Some _ => true | None => false end) cached then (Ok cached, w)
  else
    match process_requests [ids] w with
    | (Ok [r], w) => (Ok r, w)
    | (Ok _, w) => (Raise IndexError, w)
    | (Raise ex, w) => (Raise ex, w)
    end.

Definition is_overflow (m : TgMessage) : bool := String.prefix OVERFLOW_PREFIX (tm_text m).

Definition put_overflow_of (d : dict Z Z) (w : Tg T) : Tg T :=
  set_store {| ss_overflow_of := d; ss_overflow_text := ss_overflow_text (tg_store w); ss_readahead := ss_readahead (tg_store w) |} w.
Definition put_overflow_text (c : MessageCache Z string) (w : Tg T) : Tg T :=
  set_store {| ss_overflow_of := ss_overflow_of (tg_store w); ss_overflow_text := c; ss_readahead := ss_readahead (tg_store w) |} w.

Section Resolve.
  (** [_overflow_text_of]. *)
  Context (text_of : Z -> st exn (Tg T) (option string)).

Definition resolve_overflow (m : TgMessage) : st exn (Tg T) (option TgMessage) :=
  match tm_document m with
  | Some _ => sret (Some m)
  | None =>
      if negb (is_overflow m) then sret (Some m)
      else match overflow_id (tm_text m) with
           | Raise _ => sret (Some m)
           | Ok doc =>
               let! w := sget in
               sput (put_overflow_of (Dict.set (tm_id m) doc (ss_overflow_of (tg_store w))) w) ;;;
               let! text := text_of doc in
               sret (match text with
                     | None => None
                     | Some t => Some {| tm_id := tm_id m; tm_text := t; tm_document := None |}
                     end)
           end
  end.

Fixpoint resolve_all (messages : list (option TgMessage)) : st exn (Tg T) (list (option TgMessage)) :=
  match messages with
  | [] => sret []
  | None :: messages => let! rest := resolve_all messages in sret (None :: rest)
  | Some m :: messages => let! m := resolve_overflow m in let! rest := resolve_all messages in sret (m :: rest)
  end.

Definition tg_get_messages (ids : list Z) : st exn (Tg T) (list (option TgMessage)) :=
  let! messages := broker_get_messages ids in
  if existsb (fun m => match m with Some m => is_overflow m | None => false end) messages
  then resolve_all messages else sret messages.

(** ** Downloads without the block cache *)

Definition document_size (mid : Z) : st exn (Tg T) (option Z) :=
  let! messages := tg_get_messages [mid] in
  match messages with
  | Some m :: _ => sret (option_map doc_size (tm_document m))
  | _ => sret None
  end.

(** [split_download_pieces]. *)
Fixpoint split_pieces (fuel : nat) (begin last piece_size : Z) : list (Z * Z) :=
  match fuel with
  | O => []
  | S fuel => if last <? begin then [] else (begin, Z.min (begin + piece_size - 1) last) :: split_pieces fuel (begin + piece_size) last piece_size
  end.
Definition split_download_pieces (begin last piece_size : Z) : list (Z * Z) :=
  split_pieces (Z.to_nat (last - begin + 1)) begin last piece_size.

Definition download_piece (mid : Z) (piece : Z * Z) : Tg T -> stream * Tg T := fun w =>
  match (let! bot := next_bot in client_download_file bot (gc_chat g) mid piece.1 piece.2) w with
  | (Ok s, w) => (s, w)
  | (Raise ex, w) => ({| pieces := []; fault := Some ex |}, w)
  end.

Definition download_file_parallel (mid begin last : Z) : Tg T -> stream * Tg T :=
  chain_streams (map (download_piece mid) (split_download_pieces begin last (download_piece_size_bytes (gc_transfer g)))).

Definition download_range (mid begin last : Z) : st exn (Tg T) stream :=
  if gc_download_with_account g && gc_account g then client_download_file Account (gc_chat g) mid begin last
  else if (0 <? last) && (parallel_download_threshold_bytes (gc_transfer g) <? last - begin + 1)
  then fun w => let '(s, w) := download_file_parallel mid begin last w in (Ok s, w)
  else let! bot := next_bot in client_download_file bot (gc_chat g) mid begin last.

Definition download_uncached (mid begin last : Z) : st exn (Tg T) stream :=
  if last <? 0 then
    let! size := document_size mid in
    match size with
    | None => sraise (MessageNotFound mid)
    | Some size => download_range mid begin (size - 1)
    end
  else download_range mid begin last.

(** ** Downloads through the block cache *)

Section Cached.
  (** What other downloads do to the cache before this one looks block
      [index] up ([false]) or stores it ([true]). *)
  Context (others : Z -> bool -> ChunkCache -> ChunkCache).

(** [while index <= last]: the blocks that are complete in the buffer. *)
Fixpoint cut_blocks (fuel : nat) (index last block_size size : Z) (buffer : bytes) : list (Z * bytes * bool) * Z * bytes :=
  match fuel with
  | O => ([], index, buffer)
  | S fuel =>
      if last <? index then ([], index, buffer)
      else
        let expected := block_length index block_size size in
        if zlen buffer <? expected then ([], index, buffer)
        else
          let '(blocks, i, rest) := cut_blocks fuel (index + 1) last block_size size (zdrop expected buffer) in
          ((index, ztake expected buffer, true) :: blocks, i, rest)
  end.

Fixpoint cut_stream (chunks : list bytes) (index last block_size size : Z) (buffer : bytes) : list (Z * bytes * bool) * Z * bytes :=
  match chunks with
  | [] => ([], index, buffer)
  | chunk :: chunks =>
      let '(blocks, index, buffer) := cut_blocks (Z.to_nat (last - index + 1)) index last block_size size (buffer ++ chunk) in
      let '(rest, index, buffer) := cut_stream chunks index last block_size size buffer in
      (blocks ++ rest, index, buffer)
  end.

(** [_fetch_blocks]: index, data and whether the block is complete; and the
    exception that ended the download. *)
Definition fetch_blocks (mid first last size block_size : Z) : st exn (Tg T) (list (Z * bytes * bool) * option exn) :=
  let '(begin, _) := block_bounds first block_size size in
  let '(_, stop) := block_bounds last block_size size in
  let! s := download_uncached mid begin stop in
  let '(blocks, index, buffer) := cut_stream (pieces s) first last block_size size [] in
  sret (match fault s with
        | Some ex => (blocks, Some ex)
        | None => (if (index <=? last) && nonempty buffer then blocks ++ [(index, buffer, false)] else blocks, None)
        end).

(** [_slice]. *)
Definition slice_block (block : bytes) (index block_size begin last : Z) : bytes :=
  let block_begin := index * block_size in
  let start := Z.max 0 (begin - block_begin) in
  let stop := Z.min (zlen block) (last - block_begin + 1) in
  if start <? stop then zslice start stop block else [].

Definition block_key (mid index : Z) : BlockKey := (gc_chat g, mid, index).

(** The blocks of a run, stored and handed out as they come. *)
Fixpoint serve_blocks (mid block_size begin last : Z) (blocks : list (Z * bytes * bool)) : Tg T -> stream * Tg T := fun w =>
  match blocks with
  | [] => (empty_stream, w)
  | (position, block, complete) :: blocks =>
      let w := set_chunks (others position true (tg_chunks w)) w in
      match (if complete then cache_put (block_key mid position) block (tg_chunks w) else Ok (tg_chunks w)) with
      | Raise ex => ({| pieces := []; fault := Some ex |}, w)
      | Ok c =>
          let '(rest, w) := serve_blocks mid block_size begin last blocks (set_chunks c w) in
          (then_stream {| pieces := [slice_block block position block_size begin last]; fault := None |} rest, w)
      end
  end.

(** The last block of the run of missing blocks that begins at [index]. *)
Fixpoint run_end_of (fuel : nat) (mid index stop : Z) (c : ChunkCache) : Z :=
  match fuel with
  | O => index
  | S fuel =>
      if (index + 1 <? stop) && negb (cache_contains (block_key mid (index + 1)) c) then run_end_of fuel mid (index + 1) stop c
      else index
  end.

Fixpoint cached_loop (fuel : nat) (mid begin last size block_size index stop : Z) : Tg T -> stream * Tg T := fun w =>
  if stop <=? index then (empty_stream, w)
  else
    match fuel with
    | O => ({| pieces := []; fault := Some OutOfFuel |}, w)
    | S fuel =>
        let w := set_chunks (others index false (tg_chunks w)) w in
        match cache_get (block_key mid index) (tg_chunks w) with
        | (Some cached, c) =>
            let '(rest, w) := cached_loop fuel mid begin last size block_size (index + 1) stop (set_chunks c w) in
            (then_stream {| pieces := [slice_block cached index block_size begin last]; fault := None |} rest, w)
        | (None, c) =>
            let w := set_chunks c w in
            let run_end := run_end_of (Z.to_nat (stop - index)) mid index stop c in
            match fetch_blocks mid index run_end size block_size w with
            | (Raise ex, w) => ({| pieces := []; fault := Some ex |}, w)
            | (Ok (blocks, flt), w) =>
                let '(run, w) := serve_blocks mid block_size begin last blocks w in
                match fault run, flt with
                | Some _, _ => (run, w)
                | None, Some ex => ({| pieces := pieces run; fault := Some ex |}, w)
                | None, None =>
                    let '(rest, w) := cached_loop fuel mid begin last size block_size (run_end + 1) stop w in
                    (then_stream run rest, w)
                end
            end
        end
    end.

Definition cached_download (mid begin last size block_size : Z) : Tg T -> stream * Tg T :=
  let '(start, stop) := block_range begin (Z.min last (size - 1)) block_size in
  cached_loop (Z.to_nat (stop - start)) mid begin last size block_size start stop.

(** ** Read-ahead *)

Fixpoint uncached_blocks (mid : Z) (indices : list Z) (c : ChunkCache) : list Z :=
  match indices with
  | [] => []
  | i :: indices => if cache_contains (block_key mid i) c then uncached_blocks mid indices c else i :: uncached_blocks mid indices c
  end.

(** [_schedule_readahead]: the first and last block of the task it starts. *)
Definition schedule_readahead (mid after_block size block_size : Z) (w : Tg T) : option (Z * Z) * Tg T :=
  let count := tc_chunk_cache_readahead (gc_transfer g) in
  if (count <? 1) || (MAX_READAHEAD_TASKS <=? zlen (ss_readahead (tg_store w))) then (None, w)
  else
    let last_block := (size - 1) / block_size in
    let first := after_block + 1 in
    let wanted := uncached_blocks mid (seqZ first (Z.min (after_block + count) last_block + 1 - first)) (tg_chunks w) in
    match wanted with
    | [] => (None, w)
    | i :: _ =>
        let key := (mid, i, List.last wanted i) in
        if bool_decide (key ∈ ss_readahead (tg_store w)) then (None, w)
        else (Some (i, List.last wanted i),
              set_store {| ss_overflow_of := ss_overflow_of (tg_store w); ss_overflow_text := ss_overflow_text (tg_store w);
                           ss_readahead := key :: ss_readahead (tg_store w) |} w)
    end.

(** The task: the blocks are stored, a failure is silent. *)
Fixpoint store_ahead (mid : Z) (blocks : list (Z * bytes * bool)) (w : Tg T) : Tg T :=
  match blocks with
  | [] => w
  | (index, block, complete) :: blocks =>
      let w := set_chunks (others index true (tg_chunks w)) w in
      match (if complete then cache_put (block_key mid index) block (tg_chunks w) else Ok (tg_chunks w)) with
      | Raise _ => w
      | Ok c => store_ahead mid blocks (set_chunks c w)
      end
  end.

Definition readahead (mid first last size block_size : Z) (w : Tg T) : Tg T :=
  let w := match fetch_blocks mid first last size block_size w with
           | (Ok (blocks, _), w) => store_ahead mid blocks w
           | (Raise _, w) => w
           end in
  set_store {| ss_overflow_of := ss_overflow_of (tg_store w); ss_overflow_text := ss_overflow_text (tg_store w);
               ss_readahead := List.filter (fun k => negb (bool_decide (k = (mid, first, last)))) (ss_readahead (tg_store w)) |} w.

(** [_download_cached]: [None] when the cache cannot help. *)
Definition download_cached (mid begin last : Z) : st exn (Tg T) (option stream) := fun w =>
  if negb (enabled (tg_chunks w)) || (begin <? 0) then (Ok None, w)
  else
    match document_size mid w with
    | (Raise ex, w) => (Raise ex, w)
    | (Ok None, w) => (Ok None, w)
    | (Ok (Some size), w) =>
        if (size <=? 0) || (size <=? begin) then (Ok None, w)
        else
          let last := if (last <? 0) || (size - 1 <? last) then size - 1 else last in
          if last <? begin then (Ok None, w)
          else
            let block_size := chunk_cache_block_bytes (gc_transfer g) in
            let '(_, w) := schedule_readahead mid (last / block_size) size block_size w in
            let '(s, w) := cached_download mid begin last size block_size w in
            (Ok (Some s), w)
    end.

Definition download_file (mid begin last : Z) : st exn (Tg T) stream :=
  let! cached := download_cached mid begin last in
  match cached with Some s => sret s | None => download_uncached mid begin last end.

End Cached.
End Resolve.

(** ** Overflow texts *)

(** [_overflow_text_of].  Resolving a text downloads its document, which asks
    for the document's message and resolves that; [depth] bounds the calls as
    Python's stack does, and the [RecursionError] is caught. *)
Fixpoint overflow_text_of (depth : nat) (others : Z -> bool -> ChunkCache -> ChunkCache) (doc : Z) : st exn (Tg T) (option string) := fun w =>
  let '(cached, cache) := mc_get doc (ss_overflow_text (tg_store w)) in
  let w := put_overflow_text cache w in
  match cached with
  | Some text => (Ok (Some text), w)
  | None =>
      match depth with
      | O => (Ok None, w)
      | S depth =>
          match download_file (overflow_text_of depth others) others doc 0 (-1) w with
          | (Raise ex, w) => if is_Exception ex then (Ok None, w) else (Raise ex, w)
          | (Ok s, w) =>
              match fault s with
              | Some ex => if is_Exception ex then (Ok None, w) else (Raise ex, w)
              | None =>
                  match decode (stream_bytes s) with
                  | Raise ex => (Raise ex, w)
                  | Ok text => (Ok (Some text), put_overflow_text (mc_set doc (Some text) (ss_overflow_text (tg_store w))) w)
                  end
              end
          end
      end
  end.

Definition store_get_messages (depth : nat) (others : Z -> bool -> ChunkCache -> ChunkCache) : list Z -> st exn (Tg T) (list (option TgMessage)) :=
  tg_get_messages (overflow_text_of depth others).
Definition store_download (depth : nat) (others : Z -> bool -> ChunkCache -> ChunkCache) : Z -> Z -> Z -> st exn (Tg T) stream :=
  download_file (overflow_text_of depth others) others.

End Store.
