(* ===== verification/TgReadProps.v ===== *)
(** * A read of the Telegram store is the range of the document

    Whatever pieces the download is cut into, whatever blocks the shared
    cache holds and whatever other downloads do to it meanwhile: a range of a
    document read through the store is that range, or a proper beginning of
    it and an exception that a client out of reach is to blame for; the block
    cache goes on telling the truth within its budget. *)

From S2P Require Import Prelude Errors Messages ChunkCache Telethon TelethonProps ConfigValue Config ConfigProps TgStore.

Open Scope Z_scope.
Open Scope py_scope.

(** Block [i] of a document. *)
Definition block_of (bs : Z) (b : bytes) (i : Z) : bytes := zslice (Z.min (i * bs) (zlen b)) (Z.min ((i + 1) * bs) (zlen b)) b.

Section Reads.
  Context {T : Type} `{TelethonLaws T} (g : TgConfig).
  Context (text_of : Z -> st exn (Tg T) (option string)).
  Context (docs : documents) (mid : Z) (b : bytes).
  Hypothesis Hdoc : docs (gc_chat g) mid = Some b.
  Hypothesis Hbots : gc_bots g <> 0%nat.
  Hypothesis Htransfer : transfer_ok (gc_transfer g).

Abbreviation chat := (gc_chat g).

(** Every client of the pool is answered. *)
Definition reachable (t : T) : Prop :=
  (forall i, (i < gc_bots g)%nat -> online t (Bot i)) /\ (gc_account g = true -> online t Account).

Definition served (t : T) (want : bytes) (s : stream) : Prop :=
  match fault s with
  | None => stream_bytes s = want
  | Some x => is_Exception x = true /\ ~ reachable t /\ exists lft, lft <> [] /\ stream_bytes s ++ lft = want
  end.

Definition failed_call (t : T) (x : exn) : Prop := is_Exception x = true /\ ~ reachable t.

Definition client_of (c : Client) : Prop := match c with Bot i => (i < gc_bots g)%nat | Account => gc_account g = true end.

Lemma reachable_keeps t t' : keeps t t' -> reachable t -> reachable t'.
Proof. intros Hk [Hb Ha]. split; [intros i Hi|intros He]; apply (keeps_online _ _ Hk); auto. Qed.

Lemma failed_keeps t t' x : keeps t t' -> failed_call t' x -> failed_call t x.
Proof. intros Hk [Hx Hr]. split; [done|]. by intros ?%(reachable_keeps _ _ Hk). Qed.

Lemma served_keeps t t' want s : keeps t t' -> served t' want s -> served t want s.
Proof.
  intros Hk. unfold served. destruct (fault s); [|done]. intros (? & Hr & ?). split; [done|]. split; [|done].
  by intros ?%(reachable_keeps _ _ Hk).
Qed.

Lemma online_client t c : client_of c -> reachable t -> online t c.
Proof. intros Hc [Hb Ha]. destruct c; [by apply Hb|by apply Ha]. Qed.

Lemma delivers_served t c want s : client_of c -> delivers t c want s -> served t want s.
Proof.
  unfold delivers, served. intros Hc. destruct (fault s); [|done]. intros (? & Hn & ?). split; [done|]. split; [|done].
  by intros ?%(online_client t c).
Qed.

Lemma served_then t wa wb a s : fault a = None -> stream_bytes a = wa -> served t wb s -> served t (wa ++ wb) (then_stream a s).
Proof.
  unfold served, then_stream, stream_bytes. simpl. intros _ <-. rewrite concat_app. destruct (fault s).
  - intros (? & ? & lft & ? & <-). split; [done|]. split; [done|]. exists lft. by rewrite <- app_assoc.
  - by intros <-.
Qed.

Lemma served_stop t wa wb s x : fault s = Some x -> served t wa s -> served t (wa ++ wb) s.
Proof.
  unfold served. intros ->. intros (? & ? & lft & Hl & <-). split; [done|]. split; [done|]. exists (lft ++ wb).
  split; [by destruct lft|]. by rewrite <- app_assoc.
Qed.

(** ** A message, from the caches or from any bot *)

Lemma next_bot_any (w : Tg T) : exists i, next_bot g w = (Ok (Bot i), set_cycle (S (tg_cycle w)) w) /\ client_of (Bot i).
Proof.
  unfold next_bot, client_of. destruct (gc_bots g) as [|n]; [done|].
  pose proof (Nat.mod_upper_bound (tg_cycle w) (S n) ltac:(lia)) as Hm. by exists (tg_cycle w mod S n)%nat.
Qed.

Section Fact.
  Context (base : T -> Prop) (P : T -> Z -> Z -> TgMessage -> Prop) (F : T -> TgMessage -> Prop).
  Hypothesis Pid : forall t m, P t chat mid m -> tm_id m = mid.
  Hypothesis fetch : forall c t, base t ->
    let '(r, t') := lib_get_messages c chat [mid] t in
    keeps t t' /\ base t' /\ (forall ch k m, P t ch k m -> P t' ch k m) /\
    match r with
    | Raise x => is_Exception x = true /\ ~ online t c
    | Ok found => exists m, found = [Some m] /\ P t' chat mid (transform_message m) /\ F t' (transform_message m)
    end.

Abbreviation fact_okay := (fact_ok base P).

Record fact_step (w w' : Tg T) : Prop := {
  fs_keeps : keeps (tg_server w) (tg_server w');
  fs_ok : fact_okay w -> fact_okay w';
  fs_chunks : tg_chunks w' = tg_chunks w;
  fs_store : tg_store w' = tg_store w
}.

#[local] Instance fact_step_preorder : PreOrder fact_step.
Proof.
  split; [by intros w; split|]. intros w1 w2 w3 [a1 a2 a3 a4] [b1 b2 b3 b4]. split; [by etrans|auto|congruence|congruence].
Qed.

Lemma cycle_fact n w : fact_step w (set_cycle n w).
Proof. split; [done| |done|done]. intros [? ? ?]. by split. Qed.

Lemma ask_bots_fact t0 tries : forall c ex w,
  fact_okay w -> keeps t0 (tg_server w) -> client_of c -> (ex = None -> (0 < tries)%nat) -> (forall x, ex = Some x -> failed_call t0 x) ->
  let '(r, w') := ask_bots g tries c [mid] ex w in
  fact_step w w' /\
  match r with
  | Raise x => failed_call t0 x
  | Ok found => exists m, found = [Some m] /\ P (tg_server w') chat mid m
  end.
Proof.
  induction tries as [|tries IH]; intros c ex w Hok Hk0 Hc Hex Hfail; cbn [ask_bots].
  - split; [done|]. destruct ex as [x|]; [by apply Hfail|]. specialize (Hex eq_refl). lia.
  - pose proof (get_message_fact chat mid base P F Pid fetch c w Hok) as Hg.
    destruct (client_get_messages c chat [mid] w) as [[found|x] w1]; destruct Hg as (Hk & Hok1 & Hch & _ & Hst & Hr);
      assert (fact_step w w1) as Hs by (by split; [| |apply Hch|]).
    + split; [done|]. destruct Hr as (m & -> & Hm & _). by exists m.
    + destruct Hr as [Hx Hon]. rewrite Hx. destruct (next_bot_any w1) as (i & -> & Hci).
      assert (fact_step w (set_cycle (S (tg_cycle w1)) w1)) as Hs2 by (etrans; [exact Hs|apply cycle_fact]).
      assert (failed_call t0 x) as Hf.
      { split; [done|]. by intros Hrc%(reachable_keeps _ _ Hk0)%(online_client _ c). }
      specialize (IH (Bot i) (Some x) _ (fs_ok _ _ Hs2 Hok) ltac:(etrans; [exact Hk0|exact (fs_keeps _ _ Hs2)]) Hci ltac:(done)
        ltac:(by intros y [= <-])).
      destruct (ask_bots g tries (Bot i) [mid] (Some x) (set_cycle (S (tg_cycle w1)) w1)) as [r w2]. destruct IH as [Hs3 Hr3].
      split; [by etrans|done].
Qed.

Lemma broker_fact w : fact_okay w ->
  let '(r, w') := broker_get_messages g [mid] w in
  fact_step w w' /\
  match r with
  | Raise x => failed_call (tg_server w) x
  | Ok found => exists m, found = [Some m] /\ P (tg_server w') chat mid m
  end.
Proof.
  intros Hok. unfold broker_get_messages. cbn [mc_gets]. pose proof Hok as [Hi Ht Hc].
  pose proof (mc_get_spec _ mid (channel_ids chat w) (Ht chat)) as [Hv Ht1]. pose proof (mc_get_ok mid _ (channel_ok chat w Hi)) as Hmc.
  destruct (mc_get mid (channel_ids chat w)) as [v cache]. cbn [fst snd] in *.
  assert (fact_step w (put_ids chat cache w)) as Hs.
  { split; [done| |done|done]. intros _. by apply fact_ok_put. }
  destruct v as [m|]; cbn [nonempty forallb andb].
  - split; [done|]. exists m. split; [done|]. by apply Hv.
  - unfold process_requests, sbind. assert (remove_dups (concat [[mid]]) = [mid]) as -> by done.
    destruct (next_bot_any (put_ids chat cache w)) as (i & -> & Hci).
    set (w1 := set_cycle _ _) in *. assert (fact_step w w1) as Hs2 by (etrans; [exact Hs|apply cycle_fact]).
    pose proof (ask_bots_fact (tg_server w) (Nat.max 1 (gc_bots g)) (Bot i) None w1 (fs_ok _ _ Hs2 Hok) (fs_keeps _ _ Hs2) Hci
      ltac:(lia) ltac:(done)) as Ha.
    destruct (ask_bots g _ (Bot i) [mid] None w1) as [[found|x] w2]; destruct Ha as [Hs3 Hr]; [|by split; [etrans|]].
    destruct Hr as (m & -> & Hm). unfold sret. cbn [message_map map].
    split; [by etrans|]. exists m. split; [|done]. by rewrite (Pid _ _ Hm), Dict.get_set_eq.
Qed.

End Fact.

(** ** The state of a read *)

Record read_ok (w : Tg T) : Prop := {
  ro_ids : ids_ok w;
  ro_true : ids_true docs w;
  ro_carries : carries_all (tg_server w) docs
}.

(** What a step of a read keeps, next to the block cache. *)
Record read_step (w w' : Tg T) : Prop := {
  rs_keeps : keeps (tg_server w) (tg_server w');
  rs_ok : read_ok w -> read_ok w';
  rs_chunks : tg_chunks w' = tg_chunks w
}.

#[local] Instance read_step_preorder : PreOrder read_step.
Proof.
  split; [by intros w; split|]. intros w1 w2 w3 [a1 a2 a3] [b1 b2 b3]. split; [by etrans|auto|congruence].
Qed.

Lemma next_bot_spec w : exists i, next_bot g w = (Ok (Bot i), set_cycle (S (tg_cycle w)) w) /\ client_of (Bot i) /\
  read_step w (set_cycle (S (tg_cycle w)) w).
Proof.
  destruct (next_bot_any w) as (i & Hn & Hi). exists i. split; [done|]. split; [done|]. split; [done| |done]. intros [? ? ?]. by split.
Qed.

(** ** The message of the document *)

Lemma true_message t m : true_of t chat mid b m -> tm_id m = mid /\ option_map doc_size (tm_document m) = Some (zlen b) /\ tm_document m <> None.
Proof. intros (Hi & d & Hd & _ & Hs). split; [done|]. rewrite Hd. simpl. by rewrite Hs. Qed.

Lemma broker_spec w : read_ok w ->
  let '(r, w') := broker_get_messages g [mid] w in
  read_step w w' /\
  match r with
  | Raise x => failed_call (tg_server w) x
  | Ok found => exists m, found = [Some m] /\ true_of (tg_server w') chat mid b m
  end.
Proof.
  intros [Hi Ht Hc]. pose proof (broker_fact (fun t => carries_all t docs) (fun t ch k m => forall b, docs ch k = Some b -> true_of t ch k b m)
    (fun t m => forall d, tm_document m = Some d -> fresh t d) (fun t m Hm => proj1 (Hm b Hdoc)) (fun c t => document_fact chat docs mid b c t Hdoc) w ltac:(by split)) as Hb.
  destruct (broker_get_messages g [mid] w) as [r w1]. destruct Hb as ([Hk Hok Hch _] & Hr). split.
  - destruct (Hok ltac:(by split)) as [? ? ?]. split; [done| |done]. intros _. by split.
  - destruct r; [|done]. destruct Hr as (m & -> & Hm). exists m. split; [done|]. by apply Hm.
Qed.

Lemma document_size_spec w : read_ok w ->
  let '(r, w') := document_size g text_of mid w in
  read_step w w' /\ match r with Raise x => failed_call (tg_server w) x | Ok size => size = Some (zlen b) end.
Proof.
  intros Hok. unfold document_size, tg_get_messages, sbind. pose proof (broker_spec w Hok) as Hb.
  destruct (broker_get_messages g [mid] w) as [[found|x] w1]; [|done]. destruct Hb as (Hs & m & -> & Hm).
  destruct (true_message _ _ Hm) as (_ & Hsize & Hsome).
  assert (resolve_all text_of [Some m] w1 = (Ok [Some m], w1)) as Hres.
  { cbn [resolve_all]. unfold sbind, resolve_overflow. by destruct (tm_document m). }
  destruct (existsb _ [Some m]); [rewrite Hres|]; by split.
Qed.

(** ** Ranges, cut into pieces or not *)

Lemma client_step c begin last w : client_of c -> read_ok w -> 0 <= begin -> begin <= last -> last < zlen b ->
  let '(r, w') := client_download_file c chat mid begin last w in
  read_step w w' /\
  match r with Raise x => failed_call (tg_server w) x | Ok s => served (tg_server w) (zslice begin (last + 1) b) s end.
Proof.
  intros Hc [Hi Ht Hca] H1 H2 H3. pose proof (client_download_spec c chat docs mid b begin last w Hi Ht Hca Hdoc H1 H2 H3) as Hd.
  destruct (client_download_file c chat mid begin last w) as [r w1]. destruct Hd as (Hk & Hi1 & Ht1 & Hch & _ & Hr). split.
  - split; [done| |done]. intros _. split; [done|done|]. by eapply carries_all_keeps.
  - destruct r as [s|x]; [by eapply delivers_served|]. destruct Hr as [Hx Hn]. split; [done|]. by intros ?%(online_client _ c).
Qed.

Lemma slice_nonempty begin last : 0 <= begin -> begin <= last -> last < zlen b -> zslice begin (last + 1) b <> [].
Proof. intros H1 H2 H3 He%(f_equal zlen). rewrite zlen_zslice, zlen_nil in He by lia. lia. Qed.

Lemma served_fault t want x : failed_call t x -> want <> [] -> served t want {| pieces := []; fault := Some x |}.
Proof. intros [Hx Hr] Hw. split; [done|]. split; [done|]. by exists want. Qed.

Lemma piece_step begin last w : read_ok w -> 0 <= begin -> begin <= last -> last < zlen b ->
  let '(s, w') := download_piece g mid (begin, last) w in
  read_step w w' /\ served (tg_server w) (zslice begin (last + 1) b) s.
Proof.
  intros Hok H1 H2 H3. unfold download_piece, sbind. destruct (next_bot_spec w) as (i & -> & Hci & Hs1).
  pose proof (client_step (Bot i) begin last _ Hci (rs_ok _ _ Hs1 Hok) H1 H2 H3) as Hd. cbn [fst snd].
  destruct (client_download_file (Bot i) chat mid begin last _) as [[s|x] w1]; destruct Hd as [Hs2 Hr]; (split; [by etrans|]).
  - by eapply served_keeps; [apply (rs_keeps _ _ Hs1)|].
  - apply served_fault; [|by apply slice_nonempty]. by eapply failed_keeps; [apply (rs_keeps _ _ Hs1)|].
Qed.

(** A piece is at least a byte long, so cutting the range comes to its end. *)
Lemma parallel_step piece_size last fuel : 0 < piece_size -> last < zlen b -> forall begin w,
  last - begin + 1 <= Z.of_nat fuel -> read_ok w -> 0 <= begin ->
  let '(s, w') := chain_streams (map (download_piece g mid) (split_pieces fuel begin last piece_size)) w in
  read_step w w' /\ served (tg_server w) (zslice begin (last + 1) b) s.
Proof.
  intros Hp Hl. induction fuel as [|fuel IH]; intros begin w Hfuel Hok Hb0; cbn [split_pieces].
  - cbn [map chain_streams]. split; [done|]. unfold served. simpl. by rewrite zslice_nil by lia.
  - destruct (Z.ltb_spec last begin) as [Hlt|Hle].
    + cbn [map chain_streams]. split; [done|]. unfold served. simpl. by rewrite zslice_nil by lia.
    + cbn [map chain_streams]. set (e := Z.min (begin + piece_size - 1) last).
      assert (begin <= e <= last) as He by lia.
      pose proof (piece_step begin e w Hok Hb0 ltac:(lia) ltac:(lia)) as Hpc.
      destruct (download_piece g mid (begin, e) w) as [a w1]. destruct Hpc as [Hs1 Ha].
      rewrite (zslice_split begin (e + 1) (last + 1)) by lia.
      destruct (fault a) as [x|] eqn:Hf; [split; [done|by eapply served_stop]|].
      specialize (IH (begin + piece_size) w1 ltac:(lia) (rs_ok _ _ Hs1 Hok) ltac:(lia)).
      destruct (chain_streams _ w1) as [s w2]. destruct IH as [Hs2 Hr]. split; [by etrans|].
      apply served_then; [done|by unfold served in Ha; rewrite Hf in Ha|]. eapply served_keeps; [apply (rs_keeps _ _ Hs1)|].
      destruct (decide (begin + piece_size - 1 <= last)) as [Hin|Hout].
      * unfold e. rewrite Z.min_l by lia. replace (begin + piece_size - 1 + 1) with (begin + piece_size) by lia. done.
      * rewrite zslice_nil in Hr by lia. by rewrite (zslice_nil (e + 1)) by lia.
Qed.

Lemma range_step begin last w : read_ok w -> 0 <= begin -> begin <= last -> last < zlen b ->
  let '(r, w') := download_range g mid begin last w in
  read_step w w' /\
  match r with Raise x => failed_call (tg_server w) x | Ok s => served (tg_server w) (zslice begin (last + 1) b) s end.
Proof.
  intros Hok H1 H2 H3. unfold download_range. destruct (gc_download_with_account g && gc_account g) eqn:Hacc.
  - apply andb_true_iff in Hacc as [_ Ha]. by apply (client_step Account).
  - destruct ((0 <? last) && _).
    + unfold download_file_parallel, split_download_pieces.
      pose proof (parallel_step (download_piece_size_bytes (gc_transfer g)) last (Z.to_nat (last - begin + 1))) as Hp.
      specialize (Hp ltac:(destruct Htransfer as [_ _ [? _] _ _ _]; unfold download_piece_size_bytes; lia) H3 begin w ltac:(lia) Hok H1).
      destruct (chain_streams _ w) as [s w1]. done.
    + unfold sbind. destruct (next_bot_spec w) as (i & -> & Hci & Hs1).
      pose proof (client_step (Bot i) begin last _ Hci (rs_ok _ _ Hs1 Hok) H1 H2 H3) as Hd.
      destruct (client_download_file (Bot i) chat mid begin last _) as [r w1]. destruct Hd as [Hs2 Hr]. split; [by etrans|].
      destruct r; [by eapply served_keeps; [apply (rs_keeps _ _ Hs1)|]|by eapply failed_keeps; [apply (rs_keeps _ _ Hs1)|]].
Qed.

(** The end a request means. *)
Definition last_of (last : Z) : Z := if last <? 0 then zlen b - 1 else last.

Lemma uncached_step begin last w : read_ok w -> 0 <= begin -> begin <= last_of last -> last_of last < zlen b ->
  let '(r, w') := download_uncached g text_of mid begin last w in
  read_step w w' /\
  match r with Raise x => failed_call (tg_server w) x | Ok s => served (tg_server w) (zslice begin (last_of last + 1) b) s end.
Proof.
  intros Hok H1 H2 H3. unfold download_uncached, last_of in *. destruct (last <? 0); [|by apply range_step].
  unfold sbind. pose proof (document_size_spec w Hok) as Hd. destruct (document_size g text_of mid w) as [[size|x] w1]; [|done].
  destruct Hd as [Hs1 ->]. pose proof (range_step begin (zlen b - 1) w1 (rs_ok _ _ Hs1 Hok) H1 H2 H3) as Hr.
  destruct (download_range g mid begin (zlen b - 1) w1) as [r w2]. destruct Hr as [Hs2 Hr]. split; [by etrans|].
  destruct r; [by eapply served_keeps; [apply (rs_keeps _ _ Hs1)|]|by eapply failed_keeps; [apply (rs_keeps _ _ Hs1)|]].
Qed.

(** ** Cutting a download into blocks *)

Section Blocks.
  Context (bs : Z).
  Hypothesis Hbs : 0 < bs.

Abbreviation size := (zlen b).

(** Where block [i] begins, and its bytes. *)
Definition pos (i : Z) : Z := Z.min (i * bs) size.
Definition block (i : Z) : bytes := zslice (pos i) (pos (i + 1)) b.

Lemma block_of_doc i : block_of bs b i = block i.
Proof. done. Qed.

Definition whole (i : Z) : Z * bytes * bool := (i, block i, true).

Lemma pos_bounds i : 0 <= i -> 0 <= pos i <= pos (i + 1) /\ pos (i + 1) <= size.
Proof. intros Hi. pose proof (zlen_nonneg b). unfold pos. nia. Qed.

Lemma pos_le i j : 0 <= i -> i <= j -> 0 <= pos i <= pos j /\ pos j <= size.
Proof. intros Hi Hj. pose proof (zlen_nonneg b). unfold pos. nia. Qed.

Lemma pos_full i : i * bs < size -> pos i = i * bs.
Proof. unfold pos. lia. Qed.

Lemma run_block_length i : 0 <= i -> i * bs < size -> block_length i bs size = pos (i + 1) - pos i /\ 0 < pos (i + 1) - pos i.
Proof. intros Hi Hl. unfold block_length, block_bounds, pos. nia. Qed.

Lemma zlen_block i : 0 <= i -> zlen (block i) = pos (i + 1) - pos i.
Proof. intros Hi. destruct (pos_bounds i Hi). unfold block. apply zlen_zslice; lia. Qed.

(** The buffer is what has come of the rest of the run, [behind] what is to
    come; it holds less than a block. *)
Definition buffered (i last : Z) (buffer behind : bytes) : Prop :=
  buffer ++ behind = zslice (pos i) (pos (last + 1)) b /\ (i <= last -> zlen buffer < block_length i bs size).

Lemma cut_blocks_spec last : last * bs < size -> forall fuel i buffer behind,
  0 <= i -> i <= last + 1 -> last - i + 1 <= Z.of_nat fuel -> buffer ++ behind = zslice (pos i) (pos (last + 1)) b ->
  let '(blocks, j, rest) := cut_blocks fuel i last bs size buffer in
  i <= j <= last + 1 /\ blocks = map whole (seqZ i (j - i)) /\ buffered j last rest behind.
Proof.
  intros Hlast. induction fuel as [|fuel IH]; intros i buffer behind Hz Hi Hf Hbuf; cbn [cut_blocks].
  - split; [lia|]. rewrite Z.sub_diag. split; [done|]. split; [done|lia].
  - destruct (Z.ltb_spec last i); [split; [lia|]; rewrite Z.sub_diag; split; [done|]; split; [done|lia]|].
    assert (i * bs < size) as Hib by nia. destruct (run_block_length i Hz Hib) as [Hlen Hpos].
    destruct (Z.ltb_spec (zlen buffer) (block_length i bs size)) as [Hlt|Hge].
    + split; [lia|]. rewrite Z.sub_diag. split; [done|]. by split.
    + rewrite Hlen in *. set (n := pos (i + 1) - pos i) in *.
      destruct (pos_le (i + 1) (last + 1) ltac:(lia) ltac:(lia)) as [Hp1 Hp2]. destruct (pos_bounds i Hz) as [Hp3 _].
      assert (ztake n buffer = block i /\ zdrop n buffer ++ behind = zslice (pos (i + 1)) (pos (last + 1)) b) as [Htk Hdr].
      { rewrite (zslice_split (pos i) (pos (i + 1))) in Hbuf by lia. rewrite <- (ztake_zdrop n buffer), <- app_assoc in Hbuf.
        apply app_inj_1 in Hbuf as [Ha Hb]; [by split|]. apply Nat2Z.inj. change (zlen (ztake n buffer) = zlen (zslice (pos i) (pos (i + 1)) b)).
        rewrite zlen_ztake, zlen_zslice by lia. lia. }
      specialize (IH (i + 1) (zdrop n buffer) behind ltac:(lia) ltac:(lia) ltac:(lia) Hdr).
      destruct (cut_blocks fuel (i + 1) last bs size (zdrop n buffer)) as [[blocks j] rest]. destruct IH as (Hj & -> & Hrest).
      split; [lia|]. split; [|done]. rewrite (seqZ_cons i (j - i)) by lia. cbn [map]. rewrite Htk. unfold whole at 2. f_equal.
      do 2 f_equal; lia.
Qed.

Lemma cut_stream_spec last : last * bs < size -> forall chunks i buffer behind,
  0 <= i -> i <= last + 1 -> buffered i last buffer (concat chunks ++ behind) ->
  let '(blocks, j, rest) := cut_stream chunks i last bs size buffer in
  i <= j <= last + 1 /\ blocks = map whole (seqZ i (j - i)) /\ buffered j last rest behind.
Proof.
  intros Hlast. induction chunks as [|chunk chunks IH]; intros i buffer behind Hz Hi Hbuf; cbn [cut_stream].
  - split; [lia|]. rewrite Z.sub_diag. by split.
  - destruct Hbuf as [Hbuf _]. simpl in Hbuf. rewrite <- app_assoc in Hbuf. rewrite app_assoc in Hbuf.
    pose proof (cut_blocks_spec last Hlast (Z.to_nat (last - i + 1)) i (buffer ++ chunk) (concat chunks ++ behind) Hz Hi ltac:(lia) Hbuf) as Hc.
    destruct (cut_blocks _ i last bs size (buffer ++ chunk)) as [[blocks j] rest]. destruct Hc as (Hj & -> & Hrest).
    specialize (IH j rest behind ltac:(lia) ltac:(lia) Hrest). destruct (cut_stream chunks j last bs size rest) as [[blocks' k] rest'].
    destruct IH as (Hk & -> & Hr). split; [lia|]. split; [|done]. rewrite <- map_app. f_equal.
    replace (k - i) with ((j - i) + (k - j)) by lia. rewrite seqZ_app by lia. do 2 f_equal. lia.
Qed.

(** A run of blocks fetched: some of them, all unless the download failed. *)
Lemma fetch_step first last w : read_ok w -> 0 <= first -> first <= last -> last * bs < size ->
  let '(r, w') := fetch_blocks g text_of mid first last size bs w in
  read_step w w' /\
  match r with
  | Raise x => failed_call (tg_server w) x
  | Ok (blocks, flt) => exists j, first <= j <= last + 1 /\ blocks = map whole (seqZ first (j - first)) /\
      match flt with None => j = last + 1 | Some x => j <= last /\ failed_call (tg_server w) x end
  end.
Proof.
  intros Hok Hz H1 Hl. unfold fetch_blocks, block_bounds, sbind. assert (first * bs < size) as Hfb by nia.
  destruct (pos_le first (last + 1) Hz ltac:(lia)) as [Hp1 Hp2]. pose proof (pos_full first Hfb) as Hpf.
  destruct (run_block_length first Hz Hfb) as [Hlen Hpos]. destruct (pos_le (first + 1) (last + 1) ltac:(lia) ltac:(lia)) as [Hp3 _].
  replace (Z.min (last * bs + bs) size - 1) with (pos (last + 1) - 1) by (unfold pos; f_equal; f_equal; lia). rewrite <- Hpf.
  assert (last_of (pos (last + 1) - 1) = pos (last + 1) - 1) as Hlo by (unfold last_of; rewrite (proj2 (Z.ltb_ge _ _)) by lia; done).
  pose proof (uncached_step (pos first) (pos (last + 1) - 1) w Hok ltac:(lia) ltac:(rewrite Hlo; lia) ltac:(rewrite Hlo; lia)) as Hd.
  rewrite Hlo, Z.sub_add in Hd.
  destruct (download_uncached g text_of mid (pos first) (pos (last + 1) - 1) w) as [[s|x] w1]; [|done]. destruct Hd as [Hs Hr].
  unfold served, stream_bytes in Hr.
  assert (exists behind, concat (pieces s) ++ behind = zslice (pos first) (pos (last + 1)) b /\ match fault s with None => behind = [] | Some _ => behind <> [] end) as (behind & Hb & Hn).
  { destruct (fault s); [destruct Hr as (_ & _ & lft & Hne & Hlft); by exists lft|]. exists []. by rewrite app_nil_r. }
  pose proof (cut_stream_spec last Hl (pieces s) first [] behind Hz ltac:(lia)
    ltac:(split; [done|intros _; rewrite Hlen, zlen_nil; lia])) as Hc.
  destruct (cut_stream (pieces s) first last bs size []) as [[blocks j] rest]. destruct Hc as (Hj & -> & [Hrest Hlt]).
  split; [done|]. destruct (fault s) as [x|] eqn:Hfs; cbn beta iota.
  - exists j. split; [done|]. split; [done|]. split; [|by destruct Hr as (? & ? & _)].
    destruct (decide (j <= last)) as [|Hgt]; [done|]. exfalso. rewrite zslice_nil in Hrest by (replace j with (last + 1) by lia; lia).
    by apply app_nil in Hrest as [_ ?].
  - rewrite Hn, app_nil_r in Hrest. assert (j = last + 1) as ->.
    { destruct (decide (j <= last)) as [Hle|]; [|lia]. exfalso. specialize (Hlt Hle).
      destruct (pos_le j (last + 1) ltac:(lia) ltac:(lia)) as [? ?]. destruct (pos_le (j + 1) (last + 1) ltac:(lia) ltac:(lia)) as [? ?].
      destruct (run_block_length j ltac:(lia) ltac:(nia)) as [Hlj _]. rewrite Hrest, zlen_zslice, Hlj in Hlt by lia. lia. }
    rewrite (proj2 (Z.leb_gt _ _)) by lia. exists (last + 1). split; [lia|]. done.
Qed.

(** ** Serving blocks *)

(** The blocks of the documents that the shared cache holds are theirs. *)
Definition cache_true (c : ChunkCache) : Prop :=
  cache_ok c /\ forall ch m i blk b, ((ch, m, i), blk) ∈ cc_blocks c -> docs ch m = Some b -> blk = block_of bs b i.

  Context (others : Z -> bool -> ChunkCache -> ChunkCache).
  Hypothesis Hothers : forall i stored c, cache_true c -> cache_true (others i stored c).

Lemma cache_put_true i c : cache_true c -> exists c', cache_put (block_key g mid i) (block i) c = Ok c' /\ cache_true c'.
Proof.
  intros [Hok Ht]. destruct (chunk_put_spec (block_key g mid i) (block i) c Hok) as (c' & -> & Hok' & Hc'). exists c'. split; [done|]. split; [done|].
  destruct Hc' as [-> | (old & lft & Hdel & -> & _)]; [done|]. intros ch m j blk b' [Hin|Heq%list_elem_of_singleton]%elem_of_app Hb'.
  - apply (Ht ch m j blk b'); [|done]. assert (((ch, m, j), blk) ∈ Dict.del (block_key g mid i) (cc_blocks c)) as Hd by (rewrite Hdel; apply elem_of_app; by right).
    unfold Dict.del in Hd. by apply list_elem_of_filter in Hd as [_ ?].
  - injection Heq as -> -> -> ->. rewrite Hdoc in Hb'. by injection Hb' as <-.
Qed.

Lemma cache_get_true i c : cache_true c -> cache_true (cache_get (block_key g mid i) c).2 /\
  forall blk, (cache_get (block_key g mid i) c).1 = Some blk -> blk = block i.
Proof.
  intros [Hok Ht]. split.
  - split; [by apply get_ok|]. unfold cache_get. destruct (negb (enabled c)); [done|].
    destruct (Dict.get (block_key g mid i) (cc_blocks c)) as [blk|] eqn:Hg; [|done]. simpl. intros ch m j blk' b' [Hin|Heq%list_elem_of_singleton]%elem_of_app.
    + unfold Dict.del in Hin. apply list_elem_of_filter in Hin as [_ ?]. by apply Ht.
    + injection Heq as -> -> -> ->. apply Ht. by apply list_elem_of_In, Dict.get_Some_In.
  - intros blk. unfold cache_get. destruct (negb (enabled c)); [done|]. destruct (Dict.get (block_key g mid i) (cc_blocks c)) as [blk'|] eqn:Hg; [|done].
    intros [= <-]. apply (Ht chat mid i blk' b); [|done]. by apply list_elem_of_In, Dict.get_Some_In.
Qed.

(** A step of a cached read: it may change the block cache, to a true one. *)
Record cached_step (w w' : Tg T) : Prop := {
  cs_keeps : keeps (tg_server w) (tg_server w');
  cs_ok : read_ok w -> read_ok w';
  cs_true : cache_true (tg_chunks w) -> cache_true (tg_chunks w')
}.

#[local] Instance cached_step_preorder : PreOrder cached_step.
Proof.
  split; [by intros w; split|]. intros w1 w2 w3 [a1 a2 a3] [b1 b2 b3]. split; [by etrans|auto|auto].
Qed.

Lemma cached_of_read w w' : read_step w w' -> cached_step w w'.
Proof. intros [? ? Hc]. split; [done|done|]. by rewrite Hc. Qed.

Lemma set_chunks_step c w : (cache_true (tg_chunks w) -> cache_true c) -> cached_step w (set_chunks c w).
Proof. intros Hc. split; [done| |done]. intros [? ? ?]. by split. Qed.

  Context (begin last : Z).
  Hypothesis Hrange : 0 <= begin <= last /\ last < size.

(** How far the range is delivered when block [i] is next. *)
Definition due (i : Z) : Z := Z.min (last + 1) (Z.max begin (pos i)).
Abbreviation start_block := (begin / bs).
Abbreviation stop_block := (last / bs + 1).

Lemma block_range_bounds : 0 <= start_block < stop_block /\ start_block * bs <= begin /\ last < stop_block * bs /\ (stop_block - 1) * bs <= last.
Proof.
  pose proof (Z.div_mod begin bs ltac:(lia)). pose proof (Z.mod_pos_bound begin bs Hbs).
  pose proof (Z.div_mod last bs ltac:(lia)). pose proof (Z.mod_pos_bound last bs Hbs).
  pose proof (Z.div_pos begin bs ltac:(lia) Hbs). pose proof (Z.div_le_mono begin last bs Hbs ltac:(lia)). nia.
Qed.

Lemma due_start : due start_block = begin.
Proof. destruct block_range_bounds as (H1 & H2 & _). unfold due, pos. lia. Qed.

Lemma due_stop : due stop_block = last + 1.
Proof. destruct block_range_bounds as (H1 & H2 & H3 & H4). unfold due, pos. lia. Qed.

Lemma due_le i j : 0 <= i -> i <= j -> begin <= due i <= due j /\ due j <= last + 1.
Proof. intros Hi Hj. destruct (pos_le i j Hi Hj). unfold due. lia. Qed.

Lemma slice_block_due i : start_block <= i -> i < stop_block -> slice_block (block i) i bs begin last = zslice (due i) (due (i + 1)) b.
Proof.
  intros H1 H2. destruct block_range_bounds as (H3 & H4 & H5 & H6). assert (0 <= i) as Hz by lia.
  assert (i * bs <= last) as Hib by nia. pose proof (pos_full i ltac:(lia)) as Hp. destruct (pos_bounds i Hz) as [Hp1 Hp2].
  assert (begin < pos (i + 1)) as Hbp.
  { assert (begin < (i + 1) * bs) by (pose proof (Z.div_mod begin bs ltac:(lia)); pose proof (Z.mod_pos_bound begin bs Hbs); nia). unfold pos. lia. }
  assert (due i = Z.max begin (i * bs)) as -> by (unfold due; lia).
  assert (due (i + 1) = Z.min (last + 1) (pos (i + 1))) as -> by (unfold due; lia).
  unfold slice_block. rewrite zlen_block, Hp by lia.
  assert (Z.min (pos (i + 1) - i * bs) (last - i * bs + 1) = Z.min (last + 1) (pos (i + 1)) - i * bs) as -> by lia.
  destruct (Z.ltb_spec (Z.max 0 (begin - i * bs)) (Z.min (last + 1) (pos (i + 1)) - i * bs)).
  - unfold block. rewrite Hp, zslice_zslice by lia. f_equal; lia.
  - symmetry. apply zslice_nil. lia.
Qed.

Lemma serve_blocks_spec n : forall i w, start_block <= i -> i + Z.of_nat n <= stop_block -> cache_true (tg_chunks w) ->
  let '(s, w') := serve_blocks g others mid bs begin last (map whole (seqZ i (Z.of_nat n))) w in
  cached_step w w' /\ fault s = None /\ stream_bytes s = zslice (due i) (due (i + Z.of_nat n)) b.
Proof.
  destruct block_range_bounds as (Hr & _). induction n as [|n IH]; intros i w H1 H2 Ht.
  - simpl. split; [done|]. split; [done|]. rewrite Z.add_0_r. by rewrite zslice_nil by lia.
  - rewrite seqZ_cons by lia. cbn [map serve_blocks whole]. set (w1 := set_chunks _ w).
    destruct (cache_put_true i (tg_chunks w1) (Hothers i true _ Ht)) as (c' & -> & Htc).
    replace (Z.of_nat (S n) - 1) with (Z.of_nat n) by lia. replace (Z.pred (Z.of_nat (S n))) with (Z.of_nat n) by lia.
    replace (Z.succ i) with (i + 1) by lia.
    specialize (IH (i + 1) (set_chunks c' w1) ltac:(lia) ltac:(lia) Htc).
    destruct (serve_blocks g others mid bs begin last _ (set_chunks c' w1)) as [s w2]. destruct IH as (Hs & Hf & Hb).
    split; [etrans; [|exact Hs]; etrans; [apply (set_chunks_step (others i true (tg_chunks w))); apply Hothers|by apply set_chunks_step]|].
    split; [done|]. unfold then_stream, stream_bytes in *. simpl. rewrite Hb, slice_block_due by lia.
    destruct (due_le i (i + 1) ltac:(lia) ltac:(lia)). destruct (due_le (i + 1) (i + 1 + Z.of_nat n) ltac:(lia) ltac:(lia)).
    replace (i + Z.of_nat (S n)) with (i + 1 + Z.of_nat n) by lia. symmetry. apply zslice_split; lia.
Qed.

Lemma run_end_bounds fuel c : forall i stop, i < stop -> i <= run_end_of g fuel mid i stop c < stop.
Proof.
  induction fuel as [|fuel IH]; intros i stop Hi; cbn [run_end_of]; [lia|].
  destruct ((i + 1 <? stop) && _) eqn:He; [|lia]. apply andb_true_iff in He as [Hl%Z.ltb_lt _]. specialize (IH (i + 1) stop Hl). lia.
Qed.

Lemma due_nonempty i : start_block <= i -> i < stop_block -> zslice (due i) (last + 1) b <> [].
Proof.
  intros H1 H2. destruct block_range_bounds as (H3 & H4 & H5 & H6). assert (i * bs <= last) by nia.
  assert (due i <= last) by (unfold due, pos; lia). destruct (due_le i i ltac:(lia) ltac:(lia)). apply slice_nonempty; lia.
Qed.

(** From any block on, the loop delivers what is due. *)
Lemma cached_loop_spec fuel : forall i w, start_block <= i -> i <= stop_block -> stop_block - i <= Z.of_nat fuel ->
  read_ok w -> cache_true (tg_chunks w) ->
  let '(s, w') := cached_loop g text_of others fuel mid begin last size bs i stop_block w in
  cached_step w w' /\ served (tg_server w) (zslice (due i) (last + 1) b) s.
Proof.
  destruct block_range_bounds as (Hr & Hr2 & Hr3 & Hr4). induction fuel as [|fuel IH]; intros i w H1 H2 Hf Hok Ht; cbn [cached_loop].
  - rewrite (proj2 (Z.leb_le _ _)) by lia. split; [done|]. assert (i = stop_block) as -> by lia. rewrite due_stop. unfold served. simpl.
    by rewrite zslice_nil by lia.
  - destruct (Z.leb_spec stop_block i) as [Hge|Hlt].
    { split; [done|]. assert (i = stop_block) as -> by lia. rewrite due_stop. unfold served. simpl. by rewrite zslice_nil by lia. }
    set (w1 := set_chunks _ w). assert (cached_step w w1) as Hs1 by (apply set_chunks_step, Hothers).
    destruct (cache_get_true i (tg_chunks w1) (Hothers i false _ Ht)) as [Htc Hblk].
    destruct (cache_get (block_key g mid i) (tg_chunks w1)) as [cached c]. cbn [fst snd] in *.
    set (w2 := set_chunks c w1). assert (cached_step w w2) as Hs2 by (etrans; [exact Hs1|by apply set_chunks_step]).
    destruct cached as [blk|].
    + specialize (Hblk blk eq_refl) as ->. specialize (IH (i + 1) w2 ltac:(lia) ltac:(lia) ltac:(lia) (cs_ok _ _ Hs2 Hok) Htc).
      destruct (cached_loop g text_of others fuel mid begin last size bs (i + 1) stop_block w2) as [s w3]. destruct IH as [Hs3 Hr5].
      split; [by etrans|]. destruct (due_le i (i + 1) ltac:(lia) ltac:(lia)).
      rewrite (zslice_split (due i) (due (i + 1))) by lia. apply served_then; [done| |].
      * unfold stream_bytes. simpl. by rewrite app_nil_r, slice_block_due by lia.
      * by eapply served_keeps; [apply (cs_keeps _ _ Hs2)|].
    + pose proof (run_end_bounds (Z.to_nat (stop_block - i)) c i stop_block Hlt) as Hre.
      set (re := run_end_of g (Z.to_nat (stop_block - i)) mid i stop_block c) in *.
      pose proof (fetch_step i re w2 (cs_ok _ _ Hs2 Hok) ltac:(lia) ltac:(lia) ltac:(nia)) as Hfs.
      destruct (fetch_blocks g text_of mid i re size bs w2) as [[[blocks flt]|x] w3]; destruct Hfs as [Hs3 Hres].
      * destruct Hres as (j & Hj & -> & Hflt). assert (cached_step w w3) as Hs3' by (etrans; [exact Hs2|by apply cached_of_read]).
        replace (j - i) with (Z.of_nat (Z.to_nat (j - i))) by lia.
        pose proof (serve_blocks_spec (Z.to_nat (j - i)) i w3 H1 ltac:(lia) (cs_true _ _ Hs3' Ht)) as Hsv.
        destruct (serve_blocks g others mid bs begin last _ w3) as [run w4]. destruct Hsv as (Hs4 & Hf0 & Hbytes).
        replace (i + Z.of_nat (Z.to_nat (j - i))) with j in Hbytes by lia. rewrite Hf0.
        assert (cached_step w w4) as Hs4' by (etrans; [exact Hs3'|exact Hs4]). destruct (due_le i j ltac:(lia) ltac:(lia)) as [Hd1 Hd2].
        destruct flt as [x|].
        -- destruct Hflt as [Hjre Hflt]. split; [done|]. destruct (failed_keeps _ _ x (cs_keeps _ _ Hs2) Hflt) as [Hx Hnr].
           split; [done|]. split; [done|]. exists (zslice (due j) (last + 1) b). split; [apply due_nonempty; lia|].
           change (stream_bytes {| pieces := pieces run; fault := Some x |}) with (stream_bytes run). rewrite Hbytes.
           symmetry. apply zslice_split; lia.
        -- subst j. specialize (IH (re + 1) w4 ltac:(lia) ltac:(lia) ltac:(lia) (cs_ok _ _ Hs4' Hok) (cs_true _ _ Hs4' Ht)).
           destruct (cached_loop g text_of others fuel mid begin last size bs (re + 1) stop_block w4) as [s w5]. destruct IH as [Hs5 Hr5].
           split; [by etrans|]. rewrite (zslice_split (due i) (due (re + 1))) by lia. apply served_then; [done|done|].
           by eapply served_keeps; [apply (cs_keeps _ _ Hs4')|].
      * split; [etrans; [exact Hs2|by apply cached_of_read]|]. apply served_fault; [|by apply due_nonempty].
        by eapply failed_keeps; [apply (cs_keeps _ _ Hs2)|].
Qed.

End Blocks.

#[local] Existing Instance cached_step_preorder.

(** ** The store's read *)

Abbreviation block_size := (chunk_cache_block_bytes (gc_transfer g)).

Lemma block_size_pos : 0 < block_size.
Proof. destruct Htransfer as [_ _ _ _ [_ [_ ?]] _]. unfold chunk_cache_block_bytes. lia. Qed.

Lemma set_store_step s w : cached_step block_size w (set_store s w).
Proof. split; [done| |done]. intros [? ? ?]. by split. Qed.

Lemma schedule_step after w : cached_step block_size w (schedule_readahead g mid after (zlen b) block_size w).2.
Proof.
  unfold schedule_readahead. destruct (_ || _); [done|]. destruct (uncached_blocks g mid _ _); [done|]. destruct (bool_decide _); [done|].
  apply set_store_step.
Qed.

Lemma store_ahead_step others n : (forall i stored c, cache_true block_size c -> cache_true block_size (others i stored c)) ->
  forall i w, cached_step block_size w (store_ahead g others mid (map (whole block_size) (seqZ i (Z.of_nat n))) w).
Proof.
  intros Hoth. induction n as [|n IH]; intros i w; [done|]. rewrite seqZ_cons by lia. cbn [map store_ahead whole].
  set (w1 := set_chunks (others i true (tg_chunks w)) w). assert (cached_step block_size w w1) as Hs1 by (apply set_chunks_step, Hoth).
  replace (Z.pred (Z.of_nat (S n))) with (Z.of_nat n) by lia.
  destruct (cache_put (block_key g mid i) (block block_size i) (tg_chunks w1)) as [c|] eqn:Hp; [|done].
  etrans; [|apply IH]. etrans; [exact Hs1|]. apply set_chunks_step. intros Ht.
  destruct (cache_put_true block_size i _ Ht) as (c' & Hp' & Htc). rewrite Hp in Hp'. by injection Hp' as ->.
Qed.

(** Read-ahead is an admissible [others]: it stores true blocks only. *)
Lemma readahead_keeps others first last w :
  (forall i stored c, cache_true block_size c -> cache_true block_size (others i stored c)) ->
  read_ok w -> 0 <= first -> first <= last -> last * block_size < zlen b ->
  cached_step block_size w (readahead g text_of others mid first last (zlen b) block_size w).
Proof.
  intros Hoth Hok Hz H1 H2. unfold readahead. pose proof (fetch_step block_size block_size_pos first last w Hok Hz H1 H2) as Hf.
  destruct (fetch_blocks g text_of mid first last (zlen b) block_size w) as [[[blocks flt]|x] w1]; destruct Hf as [Hs Hr].
  - destruct Hr as (j & Hj & -> & _). etrans; [by apply cached_of_read|]. etrans; [|apply set_store_step].
    replace (j - first) with (Z.of_nat (Z.to_nat (j - first))) by lia. by apply store_ahead_step.
  - etrans; [by apply cached_of_read|]. apply set_store_step.
Qed.

Lemma download_cached_step others begin last w :
  (forall i stored c, cache_true block_size c -> cache_true block_size (others i stored c)) ->
  read_ok w -> cache_true block_size (tg_chunks w) -> 0 <= begin -> begin <= last_of last -> last_of last < zlen b ->
  let '(r, w') := download_cached g text_of others mid begin last w in
  cached_step block_size w w' /\
  match r with
  | Raise x => failed_call (tg_server w) x
  | Ok None => True
  | Ok (Some s) => served (tg_server w) (zslice begin (last_of last + 1) b) s
  end.
Proof.
  intros Hoth Hok Ht H1 H2 H3. unfold download_cached. destruct (_ || _); [done|].
  pose proof (document_size_spec w Hok) as Hd. destruct (document_size g text_of mid w) as [[size|x] w1]; destruct Hd as [Hs1 Hr];
    [|split; [by apply cached_of_read|done]]. subst size.
  apply (cached_of_read block_size) in Hs1. rewrite (proj2 (Z.leb_gt _ _)) by lia. rewrite (proj2 (Z.leb_gt _ _)) by lia. cbn [orb].
  assert ((if (last <? 0) || (zlen b - 1 <? last) then zlen b - 1 else last) = last_of last) as ->.
  { unfold last_of in *. destruct (Z.ltb_spec last 0); [done|]. cbn [orb]. by rewrite (proj2 (Z.ltb_ge _ _)) by lia. }
  rewrite (proj2 (Z.ltb_ge _ _)) by lia. pose proof (schedule_step (last_of last / block_size) w1) as Hs2.
  destruct (schedule_readahead g mid (last_of last / block_size) (zlen b) block_size w1) as [task w2]. cbn [snd] in Hs2.
  assert (cached_step block_size w w2) as Hs3 by (by etrans).
  unfold cached_download, block_range. rewrite Z.min_l by lia.
  pose proof (block_range_bounds block_size block_size_pos begin (last_of last) ltac:(lia)) as Hbr.
  pose proof (cached_loop_spec block_size block_size_pos others Hoth begin (last_of last) ltac:(lia)
    (Z.to_nat (last_of last / block_size + 1 - begin / block_size)) (begin / block_size) w2 ltac:(lia) ltac:(lia) ltac:(lia)
    (cs_ok _ _ _ Hs3 Hok) (cs_true _ _ _ Hs3 Ht)) as Hl.
  destruct (cached_loop g text_of others _ mid begin (last_of last) (zlen b) block_size _ _ w2) as [s w3]. destruct Hl as [Hs4 Hsv].
  split; [by etrans|]. rewrite (due_start block_size block_size_pos begin (last_of last)) in Hsv by lia.
  eapply served_keeps; [apply (cs_keeps _ _ _ Hs3)|done].
Qed.

Lemma download_file_step others begin last w :
  (forall i stored c, cache_true block_size c -> cache_true block_size (others i stored c)) ->
  read_ok w -> cache_true block_size (tg_chunks w) -> 0 <= begin -> begin <= last_of last -> last_of last < zlen b ->
  let '(r, w') := download_file g text_of others mid begin last w in
  cached_step block_size w w' /\
  match r with
  | Raise x => failed_call (tg_server w) x
  | Ok s => served (tg_server w) (zslice begin (last_of last + 1) b) s
  end.
Proof.
  intros Hoth Hok Ht H1 H2 H3. unfold download_file, sbind, sret.
  pose proof (download_cached_step others begin last w Hoth Hok Ht H1 H2 H3) as Hd.
  destruct (download_cached g text_of others mid begin last w) as [[[s|]|x] w1]; destruct Hd as [Hs1 Hr]; [done| |done].
  pose proof (uncached_step begin last w1 (cs_ok _ _ _ Hs1 Hok) H1 H2 H3) as Hu.
  destruct (download_uncached g text_of mid begin last w1) as [r w2]. destruct Hu as [Hs2 Hr2].
  split; [etrans; [exact Hs1|by apply cached_of_read]|].
  destruct r; [by eapply served_keeps; [apply (cs_keeps _ _ _ Hs1)|]|by eapply failed_keeps; [apply (cs_keeps _ _ _ Hs1)|]].
Qed.

End Reads.

Lemma new_cache_true docs bs budget : cache_true docs bs (chunk_cache budget).
Proof.
  split; [|by intros ch m i blk b ?%not_elem_of_nil]. constructor; simpl; try done; [lia|apply Dict.wf_nil|lia].
Qed.

