(* ===== verification/UploaderProps.v ===== *)
(** * Uploading one document ([tgdcfs/backends/telegram/uploader.py])

    [FileUploader.upload] runs several workers: each takes the next part
    number, reads the part from the message under one lock and saves it on the
    server.  The lock is fair, the workers waiting for it are a queue whose
    head holds it.  An event is what one of the workers does between two
    waits, and a run is any sequence of events; the server's answers are part
    of the events. *)

From S2P Require Import Prelude Errors Messages.

Open Scope Z_scope.
Open Scope py_scope.

Definition MAX_PART_ATTEMPTS : Z := 5.

Definition is_big_file (size : Z) : bool := 10 * 1024 * 1024 <? size.

(** A worker between two parts, waiting for the lock (or holding it) with its
    part number, saving a part, at its end ([true]: no part was left, [false]:
    the task was cancelled), or stopped by an exception. *)
Inductive worker :=
| Free
| Waiting (part : Z)
| Sending (part : Z) (content : bytes) (attempt : Z)
| Exited (finished : bool)
| Crashed (ex : exn).

#[export] Instance worker_eq_dec : EqDecision worker.
Proof. solve_decision. Defined.

Section Uploader.
  Context {M : Type} `{Uploadable M}.

Record FileUploader := {
  up_msg : M;
  up_size : Z;                                   (* _file_size *)
  up_chunk : Z;                                  (* _chunk_size *)
  up_total : Z;                                  (* _total_parts *)
  up_indexes : list Z;                           (* _part_indexes *)
  up_read : Z;                                   (* _read_size *)
  up_lock : list nat;
  up_workers : list worker;
  up_saved : dict Z bytes;                       (* the parts the server has *)
  up_uploaded : Z                                (* _uploaded_size *)
}.

Definition total_parts (size chunk : Z) : Z := (size + chunk - 1) / chunk.

(** [__init__] and the start of [upload], the message being open. *)
Definition file_uploader (m : M) (chunk small big : Z) : FileUploader :=
  let size := get_size m in
  let total := total_parts size chunk in
  {| up_msg := m; up_size := size; up_chunk := chunk; up_total := total; up_indexes := seqZ 0 total; up_read := 0; up_lock := [];
     up_workers := replicate (Z.to_nat (if is_big_file size then big else small)) Free; up_saved := []; up_uploaded := 0 |}.

Definition set_worker (i : nat) (x : worker) (u : FileUploader) : FileUploader :=
  {| up_msg := up_msg u; up_size := up_size u; up_chunk := up_chunk u; up_total := up_total u; up_indexes := up_indexes u;
     up_read := up_read u; up_lock := up_lock u; up_workers := <[i := x]> (up_workers u); up_saved := up_saved u; up_uploaded := up_uploaded u |}.
Definition set_lock (l : list nat) (u : FileUploader) : FileUploader :=
  {| up_msg := up_msg u; up_size := up_size u; up_chunk := up_chunk u; up_total := up_total u; up_indexes := up_indexes u;
     up_read := up_read u; up_lock := l; up_workers := up_workers u; up_saved := up_saved u; up_uploaded := up_uploaded u |}.
Definition set_indexes (l : list Z) (u : FileUploader) : FileUploader :=
  {| up_msg := up_msg u; up_size := up_size u; up_chunk := up_chunk u; up_total := up_total u; up_indexes := l;
     up_read := up_read u; up_lock := up_lock u; up_workers := up_workers u; up_saved := up_saved u; up_uploaded := up_uploaded u |}.
Definition set_message (m : M) (read : Z) (u : FileUploader) : FileUploader :=
  {| up_msg := m; up_size := up_size u; up_chunk := up_chunk u; up_total := up_total u; up_indexes := up_indexes u;
     up_read := read; up_lock := up_lock u; up_workers := up_workers u; up_saved := up_saved u; up_uploaded := up_uploaded u |}.
Definition save_part (part : Z) (content : bytes) (u : FileUploader) : FileUploader :=
  {| up_msg := up_msg u; up_size := up_size u; up_chunk := up_chunk u; up_total := up_total u; up_indexes := up_indexes u;
     up_read := up_read u; up_lock := up_lock u; up_workers := up_workers u; up_saved := Dict.set part content (up_saved u);
     up_uploaded := up_uploaded u + zlen content |}.

Inductive up_event :=
| TakeIndex (i : nat)                            (* get_nowait, then the queue of the lock *)
| SeeCancelled (i : nat)
| ReadNext                                       (* by the holder of the lock, which it releases *)
| Saved (i : nat)
| SaveFails (i : nat) (ex : exn).

Definition done_reading (u : FileUploader) : bool := up_size u <=? up_read u.

Definition is_crashed (x : worker) : bool := match x with Crashed _ => true | _ => false end.

(** One event; [None] when it cannot happen.  A worker's exception ends the
    upload: the others are cancelled. *)
Definition up_step (e : up_event) (u : FileUploader) : option FileUploader :=
  if existsb is_crashed (up_workers u) then None
  else
    match e with
    | TakeIndex i =>
        match up_workers u !! i with
        | Some Free =>
            match up_indexes u with
            | [] => Some (set_worker i (Exited true) u)
            | p :: ps => Some (set_worker i (Waiting p) (set_lock (up_lock u ++ [i]) (set_indexes ps u)))
            end
        | _ => None
        end
    | SeeCancelled i =>
        match up_workers u !! i with Some Free => Some (set_worker i (Exited false) u) | _ => None end
    | ReadNext =>
        match up_lock u with
        | [] => None
        | i :: waiters =>
            match up_workers u !! i with
            | Some (Waiting part) =>
                let u := set_lock waiters u in
                if done_reading u then Some (set_worker i Free u)
                else
                  let size_to_read := Z.min (up_size u - up_read u) (up_chunk u) in
                  match um_read size_to_read (up_msg u) with
                  | (Ok content, m) => Some (set_worker i (Sending part content 1) (set_message m (up_read u + size_to_read) u))
                  | (Raise ex, m) => Some (set_worker i (Crashed ex) (set_message m (up_read u) u))
                  end
            | _ => None
            end
        end
    | Saved i =>
        match up_workers u !! i with Some (Sending part content _) => Some (set_worker i Free (save_part part content u)) | _ => None end
    | SaveFails i ex =>
        match up_workers u !! i with
        | Some (Sending part content attempt) =>
            if is_Exception ex then
              Some (set_worker i (if attempt =? MAX_PART_ATTEMPTS then Crashed ex else Sending part content (attempt + 1)) u)
            else None
        | _ => None
        end
    end.

Fixpoint up_run (es : list up_event) (u : FileUploader) : option FileUploader :=
  match es with
  | [] => Some u
  | e :: es => match up_step e u with Some u => up_run es u | None => None end
  end.

Definition is_exited (x : worker) : bool := match x with Exited _ => true | _ => false end.

(** What [upload] returns once its workers are through. *)
Definition up_result (u : FileUploader) : option (exc Z) :=
  match List.find is_crashed (up_workers u) with
  | Some (Crashed ex) => Some (Raise ex)
  | _ =>
      if forallb is_exited (up_workers u) then
        match um_close (up_msg u) with (Ok _, _) => Some (Ok (up_size u)) | (Raise ex, _) => Some (Raise ex) end
      else None
  end.

(** The document the server puts together from the parts it has. *)
Definition assembled (u : FileUploader) : option bytes :=
  option_map (@concat byte) (mapM (fun p => Dict.get p (up_saved u)) (seqZ 0 (up_total u))).

End Uploader.

#[global] Arguments FileUploader : clear implicits.

(** ** Every schedule of the workers uploads the file

    The parts are read in the order of their numbers, whatever the workers
    do, because a number is taken and the fair lock queued for without a wait
    in between: the numbers waiting for the lock are consecutive and the next
    to be read is the first.  So every run whose workers all find no part
    left has saved the message's bytes, part by part. *)

(** A message whose reads are not short: buffers and streams. *)
Class ExactReads (M : Type) `{UploadLaws M} := {
  exact_read : forall m n, readable m -> 0 < n -> n <= zlen (rest m) ->
    exists m', um_read n m = (Ok (ztake n (rest m)), m') /\ readable m' /\ rest m' = zdrop n (rest m)
}.

#[export] Program Instance buffer_exact : ExactReads FileMessageFromBuffer.
Next Obligation.
  intros m n _ Hn Hl. simpl in *. unfold fb_read, sbind, sget, sput, sret. rewrite py_take_pos, py_drop_pos by lia.
  eexists. split; [done|]. by split.
Qed.

#[export] Program Instance stream_exact : ExactReads FileMessageFromStream.
Next Obligation.
  intros m n [Hr0 Hr1] Hn Hl. simpl in *. unfold fs_read. set (k := Z.min n (fs_get_size m - um_read_size (fs_um m))).
  fold (fs_remaining m) in k. rewrite zlen_ztake in Hl by lia. assert (k = n) as Hk by (unfold k; lia).
  destruct (fs_fill_spec k (pieces (fs_stream m)) (fault (fs_stream m)) (fs_buffer m)) as (ps & buf & -> & He & Hb); [lia|].
  rewrite Hk in *. rewrite py_take_pos, py_drop_pos by lia.
  assert (ztake n (ztake (fs_remaining m) (fs_buffer m ++ concat (pieces (fs_stream m)))) = ztake n buf) as ->.
  { rewrite ztake_ztake, Z.min_l by lia. rewrite <- He, ztake_app. rewrite (ztake_0 (n - zlen buf)) by lia. by rewrite app_nil_r. }
  eexists. split; [done|]. simpl. pose proof (zlen_nonneg (concat ps)). rewrite <- He in *. unfold fs_remaining, fs_get_size in *. simpl in *.
  set (s := if um_size (fs_um m) =? 0 then 0 else um_size (fs_um m)) in *. rewrite zlen_app in *. rewrite zlen_zdrop by lia.
  split; [lia|]. rewrite zdrop_ztake by lia. rewrite zdrop_app, (zdrop_0 (n - zlen buf)) by lia. f_equal. lia.
Qed.

Section Props.
  Context {M : Type} `{ExactReads M}.
  Context (content : bytes) (cs : Z).
  Hypothesis Hcs : 0 < cs.

Abbreviation size := (zlen content).
Abbreviation total := (total_parts size cs).

(** Part [i] of the file. *)
Definition part (i : Z) : bytes := zslice (Z.min (i * cs) size) (Z.min ((i + 1) * cs) size) content.

Lemma total_bounds : 0 <= total /\ size <= total * cs /\ (0 < total -> (total - 1) * cs < size).
Proof.
  pose proof (zlen_nonneg content). unfold total_parts. pose proof (Z.div_mod (size + cs - 1) cs ltac:(lia)).
  pose proof (Z.mod_pos_bound (size + cs - 1) cs Hcs). split; [apply Z.div_pos; lia|]. nia.
Qed.

(** [k] parts are read, the numbers below [n] are taken. *)
Record running (k n : Z) (u : FileUploader M) : Prop := {
  ru_bounds : 0 <= k <= n /\ n <= total;
  ru_size : up_size u = size /\ up_chunk u = cs /\ up_total u = total;
  ru_indexes : up_indexes u = seqZ n (total - n);
  ru_waiting : Forall2 (fun i p => up_workers u !! i = Some (Waiting p)) (up_lock u) (seqZ k (n - k));
  ru_queued : forall i p, up_workers u !! i = Some (Waiting p) -> i ∈ up_lock u;
  ru_read : up_read u = Z.min (k * cs) size;
  ru_msg : readable (up_msg u) /\ rest (up_msg u) = zdrop (Z.min (k * cs) size) content;
  ru_sending : forall i p c a, up_workers u !! i = Some (Sending p c a) -> 0 <= p < k /\ c = part p;
  ru_saved : forall p c, Dict.get p (up_saved u) = Some c -> c = part p;
  ru_owed : forall p, 0 <= p < k -> is_Some (Dict.get p (up_saved u)) \/ exists i c a, up_workers u !! i = Some (Sending p c a);
  ru_done : forall i, up_workers u !! i = Some (Exited true) -> n = total
}.

(** Changing a worker that does not wait for the lock leaves the queue as it is. *)
Lemma waiting_other (u : FileUploader M) i x lock ps :
  Forall2 (fun j p => up_workers u !! j = Some (Waiting p)) lock ps -> (forall p, up_workers u !! i <> Some (Waiting p)) ->
  Forall2 (fun j p => <[i := x]> (up_workers u) !! j = Some (Waiting p)) lock ps.
Proof.
  intros Hw Hi. eapply Forall2_impl; [exact Hw|]. intros j p Hj. simpl in Hj. rewrite list_lookup_insert_ne; [done|].
  intros ->. by apply (Hi p).
Qed.

Lemma lookup_set (l : list worker) i j x y : <[i := x]> l !! j = Some y -> (j = i /\ y = x) \/ (j <> i /\ l !! j = Some y).
Proof.
  destruct (decide (j = i)) as [->|Hne]; [|rewrite list_lookup_insert_ne by done; by right].
  intros Hl. left. split; [done|]. destruct (decide (i < length l)%nat) as [Hlt|Hge].
  - rewrite list_lookup_insert_eq in Hl by done. by injection Hl.
  - rewrite list_insert_ge in Hl by lia. apply lookup_lt_Some in Hl. lia.
Qed.

Lemma lookup_set_other (l : list worker) i j x y : l !! j = Some y -> (forall z, l !! i = Some z -> z <> y) -> <[i := x]> l !! j = Some y.
Proof.
  intros Hj Hi. rewrite list_lookup_insert_ne; [done|]. intros ->. by apply (Hi y).
Qed.

Lemma lookup_set_same (l : list worker) i x z : l !! i = Some z -> <[i := x]> l !! i = Some x.
Proof. intros Hl%lookup_lt_Some. by apply list_lookup_insert_eq. Qed.

Lemma take_running k n u i : running k n u -> up_workers u !! i = Some Free -> forall u',
  up_step (TakeIndex i) u = Some u' -> exists n', running k n' u'.
Proof.
  intros [Hb [Hs [Hc Ht]] Hix Hw Hq Hr Hm Hse Hsa Ho Hd] Hi u'. unfold up_step. destruct (existsb _ _); [done|]. rewrite Hi.
  destruct (up_indexes u) as [|p ps] eqn:Hidx.
  - intros [= <-]. assert (n = total) as Hn.
    { destruct (decide (n = total)); [done|]. rewrite seqZ_cons in Hix by lia. done. }
    exists n. constructor; simpl; try done; [..|].
    + by rewrite Hidx.
    + apply waiting_other; [done|]. intros p. by rewrite Hi.
    + intros j p [[_ ?]|[_ Hj]]%lookup_set; [done|by eapply Hq].
    + intros j p c a [[_ ?]|[_ Hj]]%lookup_set; [done|by eapply Hse].
    + intros p Hp. destruct (Ho p Hp) as [?|(j & c & a & Hj)]; [by left|right]. exists j, c, a.
      apply lookup_set_other; [done|]. rewrite Hi. by intros z [= <-].
  - intros [= <-]. assert (n < total /\ p = n /\ ps = seqZ (n + 1) (total - (n + 1))) as (Hlt & -> & ->).
    { destruct (decide (n < total)) as [Hlt|Hge].
      - rewrite seqZ_cons in Hix by lia. injection Hix as -> ->. split; [done|]. split; [done|]. f_equal; lia.
      - rewrite seqZ_nil in Hix by lia. done. }
    exists (n + 1). constructor; simpl; try done; [..|].
    + lia.
    + replace (n + 1 - k) with (n - k + 1) by lia. rewrite seqZ_app by lia. apply Forall2_app.
      * apply waiting_other; [done|]. intros p. by rewrite Hi.
      * replace (k + (n - k)) with n by lia. simpl. constructor; [|constructor]. by eapply lookup_set_same.
    + intros j p [[-> _]|[_ Hj]]%lookup_set; apply elem_of_app; [right; by apply list_elem_of_singleton|left; by eapply Hq].
    + intros j p c a [[_ ?]|[_ Hj]]%lookup_set; [done|by eapply Hse].
    + intros p Hp. destruct (Ho p Hp) as [?|(j & c & a & Hj)]; [by left|right]. exists j, c, a.
      apply lookup_set_other; [done|]. rewrite Hi. by intros z [= <-].
    + intros j [[_ ?]|[_ Hj]]%lookup_set; [done|]. specialize (Hd j Hj). lia.
Qed.

Lemma waiting_later (ws : list worker) i x k lock ps :
  Forall2 (fun j p => ws !! j = Some (Waiting p)) lock ps -> ws !! i = Some (Waiting k) -> (forall p, p ∈ ps -> p <> k) ->
  Forall2 (fun j p => <[i := x]> ws !! j = Some (Waiting p)) lock ps.
Proof.
  intros Hw Hi. induction Hw as [|j p lock ps Hj Hw IH]; intros Hp; [constructor|]. constructor.
  - apply lookup_set_other; [done|]. rewrite Hi. intros z [= <-] [= ->]. apply (Hp p); [by left|done].
  - apply IH. intros q Hq. apply Hp. by right.
Qed.

Lemma read_running k n u u' : running k n u -> up_step ReadNext u = Some u' -> exists k', running k' n u'.
Proof.
  intros [Hb [Hs [Hc Ht]] Hix Hw Hq Hr [Hm1 Hm2] Hse Hsa Ho Hd]. unfold up_step. destruct (existsb _ _); [done|].
  destruct (up_lock u) as [|i waiters] eqn:Hlock; [done|]. destruct (up_workers u !! i) as [[|p| | |]|] eqn:Hi; try done.
  apply Forall2_cons_inv_l in Hw as (p' & ps & Hp' & Hw & Hseq).
  assert (k < n /\ p' = k /\ ps = seqZ (k + 1) (n - (k + 1))) as (Hkn & -> & ->).
  { destruct (decide (k < n)) as [Hlt|Hge]; [|by rewrite seqZ_nil in Hseq by lia].
    rewrite seqZ_cons in Hseq by lia. injection Hseq as <- <-. split; [done|]. split; [done|]. f_equal; lia. }
  simpl in Hp'. rewrite Hi in Hp'. injection Hp' as ->. destruct total_bounds as (Htb1 & Htb2 & Htb3).
  assert (k * cs < size) as Hks by nia. unfold done_reading. simpl. rewrite Hr, Hs, Hc. rewrite (proj2 (Z.leb_gt _ _)) by lia.
  assert (Z.min (k * cs) size = k * cs) as Hmin by lia. rewrite Hmin in Hm2 |- *. set (len := Z.min (size - k * cs) cs).
  destruct (exact_read (up_msg u) len Hm1 ltac:(lia) ltac:(rewrite Hm2, zlen_zdrop by nia; lia)) as (m' & -> & Hm1' & Hm2').
  intros [= <-]. assert (Z.min ((k + 1) * cs) size = k * cs + len) as Hnext by (unfold len; lia).
  assert (ztake len (rest (up_msg u)) = part k) as Hpart.
  { rewrite Hm2. unfold part. rewrite Hnext, Z.min_l by lia. rewrite zslice_spec. f_equal. lia. }
  exists (k + 1). constructor; simpl; try done.
  - lia.
  - eapply waiting_later; [exact Hw|exact Hi|]. intros p Hp%elem_of_seqZ. lia.
  - intros j p [[_ ?]|[Hne Hj]]%lookup_set; [done|]. specialize (Hq j p Hj). by apply elem_of_cons in Hq as [?|?].
  - rewrite Hnext. split; [done|]. rewrite Hm2', Hm2, zdrop_zdrop by lia. done.
  - rewrite Hpart. intros j p c a [[_ [= -> -> _]]|[_ Hj]]%lookup_set; [split; [lia|done]|]. specialize (Hse _ _ _ _ Hj). split; [lia|tauto].
  - intros p Hp. destruct (decide (p = k)) as [->|Hne].
    + right. exists i, (ztake len (rest (up_msg u))), 1. by eapply lookup_set_same.
    + destruct (Ho p ltac:(lia)) as [?|(j & c & a & Hj)]; [by left|right]. exists j, c, a.
      apply lookup_set_other; [done|]. rewrite Hi. by intros z [= <-].
  - intros j [[_ ?]|[_ Hj]]%lookup_set; [done|by eapply Hd].
Qed.

(** Events that touch neither the message nor the queue. *)
Lemma saved_running k n u i p c a : running k n u -> up_workers u !! i = Some (Sending p c a) -> running k n (set_worker i Free (save_part p c u)).
Proof.
  intros [Hb Hs Hix Hw Hq Hr Hm Hse Hsa Ho Hd] Hi. destruct (Hse _ _ _ _ Hi) as [Hp ->]. constructor; simpl; try done.
  - apply waiting_other; [done|]. intros q. by rewrite Hi.
  - intros j q [[_ ?]|[_ Hj]]%lookup_set; [done|by eapply Hq].
  - intros j q c b [[_ ?]|[_ Hj]]%lookup_set; [done|by eapply Hse].
  - intros q c Hg. destruct (decide (q = p)) as [->|Hne]; [rewrite Dict.get_set_eq in Hg; by injection Hg|].
    rewrite Dict.get_set_ne in Hg by done. by apply Hsa.
  - intros q Hq'. destruct (decide (q = p)) as [->|Hne]; [left; by rewrite Dict.get_set_eq|]. rewrite Dict.get_set_ne by done.
    destruct (Ho q Hq') as [?|(j & c & b & Hj)]; [by left|right]. exists j, c, b. apply lookup_set_other; [done|]. rewrite Hi.
    intros z [= <-] [= -> _ _]. done.
  - intros j [[_ ?]|[_ Hj]]%lookup_set; [done|by eapply Hd].
Qed.

Lemma retried_running k n u i p c a : running k n u -> up_workers u !! i = Some (Sending p c a) -> running k n (set_worker i (Sending p c (a + 1)) u).
Proof.
  intros [Hb Hs Hix Hw Hq Hr Hm Hse Hsa Ho Hd] Hi. constructor; simpl; try done.
  - apply waiting_other; [done|]. intros q. by rewrite Hi.
  - intros j q [[_ ?]|[_ Hj]]%lookup_set; [done|by eapply Hq].
  - intros j q c' b [[_ [= -> -> _]]|[_ Hj]]%lookup_set; by eapply Hse.
  - intros q Hq'. destruct (Ho q Hq') as [?|(j & c' & b & Hj)]; [by left|right]. destruct (decide (j = i)) as [->|Hne].
    + rewrite Hi in Hj. injection Hj as -> -> ->. exists i, c', (b + 1). by eapply lookup_set_same.
    + exists j, c', b. by rewrite list_lookup_insert_ne.
  - intros j [[_ ?]|[_ Hj]]%lookup_set; [done|by eapply Hd].
Qed.

Lemma cancelled_running k n u i : running k n u -> up_workers u !! i = Some Free -> running k n (set_worker i (Exited false) u).
Proof.
  intros [Hb Hs Hix Hw Hq Hr Hm Hse Hsa Ho Hd] Hi. constructor; simpl; try done.
  - apply waiting_other; [done|]. intros q. by rewrite Hi.
  - intros j q [[_ ?]|[_ Hj]]%lookup_set; [done|by eapply Hq].
  - intros j q c' b [[_ ?]|[_ Hj]]%lookup_set; [done|by eapply Hse].
  - intros q Hq'. destruct (Ho q Hq') as [?|(j & c' & b & Hj)]; [by left|right]. exists j, c', b.
    apply lookup_set_other; [done|]. rewrite Hi. by intros z [= <-].
  - intros j [[_ ?]|[_ Hj]]%lookup_set; [done|by eapply Hd].
Qed.

(** A run is under way, or a worker crashed and nothing happens any more. *)
Definition up_inv (u : FileUploader M) : Prop := (exists k n, running k n u) \/ existsb is_crashed (up_workers u) = true.

Lemma crashed_inv i ex u x : up_workers u !! i = Some x -> up_inv (set_worker i (Crashed ex) u).
Proof.
  intros Hi. right. simpl. apply existsb_exists. exists (Crashed ex). split; [|done]. apply list_elem_of_In.
  eapply list_elem_of_lookup_2. by eapply lookup_set_same.
Qed.

Lemma step_inv e u u' : up_inv u -> up_step e u = Some u' -> up_inv u'.
Proof.
  intros [(k & n & Hr)|Hc] Hs; [|unfold up_step in Hs; by rewrite Hc in Hs]. destruct e as [i|i| |i|i ex].
  - assert (up_workers u !! i = Some Free) as Hi by (unfold up_step in Hs; destruct (existsb _ _); [done|]; by destruct (up_workers u !! i) as [[]|]).
    destruct (take_running k n u i Hr Hi u' Hs) as [n' Hr']. left. by exists k, n'.
  - unfold up_step in Hs. destruct (existsb _ _); [done|]. destruct (up_workers u !! i) as [[]|] eqn:Hi; try done. injection Hs as <-.
    left. exists k, n. by apply cancelled_running.
  - destruct (read_running k n u u' Hr Hs) as [k' Hr']. left. by exists k', n.
  - unfold up_step in Hs. destruct (existsb _ _); [done|]. destruct (up_workers u !! i) as [[]|] eqn:Hi; try done. injection Hs as <-.
    left. exists k, n. by eapply saved_running.
  - unfold up_step in Hs. destruct (existsb _ _); [done|]. destruct (up_workers u !! i) as [[| |p c a| |]|] eqn:Hi; try done.
    destruct (is_Exception ex); [|done]. injection Hs as <-. destruct (a =? MAX_PART_ATTEMPTS); [by eapply crashed_inv|].
    left. exists k, n. by eapply retried_running.
Qed.

Lemma run_inv es : forall u u', up_inv u -> up_run es u = Some u' -> up_inv u'.
Proof.
  induction es as [|e es IH]; intros u u' Hi; simpl; [by intros [= <-]|]. destruct (up_step e u) as [u1|] eqn:Hs; [|done].
  intros Hr. eapply IH; [by eapply step_inv|done].
Qed.

Lemma init_running m small big : readable m -> rest m = content -> get_size m = size -> running 0 0 (file_uploader m cs small big).
Proof.
  intros Hm Hc Hs. pose proof (zlen_nonneg content). destruct total_bounds as (? & _ & _).
  assert (forall n i w, replicate n Free !! i = Some w -> w = Free) as Hfree by (by intros n i w [-> _]%lookup_replicate).
  constructor; unfold file_uploader; simpl; rewrite ?Hs; try done; try (intros; exfalso; lia).
  - f_equal. lia.
  - intros i p Hi. by apply Hfree in Hi.
  - lia.
  - split; [done|]. rewrite Hc. by rewrite zdrop_0 by lia.
  - intros i p c a Hi. by apply Hfree in Hi.
  - intros i Hi. by apply Hfree in Hi.
Qed.

(** The parts put together are the file. *)
Lemma parts_content n : forall i, 0 <= i -> i + Z.of_nat n <= total ->
  concat (map part (seqZ i (Z.of_nat n))) = zslice (Z.min (i * cs) size) (Z.min ((i + Z.of_nat n) * cs) size) content.
Proof.
  pose proof (zlen_nonneg content). induction n as [|n IH]; intros i Hi Hn.
  - simpl. rewrite Z.add_0_r. by rewrite zslice_nil by lia.
  - rewrite seqZ_cons by lia. simpl map. simpl concat. replace (Z.pred (Z.of_nat (S n))) with (Z.of_nat n) by lia.
    replace (Z.succ i) with (i + 1) by lia. rewrite IH by lia. unfold part. replace (i + Z.of_nat (S n)) with (i + 1 + Z.of_nat n) by lia.
    symmetry. apply zslice_split; nia.
Qed.

Lemma all_saved (u : FileUploader M) : (forall p, 0 <= p < total -> Dict.get p (up_saved u) = Some (part p)) -> up_total u = total -> assembled u = Some content.
Proof.
  intros Hs Ht. unfold assembled. rewrite Ht. destruct total_bounds as (Hb & Hle & _).
  assert (mapM (fun p => Dict.get p (up_saved u)) (seqZ 0 total) = Some (map part (seqZ 0 total))) as ->.
  { apply mapM_Some, Forall2_fmap_r. apply Forall_Forall2_diag, Forall_forall. intros p Hp%elem_of_seqZ. apply Hs. lia. }
  simpl. f_equal. replace total with (Z.of_nat (Z.to_nat total)) by lia. rewrite parts_content by lia.
  rewrite Z2Nat.id by lia. rewrite Z.min_l by (pose proof (zlen_nonneg content); lia). rewrite Z.min_r by lia. apply zslice_full.
Qed.


(** ** Every run ends *)

Definition weight (x : worker) : Z :=
  match x with Free => 1 | Waiting _ => 7 | Sending _ _ a => MAX_PART_ATTEMPTS - a + 2 | Exited _ | Crashed _ => 0 end.

Definition up_measure (u : FileUploader M) : Z := 8 * zlen (up_indexes u) + zsum (map weight (up_workers u)).

(** No part is tried more often than the limit. *)
Definition attempts_ok (u : FileUploader M) : Prop :=
  Forall (fun x => match x with Sending _ _ a => 1 <= a <= MAX_PART_ATTEMPTS | _ => True end) (up_workers u).

Lemma weight_set (l : list worker) i x y : l !! i = Some x -> zsum (map weight (<[i := y]> l)) = zsum (map weight l) - weight x + weight y.
Proof.
  revert i. induction l as [|z l IH]; intros [|i] Hl; simpl in Hl; try done; simpl.
  - injection Hl as ->. unfold zsum. simpl. lia.
  - specialize (IH i Hl). unfold zsum in *. simpl. lia.
Qed.

Lemma attempts_set (l : list worker) i x : Forall (fun x => match x with Sending _ _ a => 1 <= a <= MAX_PART_ATTEMPTS | _ => True end) l ->
  match x with Sending _ _ a => 1 <= a <= MAX_PART_ATTEMPTS | _ => True end ->
  Forall (fun x => match x with Sending _ _ a => 1 <= a <= MAX_PART_ATTEMPTS | _ => True end) (<[i := x]> l).
Proof. intros Hl Hx. by apply Forall_insert. Qed.

Lemma step_measure e u u' : attempts_ok u -> up_step e u = Some u' -> attempts_ok u' /\ up_measure u' < up_measure u.
Proof.
  unfold attempts_ok, up_measure, up_step. intros Ha. destruct (existsb _ _); [done|]. destruct e as [i|i| |i|i ex].
  - destruct (up_workers u !! i) as [[]|] eqn:Hi; try done. destruct (up_indexes u) as [|p ps] eqn:Hx; intros [= <-]; simpl.
    + split; [by apply attempts_set|]. rewrite (weight_set _ _ _ _ Hi), Hx. simpl. lia.
    + split; [by apply attempts_set|]. rewrite (weight_set _ _ _ _ Hi), zlen_cons. simpl. lia.
  - destruct (up_workers u !! i) as [[]|] eqn:Hi; try done. intros [= <-]. simpl. split; [by apply attempts_set|].
    rewrite (weight_set _ _ _ _ Hi). simpl. lia.
  - destruct (up_lock u) as [|i waiters]; [done|]. destruct (up_workers u !! i) as [[]|] eqn:Hi; try done.
    destruct (done_reading _).
    + intros [= <-]. simpl. split; [by apply attempts_set|]. rewrite (weight_set _ _ _ _ Hi). simpl. lia.
    + destruct (um_read _ _) as [[c|ex] m]; intros [= <-]; simpl; (split; [apply attempts_set; [done|unfold MAX_PART_ATTEMPTS; try lia; done]|]);
        rewrite (weight_set _ _ _ _ Hi); simpl; unfold MAX_PART_ATTEMPTS; lia.
  - destruct (up_workers u !! i) as [[| |p c a| |]|] eqn:Hi; try done. intros [= <-]. simpl. split; [by apply attempts_set|].
    rewrite (weight_set _ _ _ _ Hi). pose proof (Forall_lookup_1 _ _ _ _ Ha Hi) as Hb. simpl in *. lia.
  - destruct (up_workers u !! i) as [[| |p c a| |]|] eqn:Hi; try done. destruct (is_Exception ex); [|done]. intros [= <-]. simpl.
    pose proof (Forall_lookup_1 _ _ _ _ Ha Hi) as Hb. simpl in Hb. destruct (Z.eqb_spec a MAX_PART_ATTEMPTS).
    + split; [by apply attempts_set|]. rewrite (weight_set _ _ _ _ Hi). simpl. lia.
    + split; [apply attempts_set; [done|lia]|]. rewrite (weight_set _ _ _ _ Hi). simpl. lia.
Qed.

Lemma measure_nonneg u : attempts_ok u -> 0 <= up_measure u.
Proof.
  unfold attempts_ok, up_measure. intros Ha. pose proof (zlen_nonneg (up_indexes u)).
  assert (0 <= zsum (map weight (up_workers u))); [|lia]. apply zsum_nonneg, Forall_map.
  apply (Forall_impl _ _ _ Ha). intros []; simpl; lia.
Qed.

Lemma run_measure es : forall u u', attempts_ok u -> up_run es u = Some u' -> attempts_ok u' /\ zlen es <= up_measure u - up_measure u'.
Proof.
  induction es as [|e es IH]; intros u u' Ha; simpl; [intros [= <-]; split; [done|rewrite zlen_nil; lia]|].
  destruct (up_step e u) as [u1|] eqn:Hs; [|done]. intros Hr. destruct (step_measure e u u1 Ha Hs) as [Ha1 Hm].
  destruct (IH u1 u' Ha1 Hr) as [Ha2 Hl]. split; [done|]. rewrite zlen_cons. lia.
Qed.

Lemma weight_free n : zsum (map weight (replicate n Free)) = Z.of_nat n.
Proof. induction n as [|n IH]; [done|]. simpl. unfold zsum in *. simpl. rewrite IH. lia. Qed.

(** An upload ends: no run has more events than eight for each part and
    one for each worker, whatever fails; and as long as some worker has not
    come to its end and none crashed, there is a next event. *)
Theorem upload_ends m small big es u :
  readable m -> rest m = content -> get_size m = size ->
  up_run es (file_uploader m cs small big) = Some u ->
  zlen es <= 8 * total + Z.max 0 (if is_big_file size then big else small) /\
  (existsb is_crashed (up_workers u) = false -> forallb is_exited (up_workers u) = false -> exists e u', up_step e u = Some u').
Proof.
  intros Hm Hc Hs Hrun. split.
  - assert (attempts_ok (file_uploader m cs small big)) as Ha by (unfold attempts_ok; simpl; by apply Forall_replicate).
    destruct (run_measure es _ _ Ha Hrun) as [Ha' Hl]. pose proof (measure_nonneg u Ha') as Hn.
    assert (up_measure (file_uploader m cs small big) = 8 * total + Z.max 0 (if is_big_file size then big else small)); [|lia].
    unfold up_measure. simpl. rewrite weight_free, Hs. destruct total_bounds as (Ht & _). unfold zlen at 1. rewrite length_seqZ. lia.
  - intros Hcr Hex. destruct (run_inv es _ _ (or_introl (ex_intro _ 0 (ex_intro _ 0 (init_running m small big Hm Hc Hs)))) Hrun) as [(k & n & Hr)|?]; [|congruence].
    assert (exists i x, up_workers u !! i = Some x /\ is_exited x = false) as (i & x & Hi & Hx).
    { clear -Hex. induction (up_workers u) as [|x l IH]; [done|]. simpl in Hex. destruct (is_exited x) eqn:Hx; [|by exists 0%nat, x].
      destruct (IH Hex) as (i & y & ? & ?). by exists (S i), y. }
    assert (is_crashed x = false) as Hxc.
    { destruct (is_crashed x) eqn:He; [|done]. exfalso. enough (existsb is_crashed (up_workers u) = true) by congruence.
      apply existsb_exists. exists x. split; [by apply list_elem_of_In; eapply list_elem_of_lookup_2|done]. }
    destruct x as [|p|p c a|b|ex]; try done.
    + exists (TakeIndex i). unfold up_step. rewrite Hcr, Hi. destruct (up_indexes u); by eexists.
    + pose proof (ru_queued _ _ _ Hr i p Hi) as Hq. pose proof (ru_waiting _ _ _ Hr) as Hw. exists ReadNext. unfold up_step. rewrite Hcr.
      destruct (up_lock u) as [|j js]; [by apply not_elem_of_nil in Hq|]. apply Forall2_cons_inv_l in Hw as (q & qs & Hj & _). rewrite Hj.
      destruct (done_reading _); [by eexists|]. destruct (um_read _ _) as [[?|?] ?]; by eexists.
    + exists (Saved i). unfold up_step. rewrite Hcr, Hi. by eexists.
Qed.

End Props.

(** ** Examples *)

Definition demo_text : bytes := replicate 5 Byte.x61 ++ [Byte.x62].
Definition demo_open : FileMessageFromBuffer := (fb_open (buffer_message demo_text "a")).2.
Definition demo_upload : FileUploader FileMessageFromBuffer := file_uploader demo_open 4 2 8.

(** Two workers out of step: the second part is saved before the first. *)
Definition demo_events : list up_event :=
  [TakeIndex 0; TakeIndex 1; ReadNext; SaveFails 0 (RPCError "flood"); ReadNext; Saved 1; TakeIndex 1; Saved 0; TakeIndex 0].


Lemma upload_ends_witness : exists u, up_run demo_events demo_upload = Some u /\ zlen demo_events <= 8 * 2 + 2.
Proof.
  destruct (up_run demo_events demo_upload) as [u|] eqn:Hr; [|vm_compute in Hr; discriminate].
  exists u. split; [done|].
  exact (proj1 (upload_ends demo_text 4 ltac:(lia) demo_open 2 8 demo_events u I eq_refl eq_refl Hr)).
Defined.

(** A cancelled upload returns the full size with nothing saved; no exception
    tells it from a complete one. *)
Example cancelled_upload_returns_size :
  match up_run [SeeCancelled 0; SeeCancelled 1] demo_upload with
  | Some u => up_result u = Some (Ok 6) /\ up_saved u = []
  | None => False
  end.
Proof. by vm_compute. Qed.
