(* ===== verification/DiscordStoreProps.v ===== *)
(** * What is kept in a Discord channel

    [DiscordLaws] is what the server promises while it is [calm]: a message
    is what was sent or last edited, only its author edits it, an attachment
    is delivered whole or, when the CDN honours the request, in the range
    asked for.  On it the texts and files of the store are kept. *)

From stdpp Require Import pretty.
From S2P Require Import Prelude Errors StoreKey Messages FileVersion ChunkCache Telethon DiscordStore UploaderProps.

Open Scope Z_scope.
Open Scope py_scope.

Record Post := { po_text : string; po_files : list bytes; po_author : Z }.

(** [post t c m]: the message on the server; [serves t url b]: the signed
    address of an attachment is valid and has the bytes [b]. *)
Class DiscordView (D : Type) := {
  post : D -> Z -> Z -> option Post;
  serves : D -> string -> bytes -> Prop;
  calm : D -> Prop;
  sayable : string -> Prop                       (* texts Discord keeps as they are *)
}.

Record same {D} `{DiscordView D} (t t' : D) : Prop := {
  same_post : forall c m, post t' c m = post t c m;
  same_calm : calm t'
}.

(** [t'] is [t] with message [m] replaced. *)
Record replaced_in {D} `{DiscordView D} (c m : Z) (p : Post) (t t' : D) : Prop := {
  rep_post : post t' c m = Some p;
  rep_others : forall c' m', (c', m') <> (c, m) -> post t' c' m' = post t c' m';
  rep_calm : calm t'
}.

(** The message the library returns for a post. *)
Record shows {D} `{DiscordView D} (t : D) (mid : Z) (p : Post) (m : DcMessage) : Prop := {
  sh_id : dm_id m = mid;
  sh_text : dm_content m = po_text p;
  sh_author : dm_author m = po_author p;
  sh_files : Forall2 (fun a b => at_size a = zlen b /\ serves t (at_url a) b) (dm_attachments m) (po_files p)
}.

Definition file_of (f : option (bytes * string)) : list bytes := match f with Some (b, _) => [b] | None => [] end.

Class DiscordLaws (D : Type) `{DiscordLib D} `{DiscordView D} := {
  fetch_channel_law : forall bot c t, calm t -> dl_get_channel bot c t = false ->
    exists t', dl_fetch_channel bot c t = (Ok tt, t') /\ same t t';
  fetch_message_law : forall bot c mid t, calm t ->
    let '(r, t') := dl_fetch_message bot c mid t in
    same t t' /\
    match post t c mid with
    | None => exists code, r = Raise (HTTPException 404 code)
    | Some p => exists m, r = Ok m /\ shows t' mid p m
    end;
  http_get_law : forall bot url range b t, calm t -> serves t url b ->
    exists status s t', dl_get bot url range t = (Ok (status, s), t') /\ same t t' /\ status < 400 /\ fault s = None /\
      match range with
      | None => stream_bytes s = b
      | Some (x, y) => stream_bytes s = if status =? 206 then zslice x (y + 1) b else b
      end;
  send_law : forall bot c text file author t, calm t -> sayable (default EmptyString text) -> dl_user bot = Some author ->
    exists mid t', dl_send bot c text file t = (Ok mid, t') /\ post t c mid = None /\
      replaced_in c mid {| po_text := default EmptyString text; po_files := file_of file; po_author := author |} t t';
  edit_law : forall bot c mid text files p t, calm t -> sayable (default EmptyString text) -> post t c mid = Some p ->
    if bool_decide (dl_user bot = Some (po_author p)) then
      exists t', dl_edit bot c mid text files t = (Ok tt, t') /\
        replaced_in c mid {| po_text := default EmptyString text; po_files := map fst files; po_author := po_author p |} t t'
    else exists t', dl_edit bot c mid text files t = (Raise (HTTPException 403 CANNOT_EDIT_FOREIGN_MESSAGE), t') /\ same t t'
}.

Section Client.
  Context {D : Type} `{DiscordLaws D}.

Lemma same_refl (t : D) : calm t -> same t t.
Proof. by split. Qed.

#[export] Instance same_trans : Transitive (same (D := D)).
Proof. intros t1 t2 t3 [a1 a2] [b1 b2]. split; [|done]. intros c m. by rewrite b1. Qed.

Lemma replaced_same c m p (t t1 t2 : D) : same t t1 -> replaced_in c m p t1 t2 -> replaced_in c m p t t2.
Proof. intros [Hp _] [Hc Ho Hk]. split; [done| |done]. intros c' m' Hne. by rewrite Ho. Qed.

Lemma dc_channel_spec bot c (t : D) : calm t -> exists t', dc_channel bot c t = (Ok tt, t') /\ same t t'.
Proof.
  intros Hc. unfold dc_channel. destruct (dl_get_channel bot c t) eqn:Hg; [exists t; split; [done|by apply same_refl]|].
  destruct (fetch_channel_law bot c t Hc Hg) as (t' & He & Hs). exists t'. unfold stry. by rewrite He.
Qed.

Lemma dc_fetch_spec bot c mid (t : D) : calm t ->
  exists t', same t t' /\
  match post t c mid with
  | None => dc_fetch bot c mid t = (Raise (MessageNotFound mid), t')
  | Some p => exists m, dc_fetch bot c mid t = (Ok m, t') /\ shows t' mid p m
  end.
Proof.
  intros Hc. unfold dc_fetch, sbind, stry. destruct (dc_channel_spec bot c t Hc) as (t1 & -> & Hs1).
  pose proof (fetch_message_law bot c mid t1 (same_calm _ _ Hs1)) as Hf. rewrite (same_post _ _ Hs1) in Hf.
  destruct (dl_fetch_message bot c mid t1) as [r t2]. destruct Hf as [Hs2 Hr]. exists t2. split; [by etrans|].
  destruct (post t c mid) as [p|]; [destruct Hr as (m & -> & Hm); by exists m|]. by destruct Hr as (code & ->).
Qed.

(** ** Downloads *)

(** The range, cut out of an answer that ignored it. *)
Lemma cut_range_spec begin size chunks : forall skipped delivered,
  0 <= skipped -> skipped <= begin -> delivered < size ->
  let '(out, stop) := cut_range begin size skipped delivered chunks in
  concat out = ztake (size - delivered) (zdrop (begin - skipped) (concat chunks)).
Proof.
  induction chunks as [|chunk chunks IH]; intros skipped delivered H1' H2' H3'; cbn [cut_range].
  - simpl. unfold ztake, zdrop. by rewrite drop_nil, take_nil.
  - set (n := if skipped <? begin then _ else 0).
    assert (0 <= n <= begin - skipped /\ n <= zlen chunk /\ (n < begin - skipped -> n = zlen chunk)) as (Hn1 & Hn2 & Hn3).
    { pose proof (zlen_nonneg chunk). unfold n. destruct (Z.ltb_spec skipped begin); lia. }
    assert (zdrop (begin - skipped) (concat (chunk :: chunks)) = zdrop n chunk ++ zdrop (begin - skipped - n) (concat chunks)) as ->.
    { simpl. rewrite zdrop_app. destruct (decide (n < begin - skipped)) as [Hlt|Hge].
      - rewrite (zdrop_ge n), (zdrop_ge (begin - skipped)) by lia. f_equal. f_equal. lia.
      - replace n with (begin - skipped) by lia. rewrite (zdrop_0 (begin - skipped - zlen chunk)), (zdrop_0 (_ - _ - _)) by lia. done. }
    destruct (zdrop n chunk) as [|x l] eqn:Hd; cbn [nonempty negb].
    + specialize (IH (skipped + n) delivered ltac:(lia) ltac:(lia) H3').
      destruct (cut_range begin size (skipped + n) delivered chunks) as [out stop]. rewrite IH. simpl. do 2 f_equal. lia.
    + rewrite <- Hd. assert (0 < zlen (zdrop n chunk)) as Hpos by (rewrite Hd, zlen_cons; pose proof (zlen_nonneg l); lia).
      assert (begin - skipped - n = 0) as Hz.
      { rewrite zlen_zdrop in Hpos by lia. destruct (decide (n < begin - skipped)) as [Hlt|]; [specialize (Hn3 Hlt)|]; lia. }
      set (tk := Z.min (zlen (zdrop n chunk)) (size - delivered)). rewrite (proj2 (Z.leb_gt tk 0)) by lia. rewrite Hz, (zdrop_0 0) by lia.
      rewrite ztake_app.
      destruct (Z.leb_spec size (delivered + tk)) as [Hle|Hgt].
      * simpl. rewrite app_nil_r. rewrite (ztake_0 (size - delivered - _)) by lia. rewrite app_nil_r. f_equal. lia.
      * specialize (IH (skipped + n) (delivered + tk) ltac:(lia) ltac:(lia) ltac:(lia)).
        destruct (cut_range begin size (skipped + n) (delivered + tk) chunks) as [out stop]. simpl. rewrite IH.
        replace (begin - (skipped + n)) with 0 by lia. rewrite (zdrop_0 0) by lia.
        rewrite (ztake_ge tk), (ztake_ge (size - delivered) (zdrop n chunk)) by lia. f_equal. f_equal. lia.
Qed.

(** The last byte a request asks for. *)
Definition last_byte_of (b : bytes) (last : Z) : Z := if (last <? 0) || (zlen b <=? last) then zlen b - 1 else last.

Lemma bot_download_spec bot c mid p b files begin last (t : D) :
  calm t -> post t c mid = Some p -> po_files p = b :: files -> 0 <= begin -> begin <= last_byte_of b last ->
  exists s t', bot_download bot c mid begin last t = (Ok (s, last_byte_of b last - begin + 1), t') /\ same t t' /\
    fault s = None /\ stream_bytes s = zslice begin (last_byte_of b last + 1) b.
Proof.
  intros Hc Hp Hb H1' H2'. unfold bot_download, sbind. destruct (dc_fetch_spec bot c mid t Hc) as (t1 & Hs1 & Hf). rewrite Hp in Hf.
  destruct Hf as (m & -> & [_ _ _ Hatt]). rewrite Hb in Hatt. destruct (dm_attachments m) as [|a atts]; [by apply Forall2_nil_inv_l in Hatt|].
  apply Forall2_cons_1 in Hatt as [[Hsize Hserves] _]. rewrite Hsize. fold (last_byte_of b last). set (l := last_byte_of b last) in *.
  assert (l < zlen b) as Hl by (unfold l, last_byte_of; destruct (Z.ltb_spec last 0), (Z.leb_spec (zlen b) last); simpl; lia).
  rewrite (proj2 (Z.ltb_ge _ _)) by lia. set (wants := (0 <? begin) || (l <? zlen b - 1)).
  destruct (http_get_law bot (at_url a) (if wants then Some (begin, l) else None) b t1 (same_calm _ _ Hs1) Hserves)
    as (status & s & t2 & -> & Hs2 & Hst & Hfl & Hbytes). rewrite (proj2 (Z.leb_gt _ _)) by lia.
  assert (same t t2) as Hs by (by etrans). destruct wants eqn:Hw; cbn [negb orb].
  - destruct (status =? 206); [by exists s, t2|].
    pose proof (cut_range_spec begin (l - begin + 1) (pieces s) 0 0 ltac:(lia) ltac:(lia) ltac:(lia)) as Hcut.
    destruct (cut_range begin (l - begin + 1) 0 0 (pieces s)) as [out stop].
    eexists _, t2. split; [done|]. split; [done|]. simpl. split; [by destruct stop|]. unfold stream_bytes in *. simpl. rewrite Hcut, Hbytes.
    rewrite zslice_spec. f_equal; [lia|f_equal; lia].
  - exists s, t2. split; [done|]. split; [done|]. split; [done|]. rewrite Hbytes. unfold wants in Hw. apply orb_false_iff in Hw as [Hw1 Hw2].
    apply Z.ltb_ge in Hw1, Hw2. replace begin with 0 by lia. replace (l + 1) with (zlen b) by lia. by rewrite zslice_full.
Qed.

End Client.

(** ** Texts and files of the Discord store *)

Section Store.
  Context {D : Type} `{DiscordLaws D} (k : DcConfig).
  Context (encode : string -> bytes) (decode : bytes -> exc string) (text_len : string -> Z).
  Hypothesis Hbots : dk_bots k <> 0%nat.
  Hypothesis Hretries : dk_max_retries k <> 0%nat.
  Hypothesis Husers : forall bot, (bot < dk_bots k)%nat -> exists author, dl_user (D := D) bot = Some author.

Abbreviation channel := (dk_channel k).

(** The text a message stands for. *)
Definition text_of (p : Post) : exc string :=
  match po_files p with
  | b :: _ => if bool_decide (po_text p = OVERFLOW_CAPTION) then decode b else Ok (po_text p)
  | [] => Ok (po_text p)
  end.

(** The server answers, and the cached texts are those of the messages. *)
Record dc_ok (w : Dc D) : Prop := {
  do_calm : calm (dc_server w);
  do_ids : mc_ok (dc_ids w);
  do_authors : mc_ok (dc_authors w);
  do_true : mc_all (fun mid m => exists p, post (dc_server w) channel mid = Some p /\ text_of p = Ok (tm_text m)) (dc_ids w)
}.

Lemma dc_ok_same t w : dc_ok w -> same (dc_server w) t -> dc_ok (dc_set_server t w).
Proof.
  intros [? ? ? Ht] [Hp Hc]. split; [done|done|done|]. eapply mc_all_weaken; [|exact Ht]. intros mid m (p & Hpp & Hm).
  exists p. simpl. by rewrite Hp.
Qed.

Lemma dc_ok_cycle n w : dc_ok w -> dc_ok {| dc_server := dc_server w; dc_ids := dc_ids w; dc_cycle := n; dc_authors := dc_authors w |}.
Proof. by intros []. Qed.

Lemma dc_ok_authors c w : dc_ok w -> mc_ok c -> dc_ok (dc_set_authors c w).
Proof. by intros [] ?. Qed.

(** The next bot of the pool. *)
Lemma dc_next_bot_spec (w : Dc D) : exists bot author,
  dc_next_bot k w = (Ok bot, {| dc_server := dc_server w; dc_ids := dc_ids w; dc_cycle := S (dc_cycle w); dc_authors := dc_authors w |}) /\
  (bot < dk_bots k)%nat /\ dl_user (D := D) bot = Some author.
Proof.
  pose proof (Nat.mod_upper_bound (dc_cycle w) (dk_bots k) Hbots) as Hb. destruct (Husers _ Hb) as [author Ha].
  by exists (dc_cycle w mod dk_bots k)%nat, author.
Qed.

Lemma retry_ok {A} (action : st exn (Dc D) A) w a w' : action w = (Ok a, w') -> dc_retry k action w = (Ok a, w').
Proof. intros He. unfold dc_retry. destruct (dk_max_retries k); [done|]. simpl. unfold stry. by rewrite He. Qed.

Lemma retry_raise {A} (action : st exn (Dc D) A) w x w' : action w = (Raise x, w') -> is_transient x = false -> dc_retry k action w = (Raise x, w').
Proof. intros He Hx. unfold dc_retry. destruct (dk_max_retries k); [done|]. simpl. unfold stry. by rewrite He, Hx. Qed.

(** ** Reading a message *)

Lemma bot_get_message_spec bot mid p (t : D) : calm t -> post t channel mid = Some p ->
  exists m t', bot_get_messages bot channel [mid] t = (Ok [Some m], t') /\ same t t' /\ tm_id m = mid /\ tm_text m = po_text p /\
    (tm_document m = None <-> po_files p = []) /\ (forall d, tm_document m = Some d -> exists b bs, po_files p = b :: bs /\ doc_size d = zlen b).
Proof.
  intros Hc Hp. cbn [bot_get_messages]. unfold bot_get_message, sbind, stry. destruct (dc_fetch_spec bot channel mid t Hc) as (t1 & Hs & Hf).
  rewrite Hp in Hf. destruct Hf as (m & -> & [Hid Htext _ Hfiles]). exists (to_message_resp m), t1. split; [done|]. split; [done|].
  unfold to_message_resp. simpl. split; [done|]. split; [done|].
  destruct (dm_attachments m) as [|a atts]; [apply Forall2_nil_inv_l in Hfiles; by rewrite Hfiles|].
  destruct (po_files p) as [|b bs]; [by inversion Hfiles|]. apply Forall2_cons_1 in Hfiles as [[Hsz _] _].
  split; [done|]. intros d [= <-]. by exists b, bs.
Qed.

Lemma resolve_spec mid p text m w : dc_ok w -> post (dc_server w) channel mid = Some p -> text_of p = Ok text ->
  tm_id m = mid -> tm_text m = po_text p -> (tm_document m = None <-> po_files p = []) ->
  (forall b bs, po_files p = b :: bs -> po_text p = OVERFLOW_CAPTION -> 0 < zlen b) ->
  exists m' w', dc_resolve_overflow k decode m w = (Ok m', w') /\ tm_text m' = text /\ dc_ok w' /\ dc_ids w' = dc_ids w /\
    same (dc_server w) (dc_server w').
Proof.
  intros Hok Hp Htx Hid Hmt Hdoc Hne. unfold dc_resolve_overflow, text_of in *. pose proof (same_refl _ (do_calm _ Hok)) as Hsame.
  destruct (tm_document m) as [d|] eqn:Hd.
  2: { rewrite (proj1 Hdoc eq_refl) in Htx. injection Htx as <-. by exists m, w. }
  destruct (po_files p) as [|b bs] eqn:Hf; [by destruct Hdoc as [_ ?%(fun f => f eq_refl)]|]. rewrite Hmt.
  destruct (bool_decide (po_text p = OVERFLOW_CAPTION)) eqn:Hcap; cbn [negb]; [|injection Htx as <-; by exists m, w].
  apply bool_decide_eq_true in Hcap. unfold sbind. destruct (dc_next_bot_spec w) as (bot & author & -> & _ & _). unfold on_server. cbn [dc_server].
  specialize (Hne b bs eq_refl Hcap).
  destruct (bot_download_spec bot channel mid p b bs 0 (-1) (dc_server w) (do_calm _ Hok) Hp Hf ltac:(lia)) as (s & t & He & Hs & Hfl & Hbytes).
  { unfold last_byte_of. simpl. lia. }
  rewrite Hid, He. cbn [fst]. rewrite Hfl, Hbytes. change (last_byte_of b (-1)) with (zlen b - 1).
  replace (zlen b - 1 + 1) with (zlen b) by lia. rewrite zslice_full. unfold slift. rewrite Htx. unfold sret.
  eexists _, _. split; [done|]. split; [done|]. split; [|done]. by apply (dc_ok_same t _ (dc_ok_cycle (S (dc_cycle w)) w Hok)).
Qed.

(** The message [mid] keeps the text, on the server. *)
Definition keeps_text (t : D) (mid : Z) (text : string) : Prop :=
  exists p, post t channel mid = Some p /\ text_of p = Ok text /\
    forall b bs, po_files p = b :: bs -> po_text p = OVERFLOW_CAPTION -> 0 < zlen b.

Lemma keeps_text_same t t' mid text : same t t' -> keeps_text t mid text -> keeps_text t' mid text.
Proof. intros [Hp _] (p & ? & ? & ?). exists p. by rewrite Hp. Qed.

Lemma dc_get_spec mid text w : dc_ok w -> keeps_text (dc_server w) mid text ->
  exists m w', dc_get_messages k decode [mid] w = (Ok [Some m], w') /\ tm_text m = text /\ dc_ok w' /\ same (dc_server w) (dc_server w').
Proof.
  intros Hok (p & Hp & Htx & Hne). unfold dc_get_messages. cbn [mc_gets]. pose proof Hok as [Hc Hi Ha Ht].
  pose proof (mc_get_spec _ mid _ Ht) as [Hv Ht1]. pose proof (mc_get_ok mid _ Hi) as Hi1.
  destruct (mc_get mid (dc_ids w)) as [v c] eqn:Hg. cbn [fst snd] in *.
  assert (dc_ok (dc_set_ids c w)) as Hok1 by done. destruct v as [m|]; cbn [zip zip_with map concat app fst snd nonempty].
  - unfold sret. cbn [mc_gets dc_ids dc_set_ids]. pose proof (mc_get_ok mid c Hi1) as Hi2. pose proof (mc_get_spec _ mid c Ht1) as [_ Ht2].
    assert ((mc_get mid c).1 = Some m) as Hm2.
    { unfold mc_get in Hg |- *. destruct (Dict.get mid (mc_items (dc_ids w))) as [v|]; [|done]. injection Hg as -> <-. simpl. by rewrite decide_True. }
    destruct (mc_get mid c) as [v2 c2]. simpl in Hm2. subst v2. eexists m, _. split; [done|].
    destruct (Hv m eq_refl) as (p' & Hp' & Hm). rewrite Hp in Hp'. injection Hp' as <-. split; [congruence|].
    split; [done|by apply same_refl].
  - set (w1 := dc_set_ids c w) in *. unfold sbind at 1.
    destruct (dc_next_bot_spec w1) as (bot & author & Hnb & _ & _).
    destruct (bot_get_message_spec bot mid p (dc_server w1) Hc Hp) as (m & t & He & Hs & Hid & Hmt & Hdoc & _).
    erewrite retry_ok; [|unfold sbind; rewrite Hnb; unfold on_server; cbn [dc_server]; rewrite He; reflexivity].
    assert (dc_ok (dc_set_server t {| dc_server := dc_server w1; dc_ids := dc_ids w1; dc_cycle := S (dc_cycle w1); dc_authors := dc_authors w1 |})) as Hok2
      by (by apply (dc_ok_same t _ (dc_ok_cycle (S (dc_cycle w1)) w1 Hok1))).
    cbn [dc_store_fetched]. unfold sbind.
    edestruct (resolve_spec mid p text m _ Hok2) as (m' & w3 & -> & Hm' & Hok3 & Hids3 & Hs3); [simpl; by rewrite (same_post _ _ Hs)|done..|].
    unfold remember, sbind, sget, sput. unfold sret. set (c3 := mc_set mid (Some m') (dc_ids w3)).
    pose proof Hok3 as [Hc3 Hi3 Ha3 Ht3]. assert (same (dc_server w) (dc_server w3)) as Hs13 by (etrans; [exact Hs|exact Hs3]).
    assert (dc_ok (dc_set_ids c3 w3)) as Hok4.
    { split; [done|by apply mc_set_ok|done|]. apply mc_set_all; [|done]. intros x [= <-]. exists p. simpl.
      rewrite (same_post _ _ Hs13), Hm'. by split. }
    cbn [mc_gets dc_ids dc_set_ids]. pose proof (mc_get_set mid (Some m') (dc_ids w3) Hi3) as Hgs. fold c3 in Hgs.
    pose proof Hok4 as [_ Hi4 _ Ht4]. pose proof (mc_get_ok mid c3 Hi4) as Hi5. pose proof (mc_get_spec _ mid c3 Ht4) as [_ Ht5].
    destruct (mc_get mid c3) as [v5 c5]. simpl in Hgs. subst v5. eexists m', _. split; [done|]. split; [done|]. split; [|exact Hs13].
    by split.
Qed.

(** ** Sending *)

Lemma replaced_ok c mid p t w : dc_ok w -> replaced_in channel mid p (dc_server w) t -> text_of p = Ok c ->
  mc_all (fun i m => i = mid -> tm_text m = c) (dc_ids w) -> dc_ok (dc_set_server t w).
Proof.
  intros [? ? ? Ht] [Hp Ho Hc] Htx Hm. split; [done|done|done|]. intros i m Hin. simpl. destruct (decide (i = mid)) as [->|Hne].
  - exists p. rewrite Hp. split; [done|]. by rewrite (Hm mid m Hin).
  - destruct (Ht i m Hin) as (p' & Hp' & Hm'). exists p'. rewrite Ho by (intros [= ->]; done). done.
Qed.

(** Sending with whichever bot is next; [p bot] is what that bot sends. *)
Lemma dc_send_spec (action : nat -> st exn D Z) text (files : list bytes) w : dc_ok w ->
  (forall bot author t, calm t -> dl_user (D := D) bot = Some author ->
     exists mid t', action bot t = (Ok mid, t') /\ post t channel mid = None /\
       replaced_in channel mid {| po_text := text; po_files := files; po_author := author |} t t') ->
  exists mid author w', dc_send k action w = (Ok mid, w') /\ post (dc_server w) channel mid = None /\ mc_ok (dc_authors w') /\ dc_ids w' = dc_ids w /\
    replaced_in channel mid {| po_text := text; po_files := files; po_author := author |} (dc_server w) (dc_server w').
Proof.
  intros Hok Hact. unfold dc_send. destruct (dc_next_bot_spec w) as (bot & author & Hnb & _ & Hau).
  destruct (Hact bot author (dc_server w) (do_calm _ Hok) Hau) as (mid & t & He & Hn & Hch). unfold sbind at 1.
  erewrite retry_ok; [|unfold sbind; rewrite Hnb; unfold on_server; cbn [dc_server]; rewrite He; reflexivity].
  unfold sbind, sget, sput, sret. cbn [fst snd]. eexists mid, author, _. split; [done|]. split; [done|].
  split; [simpl; by apply mc_set_ok, do_authors|]. split; [done|]. exact Hch.
Qed.

Lemma uncached_new mid (w : Dc D) : dc_ok w -> post (dc_server w) channel mid = None -> mc_all (fun i _ => i <> mid) (dc_ids w).
Proof. intros [_ _ _ Ht] Hn. eapply mc_all_weaken; [|exact Ht]. intros i m (p & Hp & _) ->. congruence. Qed.

Lemma bot_send_spec bot author text file (t : D) : calm t -> sayable (default EmptyString text) -> dl_user (D := D) bot = Some author ->
  exists mid t', (dc_channel bot channel ;;; dl_send bot channel text file) t = (Ok mid, t') /\ post t channel mid = None /\
    replaced_in channel mid {| po_text := default EmptyString text; po_files := file_of file; po_author := author |} t t'.
Proof.
  intros Hc Hs Ha. unfold sbind. destruct (dc_channel_spec bot channel t Hc) as (t1 & -> & Hs1).
  destruct (send_law bot channel text file author t1 (same_calm _ _ Hs1) Hs Ha) as (mid & t2 & He & Hn & Hch).
  exists mid, t2. split; [done|]. split; [by rewrite <- (same_post _ _ Hs1)|]. by eapply replaced_same.
Qed.

(** The texts that can be sent. *)
Definition dc_sendable (text : string) : Prop :=
  if text_len text <=? DC_MAX_TEXT_CHARS then sayable (D := D) text else 0 < zlen (encode text) /\ decode (encode text) = Ok text.

Hypothesis Hcaption : sayable (D := D) OVERFLOW_CAPTION.

(** What a message says for a text. *)
Definition said_text (text : string) : string := if text_len text <=? DC_MAX_TEXT_CHARS then text else OVERFLOW_CAPTION.
Definition said_files (text : string) : list bytes := if text_len text <=? DC_MAX_TEXT_CHARS then [] else [encode text].

Lemma said_text_of text author : dc_sendable text ->
  text_of {| po_text := said_text text; po_files := said_files text; po_author := author |} = Ok text /\
  forall b bs, said_files text = b :: bs -> said_text text = OVERFLOW_CAPTION -> 0 < zlen b.
Proof.
  unfold dc_sendable, said_text, said_files, text_of. simpl. destruct (text_len text <=? DC_MAX_TEXT_CHARS); [done|].
  intros [Hn Hd]. by split; [|intros b bs [= <- _]].
Qed.

Lemma dc_send_text_spec text w : dc_ok w -> dc_sendable text ->
  exists mid w', dc_send_text k encode text_len text w = (Ok mid, w') /\ dc_ok w' /\ keeps_text (dc_server w') mid text.
Proof.
  intros Hok Hsend. unfold dc_send_text. set (action := fun bot => if text_len text <=? DC_MAX_TEXT_CHARS then _ else _).
  destruct (dc_send_spec action (said_text text) (said_files text) w Hok) as (mid & author & w1 & He & Hn & Ha1 & Hi1 & Hch).
  { intros bot author t Hc Hu. unfold action, dc_sendable, said_text, said_files in *. destruct (text_len text <=? DC_MAX_TEXT_CHARS).
    - by apply (bot_send_spec bot author (Some text) None).
    - apply (bot_send_spec bot author (Some OVERFLOW_CAPTION) (Some (encode text, DC_OVERFLOW_FILENAME))); done. }
  unfold sbind at 1. rewrite He. unfold remember, sbind, sget, sput, sret. destruct (said_text_of text author Hsend) as [Htx Hne].
  eexists mid, _. split; [done|]. pose proof (uncached_new mid w Hok Hn) as Hnew. destruct Hok as [Hc Hi Ha Ht]. split.
  - split; simpl; [apply Hch|by rewrite Hi1; apply mc_set_ok|done|]. rewrite Hi1. apply mc_set_all.
    + intros x [= <-]. eexists. split; [apply Hch|exact Htx].
    + intros i m Hin. destruct (Ht i m Hin) as (p & Hp & Hm). exists p. rewrite (rep_others _ _ _ _ _ Hch); [done|].
      intros [= ->]. by apply (Hnew mid m Hin).
  - eexists. split; [apply Hch|]. by split.
Qed.

(** ** Editing *)

Lemma bot_of_user_spec author bot : bot_of_user (D := D) k author = Some bot -> dl_user (D := D) bot = Some author.
Proof. unfold bot_of_user. intros [_ Hb]%find_some. by apply bool_decide_eq_true in Hb. Qed.

Lemma author_bot_lookup mid p bot w : dc_ok w -> post (dc_server w) channel mid = Some p -> bot_of_user (D := D) k (po_author p) = Some bot ->
  exists w', author_bot k mid true w = (Ok bot, w') /\ dc_ok w' /\ same (dc_server w) (dc_server w').
Proof.
  intros Hok Hp Hb. unfold author_bot. cbn [fst snd]. destruct (dc_next_bot_spec w) as (b0 & a0 & Hnb & _ & _).
  destruct (dc_fetch_spec b0 channel mid (dc_server w) (do_calm _ Hok)) as (t & Hs & Hf). rewrite Hp in Hf. destruct Hf as (m & He & Hm).
  unfold sbind at 1. erewrite retry_ok; [|unfold sbind; rewrite Hnb; unfold on_server, get_author_id, sbind; cbn [dc_server]; rewrite He; reflexivity].
  rewrite (sh_author _ _ _ _ Hm), Hb. unfold sbind, sget, sput, sret. eexists. split; [done|].
  pose proof (dc_ok_same t _ (dc_ok_cycle (S (dc_cycle w)) w Hok) Hs) as Hok2. split; [|exact Hs].
  apply (dc_ok_authors _ _ Hok2), mc_set_ok. apply Hok2.
Qed.

(** The remembered author, or the one looked up; the remembered one may be
    wrong. *)
Lemma author_bot_known mid p bot w : dc_ok w -> post (dc_server w) channel mid = Some p -> bot_of_user (D := D) k (po_author p) = Some bot ->
  exists bot' w', author_bot k mid false w = (Ok bot', w') /\ dc_ok w' /\ same (dc_server w) (dc_server w').
Proof.
  intros Hok Hp Hb. destruct (mc_get mid (dc_authors w)) as [v c] eqn:Hg.
  assert (dc_ok (dc_set_authors c w)) as Hok1.
  { apply dc_ok_authors; [done|]. pose proof (mc_get_ok mid _ (do_authors _ Hok)) as Hc. by rewrite Hg in Hc. }
  destruct v as [bot'|].
  - exists bot', (dc_set_authors c w). unfold author_bot. rewrite Hg. split; [done|]. split; [done|]. apply same_refl, Hok.
  - destruct (author_bot_lookup mid p bot (dc_set_authors c w) Hok1 Hp Hb) as (w' & He & Hok2 & Hs). exists bot, w'.
    split; [|done]. unfold author_bot in He |- *. rewrite Hg. exact He.
Qed.

(** An edit goes through, by the bot that sent the message, whichever bot was
    remembered. *)
Lemma dc_edit_spec (action : nat -> st exn D Z) mid p text files bot w : dc_ok w -> post (dc_server w) channel mid = Some p ->
  bot_of_user (D := D) k (po_author p) = Some bot ->
  (forall b t, calm t -> post t channel mid = Some p ->
     if bool_decide (dl_user (D := D) b = Some (po_author p)) then
       exists t', action b t = (Ok mid, t') /\ replaced_in channel mid {| po_text := text; po_files := files; po_author := po_author p |} t t'
     else exists t', action b t = (Raise (HTTPException 403 CANNOT_EDIT_FOREIGN_MESSAGE), t') /\ same t t') ->
  exists w1 t, dc_edit k mid action w = (Ok mid, dc_set_server t w1) /\ dc_ok w1 /\ same (dc_server w) (dc_server w1) /\
    replaced_in channel mid {| po_text := text; po_files := files; po_author := po_author p |} (dc_server w1) t.
Proof.
  intros Hok Hp Hb Hact. unfold dc_edit, sbind at 1. destruct (author_bot_known mid p bot w Hok Hp Hb) as (b1 & w1 & -> & Hok1 & Hs1).
  pose proof (Hact b1 (dc_server w1) (do_calm _ Hok1) ltac:(by rewrite (same_post _ _ Hs1))) as Ha. unfold stry.
  destruct (bool_decide (dl_user b1 = Some (po_author p))).
  - destruct Ha as (t & He & Hch). exists w1, t. erewrite retry_ok; [|unfold on_server; rewrite He; reflexivity]. done.
  - destruct Ha as (t & He & Hs). erewrite retry_raise; [|unfold on_server; rewrite He; reflexivity|done]. cbn [is_foreign_message_error negb].
    change (negb _) with false. unfold sbind. cbv iota beta.
    pose proof (dc_ok_same t w1 Hok1 Hs) as Hok2.
    destruct (author_bot_lookup mid p bot (dc_set_server t w1) Hok2) as (w2 & -> & Hok3 & Hs3); [|done|].
    { simpl. by rewrite (same_post _ _ Hs), (same_post _ _ Hs1). }
    assert (same (dc_server w) (dc_server w2)) as Hs2 by (etrans; [exact Hs1|]; etrans; [exact Hs|exact Hs3]).
    pose proof (Hact bot (dc_server w2) (do_calm _ Hok3) ltac:(by rewrite (same_post _ _ Hs2))) as Ha.
    rewrite (bool_decide_eq_true_2 _ (bot_of_user_spec _ _ Hb)) in Ha. destruct Ha as (t3 & He3 & Hch).
    exists w2, t3. erewrite retry_ok; [|unfold on_server; rewrite He3; reflexivity]. done.
Qed.

Lemma bot_edit_spec bot mid p text files (t : D) : calm t -> sayable (D := D) (default EmptyString text) -> post t channel mid = Some p ->
  if bool_decide (dl_user (D := D) bot = Some (po_author p)) then
    exists t', (let! m := dc_fetch bot channel mid in dl_edit bot channel (dm_id m) text files ;;; sret (dm_id m)) t = (Ok mid, t') /\
      replaced_in channel mid {| po_text := default EmptyString text; po_files := map fst files; po_author := po_author p |} t t'
  else exists t', (let! m := dc_fetch bot channel mid in dl_edit bot channel (dm_id m) text files ;;; sret (dm_id m)) t =
      (Raise (HTTPException 403 CANNOT_EDIT_FOREIGN_MESSAGE), t') /\ same t t'.
Proof.
  intros Hc Hs Hp. unfold sbind. destruct (dc_fetch_spec bot channel mid t Hc) as (t1 & Hs1 & Hf). rewrite Hp in Hf. destruct Hf as (m & -> & Hm).
  rewrite (sh_id _ _ _ _ Hm). pose proof (edit_law bot channel mid text files p t1 (same_calm _ _ Hs1) Hs ltac:(by rewrite (same_post _ _ Hs1))) as He.
  destruct (bool_decide _).
  - destruct He as (t2 & -> & Hch). exists t2. split; [done|]. by eapply replaced_same.
  - destruct He as (t2 & -> & Hs2). exists t2. split; [done|]. by etrans.
Qed.

Lemma dc_edit_text_spec mid p text bot w : dc_ok w -> dc_sendable text -> post (dc_server w) channel mid = Some p ->
  bot_of_user (D := D) k (po_author p) = Some bot ->
  exists w', dc_edit_message_text k encode text_len mid text w = (Ok mid, w') /\ dc_ok w' /\ keeps_text (dc_server w') mid text /\
    forall c m, (c, m) <> (channel, mid) -> post (dc_server w') c m = post (dc_server w) c m.
Proof.
  intros Hok Hsend Hp Hb. unfold dc_edit_message_text. set (action := fun bot => if text_len text <=? DC_MAX_TEXT_CHARS then _ else _).
  destruct (dc_edit_spec action mid p (said_text text) (said_files text) bot w Hok Hp Hb) as (w1 & t & He & Hok1 & Hs1 & Hch).
  { intros b t Hc Hpt. unfold action, dc_sendable, said_text, said_files in *. destruct (text_len text <=? DC_MAX_TEXT_CHARS).
    - by apply (bot_edit_spec b mid p (Some text) []).
    - by apply (bot_edit_spec b mid p (Some OVERFLOW_CAPTION) [(encode text, DC_OVERFLOW_FILENAME)]). }
  unfold sbind at 1. rewrite He. unfold remember, sbind, sget, sput, sret. destruct (said_text_of text (po_author p) Hsend) as [Htx Hne].
  eexists. split; [done|]. destruct Hok1 as [Hc Hi Ha Ht]. split; [|split].
  - split; simpl; [apply Hch|by apply mc_set_ok|done|]. intros i m Hin. destruct (decide (i = mid)) as [->|Hneq].
    + exists {| po_text := said_text text; po_files := said_files text; po_author := po_author p |}. split; [apply Hch|].
      apply ztake_elem, elem_of_cons in Hin as [[= ->]|Hin]; [done|]. unfold Dict.del in Hin. by apply list_elem_of_filter in Hin as [? _].
    + apply ztake_elem, elem_of_cons in Hin as [[= -> _]|Hin]; [done|]. destruct (Ht i m (del_elem _ _ _ Hin)) as (p' & Hp' & Hm).
      exists p'. rewrite (rep_others _ _ _ _ _ Hch); [done|]. by intros [= ->].
  - eexists. split; [apply Hch|]. by split.
  - intros c m Hne'. simpl. rewrite (rep_others _ _ _ _ _ Hch) by done. apply (same_post _ _ Hs1).
Qed.

(** ** Uploading *)

Section Upload.
  Context {M : Type} `{ExactReads M}.
  Hypothesis Hmax : 0 < dk_max_part_bytes k.
Abbreviation max_part := (dk_max_part_bytes k).

Lemma read_part_spec fuel limit : forall data (m : M), readable m -> limit - zlen data <= Z.of_nat fuel -> zlen data <= limit -> limit <= zlen data + zlen (rest m) ->
  exists m', read_part fuel limit data m = (Ok (data ++ ztake (limit - zlen data) (rest m)), m') /\ readable m' /\
    rest m' = zdrop (limit - zlen data) (rest m).
Proof.
  induction fuel as [|fuel IH]; intros data m Hm Hf Hl Hr; cbn [read_part].
  - rewrite (proj2 (Z.leb_le _ _)) by lia. exists m. rewrite ztake_0, zdrop_0, app_nil_r by lia. done.
  - destruct (Z.leb_spec limit (zlen data)) as [Hle|Hlt].
    + exists m. rewrite ztake_0, zdrop_0, app_nil_r by lia. done.
    + set (n := Z.min DC_READ_CHUNK (limit - zlen data)). assert (0 < n <= limit - zlen data) as Hn by (unfold n, DC_READ_CHUNK; lia).
      unfold sbind. destruct (exact_read m n Hm ltac:(lia) ltac:(lia)) as (m1 & -> & Hm1 & Hr1).
      assert (zlen (ztake n (rest m)) = n) as Hz by (rewrite zlen_ztake; lia).
      assert (nonempty (ztake n (rest m)) = true) as -> by (destruct (ztake n (rest m)); [rewrite zlen_nil in Hz; lia|done]).
      destruct (IH (data ++ ztake n (rest m)) m1 Hm1) as (m' & -> & Hm' & Hr').
      { rewrite zlen_app. lia. } { rewrite zlen_app. lia. } { rewrite zlen_app, Hr1, zlen_zdrop by lia. lia. }
      exists m'. rewrite zlen_app, Hz, Hr1 in *. rewrite <- app_assoc. split; [|split; [done|]].
      * do 3 f_equal. rewrite <- (ztake_zdrop n (ztake (limit - zlen data) (rest m))), ztake_ztake, zdrop_ztake by lia.
        rewrite Z.min_l by lia. f_equal. f_equal. lia.
      * rewrite Hr', zdrop_zdrop by lia. f_equal. lia.
Qed.

(** [s] has been stored as a message with the bytes [b]. *)
Definition stored_as (t : D) (s : SentFileMessage) (b : bytes) : Prop :=
  sm_size s = zlen b /\ exists p, post t channel (sm_message_id s) = Some p /\ po_files p = [b].

Lemma send_part_spec data name w : dc_ok w -> sayable (D := D) EmptyString ->
  exists s w', send_part k data name w = (Ok s, w') /\ dc_ok w' /\ stored_as (dc_server w') s data /\
    (forall c m p, post (dc_server w) c m = Some p -> post (dc_server w') c m = Some p).
Proof.
  intros Hok Hs. unfold send_part. destruct (dc_send_spec (fun bot => bot_send_file bot channel data name "") EmptyString [data] w Hok) as
    (mid & author & w1 & He & Hn & Ha1 & Hi1 & Hch).
  { intros bot author t Hc Hu. by apply (bot_send_spec bot author None (Some (data, name))). }
  unfold sbind at 1. rewrite He. unfold sret. eexists _, w1. split; [done|].
  pose proof (uncached_new mid w Hok Hn) as Hnew. destruct Hok as [Hc Hi Ha Ht].
  assert (forall c m p, post (dc_server w) c m = Some p -> post (dc_server w1) c m = Some p) as Hkeep.
  { intros c m p Hp. rewrite (rep_others _ _ _ _ _ Hch); [done|]. intros [= -> ->]. congruence. }
  split; [|split; [|done]].
  - split; [apply Hch|by rewrite Hi1|done|]. rewrite Hi1. eapply mc_all_weaken; [|exact Ht]. intros i m (p & Hp & Hm). exists p. by split; [apply Hkeep|].
  - split; [done|]. eexists. by split; [apply Hch|].
Qed.

Lemma plan_parts_step size : max_part < size -> plan_parts max_part size = max_part :: plan_parts max_part (size - max_part).
Proof.
  intros Hs. unfold plan_parts. rewrite !(proj2 (Z.leb_gt _ _)) by lia.
  replace (size - max_part + max_part - 1) with (size - 1) by lia. replace (size + max_part - 1) with (size - 1 + 1 * max_part) by lia.
  rewrite Z.div_add by lia. assert (0 < (size - 1) / max_part) as Hd by (apply Z.div_str_pos; lia).
  replace (Z.to_nat ((size - 1) / max_part + 1 - 1)) with (S (Z.to_nat ((size - 1) / max_part - 1))) by lia. cbn [replicate app].
  do 2 f_equal. f_equal. lia.
Qed.

Lemma plan_parts_last size : 0 <= size <= max_part -> plan_parts max_part size = [size].
Proof.
  intros [H1' H2']. unfold plan_parts. destruct (Z.leb_spec size 0); [f_equal; lia|].
  assert ((size + max_part - 1) / max_part = 1) as -> by (symmetry; apply (Z.div_unique_pos _ _ _ (size - 1)); lia). simpl. f_equal. lia.
Qed.

Lemma upload_loop_spec size name fuel : sayable (D := D) EmptyString -> 0 <= size -> forall index (m : M) w,
  dc_ok w -> readable m -> (zlen (rest m) < Z.of_nat fuel) -> (0 < zlen (rest m) \/ index = 0) ->
  exists sent m' w' bs, dc_upload_loop k fuel index (zlen (rest m)) size name m w = ((Ok sent, m'), w') /\ dc_ok w' /\
    Forall2 (stored_as (dc_server w')) sent bs /\ concat bs = rest m /\ map zlen bs = plan_parts max_part (zlen (rest m)) /\
    (forall c i p, post (dc_server w) c i = Some p -> post (dc_server w') c i = Some p).
Proof.
  intros Hempty Hsize. induction fuel as [|fuel IH]; intros index m w Hok Hm Hf Hi; [pose proof (zlen_nonneg (rest m)); lia|].
  cbn [dc_upload_loop]. rewrite (proj2 (Z.leb_le 0 size)) by done. set (r := zlen (rest m)). pose proof (zlen_nonneg (rest m)) as Hr0. fold r in Hr0, Hf, Hi.
  set (n := Z.min max_part r). assert (0 <= n <= r /\ n <= max_part) as [Hn1 Hn2] by (unfold n; lia).
  assert (exists m1, (if 0 <? n then read_part (Z.to_nat n) n [] else sret []) m = (Ok (ztake n (rest m)), m1) /\ readable m1 /\ rest m1 = zdrop n (rest m))
    as (m1 & -> & Hm1 & Hr1).
  { destruct (Z.ltb_spec 0 n).
    - destruct (read_part_spec (Z.to_nat n) n [] m Hm) as (m1 & He & Hm1 & Hr1); [rewrite zlen_nil; lia|rewrite zlen_nil; lia|rewrite zlen_nil; unfold r in Hn1; lia|].
      rewrite zlen_nil, Z.sub_0_r in *. by exists m1.
    - exists m. rewrite ztake_0, zdrop_0 by lia. done. }
  assert (zlen (ztake n (rest m)) = n) as Hz by (rewrite zlen_ztake; unfold r in Hn1; lia).
  assert (negb (nonempty (ztake n (rest m))) && (0 <? index) = false) as ->.
  { destruct Hi as [Hi| ->]; [|by rewrite andb_false_r]. destruct (ztake n (rest m)); [rewrite zlen_nil in Hz; unfold n in Hz; lia|done]. }
  destruct (send_part_spec (ztake n (rest m)) ("[part" +:+ pretty (index + 1) +:+ "]" +:+ name) w Hok Hempty) as (s & w1 & -> & Hok1 & Hst & Hkeep).
  rewrite Hz. cbn [andb]. destruct ((r - n <=? 0) || (n <? max_part)) eqn:Hend.
  - assert (n = r) as Hnr by (apply orb_true_iff in Hend as [?%Z.leb_le|?%Z.ltb_lt]; unfold n in *; lia).
    exists [s], m1, w1, [ztake n (rest m)]. split; [done|]. split; [done|]. split; [by constructor|]. simpl.
    rewrite app_nil_r, Hz, plan_parts_last by lia. rewrite ztake_ge by (fold r; lia). by rewrite Hnr.
  - apply orb_false_iff in Hend as [Hlt%Z.leb_gt Hge%Z.ltb_ge]. assert (n = max_part) as Hnm by lia.
    assert (zlen (rest m1) = r - n) as Hz1 by (rewrite Hr1, zlen_zdrop by lia; fold r; lia).
    destruct (IH (index + 1) m1 w1 Hok1 Hm1 ltac:(lia) ltac:(lia)) as (sent & m2 & w2 & bs & He & Hok2 & Hall & Hcat & Hplan & Hkeep2).
    rewrite Hz1 in He, Hplan. rewrite He. exists (s :: sent), m2, w2, (ztake n (rest m) :: bs). split; [done|]. split; [done|].
    split. { constructor; [|done]. destruct Hst as [Hsz (p & Hp & Hpf)]. split; [done|]. exists p. by split; [apply Hkeep2|]. }
    simpl. rewrite Hcat, Hr1, ztake_zdrop. split; [done|]. rewrite Hz, Hplan, (plan_parts_step r) by lia. rewrite Hnm. split; [done|]. eauto.
Qed.

End Upload.
End Store.

(** A text of any length sent to a Discord channel is read back as it was,
    from the cache, from the server or by a process started later, as long as
    its message is there. *)
Theorem discord_text_round_trip {D} `{DiscordLaws D} k encode decode text_len text (w : Dc D) :
  dk_bots k <> 0%nat -> dk_max_retries k <> 0%nat ->
  (forall bot, (bot < dk_bots k)%nat -> exists author, dl_user (D := D) bot = Some author) ->
  sayable (D := D) OVERFLOW_CAPTION -> dc_ok k decode w -> dc_sendable (D := D) encode decode text_len text ->
  exists mid w1, dc_send_text k encode text_len text w = (Ok mid, w1) /\ dc_ok k decode w1 /\
    forall w2, dc_ok k decode w2 -> post (dc_server w2) (dk_channel k) mid = post (dc_server w1) (dk_channel k) mid ->
    exists m w3, dc_get_messages k decode [mid] w2 = (Ok [Some m], w3) /\ tm_text m = text.
Proof.
  intros Hb Hr Hu Hcap Hok Hs.
  destruct (dc_send_text_spec k encode decode text_len Hb Hr Hu Hcap text w Hok Hs) as (mid & w1 & He & Hok1 & (p & Hp & Htx & Hne)).
  exists mid, w1. split; [done|]. split; [done|]. intros w2 Hok2 Hpost.
  destruct (dc_get_spec k decode Hb Hr Hu mid text w2 Hok2) as (m & w3 & Hg & Hm & _); [|by exists m, w3].
  exists p. by rewrite Hpost.
Qed.

(** An edit of a message that a bot of the pool has sent goes through,
    whichever bot the store remembers as its author; the new text is read
    back, and no other message has changed. *)
Theorem discord_edit_any_author {D} `{DiscordLaws D} k encode decode text_len mid p bot text (w : Dc D) :
  dk_bots k <> 0%nat -> dk_max_retries k <> 0%nat ->
  (forall bot, (bot < dk_bots k)%nat -> exists author, dl_user (D := D) bot = Some author) ->
  sayable (D := D) OVERFLOW_CAPTION -> dc_ok k decode w -> dc_sendable (D := D) encode decode text_len text ->
  post (dc_server w) (dk_channel k) mid = Some p -> bot_of_user (D := D) k (po_author p) = Some bot ->
  exists w1, dc_edit_message_text k encode text_len mid text w = (Ok mid, w1) /\
    (forall c m, (c, m) <> (dk_channel k, mid) -> post (dc_server w1) c m = post (dc_server w) c m) /\
    exists m w2, dc_get_messages k decode [mid] w1 = (Ok [Some m], w2) /\ tm_text m = text.
Proof.
  intros Hb Hr Hu Hcap Hok Hs Hp Hbot.
  destruct (dc_edit_text_spec k encode decode text_len Hb Hr Hu Hcap mid p text bot w Hok Hs Hp Hbot) as (w1 & He & Hok1 & Hk & Ho).
  exists w1. split; [done|]. split; [done|]. destruct (dc_get_spec k decode Hb Hr Hu mid text w1 Hok1 Hk) as (m & w3 & Hg & Hm & _). by exists m, w3.
Qed.

(** An upload to a Discord channel cuts the file as [plan_parts] says and
    stores every part, in the order of the file. *)
Theorem discord_upload_plan {D M} `{DiscordLaws D} `{ExactReads M} k decode (m m1 : M) (w : Dc D) :
  dk_bots k <> 0%nat -> dk_max_retries k <> 0%nat ->
  (forall bot, (bot < dk_bots k)%nat -> exists author, dl_user (D := D) bot = Some author) ->
  0 < dk_max_part_bytes k -> sayable (D := D) EmptyString -> dc_ok k decode w ->
  um_open m = (Ok tt, m1) -> readable m1 -> get_size m1 = zlen (rest m1) -> (forall m2 : M, exists m3, um_close m2 = (Ok tt, m3)) ->
  exists sent w1 bs, dc_upload k m w = (Ok sent, w1) /\ concat bs = rest m1 /\
    map sm_size sent = plan_parts (dk_max_part_bytes k) (zlen (rest m1)) /\ Forall2 (stored_as k (dc_server w1)) sent bs /\
    forall c i p, post (dc_server w) c i = Some p -> post (dc_server w1) c i = Some p.
Proof.
  intros Hb Hr Hu Hmax Hempty Hok Ho Hm Hsize Hclose. unfold dc_upload. rewrite Ho, Hsize.
  pose proof (zlen_nonneg (rest m1)) as Hz.
  destruct (upload_loop_spec k decode Hb Hr Hu Hmax (zlen (rest m1)) (file_name m1) (S (S (Z.to_nat (zlen (rest m1))))) Hempty Hz 0 m1 w Hok Hm
    ltac:(lia) ltac:(by right)) as (sent & m2 & w1 & bs & -> & Hok1 & Hall & Hcat & Hplan & Hkeep).
  destruct (Hclose m2) as (m3 & ->). exists sent, w1, bs. split; [done|]. split; [done|]. split; [|done].
  rewrite <- Hplan. clear -Hall. induction Hall as [|s b sent bs [Hs _] _ IH]; [done|]. simpl. by rewrite Hs, IH.
Qed.

(** A range read of a Discord attachment delivers exactly the range,
    whether the CDN honours the request for it or sends the whole file. *)
Theorem discord_range_exact {D} `{DiscordLaws D} k decode mid p b files begin last (w : Dc D) :
  dk_bots k <> 0%nat -> dk_max_retries k <> 0%nat ->
  (forall bot, (bot < dk_bots k)%nat -> exists author, dl_user (D := D) bot = Some author) ->
  dc_ok k decode w -> post (dc_server w) (dk_channel k) mid = Some p -> po_files p = b :: files ->
  0 <= begin -> begin <= last_byte_of b last ->
  exists s w1, dc_download_file k mid begin last w = (Ok s, w1) /\ fault s = None /\
    stream_bytes s = zslice begin (last_byte_of b last + 1) b /\ dc_ok k decode w1.
Proof.
  intros Hb Hr Hu Hok Hp Hf H1' H2'. unfold dc_download_file, sbind at 1. destruct (dc_next_bot_spec k Hb Hu w) as (bot & author & Hnb & _ & _).
  destruct (bot_download_spec bot (dk_channel k) mid p b files begin last (dc_server w) (do_calm _ _ _ Hok) Hp Hf H1' H2') as (s & t & He & Hs & Hfl & Hby).
  erewrite (retry_ok k Hr); [|unfold sbind; rewrite Hnb; unfold on_server; cbn [dc_server]; rewrite He; reflexivity].
  unfold sret. cbn [fst]. eexists s, _. split; [done|]. split; [done|]. split; [done|]. by apply (dc_ok_same k decode t _ (dc_ok_cycle k decode (S (dc_cycle w)) w Hok)).
Qed.

(** ** A Discord server in memory, and the store on it

    Bot [b] is user [500 + b].  Every fetch of a message signs new addresses
    for its attachments; the CDN honours a range or not. *)

Record DcMem := {
  xm_posts : dict (Z * Z) Post;
  xm_next : Z;                                   (* the next message id *)
  xm_urls : dict string bytes;
  xm_signed : Z;
  xm_ranges : bool
}.

Definition xm_post (t : DcMem) (c m : Z) : option Post := Dict.get (c, m) (xm_posts t).

Definition xm_put (c m : Z) (p : Post) (next : Z) (t : DcMem) : DcMem :=
  {| xm_posts := Dict.set (c, m) p (xm_posts t); xm_next := next; xm_urls := xm_urls t; xm_signed := xm_signed t; xm_ranges := xm_ranges t |}.

(** Addresses for the files of a message. *)
Fixpoint sign (files : list bytes) (t : DcMem) : list Attachment * DcMem :=
  match files with
  | [] => ([], t)
  | b :: files =>
      let url : string := pretty (xm_signed t) in
      let '(atts, t) := sign files {| xm_posts := xm_posts t; xm_next := xm_next t; xm_urls := Dict.set url b (xm_urls t);
                                      xm_signed := xm_signed t + 1; xm_ranges := xm_ranges t |} in
      ({| at_size := zlen b; at_id := 1; at_url := url |} :: atts, t)
  end.

Definition xm_fetch (c m : Z) : st exn DcMem DcMessage := fun t =>
  match xm_post t c m with
  | None => (Raise (HTTPException 404 10008), t)
  | Some p => let '(atts, t) := sign (po_files p) t in
              (Ok {| dm_id := m; dm_content := po_text p; dm_attachments := atts; dm_author := po_author p |}, t)
  end.

Definition xm_user (bot : nat) : Z := 500 + Z.of_nat bot.

#[export] Instance mem_discord : DiscordLib DcMem := {
  dl_user bot := Some (xm_user bot);
  dl_get_channel bot c t := true;
  dl_fetch_channel bot c := sret tt;
  dl_fetch_message bot := xm_fetch;
  dl_send bot c text file := fun t =>
    (Ok (xm_next t), xm_put c (xm_next t) {| po_text := default EmptyString text; po_files := file_of file; po_author := xm_user bot |} (xm_next t + 1) t);
  dl_edit bot c m text files := fun t =>
    match xm_post t c m with
    | None => (Raise (HTTPException 404 10008), t)
    | Some p =>
        if decide (xm_user bot = po_author p) then
          (Ok tt, xm_put c m {| po_text := default EmptyString text; po_files := map fst files; po_author := po_author p |} (xm_next t) t)
        else (Raise (HTTPException 403 CANNOT_EDIT_FOREIGN_MESSAGE), t)
    end;
  dl_bulk_delete bot c ids := fun t =>
    (Ok tt, {| xm_posts := List.filter (fun p => negb (bool_decide (p.1.1 = c /\ p.1.2 ∈ ids))) (xm_posts t); xm_next := xm_next t;
               xm_urls := xm_urls t; xm_signed := xm_signed t; xm_ranges := xm_ranges t |});
  dl_delete bot c m := fun t =>
    (Ok tt, {| xm_posts := Dict.del (c, m) (xm_posts t); xm_next := xm_next t;
               xm_urls := xm_urls t; xm_signed := xm_signed t; xm_ranges := xm_ranges t |});
  dl_pins bot c := sret [];
  dl_pin bot c m := sret tt;
  dl_get bot url range := fun t =>
    match Dict.get url (xm_urls t), range with
    | None, _ => (Ok (404, empty_stream), t)
    | Some b, Some (x, y) => if xm_ranges t then (Ok (206, {| pieces := chunks 3 (zslice x (y + 1) b); fault := None |}), t)
                             else (Ok (200, {| pieces := chunks 3 b; fault := None |}), t)
    | Some b, None => (Ok (200, {| pieces := chunks 3 b; fault := None |}), t)
    end;
  dl_now t := 2000000000;
  dl_snowflake_time m := m
}.

#[export] Instance mem_discord_view : DiscordView DcMem := {
  post := xm_post;
  serves t url b := Dict.get url (xm_urls t) = Some b;
  calm t := forall c m, xm_next t <= m -> xm_post t c m = None;
  sayable s := True
}.

(** Signing changes addresses only, and every one is new. *)
Lemma sign_spec files : forall t, let '(atts, t') := sign files t in
  xm_posts t' = xm_posts t /\ xm_next t' = xm_next t /\
  (forall n, n < xm_signed t -> Dict.get (pretty n) (xm_urls t') = Dict.get (pretty n) (xm_urls t)) /\
  Forall2 (fun a b => at_size a = zlen b /\ Dict.get (at_url a) (xm_urls t') = Some b) atts files.
Proof.
  induction files as [|b files IH]; intros t; cbn [sign]; [by split_and!|].
  set (t1 := {| xm_posts := _; xm_next := _; xm_urls := _; xm_signed := _; xm_ranges := _ |}). specialize (IH t1).
  destruct (sign files t1) as [atts t']. destruct IH as (Hp & Hn & Hu & Hall). split; [done|]. split; [done|]. split.
  - intros n Hlt. rewrite Hu by (simpl; lia). simpl. rewrite Dict.get_set_ne; [done|]. intros ?%(inj pretty). lia.
  - constructor; [|done]. split; [done|]. simpl. rewrite Hu by (simpl; lia). apply Dict.get_set_eq.
Qed.

Lemma same_id (t : DcMem) : calm t -> same t t.
Proof. by split. Qed.

#[export] Program Instance mem_discord_laws : DiscordLaws DcMem.
Next Obligation. done. Qed.
Next Obligation.
  intros bot c mid t Hc. cbn [dl_fetch_message mem_discord]. unfold xm_fetch. cbn [post mem_discord_view].
  destruct (xm_post t c mid) as [p|] eqn:Hp; [|split; [by apply same_id|by eexists]].
  pose proof (sign_spec (po_files p) t) as Hs. destruct (sign (po_files p) t) as [atts t']. destruct Hs as (H1 & H2 & _ & H3).
  assert (forall c m, xm_post t' c m = xm_post t c m) as Hpost by (intros; unfold xm_post; by rewrite H1).
  split; [split; [done|]|].
  - intros c' m' Hm. cbn. rewrite Hpost. apply Hc. by rewrite <- H2.
  - eexists. split; [done|]. by split.
Qed.
Next Obligation.
  intros bot url range b t Hc Hb. simpl in Hb |- *. rewrite Hb. unfold stream_bytes. destruct range as [[x y]|].
  - destruct (xm_ranges t); (eexists _, _, _; split; [reflexivity|]; split; [by apply same_id|]; simpl; by rewrite concat_chunks).
  - eexists _, _, _. split; [reflexivity|]. split; [by apply same_id|]. simpl. by rewrite concat_chunks.
Qed.
Next Obligation.
  intros bot c text file author t Hc _ [= <-]. eexists _, _. split; [done|]. split; [apply Hc; simpl; lia|].
  split; simpl; unfold xm_post; simpl.
  - apply Dict.get_set_eq.
  - intros c' m' Hne. by rewrite Dict.get_set_ne.
  - intros c' m' Hm. cbn in *. unfold xm_post. simpl. rewrite Dict.get_set_ne by (intros [= _ ->]; lia). apply Hc. simpl in *. lia.
Qed.
Next Obligation.
  intros bot c mid text files p t Hc _ Hp. cbn [dl_edit mem_discord dl_user]. cbn in Hp. rewrite Hp.
  destruct (decide (xm_user bot = po_author p)) as [He|Hne].
  - rewrite bool_decide_eq_true_2 by (simpl; congruence). eexists. split; [done|]. split; simpl; unfold xm_post; simpl.
    + apply Dict.get_set_eq.
    + intros c' m' Hn. by rewrite Dict.get_set_ne.
    + intros c' m' Hm. cbn in *. unfold xm_post. simpl. rewrite Dict.get_set_ne; [apply Hc; exact Hm|]. intros [= -> ->].
      rewrite Hc in Hp by exact Hm. done.
  - rewrite bool_decide_eq_false_2 by (simpl; intros [= ?]; done). eexists. split; [done|]. by apply same_id.
Qed.

(** ** The store at concrete inputs *)

Definition dc_demo_config (part retries : Z) : DcConfig :=
  {| dk_bots := 2; dk_channel := 5; dk_max_part_bytes := part; dk_delete_on_remove := true; dk_max_retries := Z.to_nat retries |}.

Definition dc_demo_encode (s : string) : bytes := String.list_byte_of_string s.
Definition dc_demo_decode (b : bytes) : exc string := Ok (String.string_of_list_byte b).

(** A text is too long when its first character says so. *)
Definition dc_demo_len (s : string) : Z := match s with String "L" _ => DC_MAX_TEXT_CHARS + 1 | _ => 1 end.

(** Message 7 was sent by the second bot; the store remembers the first. *)
Definition dc_demo : Dc DcMem :=
  {| dc_server := {| xm_posts := [((5, 7), {| po_text := "old"; po_files := []; po_author := 501 |});
                                  ((5, 8), {| po_text := ""; po_files := [dc_demo_encode "abcdefghij"]; po_author := 500 |})];
                     xm_next := 9; xm_urls := []; xm_signed := 0; xm_ranges := false |};
     dc_ids := {| mc_size := 4; mc_items := [(7, Some (plain_text 7 "old"))] |}; dc_cycle := 0;
     dc_authors := {| mc_size := 4; mc_items := [(7, Some 0%nat)] |} |}.

Lemma dc_demo_ok part retries : dc_ok (dc_demo_config part retries) dc_demo_decode dc_demo.
Proof.
  split.
  - intros c m Hm. cbn in *. unfold xm_post. simpl. do 2 (rewrite decide_False by (intros [= _ ->]; lia)). done.
  - split; [done|]. split; [apply NoDup_singleton|done].
  - split; [done|]. split; [apply NoDup_singleton|done].
  - intros k v [= -> ->]%list_elem_of_singleton. eexists. by split.
Qed.

Lemma discord_text_round_trip_witness :
  exists mid w1, dc_send_text (dc_demo_config 4 3) dc_demo_encode dc_demo_len "Long" dc_demo = (Ok mid, w1) /\
    let w2 := {| dc_server := dc_server w1; dc_ids := message_cache 1; dc_cycle := 1; dc_authors := message_cache 1 |} in
    exists m w3, dc_get_messages (dc_demo_config 4 3) dc_demo_decode [mid] w2 = (Ok [Some m], w3) /\ tm_text m = "Long"%string.
Proof.
  destruct (discord_text_round_trip (dc_demo_config 4 3) dc_demo_encode dc_demo_decode dc_demo_len "Long" dc_demo ltac:(done) ltac:(done)
    ltac:(by eexists) ltac:(done) (dc_demo_ok 4 3) ltac:(by split; vm_compute)) as (mid & w1 & He & Hok & Hr).
  exists mid, w1. split; [exact He|]. apply Hr; [|reflexivity]. destruct Hok as [Hc _ _ _].
  split; [exact Hc|split; [done|split; [apply NoDup_nil_2|done]]..|apply mc_all_new].
Defined.

Lemma discord_edit_any_author_witness :
  exists w1, dc_edit_message_text (dc_demo_config 4 3) dc_demo_encode dc_demo_len 7 "new" dc_demo = (Ok 7, w1) /\
    exists m w2, dc_get_messages (dc_demo_config 4 3) dc_demo_decode [7] w1 = (Ok [Some m], w2) /\ tm_text m = "new"%string.
Proof.
  destruct (discord_edit_any_author (dc_demo_config 4 3) dc_demo_encode dc_demo_decode dc_demo_len 7
    {| po_text := "old"; po_files := []; po_author := 501 |} 1%nat "new" dc_demo ltac:(done) ltac:(done)
    ltac:(by eexists) ltac:(done) (dc_demo_ok 4 3) ltac:(done) ltac:(done) ltac:(done)) as (w1 & He & _ & Hr).
  exists w1. split; [exact He|exact Hr].
Defined.

Lemma discord_upload_plan_witness :
  exists sent w1 bs, dc_upload (dc_demo_config 4 3) (buffer_message (dc_demo_encode "abcdefghij") "f") dc_demo = (Ok sent, w1) /\
    concat bs = dc_demo_encode "abcdefghij" /\ map sm_size sent = [4; 4; 2].
Proof.
  destruct (discord_upload_plan (dc_demo_config 4 3) dc_demo_decode (buffer_message (dc_demo_encode "abcdefghij") "f")
    (fb_set_unread (dc_demo_encode "abcdefghij") (buffer_message (dc_demo_encode "abcdefghij") "f")) dc_demo ltac:(done) ltac:(done)
    ltac:(by eexists) ltac:(done) ltac:(done) (dc_demo_ok 4 3) eq_refl I eq_refl ltac:(by eexists)) as (sent & w1 & bs & He & Hb & Hs & _).
  exists sent, w1, bs. split; [exact He|]. split; [exact Hb|exact Hs].
Defined.

Lemma discord_range_exact_witness :
  exists s w1, dc_download_file (dc_demo_config 4 3) 8 2 5 dc_demo = (Ok s, w1) /\ fault s = None /\ stream_bytes s = dc_demo_encode "cdef".
Proof.
  destruct (discord_range_exact (dc_demo_config 4 3) dc_demo_decode 8 _ (dc_demo_encode "abcdefghij") [] 2 5 dc_demo ltac:(done) ltac:(done)
    ltac:(by eexists) (dc_demo_ok 4 3) eq_refl eq_refl ltac:(lia) ltac:(by vm_compute)) as (s & w1 & He & Hf & Hb & _).
  exists s, w1. split; [exact He|]. split; [exact Hf|exact Hb].
Defined.
