(* ===== verification/TgWrites.v ===== *)
(** * The Telegram store: uploads, texts, copies and deletions
      ([tgdcfs/backends/telegram/store.py] and [uploader.py])

    Uploads are written as the run in which one worker saves the parts in
    their order and a part is sent before the next one is read; that the
    schedule of the workers does not matter is [UploaderProps].  Messages that
    can be cut at any offset (versions in the local cache) may have several
    parts in flight; they are uploaded like the others here. *)

From stdpp Require Import pretty.
From S2P Require Import Prelude Errors StoreKey Messages FileVersion ChunkCache Telethon ConfigValue Config TgStore UploaderProps.

Open Scope Z_scope.
Open Scope py_scope.

Definition MAX_TEXT_CHARS : Z := 4096.
Definition OVERFLOW_FILENAME : string := "overflow.json".
Definition DELETE_BATCH_SIZE : Z := 100.

Section Writes.
  Context {T : Type} `{Telethon T} (g : TgConfig).
  Context (encode : string -> bytes) (decode : bytes -> exc string).
  (** The premium upload, the switch of [delete_messages], the number of
      characters of a text ([len]), and how often a send that fails for ever
      is retried before the model gives up. *)
  Context (premium delete_on_remove : bool) (text_len : string -> Z) (send_fuel : nat).

(** ** Uploading one part as a document *)

(** [_upload_chunk]. *)
Fixpoint save_attempts (left_ : nat) (c : Client) (file part : Z) (total : option Z) (content : bytes) : st exn (Tg T) unit := fun w =>
  match left_ with
  | O => (Raise OutOfFuel, w)
  | S left_ =>
      match (let! success := client_save_part c file part total content in
             if success then sret tt else sraise (TechnicalError "Unexpected response")) w with
      | (Ok _, w) => (Ok tt, w)
      | (Raise ex, w) =>
          if is_Exception ex then
            match left_ with O => (Raise ex, w) | _ => save_attempts left_ c file part total content w end
          else (Raise ex, w)
      end
  end.

Section Message.
  Context {M : Type} `{Uploadable M}.

(** The parts of the file, each read and saved. *)
Fixpoint upload_parts (parts : list Z) (c : Client) (file : Z) (size chunk total read : Z) (m : M) : Tg T -> exc M * Tg T := fun w =>
  match parts with
  | [] => (Ok m, w)
  | p :: parts =>
      if size <=? read then upload_parts parts c file size chunk total read m w
      else
        let size_to_read := Z.min (size - read) chunk in
        match um_read size_to_read m with
        | (Raise ex, _) => (Raise ex, w)
        | (Ok content, m) =>
            match save_attempts (Z.to_nat MAX_PART_ATTEMPTS) c file p (if is_big_file size then Some total else None) content w with
            | (Raise ex, w) => (Raise ex, w)
            | (Ok _, w) => upload_parts parts c file size chunk total (read + size_to_read) m w
            end
        end
  end.

(** [FileUploader(client, file_msg).upload()]: what the server calls the file
    and its size. *)
Definition upload_document (c : Client) (m : M) : Tg T -> exc (M * UploadedFile * Z) * Tg T := fun w =>
  let size := get_size m in
  let chunk := upload_part_size_bytes (gc_transfer g) in
  let total := total_parts size chunk in
  let '(file, t) := lib_random_long (tg_server w) in
  let w := set_server t w in
  match um_open m with
  | (Raise ex, _) => (Raise ex, w)
  | (Ok _, m) =>
      match upload_parts (seqZ 0 total) c file size chunk total 0 m w with
      | (Raise ex, w) => (Raise ex, w)
      | (Ok m, w) =>
          match um_close m with
          | (Raise ex, _) => (Raise ex, w)
          | (Ok _, m) => (Ok (m, {| uf_id := file; uf_parts := total; uf_name := file_name m |}, size), w)
          end
      end
  end.

(** [_send_uploaded]: retried until the message is there. *)
Fixpoint send_uploaded (fuel : nat) (c : Client) (f : UploadedFile) (size : Z) : st exn (Tg T) SentFileMessage := fun w =>
  match fuel with
  | O => (Raise OutOfFuel, w)
  | S fuel =>
      match client_send_file c (gc_chat g) f (is_big_file size) w with
      | (Ok id, w) => (Ok {| sm_message_id := id; sm_size := size; sm_mirrors := []; sm_replicas := [] |}, w)
      | (Raise ex, w) => if is_Exception ex then send_uploaded fuel c f size w else (Raise ex, w)
      end
  end.

Definition upload_client (use_account : bool) : st exn (Tg T) Client :=
  if use_account && gc_account g then sret Account else next_bot g.

(** The parts of a message, one document each. *)
Fixpoint upload_messages (parts : list Z) (i : Z) (name : string) (use_account : bool) (m : M) : Tg T -> exc (list SentFileMessage) * Tg T := fun w =>
  match parts with
  | [] => (Ok [], w)
  | part :: parts =>
      let u := um m in
      let m := with_um {| um_name := "[part" +:+ pretty (i + 1) +:+ "]" +:+ name; um_size := part; um_caption := um_caption u;
                          um_offset := um_offset u; um_read_size := um_read_size u; um_version_id := um_version_id u |} m in
      match upload_client use_account w with
      | (Raise ex, w) => (Raise ex, w)
      | (Ok c, w) =>
          match upload_document c m w with
          | (Raise ex, w) => (Raise ex, w)
          | (Ok (m, f, size), w) =>
              match send_uploaded send_fuel c f size w with
              | (Raise ex, w) => (Raise ex, w)
              | (Ok sent, w) =>
                  match upload_messages parts (i + 1) name use_account (next_part part m) w with
                  | (Raise ex, w) => (Raise ex, w)
                  | (Ok rest, w) => (Ok (sent :: rest), w)
                  end
              end
          end
      end
  end.

Definition tg_upload (m : M) : st exn (Tg T) (list SentFileMessage) :=
  let size := get_size m in
  let '(part_size, use_account) := part_size_for premium size in
  upload_messages (tg_partition size part_size) 0 (file_name m) use_account m.

End Message.

Fixpoint edit_document (fuel : nat) (c : Client) (mid : Z) (f : UploadedFile) : st exn (Tg T) Z := fun w =>
  match fuel with
  | O => (Raise OutOfFuel, w)
  | S fuel =>
      match client_edit_message_media c (gc_chat g) mid f w with
      | (Ok id, w) => (Ok id, w)
      | (Raise ex, w) => if is_Exception ex then edit_document fuel c mid f w else (Raise ex, w)
      end
  end.

Definition replace_document (mid : Z) (buffer : bytes) (name : string) : st exn (Tg T) Z := fun w =>
  match next_bot g w with
  | (Raise ex, w) => (Raise ex, w)
  | (Ok c, w) =>
      match upload_document c (buffer_message buffer name) w with
      | (Raise ex, w) => (Raise ex, w)
      | (Ok (_, f, _), w) => edit_document send_fuel c mid f w
      end
  end.

(** ** Deletion *)

(** [delete_messages]: best effort. *)
Fixpoint delete_batches (fuel : nat) (ids : list Z) : Tg T -> exc unit * Tg T := fun w =>
  match fuel, ids with
  | O, _ | _, [] => (Ok tt, w)
  | S fuel, _ =>
      match (let! c := next_bot g in client_delete_messages c (gc_chat g) (ztake DELETE_BATCH_SIZE ids)) w with
      | (Ok _, w) => delete_batches fuel (zdrop DELETE_BATCH_SIZE ids) w
      | (Raise ex, w) => if is_Exception ex then delete_batches fuel (zdrop DELETE_BATCH_SIZE ids) w else (Raise ex, w)
      end
  end.

(** [self._overflow_of.pop(mid, None)] of every id. *)
Fixpoint pop_overflows (ids : list Z) (known : dict Z Z) : list Z * dict Z Z :=
  match ids with
  | [] => ([], known)
  | i :: ids =>
      let '(docs, known') := pop_overflows ids (Dict.del i known) in
      (match Dict.get i known with Some doc => doc :: docs | None => docs end, known')
  end.

Definition tg_delete_messages (ids : list Z) (force : bool) : st exn (Tg T) unit := fun w =>
  if negb force && negb delete_on_remove then (Ok tt, w)
  else
    let '(docs, known) := pop_overflows ids (ss_overflow_of (tg_store w)) in
    let w := put_overflow_of known w in
    let unique := remove_dups (List.filter (fun i => 0 <? i) (ids ++ docs)) in
    delete_batches (length unique) unique w.

(** ** Texts *)

(** [_send_overflow]. *)
Definition send_overflow (text : string) : st exn (Tg T) Z :=
  let! sent := tg_upload (buffer_message (encode text) OVERFLOW_FILENAME) in
  match sent with
  | [] => sraise IndexError
  | s :: _ =>
      let doc := sm_message_id s in
      let! w := sget in
      sput (put_overflow_text (mc_set doc (Some text) (ss_overflow_text (tg_store w))) w) ;;;
      sret doc
  end.

Definition overflow_marker (doc : Z) : string := OVERFLOW_PREFIX +:+ pretty doc.

(** The document of a text that is too long, and what the message says. *)
Definition overflow_of_text (text : string) : st exn (Tg T) (option Z * string) :=
  if MAX_TEXT_CHARS <? text_len text then let! doc := send_overflow text in sret (Some doc, overflow_marker doc)
  else sret (None, text).

Definition send_text (text : string) : st exn (Tg T) Z :=
  let! o := overflow_of_text text in
  let! c := next_bot g in
  let! mid := client_send_text c (gc_chat g) o.2 in
  let! w := sget in
  sput (match o.1 with Some doc => put_overflow_of (Dict.set mid doc (ss_overflow_of (tg_store w))) w | None => w end) ;;;
  sret mid.

(** [_edit_text]. *)
Definition edit_text (mid : Z) (text : string) : st exn (Tg T) Z :=
  let! c := next_bot g in
  stry (client_edit_message_text c (gc_chat g) mid text) (fun ex =>
    match ex with
    | MessageNotModifiedError => sret mid
    | RPCError m =>
        if bool_decide (m = "Message to edit not found") then sraise (MessageNotFound mid)
        else if bool_decide (m = "Message is not modified") then sret mid else sraise ex
    | _ => sraise ex
    end).

Definition edit_message_text (mid : Z) (text : string) : st exn (Tg T) Z :=
  let! w := sget in
  let superseded := Dict.get mid (ss_overflow_of (tg_store w)) in
  let! o := overflow_of_text text in
  let! res := edit_text mid o.2 in
  let! w := sget in
  sput (put_overflow_of (match o.1 with
                         | Some doc => Dict.set mid doc (ss_overflow_of (tg_store w))
                         | None => Dict.del mid (ss_overflow_of (tg_store w))
                         end) w) ;;;
  match superseded with
  | Some doc => if decide (o.1 = Some doc) then sret res else tg_delete_messages [doc] true ;;; sret res
  | None => sret res
  end.

(** ** Copies *)

Definition forward_messages_from (source_chat : Z) (ids : list Z) : st exn (Tg T) (list Z) :=
  let! c := next_bot g in client_forward_messages c source_chat (gc_chat g) ids.

(** [copy_from] another Telegram channel, or from a store of another kind. *)
Definition copy_from (source : option Z) (ids : list Z) : st exn (Tg T) (option (list Z)) :=
  match source with
  | None => sret None
  | Some chat => let! ids := forward_messages_from chat ids in sret (Some ids)
  end.

Context (get_messages : list Z -> st exn (Tg T) (list (option TgMessage))) (download : Z -> Z -> Z -> st exn (Tg T) stream).

Definition reupload_within (mid : Z) : st exn (Tg T) Z :=
  let! messages := get_messages [mid] in
  match messages with
  | Some m :: _ =>
      match tm_document m with
      | None => sraise (MessageNotFound mid)
      | Some d =>
          let size := doc_size d in
          let! s := download mid 0 (size - 1) in
          let! sent := tg_upload (stream_message s size ("part-" +:+ pretty mid)) in
          match sent with [one] => sret (sm_message_id one) | _ => sraise (TechnicalError "Re-uploading produced several parts") end
      end
  | None :: _ => sraise (MessageNotFound mid)
  | [] => sraise IndexError
  end.

Fixpoint reupload_each (ids : list Z) : st exn (Tg T) (list Z) :=
  match ids with
  | [] => sret []
  | i :: ids => let! n := reupload_within i in let! rest := reupload_each ids in sret (n :: rest)
  end.

Definition copy_within (ids : list Z) : st exn (Tg T) (list Z) :=
  if negb (nonempty ids) then sret []
  else stry (forward_messages_from (gc_chat g) ids) (fun ex => if is_Exception ex then reupload_each ids else sraise ex).

End Writes.
