(* ===== verification/TgTextProps.v ===== *)
(** * Texts of any length survive in a Telegram channel

    A text the server accepts is a message; a longer one is a document and a
    message that names it.  Whichever it is, what is read back is the text
    that was sent, from the caches, from the server, or by a process started
    later; an edit leaves no document behind. *)

From stdpp Require Import pretty.
From S2P Require Import Prelude Errors StoreKey Messages FileVersion ChunkCache Telethon TelethonProps ConfigValue Config ConfigProps TgStore TgReadProps UploaderProps TgWrites.

Open Scope Z_scope.
Open Scope py_scope.

Section Texts.
  Context {T : Type} `{TelethonTexts T} (g : TgConfig).
  Hypothesis Hbots : gc_bots g <> 0%nat.
  Hypothesis Htransfer : transfer_ok (gc_transfer g).

Abbreviation chat := (gc_chat g).
Abbreviation cs := (upload_part_size_bytes (gc_transfer g)).

Lemma chunk_size_pos : 0 < cs.
Proof. destruct Htransfer. unfold upload_part_size_bytes. lia. Qed.

(** ** Saving the parts of a document *)

Lemma save_attempts_spec left_ c file p total content w : (0 < left_)%nat ->
  let '(r, w') := save_attempts left_ c file p total content w in
  quiet w w' /\
  (forall f big q x, stored (tg_server w) f big q x -> (f, q) <> (file, p) -> stored (tg_server w') f big q x) /\
  match r with
  | Ok _ => stored (tg_server w') file (is_some total) p content
  | Raise _ => ~ online (tg_server w) c
  end.
Proof.
  revert w. induction left_ as [|left_ IH]; intros w Hl; [lia|]. cbn [save_attempts]. unfold sbind, sret, sraise, client_save_part, call.
  pose proof (save_part_law c file p total content (tg_server w)) as Hlaw.
  destruct (lib_save_part c file p total content (tg_server w)) as [r t]. destruct Hlaw as (Hg & Hoth & Hr).
  assert (forall y, ~ online (tg_server w) c ->
    let '(r, w') := match left_ with O => (Raise y, set_server t w) | _ => save_attempts left_ c file p total content (set_server t w) end in
    quiet w w' /\
    (forall f big q x, stored (tg_server w) f big q x -> (f, q) <> (file, p) -> stored (tg_server w') f big q x) /\
    match r with Ok _ => stored (tg_server w') file (is_some total) p content | Raise _ => ~ online (tg_server w) c end) as Hagain.
  { intros y Hoff. destruct left_ as [|n]; [done|]. specialize (IH (set_server t w) ltac:(lia)).
    destruct (save_attempts (S n) c file p total content (set_server t w)) as [r' w']. destruct IH as (Hq & Hoth2 & Hr2).
    split; [etrans; [by apply (quiet_server t)|done]|]. split; [intros *; eauto|]. by destruct r'. }
  destruct r as [[|]|y]; [by split| |].
  - specialize (Hagain (TechnicalError "Unexpected response") Hr). by destruct left_.
  - destruct (is_Exception y) eqn:Hx; [|by split]. specialize (Hagain y Hr). by destruct left_.
Qed.

Section Document.
  Context {M : Type} `{ExactReads M} (content : bytes) (file : Z).

Abbreviation size := (zlen content).
Abbreviation total := (total_parts size cs).
Abbreviation big := (is_big_file size).
Abbreviation piece := (part content cs).

Lemma upload_parts_spec c n : forall i m w,
  0 <= i -> i + Z.of_nat n = total -> readable m -> rest m = zdrop (i * cs) content ->
  (forall p, 0 <= p < i -> stored (tg_server w) file big p (piece p)) ->
  let '(r, w') := upload_parts (seqZ i (Z.of_nat n)) c file size cs total (i * cs) m w in
  quiet w w' /\
  match r with
  | Ok _ => forall p, 0 <= p < total -> stored (tg_server w') file big p (piece p)
  | Raise _ => ~ online (tg_server w) c
  end.
Proof.
  pose proof chunk_size_pos as Hcs. pose proof (total_bounds content cs Hcs) as (Ht0 & _ & Ht).
  induction n as [|n IH]; intros i m w Hi Hn Hm Hrest Hst.
  - cbn [seqZ]. split; [done|]. intros p Hp. apply Hst. lia.
  - rewrite seqZ_cons by lia. cbn [upload_parts]. rewrite (proj2 (Z.leb_gt _ _)) by nia.
    set (k := Z.min (size - i * cs) cs). assert (0 < k) as Hk by (unfold k; nia).
    destruct (exact_read m k Hm Hk) as (m' & -> & Hm' & Hrest'); [rewrite Hrest, zlen_zdrop by nia; unfold k; lia|].
    rewrite Hrest in *. rewrite zdrop_zdrop in Hrest' by nia.
    assert (ztake k (zdrop (i * cs) content) = piece i) as ->.
    { unfold part. rewrite zslice_spec, (Z.min_l (i * cs)) by nia. f_equal. unfold k. lia. }
    pose proof (save_attempts_spec (Z.to_nat MAX_PART_ATTEMPTS) c file i (if big then Some total else None) (piece i) w ltac:(vm_compute; lia)) as Hsv.
    destruct (save_attempts _ c file i _ (piece i) w) as [[u|x] w1]; destruct Hsv as (Hq & Hoth & Hr); [|done].
    assert (is_some (if big then Some total else None) = big) as He by by destruct big. rewrite He in Hr.
    replace (Z.pred (Z.of_nat (S n))) with (Z.of_nat n) by lia. replace (Z.succ i) with (i + 1) by lia.
    destruct (decide (i + 1 < total)) as [Hlt|Hge].
    + assert (k = cs) as Hkc by (unfold k; nia). rewrite Hkc in *. replace (i * cs + cs) with ((i + 1) * cs) in * by lia.
      specialize (IH (i + 1) m' w1 ltac:(lia) ltac:(lia) Hm' Hrest').
      destruct (upload_parts (seqZ (i + 1) (Z.of_nat n)) c file size cs total ((i + 1) * cs) m' w1) as [r w2].
      destruct IH as [Hq2 Hr2].
      { intros p Hp. destruct (decide (p = i)) as [->|]; [done|]. apply Hoth; [apply Hst; lia|congruence]. }
      split; [by etrans|]. destruct r; [done|]. by eapply quiet_online.
    + assert (n = 0%nat) as -> by lia. cbn [seqZ Z.of_nat]. split; [done|]. intros p Hp.
      destruct (decide (p = i)) as [->|]; [done|]. apply Hoth; [apply Hst; lia|congruence].
Qed.

End Document.

(** ** Sending a document *)

Lemma quiet_cycle n (w : Tg T) : quiet w (set_cycle n w).
Proof. done. Qed.

(** A message from memory. *)
Definition buffered (content : bytes) (m : FileMessageFromBuffer) : Prop :=
  fb_buffer m = content /\ um_offset (fb_um m) = 0 /\ get_size m = zlen content.

Lemma upload_document_spec c content m w : buffered content m ->
  let '(r, w') := upload_document g c m w in
  quiet w w' /\
  match r with
  | Ok (_, f, size) => size = zlen content /\ uf_parts f = total_parts size cs /\
      forall p, 0 <= p < uf_parts f -> stored (tg_server w') (uf_id f) (is_big_file size) p (part content cs p)
  | Raise _ => ~ online (tg_server w) c
  end.
Proof.
  intros (Hb & Ho & Hs). unfold upload_document. rewrite Hs. pose proof (random_long_law (tg_server w)) as Hl.
  destruct (lib_random_long (tg_server w)) as [file t]. cbn [snd] in Hl. set (w0 := set_server t w).
  assert (quiet w w0) as Hq0 by done. cbn [um_open buffer_uploadable]. unfold fb_open, sbind, sget, sput.
  set (m0 := fb_set_unread _ m).
  pose proof (total_bounds content cs chunk_size_pos) as (Ht0 & _ & _).
  pose proof (upload_parts_spec content file c (Z.to_nat (total_parts (zlen content) cs)) 0 m0 w0 ltac:(lia) ltac:(lia) I) as Hu.
  rewrite Z2Nat.id in Hu by lia. replace (0 * cs) with 0 in Hu by lia.
  destruct (upload_parts _ c file (zlen content) cs _ 0 m0 w0) as [r w1]. destruct Hu as [Hq Hr].
  { simpl. rewrite Hb, Ho. by rewrite py_drop_pos by lia. }
  { intros p Hp. lia. }
  destruct r as [m1|x]; cbn; (split; [by etrans|]).
  - done.
  - by eapply quiet_online.
Qed.

Lemma send_uploaded_spec fuel c f content w : (0 < fuel)%nat -> uf_parts f = total_parts (zlen content) cs ->
  (forall p, 0 <= p < uf_parts f -> stored (tg_server w) (uf_id f) (is_big_file (zlen content)) p (part content cs p)) ->
  online (tg_server w) c ->
  exists id w', send_uploaded g fuel c f (zlen content) w =
      (Ok {| sm_message_id := id; sm_size := zlen content; sm_mirrors := []; sm_replicas := [] |}, w') /\
    quiet w w' /\ ~ known (tg_server w) chat id /\ known (tg_server w') chat id /\ carries (tg_server w') chat id content.
Proof.
  intros Hf Hp Hst Hon. destruct fuel as [|fuel]; [lia|]. cbn [send_uploaded]. unfold client_send_file, sbind, call.
  pose proof (total_bounds content cs chunk_size_pos) as (Ht0 & Hle & _). pose proof (zlen_nonneg content) as Hz.
  set (n := Z.to_nat (uf_parts f)). set (parts := map (part content cs) (seqZ 0 (Z.of_nat n))).
  pose proof (send_file_law c chat f (is_big_file (zlen content)) parts (tg_server w)) as Hlaw.
  destruct (lib_send_file c chat f _ (tg_server w)) as [r t]. destruct Hlaw as [Hg Hr].
  { unfold parts, zlen. rewrite length_map, length_seqZ. lia. }
  { intros p x Hx Hp0. unfold parts in Hx. apply list_lookup_fmap_Some in Hx as (y & -> & Hy).
    apply lookup_seqZ in Hy as [-> Hlt]. rewrite Z2Nat.id by lia. apply Hst. unfold n in Hlt. lia. }
  destruct r as [[id|]|x]; [|by destruct Hr|by destruct Hr]. destruct Hr as (Hn & Hk & Hc). exists id, (set_server t w).
  split; [done|]. split; [done|]. split; [done|]. split; [done|].
  assert (concat parts = content) as He; [|by rewrite He in Hc]. unfold parts. rewrite parts_content by (try lia; apply chunk_size_pos).
  unfold n. rewrite Hp, Z2Nat.id by lia. rewrite Z.min_l, Z.min_r by lia. apply zslice_full.
Qed.

Context (encode : string -> bytes) (decode : bytes -> exc string) (premium : bool) (text_len : string -> Z) (send_fuel : nat).
Hypothesis Hfuel : (0 < send_fuel)%nat.

Lemma quiet_reachable w w' : quiet w w' -> reachable g (tg_server w) -> reachable g (tg_server w').
Proof. intros [[Hk _ _] _ _ _ _]. by apply reachable_keeps. Qed.

(** A document that fits one message is one part. *)
Lemma partition_one size : 0 < size -> size <= PART_SIZE_DEFAULT -> tg_partition size PART_SIZE_DEFAULT = [size].
Proof.
  intros Hlo Hhi. unfold tg_partition. assert ((size + PART_SIZE_DEFAULT - 1) / PART_SIZE_DEFAULT = 1) as ->.
  { symmetry. apply (Z.div_unique_pos _ _ _ (size - 1)); unfold PART_SIZE_DEFAULT in *; lia. }
  simpl. f_equal. lia.
Qed.

Lemma tg_upload_spec content name w : 0 < zlen content -> zlen content <= PART_SIZE_DEFAULT -> reachable g (tg_server w) ->
  exists id w', tg_upload g premium send_fuel (buffer_message content name) w =
      (Ok [{| sm_message_id := id; sm_size := zlen content; sm_mirrors := []; sm_replicas := [] |}], w') /\
    quiet w w' /\ ~ known (tg_server w) chat id /\ known (tg_server w') chat id /\ carries (tg_server w') chat id content.
Proof.
  intros Hz Hl Hrc. unfold tg_upload.
  assert (get_size (buffer_message content name) = zlen content) as ->.
  { unfold get_size. simpl. by destruct (zlen content =? 0). }
  unfold part_size_for. rewrite (proj2 (Z.ltb_ge _ _)) by lia. cbn [andb].
  rewrite partition_one by done. cbn [upload_messages]. set (m := with_um _ _).
  assert (buffered content m) as Hm.
  { split; [done|]. split; [done|]. unfold get_size, m. simpl. by destruct (zlen content =? 0). }
  unfold upload_client. cbn [andb]. destruct (next_bot_any g Hbots w) as (i & -> & Hci). set (w1 := set_cycle _ w).
  assert (quiet w w1) as Hq1 by done.
  pose proof (upload_document_spec (Bot i) content m w1 Hm) as Hu.
  destruct (upload_document g (Bot i) m w1) as [[[[m' f] size]|x] w2]; destruct Hu as [Hq2 Hr].
  2: { destruct Hr. apply (online_client g); [done|]. by eapply quiet_reachable. }
  destruct Hr as (-> & Hp & Hst). assert (quiet w w2) as Hq12 by (by etrans).
  destruct (send_uploaded_spec send_fuel (Bot i) f content w2 Hfuel Hp Hst) as (id & w3 & -> & Hq3 & Hn & Hk & Hc).
  { apply (online_client g); [done|]. by apply (quiet_reachable w). }
  cbn [upload_messages]. exists id, w3. split; [done|]. split; [by etrans|]. split; [by eapply quiet_unknown|done].
Qed.

(** ** What the server and the caches hold of a text *)

Definition text_message (mid : Z) (text : string) : TgMessage := {| tm_id := mid; tm_text := text; tm_document := None |}.

Abbreviation block_size := (chunk_cache_block_bytes (gc_transfer g)).

(** The document [doc] holds the text, and no cache says otherwise. *)
Record holds_text (doc : Z) (text : string) (w : Tg T) : Prop := {
  ht_read : read_ok (just chat doc (encode text)) w;
  ht_blocks : cache_true (just chat doc (encode text)) block_size (tg_chunks w);
  ht_texts : mc_ok (ss_overflow_text (tg_store w)) /\ mc_all (fun k s => k = doc -> s = text) (ss_overflow_text (tg_store w));
  ht_nonempty : 0 < zlen (encode text)
}.

(** Message [mid] says the text, or names a document that holds it. *)
Record text_kept (mid : Z) (text said : string) (w : Tg T) : Prop := {
  tk_says : says (tg_server w) chat mid said;
  tk_ids : ids_ok w;
  tk_cached : mc_all (fun k m => k = mid -> m = text_message mid said) (channel_ids chat w);
  tk_text : (said = text /\ String.prefix OVERFLOW_PREFIX text = false) \/
            (exists doc, said = overflow_marker doc /\ holds_text doc text w)
}.

Lemma marker_prefix doc : String.prefix OVERFLOW_PREFIX (overflow_marker doc) = true.
Proof. unfold overflow_marker. by destruct (pretty doc). Qed.

Lemma marker_id doc : overflow_id (overflow_marker doc) = Ok doc.
Proof. unfold overflow_id. change (str_drop _ _) with (pretty doc). apply int_of_pretty. Qed.

(** ** Reading a text *)

Lemma text_fact mid said docs : forall c t,
  says t chat mid said /\ carries_all t docs ->
  let '(r, t') := lib_get_messages c chat [mid] t in
  keeps t t' /\ (says t' chat mid said /\ carries_all t' docs) /\
  (forall ch k m, ((ch = chat -> k = mid -> m = text_message mid said) /\ (forall b, docs ch k = Some b -> true_of t ch k b m)) ->
                  (ch = chat -> k = mid -> m = text_message mid said) /\ (forall b, docs ch k = Some b -> true_of t' ch k b m)) /\
  match r with
  | Raise x => is_Exception x = true /\ ~ online t c
  | Ok found => exists m, found = [Some m] /\
      ((chat = chat -> mid = mid -> transform_message m = text_message mid said) /\
       (forall b, docs chat mid = Some b -> true_of t' chat mid b (transform_message m))) /\ True
  end.
Proof.
  intros c t [Hs Hd]. pose proof (get_messages_law c chat [mid] t) as Hlaw. pose proof (get_texts_law c chat [mid] t) as Htexts.
  destruct (lib_get_messages c chat [mid] t) as [r t']. destruct Hlaw as (_ & _ & _ & Hr). destruct Htexts as ([Hk Hsays _] & Hr2).
  split; [done|]. split; [split; [by apply Hsays|by eapply carries_all_keeps]|].
  split. { intros ch k m [Hm1 Hm2]. split; [done|]. intros b Hb. eapply true_keeps; [done|by apply Hm2]. }
  destruct r as [found|x]; [|done].
  apply Forall2_cons_inv_l in Hr2 as (om & rest & Hone & ->%Forall2_nil_inv_l & ->). destruct (Hone said Hs) as (m & -> & Hid & Htx & Hmedia).
  exists m. split; [done|]. split; [|done]. split.
  - intros _ _. unfold transform_message, text_message. by rewrite Hid, Htx, Hmedia.
  - intros b Hb. exfalso. apply Forall2_cons_inv_l in Hr as (om & rest & [_ Hdoc] & _ & [= <- _]).
    destruct (Hdoc b (Hd chat mid b Hb)) as (m' & d' & [= <-] & Hm' & _). congruence.
Qed.

Context (others : Z -> bool -> ChunkCache -> ChunkCache) (depth : nat).
Hypothesis Hothers : forall docs i stored c, cache_true docs block_size c -> cache_true docs block_size (others i stored c).

(** The text of the document, from the cache or downloaded. *)
Lemma overflow_text_spec doc text w : reachable g (tg_server w) -> decode (encode text) = Ok text -> holds_text doc text w ->
  exists w', overflow_text_of g decode (S depth) others doc w = (Ok (Some text), w').
Proof.
  clear Hfuel. intros Hrc Hdec [Hread Hblocks [Hok Hall] Hne]. cbn [overflow_text_of].
  pose proof (mc_get_spec _ doc _ Hall) as [Hv _]. destruct (mc_get doc (ss_overflow_text (tg_store w))) as [[s|] cache]; cbn [fst] in Hv.
  { rewrite (Hv s eq_refl eq_refl). by eexists. }
  set (w1 := put_overflow_text cache w). assert (read_ok (just chat doc (encode text)) w1) as Hread1 by (by destruct Hread; split).
  pose proof (download_file_step g (overflow_text_of g decode depth others) (just chat doc (encode text)) doc (encode text)
    (proj2 (just_spec _ _ _ _ _ _) (conj eq_refl (conj eq_refl eq_refl))) Hbots Htransfer others 0 (-1) w1 (Hothers _) Hread1 Hblocks ltac:(lia) ltac:(change (last_of _ _) with (zlen (encode text) - 1); lia)
    ltac:(change (last_of _ _) with (zlen (encode text) - 1); lia)) as Hd.
  destruct (download_file g _ others doc 0 (-1) w1) as [[s|x] w2]; destruct Hd as [_ Hr].
  2: { by destruct Hr. }
  unfold served in Hr. destruct (fault s); [by destruct Hr as (_ & Hn & _)|]. rewrite Hr. change (last_of _ _) with (zlen (encode text) - 1).
  replace (zlen (encode text) - 1 + 1) with (zlen (encode text)) by lia. rewrite zslice_full, Hdec. by eexists.
Qed.

(** The message itself, from the caches or any bot; what is known of the
    document it names stays true. *)
Lemma broker_text mid said docs w : reachable g (tg_server w) -> ids_ok w -> says (tg_server w) chat mid said ->
  mc_all (fun k m => k = mid -> m = text_message mid said) (channel_ids chat w) ->
  ids_true docs w -> carries_all (tg_server w) docs ->
  exists w', broker_get_messages g [mid] w = (Ok [Some (text_message mid said)], w') /\
    reachable g (tg_server w') /\ tg_chunks w' = tg_chunks w /\ tg_store w' = tg_store w /\ read_ok docs w'.
Proof.
  intros Hrc Hi Hs Hc Ht Hd.
  set (base := fun t => says t chat mid said /\ carries_all t docs).
  set (P := fun t ch k m => (ch = chat -> k = mid -> m = text_message mid said) /\ (forall b, docs ch k = Some b -> true_of t ch k b m)).
  assert (fact_ok base P w) as Hfo by (split; [done| |done]; intros ch k m Hin; split; [by intros ->; apply Hc|by apply (Ht ch)]).
  pose proof (broker_fact g mid Hbots base P (fun _ _ => True)) as Hb.
  specialize (Hb ltac:(intros t m [Hm _]; by rewrite (Hm eq_refl eq_refl)) (text_fact mid said docs) w Hfo).
  destruct (broker_get_messages g [mid] w) as [[found|x] w1]; destruct Hb as ([Hk Hok Hch Hst] & Hr); [|by destruct Hr].
  destruct Hr as (m & -> & [-> _]); [|done..]. exists w1. split; [done|]. split; [by eapply reachable_keeps|]. split; [done|]. split; [done|].
  destruct (Hok Hfo) as [Hi1 Hc1 [_ Hb1]]. split; [done| |done]. intros ch k m' Hin. by apply (Hc1 ch k m' Hin).
Qed.

Lemma read_text_spec mid text said w : reachable g (tg_server w) -> decode (encode text) = Ok text -> text_kept mid text said w ->
  exists w', store_get_messages g decode (S depth) others [mid] w = (Ok [Some (text_message mid text)], w').
Proof.
  intros Hrc Hdec [Hs Hi Hc Ht]. unfold store_get_messages, tg_get_messages, sbind. destruct Ht as [[-> Hpre] | (doc & -> & Hh)].
  - destruct (broker_text mid text (fun _ _ => None) w Hrc Hi Hs Hc ltac:(done) ltac:(done)) as (w1 & -> & _). cbn [existsb].
    unfold is_overflow. cbn [tm_text text_message]. rewrite Hpre. by eexists.
  - destruct (broker_text mid _ (just chat doc (encode text)) w Hrc Hi Hs Hc) as (w1 & -> & Hrc1 & Hch & Hst & Hread); [apply Hh..|].
    cbn [existsb]. unfold is_overflow. cbn [tm_text text_message]. rewrite marker_prefix. cbn [orb resolve_all].
    unfold sbind, resolve_overflow, is_overflow. cbn [tm_document tm_text text_message]. rewrite marker_prefix, marker_id. cbn [negb].
    unfold sbind, sget, sput, sret.
    destruct (overflow_text_spec doc text (put_overflow_of (Dict.set mid doc (ss_overflow_of (tg_store w1))) w1) Hrc1 Hdec) as (w2 & He).
    { destruct Hh as [_ Hb Ht Hn]. split; [by destruct Hread; split|simpl; by rewrite Hch| |done].
      simpl. by rewrite Hst. }
    simpl tm_id. rewrite He. by eexists.
Qed.

(** ** Sending a text *)

(** What the caches hold belongs to messages that exist. *)
Record caches_known (w : Tg T) : Prop := {
  ck_ids : ids_ok w;
  ck_messages : mc_all (fun k _ => known (tg_server w) chat k) (channel_ids chat w);
  ck_chunks : cache_ok (tg_chunks w);
  ck_blocks : forall m i blk, ((chat, m, i), blk) ∈ cc_blocks (tg_chunks w) -> known (tg_server w) chat m;
  ck_texts : mc_ok (ss_overflow_text (tg_store w));
  ck_overflow : mc_all (fun k _ => known (tg_server w) chat k) (ss_overflow_text (tg_store w))
}.

Lemma caches_known_quiet w w' : quiet w w' -> caches_known w -> caches_known w'.
Proof.
  intros [[_ _ Hk] Hi Hs Hc Hst] [[K1 K1'] K2 K3 K4 K5 K6]. unfold channel_ids in *. split; unfold ids_ok, channel_ids; rewrite ?Hi, ?Hs, ?Hc, ?Hst; try done.
  - eapply mc_all_weaken; [|exact K2]. intros k m. apply Hk.
  - intros m i blk Hin. eapply Hk, K4, Hin.
  - eapply mc_all_weaken; [|exact K6]. intros k m. apply Hk.
Qed.

Definition unlisted (mid : Z) (w : Tg T) : Prop := mc_all (fun k _ => k <> mid) (channel_ids chat w).

Lemma unlisted_unknown mid w : caches_known w -> ~ known (tg_server w) chat mid -> unlisted mid w.
Proof. intros Hc Hn. eapply mc_all_weaken; [|apply (ck_messages _ Hc)]. by intros k _ Hk ->. Qed.

(** A document no cache describes is read truly. *)
Lemma unlisted_read doc content w : unlisted doc w -> ids_ok w -> carries (tg_server w) chat doc content -> read_ok (just chat doc content) w.
Proof.
  intros Hu Hi Hc. split; [done| |by intros ch m b (-> & -> & ->)%just_spec]. intros ch k m Hin b (-> & -> & _)%just_spec. by destruct (Hu doc m Hin).
Qed.

(** What keeps the text of a document. *)
Lemma holds_text_keeps doc text w w' : holds_text doc text w -> unlisted doc w' -> ids_ok w' -> carries (tg_server w') chat doc (encode text) ->
  (cache_true (just chat doc (encode text)) block_size (tg_chunks w) -> cache_true (just chat doc (encode text)) block_size (tg_chunks w')) ->
  ss_overflow_text (tg_store w') = ss_overflow_text (tg_store w) -> holds_text doc text w'.
Proof.
  intros [_ Hb Ht Hn] Hu Hi Hc Hbl Hst. split; [by apply unlisted_read|by apply Hbl|by rewrite Hst|done].
Qed.

(** The texts the model can send: those that a message can say, and those a
    document can hold. *)
Definition sendable (text : string) : Prop :=
  decode (encode text) = Ok text /\
  if MAX_TEXT_CHARS <? text_len text then 0 < zlen (encode text) <= PART_SIZE_DEFAULT
  else accepted text /\ String.prefix OVERFLOW_PREFIX text = false.

Hypothesis Hmarker : forall doc, accepted (overflow_marker doc).

Lemma send_overflow_spec text w : caches_known w -> reachable g (tg_server w) -> 0 < zlen (encode text) <= PART_SIZE_DEFAULT ->
  exists doc w', send_overflow g encode premium send_fuel text w = (Ok doc, w') /\
    grows (tg_server w) (tg_server w') /\ caches_known w' /\ ss_overflow_of (tg_store w') = ss_overflow_of (tg_store w) /\
    ~ known (tg_server w) chat doc /\ unlisted doc w' /\ holds_text doc text w' /\ channel_ids chat w' = channel_ids chat w.
Proof.
  intros Hck Hrc [Hlo Hhi]. unfold send_overflow, sbind.
  destruct (tg_upload_spec (encode text) OVERFLOW_FILENAME w Hlo Hhi Hrc) as (doc & w1 & -> & Hq & Hn & Hk & Hc).
  unfold sget, sput, sret. cbn [sm_message_id]. pose proof (caches_known_quiet w w1 Hq Hck) as Hck1.
  pose proof Hq as [Hg Hi Hs Hch Hst]. set (w2 := put_overflow_text _ w1). exists doc, w2. split; [done|]. split; [done|].
  pose proof Hck1 as [K1 K2 K3 K4 K5 K6].
  split. { split; try done; [by apply mc_set_ok|]. by apply mc_set_all. }
  split; [simpl; by rewrite Hst|]. split; [done|].
  assert (unlisted doc w2) as Hu.
  { change (unlisted doc w1). unfold unlisted, channel_ids. rewrite Hi, Hs. by apply (unlisted_unknown doc w). }
  split; [done|]. split; [|unfold channel_ids; simpl; by rewrite Hi, Hs]. split.
  - by apply unlisted_read.
  - split; [done|]. intros ch m i blk b Hin (-> & -> & ->)%just_spec. exfalso. apply Hn. eapply (ck_blocks _ Hck). by rewrite <- Hch.
  - split; [by apply mc_set_ok|]. apply mc_set_all; [by intros x [= <-]|]. simpl. rewrite Hst.
    eapply mc_all_weaken; [|apply (ck_overflow _ Hck)]. by intros k s Hkn ->.
  - done.
Qed.

(** What a message has to say for [text], and the document it names. *)
Definition said_as (text : string) (doc : option Z) (said : string) (w : Tg T) : Prop :=
  accepted said /\
  match doc with
  | None => said = text /\ String.prefix OVERFLOW_PREFIX text = false
  | Some d => said = overflow_marker d /\ unlisted d w /\ holds_text d text w
  end.

Lemma overflow_of_text_spec text w : caches_known w -> reachable g (tg_server w) -> sendable text ->
  exists doc said w', overflow_of_text g encode premium text_len send_fuel text w = (Ok (doc, said), w') /\
    grows (tg_server w) (tg_server w') /\ caches_known w' /\ ss_overflow_of (tg_store w') = ss_overflow_of (tg_store w) /\
    channel_ids chat w' = channel_ids chat w /\ said_as text doc said w' /\ (forall d, doc = Some d -> ~ known (tg_server w) chat d).
Proof.
  intros Hck Hrc [_ Hs]. unfold overflow_of_text. destruct (MAX_TEXT_CHARS <? text_len text).
  - destruct (send_overflow_spec text w Hck Hrc Hs) as (d & w1 & He & Hg & Hk & Ho & Hn & Hu & Ht & Hi). unfold sbind. rewrite He.
    exists (Some d), (overflow_marker d), w1. do 5 (split; [done|]). split; [by split_and!|]. by intros d' [= <-].
  - exists None, text, w. do 5 (split; [done|]). split; [|done]. by destruct Hs.
Qed.

(** A document that holds a text is there. *)
Lemma holds_carries doc text w : holds_text doc text w -> carries (tg_server w) chat doc (encode text).
Proof. intros [[_ _ Hc] _ _ _]. by apply Hc, just_spec. Qed.

Lemma said_kept mid text doc said w : says (tg_server w) chat mid said -> ids_ok w ->
  mc_all (fun k m => k = mid -> m = text_message mid said) (channel_ids chat w) -> said_as text doc said w -> text_kept mid text said w.
Proof.
  intros Hs Hi Hc [_ Hd]. split; [done|done|done|]. destruct doc as [d|]; [|by left]. right. exists d. by destruct Hd as (-> & _ & ?).
Qed.

Lemma said_as_keeps text doc said w w' : said_as text doc said w -> keeps (tg_server w) (tg_server w') -> ids_ok w' ->
  channel_ids chat w' = channel_ids chat w -> tg_chunks w' = tg_chunks w ->
  ss_overflow_text (tg_store w') = ss_overflow_text (tg_store w) -> said_as text doc said w'.
Proof.
  intros [Ha Hd] Hk Hi Hch Hcc Hst. split; [done|]. destruct doc as [d|]; [|done]. destruct Hd as (-> & Hu & Ht).
  assert (unlisted d w') as Hu' by (unfold unlisted; by rewrite Hch). split; [done|]. split; [done|].
  eapply holds_text_keeps; [done|done|done| |by rewrite Hcc|done]. by apply (keeps_carries _ _ Hk), holds_carries.
Qed.

Lemma send_text_spec text w : caches_known w -> reachable g (tg_server w) -> sendable text ->
  exists mid said w', send_text g encode premium text_len send_fuel text w = (Ok mid, w') /\
    grows (tg_server w) (tg_server w') /\ text_kept mid text said w'.
Proof.
  intros Hck Hrc Hs. unfold send_text, sbind. destruct (overflow_of_text_spec text w Hck Hrc Hs) as (doc & said & w1 & -> & Hg & Hk & Ho & Hi & Hsd & Hn).
  destruct (next_bot_any g Hbots w1) as (i & -> & Hci). unfold client_send_text, call. cbn [fst snd].
  pose proof (send_message_law (Bot i) chat said (tg_server w1) (proj1 Hsd)) as Hlaw. cbn [tg_server set_cycle].
  destruct (lib_send_message (Bot i) chat said (tg_server w1)) as [[mid|x] t]; destruct Hlaw as [Hg2 Hr].
  2: { destruct Hr. apply (online_client g); [done|]. by apply (reachable_keeps g _ _ (grows_keeps _ _ Hg)). }
  destruct Hr as (Hnew & Hkn & Hsay). unfold sget, sput, sret. set (w3 := match doc with Some _ => _ | None => _ end).
  exists mid, said, w3. split; [done|].
  assert (tg_server w3 = t /\ channel_ids chat w3 = channel_ids chat w1 /\ ids_ok w3 /\ tg_chunks w3 = tg_chunks w1 /\
          ss_overflow_text (tg_store w3) = ss_overflow_text (tg_store w1)) as (Ht & Hch & Hio & Hcc & Hst).
  { pose proof (ck_ids _ Hk) as [? ?]. unfold w3. by destruct doc. }
  rewrite Ht. split; [by etrans|]. eapply said_kept; [by rewrite Ht|done| |].
  - rewrite Hch. eapply mc_all_weaken; [|apply (ck_messages _ Hk)]. by intros k m Hkk ->.
  - eapply said_as_keeps; [done|rewrite Ht; apply Hg2|done..].
Qed.

(** A process started on the same server: nothing is cached. *)
Definition restarted (ids texts budget : Z) (w : Tg T) : Tg T :=
  {| tg_server := tg_server w; tg_ids := []; tg_ids_size := ids; tg_chunks := chunk_cache budget; tg_cycle := 0;
     tg_store := {| ss_overflow_of := []; ss_overflow_text := message_cache texts; ss_readahead := [] |} |}.

Lemma restarted_kept mid text said ids texts budget w : 0 < ids -> 0 < texts ->
  text_kept mid text said w -> text_kept mid text said (restarted ids texts budget w).
Proof.
  clear Hbots Hfuel. intros Hi Ht [Hs _ _ Hk]. split; [done|by split|by apply mc_all_new|]. destruct Hk as [|(doc & -> & Hd)]; [by left|]. right. exists doc.
  split; [done|]. destruct Hd as [[_ _ Hc] _ _ Hn]. split; [split; [by split|intros ch; by apply mc_all_new|done]|by apply new_cache_true| |done].
  split; [|by apply mc_all_new]. split; [done|]. split; [apply Dict.wf_nil|]. simpl. rewrite zlen_nil. lia.
Qed.

(** ** Editing a text *)

Lemma invalidate_true docs mid c : cache_true docs block_size c -> cache_true docs block_size (cache_invalidate chat mid c).
Proof.
  intros [Hok Ht]. destruct (invalidate_spec chat mid c Hok) as [Hok' Hg]. split; [done|]. intros ch m i blk b Hin. apply Ht.
  apply list_elem_of_In, Dict.get_Some_In. destruct Hok' as [_ Hwf _ _ _]. apply list_elem_of_In, (Dict.In_get _ _ _ Hwf) in Hin.
  rewrite Hg in Hin. by destruct (enabled c && _).
Qed.

Lemma channel_ids_forget mid (w : Tg T) : channel_ids chat (forget_message chat mid w) = mc_set mid None (channel_ids chat w).
Proof. apply (channel_ids_put chat _ w). Qed.

Lemma forget_keeps text doc said mid w : said_as text doc said w -> ids_ok w ->
  said_as text doc said (forget_message chat mid w) /\ ids_ok (forget_message chat mid w).
Proof.
  intros [Ha Hd] Hi. assert (ids_ok (forget_message chat mid w)) as Hi' by (apply put_ok; [|done]; by apply mc_set_ok, channel_ok).
  split; [|done]. split; [done|]. destruct doc as [d|]; [|done]. destruct Hd as (-> & Hu & Ht).
  assert (unlisted d (forget_message chat mid w)) as Hu' by (unfold unlisted; rewrite channel_ids_forget; by apply mc_set_all).
  split; [done|]. split; [done|]. eapply holds_text_keeps; [done|done|done| |apply invalidate_true|done]. by apply holds_carries in Ht.
Qed.

(** The edit of the message itself. *)
Lemma edit_text_spec mid text doc said old w : reachable g (tg_server w) -> ids_ok w -> says (tg_server w) chat mid old -> said_as text doc said w ->
  exists w', edit_text g mid said w = (Ok mid, w') /\ reachable g (tg_server w') /\ tg_store w' = tg_store w /\
    unlisted mid w' /\ ids_ok w' /\ says (tg_server w') chat mid said /\ said_as text doc said w'.
Proof.
  intros Hrc Hi Hold Hsd. unfold edit_text, stry, sbind. destruct (next_bot_any g Hbots w) as (i & -> & Hci).
  set (w1 := set_cycle _ w). unfold client_edit_message_text, call.
  assert (said_as text doc said w1) as Hsd1 by (by eapply said_as_keeps).
  destruct (forget_keeps text doc said mid w1 Hsd1 Hi) as [Hsd2 Hi2]. pose proof (channel_ids_forget mid w1) as Hch2.
  assert (tg_server (forget_message chat mid w1) = tg_server w /\ tg_store (forget_message chat mid w1) = tg_store w) as [Hsv Hst] by done.
  set (w2 := forget_message chat mid w1) in *. clearbody w2. rewrite Hsv.
  pose proof (edit_text_law (Bot i) chat mid said old (tg_server w) (proj1 Hsd) Hold) as Hlaw.
  destruct (lib_edit_text (Bot i) chat mid said (tg_server w)) as [r t]. destruct Hlaw as (Hk & Hkn & _ & Hr).
  assert (says t chat mid said -> reachable g (tg_server (set_server t w2)) /\ tg_store (set_server t w2) = tg_store w /\
    unlisted mid (set_server t w2) /\ ids_ok (set_server t w2) /\ says (tg_server (set_server t w2)) chat mid said /\
    said_as text doc said (set_server t w2)) as Hdone.
  { intros Hsay. split; [by apply (reachable_keeps g (tg_server w))|]. split; [done|].
    split; [|split; [done|split; [done|eapply said_as_keeps; [exact Hsd2|by rewrite Hsv|done..]]]].
    unfold unlisted. change (channel_ids chat (set_server t w2)) with (channel_ids chat w2). rewrite Hch2. apply mc_set_none_all. }
  destruct r as [id|x]; [destruct Hr as [-> Hr]; exists (set_server t w2); split; [done|by apply Hdone]|].
  assert (unmodified x = true) as Hx.
  { destruct (unmodified x); [done|]. destruct Hr. by apply (online_client g). }
  rewrite Hx in Hr. exists (set_server t w2). split; [|by apply Hdone].
  destruct x; try done. simpl in Hx. apply bool_decide_eq_true in Hx as ->. done.
Qed.

(** The message that was edited, its caches emptied. *)
Lemma edited_kept mid text doc said w : says (tg_server w) chat mid said -> ids_ok w -> unlisted mid w -> said_as text doc said w ->
  text_kept mid text said w.
Proof. intros Hs Hi Hu Hsd. eapply said_kept; [done|done| |done]. eapply mc_all_weaken; [|exact Hu]. by intros k m Hne ->. Qed.

(** Deleting the document a text does not need any more. *)
Lemma delete_document_spec delete_on_remove d mid text doc said w :
  reachable g (tg_server w) -> 0 < d -> Dict.get d (ss_overflow_of (tg_store w)) = None ->
  ids_ok w -> says (tg_server w) chat mid said -> said_as text doc said w -> unlisted mid w -> mid <> d -> doc <> Some d ->
  exists w', tg_delete_messages g delete_on_remove [d] true w = (Ok tt, w') /\ reachable g (tg_server w') /\ text_kept mid text said w' /\
    forall b, ~ carries (tg_server w') chat d b.
Proof.
  intros Hrc Hd Hof Hi Hsay Hsd Hu Hmd Hdd. unfold tg_delete_messages. cbn [negb andb pop_overflows]. rewrite Hof.
  cbn [app List.filter]. rewrite (proj2 (Z.ltb_lt 0 d)) by done. assert (remove_dups [d] = [d]) as -> by done.
  set (w1 := put_overflow_of _ w). cbn [length delete_batches]. unfold sbind. destruct (next_bot_any g Hbots w1) as (i & -> & Hci).
  set (w2 := set_cycle _ w1). unfold client_delete_messages. change (ztake DELETE_BATCH_SIZE [d]) with [d]. cbn [nonempty negb foldl]. unfold call.
  assert (said_as text doc said w2) as Hsd2 by (by eapply said_as_keeps).
  destruct (forget_keeps text doc said d w2 Hsd2 Hi) as [Hsd3 Hi3].
  assert (unlisted mid (forget_message chat d w2)) as Hu3 by (unfold unlisted; rewrite channel_ids_forget; by apply mc_set_all).
  assert (tg_server (forget_message chat d w2) = tg_server w) as Hsv by done. set (w3 := forget_message chat d w2) in *. clearbody w3. rewrite Hsv.
  pose proof (delete_law (Bot i) chat [d] (tg_server w)) as Hlaw. destruct (lib_delete_messages (Bot i) chat [d] (tg_server w)) as [[u|x] t];
    destruct Hlaw as (Hon & _ & Hsays & Hcarries & Hr).
  2: { destruct Hr. by apply (online_client g). }
  exists (set_server t w3). change (zdrop DELETE_BATCH_SIZE [d]) with (@nil Z). split; [done|].
  split. { destruct Hrc as [Hb Ha]. split; [intros j Hj; apply Hon; by apply Hb|intros Hacc; apply Hon; by apply Ha]. }
  split; [|by apply Hr, list_elem_of_singleton].
  assert (says t chat mid said) as Hsay3 by (apply Hsays; [by intros _ ?%list_elem_of_singleton|done]).
  apply (edited_kept mid text doc said); [done|done|done|]. destruct Hsd3 as [Ha Hdoc]. split; [done|]. destruct doc as [d'|]; [|done].
  destruct Hdoc as (-> & Hud & Ht). split; [done|]. split; [done|]. eapply holds_text_keeps; [done|done|done| |done|done].
  apply Hcarries; [intros _ Heq%list_elem_of_singleton; congruence|]. rewrite <- Hsv. by apply holds_carries.
Qed.

End Texts.


(** An edit of a message on a reachable channel replaces its text by the
    new one, of any length, and deletes the document that held the old one. *)
Theorem text_edit_supersedes {T} `{TelethonTexts T} g encode decode premium delete_on_remove text_len send_fuel others depth mid old text w :
  gc_bots g <> 0%nat -> transfer_ok (gc_transfer g) -> (0 < send_fuel)%nat -> (forall doc, accepted (overflow_marker doc)) ->
  (forall docs i stored c, cache_true docs (chunk_cache_block_bytes (gc_transfer g)) c ->
     cache_true docs (chunk_cache_block_bytes (gc_transfer g)) (others i stored c)) ->
  caches_known g w -> reachable g (tg_server w) -> sendable encode decode text_len text -> says (tg_server w) (gc_chat g) mid old ->
  (forall d, Dict.get mid (ss_overflow_of (tg_store w)) = Some d ->
     0 < d /\ d <> mid /\ known (tg_server w) (gc_chat g) d /\ Dict.get d (ss_overflow_of (tg_store w)) = None) ->
  exists w1, edit_message_text g encode premium delete_on_remove text_len send_fuel mid text w = (Ok mid, w1) /\
    (forall d b, Dict.get mid (ss_overflow_of (tg_store w)) = Some d -> ~ carries (tg_server w1) (gc_chat g) d b) /\
    exists w2, store_get_messages g decode (S depth) others [mid] w1 = (Ok [Some (text_message mid text)], w2).
Proof.
  intros Hb Ht Hf Hm Ho Hck Hrc Hs Hold Hsup.
  destruct (overflow_of_text_spec g Hb Ht encode decode premium text_len send_fuel Hf Hm text w Hck Hrc Hs)
    as (doc & said & w1 & He & Hg & Hk1 & Hof1 & Hch1 & Hsd1 & Hnew).
  pose proof (reachable_keeps g _ _ (grows_keeps _ _ Hg) Hrc) as Hrc1.
  destruct (edit_text_spec g Hb encode mid text doc said old w1 Hrc1 (ck_ids _ _ Hk1) (grows_says _ _ Hg _ _ _ Hold) Hsd1)
    as (w2 & He2 & Hrc2 & Hst2 & Hu2 & Hi2 & Hsay2 & Hsd2).
  unfold edit_message_text, sbind, sget. rewrite He. cbn [snd fst]. rewrite He2. unfold sput, sret.
  set (of2 := match doc with Some d => Dict.set mid d _ | None => Dict.del mid _ end). set (w3 := put_overflow_of of2 w2).
  assert (text_kept g encode mid text said w3) as Hkept.
  { apply (edited_kept g encode mid text doc said); try done. by eapply said_as_keeps. }
  destruct (Dict.get mid (ss_overflow_of (tg_store w))) as [d|] eqn:Hd.
  - destruct (Hsup d eq_refl) as (Hd0 & Hdm & Hkn & Hnone).
    assert (doc <> Some d) as Hne by (intros ->; by apply (Hnew d)). rewrite decide_False by done.
    destruct (delete_document_spec g Hb encode delete_on_remove d mid text doc said w3) as (w4 & -> & Hrc4 & Hk4 & Hgone); try done.
    { unfold w3, of2. simpl. rewrite Hst2, Hof1. destruct doc; [rewrite Dict.get_set_ne by done|rewrite Dict.get_del_ne by done]; done. }
    { by eapply said_as_keeps. }
    exists w4. split; [done|]. split; [by intros d' b [= <-]|].
    by apply (read_text_spec g Hb Ht encode decode others depth Ho mid text said); [|apply Hs|].
  - exists w3. split; [done|]. split; [done|].
    by apply (read_text_spec g Hb Ht encode decode others depth Ho mid text said); [|apply Hs|].
Qed.
