(* ===== verification/TgDemo.v ===== *)
(** * A Telegram server in memory, and the Telegram store at concrete inputs

    A model of [TelethonLaws]: one reference of the files is valid at a time,
    a download with another one fails after its first bytes; a server that is
    down answers nothing. *)

From S2P Require Import Prelude Errors StoreKey Messages FileVersion ChunkCache Telethon TelethonProps ConfigValue Config ConfigProps TgStore TgReadProps TgWrites TgTextProps.

Open Scope Z_scope.
Open Scope py_scope.

Record TgMem := {
  gm_docs : dict (Z * Z) bytes;                  (* by chat and message *)
  gm_texts : dict (Z * Z) string;
  gm_parts : dict (Z * Z) bytes;                 (* by file and part *)
  gm_reference : bytes;
  gm_up : bool;
  gm_next : Z
}.

Definition offline : exn := RPCError "offline".

Definition gm_document (t : TgMem) (chat mid : Z) (b : bytes) : Document :=
  {| doc_size := zlen b; doc_id := mid; doc_access_hash := chat; doc_file_reference := gm_reference t |}.

Definition gm_message (t : TgMem) (chat mid : Z) : option RawMessage :=
  match Dict.get (chat, mid) (gm_docs t) with
  | Some b => Some {| rm_id := mid; rm_message := None; rm_media := MediaDocument (gm_document t chat mid b) |}
  | None =>
      match Dict.get (chat, mid) (gm_texts t) with
      | Some s => Some {| rm_id := mid; rm_message := Some s; rm_media := NoDocument |}
      | None => None
      end
  end.

Definition gm_content (t : TgMem) (d : Document) : option bytes := Dict.get (doc_access_hash d, doc_id d) (gm_docs t).

Definition gm_download (d : Document) (offset : Z) (t : TgMem) : stream :=
  match gm_content t d with
  | None => {| pieces := []; fault := Some offline |}
  | Some b =>
      if negb (gm_up t) then {| pieces := []; fault := Some offline |}
      else if decide (doc_file_reference d = gm_reference t) then {| pieces := chunks 3 (zdrop offset b); fault := None |}
      else {| pieces := [ztake 2 (zdrop offset b)]; fault := Some FileReferenceExpiredError |}
  end.

Definition gm_add (docs : dict (Z * Z) bytes) (texts : dict (Z * Z) string) (t : TgMem) : TgMem :=
  {| gm_docs := docs; gm_texts := texts; gm_parts := gm_parts t; gm_reference := gm_reference t; gm_up := gm_up t; gm_next := gm_next t + 1 |}.

Definition when_up {A} (m : st exn TgMem A) : st exn TgMem A := fun t => if gm_up t then m t else (Raise offline, t).

Fixpoint gm_forward (from_chat to_chat : Z) (ids : list Z) (t : TgMem) : list (option Z) * TgMem :=
  match ids with
  | [] => ([], t)
  | i :: ids =>
      let id := gm_next t in
      match Dict.get (from_chat, i) (gm_docs t) with
      | Some b =>
          let '(rest, t) := gm_forward from_chat to_chat ids (gm_add (Dict.set (to_chat, id) b (gm_docs t)) (gm_texts t) t) in
          (Some id :: rest, t)
      | None => let '(rest, t) := gm_forward from_chat to_chat ids t in (None :: rest, t)
      end
  end.

Definition gm_send_file (chat : Z) (f : UploadedFile) (t : TgMem) : exc (option Z) * TgMem :=
  match mapM (fun p => Dict.get (uf_id f, p) (gm_parts t)) (seqZ 0 (uf_parts f)) with
  | None => (Raise (RPCError "FILE_PARTS_MISSING"), t)
  | Some parts => let id := gm_next t in (Ok (Some id), gm_add (Dict.set (chat, id) (concat parts) (gm_docs t)) (gm_texts t) t)
  end.

#[export] Instance mem_telethon : Telethon TgMem := {
  lib_max_chunk_size := 8;
  lib_get_messages c chat ids := when_up (fun t => (Ok (map (gm_message t chat) ids), t));
  lib_iter_download c d offset t := (gm_download d offset t, t);
  lib_send_message c chat s := when_up (fun t =>
    let id := gm_next t in (Ok id, gm_add (Dict.del (chat, id) (gm_docs t)) (Dict.set (chat, id) s (gm_texts t)) t));
  lib_edit_text c chat mid s := when_up (fun t =>
    match Dict.get (chat, mid) (gm_texts t) with
    | None => (Raise (RPCError "Message to edit not found"), t)
    | Some s' => if decide (s = s') then (Raise MessageNotModifiedError, t)
                 else (Ok mid, gm_add (gm_docs t) (Dict.set (chat, mid) s (gm_texts t)) t)
    end);
  lib_edit_file c chat mid f := when_up (fun t =>
    match mapM (fun p => Dict.get (uf_id f, p) (gm_parts t)) (seqZ 0 (uf_parts f)) with
    | None => (Raise (RPCError "FILE_PARTS_MISSING"), t)
    | Some parts => (Ok mid, gm_add (Dict.set (chat, mid) (concat parts) (gm_docs t)) (gm_texts t) t)
    end);
  lib_forward_messages c from_chat to_chat ids := when_up (fun t =>
    let '(res, t) := gm_forward from_chat to_chat ids t in (Ok res, t));
  lib_delete_messages c chat ids := when_up (fun t =>
    (Ok tt, gm_add (List.filter (fun d => negb (bool_decide (d.1.1 = chat /\ d.1.2 ∈ ids))) (gm_docs t))
                   (List.filter (fun d => negb (bool_decide (d.1.1 = chat /\ d.1.2 ∈ ids))) (gm_texts t)) t));
  lib_save_part c file part total b := when_up (fun t =>
    (Ok true, {| gm_docs := gm_docs t; gm_texts := gm_texts t; gm_parts := Dict.set (file, part) b (gm_parts t);
                 gm_reference := gm_reference t; gm_up := gm_up t; gm_next := gm_next t |}));
  lib_send_file c chat f big := when_up (gm_send_file chat f);
  lib_random_long t := (gm_next t, gm_add (gm_docs t) (gm_texts t) t)
}.

#[export] Program Instance mem_telethon_laws : TelethonLaws TgMem := {
  carries t chat mid b := Dict.get (chat, mid) (gm_docs t) = Some b /\ mid < gm_next t;
  content t d b := gm_content t d = Some b /\ doc_id d < gm_next t;
  online t c := gm_up t = true;
  fresh t d := doc_file_reference d = gm_reference t
}.
Next Obligation. done. Qed.
Next Obligation.
  intros c chat ids t. simpl. unfold when_up. destruct (gm_up t) eqn:Hu.
  - do 3 (split; [done|]). induction ids as [|i ids IH]; simpl; constructor; [|done]. unfold gm_message. split.
    + intros m. destruct (Dict.get (chat, i) (gm_docs t)); [by intros [= <-]|]. destruct (Dict.get (chat, i) (gm_texts t)); [by intros [= <-]|done].
    + intros b [Hb Hi]. rewrite Hb. eexists _, _. by split_and!.
  - do 3 (split; [done|]). split; [done|]. by intros ?.
Qed.
Next Obligation.
  intros c d b offset t [Hb Hd] Hz Hl. simpl. unfold gm_download. rewrite Hb. do 3 (split; [done|]). unfold stream_bytes.
  destruct (gm_up t) eqn:Hu; simpl.
  - destruct (decide (doc_file_reference d = gm_reference t)) as [He|He]; cbn [fault pieces].
    + split; [exists []; by rewrite concat_chunks, app_nil_r|]. split; [by rewrite concat_chunks|done].
    + split; [exists (zdrop 2 (zdrop offset b)); simpl; by rewrite app_nil_r, ztake_zdrop|]. split; [done|]. by intros x [= <-].
  - split; [by exists (zdrop offset b)|]. split; [done|]. by intros x [= <-].
Qed.

#[export] Instance mem_texts : TextView TgMem := {
  says t chat mid s := Dict.get (chat, mid) (gm_texts t) = Some s /\ Dict.get (chat, mid) (gm_docs t) = None /\ mid < gm_next t;
  known t chat mid := mid < gm_next t;
  stored t f big p b := Dict.get (f, p) (gm_parts t) = Some b;
  accepted s := True
}.

(** A call that changes nothing about the messages below the next id. *)
Lemma mem_grows t t' :
  gm_up t' = gm_up t -> gm_next t <= gm_next t' ->
  (forall ch m, m < gm_next t -> Dict.get (ch, m) (gm_docs t') = Dict.get (ch, m) (gm_docs t)) ->
  (forall ch m, m < gm_next t -> Dict.get (ch, m) (gm_texts t') = Dict.get (ch, m) (gm_texts t)) -> grows t t'.
Proof.
  intros Hu Hn Hd Hs. split; [split| |].
  - intros ch m b [Hb Hm]. split; [by rewrite Hd|lia].
  - intros d b [Hb Hm]. unfold content, mem_telethon_laws, gm_content in *. split; [by rewrite Hd|lia].
  - intros k. simpl. by rewrite Hu.
  - intros ch m s (Hs1 & Hs2 & Hm). split; [by rewrite Hs|]. split; [by rewrite Hd|lia].
  - intros ch m. simpl. lia.
Qed.

Lemma mem_get_filter {A} (P : (Z * Z) * A -> bool) k (d : dict (Z * Z) A) : (forall x, P (k, x) = true) ->
  Dict.get k (List.filter P d) = Dict.get k d.
Proof.
  intros Hp. induction d as [|[k' x] d IH]; [done|]. simpl. destruct (decide (k = k')) as [<-|Hne].
  - rewrite Hp. simpl. by rewrite decide_True.
  - destruct (P (k', x)); [simpl; by rewrite decide_False|done].
Qed.

Lemma mem_get_gone {A} (P : (Z * Z) * A -> bool) k (d : dict (Z * Z) A) : (forall x, P (k, x) = false) ->
  Dict.get k (List.filter P d) = None.
Proof.
  intros Hp. induction d as [|[k' x] d IH]; [done|]. simpl. destruct (decide (k = k')) as [<-|Hne]; [by rewrite Hp|].
  destruct (P (k', x)); [simpl; by rewrite decide_False|done].
Qed.

#[export] Program Instance mem_texts_laws : TelethonTexts TgMem.
Next Obligation.
  intros c chat ids t. simpl. unfold when_up. destruct (gm_up t) eqn:Hu; [|done]. split; [done|].
  induction ids as [|i ids IH]; simpl; constructor; [|done]. intros s (Hs & Hd & _). unfold gm_message. rewrite Hd, Hs.
  eexists. by split_and!.
Qed.
Next Obligation.
  intros c chat s t _. simpl. unfold when_up. destruct (gm_up t) eqn:Hu; [|done]. split.
  - apply mem_grows; simpl; [done|lia| |]; intros ch m Hm; assert ((ch, m) <> (chat, gm_next t)) by (intros [= _ ->]; lia).
    + by rewrite Dict.get_del_ne.
    + by rewrite Dict.get_set_ne.
  - simpl. split; [lia|]. split; [lia|]. split; [apply Dict.get_set_eq|]. split; [apply Dict.get_del_eq|lia].
Qed.
Next Obligation.
  intros c chat mid s old t _ (Hs & Hd & Hm). simpl. unfold when_up. destruct (gm_up t) eqn:Hu; [|done]. rewrite Hs.
  destruct (decide (s = old)) as [->|Hne]; [by split_and!|]. simpl. split; [split|split; [|split]].
  - intros ch m b [Hb Hlt]. split; [done|simpl; lia].
  - intros d b [Hb Hlt]. split; [done|simpl; lia].
  - by intros k.
  - intros ch m. lia.
  - intros ch m s' Hk (Ht & Hdd & Hlt). rewrite Dict.get_set_ne by done. split; [done|]. split; [done|lia].
  - split; [done|]. rewrite Dict.get_set_eq. split; [done|]. split; [done|lia].
Qed.
Next Obligation.
  intros c chat ids t. simpl. unfold when_up. destruct (gm_up t) eqn:Hu; [|done].
  assert (forall {A} ch m (d : dict (Z * Z) A), (ch = chat -> m ∉ ids) ->
    Dict.get (ch, m) (List.filter (fun d => negb (bool_decide (d.1.1 = chat /\ d.1.2 ∈ ids))) d) = Dict.get (ch, m) d) as Hkeep.
  { intros A ch m d Hn. apply mem_get_filter. intros x. rewrite bool_decide_eq_false_2; [done|]. simpl. intros [-> Hin]. by apply Hn. }
  assert (forall {A} m (d : dict (Z * Z) A), m ∈ ids ->
    Dict.get (chat, m) (List.filter (fun d => negb (bool_decide (d.1.1 = chat /\ d.1.2 ∈ ids))) d) = None) as Hgone.
  { intros A m d Hin. apply mem_get_gone. intros x. by rewrite bool_decide_eq_true_2. }
  split; [by intros k|]. split; [simpl; lia|]. split; [|split].
  - intros ch m s Hn (Hs & Hd & Hm). simpl. rewrite !Hkeep by done. split; [done|]. split; [done|lia].
  - intros ch m b Hn [Hb Hm]. simpl. rewrite Hkeep by done. split; [done|lia].
  - intros m Hin. simpl. rewrite !Hgone by done. split; [by intros s [? _]|by intros b [? _]].
Qed.
Next Obligation.
  intros c file part total b t. simpl. unfold when_up. destruct (gm_up t) eqn:Hu; [|done]. split; [by apply mem_grows|]. split.
  - intros f big p x Hx Hne. simpl. by rewrite Dict.get_set_ne.
  - simpl. apply Dict.get_set_eq.
Qed.
Next Obligation.
  intros c chat f big parts t Hl Hp. simpl. unfold when_up. destruct (gm_up t) eqn:Hu; [|done]. unfold gm_send_file.
  assert (mapM (fun p => Dict.get (uf_id f, p) (gm_parts t)) (seqZ 0 (uf_parts f)) = Some parts) as ->.
  { apply mapM_Some, Forall2_same_length_lookup. split; [rewrite length_seqZ; unfold zlen in Hl; lia|].
    intros i p x [-> Hi]%lookup_seqZ Hx. apply (Hp _ x); [by rewrite Z.add_0_l, Nat2Z.id|lia]. }
  split.
  - apply mem_grows; simpl; [done|lia| |done]. intros ch m Hm. rewrite Dict.get_set_ne; [done|]. intros [= _ ->]. lia.
  - simpl. split; [lia|]. split; [lia|]. split; [apply Dict.get_set_eq|lia].
Qed.
Next Obligation. intros t. apply mem_grows; simpl; [done|lia|done|done]. Qed.

(** ** The store over it *)

Definition demo_bytes : bytes := map (fun n => match Byte.of_nat (97 + n) with Some x => x | None => Byte.x00 end) (seq 0 20).

(** The server has moved on to another file reference than the cache has. *)
Definition demo_server : TgMem :=
  {| gm_docs := [((100, 7), demo_bytes)]; gm_texts := []; gm_parts := []; gm_reference := [Byte.x02]; gm_up := true; gm_next := 8 |}.

Definition stale_document : Document := {| doc_size := 20; doc_id := 7; doc_access_hash := 100; doc_file_reference := [Byte.x01] |}.

Definition demo_tg (c : ChunkCache) : Tg TgMem :=
  {| tg_server := demo_server;
     tg_ids := [(100, {| mc_size := 4; mc_items := [(7, Some {| tm_id := 7; tm_text := ""; tm_document := Some stale_document |})] |})];
     tg_ids_size := 4; tg_chunks := c; tg_cycle := 0;
     tg_store := {| ss_overflow_of := []; ss_overflow_text := message_cache 1024; ss_readahead := [] |} |}.

Definition demo_docs : documents := just 100 7 demo_bytes.

Lemma demo_ids c : ids_ok (demo_tg c) /\ ids_true demo_docs (demo_tg c) /\ carries_all (tg_server (demo_tg c)) demo_docs.
Proof.
  split; [|split].
  - split; [done|]. intros chat cache. simpl. destruct (decide (chat = 100)); [|done]. intros [= <-]. split; [done|]. split; [|by vm_compute].
    apply NoDup_singleton.
  - intros ch k m Hin b (-> & -> & ->)%just_spec. apply list_elem_of_singleton in Hin as [= ->]. split; [done|]. by exists stale_document.
  - by intros ch m b (-> & -> & ->)%just_spec.
Qed.

(** The stale reference fails after two bytes; the read goes on behind them. *)
Lemma client_download_exact_witness :
  let '(r, w') := client_download_file (Bot 0) 100 7 3 13 (demo_tg (chunk_cache 0)) in
  ids_ok w' /\ match r with Ok s => delivers demo_server (Bot 0) (zslice 3 14 demo_bytes) s /\ fault s = None | Raise _ => False end.
Proof.
  destruct (demo_ids (chunk_cache 0)) as (Hi & Ht & Hc).
  pose proof (client_download_exact (Bot 0) 100 demo_docs 7 demo_bytes 3 13 (demo_tg (chunk_cache 0)) Hi Ht Hc eq_refl ltac:(lia) ltac:(lia) ltac:(by vm_compute)) as Hd.
  destruct (client_download_file (Bot 0) 100 7 3 13 (demo_tg (chunk_cache 0))) as [[s|x] w'] eqn:He.
  - destruct Hd as (H1 & _ & _ & _ & H2). split; [exact H1|]. split; [exact H2|]. vm_compute in He. injection He as <- <-. reflexivity.
  - exfalso. vm_compute in He. discriminate.
Defined.

(** Pieces of 1 KiB, blocks of 1 KiB, a cache of a megabyte. *)
Definition demo_transfer : TransferConfig :=
  {| tc_upload_workers_small := 3; tc_upload_workers_big := 8; tc_upload_part_size_kb := 512; tc_download_piece_size_kb := 1;
     tc_download_pieces_in_flight := 4; tc_parallel_download_threshold_mb := 10; tc_connection_pool_size := 1; tc_chunk_cache_mb := 1;
     tc_chunk_cache_readahead := 2; tc_chunk_cache_block_kb := 1; tc_upload_parts_in_flight := 1; tc_read_parallel_window := 8;
     tc_tee_buffer_mb := 64 |}.

Definition demo_pool : TgConfig :=
  {| gc_bots := 2; gc_account := false; gc_download_with_account := false; gc_transfer := demo_transfer; gc_chat := 100 |}.

Definition no_decode (b : bytes) : exc string := Raise UnicodeDecodeError.

(** Other downloads empty the cache in between. *)
Definition clearing (i : Z) (stored : bool) (c : ChunkCache) : ChunkCache := cache_clear c.

Lemma cleared_true docs bs c : cache_true docs bs c -> cache_true docs bs (cache_clear c).
Proof.
  intros [[Hb _ _ _ _] _]. split; [|by intros ch m i blk b ?%not_elem_of_nil]. constructor; simpl; try done; apply Dict.wf_nil.
Qed.


(** A channel cache smaller than the batch forgets messages it has just
    fetched, and the batch comes back without them. *)
Example small_cache_forgets :
  let server := {| gm_docs := [((100, 7), [Byte.x61]); ((100, 8), [Byte.x62])]; gm_texts := []; gm_parts := []; gm_reference := [];
                   gm_up := true; gm_next := 9 |} in
  let w := {| tg_server := server; tg_ids := []; tg_ids_size := 1; tg_chunks := chunk_cache 0; tg_cycle := 0;
              tg_store := {| ss_overflow_of := []; ss_overflow_text := message_cache 1024; ss_readahead := [] |} |} in
  match (client_get_messages (Bot 0) 100 [7; 8] w).1 with
  | Ok found => map (option_map tm_id) found = [None; Some 8]
  | Raise _ => False
  end.
Proof. by vm_compute. Qed.

(** ** Texts *)

(** One byte per character. *)
Definition demo_encode (s : string) : bytes := String.list_byte_of_string s.
Definition demo_decode (b : bytes) : exc string := Ok (String.string_of_list_byte b).

(** A text is as long as its first character says: one of five characters
    counts as too long for a message. *)
Definition demo_len (s : string) : Z := match s with String "L" _ => MAX_TEXT_CHARS + 1 | _ => 1 end.

Definition demo_empty : Tg TgMem :=
  {| tg_server := {| gm_docs := [((100, 7), demo_encode "Lold")]; gm_texts := [((100, 8), overflow_marker 7)]; gm_parts := [];
                     gm_reference := []; gm_up := true; gm_next := 9 |};
     tg_ids := []; tg_ids_size := 4; tg_chunks := chunk_cache 4096; tg_cycle := 0;
     tg_store := {| ss_overflow_of := [(8, 7)]; ss_overflow_text := message_cache 4; ss_readahead := [] |} |}.

Lemma demo_caches_known : caches_known demo_pool demo_empty.
Proof.
  split; try done.
  - by apply mc_all_new.
  - apply (new_cache_true demo_docs 0).
  - by intros m i blk ?%not_elem_of_nil.
  - split; [done|]. split; [apply NoDup_nil_2|done].
  - by apply mc_all_new.
Qed.

Lemma demo_reachable : reachable demo_pool (tg_server demo_empty).
Proof. done. Qed.

Lemma demo_sendable : sendable demo_encode demo_decode demo_len "Lnew".
Proof. split; [done|]. by split; vm_compute. Qed.


Lemma text_edit_supersedes_witness :
  exists w1, edit_message_text demo_pool demo_encode false false demo_len 1 8 "Lnew" demo_empty = (Ok 8, w1) /\
    (forall b, ~ carries (tg_server w1) 100 7 b) /\
    exists w2, store_get_messages demo_pool demo_decode 1 clearing [8] w1 = (Ok [Some (text_message 8 "Lnew")], w2).
Proof.
  destruct (text_edit_supersedes demo_pool demo_encode demo_decode false false demo_len 1 clearing 0 8 (overflow_marker 7) "Lnew" demo_empty ltac:(done)
    ltac:(repeat split; vm_compute; done) ltac:(lia) ltac:(done) (fun docs i stored c Hc => cleared_true _ _ c Hc)
    demo_caches_known demo_reachable demo_sendable ltac:(done)) as (w1 & He & Hgone & Hr).
  - intros d [= <-]. by split_and!.
  - exists w1. split; [exact He|]. split; [|exact Hr]. intros b. by apply (Hgone 7 b).
Defined.
