(* ===== verification/Pyrogram.v ===== *)
(** * The Telegram client over Pyrogram
      ([tgdcfs/backends/telegram/impl/pyrogram.py])

    The other implementation of [ITDLibClient].  [Pyrogram T] is the library,
    on a server [T]; the caches of the process and the state [Tg] around the
    server are those of [Telethon].  [PyroLaws] is what the library promises
    about reads.  Progress, [mime_type] and the two ways in which the server
    names a message are left out; the search cache is not modelled, nor are
    the logins and their session files. *)

From S2P Require Import Prelude Errors Messages ChunkCache ConfigValue Telethon TelethonProps TgStore TgWrites TgDemo.

Open Scope Z_scope.
Open Scope py_scope.

(** [file_id.FileId]. *)
Record FileId := { fi_media_id : Z; fi_access_hash : Z; fi_file_reference : bytes }.

(** [t.Document] and [t.Message]. *)
Record PyroDocument := { pd_file_id : string; pd_file_size : Z }.
Record PyroMessage := { pm_id : Z; pm_text : option string; pm_document : option PyroDocument }.

(** What [get_messages] and [forward_messages] give: a list for a list of
    ids, or one message, or nothing. *)
Inductive Fetched := Many (l : list (option PyroMessage)) | Single (m : PyroMessage) | Nothing.

(** The raw types the client tells apart. *)
Inductive Peer := InputPeerChannel (channel_id : Z) | OtherPeer.
Inductive Update := UpdateMessageID (id : Z) | UpdateEditChannelMessage (message : Z) | OtherUpdate.

Class Pyrogram (T : Type) := {
  lib_decode : string -> exc FileId;
  lib_get : Client -> Z -> list Z -> st exn T Fetched;
  lib_get_one : Client -> Z -> Z -> st exn T Fetched;
  lib_get_file : Client -> FileId -> Z -> T -> stream * T;
  lib_send : Client -> Z -> string -> st exn T Z;
  lib_edit : Client -> Z -> Z -> string -> st exn T Z;
  lib_resolve_peer : Client -> Z + string -> st exn T Peer;
  lib_edit_media : Client -> Peer -> Z -> UploadedFile -> st exn T (list Update);
  lib_send_media : Client -> Peer -> UploadedFile -> bool -> string -> st exn T (list Update);
  lib_save_file_part : Client -> Z -> Z -> option Z -> bytes -> st exn T bool;
  lib_pinned : Client -> Z -> T -> list (option PyroMessage) * option exn * T;
  lib_pin : Client -> Z -> Z -> st exn T unit;
  lib_forward : Client -> Z -> Z -> list Z -> st exn T Fetched;
  lib_delete : Client -> Z -> list Z -> st exn T unit
}.

Definition GET_FILE_CHUNK_SIZE : Z := 1024 * 1024.

Section Pyrogram.
  Context {T : Type} `{Pyrogram T}.

(** [_transform_messages]. *)
Definition pyro_transform (m : PyroMessage) : exc TgMessage :=
  let* document :=
    (match pm_document m with
     | None => Ok None
     | Some doc =>
         let* file_id_obj := lib_decode (pd_file_id doc) in
         Ok (Some {| doc_size := pd_file_size doc; doc_id := fi_media_id file_id_obj;
                     doc_access_hash := fi_access_hash file_id_obj;
                     doc_file_reference := fi_file_reference file_id_obj |})
     end) in
  Ok {| tm_id := pm_id m; tm_text := default EmptyString (pm_text m); tm_document := document |}.

(** [exclude_none(self._transform_messages(messages))]. *)
Fixpoint pyro_transform_all (messages : list (option PyroMessage)) : exc (list TgMessage) :=
  match messages with
  | [] => Ok []
  | None :: messages => pyro_transform_all messages
  | Some m :: messages =>
      let* m := pyro_transform m in let* rest := pyro_transform_all messages in Ok (m :: rest)
  end.

(** [not fetched], and a single message as a list. *)
Definition as_list (fetched : Fetched) : option (list (option PyroMessage)) :=
  match fetched with Nothing | Many [] => None | Many l => Some l | Single m => Some [Some m] end.

Definition pyro_get_messages (c : Client) (chat : Z) (ids : list Z) : st exn (Tg T) (list (option TgMessage)) := fun w =>
  let '(message_id_to_fetch, cache) := find_nonexistent ids (channel_ids chat w) in
  let w := put_ids chat cache w in
  match (if nonempty message_id_to_fetch then
           (let! fetched := call (lib_get c chat message_id_to_fetch) in
            match as_list fetched with
            | None => sraise (TechnicalError "Failed to fetch messages")
            | Some fetched_messages =>
                let! messages := slift (pyro_transform_all fetched_messages) in
                let! w := sget in
                sput (put_ids chat (mc_sets (map (fun m => (tm_id m, m)) messages) (channel_ids chat w)) w)
            end) w
         else (Ok tt, w)) with
  | (Raise ex, w) => (Raise ex, w)
  | (Ok _, w) => let '(found, cache) := mc_gets ids (channel_ids chat w) in (Ok found, put_ids chat cache w)
  end.

Definition pyro_send_text (c : Client) (chat : Z) (text : string) : st exn (Tg T) Z := call (lib_send c chat text).

Definition pyro_edit_message_text (c : Client) (chat message_id : Z) (text : string) : st exn (Tg T) Z := fun w =>
  call (lib_edit c chat message_id text) (forget_message chat message_id w).

(** [assert_update]: only the first update counts. *)
Definition assert_message_id (updates : list Update) : exc Z :=
  match updates with UpdateMessageID id :: _ => Ok id | _ => Raise (TechnicalError "Expected update of type UpdateMessageID") end.
Definition assert_edit (updates : list Update) : exc Z :=
  match updates with
  | UpdateEditChannelMessage message :: _ => Ok message
  | _ => Raise (TechnicalError "Expected update of type UpdateEditChannelMessage")
  end.

Definition pyro_edit_message_media (c : Client) (chat message_id : Z) (file : UploadedFile) : st exn (Tg T) Z := fun w =>
  (let! peer := call (lib_resolve_peer c (inl chat)) in
   let! updates := call (lib_edit_media c peer message_id file) in
   slift (assert_edit updates)) (forget_message chat message_id w).

(** [get_pinned_messages]: the first message of the search. *)
Definition pyro_get_pinned_messages (c : Client) (chat : Z) : st exn (Tg T) (list TgMessage) := fun w =>
  let '(messages, flt, t) := lib_pinned c chat (tg_server w) in
  let w := set_server t w in
  match messages, flt with
  | m :: _, _ => (pyro_transform_all [m], w)
  | [], Some ex => (Raise ex, w)
  | [], None => (Ok [], w)
  end.

Definition pyro_pin_message (c : Client) (chat message_id : Z) : st exn (Tg T) unit := call (lib_pin c chat message_id).

(** [save_big_file_part] with the number of all parts, [save_file_part]
    without. *)
Definition pyro_save_part (c : Client) (file_id part : Z) (total : option Z) (b : bytes) : st exn (Tg T) bool :=
  call (lib_save_file_part c file_id part total b).

(** [send_big_file] and [send_small_file]. *)
Definition pyro_send_file (c : Client) (chat : Z) (file : UploadedFile) (big : bool) (caption : string) : st exn (Tg T) Z :=
  let! peer := call (lib_resolve_peer c (inl chat)) in
  let! updates := call (lib_send_media c peer file big caption) in
  slift (assert_message_id updates).

Fixpoint message_ids (l : list (option PyroMessage)) : exc (list Z) :=
  match l with
  | [] => Ok []
  | None :: _ => Raise AttributeError
  | Some m :: l => let* rest := message_ids l in Ok (pm_id m :: rest)
  end.

Definition pyro_forward_messages (c : Client) (from_chat to_chat : Z) (ids : list Z) : st exn (Tg T) (list Z) :=
  let! forwarded := call (lib_forward c to_chat from_chat ids) in
  match as_list forwarded with
  | Some l => if zlen l =? zlen ids then slift (message_ids l) else sraise (TechnicalError "Forwarding returned fewer messages")
  | None => sraise (TechnicalError "Forwarding returned fewer messages")
  end.

Definition pyro_delete_messages (c : Client) (chat : Z) (ids : list Z) : st exn (Tg T) unit := fun w =>
  if negb (nonempty ids) then (Ok tt, w)
  else call (lib_delete c chat ids) (foldl (fun w mid => forget_message chat mid w) w ids).

(** [-100] before the number; a name is resolved by the server. *)
Definition pyro_resolve_channel_id (c : Client) (channel_id : string) : st exn (Tg T) Z :=
  match int_of_string ("-100" +:+ channel_id) with
  | Ok n => sret n
  | Raise _ =>
      let! channel := call (lib_resolve_peer c (inr ("@" +:+ channel_id))) in
      match channel with InputPeerChannel id => sret id | OtherPeer => sraise (TechnicalError "Invalid channel id") end
  end.

(** ** Downloads *)

(** [chunks()]: [get_file] starts on a chunk boundary, and its offset counts
    chunks. *)
Definition pyro_chunks (c : Client) (d : PyroDocument) (begin last : Z) : Tg T -> stream * Tg T := fun w =>
  if last <? begin then ({| pieces := []; fault := Some (TechnicalError "Invalid range") |}, w)
  else
    match lib_decode (pd_file_id d) with
    | Raise ex => ({| pieces := []; fault := Some ex |}, w)
    | Ok fid =>
        let '(s, t) := lib_get_file c fid (begin / GET_FILE_CHUNK_SIZE) (tg_server w) in
        let '(out, rest) := take_chunks (begin mod GET_FILE_CHUNK_SIZE) (last - begin + 1) (pieces s) in
        (finish_chunks out rest (fault s), set_server t w)
    end.

Definition pyro_download_file (c : Client) (chat message_id begin last : Z) : st exn (Tg T) stream :=
  let! fetched := call (lib_get_one c chat message_id) in
  match fetched with
  | Single message =>
      match pm_document message with
      | Some d => fun w => let '(s, w) := pyro_chunks c d begin last w in (Ok s, w)
      | None => sraise (UnDownloadableMessage (pm_id message))
      end
  | _ => sraise (TechnicalError "Message not found")
  end.

End Pyrogram.

(** ** What the library promises about reads *)

(** [p_carries t chat m b]: the message has a document with the bytes [b];
    [holds t f b]: the file of this id has them; [answered t c]: the server
    answers this client. *)
Class PyroLaws (T : Type) `{Pyrogram T} := {
  p_carries : T -> Z -> Z -> bytes -> Prop;
  holds : T -> FileId -> bytes -> Prop;
  answered : T -> Client -> Prop;
  get_one_law : forall c chat mid b t, p_carries t chat mid b ->
    let '(r, t') := lib_get_one c chat mid t in
    p_carries t' chat mid b /\ (answered t c -> answered t' c) /\
    match r with
    | Raise x => is_Exception x = true /\ ~ answered t c
    | Ok fetched => exists m d fid, fetched = Single m /\ pm_document m = Some d /\ lib_decode (pd_file_id d) = Ok fid /\ holds t' fid b
    end;
  get_file_law : forall c fid b n t, holds t fid b -> 0 <= n -> n * GET_FILE_CHUNK_SIZE <= zlen b ->
    let '(s, t') := lib_get_file c fid n t in
    (forall ch m b, p_carries t ch m b -> p_carries t' ch m b) /\
    (exists left, stream_bytes s ++ left = zdrop (n * GET_FILE_CHUNK_SIZE) b) /\
    (forall x, fault s = Some x -> is_Exception x = true) /\
    (answered t c -> fault s = None /\ stream_bytes s = zdrop (n * GET_FILE_CHUNK_SIZE) b)
}.

Section Reads.
  Context {T : Type} `{PyroLaws T}.

(** The cut of a stream that starts before the range. *)
Lemma take_chunks_range b begin last al s lft0 out lft :
  0 <= al -> al <= begin -> begin <= last -> last < zlen b ->
  stream_bytes s ++ lft0 = zdrop al b -> take_chunks (begin - al) (last - begin + 1) (pieces s) = (out, lft) ->
  exists n, 0 <= n /\ begin + n <= last + 1 /\ lft = last + 1 - begin - n /\ concat out = zslice begin (begin + n) b /\
    (lft0 = [] -> begin + n = last + 1).
Proof.
  intros H1 H2 H3 H4 Hs Ht. pose proof (take_chunks_spec (pieces s) (begin - al) (last - begin + 1) ltac:(lia) ltac:(lia)) as Hspec.
  rewrite Ht in Hspec. destruct Hspec as (Hout & -> & Hlft). unfold stream_bytes in Hs.
  set (avail := zdrop (begin - al) (concat (pieces s))) in *.
  assert (zdrop begin b = avail ++ zdrop (begin - al - zlen (concat (pieces s))) lft0) as Hd.
  { unfold avail. rewrite <- zdrop_app, Hs, zdrop_zdrop by lia. f_equal. lia. }
  assert (zlen (concat out) = Z.min (last - begin + 1) (zlen avail)) as Hlen by (rewrite Hout; apply zlen_ztake; lia).
  exists (zlen (concat out)). pose proof (zlen_nonneg (concat out)). split; [lia|]. split; [lia|]. split; [lia|]. split.
  - rewrite zslice_spec, Hd, ztake_app. replace (begin + zlen (concat out) - begin) with (zlen (concat out)) by lia.
    rewrite (ztake_0 (_ - zlen avail)) by lia. rewrite app_nil_r, Hlen, Hout.
    destruct (Z.leb_spec (zlen avail) (last - begin + 1)); [rewrite Z.min_r by lia; by rewrite !ztake_ge by lia|by rewrite Z.min_l by lia].
  - intros ->. rewrite app_nil_r in Hs. assert (zlen avail = zlen b - begin); [|lia].
    unfold avail. rewrite Hs, zdrop_zdrop, zlen_zdrop by lia. lia.
Qed.

Lemma pyro_finish b begin last out n flt :
  0 <= begin -> 0 <= n -> begin + n <= last + 1 -> last < zlen b ->
  concat out = zslice begin (begin + n) b -> (forall x, flt = Some x -> is_Exception x = true) ->
  match fault (finish_chunks out (last + 1 - begin - n) flt) with
  | None => begin + n = last + 1 /\ stream_bytes (finish_chunks out (last + 1 - begin - n) flt) = zslice begin (last + 1) b
  | Some x => is_Exception x = true /\ begin + n <= last /\ exists lft, lft <> [] /\ stream_bytes (finish_chunks out (last + 1 - begin - n) flt) ++ lft = zslice begin (last + 1) b
  end.
Proof.
  intros H1 H2 H3 H4 Ho Hx. unfold finish_chunks, stream_bytes. simpl. rewrite Ho.
  destruct (Z.leb_spec (last + 1 - begin - n) 0); [split; [lia|f_equal; lia]|].
  destruct (slice_missing b begin last n ltac:(lia) ltac:(lia) ltac:(lia) ltac:(lia)) as (_ & Hne & He).
  assert (is_Exception (match flt with Some x => x | None => ended_early end) = true) as Hex by (destruct flt; [by apply Hx|done]).
  destruct flt as [x|]; (split; [exact Hex|]); (split; [lia|]); by exists (zslice (begin + n) (last + 1) b).
Qed.

(** A range of a document read through the Pyrogram client is that range, or
    a proper beginning of it and an exception; a connection that works
    delivers it.  The caches are not touched. *)
Theorem pyro_download_exact c chat mid b begin last (w : Tg T) :
  p_carries (tg_server w) chat mid b -> 0 <= begin -> begin <= last -> last < zlen b ->
  let '(r, w') := pyro_download_file c chat mid begin last w in
  (exists t, w' = set_server t w) /\ p_carries (tg_server w') chat mid b /\
  match r with
  | Raise x => is_Exception x = true /\ ~ answered (tg_server w) c
  | Ok s =>
      match fault s with
      | None => stream_bytes s = zslice begin (last + 1) b
      | Some x => is_Exception x = true /\ ~ answered (tg_server w) c /\
                  exists lft, lft <> [] /\ stream_bytes s ++ lft = zslice begin (last + 1) b
      end
  end.
Proof.
  intros Hc H1 H2 H3. unfold pyro_download_file, sbind, call. pose proof (get_one_law c chat mid b (tg_server w) Hc) as Hg.
  destruct (lib_get_one c chat mid (tg_server w)) as [[fetched|x] t1]; destruct Hg as (Hc1 & Hup & Hg); [|split; [by eexists|done]].
  destruct Hg as (m & d & fid & -> & Hd & Hf & Hh). rewrite Hd. unfold pyro_chunks.
  rewrite (proj2 (Z.ltb_ge _ _)) by lia. rewrite Hf. cbn [tg_server set_server].
  assert (0 < GET_FILE_CHUNK_SIZE) as HC by done.
  pose proof (Z.div_mod begin GET_FILE_CHUNK_SIZE ltac:(lia)) as Hdm. pose proof (Z.mod_pos_bound begin _ HC) as Hmb.
  pose proof (Z.div_pos begin GET_FILE_CHUNK_SIZE H1 HC) as Hq.
  pose proof (get_file_law c fid b (begin / GET_FILE_CHUNK_SIZE) t1 Hh Hq ltac:(nia)) as Hl.
  destruct (lib_get_file c fid (begin / GET_FILE_CHUNK_SIZE) t1) as [s t2]. destruct Hl as (Hk & (lft0 & Hs) & Hx & Hon).
  destruct (take_chunks (begin mod GET_FILE_CHUNK_SIZE) (last - begin + 1) (pieces s)) as [out rest] eqn:Ht.
  replace (begin mod GET_FILE_CHUNK_SIZE) with (begin - begin / GET_FILE_CHUNK_SIZE * GET_FILE_CHUNK_SIZE) in Ht by lia.
  destruct (take_chunks_range b begin last (begin / GET_FILE_CHUNK_SIZE * GET_FILE_CHUNK_SIZE) s lft0 out rest ltac:(nia) ltac:(nia) H2 H3 Hs Ht) as (n & Hn & Hle & -> & Hout & Hall).
  split; [by eexists|]. split; [by apply Hk|].
  pose proof (pyro_finish b begin last out n (fault s) H1 Hn Hle H3 Hout Hx) as Hfin.
  destruct (fault (finish_chunks out _ (fault s))); [|by destruct Hfin]. destruct Hfin as (? & Hshort & ?). split; [done|]. split; [|done].
  intros Ha. destruct (Hon (Hup Ha)) as [_ Hfull]. assert (lft0 = []) as Hnil; [|specialize (Hall Hnil); lia].
  rewrite Hfull in Hs. rewrite <- (app_nil_r (zdrop _ b)) in Hs at 2. by apply app_inv_head in Hs.
Qed.

(** ** Caches *)

(** Messages that are in the cache are answered without the server. *)
Lemma pyro_cached_answer c chat ids (w : Tg T) :
  (find_nonexistent ids (channel_ids chat w)).1 = [] ->
  exists found, (pyro_get_messages c chat ids w).1 = Ok found /\ tg_server (pyro_get_messages c chat ids w).2 = tg_server w.
Proof.
  unfold pyro_get_messages. destruct (find_nonexistent ids _) as [missing cache]. cbn [fst]. intros ->. cbn [nonempty].
  destruct (mc_gets ids _) as [found c2]. by eexists.
Qed.

(** A message is forgotten before it is edited: the next read asks the
    server, whether the edit succeeded or not. *)
Lemma pyro_edit_forgets c chat mid text (w : Tg T) :
  ids_ok w -> (mc_get mid (channel_ids chat (pyro_edit_message_text c chat mid text w).2)).1 = None.
Proof.
  intros Hok. unfold pyro_edit_message_text, call. destruct (lib_edit c chat mid text _) as [r t]. cbn [snd].
  unfold forget_message, set_server, set_chunks, put_ids, set_ids, channel_ids. cbn [tg_ids]. rewrite Dict.get_set_eq. cbn [default].
  apply mc_get_set. by apply (channel_ok (T:=T)).
Qed.

(** Forwarding answers with one id for each message, or raises. *)
Lemma pyro_forward_counts c from to ids (w : Tg T) l w' :
  pyro_forward_messages c from to ids w = (Ok l, w') -> zlen l = zlen ids.
Proof.
  unfold pyro_forward_messages, sbind, call. destruct (lib_forward c to from ids (tg_server w)) as [[f|x] t]; [|done].
  destruct (as_list f) as [ms|]; [|done]. destruct (Z.eqb_spec (zlen ms) (zlen ids)) as [He|]; [|done]. unfold slift.
  intros [= Hm _]. rewrite <- He. clear He. revert l Hm. induction ms as [|[m|] ms IH]; intros l; cbn [message_ids]; [by intros [= <-]|..|done].
  destruct (message_ids ms) as [rest|]; [|done]. cbn [rbind]. intros [= <-]. rewrite !zlen_cons. by rewrite (IH rest eq_refl).
Qed.

End Reads.

(** A channel given by its number becomes the id of a channel, one given by
    its name the bare number. *)
Lemma resolved_name_is_bare {T} `{Pyrogram T} c (w : Tg T) t :
  lib_resolve_peer c (inr "@films"%string) (tg_server w) = (Ok (InputPeerChannel 1234), t) ->
  pyro_resolve_channel_id c "1234" w = (Ok (-1001234), w) /\ (pyro_resolve_channel_id c "films" w).1 = Ok 1234.
Proof.
  intros Hr. split; [done|]. unfold pyro_resolve_channel_id.
  replace (int_of_string ("-100" +:+ "films")) with (Raise ValueError : exc Z) by done.
  unfold sbind, call. change ("@" +:+ "films")%string with "@films"%string. by rewrite Hr.
Qed.

(** ** The two clients *)

(** Whichever of the two libraries is configured, a range of a document
    reads the same: on servers where a message carries the same bytes and the
    clients are answered, both deliver the range in full, without a fault. *)
Theorem clients_agree {T P} `{TelethonLaws T} `{PyroLaws P} c k chat docs mid b begin last (w : Tg T) (v : Tg P) :
  ids_ok w -> ids_true docs w -> carries_all (tg_server w) docs -> docs chat mid = Some b -> online (tg_server w) c ->
  p_carries (tg_server v) chat mid b -> answered (tg_server v) k ->
  0 <= begin -> begin <= last -> last < zlen b ->
  exists s s', (client_download_file c chat mid begin last w).1 = Ok s /\ (pyro_download_file k chat mid begin last v).1 = Ok s' /\
    fault s = None /\ fault s' = None /\ stream_bytes s = stream_bytes s' /\ stream_bytes s' = zslice begin (last + 1) b.
Proof.
  intros. pose proof (client_download_spec c chat docs mid b begin last w) as Ht. destruct (client_download_file _ _ _ _ _ w) as [[s|x] w'];
    destruct Ht as (_ & _ & _ & _ & _ & Ht); try done; [|by destruct Ht].
  pose proof (pyro_download_exact k chat mid b begin last v) as Hp. destruct (pyro_download_file _ _ _ _ _ v) as [[s'|x] v'];
    destruct Hp as (_ & _ & Hp); try done; [|by destruct Hp].
  exists s, s'. unfold delivers in Ht. destruct (fault s); [by destruct Ht as (_ & ? & _)|]. destruct (fault s'); [by destruct Hp as (_ & ? & _)|].
  rewrite Hp. by rewrite Ht.
Qed.

(** ** A server in memory, through this library *)

Definition gm_file_id (chat mid : Z) : string := pretty.pretty (Zpos (encode (chat, mid))).

Definition gm_pyro (t : TgMem) (chat mid : Z) : option PyroMessage :=
  match Dict.get (chat, mid) (gm_docs t) with
  | Some b => Some {| pm_id := mid; pm_text := None;
                      pm_document := Some {| pd_file_id := gm_file_id chat mid; pd_file_size := zlen b |} |}
  | None => option_map (fun s => {| pm_id := mid; pm_text := Some s; pm_document := None |}) (Dict.get (chat, mid) (gm_texts t))
  end.

Definition gm_decode (s : string) : exc FileId :=
  match int_of_string s with
  | Ok (Zpos p) =>
      match (decode p : option (Z * Z)) with
      | Some (chat, mid) => Ok {| fi_media_id := mid; fi_access_hash := chat; fi_file_reference := [] |}
      | None => Raise ValueError
      end
  | _ => Raise ValueError
  end.

#[export] Instance mem_pyrogram : Pyrogram TgMem := {
  lib_decode := gm_decode;
  lib_get c chat ids := when_up (fun t => (Ok (Many (map (gm_pyro t chat) ids)), t));
  lib_get_one c chat mid := when_up (fun t => (Ok (match gm_pyro t chat mid with Some m => Single m | None => Nothing end), t));
  lib_get_file c f n t :=
    (match Dict.get (fi_access_hash f, fi_media_id f) (gm_docs t) with
     | Some b => if gm_up t then {| pieces := chunks 3 (zdrop (n * GET_FILE_CHUNK_SIZE) b); fault := None |}
                 else {| pieces := []; fault := Some offline |}
     | None => {| pieces := []; fault := Some offline |}
     end, t);
  lib_send c chat text := when_up (lib_send_message c chat text);
  lib_edit c chat mid text := when_up (lib_edit_text c chat mid text);
  lib_resolve_peer c p := when_up (fun t => (Ok (match p with inl n => InputPeerChannel n | inr _ => OtherPeer end), t));
  lib_edit_media c p mid f :=
    match p with
    | InputPeerChannel chat => (let! id := lib_edit_file c chat mid f in sret [UpdateEditChannelMessage id])
    | OtherPeer => sraise offline
    end;
  lib_send_media c p f big caption :=
    match p with
    | InputPeerChannel chat =>
        (let! id := lib_send_file c chat f big in sret (match id with Some i => [UpdateMessageID i] | None => [] end))
    | OtherPeer => sraise offline
    end;
  lib_save_file_part c f p total b := lib_save_part c f p total b;
  lib_pinned c chat t := ([], None, t);
  lib_pin c chat mid := sret tt;
  lib_forward c to from ids :=
    (let! l := lib_forward_messages c from to ids in
     sret (Many (map (option_map (fun i => {| pm_id := i; pm_text := None; pm_document := None |})) l)));
  lib_delete c chat ids := lib_delete_messages c chat ids
}.

#[export] Program Instance mem_pyro_laws : PyroLaws TgMem := {
  p_carries t chat mid b := Dict.get (chat, mid) (gm_docs t) = Some b;
  holds t f b := Dict.get (fi_access_hash f, fi_media_id f) (gm_docs t) = Some b;
  answered t c := gm_up t = true
}.
Next Obligation.
  intros c chat mid b t Hb. cbn [lib_get_one mem_pyrogram]. unfold when_up, gm_pyro. destruct (gm_up t) eqn:Hu.
  - rewrite Hb. split; [done|]. split; [done|]. do 2 eexists. eexists {| fi_media_id := mid; fi_access_hash := chat |}.
    split; [done|]. split; [done|]. split; [|done]. cbn [lib_decode mem_pyrogram pd_file_id]. unfold gm_decode, gm_file_id.
    rewrite int_of_pretty, decode_encode. done.
  - split; [done|]. split; [done|]. done.
Qed.
Next Obligation.
  intros c fid b n t Hb Hn Hl. cbn [lib_get_file mem_pyrogram]. rewrite Hb. split; [done|]. destruct (gm_up t) eqn:Hu.
  - split; [exists []; unfold stream_bytes; cbn [pieces]; by rewrite concat_chunks, app_nil_r|]. split; [done|]. intros _.
    split; [done|]. apply concat_chunks. lia.
  - split; [by eexists|]. split; [by intros x [= <-]|]. done.
Qed.

Definition demo_pyro : Tg TgMem := set_server demo_server (demo_tg (chunk_cache 0)).

Lemma clients_agree_witness :
  exists s s', (client_download_file (Bot 0) 100 7 3 13 (demo_tg (chunk_cache 0))).1 = Ok s /\
    (pyro_download_file (Bot 0) 100 7 3 13 demo_pyro).1 = Ok s' /\ stream_bytes s' = zslice 3 14 demo_bytes.
Proof.
  destruct (demo_ids (chunk_cache 0)) as (Hi & Ht & Hc).
  destruct (clients_agree (Bot 0) (Bot 0) 100 demo_docs 7 demo_bytes 3 13 (demo_tg (chunk_cache 0)) demo_pyro Hi Ht Hc eq_refl)
    as (s & s' & H1 & H2 & _ & _ & _ & H3); try done; try lia.
  by exists s, s'.
Defined.
