(* ===== verification/LocalCacheProps.v ===== *)
(** * The budget of the local cache, under every interleaving

    The cache is shared by uploads, downloads, mirroring and the sweeper,
    which take turns at their awaits.  A machine keeps the writes that are on
    their way to disk next to the cache; an event is what one task does
    between two awaits, in any order. *)

From stdpp Require Import sorting.
From S2P Require Import Prelude Errors CacheEntry LocalCache.

Open Scope Z_scope.
Open Scope py_scope.

(** ** What leaves the entries alone *)

Lemma entries_save_index s : lc_entries (save_index s) = lc_entries s.
Proof. unfold save_index. destruct (os_call (lc_disk s)) as [[k|] d]; done. Qed.
Lemma uid_save_index s : lc_next_uid (save_index s) = lc_next_uid s.
Proof. unfold save_index. destruct (os_call (lc_disk s)) as [[k|] d]; done. Qed.

(** ** Dictionaries of entries *)

Lemma keys_del {V} v (d : dict string V) : Dict.keys (Dict.del v d) = List.filter (fun k => bool_decide (v <> k)) (Dict.keys d).
Proof.
  unfold Dict.del, Dict.keys. induction d as [|[k x] d IH]; [done|]. rewrite filter_cons. simpl.
  destruct (decide (v <> k)) as [Hd|Hd]; [rewrite bool_decide_eq_true_2 by done|rewrite bool_decide_eq_false_2 by done]; simpl; by rewrite IH.
Qed.

Lemma del_absent {V} v (d : dict string V) : Dict.get v d = None -> Dict.del v d = d.
Proof.
  unfold Dict.del. induction d as [|[k x] d IH]; [done|]. simpl. case_decide; [done|]. intros Hn.
  rewrite filter_cons, decide_True by done. by rewrite IH.
Qed.

Lemma zlen_del {V} v (d : dict string V) : zlen (Dict.del v d) <= zlen d.
Proof.
  unfold zlen, Dict.del. induction d as [|[k x] d IH]; [done|]. rewrite filter_cons. case_decide; simpl; lia.
Qed.

Lemma zlen_set {V} v x (d : dict string V) : zlen (Dict.set v x d) = if Dict.mem v d then zlen d else zlen d + 1.
Proof.
  unfold Dict.mem. induction d as [|[k y] d IH]; simpl; [done|]. destruct (decide (v = k)); simpl; rewrite !zlen_cons; [done|].
  rewrite IH. destruct (Dict.get v d); lia.
Qed.

Section Sums.
  Context (f : CacheEntry -> Z).
Definition dsum (d : dict string CacheEntry) : Z := zsum (map (fun ve => f ve.2) d).

Lemma dsum_del v e d : Dict.wf d -> Dict.get v d = Some e -> dsum (Dict.del v d) = dsum d - f e.
Proof.
  unfold dsum, Dict.wf. induction d as [|[k x] d IH]; [done|]. simpl. intros [Hk Hwf]%NoDup_cons. destruct (decide (v = k)) as [->|Hne].
  - intros [= ->]. unfold Dict.del. rewrite filter_cons, decide_False by (simpl; tauto). fold (Dict.del k d).
    rewrite del_absent; [lia|]. destruct (Dict.get k d) as [y|] eqn:Hg; [|done]. destruct Hk.
    apply Dict.get_Some_In in Hg. apply list_elem_of_In. by apply (in_map fst) in Hg.
  - intros Hg. unfold Dict.del. rewrite filter_cons, decide_True by done. simpl. fold (Dict.del v d). rewrite IH by done. lia.
Qed.

Lemma dsum_set v e e' d : Dict.wf d -> Dict.get v d = Some e -> dsum (Dict.set v e' d) = dsum d - f e + f e'.
Proof.
  unfold dsum, Dict.wf. induction d as [|[k x] d IH]; [done|]. simpl. intros [Hk Hwf]%NoDup_cons. destruct (decide (v = k)) as [->|Hne]; simpl.
  - intros [= ->]. lia.
  - intros Hg. rewrite IH by done. lia.
Qed.

Lemma dsum_add v e d : Dict.get v d = None -> dsum (Dict.set v e d) = dsum d + f e.
Proof.
  unfold dsum. induction d as [|[k x] d IH]; simpl; [lia|]. destruct (decide (v = k)); [done|]. intros Hg. simpl. rewrite IH by done. lia.
Qed.
End Sums.

(** ** The entries of a cache *)

Record cache_ok (s : LocalCache) : Prop := {
  co_wf : Dict.wf (lc_entries s);
  co_entry : forall v e, entry_of v s = Some e -> entry_ok e /\ ce_version_id e = v /\ (ce_uid e < lc_next_uid s)%nat;
  co_uids : forall v v' e e', entry_of v s = Some e -> entry_of v' s = Some e' -> ce_uid e = ce_uid e' -> v = v'
}.

(** [s'] is [s] without some entries that may be evicted. *)
Record shrunk (keep : option nat) (s s' : LocalCache) : Prop := {
  sh_wf : Dict.wf (lc_entries s) -> Dict.wf (lc_entries s');
  sh_entry : forall v, entry_of v s' = entry_of v s \/
    (entry_of v s' = None /\ exists e, entry_of v s = Some e /\ evictable e = true /\ Some (ce_uid e) <> keep);
  sh_len : zlen (lc_entries s') <= zlen (lc_entries s);
  sh_used : cache_ok s -> used_bytes s' <= used_bytes s;
  sh_uid : lc_next_uid s' = lc_next_uid s
}.

Lemma shrunk_refl keep s : shrunk keep s s.
Proof. split; auto; lia. Qed.

Lemma shrunk_same keep s s' : lc_entries s' = lc_entries s -> lc_next_uid s' = lc_next_uid s -> shrunk keep s s'.
Proof. intros He Hu. split; unfold entry_of, used_bytes; rewrite ?He; auto; lia. Qed.

Lemma shrunk_ok keep s s' : cache_ok s -> shrunk keep s s' -> cache_ok s'.
Proof.
  intros [Hw He Hu] [W E _ _ U]. split; [auto| |].
  - intros v e Hv. rewrite U. apply He. destruct (E v) as [<-|[? _]]; congruence.
  - intros v v' e e' Hv Hv'. apply Hu; [destruct (E v) as [<-|[? _]]|destruct (E v') as [<-|[? _]]]; congruence.
Qed.

Lemma shrunk_trans keep s1 s2 s3 : shrunk keep s1 s2 -> shrunk keep s2 s3 -> shrunk keep s1 s3.
Proof.
  intros H12. pose proof H12 as [W1 E1 L1 S1 U1]. intros [W2 E2 L2 S2 U2]. split; [auto| |lia| |congruence].
  - intros v. destruct (E2 v) as [->|[-> (e & He & Hev)]]; [apply E1|]. destruct (E1 v) as [Hs|[Hn _]]; [|congruence].
    right. split; [done|]. exists e. by rewrite <- Hs.
  - intros Hok. specialize (S2 (shrunk_ok _ _ _ Hok H12)). specialize (S1 Hok). lia.
Qed.

Lemma entry_of_drop v v' s : entry_of v (drop_entry v' s).2 = if decide (v = v') then None else entry_of v s.
Proof.
  unfold drop_entry. destruct (entry_of v' s) as [e|] eqn:He; unfold entry_of; simpl.
  - destruct (decide (v = v')) as [->|]; [apply Dict.get_del_eq|by apply Dict.get_del_ne].
  - destruct (decide (v = v')) as [->|]; done.
Qed.

Lemma drop_entries v s : lc_entries (drop_entry v s).2 = Dict.del v (lc_entries s) /\ lc_next_uid (drop_entry v s).2 = lc_next_uid s.
Proof.
  unfold drop_entry. destruct (entry_of v s) as [e|] eqn:He; [done|]. simpl. split; [|done]. by rewrite del_absent.
Qed.

Lemma used_drop v e s : cache_ok s -> entry_of v s = Some e -> used_bytes (drop_entry v s).2 = used_bytes s - charged_bytes e.
Proof. intros [Hw _ _] He. unfold used_bytes. destruct (drop_entries v s) as [-> _]. by apply (dsum_del charged_bytes). Qed.

Lemma drop_shrunk keep v e s :
  entry_of v s = Some e -> evictable e = true -> Some (ce_uid e) <> keep -> shrunk keep s (drop_entry v s).2.
Proof.
  intros He Hev Hk. destruct (drop_entries v s) as [Hd Hu]. split.
  - rewrite Hd. apply Dict.wf_del.
  - intros v'. rewrite entry_of_drop. destruct (decide (v' = v)) as [->|]; [|by left]. right. split; [done|]. by exists e.
  - rewrite Hd. apply zlen_del.
  - intros Hok. rewrite (used_drop v e s Hok He). destruct Hok as [_ Hent _]. destruct (Hent v e He) as [Heo _].
    pose proof (charged_bytes_nonneg e Heo). lia.
  - done.
Qed.

(** ** Making room *)

Section Room.
  Context (cfg : CacheConfig).

(** The budget with [size] more bytes and [files] more entries. *)
Definition room_for (size files : Z) (s : LocalCache) : Prop :=
  (max_size_bytes cfg <> 0 -> used_bytes s + size <= max_size_bytes cfg) /\
  (files <> 0 -> cf_max_files cfg <> 0 -> zlen (lc_entries s) + files <= cf_max_files cfg).

Definition victims_live (keep : option nat) (victims : list CacheEntry) (s : LocalCache) : Prop :=
  NoDup (map ce_version_id victims) /\
  Forall (fun e => entry_of (ce_version_id e) s = Some e /\ evictable e = true /\ Some (ce_uid e) <> keep) victims.

Lemma make_room_loop_spec keep size new victims used any s ok any' s' :
  cache_ok s -> victims_live keep victims s -> used = used_bytes s ->
  make_room_loop cfg size new victims used any s = (ok, any', s') ->
  exists gone left, victims = gone ++ left /\ shrunk keep s s' /\
    (forall v, entry_of v s' = if decide (v ∈ map ce_version_id gone) then None else entry_of v s) /\
    (ok = true -> room_for size (if new then 1 else 0) s') /\ (ok = false -> left = []).
Proof.
  revert used any s. induction victims as [|victim victims IH]; intros used any s Hok Hlive -> Hrun; cbn [make_room_loop] in Hrun.
  all: set (p := if min_free_bytes cfg =? 0 then _ else _) in Hrun;
    assert (exists free s1, p = (free, s1) /\ lc_entries s1 = lc_entries s /\ lc_next_uid s1 = lc_next_uid s) as (free & s1 & Hp & He & Hu)
      by (unfold p; destruct (min_free_bytes cfg =? 0); [by exists None, s|]; destruct (disk_free (lc_disk s)) as [x d]; by exists x, (with_disk d s));
    rewrite Hp in Hrun; clear p Hp;
    set (overb := negb (max_size_bytes cfg =? 0) && _) in Hrun; set (overf := new && _ && _) in Hrun;
    assert (overb = false -> overf = false -> room_for size (if new then 1 else 0) s1) as Hroom
      by (intros Hb Hf; split;
          [intros Hm; unfold overb in Hb; rewrite (proj2 (Z.eqb_neq _ _) Hm) in Hb; cbn [negb andb] in Hb; apply Z.ltb_ge in Hb;
           unfold used_bytes in *; rewrite He; lia
          |intros Hn Hm; destruct new; [|done]; unfold overf in Hf; rewrite (proj2 (Z.eqb_neq _ _) Hm) in Hf; cbn [negb andb] in Hf;
           apply Z.ltb_ge in Hf; rewrite He; lia]);
    assert (shrunk keep s s1) as Hs1 by by apply shrunk_same.
  - exists [], []. assert (s1 = s') as <- by (destruct (negb overb && negb overf && _); by simplify_eq).
    split; [done|]. split; [done|]. split; [intros v; unfold entry_of; by rewrite He|]. split; [|done].
    intros ->. destruct (negb overb && negb overf && _) eqn:Hc; [|done].
    apply andb_prop in Hc as [[Hb%negb_true_iff Hf%negb_true_iff]%andb_prop _]. by apply Hroom.
  - destruct (negb overb && negb overf && _) eqn:Hc.
    + injection Hrun as <- <- <-. exists [], (victim :: victims). split; [done|]. split; [done|].
      split; [intros v; unfold entry_of; by rewrite He|]. split; [|done]. intros _.
      apply andb_prop in Hc as [[Hb%negb_true_iff Hf%negb_true_iff]%andb_prop _]. by apply Hroom.
    + clear Hroom Hc. destruct Hlive as [Hnd Hall]. apply Forall_cons in Hall as [(Hv & Hev & Hk) Hall].
      simpl in Hnd. apply NoDup_cons in Hnd as [Hnew Hnd]. assert (cache_ok s1) as Hok1 by by eapply shrunk_ok.
      assert (entry_of (ce_version_id victim) s1 = Some victim) as Hv1 by (unfold entry_of; by rewrite He).
      unfold evict in Hrun. apply IH in Hrun as (gone & left & -> & Hsh & Hent & Hfit & Hno); cycle 1.
      * by eapply shrunk_ok, drop_shrunk.
      * split; [done|]. eapply Forall_impl; [apply Forall_and; split; [exact Hall|]; apply List.Forall_forall; intros x Hx; exact Hx|].
        intros x [(Hx & Hxe & Hxk) Hin]. split; [|done]. rewrite entry_of_drop, decide_False; [unfold entry_of; by rewrite He|].
        intros Heq. apply Hnew. rewrite <- Heq. apply list_elem_of_In, in_map, Hin.
      * rewrite (used_drop _ _ _ Hok1 Hv1). unfold used_bytes. by rewrite He.
      * exists (victim :: gone), left. split; [done|].
        split; [eapply shrunk_trans; [exact Hs1|]; eapply shrunk_trans; [|exact Hsh]; by eapply drop_shrunk|].
        split; [|done]. intros v. rewrite Hent, entry_of_drop. cbn [map].
        assert (entry_of v s1 = entry_of v s) as -> by (unfold entry_of; by rewrite He).
        destruct (decide (v ∈ map ce_version_id gone)) as [Hi|Hi], (decide (v = ce_version_id victim)) as [Hi'|Hi'],
          (decide (v ∈ ce_version_id victim :: map ce_version_id gone)) as [Hc'|Hc']; try done; rewrite elem_of_cons in Hc'; tauto.
Qed.

(** Values are what the dictionary finds under their ids. *)
Lemma values_live s e : cache_ok s -> In e (Dict.values (lc_entries s)) -> entry_of (ce_version_id e) s = Some e.
Proof.
  intros [Hw He _] ([v x] & <- & Hin)%in_map_iff. simpl. pose proof (Dict.In_get v x _ Hw Hin) as Hg.
  destruct (He v x Hg) as (_ & -> & _). done.
Qed.

Lemma values_nodup s : cache_ok s -> NoDup (map ce_version_id (Dict.values (lc_entries s))).
Proof.
  intros [Hw He _]. enough (map ce_version_id (Dict.values (lc_entries s)) = Dict.keys (lc_entries s)) as -> by done.
  unfold Dict.values, Dict.keys. rewrite map_map. apply map_ext_in. intros [v e] Hin. simpl.
  apply (Dict.In_get v e _ Hw) in Hin. by destruct (He v e Hin) as (_ & -> & _).
Qed.

Lemma lru_order_live keep s : cache_ok s -> victims_live keep (rev (lru_order keep s)) s.
Proof.
  intros Hok. unfold lru_order. set (l := List.filter _ _). split.
  - rewrite map_rev, <- Permutation_rev, (sort_by_perm _ l).
    unfold l. clear l. pose proof (values_nodup s Hok) as Hnd. revert Hnd.
    induction (Dict.values (lc_entries s)) as [|e es IH]; simpl; [done|]. intros [Hn Hnd]%NoDup_cons.
    destruct (evictable e && _); [|by apply IH]. simpl. apply NoDup_cons. split; [|by apply IH].
    intros Hin. apply Hn. apply list_elem_of_In, in_map_iff in Hin as (x & Hx & Hin). apply filter_In in Hin as [Hin _].
    rewrite <- Hx. apply list_elem_of_In. by apply in_map.
  - rewrite <- Permutation_rev, (sort_by_perm _ l). apply List.Forall_forall. intros e [Hin Hc]%filter_In.
    apply andb_prop in Hc as [Hev Hk%negb_true_iff]. split; [by apply values_live|]. split; [done|].
    by apply bool_decide_eq_false in Hk.
Qed.

Lemma make_room_spec size new keep s ok s' :
  cache_ok s -> make_room cfg size new keep s = (ok, s') ->
  shrunk keep s s' /\ (ok = true -> room_for size (if new then 1 else 0) s').
Proof.
  intros Hok. unfold make_room. destruct (make_room_loop _ _ _ _ _ _ s) as [[o any] s1] eqn:Hl. intros [= <- <-].
  apply (make_room_loop_spec keep) in Hl as (gone & left & _ & Hsh & _ & Hroom & _); [|done|by apply lru_order_live|done].
  destruct any; [|done]. split.
  - eapply shrunk_trans; [exact Hsh|]. apply shrunk_same; [apply entries_save_index|apply uid_save_index].
  - intros Ho. specialize (Hroom Ho). unfold room_for, used_bytes in *. by rewrite entries_save_index.
Qed.

End Room.

(** ** The machine *)

(** What a staging writer is doing: between calls, back from the thread, or
    closing its file. *)
Inductive WStatus := WIdle | WWrote (ok : bool) | WClosing.

Record Machine := {
  mc_cache : LocalCache;
  mc_fills : list (Fill * option bool);          (* with the thread's answer, once it is back *)
  mc_writers : list (StagingWriter * WStatus)
}.

Inductive Event :=
| EvReserve (fs v : string) (size now : Z)
| EvStage (fs v : string) (size now : Z)
| EvClaim (v : string) (begin : Z) (data : bytes)
| EvFillWrite (i : nat)
| EvFillEnd (i : nat) (now : Z)
| EvStageWrite (i : nat) (data : bytes)
| EvStageAfter (i : nat)
| EvStageFinish (i : nat)
| EvStageAbort (i : nat)
| EvPin (v : string) (now : Z)
| EvUnpin (v : string)
| EvRelease (v : string)
| EvRemove (vs : list string)
| EvEvictUnpinned
| EvSweep (queue_empty : option (string -> bool)) (now : Z)
| EvRead (v : string) (begin last now : Z).

Section Machine.
  Context (cfg : CacheConfig).

Definition on_cache (f : LocalCache -> LocalCache) (m : Machine) : Machine :=
  {| mc_cache := f (mc_cache m); mc_fills := mc_fills m; mc_writers := mc_writers m |}.

(** An event that does not fit the state changes nothing. *)
Definition cache_step (ev : Event) (m : Machine) : Machine :=
  let s := mc_cache m in
  match ev with
  | EvReserve fs v size now => on_cache (fun s => (reserve cfg fs v size now s).2) m
  | EvStage fs v size now =>
      let '(w, s) := open_staging cfg fs v size now s in
      {| mc_cache := s; mc_fills := mc_fills m;
         mc_writers := mc_writers m ++ match w with Some w => [(w, WIdle)] | None => [] end |}
  | EvClaim v begin data =>
      let '(f, s) := fill_claim cfg v begin data s in
      {| mc_cache := s; mc_fills := mc_fills m ++ match f with Some f => [(f, None)] | None => [] end; mc_writers := mc_writers m |}
  | EvFillWrite i =>
      match mc_fills m !! i with
      | Some (f, None) =>
          let '(ok, s) := fill_write f s in
          {| mc_cache := s; mc_fills := <[i := (f, Some ok)]> (mc_fills m); mc_writers := mc_writers m |}
      | _ => m
      end
  | EvFillEnd i now =>
      match mc_fills m !! i with
      | Some (f, Some ok) =>
          {| mc_cache := fill_end f ok now s; mc_fills := delete i (mc_fills m); mc_writers := mc_writers m |}
      | _ => m
      end
  | EvStageWrite i data =>
      match mc_writers m !! i with
      | Some (w, WIdle) =>
          if sw_failed w || negb (nonempty data) then m
          else
            let '(ok, w, s) := write_sync w data s in
            {| mc_cache := s; mc_fills := mc_fills m; mc_writers := <[i := (w, WWrote ok)]> (mc_writers m) |}
      | _ => m
      end
  | EvStageAfter i =>
      match mc_writers m !! i with
      | Some (w, WWrote true) =>
          {| mc_cache := writer_mark w s; mc_fills := mc_fills m;
             mc_writers := <[i := (w, if sw_size w <=? sw_offset w then WClosing else WIdle)]> (mc_writers m) |}
      | _ => m
      end
  | EvStageFinish i =>
      match mc_writers m !! i with
      | Some (w, WClosing) =>
          let '(w, s) := writer_finish w s in
          {| mc_cache := s; mc_fills := mc_fills m; mc_writers := <[i := (w, WIdle)]> (mc_writers m) |}
      | _ => m
      end
  | EvStageAbort i =>
      match mc_writers m !! i with
      | Some (w, _) =>
          let '(w, s) := writer_abort w s in
          {| mc_cache := s; mc_fills := mc_fills m; mc_writers := <[i := (w, WIdle)]> (mc_writers m) |}
      | None => m
      end
  | EvPin v now => on_cache (pin v now) m
  | EvUnpin v => on_cache (unpin v) m
  | EvRelease v => on_cache (release cfg v) m
  | EvRemove vs => on_cache (remove_many vs) m
  | EvEvictUnpinned => on_cache evict_unpinned m
  | EvSweep q now => on_cache (fun s => (sweep cfg q now s).2) m
  | EvRead v begin last now => on_cache (fun s => (read_start v begin last now s).2) m
  end.

Definition run (evs : list Event) (m : Machine) : Machine := foldl (fun m ev => cache_step ev m) m evs.

(** ** How entries change *)

(** The same object, with more blocks on disk. *)
Record grown (e e' : CacheEntry) : Prop := {
  gr_uid : ce_uid e' = ce_uid e;
  gr_version : ce_version_id e' = ce_version_id e;
  gr_size : ce_size e' = ce_size e;
  gr_block : ce_block_size e' = ce_block_size e;
  gr_blocks : blocks e' = blocks e;
  gr_inflight : ce_inflight e' = ce_inflight e;
  gr_writing : ce_writing e' = ce_writing e;
  gr_present : forall i, present_at e i = true -> present_at e' i = true
}.

Lemma entry_grown_refl e : grown e e.
Proof. by split. Qed.

Lemma entry_grown_trans e1 e2 e3 : grown e1 e2 -> grown e2 e3 -> grown e1 e3.
Proof. intros [] []. split; try congruence. auto. Qed.

(** Every entry of [s'] grew out of one of [s] or is new. *)
Definition evolves (s s' : LocalCache) : Prop :=
  (lc_next_uid s <= lc_next_uid s')%nat /\
  forall v e', entry_of v s' = Some e' ->
    (exists e, entry_of v s = Some e /\ grown e e') \/ ((lc_next_uid s <= ce_uid e')%nat /\ ce_inflight e' = 0).

Lemma evolves_refl s : evolves s s.
Proof. split; [lia|]. intros v e He. left. exists e. split; [done|apply entry_grown_refl]. Qed.

Lemma evolves_trans s1 s2 s3 : evolves s1 s2 -> evolves s2 s3 -> evolves s1 s3.
Proof.
  intros [U1 E1] [U2 E2]. split; [lia|]. intros v e3 H3. destruct (E2 v e3 H3) as [(e2 & H2 & G2)|[Hn Hi]]; [|right; split; [lia|done]].
  destruct (E1 v e2 H2) as [(e1 & H1 & G1)|[Hn Hi]].
  - left. exists e1. split; [done|]. by eapply entry_grown_trans.
  - right. destruct G2 as [Gu _ _ _ _ Gi _ _]. split; [lia|congruence].
Qed.

Lemma evolves_same s s' : lc_entries s' = lc_entries s -> lc_next_uid s' = lc_next_uid s -> evolves s s'.
Proof. intros He Hu. split; [lia|]. unfold entry_of. rewrite He. intros v e Hv. left. exists e. split; [done|apply entry_grown_refl]. Qed.

Lemma evolves_sub s s' :
  (forall v e, entry_of v s' = Some e -> entry_of v s = Some e) -> lc_next_uid s' = lc_next_uid s -> evolves s s'.
Proof. intros He Hu. split; [lia|]. intros v e Hv. left. exists e. split; [auto|apply entry_grown_refl]. Qed.

Lemma shrunk_evolves keep s s' : shrunk keep s s' -> evolves s s'.
Proof. intros [_ E _ U]. apply evolves_sub; [|done]. intros v e Hv. destruct (E v) as [<-|[? _]]; congruence. Qed.

(** Everything but the budget. *)
Definition within (s : LocalCache) : Prop :=
  (max_size_bytes cfg <> 0 -> used_bytes s <= max_size_bytes cfg) /\
  (cf_max_files cfg <> 0 -> zlen (lc_entries s) <= cf_max_files cfg).

(** A cache step: the entries stay well formed and within the budget. *)
Record good_step (s s' : LocalCache) : Prop := {
  gs_ok : cache_ok s';
  gs_evolves : evolves s s';
  gs_within : within s -> within s'
}.

Lemma good_refl s : cache_ok s -> good_step s s.
Proof. intros Hok. split; [done|apply evolves_refl|done]. Qed.

Lemma good_trans s1 s2 s3 : good_step s1 s2 -> (cache_ok s2 -> good_step s2 s3) -> good_step s1 s3.
Proof. intros [O1 E1 W1] H2. destruct (H2 O1) as [O2 E2 W2]. split; [done|by eapply evolves_trans|auto]. Qed.

Lemma good_same s s' : lc_entries s' = lc_entries s -> lc_next_uid s' = lc_next_uid s -> cache_ok s -> good_step s s'.
Proof.
  intros He Hu Hok. split; [|by apply evolves_same|unfold within, used_bytes; by rewrite He].
  eapply (shrunk_ok None); [exact Hok|]. by apply shrunk_same.
Qed.

Lemma good_shrunk keep s s' : shrunk keep s s' -> cache_ok s -> good_step s s'.
Proof.
  intros Hs Hok. split; [by eapply shrunk_ok|by eapply shrunk_evolves|]. destruct Hs as [_ _ L S _]. specialize (S Hok).
  intros [W1 W2]. split; intros Hz; [specialize (W1 Hz)|specialize (W2 Hz)]; lia.
Qed.

(** Dropping any entry. *)
Lemma good_drop v s : cache_ok s -> good_step s (drop_entry v s).2.
Proof.
  intros Hok. destruct (entry_of v s) as [e|] eqn:He; [|unfold drop_entry; rewrite He; by apply good_refl].
  destruct (drop_entries v s) as [Hd Hu]. pose proof (used_drop v e s Hok He) as Hused. pose proof Hok as [Hw Hent Hun].
  destruct (Hent v e He) as [Heo _]. pose proof (charged_bytes_nonneg e Heo).
  assert (forall v' e', entry_of v' (drop_entry v s).2 = Some e' -> entry_of v' s = Some e') as Hsub.
  { intros v' e'. rewrite entry_of_drop. by case_decide. }
  split.
  - split; [rewrite Hd; by apply Dict.wf_del| |].
    + intros v' e' He'. rewrite Hu. by apply Hent, Hsub.
    + intros v1 v2 e1 e2 H1 H2. apply Hun; by apply Hsub.
  - by apply evolves_sub.
  - intros [W1 W2]. pose proof (zlen_del v (lc_entries s)). rewrite <- Hd in *. split; intros Hz; [specialize (W1 Hz)|specialize (W2 Hz)]; lia.
Qed.

Lemma good_save s : cache_ok s -> good_step s (save_index s).
Proof. apply good_same; [apply entries_save_index|apply uid_save_index]. Qed.

Lemma good_remove v s : cache_ok s -> good_step s (remove v s).
Proof.
  intros Hok. unfold remove. pose proof (good_drop v s Hok) as Hd. destruct (drop_entry v s) as [[] s1]; [|exact Hd].
  eapply good_trans; [exact Hd|apply good_save].
Qed.

Lemma good_remove_many vs s : cache_ok s -> good_step s (remove_many vs s).
Proof.
  intros Hok. unfold remove_many.
  assert (forall any s, cache_ok s -> good_step s (drop_all vs any s).2) as Hall.
  { clear s Hok. induction vs as [|v vs IH]; intros any s Hok; simpl; [by apply good_refl|].
    pose proof (good_drop v s Hok) as Hd. destruct (drop_entry v s) as [b s1]. eapply good_trans; [exact Hd|apply IH]. }
  specialize (Hall false s Hok). destruct (drop_all vs false s) as [[] s1]; [|exact Hall].
  eapply good_trans; [exact Hall|apply good_save].
Qed.

(** Replacing an entry by one that grew out of it, at no higher charge. *)
Lemma good_put v e e' s : cache_ok s -> entry_of v s = Some e -> grown e e' -> entry_ok e' ->
  charged_bytes e' <= charged_bytes e -> good_step s (put_entry e' s).
Proof.
  intros [Hw Hent Hun] He Hg Heo Hc. destruct (Hent v e He) as (_ & Hv & Hu).
  assert (ce_version_id e' = v) as Hv' by (destruct Hg; congruence).
  assert (forall v' e2, entry_of v' (put_entry e' s) = Some e2 -> (v' = v /\ e2 = e') \/ (v' <> v /\ entry_of v' s = Some e2)) as Hget.
  { intros v' e2. unfold put_entry, entry_of. simpl. rewrite Hv'. destruct (decide (v' = v)) as [->|Hne].
    - rewrite Dict.get_set_eq. intros [= <-]. by left.
    - rewrite Dict.get_set_ne by done. by right. }
  assert (exists x, ce_uid e' = ce_uid e /\ x = tt) as (_ & Huid & _) by (exists tt; by destruct Hg).
  split.
  - split; [by apply Dict.wf_set| |].
    + intros v' e2 [[-> ->]|[_ H2]]%Hget; [split; [done|]; split; [done|]; simpl; lia|by apply Hent].
    + intros v1 v2 e1 e2 H1%Hget H2%Hget Hx. destruct H1 as [[-> ->]|[_ H1]], H2 as [[-> ->]|[_ H2]]; [done| | |by eapply Hun].
      * apply (Hun v v2 e e2); congruence.
      * apply (Hun v1 v e1 e); congruence.
  - split; [simpl; lia|]. intros v' e2 [[-> ->]|[_ H2]]%Hget; left; [by exists e|]. exists e2. split; [done|apply entry_grown_refl].
  - intros [W1 W2]. unfold within, used_bytes, put_entry in *. simpl. rewrite Hv'. rewrite zlen_set. unfold Dict.mem. fold (entry_of v s). rewrite He.
    split; [|done]. intros Hz. specialize (W1 Hz). fold (dsum charged_bytes (lc_entries s)) in W1.
    pose proof (dsum_set charged_bytes v e e' _ Hw He) as Hd. unfold dsum in *. lia.
Qed.

(** ** New entries *)

Context (Hblock : 0 < block_bytes cfg).

Lemma new_entry_ok uid fs v size now writing : 0 <= size -> entry_ok (new_entry_of cfg uid fs v size now writing).
Proof.
  intros Hs. split; try done. unfold blocks, zlen. cbn. rewrite length_replicate. unfold blocks_for. lia.
Qed.

Lemma new_entry_absent uid fs v size now writing i : present_at (new_entry_of cfg uid fs v size now writing) i = false.
Proof.
  unfold present_at, znth. destruct (i <? 0); [done|]. cbn. destruct (_ !! Z.to_nat i) eqn:Hl; [|done].
  by apply lookup_replicate in Hl as [-> _].
Qed.

Lemma new_entry_charge uid fs v size now (writing : bool) : 0 <= size ->
  charged_bytes (new_entry_of cfg uid fs v size now writing) = if writing then size else 0.
Proof.
  intros Hs. unfold charged_bytes. cbn [ce_writing ce_size ce_inflight new_entry_of]. destruct writing; [done|].
  rewrite present_bytes_sum, Z.add_0_r. unfold bytes_of_blocks. set (e := new_entry_of _ _ _ _ _ _ _).
  assert (forall l, zsum (map (fun i => if present_at e i then block_length e i else 0) l) = 0) as Hz; [|apply Hz].
  induction l as [|i l IH]; [done|]. simpl. unfold e at 1. by rewrite new_entry_absent.
Qed.

Lemma create_files_entries e s : lc_entries (create_files e s).2 = lc_entries s /\ lc_next_uid (create_files e s).2 = lc_next_uid s.
Proof.
  unfold create_files. destruct (os_call (lc_disk s)) as [[k|] d]; [done|].
  set (x := os_call _). by destruct x as [[k|] d2].
Qed.

Lemma add_entry_spec fs v size now (writing : bool) s o s' :
  cache_ok s -> entry_of v s = None -> 0 <= size -> room_for cfg (if writing then size else 0) 1 s ->
  add_entry cfg fs v size now writing s = (o, s') ->
  good_step s s' /\ forall e, o = Some e -> e = new_entry_of cfg (lc_next_uid s) fs v size now writing /\ entry_of v s' = Some e.
Proof.
  intros [Hw Hent Hun] Hnone Hsize [R1 R2]. unfold add_entry, draw_uid. set (s1 := Build_LocalCache (lc_entries s) (lc_disk s) (S (lc_next_uid s)) (lc_last_sweep s)).
  set (e := new_entry_of _ _ _ _ _ _ _). pose proof (create_files_entries e s1) as [He Hu].
  destruct (create_files e s1) as [[] s2]; simpl in He, Hu.
  2: { intros [= <- <-]. split; [|done]. assert (forall v, entry_of v s2 = entry_of v s) as Hsame by (intros v'; unfold entry_of; by rewrite He).
       split; [|split; [lia|]|unfold within, used_bytes; by rewrite He].
       - split; [by rewrite He| |]; intros *; rewrite !Hsame; [intros Hv; rewrite Hu; destruct (Hent _ _ Hv) as (? & ? & ?); split_and!; [done|done|lia]|apply Hun].
       - intros v' e'. rewrite Hsame. intros Hv. left. exists e'. split; [done|apply entry_grown_refl]. }
  intros [= <- <-]. assert (forall v' e2, entry_of v' (put_entry e s2) = Some e2 -> (v' = v /\ e2 = e) \/ (v' <> v /\ entry_of v' s = Some e2)) as Hget.
  { intros v' e2. unfold put_entry, entry_of. simpl. rewrite He. change (ce_version_id e) with v. destruct (decide (v' = v)) as [->|Hne].
    - rewrite Dict.get_set_eq. intros [= <-]. by left.
    - rewrite Dict.get_set_ne by done. by right. }
  split.
  2: { intros e' [= <-]. split; [done|]. unfold entry_of. rewrite entries_save_index. unfold put_entry. simpl. apply Dict.get_set_eq. }
  assert (good_step s (put_entry e s2)) as Hput; [|eapply good_trans; [exact Hput|apply good_save]].
  split.
  - split; [simpl; rewrite He; by apply Dict.wf_set| |].
    + intros v' e2 [[-> ->]|[_ H2]]%Hget; simpl; rewrite Hu; [split; [by apply new_entry_ok|]; split; [done|]; simpl; lia|].
      destruct (Hent _ _ H2) as (? & ? & ?). split_and!; [done|done|lia].
    + intros v1 v2 e1 e2 H1%Hget H2%Hget Hx. destruct H1 as [[-> ->]|[_ H1]], H2 as [[-> ->]|[_ H2]]; [done| | |by eapply Hun].
      * destruct (Hent _ _ H2) as (_ & _ & ?). simpl in Hx. lia.
      * destruct (Hent _ _ H1) as (_ & _ & ?). simpl in Hx. lia.
  - split; [simpl; lia|]. intros v' e2 [[-> ->]|[_ H2]]%Hget; [right; simpl; split; [lia|done]|]. left. exists e2. split; [done|apply entry_grown_refl].
  - intros _. unfold within, used_bytes, put_entry. simpl. rewrite He. rewrite zlen_set. unfold Dict.mem. fold (entry_of v s). rewrite Hnone.
    fold (dsum charged_bytes (Dict.set v e (lc_entries s))). rewrite (dsum_add charged_bytes v e _ Hnone). unfold dsum.
    unfold e; rewrite new_entry_charge by done. split; intros Hz; [by apply R1|by apply R2].
Qed.

Lemma removed_none v s : entry_of v (if Dict.mem v (lc_entries s) then remove v s else s) = None.
Proof.
  unfold Dict.mem. fold (entry_of v s). destruct (entry_of v s) eqn:He; [|done]. unfold remove.
  pose proof (entry_of_drop v v s) as Hd. rewrite decide_True in Hd by done. destruct (drop_entry v s) as [[] s1]; [|exact Hd].
  unfold entry_of in *. by rewrite entries_save_index.
Qed.

Lemma good_removed v s : cache_ok s -> good_step s (if Dict.mem v (lc_entries s) then remove v s else s).
Proof. intros Hok. destruct (Dict.mem v (lc_entries s)); [by apply good_remove|by apply good_refl]. Qed.

(** The common part of [open_staging] and [reserve]. *)
Lemma opened_spec fs v size now (writing : bool) s ok s2 o s' :
  cache_ok s -> 0 <= size ->
  let s1 := if Dict.mem v (lc_entries s) then remove v s else s in
  make_room cfg (if writing then size else 0) true None s1 = (ok, s2) -> ok = true ->
  add_entry cfg fs v size now writing s2 = (o, s') ->
  good_step s s' /\ forall e, o = Some e -> e = new_entry_of cfg (lc_next_uid s2) fs v size now writing /\ entry_of v s' = Some e.
Proof.
  intros Hok Hsize s1 Hroom Ht Hadd. pose proof (good_removed v s Hok) as Hg1. fold s1 in Hg1.
  pose proof (gs_ok _ _ Hg1) as Hok1. apply make_room_spec in Hroom as [Hsh Hr]; [|done]. specialize (Hr Ht).
  assert (entry_of v s2 = None) as Hnone.
  { pose proof (removed_none v s) as Hn. fold s1 in Hn. destruct Hsh as [_ E _ _ _]. destruct (E v) as [->|[-> _]]; done. }
  pose proof (good_shrunk _ _ _ Hsh Hok1) as Hg2. destruct (add_entry_spec _ _ _ _ _ _ _ _ (gs_ok _ _ Hg2) Hnone Hsize Hr Hadd) as [Hg3 He].
  split; [|done]. eapply good_trans; [exact Hg1|]. intros _. by eapply good_trans; [exact Hg2|].
Qed.

Lemma good_reserve fs v size now s : cache_ok s -> good_step s (reserve cfg fs v size now s).2.
Proof.
  intros Hok. unfold reserve. destruct (negb (cf_enabled cfg) || (size <? 0)) eqn:Hc; [by apply good_refl|].
  apply orb_false_iff in Hc as [_ Hs%Z.ltb_ge]. set (s1 := if Dict.mem _ _ then _ else _).
  destruct (make_room cfg 0 true None s1) as [[] s2] eqn:Hm; simpl.
  - destruct (add_entry cfg fs v size now false s2) as [o s'] eqn:Ha. by eapply (opened_spec fs v size now false).
  - pose proof (good_removed v s Hok) as Hg1. fold s1 in Hg1. eapply good_trans; [exact Hg1|]. intros Hok1.
    apply make_room_spec in Hm as [Hsh _]; [|done]. by eapply good_shrunk.
Qed.

Lemma good_open_staging fs v size now s w s' :
  cache_ok s -> open_staging cfg fs v size now s = (w, s') ->
  good_step s s' /\
  forall x, w = Some x -> 0 <= size /\ exists e, entry_of v s' = Some e /\
    e = new_entry_of cfg (sw_uid x) fs v size now true /\
    x = {| sw_version_id := v; sw_uid := ce_uid e; sw_size := size; sw_block_size := ce_block_size e;
           sw_blocks := blocks e; sw_offset := 0; sw_fd := None; sw_failed := false |}.
Proof.
  intros Hok. unfold open_staging. destruct (negb (cf_enabled cfg) || (size <? 0)) eqn:Hc.
  { intros [= <- <-]. split; [by apply good_refl|done]. }
  apply orb_false_iff in Hc as [_ Hs%Z.ltb_ge]. set (s1 := if Dict.mem _ _ then _ else _).
  pose proof (good_removed v s Hok) as Hg1. fold s1 in Hg1.
  destruct (negb (fits cfg size)); [intros [= <- <-]; split; [exact Hg1|done]|].
  destruct (make_room cfg size true None s1) as [[] s2] eqn:Hm; simpl.
  - destruct (add_entry cfg fs v size now true s2) as [o s3] eqn:Ha. intros [= <- <-].
    destruct (opened_spec fs v size now true s true s2 o s3 Hok Hs Hm eq_refl Ha) as [Hg He]. split; [exact Hg|].
    intros x. destruct o as [e|]; [|done]. intros [= <-]. destruct (He e eq_refl) as [-> Hent]. split; [done|].
    eexists. split; [exact Hent|]. done.
  - intros [= <- <-]. split; [|done]. eapply good_trans; [exact Hg1|]. intros Hok1.
    apply make_room_spec in Hm as [Hsh _]; [|done]. by eapply good_shrunk.
Qed.

(** ** Pins, reads and housekeeping *)

Lemma set_entry_ok la pins pa e : entry_ok e -> 0 <= pins -> entry_ok (set_entry la pins (ce_writing e) (ce_inflight e) pa e).
Proof. intros [H1 H2 H3 H4 H5 H6] Hp. by split. Qed.

Lemma set_entry_grown la pins pa e : grown e (set_entry la pins (ce_writing e) (ce_inflight e) pa e).
Proof. by split. Qed.

(** Changes of pins and access times. *)
Lemma good_touch la pins pa v e s : cache_ok s -> entry_of v s = Some e -> 0 <= pins ->
  good_step s (put_entry (set_entry la pins (ce_writing e) (ce_inflight e) pa e) s).
Proof.
  intros Hok He Hp. eapply good_put; [done|exact He|apply set_entry_grown| |done].
  apply set_entry_ok; [by apply (co_entry _ Hok v e)|done].
Qed.

Lemma good_pin v now s : cache_ok s -> good_step s (pin v now s).
Proof.
  intros Hok. unfold pin. destruct (entry_of v s) as [e|] eqn:He; [|by apply good_refl].
  destruct (co_entry _ Hok v e He) as ([_ _ _ Hp _ _] & _ & _).
  match goal with |- good_step _ (save_index ?x) => apply (good_trans _ x) end; [|apply good_save].
  eapply (good_touch _ _ _ v e); [done|done|lia].
Qed.

Lemma good_unpin v s : cache_ok s -> good_step s (unpin v s).
Proof.
  intros Hok. unfold unpin. destruct (entry_of v s) as [e|] eqn:He; [|by apply good_refl].
  eapply (good_touch _ _ _ v e); [done|done|lia].
Qed.

Lemma good_release v s : cache_ok s -> good_step s (release cfg v s).
Proof.
  intros Hok. unfold release. destruct (entry_of v s) as [e|] eqn:He; [|by apply good_refl].
  apply (good_trans _ (put_entry (with_pins 0 0 e) s)); [by eapply (good_touch _ _ _ v e)|]. intros Hok1.
  destruct (negb _); [by apply good_remove|by apply good_save].
Qed.

Lemma good_read v begin last now s : cache_ok s -> good_step s (read_start v begin last now s).2.
Proof.
  intros Hok. unfold read_start. destruct (entry_of v s) as [e|] eqn:He; [|by apply good_refl].
  destruct (negb _); [by apply good_refl|]. eapply (good_touch _ _ _ v e); [done|done|].
  by destruct (co_entry _ Hok v e He) as ([_ _ _ Hp _ _] & _ & _).
Qed.

Lemma good_foldl {A} (f : LocalCache -> A -> LocalCache) l s :
  (forall s x, cache_ok s -> good_step s (f s x)) -> cache_ok s -> good_step s (foldl f s l).
Proof.
  intros Hf. revert s. induction l as [|x l IH]; intros s Hok; simpl; [by apply good_refl|].
  eapply good_trans; [by apply Hf|apply IH].
Qed.

Lemma orphans_entries names n s :
  lc_entries (remove_orphans names n s).2 = lc_entries s /\ lc_next_uid (remove_orphans names n s).2 = lc_next_uid s.
Proof.
  revert n s. induction names as [|[b v] names IH]; intros n s; cbn [remove_orphans]; [done|]. destruct (Dict.mem v (lc_entries s)); [apply IH|].
  destruct (os_call (lc_disk s)) as [[k|] d].
  - destruct (IH n (with_disk d s)) as [-> ->]. done.
  - match goal with |- context [remove_orphans names (n + 1) ?x] => destruct (IH (n + 1) x) as [-> ->] end. done.
Qed.

Lemma good_sweep_orphans s : cache_ok s -> good_step s (sweep_orphans s).2.
Proof.
  intros Hok. unfold sweep_orphans. destruct (os_call (lc_disk s)) as [[k|] d]; [by apply good_same|].
  match goal with |- context [remove_orphans ?l 0 ?x] => destruct (orphans_entries l 0 x) as [He Hu] end. by apply good_same.
Qed.

Lemma good_sweep_target target used victims n s :
  cache_ok s -> good_step s (sweep_target target used victims n s).2.
Proof.
  revert used n s. induction victims as [|e victims IH]; intros used n s Hok; simpl; [by apply good_refl|].
  destruct (target <? used); [|by apply good_refl]. eapply good_trans; [by apply (good_drop (ce_version_id e))|apply IH].
Qed.

Lemma good_sweep_disk victims n s : cache_ok s -> good_step s (sweep_disk cfg victims n s).2.
Proof.
  revert n s. induction victims as [|e victims IH]; intros n s Hok; cbn [sweep_disk]; [by apply good_refl|].
  destruct (min_free_bytes cfg =? 0); [by apply good_refl|]. destruct (disk_free (lc_disk s)) as [free d].
  assert (good_step s (with_disk d s)) as Hd by by apply good_same. destruct free as [f|]; [|exact Hd].
  destruct (f <? min_free_bytes cfg); [|exact Hd]. eapply good_trans; [exact Hd|]. intros Hok1.
  eapply good_trans; [by apply (good_drop (ce_version_id e))|apply IH].
Qed.

Lemma good_sweep q now s : cache_ok s -> good_step s (sweep cfg q now s).2.
Proof.
  intros Hok. unfold sweep. pose proof (good_sweep_orphans s Hok) as Hg. destruct (sweep_orphans s) as [n0 s1]. simpl in Hg.
  set (s2 := foldl _ s1 _). assert (good_step s s2) as Hg2 by (eapply good_trans; [exact Hg|]; apply good_foldl; intros; by apply good_release).
  set (s3 := foldl _ s2 _). assert (good_step s s3) as Hg3
    by (eapply good_trans; [exact Hg2|]; apply good_foldl; intros; by apply good_drop).
  set (p := match target_bytes cfg with Some _ => _ | None => _ end).
  assert (good_step s p.2) as Hg4.
  { unfold p. destruct (target_bytes cfg); [|exact Hg3]. eapply good_trans; [exact Hg3|]. apply good_sweep_target. }
  destruct p as [[victims n] s4]. cbn [snd] in Hg4.
  assert (good_step s (sweep_disk cfg victims n s4).2) as Hg5 by (eapply good_trans; [exact Hg4|]; apply good_sweep_disk).
  destruct (sweep_disk cfg victims n s4) as [n' s5]. cbn [snd] in *.
  eapply good_trans; [exact Hg5|]. intros Hok5. eapply good_trans; [|apply good_save]. by apply good_same.
Qed.

(** ** Marking *)

Lemma mark_blocks_grown l e : Forall (fun i => 0 <= i) l -> grown e (mark_blocks l e).
Proof.
  intros Hl. split; try done; [apply mark_blocks_blocks|]. intros i Hi. destruct (decide (0 <= i < blocks e)) as [Hb|Hb].
  - rewrite mark_blocks_at by done. by rewrite Hi.
  - exfalso. unfold present_at, znth, blocks, zlen in *. destruct (i <? 0) eqn:Hneg; [done|]. apply Z.ltb_ge in Hneg.
    rewrite lookup_ge_None_2 in Hi by lia. done.
Qed.

Lemma mark_present_entries v uid l s :
  lc_entries (mark_present v uid l s) =
    match entry_of v s with
    | Some e => if bool_decide (ce_uid e = uid) && nonempty (absent_blocks e l)
                then Dict.set (ce_version_id e) (mark_blocks l e) (lc_entries s) else lc_entries s
    | None => lc_entries s
    end /\ lc_next_uid (mark_present v uid l s) = lc_next_uid s.
Proof.
  unfold mark_present. destruct (entry_of v s) as [e|]; [|done]. case_bool_decide; simpl; [|done].
  by destruct (nonempty (absent_blocks e l)).
Qed.

(** A mark that costs nothing: the entry is charged whole, or has the blocks. *)
Lemma good_mark v uid l s : cache_ok s ->
  (forall e, entry_of v s = Some e -> ce_uid e = uid -> Forall (fun i => 0 <= i < blocks e) l /\
     (ce_writing e = true \/ absent_blocks e l = [])) ->
  good_step s (mark_present v uid l s).
Proof.
  intros Hok Hcond. unfold mark_present. destruct (entry_of v s) as [e|] eqn:He; [|by apply good_refl].
  case_bool_decide as Hu; simpl; [|by apply good_refl]. destruct (Hcond e eq_refl Hu) as [Hl Hw].
  destruct (nonempty (absent_blocks e l)) eqn:Hne; simpl; [|by apply good_refl].
  destruct Hw as [Hw|Hw]; [|by rewrite Hw in Hne].
  apply (good_trans _ (put_entry (mark_blocks l e) s)); [|intros Hok1; by apply good_same].
  eapply good_put; [done|exact He| | |].
  - apply mark_blocks_grown. eapply Forall_impl; [exact Hl|]. simpl. lia.
  - apply mark_blocks_ok. by apply (co_entry _ Hok v e).
  - unfold charged_bytes. simpl. rewrite Hw. done.
Qed.

(** ** What the tasks in flight rely on *)

Definition full (e : CacheEntry) : Prop := forall i, 0 <= i < blocks e -> present_at e i = true.

(** The same object, whatever it is charged for now. *)
Record continued (e e' : CacheEntry) : Prop := {
  cn_uid : ce_uid e' = ce_uid e;
  cn_size : ce_size e' = ce_size e;
  cn_block : ce_block_size e' = ce_block_size e;
  cn_blocks : blocks e' = blocks e;
  cn_writing : ce_writing e' = ce_writing e \/ full e';
  cn_present : forall i, present_at e i = true -> present_at e' i = true
}.

Definition continues (s s' : LocalCache) : Prop :=
  (lc_next_uid s <= lc_next_uid s')%nat /\
  forall v e', entry_of v s' = Some e' ->
    (exists e, entry_of v s = Some e /\ continued e e') \/ (lc_next_uid s <= ce_uid e')%nat.

Lemma evolves_continues s s' : evolves s s' -> continues s s'.
Proof.
  intros [U E]. split; [done|]. intros v e' He'. destruct (E v e' He') as [(e & He & [])|[Hn _]]; [|by right].
  left. exists e. split; [done|]. by split; auto.
Qed.

Definition claimed (uid : nat) (fills : list (Fill * option bool)) : Z :=
  zsum (map (fun fr => if bool_decide (fl_uid fr.1 = uid) then fl_added fr.1 else 0) fills).

Definition fill_ok (s : LocalCache) (f : Fill) : Prop :=
  (fl_uid f < lc_next_uid s)%nat /\ 0 <= fl_added f /\
  forall v e, entry_of v s = Some e -> ce_uid e = fl_uid f ->
    v = fl_version_id f /\ Forall (fun i => 0 <= i < blocks e) (fl_blocks f) /\
    zsum (map (block_length e) (absent_blocks e (fl_blocks f))) <= fl_added f.

Definition writer_ok (s : LocalCache) (w : StagingWriter) (st : WStatus) : Prop :=
  (sw_uid w < lc_next_uid s)%nat /\ 0 <= sw_offset w /\ 0 < sw_block_size w /\
  forall v e, entry_of v s = Some e -> ce_uid e = sw_uid w ->
    v = sw_version_id w /\ ce_size e = sw_size w /\ ce_block_size e = sw_block_size w /\ blocks e = sw_blocks w /\
    (ce_writing e = true \/ full e) /\ (st = WClosing -> full e).

(** Fewer blocks are absent. *)
Lemma absent_sum_le e e' l : continued e e' -> entry_ok e -> Forall (fun i => 0 <= i < blocks e) l ->
  zsum (map (block_length e') (absent_blocks e' l)) <= zsum (map (block_length e) (absent_blocks e l)).
Proof.
  intros [_ Hs Hb Hn _ Hp] He. unfold absent_blocks. induction l as [|i l IH]; intros Hl; [done|].
  apply Forall_cons in Hl as [Hi Hl]. specialize (IH Hl). simpl.
  assert (block_length e' i = block_length e i) as Hlen by (unfold block_length; by rewrite Hn, Hs, Hb).
  pose proof (block_length_pos e He i Hi). specialize (Hp i). destruct (present_at e i); simpl.
  - by rewrite Hp.
  - destruct (present_at e' i); simpl; lia.
Qed.

Lemma fill_ok_continues s s' f : cache_ok s -> continues s s' -> fill_ok s f -> fill_ok s' f.
Proof.
  intros Hok [U E] (Hu & Ha & Hf). split; [lia|]. split; [done|]. intros v e' He' Huid.
  destruct (E v e' He') as [(e & He & Hc)|Hn]; [|lia]. pose proof Hc as [Cu _ _ Cb _ _].
  destruct (Hf v e He ltac:(congruence)) as (Hv & Hbl & Hsum). rewrite Cb. split; [done|]. split; [done|].
  pose proof (absent_sum_le e e' _ Hc (proj1 (co_entry _ Hok v e He)) Hbl). lia.
Qed.

Lemma full_continued e e' : continued e e' -> full e -> full e'.
Proof. intros [_ _ _ Hb _ Hp] Hf i Hi. apply Hp, Hf. congruence. Qed.

Lemma writer_ok_continues s s' w st : continues s s' -> writer_ok s w st -> writer_ok s' w st.
Proof.
  intros [U E] (Hu & Ho & Hb & Hw). split; [lia|]. split; [done|]. split; [done|]. intros v e' He' Huid.
  destruct (E v e' He') as [(e & He & Hc)|Hn]; [|lia]. pose proof Hc as [Cu Cs Cbl Cb Cw _].
  destruct (Hw v e He ltac:(congruence)) as (Hv & H1 & H2 & H3 & H4 & H5). split_and!; try congruence.
  - destruct H4 as [H4|H4]; [|right; by eapply full_continued]. destruct Cw as [Cw|Cw]; [left; congruence|by right].
  - intros Hst. eapply full_continued; [done|by apply H5].
Qed.

Record mach_ok (m : Machine) : Prop := {
  mo_cache : cache_ok (mc_cache m);
  mo_within : within (mc_cache m);
  mo_inflight : forall v e, entry_of v (mc_cache m) = Some e -> ce_inflight e = claimed (ce_uid e) (mc_fills m);
  mo_fills : forall f r, (f, r) ∈ mc_fills m -> fill_ok (mc_cache m) f;
  mo_writers : forall w st, (w, st) ∈ mc_writers m -> writer_ok (mc_cache m) w st
}.

Lemma claimed_fresh uid fills s :
  (forall f r, (f, r) ∈ fills -> fill_ok s f) -> (lc_next_uid s <= uid)%nat -> claimed uid fills = 0.
Proof.
  intros Hf Hu. unfold claimed. induction fills as [|[f r] fills IH]; [done|]. simpl.
  rewrite IH by (intros g q Hin; eapply Hf; right; exact Hin). destruct (Hf f r ltac:(left)) as [Hlt _].
  rewrite bool_decide_eq_false_2 by lia. done.
Qed.

(** A step of the cache alone. *)
Lemma mach_step s' m : mach_ok m -> good_step (mc_cache m) s' ->
  mach_ok {| mc_cache := s'; mc_fills := mc_fills m; mc_writers := mc_writers m |}.
Proof.
  intros [Hok Hwi Hin Hf Hw] [Ok Ev Wi]. pose proof (evolves_continues _ _ Ev) as Hc. split; simpl; [done|auto| | |].
  - intros v e' He'. destruct Ev as [_ Ev]. destruct (Ev v e' He') as [(e & He & G)|[Hn Hi]].
    + rewrite (gr_inflight _ _ G), (gr_uid _ _ G). by apply (Hin v).
    + rewrite Hi. symmetry. by eapply claimed_fresh.
  - intros f r Hfr. eapply fill_ok_continues; [exact Hok|exact Hc|by eapply Hf].
  - intros w st Hws. eapply writer_ok_continues; [exact Hc|by apply Hw].
Qed.

(** Replacing a live entry. *)
Lemma put_live v e e' s : cache_ok s -> entry_of v s = Some e -> ce_uid e' = ce_uid e -> ce_version_id e' = ce_version_id e ->
  entry_ok e' ->
  cache_ok (put_entry e' s) /\ (forall v', entry_of v' (put_entry e' s) = if decide (v' = v) then Some e' else entry_of v' s) /\
  used_bytes (put_entry e' s) = used_bytes s - charged_bytes e + charged_bytes e' /\
  zlen (lc_entries (put_entry e' s)) = zlen (lc_entries s).
Proof.
  intros [Hw Hent Hun] He Hu Hver Heo. destruct (Hent v e He) as (_ & Hv & Hlt). rewrite Hv in Hver.
  assert (forall v', entry_of v' (put_entry e' s) = if decide (v' = v) then Some e' else entry_of v' s) as Hget.
  { intros v'. unfold put_entry, entry_of. simpl. rewrite Hver. destruct (decide (v' = v)) as [->|]; [apply Dict.get_set_eq|by apply Dict.get_set_ne]. }
  split_and!; [|done| |].
  - split; [by apply Dict.wf_set| |]; [intros v' e2; rewrite Hget|intros v1 v2 e1 e2; rewrite !Hget].
    + destruct (decide (v' = v)) as [->|]; [intros [= <-]; split; [done|]; split; [done|]; simpl; lia|apply Hent].
    + destruct (decide (v1 = v)) as [->|], (decide (v2 = v)) as [->|]; [done| | |apply Hun].
      * intros [= <-] H2 Hx. apply (Hun v v2 e e2); congruence.
      * intros H1 [= <-] Hx. apply (Hun v1 v e1 e); congruence.
  - unfold used_bytes, put_entry. simpl. rewrite Hver. fold (dsum charged_bytes (Dict.set v e' (lc_entries s))).
    by rewrite (dsum_set charged_bytes v e e' _ Hw He).
  - unfold put_entry. simpl. rewrite zlen_set, Hver. unfold Dict.mem. fold (entry_of v s). by rewrite He.
Qed.

(** ** Fills *)

Lemma fill_blocks_valid e begin data : entry_ok e -> 0 <= begin -> begin + zlen data <= ce_size e ->
  Forall (fun i => 0 <= i < blocks e) (fill_blocks e begin data).
Proof.
  intros He Hb Hl. pose proof (eo_block _ He) as Hbs. unfold fill_blocks. apply Forall_seqZ. intros i Hi.
  assert (0 <= begin / ce_block_size e) by (apply Z.div_pos; lia). split; [lia|].
  destruct (ce_size e <=? begin + zlen data) eqn:Hend; [lia|]. apply Z.leb_gt in Hend.
  assert (i < (begin + zlen data) / ce_block_size e) as Hlt by lia.
  assert (0 <= i * ce_block_size e < ce_size e) as Hbyte.
  { pose proof (Z.mul_div_le (begin + zlen data) (ce_block_size e) Hbs). nia. }
  pose proof (block_of_byte e He _ Hbyte) as Hblk. rewrite Z.div_mul in Hblk by lia. lia.
Qed.

Lemma modify_live_at v e g s : entry_of v s = Some e -> modify_live v (ce_uid e) g s = put_entry (g e) s.
Proof. intros He. unfold modify_live. rewrite He. by rewrite bool_decide_eq_true_2. Qed.

Lemma claim_room e v added s :
  cache_ok s -> within s -> entry_of v s = Some e -> 0 <= added ->
  let r := if added =? 0 then (true, s) else make_room cfg added false (Some (ce_uid e)) s in
  good_step s r.2 /\ (r.1 = true -> entry_of v r.2 = Some e /\ (max_size_bytes cfg <> 0 -> used_bytes r.2 + added <= max_size_bytes cfg)).
Proof.
  intros Hok [W1 W2] He Ha r. unfold r. clear r. destruct (added =? 0) eqn:H0.
  - apply Z.eqb_eq in H0 as ->. simpl. split; [by apply good_refl|]. intros _. split; [done|]. intros Hz. specialize (W1 Hz). lia.
  - destruct (make_room cfg added false (Some (ce_uid e)) s) as [ok s1] eqn:Hm. apply make_room_spec in Hm as [Hsh Hroom]; [|done].
    simpl. split; [by eapply good_shrunk|]. intros Ht. split; [|by apply Hroom].
    destruct Hsh as [_ E _ _ _]. destruct (E v) as [->|[_ (e' & He' & _ & Hk)]]; [done|congruence].
Qed.

Lemma claim_step v begin data m f s' : mach_ok m -> 0 <= begin -> fill_claim cfg v begin data (mc_cache m) = (f, s') ->
  mach_ok {| mc_cache := s'; mc_fills := mc_fills m ++ match f with Some f => [(f, None)] | None => [] end; mc_writers := mc_writers m |}.
Proof.
  intros Hm Hbegin Hrun. pose proof Hm as [Hok Hwi Hin Hf Hw].
  assert (forall s1, good_step (mc_cache m) s1 ->
    mach_ok {| mc_cache := s1; mc_fills := mc_fills m ++ []; mc_writers := mc_writers m |}) as Hnone
    by (intros s1 Hg; rewrite app_nil_r; by apply mach_step).
  unfold fill_claim in Hrun. destruct (entry_of v (mc_cache m)) as [e|] eqn:He; [|injection Hrun as <- <-; by apply Hnone, good_refl].
  destruct (ce_writing e || negb (nonempty data)) eqn:Hc1; [injection Hrun as <- <-; by apply Hnone, good_refl|].
  apply orb_false_iff in Hc1 as [Hwr _].
  destruct (negb (begin mod ce_block_size e =? 0) || (ce_size e <? begin + zlen data)) eqn:Hc2; [injection Hrun as <- <-; by apply Hnone, good_refl|].
  apply orb_false_iff in Hc2 as [_ Hend%Z.ltb_ge].
  destruct (negb (nonempty (fill_blocks e begin data))); [injection Hrun as <- <-; by apply Hnone, good_refl|].
  set (bs := fill_blocks e begin data) in *. set (added := zsum _) in Hrun.
  destruct (co_entry _ Hok v e He) as (Heo & Hver & Hlt). pose proof (fill_blocks_valid e begin data Heo Hbegin Hend) as Hvalid. fold bs in Hvalid.
  assert (0 <= added) as Hadd.
  { unfold added. apply zsum_nonneg, Forall_map. eapply Forall_impl; [by apply Forall_absent|].
    intros i Hi. simpl. pose proof (block_length_pos e Heo i Hi). lia. }
  pose proof (claim_room e v added _ Hok Hwi He Hadd) as [Hg Hroom]. cbn zeta in Hg, Hroom.
  set (p := if added =? 0 then _ else _) in Hrun, Hg, Hroom. destruct p as [ok s1]. cbn [fst snd] in *.
  destruct ok; cbn [negb] in Hrun; [|injection Hrun as <- <-; by apply Hnone].
  destruct (Hroom eq_refl) as [He1 Hbytes]. clear Hroom. rewrite (modify_live_at v e _ s1 He1) in Hrun. injection Hrun as <- <-.
  pose proof (mach_step s1 m Hm Hg) as [Hok1 Hwi1 Hin1 Hf1 Hw1]. simpl in *.
  set (e' := with_inflight (ce_inflight e + added) e).
  assert (entry_ok e') as Heo'.
  { destruct Heo as [E1 E2 E3 E4 E5 E6]. split; try done; simpl; [lia|]. intros. congruence. }
  destruct (put_live v e e' s1 Hok1 He1 eq_refl eq_refl Heo') as (Hok2 & Hget & Hused & Hlen).
  assert (charged_bytes e' = charged_bytes e + added) as Hch.
  { unfold charged_bytes. cbn. rewrite Hwr. change (present_bytes e') with (present_bytes e). lia. }
  assert (continues s1 (put_entry e' s1)) as Hcont.
  { split; [done|]. intros v' e2. rewrite Hget. destruct (decide (v' = v)) as [->|]; [|intros He2; left; exists e2; split; [done|]; by split; auto].
    intros [= <-]. left. exists e. split; [done|]. by split; auto. }
  split; simpl.
  - done.
  - destruct Hwi1 as [_ W2]. split; [|by rewrite Hlen]. intros Hz. specialize (Hbytes Hz). lia.
  - intros v' e2. rewrite Hget. unfold claimed. rewrite map_app, zsum_app. cbn [map zsum foldr fst fl_uid fl_added]. rewrite Z.add_0_r.
    destruct (decide (v' = v)) as [->|Hne].
    + intros [= <-]. rewrite bool_decide_eq_true_2 by done. cbn. f_equal. by apply (Hin1 v).
    + intros He2. rewrite bool_decide_eq_false_2; [rewrite Z.add_0_r; by apply (Hin1 v')|].
      intros Hu. apply Hne. by apply (co_uids _ Hok1 v' v e2 e).
  - intros g r [Hgr|Hgr]%elem_of_app; [eapply fill_ok_continues; [exact Hok1|exact Hcont|by eapply Hf1]|].
    apply list_elem_of_singleton in Hgr as [= -> ->]. split; [simpl; destruct Hg as [_ [U _] _]; lia|]. split; [done|].
    intros v' e2. rewrite Hget. cbn [fl_uid fl_version_id fl_blocks fl_added]. destruct (decide (v' = v)) as [->|Hne].
    + intros [= <-] _. split; [done|]. split; [done|]. change (absent_blocks e' bs) with (absent_blocks e bs).
      change (block_length e') with (block_length e). unfold added. lia.
    + intros He2 Hu. exfalso. apply Hne. by apply (co_uids _ Hok1 v' v e2 e).
  - intros w st Hws. eapply writer_ok_continues; [exact Hcont|by apply Hw1].
Qed.

Lemma claimed_delete uid fills i f r : fills !! i = Some (f, r) ->
  claimed uid (delete i fills) = claimed uid fills - (if bool_decide (fl_uid f = uid) then fl_added f else 0).
Proof.
  unfold claimed. revert i. induction fills as [|[g q] fills IH]; intros i; [done|]. destruct i as [|i]; simpl; [intros [= -> ->]; lia|].
  intros Hi. specialize (IH i Hi). change (list_delete i fills) with (delete i fills). lia.
Qed.

Lemma claimed_nonneg uid fills s : (forall f r, (f, r) ∈ fills -> fill_ok s f) -> 0 <= claimed uid fills.
Proof.
  intros Hf. apply zsum_nonneg, Forall_map, List.Forall_forall. intros [f r] Hin%list_elem_of_In. simpl.
  destruct (Hf f r Hin) as (_ & Ha & _). destruct (bool_decide _); lia.
Qed.

Lemma elem_delete {A} i (l : list A) x : x ∈ delete i l -> x ∈ l.
Proof. intros Hx. eapply elem_of_sublist; [exact Hx|apply sublist_delete]. Qed.

(** Giving a claim back, with what the entry became meanwhile. *)
Lemma unclaim_step m i f r v e e' :
  mach_ok m -> mc_fills m !! i = Some (f, r) -> entry_of v (mc_cache m) = Some e -> ce_uid e = fl_uid f ->
  continued e e' -> ce_version_id e' = ce_version_id e -> ce_pins e' = ce_pins e ->
  ce_writing e' = ce_writing e -> ce_inflight e' = ce_inflight e - fl_added f -> charged_bytes e' <= charged_bytes e ->
  mach_ok {| mc_cache := put_entry e' (mc_cache m); mc_fills := delete i (mc_fills m); mc_writers := mc_writers m |}.
Proof.
  intros [Hok [W1 W2] Hin Hf Hw] Hi He Hu Hc Hver Hpins Hwr Hinf Hch.
  assert (forall g q, (g, q) ∈ delete i (mc_fills m) -> fill_ok (mc_cache m) g) as Hf' by (intros g q Hgq%elem_delete; by eapply Hf).
  pose proof (claimed_delete (ce_uid e) _ _ _ _ Hi) as Hcl. rewrite bool_decide_eq_true_2 in Hcl by done.
  pose proof (claimed_nonneg (ce_uid e) _ _ Hf') as Hnn. pose proof (Hin v e He) as Hinfl.
  destruct (co_entry _ Hok v e He) as ([E1 E2 E3 E4 E5 E6] & _ & _). destruct (Hf f r) as (_ & Hadd & _); [by eapply list_elem_of_lookup_2|].
  assert (entry_ok e') as Heo.
  { destruct Hc as [_ C2 C3 C4 _ _]. split; rewrite ?C2, ?C3, ?C4, ?Hpins, ?Hinf, ?Hwr; try done; [lia|]. intros Ht%E6. lia. }
  destruct (put_live v e e' _ Hok He (cn_uid _ _ Hc) Hver Heo) as (Hok2 & Hget & Hused & Hlen).
  assert (continues (mc_cache m) (put_entry e' (mc_cache m))) as Hcont.
  { split; [done|]. intros v' e2. rewrite Hget. destruct (decide (v' = v)) as [->|]; [intros [= <-]; left; by exists e|].
    intros He2. left. exists e2. split; [done|]. by split; auto. }
  split; simpl; [done| | | |].
  - split; [|by rewrite Hlen]. intros Hz. specialize (W1 Hz). lia.
  - intros v' e2. rewrite Hget. destruct (decide (v' = v)) as [->|Hne].
    + intros [= <-]. rewrite (cn_uid _ _ Hc). lia.
    + intros He2. rewrite (claimed_delete _ _ _ _ _ Hi), bool_decide_eq_false_2; [rewrite (Hin v' e2 He2); lia|].
      intros Hx. apply Hne. apply (co_uids _ Hok v' v e2 e); congruence.
  - intros g q Hgq. eapply fill_ok_continues; [exact Hok|exact Hcont|by eapply Hf'].
  - intros w st Hws. eapply writer_ok_continues; [exact Hcont|by apply Hw].
Qed.

(** A claim on an entry that is gone. *)
Lemma unclaim_gone m i f r : mach_ok m -> mc_fills m !! i = Some (f, r) ->
  (forall e, entry_of (fl_version_id f) (mc_cache m) = Some e -> ce_uid e <> fl_uid f) ->
  mach_ok {| mc_cache := mc_cache m; mc_fills := delete i (mc_fills m); mc_writers := mc_writers m |}.
Proof.
  intros [Hok Hwi Hin Hf Hw] Hi Hgone. split; simpl; try done.
  - intros v e He. rewrite (claimed_delete _ _ _ _ _ Hi), bool_decide_eq_false_2; [rewrite (Hin v e He); lia|].
    intros Hu. destruct (Hf f r ltac:(by eapply list_elem_of_lookup_2)) as (_ & _ & Hl).
    destruct (Hl v e He (eq_sym Hu)) as (-> & _). by eapply Hgone.
  - intros g q Hgq%elem_delete. by eapply Hf.
Qed.

Lemma set_set {V} k (x y : V) (d : dict string V) : Dict.set k y (Dict.set k x d) = Dict.set k y d.
Proof.
  induction d as [|[k' z] d IH]; simpl; [by rewrite decide_True|]. destruct (decide (k = k')); simpl; [by rewrite decide_True|].
  rewrite decide_False by done. by rewrite IH.
Qed.

Lemma mark_nothing l e : nonempty (absent_blocks e l) = false -> mark_blocks l e = e.
Proof. intros H. unfold mark_blocks. apply nonempty_false in H as ->. by destruct e. Qed.

(** The entry a completed fill leaves. *)
Definition filled (f : Fill) (now : Z) (e : CacheEntry) : CacheEntry :=
  with_last_access now (mark_blocks (fl_blocks f) (with_inflight (ce_inflight e - fl_added f) e)).

Lemma fill_end_entries f now s e : entry_of (fl_version_id f) s = Some e -> ce_uid e = fl_uid f -> ce_version_id e = fl_version_id f ->
  lc_entries (fill_end f true now s) = lc_entries (put_entry (filled f now e) s) /\
  lc_next_uid (fill_end f true now s) = lc_next_uid s.
Proof.
  intros He Hu Hv. unfold fill_end. rewrite <- Hu, (modify_live_at _ e _ _ He).
  set (e1 := with_inflight (ce_inflight e - fl_added f) e). set (s1 := put_entry e1 s).
  assert (entry_of (fl_version_id f) s1 = Some e1) as He1
    by (unfold s1, entry_of, put_entry; simpl; rewrite Hv; apply Dict.get_set_eq).
  destruct (mark_present_entries (fl_version_id f) (ce_uid e) (fl_blocks f) s1) as [Hm Hmu]. rewrite He1 in Hm.
  rewrite (bool_decide_eq_true_2 (ce_uid e1 = ce_uid e)) in Hm by done. cbn [andb] in Hm.
  assert (lc_entries (mark_present (fl_version_id f) (ce_uid e) (fl_blocks f) s1) =
    Dict.set (fl_version_id f) (mark_blocks (fl_blocks f) e1) (lc_entries s)) as Hm'.
  { rewrite Hm. destruct (nonempty (absent_blocks e1 (fl_blocks f))) eqn:Hne.
    - unfold s1, put_entry. simpl. rewrite Hv. apply set_set.
    - rewrite mark_nothing by done. unfold s1, put_entry. simpl. by rewrite Hv. }
  clear Hm. set (s2 := mark_present _ _ _ s1) in *.
  assert (entry_of (fl_version_id f) s2 = Some (mark_blocks (fl_blocks f) e1)) as He2 by (unfold entry_of; rewrite Hm'; apply Dict.get_set_eq).
  change (ce_uid e) with (ce_uid (mark_blocks (fl_blocks f) e1)). rewrite (modify_live_at _ _ _ _ He2). split; [|done].
  unfold put_entry. simpl. rewrite Hm', Hv. apply set_set.
Qed.

Lemma fill_end_step m i f ok now : mach_ok m -> mc_fills m !! i = Some (f, Some ok) ->
  mach_ok {| mc_cache := fill_end f ok now (mc_cache m); mc_fills := delete i (mc_fills m); mc_writers := mc_writers m |}.
Proof.
  intros Hm Hi. pose proof Hm as [Hok Hwi Hin Hf Hw]. destruct (Hf f (Some ok)) as (_ & Hadd & Hl); [by eapply list_elem_of_lookup_2|].
  destruct (entry_of (fl_version_id f) (mc_cache m)) as [e|] eqn:He; [destruct (decide (ce_uid e = fl_uid f)) as [Hu|Hu]|].
  - destruct (Hl _ e He Hu) as (_ & Hvalid & Hsum). destruct (co_entry _ Hok _ e He) as (Heo & Hver & _).
    set (e1 := with_inflight (ce_inflight e - fl_added f) e).
    destruct ok.
    + destruct (fill_end_entries f now _ e He Hu Hver) as [Hent Huid].
      assert (mach_ok {| mc_cache := put_entry (filled f now e) (mc_cache m); mc_fills := delete i (mc_fills m); mc_writers := mc_writers m |}) as Hput.
      { eapply (unclaim_step m i f _ _ e (filled f now e) Hm Hi He Hu); try done.
        - pose proof (mark_blocks_grown (fl_blocks f) e1) as [G1 G2 G3 G4 G5 G6 G7 G8];
            [eapply Forall_impl; [exact Hvalid|]; simpl; lia|]. split; try done. by left.
        - unfold charged_bytes. simpl. destruct (ce_writing e); [done|].
          assert (entry_ok (with_inflight (ce_inflight e) e)) as Heo' by by destruct Heo; split.
          pose proof (mark_blocks_bytes (fl_blocks f) (absent_blocks e (fl_blocks f)) e Heo Hvalid
            (Forall_absent _ _ _ Hvalid)) as Hb.
          change (present_bytes (filled f now e)) with (present_bytes (mark_blocks (fl_blocks f) e)).
          enough (present_bytes (mark_blocks (fl_blocks f) e) <= present_bytes e + zsum (map (block_length e) (absent_blocks e (fl_blocks f)))) by lia.
          apply Hb. intros j Hj Hp. unfold absent_blocks. apply list_elem_of_In, filter_In.
          split; [by apply list_elem_of_In|by rewrite Hp]. }
      eapply (mach_step _ _ Hput). apply good_same; [exact Hent|exact Huid|exact (mo_cache _ Hput)].
    + assert (mach_ok {| mc_cache := put_entry e1 (mc_cache m); mc_fills := delete i (mc_fills m); mc_writers := mc_writers m |}) as Hput.
      { eapply (unclaim_step m i f _ _ e e1 Hm Hi He Hu); try done.
        - by split; auto.
        - unfold charged_bytes. simpl. destruct (ce_writing e); [done|]. change (present_bytes e1) with (present_bytes e). lia. }
      unfold fill_end. rewrite <- Hu, (modify_live_at _ e _ _ He). fold e1.
      eapply (mach_step _ _ Hput), good_remove, (mo_cache _ Hput).
  - pose proof (unclaim_gone m i f _ Hm Hi ltac:(congruence)) as Hg.
    assert (forall g, modify_live (fl_version_id f) (fl_uid f) g (mc_cache m) = mc_cache m) as Hid
      by (intros g; unfold modify_live; rewrite He; by rewrite bool_decide_eq_false_2).
    unfold fill_end. rewrite Hid. destruct ok; [|eapply (mach_step _ _ Hg), good_remove, Hok].
    replace (mark_present _ _ _ (mc_cache m)) with (mc_cache m)
      by (unfold mark_present; rewrite He; by rewrite bool_decide_eq_false_2).
    by rewrite Hid.
  - pose proof (unclaim_gone m i f _ Hm Hi ltac:(congruence)) as Hg.
    assert (forall g, modify_live (fl_version_id f) (fl_uid f) g (mc_cache m) = mc_cache m) as Hid
      by (intros g; unfold modify_live; by rewrite He).
    unfold fill_end. rewrite Hid. destruct ok; [|eapply (mach_step _ _ Hg), good_remove, Hok].
    replace (mark_present _ _ _ (mc_cache m)) with (mc_cache m) by (unfold mark_present; by rewrite He).
    by rewrite Hid.
Qed.

(** ** Staging writers *)

(** A machine with one writer replaced. *)
Lemma set_writer m i w w' st st' :
  mach_ok m -> mc_writers m !! i = Some (w, st) -> writer_ok (mc_cache m) w' st' ->
  mach_ok {| mc_cache := mc_cache m; mc_fills := mc_fills m; mc_writers := <[i := (w', st')]> (mc_writers m) |}.
Proof.
  intros [Hok Hwi Hin Hf Hw] Hi Hw'. split; simpl; try done. intros x sx Hx.
  apply list_elem_of_lookup in Hx as [k Hk]. apply list_lookup_insert_Some in Hk as [(-> & [= <- <-] & _)|[_ Hk]]; [done|].
  apply Hw. by eapply list_elem_of_lookup_2.
Qed.

Lemma staged_valid e w : entry_ok e -> 0 <= sw_offset w -> 0 < sw_block_size w ->
  ce_size e = sw_size w -> ce_block_size e = sw_block_size w -> blocks e = sw_blocks w ->
  Forall (fun i => 0 <= i < blocks e) (staged_blocks w).
Proof.
  intros He Ho Hb Hs Hbs Hn. unfold staged_blocks. apply Forall_seqZ. intros i Hi. split; [lia|].
  destruct (sw_size w <=? sw_offset w) eqn:Hend; [lia|]. apply Z.leb_gt in Hend.
  assert (0 <= i * ce_block_size e < ce_size e) as Hbyte.
  { pose proof (Z.mul_div_le (sw_offset w) (sw_block_size w) Hb). rewrite Hs, Hbs. nia. }
  pose proof (block_of_byte e He _ Hbyte) as Hblk. rewrite Z.div_mul in Hblk by lia. lia.
Qed.

Lemma after_step m i w : mach_ok m -> mc_writers m !! i = Some (w, WWrote true) ->
  mach_ok {| mc_cache := writer_mark w (mc_cache m); mc_fills := mc_fills m;
             mc_writers := <[i := (w, if sw_size w <=? sw_offset w then WClosing else WIdle)]> (mc_writers m) |}.
Proof.
  intros Hm Hi. pose proof Hm as [Hok Hwi Hin Hf Hw].
  destruct (Hw w _ ltac:(by eapply list_elem_of_lookup_2)) as (Hu & Ho & Hb & Hl).
  assert (forall e, entry_of (sw_version_id w) (mc_cache m) = Some e -> ce_uid e = sw_uid w ->
    Forall (fun i => 0 <= i < blocks e) (staged_blocks w) /\ (ce_writing e = true \/ absent_blocks e (staged_blocks w) = [])) as Hcond.
  { intros e He Hue. destruct (Hl _ e He Hue) as (_ & H1 & H2 & H3 & H4 & _).
    pose proof (staged_valid e w (proj1 (co_entry _ Hok _ e He)) Ho Hb H1 H2 H3) as Hv. split; [done|].
    destruct H4 as [H4|H4]; [by left|]. right. unfold absent_blocks. apply nonempty_false.
    destruct (List.filter _ _) as [|x xs] eqn:Hfl; [done|]. exfalso. assert (In x (x :: xs)) as Hx by by left. rewrite <- Hfl in Hx.
    apply filter_In in Hx as [Hx Hp]. rewrite Forall_forall in Hv. rewrite H4 in Hp; [done|]. by apply Hv, list_elem_of_In. }
  pose proof (good_mark (sw_version_id w) (sw_uid w) (staged_blocks w) _ Hok Hcond) as Hg.
  pose proof (mach_step _ _ Hm Hg) as Hm1.
  eapply (set_writer {| mc_cache := writer_mark w (mc_cache m); mc_fills := mc_fills m; mc_writers := mc_writers m |} i w w _ _ Hm1 Hi).
  destruct (mo_writers _ Hm1 w (WWrote true)) as (Hu1 & _ & _ & Hl1); [by eapply list_elem_of_lookup_2|]. simpl in *.
  split; [done|]. split; [done|]. split; [done|]. intros v e' He' Hue'. destruct (Hl1 v e' He' Hue') as (-> & H1 & H2 & H3 & H4 & _).
  split_and!; try done. destruct (sw_size w <=? sw_offset w) eqn:Hend; [|done]. intros _ k Hk.
  destruct Hg as [_ [_ Ev] _]. destruct (Ev _ e' He') as [(e & He & G)|[Hn _]]; [|lia].
  destruct (mark_present_entries (sw_version_id w) (sw_uid w) (staged_blocks w) (mc_cache m)) as [Hent _].
  rewrite He in Hent. destruct (Hcond e He ltac:(rewrite <- Hue'; symmetry; apply G)) as [Hv _].
  rewrite (bool_decide_eq_true_2 (ce_uid e = sw_uid w)) in Hent by (rewrite <- Hue'; symmetry; apply G). cbn [andb] in Hent.
  destruct (co_entry _ Hok _ e He) as (_ & Hver & _).
  assert (e' = mark_blocks (staged_blocks w) e) as ->.
  { unfold writer_mark, entry_of in He'. rewrite Hent in He'. destruct (nonempty (absent_blocks e (staged_blocks w))) eqn:Hne.
    - rewrite Hver, Dict.get_set_eq in He'. congruence.
    - rewrite mark_nothing by done. unfold entry_of in He. congruence. }
  rewrite mark_blocks_blocks in Hk. rewrite mark_blocks_at; [|eapply Forall_impl; [exact Hv|]; simpl; lia|done].
  rewrite (bool_decide_eq_true_2 (k ∈ staged_blocks w)); [by rewrite orb_true_r|].
  unfold staged_blocks. rewrite Hend. apply elem_of_seqZ. rewrite mark_blocks_blocks in H3. lia.
Qed.

Lemma finish_step m i w : mach_ok m -> mc_writers m !! i = Some (w, WClosing) ->
  mach_ok {| mc_cache := (writer_finish w (mc_cache m)).2; mc_fills := mc_fills m;
             mc_writers := <[i := ((writer_finish w (mc_cache m)).1, WIdle)]> (mc_writers m) |}.
Proof.
  intros Hm Hi. pose proof Hm as [Hok [W1 W2] Hin Hf Hw].
  destruct (Hw w _ ltac:(by eapply list_elem_of_lookup_2)) as (Hu & Ho & Hb & Hl).
  assert (mach_ok {| mc_cache := modify_live (sw_version_id w) (sw_uid w) (with_writing false) (mc_cache m);
                     mc_fills := mc_fills m; mc_writers := mc_writers m |}) as Hm1.
  { unfold modify_live. destruct (entry_of (sw_version_id w) (mc_cache m)) as [e|] eqn:He; [|by destruct m].
    case_bool_decide as Hue; [|by destruct m]. destruct (Hl _ e He Hue) as (_ & _ & _ & _ & _ & Hfull). specialize (Hfull eq_refl).
    destruct (co_entry _ Hok _ e He) as (Heo & Hver & _). set (e' := with_writing false e).
    assert (entry_ok e') as Heo' by by destruct Heo; split.
    destruct (put_live _ e e' _ Hok He eq_refl eq_refl Heo') as (Hok2 & Hget & Hused & Hlen).
    assert (charged_bytes e' <= charged_bytes e) as Hch.
    { unfold charged_bytes. cbn. change (present_bytes e') with (present_bytes e). pose proof (present_bytes_bounds e Heo).
      destruct (ce_writing e) eqn:Hwr; [|done]. rewrite (eo_writing _ Heo Hwr). lia. }
    assert (continues (mc_cache m) (put_entry e' (mc_cache m))) as Hcont.
    { split; [done|]. intros v' e2. rewrite Hget. destruct (decide (v' = sw_version_id w)) as [->|].
      - intros [= <-]. left. exists e. split; [done|]. split; try done. by right.
      - intros He2. left. exists e2. split; [done|]. by split; auto. }
    split; simpl; [done|split; [|by rewrite Hlen]; intros Hz; specialize (W1 Hz); lia| | |].
    - intros v' e2. rewrite Hget. destruct (decide (v' = sw_version_id w)) as [->|]; [|apply Hin]. intros [= <-]. by apply (Hin (sw_version_id w) e).
    - intros g q Hgq. eapply fill_ok_continues; [exact Hok|exact Hcont|by eapply Hf].
    - intros x sx Hx. eapply writer_ok_continues; [exact Hcont|by apply Hw]. }
  unfold writer_finish. cbn [fst snd].
  pose proof (mach_step _ _ Hm1 (good_save _ (mo_cache _ Hm1))) as Hm2. simpl in Hm2.
  eapply (set_writer {| mc_cache := save_index _; mc_fills := mc_fills m; mc_writers := mc_writers m |} i w _ _ _ Hm2 Hi).
  destruct (mo_writers _ Hm2 w WClosing) as (Hu1 & Ho1 & Hb1 & Hl1); [by eapply list_elem_of_lookup_2|].
  split; [done|]. split; [done|]. split; [done|]. intros v e He Hue. destruct (Hl1 v e He Hue) as (? & ? & ? & ? & ? & _). done.
Qed.

Lemma del_set {V} k (x : V) (d : dict string V) : Dict.del k (Dict.set k x d) = Dict.del k d.
Proof.
  unfold Dict.del. induction d as [|[k' y] d IH]; simpl.
  - by rewrite filter_cons, decide_False by (simpl; tauto).
  - destruct (decide (k = k')) as [->|Hne]; rewrite !filter_cons; simpl.
    + rewrite !decide_False by tauto. done.
    + rewrite !decide_True by done. by rewrite IH.
Qed.

Lemma good_abort w s : cache_ok s -> good_step s (writer_abort w s).2.
Proof.
  intros Hok. unfold writer_abort, modify_live. cbn [snd].
  destruct (entry_of (sw_version_id w) s) as [e|] eqn:He; [|by apply good_remove].
  case_bool_decide as Hu; [|by apply good_remove]. destruct (co_entry _ Hok _ e He) as (_ & Hver & _).
  apply (good_trans _ (drop_entry (sw_version_id w) s).2); [by apply good_drop|]. intros Hok1.
  set (s1 := put_entry _ s). assert (entry_of (sw_version_id w) s1 = Some (with_writing false e)) as He1
    by (unfold s1, entry_of, put_entry; simpl; rewrite Hver; apply Dict.get_set_eq).
  unfold remove, drop_entry. rewrite He, He1. simpl. apply good_same; [|by rewrite uid_save_index|].
  - rewrite entries_save_index. simpl. unfold s1, put_entry. simpl. rewrite Hver. apply del_set.
  - unfold drop_entry in Hok1. by rewrite He in Hok1.
Qed.

(** ** Every event *)

(** Callers pass offsets inside the version. *)
Definition event_ok (ev : Event) : Prop := match ev with EvClaim _ begin _ => 0 <= begin | _ => True end.

Lemma on_cache_ok f m : mach_ok m -> (forall s, cache_ok s -> good_step s (f s)) -> mach_ok (on_cache f m).
Proof. intros Hm Hf. apply (mach_step _ _ Hm), Hf, (mo_cache _ Hm). Qed.

Lemma stage_step m fs v size now w s' : mach_ok m -> open_staging cfg fs v size now (mc_cache m) = (w, s') ->
  mach_ok {| mc_cache := s'; mc_fills := mc_fills m;
             mc_writers := mc_writers m ++ match w with Some w => [(w, WIdle)] | None => [] end |}.
Proof.
  intros Hm Hrun. destruct (good_open_staging _ _ _ _ _ _ _ (mo_cache _ Hm) Hrun) as [Hg Hw].
  pose proof (mach_step _ _ Hm Hg) as [Hok Hwi Hin Hf Hws]. split; simpl in *; try done.
  intros x sx [Hx|Hx]%elem_of_app; [by apply Hws|]. destruct w as [w|]; [|by apply not_elem_of_nil in Hx].
  apply list_elem_of_singleton in Hx as [= -> ->]. destruct (Hw w eq_refl) as (Hs & e & He & Hnew & Hweq).
  destruct (co_entry _ Hok v e He) as (Heo & Hver & Hlt). rewrite Hweq. split; [done|]. split; [done|].
  split; [by apply eo_block|]. intros v' e' He' Hu. simpl in Hu.
  assert (v' = v) as -> by by apply (co_uids _ Hok v' v e' e). assert (e' = e) as -> by congruence. simpl.
  split_and!; try done; rewrite Hnew; try done. by left.
Qed.

Lemma fill_write_entries f s : lc_entries (fill_write f s).2 = lc_entries s /\ lc_next_uid (fill_write f s).2 = lc_next_uid s.
Proof.
  unfold fill_write. destruct (os_call (lc_disk s)) as [[k|] d]; [done|]. destruct (dk_data d !! _) as [[i c]|]; [|done].
  by destruct (pwrite_file _ _ _ _ d) as [[ok n] d2].
Qed.

Lemma write_sync_spec w data s ok w' s' : write_sync w data s = (ok, w', s') ->
  lc_entries s' = lc_entries s /\ lc_next_uid s' = lc_next_uid s /\
  exists off fd, w' = sw_set off fd (sw_failed w) w /\ sw_offset w <= off.
Proof.
  unfold write_sync. set (p := match sw_fd w with Some _ => _ | None => _ end). destruct p as [fd d]. destruct fd as [i|].
  - destruct (pwrite_file _ _ _ _ d) as [[o n] d2] eqn:Hp. intros [= <- <- <-]. split; [done|]. split; [done|].
    exists (sw_offset w + n), (Some i). split; [done|]. unfold pwrite_file in Hp. destruct (os_call d) as [f d3].
    pose proof (zlen_nonneg data). assert (n = match f with Some k => Z.max 0 (Z.min k (zlen data - 1)) | None => zlen data end) as ->
      by (destruct (dk_data d3 !! _) as [[x c]|]; [destruct (bool_decide _)|]; congruence).
    destruct f; lia.
  - intros [= <- <- <-]. split; [done|]. split; [done|]. exists (sw_offset w), (sw_fd w). split; [by destruct w|lia].
Qed.

Lemma exec_ok ev m : event_ok ev -> mach_ok m -> mach_ok (cache_step ev m).
Proof.
  intros Hev Hm. destruct ev as [fs v size now|fs v size now|v begin data|i|i now|i data|i|i|i|v now|v|v|vs| |q now|v begin last now];
    cbn [cache_step].
  - apply on_cache_ok; [done|]. intros s. by apply good_reserve.
  - destruct (open_staging _ _ _ _ _ _) as [w s'] eqn:Hs. by eapply stage_step.
  - destruct (fill_claim _ _ _ _ _) as [f s'] eqn:Hf. by eapply claim_step.
  - destruct (mc_fills m !! i) as [[f [r|]]|] eqn:Hi; try done.
    destruct (fill_write_entries f (mc_cache m)) as [He Hu]. destruct (fill_write f (mc_cache m)) as [ok s']. simpl in *.
    pose proof (mach_step s' m Hm (good_same _ _ He Hu (mo_cache _ Hm))) as [Hok Hwi Hin Hfs Hw]. split; simpl in *; try done.
    + intros v e Hve. rewrite (Hin v e Hve). unfold claimed. f_equal. apply list_eq. intros k. rewrite !list_lookup_fmap.
      destruct (decide (i = k)) as [->|]; [|by rewrite list_lookup_insert_ne]. rewrite Hi.
      rewrite list_lookup_insert_eq by (by eapply lookup_lt_Some). done.
    + intros g q Hgq. apply list_elem_of_lookup in Hgq as [k Hk]. apply list_lookup_insert_Some in Hk as [(-> & [= <- <-] & _)|[_ Hk]].
      * eapply Hfs. by eapply list_elem_of_lookup_2.
      * eapply Hfs. by eapply list_elem_of_lookup_2.
  - destruct (mc_fills m !! i) as [[f [r|]]|] eqn:Hi; try done. by eapply fill_end_step.
  - destruct (mc_writers m !! i) as [[w []]|] eqn:Hi; try done. destruct (sw_failed w || _); [done|].
    destruct (write_sync w data (mc_cache m)) as [[ok w'] s'] eqn:Hs. apply write_sync_spec in Hs as (He & Hu & off & fd & -> & Hoff).
    pose proof (mach_step s' m Hm (good_same _ _ He Hu (mo_cache _ Hm))) as Hm1.
    eapply (set_writer {| mc_cache := s'; mc_fills := mc_fills m; mc_writers := mc_writers m |} i w _ _ _ Hm1 Hi).
    destruct (mo_writers _ Hm1 w WIdle) as (Hu1 & Ho1 & Hb1 & Hl1); [by eapply list_elem_of_lookup_2|].
    split; [done|]. split; [simpl; lia|]. split; [done|]. intros v e Hve Hue. destruct (Hl1 v e Hve Hue) as (? & ? & ? & ? & ? & _). done.
  - destruct (mc_writers m !! i) as [[w [|[]|]]|] eqn:Hi; try done. by apply after_step.
  - destruct (mc_writers m !! i) as [[w [| |]]|] eqn:Hi; try done. by apply (finish_step m i w).
  - destruct (mc_writers m !! i) as [[w st]|] eqn:Hi; try done.
    pose proof (mach_step _ m Hm (good_abort w _ (mo_cache _ Hm))) as Hm1. destruct (writer_abort w (mc_cache m)) as [w' s'] eqn:Ha.
    injection Ha as <- _. simpl in Hm1.
    eapply (set_writer {| mc_cache := s'; mc_fills := mc_fills m; mc_writers := mc_writers m |} i w _ _ _ Hm1 Hi).
    destruct (mo_writers _ Hm1 w st) as (Hu1 & Ho1 & Hb1 & Hl1); [by eapply list_elem_of_lookup_2|].
    split; [done|]. split; [done|]. split; [done|]. intros v e Hve Hue. destruct (Hl1 v e Hve Hue) as (? & ? & ? & ? & ? & _). done.
  - apply on_cache_ok; [done|]. intros s. apply good_pin.
  - apply on_cache_ok; [done|]. intros s. apply good_unpin.
  - apply on_cache_ok; [done|]. intros s. apply good_release.
  - apply on_cache_ok; [done|]. intros s. apply good_remove_many.
  - apply on_cache_ok; [done|]. intros s. apply good_remove_many.
  - apply on_cache_ok; [done|]. intros s. apply good_sweep.
  - apply on_cache_ok; [done|]. intros s. apply good_read.
Qed.

(** An empty cache over any disk. *)
Definition empty_cache (d : Disk) : LocalCache :=
  {| lc_entries := []; lc_disk := d; lc_next_uid := 0; lc_last_sweep := None |}.
Definition start (d : Disk) : Machine := {| mc_cache := empty_cache d; mc_fills := []; mc_writers := [] |}.

Lemma start_ok d : 0 <= max_size_bytes cfg -> 0 <= cf_max_files cfg -> mach_ok (start d).
Proof.
  intros H1 H2. split; simpl; [|split; [done|done]|done|intros f r Hin; by apply not_elem_of_nil in Hin|intros w st Hin; by apply not_elem_of_nil in Hin].
  split; [apply Dict.wf_nil|done|done].
Qed.

Lemma run_ok evs m : Forall event_ok evs -> mach_ok m -> mach_ok (run evs m).
Proof.
  unfold run. intros Hevs. revert m. induction Hevs as [|ev evs Hev _ IH]; intros m Hm; simpl; [done|]. apply IH. by apply exec_ok.
Qed.

End Machine.


(** C30: the budget of the cache is a hard ceiling.  Whatever uploads, fills,
    reads, pins, releases and sweeps run, in any interleaving of their steps
    between awaits, and whatever the disk refuses: the bytes charged -- the
    blocks on disk, the blocks being written and the whole size of every entry
    being staged -- never exceed [max_size], nor the entries [max_files]. *)
Theorem cache_within_budget cfg d evs :
  0 < block_bytes cfg -> 0 <= max_size_bytes cfg -> 0 <= cf_max_files cfg -> Forall event_ok evs ->
  let s := mc_cache (run cfg evs (start d)) in
  (max_size_bytes cfg <> 0 -> used_bytes s <= max_size_bytes cfg) /\
  (cf_max_files cfg <> 0 -> zlen (lc_entries s) <= cf_max_files cfg).
Proof.
  intros Hb H1 H2 Hevs. exact (mo_within _ _ (run_ok cfg Hb evs _ Hevs (start_ok cfg d H1 H2))).
Qed.

(** ** Who is evicted *)

(** Eviction takes the entry read longest ago and nothing it must not:
    after [make_room] every entry that is pinned, being staged or being filled,
    and the entry the bytes are for, is untouched; no evicted entry was read
    later than an evictable one that stays; and when the answer is no, nothing
    that could be evicted is left. *)
Theorem make_room_evicts_lru cfg size new keep s ok s' :
  cache_ok s -> make_room cfg size new keep s = (ok, s') ->
  (forall v e, entry_of v s = Some e -> evictable e = false \/ Some (ce_uid e) = keep -> entry_of v s' = Some e) /\
  (forall v e v' e', entry_of v s = Some e -> entry_of v s' = None ->
     entry_of v' s' = Some e' -> evictable e' = true -> Some (ce_uid e') <> keep -> ce_last_access e <= ce_last_access e') /\
  (ok = false -> forall v e, entry_of v s' = Some e -> evictable e = false \/ Some (ce_uid e) = keep).
Proof.
  intros Hok. unfold make_room. destruct (make_room_loop _ _ _ _ _ _ s) as [[o any] s1] eqn:Hl. intros [= <- <-].
  assert (forall v, entry_of v (if any then save_index s1 else s1) = entry_of v s1) as Hsame
    by (intros v; destruct any; [|done]; unfold entry_of; by rewrite entries_save_index).
  apply (make_room_loop_spec cfg keep) in Hl as (gone & left & Hgl & Hsh & Hent & _ & Hno); [|done|by apply lru_order_live|done].
  assert (forall v e, entry_of v s1 = Some e -> evictable e = true -> Some (ce_uid e) <> keep -> e ∈ left) as Hstay.
  { intros v e He Hev Hk. assert (entry_of v s = Some e) as Hes by (destruct Hsh as [_ E _ _ _]; destruct (E v) as [<-|[? _]]; congruence).
    assert (e ∈ rev (lru_order keep s)) as Hin.
    { rewrite <- Permutation_rev. unfold lru_order. rewrite (sort_by_perm _ _). apply list_elem_of_In, filter_In. split.
      - apply in_map_iff. exists (v, e). split; [done|]. by apply Dict.get_Some_In.
      - rewrite Hev. by rewrite bool_decide_eq_false_2. }
    rewrite Hgl, elem_of_app in Hin. destruct Hin as [Hin|Hin]; [|done]. exfalso. rewrite Hent, decide_True in He; [done|].
    destruct (co_entry _ Hok v e Hes) as (_ & <- & _). by apply list_elem_of_fmap_2. }
  split_and!.
  - intros v e He Hc. rewrite Hsame. destruct Hsh as [_ E _ _ _]. destruct (E v) as [->|[_ (e' & He' & Hev & Hk)]]; [done|].
    replace e' with e in * by congruence. destruct Hc; congruence.
  - intros v e v' e' He Hn He' Hev Hk. rewrite Hsame in Hn, He'. rewrite Hent in Hn.
    destruct (decide (v ∈ map ce_version_id gone)) as [Hg|Hg]; [|congruence].
    apply list_elem_of_fmap in Hg as (x & -> & Hx).
    assert (x = e) as ->.
    { destruct (lru_order_live keep s Hok) as [_ Hall]. rewrite Hgl, Forall_app in Hall. destruct Hall as [Hall _].
      rewrite Forall_forall in Hall. destruct (Hall x Hx) as (Hxe & _). congruence. }
    pose proof (sort_by_sorted (fun e => - ce_last_access e)
      (List.filter (fun e => evictable e && negb (bool_decide (Some (ce_uid e) = keep))) (Dict.values (lc_entries s)))) as Hsort.
    fold (lru_order keep s) in Hsort. rewrite <- (rev_involutive (lru_order keep s)), Hgl, rev_app_distr in Hsort.
    enough (- ce_last_access e' <= - ce_last_access e) by lia.
    eapply (StronglySorted_app_1_elem_of (fun x y => - ce_last_access x <= - ce_last_access y)); [exact Hsort| |]; rewrite <- Permutation_rev; [|done].
    by eapply Hstay.
  - intros Ho v e He. rewrite Hsame in He. destruct (evictable e) eqn:Hev; [|by left]. right.
    destruct (decide (Some (ce_uid e) = keep)) as [|Hk]; [done|]. pose proof (Hstay v e He Hev Hk) as Hin.
    rewrite (Hno Ho) in Hin. by apply not_elem_of_nil in Hin.
Qed.

(** ** One version in a small cache *)

Definition one_cache : CacheConfig :=
  {| cf_enabled := true; cf_max_size_mb := 1; cf_max_files := 2; cf_max_file_size_mb := 1; cf_block_kb := 64; cf_stage_uploads := true;
     cf_keep_for_reads := true; cf_min_free_mb := 0; cf_max_age_hours := 0; cf_target_fill_percent := 90 |}.
Definition good_disk : Disk :=
  {| dk_data := ∅; dk_map := ∅; dk_index := None; dk_os := fun _ => None; dk_free := fun _ => None; dk_calls := 0 |}.
Definition abc : bytes := [Byte.x61; Byte.x62; Byte.x63].

Definition cache_abc : list Event :=
  [EvReserve "fs" "v" 3 0; EvClaim "v" 0 abc; EvFillWrite 0; EvFillEnd 0 1].

Lemma cache_within_budget_witness :
  let s := mc_cache (run one_cache cache_abc (start good_disk)) in
  used_bytes s = 3 /\ (used_bytes s <= max_size_bytes one_cache /\ zlen (lc_entries s) <= cf_max_files one_cache).
Proof.
  intros s. split; [vm_compute; reflexivity|].
  assert (H : (max_size_bytes one_cache <> 0 -> used_bytes s <= max_size_bytes one_cache) /\
          (cf_max_files one_cache <> 0 -> zlen (lc_entries s) <= cf_max_files one_cache)).
  { apply (cache_within_budget one_cache good_disk cache_abc); try (vm_compute; reflexivity); try (vm_compute; discriminate).
    repeat constructor. simpl. lia. }
  destruct H as [H1 H2]. split; [apply H1|apply H2]; vm_compute; discriminate.
Defined.

(** Two entries over a budget of one file more. *)
Definition full_cache : LocalCache :=
  mc_cache (run one_cache (cache_abc ++ [EvReserve "fs" "w" 3 5]) (start good_disk)).

Lemma full_cache_ok : cache_ok full_cache.
Proof.
  apply (mo_cache one_cache). apply run_ok; [done| |apply start_ok; vm_compute; discriminate].
  repeat constructor. simpl. lia.
Qed.

Lemma make_room_evicts_lru_witness :
  let r := make_room one_cache 0 true None full_cache in
  r.1 = true /\ entry_of "v" r.2 = None /\
  (exists e, entry_of "v" full_cache = Some e /\ exists e', entry_of "w" r.2 = Some e' /\ ce_last_access e <= ce_last_access e').
Proof.
  intros r. destruct (make_room one_cache 0 true None full_cache) as [ok s'] eqn:Hr. subst r.
  assert (Hs : s' = (make_room one_cache 0 true None full_cache).2) by (rewrite Hr; reflexivity).
  assert (Ho : ok = (make_room one_cache 0 true None full_cache).1) by (rewrite Hr; reflexivity).
  split; [rewrite Ho; vm_compute; reflexivity|]. assert (Hv : entry_of "v" s' = None) by (rewrite Hs; vm_compute; reflexivity).
  split; [exact Hv|]. destruct (make_room_evicts_lru one_cache 0 true None full_cache ok s' full_cache_ok Hr) as (_ & H & _).
  eexists. split; [vm_compute; reflexivity|]. eexists. split; [rewrite Hs; vm_compute; reflexivity|].
  eapply (H "v" _ "w"); [vm_compute; reflexivity|exact Hv|rewrite Hs; vm_compute; reflexivity|vm_compute; reflexivity|discriminate].
Defined.
