(* ===== verification/CacheContent.v ===== *)
(** * What the cache serves is what was stored

    [content v] are the bytes of version [v].  When everything handed to the
    cache is a piece of its version, every block an entry calls present is on
    disk with the right bytes -- through every interleaving of fills, staged
    uploads and evictions -- as long as a reader's entry is still the one it
    checked.  A reader whose entry was evicted and opened again reads zeros. *)

From S2P Require Import Prelude Errors CacheEntry LocalCache LocalCacheProps.

Open Scope Z_scope.
Open Scope py_scope.

(** ** [pwrite] *)

Lemma zlen_pwrite offset data file : 0 <= offset -> offset + zlen data <= zlen file -> zlen (pwrite_bytes offset data file) = zlen file.
Proof. intros Ho Hl. rewrite zlen_pwrite_max by done. lia. Qed.

Lemma byte_at_pwrite offset data file p : 0 <= offset -> offset + zlen data <= zlen file -> 0 <= p ->
  byte_at (pwrite_bytes offset data file) p =
    if (offset <=? p) && (p <? offset + zlen data) then byte_at data (p - offset) else byte_at file p.
Proof.
  intros Ho Hl Hp. rewrite byte_at_written by done. destruct (_ && _) eqn:E; [done|].
  destruct (Z.ltb_spec p (zlen file)); [done|]. rewrite (proj2 (Z.ltb_ge p offset)) by (pose proof (zlen_nonneg data); lia).
  by rewrite byte_at_ge.
Qed.

(** Slices, byte by byte. *)
Lemma byte_at_zslice b e l p : 0 <= b -> 0 <= p < e - b -> byte_at (zslice b e l) p = byte_at l (b + p).
Proof.
  intros Hb Hp. unfold byte_at, znth, zslice. rewrite !(proj2 (Z.ltb_ge _ _)) by lia.
  rewrite lookup_take_lt by lia. rewrite lookup_drop. f_equal. lia.
Qed.

Lemma zslice_ext b e l k : 0 <= b -> zlen l = zlen k -> (forall p, b <= p < e -> byte_at l p = byte_at k p) -> zslice b e l = zslice b e k.
Proof.
  intros Hb Hl Hp. unfold zslice. apply list_eq. intros i. destruct (decide (i < Z.to_nat (e - b))%nat) as [Hi|Hi].
  - rewrite !lookup_take_lt, !lookup_drop by lia. specialize (Hp (b + Z.of_nat i) ltac:(lia)). unfold byte_at, znth in Hp.
    rewrite !(proj2 (Z.ltb_ge _ _)) in Hp by lia. by replace (Z.to_nat (b + Z.of_nat i)) with (Z.to_nat b + i)%nat in Hp by lia.
  - rewrite !lookup_take_ge by lia. done.
Qed.

(** ** Steps that leave the data files of live entries alone *)

Record core_same (e e' : CacheEntry) : Prop := {
  cs_uid : ce_uid e' = ce_uid e;
  cs_size : ce_size e' = ce_size e;
  cs_block : ce_block_size e' = ce_block_size e;
  cs_present : ce_present e' = ce_present e
}.

Definition keeps (s s' : LocalCache) : Prop :=
  (lc_next_uid s <= lc_next_uid s')%nat /\
  forall v e', entry_of v s' = Some e' ->
    exists e, entry_of v s = Some e /\ core_same e e' /\ dk_data (lc_disk s') !! v = dk_data (lc_disk s) !! v.

Lemma kept_files_refl s : keeps s s.
Proof. split; [done|]. intros v e He. by exists e. Qed.

Lemma kept_files_trans s1 s2 s3 : keeps s1 s2 -> keeps s2 s3 -> keeps s1 s3.
Proof.
  intros [U1 E1] [U2 E2]. split; [lia|]. intros v e3 He3. destruct (E2 v e3 He3) as (e2 & He2 & [] & D2).
  destruct (E1 v e2 He2) as (e1 & He1 & [] & D1). exists e1. split; [done|]. split; [split; congruence|congruence].
Qed.

Lemma keeps_disk d s : dk_data d = dk_data (lc_disk s) -> keeps s (with_disk d s).
Proof. intros Hd. split; [done|]. intros v e He. exists e. simpl. by rewrite Hd. Qed.

Lemma save_index_data s : dk_data (lc_disk (save_index s)) = dk_data (lc_disk s).
Proof. unfold save_index. simpl. by destruct (dk_os _ _). Qed.

Lemma keeps_save s : keeps s (save_index s).
Proof.
  split; [by rewrite uid_save_index|]. intros v e. unfold entry_of. rewrite entries_save_index, save_index_data. intros He. by exists e.
Qed.

Lemma unlink_data v v' d : v' <> v -> dk_data (unlink v d) !! v' = dk_data d !! v'.
Proof.
  intros Hne. unfold unlink. simpl. destruct (dk_os d (dk_calls d)); simpl; destruct (dk_os d _); simpl; try done; by rewrite lookup_delete_ne.
Qed.

Lemma keeps_drop v s : keeps s (drop_entry v s).2.
Proof.
  split; [by rewrite (proj2 (drop_entries v s))|]. intros v' e. rewrite entry_of_drop. destruct (decide (v' = v)) as [->|Hne]; [done|].
  intros He. exists e. split; [done|]. split; [done|]. unfold drop_entry. destruct (entry_of v s); [|done]. by apply unlink_data.
Qed.

Lemma keeps_put v e e' s : entry_of v s = Some e -> ce_version_id e' = v -> core_same e e' -> keeps s (put_entry e' s).
Proof.
  intros He Hv Hc. split; [done|]. intros v' e2. unfold put_entry, entry_of. simpl. rewrite Hv. destruct (decide (v' = v)) as [->|Hne].
  - rewrite Dict.get_set_eq. intros [= <-]. by exists e.
  - rewrite Dict.get_set_ne by done. intros He2. by exists e2.
Qed.

Lemma keeps_modify v uid g s : (forall e, core_same e (g e) /\ ce_version_id (g e) = ce_version_id e) ->
  (forall e, entry_of v s = Some e -> ce_version_id e = v) -> keeps s (modify_live v uid g s).
Proof.
  intros Hg Hv. unfold modify_live. destruct (entry_of v s) as [e|] eqn:He; [|apply kept_files_refl]. case_bool_decide; [|apply kept_files_refl].
  destruct (Hg e) as [Hc Hver]. eapply keeps_put; [exact He|rewrite Hver; by apply Hv|done].
Qed.

Lemma keeps_remove v s : keeps s (remove v s).
Proof.
  unfold remove. pose proof (keeps_drop v s) as Hd. destruct (drop_entry v s) as [[] s1]; [|exact Hd].
  eapply kept_files_trans; [exact Hd|apply keeps_save].
Qed.

Lemma keeps_remove_many vs s : keeps s (remove_many vs s).
Proof.
  unfold remove_many. assert (forall any s, keeps s (drop_all vs any s).2) as Hall.
  { clear s. induction vs as [|v vs IH]; intros any s; simpl; [apply kept_files_refl|].
    pose proof (keeps_drop v s) as Hd. destruct (drop_entry v s) as [b s1]. eapply kept_files_trans; [exact Hd|apply IH]. }
  specialize (Hall false s). destruct (drop_all vs false s) as [[] s1]; [|exact Hall].
  eapply kept_files_trans; [exact Hall|apply keeps_save].
Qed.

Lemma keeps_removed v s : keeps s (if Dict.mem v (lc_entries s) then remove v s else s).
Proof. destruct (Dict.mem v (lc_entries s)); [apply keeps_remove|apply kept_files_refl]. Qed.

Section Keeps.
  Context (cfg : CacheConfig).

Lemma keeps_make_room size new keep s : keeps s (make_room cfg size new keep s).2.
Proof.
  unfold make_room. assert (forall victims used any s, keeps s (make_room_loop cfg size new victims used any s).2) as Hall.
  { clear s. induction victims as [|e victims IH]; intros used any s; cbn [make_room_loop].
    all: set (p := if min_free_bytes cfg =? 0 then _ else _);
      assert (keeps s p.2) as Hp by (unfold p; destruct (min_free_bytes cfg =? 0); [apply kept_files_refl|by apply keeps_disk]);
      destruct p as [free s1]; destruct (negb _ && negb _ && _); try exact Hp.
    eapply kept_files_trans; [exact Hp|]. eapply kept_files_trans; [apply (keeps_drop (ce_version_id e))|apply IH]. }
  specialize (Hall (rev (lru_order keep s)) (used_bytes s) false s).
  destruct (make_room_loop _ _ _ _ _ _ _) as [[ok any] s1]. simpl in *. destruct any; [|exact Hall].
  eapply kept_files_trans; [exact Hall|apply keeps_save].
Qed.

(** Changes of pins and access times keep the core. *)
Lemma keeps_touch la pins w i pa v e s : cache_ok s -> entry_of v s = Some e -> keeps s (put_entry (set_entry la pins w i pa e) s).
Proof. intros Hok He. eapply keeps_put; [exact He| |done]. by apply (co_entry _ Hok v e He). Qed.

Lemma keeps_pin v now s : cache_ok s -> keeps s (pin v now s).
Proof.
  intros Hok. unfold pin. destruct (entry_of v s) as [e|] eqn:He; [|apply kept_files_refl].
  eapply kept_files_trans; [|apply keeps_save]. by eapply keeps_touch.
Qed.

Lemma keeps_unpin v s : cache_ok s -> keeps s (unpin v s).
Proof. intros Hok. unfold unpin. destruct (entry_of v s) as [e|] eqn:He; [|apply kept_files_refl]. by eapply keeps_touch. Qed.

Lemma keeps_release v s : cache_ok s -> keeps s (release cfg v s).
Proof.
  intros Hok. unfold release. destruct (entry_of v s) as [e|] eqn:He; [|apply kept_files_refl].
  eapply kept_files_trans; [by eapply (keeps_touch _ _ _ _ _ v e)|]. destruct (negb _); [apply keeps_remove|apply keeps_save].
Qed.

Lemma keeps_read v begin last now s : cache_ok s -> keeps s (read_start v begin last now s).2.
Proof.
  intros Hok. unfold read_start. destruct (entry_of v s) as [e|] eqn:He; [|apply kept_files_refl].
  destruct (negb _); [apply kept_files_refl|]. by eapply keeps_touch.
Qed.

Lemma keeps_orphans s : keeps s (sweep_orphans s).2.
Proof.
  unfold sweep_orphans. destruct (os_call (lc_disk s)) as [[k|] d] eqn:Ho; [apply keeps_disk; by injection Ho as _ <-|].
  assert (keeps s (with_disk d s)) as Hd by (apply keeps_disk; by injection Ho as _ <-).
  eapply kept_files_trans; [exact Hd|]. clear. generalize (with_disk d s) as s1. generalize 0 as n.
  generalize (map (fun x => (true, x.1)) (map_to_list (dk_data d)) ++ map (fun x => (false, x.1)) (map_to_list (dk_map d))) as names.
  clear. intros names. induction names as [|[b v] names IH]; intros n s; cbn [remove_orphans]; [apply kept_files_refl|].
  destruct (Dict.mem v (lc_entries s)) eqn:Hmem; [apply IH|].
  destruct (os_call (lc_disk s)) as [[k|] d] eqn:Ho; (eapply kept_files_trans; [|apply IH]).
  - apply keeps_disk. by injection Ho as _ <-.
  - split; [done|]. intros v' e He. exists e. split; [exact He|]. split; [done|]. injection Ho as _ <-. simpl.
    destruct b; simpl; [|done]. rewrite lookup_delete_ne; [done|]. intros <-. unfold Dict.mem in Hmem. change (Dict.get v (lc_entries s)) with (entry_of v s) in Hmem.
    change (entry_of v s = Some e) in He. by rewrite He in Hmem.
Qed.

Lemma keeps_foldl {A} (f : LocalCache -> A -> LocalCache) l s :
  (forall s x, cache_ok s -> good_step cfg s (f s x) /\ keeps s (f s x)) -> cache_ok s -> keeps s (foldl f s l).
Proof.
  intros Hf. revert s. induction l as [|x l IH]; intros s Hok; simpl; [apply kept_files_refl|]. destruct (Hf s x Hok) as [Hg Hk].
  eapply kept_files_trans; [exact Hk|]. apply IH, (gs_ok _ _ _ Hg).
Qed.

Lemma keeps_sweep q now s : cache_ok s -> keeps s (sweep cfg q now s).2.
Proof.
  intros Hok. unfold sweep. pose proof (good_sweep_orphans cfg s Hok) as Hg. pose proof (keeps_orphans s) as Hk.
  destruct (sweep_orphans s) as [n0 s1]. simpl in Hg, Hk.
  assert (forall t (e : CacheEntry), cache_ok t -> good_step cfg t (release cfg (ce_version_id e) t) /\ keeps t (release cfg (ce_version_id e) t)) as Hrel
    by (intros t e Ht; split; [by apply good_release|by apply keeps_release]).
  assert (forall t (e : CacheEntry), cache_ok t -> good_step cfg t (evict e t).2 /\ keeps t (evict e t).2) as Hev
    by (intros t e Ht; split; [by apply good_drop|apply keeps_drop]).
  set (s2 := foldl _ s1 _). assert (keeps s s2) as Hk2 by (eapply kept_files_trans; [exact Hk|]; apply keeps_foldl; [done|apply Hg]).
  assert (cache_ok s2) as Hok2 by (apply (gs_ok cfg s1), good_foldl; [intros; by apply Hrel|apply Hg]).
  set (s3 := foldl _ s2 _). assert (keeps s s3) as Hk3 by (eapply kept_files_trans; [exact Hk2|]; by apply keeps_foldl).
  set (p := match target_bytes cfg with Some _ => _ | None => _ end).
  assert (keeps s p.2) as Hk4.
  { unfold p. destruct (target_bytes cfg) as [target|]; [|exact Hk3]. eapply kept_files_trans; [exact Hk3|].
    enough (forall l used n s, keeps s (sweep_target target used l n s).2) by auto. clear. intros l.
    induction l as [|e l IH]; intros used n s; simpl; [apply kept_files_refl|]. destruct (target <? used); [|apply kept_files_refl].
    eapply kept_files_trans; [apply (keeps_drop (ce_version_id e))|apply IH]. }
  destruct p as [[victims n] s4]. cbn [snd] in Hk4.
  assert (keeps s (sweep_disk cfg victims n s4).2) as Hk5.
  { eapply kept_files_trans; [exact Hk4|]. generalize n s4. clear. induction victims as [|e l IH]; intros n s; cbn [sweep_disk]; [apply kept_files_refl|].
    destruct (min_free_bytes cfg =? 0); [apply kept_files_refl|]. destruct (disk_free (lc_disk s)) as [free d] eqn:Hd.
    assert (keeps s (with_disk d s)) as Hkd by (apply keeps_disk; by injection Hd as _ <-).
    destruct free as [x|]; [|exact Hkd]. destruct (x <? _); [|exact Hkd]. eapply kept_files_trans; [exact Hkd|].
    eapply kept_files_trans; [apply (keeps_drop (ce_version_id e))|apply IH]. }
  destruct (sweep_disk cfg victims n s4) as [n' s5]. cbn [snd] in *. eapply kept_files_trans; [exact Hk5|]. eapply kept_files_trans; [|apply keeps_save].
  split; [done|]. intros v e He. by exists e.
Qed.

End Keeps.

Section Content.
  Context (content : string -> bytes).

(** [data] is the piece of version [v] at [offset]. *)
Definition piece_of (v : string) (offset : Z) (data : bytes) : Prop :=
  0 <= offset /\ offset + zlen data <= zlen (content v) /\ data = zslice offset (offset + zlen data) (content v).

Lemma piece_take v offset data n : 0 <= n -> piece_of v offset data -> piece_of v offset (ztake n data).
Proof.
  intros Hn (Ho & Hl & Hd). pose proof (zlen_nonneg data). assert (zlen (ztake n data) = Z.min n (zlen data)) as Hz by by apply zlen_ztake.
  split; [done|]. split; [lia|]. rewrite Hz. rewrite Hd at 1. rewrite !zslice_spec.
  replace (offset + zlen data - offset) with (zlen data) by lia. replace (offset + Z.min n (zlen data) - offset) with (Z.min n (zlen data)) by lia.
  by rewrite ztake_ztake by lia.
Qed.

Lemma piece_byte v offset data p : piece_of v offset data -> 0 <= p < zlen data -> byte_at data p = byte_at (content v) (offset + p).
Proof. intros (Ho & Hl & Hd) Hp. rewrite Hd. apply byte_at_zslice; lia. Qed.

(** Byte [p] of a file is the version's. *)
Definition true_at (v : string) (file : bytes) (p : Z) : Prop := byte_at file p = byte_at (content v) p.

Lemma true_pwrite v offset data file p :
  piece_of v offset data -> zlen file = zlen (content v) -> 0 <= p ->
  offset <= p < offset + zlen data \/ true_at v file p -> true_at v (pwrite_bytes offset data file) p.
Proof.
  intros Hd Hl Hp Hc. pose proof Hd as (Ho & Hb & _). unfold true_at. rewrite byte_at_pwrite by lia.
  destruct ((offset <=? p) && (p <? offset + zlen data)) eqn:Hr.
  - apply andb_prop in Hr as [H1%Z.leb_le H2%Z.ltb_lt]. rewrite (piece_byte v offset data) by (done || lia). f_equal. lia.
  - destruct Hc as [Hc|Hc]; [|done]. apply andb_false_iff in Hr as [H1%Z.leb_gt|H2%Z.ltb_ge]; lia.
Qed.

(** ** Steps that may write, but nothing false *)

(** The file of version [v] still has every true byte it had. *)
Definition file_stays (v : string) (s s' : LocalCache) : Prop :=
  forall i file, dk_data (lc_disk s) !! v = Some (i, file) -> zlen file = zlen (content v) ->
  exists file', dk_data (lc_disk s') !! v = Some (i, file') /\ zlen file' = zlen (content v) /\
    forall p, 0 <= p -> true_at v file p -> true_at v file' p.

Definition opened (v : string) (e : CacheEntry) (s s' : LocalCache) : Prop :=
  (lc_next_uid s <= ce_uid e)%nat /\ ce_size e = zlen (content v) /\ (forall i, present_at e i = false) /\
  exists i file, dk_data (lc_disk s') !! v = Some (i, file) /\ zlen file = zlen (content v).

Definition stays (s s' : LocalCache) : Prop :=
  (lc_next_uid s <= lc_next_uid s')%nat /\
  forall v e', entry_of v s' = Some e' ->
    (exists e, entry_of v s = Some e /\ core_same e e' /\ file_stays v s s') \/ opened v e' s s'.

Lemma file_stays_same v s s' : dk_data (lc_disk s') !! v = dk_data (lc_disk s) !! v -> file_stays v s s'.
Proof. intros Hd i file Hf Hl. exists file. by rewrite Hd. Qed.

Lemma keeps_stays s s' : keeps s s' -> stays s s'.
Proof.
  intros [U E]. split; [done|]. intros v e' He'. destruct (E v e' He') as (e & He & Hc & Hd). left. exists e.
  split; [done|]. split; [done|]. by apply file_stays_same.
Qed.

(** A write of a piece through an open file. *)
Lemma pwrite_stays v inode offset data d ok n d' : piece_of v offset data -> pwrite_file v inode offset data d = (ok, n, d') ->
  (forall v', v' <> v -> dk_data d' !! v' = dk_data d !! v') /\ 0 <= n <= zlen data /\ (ok = true -> n = zlen data) /\
  forall i file, dk_data d !! v = Some (i, file) -> zlen file = zlen (content v) ->
  exists file', dk_data d' !! v = Some (i, file') /\ zlen file' = zlen (content v) /\
    forall p, 0 <= p -> (i = inode /\ offset <= p < offset + n) \/ true_at v file p -> true_at v file' p.
Proof.
  intros Hd. unfold pwrite_file. destruct (os_call d) as [f d1] eqn:Ho. assert (dk_data d1 = dk_data d) as <- by (by injection Ho as _ <-).
  set (m := match f with Some k => _ | None => _ end). pose proof (zlen_nonneg data).
  assert (0 <= m <= zlen data /\ (f = None -> m = zlen data)) as [Hm Hmn] by (unfold m; destruct f; split; lia || done).
  intros [= <- <- <-]. pose proof (piece_take v offset data m ltac:(lia) Hd) as Ht. pose proof Ht as (H0 & H1 & _).
  assert (zlen (ztake m data) = m) as Hz by (rewrite zlen_ztake; lia).
  split_and!; try done; try lia; [| |].
  - intros v' Hne. destruct (dk_data d1 !! v) as [[i c]|] eqn:Hv; [|done]. case_bool_decide; [|done]. simpl. by rewrite lookup_insert_ne.
  - intros Hf%bool_decide_eq_true. auto.
  - intros i file Hv Hl. rewrite Hv. case_bool_decide as Hi.
    + exists (pwrite_bytes offset (ztake m data) file). simpl. rewrite lookup_insert_eq. split; [done|].
      rewrite zlen_pwrite by lia. split; [done|]. intros p Hp Hc. apply true_pwrite; try done. rewrite Hz. tauto.
    + exists file. split; [done|]. split; [done|]. intros p Hp [[-> _]|Hc]; [done|exact Hc].
Qed.

(** ** The invariant *)

(** A range of the file of [v] is the version's. *)
Definition true_range (v : string) (a b : Z) (s : LocalCache) : Prop :=
  exists i file, dk_data (lc_disk s) !! v = Some (i, file) /\ forall p, a <= p < b -> true_at v file p.

Definition entry_true (s : LocalCache) (v : string) (e : CacheEntry) : Prop :=
  ce_size e = zlen (content v) /\
  exists i file, dk_data (lc_disk s) !! v = Some (i, file) /\ zlen file = zlen (content v) /\
    forall p, 0 <= p < ce_size e -> present_at e (p / ce_block_size e) = true -> true_at v file p.

(** The bytes a fill's blocks are made of, for the entry it is for. *)
Definition fill_true (s : LocalCache) (f : Fill) (r : option bool) : Prop :=
  piece_of (fl_version_id f) (fl_begin f) (fl_data f) /\ (fl_uid f < lc_next_uid s)%nat /\
  forall v e, entry_of v s = Some e -> ce_uid e = fl_uid f ->
    v = fl_version_id f /\
    (forall p, 0 <= p < ce_size e -> p / ce_block_size e ∈ fl_blocks f -> fl_begin f <= p < fl_begin f + zlen (fl_data f)) /\
    (r = Some true -> true_range v (fl_begin f) (fl_begin f + zlen (fl_data f)) s).

Definition writer_true (s : LocalCache) (w : StagingWriter) : Prop :=
  (sw_uid w < lc_next_uid s)%nat /\ 0 <= sw_offset w /\
  forall v e, entry_of v s = Some e -> ce_uid e = sw_uid w ->
    v = sw_version_id w /\ ce_size e = sw_size w /\ ce_block_size e = sw_block_size w /\
    (forall i, sw_fd w = Some i -> option_map fst (dk_data (lc_disk s) !! v) = Some i) /\
    true_range v 0 (sw_offset w) s.

Record truth_ok (m : Machine) : Prop := {
  to_entries : forall v e, entry_of v (mc_cache m) = Some e -> entry_true (mc_cache m) v e;
  to_fills : forall f r, (f, r) ∈ mc_fills m -> fill_true (mc_cache m) f r;
  to_writers : forall w st, (w, st) ∈ mc_writers m -> writer_true (mc_cache m) w
}.

Definition with_cache (s : LocalCache) (m : Machine) : Machine :=
  {| mc_cache := s; mc_fills := mc_fills m; mc_writers := mc_writers m |}.

Lemma range_stays v a b s s' : 0 <= a -> file_stays v s s' -> (exists e, entry_true s v e) -> true_range v a b s -> true_range v a b s'.
Proof.
  intros Ha Hf (e & _ & i & file & Hd & Hl & _) (i' & file' & Hd' & Hr). rewrite Hd in Hd'. injection Hd' as <- <-.
  destruct (Hf i file Hd Hl) as (file' & Hd' & _ & Hp). exists i, file'. split; [done|]. intros p Hpr. apply Hp; [lia|]. by apply Hr.
Qed.

Lemma entry_stays s s' v e e' : core_same e e' -> file_stays v s s' -> entry_true s v e -> entry_true s' v e'.
Proof.
  intros [_ Hs Hb Hp] Hf (Hsz & i & file & Hd & Hl & Ht). split; [congruence|]. destruct (Hf i file Hd Hl) as (file' & Hd' & Hl' & Hp').
  exists i, file'. split; [done|]. split; [done|]. intros p. rewrite Hs, Hb. unfold present_at. rewrite Hp. intros Hpr Hpp.
  apply Hp'; [lia|]. by apply Ht.
Qed.

Lemma fill_stays s s' f r : (forall v e, entry_of v s = Some e -> entry_true s v e) -> stays s s' -> fill_true s f r -> fill_true s' f r.
Proof.
  intros Hall [U E] (Hpc & Hu & Hf). split; [done|]. split; [lia|]. intros v e' He' Hue.
  destruct (E v e' He') as [(e & He & [C1 C2 C3 C4] & Hfile)|[Hnew _]]; [|lia].
  destruct (Hf v e He ltac:(congruence)) as (Hv & Hin & Hr). split; [done|]. split; [by rewrite C2, C3|].
  intros Hrt. eapply range_stays; [apply Hpc|exact Hfile|by eexists; apply Hall|by apply Hr].
Qed.

Lemma writer_stays s s' w : (forall v e, entry_of v s = Some e -> entry_true s v e) -> stays s s' -> writer_true s w -> writer_true s' w.
Proof.
  intros Hall [U E] (Hu & Ho & Hw). split; [lia|]. split; [done|]. intros v e' He' Hue.
  destruct (E v e' He') as [(e & He & [C1 C2 C3 C4] & Hfile)|[Hnew _]]; [|lia].
  destruct (Hw v e He ltac:(congruence)) as (Hv & H1 & H2 & Hfd & Hr). split; [done|]. split; [congruence|]. split; [congruence|]. split.
  - intros i Hi. specialize (Hfd i Hi). destruct (Hall v e He) as (_ & j & file & Hd & Hl & _).
    destruct (Hfile j file Hd Hl) as (file' & Hd' & _). rewrite Hd'. by rewrite Hd in Hfd.
  - eapply range_stays; [done|exact Hfile|by eexists; apply Hall|done].
Qed.

Lemma truth_step s' m : truth_ok m -> stays (mc_cache m) s' -> truth_ok (with_cache s' m).
Proof.
  intros [He Hf Hw] Hs. split; simpl.
  - intros v e' He'. destruct Hs as [_ E]. destruct (E v e' He') as [(e & Hve & Hc & Hfile)|(_ & Hsz & Hp & i & file & Hd & Hl)].
    + eapply entry_stays; [exact Hc|exact Hfile|by apply He].
    + split; [done|]. exists i, file. split; [done|]. split; [done|]. intros p _ Hpp. by rewrite Hp in Hpp.
  - intros f r Hin. by eapply fill_stays; [exact He|exact Hs|apply Hf].
  - intros w st Hin. by eapply writer_stays; [exact He|exact Hs|eapply Hw].
Qed.

(** ** Opening an entry *)

Context (cfg : CacheConfig).

Lemma create_files_spec e s : let r := create_files e s in
  (forall v, v <> ce_version_id e -> dk_data (lc_disk r.2) !! v = dk_data (lc_disk s) !! v) /\
  (r.1 = true -> exists i, dk_data (lc_disk r.2) !! ce_version_id e = Some (i, replicate (Z.to_nat (ce_size e)) Byte.x00)).
Proof.
  unfold create_files. destruct (os_call (lc_disk s)) as [f d] eqn:Ho.
  assert (dk_data d = dk_data (lc_disk s)) as <- by (by injection Ho as _ <-).
  destruct f as [k|]; [split; [intros v Hne; by apply unlink_data|done]|].
  set (inode := match dk_data d !! _ with Some _ => _ | None => _ end). set (d1 := with_files _ _ _).
  destruct (os_call d1) as [f d2] eqn:Ho2. assert (dk_data d2 = dk_data d1) as Hd2 by (by injection Ho2 as _ <-).
  destruct f as [k|]; cbn [fst snd].
  - split; [|done]. intros v Hne. simpl. rewrite unlink_data by done. rewrite Hd2. unfold d1. simpl. by rewrite lookup_insert_ne.
  - simpl. rewrite Hd2. unfold d1. simpl. split; [intros v Hne; by rewrite lookup_insert_ne|]. intros _. exists inode. apply lookup_insert_eq.
Qed.

Lemma add_stays fs v now (writing : bool) s :
  entry_of v s = None -> stays s (add_entry cfg fs v (zlen (content v)) now writing s).2.
Proof.
  intros Hnone. unfold add_entry, draw_uid. set (s1 := Build_LocalCache (lc_entries s) (lc_disk s) (S (lc_next_uid s)) (lc_last_sweep s)).
  set (e := new_entry_of _ _ _ _ _ _ _). pose proof (create_files_entries e s1) as [He Hu].
  destruct (create_files_spec e s1) as [Hoth Hnew]. destruct (create_files e s1) as [[] s2]; cbn [fst snd] in *.
  - split; [rewrite uid_save_index; simpl; rewrite Hu; simpl; lia|]. intros v' e'. unfold entry_of. rewrite entries_save_index. simpl. rewrite He.
    change (ce_version_id e) with v. destruct (decide (v' = v)) as [->|Hne].
    + rewrite Dict.get_set_eq. intros [= <-]. right. split; [done|]. split; [done|]. split; [apply new_entry_absent|].
      destruct (Hnew eq_refl) as [i Hi]. exists i, (replicate (Z.to_nat (ce_size e)) Byte.x00). rewrite save_index_data. split; [exact Hi|].
      rewrite zlen_replicate. simpl. pose proof (zlen_nonneg (content v)). lia.
    + rewrite Dict.get_set_ne by done. intros He'. left. exists e'. split; [exact He'|]. split; [done|]. apply file_stays_same.
      rewrite save_index_data. by apply Hoth.
  - split; [rewrite Hu; simpl; lia|]. intros v' e'. unfold entry_of. rewrite He. intros He'. left. exists e'. split; [exact He'|]. split; [done|].
    apply file_stays_same. apply Hoth. intros ->. change (entry_of v s = Some e') in He'. change (ce_version_id e) with v in He'. congruence.
Qed.

Lemma keeps_then_stays s1 s2 s3 : keeps s1 s2 -> stays s2 s3 -> stays s1 s3.
Proof.
  intros [U E] [U' E']. split; [lia|]. intros v e3 He3. destruct (E' v e3 He3) as [(e2 & He2 & C & Hf)|(Hn & Hrest)].
  - destruct (E v e2 He2) as (e1 & He1 & C' & Hd). left. exists e1. split; [done|]. split; [destruct C, C'; split; congruence|].
    unfold file_stays in *. by rewrite <- Hd.
  - right. split; [lia|exact Hrest].
Qed.

Lemma room_none size v s ok s2 :
  cache_ok s -> make_room cfg size true None (if Dict.mem v (lc_entries s) then remove v s else s) = (ok, s2) ->
  keeps s s2 /\ entry_of v s2 = None.
Proof.
  intros Hok Hm. pose proof (removed_none v s) as Hn. pose proof (keeps_removed v s) as Hk. set (s1 := if Dict.mem _ _ then _ else _) in *.
  pose proof (keeps_make_room cfg size true None s1) as Hk2. rewrite Hm in Hk2. split; [by eapply kept_files_trans|].
  pose proof (gs_ok _ _ _ (good_removed cfg v s Hok)) as Hok1. fold s1 in Hok1.
  apply make_room_spec in Hm as [Hsh _]; [|done]. destruct Hsh as [_ E _ _ _]. destruct (E v) as [->|[-> _]]; done.
Qed.

Lemma reserve_stays fs v now s : cache_ok s -> stays s (reserve cfg fs v (zlen (content v)) now s).2.
Proof.
  intros Hok. unfold reserve. destruct (negb (cf_enabled cfg) || _); [apply keeps_stays, kept_files_refl|].
  destruct (make_room _ _ _ _ _) as [ok s2] eqn:Hm. apply room_none in Hm as [Hk Hnone]; [|done].
  destruct ok; cbn [negb snd]; [|by apply keeps_stays]. eapply keeps_then_stays; [exact Hk|by apply add_stays].
Qed.

Lemma staging_stays fs v now s : cache_ok s -> stays s (open_staging cfg fs v (zlen (content v)) now s).2.
Proof.
  intros Hok. unfold open_staging. destruct (negb (cf_enabled cfg) || _); [apply keeps_stays, kept_files_refl|].
  destruct (negb (fits cfg _)); [apply keeps_stays, keeps_removed|].
  destruct (make_room _ _ _ _ _) as [ok s2] eqn:Hm. apply room_none in Hm as [Hk Hnone]; [|done].
  destruct ok; cbn [negb snd]; [|by apply keeps_stays]. pose proof (add_stays fs v now true s2 Hnone) as Ha.
  destruct (add_entry _ _ _ _ _ _ _) as [o s3]. eapply keeps_then_stays; [exact Hk|exact Ha].
Qed.

(** ** Marking blocks whose bytes are there *)

Lemma truth_mark v uid l m : truth_ok m -> cache_ok (mc_cache m) ->
  (forall e, entry_of v (mc_cache m) = Some e -> ce_uid e = uid ->
     Forall (fun i => 0 <= i < blocks e) l /\
     exists a b, true_range v a b (mc_cache m) /\ forall p, 0 <= p < ce_size e -> p / ce_block_size e ∈ l -> a <= p < b) ->
  truth_ok (with_cache (mark_present v uid l (mc_cache m)) m).
Proof.
  intros Ht Hok Hl. unfold mark_present. destruct (entry_of v (mc_cache m)) as [e|] eqn:He; [|by destruct m].
  case_bool_decide as Hu; cbn [negb]; [|by destruct m]. destruct (nonempty (absent_blocks e l)); cbn [negb]; [|by destruct m].
  destruct (Hl e eq_refl Hu) as (Hb & a & b & Hr & Hp). destruct (co_entry _ Hok v e He) as (Heo & Hver & _).
  set (s1 := put_entry (mark_blocks l e) (mc_cache m)).
  set (s2 := with_disk _ s1). assert (forall v', dk_data (lc_disk s2) !! v' = dk_data (lc_disk (mc_cache m)) !! v') as Hd.
  { intros v'. unfold s2, write_map. simpl. by destruct (dk_map _ !! _). }
  assert (forall v', entry_of v' s2 = if decide (v' = v) then Some (mark_blocks l e) else entry_of v' (mc_cache m)) as Hget.
  { intros v'. unfold s2, s1, put_entry, entry_of. simpl. rewrite Hver. destruct (decide (v' = v)) as [->|Hne];
      [apply Dict.get_set_eq|by apply Dict.get_set_ne]. }
  assert (forall v' x y, true_range v' x y s2 <-> true_range v' x y (mc_cache m)) as Hrange
    by (intros v' x y; unfold true_range; by rewrite Hd).
  destruct Ht as [Hent Hfl Hwr]. split; simpl.
  - intros v' e'. rewrite Hget. unfold entry_true. rewrite Hd. destruct (decide (v' = v)) as [->|Hne]; [|apply Hent]. intros [= <-].
    destruct (Hent v e He) as (Hs & i & file & Hf & Hlen & Hpt). split; [done|]. exists i, file. split; [done|]. split; [done|].
    intros p Hps Hpp. simpl in Hps, Hpp. destruct Hr as (i' & file' & Hf' & Hrt). rewrite Hf in Hf'. injection Hf' as <- <-.
    change (ce_block_size (mark_blocks l e)) with (ce_block_size e) in Hpp.
    rewrite mark_blocks_at in Hpp; [|eapply Forall_impl; [exact Hb|]; simpl; lia|by apply block_of_byte].
    apply orb_true_iff in Hpp as [Hpp|Hpp%bool_decide_eq_true]; [by apply Hpt|]. by apply Hrt, Hp.
  - intros f r Hin. destruct (Hfl f r Hin) as (H1 & H2 & H3). split; [done|]. split; [done|]. intros v' e'. rewrite Hget, Hrange.
    destruct (decide (v' = v)) as [->|Hne]; [|apply H3]. intros [= <-] Hue. exact (H3 v e He Hue).
  - intros w st Hin. destruct (Hwr w st Hin) as (H1 & H2 & H3). split; [done|]. split; [done|]. intros v' e'. rewrite Hget, Hrange, Hd.
    destruct (decide (v' = v)) as [->|Hne]; [|apply H3]. intros [= <-] Hue. exact (H3 v e He Hue).
Qed.

(** ** Fills *)

Lemma div_range a b c p : 0 < c -> a mod c = 0 -> a / c <= p / c < b / c -> a <= p < b.
Proof.
  intros Hc Ha Hp. pose proof (Z.div_mod a c ltac:(lia)). pose proof (Z.div_mod b c ltac:(lia)). pose proof (Z.div_mod p c ltac:(lia)).
  pose proof (Z.mod_pos_bound b c Hc). pose proof (Z.mod_pos_bound p c Hc). nia.
Qed.

Lemma fill_blocks_bytes e begin data p : entry_ok e -> begin mod ce_block_size e = 0 ->
  0 <= p < ce_size e -> p / ce_block_size e ∈ fill_blocks e begin data -> begin <= p < begin + zlen data.
Proof.
  intros He Hm Hp. unfold fill_blocks. intros Hin%elem_of_seqZ. pose proof (eo_block _ He) as Hb.
  destruct (Z.leb_spec (ce_size e) (begin + zlen data)) as [Hend|Hend].
  - split; [|lia]. pose proof (Z.div_mod begin (ce_block_size e) ltac:(lia)). pose proof (Z.mul_div_le p (ce_block_size e) Hb). nia.
  - apply (div_range _ _ (ce_block_size e)); [done|done|lia].
Qed.

(** What a claim leaves and what it promises. *)
Lemma fill_claim_spec v begin data s f s' : cache_ok s -> fill_claim cfg v begin data s = (f, s') ->
  keeps s s' /\ forall g, f = Some g -> fl_version_id g = v /\ fl_begin g = begin /\ fl_data g = data /\
    exists e, entry_of v s = Some e /\ fl_uid g = ce_uid e /\
      forall p, 0 <= p < ce_size e -> p / ce_block_size e ∈ fl_blocks g -> begin <= p < begin + zlen data.
Proof.
  intros Hok. unfold fill_claim. destruct (entry_of v s) as [e|] eqn:He; [|intros [= <- <-]; split; [apply kept_files_refl|done]].
  destruct (ce_writing e || _); [intros [= <- <-]; split; [apply kept_files_refl|done]|].
  destruct (negb (begin mod ce_block_size e =? 0) || _) eqn:Hc; [intros [= <- <-]; split; [apply kept_files_refl|done]|].
  apply orb_false_iff in Hc as [Hmod%negb_false_iff%Z.eqb_eq Hend%Z.ltb_ge].
  destruct (negb (nonempty (fill_blocks e begin data))); [intros [= <- <-]; split; [apply kept_files_refl|done]|].
  set (added := zsum _). set (r := if added =? 0 then _ else _).
  assert (cache_ok r.2 /\ keeps s r.2) as [Hok1 Hk].
  { unfold r. destruct (added =? 0); [split; [done|apply kept_files_refl]|]. split; [|apply keeps_make_room].
    destruct (make_room _ _ _ _ _) as [o s1] eqn:Hm. apply make_room_spec in Hm as [Hsh _]; [|done]. by eapply shrunk_ok. }
  destruct r as [ok s1]; cbn [fst snd] in *. destruct ok; cbn [negb]; [|intros [= <- <-]; split; [exact Hk|done]].
  intros [= <- <-]. split.
  - eapply kept_files_trans; [exact Hk|]. apply keeps_modify; [by intros x|]. intros x Hx. by apply (co_entry _ Hok1 v x).
  - intros g [= <-]. split; [done|]. split; [done|]. split; [done|]. exists e. split; [done|]. split; [done|]. intros p Hp Hin.
    eapply fill_blocks_bytes; [by apply (co_entry _ Hok v e)|exact Hmod|exact Hp|exact Hin].
Qed.

Lemma fill_write_stays f s ok s' : (forall v e, entry_of v s = Some e -> entry_true s v e) ->
  piece_of (fl_version_id f) (fl_begin f) (fl_data f) -> fill_write f s = (ok, s') ->
  stays s s' /\
  (ok = true -> forall e, entry_of (fl_version_id f) s' = Some e ->
     true_range (fl_version_id f) (fl_begin f) (fl_begin f + zlen (fl_data f)) s').
Proof.
  intros Hall Hpc. unfold fill_write. destruct (os_call (lc_disk s)) as [x d] eqn:Ho.
  assert (dk_data d = dk_data (lc_disk s)) as Hd by (by injection Ho as _ <-).
  assert (stays s (with_disk d s)) as Hsame by (by apply keeps_stays, keeps_disk).
  destruct x as [k|]; [intros [= <- <-]; by split|].
  destruct (dk_data d !! fl_version_id f) as [[i c]|] eqn:Hv; [|intros [= <- <-]; by split].
  destruct (pwrite_file _ _ _ _ d) as [[o n] d'] eqn:Hw. intros [= <- <-].
  destruct (pwrite_stays _ _ _ _ _ _ _ _ Hpc Hw) as (Hoth & Hn & Hfull & Hfile). split.
  - split; [done|]. intros v e He. left. exists e. split; [exact He|]. split; [done|]. destruct (decide (v = fl_version_id f)) as [->|Hne].
    + intros i' file Hd' Hl. rewrite <- Hd in Hd'. destruct (Hfile i' file Hd' Hl) as (file' & H1 & H2 & H3). exists file'.
      split; [done|]. split; [done|]. intros p Hp Ht. apply H3; [done|by right].
    + apply file_stays_same. simpl. by rewrite Hoth, Hd.
  - intros Hok e He. destruct (Hall _ e He) as (_ & i' & file & Hd' & Hl & _). rewrite <- Hd in Hd'.
    rewrite Hv in Hd'. injection Hd' as <- <-. destruct (Hfile i c Hv Hl) as (file' & H1 & H2 & H3).
    exists i, file'. split; [exact H1|]. intros p Hp. pose proof Hpc as (H0 & _). apply H3; [lia|]. left. rewrite (Hfull Hok). done.
Qed.

(** ** Writers *)

Lemma write_sync_stays w data s ok w' s' : (forall v e, entry_of v s = Some e -> entry_true s v e) ->
  piece_of (sw_version_id w) (sw_offset w) data -> writer_true s w -> write_sync w data s = (ok, w', s') ->
  stays s s' /\ writer_true s' w'.
Proof.
  intros Hall Hpc Hwt. unfold write_sync. set (o := match sw_fd w with Some _ => _ | None => _ end).
  assert (dk_data o.2 = dk_data (lc_disk s) /\ forall i, o.1 = Some i ->
    forall e, entry_of (sw_version_id w) s = Some e -> ce_uid e = sw_uid w -> option_map fst (dk_data o.2 !! sw_version_id w) = Some i) as [Hd Hfd].
  { unfold o. destruct (sw_fd w) as [i|] eqn:Hfd; simpl; (split; [done|]).
    - intros i' [= <-] e He Hue. destruct Hwt as (_ & _ & Hwt). by apply (Hwt _ e He Hue).
    - intros i' Hi e He Hue. by destruct (dk_os _ _). }
  destruct o as [fd d]; cbn [fst snd] in *. destruct fd as [i|].
  2: { intros [= <- <- <-]. assert (stays s (with_disk d s)) as Hs by (by apply keeps_stays, keeps_disk). split; [exact Hs|].
       by eapply writer_stays. }
  destruct (pwrite_file _ _ _ _ d) as [[k n] d'] eqn:Hw. intros [= <- <- <-].
  destruct (pwrite_stays _ _ _ _ _ _ _ _ Hpc Hw) as (Hoth & Hn & Hfull & Hfile).
  assert (stays s (with_disk d' s)) as Hst.
  { split; [done|]. intros v e He. left. exists e. split; [exact He|]. split; [done|]. destruct (decide (v = sw_version_id w)) as [->|Hne].
    - intros i' file Hd' Hl. rewrite <- Hd in Hd'. destruct (Hfile i' file Hd' Hl) as (file' & H1 & H2 & H3). exists file'.
      split; [done|]. split; [done|]. intros p Hp Ht. apply H3; [done|by right].
    - apply file_stays_same. simpl. by rewrite Hoth, Hd. }
  split; [exact Hst|]. pose proof Hwt as (Hu & Ho & Hl). split; [exact Hu|]. split; [simpl; lia|].
  intros v e He Hue. destruct (Hl v e He Hue) as (-> & H1 & H2 & _ & (j & file & Hj & Hr)). split; [done|]. split; [done|]. split; [done|].
  rewrite <- Hd in Hj. specialize (Hfd i eq_refl e He Hue). rewrite Hj in Hfd. injection Hfd as ->.
  destruct (Hall _ e He) as (_ & i' & file' & Hd' & Hlen & _). rewrite <- Hd, Hj in Hd'. injection Hd' as <- <-.
  destruct (Hfile i file Hj Hlen) as (file' & G1 & G2 & G3). simpl. split; [intros i' [= <-]; by rewrite G1|].
  exists i, file'. split; [done|]. intros p Hp. apply G3; [lia|]. destruct (decide (p < sw_offset w)); [right; apply Hr; lia|left; split; [done|lia]].
Qed.

Lemma staged_bytes w e p : 0 <= sw_offset w -> entry_ok e -> ce_size e = sw_size w -> ce_block_size e = sw_block_size w ->
  0 <= p < ce_size e -> p / ce_block_size e ∈ staged_blocks w -> 0 <= p < sw_offset w.
Proof.
  intros Ho He Hs Hb Hp. unfold staged_blocks. intros Hin%elem_of_seqZ. split; [lia|]. pose proof (eo_block _ He) as Hbs.
  destruct (Z.leb_spec (sw_size w) (sw_offset w)); [lia|]. rewrite <- Hb in Hin.
  apply (div_range 0 _ (ce_block_size e)); [done|by rewrite Z.mod_0_l by lia|]. rewrite Z.div_0_l by lia. lia.
Qed.

(** ** Every event *)

(** The event hands the cache nothing but pieces of its version. *)
Definition truthful (ev : Event) (m : Machine) : Prop :=
  match ev with
  | EvReserve _ v size _ | EvStage _ v size _ => size = zlen (content v)
  | EvClaim v begin data => piece_of v begin data
  | EvStageWrite i data => forall w st, mc_writers m !! i = Some (w, st) -> piece_of (sw_version_id w) (sw_offset w) data
  | _ => True
  end.

Fixpoint truthful_run (evs : list Event) (m : Machine) : Prop :=
  match evs with
  | [] => True
  | ev :: evs => truthful ev m /\ truthful_run evs (cache_step cfg ev m)
  end.

Lemma on_cache_true f m : truth_ok m -> keeps (mc_cache m) (f (mc_cache m)) -> truth_ok (on_cache f m).
Proof. intros Ht Hk. by apply (truth_step _ m Ht), keeps_stays. Qed.

Lemma truth_set_fill m i f r r' : truth_ok m -> mc_fills m !! i = Some (f, r) -> fill_true (mc_cache m) f r' ->
  truth_ok {| mc_cache := mc_cache m; mc_fills := <[i := (f, r')]> (mc_fills m); mc_writers := mc_writers m |}.
Proof.
  intros [He Hf Hw] Hi Hft. split; simpl; [done| |done]. intros g q Hin. apply list_elem_of_lookup in Hin as [k Hk].
  apply list_lookup_insert_Some in Hk as [(-> & [= <- <-] & _)|[_ Hk]]; [done|]. apply Hf. by eapply list_elem_of_lookup_2.
Qed.

Lemma truth_set_writer m i w w' st st' : truth_ok m -> mc_writers m !! i = Some (w, st) -> writer_true (mc_cache m) w' ->
  truth_ok {| mc_cache := mc_cache m; mc_fills := mc_fills m; mc_writers := <[i := (w', st')]> (mc_writers m) |}.
Proof.
  intros [He Hf Hw] Hi Hwt. split; simpl; [done|done|]. intros x sx Hin. apply list_elem_of_lookup in Hin as [k Hk].
  apply list_lookup_insert_Some in Hk as [(-> & [= <- <-] & _)|[_ Hk]]; [done|]. eapply Hw. by eapply list_elem_of_lookup_2.
Qed.

Context (Hblock : 0 < block_bytes cfg).

Lemma true_stage m fs v now w s' : truth_ok m -> cache_ok (mc_cache m) ->
  open_staging cfg fs v (zlen (content v)) now (mc_cache m) = (w, s') ->
  truth_ok {| mc_cache := s'; mc_fills := mc_fills m; mc_writers := mc_writers m ++ match w with Some w => [(w, WIdle)] | None => [] end |}.
Proof.
  intros Ht Hok Hs. pose proof (staging_stays fs v now _ Hok) as Hst. rewrite Hs in Hst. cbn [snd] in Hst.
  destruct (good_open_staging cfg Hblock fs v _ now _ w s' Hok Hs) as [Hg Hw].
  pose proof (truth_step _ m Ht Hst) as [He Hf Hws]. split; simpl in *; [done|done|].
  intros x sx [Hx|Hx]%elem_of_app; [by eapply Hws|]. destruct w as [w|]; [|by apply not_elem_of_nil in Hx].
  apply list_elem_of_singleton in Hx as [= -> ->]. destruct (Hw w eq_refl) as (_ & e & Hve & Hnew & Hweq).
  pose proof (gs_ok _ _ _ Hg) as Hok'. destruct (co_entry _ Hok' v e Hve) as (Heo & Hver & Hlt). rewrite Hweq. split; [done|]. split; [done|].
  intros v' e' He' Hu. simpl in Hu. assert (v' = v) as -> by by apply (co_uids _ Hok' v' v e' e). assert (e' = e) as -> by congruence. simpl.
  split; [done|]. split; [by rewrite Hnew|]. split; [done|]. split; [done|].
  destruct (He v e Hve) as (_ & i & file & Hd & _). exists i, file. split; [done|]. lia.
Qed.

Lemma true_claim m v begin data f s' : truth_ok m -> cache_ok (mc_cache m) -> piece_of v begin data ->
  fill_claim cfg v begin data (mc_cache m) = (f, s') ->
  truth_ok {| mc_cache := s'; mc_fills := mc_fills m ++ match f with Some f => [(f, None)] | None => [] end; mc_writers := mc_writers m |}.
Proof.
  intros Ht Hok Hpc Hcl. apply fill_claim_spec in Hcl as [Hk Hg]; [|done].
  pose proof (truth_step _ m Ht (keeps_stays _ _ Hk)) as [He Hf Hw]. split; simpl in *; [done| |done].
  intros g r [Hin|Hin]%elem_of_app; [by apply Hf|]. destruct f as [f|]; [|by apply not_elem_of_nil in Hin].
  apply list_elem_of_singleton in Hin as [= -> ->]. destruct (Hg f eq_refl) as (H1 & H2 & H3 & e & Hve & Hu & Hp).
  destruct (co_entry _ Hok v e Hve) as (_ & _ & Hlt). destruct Hk as [Hnext Hk]. split; [by rewrite H1, H2, H3|]. split; [lia|].
  intros v' e' He' Hue. destruct (Hk v' e' He') as (e1 & He1 & [C1 C2 C3 C4] & _).
  assert (v' = v) as -> by (apply (co_uids _ Hok v' v e1 e); congruence). assert (e1 = e) as -> by congruence.
  split; [done|]. split; [|done]. rewrite C2, C3, H2, H3. exact Hp.
Qed.

Lemma mark_present_data v uid l s v' : dk_data (lc_disk (mark_present v uid l s)) !! v' = dk_data (lc_disk s) !! v'.
Proof.
  unfold mark_present. destruct (entry_of v s) as [e|]; [|done]. destruct (negb _); [done|]. destruct (negb _); [done|].
  unfold write_map. simpl. by destruct (dk_map _ !! _).
Qed.

Lemma modify_live_disk v uid g s : lc_disk (modify_live v uid g s) = lc_disk s.
Proof. unfold modify_live. destruct (entry_of v s) as [e|]; [|done]. by destruct (bool_decide _). Qed.

(** After its thread a fill does what its mark does. *)
Lemma fill_end_keeps f now s : cache_ok s -> keeps (mark_present (fl_version_id f) (fl_uid f) (fl_blocks f) s) (fill_end f true now s).
Proof.
  intros Hok. assert (forall v, dk_data (lc_disk (fill_end f true now s)) !! v =
    dk_data (lc_disk (mark_present (fl_version_id f) (fl_uid f) (fl_blocks f) s)) !! v) as Hd
    by (intros v; unfold fill_end; by rewrite modify_live_disk, !mark_present_data, modify_live_disk).
  destruct (mark_present_entries (fl_version_id f) (fl_uid f) (fl_blocks f) s) as [Hm Hmu].
  destruct (entry_of (fl_version_id f) s) as [e|] eqn:He; [destruct (decide (ce_uid e = fl_uid f)) as [Hu|Hu]|].
  2, 3: assert (forall g, modify_live (fl_version_id f) (fl_uid f) g s = s) as Hid
          by (intros g; unfold modify_live; rewrite He; try done; by rewrite bool_decide_eq_false_2);
        assert (mark_present (fl_version_id f) (fl_uid f) (fl_blocks f) s = s) as Hmk
          by (unfold mark_present; rewrite He; try done; by rewrite bool_decide_eq_false_2);
        unfold fill_end; rewrite Hid, Hmk, Hid; apply kept_files_refl.
  destruct (co_entry _ Hok _ e He) as (_ & Hver & _). destruct (fill_end_entries f now s e He Hu Hver) as [Hent Huid].
  rewrite bool_decide_eq_true_2 in Hm by done. cbn [andb] in Hm. split; [rewrite Hmu, Huid; simpl; lia|].
  intros v e'. unfold entry_of. rewrite Hent, Hm, Hd. simpl. rewrite Hver. destruct (decide (v = fl_version_id f)) as [->|Hne].
  - rewrite Dict.get_set_eq. intros [= <-]. exists (mark_blocks (fl_blocks f) e).
    destruct (nonempty (absent_blocks e (fl_blocks f))) eqn:Hn; [rewrite Dict.get_set_eq; by split|].
    rewrite (mark_nothing _ _ Hn). split; [exact He|]. split; [|done]. split; try done. unfold filled. simpl.
    change (set_bits (absent_blocks e (fl_blocks f)) (ce_present e) = ce_present e). by rewrite (proj1 (nonempty_false _) Hn).
  - rewrite Dict.get_set_ne by done. intros He'. exists e'. destruct (nonempty _); [rewrite Dict.get_set_ne by done|]; by split.
Qed.

Lemma true_fill_end m i f ok now : truth_ok m -> mach_ok cfg m -> mc_fills m !! i = Some (f, Some ok) ->
  truth_ok {| mc_cache := fill_end f ok now (mc_cache m); mc_fills := delete i (mc_fills m); mc_writers := mc_writers m |}.
Proof.
  intros Ht Hm Hi. pose proof (mo_cache _ _ Hm) as Hok. assert ((f, Some ok) ∈ mc_fills m) as Hin by by eapply list_elem_of_lookup_2.
  assert (truth_ok (with_cache (fill_end f ok now (mc_cache m)) m)) as [He Hf Hw].
  2: { split; simpl in *; [done| |done]. intros g r Hg. by eapply Hf, elem_delete. }
  destruct ok.
  - assert (truth_ok (with_cache (mark_present (fl_version_id f) (fl_uid f) (fl_blocks f) (mc_cache m)) m)) as Hmk.
    { apply truth_mark; [done|done|]. intros e Hve Hu. destruct (mo_fills _ _ Hm f _ Hin) as (_ & _ & Hb).
      destruct (Hb _ e Hve Hu) as (_ & Hbl & _). split; [done|]. destruct (to_fills _ Ht f _ Hin) as (_ & _ & Hf).
      destruct (Hf _ e Hve Hu) as (_ & Hp & Hr). exists (fl_begin f), (fl_begin f + zlen (fl_data f)). split; [by apply Hr|exact Hp]. }
    exact (truth_step _ _ Hmk (keeps_stays _ _ (fill_end_keeps f now _ Hok))).
  - apply truth_step; [done|]. apply keeps_stays. unfold fill_end. eapply kept_files_trans; [|apply keeps_remove].
    apply keeps_modify; [by intros e|]. intros e Hve. by apply (co_entry _ Hok _ e).
Qed.

Lemma exec_true ev m : mach_ok cfg m -> truthful ev m -> truth_ok m -> truth_ok (cache_step cfg ev m).
Proof.
  intros Hm Hev Ht. pose proof (mo_cache _ _ Hm) as Hok.
  destruct ev as [fs v size now|fs v size now|v begin data|i|i now|i data|i|i|i|v now|v|v|vs| |q now|v begin last now]; cbn [cache_step]; simpl in Hev.
  - subst. apply (truth_step _ m Ht). by apply reserve_stays.
  - subst. destruct (open_staging _ _ _ _ _ _) as [w s'] eqn:Hs. by eapply true_stage.
  - destruct (fill_claim _ _ _ _ _) as [f s'] eqn:Hf. by eapply true_claim.
  - destruct (mc_fills m !! i) as [[f [r|]]|] eqn:Hi; try done. assert ((f, None) ∈ mc_fills m) as Hin by by eapply list_elem_of_lookup_2.
    destruct (fill_write f (mc_cache m)) as [ok s'] eqn:Hw. pose proof (to_fills _ Ht f _ Hin) as (Hpc & _).
    destruct (fill_write_stays f _ ok s' (to_entries _ Ht) Hpc Hw) as [Hst Hr]. pose proof (truth_step _ m Ht Hst) as Ht'.
    apply (truth_set_fill (with_cache s' m) i f None (Some ok) Ht' Hi). destruct (to_fills _ Ht' f _ Hin) as (_ & Hu & Hf).
    split; [done|]. split; [done|]. intros v e He Hue. destruct (Hf v e He Hue) as (-> & Hp & _). split; [done|]. split; [done|].
    intros [= ->]. by eapply Hr.
  - destruct (mc_fills m !! i) as [[f [r|]]|] eqn:Hi; try done. by apply true_fill_end.
  - destruct (mc_writers m !! i) as [[w []]|] eqn:Hi; try done. destruct (sw_failed w || _); [done|].
    destruct (write_sync w data (mc_cache m)) as [[ok w'] s'] eqn:Hs. specialize (Hev w _ eq_refl).
    apply write_sync_stays in Hs as [Hst Hw]; [|apply Ht|done|eapply (to_writers _ Ht); by eapply list_elem_of_lookup_2].
    by apply (truth_set_writer (with_cache s' m) i w w' WIdle _ (truth_step _ m Ht Hst) Hi).
  - destruct (mc_writers m !! i) as [[w [|[]|]]|] eqn:Hi; try done. assert ((w, WWrote true) ∈ mc_writers m) as Hin by by eapply list_elem_of_lookup_2.
    assert (truth_ok (with_cache (writer_mark w (mc_cache m)) m)) as Hmk.
    { apply truth_mark; [done|done|]. intros e Hve Hu. destruct (mo_writers _ _ Hm w _ Hin) as (_ & Ho & Hb & Hl).
      destruct (Hl _ e Hve Hu) as (_ & H1 & H2 & H3 & _). destruct (to_writers _ Ht w _ Hin) as (_ & _ & Hw).
      destruct (Hw _ e Hve Hu) as (_ & _ & _ & _ & Hr). pose proof (proj1 (co_entry _ Hok _ e Hve)) as Heo.
      split; [by eapply staged_valid|]. exists 0, (sw_offset w). split; [done|]. intros p. by apply staged_bytes. }
    apply (truth_set_writer _ i w w _ _ Hmk Hi). eapply (to_writers _ Hmk). exact Hin.
  - destruct (mc_writers m !! i) as [[w [| |]]|] eqn:Hi; try done. assert ((w, WClosing) ∈ mc_writers m) as Hin by by eapply list_elem_of_lookup_2.
    assert (keeps (mc_cache m) (writer_finish w (mc_cache m)).2) as Hk.
    { unfold writer_finish. cbn [snd]. eapply kept_files_trans; [|apply keeps_save]. apply keeps_modify; [by intros e|].
      intros e Hve. by apply (co_entry _ Hok _ e). }
    pose proof (truth_step _ m Ht (keeps_stays _ _ Hk)) as Ht'. apply (truth_set_writer (with_cache _ m) i w _ _ _ Ht' Hi).
    destruct (to_writers _ Ht' w _ Hin) as (Hu & Ho & Hl). split; [exact Hu|]. split; [done|]. intros v e He Hue.
    destruct (Hl v e He Hue) as (? & ? & ? & _ & ?). done.
  - destruct (mc_writers m !! i) as [[w st]|] eqn:Hi; try done. assert ((w, st) ∈ mc_writers m) as Hin by by eapply list_elem_of_lookup_2.
    assert (keeps (mc_cache m) (writer_abort w (mc_cache m)).2) as Hk.
    { unfold writer_abort. cbn [snd]. eapply kept_files_trans; [|apply keeps_remove]. apply keeps_modify; [by intros e|].
      intros e Hve. by apply (co_entry _ Hok _ e). }
    pose proof (truth_step _ m Ht (keeps_stays _ _ Hk)) as Ht'. apply (truth_set_writer (with_cache _ m) i w _ _ _ Ht' Hi).
    destruct (to_writers _ Ht' w _ Hin) as (Hu & Ho & Hl). split; [exact Hu|]. split; [done|]. intros v e He Hue.
    destruct (Hl v e He Hue) as (? & ? & ? & _ & ?). done.
  - apply on_cache_true; [done|]. by apply keeps_pin.
  - apply on_cache_true; [done|]. by apply keeps_unpin.
  - apply on_cache_true; [done|]. by apply keeps_release.
  - apply on_cache_true; [done|]. by apply keeps_remove_many.
  - apply on_cache_true; [done|]. by apply keeps_remove_many.
  - apply on_cache_true; [done|]. by apply keeps_sweep.
  - apply on_cache_true; [done|]. by apply keeps_read.
Qed.

Lemma truthful_ok evs m : truthful_run evs m -> Forall event_ok evs.
Proof.
  revert m. induction evs as [|ev evs IH]; intros m; [constructor|]. intros [Hev Hrun]. constructor; [|by eapply IH].
  destruct ev; try done. apply Hev.
Qed.

Lemma run_true evs m : mach_ok cfg m -> truth_ok m -> truthful_run evs m ->
  truth_ok (run cfg evs m).
Proof.
  unfold run. revert m. induction evs as [|ev evs IH]; intros m Hm Ht Hev; simpl; [done|]. destruct Hev as [H1 H2].
  apply IH; [|by apply exec_true|done]. apply exec_ok; [done| |done]. destruct ev; try done. apply H1.
Qed.

Lemma start_true d : truth_ok (start d).
Proof. split; simpl; [done|intros f r Hin; by apply not_elem_of_nil in Hin|intros w st Hin; by apply not_elem_of_nil in Hin]. Qed.

End Content.

(** An entry that has a range has every block of it. *)
Lemma has_range_present e begin last p : entry_ok e -> ce_size e <> 0 -> entry_has_range e begin last = true -> begin <= p <= last ->
  0 <= p < ce_size e /\ present_at e (p / ce_block_size e) = true.
Proof.
  intros He Hs0. unfold entry_has_range. rewrite (proj2 (Z.eqb_neq _ _)) by done.
  destruct ((begin <? 0) || _ || _) eqn:Hc; [done|].
  apply orb_false_iff in Hc as [[Hb%Z.ltb_ge Hl%Z.leb_gt]%orb_false_iff Hbl%Z.ltb_ge]. intros Hall Hp. split; [lia|].
  pose proof (eo_block _ He) as Hbs. pose proof (block_of_byte e He p ltac:(lia)) as Hpb.
  assert (begin / ce_block_size e <= p / ce_block_size e <= last / ce_block_size e) as Hblk by (split; apply Z.div_le_mono; lia).
  assert (0 <= begin / ce_block_size e) as H0 by (apply Z.div_pos; lia).
  rewrite forallb_forall in Hall. unfold present_at, znth. rewrite (proj2 (Z.ltb_ge _ _)) by lia.
  destruct (ce_present e !! Z.to_nat (p / ce_block_size e)) as [x|] eqn:Hx; simpl.
  - apply Hall. apply list_elem_of_In, list_elem_of_lookup. exists (Z.to_nat (p / ce_block_size e - begin / ce_block_size e)).
    unfold zslice. rewrite lookup_take_lt by lia. rewrite lookup_drop.
    by replace (Z.to_nat (begin / ce_block_size e) + _)%nat with (Z.to_nat (p / ce_block_size e)) by lia.
  - apply lookup_ge_None in Hx. unfold blocks, zlen in Hpb. lia.
Qed.

(** C29: the cache never serves a wrong byte for an entry it still has.
    Whatever fills, staged uploads, evictions, sweeps and reads ran, in any
    interleaving and with any disk failures, as long as what was handed in were
    pieces of their versions: a chunk read inside a range the entry answers for
    is exactly that piece of the version, or the read fails with an
    [OSError]. *)
Theorem cached_bytes_true cfg content d evs v e begin last offset length now :
  0 < block_bytes cfg -> 0 <= max_size_bytes cfg -> 0 <= cf_max_files cfg -> truthful_run content cfg evs (start d) ->
  let s := mc_cache (run cfg evs (start d)) in
  entry_of v s = Some e -> read_start v begin last now s = (Ok last, put_entry (with_last_access now e) s) ->
  0 <= begin <= offset -> 0 < length -> offset + length <= last + 1 ->
  (read_chunk v offset length s).1 = Ok (zslice offset (offset + length) (content v)) \/
  (read_chunk v offset length s).1 = Raise OSError.
Proof.
  intros Hb H1 H2 Htr s He Hrs Ho Hlen Hend. unfold read_start in Hrs. rewrite He in Hrs.
  pose proof (run_ok cfg Hb evs _ (truthful_ok content cfg evs _ Htr) (start_ok cfg d H1 H2)) as Hm.
  pose proof (run_true content cfg Hb evs _ (start_ok cfg d H1 H2) (start_true content d) Htr) as Ht.
  destruct (to_entries _ _ Ht v e He) as (Hsz & i & file & Hd & Hl & Hp).
  set (l := if (last <? 0) || _ then _ else _) in Hrs. destruct (entry_has_range e begin l) eqn:Hr; cbn [negb] in Hrs; [|done].
  assert (l = last) as Hll by congruence. rewrite Hll in Hr.
  destruct (decide (ce_size e = 0)) as [Hz|Hz].
  { exfalso. unfold l in Hll. rewrite Hz in Hll. destruct ((last <? 0) || (0 <=? last)) eqn:Hx; [lia|].
    apply orb_false_iff in Hx as [Hx1%Z.ltb_ge Hx2%Z.leb_gt]. lia. }
  destruct (co_entry _ (mo_cache _ _ Hm) v e He) as (Heo & _).
  assert (zslice offset (offset + length) file = zslice offset (offset + length) (content v)) as Hslice.
  { apply zslice_ext; [lia|done|]. intros p Hpp. destruct (has_range_present e begin last p Heo Hz Hr) as [? Hpres]; [lia|]. by apply Hp. }
  unfold read_chunk. destruct (os_call (lc_disk s)) as [x d'] eqn:Hos. assert (dk_data d' = dk_data (lc_disk s)) as -> by (by injection Hos as _ <-).
  fold s in Hd. destruct x as [k|]; [by right|]. rewrite Hd, Hslice. destruct (zslice _ _ (content v)) as [|b rest]; [by right|by left].
Qed.

(** ** One version, cached, read, evicted and opened again *)

Definition cached_entry : CacheEntry :=
  {| ce_uid := 0; ce_version_id := "v"; ce_fs := "fs"; ce_size := 3; ce_block_size := 65536; ce_present := [true];
     ce_last_access := 1; ce_pins := 0; ce_writing := false; ce_inflight := 0; ce_pinned_at := 0 |}.

Lemma cached_bytes_true_witness :
  let s := mc_cache (run one_cache cache_abc (start good_disk)) in
  entry_of "v" s = Some cached_entry /\
  ((read_chunk "v" 1 2 s).1 = Ok (zslice 1 (1 + 2) abc) \/ (read_chunk "v" 1 2 s).1 = Raise OSError).
Proof.
  intros s. split; [vm_compute; reflexivity|].
  apply (cached_bytes_true one_cache (fun _ => abc) good_disk cache_abc "v" cached_entry 0 2 1 2 7); try (vm_compute; reflexivity); try lia;
    try (vm_compute; discriminate).
  split; [vm_compute; reflexivity|]. split; [split; [lia|split; [vm_compute; discriminate|vm_compute; reflexivity]]|].
  split; [exact I|]. split; [exact I|exact I].
Defined.

(** A read checks the entry once and then opens the file by its path for every
    chunk.  When the entry is evicted and the version reserved again between
    the two, the file is the new, sparse one: the read succeeds with zeros. *)
Theorem stale_read_returns_zeros :
  let s := mc_cache (run one_cache cache_abc (start good_disk)) in
  let s' := mc_cache (run one_cache (cache_abc ++ [EvRead "v" 0 2 2; EvEvictUnpinned; EvReserve "fs" "v" 3 3]) (start good_disk)) in
  (read_start "v" 0 2 2 s).1 = Ok 2 /\ (read_chunk "v" 0 3 s').1 = Ok [Byte.x00; Byte.x00; Byte.x00].
Proof. split; vm_compute; reflexivity. Qed.
