(* ===== verification/CachedReadProps.v ===== *)
(** * Reads and uploads with the local cache in front of the stores
      ([StoreFileContentRepository] of
      [tgdcfs/core/repository/impl/file_content/__init__.py] with a cache)

    The state is the stores and the cache.  One read or upload runs on its own
    here; the interleaving of several is [LocalCacheProps].  The stores and
    the cache do not see one another, so a piece of a download can be taken
    before the blocks of the piece in front of it are stored. *)

From S2P Require Import Prelude Errors Messages FileVersion Contents Stores FileContent FileContentProps CacheEntry LocalCache LocalCacheProps CacheContent.

Open Scope Z_scope.
Open Scope py_scope.

(** ** Reading from the cache ([LocalCache.read]) *)

(** [while offset <= end]; every chunk has a byte at least. *)
Fixpoint cache_read_loop (fuel : nat) (v : string) (offset last : Z) (s : LocalCache) : stream * LocalCache :=
  if last <? offset then (empty_stream, s)
  else
    match fuel with
    | O => ({| pieces := []; fault := Some OutOfFuel |}, s)
    | S fuel =>
        match read_chunk v offset (Z.min READ_CHUNK (last - offset + 1)) s with
        | (Raise ex, s) => ({| pieces := []; fault := Some ex |}, s)
        | (Ok chunk, s) =>
            let '(rest, s) := cache_read_loop fuel v (offset + zlen chunk) last s in
            ({| pieces := chunk :: pieces rest; fault := fault rest |}, s)
        end
    end.

Definition cache_read (v : string) (begin last now : Z) (s : LocalCache) : stream * LocalCache :=
  match read_start v begin last now s with
  | (Raise ex, s) => ({| pieces := []; fault := Some ex |}, s)
  | (Ok last, s) => cache_read_loop (Z.to_nat (last - begin + 1)) v begin last s
  end.

Section CachedRead.
  Context {W : Type} `{Stores W} (cc : ContentConfig) (cfg : CacheConfig).
  Context (multi : list StoreView -> Z -> Z -> Z -> gen W).

(** ** Filling the cache from a download ([_fetch_run]) *)

(** [while len(block) >= block_size]: the whole blocks go to the cache. *)
Fixpoint store_blocks (fuel : nat) (v : string) (block_size now : Z) (block : bytes) (block_begin : Z) (s : LocalCache)
  : bytes * Z * LocalCache :=
  match fuel with
  | O => (block, block_begin, s)
  | S fuel =>
      if zlen block <? block_size then (block, block_begin, s)
      else store_blocks fuel v block_size now (zdrop block_size block) (block_begin + block_size)
             (write_blocks cfg v block_begin (ztake block_size block) now s)
  end.

(** The part of a chunk at [position] inside [[begin, last]]. *)
Definition requested (begin last position : Z) (chunk : bytes) : list bytes :=
  let lo := Z.max position begin in
  let hi := Z.min (position + zlen chunk - 1) last in
  if lo <=? hi then [zslice (lo - position) (hi - position + 1) chunk] else [].

Fixpoint fetch_loop (v : string) (block_size begin last now : Z) (chunks : list bytes) (block : bytes)
    (block_begin position : Z) (s : LocalCache) : list bytes * bytes * Z * Z * LocalCache :=
  match chunks with
  | [] => ([], block, block_begin, position, s)
  | chunk :: chunks =>
      let out := requested begin last position chunk in
      let block := block ++ chunk in
      let '(block, block_begin, s) := store_blocks (length block) v block_size now block block_begin s in
      let '(outs, block, block_begin, position, s) :=
        fetch_loop v block_size begin last now chunks block block_begin (position + zlen chunk) s in
      (out ++ outs, block, block_begin, position, s)
  end.

Definition fetch_run (v : string) (block_size : Z) (ls : list Layout) (run_begin run_end begin last : Z)
    (lc : Live W * LocalCache) : stream * (Live W * LocalCache) :=
  let '(l, c) := lc in
  let '(down, l) := stream_layouts cc multi ls run_begin run_end l in
  let t := st_now (lv_world l) in
  let '(outs, block, block_begin, position, c) :=
    fetch_loop v block_size begin last t (pieces down) [] run_begin run_begin c in
  match fault down with
  | Some ex => ({| pieces := outs; fault := Some ex |}, (l, c))
  | None =>
      let c := if nonempty block && (run_end <? position) then write_blocks cfg v block_begin block t c else c in
      ({| pieces := outs; fault := None |}, (l, c))
  end.

(** ** [_stream_through_cache] *)

Definition cached_part (v : string) (from last : Z) (lc : Live W * LocalCache) : stream * (Live W * LocalCache) :=
  let '(s, c) := cache_read v from last (st_now (lv_world lc.1)) lc.2 in (s, (lc.1, c)).

(** The runs that were missing when the stream began. *)
Fixpoint serve_runs (v : string) (block_size : Z) (ls : list Layout) (runs : list (Z * Z)) (begin last position : Z)
    (lc : Live W * LocalCache) : stream * (Live W * LocalCache) :=
  match runs with
  | [] => if position <=? last then cached_part v position last lc else (empty_stream, lc)
  | (run_begin, run_end) :: runs =>
      let '(head, lc) := if position <? run_begin then cached_part v position (run_begin - 1) lc else (empty_stream, lc) in
      match fault head with
      | Some _ => (head, lc)
      | None =>
          let '(run, lc) := fetch_run v block_size ls run_begin run_end begin last lc in
          match fault run with
          | Some _ => (then_stream head run, lc)
          | None =>
              let '(rest, lc) := serve_runs v block_size ls runs begin last (Z.min run_end last + 1) lc in
              (then_stream head (then_stream run rest), lc)
          end
      end
  end.

Definition stream_through_cache (scope : string) (fv : TGFSFileVersion) (ls : list Layout) (begin last : Z) (admit_ : bool)
    (lc : Live W * LocalCache) : stream * (Live W * LocalCache) :=
  let '(l, c) := lc in
  let size := match ls with [] => 0 | ly :: _ => layout_size ly end in
  let '(entry, c) :=
    match entry_of (fv_id fv) c with
    | Some e => (Some e, c)
    | None => if admit_ then reserve cfg scope (fv_id fv) size (st_now (lv_world l)) c else (None, c)
    end in
  match entry with
  | None => let '(s, l) := stream_layouts cc multi ls begin last l in (s, (l, c))
  | Some e => serve_runs (fv_id fv) (ce_block_size e) ls (missing_runs e begin last) begin last begin (l, c)
  end.

(** ** [get] *)

Definition get_pending (fv : TGFSFileVersion) (begin last : Z) (lc : Live W * LocalCache) : exc stream * (Live W * LocalCache) :=
  if complete (fv_id fv) lc.2 then
    if fv_size fv <=? 0 then (Ok empty_stream, lc)
    else
      let last := if last <? 0 then fv_size fv - 1 else Z.min last (fv_size fv - 1) in
      if (begin <? 0) || (last <? begin) then (Raise (TechnicalError "Invalid range"), lc)
      else let '(s, lc) := cached_part (fv_id fv) begin last lc in (Ok s, lc)
  else (Raise (TechnicalError "still being distributed"), lc).

Definition cached_get (scope : string) (fv : TGFSFileVersion) (begin last : Z) (admit_ : bool) (lc : Live W * LocalCache)
  : exc stream * (Live W * LocalCache) :=
  if pending fv then get_pending fv begin last lc
  else
    match layouts cc fv (primary_dead lc.1) with
    | [] =>
        if fv_size fv <=? 0 then (Ok empty_stream, lc)
        else (Raise (TechnicalError "No readable copy"), lc)
    | ly :: rest =>
        match map_range (replicate (length (ly_part_sizes ly)) 0) (ly_part_sizes ly) (layout_size ly) begin last with
        | Raise ex => (Raise ex, lc)
        | Ok _ =>
            let size := layout_size ly in
            let last' := if (last <? 0) || (size <=? last) then size - 1 else last in
            if cf_keep_for_reads cfg && cacheable fv && negb (bool_decide (fv_id fv = EmptyString))
            then let '(s, lc) := stream_through_cache scope fv (ly :: rest) begin last' admit_ lc in (Ok s, lc)
            else let '(s, l) := stream_layouts cc multi (ly :: rest) begin last lc.1 in (Ok s, (l, lc.2))
        end
    end.

End CachedRead.

(** ** A read through the cache is the read of the stores

    Whatever blocks the cache holds, a read of a range yields the bytes of the
    version in order; the blocks it fetched are stored on the way and the
    cache keeps telling the truth. *)

(** ** Streams that owe the caller [want] *)

Definition yields (want : bytes) (s : stream) : Prop :=
  match fault s with
  | None => stream_bytes s = want
  | Some _ => exists t, stream_bytes s ++ t = want
  end.

Lemma yields_then a b wa wb : fault a = None -> yields wa a -> yields wb b -> yields (wa ++ wb) (then_stream a b).
Proof.
  unfold yields, then_stream, stream_bytes. simpl. intros Ha. rewrite Ha, concat_app. intros <-.
  destruct (fault b); [intros (t & <-); exists t; by rewrite <- app_assoc|by intros <-].
Qed.

Lemma yields_stop a wa wb : is_Some (fault a) -> yields wa a -> yields (wa ++ wb) a.
Proof. unfold yields. intros [x ->] (t & <-). exists (t ++ wb). by rewrite <- app_assoc. Qed.

Lemma yields_empty : yields [] empty_stream.
Proof. done. Qed.

(** ** The operating system goes on as it did *)

Definition sound (s : LocalCache) : Prop := forall n, dk_os (lc_disk s) n = None.

Definition same_os (s s' : LocalCache) : Prop := dk_os (lc_disk s') = dk_os (lc_disk s).

Lemma same_os_trans s1 s2 s3 : same_os s1 s2 -> same_os s2 s3 -> same_os s1 s3.
Proof. unfold same_os. congruence. Qed.

Lemma sound_same s s' : same_os s s' -> sound s -> sound s'.
Proof. unfold same_os, sound. by intros ->. Qed.

Lemma os_save s : same_os s (save_index s).
Proof. unfold same_os, save_index. simpl. by destruct (dk_os _ _). Qed.

Lemma os_drop v s : same_os s (drop_entry v s).2.
Proof.
  unfold same_os, drop_entry. destruct (entry_of v s); [|done]. unfold unlink. simpl.
  destruct (dk_os (lc_disk s) _); simpl; by destruct (dk_os (lc_disk s) _).
Qed.

Lemma os_remove v s : same_os s (remove v s).
Proof.
  unfold remove. pose proof (os_drop v s) as Hd. destruct (drop_entry v s) as [[] s1]; [|exact Hd].
  eapply same_os_trans; [exact Hd|apply os_save].
Qed.

Lemma os_put e s : same_os s (put_entry e s).
Proof. done. Qed.

Lemma os_modify v uid g s : same_os s (modify_live v uid g s).
Proof. unfold same_os. by rewrite modify_live_disk. Qed.

Lemma os_mark v uid l s : same_os s (mark_present v uid l s).
Proof.
  unfold same_os, mark_present. destruct (entry_of v s) as [e|]; [|done]. destruct (negb _); [done|]. destruct (negb _); [done|].
  unfold write_map. simpl. by destruct (dk_map _ !! _).
Qed.

Lemma os_make_room cfg size new keep s : same_os s (make_room cfg size new keep s).2.
Proof.
  unfold make_room. assert (forall victims used any s, same_os s (make_room_loop cfg size new victims used any s).2) as Hall.
  { clear s. induction victims as [|e victims IH]; intros used any s; cbn [make_room_loop].
    all: set (p := if min_free_bytes cfg =? 0 then _ else _); assert (same_os s p.2) as Hp by (unfold p; by destruct (min_free_bytes cfg =? 0));
      destruct p as [free s1]; destruct (negb _ && negb _ && _); try exact Hp.
    eapply same_os_trans; [exact Hp|]. eapply same_os_trans; [apply (os_drop (ce_version_id e))|apply IH]. }
  specialize (Hall (rev (lru_order keep s)) (used_bytes s) false s).
  destruct (make_room_loop _ _ _ _ _ _ _) as [[ok any] s1]. simpl in *. destruct any; [|exact Hall].
  eapply same_os_trans; [exact Hall|apply os_save].
Qed.

Lemma os_pwrite v i offset data d : dk_os (pwrite_file v i offset data d).2 = dk_os d.
Proof. unfold pwrite_file. simpl. destruct (dk_data d !! v) as [[j c]|]; [|done]. by destruct (bool_decide _). Qed.

Lemma os_fill_write f s : same_os s (fill_write f s).2.
Proof.
  unfold same_os, fill_write. destruct (os_call (lc_disk s)) as [x d] eqn:Ho. assert (dk_os d = dk_os (lc_disk s)) as <- by (by injection Ho as _ <-).
  destruct x; [done|]. destruct (dk_data d !! fl_version_id f) as [[i c]|]; [|done].
  pose proof (os_pwrite (fl_version_id f) i (fl_begin f) (fl_data f) d) as Hp. by destruct (pwrite_file _ _ _ _ d) as [[ok n] d'].
Qed.

Lemma os_fill_end f ok now s : same_os s (fill_end f ok now s).
Proof.
  unfold fill_end. destruct ok.
  - eapply same_os_trans; [apply os_modify|]. eapply same_os_trans; [apply os_mark|apply os_modify].
  - eapply same_os_trans; [apply os_modify|apply os_remove].
Qed.

Lemma os_claim cfg v begin data s : same_os s (fill_claim cfg v begin data s).2.
Proof.
  unfold fill_claim. destruct (entry_of v s) as [e|]; [|done]. destruct (ce_writing e || _); [done|]. destruct (negb _ || _); [done|].
  destruct (negb _); [done|]. set (added := zsum _). set (r := if added =? 0 then _ else _).
  assert (same_os s r.2) as Hr by (unfold r; destruct (added =? 0); [done|apply os_make_room]).
  destruct r as [[] s1]; [|exact Hr]. eapply same_os_trans; [exact Hr|apply os_modify].
Qed.

Lemma os_write_blocks cfg v begin data now s : same_os s (write_blocks cfg v begin data now s).
Proof.
  unfold write_blocks. pose proof (os_claim cfg v begin data s) as Hc. destruct (fill_claim cfg v begin data s) as [[f|] s1]; [|exact Hc].
  pose proof (os_fill_write f s1) as Hw. destruct (fill_write f s1) as [ok s2]. eapply same_os_trans; [exact Hc|].
  eapply same_os_trans; [exact Hw|apply os_fill_end].
Qed.

(** ** A cache nobody else is using *)

Definition idle (s : LocalCache) : Machine := {| mc_cache := s; mc_fills := []; mc_writers := [] |}.

Section Steady.
  Context (content : string -> bytes) (cfg : CacheConfig) (Hblock : 0 < block_bytes cfg).

Definition steady (s : LocalCache) : Prop := mach_ok cfg (idle s) /\ truth_ok content (idle s).

Lemma steady_cache s : steady s -> cache_ok s.
Proof. intros [Hm _]. exact (mo_cache _ _ Hm). Qed.

Lemma steady_step s s' : steady s -> good_step cfg s s' -> stays content s s' -> steady s'.
Proof. intros [Hm Ht] Hg Hs. split; [by apply (mach_step cfg s' (idle s))|by apply (truth_step content s' (idle s))]. Qed.

(** The entry of [v] is gone, or it is the same object with no fewer blocks. *)
Definition extends (e e' : CacheEntry) : Prop :=
  ce_uid e' = ce_uid e /\ ce_size e' = ce_size e /\ ce_block_size e' = ce_block_size e /\
  forall i, present_at e i = true -> present_at e' i = true.

Definition gone_or_grown (v : string) (s s' : LocalCache) : Prop :=
  forall e', entry_of v s' = Some e' -> exists e, entry_of v s = Some e /\ extends e e'.

Lemma entry_grown_refl' v s : gone_or_grown v s s.
Proof. intros e He. exists e. split; [done|]. by split_and!. Qed.

Lemma gone_or_grown_trans v s1 s2 s3 : gone_or_grown v s1 s2 -> gone_or_grown v s2 s3 -> gone_or_grown v s1 s3.
Proof.
  intros H1 H2 e3 He3. destruct (H2 e3 He3) as (e2 & He2 & A1 & A2 & A3 & A4). destruct (H1 e2 He2) as (e1 & He1 & B1 & B2 & B3 & B4).
  exists e1. split; [done|]. split_and!; try congruence. auto.
Qed.

Lemma keeps_grown v s s' : keeps s s' -> gone_or_grown v s s'.
Proof.
  intros [_ E] e' He'. destruct (E v e' He') as (e & He & [C1 C2 C3 C4] & _). exists e. split; [done|].
  split_and!; try done. intros i. unfold present_at. by rewrite C4.
Qed.

Lemma mark_grown v uid l s : cache_ok s -> (forall e, entry_of v s = Some e -> ce_uid e = uid -> Forall (fun i => 0 <= i) l) ->
  gone_or_grown v s (mark_present v uid l s).
Proof.
  intros Hok Hl e'. destruct (mark_present_entries v uid l s) as [Hm _]. unfold entry_of at 1. rewrite Hm.
  destruct (entry_of v s) as [e|] eqn:He; [|unfold entry_of in He; congruence].
  destruct (bool_decide (ce_uid e = uid) && nonempty (absent_blocks e l)) eqn:Hc.
  - apply andb_prop in Hc as [Hu%bool_decide_eq_true _]. destruct (co_entry _ Hok v e He) as (_ & Hver & _). rewrite Hver, Dict.get_set_eq.
    intros [= <-]. exists e. split; [done|]. destruct (mark_blocks_grown l e (Hl e eq_refl Hu)) as [G1 G2 G3 G4 G5 G6 G7 G8].
    split_and!; done.
  - unfold entry_of in He. intros He'. exists e. split; [congruence|]. assert (e' = e) as -> by congruence. by split_and!.
Qed.

(** ** Storing blocks *)

Lemma write_blocks_run v begin data now s :
  run cfg [EvClaim v begin data; EvFillWrite 0; EvFillEnd 0 now] (idle s) = idle (write_blocks cfg v begin data now s).
Proof.
  unfold run, write_blocks, idle. cbn [foldl cache_step mc_cache mc_fills mc_writers].
  destruct (fill_claim cfg v begin data s) as [[f|] s1]; [|done]. cbn [app list_lookup lookup mc_fills mc_cache mc_writers].
  destruct (fill_write f s1) as [ok s2]. done.
Qed.

Lemma write_blocks_steady v begin data now s : piece_of content v begin data -> steady s -> steady (write_blocks cfg v begin data now s).
Proof.
  intros Hp [Hm Ht]. unfold steady. rewrite <- write_blocks_run. split.
  - apply run_ok; [done| |done]. repeat constructor. simpl. apply Hp.
  - apply run_true; [done|done|done|]. by split.
Qed.

Lemma write_blocks_grown v begin data now s : 0 <= begin -> steady s -> gone_or_grown v s (write_blocks cfg v begin data now s).
Proof.
  intros Hb Hs. pose proof (steady_cache _ Hs) as Hok. unfold write_blocks.
  destruct (fill_claim cfg v begin data s) as [f s1] eqn:Hcl.
  assert (mach_ok cfg {| mc_cache := s1; mc_fills := match f with Some f => [(f, None)] | None => [] end; mc_writers := [] |}) as Hm1
    by (destruct Hs as [Hm _]; exact (claim_step cfg v begin data (idle s) f s1 Hm Hb Hcl)).
  destruct (fill_claim_spec cfg v begin data s f s1 Hok Hcl) as [Hk Hf]. pose proof (keeps_grown v _ _ Hk) as Hg.
  destruct f as [f|]; [|exact Hg]. destruct (Hf f eq_refl) as (Hv & _). pose proof (mo_cache _ _ Hm1) as Hok1. simpl in Hok1.
  destruct (fill_write_entries f s1) as [He Hu]. destruct (fill_write f s1) as [ok s2]. simpl in He, Hu.
  eapply gone_or_grown_trans; [exact Hg|]. assert (gone_or_grown v s1 s2) as Hg2
    by (intros e He'; exists e; split; [unfold entry_of in *; congruence|by split_and!]).
  assert (cache_ok s2) as Hok2 by exact (gs_ok _ _ _ (good_same cfg _ _ He Hu Hok1)).
  eapply gone_or_grown_trans; [exact Hg2|]. destruct ok.
  - eapply gone_or_grown_trans; [|apply keeps_grown, fill_end_keeps; exact Hok2]. rewrite Hv. apply mark_grown; [exact Hok2|].
    intros e Hve Hue. destruct (mo_fills _ _ Hm1 f None ltac:(left)) as (_ & _ & Hl). destruct (Hl v e) as (_ & Hb' & _);
      [simpl; unfold entry_of in *; congruence|done|]. eapply Forall_impl; [exact Hb'|]. simpl. lia.
  - apply keeps_grown. unfold fill_end. eapply kept_files_trans; [|apply keeps_remove]. apply keeps_modify; [by intros e|].
    intros e Hve. by apply (co_entry _ Hok2 _ e).
Qed.

(** On a disk that does not fail the entry stays. *)
Lemma claim_alive v begin data s e : cache_ok s -> entry_of v s = Some e ->
  exists e', entry_of v (fill_claim cfg v begin data s).2 = Some e' /\ ce_uid e' = ce_uid e.
Proof.
  intros Hok He. unfold fill_claim. rewrite He. destruct (ce_writing e || _); [by exists e|]. destruct (negb _ || _); [by exists e|].
  destruct (negb _); [by exists e|]. set (added := zsum _). set (r := if added =? 0 then _ else _).
  assert (entry_of v r.2 = Some e) as Hr.
  { unfold r. destruct (added =? 0); [done|]. destruct (make_room cfg added false (Some (ce_uid e)) s) as [ok s1] eqn:Hm.
    apply make_room_spec in Hm as [Hsh _]; [|done]. simpl. destruct Hsh as [_ E _ _ _]. destruct (E v) as [->|[_ (e' & He' & _ & Hk)]]; [done|].
    congruence. }
  destruct r as [[] s1]; simpl in Hr |- *; [|by exists e]. rewrite (modify_live_at v e _ s1 Hr).
  destruct (co_entry _ Hok v e He) as (_ & Hver & _). unfold put_entry, entry_of. simpl. rewrite Hver, Dict.get_set_eq.
  eexists. split; [done|]. done.
Qed.

Lemma fill_write_sound f s : sound s -> is_Some (dk_data (lc_disk s) !! fl_version_id f) -> (fill_write f s).1 = true.
Proof.
  intros Hs [[i c] Hd]. unfold fill_write. simpl. rewrite Hs, Hd. unfold pwrite_file. simpl. by rewrite Hs.
Qed.

Lemma write_blocks_alive v begin data now s e : 0 <= begin -> sound s -> steady s -> entry_of v s = Some e ->
  is_Some (entry_of v (write_blocks cfg v begin data now s)).
Proof.
  intros Hb Hsd Hs He. pose proof (steady_cache _ Hs) as Hok. unfold write_blocks.
  destruct (claim_alive v begin data s e Hok He) as (e1 & He1 & Hu1). pose proof (os_claim cfg v begin data s) as Hos.
  destruct (fill_claim cfg v begin data s) as [f s1] eqn:Hcl. simpl in He1, Hos.
  destruct (fill_claim_spec cfg v begin data s f s1 Hok Hcl) as [Hk Hf]. destruct f as [f|]; [|by exists e1].
  destruct (Hf f eq_refl) as (Hv & _ & _ & e0 & He0 & Hfu & _). assert (e0 = e) as -> by congruence.
  destruct Hk as [_ Hk]. destruct (Hk v e1 He1) as (e2 & He2 & [C1 C2 C3 C4] & Hd). assert (e2 = e) as -> by congruence.
  destruct Hs as [Hm Ht]. destruct (to_entries _ _ Ht v e He) as (_ & i & file & Hfile & _). simpl in Hfile.
  assert ((fill_write f s1).1 = true) as Hok1 by (apply fill_write_sound; [by eapply sound_same|rewrite Hv, Hd, Hfile; eauto]).
  destruct (fill_write_entries f s1) as [Hent _]. destruct (fill_write f s1) as [ok s2]. simpl in *. subst ok.
  assert (entry_of v s2 = Some e1) as Hs2 by (unfold entry_of in *; congruence).
  assert (ce_version_id e1 = v) as Hver.
  { pose proof (claim_step cfg v begin data (idle s) (Some f) s1 Hm Hb Hcl) as Hm1. by apply (co_entry _ (mo_cache _ _ Hm1) v e1). }
  rewrite <- Hv in Hs2, Hver. destruct (fill_end_entries f now s2 e1 Hs2 ltac:(congruence) Hver) as [Hfe _].
  rewrite Hv in *. unfold entry_of. rewrite Hfe. unfold put_entry. simpl. rewrite Hver, Dict.get_set_eq. eauto.
Qed.

(** ** Reading blocks that are there *)

(** The disk was asked, nothing else. *)
Definition untouched (s s' : LocalCache) : Prop :=
  lc_entries s' = lc_entries s /\ lc_next_uid s' = lc_next_uid s /\ dk_data (lc_disk s') = dk_data (lc_disk s) /\ same_os s s'.

Lemma untouched_keeps s s' : untouched s s' -> keeps s s'.
Proof. intros (He & Hu & Hd & _). split; [lia|]. intros v e. unfold entry_of. rewrite He, Hd. intros Hv. by exists e. Qed.

Lemma cache_read_loop_yields v last i file fuel offset s :
  dk_data (lc_disk s) !! v = Some (i, file) -> zlen file = zlen (content v) ->
  (forall p, offset <= p <= last -> true_at content v file p) -> 0 <= offset -> last < zlen (content v) -> last - offset + 1 <= Z.of_nat fuel ->
  let r := cache_read_loop fuel v offset last s in
  yields (zslice offset (last + 1) (content v)) r.1 /\ untouched s r.2 /\ (sound s -> fault r.1 = None).
Proof.
  intros Hd Hl. revert offset s Hd. induction fuel as [|fuel IH]; intros offset s Hd Ht H0 Hlast Hfuel; cbn [cache_read_loop].
  { rewrite (proj2 (Z.ltb_lt _ _)) by lia. rewrite zslice_nil by lia. split; [done|]. by split. }
  destruct (Z.ltb_spec last offset) as [Hlt|Hle]; [rewrite zslice_nil by lia; split; [done|]; by split|].
  unfold read_chunk. destruct (os_call (lc_disk s)) as [x d] eqn:Ho. assert (d = (os_call (lc_disk s)).2 /\ x = dk_os (lc_disk s) (dk_calls (lc_disk s))) as [-> ->]
    by (by injection Ho as <- <-). clear Ho.
  set (d := (os_call (lc_disk s)).2). assert (untouched s (with_disk d s)) as Hun by done.
  destruct (dk_os (lc_disk s) (dk_calls (lc_disk s))) as [k|] eqn:Hx.
  { split; [unfold yields; simpl; by exists (zslice offset (last + 1) (content v))|]. split; [done|]. intros Hs. by rewrite Hs in Hx. }
  change (dk_data d) with (dk_data (lc_disk s)). rewrite Hd.
  set (n := Z.min READ_CHUNK (last - offset + 1)). assert (0 < n <= last - offset + 1) as Hn by (unfold n, READ_CHUNK; lia).
  assert (zslice offset (offset + n) file = zslice offset (offset + n) (content v)) as Hsl
    by (apply zslice_ext; [done|done|]; intros p Hp; apply Ht; lia).
  assert (zlen (zslice offset (offset + n) (content v)) = n) as Hlen by (rewrite zlen_zslice by lia; lia).
  rewrite Hsl. destruct (zslice offset (offset + n) (content v)) as [|b bs] eqn:Hz; [rewrite zlen_nil in Hlen; lia|]. rewrite <- Hz in *.
  destruct (IH (offset + n) (with_disk d s) Hd ltac:(intros p Hp; apply Ht; lia) ltac:(lia) Hlast ltac:(lia)) as (Hy & Hun2 & Hsd).
  rewrite Hlen. destruct (cache_read_loop fuel v (offset + n) last (with_disk d s)) as [rest s']. cbn [fst snd] in *.
  split; [|split; [|exact Hsd]].
  - rewrite (zslice_split offset (offset + n) (last + 1)) by lia.
    change {| pieces := zslice offset (offset + n) (content v) :: pieces rest; fault := fault rest |}
      with (then_stream {| pieces := [zslice offset (offset + n) (content v)]; fault := None |} rest).
    apply yields_then; [done| |done]. unfold yields, stream_bytes. simpl. by rewrite app_nil_r.
  - destruct Hun as (A1 & A2 & A3 & A4), Hun2 as (B1 & B2 & B3 & B4). split_and!; try congruence.
Qed.

Lemma present_has_range e begin last : entry_ok e -> 0 <= begin <= last -> last < ce_size e ->
  (forall p, begin <= p <= last -> present_at e (p / ce_block_size e) = true) -> entry_has_range e begin last = true.
Proof.
  intros He Hb Hl Hp. unfold entry_has_range. rewrite (proj2 (Z.eqb_neq _ _)) by lia.
  rewrite (proj2 (Z.ltb_ge begin 0)), (proj2 (Z.leb_gt _ _)), (proj2 (Z.ltb_ge last begin)) by lia. cbn [orb].
  apply forallb_forall. intros x Hx%list_elem_of_In%list_elem_of_lookup. destruct Hx as [k Hk]. pose proof (eo_block _ He) as Hbs.
  unfold zslice in Hk. apply lookup_take_Some in Hk as [Hk Hlt]. rewrite lookup_drop in Hk.
  assert (0 <= begin / ce_block_size e) as H0 by (apply Z.div_pos; lia).
  set (j := begin / ce_block_size e + Z.of_nat k). assert (j <= last / ce_block_size e) as Hj by lia.
  assert (present_at e j = x) as Hpj.
  { unfold present_at, znth. rewrite (proj2 (Z.ltb_ge _ _)) by lia. replace (Z.to_nat j) with (Z.to_nat (begin / ce_block_size e) + k)%nat by lia.
    by rewrite Hk. }
  assert (exists p, begin <= p <= last /\ p / ce_block_size e = j) as (p & Hpr & Hpb).
  { exists (Z.max begin (j * ce_block_size e)). pose proof (Z.mul_div_le last (ce_block_size e) Hbs). split; [split; [lia|]; nia|].
    destruct (Z.max_spec begin (j * ce_block_size e)) as [[Hm ->]|[Hm ->]]; [by rewrite Z.div_mul by lia|].
    apply Z.le_antisymm; [lia|]. apply Z.div_le_lower_bound; lia. }
  specialize (Hp p Hpr). rewrite Hpb, Hpj in Hp. by rewrite Hp.
Qed.

Lemma cache_read_yields v begin last now s : steady s -> 0 <= begin <= last -> last < zlen (content v) ->
  (forall e, entry_of v s = Some e -> forall p, begin <= p <= last -> present_at e (p / ce_block_size e) = true) ->
  let r := cache_read v begin last now s in
  yields (zslice begin (last + 1) (content v)) r.1 /\ steady r.2 /\ gone_or_grown v s r.2 /\ same_os s r.2 /\
  (forall e, entry_of v s = Some e -> is_Some (entry_of v r.2) /\ (sound s -> fault r.1 = None)).
Proof.
  intros Hs Hb Hl Hp. unfold cache_read. pose proof (steady_cache _ Hs) as Hok. pose proof (good_read cfg v begin last now s Hok) as Hg.
  pose proof (keeps_read v begin last now s Hok) as Hk. unfold read_start in *. destruct (entry_of v s) as [e|] eqn:He.
  2: { cbn [fst snd]. split; [unfold yields; simpl; by exists (zslice begin (last + 1) (content v))|]. split; [done|].
       split; [apply entry_grown_refl'|]. by split. }
  destruct Hs as [Hm Ht]. destruct (to_entries _ _ Ht v e He) as (Hsz & i & file & Hd & Hfl & Hpt).
  destruct (co_entry _ Hok v e He) as (Heo & Hver & _). specialize (Hp e eq_refl).
  rewrite (proj2 (Z.ltb_ge last 0)), (proj2 (Z.leb_gt _ _)) in * by lia. cbn [orb] in *.
  rewrite (present_has_range e begin last) in * by (done || lia). cbn [negb fst snd] in *.
  set (s1 := put_entry (with_last_access now e) s) in *. assert (dk_data (lc_disk s1) !! v = Some (i, file)) as Hd1 by exact Hd.
  destruct (cache_read_loop_yields v last i file (Z.to_nat (last - begin + 1)) begin s1 Hd1 Hfl) as (Hy & Hun & Hsd); [|lia|done|lia|].
  { intros p Hpr. apply Hpt; [lia|by apply Hp]. }
  destruct (cache_read_loop (Z.to_nat (last - begin + 1)) v begin last s1) as [r s2]. cbn [fst snd] in *.
  assert (steady s1) as Hs1 by (eapply steady_step; [by split|exact Hg|by apply keeps_stays]).
  split; [exact Hy|]. split; [|split; [|split]].
  - eapply steady_step; [exact Hs1| |by apply keeps_stays, untouched_keeps].
    destruct Hun as (A1 & A2 & _). apply good_same; [done|done|by apply steady_cache].
  - eapply gone_or_grown_trans; [by apply keeps_grown|]. by apply keeps_grown, untouched_keeps.
  - eapply same_os_trans; [|apply Hun]. done.
  - intros e' _. destruct Hun as (A1 & _). split; [unfold entry_of; rewrite A1; unfold s1, put_entry; simpl; rewrite Hver, Dict.get_set_eq; eauto|].
    intros Hsound. apply Hsd. exact Hsound.
Qed.

(** ** Filling the cache on the way *)

(** What a read may do to the cache: it stays true, the entry read is gone or
    has grown, and it is there as long as the disk does not fail. *)
Record advance (v : string) (s s' : LocalCache) : Prop := {
  av_steady : steady s';
  av_grown : gone_or_grown v s s';
  av_os : same_os s s';
  av_alive : sound s -> is_Some (entry_of v s) -> is_Some (entry_of v s')
}.

Lemma advance_refl v s : steady s -> advance v s s.
Proof. intros Hs. split; [done|apply entry_grown_refl'|done|done]. Qed.

Lemma advance_trans v s1 s2 s3 : advance v s1 s2 -> advance v s2 s3 -> advance v s1 s3.
Proof.
  intros [A1 A2 A3 A4] [B1 B2 B3 B4]. split; [done|by eapply gone_or_grown_trans|by eapply same_os_trans|].
  intros Hs Hv. apply B4; [by eapply sound_same|by apply A4].
Qed.

Lemma write_blocks_advance v begin data now s : piece_of content v begin data -> steady s ->
  advance v s (write_blocks cfg v begin data now s).
Proof.
  intros Hp Hs. pose proof Hp as (Hb & _). split; [by apply write_blocks_steady|by apply write_blocks_grown|apply os_write_blocks|].
  intros Hsd [e He]. by eapply write_blocks_alive.
Qed.

(** A slice of the version, cut again. *)
Lemma slice_piece v a b : 0 <= a <= b -> b <= zlen (content v) -> piece_of content v a (zslice a b (content v)).
Proof.
  intros Hab Hb. assert (zlen (zslice a b (content v)) = b - a) as Hl by (rewrite zlen_zslice by lia; lia).
  split; [lia|]. split; [lia|]. rewrite Hl. by replace (a + (b - a)) with b by lia.
Qed.

Lemma store_blocks_spec v bs now pos fuel bb s :
  0 < bs -> 0 <= bb <= pos -> pos <= zlen (content v) -> pos - bb <= Z.of_nat fuel -> steady s ->
  exists bb' s', store_blocks cfg fuel v bs now (zslice bb pos (content v)) bb s = (zslice bb' pos (content v), bb', s') /\
    bb <= bb' <= pos /\ pos - bb' < bs /\ advance v s s'.
Proof.
  intros Hbs. revert bb s. induction fuel as [|fuel IH]; intros bb s Hbb Hpos Hfuel Hs; cbn [store_blocks].
  { exists bb, s. split; [done|]. split; [lia|]. split; [lia|by apply advance_refl]. }
  assert (zlen (zslice bb pos (content v)) = pos - bb) as Hl by (rewrite zlen_zslice by lia; lia). rewrite Hl.
  destruct (Z.ltb_spec (pos - bb) bs) as [Hlt|Hge].
  { exists bb, s. split; [done|]. split; [lia|]. split; [lia|by apply advance_refl]. }
  assert (zdrop bs (zslice bb pos (content v)) = zslice (bb + bs) pos (content v)) as ->
    by (rewrite !zslice_spec, zdrop_ztake, zdrop_zdrop by lia; f_equal; lia).
  assert (ztake bs (zslice bb pos (content v)) = zslice bb (bb + bs) (content v)) as ->
    by (rewrite !zslice_spec, ztake_ztake by lia; f_equal; lia).
  assert (piece_of content v bb (zslice bb (bb + bs) (content v))) as Hp by (apply slice_piece; lia).
  pose proof (write_blocks_advance v bb _ now s Hp Hs) as Ha.
  destruct (IH (bb + bs) (write_blocks cfg v bb (zslice bb (bb + bs) (content v)) now s)) as (bb' & s' & Hrun & Hr & Hlt & Ha'); [lia|lia|lia|apply Ha|].
  exists bb', s'. split; [done|]. split; [lia|]. split; [done|by eapply advance_trans].
Qed.

Lemma requested_spec v begin last pos n : 0 <= pos -> 0 <= n -> pos + n <= zlen (content v) -> 0 <= begin ->
  concat (requested begin last pos (zslice pos (pos + n) (content v))) = zslice (Z.max pos begin) (Z.min (pos + n) (last + 1)) (content v).
Proof.
  intros Hp Hn Hl Hb. unfold requested. assert (zlen (zslice pos (pos + n) (content v)) = n) as -> by (rewrite zlen_zslice by lia; lia).
  destruct (Z.leb_spec (Z.max pos begin) (Z.min (pos + n - 1) last)); simpl.
  - rewrite app_nil_r. rewrite zslice_zslice by lia. f_equal; lia.
  - rewrite zslice_nil by lia. done.
Qed.

Lemma fetch_loop_spec v bs begin last now chunks bb pos s :
  0 < bs -> 0 <= begin -> 0 <= bb <= pos -> pos - bb < bs -> pos + zlen (concat chunks) <= zlen (content v) ->
  concat chunks = zslice pos (pos + zlen (concat chunks)) (content v) -> steady s ->
  let pos' := pos + zlen (concat chunks) in
  exists outs bb' s', fetch_loop cfg v bs begin last now chunks (zslice bb pos (content v)) bb pos s =
      (outs, zslice bb' pos' (content v), bb', pos', s') /\
    concat outs = zslice (Z.max pos begin) (Z.min pos' (last + 1)) (content v) /\ 0 <= bb' <= pos' /\ advance v s s'.
Proof.
  intros Hbs Hbeg. revert bb pos s. induction chunks as [|chunk chunks IH]; intros bb pos s Hbb Hlt Hl Hc Hs; cbn [fetch_loop concat] in *.
  { rewrite zlen_nil, Z.add_0_r. exists [], bb, s. split; [done|]. rewrite zslice_nil by lia. split; [done|]. split; [done|by apply advance_refl]. }
  rewrite zlen_app in *. pose proof (zlen_nonneg chunk). pose proof (zlen_nonneg (concat chunks)).
  rewrite (zslice_split pos (pos + zlen chunk)) in Hc by lia.
  assert (zlen (zslice pos (pos + zlen chunk) (content v)) = zlen chunk) as Hlc by (rewrite zlen_zslice by lia; lia).
  assert (length chunk = length (zslice pos (pos + zlen chunk) (content v))) as Hlen by (unfold zlen in Hlc at 1; unfold zlen in *; lia).
  apply app_inj_1 in Hc as [Hc1 Hc2]; [|done].
  assert (zslice bb pos (content v) ++ chunk = zslice bb (pos + zlen chunk) (content v)) as Hblk
    by (rewrite (zslice_split bb pos (pos + zlen chunk)) by lia; by rewrite <- Hc1).
  rewrite Hblk. destruct (store_blocks_spec v bs now (pos + zlen chunk) (length (zslice bb (pos + zlen chunk) (content v))) bb s)
    as (bb1 & s1 & Hrun & Hr & Hlt1 & Ha); [done|lia|lia| |done|].
  { change (Z.of_nat (length ?l)) with (zlen l). rewrite zlen_zslice by lia. lia. }
  rewrite Hrun. destruct (IH bb1 (pos + zlen chunk) s1) as (outs & bb2 & s2 & Hrun2 & Ho & Hb2 & Ha2); [lia|lia|lia| |apply Ha|].
  { rewrite Hc2 at 1. f_equal. lia. }
  rewrite Hrun2. rewrite Z.add_assoc. exists (requested begin last pos chunk ++ outs), bb2, s2. split; [done|]. split; [|split; [lia|by eapply advance_trans]].
  rewrite concat_app, Ho. rewrite Hc1 at 1. rewrite requested_spec by lia.
  destruct (decide (Z.max pos begin <= Z.min (pos + zlen chunk) (last + 1))).
  - destruct (decide (begin <= pos + zlen chunk)).
    + destruct (decide (pos + zlen chunk <= last + 1)).
      * replace (Z.min (pos + zlen chunk) (last + 1)) with (pos + zlen chunk) by lia.
        replace (Z.max (pos + zlen chunk) begin) with (pos + zlen chunk) by lia. symmetry. apply zslice_split; lia.
      * rewrite (zslice_nil (Z.max (pos + zlen chunk) begin)) by lia. rewrite app_nil_r. f_equal. lia.
    + lia.
  - rewrite zslice_nil by lia. simpl. destruct (decide (begin <= pos + zlen chunk)); [|f_equal; lia].
    rewrite !zslice_nil by lia. done.
Qed.

End Steady.

(** ** Through the cache *)

Section Through.
  Context {W : Type} `{StoreLaws W} (cc : ContentConfig) (cfg : CacheConfig) (content : string -> bytes).
  Context (multi : list StoreView -> Z -> Z -> Z -> gen W) (Hseq : cc_read_parallel cc = false) (Hblock : 0 < block_bytes cfg).
  Context (v : string) (ls : list Layout).
  Local Abbreviation c := (content v).
  Local Abbreviation adv := (advance content cfg v).

(** What a step of the read owes: bytes, the stores and the cache. *)
Record step_ok (want : bytes) (lc : Live W * LocalCache) (r : stream * (Live W * LocalCache)) : Prop := {
  so_yields : yields want r.1;
  so_kept : kept (lv_world lc.1) (lv_world r.2.1);
  so_cache : adv lc.2 r.2.2
}.

Definition ready (lc : Live W * LocalCache) : Prop :=
  Forall (layout_ok (lv_world lc.1) c) ls /\ steady content cfg lc.2.

Lemma ready_step want lc r : ready lc -> step_ok want lc r -> ready r.2.
Proof.
  intros [Hl Hs] [_ Hk Ha]. split; [|apply Ha]. eapply Forall_impl; [exact Hl|]. intros ly. by apply layout_ok_kept.
Qed.

(** The stores can serve and the disk works. *)
Definition works (lc : Live W * LocalCache) : Prop :=
  Exists (layout_up (lv_world lc.1)) ls /\ sound lc.2 /\ is_Some (entry_of v lc.2).

Lemma works_step want lc r : works lc -> step_ok want lc r -> works r.2.
Proof.
  intros (Hu & Hs & Hv) [_ Hk Ha]. split; [|split].
  - eapply Exists_impl; [exact Hu|]. intros ly. by apply layout_up_kept.
  - eapply sound_same; [apply Ha|done].
  - by apply Ha.
Qed.

Lemma slice_prefix (x : bytes) a b b' : 0 <= a -> b <= b' -> exists t, zslice a b x ++ t = zslice a b' x.
Proof.
  intros Ha Hb. destruct (decide (a <= b)) as [Hab|Hab].
  - exists (zslice b b' x). symmetry. apply zslice_split; lia.
  - exists (zslice a b' x). by rewrite zslice_nil by lia.
Qed.

Lemma fetch_run_ok block_size rb re begin last lc :
  0 < block_size -> ls <> [] -> 0 <= begin -> 0 <= rb <= re -> re < zlen c -> ready lc ->
  let r := fetch_run cc cfg multi v block_size ls rb re begin last lc in
  step_ok (zslice (Z.max rb begin) (Z.min (re + 1) (last + 1)) c) lc r /\ (works lc -> fault r.1 = None).
Proof.
  intros Hbs Hne Hb Hr Hre [Hl Hs]. destruct lc as [l ca]. cbn [fst snd] in *. unfold fetch_run, stream_layouts. rewrite Hseq. cbn [andb].
  destruct (failover_spec cc ls c rb re 0 None l) as [[Hk Hf] Hup]; [done|lia|lia| |lia|done|done|].
  { rewrite (last_byte_in rb) by lia. lia. }
  rewrite (last_byte_in rb), Z.add_0_r in Hf by lia. destruct (failover cc ls rb re 0 None l) as [down l1]. cbn [fst snd] in *.
  set (t := st_now (lv_world l1)). fold (stream_bytes down).
  assert (exists n, 0 <= n /\ zlen (stream_bytes down) = n /\ rb + n <= re + 1 /\ stream_bytes down = zslice rb (rb + n) c /\
    (fault down = None -> n = re + 1 - rb)) as (n & Hn0 & Hn & Hnr & Hbytes & Hfull).
  { exists (zlen (stream_bytes down)). split; [apply zlen_nonneg|]. split; [done|]. destruct (fault down) as [x|].
    - destruct Hf as (_ & u & Hu & Hst). destruct (slice_rest c rb (re + 1) (stream_bytes down) u) as [Hb1 _]; [lia|done|done|].
      split; [lia|]. split; [|done]. pose proof (f_equal (ztake (zlen (stream_bytes down))) Hst) as Ht.
      rewrite ztake_app, ztake_ge, Z.sub_diag, ztake_0, app_nil_r in Ht by lia. rewrite Ht at 1. rewrite !zslice_spec, ztake_ztake by lia. f_equal. lia.
    - rewrite Hf, zlen_zslice by lia. split; [lia|]. split; [f_equal; lia|lia]. }
  pose proof (fetch_loop_spec content cfg Hblock v block_size begin last t (pieces down) rb rb ca) as Hloop. cbv zeta in Hloop. fold (stream_bytes down) in Hloop. rewrite Hn in Hloop.
  destruct Hloop as (outs & bb & ca1 & Hrun & Ho & Hbb & Ha); [done|done|lia|lia|lia|done|done|].
  rewrite zslice_nil in Hrun by lia. rewrite Hrun. destruct (fault down) as [x|] eqn:Hfd.
  - split; [split; cbn [fst snd]; [|done|done]|intros (Hu & _); by specialize (Hup Hu)].
    unfold yields, stream_bytes. simpl. rewrite Ho. apply slice_prefix; lia.
  - specialize (Hfull eq_refl). subst n. replace (rb + (re + 1 - rb)) with (re + 1) in * by lia.
    split; [|done]. split; cbn [fst snd]; [unfold yields, stream_bytes; simpl; rewrite Ho; f_equal; lia|done|].
    destruct (nonempty _ && _); [|done]. eapply advance_trans; [exact Ha|]. apply write_blocks_advance; [done| |apply Ha].
    apply slice_piece; lia.
Qed.

(** Bytes that are neither in a run nor served yet are in the cache. *)
Definition covered (e0 : CacheEntry) (runs : list (Z * Z)) (position last : Z) : Prop :=
  forall q, position <= q <= last -> (exists r, r ∈ runs /\ r.1 <= q <= r.2) \/ present_at e0 (q / ce_block_size e0) = true.

Definition from_entry (e0 : CacheEntry) (s : LocalCache) : Prop := forall e, entry_of v s = Some e -> extends e0 e.

Lemma from_entry_step e0 s s' : adv s s' -> from_entry e0 s -> from_entry e0 s'.
Proof.
  intros [_ Hg _ _] Hf e' He'. destruct (Hg e' He') as (e & He & B1 & B2 & B3 & B4). destruct (Hf e He) as (A1 & A2 & A3 & A4).
  split_and!; try congruence. auto.
Qed.

Lemma cached_part_ok e0 from last lc : ready lc -> from_entry e0 lc.2 -> 0 <= from <= last -> last < zlen c ->
  (forall q, from <= q <= last -> present_at e0 (q / ce_block_size e0) = true) ->
  let r := cached_part v from last lc in step_ok (zslice from (last + 1) c) lc r /\ (works lc -> fault r.1 = None).
Proof.
  intros [Hl Hs] Hf Hr Hlast Hp. unfold cached_part. destruct lc as [l ca]. cbn [fst snd] in *.
  destruct (cache_read_yields content cfg v from last (st_now (lv_world l)) ca Hs Hr Hlast) as (Hy & Hst & Hg & Hos & He).
  { intros e He q Hq. destruct (Hf e He) as (_ & _ & -> & Hpr). by apply Hpr, Hp. }
  destruct (cache_read v from last (st_now (lv_world l)) ca) as [s ca']. cbn [fst snd] in *. split.
  - split; cbn [fst snd]; [done|apply kept_refl|]. split; [done|done|done|]. intros _ [e Hve]. by apply (He e).
  - intros (_ & Hsd & [e Hve]). by apply (He e).
Qed.

Lemma serve_runs_ok e0 runs begin last position lc :
  0 < ce_block_size e0 -> ls <> [] -> ready lc -> from_entry e0 lc.2 ->
  0 <= begin <= position -> position <= last + 1 -> last < zlen c ->
  StronglySorted (fun x y => x.2 < y.1) runs ->
  Forall (fun r => 0 <= r.1 <= r.2 /\ r.2 < zlen c /\ r.1 <= last /\ begin <= r.2 /\ (position <= r.1 \/ position = begin)) runs ->
  covered e0 runs position last ->
  let r := serve_runs cc cfg multi v (ce_block_size e0) ls runs begin last position lc in
  step_ok (zslice position (last + 1) c) lc r /\ (works lc -> fault r.1 = None).
Proof.
  intros Hbs Hne. revert position lc. induction runs as [|[rb re] runs IH]; intros position lc Hready Hfrom Hb Hpl Hl Hsort Hruns Hcov; cbn [serve_runs].
  { destruct (Z.leb_spec position last).
    - apply (cached_part_ok e0); [done|done|lia|done|]. intros q Hq. destruct (Hcov q Hq) as [(r & Hr & _)|Hp]; [by apply not_elem_of_nil in Hr|done].
    - rewrite zslice_nil by lia. split; [|done]. destruct Hready as [_ Hs]. split; cbn [fst snd]; [done|apply kept_refl|by apply advance_refl]. }
  apply StronglySorted_inv in Hsort as [Hsort Hhead]. apply Forall_cons in Hruns as [(Hr1 & Hr2 & Hr3 & Hr4 & Hr5) Hruns]. cbn [fst snd] in *.
  set (h := if position <? rb then cached_part v position (rb - 1) lc else (empty_stream, lc)).
  assert (step_ok (zslice position (Z.max position rb) c) lc h /\ (works lc -> fault h.1 = None)) as [Hh Hhw].
  { unfold h. destruct (Z.ltb_spec position rb).
    - replace (Z.max position rb) with (rb - 1 + 1) by lia. apply (cached_part_ok e0); [done|done|lia|lia|].
      intros q Hq. destruct (Hcov q ltac:(lia)) as [(r & Hr & Hqr)|Hp]; [|done]. exfalso.
      apply elem_of_cons in Hr as [->|Hr]; [simpl in Hqr; lia|]. rewrite Forall_forall in Hhead. specialize (Hhead r Hr). simpl in Hhead. lia.
    - rewrite zslice_nil by lia. split; [|done]. destruct Hready as [_ Hs]. split; cbn [fst snd]; [done|apply kept_refl|by apply advance_refl]. }
  assert (zslice position (last + 1) c = zslice position (Z.max position rb) c ++ zslice (Z.max position rb) (last + 1) c) as Hsplit
    by (apply zslice_split; lia).
  pose proof (ready_step _ _ _ Hready Hh) as Hready1. pose proof (fun Hw => works_step _ _ _ Hw Hh) as Hw1.
  pose proof (from_entry_step e0 _ _ (so_cache _ _ _ Hh) Hfrom) as Hfrom1.
  destruct h as [head lc1]. cbn [fst snd] in *. destruct (fault head) as [x|] eqn:Hfh.
  { rewrite Hsplit. split; [|intros Hw; by specialize (Hhw Hw)]. destruct Hh as [A1 A2 A3]. split; cbn [fst snd]; [apply yields_stop; [eauto|done]|done|done]. }
  destruct (fetch_run_ok (ce_block_size e0) rb re begin last lc1) as [Hf Hfw]; [done|done|lia|lia|lia|done|].
  replace (Z.max rb begin) with (Z.max position rb) in Hf by lia.
  pose proof (ready_step _ _ _ Hready1 Hf) as Hready2. pose proof (fun Hw => works_step _ _ _ Hw Hf) as Hw2.
  pose proof (from_entry_step e0 _ _ (so_cache _ _ _ Hf) Hfrom1) as Hfrom2.
  assert (zslice (Z.max position rb) (last + 1) c =
    zslice (Z.max position rb) (Z.min (re + 1) (last + 1)) c ++ zslice (Z.min re last + 1) (last + 1) c) as Hsplit2.
  { replace (Z.min re last + 1) with (Z.min (re + 1) (last + 1)) by lia. apply zslice_split; lia. }
  destruct (fetch_run cc cfg multi v (ce_block_size e0) ls rb re begin last lc1) as [run lc2]. cbn [fst snd] in *.
  destruct Hh as [A1 A2 A3], Hf as [B1 B2 B3]. destruct (fault run) as [x|] eqn:Hfr.
  { rewrite Hsplit, Hsplit2. split; [|intros Hw; by specialize (Hfw (Hw1 Hw))]. split; cbn [fst snd].
    - rewrite app_assoc. apply yields_stop; [simpl; eauto|]. by apply yields_then.
    - by eapply kept_trans.
    - by eapply advance_trans. }
  destruct (IH (Z.min re last + 1) lc2) as [[C1 C2 C3] Cw]; [done|done|lia|lia|done|done| | |].
  { clear -Hruns Hhead. rewrite Forall_forall in Hruns |- *. rewrite Forall_forall in Hhead. intros r Hr. specialize (Hruns r Hr).
    specialize (Hhead r Hr). simpl in Hhead. destruct Hruns as (? & ? & ? & ? & _). split_and!; try lia. }
  { intros q Hq. destruct (Hcov q ltac:(lia)) as [(r & Hr & Hqr)|Hp]; [|by right]. apply elem_of_cons in Hr as [->|Hr]; [simpl in Hqr; lia|].
    left. by exists r. }
  destruct (serve_runs cc cfg multi v (ce_block_size e0) ls runs begin last (Z.min re last + 1) lc2) as [rest lc3]. cbn [fst snd] in *.
  rewrite Hsplit, Hsplit2. split; [split; cbn [fst snd]|].
  - apply yields_then; [done|done|]. by apply yields_then.
  - eapply kept_trans; [exact A2|by eapply kept_trans].
  - eapply advance_trans; [exact A3|by eapply advance_trans].
  - intros Hw. simpl. apply Cw, Hw2, Hw1, Hw.
Qed.

End Through.

(** ** Opening an entry to read into *)

Lemma os_unlink v d : dk_os (unlink v d) = dk_os d.
Proof. unfold unlink. simpl. destruct (dk_os d _); simpl; by destruct (dk_os d _). Qed.

Lemma os_add cfg fs v size now (writing : bool) s : same_os s (add_entry cfg fs v size now writing s).2.
Proof.
  unfold add_entry, draw_uid. set (s1 := Build_LocalCache _ _ _ _). set (e := new_entry_of _ _ _ _ _ _ _).
  assert (same_os s (create_files e s1).2) as Hc.
  { unfold same_os, create_files. destruct (os_call (lc_disk s1)) as [f d] eqn:Ho. assert (dk_os d = dk_os (lc_disk s)) as Hd by (by injection Ho as _ <-).
    destruct f; [simpl; by rewrite os_unlink|]. set (d1 := with_files _ _ _). assert (dk_os d1 = dk_os d) as Hd1 by done.
    destruct (os_call d1) as [f d2] eqn:Ho2. assert (dk_os d2 = dk_os d1) as Hd2 by (by injection Ho2 as _ <-).
    destruct f; simpl; rewrite ?os_unlink; congruence. }
  destruct (create_files e s1) as [[] s2]; [|exact Hc]. eapply same_os_trans; [exact Hc|]. apply (os_save (put_entry e s2)).
Qed.

Lemma reserve_spec content cfg fs v now s : 0 < block_bytes cfg -> steady content cfg s ->
  let r := reserve cfg fs v (zlen (content v)) now s in
  steady content cfg r.2 /\ same_os s r.2 /\ forall e, r.1 = Some e -> entry_of v r.2 = Some e.
Proof.
  intros Hb Hs. pose proof (steady_cache _ _ _ Hs) as Hok. split; [|split].
  - eapply steady_step; [exact Hs|by apply good_reserve|by apply reserve_stays].
  - unfold reserve. destruct (negb (cf_enabled cfg) || _); [done|]. set (s1 := if Dict.mem _ _ then _ else _).
    assert (same_os s s1) as H1 by (unfold s1; destruct (Dict.mem _ _); [apply os_remove|done]).
    pose proof (os_make_room cfg 0 true None s1) as H2. destruct (make_room cfg 0 true None s1) as [[] s2]; simpl in *.
    + eapply same_os_trans; [exact H1|]. eapply same_os_trans; [exact H2|apply os_add].
    + eapply same_os_trans; [exact H1|exact H2].
  - unfold reserve. destruct (negb (cf_enabled cfg) || (zlen (content v) <? 0)) eqn:Hc; [done|]. apply orb_false_iff in Hc as [_ Hz%Z.ltb_ge].
    set (s1 := if Dict.mem _ _ then _ else _). destruct (make_room cfg 0 true None s1) as [[] s2] eqn:Hm; simpl; [|done].
    destruct (add_entry cfg fs v (zlen (content v)) now false s2) as [o s'] eqn:Ha. intros e He. simpl in *.
    destruct (opened_spec cfg Hb fs v (zlen (content v)) now false s true s2 o s' Hok Hz Hm eq_refl Ha) as [_ Hent]. by apply Hent.
Qed.

Section Get.
  Context {W : Type} `{StoreLaws W} (cc : ContentConfig) (cfg : CacheConfig) (content : string -> bytes).
  Context (multi : list StoreView -> Z -> Z -> Z -> gen W) (Hseq : cc_read_parallel cc = false) (Hblock : 0 < block_bytes cfg).

Lemma stream_through_cache_ok scope fv ls begin last admit_ (lc : Live W * LocalCache) :
  let c := content (fv_id fv) in
  ls <> [] -> ready cfg content (fv_id fv) ls lc -> 0 <= begin <= last -> last < zlen c ->
  let r := stream_through_cache cc cfg multi scope fv ls begin last admit_ lc in
  yields (zslice begin (last + 1) c) r.1 /\ kept (lv_world lc.1) (lv_world r.2.1) /\ steady content cfg r.2.2 /\
  (Exists (layout_up (lv_world lc.1)) ls -> sound lc.2 -> fault r.1 = None).
Proof.
  intros c Hne [Hl Hs] Hr Hlast. destruct lc as [l ca]. cbn [fst snd] in *. unfold stream_through_cache.
  assert (match ls with [] => 0 | ly :: _ => layout_size ly end = zlen c) as Hsize.
  { destruct ls as [|ly rest]; [done|]. apply Forall_cons in Hl as [(bs & Hp & Hc & _) _]. unfold layout_size. by rewrite Hp, zsum_map_zlen, <- Hc. }
  rewrite Hsize. set (o := match entry_of (fv_id fv) ca with Some _ => _ | None => _ end).
  assert (steady content cfg o.2 /\ same_os ca o.2 /\ forall e, o.1 = Some e -> entry_of (fv_id fv) o.2 = Some e) as (Hs1 & Hos & He).
  { unfold o. destruct (entry_of (fv_id fv) ca) as [e|] eqn:Hent; [split; [done|]; split; [done|]; intros e' [= <-]; exact Hent|].
    destruct admit_; [by apply reserve_spec|by split_and!]. }
  destruct o as [[e|] ca1]; cbn [fst snd] in *.
  - specialize (He e eq_refl). destruct (co_entry _ (steady_cache _ _ _ Hs1) _ e He) as (Heo & _).
    destruct Hs1 as [Hm Ht]. destruct (to_entries _ _ Ht _ e He) as (Hsz & _). fold c in Hsz.
    destruct (missing_runs_spec e begin last Heo Hr ltac:(lia)) as [Hb1 Hb2 Hb3].
    destruct (serve_runs_ok cc cfg content multi Hseq Hblock (fv_id fv) ls e (missing_runs e begin last) begin last begin (l, ca1))
      as [[A1 A2 A3] A4]; [by apply eo_block|done|by split| |lia|lia|done|done| | |].
    + intros e' He'. cbn [snd] in He'. assert (e' = e) as -> by congruence. by split_and!.
    + eapply Forall_impl; [exact Hb3|]. cbn beta. intros r (B1 & B2 & B3 & B4 & _). fold c. split_and!; try lia.
    + intros q Hq. specialize (Hb1 q ltac:(lia)). destruct (present_at e (q / ce_block_size e)); [by right|]. left. by apply Hb1.
    + split; [exact A1|]. split; [exact A2|]. split; [apply A3|]. intros Hu Hsd. apply A4. split; [done|]. cbn [snd].
      split; [by eapply sound_same|eauto].
  - destruct (failover_spec cc ls c begin last 0 None l) as [Hd Hup]; [done|lia|lia| |lia|done|done|].
    { rewrite (last_byte_in begin) by lia. lia. }
    unfold stream_layouts. rewrite Hseq. cbn [andb]. rewrite (last_byte_in begin), Z.add_0_r in Hd by lia.
    pose proof (delivers_iff _ _ _ Hd) as [Hpre Hiff]. destruct (failover cc ls begin last 0 None l) as [s l1]. cbn [fst snd] in *.
    split; [unfold yields; destruct (fault s); [done|by apply Hiff]|]. split; [apply Hd|]. split; [done|]. intros Hu _. by apply Hup.
Qed.


End Get.

(** ** Witnesses *)

Lemma empty_steady content d : steady content one_cache (empty_cache d).
Proof. split; [apply (start_ok one_cache d); vm_compute; discriminate|apply (start_true content d)]. Qed.


(** Two blocks of a version, the second one cached; the disk fails once, when
    the first is stored. *)
Definition two_blocks : bytes := replicate 1025 Byte.x61.
Definition two_block_world : Live MemWorld :=
  {| lv_world := {| mw_docs := [("tg:1", 11, two_blocks)]; mw_down := []; mw_texts := []; mw_next := 100; mw_clock := 5 |}; lv_dead_until := 0 |}.
Definition two_block_version : TGFSFileVersion :=
  {| fv_id := "v"; updated_at := fromtimestamp_ms 1; fv_size_field := 1025; message_ids := [11];
     part_sizes := [1025]; mirrors := []; replicas := []; store := Some "tg:1";
     pending := false; cacheable := true; recorded_size := 1025 |}.
Definition small_blocks : CacheConfig :=
  {| cf_enabled := true; cf_max_size_mb := 1; cf_max_files := 2; cf_max_file_size_mb := 1; cf_block_kb := 1; cf_stage_uploads := true;
     cf_keep_for_reads := true; cf_min_free_mb := 0; cf_max_age_hours := 0; cf_target_fill_percent := 90 |}.
Definition fails_at (k : nat) : Disk :=
  {| dk_data := ∅; dk_map := ∅; dk_index := None; dk_os := fun n => if (n =? k)%nat then Some 0 else None; dk_free := fun _ => None; dk_calls := 0 |}.

Definition two_reads (k : nat) : exc stream * (Live MemWorld * LocalCache) :=
  let no_multi := fun _ _ _ _ l => (empty_stream, l) in
  let lc := (cached_get demo_config small_blocks no_multi "fs" two_block_version 1024 1024 true (two_block_world, empty_cache (fails_at k))).2 in
  cached_get demo_config small_blocks no_multi "fs" two_block_version 0 1024 true lc.

(** A block that cannot be stored takes its entry with it, and the read that
    was to go on from another block of that entry ends with a [KeyError]: the
    reads do not go on without the cache.  With the store up and a disk that
    works, the same read delivers everything. *)
Theorem failed_fill_breaks_read :
  (exists s lc, two_reads 6 = (Ok s, lc) /\ stream_bytes s = replicate 1024 Byte.x61 /\ fault s = Some KeyError) /\
  (exists s lc, two_reads 1000 = (Ok s, lc) /\ stream_bytes s = two_blocks /\ fault s = None).
Proof.
  split.
  - destruct (two_reads 6) as [[s|ex] lc] eqn:Hr.
    + exists s, lc. split; [done|]. assert (s = default empty_stream (match (two_reads 6).1 with Ok s => Some s | _ => None end)) as -> by by rewrite Hr.
      split; vm_compute; reflexivity.
    + exfalso. assert (is_ok (two_reads 6).1 = true) as Ho by (vm_compute; reflexivity). by rewrite Hr in Ho.
  - destruct (two_reads 1000) as [[s|ex] lc] eqn:Hr.
    + exists s, lc. split; [done|]. assert (s = default empty_stream (match (two_reads 1000).1 with Ok s => Some s | _ => None end)) as -> by by rewrite Hr.
      split; vm_compute; reflexivity.
    + exfalso. assert (is_ok (two_reads 1000).1 = true) as Ho by (vm_compute; reflexivity). by rewrite Hr in Ho.
Qed.
