(* ===== verification/StagingProps.v ===== *)
(** * Uploads through the local cache
      ([stage] of [tgdcfs/core/repository/impl/file_content/__init__.py];
      [StagedFileMessage], [FileMessageFromCache] and [VersionCache] of
      [tgdcfs/core/local_cache.py])

    [stage] writes a whole upload into the cache before any store is touched
    ([write_ack: cache]).  A [StagedFileMessage] is an upload whose reads land
    in the cache as well; a [FileMessageFromCache] reads a complete entry back
    for the stores. *)

From S2P Require Import Prelude Errors Messages FileVersion Contents Stores FileContent FileContentProps CacheEntry LocalCache LocalCacheProps CacheContent CachedReadProps.

Open Scope Z_scope.
Open Scope py_scope.

Definition STAGE_READ_CHUNK : Z := 1024 * 1024.

Section Stage.
  Context {M : Type} `{Uploadable M} (cfg : CacheConfig).

(** [while remaining > 0]: what is left and the writer. *)
Fixpoint stage_loop (fuel : nat) (remaining : Z) (w : StagingWriter) (mc : M * LocalCache)
  : exc (Z * StagingWriter) * (M * LocalCache) :=
  match fuel with
  | O => (Raise OutOfFuel, mc)
  | S fuel =>
      if remaining <=? 0 then (Ok (remaining, w), mc)
      else
        let '(m, c) := mc in
        match um_read (Z.min STAGE_READ_CHUNK remaining) m with
        | (Raise ex, m) => (Raise ex, (m, (writer_abort w c).2))
        | (Ok [], m) => (Ok (remaining, w), (m, c))
        | (Ok chunk, m) =>
            let '(w, c) := writer_write w chunk c in
            let remaining := remaining - zlen chunk in
            if sw_failed w then (Ok (remaining, w), (m, c)) else stage_loop fuel remaining w (m, c)
        end
  end.

Definition stage (scope : string) (v : string) (now : Z) (mc : M * LocalCache) : exc (option Z) * (M * LocalCache) :=
  let '(m, c) := mc in
  let size := get_size m in
  let '(w, c) := open_staging cfg scope v size now c in
  match w with
  | None => (Ok None, (m, c))
  | Some w =>
      let c := pin v now c in
      match um_open m with
      | (Raise ex, m) => (Raise ex, (m, c))
      | (Ok _, m) =>
          let '(r, (m, c)) := stage_loop (S (Z.to_nat size)) size w (m, c) in
          match um_close m with
          | (Raise ex, m) => (Raise ex, (m, c))
          | (Ok _, m) =>
              match r with
              | Raise ex => (Raise ex, (m, c))
              | Ok (remaining, w) =>
                  let '(w, c) := writer_close w c in
                  if sw_failed w || (0 <? remaining)
                  then (Raise (TechnicalError "Could not stage version"), (m, remove v c))
                  else (Ok (Some size), (m, c))
              end
          end
      end
  end.

(** ** [StagedFileMessage] *)

Record StagedFileMessage := {
  sg_um : UploadableFileMessage;
  sg_inner : M;
  sg_writer : StagingWriter;
  sg_cache : LocalCache                          (* the cache it shares with everybody else *)
}.

Definition sg_set (m : M) (w : StagingWriter) (c : LocalCache) (s : StagedFileMessage) : StagedFileMessage :=
  {| sg_um := sg_um s; sg_inner := m; sg_writer := w; sg_cache := c |}.

Definition staged_wrap (inner : M) (w : StagingWriter) (c : LocalCache) : StagedFileMessage :=
  {| sg_um := {| um_name := um_name (um inner); um_size := get_size inner; um_caption := um_caption (um inner); um_offset := 0;
                 um_read_size := 0; um_version_id := um_version_id (um inner) |};
     sg_inner := inner; sg_writer := w; sg_cache := c |}.

(** A call of the wrapped message. *)
Definition sg_on_inner {A} (f : st exn M A) : st exn StagedFileMessage A := fun s =>
  let '(r, m) := f (sg_inner s) in (r, sg_set m (sg_writer s) (sg_cache s) s).

Definition staged_read (length : Z) : st exn StagedFileMessage bytes := fun s =>
  match um_read length (sg_inner s) with
  | (Raise ex, m) => (Raise ex, sg_set m (sg_writer s) (sg_cache s) s)
  | (Ok data, m) =>
      let '(w, c) := if nonempty data then writer_write (sg_writer s) data (sg_cache s) else (sg_writer s, sg_cache s) in
      (Ok data, sg_set m w c s)
  end.

#[export] Instance staged_uploadable : Uploadable StagedFileMessage := {
  um := sg_um;
  with_um u s := {| sg_um := u; sg_inner := sg_inner s; sg_writer := sg_writer s; sg_cache := sg_cache s |};
  um_get_size _ := 0;
  um_open := sg_on_inner um_open;
  um_read := staged_read;
  um_close := sg_on_inner um_close;
  next_part n s := {| sg_um := um_next_part n (sg_um s); sg_inner := next_part n (sg_inner s);
                      sg_writer := sg_writer s; sg_cache := sg_cache s |}
}.

Definition staged_file_name (s : StagedFileMessage) : string :=
  if decide (um_name (sg_um s) = EmptyString) then file_name (sg_inner s) else um_name (sg_um s).

End Stage.
Arguments StagedFileMessage : clear implicits.

(** ** Reading an entry back *)

(** [LocalCache.local]: the entry of [CachedVersionBytes]. *)
Definition local (v : string) (s : LocalCache) : option CacheEntry :=
  match entry_of v s with
  | Some e => if ce_writing e || negb (is_complete e) then None else Some e
  | None => None
  end.

Definition join_stream (s : stream) : exc bytes :=
  match fault s with Some ex => Raise ex | None => Ok (stream_bytes s) end.

Definition cache_read_bytes (v : string) (begin last now : Z) (s : LocalCache) : exc bytes * LocalCache :=
  let '(x, s) := cache_read v begin last now s in (join_stream x, s).

Record FileMessageFromCache := {
  fm_um : UploadableFileMessage;
  fm_version : string;
  fm_begin : Z;
  fm_cache : LocalCache;
  fm_now : Z
}.

Definition cache_message (v name : string) (source_size begin : Z) (size : option Z) (now : Z) (c : LocalCache) : FileMessageFromCache :=
  {| fm_um := {| um_name := name; um_size := default (source_size - begin) size; um_caption := EmptyString; um_offset := 0;
                 um_read_size := 0; um_version_id := None |};
     fm_version := v; fm_begin := begin; fm_cache := c; fm_now := now |}.

Definition fm_with (u : UploadableFileMessage) (c : LocalCache) (m : FileMessageFromCache) : FileMessageFromCache :=
  {| fm_um := u; fm_version := fm_version m; fm_begin := fm_begin m; fm_cache := c; fm_now := fm_now m |}.

(** [part]: an independent message for a piece of this one. *)
Definition cache_part (offset size : Z) (m : FileMessageFromCache) : FileMessageFromCache :=
  cache_message (fm_version m) (um_name (fm_um m)) 0 (fm_begin m + offset) (Some size) (fm_now m) (fm_cache m).

Definition fm_read (length : Z) : st exn FileMessageFromCache bytes := fun m =>
  let position := fm_begin m + um_offset (fm_um m) + um_read_size (fm_um m) in
  let last := Z.min (position + length) (fm_begin m + um_size (fm_um m)) - 1 in
  if last <? position then (Ok [], m)
  else
    let '(r, c) := cache_read_bytes (fm_version m) position last (fm_now m) (fm_cache m) in
    match r with
    | Raise ex => (Raise ex, fm_with (fm_um m) c m)
    | Ok data => (Ok data, fm_with (um_set_read (um_offset (fm_um m)) (um_read_size (fm_um m) + zlen data) (fm_um m)) c m)
    end.

#[export] Instance cache_uploadable : Uploadable FileMessageFromCache := {
  um := fm_um;
  with_um u m := fm_with u (fm_cache m) m;
  um_get_size _ := 0;
  um_open := sret tt;
  um_read := fm_read;
  um_close := sret tt;
  next_part n m := fm_with (um_next_part n (fm_um m)) (fm_cache m) m
}.

(** ** [VersionCache] *)

Record VersionCache := { vc_fs : string; vc_version_id : string; vc_size : Z }.

Definition version_cache_for (cfg : option CacheConfig) (fs : string) (version_id : option string) (size : Z) : option VersionCache :=
  match cfg, version_id with
  | Some cfg, Some v =>
      if negb (cf_enabled cfg) || bool_decide (v = EmptyString) || (size <=? 0) then None
      else Some {| vc_fs := fs; vc_version_id := v; vc_size := size |}
  | _, _ => None
  end.

Definition vc_local (vc : VersionCache) (s : LocalCache) : option CacheEntry := local (vc_version_id vc) s.

Definition vc_filler (cfg : CacheConfig) (vc : VersionCache) (now : Z) (s : LocalCache) : option StagingWriter * LocalCache :=
  if negb (cf_keep_for_reads cfg) || (vc_size vc <=? 0) then (None, s)
  else
    match entry_of (vc_version_id vc) s with
    | Some _ => (None, s)
    | None =>
        let '(w, s) := open_staging cfg (vc_fs vc) (vc_version_id vc) (vc_size vc) now s in
        (w, match w with Some _ => pin (vc_version_id vc) now s | None => s end)
    end.

Definition vc_release (cfg : CacheConfig) (vc : VersionCache) (s : LocalCache) : LocalCache := release cfg (vc_version_id vc) s.

(** ** What is staged is read back

    An upload staged into the local cache is complete there and is read back,
    byte for byte, while no store has it yet; a message over a complete entry
    delivers the version. *)

(** A full entry answers for the whole version. *)
Lemma full_complete e : full e -> is_complete e = true.
Proof.
  intros Hf. unfold is_complete. destruct (ce_size e =? 0); [done|]. cbn [orb]. apply forallb_forall. intros x Hx%list_elem_of_In%list_elem_of_lookup.
  destruct Hx as [k Hk]. pose proof (lookup_lt_Some _ _ _ Hk) as Hlt. specialize (Hf (Z.of_nat k) ltac:(unfold blocks, zlen; lia)).
  unfold present_at, znth in Hf. rewrite (proj2 (Z.ltb_ge _ _)), Nat2Z.id, Hk in Hf by lia. simpl in Hf. by rewrite Hf.
Qed.

Lemma complete_present e p : entry_ok e -> is_complete e = true -> 0 <= p < ce_size e -> present_at e (p / ce_block_size e) = true.
Proof.
  intros He Hc Hp. unfold is_complete in Hc. rewrite (proj2 (Z.eqb_neq _ _)) in Hc by lia. cbn [orb] in Hc.
  rewrite forallb_forall in Hc. pose proof (block_of_byte e He p Hp) as Hb. unfold present_at, znth. rewrite (proj2 (Z.ltb_ge _ _)) by lia.
  destruct (ce_present e !! Z.to_nat (p / ce_block_size e)) as [x|] eqn:Hx; simpl.
  - apply Hc. apply list_elem_of_In, list_elem_of_lookup. eauto.
  - apply lookup_ge_None in Hx. unfold blocks, zlen in Hb. lia.
Qed.

Section StagingProps.
  Context (content : string -> bytes) (cfg : CacheConfig) (Hblock : 0 < block_bytes cfg) (v : string).
  Local Abbreviation c := (content v).

(** ** Reading a complete version *)

Lemma complete_read begin last now s : steady content cfg s -> complete v s = true -> 0 <= begin <= last -> last < zlen c ->
  let r := cache_read v begin last now s in
  yields (zslice begin (last + 1) c) r.1 /\ steady content cfg r.2 /\ (sound s -> fault r.1 = None).
Proof.
  intros Hs Hc Hr Hl. unfold complete in Hc. destruct (entry_of v s) as [e|] eqn:He; [|done]. apply andb_prop in Hc as [_ Hc].
  destruct (co_entry _ (steady_cache _ _ _ Hs) v e He) as (Heo & _). destruct Hs as [Hm Ht]. destruct (to_entries _ _ Ht v e He) as (Hsz & _).
  destruct (cache_read_yields content cfg v begin last now s) as (H1 & H2 & _ & _ & H3); [by split|done|done| |].
  - intros e' He' p Hp. assert (e' = e) as -> by congruence. apply complete_present; [done|done|lia].
  - split; [done|]. split; [done|]. by apply (H3 e).
Qed.

(** ** A writer at work on a disk that does not fail *)

Definition writing (s : LocalCache) (w : StagingWriter) (st : WStatus) : Machine :=
  {| mc_cache := s; mc_fills := []; mc_writers := [(w, st)] |}.

Record staging (w : StagingWriter) (st : WStatus) (s : LocalCache) : Prop := {
  sg_mach : mach_ok cfg (writing s w st);
  sg_true : truth_ok content (writing s w st);
  sg_sound : sound s;
  sg_entry : exists e, entry_of v s = Some e /\ ce_uid e = sw_uid w;
  sg_alive : sw_failed w = false;
  sg_version : sw_version_id w = v;
  sg_size : sw_size w = zlen c
}.

Lemma staging_idle w st s : staging w st s -> steady content cfg s.
Proof.
  intros [[A1 A2 A3 A4 A5] [B1 B2 B3] _ _ _ _ _]. split; split; simpl in *; try done; intros *; by intros ?%not_elem_of_nil.
Qed.

(** Only the cache moves, the entry stays. *)
Lemma staging_step w st s s' : staging w st s -> good_step cfg s s' -> keeps s s' -> same_os s s' ->
  (exists e, entry_of v s' = Some e /\ ce_uid e = sw_uid w) -> staging w st s'.
Proof.
  intros [A1 A2 A3 A4 A5 A6 A7] Hg Hk Ho He. split; try done.
  - exact (mach_step cfg s' _ A1 Hg).
  - exact (truth_step content s' _ A2 (keeps_stays _ _ _ Hk)).
  - by eapply sound_same.
Qed.

Lemma write_sync_sound w st data s : staging w st s -> exists w' s', write_sync w data s = (true, w', s') /\
  sw_offset w' = sw_offset w + zlen data /\ is_Some (sw_fd w') /\ sw_uid w' = sw_uid w /\ sw_size w' = sw_size w /\
  sw_version_id w' = sw_version_id w /\ sw_failed w' = sw_failed w /\ same_os s s' /\ lc_entries s' = lc_entries s.
Proof.
  intros [A1 A2 A3 (e & He & Hu) A5 A6 A7]. destruct (to_entries _ _ A2 v e He) as (_ & i & file & Hd & _). simpl in Hd.
  unfold write_sync. set (o := match sw_fd w with Some _ => _ | None => _ end).
  assert (exists j d, o = (Some j, d) /\ dk_os d = dk_os (lc_disk s)) as (j & d & -> & Hos).
  { unfold o. destruct (sw_fd w) as [j|]; [by exists j, (lc_disk s)|]. simpl. rewrite A3, A6, Hd. simpl. eexists _, _. split; [done|]. done. }
  pose proof (os_pwrite (sw_version_id w) j (sw_offset w) data d) as Hp. unfold pwrite_file in *. simpl in *.
  rewrite Hos, A3 in *. destruct (dk_data d !! sw_version_id w) as [[k file']|]; [destruct (bool_decide (k = j))|];
    simpl in *; eexists _, _; (split; [done|]); simpl; split_and!; try done; unfold same_os; simpl; congruence.
Qed.

Lemma writer_write_ok w data s : staging w WIdle s -> data <> [] -> 
  data = zslice (sw_offset w) (sw_offset w + zlen data) c -> sw_offset w + zlen data <= zlen c -> 0 <= sw_offset w ->
  exists w' s', writer_write w data s = (w', s') /\ sw_failed w' = false /\ sw_offset w' = sw_offset w + zlen data /\
    if zlen c <=? sw_offset w' then sw_fd w' = None /\ sw_size w' = zlen c /\ steady content cfg s' /\ sound s' /\ complete v s' = true
    else staging w' WIdle s'.
Proof.
  intros Hst Hne Hdata Hlen Hoff. pose proof (zlen_pos _ Hne) as Hpos.
  destruct (write_sync_sound w WIdle data s Hst) as (w1 & s1 & Hws & Ho1 & Hfd & Hu1 & Hs1 & Hv1 & Hf1 & Hos1 & He1).
  pose proof Hst as [A1 A2 A3 (e & He & Hu) A5 A6 A7].
  assert (nonempty data = true) as Hnd by (by destruct data).
  assert (piece_of content v (sw_offset w) data) as Hpc by done.
  (* the thread *)
  assert (cache_step cfg (EvStageWrite 0 data) (writing s w WIdle) = writing s1 w1 (WWrote true)) as Hstep1
    by (unfold cache_step, writing; simpl; by rewrite A5, Hnd, Hws).
  assert (truthful content (EvStageWrite 0 data) (writing s w WIdle)) as Htr1.
  { simpl. intros x st [= <- <-]. by rewrite A6. }
  assert (mach_ok cfg (writing s1 w1 (WWrote true))) as M1 by (rewrite <- Hstep1; by apply exec_ok).
  assert (truth_ok content (writing s1 w1 (WWrote true))) as T1 by (rewrite <- Hstep1; by apply exec_true).
  (* back from it *)
  set (st2 := if sw_size w1 <=? sw_offset w1 then WClosing else WIdle).
  assert (cache_step cfg (EvStageAfter 0) (writing s1 w1 (WWrote true)) = writing (writer_mark w1 s1) w1 st2) as Hstep2 by done.
  assert (mach_ok cfg (writing (writer_mark w1 s1) w1 st2)) as M2 by (rewrite <- Hstep2; by apply exec_ok).
  assert (truth_ok content (writing (writer_mark w1 s1) w1 st2)) as T2 by (rewrite <- Hstep2; by apply exec_true).
  assert (same_os s (writer_mark w1 s1)) as Hos2 by (eapply same_os_trans; [exact Hos1|apply os_mark]).
  assert (exists e2, entry_of v (writer_mark w1 s1) = Some e2 /\ ce_uid e2 = sw_uid w1) as (e2 & He2 & Hu2).
  { unfold writer_mark. rewrite Hv1, A6. destruct (mark_present_entries v (sw_uid w1) (staged_blocks w1) s1) as [Hm _].
    assert (entry_of v s1 = Some e) as Hes1 by (unfold entry_of in *; congruence). rewrite Hes1 in Hm. unfold entry_of. rewrite Hm.
    destruct (_ && _); [|unfold entry_of in Hes1; exists e; split; [done|congruence]].
    destruct (co_entry _ (mo_cache _ _ M1) v e Hes1) as (_ & Hver & _). rewrite Hver, Dict.get_set_eq. eexists. split; [done|]. simpl. congruence. }
  unfold writer_write. rewrite A5, Hnd, Hws. cbn [orb negb]. rewrite Hs1, A7. destruct (zlen c <=? sw_offset w1) eqn:Hend.
  - unfold st2 in M2, T2. rewrite Hs1, A7, Hend in M2, T2.
    assert (cache_step cfg (EvStageFinish 0) (writing (writer_mark w1 s1) w1 WClosing) =
            writing (writer_finish w1 (writer_mark w1 s1)).2 (writer_finish w1 (writer_mark w1 s1)).1 WIdle) as Hstep3 by done.
    pose proof (exec_ok cfg Hblock (EvStageFinish 0) _ I M2) as M3. pose proof (exec_true content cfg Hblock (EvStageFinish 0) _ M2 I T2) as T3.
    rewrite Hstep3 in M3, T3. eexists _, _. split; [done|]. unfold writer_finish in *. cbn [fst snd] in *. simpl. split; [congruence|]. split; [done|].
    rewrite Hend. split; [done|]. split; [congruence|].
    destruct (mo_writers _ _ M2 w1 WClosing ltac:(left)) as (_ & _ & _ & Hl). destruct (Hl v e2 He2 Hu2) as (_ & _ & _ & _ & _ & Hfull). specialize (Hfull eq_refl).
    set (s3 := save_index _) in *. assert (steady content cfg s3) as Hs3.
    { destruct M3 as [B1 B2 B3 B4 B5], T3 as [C1 C2 C3]. split; split; simpl in *; try done; intros *; by intros ?%not_elem_of_nil. }
    split; [done|]. split; [eapply sound_same; [|exact A3]; eapply same_os_trans; [exact Hos2|]; eapply same_os_trans; [apply os_modify|apply os_save]|].
    unfold complete, s3, entry_of. rewrite entries_save_index. rewrite Hv1, A6. unfold modify_live. rewrite He2.
    rewrite bool_decide_eq_true_2 by done. unfold put_entry. simpl. destruct (co_entry _ (mo_cache _ _ M2) v e2 He2) as (_ & Hver & _).
    rewrite Hver, Dict.get_set_eq. simpl. by apply full_complete.
  - eexists _, _. split; [done|]. split; [congruence|]. split; [done|]. rewrite Hend.
    unfold st2 in M2, T2. rewrite Hs1, A7, Hend in M2, T2. split; try done; [|by eexists|congruence|congruence|congruence].
    by eapply sound_same.
Qed.

(** ** The loop of [stage] *)

Lemma stage_loop_ok {M} `{UploadLaws M} fuel w (m : M) s :
  staging w WIdle s -> readable m -> 0 <= sw_offset w < zlen c -> rest m = zslice (sw_offset w) (zlen c) c ->
  zlen c - sw_offset w < Z.of_nat fuel ->
  exists w' m' s', stage_loop fuel (zlen c - sw_offset w) w (m, s) = (Ok (0, w'), (m', s')) /\
    sw_failed w' = false /\ sw_offset w' = zlen c /\ sw_size w' = zlen c /\ sw_fd w' = None /\
    steady content cfg s' /\ sound s' /\ complete v s' = true.
Proof.
  revert w m s. induction fuel as [|fuel IH]; intros w m s Hst Hr Ho Hrest Hfuel; [lia|]. cbn [stage_loop].
  rewrite (proj2 (Z.leb_gt _ _)) by lia.
  assert (zlen (rest m) = zlen c - sw_offset w) as Hrl by (rewrite Hrest, zlen_zslice by lia; lia).
  assert (rest m <> []) as Hrne by (intros Hn; rewrite Hn, zlen_nil in Hrl; lia).
  destruct (read_spec m (Z.min STAGE_READ_CHUNK (zlen c - sw_offset w)) Hr) as (p & m1 & Hrun & Hr1 & Hsplit & Hpl & Hpne & _);
    [unfold STAGE_READ_CHUNK; lia|]. rewrite Hrun. specialize (Hpne Hrne). pose proof (zlen_pos _ Hpne) as Hpp.
  destruct p as [|b p]; [done|]. set (data := b :: p) in *.
  assert (sw_offset w + zlen data <= zlen c) as Hdl by lia.
  assert (data = zslice (sw_offset w) (sw_offset w + zlen data) c /\ rest m1 = zslice (sw_offset w + zlen data) (zlen c) c) as [Hd Hr2].
  { rewrite Hrest, (zslice_split _ (sw_offset w + zlen data)) in Hsplit by lia. apply app_inj_1 in Hsplit as [E1 E2]; [by split|].
    apply Nat2Z.inj. change (zlen (zslice (sw_offset w) (sw_offset w + zlen data) c) = zlen data). rewrite zlen_zslice by lia. lia. }
  destruct (writer_write_ok w data s Hst Hpne Hd Hdl ltac:(lia)) as (w' & s' & Hw & Hf & Hoff & Hrestw). rewrite Hw, Hf.
  destruct (Z.leb_spec (zlen c) (sw_offset w')) as [Hend|Hmore].
  - destruct Hrestw as (Hfd & Hsz & Hs' & Hsd & Hcomp). exists w', m1, s'. split; [|split_and!; try done; lia].
    destruct fuel as [|fuel]; [lia|]. cbn [stage_loop]. rewrite (proj2 (Z.leb_le _ _)) by lia. repeat f_equal. lia.
  - replace (zlen c - sw_offset w - zlen data) with (zlen c - sw_offset w') by lia. apply IH; [done|done|lia|by rewrite Hoff|lia].
Qed.

End StagingProps.

Lemma os_pin v now s : same_os s (pin v now s).
Proof. unfold pin. destruct (entry_of v s) as [e|]; [|done]. eapply same_os_trans; [|apply os_save]. done. Qed.

Lemma os_open_staging cfg fs v size now s : same_os s (open_staging cfg fs v size now s).2.
Proof.
  unfold open_staging. destruct (negb (cf_enabled cfg) || _); [done|]. set (s1 := if Dict.mem _ _ then _ else _).
  assert (same_os s s1) as H1 by (unfold s1; destruct (Dict.mem _ _); [apply os_remove|done]). destruct (negb _); [exact H1|].
  pose proof (os_make_room cfg size true None s1) as H2. destruct (make_room cfg size true None s1) as [[] s2]; simpl in *.
  - pose proof (os_add cfg fs v size now true s2) as H3. destruct (add_entry _ _ _ _ _ _ _) as [o s3]. simpl in *.
    eapply same_os_trans; [exact H1|]. by eapply same_os_trans.
  - eapply same_os_trans; [exact H1|exact H2].
Qed.

(** The writer [open_staging] returns, in a cache nobody else writes to. *)
Lemma open_staging_spec content cfg fs v now s w s' : 0 < block_bytes cfg -> steady content cfg s -> sound s ->
  open_staging cfg fs v (zlen (content v)) now s = (Some w, s') -> staging content cfg v w WIdle s' /\ sw_offset w = 0.
Proof.
  intros Hb [Hm Ht] Hsd Hrun. pose proof (os_open_staging cfg fs v (zlen (content v)) now s) as Hos. rewrite Hrun in Hos. simpl in Hos.
  pose proof (exec_ok cfg Hb (EvStage fs v (zlen (content v)) now) _ I Hm) as M1.
  pose proof (exec_true content cfg Hb (EvStage fs v (zlen (content v)) now) _ Hm eq_refl Ht) as T1.
  unfold cache_step in M1, T1. simpl in M1, T1. rewrite Hrun in M1, T1.
  destruct (good_open_staging cfg Hb fs v _ now s (Some w) s' (mo_cache _ _ Hm) Hrun) as [_ Hw].
  destruct (Hw w eq_refl) as (_ & e & He & _ & Heq). rewrite Heq in *. simpl in *.
  split; [|done]. split; try done; [by eapply sound_same|]. by exists e.
Qed.



(** ** Reading an entry back for the stores *)

Lemma cache_read_entries v begin last now s e : cache_ok s -> entry_of v s = Some e -> 
  exists e', entry_of v (cache_read v begin last now s).2 = Some e' /\ (e' = e \/ e' = with_last_access now e).
Proof.
  intros Hok He. assert (forall fuel offset last s, lc_entries (cache_read_loop fuel v offset last s).2 = lc_entries s) as Hloop.
  { clear. induction fuel as [|fuel IH]; intros offset last s; cbn [cache_read_loop]; destruct (last <? offset); try done.
    unfold read_chunk. destruct (os_call (lc_disk s)) as [[x|] d]; [done|]. destruct (dk_data d !! v) as [[i c]|]; [|done].
    destruct (zslice _ _ c) as [|b bs]; [done|]. specialize (IH (offset + zlen (b :: bs)) last (with_disk d s)).
    destruct (cache_read_loop fuel v _ last (with_disk d s)). exact IH. }
  unfold cache_read, read_start. rewrite He. destruct (negb _); [exists e; split; [exact He|by left]|].
  destruct (co_entry _ Hok v e He) as (_ & Hver & _). exists (with_last_access now e). split; [|by right].
  unfold entry_of. rewrite Hloop. unfold put_entry. simpl. rewrite Hver. apply Dict.get_set_eq.
Qed.

Lemma cache_read_keeps_complete v begin last now s : cache_ok s -> complete v s = true -> complete v (cache_read v begin last now s).2 = true.
Proof.
  intros Hok. unfold complete. destruct (entry_of v s) as [e|] eqn:He; [|done]. intros Hc.
  destruct (cache_read_entries v begin last now s e Hok He) as (e' & -> & [-> | ->]); done.
Qed.

Section FromCache.
  Context (content : string -> bytes) (cfg : CacheConfig) (Hblock : 0 < block_bytes cfg).

(** The cache still has what the message reads. *)
Definition from_cache (m : FileMessageFromCache) : Prop :=
  steady content cfg (fm_cache m) /\ sound (fm_cache m) /\ complete (fm_version m) (fm_cache m) = true /\
  0 <= fm_begin m /\ fm_begin m + um_size (fm_um m) <= zlen (content (fm_version m)) /\
  0 <= um_offset (fm_um m) + um_read_size (fm_um m) /\ 0 <= um_size (fm_um m).

Definition cache_rest (m : FileMessageFromCache) : bytes :=
  zslice (fm_begin m + (um_offset (fm_um m) + um_read_size (fm_um m))) (fm_begin m + um_size (fm_um m)) (content (fm_version m)).

(** What a store may rely on when it uploads from the cache. *)
#[program] Definition cache_upload_laws : UploadLaws FileMessageFromCache := {|
  readable := from_cache;
  rest := cache_rest
|}.
Next Obligation.
  intros m n (Hs & Hsd & Hc & H0 & H1 & H2 & H3) Hn. cbn [um_read cache_uploadable]. unfold fm_read, cache_read_bytes.
  set (pos := fm_begin m + um_offset (fm_um m) + um_read_size (fm_um m)). unfold cache_rest.
  replace (fm_begin m + (um_offset (fm_um m) + um_read_size (fm_um m))) with pos by (unfold pos; lia).
  set (last := Z.min (pos + n) (fm_begin m + um_size (fm_um m)) - 1).
  destruct (Z.ltb_spec last pos) as [Hlt|Hge].
  - exists [], m. split; [done|]. split; [by split_and!|]. rewrite zslice_nil by lia. split; [|split; [rewrite zlen_nil; lia|by split]].
    rewrite zslice_nil; [done|unfold pos in *; lia].
  - destruct (complete_read content cfg (fm_version m) pos last (fm_now m) (fm_cache m)) as (Hy & Hst & Hf); [done|done|lia|lia|].
    pose proof (cache_read_keeps_complete (fm_version m) pos last (fm_now m) (fm_cache m) (steady_cache _ _ _ Hs) Hc) as Hc'.
    assert (same_os (fm_cache m) (cache_read (fm_version m) pos last (fm_now m) (fm_cache m)).2) as Hos.
    { destruct (cache_read_yields content cfg (fm_version m) pos last (fm_now m) (fm_cache m)) as (_ & _ & _ & Ho & _); [done|lia|lia| |done].
      intros e He p Hp. unfold complete in Hc. rewrite He in Hc. apply andb_prop in Hc as [_ Hc].
      destruct (co_entry _ (steady_cache _ _ _ Hs) _ e He) as (Heo & _). destruct Hs as [_ Ht]. destruct (to_entries _ _ Ht _ e He) as (Hsz & _).
      apply complete_present; [done|done|lia]. }
    destruct (cache_read (fm_version m) pos last (fm_now m) (fm_cache m)) as [x c']. cbn [fst snd] in *. specialize (Hf Hsd).
    unfold yields in Hy. rewrite Hf in Hy. unfold join_stream. rewrite Hf.
    assert (zlen (stream_bytes x) = last + 1 - pos) as Hl by (rewrite Hy, zlen_zslice by lia; lia).
    eexists _, _. split; [done|]. split; [|split; [|split; [lia|split; [|done]]]].
    + split; [exact Hst|]. split; [by eapply sound_same|]. split; [exact Hc'|]. simpl. split_and!; try done. lia.
    + simpl. rewrite Hy. rewrite (zslice_split pos (last + 1)) by lia. f_equal. f_equal. rewrite <- Hy, Hl. unfold pos. lia.
    + intros _ Hn0. rewrite Hn0, zlen_nil in Hl. lia.
Qed.

End FromCache.

(** ** A message over the cache in several parts *)

(** A store that uploads a message part by part gives it the size of the
    part and moves it on ([next_part]).  A message over the cache takes the
    size for its end, so from the second part on every read is empty: the
    bytes behind the first part are not uploaded, whatever the cache has. *)
Theorem later_parts_read_nothing (m : FileMessageFromCache) u part last n :
  um_offset (fm_um m) = 0 -> last <= part ->
  um_size u = last -> um_offset u = um_offset (um (next_part part m)) -> um_read_size u = um_read_size (um (next_part part m)) ->
  um_read n (with_um u (next_part part m)) = (Ok [], with_um u (next_part part m)).
Proof.
  intros Ho Hl Hs Hu Hr. cbn [um_read with_um next_part cache_uploadable um]. unfold fm_read. cbn [fm_with fm_um fm_begin].
  change (um (next_part part m)) with (um_next_part part (fm_um m)) in Hu, Hr. rewrite Hs, Hu, Hr. unfold um_next_part at 1 2 3 4.
  cbn [um_set_read um_offset um_read_size]. rewrite Ho. rewrite (proj2 (Z.ltb_lt _ _)) by lia. done.
Qed.

Lemma later_parts_read_nothing_witness :
  let c := LocalCacheProps.empty_cache {| dk_data := ∅; dk_map := ∅; dk_index := None; dk_os := fun _ => Some 0; dk_free := fun _ => None; dk_calls := 0 |} in
  let m := next_part 3 (cache_message "v" "f" 5 0 None 0 c) in
  let u := {| um_name := "[part2]f"; um_size := 2; um_caption := ""; um_offset := 3; um_read_size := 0; um_version_id := None |} in
  um_read 2 (with_um u m) = (Ok [], with_um u m).
Proof. intros c m u. by apply (later_parts_read_nothing (cache_message "v" "f" 5 0 None 0 c) u 3 2 2). Defined.

(** ** A staged message is the message it wraps *)

(** Caching cannot disturb an upload.  Whatever sequence of opens, reads,
    parts and closes a store performs on a staged message, and whatever the
    disk does meanwhile, the wrapped message goes through the same sequence:
    the same bytes are read. *)
Theorem staged_message_transparent {M} `{Uploadable M} (s s' : StagedFileMessage M) b :
  reads s b s' -> reads (sg_inner s) b (sg_inner s').
Proof.
  induction 1 as [s|s s1 b s2 Ho _ IH|n s b s2 _ IH|n s p s1 b s2 Hn Hr _ IH|s s1 b s2 Hc _ IH].
  - constructor.
  - cbn [um_open staged_uploadable] in Ho. unfold sg_on_inner in Ho. destruct (um_open (sg_inner s)) as [r m] eqn:Hm. injection Ho as -> <-.
    by eapply reads_open.
  - by apply (reads_next n).
  - cbn [um_read staged_uploadable] in Hr. unfold staged_read in Hr. destruct (um_read n (sg_inner s)) as [[d|ex] m] eqn:Hm; [|done].
    destruct (if nonempty d then _ else _) as [w c]. injection Hr as <- <-. by eapply reads_read.
  - cbn [um_close staged_uploadable] in Hc. unfold sg_on_inner in Hc. destruct (um_close (sg_inner s)) as [r m] eqn:Hm. injection Hc as -> <-.
    by eapply reads_close.
Qed.

Lemma staged_message_transparent_witness :
  let d := {| dk_data := ∅; dk_map := ∅; dk_index := None; dk_os := fun _ => Some 0; dk_free := fun _ => None; dk_calls := 0 |} in
  let w := {| sw_version_id := "v"; sw_uid := 0; sw_size := 3; sw_block_size := 65536; sw_blocks := 1; sw_offset := 0; sw_fd := None; sw_failed := false |} in
  exists s1 : FileMessageFromBuffer, reads (buffer_message abc "f") (abc ++ []) s1.
Proof.
  intros d w. set (s := staged_wrap (buffer_message abc "f") w (empty_cache d)).
  set (s1 := (um_open s).2). set (s2 := (um_read 3 s1).2).
  assert (Hr : reads s (abc ++ []) s2).
  { eapply (reads_open s s1); [vm_compute; reflexivity|]. eapply (reads_read 3 s1 abc s2); [lia|vm_compute; reflexivity|constructor]. }
  exists (sg_inner s2). exact (staged_message_transparent s s2 (abc ++ []) Hr).
Defined.
