(* ===== verification/Api.v ===== *)
(** * The file system API
      ([tgdcfs/core/api/]: [metadata.py], [file_desc.py], [file.py],
      [directory.py], and what they ask of [stat.py])

    One file system is the tree (a heap), the stores, the metadata
    repository, the batch counter of [MetaDataApi] and the folders whose
    stored stats are out of date ([FileStatApi]).  [datetime.now()] and
    [uuid4()] are drawn from arbitrary sequences in the state.  The content
    repository is any [ContentRepo] over the same stores, the metadata
    repository any [MetaRepo]. *)

From S2P Require Import Prelude Errors Messages FileVersion Contents Stores FileContent FileRefs Directory Mirror FdRepo.

Open Scope Z_scope.
Open Scope py_scope.

(** [IMetaDataRepository]: [M] is the state of the repository itself.  [push]
    writes the tree below [root]; the stats of a folder may be kept apart. *)
Class MetaRepo (M W : Type) := {
  md_push : nat -> heap -> st exn (M * Live W) unit;
  md_push_writes_stats : bool;
  md_load_stats : nat -> st exn (M * heap * Live W) bool;
  md_stats_stored : nat -> nat -> heap -> M -> bool * M;
  md_save_stats : nat -> list nat -> bool -> st exn (M * heap * Live W) unit
}.

(** What arrives to be stored under a name. *)
Inductive FileMessage :=
| FUploadable (M : Type) (U : Uploadable M) (m : M)
| FImported (name : string) (size message_id : Z)
| FEmpty (name : string).

Definition fm_name (f : FileMessage) : string :=
  match f with
  | FUploadable M U m => um_name (um m)
  | FImported name _ _ => name
  | FEmpty name => name
  end.

Record Fs (W M : Type) := {
  fs_heap : heap;
  fs_live : Live W;
  fs_repo : M;
  fs_root : option nat;                          (* metadata.dir, once loaded *)
  fs_batch_depth : Z;
  fs_pending : bool;
  fs_dirty : list nat;                           (* folders, by identity, in order *)
  fs_dirty_since : option Z;
  fs_last_mark : Z;
  fs_urgent : bool;
  fs_clock : nat -> datetime;                    (* what datetime.now() returns next *)
  fs_uuids : nat -> string;
  fs_drawn : nat
}.
Arguments fs_heap {W M}. Arguments fs_live {W M}. Arguments fs_repo {W M}. Arguments fs_root {W M}.
Arguments fs_batch_depth {W M}. Arguments fs_pending {W M}. Arguments fs_dirty {W M}. Arguments fs_dirty_since {W M}.
Arguments fs_last_mark {W M}. Arguments fs_urgent {W M}. Arguments fs_clock {W M}. Arguments fs_uuids {W M}.
Arguments fs_drawn {W M}.

(** The configuration of one file system. *)
Record ApiConfig := {
  ac_fd : FDConfig;                              (* the store, the mirror group, the cache *)
  ac_inline_mirroring : bool;
  ac_written_gaps_only : bool;
  ac_write_ack_cache : bool;
  ac_persist : bool;                             (* listing.stat_in_metadata *)
  ac_validate : bool                             (* listing.validate_on_list *)
}.

Section Api.
  Context {W M : Type} `{Stores W} `{FDJson} `{ContentRepo (Live W)} `{MetaRepo M W} (ac : ApiConfig).
  Context (on_written : option (nat -> st exn (Fs W M) unit)).
  Local Abbreviation fst_ := (st exn (Fs W M)).

Definition store_key : string := fc_key (ac_fd ac).

(** ** The parts of the state *)

Definition with_heap (h : heap) (s : Fs W M) : Fs W M :=
  {| fs_heap := h; fs_live := fs_live s; fs_repo := fs_repo s; fs_root := fs_root s; fs_batch_depth := fs_batch_depth s;
     fs_pending := fs_pending s; fs_dirty := fs_dirty s; fs_dirty_since := fs_dirty_since s;
     fs_last_mark := fs_last_mark s; fs_urgent := fs_urgent s; fs_clock := fs_clock s; fs_uuids := fs_uuids s;
     fs_drawn := fs_drawn s |}.
Definition with_live (l : Live W) (s : Fs W M) : Fs W M :=
  {| fs_heap := fs_heap s; fs_live := l; fs_repo := fs_repo s; fs_root := fs_root s; fs_batch_depth := fs_batch_depth s;
     fs_pending := fs_pending s; fs_dirty := fs_dirty s; fs_dirty_since := fs_dirty_since s;
     fs_last_mark := fs_last_mark s; fs_urgent := fs_urgent s; fs_clock := fs_clock s; fs_uuids := fs_uuids s;
     fs_drawn := fs_drawn s |}.
Definition with_repo (m : M) (s : Fs W M) : Fs W M :=
  {| fs_heap := fs_heap s; fs_live := fs_live s; fs_repo := m; fs_root := fs_root s; fs_batch_depth := fs_batch_depth s;
     fs_pending := fs_pending s; fs_dirty := fs_dirty s; fs_dirty_since := fs_dirty_since s;
     fs_last_mark := fs_last_mark s; fs_urgent := fs_urgent s; fs_clock := fs_clock s; fs_uuids := fs_uuids s;
     fs_drawn := fs_drawn s |}.
Definition with_root (r : option nat) (s : Fs W M) : Fs W M :=
  {| fs_heap := fs_heap s; fs_live := fs_live s; fs_repo := fs_repo s; fs_root := r; fs_batch_depth := fs_batch_depth s;
     fs_pending := fs_pending s; fs_dirty := fs_dirty s; fs_dirty_since := fs_dirty_since s;
     fs_last_mark := fs_last_mark s; fs_urgent := fs_urgent s; fs_clock := fs_clock s; fs_uuids := fs_uuids s;
     fs_drawn := fs_drawn s |}.
Definition with_batch (depth : Z) (pending : bool) (s : Fs W M) : Fs W M :=
  {| fs_heap := fs_heap s; fs_live := fs_live s; fs_repo := fs_repo s; fs_root := fs_root s; fs_batch_depth := depth;
     fs_pending := pending; fs_dirty := fs_dirty s; fs_dirty_since := fs_dirty_since s;
     fs_last_mark := fs_last_mark s; fs_urgent := fs_urgent s; fs_clock := fs_clock s; fs_uuids := fs_uuids s;
     fs_drawn := fs_drawn s |}.
Definition with_dirty (dirty : list nat) (since : option Z) (mark : Z) (urgent : bool) (s : Fs W M) : Fs W M :=
  {| fs_heap := fs_heap s; fs_live := fs_live s; fs_repo := fs_repo s; fs_root := fs_root s; fs_batch_depth := fs_batch_depth s;
     fs_pending := fs_pending s; fs_dirty := dirty; fs_dirty_since := since;
     fs_last_mark := mark; fs_urgent := urgent; fs_clock := fs_clock s; fs_uuids := fs_uuids s;
     fs_drawn := fs_drawn s |}.
Definition with_drawn (n : nat) (s : Fs W M) : Fs W M :=
  {| fs_heap := fs_heap s; fs_live := fs_live s; fs_repo := fs_repo s; fs_root := fs_root s; fs_batch_depth := fs_batch_depth s;
     fs_pending := fs_pending s; fs_dirty := fs_dirty s; fs_dirty_since := fs_dirty_since s;
     fs_last_mark := fs_last_mark s; fs_urgent := fs_urgent s; fs_clock := fs_clock s; fs_uuids := fs_uuids s;
     fs_drawn := n |}.

Definition on_heap {A} (m : hst A) : fst_ A := fun s => let '(r, h) := m (fs_heap s) in (r, with_heap h s).
Definition on_live {A} (m : st exn (Live W) A) : fst_ A := fun s => let '(r, l) := m (fs_live s) in (r, with_live l s).
Definition on_store {A} (m : st exn W A) : fst_ A := on_live (onw m).
Definition the_heap : fst_ heap := fun s => (Ok (fs_heap s), s).

(** [datetime.now()] and [str(uuid4())]. *)
Definition now : fst_ datetime := fun s => (Ok (fs_clock s (fs_drawn s)), with_drawn (S (fs_drawn s)) s).
Definition uuid : fst_ string := fun s => (Ok (fs_uuids s (fs_drawn s)), with_drawn (S (fs_drawn s)) s).

(** [try: m finally: f]: [f] runs in any case; its own exception wins. *)
Definition sfinally {A} (m : fst_ A) (f : fst_ unit) : fst_ A := fun s =>
  let '(r, s) := m s in
  let '(x, s) := f s in
  match x with Raise ex => (Raise ex, s) | Ok _ => (r, s) end.

(** ** [MetaDataApi] *)

Definition get_root_directory : fst_ nat := fun s =>
  match fs_root s with Some d => (Ok d, s) | None => (Raise MetadataNotInitialized, s) end.

Definition repo_push : fst_ unit := fun s =>
  match fs_root s with
  | None => (Raise MetadataNotInitialized, s)
  | Some root => let '(r, (m, l)) := md_push root (fs_heap s) (fs_repo s, fs_live s) in (r, with_repo m (with_live l s))
  end.

Definition push : fst_ unit := fun s =>
  if negb (fs_batch_depth s =? 0) then (Ok tt, with_batch (fs_batch_depth s) true s) else repo_push s.

(** The [finally] of [batch]. *)
Definition end_batch : fst_ unit := fun s =>
  let s := with_batch (fs_batch_depth s - 1) (fs_pending s) s in
  if (fs_batch_depth s =? 0) && fs_pending s then repo_push (with_batch (fs_batch_depth s) false s) else (Ok tt, s).

(** [async with batch(): body]. *)
Definition batch {A} (body : fst_ A) : fst_ A := fun s =>
  sfinally body end_batch (with_batch (fs_batch_depth s + 1) (fs_pending s) s).

Definition reset : fst_ unit :=
  let! t := now in
  let! d := on_heap (root_dir t) in
  fun s => (Ok tt, with_root (Some d) s).

(** ** [FileStatApi], as far as changes concern it *)

Definition mark (directory : nat) (urgent : bool) : fst_ unit := fun s =>
  let t := st_now (lv_world (fs_live s)) in
  let since := if nonempty (fs_dirty s) then fs_dirty_since s else Some t in
  let dirty := if bool_decide (directory ∈ fs_dirty s) then fs_dirty s else fs_dirty s ++ [directory] in
  (Ok tt, with_dirty dirty since t (fs_urgent s || urgent) s).

Definition stored (directory : nat) : fst_ bool := fun s =>
  match fs_root s with
  | None => (Raise MetadataNotInitialized, s)
  | Some root =>
      let '(b, m) := md_stats_stored root directory (fs_heap s) (fs_repo s) in (Ok b, with_repo m s)
  end.

Definition changed (directory : nat) (pushed : bool) : fst_ unit :=
  if pushed && md_push_writes_stats then sret tt
  else if ac_persist ac then mark directory true
  else
    let! b := stored directory in
    if b then mark directory true else sret tt.

Definition with_stat (st : option FileStat) (epoch : Z) (x : TGFSFileRef) : TGFSFileRef :=
  {| fr_message_id := fr_message_id x; fr_name := fr_name x; fr_location := fr_location x; fr_mirrors := fr_mirrors x;
     fr_store := fr_store x; fr_stat := st; fr_stat_epoch := epoch |}.

Definition invalidate (fr : nat) (pushed : bool) : fst_ unit :=
  let! h := the_heap in
  on_heap (modify_ref fr (fun x => with_stat (fr_stat x) (fr_stat_epoch x + 1) x)) ;;;
  let location := fr_location (ref_at h fr) in
  let drop := (on_heap (modify_ref fr (fun x => with_stat None (fr_stat_epoch x) x)) ;;; changed location pushed) in
  match fr_stat (ref_at h fr) with
  | Some _ => drop
  | None => let! b := stored location in if b then drop else sret tt
  end.

(** ** [FileDescApi] *)

(** [fd_repo.get(fr)]: the ref is relocated in place before anything is read. *)
Definition get_file_desc (fr : nat) (include_all validate : bool) : fst_ TGFSFileDesc :=
  let! t := now in
  on_heap (modify_ref fr (ref_relocate store_key)) ;;;
  let! h := the_heap in
  let! (_, fd) := on_live (fd_get (ac_fd ac) t (ref_at h fr) include_all validate) in
  sret fd.

(** [fd_repo.save(fd, fr)]. *)
Definition save_file_desc (fd : TGFSFileDesc) (fr : option nat) : fst_ FDRepositoryResp :=
  let! h := the_heap in
  on_live (fd_save (ac_fd ac) fd (option_map (ref_at h) fr)).

Definition save_new_file_desc (fd : TGFSFileDesc) : fst_ FDRepositoryResp := save_file_desc fd None.

Definition get_sent_file_message (f : FileMessage) : fst_ (list SentFileMessage) :=
  match f with
  | FUploadable Mt U m => on_live (cr_save Mt U m)
  | FImported _ size message_id =>
      sret [{| sm_message_id := message_id; sm_size := size; sm_mirrors := []; sm_replicas := [] |}]
  | FEmpty _ => sret []
  end.

(** [TGFSFileVersion.from_sent_file_message] of the messages sent. *)
Definition sent_version (version_id : string) (sent : list SentFileMessage) : fst_ TGFSFileVersion :=
  let! t := now in
  let! u := (if truthy (Some version_id) then sret EmptyString else uuid) in
  sret (from_sent_file_message t u None (Some version_id) sent).

Definition new_version (f : FileMessage) (version_id : string) : fst_ (option TGFSFileVersion) :=
  match f with
  | FUploadable Mt U m =>
      let m := with_um (um_set_version (Some version_id) (um m)) m in
      let! staged := (if ac_write_ack_cache ac then on_live (cr_stage Mt U m version_id) else sret None) in
      match staged with
      | Some size => let! t := now in sret (Some (pending_version t version_id size))
      | None =>
          let! sent := get_sent_file_message (FUploadable Mt U m) in
          let! v := sent_version version_id sent in sret (Some v)
      end
  | FImported name size message_id =>
      let! sent := get_sent_file_message (FImported name size message_id) in
      let! v := sent_version version_id sent in sret (Some v)
  | FEmpty _ => sret None
  end.

(** A method of the descriptor. *)
Definition on_desc {A} (m : st exn TGFSFileDesc A) (fd : TGFSFileDesc) : fst_ TGFSFileDesc :=
  slift (match m fd with (Ok _, fd) => Ok fd | (Raise ex, _) => Raise ex end).

Definition append_file_version (f : FileMessage) (fr : option nat) : fst_ FDRepositoryResp :=
  let! fd := (match fr with
              | Some r => get_file_desc r false true
              | None => let! t := now in slift (new_file_desc t (fm_name f))
              end) in
  let! version_id := uuid in
  let! version := new_version f version_id in
  let! fd := (match version with
              | Some v => on_desc (add_version v) fd
              | None => let! t := now in let! u := uuid in on_desc (add_empty_version t u) fd
              end) in
  save_file_desc fd fr.

Definition create_file_desc (f : FileMessage) : fst_ FDRepositoryResp := append_file_version f None.

Definition update_file_version (fr : nat) (f : FileMessage) (version_id : string) : fst_ FDRepositoryResp :=
  let! fd := get_file_desc fr false true in
  let! version := new_version f version_id in
  let! fd := (match version with
              | Some fv => sret (update_version version_id fv fd)
              | None => let! fv := slift (get_version version_id fd) in
                        sret (update_version version_id (set_invalid fv) fd)
              end) in
  save_file_desc fd (Some fr).

Definition desc_set_last_modified (fr : nat) (when : datetime) : fst_ FDRepositoryResp :=
  let! fd := get_file_desc fr false true in
  let! fd := on_desc (set_last_modified when) fd in
  save_file_desc fd (Some fr).

Definition delete_file_version (fr : nat) (version_id : string) : fst_ FDRepositoryResp :=
  let! fd := get_file_desc fr false true in
  let! fd := on_desc (delete_version version_id) fd in
  let! resp := save_file_desc fd (Some fr) in
  on_live (cr_forget [version_id]) ;;;
  sret resp.

Definition download_file_at_version (fv : TGFSFileVersion) (begin last : Z) (as_name : string) : fst_ stream :=
  on_live (cr_get fv begin last as_name true).

(** ** [FileApi]: the messages behind a file *)

Definition MirrorMessageIds := dict string (list Z).

(** [d.setdefault(k, []).extend(l)]. *)
Definition extend_ids (k : string) (l : list Z) (d : MirrorMessageIds) : MirrorMessageIds :=
  Dict.set k (default [] (Dict.get k d) ++ l) d.

Definition positive_ids (l : list Z) : list Z := List.filter (fun m => 0 <? m) l.

Definition merge_mirror_ids (target : MirrorMessageIds) (source : dict string Z) : MirrorMessageIds :=
  foldl (fun acc km => if 0 <? km.2 then extend_ids km.1 [km.2] acc else acc) target source.

Definition collect_ref_ids (fr : TGFSFileRef) (acc : list Z * MirrorMessageIds) : list Z * MirrorMessageIds :=
  let '(ids, mirror_ids) := acc in
  let '(ids, mirror_ids) :=
    if 0 <? fr_message_id fr then
      if ref_owned_by store_key fr then (ids ++ [fr_message_id fr], mirror_ids)
      else if truthy (fr_store fr)
           then (ids, extend_ids (default EmptyString (fr_store fr)) [fr_message_id fr] mirror_ids)
           else (ids, mirror_ids)
    else (ids, mirror_ids) in
  (ids, merge_mirror_ids mirror_ids (fr_mirrors fr)).

Definition collect_version_ids (v : TGFSFileVersion) (acc : list Z * MirrorMessageIds) : list Z * MirrorMessageIds :=
  let '(ids, mirror_ids) := acc in
  let owned := positive_ids (message_ids v) in
  let '(ids, mirror_ids) :=
    if owned_by store_key v then (ids ++ owned, mirror_ids)
    else if truthy (store v) then (ids, extend_ids (default EmptyString (store v)) owned mirror_ids)
    else (ids, mirror_ids) in
  let mirror_ids := foldl (fun acc ki => extend_ids ki.1 (positive_ids ki.2) acc) mirror_ids (mirrors v) in
  foldl (fun acc kr =>
           if bool_decide (kr.1 = store_key) then (acc.1 ++ positive_ids (r_message_ids kr.2), acc.2)
           else (acc.1, extend_ids kr.1 (positive_ids (r_message_ids kr.2)) acc.2))
        (ids, mirror_ids) (replicas v).

Definition collect_versions (vs : list TGFSFileVersion) (acc : list Z * MirrorMessageIds) : list Z * MirrorMessageIds :=
  foldl (fun acc v => collect_version_ids v acc) acc vs.

(** [collect_all_message_ids]: the ids and the ids of the versions seen. *)
Definition collect_all_message_ids (fr : nat) : fst_ (list Z * MirrorMessageIds * list string) :=
  let! fd := stry (let! fd := get_file_desc fr false true in sret (Some fd))
                  (fun ex => if is_Exception ex then sret None else sraise ex) in
  let! h := the_heap in
  let acc := collect_ref_ids (ref_at h fr) ([], []) in
  match fd with
  | None => sret (acc, [])
  | Some fd => sret (collect_versions (get_versions false false fd) acc, map fv_id (get_versions false false fd))
  end.

Definition collect_version_message_ids (fr : nat) (version_id : string) : fst_ (list Z * MirrorMessageIds) :=
  stry (let! fd := get_file_desc fr false true in
        let! v := slift (get_version version_id fd) in
        sret (collect_version_ids v ([], [])))
       (fun ex => if is_Exception ex then sret ([], []) else sraise ex).

Definition delete_mirrored (mirror_ids : MirrorMessageIds) (force : bool) : fst_ unit :=
  match fc_group (ac_fd ac) with
  | Some mg => if nonempty mirror_ids then on_store (group_delete mg mirror_ids force) else sret tt
  | None => sret tt
  end.

(** [_iter_file_refs] and [__subtree_file_refs]: the refs below a directory. *)
Fixpoint subtree_refs (fuel : nat) (h : heap) (d : nat) : list nat :=
  match fuel with
  | O => []
  | S fuel => find_files h d [] ++ concat (map (subtree_refs fuel h) (find_dirs h d []))
  end.

Definition iter_file_refs (h : heap) (d : nat) : list nat := subtree_refs (size (h_dirs h)) h d.

Definition descriptors_referenced_elsewhere (removing : list nat) : fst_ (list Z) :=
  let! root := get_root_directory in
  let! h := the_heap in
  sret (List.filter (fun m => 0 <? m)
          (map (fun r => fr_message_id (ref_at h r))
               (List.filter (fun r => negb (bool_decide (r ∈ removing))) (iter_file_refs h root)))).

Fixpoint collect_loop (shared : list Z) (frs : list nat) (ids : list Z) (mirror_ids : MirrorMessageIds)
    (version_ids : list string) : fst_ (list Z * MirrorMessageIds * list string) :=
  match frs with
  | [] => sret (ids, mirror_ids, version_ids)
  | fr :: frs =>
      let! h := the_heap in
      if bool_decide (fr_message_id (ref_at h fr) ∈ shared) then collect_loop shared frs ids mirror_ids version_ids
      else
        let! (fr_ids, fr_mirror_ids, vids) := collect_all_message_ids fr in
        collect_loop shared frs (ids ++ fr_ids)
          (foldl (fun acc ki => extend_ids ki.1 ki.2 acc) mirror_ids fr_mirror_ids) (version_ids ++ vids)
  end.

Definition collect_deletable_message_ids (frs : list nat) : fst_ (list Z * MirrorMessageIds * list string) :=
  let! shared := descriptors_referenced_elsewhere frs in
  collect_loop shared frs [] [] [].

(** ** [FileApi]: changes *)

(** [_written]: the queue is told about a file that changed. *)
Definition written (fr : nat) (fd : option TGFSFileDesc) : fst_ unit :=
  match on_written with
  | None => sret tt
  | Some notify =>
      match fd, fc_group (ac_fd ac) with
      | Some fd, Some mg =>
          if ac_written_gaps_only ac &&
             negb (existsb (fun v => nonempty (missing_stores mg v)) (List.filter is_valid (get_versions false false fd)))
          then sret tt else notify fr
      | _, _ => notify fr
      end
  end.

(** One version of [_duplicate_versions], with the ids of its new parts. *)
Definition duplicate_version (v : TGFSFileVersion) (new_id : string) (parts : list Z) : fst_ TGFSFileVersion :=
  let nv := {| fv_id := new_id; updated_at := updated_at v; fv_size_field := INVALID_FILE_SIZE; message_ids := parts;
               part_sizes := part_sizes v; mirrors := []; replicas := []; store := Some store_key; pending := false;
               cacheable := true; recorded_size := INVALID_FILE_SIZE |} in
  match fc_group (ac_fd ac) with
  | Some mg =>
      if ac_inline_mirroring ac && nonempty (message_ids v) then
        let! copies := on_store (mirror_parts mg parts (some_nonempty (part_sizes v)) None None None) in
        sret (apply_to copies nv)
      else sret nv
  | None => sret nv
  end.

Fixpoint duplicate_loop (vs : list TGFSFileVersion) (new_parts : list Z) (offset : Z) (copied : TGFSFileDesc)
    (version_ids : dict string string) : fst_ (TGFSFileDesc * dict string string) :=
  match vs with
  | [] => sret (copied, version_ids)
  | v :: vs =>
      let n := zlen (message_ids v) in
      let! new_id := uuid in
      let! nv := duplicate_version v new_id (zslice offset (offset + n) new_parts) in
      let! copied := on_desc (add_version nv) copied in
      duplicate_loop vs new_parts (offset + n) copied (Dict.set (fv_id v) new_id version_ids)
  end.

Definition duplicate_versions (fd : TGFSFileDesc) : fst_ TGFSFileDesc :=
  let versions := get_versions true false fd in
  let parts := concat (map message_ids versions) in
  let! new_parts := on_store (st_copy_within store_key parts) in
  let! t := now in
  let! copied := slift (new_file_desc t (fd_name fd)) in
  let! (copied, version_ids) := duplicate_loop versions new_parts 0 copied [] in
  let copied := with_created (created_at fd) copied in
  let latest := Dict.get (latest_version_id fd) version_ids in
  sret (if truthy latest then with_latest (default EmptyString latest) copied else copied).

(** [_discard_orphans]: whatever fails is only logged. *)
Definition discard_orphans (fd : TGFSFileDesc) (resp : option FDRepositoryResp) : fst_ unit :=
  let acc := match resp with
             | Some r => ([rp_message_id r], merge_mirror_ids [] (rp_mirrors r))
             | None => ([], [])
             end in
  let '(ids, mirror_ids) := collect_versions (get_versions false false fd) acc in
  stry (on_store (st_delete store_key ids true) ;;; delete_mirrored mirror_ids true)
       (fun ex => if is_Exception ex then sret tt else sraise ex).

(** A ref takes over where its descriptor is. *)
Definition set_place (fr : nat) (resp : FDRepositoryResp) : fst_ unit :=
  on_heap (modify_ref fr (fun x => with_place (fr_message_id x) (rp_mirrors resp) (rp_store resp) x)).

(** [where] may be [None]: a path above the root ([Ops.cd]). *)
Definition file_copy (dest : option nat) (fr : nat) (name : option string) : fst_ nat :=
  let! fd := get_file_desc fr true true in
  let! copied_fd := duplicate_versions fd in
  let clean_up {A} (resp : option FDRepositoryResp) (ex : exn) : fst_ A :=
    if is_Exception ex then (discard_orphans copied_fd resp ;;; sraise ex) else sraise ex in
  let! resp := stry (save_new_file_desc copied_fd) (clean_up None) in
  let! h := the_heap in
  let! t := now in
  let! copied_fr := stry (match dest with
                          | Some d => on_heap (create_file_ref t d (name_or name (name_of h fr)) (rp_message_id resp))
                          | None => sraise AttributeError
                          end)
                         (clean_up (Some resp)) in
  set_place copied_fr resp ;;;
  push ;;;
  written copied_fr (Some copied_fd) ;;;
  sret copied_fr.

Definition file_move (fr dest : nat) (name : option string) : fst_ nat :=
  let! h := the_heap in
  let from_dir := fr_location (ref_at h fr) in
  let! t := now in
  let! moved := on_heap (relocate_file_ref t from_dir fr dest name) in
  push ;;;
  changed from_dir true ;;;
  changed dest true ;;;
  sret moved.

Definition create_new_file (dest : nat) (f : FileMessage) : fst_ TGFSFileDesc :=
  let! resp := create_file_desc f in
  let! t := now in
  let! fr := on_heap (create_file_ref t dest (fm_name f) (rp_message_id resp)) in
  set_place fr resp ;;;
  push ;;;
  written fr (Some (rp_fd resp)) ;;;
  sret (rp_fd resp).

Definition sync_file_ref (fr : nat) (resp : FDRepositoryResp) : fst_ unit :=
  let! h := the_heap in
  let x := ref_at h fr in
  if negb (fr_message_id x =? rp_message_id resp) || negb (dict_eq (fr_mirrors x) (rp_mirrors resp)) ||
     negb (bool_decide (fr_store x = rp_store resp)) then
    on_heap (modify_ref fr (fun x => with_place (rp_message_id resp) (rp_mirrors resp) (rp_store resp) x)) ;;;
    push
  else sret tt.

Definition update_existing_file (fr : nat) (f : FileMessage) (version_id : option string) : fst_ TGFSFileDesc :=
  let! resp := sfinally
    (let! resp := (if truthy version_id then update_file_version fr f (default EmptyString version_id)
                   else append_file_version f (Some fr)) in
     sync_file_ref fr resp ;;;
     sret resp)
    (invalidate fr false) in
  written fr (Some (rp_fd resp)) ;;;
  sret (rp_fd resp).

Definition file_set_last_modified (fr : nat) (when : datetime) : fst_ TGFSFileDesc :=
  let! resp := sfinally
    (let! resp := desc_set_last_modified fr when in
     sync_file_ref fr resp ;;;
     sret resp)
    (invalidate fr false) in
  sret (rp_fd resp).

(** [rm] of a whole file. *)
Definition rm_file_ref (fr : nat) : fst_ unit :=
  let! (message_ids, mirror_ids, version_ids) := collect_deletable_message_ids [fr] in
  let! t := now in
  on_heap (ref_delete t fr) ;;;
  push ;;;
  let! h := the_heap in
  changed (fr_location (ref_at h fr)) true ;;;
  on_store (st_delete store_key message_ids false) ;;;
  delete_mirrored mirror_ids false ;;;
  if nonempty version_ids then on_live (cr_forget version_ids) else sret tt.

Definition rm_file_version (fr : nat) (version_id : string) : fst_ unit :=
  let! (message_ids, mirror_ids) := collect_version_message_ids fr version_id in
  sfinally (let! resp := delete_file_version fr version_id in sync_file_ref fr resp) (invalidate fr false) ;;;
  on_store (st_delete store_key message_ids false) ;;;
  delete_mirrored mirror_ids false.

Definition file_rm (fr : nat) (version_id : option string) : fst_ unit :=
  if truthy version_id then rm_file_version fr (default EmptyString version_id) else rm_file_ref fr.

Definition file_upload (under : nat) (f : FileMessage) (version_id : option string) : fst_ TGFSFileDesc :=
  stry (let! h := the_heap in
        let! fr := slift (find_file h under (fm_name f)) in
        update_existing_file fr f version_id)
       (fun ex => match ex with
                  | FileOrDirectoryDoesNotExist _ => create_new_file under f
                  | _ => sraise ex
                  end).

(** The generator raises what the download raises. *)
Definition retrieve (fr : nat) (begin last : Z) (as_name : string) : fst_ stream :=
  let! fd := get_file_desc fr false true in
  let! t := now in
  let! u := uuid in
  let! fv := slift (get_latest_version t u fd) in
  let! h := the_heap in
  fun s => match download_file_at_version fv begin last (name_or (Some as_name) (name_of h fr)) s with
           | (Ok c, s) => (Ok c, s)
           | (Raise ex, s) => (Ok {| pieces := []; fault := Some ex |}, s)
           end.

(** ** [DirectoryApi] *)

Definition dir_create (name : string) (under : nat) : fst_ nat :=
  let! t := now in
  let! d := on_heap (create_dir t under name) in
  push ;;;
  sret d.

Definition dir_ls (h : heap) (d : nat) : list nat * list nat := (find_dirs h d [], find_files h d []).

Definition get_fr (h : heap) (d : nat) (file_name : string) : exc nat := find_file h d file_name.

Definition rm_dangerously (d : nat) : fst_ unit :=
  let! h := the_heap in
  let! (message_ids, mirror_ids, _) := collect_deletable_message_ids (iter_file_refs h d) in
  let! t := now in
  on_heap (delete t d) ;;;
  push ;;;
  on_store (st_delete store_key message_ids false) ;;;
  delete_mirrored mirror_ids false.

Definition rm_empty (d : nat) : fst_ unit :=
  let! h := the_heap in
  if nonempty (find_dirs h d []) || nonempty (find_files h d []) then
    let! p := slift (absolute_path h d) in sraise (DirectoryIsNotEmpty p)
  else rm_dangerously d.

Definition dir_move (d to_parent : nat) (name : option string) : fst_ nat :=
  let! t := now in
  on_heap (move_to t d to_parent name) ;;;
  push ;;;
  sret d.

End Api.

(** ** Metadata in a pinned message
      ([tgdcfs/core/repository/impl/metadata/pinned_message.py], and what
      [IMetaDataRepository] of [repository/interface/__init__.py] defines)

    The tree is one JSON document, pinned in the primary store, with pinned
    copies in the mirrors.  [MetaJson] is its encoding as bytes ([json.dumps]
    and [.encode()]); [PinnedStores] is [get_pinned_message] of [IStore]. *)

Class MetaJson := {
  tree_dumps : TGFSDirectorySerialized -> bytes;
  tree_loads : bytes -> exc TGFSDirectorySerialized
}.

Class PinnedStores (W : Type) := { st_get_pinned : string -> st exn W MessageResp }.

Record Pinned := {
  pm_message_id : option Z;
  pm_mirror_message_ids : dict string Z;
  pm_tree_has_stats : option bool
}.

Definition METADATA_FILE_NAME : string := "metadata.json".

Section Pinned.
  Context {W : Type} `{Stores W} `{ContentRepo (Live W)} `{MetaJson} (key : string) (group : option MirrorGroup).
  Local Abbreviation pst := (st exn (Pinned * Live W)).

Definition on_repo {A} (m : st exn (Live W) A) : pst A := fun s => let '(r, l) := m s.2 in (r, (s.1, l)).

(** An operation of the group on the copies it keeps pinned. *)
Definition on_pinned (m : st exn (W * dict string Z) unit) : pst unit := fun s =>
  let '(r, (w, ids)) := m (lv_world s.2, pm_mirror_message_ids s.1) in
  (r, ({| pm_message_id := pm_message_id s.1; pm_mirror_message_ids := ids; pm_tree_has_stats := pm_tree_has_stats s.1 |},
       set_world w s.2)).

Definition set_message_id (mid : option Z) : pst unit := fun s =>
  (Ok tt, ({| pm_message_id := mid; pm_mirror_message_ids := pm_mirror_message_ids s.1;
              pm_tree_has_stats := pm_tree_has_stats s.1 |}, s.2)).

Definition pinned_push (root : nat) (h : heap) : pst unit :=
  let! data := slift (metadata_to_dict h {| md_dir := root |}) in
  let buffer := tree_dumps data in
  if si_max_part_bytes (st_info key) <? zlen buffer then sraise (TechnicalError "The metadata blob does not fit one message")
  else
    let! p := (fun s => (Ok s.1, s)) in
    match pm_message_id p with
    | Some mid =>
        let! _ := on_repo (cr_update mid buffer METADATA_FILE_NAME) in
        match group with Some mg => on_pinned (mirror_pinned mg mid) | None => sret tt end
    | None =>
        let! resp := on_repo (cr_save _ buffer_uploadable (buffer_message buffer METADATA_FILE_NAME)) in
        match resp with
        | [] => sraise IndexError
        | first :: _ =>
            on_repo (onw (st_pin key (sm_message_id first))) ;;;
            set_message_id (Some (sm_message_id first)) ;;;
            match group with Some mg => on_pinned (adopt_pinned mg (sm_mirrors first)) | None => sret tt end
        end
    end.

(** ** Loading *)

Definition read_all (s : stream) : exc bytes :=
  match fault s with None => Ok (stream_bytes s) | Some ex => Raise ex end.

(** Loading builds the tree in the heap. *)
Local Abbreviation lst := (st exn (heap * (Pinned * Live W))).
Definition in_repo {A} (m : pst A) : lst A := fun s => let '(r, p) := m s.2 in (r, (s.1, p)).
Definition in_heap {A} (m : hst A) : lst A := fun s => let '(r, h) := m s.1 in (r, (h, s.2)).

Context `{PinnedStores W}.

Definition get_pinned : lst MessageResp := in_repo (on_repo (onw (st_get_pinned key))).

Definition new_metadata (now : datetime) : lst MessageResp :=
  let! root := in_heap (root_dir now) in
  in_repo (set_message_id None) ;;;
  (fun s => in_repo (pinned_push root s.1) s) ;;;
  get_pinned.

(** A version around the blob, never cached. *)
Definition blob_version (now : datetime) (uuid : string) (m : MessageResp) (size : Z) : TGFSFileVersion :=
  let v := from_sent_file_message now uuid None None
             [{| sm_message_id := mr_message_id m; sm_size := size; sm_mirrors := []; sm_replicas := [] |}] in
  {| fv_id := fv_id v; updated_at := updated_at v; fv_size_field := fv_size_field v; message_ids := message_ids v;
     part_sizes := part_sizes v; mirrors := mirrors v; replicas := replicas v; store := store v; pending := pending v;
     cacheable := false; recorded_size := recorded_size v |}.

Definition pinned_get (now : datetime) (uuid : string) : lst TGFSMetadata :=
  let! m := stry get_pinned (fun ex => match ex with NoPinnedMessage => new_metadata now | _ => sraise ex end) in
  match mr_document m with
  | None => sraise AttributeError
  | Some size =>
      let! s := in_repo (on_repo (cr_get (blob_version now uuid m size) 0 (-1) METADATA_FILE_NAME true)) in
      let! b := slift (read_all s) in
      let! data := slift (tree_loads b) in
      let! md := in_heap (metadata_from_dict data) in
      in_repo (set_message_id (Some (mr_message_id m))) ;;;
      sret md
  end.

(** ** Stats ride along with the tree ([IMetaDataRepository]) *)

Definition set_tree_has_stats (b : bool) (p : Pinned) : Pinned :=
  {| pm_message_id := pm_message_id p; pm_mirror_message_ids := pm_mirror_message_ids p; pm_tree_has_stats := Some b |}.

Definition stats_stored (root d : nat) (h : heap) (p : Pinned) : bool * Pinned :=
  match pm_tree_has_stats p with
  | Some b => (b, p)
  | None =>
      let b := existsb (fun r => bool_decide (is_Some (fr_stat (ref_at h r)))) (iter_file_refs h root) in
      (b, set_tree_has_stats b p)
  end.

Definition drop_stats (h : heap) (refs : list nat) : heap :=
  foldl (fun h r => put_ref r (with_stat None (fr_stat_epoch (ref_at h r)) (ref_at h r)) h) h refs.

Definition save_stats (root : nat) (directories : list nat) (keep : bool) : st exn (Pinned * heap * Live W) unit := fun s =>
  let '(p, h, l) := s in
  let '(p, h) := if keep then (p, h) else (set_tree_has_stats false p, drop_stats h (iter_file_refs h root)) in
  let '(r, (p, l)) := pinned_push root h (p, l) in
  (r, (p, h, l)).

Definition pinned_repo : MetaRepo Pinned W := {|
  md_push := pinned_push;
  md_push_writes_stats := true;
  md_load_stats _ := sret true;
  md_stats_stored := stats_stored;
  md_save_stats := save_stats
|}.

End Pinned.
