(* ===== verification/Stats.v ===== *)
(** * Sizes and dates for listings ([tgdcfs/core/api/stat.py])

    [FileStatApi]: a listing shows the stat kept on a file ref, or reads the
    descriptor and keeps what it says; folders whose stats changed are
    written in the background.  [meanwhile] is what other requests do while
    a call awaits the stores.  The task that waits for [due_in] and calls
    [flush] is not modelled, nor are reads shared by two listings. *)

From S2P Require Import Prelude Errors Messages FileVersion FileRefs Contents Stores FileContent Mirror FdRepo Directory Api.

Open Scope Z_scope.
Open Scope py_scope.

(** Milliseconds. *)
Definition FLUSH_QUIET : Z := 5000.
Definition FLUSH_MAX_DELAY : Z := 60000.
Definition URGENT_QUIET : Z := 1000.
Definition URGENT_MAX_DELAY : Z := 5000.

Section Stats.
  Context {W M : Type} `{Stores W} `{FDJson} `{ContentRepo (Live W)} `{MetaRepo M W} (ac : ApiConfig).
  Local Abbreviation fst_ := (st exn (Fs W M)).
  Context (meanwhile : Fs W M -> Fs W M).

Definition others : fst_ unit := fun s => (Ok tt, meanwhile s).

(** [FileDescApi.content_length]. *)
Definition fd_content_length (fv : TGFSFileVersion) : fst_ Z := on_live (cr_content_length fv).

Definition created_of (fd : TGFSFileDesc) : Z :=
  match map updated_at_timestamp (get_versions false false fd) with
  | [] => ts (created_at fd)
  | t :: times => foldl Z.min t times
  end.

Definition stat_of (fd : TGFSFileDesc) : fst_ FileStat :=
  let! t := now in
  let! u := uuid in
  let! fv := slift (get_latest_version t u fd) in
  let! size := fd_content_length fv in
  sret {| fst_size := Z.max 0 size; fst_created_at := created_of fd;
          fst_modified_at := if nonempty (get_versions false false fd) then updated_at_timestamp fv else created_of fd |}.

Definition read_stat (fr : nat) : fst_ FileStat :=
  let! fd := get_file_desc ac fr false (ac_validate ac) in stat_of fd.

(** [_in_tree]. *)
Definition in_tree (fr : nat) (h : heap) : bool :=
  bool_decide (fr ∈ find_files h (fr_location (ref_at h fr)) [name_of h fr]).

(** [_fill]: the descriptor is read while others go on. *)
Definition fill_stat (fr : nat) : fst_ FileStat :=
  let! h := the_heap in
  let epoch := fr_stat_epoch (ref_at h fr) in
  let! fd := get_file_desc ac fr false (ac_validate ac) in
  let! stat := stat_of fd in
  others ;;;
  let! h := the_heap in
  (if complete fd && (fr_stat_epoch (ref_at h fr) =? epoch) && in_tree fr h
   then on_heap (modify_ref fr (fun x => with_stat (Some stat) (fr_stat_epoch x) x)) ;;;
        mark (fr_location (ref_at h fr)) false
   else sret tt) ;;;
  sret stat.

Definition load_stats (directory : nat) : fst_ bool := fun s =>
  let '(r, (m, h, l)) := md_load_stats directory (fs_repo s, fs_heap s, fs_live s) in
  (r, with_repo m (with_heap h (with_live l s))).

(** [FileStatApi.get]. *)
Definition stat_get (fr : nat) : fst_ FileStat :=
  if negb (ac_persist ac) then read_stat fr
  else
    let! h := the_heap in
    (match fr_stat (ref_at h fr) with
     | Some _ => sret true
     | None => load_stats (fr_location (ref_at h fr))
     end) ;;;
    let! h := the_heap in
    match fr_stat (ref_at h fr) with
    | Some stat => sret stat
    | None => fill_stat fr
    end.

(** How long the writer still waits. *)
Definition due_in (closing : bool) (s : Fs W M) : Z :=
  if closing then 0
  else
    let '(quiet, max_delay) :=
      if fs_urgent s then (URGENT_QUIET, URGENT_MAX_DELAY) else (FLUSH_QUIET, FLUSH_MAX_DELAY) in
    let now := st_now (lv_world (fs_live s)) in
    let since := default now (fs_dirty_since s) in
    Z.max 0 (Z.min (fs_last_mark s + quiet) (since + max_delay) - now).

Definition write_stats (directories : list nat) : fst_ unit := fun s =>
  match fs_root s with
  | None => (Raise MetadataNotInitialized, s)
  | Some root =>
      let '(r, (m, h, l)) := md_save_stats root directories (ac_persist ac) (fs_repo s, fs_heap s, fs_live s) in
      (r, with_repo m (with_heap h (with_live l s)))
  end.

(** The marks of a write that failed, behind those made since. *)
Definition remark (batch : list nat) (s : Fs W M) : Fs W M :=
  let dirty := foldl (fun d x => if bool_decide (x ∈ d) then d else d ++ [x]) (fs_dirty s) batch in
  let since := match fs_dirty_since s with None => Some (st_now (lv_world (fs_live s))) | t => t end in
  with_dirty dirty since (fs_last_mark s) (fs_urgent s) s.

Definition flush : fst_ bool := fun s =>
  let batch := fs_dirty s in
  if negb (nonempty batch) then (Ok true, s)
  else
    match (write_stats batch) (with_dirty [] None (fs_last_mark s) false s) with
    | (Ok _, s) => (Ok true, meanwhile s)
    | (Raise ex, s) => if is_Exception ex then (Ok false, remark batch (meanwhile s)) else (Raise ex, meanwhile s)
    end.

(** ** What is stored *)

(** The size shown is not negative, and no version is older than the
    creation date. *)
Lemma stat_of_spec fd (s s' : Fs W M) stat :
  stat_of fd s = (Ok stat, s') ->
  0 <= fst_size stat /\ Forall (fun v => fst_created_at stat <= updated_at_timestamp v) (get_versions false false fd).
Proof.
  unfold stat_of, sbind, now, uuid, slift. destruct (get_latest_version _ _ fd) as [fv|]; [|done].
  unfold fd_content_length, on_live. destruct (cr_content_length fv _) as [[n|] l]; [|done]. intros [= <- _].
  cbn [fst_size fst_created_at]. split; [lia|]. unfold created_of. generalize (get_versions false false fd) as vs.
  assert (forall l t, foldl Z.min t l <= t /\ Forall (fun x => foldl Z.min t l <= x) l) as Hmin.
  { clear. induction l as [|x l IH]; intros t; simpl; [split; [lia|constructor]|]. destruct (IH (Z.min t x)) as [Hl Hr].
    split; [lia|]. constructor; [lia|]. eapply Forall_impl; [exact Hr|]. simpl. lia. }
  intros [|v vs]; simpl; [constructor|]. destruct (Hmin (map updated_at_timestamp vs) (updated_at_timestamp v)) as [Hl Hr].
  constructor; [done|]. by apply (proj1 (Forall_map _ _ _)) in Hr.
Qed.

(** The writer waits at most the quiet time behind the last mark, and no
    longer than the maximum behind the first. *)
Lemma due_in_bounds closing (s : Fs W M) :
  let now := st_now (lv_world (fs_live s)) in
  0 <= due_in closing s /\
  (fs_last_mark s <= now -> due_in closing s <= FLUSH_QUIET) /\
  (forall since, fs_dirty_since s = Some since -> since + FLUSH_MAX_DELAY <= now -> due_in closing s = 0).
Proof.
  cbn zeta. unfold due_in, FLUSH_QUIET, FLUSH_MAX_DELAY, URGENT_QUIET, URGENT_MAX_DELAY. destruct closing; [repeat split; lia|].
  destruct (fs_urgent s); cbv beta iota; (split; [lia|]; split; [lia|]; intros since ->; cbn [from_option id]; lia).
Qed.

Lemma remark_keeps batch (s : Fs W M) d : d ∈ fs_dirty s \/ d ∈ batch -> d ∈ fs_dirty (remark batch s).
Proof.
  unfold remark. cbn [fs_dirty with_dirty]. generalize (fs_dirty s) as l. induction batch as [|x batch IH]; intros l; simpl.
  - intros [?|Hn]; [done|]. by apply not_elem_of_nil in Hn.
  - intros Hd. apply IH. rewrite elem_of_cons in Hd. case_bool_decide as Hx; [naive_solver|]. rewrite elem_of_app, list_elem_of_singleton. naive_solver.
Qed.

(** A write that failed loses no mark: what was marked before it and what
    others marked meanwhile is written by the next one. *)
Lemma flush_keeps_marks (s s' : Fs W M) :
  flush s = (Ok false, s') -> forall d, d ∈ fs_dirty s -> d ∈ fs_dirty s'.
Proof.
  unfold flush. destruct (nonempty (fs_dirty s)) eqn:Hn; [|done]. cbn [negb].
  destruct (write_stats _ _) as [[?|ex] s1]; [done|]. destruct (is_Exception ex); [|done]. intros [= <-] d Hd.
  apply remark_keeps. by right.
Qed.

(** What was read is stored only when the file did not change while it was
    read, and is still where it was: its epoch is the one before the read. *)
Lemma stale_stat_not_stored fr (s s' : Fs W M) stat :
  fill_stat fr s = (Ok stat, s') ->
  exists s1, s' = meanwhile s1 \/
    (fr_stat_epoch (ref_at (fs_heap (meanwhile s1)) fr) = fr_stat_epoch (ref_at (fs_heap s) fr) /\
     in_tree fr (fs_heap (meanwhile s1)) = true).
Proof.
  unfold fill_stat. unfold the_heap at 1. unfold sbind at 1. unfold sbind at 1.
  destruct (get_file_desc ac fr false (ac_validate ac) s) as [[fd|] s0]; [|done]. unfold sbind at 1.
  destruct (stat_of fd s0) as [[st|] s1]; [|done]. unfold others, the_heap, sbind at 1 2 3. cbn [fst snd]. intros Hf. exists s1.
  destruct (complete fd && _ && _) eqn:E; [|left; by injection Hf].
  right. apply andb_true_iff in E as [[_ E]%andb_true_iff ?]. by apply Z.eqb_eq in E.
Qed.

End Stats.
