(* ===== verification/PosixPath.v ===== *)
(** * Slash-separated paths ([str.split], [posixpath])

    The string operations of Python's standard library the code cuts and
    joins paths with.  A text is the list of its bytes: slashes, dots and
    backslashes are single bytes in UTF-8. *)

From S2P Require Import Prelude FileVersion.

Open Scope Z_scope.

(** [path.split("/")]. *)
Fixpoint split_slash (s : string) : list string :=
  match s with
  | EmptyString => [EmptyString]
  | String c s =>
      if bool_decide (c = "/"%char) then EmptyString :: split_slash s
      else match split_slash s with
           | p :: ps => String c p :: ps
           | [] => [String c EmptyString]
           end
  end.

(** [(p[:i], p[i:])] at [i = p.rfind("/") + 1]. *)
Fixpoint split_last (s : string) : string * string :=
  match s with
  | EmptyString => (EmptyString, EmptyString)
  | String c s =>
      if bool_decide (c = "/"%char) || str_mem "/"%char s
      then let '(h, t) := split_last s in (String c h, t)
      else (EmptyString, String c s)
  end.

Fixpoint all_slashes (s : string) : bool :=
  match s with EmptyString => true | String c s => bool_decide (c = "/"%char) && all_slashes s end.

(** [head.rstrip("/")]. *)
Fixpoint rstrip_slash (s : string) : string :=
  match s with
  | EmptyString => EmptyString
  | String c s => if bool_decide (c = "/"%char) && all_slashes s then EmptyString else String c (rstrip_slash s)
  end.

Definition dirname (p : string) : string :=
  let head := (split_last p).1 in if all_slashes head then head else rstrip_slash head.
Definition basename (p : string) : string := (split_last p).2.

Fixpoint last_char (s : string) : option ascii :=
  match s with
  | EmptyString => None
  | String c EmptyString => Some c
  | String _ s => last_char s
  end.

Lemma split_slash_nonnil s : split_slash s <> [].
Proof. destruct s as [|c s]; simpl; [done|]. case_bool_decide; [done|]. by destruct (split_slash s). Qed.

Lemma split_slash_plain n : str_mem "/"%char n = false -> split_slash n = [n].
Proof.
  induction n as [|c n IH]; simpl; [done|]. intros [Hc Hn]%orb_false_iff. rewrite Hc, (IH Hn). done.
Qed.

Lemma split_slash_join s n :
  str_mem "/"%char n = false -> split_slash (s +:+ String "/" n) = split_slash s ++ [n].
Proof.
  intros Hn. induction s as [|c s IH]; simpl.
  - by rewrite split_slash_plain.
  - case_bool_decide; simpl; [by rewrite IH|]. rewrite IH.
    destruct (split_slash s) as [|p ps] eqn:Hs; [by apply split_slash_nonnil in Hs|done].
Qed.

(** ** The head and the tail of a path *)

Lemma str_app_cons c a b : (String c a +:+ b = String c (a +:+ b))%string.
Proof. done. Qed.

Lemma split_slash_app a b : split_slash (a +:+ String "/" b) = split_slash a ++ split_slash b.
Proof.
  induction a as [|c a IH]; [done|]. rewrite str_app_cons. cbn [split_slash]. rewrite IH.
  destruct (bool_decide _); [done|]. pose proof (split_slash_nonnil a). by destruct (split_slash a).
Qed.

Lemma split_last_plain b : str_mem "/"%char b = false -> split_last b = (EmptyString, b).
Proof. destruct b as [|c b]; simpl; [done|]. intros Hb. by rewrite Hb. Qed.

Lemma str_mem_app c a b : str_mem c (a +:+ b) = str_mem c a || str_mem c b.
Proof. induction a as [|x a IH]; simpl; [done|]. by rewrite IH, orb_assoc. Qed.

Lemma split_last_join a b :
  str_mem "/"%char b = false -> split_last (a +:+ String "/" b) = ((a +:+ "/")%string, b).
Proof.
  intros Hb. induction a as [|c a IH].
  - change ("" +:+ String "/" b)%string with (String "/" b). cbn [split_last]. rewrite bool_decide_eq_true_2 by done.
    cbn [orb]. by rewrite split_last_plain.
  - rewrite !str_app_cons. cbn [split_last]. rewrite IH, str_mem_app. cbn [str_mem].
    rewrite (bool_decide_eq_true_2 ("/"%char = "/"%char)) by done. cbn [orb]. by rewrite !orb_true_r.
Qed.

Lemma all_slashes_app a b : all_slashes (a +:+ b) = all_slashes a && all_slashes b.
Proof. induction a as [|c a IH]; simpl; [done|]. by rewrite IH, andb_assoc. Qed.

Lemma rstrip_plain n : str_mem "/"%char n = false -> rstrip_slash (n +:+ "/") = n.
Proof.
  induction n as [|c n IH]; simpl; [done|]. intros [Hc Hn]%orb_false_iff. by rewrite Hc, IH.
Qed.

Lemma rstrip_app a n : str_mem "/"%char n = false -> n <> EmptyString -> rstrip_slash (a +:+ n +:+ "/") = (a +:+ n)%string.
Proof.
  intros Hn Hne. induction a as [|c a IH]; [by apply rstrip_plain|]. rewrite !str_app_cons. cbn [rstrip_slash]. rewrite IH.
  rewrite all_slashes_app. destruct n as [|x n]; [done|]. rewrite str_app_cons. cbn [all_slashes]. cbn [str_mem] in Hn.
  apply orb_false_iff in Hn as [-> _]. cbn [andb]. by rewrite andb_false_r, andb_false_r.
Qed.

(** [dirname] and [basename] of ["a/n/b"]. *)
Lemma dirname_join a n b :
  str_mem "/"%char n = false -> n <> EmptyString -> str_mem "/"%char b = false ->
  dirname ((a +:+ n) +:+ String "/" b) = (a +:+ n)%string /\ basename ((a +:+ n) +:+ String "/" b) = b.
Proof.
  intros Hn Hne Hb. unfold dirname, basename. rewrite split_last_join by done. cbn [fst snd]. split; [|done].
  rewrite !all_slashes_app. destruct n as [|x n]; [done|]. cbn [str_mem] in Hn. apply orb_false_iff in Hn as [Hx Hn].
  cbn [all_slashes]. rewrite Hx. cbn [andb]. rewrite andb_false_r. cbn [andb].
  assert (forall u v w : string, ((u +:+ v) +:+ w = u +:+ (v +:+ w))%string) as Hassoc.
  { clear. intros u v w. induction u as [|c u IH]; [done|]. rewrite !str_app_cons. by rewrite IH. }
  rewrite Hassoc. apply rstrip_app; [|done]. cbn [str_mem]. by rewrite Hx.
Qed.

(** ** Joining and normalizing *)

(** ["/".join(l)]. *)
Fixpoint join_slash (l : list string) : string :=
  match l with
  | [] => EmptyString
  | [p] => p
  | p :: l => (p +:+ String "/" (join_slash l))%string
  end.

(** [s.strip("/")]. *)
Fixpoint lstrip_slash (s : string) : string :=
  match s with String c s' => if bool_decide (c = "/"%char) then lstrip_slash s' else s | EmptyString => EmptyString end.
Definition strip_slash (s : string) : string := rstrip_slash (lstrip_slash s).

(** [s.startswith(p)]. *)
Fixpoint starts_with (p s : string) : bool :=
  match p, s with
  | EmptyString, _ => true
  | String a p, String b s => bool_decide (a = b) && starts_with p s
  | _, _ => false
  end.

(** [posixpath.join("/", p)]. *)
Definition join_root (p : string) : string := if starts_with "/" p then p else ("/" +:+ p)%string.

(** The loop of [posixpath.normpath] over the components of a path; the
    components kept are in reverse order. *)
Fixpoint norm_comps (absolute : bool) (comps kept : list string) : list string :=
  match comps with
  | [] => rev kept
  | c :: comps =>
      if bool_decide (c = EmptyString) || bool_decide (c = "."%string) then norm_comps absolute comps kept
      else if negb (bool_decide (c = ".."%string)) || (negb absolute && negb (nonempty kept)) ||
              match kept with last :: _ => bool_decide (last = ".."%string) | [] => false end
      then norm_comps absolute comps (c :: kept)
      else norm_comps absolute comps (tail kept)
  end.

(** [posixpath.normpath]: exactly two leading slashes stay two. *)
Definition normpath (path : string) : string :=
  if bool_decide (path = EmptyString) then "."%string
  else
    let slashes := if starts_with "/" path
                   then if starts_with "//" path && negb (starts_with "///" path) then "//"%string else "/"%string
                   else EmptyString in
    let path := (slashes +:+ join_slash (norm_comps (starts_with "/" path) (split_slash path) []))%string in
    if bool_decide (path = EmptyString) then "."%string else path.

(** ** Components *)

Lemma append_nil_r (a : string) : (a +:+ "")%string = a.
Proof. induction a as [|c a IH]; [done|]. rewrite str_app_cons. by rewrite IH. Qed.

Lemma append_assoc (a b c : string) : ((a +:+ b) +:+ c = a +:+ (b +:+ c))%string.
Proof. induction a as [|x a IH]; [done|]. rewrite !str_app_cons. by rewrite IH. Qed.

(** The name of an entry of a directory in a path. *)
Definition component (c : string) : Prop :=
  c <> EmptyString /\ c <> "."%string /\ c <> ".."%string /\ str_mem "/"%char c = false.

Lemma split_slash_no_slash s : Forall (fun c => str_mem "/"%char c = false) (split_slash s).
Proof.
  induction s as [|c s IH]; simpl; [by repeat constructor|]. case_bool_decide as Hc; [by constructor|].
  destruct (split_slash s) as [|p ps]; [repeat constructor|]; simpl.
  - by rewrite bool_decide_eq_false_2.
  - inversion IH as [|? ? Hp Hps]; subst. constructor; [|done]. simpl. by rewrite bool_decide_eq_false_2.
Qed.

(** A slash-free text in front of a slash is the first component. *)
Lemma split_slash_head n s : str_mem "/"%char n = false -> split_slash (n +:+ String "/" s) = n :: split_slash s.
Proof.
  induction n as [|c n IH]; [done|]. rewrite str_app_cons. simpl. intros [Hc Hn]%orb_false_iff. by rewrite Hc, IH.
Qed.

Lemma split_join_slash l :
  l <> [] -> Forall (fun c => str_mem "/"%char c = false) l -> split_slash (join_slash l) = l.
Proof.
  induction l as [|p [|q l] IH]; intros Hl Hf; [done| |]; inversion Hf as [|? ? Hp Hq]; subst.
  - by apply split_slash_plain.
  - change (join_slash (p :: q :: l)) with (p +:+ String "/" (join_slash (q :: l)))%string.
    rewrite split_slash_head by done. by rewrite IH.
Qed.

(** What an absolute path is reduced to. *)
Lemma norm_comps_ok comps kept :
  Forall (fun c => str_mem "/"%char c = false) comps -> Forall component kept ->
  Forall component (norm_comps true comps kept).
Proof.
  revert kept. induction comps as [|c comps IH]; intros kept Hc Hk; simpl.
  - by apply Forall_rev.
  - inversion Hc as [|? ? Hc1 Hc2]; subst. case_bool_decide as H1; [by apply IH|]. case_bool_decide as H2; [by apply IH|].
    case_bool_decide as H3; cbn [orb negb andb].
    + destruct kept as [|x kept]; [by apply IH|]. inversion Hk as [|? ? (? & ? & Hx & ?) Hk']; subst.
      rewrite bool_decide_eq_false_2 by done. by apply IH.
    + apply IH; [done|]. by constructor.
Qed.

(** Proper components stay as they are. *)
Lemma norm_comps_id a comps kept : Forall component comps -> norm_comps a comps kept = rev kept ++ comps.
Proof.
  revert kept. induction comps as [|c comps IH]; intros kept Hc; simpl; [by rewrite app_nil_r|].
  inversion Hc as [|? ? (H1 & H2 & H3 & _) Hc2]; subst. rewrite !bool_decide_eq_false_2 by done. cbn [orb negb].
  rewrite IH by done. simpl. by rewrite <- app_assoc.
Qed.

Lemma lstrip_component c s : component c -> lstrip_slash (c +:+ s)%string = (c +:+ s)%string.
Proof.
  intros (Hne & _ & _ & Hs). destruct c as [|x c]; [done|]. rewrite str_app_cons. cbn [lstrip_slash]. cbn [str_mem] in Hs.
  apply orb_false_iff in Hs as [-> _]. done.
Qed.

Lemma lstrip_join c l : component c -> lstrip_slash (join_slash (c :: l)) = join_slash (c :: l).
Proof.
  intros Hc. destruct l as [|d l].
  - change (join_slash [c]) with c. rewrite <- (append_nil_r c). by apply lstrip_component.
  - change (join_slash (c :: d :: l)) with (c +:+ String "/" (join_slash (d :: l)))%string. by apply lstrip_component.
Qed.

Lemma no_slash_not_all s : s <> EmptyString -> str_mem "/"%char s = false -> all_slashes s = false.
Proof. destruct s as [|c s]; [done|]. simpl. by intros _ [-> _]%orb_false_iff. Qed.

Lemma rstrip_component n : str_mem "/"%char n = false -> rstrip_slash n = n.
Proof. induction n as [|c n IH]; simpl; [done|]. intros [-> Hn]%orb_false_iff. simpl. by rewrite IH. Qed.

Lemma rstrip_ends a n : n <> EmptyString -> str_mem "/"%char n = false -> rstrip_slash (a +:+ n)%string = (a +:+ n)%string.
Proof.
  intros Hne Hn. induction a as [|c a IH]; [by apply rstrip_component|]. rewrite str_app_cons. cbn [rstrip_slash].
  rewrite IH, all_slashes_app, (no_slash_not_all n) by done. by rewrite !andb_false_r.
Qed.

Lemma join_slash_last l : Forall component l -> l <> [] -> exists a n, component n /\ join_slash l = (a +:+ n)%string.
Proof.
  induction l as [|p [|q l] IH]; intros Hl Hne; [done| |]; inversion Hl as [|? ? Hp Hq]; subst.
  - by exists EmptyString, p.
  - destruct (IH Hq) as (a & n & Hn & He); [done|]. exists (p +:+ String "/" a)%string, n. split; [done|].
    change (join_slash (p :: q :: l)) with (p +:+ String "/" (join_slash (q :: l)))%string. rewrite He.
    by rewrite append_assoc.
Qed.

Lemma rstrip_join l : Forall component l -> rstrip_slash (join_slash l) = join_slash l.
Proof.
  intros Hl. destruct l as [|c l]; [done|]. destruct (join_slash_last (c :: l)) as (a & n & (Hne & _ & _ & Hn) & ->); [done|done|].
  by apply rstrip_ends.
Qed.

Lemma strip_join l : Forall component l -> strip_slash (join_slash l) = join_slash l.
Proof.
  intros Hl. unfold strip_slash. destruct l as [|c l]; [done|]. inversion Hl; subst. rewrite lstrip_join by done. by apply rstrip_join.
Qed.

Lemma join_slash_nonempty c l : component c -> join_slash (c :: l) <> EmptyString.
Proof. intros (Hne & _). destruct c as [|x c]; [done|]. by destruct l. Qed.
