(* ===== verification/Http.v ===== *)
(** * Text of URLs ([urllib.parse], the paths of [asgidav/app.py])

    [quote] and [unquote] of the standard library, the path of a URL, and the
    path arithmetic of the WebDAV handlers.  A text is its UTF-8 encoding, as
    in [Names]. *)

From S2P Require Import Prelude Errors Codec FileVersion Names PosixPath.

Open Scope Z_scope.
Open Scope py_scope.

(** ** [bytes.decode("utf-8", errors="replace")] *)

(** The replacement character. *)
Definition FFFD : bytes := [xef; xbf; xbd]%byte.

(** Every longest beginning of a character that does not go on is replaced,
    and so is a byte that begins none. *)
Fixpoint utf8_replace (l : bytes) : bytes :=
  match l with
  | [] => []
  | a :: l1 =>
      if in_range 0 127 a then a :: utf8_replace l1
      else if in_range 194 223 a then
        match l1 with
        | b :: l2 => if cont b then a :: b :: utf8_replace l2 else FFFD ++ utf8_replace l1
        | [] => FFFD
        end
      else if in_range 224 239 a then
        match l1 with
        | b :: l2 =>
            if in_range (if Z_of_byte a =? 224 then 160 else 128) (if Z_of_byte a =? 237 then 159 else 191) b
            then match l2 with
                 | c :: l3 => if cont c then a :: b :: c :: utf8_replace l3 else FFFD ++ utf8_replace l2
                 | [] => FFFD
                 end
            else FFFD ++ utf8_replace l1
        | [] => FFFD
        end
      else if in_range 240 244 a then
        match l1 with
        | b :: l2 =>
            if in_range (if Z_of_byte a =? 240 then 144 else 128) (if Z_of_byte a =? 244 then 143 else 191) b
            then match l2 with
                 | c :: l3 =>
                     if cont c
                     then match l3 with
                          | d :: l4 => if cont d then a :: b :: c :: d :: utf8_replace l4 else FFFD ++ utf8_replace l3
                          | [] => FFFD
                          end
                     else FFFD ++ utf8_replace l2
                 | [] => FFFD
                 end
            else FFFD ++ utf8_replace l1
        | [] => FFFD
        end
      else FFFD ++ utf8_replace l1
  end.

(** ** [quote] and [unquote] *)

Definition ascii_in (lo hi : Z) (c : ascii) : bool := (lo <=? Z.of_nat (nat_of_ascii c)) && (Z.of_nat (nat_of_ascii c) <=? hi).

(** [_ALWAYS_SAFE] and ["/"]. *)
Definition url_safe (c : ascii) : bool :=
  ascii_in 65 90 c || ascii_in 97 122 c || ascii_in 48 57 c || str_mem c "_.-~/".

(** A digit of [%02X]. *)
Definition hex_digit (n : Z) : ascii := ascii_of_nat (Z.to_nat (if n <? 10 then 48 + n else 55 + n)).

Definition hex_value (c : ascii) : option Z :=
  let n := Z.of_nat (nat_of_ascii c) in
  if ascii_in 48 57 c then Some (n - 48)
  else if ascii_in 65 70 c then Some (n - 55)
  else if ascii_in 97 102 c then Some (n - 87)
  else None.

(** [quote(s, safe="/")]. *)
Fixpoint quote (s : string) : string :=
  match s with
  | EmptyString => EmptyString
  | String c s =>
      if url_safe c then String c (quote s)
      else let n := Z.of_nat (nat_of_ascii c) in
           String "%" (String (hex_digit (n / 16)) (String (hex_digit (n mod 16)) (quote s)))
  end.

(** [unquote_to_bytes]. *)
Fixpoint unquote_bytes (s : string) : string :=
  match s with
  | EmptyString => EmptyString
  | String c r =>
      if bool_decide (c = "%"%char) then
        match r with
        | String a (String b s) =>
            match hex_value a, hex_value b with
            | Some x, Some y => String (ascii_of_nat (Z.to_nat (16 * x + y))) (unquote_bytes s)
            | _, _ => String c (unquote_bytes r)
            end
        | _ => String c (unquote_bytes r)
        end
      else String c (unquote_bytes r)
  end.

Definition unquote (s : string) : string :=
  String.string_of_list_byte (utf8_replace (encode_utf8 (unquote_bytes s))).

(** ** [urlparse(url).path] for an [http] or [https] URL *)

(** The text before the first character for which [p] holds. *)
Fixpoint before (p : ascii -> bool) (s : string) : string :=
  match s with
  | EmptyString => EmptyString
  | String c s => if p c then EmptyString else String c (before p s)
  end.
Fixpoint from (p : ascii -> bool) (s : string) : string :=
  match s with
  | EmptyString => EmptyString
  | String c r => if p c then s else from p r
  end.

(** [_UNSAFE_URL_BYTES_TO_REMOVE]: tab, CR and LF. *)
Definition unsafe_byte (c : ascii) : bool := let n := nat_of_ascii c in ((n =? 9) || (n =? 10) || (n =? 13))%nat.
Fixpoint remove_unsafe (s : string) : string :=
  match s with
  | EmptyString => EmptyString
  | String c s => if unsafe_byte c then remove_unsafe s else String c (remove_unsafe s)
  end.

(** [_splitparams]: what follows a [";"] in the last segment is cut off. *)
Definition cut_params (url : string) : string :=
  let '(head, last) := split_last url in (head +:+ before (fun c => bool_decide (c = ";"%char)) last)%string.

Section Url.
(** What [urlsplit] says of a host: brackets, addresses and letters. *)
Context (check_netloc : string -> exc unit).

Definition url_path (scheme : string) (url : string) : exc string :=
  let url := remove_unsafe url in
  let rest := String.substring (String.length scheme) (String.length url - String.length scheme) url in
  let delim c := str_mem c "/?#" in
  let* _ := check_netloc (before delim rest) in
  let url := before (fun c => bool_decide (c = "#"%char)) (from delim rest) in
  let url := before (fun c => bool_decide (c = "?"%char)) url in
  Ok (cut_params url).

(** ** Paths of requests ([asgidav/app.py]) *)

Definition extract_path_from_destination (destination : string) : exc string :=
  if starts_with "http://" destination then let* p := url_path "http://" destination in Ok (unquote p)
  else if starts_with "https://" destination then let* p := url_path "https://" destination in Ok (unquote p)
  else Ok (unquote destination).

End Url.

(** [split_path]: the parent (["/"] at the top) and the name. *)
Definition split_parent (path : string) : string * string :=
  let path := strip_slash path in
  if str_mem "/"%char path
  then let '(head, name) := split_last path in (String.substring 0 (String.length head - 1) head, name)
  else ("/"%string, path).

(** [server_path[len(base):]] when it is [base] or below it. *)
Definition mount_relative (base_path server_path : string) : string :=
  let base := rstrip_slash base_path in
  let server_path :=
    if negb (bool_decide (base = EmptyString)) &&
       (bool_decide (server_path = base) || starts_with (base +:+ "/") server_path)
    then String.substring (String.length base) (String.length server_path - String.length base) server_path
    else server_path in
  strip_slash server_path.

Definition below (path other : string) : bool := bool_decide (path = other) || starts_with (other +:+ "/") path.

Definition METHODS : list string :=
  ["GET"; "HEAD"; "POST"; "PUT"; "DELETE"; "OPTIONS"; "PROPFIND"; "PROPPATCH"; "COPY"; "MOVE"; "MKCOL"; "LOCK"; "UNLOCK"]%string.

(** ** Quoting is undone *)

Lemma hex_value_digit n : 0 <= n < 16 -> hex_value (hex_digit n) = Some n.
Proof.
  intros Hn.
  assert (forallb (fun k => bool_decide (hex_value (hex_digit (Z.of_nat k)) = Some (Z.of_nat k))) (seq 0 16) = true) as Hall
    by (by vm_compute).
  rewrite forallb_forall in Hall. specialize (Hall (Z.to_nat n)). rewrite bool_decide_eq_true, Z2Nat.id in Hall by lia.
  apply Hall, in_seq. lia.
Qed.

Lemma unquote_bytes_quote s : unquote_bytes (quote s) = s.
Proof.
  induction s as [|c s IH]; [done|]. cbn [quote]. destruct (url_safe c) eqn:Hc.
  - cbn [unquote_bytes]. rewrite bool_decide_eq_false_2; [by rewrite IH|]. intros ->. discriminate Hc.
  - pose proof (nat_ascii_bounded c) as Hb. cbn [unquote_bytes]. rewrite bool_decide_eq_true_2 by done.
    rewrite !hex_value_digit by zlia. rewrite IH. f_equal.
    rewrite <- Z_div_mod_eq_full, Nat2Z.id. apply ascii_nat_embedding.
Qed.

Lemma utf8_replace_valid l : utf8_valid l = true -> utf8_replace l = l.
Proof.
  revert l. fix IH 1. intros [|a l1]; [done|]. cbn [utf8_valid utf8_replace].
  destruct (in_range 0 127 a) eqn:H1; [intros Hv; by rewrite IH|]. destruct l1 as [|b l2]; [done|].
  destruct (in_range 194 223 a) eqn:H2; [intros [-> Hv]%andb_true_iff; by rewrite IH|].
  destruct l2 as [|c l3]; [done|].
  destruct (in_range 224 239 a) eqn:H3; [intros [[-> ->]%andb_true_iff Hv]%andb_true_iff; by rewrite IH|].
  destruct l3 as [|d l4]; [done|].
  intros [[[[-> ->]%andb_true_iff ->]%andb_true_iff ->]%andb_true_iff Hv]%andb_true_iff. by rewrite IH.
Qed.

Lemma unquote_quote s : is_str s -> unquote (quote s) = s.
Proof.
  intros Hs. unfold unquote. rewrite unquote_bytes_quote, utf8_replace_valid by done.
  apply String.string_of_list_byte_of_string.
Qed.

(** ** A reference that was handed out leads back *)

Fixpoint str_all (p : ascii -> bool) (s : string) : bool :=
  match s with EmptyString => true | String c s => p c && str_all p s end.

Lemma str_all_impl (p q : ascii -> bool) s : (forall c, p c = true -> q c = true) -> str_all p s = true -> str_all q s = true.
Proof. intros Hpq. induction s as [|c s IH]; [done|]. cbn. intros [Hc Hs]%andb_true_iff. by rewrite Hpq, IH. Qed.

Lemma str_all_app p a b : str_all p (a +:+ b) = str_all p a && str_all p b.
Proof. induction a as [|c a IH]; [done|]. rewrite str_app_cons. cbn. by rewrite IH, andb_assoc. Qed.

Lemma before_none p s : str_all (fun c => negb (p c)) s = true -> before p s = s.
Proof. induction s as [|c s IH]; [done|]. cbn. intros [Hc%negb_true_iff Hs]%andb_true_iff. by rewrite Hc, IH. Qed.

Lemma before_app p a c b : str_all (fun c => negb (p c)) a = true -> p c = true -> before p (a +:+ String c b) = a.
Proof.
  intros Ha Hc. induction a as [|x a IH].
  { change (EmptyString +:+ String c b)%string with (String c b). cbn. by rewrite Hc. }
  rewrite str_app_cons. cbn in *.
  apply andb_true_iff in Ha as [Hx%negb_true_iff Ha]. by rewrite Hx, IH.
Qed.

Lemma from_app p a c b : str_all (fun c => negb (p c)) a = true -> p c = true -> from p (a +:+ String c b) = String c b.
Proof.
  intros Ha Hc. induction a as [|x a IH].
  { change (EmptyString +:+ String c b)%string with (String c b). cbn. by rewrite Hc. }
  rewrite str_app_cons. cbn in *.
  apply andb_true_iff in Ha as [Hx%negb_true_iff Ha]. by rewrite Hx, IH.
Qed.

Lemma remove_unsafe_none s : str_all (fun c => negb (unsafe_byte c)) s = true -> remove_unsafe s = s.
Proof. induction s as [|c s IH]; [done|]. cbn. intros [Hc%negb_true_iff Hs]%andb_true_iff. by rewrite Hc, IH. Qed.

Lemma substring_all s : String.substring 0 (String.length s) s = s.
Proof. induction s as [|c s IH]; [done|]. cbn. by rewrite IH. Qed.

Lemma substring_after a b : String.substring (String.length a) (String.length (a +:+ b) - String.length a) (a +:+ b) = b.
Proof.
  induction a as [|c a IH]; [change ("" +:+ b)%string with b; cbn [String.length]; rewrite Nat.sub_0_r; apply substring_all|].
  rewrite str_app_cons. cbn. exact IH.
Qed.

Lemma starts_with_append a b : starts_with a (a +:+ b) = true.
Proof. induction a as [|c a IH]; [done|]. rewrite str_app_cons. cbn. by rewrite bool_decide_eq_true_2. Qed.

Lemma starts_with_split a s : starts_with a s = true -> exists b, s = (a +:+ b)%string.
Proof.
  revert s. induction a as [|c a IH]; intros s; [by exists s|]. destruct s as [|d s]; [done|]. cbn.
  intros [->%bool_decide_eq_true (b & ->)%IH]%andb_true_iff. by exists b.
Qed.

Lemma split_last_app s : s = ((split_last s).1 +:+ (split_last s).2)%string.
Proof.
  induction s as [|c s IH]; [done|]. cbn [split_last]. destruct (_ || _); [|done].
  destruct (split_last s) as [h t]. cbn [fst snd] in *. rewrite str_app_cons. by rewrite <- IH.
Qed.

(** A character that [quote] writes. *)
Definition url_char (c : ascii) : bool := url_safe c || bool_decide (c = "%"%char).

Lemma quote_chars s : str_all url_char (quote s) = true.
Proof.
  assert (forall n, 0 <= n < 16 -> url_char (hex_digit n) = true) as Hhex.
  { intros n Hn.
    assert (forallb (fun k => url_char (hex_digit (Z.of_nat k))) (seq 0 16) = true) as Hall by (by vm_compute).
    rewrite forallb_forall in Hall. specialize (Hall (Z.to_nat n)). rewrite Z2Nat.id in Hall by lia. apply Hall, in_seq. lia. }
  induction s as [|c s IH]; [done|]. cbn [quote]. destruct (url_safe c) eqn:Hc.
  - cbn [str_all]. unfold url_char at 1. by rewrite Hc, IH.
  - pose proof (nat_ascii_bounded c). cbn [str_all]. rewrite !Hhex by zlia. by rewrite IH.
Qed.

(** No character of a quoted text ends a path or is dropped from a URL. *)
Lemma url_char_plain c : url_char c = true ->
  negb (unsafe_byte c) = true /\ negb (bool_decide (c = "#"%char)) = true /\ negb (bool_decide (c = "?"%char)) = true /\
  negb (bool_decide (c = ";"%char)) = true.
Proof.
  intros Hc. repeat split; apply negb_true_iff.
  - destruct (unsafe_byte c) eqn:E; [|done]. exfalso. unfold unsafe_byte in E.
    rewrite !orb_true_iff, !Nat.eqb_eq in E. rewrite <- (ascii_nat_embedding c) in Hc.
    destruct E as [[E|E]|E]; rewrite E in Hc; discriminate Hc.
  - apply bool_decide_eq_false_2. intros ->. discriminate Hc.
  - apply bool_decide_eq_false_2. intros ->. discriminate Hc.
  - apply bool_decide_eq_false_2. intros ->. discriminate Hc.
Qed.

Lemma quote_plain (p : ascii -> bool) s : (forall c, url_char c = true -> negb (p c) = true) -> str_all (fun c => negb (p c)) (quote s) = true.
Proof. intros Hp. eapply str_all_impl; [exact Hp|apply quote_chars]. Qed.

(** A host as clients write it. *)
Definition plain_host (host : string) : bool := str_all (fun c => negb (str_mem c "/?#") && negb (unsafe_byte c)) host.

Lemma url_path_quoted check scheme host p :
  str_all (fun c => negb (unsafe_byte c)) scheme = true -> plain_host host = true -> check host = Ok tt ->
  url_path check scheme (scheme +:+ host +:+ String "/" (quote p)) = Ok (String "/" (quote p)).
Proof.
  intros Hs Hh Hc. unfold url_path.
  assert (str_all (fun c => negb (str_mem c "/?#")) host = true) as Hd by (eapply str_all_impl; [|exact Hh]; by intros c [? _]%andb_true_iff).
  assert (str_all (fun c => negb (unsafe_byte c)) host = true) as Hu by (eapply str_all_impl; [|exact Hh]; by intros c [_ ?]%andb_true_iff).
  rewrite remove_unsafe_none.
  2:{ rewrite !str_all_app, Hs, Hu. cbn [str_all andb]. apply quote_plain. intros c Hcc. by apply url_char_plain. }
  rewrite substring_after. rewrite before_app, Hc by done. cbn [rbind]. rewrite from_app by done.
  rewrite (before_none _ (String "/" (quote p))).
  2:{ cbn [str_all]. apply andb_true_iff. split; [done|]. apply quote_plain. intros c Hcc. by apply url_char_plain. }
  rewrite (before_none _ (String "/" (quote p))).
  2:{ cbn [str_all]. apply andb_true_iff. split; [done|]. apply quote_plain. intros c Hcc. by apply url_char_plain. }
  f_equal. unfold cut_params. destruct (split_last (String "/" (quote p))) as [h t] eqn:E.
  pose proof (split_last_app (String "/" (quote p))) as Ha. rewrite E in Ha. cbn [fst snd] in Ha.
  assert (str_all (fun c => negb (bool_decide (c = ";"%char))) (h +:+ t) = true) as Hall.
  { rewrite <- Ha. cbn [str_all]. apply andb_true_iff. split; [done|]. apply quote_plain. intros c Hcc. by apply url_char_plain. }
  rewrite str_all_app in Hall. apply andb_true_iff in Hall as [_ Ht]. by rewrite before_none.
Qed.
