(* ===== verification/Ops.v ===== *)
(** * Operations by path ([tgdcfs/core/ops.py])

    [Ops] resolves paths and calls the API.  [cd] returns [None] when [".."]
    leads above the root, as the code does; an attribute access on it raises.
    The progress task of an upload is left out. *)

From S2P Require Import Prelude Errors Messages FileVersion PosixPath FileRefs Contents Stores FileContent Mirror FdRepo Directory Api.

Open Scope Z_scope.
Open Scope py_scope.

(** What the front ends use of a [Client]: its configuration and its state. *)
Record FsClient (W M : Type) := { cl_api : ApiConfig; cl_fs : Fs W M }.
Arguments cl_api {W M}. Arguments cl_fs {W M}.

(** ** Paths *)

Definition validate_path (path : string) : exc unit :=
  match path with
  | EmptyString => Raise IndexError
  | String c _ =>
      if bool_decide (last_char path = Some "/"%char) || negb (bool_decide (c = "/"%char))
      then Raise (InvalidPath path) else Ok tt
  end.

(** An attribute of [None]. *)
Definition need {A} (o : option A) : exc A := match o with Some a => Ok a | None => Raise AttributeError end.

Fixpoint cd_loop (h : heap) (current : option nat) (parts : list string) : exc (option nat) :=
  match parts with
  | [] => Ok current
  | part :: parts =>
      if bool_decide (part = "..") then
        let* d := need current in cd_loop h (parent (dir_at h d)) parts
      else if bool_decide (part = ".") || bool_decide (part = EmptyString) then cd_loop h current parts
      else
        let* d := need current in
        let* c := find_dir h d part in
        cd_loop h (Some c) parts
  end.

Section Ops.
  Context {W M : Type} `{Stores W} `{FDJson} `{ContentRepo (Live W)} `{MetaRepo M W} (ac : ApiConfig).
  Context (on_written : option (nat -> st exn (Fs W M) unit)).
  Local Abbreviation fst_ := (st exn (Fs W M)).

Definition cd (path : string) : fst_ (option nat) :=
  let! root := get_root_directory in
  let! h := the_heap in
  slift (cd_loop h (Some root) (split_slash path)).

(** The directory at a path, about to be used. *)
Definition at_dir (path : string) : fst_ nat :=
  let! d := cd path in slift (need d).

Definition stat_file (path : string) : fst_ nat :=
  slift (validate_path path) ;;;
  let! d := at_dir (dirname path) in
  let! h := the_heap in
  slift (get_fr h d (basename path)).

(** [basename_to or basename_from]. *)
Definition or_else (a b : string) : string := if bool_decide (a = EmptyString) then b else a.

(** The directory or file a path names. *)
Definition named_dir (path : string) : fst_ nat :=
  let! d := at_dir (dirname path) in
  let! h := the_heap in
  slift (find_dir h d (basename path)).
Definition named_file (path : string) : fst_ nat :=
  let! d := at_dir (dirname path) in
  let! h := the_heap in
  slift (find_file h d (basename path)).

Definition ops_desc (path : string) : fst_ TGFSFileDesc :=
  let! fr := stat_file path in get_file_desc ac fr false true.

(** [for x in l: await f(x)]. *)
Fixpoint each {A} (f : A -> fst_ unit) (l : list A) : fst_ unit :=
  match l with [] => sret tt | x :: l => (f x ;;; each f l) end.

Fixpoint copy_dir_into (fuel : nat) (dir_to_copy under : nat) (name : string) : fst_ nat :=
  match fuel with
  | O => sraise OutOfFuel
  | S fuel =>
      let! copied := dir_create name under in
      let! h := the_heap in
      each (fun fr => let! _ := file_copy ac on_written (Some copied) fr None in sret tt) (find_files h dir_to_copy []) ;;;
      let! h := the_heap in
      each (fun c => let! h := the_heap in
                     let! _ := copy_dir_into fuel c copied (d_name (dir_at h c)) in sret tt)
           (find_dirs h dir_to_copy []) ;;;
      sret copied
  end.

Definition cp_dir (path_from path_to : string) : fst_ nat :=
  slift (validate_path path_from) ;;;
  let! dir_to_copy := named_dir path_from in
  let! d2 := cd (dirname path_to) in
  let! h := the_heap in
  (* [is_ancestor_of(None)] is [False] *)
  let! inside := slift (match d2 with Some d => is_ancestor_of h dir_to_copy d | None => Ok false end) in
  if inside then sraise (InvalidPath (path_from +:+ " cannot be copied into itself"))
  else
    batch (let! d := slift (need d2) in
           copy_dir_into (size (h_dirs h)) dir_to_copy d (or_else (basename path_to) (basename path_from))).

Definition cp_file (path_from path_to : string) : fst_ nat :=
  slift (validate_path path_from) ;;;
  let! fr := named_file path_from in
  let! d2 := cd (dirname path_to) in
  file_copy ac on_written d2 fr (Some (or_else (basename path_to) (basename path_from))).

Fixpoint make_parents (d : nat) (parts : list string) : fst_ nat :=
  match parts with
  | [] => sret d
  | part :: parts =>
      if bool_decide (part = EmptyString) then make_parents d parts
      else
        let! d := stry (let! h := the_heap in slift (find_dir h d part))
                       (fun ex => match ex with
                                  | FileOrDirectoryDoesNotExist _ => dir_create part d
                                  | _ => sraise ex
                                  end) in
        make_parents d parts
  end.

Definition mkdir (path : string) (parents : bool) : fst_ nat :=
  slift (validate_path path) ;;;
  let! d := at_dir (dirname path) in
  let! d := (if parents then make_parents d (split_slash (dirname path)) else sret d) in
  dir_create (basename path) d.

Definition ops_set_last_modified (path : string) (when : datetime) : fst_ TGFSFileDesc :=
  slift (validate_path path) ;;;
  let! fr := stat_file path in
  file_set_last_modified ac fr when.

Definition touch (path : string) : fst_ unit :=
  slift (validate_path path) ;;;
  let! d := at_dir (dirname path) in
  stry (let! h := the_heap in let! _ := slift (find_file h d (basename path)) in sret tt)
       (fun ex => match ex with
                  | FileOrDirectoryDoesNotExist _ =>
                      let! _ := file_upload ac on_written d (FEmpty (basename path)) None in sret tt
                  | _ => sraise ex
                  end).

Definition mv_dir (path_from path_to : string) : fst_ nat :=
  slift (validate_path path_from) ;;;
  let! d := named_dir path_from in
  let! d2 := cd (dirname path_to) in
  let name := or_else (basename path_to) (basename path_from) in
  match d2 with
  | Some d2 => dir_move d d2 (Some name)
  | None => let! _ := slift (validate_name name) in sraise AttributeError     (* move_to(None, name) *)
  end.

Definition mv_file (path_from path_to : string) : fst_ nat :=
  slift (validate_path path_from) ;;;
  let! fr := named_file path_from in
  let! d2 := at_dir (dirname path_to) in
  file_move ac fr d2 (Some (or_else (basename path_to) (basename path_from))).

Definition rm_dir (path : string) (recursive : bool) : fst_ nat :=
  slift (validate_path path) ;;;
  let! d := named_dir path in
  (if recursive then rm_dangerously ac d else rm_empty ac d) ;;;
  sret d.

Definition rm_file (path : string) : fst_ nat :=
  slift (validate_path path) ;;;
  let! fr := named_file path in
  file_rm ac fr None ;;;
  sret fr.

(** [os.path.isfile] and the content of a local file. *)
Context (local_files : string -> option bytes).

(** [_upload]: the directory is looked up when the upload starts. *)
Definition ops_upload (dir : string) (f : FileMessage) : fst_ TGFSFileDesc :=
  let! d := at_dir dir in
  file_upload ac on_written d f None.

Definition upload_from_local (local remote : string) : fst_ TGFSFileDesc :=
  match local_files local with
  | None => sraise (FileOrDirectoryDoesNotExist local)
  | Some content =>
      slift (validate_path remote) ;;;
      ops_upload (dirname remote) (FUploadable _ path_uploadable (path_message content (basename remote)))
  end.

Definition upload_from_bytes (data : bytes) (remote : string) : fst_ TGFSFileDesc :=
  slift (validate_path remote) ;;;
  ops_upload (dirname remote) (FUploadable _ buffer_uploadable (buffer_message data (basename remote))).

Definition upload_from_stream (s : stream) (size : Z) (remote : string) : fst_ TGFSFileDesc :=
  slift (validate_path remote) ;;;
  ops_upload (dirname remote) (FUploadable _ stream_uploadable (stream_message s size (basename remote))).

Definition import_from_existing_file_message (message_id size : Z) (remote : string) : fst_ TGFSFileDesc :=
  slift (validate_path remote) ;;;
  let! d := at_dir (dirname remote) in
  file_upload ac on_written d (FImported (basename remote) size message_id) None.

Definition download (path : string) (begin last : Z) (as_name : string) : fst_ stream :=
  slift (validate_path path) ;;;
  let! fr := named_file path in
  retrieve ac fr begin last as_name.

End Ops.
