(* ===== verification/Paths.v ===== *)
(** * Paths of the front ends ([tgdcfs/app/sftp/paths.py], [tgdcfs/app/utils.py])

    The front ends show one tree: its root lists the configured clients, and
    below the name of a client is that client's file system. *)

From S2P Require Import Prelude Errors FileVersion PosixPath Ops.

Open Scope Z_scope.
Open Scope py_scope.

(** ** [app/utils.py] *)

(** [destination[len(prefix):]] when it starts with [prefix + "/"]. *)
Definition strip_webdav_prefix (destination client_name : string) : string :=
  let prefix := ("/webdav/" +:+ client_name)%string in
  if bool_decide (destination = prefix) then EmptyString
  else if starts_with (prefix +:+ "/") destination
       then String.substring (String.length prefix) (String.length destination - String.length prefix) destination
       else destination.

(** [s.split("/", 1)]. *)
Fixpoint split_first (s : string) : string * option string :=
  match s with
  | EmptyString => (EmptyString, None)
  | String c s =>
      if bool_decide (c = "/"%char) then (EmptyString, Some s)
      else let '(a, r) := split_first s in (String c a, r)
  end.

(** [path.split("/", 2)] has two parts at least, the first of them empty. *)
Definition split_global_path (path : string) : exc (string * string) :=
  match path with
  | EmptyString => Raise IndexError
  | String c _ =>
      let path := if bool_decide (c = "/"%char) then path else ("/" +:+ path)%string in
      match split_first path with
      | (_, Some rest) => let '(name, sub) := split_first rest in Ok (name, default EmptyString sub)
      | (_, None) => Raise IndexError
      end
  end.

(** ** [app/sftp/paths.py] *)

Record ResolvedPath := { client_name : string; relative : string }.

Definition is_root (r : ResolvedPath) : bool := bool_decide (client_name r = EmptyString).
Definition is_client_root (r : ResolvedPath) : bool := negb (is_root r) && bool_decide (relative r = "/"%string).

Definition child (name : string) (r : ResolvedPath) : ResolvedPath :=
  if is_root r then {| client_name := name; relative := "/" |}
  else
    let prefix := if bool_decide (relative r = "/"%string) then EmptyString else relative r in
    {| client_name := client_name r; relative := (prefix +:+ "/" +:+ name)%string |}.

Definition resolved_basename (r : ResolvedPath) : string :=
  if is_root r then "/"%string
  else if bool_decide (relative r = "/"%string) then client_name r
  else basename (relative r).

Definition as_global (r : ResolvedPath) : string :=
  if is_root r then "/"%string
  else if bool_decide (relative r = "/"%string) then ("/" +:+ client_name r)%string
  else ("/" +:+ client_name r +:+ relative r)%string.

(** [path.replace("\\", "/")]. *)
Fixpoint forward_slashes (s : string) : string :=
  match s with
  | EmptyString => EmptyString
  | String c s => String (if bool_decide (c = "\"%char) then "/"%char else c) (forward_slashes s)
  end.

Definition normalize (path : string) : string :=
  let normalized := normpath (join_root (forward_slashes path)) in
  if bool_decide (normalized = "//"%string) then "/"%string else normalized.

Definition resolve (path : string) : exc ResolvedPath :=
  let normalized := normalize path in
  if bool_decide (normalized = "/"%string) then Ok {| client_name := EmptyString; relative := "/" |}
  else
    let* (name, sub) := split_global_path normalized in
    let sub := strip_slash sub in
    Ok {| client_name := name; relative := if bool_decide (sub = EmptyString) then "/"%string else ("/" +:+ sub)%string |}.

(** [_is_within] of [server.py]. *)
Definition is_within (path other : string) : bool :=
  bool_decide (path = other) || starts_with (rstrip_slash other +:+ "/") path.

(** ** What a path resolves to *)

(** Exactly two leading slashes, which POSIX leaves alone. *)
Definition double_slash (path : string) : bool :=
  let p := join_root (forward_slashes path) in starts_with "//" p && negb (starts_with "///" p).

(** The path with the components [cs]. *)
Definition absolute (cs : list string) : string := String "/" (join_slash cs).

Lemma join_root_slash p : starts_with "/" (join_root p) = true.
Proof. unfold join_root. destruct (starts_with "/" p) eqn:E; [done|]. done. Qed.

Definition clean (path : string) : list string := norm_comps true (split_slash (join_root (forward_slashes path))) [].

Lemma clean_components path : Forall component (clean path).
Proof. apply norm_comps_ok; [apply split_slash_no_slash|constructor]. Qed.

Lemma normpath_absolute p :
  starts_with "/" p = true ->
  normpath p = ((if starts_with "//" p && negb (starts_with "///" p) then "//" else "/") +:+
                join_slash (norm_comps true (split_slash p) []))%string.
Proof.
  intros Hp. unfold normpath. rewrite Hp. rewrite bool_decide_eq_false_2 by by intros ->.
  destruct (_ && _); by rewrite bool_decide_eq_false_2.
Qed.

Lemma normalize_single path : double_slash path = false -> normalize path = absolute (clean path).
Proof.
  intros Hd. unfold normalize. rewrite normpath_absolute by apply join_root_slash. unfold double_slash in Hd. rewrite Hd.
  fold (clean path). rewrite bool_decide_eq_false_2; [done|]. intros He. injection He as He.
  pose proof (clean_components path) as Hc. destruct (clean path) as [|c l]; [done|].
  inversion Hc as [|? ? Hc1 _]; subst. pose proof (lstrip_join c l Hc1) as Hl.
  change (join_slash (c :: l) = "/"%string) in He. by rewrite He in Hl.
Qed.

Lemma split_first_component c s : str_mem "/"%char c = false -> split_first (c +:+ String "/" s) = (c, Some s).
Proof.
  induction c as [|x c IH]; [done|]. rewrite str_app_cons. cbn [str_mem split_first]. intros [-> Hc]%orb_false_iff. by rewrite IH.
Qed.

Lemma split_first_plain c : str_mem "/"%char c = false -> split_first c = (c, None).
Proof. induction c as [|x c IH]; [done|]. cbn [str_mem split_first]. intros [-> Hc]%orb_false_iff. by rewrite IH. Qed.

(** What [resolve] makes of the components of a path. *)
Definition resolved_of (cs : list string) : ResolvedPath :=
  match cs with
  | [] => {| client_name := EmptyString; relative := "/" |}
  | c :: cs => {| client_name := c; relative := absolute cs |}
  end.

Lemma resolve_components path : double_slash path = false -> resolve path = Ok (resolved_of (clean path)).
Proof.
  intros Hd. unfold resolve. rewrite normalize_single by done. pose proof (clean_components path) as Hc.
  destruct (clean path) as [|c cs]; [done|]. inversion Hc as [|? ? Hc1 Hcs]; subst.
  rewrite bool_decide_eq_false_2; [|intros [= He]; by apply join_slash_nonempty in He].
  unfold absolute. cbn [split_global_path]. rewrite bool_decide_eq_true_2 by done. cbn [split_first].
  rewrite bool_decide_eq_true_2 by done. cbn [resolved_of]. destruct Hc1 as (Hne & _ & _ & Hs).
  destruct cs as [|d cs].
  - change (join_slash [c]) with c. rewrite split_first_plain by done. reflexivity.
  - change (join_slash (c :: d :: cs)) with (c +:+ String "/" (join_slash (d :: cs)))%string.
    rewrite split_first_component by done. cbn [from_option id rbind]. rewrite strip_join by done.
    inversion Hcs; subst. rewrite bool_decide_eq_false_2 by by apply join_slash_nonempty. reflexivity.
Qed.

Lemma as_global_components cs : Forall component cs -> as_global (resolved_of cs) = absolute cs.
Proof.
  intros Hc. destruct cs as [|c cs]; [done|]. inversion Hc as [|? ? (Hne & _) Hcs]; subst. unfold as_global, is_root.
  cbn [resolved_of client_name relative]. rewrite bool_decide_eq_false_2 by done. destruct cs as [|d cs].
  - change (absolute []) with "/"%string. by rewrite bool_decide_eq_true_2.
  - rewrite bool_decide_eq_false_2; [done|]. inversion Hcs; subst. intros [= He]. by apply join_slash_nonempty in He.
Qed.

(** A path that is clean already. *)
Lemma forward_slashes_app a b : forward_slashes (a +:+ b) = (forward_slashes a +:+ forward_slashes b)%string.
Proof. induction a as [|c a IH]; [done|]. rewrite str_app_cons. cbn [forward_slashes]. rewrite str_app_cons. by rewrite IH. Qed.

Definition no_backslash (s : string) : Prop := str_mem "\"%char s = false.

Lemma forward_slashes_id s : no_backslash s -> forward_slashes s = s.
Proof. unfold no_backslash. induction s as [|c s IH]; [done|]. cbn. intros [-> Hs]%orb_false_iff. by rewrite IH. Qed.

Lemma forward_no_backslash s : no_backslash (forward_slashes s).
Proof.
  unfold no_backslash. induction s as [|c s IH]; [done|]. cbn. rewrite IH, orb_false_r.
  apply bool_decide_eq_false_2. by case_bool_decide as Hc.
Qed.

Lemma split_slash_mem x s : x <> "/"%char -> str_mem x s = false -> Forall (fun c => str_mem x c = false) (split_slash s).
Proof.
  intros Hx. induction s as [|c s IH]; simpl; [by repeat constructor|]. intros [Hc Hs]%orb_false_iff. specialize (IH Hs).
  destruct (bool_decide (c = "/"%char)); [by constructor|].
  destruct (split_slash s) as [|p ps]; [constructor; [simpl; by rewrite Hc|constructor]|].
  inversion IH as [|? ? Hp Hps]; subst. constructor; [|done]. simpl. by rewrite Hc.
Qed.

Lemma norm_comps_sub (P : string -> Prop) a comps kept : Forall P comps -> Forall P kept -> Forall P (norm_comps a comps kept).
Proof.
  revert kept. induction comps as [|c comps IH]; intros kept Hc Hk; simpl; [by apply Forall_rev|].
  inversion Hc; subst. destruct (_ || _); [by apply IH|]. destruct (_ || _); apply IH; try done; [by constructor|].
  destruct kept; [done|]. by inversion Hk.
Qed.

Lemma clean_no_backslash path : Forall no_backslash (clean path).
Proof.
  apply norm_comps_sub; [|constructor]. apply split_slash_mem; [done|]. unfold join_root. destruct (starts_with _ _).
  - apply forward_no_backslash.
  - cbn. apply forward_no_backslash.
Qed.

Lemma join_no_backslash cs : Forall no_backslash cs -> no_backslash (join_slash cs).
Proof.
  induction cs as [|c [|d cs] IH]; intros Hc; [done| |]; inversion Hc as [|? ? H1 H2]; subst; [done|].
  change (join_slash (c :: d :: cs)) with (c +:+ String "/" (join_slash (d :: cs)))%string.
  unfold no_backslash in *. rewrite str_mem_app. cbn [str_mem]. rewrite H1, (IH H2). done.
Qed.

Lemma normalize_absolute cs : Forall component cs -> Forall no_backslash cs ->
  double_slash (absolute cs) = false /\ clean (absolute cs) = cs.
Proof.
  intros Hc Hb. unfold double_slash, clean. rewrite forward_slashes_id.
  2:{ unfold no_backslash, absolute. cbn. by apply join_no_backslash. }
  unfold join_root, absolute. cbn [starts_with]. rewrite bool_decide_eq_true_2 by done. cbn [andb].
  destruct cs as [|c cs]; [done|]. inversion Hc as [|? ? (Hne & _ & _ & Hs) Hcs]; subst. split.
  - destruct c as [|x c]; [done|]. cbn [str_mem] in Hs. apply orb_false_iff in Hs as [Hx _]. apply bool_decide_eq_false in Hx.
    assert (exists s, join_slash (String x c :: cs) = String x s) as (s & ->) by (destruct cs; eexists; reflexivity).
    rewrite (bool_decide_eq_false_2 ("/"%char = x)) by congruence. cbn [andb]. by rewrite andb_false_r.
  - cbn [split_slash]. rewrite bool_decide_eq_true_2 by done. cbn [norm_comps]. rewrite bool_decide_eq_true_2 by done. cbn [orb].
    rewrite split_join_slash; [|done|]; [by rewrite norm_comps_id|]. eapply Forall_impl; [exact Hc|]. by intros ? (_ & _ & _ & ?).
Qed.

(** Whatever path an SFTP client sends -- relative, with [".."], doubled
    or backward slashes -- unless it begins with exactly two slashes, it
    resolves to the name of a client and a path of [Ops] made of the proper
    names of entries, none of them ["."], [".."] or with a slash; the path
    shown for it is the normalized one, and that path resolves to the same
    place and is its own normal form. *)
Theorem resolve_contained path :
  double_slash path = false ->
  exists r cs, resolve path = Ok r /\ Forall component cs /\ r = resolved_of cs /\
    as_global r = normalize path /\ resolve (normalize path) = Ok r /\ normalize (normalize path) = normalize path.
Proof.
  intros Hd. pose proof (clean_components path) as Hc. pose proof (clean_no_backslash path) as Hb.
  destruct (normalize_absolute _ Hc Hb) as [Hd' Hcl].
  exists (resolved_of (clean path)), (clean path). split; [by apply resolve_components|]. split; [done|]. split; [done|].
  rewrite !(normalize_single path) by done. split; [by apply as_global_components|]. split.
  - rewrite resolve_components by done. by rewrite Hcl.
  - rewrite normalize_single by done. by rewrite Hcl.
Qed.

(** A path that begins with exactly two slashes resolves to the virtual
    root, whatever follows: [//notes/a.txt] is listed as the root itself. *)
Theorem double_slash_is_root path :
  double_slash path = true -> exists r, resolve path = Ok r /\ is_root r = true.
Proof.
  intros Hd. unfold resolve, normalize. rewrite normpath_absolute by apply join_root_slash. unfold double_slash in Hd. rewrite Hd.
  fold (clean path). set (n := if bool_decide _ then _ else _).
  destruct (decide (join_slash (clean path) = EmptyString)) as [He|He].
  - subst n. rewrite He. by eexists.
  - subst n. rewrite (bool_decide_eq_false_2 (("//" +:+ _)%string = "//"%string)) by (intros [= Hx]; done).
    rewrite bool_decide_eq_false_2 by done. eexists. split; [reflexivity|]. done.
Qed.

Lemma resolve_contained_witness :
  double_slash "notes/../mine\a//./b/.." = false /\
  exists r cs, resolve "notes/../mine\a//./b/.." = Ok r /\ Forall component cs /\ r = resolved_of cs /\
    as_global r = normalize "notes/../mine\a//./b/.." /\ resolve (normalize "notes/../mine\a//./b/..") = Ok r /\
    normalize (normalize "notes/../mine\a//./b/..") = normalize "notes/../mine\a//./b/..".
Proof. split; [reflexivity|]. apply (resolve_contained "notes/../mine\a//./b/.."). reflexivity. Defined.

Lemma double_slash_is_root_witness :
  double_slash "//notes/a.txt" = true /\ exists r, resolve "//notes/a.txt" = Ok r /\ is_root r = true.
Proof. split; [reflexivity|]. apply (double_slash_is_root "//notes/a.txt"). reflexivity. Defined.

(** The normal form of that path: [/mine/a]. *)
Example normalize_example : normalize "notes/../mine\a//./b/.." = "/mine/a"%string.
Proof. reflexivity. Qed.
