(* ===== verification/Auth.v ===== *)
(** * Users and tokens ([tgdcfs/auth/])

    A user of a front end is [readonly] or not.  WebDAV and SFTP ask for a
    name and a password ([basic.py]); the manager hands out a token
    ([bearer.py]), signed by the library [jwt].  The time is an argument. *)

From S2P Require Import Prelude Errors ConfigValue Config.

Open Scope Z_scope.
Open Scope py_scope.

(** [ReadonlyUser(username)] and [AdminUser(username)]. *)
Record User := { username : string; readonly : bool }.

Section Auth.
  Context (users : list (yaml * UserConfig)).

(** [config.tgdcfs.users.get(name)]; the keys of YAML may be of any type. *)
Definition get_user (name : string) : option UserConfig :=
  head (omap (fun ku => match ku.1 with YStr k => if bool_decide (k = name) then Some ku.2 else None | _ => None end) users).

(** The user of [config.tgdcfs.users] when the password is his: a password
    that YAML read as a number is no text and equals none. *)
Definition find_user (name password : string) : option UserConfig :=
  match get_user name with
  | Some u => match uc_password u with YStr p => if bool_decide (p = password) then Some u else None | _ => None end
  | None => None
  end.

(** [auth.basic.authenticate]. *)
Definition auth_basic (name password : string) : exc User :=
  if negb (nonempty users) then Ok {| username := "anonymous"; readonly := true |}
  else if bool_decide (name = EmptyString) then Raise (LoginFailed "Anonymous login is disabled.")
  else match find_user name password with
       | Some u => Ok {| username := name; readonly := truth (uc_readonly u) |}
       | None => Raise (LoginFailed name)
       end.

(** [JWTPayload]; [readonly] is what the configuration has. *)
Record JWTPayload := { jp_username : string; jp_exp : Z; jp_readonly : yaml }.

(** [jwt.encode] and [jwt.decode] with the configured key and algorithm, at
    a time in seconds. *)
Context (jwt_encode : JWTPayload -> string) (jwt_decode : Z -> string -> exc JWTPayload) (life : Z).

(** [login], at [now = int(time.time())]. *)
Definition login (now : Z) (name password : string) : exc string :=
  if negb (nonempty users) then
    Ok (jwt_encode {| jp_username := "anonymous"; jp_exp := now + life; jp_readonly := YBool true |})
  else if bool_decide (name = EmptyString) then Raise (LoginFailed "Anonymous login is disabled.")
  else match find_user name password with
       | Some u => Ok (jwt_encode {| jp_username := name; jp_exp := now + life; jp_readonly := uc_readonly u |})
       | None => Raise (LoginFailed name)
       end.

(** [auth.bearer.authenticate]. *)
Definition auth_bearer (now : Z) (token : string) : exc User :=
  let* payload := jwt_decode now token in
  Ok {| username := jp_username payload; readonly := truth (jp_readonly payload) |}.

(** A token is accepted, with what was signed, until it expires. *)
Definition jwt_laws : Prop := forall p now, now < jp_exp p -> jwt_decode now (jwt_encode p) = Ok p.

(** Both ways in agree: a name and password that log in get a token that
    stands, until it expires, for exactly the user the password itself
    stands for, readonly or not; and where the password is refused, so is
    the login, with the same error. *)
Lemma login_agrees now later name password :
  jwt_laws -> later < now + life ->
  (let* token := login now name password in auth_bearer later token) = auth_basic name password.
Proof.
  intros Hjwt Hlater. unfold login, auth_basic, auth_bearer. destruct (negb (nonempty users)); cbn [rbind].
  - by rewrite Hjwt.
  - case_bool_decide; [done|]. destruct (find_user name password) as [u|]; cbn [rbind]; [by rewrite Hjwt|done].
Qed.

(** A password written as a number in the configuration lets nobody in. *)
Lemma numeric_password_refused name password n u :
  get_user name = Some u -> uc_password u = YInt n -> auth_basic name password = Raise (LoginFailed name) \/ name = EmptyString.
Proof.
  intros Hg Hp. destruct (decide (name = EmptyString)); [by right|]. left. unfold auth_basic, find_user. rewrite Hg, Hp.
  assert (nonempty users = true) as -> by (unfold get_user in Hg; by destruct users). cbn [negb]. by rewrite bool_decide_eq_false_2.
Qed.

End Auth.
