(* ===== verification/Tasks.v ===== *)
(** * Progress of uploads and downloads ([tgdcfs/tasks/])

    [TaskStore] keeps what the front ends show about running transfers.  Its
    lock makes its methods follow one another.  Times are microseconds, as
    the ISO texts of the code give them back exactly; floats are rationals.
    [utcnow()] and [uuid4()] are arguments. *)

From Stdlib Require Import QArith.QArith QArith.Qminmax Lqa.
From S2P Require Import Prelude Errors PosixPath.

Open Scope Z_scope.
Open Scope py_scope.

Inductive TaskType := UPLOAD | DOWNLOAD | MIRROR_BACKFILL | DISTRIBUTION.
Inductive TaskStatus := PENDING | IN_PROGRESS | COMPLETED | FAILED.

#[export] Instance TaskStatus_eq_dec : EqDecision TaskStatus.
Proof. solve_decision. Defined.

Record Task := {
  t_id : string;
  t_type : TaskType;
  t_path : string;
  t_filename : string;
  t_status : TaskStatus;
  t_progress : Q;
  t_size_total : option Z;
  t_size_processed : option Z;
  t_error_message : option string;
  t_created_at : Z;
  t_updated_at : Z;
  t_speed : option Q
}.

Definition TaskStore := dict string Task.

(** [add_task]: the id is [str(uuid4())]. *)
Definition add_task (task_id : string) (now : Z) (type : TaskType) (path filename : string) (size_total : option Z) (s : TaskStore)
  : string * TaskStore :=
  (task_id,
   Dict.set task_id
     {| t_id := task_id; t_type := type; t_path := path; t_filename := filename; t_status := PENDING; t_progress := 0%Q;
        t_size_total := size_total; t_size_processed := Some 0; t_error_message := None; t_created_at := now; t_updated_at := now;
        t_speed := None |} s).

(** [size_delta / time_diff], [time_diff] in seconds. *)
Definition speed_of (size_delta : option Z) (now : Z) (t : Task) : option Q :=
  match size_delta, t_size_processed t with
  | Some d, Some _ => if t_updated_at t <? now then Some (inject_Z d / (inject_Z (now - t_updated_at t) / inject_Z 1000000))%Q else t_speed t
  | _, _ => t_speed t
  end.

Definition progress_of (size_delta : option Z) (status : option TaskStatus) (t : Task) : option Z * Q :=
  match t_size_processed t, size_delta with
  | Some p, Some d =>
      let p := p + d in
      (Some p,
       match t_size_total t with
       | Some total =>
           if 0 <? total then Qmin 1 (inject_Z p / inject_Z total)
           else match status with Some COMPLETED => 1%Q | Some FAILED => 0%Q | _ => t_progress t end
       | None => match status with Some COMPLETED => 1%Q | Some FAILED => 0%Q | _ => t_progress t end
       end)
  | p, _ => (p, t_progress t)
  end.

(** [update_task_progress], the clock read at [now] and again at [later]. *)
Definition update_task (now later : Z) (size_delta : option Z) (status : option TaskStatus) (error_message : option string) (t : Task) : Task :=
  let '(processed, progress) := progress_of size_delta status t in
  {| t_id := t_id t; t_type := t_type t; t_path := t_path t; t_filename := t_filename t;
     t_status := default (t_status t) status;
     t_progress := if bool_decide (status = Some COMPLETED) then 1%Q else progress;
     t_size_total := t_size_total t; t_size_processed := processed;
     t_error_message := match error_message with Some e => Some e | None => t_error_message t end;
     t_created_at := t_created_at t; t_updated_at := later; t_speed := speed_of size_delta now t |}.

Definition update_task_progress (now later : Z) (task_id : string) (size_delta : option Z) (status : option TaskStatus)
    (error_message : option string) (s : TaskStore) : bool * TaskStore :=
  match Dict.get task_id s with
  | None => (false, s)
  | Some t => (true, Dict.set task_id (update_task now later size_delta status error_message t) s)
  end.

Definition get_task (task_id : string) (s : TaskStore) : option Task := Dict.get task_id s.
Definition get_all_tasks (s : TaskStore) : list Task := Dict.values s.

Definition get_tasks_under_path (path : string) (s : TaskStore) : list Task :=
  let normalized := rstrip_slash path in
  let normalized := if bool_decide (normalized = EmptyString) then "/"%string else normalized in
  List.filter (fun t => let d := rstrip_slash (dirname (t_path t)) in
                        (bool_decide (d = EmptyString) && bool_decide (normalized = "/"%string)) || bool_decide (d = normalized))
    (Dict.values s).

Definition remove_task (task_id : string) (s : TaskStore) : bool * TaskStore :=
  if Dict.mem task_id s then (true, Dict.del task_id s) else (false, s).

Definition finished (t : Task) : bool := bool_decide (t_status t = COMPLETED) || bool_decide (t_status t = FAILED).

Definition cleanup_completed_tasks (now max_age_hours : Z) (s : TaskStore) : Z * TaskStore :=
  let cutoff := now - max_age_hours * 3600 * 1000000 in
  let to_remove := map fst (List.filter (fun kt => finished kt.2 && (t_updated_at kt.2 <? cutoff)) s) in
  (zlen to_remove, foldl (fun s k => Dict.del k s) s to_remove).

(** ** [integrations.py] *)

(** [create_upload_task] and [create_download_task]. *)
Definition create_task (type : TaskType) (task_id : string) (now later : Z) (file_path : string) (size : option Z) (s : TaskStore)
  : string * TaskStore :=
  let '(i, s) := add_task task_id now type file_path (basename file_path) size s in
  (i, (update_task_progress now later i None (Some IN_PROGRESS) None s).2).

(** [TaskTracker]. *)
Definition mark_completed (now later : Z) (task_id : string) (s : TaskStore) : TaskStore :=
  (update_task_progress now later task_id None (Some COMPLETED) None s).2.
Definition mark_failed (now later : Z) (task_id error : string) (s : TaskStore) : TaskStore :=
  (update_task_progress now later task_id None (Some FAILED) (Some error) s).2.
Definition cancelled (task_id : string) (s : TaskStore) : bool :=
  match get_task task_id s with Some _ => false | None => true end.

(** ** What is shown *)

(** The progress of a task is between 0 and 1, and what was transferred is
    not negative. *)
Definition task_ok (t : Task) : Prop := (0 <= t_progress t <= 1)%Q /\ match t_size_processed t with Some p => 0 <= p | None => True end.

Lemma update_ok now later d status e t :
  task_ok t -> match d with Some d => 0 <= d | None => True end -> task_ok (update_task now later d status e t).
Proof.
  intros [[H0 H1] Hp] Hd. unfold update_task, progress_of. destruct (t_size_processed t) as [p|] eqn:Ep; [destruct d as [d|]|].
  2,3: split; cbn; [destruct (bool_decide _); lra|done].
  assert (forall q : Q, (0 <= q <= 1)%Q -> 0 <= p + d -> task_ok
    {| t_id := t_id t; t_type := t_type t; t_path := t_path t; t_filename := t_filename t; t_status := default (t_status t) status;
       t_progress := if bool_decide (status = Some COMPLETED) then 1%Q else q; t_size_total := t_size_total t;
       t_size_processed := Some (p + d); t_error_message := match e with Some e => Some e | None => t_error_message t end;
       t_created_at := t_created_at t; t_updated_at := later; t_speed := speed_of (Some d) now t |}) as Hok.
  { intros q Hq Hpd. split; cbn; [destruct (bool_decide _); lra|done]. }
  assert ((0 <= match status with Some COMPLETED => 1 | Some FAILED => 0 | _ => t_progress t end <= 1)%Q) as Hs
    by (destruct status as [[]|]; lra).
  destruct (t_size_total t) as [total|] eqn:Et; [destruct (Z.ltb_spec 0 total) as [Ht|Ht]|]; apply Hok; try done; try lia.
  split; [|apply Q.le_min_l]. apply Q.min_glb; [lra|]. apply Qle_shift_div_l.
  - unfold Qlt, inject_Z. simpl. lia.
  - rewrite Qmult_0_l. unfold Qle, inject_Z. simpl. lia.
Qed.

(** A finished transfer is shown as complete, and a removed task counts as
    cancelled. *)
Lemma completed_progress now later task_id s t :
  Dict.get task_id s = Some t ->
  exists t', Dict.get task_id (mark_completed now later task_id s) = Some t' /\ t_progress t' = 1%Q /\ t_status t' = COMPLETED.
Proof.
  intros Hg. unfold mark_completed, update_task_progress. rewrite Hg. cbn [snd]. rewrite Dict.get_set_eq. eexists. split; [done|].
  unfold update_task. by destruct (progress_of _ _ _).
Qed.

Lemma removed_is_cancelled task_id s : cancelled task_id (remove_task task_id s).2 = true.
Proof.
  unfold cancelled, get_task, remove_task, Dict.mem. destruct (Dict.get task_id s) eqn:Hg.
  - cbn [snd]. by rewrite Dict.get_del_eq.
  - cbn [snd]. by rewrite Hg.
Qed.
