(* ===== verification/FsCache.v ===== *)
(** * The tree of cached entries ([tgdcfs/core/cache.py], [tgdcfs/app/fs_cache.py])

    [FSCache] keeps what a front end knows about paths in a tree of
    dictionaries.  A lookup makes the nodes it passes ([defaultdict]); they
    hold nothing and are left out. *)

From S2P Require Import Prelude Errors PosixPath.

Open Scope Z_scope.
Open Scope py_scope.

Inductive FSCache (V : Type) := Node (value : option V) (cache : list (string * FSCache V)).
Arguments Node {V}.

Section FSCache.
  Context {V : Type}.

Definition value (t : FSCache V) : option V := let '(Node v _) := t in v.
Definition cache (t : FSCache V) : dict string (FSCache V) := let '(Node _ c) := t in c.

Definition empty_cache : FSCache V := Node None [].

Definition split_path (path : string) : list string :=
  let path := strip_slash path in
  if bool_decide (path = EmptyString) then [EmptyString] else EmptyString :: split_slash path.

(** [self._cache[part]]. *)
Definition at_part (part : string) (t : FSCache V) : FSCache V := default empty_cache (Dict.get part (cache t)).

Fixpoint walk (parts : list string) (t : FSCache V) : FSCache V :=
  match parts with [] => t | p :: parts => walk parts (at_part p t) end.

Definition cache_get (path : string) (t : FSCache V) : option V := value (walk (split_path path) t).

(** [__set]: the node at the path is a new one. *)
Fixpoint set_parts (parts : list string) (v : option V) (t : FSCache V) : exc (FSCache V) :=
  match parts with
  | [] => Raise IndexError
  | [p] => Ok (Node (value t) (Dict.set p (Node v []) (cache t)))
  | p :: parts => let* c := set_parts parts v (at_part p t) in Ok (Node (value t) (Dict.set p c (cache t)))
  end.

Definition cache_set (path : string) (v : option V) (t : FSCache V) : exc (FSCache V) := set_parts (split_path path) v t.
Definition cache_reset (path : string) (t : FSCache V) : exc (FSCache V) := set_parts (split_path path) None t.
Definition reset_parent (path : string) (t : FSCache V) : exc (FSCache V) := set_parts (removelast (split_path path)) None t.

(** ** What is known after a change *)

Fixpoint is_prefix (a b : list string) : bool :=
  match a, b with
  | [], _ => true
  | x :: a, y :: b => bool_decide (x = y) && is_prefix a b
  | _, _ => false
  end.

Lemma walk_empty parts : value (walk parts empty_cache) = None.
Proof. by induction parts. Qed.

Lemma set_cons p q parts v t :
  set_parts (p :: q :: parts) v t =
    let* c := set_parts (q :: parts) v (at_part p t) in Ok (Node (value t) (Dict.set p c (cache t))).
Proof. done. Qed.

Lemma set_walk parts v t t' other :
  set_parts parts v t = Ok t' ->
  value (walk other t') =
    if bool_decide (other = parts) then v
    else if is_prefix parts other then None
    else value (walk other t).
Proof.
  revert t t' other. induction parts as [|p parts IH]; intros t t' other; [done|]. destruct parts as [|q parts].
  - intros [= <-]. destruct other as [|o other]; [done|]. cbn [walk is_prefix]. unfold at_part. cbn [cache].
    destruct (decide (o = p)) as [->|Hne].
    + rewrite Dict.get_set_eq. rewrite (bool_decide_eq_true_2 (p = p)) by done. cbn [andb from_option id].
      destruct other as [|x other]; [by rewrite bool_decide_eq_true_2|]. rewrite bool_decide_eq_false_2 by done.
      cbn [walk]. apply walk_empty.
    + rewrite Dict.get_set_ne by done. rewrite (bool_decide_eq_false_2 (p = o)) by congruence.
      rewrite bool_decide_eq_false_2 by congruence. done.
  - rewrite set_cons. destruct (set_parts (q :: parts) v (at_part p t)) as [c|ex] eqn:Hc; [|done]. cbn [rbind]. intros [= <-].
    destruct other as [|o other]; [done|]. cbn [walk]. unfold at_part at 1. cbn [cache].
    destruct (decide (o = p)) as [->|Hne].
    + rewrite Dict.get_set_eq. cbn [from_option id]. rewrite (IH _ _ other Hc). change (is_prefix (p :: q :: parts) (p :: other)) with
        (bool_decide (p = p) && is_prefix (q :: parts) other). rewrite (bool_decide_eq_true_2 (p = p)) by done. cbn [andb].
      destruct (decide (other = q :: parts)) as [->|Ho]; [by rewrite !bool_decide_eq_true_2|].
      by rewrite (bool_decide_eq_false_2 (other = _)), (bool_decide_eq_false_2 (p :: other = _)) by congruence.
    + rewrite Dict.get_set_ne by done. change (is_prefix (p :: q :: parts) (o :: other)) with (bool_decide (p = o) && is_prefix (q :: parts) other).
      rewrite (bool_decide_eq_false_2 (p = o)) by congruence. rewrite bool_decide_eq_false_2 by congruence. done.
Qed.

Lemma split_path_nonnil path : split_path path <> [].
Proof. unfold split_path. by case_bool_decide. Qed.

Lemma set_parts_total parts v t : parts <> [] -> exists t', set_parts parts v t = Ok t'.
Proof.
  revert t. induction parts as [|p parts IH]; intros t Hp; [done|]. destruct parts as [|q parts]; [by eexists|].
  rewrite set_cons. destruct (IH (at_part p t)) as [c ->]; [done|]. by eexists.
Qed.

(** Setting an entry never fails and leaves the cache knowing exactly this:
    at the path what was set, nothing of what is below it, and everything
    else as before -- also the entries above the path. *)
Lemma cache_set_spec path v t :
  exists t', cache_set path v t = Ok t' /\
    forall other, cache_get other t' =
      if bool_decide (split_path other = split_path path) then v
      else if is_prefix (split_path path) (split_path other) then None
      else cache_get other t.
Proof.
  destruct (set_parts_total (split_path path) v t (split_path_nonnil path)) as [t' Ht]. exists t'. split; [done|].
  intros other. by apply set_walk.
Qed.

(** Resetting the parent of the root raises. *)
Lemma reset_parent_of_root t : reset_parent "/" t = Raise IndexError.
Proof. done. Qed.

End FSCache.
