(* ===== verification/Dav.v ===== *)
(** * WebDAV: the tree of members ([tgdcfs/app/webdav/], [asgidav/member.py], [folder.py], [resource.py])

    A member is made anew for every request: a folder remembers the names it
    found when it was made, a resource the descriptor it read first.  The
    state is the file systems of the clients and the tree caches the WebDAV
    front end resets.  Tasks gathered by one request run one after another. *)

From stdpp Require Import pretty.
From S2P Require Import Prelude Errors Messages FileVersion PosixPath Contents Stores FileContent FileRefs Directory Mirror FdRepo Api Stats Ops Paths FsCache.

Open Scope Z_scope.
Open Scope py_scope.

(** [webdav.Folder]; [fo_dir] is the directory it stands for. *)
Record FolderObj := {
  fo_client : string; fo_path : string; fo_dir : nat; fo_sub_folders : list string; fo_sub_files : list string
}.

(** [webdav.Resource]; [ro_fd] is the descriptor once it was read. *)
Record ResourceObj := { ro_client : string; ro_path : string; ro_ref : nat; ro_fd : option TGFSFileDesc }.

Inductive Member :=
| MRoot (members : dict string FolderObj)
| MFolder (f : FolderObj)
| MResource (r : ResourceObj).

(** [isinstance(member, Folder)]. *)
Definition is_folder (m : Member) : bool := match m with MResource _ => false | _ => true end.

Definition member_path (m : Member) : string :=
  match m with
  | MRoot _ => "/"%string
  | MFolder f => ("/" +:+ fo_client f +:+ fo_path f)%string
  | MResource r => ("/" +:+ ro_client r +:+ ro_path r)%string
  end.

(** A value of [Properties]. *)
Inductive PropValue := PText (s : string) | PCount (n : Z).

(** The text forms of dates ([datetime], [email.utils]): RFC 1123 and ISO
    8601 of a number of milliseconds, and what they are read back as. *)
Record ParsedDate := { pd_us : Z; pd_offset : option Z }.    (* both in microseconds *)
Class DateText := {
  rfc1123 : Z -> string;
  iso8601 : Z -> string;
  parsedate_to_datetime : string -> exc ParsedDate;
  fromisoformat : string -> exc ParsedDate
}.

(** The state: the clients and [gfc]. *)
Record Dav (W M : Type) := { dv_clients : dict string (FsClient W M); dv_caches : dict string (FSCache Member) }.
Arguments dv_clients {W M}. Arguments dv_caches {W M}.

Section Dav.
  Context {W M : Type} `{Stores W} `{FDJson} `{ContentRepo (Live W)} `{MetaRepo M W} `{DateText}.
  Context (on_written : option (nat -> st exn (Fs W M) unit)) (meanwhile : Fs W M -> Fs W M).
  Local Abbreviation dst := (st exn (Dav W M)).

Definition with_dv_clients (c : dict string (FsClient W M)) (s : Dav W M) : Dav W M :=
  {| dv_clients := c; dv_caches := dv_caches s |}.
Definition with_dv_caches (c : dict string (FSCache Member)) (s : Dav W M) : Dav W M :=
  {| dv_clients := dv_clients s; dv_caches := c |}.

(** Something done with the client of a name. *)
Definition with_client {A} (name : string) (m : ApiConfig -> st exn (Fs W M) A) : dst A := fun s =>
  match Dict.get name (dv_clients s) with
  | None => (Raise KeyError, s)
  | Some c =>
      let '(r, fs) := m (cl_api c) (cl_fs c) in
      (r, with_dv_clients (Dict.set name {| cl_api := cl_api c; cl_fs := fs |} (dv_clients s)) s)
  end.

(** Something done with [gfc[name]]. *)
Definition on_gfc (name : string) (m : FSCache Member -> exc (FSCache Member)) : dst unit := fun s =>
  match Dict.get name (dv_caches s) with
  | None => (Raise KeyError, s)
  | Some c => match m c with
              | Ok c => (Ok tt, with_dv_caches (Dict.set name c (dv_caches s)) s)
              | Raise ex => (Raise ex, s)
              end
  end.

(** [[await f(x) for x in l]]. *)
Fixpoint smap {A B} (f : A -> dst B) (l : list A) : dst (list B) :=
  match l with
  | [] => sret []
  | x :: l => let! y := f x in let! ys := smap f l in sret (y :: ys)
  end.

(** ** Making members *)

(** [Folder(path, client)]. *)
Definition new_folder (client path : string) : dst FolderObj :=
  with_client client (fun _ =>
    let! d := (if bool_decide (path = "/"%string) then get_root_directory
               else let! d := cd path in slift (need d)) in
    let! h := the_heap in
    sret {| fo_client := client; fo_path := path; fo_dir := d;
            fo_sub_folders := remove_dups (map (fun c => d_name (dir_at h c)) (find_dirs h d []));
            fo_sub_files := remove_dups (map (name_of h) (find_files h d [])) |}).

(** [Resource(path, client)]. *)
Definition new_resource (client path : string) : dst ResourceObj :=
  on_gfc client (fun c => Ok c) ;;;
  let! fr := with_client client (fun _ => stat_file path) in
  sret {| ro_client := client; ro_path := path; ro_ref := fr; ro_fd := None |}.

Definition sub_path (f : FolderObj) (name : string) : string := (fo_path f +:+ name)%string.

(** [Folder.member]: [path.split("/", 1)] over and over is [path.split("/")]. *)
Fixpoint folder_member (f : FolderObj) (parts : list string) : dst (option Member) :=
  match parts with
  | [] => sret (Some (MFolder f))
  | part :: rest =>
      if bool_decide (part = EmptyString) then sret (Some (MFolder f))
      else if bool_decide (part ∈ fo_sub_files f) then
        let! r := new_resource (fo_client f) (sub_path f part) in sret (Some (MResource r))
      else if bool_decide (part ∈ fo_sub_folders f) then
        let! g := new_folder (fo_client f) (sub_path f part +:+ "/") in
        folder_member g rest
      else sret None
  end.

(** [RootFolder._route]. *)
Definition root_route (members : dict string FolderObj) (path : string) : option FolderObj * string :=
  let '(name, sub) := split_first path in (Dict.get name members, default EmptyString sub).

(** [member(path)] of either folder. *)
Definition member_of (m : Member) (path : string) : dst (option Member) :=
  match m with
  | MRoot members =>
      if bool_decide (path = EmptyString) then sret (Some m)
      else match root_route members path with
           | (None, _) => sret None
           | (Some f, sub) => folder_member f (split_slash sub)
           end
  | MFolder f => folder_member f (split_slash path)
  | MResource _ => sraise AttributeError
  end.

Definition member_names (m : Member) : list string :=
  match m with
  | MRoot members => Dict.keys members
  | MFolder f => remove_dups (fo_sub_folders f ++ fo_sub_files f)
  | MResource _ => []
  end.

(** [_get_member]. *)
Definition get_member (path : string) : dst (option Member) :=
  if bool_decide (path = EmptyString) || bool_decide (path = "/"%string) then
    fun s =>
      (let! members := smap (fun name => let! f := new_folder name "/" in sret (name, f)) (Dict.keys (dv_clients s)) in
       sret (Some (MRoot members))) s
  else
    let! (client, sub) := slift (split_global_path path) in
    fun s =>
      match Dict.get client (dv_clients s) with
      | None => (Ok None, s)
      | Some _ =>
          (let! root := new_folder client "/" in folder_member root (split_slash (lstrip_slash sub))) s
      end.

(** [create_webdav_app]: every client gets a cache with its root. *)
Definition create_webdav_app : dst unit := fun s =>
  (sfor (Dict.keys (dv_clients s)) (fun name =>
     let! f := new_folder name "/" in
     let! c := slift (cache_set "/" (Some (MFolder f)) empty_cache) in
     fun s => (Ok tt, with_dv_caches (Dict.set name c (dv_caches s)) s))) s.

(** ** What a resource knows *)

(** [Resource.__fd]. *)
Definition resource_fd (r : ResourceObj) : dst (TGFSFileDesc * ResourceObj) :=
  match ro_fd r with
  | Some fd => sret (fd, r)
  | None =>
      let! fd := with_client (ro_client r) (fun ac => ops_desc ac (ro_path r)) in
      sret (fd, {| ro_client := ro_client r; ro_path := ro_path r; ro_ref := ro_ref r; ro_fd := Some fd |})
  end.

(** [get_latest_version()]: an empty one is made when there is none. *)
Definition resource_latest (r : ResourceObj) : dst (TGFSFileVersion * ResourceObj) :=
  let! (fd, r) := resource_fd r in
  let! fv := with_client (ro_client r) (fun _ =>
               let! t := now in let! u := uuid in slift (get_latest_version t u fd)) in
  sret (fv, r).

Definition resource_creation_date (r : ResourceObj) : dst (Z * ResourceObj) :=
  let! (fd, r) := resource_fd r in sret (Z.quot (dt_us (created_at fd)) 1000000, r).

Definition resource_last_modified (r : ResourceObj) : dst (Z * ResourceObj) :=
  let! (fv, r) := resource_latest r in sret (updated_at_timestamp fv, r).

Definition resource_content_length (r : ResourceObj) : dst (Z * ResourceObj) :=
  let! (fv, r) := resource_latest r in
  let! n := with_client (ro_client r) (fun _ => fd_content_length fv) in
  sret (n, r).

Definition resource_content_type : string := "application/octet-stream".

Definition resource_get_content (r : ResourceObj) (begin last : Z) : dst stream :=
  with_client (ro_client r) (fun ac => download ac (ro_path r) begin last (basename (ro_path r))).

(** [get_properties] of a resource. *)
Definition resource_properties (r : ResourceObj) : dst (dict string PropValue) :=
  with_client (ro_client r) (fun ac =>
    let! stat := stat_get ac meanwhile (ro_ref r) in
    let! h := the_heap in
    sret [("getlastmodified", PText (rfc1123 (fst_modified_at stat))); ("creationdate", PText (iso8601 (fst_created_at stat)));
          ("displayname", PText (name_of h (ro_ref r))); ("resourcetype", PText "");
          ("getcontenttype", PText resource_content_type); ("getcontentlength", PText (pretty (fst_size stat)))]%string).

(** ** What a folder knows *)

(** The directory object of a folder, as it is now. *)
Definition the_dir (f : FolderObj) : dst TGFSDirectory :=
  with_client (fo_client f) (fun _ => let! h := the_heap in sret (dir_at h (fo_dir f))).

Definition folder_last_modified (m : Member) : dst Z :=
  match m with
  | MFolder f => let! d := the_dir f in sret (ts (d_modified_at d))
  | _ => sret (ts FIRST_DAY_OF_EPOCH)
  end.

Definition folder_creation_date (m : Member) : dst Z :=
  match m with
  | MFolder f => let! d := the_dir f in sret (ts (d_created_at d))
  | _ => sret (ts FIRST_DAY_OF_EPOCH)
  end.

Definition folder_display_name (m : Member) : dst string :=
  match m with MFolder f => let! d := the_dir f in sret (d_name d) | _ => sret "root"%string end.

Definition folder_content_type : string := "httpd/unix-directory".

(** [get_properties] of any member. *)
Definition get_properties (m : Member) : dst (dict string PropValue) :=
  match m with
  | MResource r => resource_properties r
  | _ =>
      let! modified := folder_last_modified m in
      let! created := folder_creation_date m in
      let! name := folder_display_name m in
      sret [("getlastmodified", PText (rfc1123 modified)); ("creationdate", PText (iso8601 created));
            ("displayname", PText name); ("resourcetype", PText "collection");
            ("getcontenttype", PText folder_content_type); ("childcount", PCount (zlen (member_names m)))]%string
  end.

(** ** Changing members *)

(** [Folder.create_empty_resource]. *)
Fixpoint folder_create (f : FolderObj) (parts : list string) : dst Member :=
  on_gfc (fo_client f) (cache_reset (fo_path f)) ;;;
  match parts with
  | [] => sraise ValueError
  | [name] =>
      if bool_decide (name = EmptyString) then sraise ValueError
      else
        (if bool_decide (name ∈ fo_sub_files f) then sret tt
         else with_client (fo_client f) (fun ac => touch ac on_written (sub_path f name))) ;;;
        let! r := new_resource (fo_client f) (sub_path f name) in
        sret (MResource r)
  | name :: rest =>
      let! sub := folder_member f [name] in
      match sub with
      | Some (MFolder g) => folder_create g rest
      | _ => sraise ValueError
      end
  end.

Definition create_empty_resource (m : Member) (path : string) : dst Member :=
  match m with
  | MRoot members =>
      match root_route members path with
      | (None, _) => sraise NotImplementedError
      | (Some f, sub) => folder_create f (split_slash sub)
      end
  | MFolder f => folder_create f (split_slash path)
  | MResource _ => sraise AttributeError
  end.

Definition create_folder (m : Member) (name : string) : dst unit :=
  match m with
  | MFolder f =>
      on_gfc (fo_client f) (cache_reset (fo_path f)) ;;;
      with_client (fo_client f) (fun _ => let! _ := mkdir (sub_path f name) false in sret tt)
  | MRoot _ => sraise NotImplementedError
  | MResource _ => sraise AttributeError
  end.

(** [Resource.overwrite]. *)
Definition overwrite (r : ResourceObj) (content : stream) (size : Z) : dst unit :=
  on_gfc (ro_client r) (cache_reset (ro_path r)) ;;;
  with_client (ro_client r) (fun ac => let! _ := upload_from_stream ac on_written content size (ro_path r) in sret tt).

Definition member_set_last_modified (m : Member) (timestamp : Z) : dst Member :=
  match m with
  | MResource r =>
      let when := fromtimestamp_ms timestamp in
      on_gfc (ro_client r) (cache_reset (ro_path r)) ;;;
      with_client (ro_client r) (fun ac => let! _ := ops_set_last_modified ac (ro_path r) when in sret tt) ;;;
      sret (MResource {| ro_client := ro_client r; ro_path := ro_path r; ro_ref := ro_ref r; ro_fd := None |})
  | _ => sraise NotImplementedError
  end.

Definition member_remove (m : Member) : dst unit :=
  match m with
  | MRoot _ => sraise NotImplementedError
  | MFolder f =>
      on_gfc (fo_client f) (reset_parent (fo_path f)) ;;;
      with_client (fo_client f) (fun ac => let! _ := rm_dir ac (rstrip_slash (fo_path f)) true in sret tt)
  | MResource r =>
      on_gfc (ro_client r) (reset_parent (ro_path r)) ;;;
      with_client (ro_client r) (fun ac => let! _ := rm_file ac (ro_path r) in sret tt)
  end.

Definition member_copy_to (m : Member) (destination : string) : dst unit :=
  match m with
  | MRoot _ => sraise NotImplementedError
  | MFolder f =>
      let destination := strip_webdav_prefix destination (fo_client f) in
      on_gfc (fo_client f) (reset_parent destination) ;;;
      with_client (fo_client f) (fun ac =>
        let! _ := cp_dir ac on_written (rstrip_slash (fo_path f)) (rstrip_slash destination) in sret tt)
  | MResource r =>
      let destination := strip_webdav_prefix destination (ro_client r) in
      on_gfc (ro_client r) (reset_parent destination) ;;;
      with_client (ro_client r) (fun ac => let! _ := cp_file ac on_written (ro_path r) destination in sret tt)
  end.

Definition member_move_to (m : Member) (destination : string) : dst unit :=
  match m with
  | MRoot _ => sraise NotImplementedError
  | MFolder f =>
      let destination := strip_webdav_prefix destination (fo_client f) in
      on_gfc (fo_client f) (reset_parent (fo_path f)) ;;;
      on_gfc (fo_client f) (reset_parent destination) ;;;
      with_client (fo_client f) (fun ac =>
        let! _ := mv_dir (rstrip_slash (fo_path f)) (rstrip_slash destination) in sret tt)
  | MResource r =>
      let destination := strip_webdav_prefix destination (ro_client r) in
      on_gfc (ro_client r) (reset_parent (ro_path r)) ;;;
      on_gfc (ro_client r) (reset_parent destination) ;;;
      with_client (ro_client r) (fun ac => let! _ := mv_file ac (ro_path r) destination in sret tt)
  end.

End Dav.
