(* ===== verification/DavApp.v ===== *)
(** * WebDAV: requests ([asgidav/app.py], [asgidav/reqres.py], [app/__init__.py])

    One function per method of the protocol, from the request to the
    response.  The web framework hands a handler the path below the mount
    point and the headers by name; [lxml] is the class [Lxml] over its
    elements [E].  The order of a Python set is arbitrary: here it is the
    order of the list it was made from. *)

From stdpp Require Import pretty sorting.
From S2P Require Import Prelude Errors Codec Messages FileVersion Names PosixPath Http Contents Stores FileContent FileRefs Directory Mirror FdRepo ConfigValue Config Api Stats Ops Paths Auth FsCache Dav.

Open Scope Z_scope.
Open Scope py_scope.

Record Request := { rq_headers : dict string string; rq_body : stream }.

Inductive Body := BText (s : string) | BStream (s : stream).

Record Response := { rs_status : Z; rs_headers : dict string string; rs_body : Body }.

Definition header (name : string) (rq : Request) : option string := Dict.get name (rq_headers rq).

(** An XML document the code builds. *)
Inductive Xml := XElem (tag : string) (text : option string) (children : list Xml).

Class Lxml (E : Type) := {
  fromstring : bytes -> option E;                (* [None]: XMLSyntaxError *)
  el_tag : E -> option string;                   (* [None]: a comment or an instruction *)
  el_text : E -> option string;
  el_children : E -> list E;
  find_below : string -> E -> option E;          (* [find(".//D:name")] *)
  find_children : string -> E -> list E;         (* [findall("D:name")] *)
  localname : E -> exc string;                   (* [QName(e).localname] *)
  tostring : Xml -> string
}.

Definition DAV_NS : string := "DAV:".
Definition _tag (name : string) : string := ("{" +:+ DAV_NS +:+ "}" +:+ name)%string.
Definition MS_NS : string := "urn:schemas-microsoft-com:".
Definition _ms_tag (name : string) : string := ("{" +:+ MS_NS +:+ "}" +:+ name)%string.

(** A text between quotation marks. *)
Definition in_quotes (s : string) : string := (String (ascii_of_nat 34) (s +:+ String (ascii_of_nat 34) EmptyString))%string.

(** ** Responses *)

Definition common_headers : dict string string := [("DAV", "1, 2"); ("MS-Author-Via", "DAV")]%string.

Definition respond (status : Z) (headers : dict string string) : Response :=
  {| rs_status := status; rs_headers := headers; rs_body := BText EmptyString |}.
Definition detail (status : Z) (text : string) : Response :=
  {| rs_status := status; rs_headers := []; rs_body := BText text |}.

Definition NOT_FOUND : Response := respond 404 common_headers.
Definition CREATED : Response := respond 201 common_headers.
Definition NO_CONTENT : Response := respond 204 common_headers.
Definition CONFLICT : string -> Response := detail 409.
Definition BAD_REQUEST : string -> Response := detail 400.
Definition FORBIDDEN : string -> Response := detail 403.
Definition PRECONDITION_FAILED : string -> Response := detail 412.

(** ** Ranges *)

(** [s.split("-", 1)] of a text with a dash. *)
Fixpoint split_dash (s : string) : string * string :=
  match s with
  | EmptyString => (EmptyString, EmptyString)
  | String c s => if bool_decide (c = "-"%char) then (EmptyString, s) else let '(a, b) := split_dash s in (String c a, b)
  end.

Definition int_or (dflt : Z) (s : string) : exc Z :=
  if bool_decide (s = EmptyString) then Ok dflt else int_of_string (strip s).

(** Whether the request asks for a range, and [begin, end]. *)
Definition parse_range (h : option string) : exc (bool * Z * Z) :=
  match h with
  | None => Ok (false, 0, -1)
  | Some h =>
      match strip_prefix "bytes=" h with
      | None => Ok (false, 0, -1)
      | Some v =>
          if str_mem "-"%char v then
            let '(b, e) := split_dash v in
            let* begin := int_or 0 b in
            let* last := int_or (-1) e in
            Ok (true, begin, last)
          else let* begin := int_of_string v in Ok (true, begin, -1)
      end
  end.

(** The last byte of an answer, and its headers. *)
Definition actual_end (last content_length : Z) : Z :=
  Z.min (if last =? -1 then content_length - 1 else last) (content_length - 1).

Definition range_headers (begin last content_length : Z) : dict string string :=
  [("Content-Range", "bytes " +:+ pretty begin +:+ "-" +:+ pretty (actual_end last content_length) +:+ "/" +:+ pretty content_length);
   ("Content-Length", pretty (Z.max 0 (actual_end last content_length - begin + 1)))]%string.

(** ** PROPPATCH bodies *)

Definition LAST_MODIFIED_TAGS : list string := [_tag "getlastmodified"; _ms_tag "Win32LastModifiedTime"].
Definition ACCEPTED_TAGS : list string :=
  [_ms_tag "Win32CreationTime"; _ms_tag "Win32LastAccessTime"; _ms_tag "Win32FileAttributes"].
Definition PROTECTED_TAGS : list string :=
  [_tag "creationdate"; _tag "displayname"; _tag "getcontentlength"; _tag "getcontenttype"; _tag "getetag"; _tag "resourcetype";
   _tag "lockdiscovery"; _tag "supportedlock"].

Record PropertyUpdate := { pu_tag : string; pu_value : option string; pu_remove : bool }.

(** [s.replace("Z", "+00:00")]. *)
Fixpoint replace_Z (s : string) : string :=
  match s with
  | EmptyString => EmptyString
  | String c s => if bool_decide (c = "Z"%char) then ("+00:00" +:+ replace_Z s)%string else String c (replace_Z s)
  end.

(** The reason phrases of the statuses PROPPATCH reports. *)
Definition phrase (status : Z) : string :=
  if status =? 200 then "OK" else if status =? 403 then "Forbidden" else "Conflict".

(** [quote(f"{base_path}{member.path}", safe="/")]. *)
Definition href_of (base_path : string) (m : Member) : string := quote (base_path +:+ member_path m).

Definition default_props : list string :=
  ["displayname"; "getcontentlength"; "getcontenttype"; "getetag"; "getlastmodified"; "creationdate"; "resourcetype"]%string.

(** The methods with a handler. *)
Inductive Verb := OPTIONS | PROPFIND | PROPPATCH | HEAD | GET | PUT | DELETE | MKCOL | COPY | MOVE | LOCK | UNLOCK.

Definition verb_name (v : Verb) : string :=
  match v with
  | OPTIONS => "OPTIONS" | PROPFIND => "PROPFIND" | PROPPATCH => "PROPPATCH" | HEAD => "HEAD" | GET => "GET" | PUT => "PUT"
  | DELETE => "DELETE" | MKCOL => "MKCOL" | COPY => "COPY" | MOVE => "MOVE" | LOCK => "LOCK" | UNLOCK => "UNLOCK"
  end.

#[export] Instance Verb_eq_dec : EqDecision Verb.
Proof. solve_decision. Defined.

Section DavApp.
  Context {W M : Type} `{Stores W} `{FDJson} `{ContentRepo (Live W)} `{MetaRepo M W} `{DateText} {E : Type} `{Lxml E}.
  Context (on_written : option (nat -> st exn (Fs W M) unit)) (meanwhile : Fs W M -> Fs W M).
  Context (check_netloc : string -> exc unit) (base_path : string).
  Local Abbreviation dst := (st exn (Dav W M)).

(** [request.body()]. *)
Definition body (rq : Request) : exc bytes := read_all (rq_body rq).

(** ** PROPFIND *)

(** [PropfindRequest.from_request]: the depth and the properties; [None]
    when the body asks for nothing it knows. *)
Definition propfind_request (rq : Request) : exc (option (Z * list string)) :=
  let* depth := match header "Depth" rq with Some h => int_of_string h | None => Raise KeyError end in
  let* b := body rq in
  match fromstring b with
  | None => Ok (Some (depth, default_props))
  | Some root =>
      match find_below "propname" root, find_below "allprop" root, find_below "prop" root with
      | Some _, _, _ | None, Some _, _ => Ok (Some (depth, default_props))
      | None, None, Some elem =>
          let* names := rmapM localname (el_children elem) in
          Ok (Some (depth, List.filter (fun p => bool_decide (p ∈ names)) default_props))
      | None, None, None => Ok None
      end
  end.

(** One property: the value of [resourcetype] of a collection is an element. *)
Definition prop_elem (m : Member) (name : string) (v : PropValue) : exc Xml :=
  match v with
  | PCount _ => Raise TypeError
  | PText s =>
      Ok (if bool_decide (name = "resourcetype"%string) && is_folder m
          then XElem (_tag name) None [XElem (_tag s) None []]
          else XElem (_tag name) (Some s) [])
  end.

Definition propstat (m : Member) (prop_names : list string) : dst Xml :=
  let! properties := get_properties meanwhile m in
  let! props := slift (rmapM (fun nv => prop_elem m nv.1 nv.2)
                  (omap (fun n => option_map (pair n) (Dict.get n properties)) (remove_dups prop_names))) in
  sret (XElem (_tag "propstat") None
          [XElem (_tag "prop") None props; XElem (_tag "status") (Some "HTTP/1.1 200 OK"%string) []]).

(** [_propfind_response]: a member and what is below it, [depth] levels deep
    (all of it for a negative depth). *)
Fixpoint propfind_response (fuel : nat) (m : Member) (depth : Z) (prop_names : list string) : dst (list Xml) :=
  match fuel with
  | O => sraise OutOfFuel
  | S fuel =>
      let! stat := propstat m prop_names in
      let root := XElem (_tag "response") None [XElem (_tag "href") (Some (href_of base_path m)) []; stat] in
      if negb (is_folder m) || (depth =? 0) then sret [root]
      else
        let! subs := smap (member_of m) (member_names m) in
        let! responses := smap (fun m => propfind_response fuel m (depth - 1) prop_names) (omap id subs) in
        sret (root :: concat responses)
  end.

(** Enough levels: those asked for, or the directories there are. *)
Definition propfind_fuel (depth : Z) (s : Dav W M) : nat :=
  if 0 <=? depth then S (Z.to_nat depth)
  else S (S (S (foldr (fun c n => size (h_dirs (fs_heap (cl_fs c.2))) + n) 0 (dv_clients s))))%nat.

Definition propfind (members : list Member) (depth : Z) (prop_names : list string) : dst Xml := fun s =>
  (let! responses := smap (fun m => propfind_response (propfind_fuel depth s) m depth prop_names) members in
   sret (XElem (_tag "multistatus") None (concat responses))) s.

Definition xml_response (x : Xml) : Response :=
  {| rs_status := 207; rs_headers := Dict.update common_headers [("Content-Type", "application/xml; charset=utf-8")]%string;
     rs_body := BText (tostring x) |}.

Definition handle_propfind (rq : Request) (path : string) : dst Response :=
  let! r := slift (propfind_request rq) in
  let! m := get_member path in
  match m with
  | None => sret NOT_FOUND
  | Some m =>
      match r with
      | None => sraise AttributeError
      | Some (depth, props) => let! x := propfind [m] depth props in sret (xml_response x)
      end
  end.

(** ** PROPPATCH *)

(** [ProppatchRequest.from_request]. *)
Definition proppatch_request (rq : Request) : exc (list PropertyUpdate) :=
  let* b := body rq in
  match fromstring b with
  | None => Raise ValueError
  | Some root =>
      if negb (bool_decide (el_tag root = Some (_tag "propertyupdate"))) then Raise ValueError
      else
        Ok (concat (map (fun action =>
              if bool_decide (el_tag action = Some (_tag "set")) || bool_decide (el_tag action = Some (_tag "remove")) then
                let remove := bool_decide (el_tag action = Some (_tag "remove")) in
                concat (map (fun prop =>
                  omap (fun elem =>
                    option_map (fun tag =>
                      {| pu_tag := tag; pu_value := if remove then None else Some (strip (default EmptyString (el_text elem)));
                         pu_remove := remove |}) (el_tag elem)) (el_children prop))
                  (find_children "prop" action))
              else []) (el_children root)))
  end.

(** Unix milliseconds; a date without a zone is UTC. *)
Definition parse_http_date (value : string) : exc Z :=
  let* parsed := match parsedate_to_datetime value with
                 | Raise ex => if is_ValueError ex || bool_decide (ex = TypeError) || bool_decide (ex = IndexError)
                               then match fromisoformat (replace_Z value) with
                                    | Raise ex => if is_ValueError ex then Raise ValueError else Raise ex
                                    | Ok p => Ok p
                                    end
                               else Raise ex
                 | Ok p => Ok p
                 end in
  Ok (Z.quot (pd_us parsed - default 0 (pd_offset parsed)) 1000).

Definition apply_property (m : Member) (u : PropertyUpdate) : dst (Z * Member) :=
  if bool_decide (pu_tag u ∈ ACCEPTED_TAGS) then sret (200, m)
  else if bool_decide (pu_tag u ∈ LAST_MODIFIED_TAGS) then
    if pu_remove u then sret (403, m)
    else
      stry (let! timestamp := slift (parse_http_date (default EmptyString (pu_value u))) in
            let! m := member_set_last_modified m timestamp in
            sret (200, m))
           (fun ex => if bool_decide (ex = NotImplementedError) then sret (403, m)
                      else if is_ValueError ex then sret (409, m)
                      else sraise ex)
  else if bool_decide (pu_tag u ∈ PROTECTED_TAGS) then sret (403, m)
  else sret (if pu_remove u then 200 else 403, m).

(** The loop of [proppatch]: the tags under their status. *)
Fixpoint apply_updates (m : Member) (us : list PropertyUpdate) (by_status : dict Z (list string))
  : dst (dict Z (list string)) :=
  match us with
  | [] => sret by_status
  | u :: us =>
      let! (status, m) := apply_property m u in
      apply_updates m us (Dict.set status (default [] (Dict.get status by_status) ++ [pu_tag u]) by_status)
  end.

Definition status_elem (by_status : dict Z (list string)) (status : Z) : Xml :=
  XElem (_tag "propstat") None
    [XElem (_tag "prop") None (map (fun tag => XElem tag None []) (default [] (Dict.get status by_status)));
     XElem (_tag "status") (Some ("HTTP/1.1 " +:+ pretty status +:+ " " +:+ phrase status)%string) []].

Definition proppatch (m : Member) (updates : list PropertyUpdate) : dst Xml :=
  let! by_status := apply_updates m updates [] in
  sret (XElem (_tag "multistatus") None
          [XElem (_tag "response") None
             (XElem (_tag "href") (Some (href_of base_path m)) []
              :: map (status_elem by_status) (merge_sort Z.le (Dict.keys by_status)))]).

Definition handle_proppatch (rq : Request) (path : string) : dst Response :=
  match proppatch_request rq with
  | Raise ex => if is_ValueError ex then sret (BAD_REQUEST "Malformed PROPPATCH body") else sraise ex
  | Ok updates =>
      let! m := get_member path in
      match m with
      | None => sret NOT_FOUND
      | Some m => let! x := proppatch m updates in sret (xml_response x)
      end
  end.

(** ** HEAD and GET *)

Definition head_request (path : string) : dst Response :=
  let! m := get_member path in
  match m with
  | None => sret NOT_FOUND
  | Some (MResource r) =>
      let! (n, r) := resource_content_length r in
      let! (t, r) := resource_last_modified r in
      sret (respond 200 (Dict.update common_headers
              [("Content-Type", resource_content_type); ("Content-Length", pretty n); ("Last-Modified", pretty t)]%string))
  | Some m =>
      let! t := folder_last_modified m in
      sret (respond 200 (Dict.update common_headers
              [("Content-Type", folder_content_type); ("Last-Modified", pretty t); ("Accept-Ranges", "none")]%string))
  end.

Definition get_request (rq : Request) (path : string) : dst Response :=
  let! (is_range, begin, last) := slift (parse_range (header "Range" rq)) in
  let! m := get_member path in
  match m with
  | None => sret NOT_FOUND
  | Some (MResource r) =>
      let! content := resource_get_content r begin last in
      let! (t, r) := resource_last_modified r in
      let! (n, r) := resource_content_length r in
      let headers := [("Last-Modified", pretty t); ("Accept-Ranges", "bytes")]%string in
      sret (if is_range
            then {| rs_status := 206;
                    rs_headers := headers ++ range_headers begin last n ++ [("Content-Type", resource_content_type)]%string;
                    rs_body := BStream content |}
            else {| rs_status := 200;
                    rs_headers := headers ++ [("Content-Length", pretty n); ("Content-Type", resource_content_type)]%string;
                    rs_body := BStream content |})
  | Some _ => sraise ValueError
  end.

(** ** PUT, DELETE, MKCOL *)

(** [isinstance(await get_member(path), Folder)]. *)
Definition folder_at (path : string) : dst bool :=
  let! m := get_member path in sret (match m with Some m => is_folder m | None => false end).

(** The member a PUT writes to: made when there is none, or the refusal. *)
Definition put_target (path : string) : dst (Member + Response) :=
  let! m := get_member path in
  match m with
  | Some m => sret (inl m)
  | None =>
      let parent := (split_parent path).1 in
      let! ok := folder_at parent in
      if negb ok then sret (inr (CONFLICT ("Parent folder " +:+ parent +:+ " does not exist.")))
      else
        let! root := get_member "/" in
        match root with
        | Some (MRoot _ as root) =>
            stry (let! m := create_empty_resource on_written root path in sret (inl m))
                 (fun ex => if bool_decide (ex = NotImplementedError) then sret (inr (FORBIDDEN ("Cannot create " +:+ path)))
                            else sraise ex)
        | _ => sraise ValueError
        end
  end.

Definition put_request (rq : Request) (path : string) : dst Response :=
  let! size := slift (int_of_string (default "0"%string (header "Content-Length" rq))) in
  let! target := put_target path in
  match target with
  | inr refusal => sret refusal
  | inl (MResource r) =>
      (if 0 <? size then overwrite on_written r (rq_body rq) size else sret tt) ;;;
      sret CREATED
  | inl _ => sret (CONFLICT "Cannot PUT to a directory")
  end.

Definition delete_request (path : string) : dst Response :=
  let! m := get_member path in
  match m with
  | Some m => member_remove m ;;; sret NO_CONTENT
  | None => sret NOT_FOUND
  end.

Definition mkcol (path : string) : dst Response :=
  let '(parent_path, folder_name) := split_parent path in
  let! parent := get_member parent_path in
  match parent with
  | None => sret (CONFLICT ("Parent folder " +:+ parent_path +:+ " does not exist."))
  | Some parent =>
      if negb (is_folder parent) then sret (CONFLICT ("Parent " +:+ parent_path +:+ " is not a folder."))
      else
        let! m := member_of parent folder_name in
        match m with
        | Some m => sret (if is_folder m then CREATED else CONFLICT ("Resource " +:+ path +:+ " is a file."))
        | None =>
            stry (create_folder parent folder_name ;;; sret CREATED)
                 (fun ex => if bool_decide (ex = NotImplementedError) then sret (FORBIDDEN ("Cannot create " +:+ path))
                            else sraise ex)
        end
  end.

(** ** COPY and MOVE *)

(** Whether [Overwrite] forbids to replace the target. *)
Definition keep_target (rq : Request) : bool :=
  let v := strip (default "T"%string (header "Overwrite" rq)) in
  bool_decide (v = "F"%string) || bool_decide (v = "f"%string).

Definition transfer (rq : Request) (path : string) (moving : bool) : dst Response :=
  match header "Destination" rq with
  | None | Some EmptyString => sret (BAD_REQUEST "Destination header is required.")
  | Some destination =>
      let! m := get_member path in
      match m with
      | None => sret NOT_FOUND
      | Some m =>
          let! dest_path := slift (extract_path_from_destination check_netloc destination) in
          let source := strip_slash path in
          let target := mount_relative base_path dest_path in
          if bool_decide (source = target) then sret (FORBIDDEN "Source and destination are the same.")
          else if below target source then
            sret (CONFLICT (path +:+ " cannot be " +:+ (if moving then "moved" else "copied") +:+ " into itself."))
          else if below source target then sret (CONFLICT (path +:+ " cannot replace one of its own parents."))
          else
            let parent := (split_parent target).1 in
            let! ok := folder_at parent in
            if negb ok then sret (CONFLICT ("Parent folder " +:+ parent +:+ " does not exist."))
            else
              let! existing := get_member target in
              let go := if moving then member_move_to m dest_path else member_copy_to on_written m dest_path in
              match existing with
              | None => go ;;; sret CREATED
              | Some existing =>
                  if keep_target rq then sret (PRECONDITION_FAILED (target +:+ " already exists."))
                  else member_remove existing ;;; go ;;; sret NO_CONTENT
              end
      end
  end.

(** ** LOCK, UNLOCK, OPTIONS: nothing is locked *)

Definition options : Response :=
  respond 200 (Dict.update common_headers
    [("Allow", String.concat ", " METHODS); ("Cache-Control", "no-cache")]%string).

Definition LOCK_TOKEN : string := "opaquelocktoken:dummy-lock-id".

(** The same answer for every path. *)
Definition lock_body : string :=
  "<D:prop xmlns:D=" +:+ in_quotes "DAV:" +:+ ">
                <D:lockdiscovery>
                    <D:activelock>
                        <D:locktype><D:write/></D:locktype>
                        <D:lockscope><D:exclusive/></D:lockscope>
                        <D:depth>Infinity</D:depth>
                        <D:owner><D:href>/</D:href></D:owner>
                        <D:timeout>Second-3600</D:timeout>
                        <D:locktoken><D:href>" +:+ LOCK_TOKEN +:+ "</D:href></D:locktoken>
                    </D:activelock>
                </D:lockdiscovery>
            </D:prop>".

Definition lock : Response :=
  {| rs_status := 200; rs_headers := [("Content-Type", "application/xml"); ("Lock-Token", "<" +:+ LOCK_TOKEN +:+ ">")]%string;
     rs_body := BText lock_body |}.

Definition unlock : Response := {| rs_status := 204; rs_headers := []; rs_body := BText EmptyString |}.

(** ** The application *)

Definition handle (v : Verb) (rq : Request) (path : string) : dst Response :=
  match v with
  | OPTIONS => sret options
  | PROPFIND => handle_propfind rq path
  | PROPPATCH => handle_proppatch rq path
  | HEAD => head_request path
  | GET => get_request rq path
  | PUT => put_request rq path
  | DELETE => delete_request path
  | MKCOL => mkcol path
  | COPY => transfer rq path false
  | MOVE => transfer rq path true
  | LOCK => sret lock
  | UNLOCK => sret unlock
  end.

(** A client that hangs up is answered, any other exception is left to the
    framework. *)
Definition dav_app (v : Verb) (rq : Request) (path : string) : dst Response :=
  stry (handle v rq path)
       (fun ex => if bool_decide (ex = ClientDisconnect) then sret (respond 400 []) else sraise ex).

End DavApp.

(** ** Who may do what ([app/__init__.py]) *)

Definition READONLY_METHODS : list string := ["GET"; "HEAD"; "OPTIONS"; "PROPFIND"]%string.

Definition UNAUTHORIZED (text : string) : Response :=
  {| rs_status := 401; rs_headers := [("WWW-Authenticate", "Basic realm=" +:+ in_quotes "TGDCFS" +:+ ", Bearer realm=" +:+ in_quotes "TGDCFS")]%string; rs_body := BText text |}.

(** [base64.b64decode]: the standard alphabet; other characters are skipped. *)
Definition b64_std_decode (s : string) : exc bytes :=
  b64_decode (List.filter (fun c => negb (str_mem c "-_")) (String.list_ascii_of_string s)).

(** [s.split(":", 1)] into two. *)
Fixpoint split_colon (s : string) : option (string * string) :=
  match s with
  | EmptyString => None
  | String c s => if bool_decide (c = ":"%char) then Some (EmptyString, s)
                  else option_map (fun ab => (String c ab.1, ab.2)) (split_colon s)
  end.

Section Middleware.
  Context (users : list (yaml * UserConfig)) (jwt_decode : Z -> string -> exc JWTPayload) {S : Type}.

(** Who a request comes from; [None]: the scheme is not supported. *)
Definition user_of (now : Z) (auth_header : string) : exc (option User) :=
  match strip_prefix "Bearer " auth_header with
  | Some token => rmap Some (auth_bearer jwt_decode now token)
  | None =>
      match strip_prefix "Basic " auth_header with
      | Some credentials =>
          let* b := b64_std_decode credentials in
          let* credentials := decode_utf8 b in
          match split_colon credentials with
          | None => Raise ValueError
          | Some (name, password) => rmap Some (auth_basic users name password)
          end
      | None => Ok None
      end
  end.

(** [auth_middleware]: an exception, also one of the request itself, is
    answered like a failed login; the error text is left out. *)
Definition auth_middleware (now : Z) (method url_path : string) (authorization : option string)
    (call_next : st exn S Response) : st exn S Response :=
  if bool_decide (method = "OPTIONS"%string) || bool_decide (url_path = "/login"%string) then call_next
  else match authorization with
       | None | Some EmptyString => sret (UNAUTHORIZED "Authorization header is missing")
       | Some auth_header =>
           stry (let! user := slift (user_of now auth_header) in
                 match user with
                 | None => sret (UNAUTHORIZED "Unsupported authentication method")
                 | Some user =>
                     if negb (bool_decide (method ∈ READONLY_METHODS)) && readonly user
                     then sret (FORBIDDEN "You do not have permission to perform this action")
                     else call_next
                 end)
                (fun ex => if is_Exception ex then sret (UNAUTHORIZED EmptyString) else sraise ex)
       end.
End Middleware.
