(* ===== verification/SftpHandleProps.v ===== *)
(** * Open files of the SFTP server ([tgdcfs/app/sftp/handles.py])

    A [ReadHandle] serves reads at any offset from a download stream that can
    only be read on; a [WriteHandle] spools what is written, at any offset,
    and uploads it when the handle is closed.  The state [S] is that of the
    file system behind the handle: [download o] is [Ops.download] of its path
    from the offset [o] on, [upload] is [Ops.upload_from_stream] to its path.
    The lock of a handle makes its operations follow one another.  The spool
    is a file in memory or on disk; that it may be full is left out. *)

From S2P Require Import Prelude Errors Messages.

Open Scope Z_scope.
Open Scope py_scope.

Definition SEEK_DATA : Z := 3.
Definition SEEK_HOLE : Z := 4.
Definition SEEK_FORWARD_THRESHOLD : Z := 1024 * 1024.
Definition SPOOL_READ_CHUNK : Z := 1024 * 1024.

(** [Handle.seek] of a handle of the given size: one solid data region. *)
Definition seek (size offset whence : Z) : exc Z :=
  if (whence =? SEEK_DATA) || (whence =? SEEK_HOLE) then
    if size <=? offset then Raise OSError
    else Ok (if whence =? SEEK_DATA then offset else size)
  else Raise OSError.

(** ** [ReadHandle] *)

(** The stream is what its generator has left to deliver. *)
Record ReadHandle := { rh_size : Z; rh_stream : option stream; rh_pos : Z; rh_buffer : bytes }.

Definition open_read (size : Z) : ReadHandle := {| rh_size := size; rh_stream := None; rh_pos := 0; rh_buffer := [] |}.

Definition rh_with (s : option stream) (pos : Z) (buffer : bytes) (h : ReadHandle) : ReadHandle :=
  {| rh_size := rh_size h; rh_stream := s; rh_pos := pos; rh_buffer := buffer |}.

(** The loop of [_consume], with [_next_chunk]: a generator that raised is
    finished, and so is one that ended. *)
Fixpoint fill (count : Z) (flt : option exn) (ps : list bytes) (buffer : bytes) : exc unit * stream * bytes :=
  if count <=? zlen buffer then (Ok tt, {| pieces := ps; fault := flt |}, buffer)
  else
    match ps with
    | chunk :: ps =>
        if nonempty chunk then fill count flt ps (buffer ++ chunk)
        else (Ok tt, {| pieces := ps; fault := flt |}, buffer)
    | [] =>
        match flt with
        | Some ex => (if bool_decide (ex = StopAsyncIteration) then Ok tt else Raise ex, empty_stream, buffer)
        | None => (Ok tt, empty_stream, buffer)
        end
    end.

Definition consume (count : Z) (h : ReadHandle) : exc bytes * ReadHandle :=
  let '(r, s, buffer) :=
    match rh_stream h with
    | Some s => let '(r, s, buffer) := fill count (fault s) (pieces s) (rh_buffer h) in (r, Some s, buffer)
    | None => (Ok tt, None, rh_buffer h)
    end in
  match r with
  | Raise ex => (Raise ex, rh_with s (rh_pos h) buffer h)
  | Ok _ =>
      let data := ztake count buffer in
      (Ok data, rh_with s (rh_pos h + zlen data) (zdrop (zlen data) buffer) h)
  end.

Section ReadHandle.
  Context {S : Type} (download : Z -> st exn S stream).
  Local Abbreviation rst := (st exn (S * ReadHandle)).

Definition on_handle {A} (f : ReadHandle -> exc A * ReadHandle) : rst A := fun s => let '(r, h) := f s.2 in (r, (s.1, h)).

Definition reopen (offset : Z) : rst unit := fun s =>
  let h := rh_with None offset [] s.2 in
  match download offset s.1 with
  | (Ok c, w) => (Ok tt, (w, rh_with (Some c) offset [] h))
  | (Raise ex, w) => (Raise ex, (w, h))
  end.

Definition rh_read (offset size : Z) : rst bytes := fun s =>
  let h := s.2 in
  if (size <=? 0) || (rh_size h <=? offset) then (Ok [], s)
  else
    match rh_stream h with
    | None => (reopen offset ;;; on_handle (consume size)) s
    | Some _ =>
        if offset <? rh_pos h then (reopen offset ;;; on_handle (consume size)) s
        else if rh_pos h <? offset then
          let gap := offset - rh_pos h in
          if SEEK_FORWARD_THRESHOLD <? gap then (reopen offset ;;; on_handle (consume size)) s
          else (let! skipped := on_handle (consume gap) in
                if zlen skipped <? gap then sret [] else on_handle (consume size)) s
        else on_handle (consume size) s
    end.

Definition rh_close : rst unit := fun s => (Ok tt, (s.1, rh_with None (rh_pos s.2) [] s.2)).

(** A client's requests, one after the other. *)
Fixpoint reads (requests : list (Z * Z)) (s : S * ReadHandle) : list (exc bytes) * (S * ReadHandle) :=
  match requests with
  | [] => ([], s)
  | (offset, size) :: requests =>
      let '(r, s) := rh_read offset size s in
      let '(rs, s) := reads requests s in
      (r :: rs, s)
  end.

End ReadHandle.

(** ** [WriteHandle] *)

Record WriteHandle := { wh_spool : bytes; wh_size : Z; wh_dirty : bool; wh_closed : bool }.

Definition open_write : WriteHandle := {| wh_spool := []; wh_size := 0; wh_dirty := false; wh_closed := false |}.

(** [seek] and [write] on the spool: a write of nothing changes nothing. *)
Definition spool_write (offset : Z) (data spool : bytes) : bytes :=
  if nonempty data then pwrite_bytes offset data spool else spool.

Definition write_sync (offset : Z) (data : bytes) (h : WriteHandle) : WriteHandle :=
  {| wh_spool := spool_write offset data (wh_spool h); wh_size := Z.max (wh_size h) (offset + zlen data);
     wh_dirty := true; wh_closed := wh_closed h |}.

Definition wh_write (offset : Z) (data : bytes) : st exn WriteHandle unit := fun h =>
  if wh_closed h then (Raise ValueError, h) else (Ok tt, write_sync offset data h).

(** The loop of [_iter_spool]. *)
Fixpoint spool_chunks (fuel : nat) (position remaining : Z) (spool : bytes) : list bytes :=
  match fuel with
  | O => []
  | S fuel =>
      if remaining <=? 0 then []
      else
        let chunk := zslice position (position + Z.min SPOOL_READ_CHUNK remaining) spool in
        if nonempty chunk then chunk :: spool_chunks fuel (position + zlen chunk) (remaining - zlen chunk) spool else []
  end.

Definition iter_spool (h : WriteHandle) : stream :=
  {| pieces := spool_chunks (S (length (wh_spool h))) 0 (wh_size h) (wh_spool h); fault := None |}.

Definition shut (h : WriteHandle) : WriteHandle :=
  {| wh_spool := []; wh_size := wh_size h; wh_dirty := wh_dirty h; wh_closed := true |}.

Section WriteHandle.
  Context {S : Type} (upload : stream -> Z -> st exn S unit).

(** [close]: the spool is given back whatever the upload does. *)
Definition wh_close : st exn (S * WriteHandle) unit := fun s =>
  let '(w, h) := s in
  if wh_closed h then (Ok tt, s)
  else if wh_dirty h then
    let '(r, w) := upload (iter_spool h) (wh_size h) w in (r, (w, shut h))
  else (Ok tt, (w, shut h)).

Definition wh_abort : st exn (S * WriteHandle) unit := fun s =>
  let '(w, h) := s in if wh_closed h then (Ok tt, s) else (Ok tt, (w, shut h)).

End WriteHandle.

(** What a client does with a handle it writes through. *)
Definition writes (ws : list (Z * bytes)) (h : WriteHandle) : WriteHandle :=
  foldl (fun h w => (wh_write w.1 w.2 h).2) h ws.

(** ** Properties of the open files of the SFTP server

    Reads at any offsets deliver the bytes asked for, and never other bytes;
    what was written in any order is uploaded as the file it makes. *)

(** ** Reading *)

Definition no_empty (ps : list bytes) : Prop := Forall (fun p => nonempty p = true) ps.

(** What [fill] moves from the stream to the buffer. *)
Lemma fill_spec count flt ps buffer r s b :
  fill count flt ps buffer = (r, s, b) ->
  b ++ stream_bytes s = buffer ++ concat ps /\
  (flt = None -> no_empty ps -> r = Ok tt /\ fault s = None /\ no_empty (pieces s) /\ (count <= zlen b \/ pieces s = [])).
Proof.
  revert buffer. induction ps as [|p ps IH]; intros buffer; simpl.
  - destruct (Z.leb_spec count (zlen buffer)); [intros [= <- <- <-]; split; [done|]; intros -> _; repeat split; [constructor|by left]|].
    destruct flt as [ex|]; intros [= <- <- <-]; (split; [done|]); [done|]. intros _ _. repeat split; [constructor|by right].
  - destruct (Z.leb_spec count (zlen buffer)); [intros [= <- <- <-]; split; [done|]; intros -> Hp; repeat split; [done|by left]|].
    destruct (nonempty p) eqn:Hn.
    + intros Hf. destruct (IH _ Hf) as [He Hs]. split; [by rewrite He, <- app_assoc|]. intros Hflt Hp. apply Hs; [done|].
      by inversion Hp.
    + intros [= <- <- <-]. split; [by destruct p|]. intros _ Hp. exfalso. inversion Hp as [|? ? Hp1]; subst. rewrite Hn in Hp1. done.
Qed.

Section Reads.
  Context {S : Type} (download : Z -> st exn S stream) (good : S -> Prop) (c : bytes) (steady : bool).

(** A stream opened at [o] delivers the file from there on, and when it
    fails a beginning of it; a [steady] one does not fail. *)
Definition streams_from (o : Z) (s : stream) : Prop :=
  stream_bytes s `prefix_of` zdrop o c /\
  (steady = true -> fault s = None /\ stream_bytes s = zdrop o c /\ no_empty (pieces s)).

Definition serves : Prop := forall o s, good s -> 0 <= o < zlen c ->
  let '(r, s') := download o s in
  good s' /\ match r with Ok x => streams_from o x | Raise _ => steady = false end.

(** The buffer and what the stream has left continue the file at the
    position reached. *)
Definition at_pos (h : ReadHandle) : Prop :=
  rh_size h = zlen c /\
  match rh_stream h with
  | Some s =>
      0 <= rh_pos h /\ (exists z, zdrop (rh_pos h) c = (rh_buffer h ++ stream_bytes s) ++ z /\ (steady = true -> z = [])) /\
      (steady = true -> fault s = None /\ no_empty (pieces s))
  | None => True
  end.

Definition answers (offset size : Z) (r : exc bytes) : Prop :=
  match r with
  | Ok d => d `prefix_of` zslice offset (offset + size) c /\ (steady = true -> d = zslice offset (offset + size) c)
  | Raise _ => steady = false
  end.

Lemma consume_spec count h r h' x :
  rh_stream h = Some x -> at_pos h -> 0 <= count -> consume count h = (r, h') ->
  at_pos h' /\ answers (rh_pos h) count r /\
  match r with Ok d => rh_pos h' = rh_pos h + zlen d /\ is_Some (rh_stream h') | Raise _ => True end.
Proof.
  unfold consume, at_pos. intros Hx (Hsz & H). rewrite Hx in *. destruct H as (Hp & (z & Hz & Hze) & Hst). intros Hc.
  destruct (fill count (fault x) (pieces x) (rh_buffer h)) as [[q s] b] eqn:Hf. apply fill_spec in Hf as [He Hs].
  change (concat (pieces x)) with (stream_bytes x) in He.
  destruct q as [[]|ex]; intros [= <- <-]; cbn [rh_size rh_stream rh_pos rh_buffer rh_with].
  - assert (zlen (ztake count b) = Z.min count (zlen b)) as Hl by (apply zlen_ztake; lia).
    pose proof (zlen_nonneg b). pose proof (zlen_nonneg (ztake count b)).
    assert (zdrop (rh_pos h) c = (b ++ stream_bytes s) ++ z) as Hb by (by rewrite He).
    split; [split; [done|]; split; [lia|]; split|].
    + exists z. split; [|done].
      rewrite <- (zdrop_zdrop (zlen (ztake count b))) by lia. rewrite Hb, <- !app_assoc.
      rewrite zdrop_app. replace (zlen (ztake count b) - zlen b) with (Z.min (count - zlen b) 0) by lia.
      f_equal. apply zdrop_0. lia.
    + intros Hstd. destruct (Hst Hstd) as [Hf1 Hn1]. destruct (Hs Hf1 Hn1) as (_ & Hf & Hn & _). done.
    + split; [|split; [done|by eexists]]. cbn [answers]. rewrite zslice_spec. replace (rh_pos h + count - rh_pos h) with count by lia.
      rewrite Hb. split.
      * rewrite <- app_assoc, ztake_app. by eexists.
      * intros Hstd. rewrite (Hze Hstd), app_nil_r. destruct (Hst Hstd) as [Hf1 Hn1].
        destruct (Hs Hf1 Hn1) as (_ & Hf & Hn & [Hcnt|Hnil]); rewrite ztake_app.
        -- rewrite (ztake_0 (count - zlen b)) by lia. by rewrite app_nil_r.
        -- unfold stream_bytes. rewrite Hnil. simpl. unfold ztake at 3. rewrite take_nil. by rewrite app_nil_r.
  - split; [split; [done|]; split; [done|]; split|].
    + exists z. split; [|done]. by rewrite He.
    + intros Hstd. destruct (Hst Hstd) as [Hf1 Hn1]. by destruct (Hs Hf1 Hn1) as (? & _).
    + split; [|done]. cbn [answers]. destruct steady eqn:Hstd; [|done]. destruct (Hst eq_refl) as [Hf1 Hn1].
      by destruct (Hs Hf1 Hn1) as (? & _).
Qed.

Context (Hserves : serves).

(** Opening the stream anew and reading on. *)
Lemma reopened offset size s r s' :
  good s.1 -> at_pos s.2 -> 0 <= offset < zlen c -> 0 <= size ->
  (reopen download offset ;;; on_handle (consume size)) s = (r, s') ->
  good s'.1 /\ at_pos s'.2 /\ answers offset size r.
Proof.
  intros Hg [Hsz Hp] Ho Hs. unfold sbind, reopen. pose proof (Hserves offset s.1 Hg Ho) as Hd.
  destruct (download offset s.1) as [[x|ex] w]; destruct Hd as [Hgw Hx].
  - unfold on_handle. cbn [fst snd]. destruct (consume _ _) as [q h'] eqn:Hc. intros [= <- <-]. split; [done|].
    destruct Hx as [(z & Hz) Hstd].
    edestruct (fun H1 H2 H3 => consume_spec _ _ _ _ x H1 H2 H3 Hc) as (Hat & Ha & _).
    { done. }
    { split; [done|]. split; [cbn; lia|]. split; [|intros Hy; by destruct (Hstd Hy) as (? & ? & ?)]. exists z. split; [done|].
      intros Hy. destruct (Hstd Hy) as (_ & He & _). rewrite He in Hz.
      apply (f_equal length) in Hz. rewrite length_app in Hz. destruct z; [done|]. simpl in Hz. lia. }
    { done. }
    done.
  - intros [= <- <-]. split; [done|]. split; [|done]. by split.
Qed.

Lemma read_spec offset size s r s' :
  good s.1 -> at_pos s.2 -> 0 <= offset -> rh_read download offset size s = (r, s') ->
  good s'.1 /\ at_pos s'.2 /\ answers offset size r.
Proof.
  intros Hg Hat Ho. unfold rh_read. pose proof Hat as [Hsz Hp].
  destruct (Z.leb_spec size 0) as [Hs|Hs]; cbn [orb].
  { intros [= <- <-]. split; [done|]. split; [done|]. unfold answers. rewrite zslice_nil by lia. done. }
  destruct (Z.leb_spec (rh_size s.2) offset) as [Hend|Hend].
  { intros [= <- <-]. split; [done|]. split; [done|]. unfold answers. rewrite zslice_spec, zdrop_ge by lia. unfold ztake. by rewrite take_nil. }
  destruct (rh_stream s.2) as [x|] eqn:Hx; [|apply reopened; [done|done|lia|lia]].
  destruct (Z.ltb_spec offset (rh_pos s.2)); [apply reopened; [done|done|lia|lia]|].
  assert (forall q h', rh_pos s.2 = offset -> consume size s.2 = (q, h') -> at_pos h' /\ answers offset size q) as Hstay.
  { intros q h' <- Hc. by destruct (consume_spec size s.2 q h' x Hx Hat ltac:(lia) Hc) as (? & ? & _). }
  destruct (Z.ltb_spec (rh_pos s.2) offset) as [Hgap|Hgap].
  - destruct (Z.ltb_spec SEEK_FORWARD_THRESHOLD (offset - rh_pos s.2)); [apply reopened; [done|done|lia|lia]|].
    unfold sbind, on_handle. destruct (consume (offset - rh_pos s.2) s.2) as [q h1] eqn:Hc1.
    destruct (consume_spec (offset - rh_pos s.2) s.2 q h1 x Hx Hat ltac:(lia) Hc1) as (Hat1 & Ha1 & Hp1). destruct q as [d|ex]; cbn [fst snd].
    + destruct Hp1 as [Hpos [x1 Hx1]]. cbn [answers] in Ha1. destruct Ha1 as [[z Hz] Hstd].
      assert (zlen (zslice (rh_pos s.2) (rh_pos s.2 + (offset - rh_pos s.2)) c) = offset - rh_pos s.2) as Hlen.
      { pose proof Hp as (? & _). rewrite zlen_zslice; lia. }
      destruct (Z.ltb_spec (zlen d) (offset - rh_pos s.2)) as [Hshort|Hfull].
      * intros [= <- <-]. split; [done|]. split; [done|]. cbn [answers]. split; [apply prefix_nil|]. intros Hy.
        rewrite (Hstd Hy), Hlen in Hshort. lia.
      * assert (zlen d = offset - rh_pos s.2) as Hd.
        { apply (f_equal zlen) in Hz. rewrite zlen_app in Hz. pose proof (zlen_nonneg z). lia. }
        cbn [fst snd]. destruct (consume size h1) as [q2 h2] eqn:Hc2. intros [= <- <-]. split; [done|]. cbn [fst snd] in *.
        destruct (consume_spec size h1 q2 h2 x1 Hx1 Hat1 ltac:(lia) Hc2) as (Hat2 & Ha2 & _). split; [done|].
        rewrite Hpos, Hd in Ha2. by replace (rh_pos s.2 + (offset - rh_pos s.2)) with offset in Ha2 by lia.
    + intros [= <- <-]. done.
  - unfold on_handle. destruct (consume size s.2) as [q h'] eqn:Hc. intros [= <- <-]. split; [done|].
    cbn [fst snd]. apply (Hstay q h'); [lia|done].
Qed.

End Reads.

(** C35: Whatever offsets and lengths a client reads through an SFTP handle,
    in whatever order, every answer is a beginning of the bytes asked for, by
    any streams that deliver beginnings of the file; and when the downloads
    do not fail, every answer is exactly the range of the file. *)
Theorem reads_at_any_offset {S} (download : Z -> st exn S stream) (good : S -> Prop) (c : bytes) (steady : bool) requests s :
  serves download good c steady -> good s -> Forall (fun r => 0 <= r.1) requests ->
  Forall2 (fun r answer => answers c steady r.1 r.2 answer) requests (reads download requests (s, open_read (zlen c))).1.
Proof.
  intros Hserves Hg Ho. assert (at_pos c steady (open_read (zlen c))) as Hat by by split.
  revert Hg Hat. change (good s) with (good (s, open_read (zlen c)).1).
  change (at_pos c steady (open_read (zlen c))) with (at_pos c steady (s, open_read (zlen c)).2).
  generalize (s, open_read (zlen c)). clear s. induction Ho as [|[o n] l Ho Hl IH]; intros s Hg Hat; [constructor|].
  cbn [reads]. destruct (rh_read download o n s) as [r s1] eqn:Hr. cbn [fst] in Ho.
  destruct (read_spec _ _ _ _ Hserves _ _ _ _ _ Hg Hat Ho Hr) as (Hg1 & Hat1 & Ha).
  specialize (IH s1 Hg1 Hat1). destruct (reads download l s1) as [rs s2]. by constructor.
Qed.

(** ** After a download failed *)

Lemma fill_raise count flt ps buffer ex s b :
  fill count flt ps buffer = (Raise ex, s, b) -> s = empty_stream /\ zlen b < count.
Proof.
  revert buffer. induction ps as [|p ps IH]; intros buffer; simpl; destruct (Z.leb_spec count (zlen buffer)); try done.
  - destruct flt as [x|]; [|done]. case_bool_decide; [done|]. by intros [= <- <- <-].
  - destruct (nonempty p); [apply IH|done].
Qed.

Lemma consume_raise count h ex h1 :
  consume count h = (Raise ex, h1) ->
  exists b, zlen b < count /\ h1 = rh_with (Some empty_stream) (rh_pos h) b h.
Proof.
  unfold consume. destruct (rh_stream h) as [x|]; [|done].
  destruct (fill _ _ _ _) as [[[[]|x1] s] b] eqn:Hf; [done|]. intros [= <- <-].
  apply fill_raise in Hf as [-> Hb]. by exists b.
Qed.

Lemma consume_moves count h d h1 :
  consume count h = (Ok d, h1) -> rh_size h1 = rh_size h /\ rh_pos h1 = rh_pos h + zlen d /\ (0 <= count -> zlen d <= count).
Proof.
  assert (forall b s, (@Ok exn bytes (ztake count b), rh_with s (rh_pos h + zlen (ztake count b)) (zdrop (zlen (ztake count b)) b) h) = (Ok d, h1) ->
          rh_size h1 = rh_size h /\ rh_pos h1 = rh_pos h + zlen d /\ (0 <= count -> zlen d <= count)) as Hmove.
  { intros b s. intros [= <- <-]. split; [done|]. split; [done|]. apply zlen_ztake_le. }
  unfold consume. destruct (rh_stream h); [|apply Hmove]. by destruct (fill _ _ _ _) as [[[?|?] ?] ?]; [apply Hmove|].
Qed.

Lemma consume_finished count h :
  rh_stream h = Some empty_stream ->
  consume count h = (Ok (ztake count (rh_buffer h)),
    rh_with (Some empty_stream) (rh_pos h + zlen (ztake count (rh_buffer h))) (zdrop (zlen (ztake count (rh_buffer h))) (rh_buffer h)) h).
Proof. intros Hs. unfold consume. rewrite Hs. simpl. by destruct (count <=? zlen (rh_buffer h)). Qed.

(** A finished stream with fewer bytes buffered than are needed up to
    [offset + size]. *)
Definition dried (offset size : Z) (h : ReadHandle) : Prop :=
  rh_stream h = Some empty_stream /\ offset < rh_size h /\ 0 < size /\
  ((rh_pos h = offset /\ zlen (rh_buffer h) < size) \/
   (rh_pos h < offset <= rh_pos h + SEEK_FORWARD_THRESHOLD /\ zlen (rh_buffer h) < offset - rh_pos h)).

Section Dried.
  Context {S : Type} (download : Z -> st exn S stream).

Lemma raise_dries offset size s h ex s1 h1 :
  rh_read download offset size (s, h) = (Raise ex, (s1, h1)) -> is_Some (rh_stream h1) -> dried offset size h1.
Proof.
  unfold rh_read, dried. cbn [fst snd]. destruct (Z.leb_spec size 0); [done|]. cbn [orb].
  destruct (Z.leb_spec (rh_size h) offset) as [|Ho]; [done|]. intros Hr Hs.
  assert (forall u, (reopen download offset ;;; on_handle (consume size)) (u, h) = (Raise ex, (s1, h1)) -> dried offset size h1) as Hre.
  { intros u. unfold sbind, reopen. cbn [fst snd]. destruct (download offset u) as [[x|x] w].
    - unfold on_handle. cbn [fst snd]. destruct (consume _ _) as [q h2] eqn:Hc. intros [= -> -> ->].
      apply consume_raise in Hc as (b & Hb & ->). unfold dried. cbn. split; [done|]. split; [done|]. split; [done|]. by left.
    - intros [= _ _ <-]. by destruct Hs. }
  assert (forall h0, rh_size h0 = rh_size h -> rh_pos h0 = offset -> on_handle (consume size) (s, h0) = (Raise ex, (s1, h1)) ->
                     dried offset size h1) as Hin.
  { intros h0 Hsz Hp. unfold on_handle. cbn [fst snd]. destruct (consume size h0) as [q h2] eqn:Hc. intros [= -> -> ->].
    apply consume_raise in Hc as (b & Hb & ->). unfold dried. cbn. rewrite Hsz. split; [done|]. split; [done|]. split; [done|]. by left. }
  destruct (rh_stream h) as [x|]; [|by apply (Hre s)].
  destruct (Z.ltb_spec offset (rh_pos h)); [by apply (Hre s)|].
  destruct (Z.ltb_spec (rh_pos h) offset); [|apply (Hin h); [done|lia|done]].
  destruct (Z.ltb_spec SEEK_FORWARD_THRESHOLD (offset - rh_pos h)); [by apply (Hre s)|].
  unfold sbind at 1, on_handle at 1 in Hr. cbn [fst snd] in Hr.
  destruct (consume (offset - rh_pos h) h) as [[d|x1] h2] eqn:Hc.
  - destruct (Z.ltb_spec (zlen d) (offset - rh_pos h)); [done|]. apply (Hin h2); [| |done].
    + by apply consume_moves in Hc as (? & _).
    + apply consume_moves in Hc as (_ & -> & Hd). lia.
  - injection Hr as -> -> ->. apply consume_raise in Hc as (b & Hb & ->). unfold dried. cbn. split; [done|]. split; [done|].
    split; [done|]. right. lia.
Qed.

(** Whatever is asked of a dried handle comes from its buffer. *)
Lemma dried_read offset size s h :
  dried offset size h ->
  exists d h', rh_read download offset size (s, h) = (Ok d, (s, h')) /\ zlen d < size /\
    forall size', 0 < size' -> offset + zlen d < rh_size h -> exists h'', rh_read download (offset + zlen d) size' (s, h') = (Ok [], (s, h'')).
Proof.
  intros (Hs & Ho & Hsize & [[Hp Hb]|[Hp Hb]]).
  - exists (rh_buffer h), (rh_with (Some empty_stream) (offset + zlen (rh_buffer h)) [] h).
    assert (ztake size (rh_buffer h) = rh_buffer h) as Ht by (apply ztake_ge; lia). split; [|split; [done|]].
    + unfold rh_read. cbn [fst snd]. rewrite (proj2 (Z.leb_gt size 0)), (proj2 (Z.leb_gt (rh_size h) offset)), Hs by lia. cbn [orb].
      rewrite Hp, Z.ltb_irrefl. unfold on_handle. cbn [fst snd]. rewrite consume_finished by done. rewrite Ht, zdrop_ge by lia.
      by rewrite Hp.
    + intros m Hm Hlt. eexists. unfold rh_read. cbn [fst snd rh_size rh_stream rh_pos rh_with].
      rewrite (proj2 (Z.leb_gt m 0)), (proj2 (Z.leb_gt (rh_size h) _)), Z.ltb_irrefl by lia. cbn [orb].
      unfold on_handle. cbn [fst snd]. rewrite consume_finished by done. cbn [rh_buffer rh_with]. unfold ztake. rewrite take_nil. reflexivity.
  - set (b := rh_buffer h) in *. pose proof (zlen_nonneg b) as Hb0.
    exists [], (rh_with (Some empty_stream) (rh_pos h + zlen b) [] h). change (zlen []) with 0. rewrite Z.add_0_r. split; [|split; [lia|]].
    + unfold rh_read. cbn [fst snd]. rewrite (proj2 (Z.leb_gt size 0)), (proj2 (Z.leb_gt (rh_size h) offset)), Hs by lia. cbn [orb].
      rewrite (proj2 (Z.ltb_ge offset (rh_pos h))), (proj2 (Z.ltb_lt (rh_pos h) offset)), (proj2 (Z.ltb_ge SEEK_FORWARD_THRESHOLD _)) by lia.
      unfold sbind, on_handle. cbn [fst snd]. rewrite consume_finished by done. fold b. rewrite (ztake_ge (offset - rh_pos h) b) by lia.
      cbn [fst snd]. rewrite (proj2 (Z.ltb_lt (zlen b) _)), zdrop_ge by lia. done.
    + intros m Hm _. eexists. unfold rh_read. cbn [fst snd rh_size rh_stream rh_pos rh_with].
      rewrite (proj2 (Z.leb_gt m 0)), (proj2 (Z.leb_gt (rh_size h) offset)) by lia. cbn [orb].
      rewrite (proj2 (Z.ltb_ge offset _)), (proj2 (Z.ltb_lt _ offset)), (proj2 (Z.ltb_ge SEEK_FORWARD_THRESHOLD _)) by lia.
      unfold sbind, on_handle. cbn [fst snd]. rewrite consume_finished by done. cbn [rh_buffer rh_with]. unfold ztake. rewrite take_nil.
      cbn [fst snd]. rewrite (proj2 (Z.ltb_lt (zlen []) _)) by (change (zlen (A := byte) []) with 0; lia). reflexivity.
Qed.

End Dried.

(** A read that fails in the middle of a download leaves the finished
    generator in the handle, so the error is reported only once: the same
    request made again succeeds with fewer bytes than were asked for, and the
    next one, behind them, is answered with nothing, the sign of the end of
    the file -- no download is opened, whatever there is left of the file. *)
Theorem failed_read_then_eof {S} (download : Z -> st exn S stream) offset size s h ex s1 h1 :
  rh_read download offset size (s, h) = (Raise ex, (s1, h1)) -> is_Some (rh_stream h1) ->
  exists d h2, rh_read download offset size (s1, h1) = (Ok d, (s1, h2)) /\ zlen d < size /\
    forall size', 0 < size' -> offset + zlen d < rh_size h1 ->
      exists h3, rh_read download (offset + zlen d) size' (s1, h2) = (Ok [], (s1, h3)).
Proof. intros Hr Hs. apply dried_read. by eapply raise_dries. Qed.

(** ** Writing *)

Lemma iter_chunks fuel position remaining spool :
  0 <= position -> (Z.to_nat (Z.min remaining (zlen spool - position)) < fuel)%nat ->
  concat (spool_chunks fuel position remaining spool) = zslice position (position + remaining) spool /\
  no_empty (spool_chunks fuel position remaining spool).
Proof.
  revert position remaining. induction fuel as [|fuel IH]; intros p r Hp Hf; [lia|]. cbn [spool_chunks].
  destruct (Z.leb_spec r 0); [rewrite zslice_nil by lia; split; [done|constructor]|].
  set (n := Z.min SPOOL_READ_CHUNK r). assert (0 < n) as Hn by (unfold n, SPOOL_READ_CHUNK; lia).
  destruct (Z.leb_spec (zlen spool) p) as [Hend|Hend].
  { rewrite !zslice_spec, zdrop_ge by lia. unfold ztake. rewrite !take_nil. split; [done|constructor]. }
  assert (zlen (zslice p (p + n) spool) = Z.min n (zlen spool - p)) as Hl.
  { rewrite zslice_spec, zlen_ztake, zlen_zdrop by lia. lia. }
  set (chunk := zslice p (p + n) spool) in *.
  assert (nonempty chunk = true) as Hne by (destruct chunk; [change (zlen (A := byte) []) with 0 in Hl; lia|done]). rewrite Hne.
  destruct (IH (p + zlen chunk) (r - zlen chunk)) as [He Hno]; [lia|lia|]. split; [|by constructor].
  simpl. rewrite He. replace (p + zlen chunk + (r - zlen chunk)) with (p + r) by lia.
  rewrite (zslice_split p (p + zlen chunk) (p + r)) by lia. f_equal.
  destruct (Z.leb_spec (p + n) (zlen spool)) as [Hfit|Hover]; [by replace (zlen chunk) with n by lia|].
  replace (p + zlen chunk) with (zlen spool) by lia. apply zslice_clip; lia.
Qed.

Definition covers (p : Z) (w : Z * bytes) : bool := (w.1 <=? p) && (p <? w.1 + zlen w.2).

(** The byte of the file at [p] after the writes: that of the last of them
    that covers [p], or the zero of a gap. *)
Definition last_written (ws : list (Z * bytes)) (p : Z) : byte :=
  foldl (fun b w => if covers p w then default Byte.x00 (byte_at w.2 (p - w.1)) else b) Byte.x00 ws.

Definition end_of (ws : list (Z * bytes)) : Z := foldl (fun m w => Z.max m (w.1 + zlen w.2)) 0 ws.

(** Writes at an offset, of at least one byte. *)
Definition proper_write (w : Z * bytes) : Prop := 0 <= w.1 /\ nonempty w.2 = true.

Lemma end_of_nonneg ws : 0 <= end_of ws.
Proof.
  unfold end_of. assert (forall m, 0 <= m -> 0 <= foldl (fun m w => Z.max m (w.1 + zlen w.2)) m ws) as H; [|by apply H].
  induction ws as [|w ws IH]; intros m Hm; simpl; [done|]. apply IH. lia.
Qed.

Lemma end_of_snoc ws o d : end_of (ws ++ [(o, d)]) = Z.max (end_of ws) (o + zlen d).
Proof. unfold end_of. by rewrite foldl_app. Qed.

Lemma last_written_snoc ws o d p :
  last_written (ws ++ [(o, d)]) p = if covers p (o, d) then default Byte.x00 (byte_at d (p - o)) else last_written ws p.
Proof. unfold last_written. by rewrite foldl_app. Qed.

Lemma writes_snoc ws o d h : wh_closed (writes ws h) = false -> writes (ws ++ [(o, d)]) h = write_sync o d (writes ws h).
Proof. unfold writes. rewrite foldl_app. cbn [foldl fst snd]. intros Hc. unfold wh_write at 1. by rewrite Hc. Qed.

(** Behind the end of every write there is nothing. *)
Lemma unwritten ws p : end_of ws <= p -> last_written ws p = Byte.x00.
Proof.
  induction ws as [|[o d] ws IH] using rev_ind; [done|]. rewrite end_of_snoc, last_written_snoc. intros Hp. unfold covers. cbn [fst snd].
  rewrite (proj2 (Z.ltb_ge p (o + zlen d))) by lia. rewrite andb_false_r. apply IH. lia.
Qed.

Lemma writes_image ws :
  Forall proper_write ws ->
  wh_closed (writes ws open_write) = false /\ (ws <> [] -> wh_dirty (writes ws open_write) = true) /\
  wh_size (writes ws open_write) = end_of ws /\ zlen (wh_spool (writes ws open_write)) = end_of ws /\
  forall p, 0 <= p < end_of ws -> byte_at (wh_spool (writes ws open_write)) p = Some (last_written ws p).
Proof.
  induction ws as [|[o d] ws IH] using rev_ind; intros Hw; [repeat split; try done; intros p Hp; change (end_of []) with 0 in Hp; lia|].
  apply Forall_app in Hw as [Hw [[Ho Hd] _]%Forall_cons]. destruct (IH Hw) as (Hc & _ & Hsz & Hl & Hb). clear IH.
  cbn [fst snd] in Ho, Hd. rewrite (writes_snoc ws o d) by done. rewrite end_of_snoc.
  cbn [write_sync wh_closed wh_dirty wh_size wh_spool]. unfold spool_write. rewrite Hc, Hd.
  rewrite zlen_pwrite_max, Hl, Hsz by done. split; [done|]. split; [done|]. split; [done|]. split; [done|]. intros p Hp.
  rewrite last_written_snoc.
  rewrite byte_at_written by lia. unfold covers. cbn [fst snd].
  destruct ((o <=? p) && (p <? o + zlen d)) eqn:E.
  - apply andb_true_iff in E as [E1%Z.leb_le E2%Z.ltb_lt]. destruct (znth_Some d (p - o)) as [x Hx]; [lia|].
    unfold byte_at. by rewrite Hx.
  - rewrite Hl. destruct (Z.ltb_spec p (end_of ws)) as [Hin|Hout]; [apply Hb; lia|].
    rewrite (proj2 (Z.ltb_lt p o)).
    + f_equal. symmetry. by apply unwritten.
    + apply andb_false_iff in E as [E%Z.leb_gt|E%Z.ltb_ge]; lia.
Qed.


(** A write of no bytes behind the end is counted in the declared size, but
    the spool does not grow: less is uploaded than declared. *)
Example empty_write_declares_gap :
  wh_size (writes [(10, [])] open_write) = 10 /\ stream_bytes (iter_spool (writes [(10, [])] open_write)) = [].
Proof. split; reflexivity. Qed.

(** ** The theorems at work *)

Definition demo_file : bytes := map (fun n => Byte.x61) (seq 0 10).

(** Downloads of three bytes a piece that fail behind the fifth byte of the
    file while the state says so. *)
Definition demo_download (o : Z) : st exn bool stream := fun broken =>
  if broken then (Ok {| pieces := [zslice o 5 demo_file]; fault := Some (BackendError 1) |}, false)
  else (Ok {| pieces := chunks 3 (zdrop o demo_file); fault := None |}, false).

Lemma demo_serves : serves demo_download (fun broken => broken = false) demo_file true.
Proof.
  intros o s -> Ho. simpl. split; [done|]. unfold streams_from, stream_bytes. cbn [pieces fault].
  assert (o = 0 \/ o = 1 \/ o = 2 \/ o = 3 \/ o = 4 \/ o = 5 \/ o = 6 \/ o = 7 \/ o = 8 \/ o = 9) as Hcases
    by (change (zlen demo_file) with 10 in Ho; lia).
  destruct_or! Hcases; subst o; (split; [by exists []|]); intros _; (split; [done|]); (split; [done|]); repeat constructor.
Qed.

Lemma reads_at_any_offset_witness :
  Forall2 (fun r answer => answers demo_file true r.1 r.2 answer) [(4, 3); (0, 2); (5, 100); (7, 1)]
    (reads demo_download [(4, 3); (0, 2); (5, 100); (7, 1)] (false, open_read (zlen demo_file))).1.
Proof.
  apply (reads_at_any_offset demo_download (fun broken => broken = false) demo_file true); [apply demo_serves|done|].
  repeat constructor; simpl; lia.
Defined.

Lemma failed_read_then_eof_witness :
  exists d h2, rh_read demo_download 2 6 (false, (rh_read demo_download 2 6 (true, open_read 10)).2.2) = (Ok d, (false, h2)) /\ zlen d < 6 /\
    forall size', 0 < size' -> 2 + zlen d < 10 -> exists h3, rh_read demo_download (2 + zlen d) size' (false, h2) = (Ok [], (false, h3)).
Proof.
  apply (failed_read_then_eof demo_download 2 6 true (open_read 10) (BackendError 1) false); [reflexivity|].
  by eexists.
Defined.

(** What the client of that file was told: an error, three of the six bytes,
    and then the end of the file at its fifth byte of ten. *)
Example failed_read_demo :
  (reads demo_download [(2, 6); (2, 6); (5, 6)] (true, open_read 10)).1 = [Raise (BackendError 1); Ok [Byte.x61; Byte.x61; Byte.x61]; Ok []].
Proof. reflexivity. Qed.

Definition demo_upload (x : stream) (size : Z) : st exn (list (stream * Z)) unit := fun l => (Ok tt, l ++ [(x, size)]).
Definition demo_writes : list (Z * bytes) := [(4, [Byte.x62; Byte.x63]); (0, [Byte.x61])].


(** [a], three zeros of the gap, and [bc]. *)
Example written_demo : (wh_close demo_upload ([], writes demo_writes open_write)).2.1 =
  [({| pieces := [[Byte.x61; Byte.x00; Byte.x00; Byte.x00; Byte.x62; Byte.x63]]; fault := None |}, 6)].
Proof. reflexivity. Qed.
