(* ===== verification/Sftp.v ===== *)
(** * The SFTP server ([tgdcfs/app/sftp/server.py], [attrs.py])

    One session of a user: the file systems of the configured clients, and
    the files the session has open.  An open file is an object named by a
    number; [ss_handles] is the list the server keeps to clean up behind a
    session that is cut off.  Requests are answered one after the other.
    [asyncssh] is not modelled: a request is a method of the server with the
    arguments the library passes. *)

From S2P Require Import Prelude Errors Messages FileVersion Contents Stores FileContent FileRefs Directory Mirror FdRepo Api Stats PosixPath Ops Paths SftpHandleProps.

Open Scope Z_scope.
Open Scope py_scope.

(** ** Attributes ([attrs.py]) *)

Definition DIR_MODE : Z := 493.                  (* 0o755 *)
Definition DIR_MODE_READONLY : Z := 365.         (* 0o555 *)
Definition FILE_MODE : Z := 420.                 (* 0o644 *)
Definition FILE_MODE_READONLY : Z := 292.        (* 0o444 *)
Definition S_IFDIR : Z := 16384.
Definition S_IFREG : Z := 32768.

Record SFTPAttrs := {
  at_size : Z; at_permissions : Z; at_uid : Z; at_gid : Z; at_atime : Z; at_mtime : Z; at_crtime : Z; at_nlink : Z
}.

Definition seconds (timestamp_ms : Z) : Z := Z.max 0 (timestamp_ms / 1000).

Definition dir_attrs (created_ms modified_ms : Z) (readonly : bool) : SFTPAttrs :=
  {| at_size := 0; at_permissions := Z.lor S_IFDIR (if readonly then DIR_MODE_READONLY else DIR_MODE); at_uid := 0; at_gid := 0;
     at_atime := seconds modified_ms; at_mtime := seconds modified_ms; at_crtime := seconds created_ms; at_nlink := 1 |}.

Definition file_attrs (size created_ms modified_ms : Z) (readonly : bool) : SFTPAttrs :=
  {| at_size := Z.max 0 size; at_permissions := Z.lor S_IFREG (if readonly then FILE_MODE_READONLY else FILE_MODE);
     at_uid := 0; at_gid := 0; at_atime := seconds modified_ms; at_mtime := seconds modified_ms;
     at_crtime := seconds created_ms; at_nlink := 1 |}.

Definition root_attrs (readonly : bool) : SFTPAttrs := dir_attrs 0 0 readonly.

(** ** Flags of the protocol *)

Definition FXF_READ : Z := 1.
Definition FXF_WRITE : Z := 2.
Definition FXF_APPEND : Z := 4.
Definition FXF_CREAT : Z := 8.
Definition FXF_TRUNC : Z := 16.
Definition FXF_EXCL : Z := 32.
Definition ACE4_READ_DATA : Z := 1.
Definition ACE4_WRITE_DATA : Z := 2.
Definition ACE4_APPEND_DATA : Z := 4.
Definition FXF_ACCESS_DISPOSITION : Z := 7.
Definition FXF_CREATE_NEW : Z := 0.
Definition FXF_CREATE_TRUNCATE : Z := 1.
Definition FXF_OPEN_OR_CREATE : Z := 3.
Definition FXF_TRUNCATE_EXISTING : Z := 4.
Definition FXF_APPEND_DATA : Z := 8.

(** [flags & mask]. *)
Definition flag (flags mask : Z) : bool := negb (Z.land flags mask =? 0).

Definition pflags_from_v56 (desired_access flags : Z) : Z :=
  let p := if flag desired_access ACE4_READ_DATA then FXF_READ else 0 in
  let p := if flag desired_access (Z.lor ACE4_WRITE_DATA ACE4_APPEND_DATA) then Z.lor p FXF_WRITE else p in
  let p := if flag desired_access ACE4_APPEND_DATA || flag flags FXF_APPEND_DATA then Z.lor p FXF_APPEND else p in
  let disposition := Z.land flags FXF_ACCESS_DISPOSITION in
  if disposition =? FXF_CREATE_NEW then Z.lor p (Z.lor FXF_CREAT FXF_EXCL)
  else if disposition =? FXF_CREATE_TRUNCATE then Z.lor p (Z.lor FXF_CREAT FXF_TRUNC)
  else if disposition =? FXF_OPEN_OR_CREATE then Z.lor p FXF_CREAT
  else if disposition =? FXF_TRUNCATE_EXISTING then Z.lor p FXF_TRUNC
  else p.

(** ** The session *)

(** An open file: the client and path it was opened at. *)
Inductive OpenFile :=
| HRead (client path name : string) (h : ReadHandle)
| HWrite (client path : string) (h : WriteHandle).

Record Session (W M : Type) := {
  ss_clients : dict string (FsClient W M);
  ss_objects : gmap nat OpenFile;
  ss_handles : list nat;
  ss_next : nat
}.
Arguments ss_clients {W M}. Arguments ss_objects {W M}. Arguments ss_handles {W M}. Arguments ss_next {W M}.

Definition to_sftp_error (ex : exn) : SFTPStatus :=
  match ex with FileOrDirectoryDoesNotExist _ => SFTPNoSuchFile | _ => SFTPFailure end.

Section Sftp.
  Context {W M : Type} `{Stores W} `{FDJson} `{ContentRepo (Live W)} `{MetaRepo M W}.
  Context (on_written : option (nat -> st exn (Fs W M) unit)) (meanwhile : Fs W M -> Fs W M) (readonly : bool).
  Local Abbreviation srv := (st exn (Session W M)).

Definition with_clients (c : dict string (FsClient W M)) (s : Session W M) : Session W M :=
  {| ss_clients := c; ss_objects := ss_objects s; ss_handles := ss_handles s; ss_next := ss_next s |}.
Definition put_object (o : nat) (f : OpenFile) (s : Session W M) : Session W M :=
  {| ss_clients := ss_clients s; ss_objects := <[o := f]> (ss_objects s); ss_handles := ss_handles s; ss_next := ss_next s |}.
Definition with_handles (l : list nat) (s : Session W M) : Session W M :=
  {| ss_clients := ss_clients s; ss_objects := ss_objects s; ss_handles := l; ss_next := ss_next s |}.

(** [self._handles.append(handle); return handle]. *)
Definition new_handle (f : OpenFile) : srv nat := fun s =>
  (Ok (ss_next s), {| ss_clients := ss_clients s; ss_objects := <[ss_next s := f]> (ss_objects s);
                      ss_handles := ss_handles s ++ [ss_next s]; ss_next := S (ss_next s) |}).

(** Something done with the client of a name ([_client], [_ops]). *)
Definition on_client {A} (name : string) (m : ApiConfig -> st exn (Fs W M) A) : srv A := fun s =>
  match Dict.get name (ss_clients s) with
  | None => (Raise (SFTPError SFTPNoSuchFile), s)
  | Some c =>
      let '(r, fs) := m (cl_api c) (cl_fs c) in
      (r, with_clients (Dict.set name {| cl_api := cl_api c; cl_fs := fs |} (ss_clients s)) s)
  end.

(** [translate_errors]. *)
Definition translate_errors {A} (m : srv A) : srv A :=
  stry m (fun ex => match ex with
                    | SFTPError _ => sraise ex
                    | _ => if is_Exception ex then sraise (SFTPError (to_sftp_error ex)) else sraise ex
                    end).

Definition require_write : srv unit := if readonly then sraise (SFTPError SFTPPermissionDenied) else sret tt.

(** ** Looking at the tree *)

Definition srv_dir (r : ResolvedPath) : srv (option nat) :=
  on_client (client_name r) (fun _ =>
    if is_client_root r then (let! d := get_root_directory in sret (Some d)) else cd (relative r)).

(** Whether a lookup finds something: only [FileOrDirectoryDoesNotExist] is
    an answer, anything else is raised. *)
Definition found {A} (m : srv A) : srv bool :=
  stry (m ;;; sret true) (fun ex => match ex with FileOrDirectoryDoesNotExist _ => sret false | _ => sraise ex end).

Definition is_dir (r : ResolvedPath) : srv bool := found (srv_dir r).
Definition srv_exists (r : ResolvedPath) : srv bool := found (on_client (client_name r) (fun _ => stat_file (relative r))).

Definition entry_attrs (h : heap) (d : nat) : SFTPAttrs :=
  dir_attrs (ts (d_created_at (dir_at h d))) (ts (d_modified_at (dir_at h d))) readonly.

Definition file_entry_attrs (r : ResolvedPath) : srv SFTPAttrs :=
  on_client (client_name r) (fun ac =>
    let! fr := stat_file (relative r) in
    let! stat := stat_get ac meanwhile fr in
    sret (file_attrs (fst_size stat) (fst_created_at stat) (fst_modified_at stat) readonly)).

Definition dir_entry_attrs (r : ResolvedPath) : srv SFTPAttrs :=
  let! d := srv_dir r in
  let! d := slift (need d) in
  on_client (client_name r) (fun _ => let! h := the_heap in sret (entry_attrs h d)).

Definition attrs_of (r : ResolvedPath) : srv SFTPAttrs :=
  if is_root r then sret (root_attrs readonly)
  else stry (dir_entry_attrs r) (fun ex => match ex with
                                           | FileOrDirectoryDoesNotExist _ => file_entry_attrs r
                                           | _ => sraise ex
                                           end).

(** [stat] and [lstat]. *)
Definition stat (path : string) : srv SFTPAttrs := translate_errors (let! r := slift (resolve path) in attrs_of r).

Definition fstat (obj : nat) : srv SFTPAttrs :=
  translate_errors (fun s =>
    match ss_objects s !! obj with
    | Some (HRead _ _ _ h) => (Ok (file_attrs (rh_size h) 0 0 readonly), s)
    | Some (HWrite _ _ h) => (Ok (file_attrs (wh_size h) 0 0 readonly), s)
    | None => (Raise (SFTPError SFTPInvalidHandle), s)
    end).

Definition realpath (path : string) : srv string := sret (normalize path).

(** [setstat] and [fsetstat]: accepted and ignored. *)
Definition setstat : srv unit := require_write.

(** [readlink], [symlink] and [link]. *)
Definition unsupported : srv unit := sraise (SFTPError SFTPOpUnsupported).

(** The entries of the virtual root: the clients. *)
Fixpoint root_entries (clients : list (string * FsClient W M)) : exc (list (string * SFTPAttrs)) :=
  match clients with
  | [] => Ok []
  | (name, c) :: clients =>
      match fs_root (cl_fs c) with
      | None => Raise MetadataNotInitialized
      | Some root => let* l := root_entries clients in Ok ((name, entry_attrs (fs_heap (cl_fs c)) root) :: l)
      end
  end.

(** The files of a listing: one that cannot be read is shown without size. *)
Fixpoint file_entries (r : ResolvedPath) (names : list string) : srv (list (string * SFTPAttrs)) :=
  match names with
  | [] => sret []
  | name :: names => fun s =>
      let '(a, s) := match file_entry_attrs (child name r) s with
                     | (Ok a, s) => (a, s)
                     | (Raise _, s) => (file_attrs 0 0 0 readonly, s)
                     end in
      (let! l := file_entries r names in sret ((name, a) :: l)) s
  end.

Definition list_dir (r : ResolvedPath) : srv (list (string * SFTPAttrs)) :=
  if is_root r then fun s =>
    let here := root_attrs readonly in
    (let* l := root_entries (ss_clients s) in Ok ((".", here) :: ("..", here) :: l), s)%string
  else
    let! d := srv_dir r in
    let! d := slift (need d) in
    let! h := on_client (client_name r) (fun _ => the_heap) in
    let here := entry_attrs h d in
    let dirs := map (fun c => (d_name (dir_at h c), entry_attrs h c)) (find_dirs h d []) in
    let! files := file_entries r (map (name_of h) (find_files h d [])) in
    sret ((".", here) :: ("..", here) :: dirs ++ files)%string.

Definition scandir (path : string) : srv (list (string * SFTPAttrs)) :=
  translate_errors (let! r := slift (resolve path) in list_dir r).

(** ** Open files *)

Definition open_for_read (r : ResolvedPath) : srv nat :=
  let! size := on_client (client_name r) (fun ac =>
    let! fd := ops_desc ac (relative r) in
    let! t := now in
    let! u := uuid in
    let! fv := slift (get_latest_version t u fd) in
    fd_content_length fv) in
  new_handle (HRead (client_name r) (relative r) (resolved_basename r) (open_read size)).

Definition open_for_write (r : ResolvedPath) (pflags : Z) : srv nat :=
  require_write ;;;
  if flag pflags FXF_APPEND then sraise (SFTPError SFTPOpUnsupported)
  else
    let! exists_ := srv_exists r in
    if exists_ && flag pflags FXF_EXCL then sraise (SFTPError SFTPFailure)
    else if negb exists_ && negb (flag pflags FXF_CREAT) then sraise (SFTPError SFTPNoSuchFile)
    else
      on_client (client_name r) (fun ac => touch ac on_written (relative r)) ;;;
      new_handle (HWrite (client_name r) (relative r) open_write).

Definition open_file (path : string) (pflags : Z) : srv nat :=
  translate_errors (
    let! r := slift (resolve path) in
    let! dir := (if is_root r || is_client_root r then sret true else is_dir r) in
    if dir then sraise (SFTPError SFTPFailure)
    else if flag pflags (Z.lor FXF_WRITE FXF_APPEND) then open_for_write r pflags
    else open_for_read r).

Definition open56 (path : string) (desired_access flags : Z) : srv nat :=
  translate_errors (open_file path (pflags_from_v56 desired_access flags)).

(** The download and the upload behind a handle. *)
Definition handle_download (client path name : string) (offset : Z) : srv stream :=
  on_client client (fun ac => download ac path offset (-1) name).
Definition handle_upload (client path : string) (x : stream) (size : Z) : srv unit :=
  on_client client (fun ac => let! _ := upload_from_stream ac on_written x size path in sret tt).

Definition read (obj : nat) (offset size : Z) : srv bytes :=
  translate_errors (fun s =>
    match ss_objects s !! obj with
    | Some (HRead c p n h) =>
        let '(r, (s, h)) := rh_read (handle_download c p n) offset size (s, h) in
        (r, put_object obj (HRead c p n h) s)
    | _ => (Raise (SFTPError SFTPFailure), s)
    end).

Definition write (obj : nat) (offset : Z) (data : bytes) : srv Z :=
  translate_errors (
    require_write ;;;
    fun s =>
      match ss_objects s !! obj with
      | Some (HWrite c p h) =>
          let '(r, h) := wh_write offset data h in
          (match r with Ok _ => Ok (zlen data) | Raise ex => Raise ex end, put_object obj (HWrite c p h) s)
      | _ => (Raise (SFTPError SFTPFailure), s)
      end).

(** [file_obj.close()], of either kind. *)
Definition close_object (obj : nat) : srv unit := fun s =>
  match ss_objects s !! obj with
  | Some (HRead c p n h) =>
      let '(r, (s, h)) := rh_close (s, h) in (r, put_object obj (HRead c p n h) s)
  | Some (HWrite c p h) =>
      let '(r, (s, h)) := wh_close (handle_upload c p) (s, h) in (r, put_object obj (HWrite c p h) s)
  | None => (Ok tt, s)
  end.

Definition forget_handle (obj : nat) (s : Session W M) : Session W M :=
  with_handles (List.filter (fun o => negb (bool_decide (o = obj))) (ss_handles s)) s.

Definition close (obj : nat) : srv unit :=
  translate_errors (fun s =>
    match ss_objects s !! obj with
    | None => (Ok tt, s)
    | Some _ => let '(r, s) := close_object obj s in (r, forget_handle obj s)
    end).

(** ** Changing the tree *)

Definition not_client_root (ex : SFTPStatus) (r : ResolvedPath) : srv unit :=
  if is_root r || is_client_root r then sraise (SFTPError ex) else sret tt.

Definition srv_mkdir (path : string) : srv unit :=
  translate_errors (
    require_write ;;;
    let! r := slift (resolve path) in
    not_client_root SFTPPermissionDenied r ;;;
    on_client (client_name r) (fun _ => let! _ := mkdir (relative r) false in sret tt)).

Definition srv_rmdir (path : string) : srv unit :=
  translate_errors (
    require_write ;;;
    let! r := slift (resolve path) in
    not_client_root SFTPPermissionDenied r ;;;
    on_client (client_name r) (fun ac => let! _ := rm_dir ac (relative r) false in sret tt)).

Definition srv_remove (path : string) : srv unit :=
  translate_errors (
    require_write ;;;
    let! r := slift (resolve path) in
    not_client_root SFTPPermissionDenied r ;;;
    on_client (client_name r) (fun ac => let! _ := rm_file ac (relative r) in sret tt)).

Definition remove_rename_target (source target : ResolvedPath) (source_is_dir target_is_dir : bool) : srv unit :=
  if source_is_dir && negb target_is_dir then sraise (SFTPError SFTPNotADirectory)
  else if negb source_is_dir && target_is_dir then sraise (SFTPError SFTPFileIsADirectory)
  else if target_is_dir then
    if is_within (relative source) (relative target) then sraise (SFTPError SFTPDirNotEmpty)
    else
      let! d := srv_dir target in
      let! d := slift (need d) in
      let! h := on_client (client_name target) (fun _ => the_heap) in
      if nonempty (find_dirs h d []) || nonempty (find_files h d []) then sraise (SFTPError SFTPDirNotEmpty)
      else on_client (client_name source) (fun ac => let! _ := rm_dir ac (relative target) false in sret tt)
  else on_client (client_name source) (fun ac => let! _ := rm_file ac (relative target) in sret tt).

Definition rename_resolved (source target : ResolvedPath) (overwrite : bool) : srv unit :=
  not_client_root SFTPPermissionDenied source ;;;
  not_client_root SFTPFailure target ;;;
  if negb (bool_decide (client_name source = client_name target)) then sraise (SFTPError SFTPOpUnsupported)
  else
    let! source_is_dir := is_dir source in
    (if source_is_dir then sret tt
     else let! _ := on_client (client_name source) (fun _ => stat_file (relative source)) in sret tt) ;;;
    if bool_decide (relative source = relative target) then sret tt
    else if is_within (relative target) (relative source) then sraise (SFTPError SFTPFailure)
    else
      let! target_is_dir := is_dir target in
      let! taken := (if target_is_dir then sret true else srv_exists target) in
      (if taken then
         if negb overwrite then sraise (SFTPError SFTPFileAlreadyExists)
         else remove_rename_target source target source_is_dir target_is_dir
       else sret tt) ;;;
      on_client (client_name source) (fun ac =>
        let! _ := (if source_is_dir then mv_dir (relative source) (relative target)
                   else mv_file ac (relative source) (relative target)) in sret tt).

(** [rename] and [posix_rename]. *)
Definition rename (oldpath newpath : string) (overwrite : bool) : srv unit :=
  translate_errors (
    require_write ;;;
    let! source := slift (resolve oldpath) in
    let! target := slift (resolve newpath) in
    rename_resolved source target overwrite).

(** ** The end of a session *)

Fixpoint clean_up (handles : list nat) (s : Session W M) : Session W M :=
  match handles with
  | [] => s
  | obj :: handles =>
      let s := match ss_objects s !! obj with
               | Some (HWrite c p h) => let '(_, (s, h)) := wh_abort (s, h) in put_object obj (HWrite c p h) s
               | Some (HRead c p n h) => let '(_, (s, h)) := rh_close (s, h) in put_object obj (HRead c p n h) s
               | None => s
               end in
      clean_up handles s
  end.

Definition srv_exit : srv unit := fun s => (Ok tt, clean_up (ss_handles s) (with_handles [] s)).

(** ** Requests *)

Inductive request :=
| RStat (path : string)
| RFstat (obj : nat)
| RSetstat
| RLink
| RScandir (path : string)
| ROpen (path : string) (pflags : Z)
| ROpen56 (path : string) (desired_access flags : Z)
| RRead (obj : nat) (offset size : Z)
| RWrite (obj : nat) (offset : Z) (data : bytes)
| RClose (obj : nat)
| RMkdir (path : string)
| RRmdir (path : string)
| RRemove (path : string)
| RRename (oldpath newpath : string) (overwrite : bool).

Inductive response :=
| Done
| Attrs (a : SFTPAttrs)
| Names (l : list (string * SFTPAttrs))
| Handle (obj : nat)
| Data (b : bytes)
| Written (n : Z).

Definition serve (r : request) : srv response :=
  match r with
  | RStat p => let! a := stat p in sret (Attrs a)
  | RFstat o => let! a := fstat o in sret (Attrs a)
  | RSetstat => setstat ;;; sret Done
  | RLink => unsupported ;;; sret Done
  | RScandir p => let! l := scandir p in sret (Names l)
  | ROpen p f => let! o := open_file p f in sret (Handle o)
  | ROpen56 p a f => let! o := open56 p a f in sret (Handle o)
  | RRead o off n => let! b := read o off n in sret (Data b)
  | RWrite o off d => let! n := write o off d in sret (Written n)
  | RClose o => close o ;;; sret Done
  | RMkdir p => srv_mkdir p ;;; sret Done
  | RRmdir p => srv_rmdir p ;;; sret Done
  | RRemove p => srv_remove p ;;; sret Done
  | RRename a b w => rename a b w ;;; sret Done
  end.

(** A session: requests, one after the other. *)
Fixpoint session (rs : list request) (s : Session W M) : list (exc response) * Session W M :=
  match rs with
  | [] => ([], s)
  | r :: rs => let '(x, s) := serve r s in let '(xs, s) := session rs s in (x :: xs, s)
  end.

End Sftp.
