(* ===== verification/OpsProps.v ===== *)
(** * Properties of paths and of the operations by path

    A directory is found at its own path; a new directory is found where it
    was made; the recursive [mkdir] makes it elsewhere. *)

From S2P Require Import Prelude Errors Messages FileVersion Contents Stores FileContent FileContentProps FileRefs Directory DirectoryProps DirectorySer Mirror MirrorProps FdRepo ContentStoreProps FdSaved Api PosixPath Ops.

Open Scope Z_scope.
Open Scope py_scope.

(** ** Names *)

Lemma valid_name_plain n : validate_name n = Ok tt -> n <> EmptyString /\ str_mem "/"%char n = false.
Proof.
  unfold validate_name. destruct n as [|c n]; [done|]. destruct (_ || _) eqn:Hb; [done|]. intros _.
  apply orb_false_iff in Hb as [_ Hb]. done.
Qed.

(** ** Resolving a path *)

Lemma cd_loop_app h c a b : cd_loop h c (a ++ b) = let* c' := cd_loop h c a in cd_loop h c' b.
Proof.
  revert c. induction a as [|p a IH]; intros c; simpl; [done|].
  repeat case_bool_decide; simpl; rewrite ?IH; try done; destruct c as [d|]; simpl; rewrite ?IH; try done.
  destruct (find_dir h d p); simpl; [apply IH|done].
Qed.

(** A name that is not ["."] or [".."]. *)
Definition plain_name (n : string) : Prop := n <> "."%string /\ n <> ".."%string.

Lemma cd_step h d n : plain_name n -> n <> EmptyString -> cd_loop h (Some d) [n] = rmap Some (find_dir h d n).
Proof.
  intros [H1 H2] H3. simpl. rewrite !bool_decide_eq_false_2 by done. simpl. by destruct (find_dir h d n).
Qed.

(** [l] leads from [d] up to [root] along directories that are attached. *)
Definition rooted (h : heap) (root d : nat) : Prop :=
  exists l, up_chain h d l /\ last l = Some root /\ Forall (fun x => attached h x /\ plain_name (dir_name h x)) l.

Lemma cd_path_loop h root d l fuel :
  wf h -> is_Some (h_dirs h !! d) -> up_chain h d l -> last l = Some root ->
  Forall (fun x => attached h x /\ plain_name (dir_name h x)) l -> (length l <= S fuel)%nat ->
  exists p, path_loop fuel h d = Ok p /\ cd_loop h (Some root) (split_slash p) = Ok (Some d).
Proof.
  intros Hwf Hd Hc. revert fuel Hd. induction Hc as [d Hp|d p l Hp Hc IH]; intros fuel Hd Hl Hall Hf.
  - injection Hl as <-. exists EmptyString. destruct fuel; simpl; by rewrite Hp.
  - apply Forall_cons in Hall as [[Hatt Hplain] Hall]. destruct fuel as [|fuel]; [inversion Hc; subst; simpl in Hf; lia|].
    pose proof (dir_at_lookup _ _ Hd) as Hdx. pose proof (wf_dirs _ Hwf _ _ Hdx) as Hok.
    pose proof (do_parent _ _ _ Hok _ Hp) as Hpx.
    destruct (IH fuel Hpx) as (q & Hq & Hcd); [by destruct l; [inversion Hc|]|done|simpl in Hf; lia|].
    simpl. rewrite Hp, Hq. simpl. destruct (valid_name_plain _ (do_name _ _ _ Hok)) as [Hne Hns].
    rewrite bool_decide_eq_false_2 by done. eexists. split; [done|].
    change ("/" +:+ d_name (dir_at h d))%string with (String "/" (d_name (dir_at h d))).
    rewrite split_slash_join by done. rewrite cd_loop_app, Hcd. cbn [rbind].
    rewrite (cd_step h p (d_name (dir_at h d)) Hplain Hne).
    change (d_name (dir_at h d)) with (dir_name h d). by rewrite (find_dir_unique h p d Hwf Hpx (Hatt _ Hp)).
Qed.

(** A directory is found at its own path: for every directory [d] attached
    below the root, along names other than ["."] and [".."], resolving
    [absolute_path d] leads to [d]. *)
Theorem path_resolves h root d :
  wf h -> is_Some (h_dirs h !! d) -> rooted h root d ->
  exists p, absolute_path h d = Ok p /\ cd_loop h (Some root) (split_slash p) = Ok (Some d).
Proof.
  intros Hwf Hd (l & Hc & Hl & Hall). apply (cd_path_loop h root d l); try done.
  pose proof (up_chain_size _ _ _ Hwf Hd Hc). lia.
Qed.

Lemma dict_set_same {V} k (v : V) (d : dict string V) : Dict.get k d = Some v -> Dict.set k v d = d.
Proof.
  induction d as [|[k' v'] d IH]; simpl; [done|]. destruct (decide (k = k')) as [->|Hk]; [by intros [= ->]|]. intros Hg. by rewrite IH.
Qed.

(** ** Calls that change nothing *)

Definition silent {S A} (m : st exn S A) : Prop := forall s, (m s).2 = s.

Lemma silent_ret {S A} (a : A) : silent (S := S) (sret a).
Proof. done. Qed.
Lemma silent_raise {S A} ex : silent (S := S) (A := A) (sraise ex).
Proof. done. Qed.
Lemma silent_lift {S A} (r : exc A) : silent (S := S) (slift r).
Proof. done. Qed.
Lemma silent_bind {S A B} (m : st exn S A) (k : A -> st exn S B) : silent m -> (forall a, silent (k a)) -> silent (sbind m k).
Proof. intros Hm Hk s. unfold sbind. pose proof (Hm s) as Hs. destruct (m s) as [[a|ex] s1]; simpl in *; subst; [apply Hk|done]. Qed.
Lemma silent_try {S A} (m : st exn S A) h : silent m -> (forall ex, silent (h ex)) -> silent (stry m h).
Proof. intros Hm Hh s. unfold stry. pose proof (Hm s) as Hs. destruct (m s) as [[a|ex] s1]; simpl in *; subst; [done|apply Hh]. Qed.

(** A call that changed nothing and did not answer raised. *)
Definition refuses {S A} (m : st exn S A) (s : S) : Prop := exists ex, m s = (Raise ex, s).

Lemma refuses_bind {S A B} (m : st exn S A) (k : A -> st exn S B) s :
  silent m -> (forall a, m s = (Ok a, s) -> refuses (k a) s) -> refuses (sbind m k) s.
Proof.
  intros Hm Hk. unfold refuses, sbind. pose proof (Hm s) as Hs. destruct (m s) as [[a|ex] s1]; simpl in Hs; subst s1; [|by eexists].
  by apply Hk.
Qed.

Lemma refuses_first {S A B} (m : st exn S A) (k : A -> st exn S B) s : refuses m s -> refuses (sbind m k) s.
Proof. intros [ex He]. exists ex. unfold sbind. by rewrite He. Qed.

Lemma refuses_raise {S A} ex (s : S) : refuses (A := A) (sraise ex) s.
Proof. by exists ex. Qed.

Create HintDb silent.
#[export] Hint Resolve silent_ret silent_raise silent_lift : silent.

Section Silent.
  Context {W M : Type}.

Lemma silent_root : silent (get_root_directory (W := W) (M := M)).
Proof. intros s. unfold get_root_directory. by destruct (fs_root s). Qed.
Lemma silent_heap : silent (the_heap (W := W) (M := M)).
Proof. done. Qed.

Lemma silent_cd path : silent (cd (W := W) (M := M) path).
Proof. unfold cd. apply silent_bind; [apply silent_root|]. intros ?. apply silent_bind; [apply silent_heap|]. intros ?. apply silent_lift. Qed.

Lemma silent_stat_file path : silent (stat_file (W := W) (M := M) path).
Proof.
  unfold stat_file. apply silent_bind; [apply silent_lift|]. intros _. apply silent_bind.
  - unfold at_dir. apply silent_bind; [apply silent_cd|]. intros ?. apply silent_lift.
  - intros d. apply silent_bind; [apply silent_heap|]. intros ?. apply silent_lift.
Qed.

End Silent.
#[export] Hint Resolve silent_root silent_heap silent_cd silent_stat_file : silent.

(** ** A new directory among the others *)

Section NewDir.
  Context (t : datetime) (h : heap) (d : nat) (x : TGFSDirectory) (name : string).
  Context (Hwf : wf h) (Hd : h_dirs h !! d = Some x).
  Local Abbreviation h' := (with_new_dir t d x name h).

Lemma exists_not_fresh e : is_Some (h_dirs h !! e) -> e <> h_fresh h.
Proof. intros [y He] ->. by rewrite (fresh_dir_none _ Hwf) in He. Qed.

Lemma new_dir_at_old e : is_Some (h_dirs h !! e) ->
  d_name (dir_at h' e) = d_name (dir_at h e) /\ parent (dir_at h' e) = parent (dir_at h e) /\
  children (dir_at h' e) = children (dir_at h e) ++ (if decide (e = d) then [h_fresh h] else []).
Proof.
  intros He. pose proof (exists_not_fresh e He) as Hf. unfold with_new_dir. rewrite dir_at_put.
  destruct (decide (d = e)) as [->|Hne].
  - rewrite decide_True by done. by rewrite (dir_at_some _ _ _ Hd).
  - rewrite decide_False by done. rewrite app_nil_r. unfold dir_at, alloc_dir. cbn [h_dirs]. by rewrite lookup_insert_ne.
Qed.

Lemma new_dir_at_new : d_name (dir_at h' (h_fresh h)) = name /\ children (dir_at h' (h_fresh h)) = [].
Proof.
  assert (d <> h_fresh h) as Hf by (apply exists_not_fresh; by eexists).
  unfold with_new_dir. rewrite dir_at_put, decide_False by done. unfold dir_at, alloc_dir. cbn [h_dirs].
  by rewrite lookup_insert_eq.
Qed.

Lemma new_dir_exists e : is_Some (h_dirs h !! e) -> is_Some (h_dirs h' !! e).
Proof.
  intros He. unfold with_new_dir, put_dir, alloc_dir. cbn [h_dirs]. rewrite !lookup_insert_is_Some'. auto.
Qed.

Lemma find_dirs_after e n : is_Some (h_dirs h !! e) ->
  find_dirs h' e [n] = find_dirs h e [n] ++ (if bool_decide (e = d /\ name = n) then [h_fresh h] else []).
Proof.
  intros He. unfold find_dirs. cbn [nonempty]. destruct (new_dir_at_old e He) as (_ & _ & ->). rewrite List.filter_app. f_equal.
  - apply filter_ext_in. intros c Hc%list_elem_of_In.
    destruct (wf_dirs _ Hwf _ _ (dir_at_lookup _ _ He)) as [_ _ Hch _ _ _ _]. destruct (Hch c Hc) as (y & Hy & _).
    destruct (new_dir_at_old c) as (-> & _); [by eexists|done].
  - case_decide as Hed; [|rewrite bool_decide_eq_false_2 by tauto; done]. cbn [List.filter].
    destruct new_dir_at_new as [-> _].
    destruct (decide (name = n)) as [->|Hn]; [rewrite !bool_decide_eq_true_2; [done|tauto|left]|].
    rewrite !bool_decide_eq_false_2; [done|tauto|]. intros ?%list_elem_of_singleton. done.
Qed.

(** What was found before is found again. *)
Lemma find_dir_after e n c : is_Some (h_dirs h !! e) -> find_dir h e n = Ok c -> find_dir h' e n = Ok c.
Proof.
  intros He. unfold find_dir. rewrite find_dirs_after by done. by destruct (find_dirs h e [n]).
Qed.

Lemma find_dir_exists e n c : is_Some (h_dirs h !! e) -> find_dir h e n = Ok c -> is_Some (h_dirs h !! c).
Proof.
  intros He. unfold find_dir, find_dirs. cbn [nonempty]. destruct (List.filter _ _) as [|y l] eqn:Hf; [done|]. intros [= ->].
  assert (In c (c :: l)) as Hin by by left. rewrite <- Hf in Hin. apply filter_In in Hin as [Hin _].
  destruct (wf_dirs _ Hwf _ _ (dir_at_lookup _ _ He)) as [_ _ Hch _ _ _ _].
  destruct (Hch c) as (z & Hz & _); [by apply list_elem_of_In|by eexists].
Qed.

Lemma cd_loop_exists c parts r :
  (forall e, c = Some e -> is_Some (h_dirs h !! e)) -> cd_loop h c parts = Ok (Some r) -> is_Some (h_dirs h !! r).
Proof.
  revert c. induction parts as [|p parts IH]; intros c Hc; simpl; [intros [= ->]; by apply Hc|].
  case_bool_decide; [|case_bool_decide; simpl; [by apply IH|case_bool_decide; [by apply IH|]]];
    (destruct c as [e|]; simpl; [|done]).
  - apply IH. intros q Hq. by apply (do_parent _ _ _ (wf_dirs _ Hwf _ _ (dir_at_lookup _ _ (Hc e eq_refl)))).
  - destruct (find_dir h e p) as [y|] eqn:Hf; simpl; [|done]. apply IH. intros ? [= <-]. by eapply find_dir_exists; [apply Hc|].
Qed.

Lemma cd_loop_after c parts r :
  (forall e, c = Some e -> is_Some (h_dirs h !! e)) -> cd_loop h c parts = Ok r -> cd_loop h' c parts = Ok r.
Proof.
  revert c. induction parts as [|p parts IH]; intros c Hc; simpl; [done|].
  case_bool_decide; [|case_bool_decide; simpl; [by apply IH|case_bool_decide; [by apply IH|]]];
    (destruct c as [e|]; simpl; [|done]).
  - destruct (new_dir_at_old e) as (_ & -> & _); [by apply Hc|]. apply IH. intros q Hq.
    by apply (do_parent _ _ _ (wf_dirs _ Hwf _ _ (dir_at_lookup _ _ (Hc e eq_refl)))).
  - destruct (find_dir h e p) as [y|] eqn:Hf; simpl; [|done]. rewrite (find_dir_after _ _ _ (Hc e eq_refl) Hf). simpl.
    apply IH. intros ? [= <-]. by eapply find_dir_exists; [apply Hc|].
Qed.

End NewDir.

(** ["/n"] is the child [n] of the root. *)
Lemma cd_child h root n a :
  validate_name n = Ok tt -> plain_name n -> find_dir h root n = Ok a ->
  cd_loop h (Some root) (split_slash ("/" +:+ n)) = Ok (Some a).
Proof.
  intros [Hne Hns]%valid_name_plain Hplain Hf. change ("/" +:+ n)%string with ("" +:+ String "/" n)%string.
  rewrite split_slash_join, cd_loop_app by done.
  change (cd_loop h (Some root) (split_slash "")) with (Ok (Some root) : exc (option nat)). cbn [rbind].
  rewrite cd_step by done. by rewrite Hf.
Qed.

(** ** [mkdir] *)

Section Mkdir.
  Context {W M : Type} `{Stores W} `{FDJson} `{ContentRepo (Live W)} `{MetaRepo M W}.
  Local Abbreviation fs := (Fs W M).

(** Writing the metadata leaves the tree alone. *)
Lemma push_tree (s : fs) : fs_heap (push s).2 = fs_heap s /\ fs_root (push s).2 = fs_root s.
Proof.
  unfold push, repo_push. destruct (negb _); [done|]. destruct (fs_root s) as [root|] eqn:Hr; [|done].
  destruct (md_push root (fs_heap s) (fs_repo s, fs_live s)) as [r [m l]]. done.
Qed.

Lemma dir_create_spec name under (s s' : fs) d :
  wf (fs_heap s) -> is_Some (h_dirs (fs_heap s) !! under) -> dir_create name under s = (Ok d, s') ->
  let x := dir_at (fs_heap s) under in
  exists t, d = h_fresh (fs_heap s) /\ name ∉ map (dir_name (fs_heap s)) (children x) /\
    fs_heap s' = with_new_dir t under x name (fs_heap s) /\ wf (fs_heap s') /\ fs_root s' = fs_root s.
Proof.
  intros Hwf Hu Hrun x. unfold dir_create, sbind, now in Hrun. set (t := fs_clock s (fs_drawn s)) in Hrun.
  unfold on_heap in Hrun. cbn [fs_heap with_drawn] in Hrun.
  destruct (create_dir_spec t _ _ _ name Hwf (dir_at_lookup _ _ Hu)) as [He Hw]. rewrite He in Hrun. clear He.
  case_bool_decide as Hin; [done|]. destruct (validate_name name) as [[]|]; [|done]. cbn [snd] in Hw.
  match type of Hrun with context [push ?s0] => destruct (push_tree s0) as [Hh Hr]; destruct (push s0) as [[[]|] s1] end; [|done].
  injection Hrun as <- <-. exists t. cbn in Hh, Hr. rewrite Hh, Hr. done.
Qed.

Lemma at_dir_run path (s : fs) root :
  fs_root s = Some root ->
  at_dir path s = (let* o := cd_loop (fs_heap s) (Some root) (split_slash path) in need o, s).
Proof.
  intros Hr. unfold at_dir, cd, sbind, get_root_directory, the_heap, slift. rewrite Hr.
  by destruct (cd_loop (fs_heap s) (Some root) (split_slash path)).
Qed.

(** What [mkdir] makes is found at its path: after a successful
    [mkdir(path, parents=False)] the path resolves to the new directory, and
    the tree is still well formed. *)
Theorem mkdir_found path (s s' : fs) root d :
  wf (fs_heap s) -> fs_root s = Some root -> is_Some (h_dirs (fs_heap s) !! root) ->
  mkdir path false s = (Ok d, s') ->
  named_dir path s' = (Ok d, s') /\ wf (fs_heap s').
Proof.
  intros Hwf Hr Hroot. unfold mkdir, sbind at 1, slift at 1. destruct (validate_path path) as [[]|]; [|done].
  unfold sbind at 1. rewrite (at_dir_run _ _ _ Hr).
  destruct (cd_loop (fs_heap s) (Some root) (split_slash (dirname path))) as [[u|]|] eqn:Hcd; try done. cbn [rbind need].
  unfold sbind at 1, sret. intros Hrun.
  assert (is_Some (h_dirs (fs_heap s) !! u)) as Hu.
  { eapply cd_loop_exists; [done| |exact Hcd]. by intros e [= <-]. }
  destruct (dir_create_spec _ _ _ _ _ Hwf Hu Hrun) as (t & -> & Hnew & Hh & Hw & Hr'). split; [|done].
  rewrite Hr in Hr'. unfold named_dir, sbind at 1. rewrite (at_dir_run _ _ _ Hr'), Hh.
  erewrite cd_loop_after; [|done|by apply dir_at_lookup| |exact Hcd]; [|by intros e [= <-]]. cbn [rbind need].
  unfold sbind, the_heap, slift. rewrite Hh. unfold find_dir.
  rewrite find_dirs_after by (done || by apply dir_at_lookup). rewrite (proj2 (find_dirs_none _ _ _) Hnew).
  by rewrite bool_decide_eq_true_2.
Qed.

(** [mkdir(path, parents=True)] does not make the directory at its path.
    It changes into the parent first and then walks the parts of the parent
    path again from there: with [/n] present, [mkdir("/n/b", True)] makes
    [/n/n/b], and [/n/b] is still missing. *)
Theorem mkdir_parents_nests n b (s s' : fs) root a d :
  let path := (("/" +:+ n) +:+ String "/" b)%string in
  wf (fs_heap s) -> fs_root s = Some root -> is_Some (h_dirs (fs_heap s) !! root) ->
  validate_name n = Ok tt -> plain_name n -> str_mem "/"%char b = false -> n <> b ->
  find_dir (fs_heap s) root n = Ok a -> find_dirs (fs_heap s) a [n] = [] -> find_dirs (fs_heap s) a [b] = [] ->
  mkdir path true s = (Ok d, s') ->
  exists e, find_dir (fs_heap s') a n = Ok e /\ find_dir (fs_heap s') e b = Ok d /\
    named_dir path s' = (Raise (FileOrDirectoryDoesNotExist b), s').
Proof.
  intros path Hwf Hr Hroot Hn Hplain Hb Hnb Hfa Hno Hnob. destruct (valid_name_plain _ Hn) as [Hne Hns].
  destruct (dirname_join "/" n b Hns Hne Hb) as [Hdn Hbn]. fold path in Hdn, Hbn.
  assert (is_Some (h_dirs (fs_heap s) !! a)) as Ha by by eapply find_dir_exists.
  assert (forall h : heap, find_dir h root n = Ok a -> cd_loop h (Some root) (split_slash (dirname path)) = Ok (Some a)) as Hcd
    by (intros h Hf; rewrite Hdn; by apply cd_child).
  unfold mkdir, sbind at 1, slift at 1. destruct (validate_path path) as [[]|]; [|done].
  unfold sbind at 1. rewrite (at_dir_run _ _ _ Hr), (Hcd _ Hfa). cbn [rbind need].
  rewrite Hdn at 1. change ("/" +:+ n)%string with ("" +:+ String "/" n)%string. rewrite split_slash_join by done.
  unfold sbind at 1. cbn [split_slash app make_parents]. rewrite bool_decide_eq_true_2, bool_decide_eq_false_2 by done.
  unfold sbind at 1, stry, sbind at 1, the_heap, slift. unfold find_dir at 1. rewrite Hno.
  destruct (dir_create n a s) as [[e|] s1] eqn:Hc1; [|done].
  destruct (dir_create_spec _ _ _ _ _ Hwf Ha Hc1) as (t1 & -> & Hnew1 & Hh1 & Hw1 & Hr1).
  unfold sret. rewrite Hbn. intros Hc2.
  assert (is_Some (h_dirs (fs_heap s1) !! h_fresh (fs_heap s))) as He.
  { rewrite Hh1. unfold with_new_dir, put_dir, alloc_dir. cbn [h_dirs]. rewrite !lookup_insert_is_Some'. auto. }
  destruct (dir_create_spec _ _ _ _ _ Hw1 He Hc2) as (t2 & -> & Hnew2 & Hh2 & Hw2 & Hr2).
  assert (is_Some (h_dirs (fs_heap s1) !! a)) as Ha1 by (rewrite Hh1; by apply new_dir_exists).
  assert (is_Some (h_dirs (fs_heap s1) !! root)) as Hroot1 by (rewrite Hh1; by apply new_dir_exists).
  assert (a <> h_fresh (fs_heap s)) as Hea by (by apply exists_not_fresh).
  assert (forall e m, is_Some (h_dirs (fs_heap s1) !! e) ->
    find_dirs (fs_heap s') e [m] = find_dirs (fs_heap s1) e [m] ++
      (if bool_decide (e = h_fresh (fs_heap s) /\ b = m) then [h_fresh (fs_heap s1)] else [])) as Hafter2.
  { intros e m Hx. rewrite Hh2. apply find_dirs_after; [done|by apply dir_at_lookup|done]. }
  assert (forall m, find_dirs (fs_heap s1) a [m] = find_dirs (fs_heap s) a [m] ++
      (if bool_decide (a = a /\ n = m) then [h_fresh (fs_heap s)] else [])) as Hafter1.
  { intros m. rewrite Hh1. apply find_dirs_after; [done|by apply dir_at_lookup|done]. }
  exists (h_fresh (fs_heap s)). split; [|split].
  - unfold find_dir. rewrite Hafter2, Hafter1, Hno by done. by rewrite bool_decide_eq_true_2.
  - unfold find_dir. rewrite Hafter2 by done. rewrite (proj2 (find_dirs_none _ _ _) Hnew2). by rewrite bool_decide_eq_true_2.
  - unfold named_dir, sbind at 1. rewrite (at_dir_run _ _ root) by congruence. rewrite Hcd.
    + cbn [rbind need]. unfold sbind, the_heap, slift, find_dir. rewrite Hbn, Hafter2, Hafter1, Hnob by done.
      by rewrite !bool_decide_eq_false_2 by tauto.
    + rewrite Hh2. apply find_dir_after; [done|by apply dir_at_lookup|done|]. rewrite Hh1.
      apply find_dir_after; [done|by apply dir_at_lookup|done|done].
Qed.

End Mkdir.

(** ** Witnesses: the tree of [demo_heap] over stores in memory *)

#[export] Instance no_json : MetaJson := { tree_dumps _ := []; tree_loads _ := Raise ValueError }.

#[export] Instance demo_content : ContentRepo (Live MemWorld) :=
  store_repo demo_config None false (fun _ _ _ _ l => (empty_stream, l)).

#[export] Instance demo_pinned : MetaRepo Pinned MemWorld := pinned_repo "tg:1" None.

Definition demo_fs : Fs MemWorld Pinned :=
  {| fs_heap := demo_heap; fs_live := up_live;
     fs_repo := {| pm_message_id := None; pm_mirror_message_ids := []; pm_tree_has_stats := None |};
     fs_root := Some 0%nat; fs_batch_depth := 0; fs_pending := false; fs_dirty := []; fs_dirty_since := None;
     fs_last_mark := 0; fs_urgent := false; fs_clock := fun _ => demo_now; fs_uuids := fun n => bits (Pos.of_nat (S n));
     fs_drawn := 0 |}.

Lemma path_resolves_witness : exists p, absolute_path demo_heap 2 = Ok p /\ cd_loop demo_heap (Some 0%nat) (split_slash p) = Ok (Some 2%nat).
Proof.
  apply (path_resolves demo_heap 0 2); [apply demo_heap_wf|by vm_compute; eexists|].
  exists [2; 0]%nat. split; [|split; [done|]].
  - eapply chain_up; [by vm_compute|]. by constructor.
  - constructor; [split; [apply demo_attached; by left|by vm_compute]|]. constructor; [|constructor].
    split; [intros p; vm_compute; intros Hp; discriminate Hp|by vm_compute].
Defined.

Lemma mkdir_found_witness :
  match mkdir "/x" false demo_fs with
  | (Ok d, s') => named_dir "/x" s' = (Ok d, s')
  | (Raise _, _) => False
  end.
Proof.
  assert (is_ok (mkdir "/x" false demo_fs).1 = true) as Hok by (vm_compute; reflexivity).
  destruct (mkdir "/x" false demo_fs) as [[d|x] s'] eqn:Hm; [|done].
  apply (mkdir_found "/x" demo_fs s' 0 d demo_heap_wf eq_refl); [by vm_compute; eexists|done].
Defined.

Lemma mkdir_parents_nests_witness :
  let path := (("/" +:+ "a") +:+ String "/" "x")%string in
  match mkdir path true demo_fs with
  | (Ok d, s') => named_dir path s' = (Raise (FileOrDirectoryDoesNotExist "x"), s')
  | (Raise _, _) => False
  end.
Proof.
  intros path. assert (is_ok (mkdir path true demo_fs).1 = true) as Hok by (vm_compute; reflexivity).
  destruct (mkdir path true demo_fs) as [[d|x] s'] eqn:Hm; [|done].
  destruct (mkdir_parents_nests "a" "x" demo_fs s' 0 2 d demo_heap_wf eq_refl) as (e & _ & _ & Hn).
  - by vm_compute; eexists.
  - reflexivity.
  - by split.
  - reflexivity.
  - done.
  - vm_compute. reflexivity.
  - vm_compute. reflexivity.
  - vm_compute. reflexivity.
  - exact Hm.
  - exact Hn.
Defined.

Definition demo_api : ApiConfig :=
  {| ac_fd := demo_repo; ac_inline_mirroring := false; ac_written_gaps_only := false; ac_write_ack_cache := false;
     ac_persist := true; ac_validate := true |}.
