(* ===== verification/DavProps.v ===== *)
(** * Properties of the WebDAV server

    What a refused request leaves alone, where the paths it hands out lead,
    and what PUT, MKCOL, PROPPATCH, COPY and MOVE do to the tree. *)

From stdpp Require Import pretty sorting.
From S2P Require Import Prelude Errors Codec Messages FileVersion Names Contents Stores FileContent FileContentProps FileRefs Directory DirectoryProps DirectorySer Mirror MirrorProps FdRepo ContentStoreProps FdSaved ConfigValue Config Api Stats PosixPath Http Ops Paths Auth FsCache Dav DavApp OpsProps.

Open Scope Z_scope.
Open Scope py_scope.

Section DavProps.
  Context {W M : Type} `{Stores W} `{FDJson} `{ContentRepo (Live W)} `{MetaRepo M W} `{DateText} {E : Type} `{Lxml E}.
  Context (on_written : option (nat -> st exn (Fs W M) unit)) (meanwhile : Fs W M -> Fs W M).
  Context (check_netloc : string -> exc unit) (base_path : string).
  Local Abbreviation dst := (st exn (Dav W M)).

(** ** Looking at the tree changes nothing *)

Lemma silent_with_client {A} name (m : ApiConfig -> st exn (Fs W M) A) : (forall ac, silent (m ac)) -> silent (with_client name m).
Proof.
  intros Hm s. unfold with_client. destruct (Dict.get name (dv_clients s)) as [[ac fs]|] eqn:Hg; [|done]. cbn [cl_api cl_fs].
  pose proof (Hm ac fs) as Hs. destruct (m ac fs) as [r fs1]. simpl in *. subst fs1. rewrite dict_set_same by done. by destruct s.
Qed.

Lemma silent_smap {A B} (f : A -> dst B) l : (forall x, silent (f x)) -> silent (smap f l).
Proof.
  intros Hf. induction l as [|x l IH]; [apply silent_ret|]. cbn [smap]. apply silent_bind; [done|]. intros y.
  apply silent_bind; [done|]. intros ?. apply silent_ret.
Qed.

Lemma silent_new_folder client path : silent (new_folder (W := W) (M := M) client path).
Proof.
  apply silent_with_client. intros _. apply silent_bind.
  - case_bool_decide; [apply silent_root|]. apply silent_bind; auto with silent.
  - intros d. apply silent_bind; auto with silent.
Qed.

Lemma silent_new_resource client path : silent (new_resource (W := W) (M := M) client path).
Proof.
  apply silent_bind.
  - intros s. unfold on_gfc. destruct (Dict.get client (dv_caches s)) as [c|] eqn:Hc; [|done].
    cbn [snd]. rewrite dict_set_same by done. by destruct s.
  - intros _. apply silent_bind; [|auto with silent]. apply silent_with_client. auto with silent.
Qed.

Lemma silent_folder_member f parts : silent (folder_member (W := W) (M := M) f parts).
Proof.
  revert f. induction parts as [|p parts IH]; intros f; cbn [folder_member]; [apply silent_ret|].
  repeat case_bool_decide; try apply silent_ret.
  - apply silent_bind; [apply silent_new_resource|auto with silent].
  - apply silent_bind; [apply silent_new_folder|]. intros g. apply IH.
Qed.

Lemma silent_member_of m path : silent (member_of (W := W) (M := M) m path).
Proof.
  destruct m as [members|f|r]; cbn [member_of]; [|apply silent_folder_member|apply silent_raise].
  case_bool_decide; [apply silent_ret|]. destruct (root_route members path) as [[f|] sub]; [apply silent_folder_member|apply silent_ret].
Qed.

Lemma silent_get_member path : silent (get_member (W := W) (M := M) path).
Proof.
  unfold get_member. destruct (_ || _).
  - intros s. apply silent_bind; [|auto with silent]. apply silent_smap. intros name.
    apply silent_bind; [apply silent_new_folder|auto with silent].
  - apply silent_bind; [apply silent_lift|]. intros [client sub] s. destruct (Dict.get client (dv_clients s)); [|done].
    apply silent_bind; [apply silent_new_folder|]. intros ?. apply silent_folder_member.
Qed.

Lemma silent_folder_at path : silent (folder_at (W := W) (M := M) path).
Proof. apply silent_bind; [apply silent_get_member|auto with silent]. Qed.

Hint Resolve silent_get_member silent_member_of silent_folder_at : silent.

(** ** Refusals *)

(** Not found, in conflict, or with a target to keep. *)
Definition refusal (r : Response) : bool := bool_decide (rs_status r ∈ [404; 409; 412]).

(** What answers with a refusal changed nothing. *)
Definition careful (m : dst Response) : Prop := forall s r s', m s = (Ok r, s') -> refusal r = true -> s' = s.

Lemma careful_silent m : silent m -> careful m.
Proof. intros Hm s r s' Hr _. specialize (Hm s). by rewrite Hr in Hm. Qed.

Lemma careful_bind {A} (m : dst A) k : silent m -> (forall a, careful (k a)) -> careful (sbind m k).
Proof.
  intros Hm Hk s r s'. unfold sbind. pose proof (Hm s) as Hs. destruct (m s) as [[a|ex] s1]; [|done]. simpl in Hs. subst s1. apply Hk.
Qed.

(** The end of a request that went through. *)
Lemma answer_of {A} (m : dst A) (r r' : Response) s s' : (m ;;; sret r) s = (Ok r', s') -> r' = r.
Proof. unfold sbind. destruct (m s) as [[a|ex] s1]; [|done]. by intros [= <- _]. Qed.

Lemma careful_done {A} (m : dst A) r : refusal r = false -> careful (m ;;; sret r).
Proof. intros Hr s r' s' ->%answer_of. by rewrite Hr. Qed.

Lemma folder_create_resource f parts s m s' :
  folder_create (W := W) (M := M) on_written f parts s = (Ok m, s') -> exists r, m = MResource r.
Proof.
  revert f s. induction parts as [|p parts IH]; intros f s; cbn [folder_create]; unfold sbind at 1;
    destruct (on_gfc _ _ s) as [[[]|] s1]; try done. destruct parts as [|q parts].
  - case_bool_decide; [done|]. unfold sbind. destruct (if bool_decide _ then _ else _) as [[[]|] s2]; [|done].
    destruct (new_resource _ _ s2) as [[r|] s3]; [|done]. intros [= <- _]. by eexists.
  - unfold sbind. destruct (folder_member f [p] s1) as [[[[| |]|]|] s2]; try done. apply IH.
Qed.

Lemma put_target_spec path s t s' :
  put_target (W := W) (M := M) on_written path s = (Ok t, s') ->
  match t with inl m => s' = s \/ exists r, m = MResource r | inr r => rs_status r = 403 \/ s' = s end.
Proof.
  unfold put_target, sbind at 1. pose proof (silent_get_member path s) as Hg.
  destruct (get_member path s) as [[[m|]|] s1]; simpl in Hg; subst s1; [|..|done]; [intros [= <- <-]; by left|].
  unfold sbind at 1. pose proof (silent_folder_at (split_parent path).1 s) as Hf.
  destruct (folder_at _ s) as [[ok|] s1]; simpl in Hf; subst s1; [|done]. destruct ok; cbn [negb]; [|intros [= <- <-]; by right].
  unfold sbind at 1. pose proof (silent_get_member "/" s) as Hr.
  destruct (get_member "/" s) as [[[[members| |]|]|] s1]; simpl in Hr; subst s1; try done. unfold stry, sbind at 1.
  destruct (create_empty_resource on_written (MRoot members) path s) as [[m|ex] s1] eqn:Hc.
  - intros [= <- <-]. right. cbn [create_empty_resource] in Hc. destruct (root_route _ _) as [[f|] sub]; [|done].
    by eapply folder_create_resource.
  - case_bool_decide; [|done]. intros [= <- <-]. by left.
Qed.

Lemma careful_put rq path : careful (put_request on_written rq path).
Proof.
  unfold put_request. apply careful_bind; [apply silent_lift|]. intros size s r s'. unfold sbind at 1.
  destruct (put_target on_written path s) as [[t|] s1] eqn:Ht; [|done]. pose proof (put_target_spec _ _ _ _ Ht) as Hs.
  destruct t as [m|refused].
  - destruct Hs as [->|[x ->]].
    + destruct m; [intros [= <- <-]; done..|]. apply careful_done. by vm_compute.
    + by intros ->%answer_of.
  - intros [= <- <-] Hrf. destruct Hs as [Hs| ->]; [|done]. unfold refusal in Hrf. by rewrite Hs in Hrf.
Qed.

Lemma careful_delete path : careful (delete_request path).
Proof.
  unfold delete_request. apply careful_bind; [auto with silent|]. intros [m|]; [|apply careful_silent; auto with silent].
  apply careful_done. by vm_compute.
Qed.

Lemma careful_mkcol path : careful (mkcol path).
Proof.
  unfold mkcol. destruct (split_parent path) as [parent_path name]. apply careful_bind; [auto with silent|].
  intros [parent|]; [|apply careful_silent; auto with silent]. destruct (is_folder parent); cbn [negb]; [|apply careful_silent; auto with silent].
  apply careful_bind; [auto with silent|]. intros [m|]; [apply careful_silent; auto with silent|].
  intros s r s'. unfold stry, sbind. destruct (create_folder parent name s) as [[[]|ex] s1]; [intros [= <- _]; done|].
  case_bool_decide; [|done]. intros [= <- _]. done.
Qed.

Lemma careful_transfer rq path moving : careful (transfer on_written check_netloc base_path rq path moving).
Proof.
  unfold transfer. destruct (header "Destination" rq) as [[|c d]|]; try (apply careful_silent; apply silent_ret).
  apply careful_bind; [auto with silent|]. intros [m|]; [|apply careful_silent; auto with silent].
  apply careful_bind; [auto with silent|]. intros dest.
  case_bool_decide; [apply careful_silent; apply silent_ret|].
  destruct (below _ _); [apply careful_silent; apply silent_ret|]. destruct (below _ _); [apply careful_silent; apply silent_ret|].
  apply careful_bind; [auto with silent|]. intros [|]; cbn [negb]; [|apply careful_silent; apply silent_ret].
  apply careful_bind; [auto with silent|]. intros [existing|]; [|apply careful_done; by vm_compute].
  destruct (keep_target rq); [apply careful_silent; apply silent_ret|].
  intros s r s'. unfold sbind at 1. destruct (member_remove existing s) as [[[]|] s1]; [|done].
  by intros ->%answer_of.
Qed.

(** Calls that never end with a refusal. *)
Definition accepted (m : dst Response) : Prop := forall s r s', m s = (Ok r, s') -> refusal r = false.

Lemma accepted_bind {A} (m : dst A) k : (forall a, accepted (k a)) -> accepted (sbind m k).
Proof. intros Hk s r s'. unfold sbind. destruct (m s) as [[a|ex] s1]; [apply Hk|done]. Qed.

Lemma accepted_ret r : refusal r = false -> accepted (sret r).
Proof. by intros Hr s r' s' [= <- _]. Qed.

Lemma careful_accepted m : accepted m -> careful m.
Proof. intros Hm s r s' Hr. by rewrite (Hm _ _ _ Hr). Qed.

Lemma careful_found path (k : Member -> dst Response) :
  (forall m, accepted (k m)) -> careful (let! m := get_member path in match m with None => sret NOT_FOUND | Some m => k m end).
Proof.
  intros Hk. apply careful_bind; [auto with silent|]. intros [m|]; [apply careful_accepted, Hk|apply careful_silent, silent_ret].
Qed.

Ltac accepted := repeat (apply accepted_bind; intros); first [by apply accepted_ret | by intros ? ? ?].

Lemma careful_handle v rq path : careful (handle on_written meanwhile check_netloc base_path v rq path).
Proof.
  destruct v; cbn [handle]; try (apply careful_silent; apply silent_ret).
  - unfold handle_propfind. apply careful_bind; [auto with silent|]. intros r. apply careful_found. intros m.
    destruct r as [[depth props]|]; accepted.
  - unfold handle_proppatch. destruct (proppatch_request rq) as [us|ex]; [|destruct (is_ValueError ex); apply careful_silent; auto with silent].
    apply careful_found. intros m. accepted.
  - apply careful_bind; [auto with silent|]. intros [[f|f|r]|]; [apply careful_accepted; accepted..| |apply careful_silent, silent_ret].
    apply careful_accepted. apply accepted_bind. intros [n r']. apply accepted_bind. intros [t r'']. accepted.
  - apply careful_bind; [auto with silent|]. intros [[is_range b] e]. apply careful_bind; [auto with silent|].
    intros [[f|f|r]|]; [apply careful_accepted; accepted..| |apply careful_silent, silent_ret].
    apply careful_accepted. apply accepted_bind. intros content. apply accepted_bind. intros [t r']. apply accepted_bind. intros [n r''].
    destruct is_range; accepted.
  - apply careful_put.
  - apply careful_delete.
  - apply careful_mkcol.
  - apply careful_transfer.
  - apply careful_transfer.
Qed.

(** C12: A request that is answered with 404, 409 or 412 -- nothing there,
    something in the way, a target to keep -- has changed nothing, whatever
    its method, headers and body: no file system, and no cache of one. *)
Theorem refused_changes_nothing v rq path (s s' : Dav W M) r :
  dav_app on_written meanwhile check_netloc base_path v rq path s = (Ok r, s') ->
  rs_status r ∈ [404; 409; 412] -> s' = s.
Proof.
  unfold dav_app, stry. destruct (handle _ _ _ _ v rq path s) as [[a|ex] s1] eqn:Hh.
  - intros [= <- <-] Hr. by apply (careful_handle v rq path _ _ _ Hh), bool_decide_eq_true_2.
  - case_bool_decide; [|done]. intros [= <- <-] Hr. exfalso. cbn in Hr. set_solver.
Qed.

(** ** A path below a file *)

Lemma split_first_more s a b t : split_first s = (a, Some b) -> split_first (s +:+ t) = (a, Some (b +:+ t)%string).
Proof.
  revert a b. induction s as [|c s IH]; intros a b; [done|]. rewrite str_app_cons. cbn [split_first]. destruct (bool_decide _); [by intros [= <- <-]|].
  destruct (split_first s) as [a' [b'|]] eqn:Hs; [|done]. intros [= <- <-]. by rewrite (IH _ _ eq_refl).
Qed.

Lemma lstrip_more s t : lstrip_slash s <> EmptyString -> lstrip_slash (s +:+ t) = (lstrip_slash s +:+ t)%string.
Proof. induction s as [|c s IH]; [done|]. rewrite str_app_cons. cbn [lstrip_slash]. destruct (bool_decide _); [apply IH|done]. Qed.

Lemma folder_member_below f parts more r (s s' : Dav W M) :
  folder_member f parts s = (Ok (Some (MResource r)), s') -> folder_member f (parts ++ more) s = (Ok (Some (MResource r)), s').
Proof.
  revert f s. induction parts as [|p parts IH]; intros f s; cbn [folder_member app]; [done|].
  destruct (bool_decide (p = _)); [done|]. destruct (bool_decide (p ∈ fo_sub_files f)); [done|].
  destruct (bool_decide (p ∈ fo_sub_folders f)); [|done]. unfold sbind.
  destruct (new_folder _ _ s) as [[g|ex] s1]; [apply IH|done].
Qed.

(** The client and the path in it of a path that is not the root. *)
Lemma get_member_split path (s : Dav W M) m :
  get_member path s = (Ok (Some m), s) ->
  (exists members, m = MRoot members /\ (path = EmptyString \/ path = "/"%string)) \/
  exists client sub, split_global_path path = Ok (client, sub) /\ is_Some (Dict.get client (dv_clients s)) /\
    (let! root := new_folder client "/" in folder_member root (split_slash (lstrip_slash sub))) s = (Ok (Some m), s).
Proof.
  unfold get_member. destruct (_ || _) eqn:Hroot.
  - unfold sbind. destruct (smap _ _ s) as [[members|ex] s1]; [|done]. intros [= <- _]. left. exists members. split; [done|].
    apply orb_true_iff in Hroot as [?%bool_decide_eq_true|?%bool_decide_eq_true]; auto.
  - unfold sbind at 1, slift. destruct (split_global_path path) as [[client sub]|ex]; [|done].
    destruct (Dict.get client (dv_clients s)) as [c|] eqn:Hc; [|done]. intros Hm. right. exists client, sub. rewrite Hc. by eauto.
Qed.

Lemma split_global_more path client sub rest :
  split_global_path path = Ok (client, sub) -> sub <> EmptyString ->
  split_global_path (path +:+ rest) = Ok (client, sub +:+ rest)%string /\ path <> EmptyString.
Proof.
  destruct path as [|c path]; [done|]. intros Hp Hsub. split; [|done].
  rewrite (str_app_cons c path rest). unfold split_global_path in *.
  set (p := if bool_decide _ then String c path else _) in Hp.
  assert ((if bool_decide (c = "/"%char) then String c (path +:+ rest) else ("/" +:+ String c (path +:+ rest))%string) = (p +:+ rest)%string) as ->
    by (subst p; by destruct (bool_decide _)).
  destruct (split_first p) as [e [b|]] eqn:Hb; [|done]. rewrite (split_first_more _ _ _ rest Hb).
  destruct (split_first b) as [name [u|]] eqn:Hu; injection Hp as -> <-; [|done]. by rewrite (split_first_more _ _ _ rest Hu).
Qed.

(** A path that goes on below a file addresses the file itself, whatever
    follows its name: DELETE of [/notes/a.txt/b] deletes [a.txt], and a PUT
    there writes its bytes over [a.txt], where the parent collection does not
    exist and 404 and 409 are the answers. *)
Theorem path_below_file_is_file path rest r (s : Dav W M) :
  get_member path s = (Ok (Some (MResource r)), s) ->
  get_member (path +:+ String "/" rest) s = (Ok (Some (MResource r)), s) /\
  delete_request (path +:+ String "/" rest) s = (member_remove (MResource r) ;;; sret NO_CONTENT) s /\
  forall rq, put_request on_written rq (path +:+ String "/" rest) s = put_request on_written rq path s.
Proof.
  intros Hm. assert (get_member (path +:+ String "/" rest) s = (Ok (Some (MResource r)), s)) as Hm'.
  { destruct (get_member_split _ _ _ Hm) as [(? & ? & _)|(client & sub & Hp & [c Hc] & Hf)]; [done|].
    destruct (decide (lstrip_slash sub = EmptyString)) as [He|Hne].
    { rewrite He in Hf. unfold sbind in Hf. destruct (new_folder client "/" s) as [[g|] s1]; done. }
    assert (sub <> EmptyString) as Hsub by by intros ->.
    destruct (split_global_more _ _ _ (String "/" rest) Hp Hsub) as [Hp' Hpne].
    unfold get_member. rewrite (bool_decide_eq_false_2 (path +:+ _ = EmptyString)), (bool_decide_eq_false_2 (path +:+ _ = "/"%string)).
    2:{ destruct path as [|x [|y path]]; [done| |by rewrite !str_app_cons]. by rewrite str_app_cons. }
    2:{ by destruct path. }
    cbn [orb]. unfold sbind at 1, slift. rewrite Hp', Hc. unfold sbind in Hf |- *.
    destruct (new_folder client "/" s) as [[g|] s1]; [|done]. rewrite lstrip_more, split_slash_app by done. by apply folder_member_below. }
  split; [done|]. split.
  - unfold delete_request. unfold sbind at 1. by rewrite Hm'.
  - intros rq. unfold put_request, put_target, sbind, slift. destruct (int_of_string _); [|done]. by rewrite Hm, Hm'.
Qed.

(** A PUT that does not announce a length -- a chunked upload -- is
    answered with 201 and its body is thrown away: an existing file stays as
    it was. *)
Theorem put_without_length_loses_body rq path r (s : Dav W M) :
  header "Content-Length" rq = None -> get_member path s = (Ok (Some (MResource r)), s) ->
  put_request on_written rq path s = (Ok CREATED, s).
Proof. intros Hl Hm. unfold put_request, put_target, sbind, slift. rewrite Hl, Hm. done. Qed.

(** ** The paths a listing hands out lead back *)

(** The text between two slashes. *)
Definition segment (c : string) : Prop := c <> EmptyString /\ str_mem "/"%char c = false.

Lemma join_cons c l : l <> [] -> join_slash (c :: l) = (c +:+ String "/" (join_slash l))%string.
Proof. by destruct l. Qed.

Lemma lstrip_segment c s : segment c -> lstrip_slash (c +:+ s) = (c +:+ s)%string.
Proof.
  intros [Hne Hs]. destruct c as [|x c]; [done|]. rewrite str_app_cons. cbn [lstrip_slash str_mem] in *.
  apply orb_false_iff in Hs as [-> _]. done.
Qed.

Lemma join_segments_head c l : exists t, join_slash (c :: l) = (c +:+ t)%string.
Proof. destruct l as [|d l]; [exists EmptyString; by rewrite append_nil_r|]. by eexists. Qed.

Lemma join_segments_last l : Forall segment l -> l <> [] -> exists a n, segment n /\ join_slash l = (a +:+ n)%string.
Proof.
  induction l as [|c [|d l] IH]; intros Hl Hne; [done| |]; inversion Hl; subst.
  - by exists EmptyString, c.
  - destruct IH as (a & n & Hn & Hj); [done..|]. exists (c +:+ String "/" a)%string, n. split; [done|].
    rewrite join_cons, Hj by done. by rewrite append_assoc.
Qed.

Lemma strip_segments l tail :
  Forall segment l -> l <> [] -> tail = EmptyString \/ tail = "/"%string ->
  strip_slash (String "/" (join_slash l +:+ tail)) = join_slash l.
Proof.
  intros Hl Hne Ht. unfold strip_slash. cbn [lstrip_slash]. rewrite bool_decide_eq_true_2 by done.
  destruct l as [|c l]; [done|]. inversion Hl; subst. destruct (join_segments_head c l) as [t Hj].
  rewrite Hj, append_assoc, lstrip_segment, <- append_assoc, <- Hj by done.
  destruct (join_segments_last (c :: l) Hl Hne) as (a & n & [Hn Hs] & ->). destruct Ht as [-> | ->].
  - rewrite append_nil_r. by apply rstrip_ends.
  - rewrite append_assoc. by apply rstrip_app.
Qed.

Definition member_client (m : Member) : string :=
  match m with MRoot _ => EmptyString | MFolder f => fo_client f | MResource r => ro_client r end.
Definition member_rel (m : Member) : string :=
  match m with MRoot _ => "/"%string | MFolder f => fo_path f | MResource r => ro_path r end.
Definition slash_of (m : Member) : string := match m with MResource _ => EmptyString | _ => "/"%string end.

Lemma new_folder_fields client path (s s' : Dav W M) g :
  new_folder client path s = (Ok g, s') -> fo_client g = client /\ fo_path g = path.
Proof.
  unfold new_folder, with_client. destruct (Dict.get client (dv_clients s)) as [c|]; [|done]. unfold sbind at 1.
  match goal with |- context [(if ?b then ?x else ?y) ?z] => destruct ((if b then x else y) z) as [[d|] fs] end; [|done].
  by intros [= <- _].
Qed.

Lemma new_resource_fields client path (s s' : Dav W M) r :
  new_resource client path s = (Ok r, s') -> ro_client r = client /\ ro_path r = path.
Proof.
  unfold new_resource, sbind. destruct (on_gfc client _ s) as [[[]|] s1]; [|done].
  destruct (with_client client _ s1) as [[d|] s2]; [|done]. by intros [= <- _].
Qed.

(** A member is found along the segments of its own path. *)
Lemma folder_member_canonical f parts m (s : Dav W M) :
  Forall (fun c => str_mem "/"%char c = false) parts -> folder_member f parts s = (Ok (Some m), s) ->
  exists cs, Forall segment cs /\ folder_member f cs s = (Ok (Some m), s) /\ member_client m = fo_client f /\
    ((cs = [] /\ m = MFolder f) \/
     (cs <> [] /\ (forall members, m <> MRoot members) /\
      member_rel m = (fo_path f +:+ (join_slash cs +:+ slash_of m))%string)).
Proof.
  revert f. induction parts as [|p parts IH]; intros f Hp; cbn [folder_member].
  - intros [= <-]. exists []. repeat split; [constructor|by left].
  - inversion Hp as [|? ? Hp1 Hps]; subst. destruct (decide (p = EmptyString)) as [->|Hne].
    + rewrite bool_decide_eq_true_2 by done. intros [= <-]. exists []. repeat split; [constructor|by left].
    + rewrite (bool_decide_eq_false_2 (p = EmptyString)) by done.
      destruct (bool_decide (p ∈ fo_sub_files f)) eqn:Hfile.
      * intros Hr. exists [p]. split; [by repeat constructor|]. cbn [folder_member]. rewrite (bool_decide_eq_false_2 (p = EmptyString)), Hfile by done.
        split; [done|]. unfold sbind in Hr. destruct (new_resource _ _ s) as [[r|] s1] eqn:Hn; [|done]. injection Hr as <- _.
        destruct (new_resource_fields _ _ _ _ _ Hn) as [Hc Hq]. split; [done|]. right. split; [done|]. split; [done|].
        cbn [member_rel slash_of]. by rewrite Hq, append_nil_r.
      * destruct (bool_decide (p ∈ fo_sub_folders f)) eqn:Hdir; [|done]. unfold sbind at 1.
        pose proof (silent_new_folder (fo_client f) (sub_path f p +:+ "/") s) as Hs.
        destruct (new_folder _ _ s) as [[g|] s1] eqn:Hn; [|done]. simpl in Hs. subst s1.
        destruct (new_folder_fields _ _ _ _ _ Hn) as [Hc Hq]. intros (cs & Hcs & Hf & Hmc & Hcase)%IH; [|done].
        exists (p :: cs). split; [by constructor|]. cbn [folder_member].
        rewrite (bool_decide_eq_false_2 (p = EmptyString)), Hfile, Hdir by done. unfold sbind at 1. rewrite Hn. split; [done|].
        split; [congruence|]. right. split; [done|]. unfold sub_path in Hq. destruct Hcase as [[-> ->]|(Hcne & Hx & Hrel)].
        -- split; [done|]. cbn [member_rel slash_of folder_member]. rewrite Hq. cbn [join_slash]. by rewrite append_assoc.
        -- split; [done|]. rewrite Hrel, Hq, join_cons by done. by rewrite !append_assoc.
Qed.

Lemma get_member_segments client cs (s : Dav W M) :
  segment client -> Forall segment cs -> is_Some (Dict.get client (dv_clients s)) ->
  get_member (join_slash (client :: cs)) s = (let! root := new_folder client "/" in folder_member root cs) s.
Proof.
  intros Hc Hcs [x Hx]. unfold get_member. destruct (join_segments_head client cs) as [t Ht].
  assert (exists a b, client = String a b /\ bool_decide (a = "/"%char) = false) as (a & b & -> & Ha).
  { destruct Hc as [Hne Hs]. destruct client as [|a b]; [done|]. exists a, b. split; [done|]. cbn [str_mem] in Hs.
    by apply orb_false_iff in Hs as [-> _]. }
  rewrite Ht, str_app_cons. rewrite !bool_decide_eq_false_2; [|intros [= ->]; by rewrite bool_decide_eq_true_2 in Ha|done].
  cbn [orb]. rewrite <- str_app_cons, <- Ht. unfold sbind at 1, slift. clear t Ht.
  assert (split_global_path (join_slash (String a b :: cs)) = Ok (String a b, join_slash cs)) as ->.
  { destruct Hc as [_ Hs]. unfold split_global_path. destruct cs as [|d cs].
    - change (join_slash [String a b]) with (String a b). cbv beta iota zeta. rewrite Ha. change ("/" +:+ String a b)%string with (String "/" (String a b)).
      change (split_first (String "/" (String a b))) with (EmptyString, Some (String a b)). cbv beta iota.
      by rewrite split_first_plain.
    - rewrite join_cons, str_app_cons by done. cbv beta iota zeta. rewrite Ha.
      change ("/" +:+ String a (b +:+ String "/" (join_slash (d :: cs))))%string
        with (String "/" (String a (b +:+ String "/" (join_slash (d :: cs))))).
      rewrite <- str_app_cons. pose proof (split_first_component (String a b) (join_slash (d :: cs)) Hs) as Hp.
      change (split_first (String "/" (String a b +:+ String "/" (join_slash (d :: cs)))))
        with (EmptyString, Some (String a b +:+ String "/" (join_slash (d :: cs)))%string).
      cbv beta iota. by rewrite Hp. }
  rewrite Hx. unfold sbind. destruct (new_folder (String a b) "/" s) as [[g|] s1]; [|done].
  destruct cs as [|d cs]; [done|]. inversion Hcs as [|? ? Hd Hcs']; subst.
  destruct (join_segments_head d cs) as [t Ht]. assert (lstrip_slash (join_slash (d :: cs)) = join_slash (d :: cs)) as ->
    by (rewrite Ht; by apply lstrip_segment).
  rewrite split_join_slash; [done|done|]. eapply Forall_impl; [exact Hcs|]. by intros c [_ ?].
Qed.

(** A member that a request can name. *)
Definition shown (m : Member) (s : Dav W M) : Prop := exists path, get_member path s = (Ok (Some m), s).

Lemma split_first_no_slash b client u : split_first b = (client, u) -> str_mem "/"%char client = false.
Proof.
  revert client u. induction b as [|c b IH]; intros client u; cbn [split_first]; [by intros [= <- _]|].
  destruct (bool_decide _) eqn:Hc; [by intros [= <- _]|]. destruct (split_first b) as [x y]. intros [= <- _].
  cbn [str_mem]. rewrite Hc. cbn [orb]. by eapply IH.
Qed.

(** The segments a member is found along, from the root of its client. *)
Definition along (client : string) (cs : list string) (m : Member) (s : Dav W M) : Prop :=
  segment client /\ Forall segment cs /\ is_Some (Dict.get client (dv_clients s)) /\
  (let! root := new_folder client "/" in folder_member root cs) s = (Ok (Some m), s) /\
  member_path m = String "/" (join_slash (client :: cs) +:+ slash_of m).

Lemma shown_along m (s : Dav W M) :
  shown m s -> Dict.get EmptyString (dv_clients s) = None ->
  (exists members, m = MRoot members /\ get_member EmptyString s = (Ok (Some m), s)) \/ exists client cs, along client cs m s.
Proof.
  intros [path Hm] Hnone. destruct (get_member_split _ _ _ Hm) as [(members & -> & Hp)|(client & sub & Hp & Hc & Hf)].
  - left. exists members. split; [done|]. by destruct Hp as [-> | ->].
  - right. assert (segment client) as Hseg.
    { split; [intros ->; rewrite Hnone in Hc; by destruct Hc|]. unfold split_global_path in Hp. destruct path; [done|].
      destruct (split_first _) as [e [b|]]; [|done]. destruct (split_first b) as [name u] eqn:Hb. injection Hp as -> _.
      by eapply split_first_no_slash. }
    unfold sbind in Hf. pose proof (silent_new_folder client "/" s) as Hs. destruct (new_folder client "/" s) as [[g|] s1] eqn:Hg; [|done].
    simpl in Hs. subst s1. destruct (new_folder_fields _ _ _ _ _ Hg) as [Hgc Hgp].
    destruct (folder_member_canonical g _ m s (split_slash_no_slash _) Hf) as (cs & Hcs & Hfc & Hmc & Hcase).
    exists client, cs. repeat split; try done.
    + by apply Hseg.
    + by apply Hseg.
    + unfold sbind. by rewrite Hg.
    + assert (forall members, m <> MRoot members) as Hnr by (destruct Hcase as [[_ ->]|(_ & ? & _)]; done).
      assert (member_path m = ("/" +:+ member_client m +:+ member_rel m)%string) as -> by (destruct m; [by destruct (Hnr members)|done..]).
      rewrite Hmc, Hgc. change ("/" +:+ client +:+ member_rel m)%string with (String "/" (client +:+ member_rel m)). f_equal.
      destruct Hcase as [[-> ->]|(Hne & _ & ->)].
      * cbn [member_rel slash_of join_slash]. by rewrite Hgp.
      * rewrite Hgp, join_cons by done. by rewrite append_assoc.
Qed.

Lemma along_shown client cs m (s : Dav W M) : along client cs m s -> get_member (join_slash (client :: cs)) s = (Ok (Some m), s).
Proof. intros (Hc & Hcs & Hx & Hm & _). by rewrite get_member_segments. Qed.

Lemma shown_canonical m (s : Dav W M) :
  shown m s -> Dict.get EmptyString (dv_clients s) = None ->
  exists t, member_path m = String "/" t /\ get_member (strip_slash (member_path m)) s = (Ok (Some m), s).
Proof.
  intros Hm Hnone. destruct (shown_along _ _ Hm Hnone) as [(members & -> & Hg)|(client & cs & Ha)].
  - by exists EmptyString.
  - destruct (Ha) as (Hc & Hcs & Hx & _ & ->). eexists. split; [done|]. rewrite strip_segments; [by apply along_shown|by constructor|done|].
    destruct m; [by right|by right|by left].
Qed.

Lemma folder_member_app f cs g more (s : Dav W M) :
  Forall segment cs -> folder_member f cs s = (Ok (Some (MFolder g)), s) -> folder_member f (cs ++ more) s = folder_member g more s.
Proof.
  revert f. induction cs as [|c cs IH]; intros f Hcs; cbn [folder_member app]; [by intros [= ->]|].
  inversion Hcs as [|? ? [Hne _] Hcs']; subst. rewrite (bool_decide_eq_false_2 (c = _)) by done.
  destruct (bool_decide (c ∈ fo_sub_files f)); [unfold sbind; by destruct (new_resource _ _ s) as [[r|] s1]|].
  destruct (bool_decide (c ∈ fo_sub_folders f)); [|done]. unfold sbind.
  pose proof (silent_new_folder (fo_client f) (sub_path f c +:+ "/") s) as Hs.
  destruct (new_folder _ _ s) as [[x|] s1]; [|done]. simpl in Hs. subst s1. by apply IH.
Qed.

Lemma root_members names (s s' : Dav W M) members n f :
  smap (fun name => let! f := new_folder name "/" in sret (name, f)) names s = (Ok members, s') ->
  Dict.get n members = Some f -> n ∈ names /\ new_folder n "/" s = (Ok f, s).
Proof.
  revert members. induction names as [|x names IH]; intros members; cbn [smap]; [by intros [= <- _]|]. unfold sbind.
  pose proof (silent_new_folder x "/" s) as Hs. destruct (new_folder x "/" s) as [[g|] s1] eqn:Hg; [|done]. simpl in Hs. subst s1.
  cbn [sret]. destruct (smap _ names s) as [[l|] s2] eqn:Hl; [|done]. intros [= <- ->]. cbn [Dict.get].
  destruct (decide (n = x)) as [->|Hn]; [intros [= ->]; split; [by left|done]|]. intros Hget.
  destruct (IH l eq_refl Hget). split; [by right|done].
Qed.

(** What a listing shows of a member can be named, too. *)
Lemma shown_child m name m' (s : Dav W M) :
  shown m s -> Dict.get EmptyString (dv_clients s) = None -> segment name ->
  member_of m name s = (Ok (Some m'), s) -> shown m' s.
Proof.
  intros Hm Hnone Hn Hc. pose proof Hn as [Hne Hns]. destruct (shown_along _ _ Hm Hnone) as [(members & -> & Hg)|(client & cs & Ha)].
  - cbn [member_of] in Hc. rewrite bool_decide_eq_false_2 in Hc by done. unfold root_route in Hc.
    rewrite split_first_plain in Hc by done. destruct (Dict.get name members) as [f|] eqn:Hf; [|done].
    change (split_slash (default "" None)) with [EmptyString] in Hc. cbn [folder_member] in Hc. injection Hc as <-.
    unfold get_member in Hg. cbn [orb] in Hg. rewrite bool_decide_eq_true_2 in Hg by done. unfold sbind at 1 in Hg.
    cbn [orb] in Hg. match type of Hg with context [smap ?f ?l s] => destruct (smap f l s) as [[ms|] s1] eqn:Hl end; [|done].
    injection Hg as -> ->. destruct (root_members _ _ _ _ _ _ Hl Hf) as [Hin Hnew]. exists (join_slash [name]). rewrite get_member_segments; [|done|constructor|].
    + unfold sbind. by rewrite Hnew.
    + apply Dict.mem_In in Hin. unfold Dict.mem in Hin. destruct (Dict.get name (dv_clients s)); [by eexists|done].
  - destruct Ha as (Hcl & Hcs & Hx & Hf & _). destruct m as [members|f|r]; [|  |done].
    + exfalso. unfold sbind in Hf. destruct (new_folder client "/" s) as [[g|] s1] eqn:Hg; [|done].
      pose proof (silent_new_folder client "/" s) as Hs. rewrite Hg in Hs. simpl in Hs. subst s1.
      destruct (folder_member_canonical g cs (MRoot members) s) as (? & _ & _ & _ & [[_ ?]|(_ & Hr & _)]); [|done|done|by destruct (Hr members)].
      eapply Forall_impl; [exact Hcs|]. by intros ? [_ ?].
    + exists (join_slash (client :: cs ++ [name])). rewrite get_member_segments; [|done|apply Forall_app; by repeat constructor|done].
      unfold sbind in Hf |- *. destruct (new_folder client "/" s) as [[g|] s1] eqn:Hg; [|done].
      pose proof (silent_new_folder client "/" s) as Hs. rewrite Hg in Hs. simpl in Hs. subst s1.
      rewrite (folder_member_app _ _ _ _ _ Hcs Hf). cbn [member_of] in Hc. by rewrite split_slash_plain in Hc.
Qed.

(** C17: The reference PROPFIND shows for a member, or for a member of a
    folder it lists, leads back to that member: sent as [Destination], as a
    path or as a URL with any host, it is read as the server path it was made
    from -- blanks, umlauts, ["%"], [";"] and ["?"] in names included -- and
    below the mount point that path names the member again. *)
Theorem href_leads_back m name m' host (s : Dav W M) :
  shown m s -> Dict.get EmptyString (dv_clients s) = None ->
  m' = m \/ segment name /\ member_of m name s = (Ok (Some m'), s) ->
  base_path = EmptyString \/ (exists b, base_path = String "/" b) /\ rstrip_slash base_path = base_path ->
  is_str (base_path +:+ member_path m') -> plain_host host = true -> check_netloc host = Ok tt ->
  let href := href_of base_path m' in
  let server_path := (base_path +:+ member_path m')%string in
  extract_path_from_destination check_netloc href = Ok server_path /\
  extract_path_from_destination check_netloc ("http://" +:+ host +:+ href) = Ok server_path /\
  extract_path_from_destination check_netloc ("https://" +:+ host +:+ href) = Ok server_path /\
  get_member (mount_relative base_path server_path) s = (Ok (Some m'), s).
Proof.
  intros Hm Hnone Hm' Hbase Hstr Hhost Hcheck href server_path.
  assert (shown m' s) as Hs by (destruct Hm' as [->|[? ?]]; [done|by eapply shown_child]).
  destruct (shown_canonical _ _ Hs Hnone) as (t & Ht & Hget).
  assert (exists u, server_path = String "/" u) as [u Hu].
  { unfold server_path. rewrite Ht. destruct Hbase as [-> |[[b ->] _]]; by eexists. }
  assert (href = String "/" (quote u)) as Hq by (unfold href, href_of; fold server_path; by rewrite Hu).
  assert (unquote href = server_path) as Hun by (unfold href, href_of; fold server_path; by apply unquote_quote).
  unfold extract_path_from_destination. repeat split.
  - by rewrite Hun, Hq.
  - rewrite starts_with_append, Hq, url_path_quoted by done. cbn [rbind]. by rewrite <- Hq, Hun.
  - change (starts_with "http://" ("https://" +:+ host +:+ href)) with false. cbv iota.
    rewrite starts_with_append, Hq, url_path_quoted by done. cbn [rbind]. by rewrite <- Hq, Hun.
  - unfold mount_relative. rewrite <- Hget. f_equal. destruct Hbase as [Hb|[[b Hb] Hr]].
    + unfold server_path. rewrite Hb. done.
    + rewrite Hr. rewrite (bool_decide_eq_false_2 (base_path = EmptyString)) by by rewrite Hb. cbn [negb andb].
      assert (starts_with (base_path +:+ "/") server_path = true) as ->.
      { unfold server_path. rewrite Ht. change (String "/" t) with ("/" +:+ t)%string. rewrite <- append_assoc. apply starts_with_append. }
      rewrite orb_true_r. unfold server_path. by rewrite substring_after.
Qed.

(** ** COPY and MOVE between two file systems *)

Lemma below_head x y : below x y = true -> head (split_slash x) = head (split_slash y).
Proof.
  unfold below. intros [->%bool_decide_eq_true|(u & ->)%starts_with_split]%orb_true_iff; [done|].
  rewrite append_assoc. change ("/" +:+ u)%string with (String "/" u). rewrite split_slash_app.
  pose proof (split_slash_nonnil y). by destruct (split_slash y).
Qed.

Lemma segments_plain cs : Forall segment cs -> Forall (fun c => str_mem "/"%char c = false) cs.
Proof. intros Hc. eapply Forall_impl; [exact Hc|]. by intros c [_ ?]. Qed.

Lemma split_segments c cs : segment c -> Forall segment cs -> split_slash (join_slash (c :: cs)) = c :: cs.
Proof. intros Hc Hcs. apply split_join_slash; [done|]. constructor; [by destruct Hc|by apply segments_plain]. Qed.

Lemma strip_segments_bare c cs : segment c -> Forall segment cs -> strip_slash (join_slash (c :: cs)) = join_slash (c :: cs).
Proof.
  intros Hc Hcs. pose proof (strip_segments (c :: cs) "" ltac:(by constructor) ltac:(done) (or_introl eq_refl)) as Hs.
  rewrite append_nil_r in Hs. unfold strip_slash in *. cbn [lstrip_slash] in Hs. by rewrite bool_decide_eq_true_2 in Hs.
Qed.

(** A change of one client leaves the others alone. *)
Lemma with_client_other {A} name (m : ApiConfig -> st exn (Fs W M) A) other (s : Dav W M) :
  other <> name -> Dict.get other (dv_clients (with_client name m s).2) = Dict.get other (dv_clients s).
Proof.
  intros Hne. unfold with_client. destruct (Dict.get name (dv_clients s)) as [c|]; [|done]. destruct (m _ _) as [r fs].
  cbn [snd dv_clients with_dv_clients]. by rewrite Dict.get_set_ne.
Qed.

Lemma on_gfc_clients name m (s : Dav W M) : dv_clients (on_gfc name m s).2 = dv_clients s.
Proof. unfold on_gfc. destruct (Dict.get name (dv_caches s)) as [c|]; [|done]. by destruct (m c). Qed.

Lemma remove_other m other (s s' : Dav W M) :
  other <> member_client m -> member_remove m s = (Ok tt, s') -> Dict.get other (dv_clients s') = Dict.get other (dv_clients s).
Proof.
  intros Hne Hr. replace s' with (member_remove m s).2 by by rewrite Hr.
  destruct m as [members|f|r]; cbn [member_remove member_client] in *; [done|..];
    unfold sbind; match goal with |- context [on_gfc ?n ?g s] => pose proof (on_gfc_clients n g s) as Hc; destruct (on_gfc n g s) as [[u|] s1] end;
    simpl in Hc; try (cbn [snd]; by rewrite Hc); rewrite with_client_other by done; by rewrite Hc.
Qed.

(** The directory of a path into another client is not there. *)
Lemma foreign_dir b cs (fs : Fs W M) :
  Forall segment (b :: cs) -> cs <> [] ->
  (forall root, fs_root fs = Some root -> find_dirs (fs_heap fs) root ["webdav"%string] = []) ->
  refuses (cd (dirname (String "/" (join_slash ("webdav"%string :: b :: cs))))) fs.
Proof.
  intros Hcs Hne Hno.
  assert (exists l, dirname (String "/" (join_slash ("webdav"%string :: b :: cs))) = String "/" (join_slash ("webdav"%string :: b :: l)) /\ Forall segment l)
    as (l & -> & Hl).
  { destruct (exists_last Hne) as (l & x & ->). exists l. apply Forall_cons in Hcs as [Hb Hcs]. apply Forall_app in Hcs as [Hl [Hx _]%Forall_cons].
    split; [|done]. assert (forall q p, Forall segment (q :: p) -> join_slash ((q :: p) ++ [x]) = (join_slash (q :: p) +:+ String "/" x)%string) as Hj.
    { clear. intros q p. revert q. induction p as [|y p IH]; intros q Hp; [done|]. inversion Hp; subst.
      change ((q :: y :: p) ++ [x]) with (q :: ((y :: p) ++ [x])). rewrite join_cons, IH, (join_cons q (y :: p)), append_assoc by done. done. }
    assert (Forall segment ("webdav"%string :: b :: l)) as Hall by (constructor; [by split|by constructor]).
    change ("webdav"%string :: b :: l ++ [x]) with (("webdav"%string :: b :: l) ++ [x]). rewrite Hj by done.
    destruct (join_segments_last _ Hall ltac:(done)) as (u & n & [Hn1 Hn2] & ->).
    change (String "/" ((u +:+ n) +:+ String "/" x)) with ((String "/" u +:+ n) +:+ String "/" x)%string.
    destruct (dirname_join (String "/" u) n x Hn2 Hn1) as [-> _]; [by destruct Hx|]. done. }
  unfold refuses, cd, sbind, get_root_directory, the_heap, slift. destruct (fs_root fs) as [root|] eqn:Hr; [|by eexists].
  change (String "/" (join_slash ("webdav"%string :: b :: l))) with ("" +:+ String "/" (join_slash ("webdav"%string :: b :: l)))%string.
  assert (segment "webdav") as Hw by by split. apply Forall_cons in Hcs as [Hb _].
  rewrite split_slash_app, split_segments by (done || by constructor). cbn [split_slash app cd_loop].
  rewrite (bool_decide_eq_false_2 (EmptyString = ".."%string)), (bool_decide_eq_true_2 (EmptyString = EmptyString)), orb_true_r by done.
  rewrite !(bool_decide_eq_false_2 ("webdav"%string = _)) by done. cbn [orb need rbind].
  eexists. unfold find_dir. rewrite (Hno _ eq_refl). done.
Qed.

Lemma refuses_with_client {A} name (m : ApiConfig -> st exn (Fs W M) A) c (s : Dav W M) :
  Dict.get name (dv_clients s) = Some c -> refuses (m (cl_api c)) (cl_fs c) -> refuses (with_client name m) s.
Proof.
  intros Hc [ex He]. exists ex. unfold with_client. rewrite Hc, He. destruct c as [ac fs]. cbn [cl_api cl_fs] in *.
  rewrite dict_set_same by done. by destruct s.
Qed.

Lemma silent_named_file path : silent (named_file (W := W) (M := M) path).
Proof.
  unfold named_file, at_dir. apply silent_bind; [apply silent_bind; auto with silent|]. intros d. apply silent_bind; auto with silent.
Qed.

(** A path of another client, as a resource is told it. *)
Definition foreign (b : string) (cs : list string) : string := String "/" (join_slash ("webdav"%string :: b :: cs)).

Lemma strip_foreign a b cs : segment a -> segment b -> cs <> [] -> a <> b -> strip_webdav_prefix (foreign b cs) a = foreign b cs.
Proof.
  intros [_ Ha] [_ Hb] Hne Hab. unfold strip_webdav_prefix, foreign. rewrite !join_cons by done.
  change (String "/" ("webdav" +:+ String "/" (b +:+ String "/" (join_slash cs))))
    with ("/webdav/" +:+ (b +:+ String "/" (join_slash cs)))%string.
  assert (forall u v w : string, (u +:+ v = u +:+ w)%string -> v = w) as Hinj.
  { clear. intros u v w. induction u as [|c u IH]; [done|]. rewrite !str_app_cons. intros [= Heq]. by apply IH. }
  assert (forall u v t : string, str_mem "/"%char u = false -> str_mem "/"%char v = false ->
            (u +:+ String "/" t)%string = v -> False) as Hmem.
  { clear. intros u v t Hu Hv <-. rewrite str_mem_app in Hv. cbn in Hv. by rewrite orb_true_r in Hv. }
  rewrite bool_decide_eq_false_2 by (intros Heq; apply Hinj in Heq; by eapply Hmem; [exact Hb|exact Ha|]).
  destruct (starts_with _ _) eqn:Hst; [|done]. exfalso. apply starts_with_split in Hst as [u Hu].
  rewrite !append_assoc in Hu. apply Hinj in Hu.
  apply (f_equal (fun t => head (split_slash t))) in Hu. change ("/" +:+ u)%string with (String "/" u) in Hu.
  rewrite !split_slash_head in Hu by done. cbn in Hu. congruence.
Qed.

(** Moving or copying a resource there raises, and changes no file system. *)
Lemma send_foreign r b cs c (moving : bool) (s : Dav W M) :
  segment (ro_client r) -> Forall segment (b :: cs) -> cs <> [] -> ro_client r <> b ->
  Dict.get (ro_client r) (dv_clients s) = Some c ->
  (forall root, fs_root (cl_fs c) = Some root -> find_dirs (fs_heap (cl_fs c)) root ["webdav"%string] = []) ->
  let go : dst unit := if moving then member_move_to (MResource r) (foreign b cs) else member_copy_to on_written (MResource r) (foreign b cs) in
  exists (ex : exn) (s' : Dav W M), go s = (Raise ex, s') /\ dv_clients s' = dv_clients s.
Proof.
  intros Ha Hcs Hne Hab Hc Hno go. pose proof (foreign_dir b cs (cl_fs c) Hcs Hne Hno) as Hcd.
  assert (segment b) as Hb by (by apply Forall_cons in Hcs as [? _]).
  assert (refuses (mv_file (cl_api c) (ro_path r) (foreign b cs)) (cl_fs c)) as Hmv.
  { unfold mv_file. apply refuses_bind; [apply silent_lift|]. intros [] _. apply refuses_bind; [apply silent_named_file|]. intros fr _.
    apply refuses_first. unfold at_dir. by apply refuses_first. }
  assert (refuses (cp_file (cl_api c) on_written (ro_path r) (foreign b cs)) (cl_fs c)) as Hcp.
  { unfold cp_file. apply refuses_bind; [apply silent_lift|]. intros [] _. apply refuses_bind; [apply silent_named_file|]. intros fr _.
    by apply refuses_first. }
  assert (forall s1 : Dav W M, dv_clients s1 = dv_clients s ->
    exists (ex : exn) (s' : Dav W M), with_client (ro_client r) (fun ac =>
      if moving then let! _ := mv_file ac (ro_path r) (foreign b cs) in sret tt
      else let! _ := cp_file ac on_written (ro_path r) (foreign b cs) in sret tt) s1 = (Raise ex, s') /\ dv_clients s' = dv_clients s) as Hlast.
  { intros s1 Hs1. destruct (refuses_with_client (ro_client r) (fun ac =>
      if moving then let! _ := mv_file ac (ro_path r) (foreign b cs) in sret tt
      else let! _ := cp_file ac on_written (ro_path r) (foreign b cs) in sret tt) c s1) as [ex He]; [by rewrite Hs1| |].
    - destruct moving; by apply refuses_first.
    - by exists ex, s1. }
  subst go. destruct moving; cbn [member_move_to member_copy_to]; rewrite strip_foreign by done; unfold sbind at 1;
    pose proof (on_gfc_clients (ro_client r)) as Hoc.
  - specialize (Hoc (reset_parent (ro_path r)) s). destruct (on_gfc _ (reset_parent (ro_path r)) s) as [[[]|ex] s1]; simpl in Hoc; [|by exists ex, s1].
    unfold sbind at 1. pose proof (on_gfc_clients (ro_client r) (reset_parent (foreign b cs)) s1) as Hoc2.
    destruct (on_gfc _ _ s1) as [[[]|ex] s2]; simpl in Hoc2; [|exists ex, s2; split; [done|congruence]]. apply Hlast. congruence.
  - specialize (Hoc (reset_parent (foreign b cs)) s). destruct (on_gfc _ _ s) as [[[]|ex] s1]; simpl in Hoc; [|by exists ex, s1].
    by apply Hlast.
Qed.

Lemma mount_foreign b cs : segment b -> Forall segment cs -> mount_relative "/webdav" (foreign b cs) = join_slash (b :: cs).
Proof.
  intros Hb Hcs. unfold mount_relative. change (rstrip_slash "/webdav") with "/webdav"%string.
  change (bool_decide ("/webdav"%string = EmptyString)) with false. cbn [negb andb].
  assert (foreign b cs = ("/webdav" +:+ String "/" (join_slash (b :: cs)))%string) as ->.
  { unfold foreign. by rewrite join_cons. }
  assert (starts_with ("/webdav" +:+ "/") ("/webdav" +:+ String "/" (join_slash (b :: cs))) = true) as ->.
  { change (String "/" (join_slash (b :: cs))) with ("/" +:+ join_slash (b :: cs))%string. rewrite <- append_assoc. apply starts_with_append. }
  rewrite orb_true_r, substring_after. pose proof (strip_segments (b :: cs) "") as Hs. rewrite append_nil_r in Hs.
  apply Hs; [by constructor|done|by left].
Qed.

Lemma member_client_of client cs m (s : Dav W M) :
  segment client -> Forall segment cs -> is_Some (Dict.get client (dv_clients s)) ->
  get_member (join_slash (client :: cs)) s = (Ok (Some m), s) -> member_client m = client.
Proof.
  intros Hc Hcs Hx. rewrite get_member_segments by done. unfold sbind.
  pose proof (silent_new_folder client "/" s) as Hs. destruct (new_folder client "/" s) as [[g|] s1] eqn:Hg; [|done].
  simpl in Hs. subst s1. destruct (new_folder_fields _ _ _ _ _ Hg) as [<- _]. intros Hf.
  by destruct (folder_member_canonical g cs m s (segments_plain _ Hcs) Hf) as (? & _ & _ & -> & _).
Qed.

(** C21: COPY and MOVE of a file onto one in another file system lose the
    target.  The existing file is deleted first; then the destination, which
    only the source's own client prefix would have been cut off from, is
    looked up in the source's file system, where there is no [/webdav], and
    the request fails: what is left is what deleting the target left. *)
Theorem cross_client_transfer_loses_target rq d a csa b csb r ca existing (moving : bool) (s s1 : Dav W M) :
  Forall segment (a :: csa) -> Forall segment (b :: csb) -> csb <> [] -> a <> b ->
  header "Destination" rq = Some d -> d <> EmptyString -> keep_target rq = false ->
  extract_path_from_destination check_netloc d = Ok (foreign b csb) ->
  get_member (join_slash (a :: csa)) s = (Ok (Some (MResource r)), s) ->
  Dict.get a (dv_clients s) = Some ca -> is_Some (Dict.get b (dv_clients s)) ->
  (forall root, fs_root (cl_fs ca) = Some root -> find_dirs (fs_heap (cl_fs ca)) root ["webdav"%string] = []) ->
  folder_at (split_parent (join_slash (b :: csb))).1 s = (Ok true, s) ->
  get_member (join_slash (b :: csb)) s = (Ok (Some existing), s) ->
  member_remove existing s = (Ok tt, s1) ->
  exists (ex : exn) (s2 : Dav W M),
    transfer on_written check_netloc "/webdav" rq (join_slash (a :: csa)) moving s = (Raise ex, s2) /\ dv_clients s2 = dv_clients s1.
Proof.
  intros [Ha Hcsa]%Forall_cons [Hb Hcsb]%Forall_cons Hne Hab Hd Hdne Hkeep Hdest Hm Hca Hcb Hno Hparent Hex Hrm.
  assert (ro_client r = a) as Hra by (by eapply (member_client_of a csa (MResource r) s); [| |rewrite Hca; eexists|]).
  assert (member_client existing = b) as Heb by (by eapply (member_client_of b csb existing s)).
  assert (below (join_slash (a :: csa)) (join_slash (b :: csb)) = false) as Hb1.
  { apply not_true_iff_false. intros Hw%below_head. rewrite !split_segments in Hw by done. simpl in Hw. congruence. }
  assert (below (join_slash (b :: csb)) (join_slash (a :: csa)) = false) as Hb2.
  { apply not_true_iff_false. intros Hw%below_head. rewrite !split_segments in Hw by done. simpl in Hw. congruence. }
  destruct (send_foreign r b csb ca moving s1) as (ex & s2 & Hgo & Hs2).
  { by rewrite Hra. }
  { by constructor. }
  { done. }
  { by rewrite Hra. }
  { rewrite Hra, <- Hca. eapply remove_other; [|exact Hrm]. by rewrite Heb. }
  { done. }
  exists ex, s2. split; [|done]. unfold transfer. rewrite Hd. destruct d as [|x d]; [done|].
  unfold sbind at 1. rewrite Hm. unfold sbind at 1, slift. rewrite Hdest, mount_foreign, strip_segments_bare by done.
  rewrite bool_decide_eq_false_2; [|intros Heq; unfold below in Hb1; by rewrite bool_decide_eq_true_2 in Hb1].
  rewrite Hb1, Hb2. unfold sbind at 1. rewrite Hparent. cbn [negb]. unfold sbind at 1. rewrite Hex, Hkeep.
  unfold sbind at 1. rewrite Hrm. unfold sbind at 1. by rewrite Hgo.
Qed.

(** ** PROPPATCH reports every property once *)

(** The statuses an update of a member may be reported with. *)
Definition verdict (folder : bool) (u : PropertyUpdate) (status : Z) : Prop :=
  if bool_decide (pu_tag u ∈ ACCEPTED_TAGS) then status = 200
  else if bool_decide (pu_tag u ∈ LAST_MODIFIED_TAGS) then
    if pu_remove u then status = 403 else status = 403 \/ status = 409 \/ (status = 200 /\ folder = false)
  else if bool_decide (pu_tag u ∈ PROTECTED_TAGS) then status = 403
  else status = if pu_remove u then 200 else 403.

(** The tags reported with a status, in the order of the request. *)
Fixpoint tags_with (status : Z) (us : list PropertyUpdate) (statuses : list Z) : list string :=
  match us, statuses with
  | u :: us, x :: statuses => (if bool_decide (x = status) then [pu_tag u] else []) ++ tags_with status us statuses
  | _, _ => []
  end.

Lemma apply_property_spec m u (s s' : Dav W M) status m' :
  apply_property m u s = (Ok (status, m'), s') -> verdict (is_folder m) u status /\ is_folder m' = is_folder m.
Proof.
  unfold apply_property, verdict. destruct (bool_decide (_ ∈ ACCEPTED_TAGS)); [by intros [= <- <- _]|].
  destruct (bool_decide (_ ∈ LAST_MODIFIED_TAGS)).
  - destruct (pu_remove u); [by intros [= <- <- _]|]. unfold stry, sbind, slift.
    assert (forall ex (s1 : Dav W M), (if bool_decide (ex = NotImplementedError) then sret (403, m)
              else if is_ValueError ex then sret (409, m) else sraise ex) s1 = (Ok (status, m'), s') ->
            (status = 403 \/ status = 409 \/ (status = 200 /\ is_folder m = false)) /\ is_folder m' = is_folder m) as Hex.
    { intros ex s1. case_bool_decide; [intros [= <- <- _]; auto|]. destruct (is_ValueError ex); [intros [= <- <- _]; auto|done]. }
    destruct (parse_http_date _) as [t|ex]; [|apply Hex].
    destruct m as [members|f|r]; [exact (Hex NotImplementedError s)..|]. cbn [member_set_last_modified]. unfold sbind at 1.
    destruct (on_gfc _ _ s) as [[[]|ex] s1]; [|apply Hex]. unfold sbind at 1.
    destruct (with_client _ _ s1) as [[[]|ex] s2]; [|apply Hex]. intros [= <- <- _]. by auto.
  - destruct (bool_decide (_ ∈ PROTECTED_TAGS)); intros [= <- <- _]; done.
Qed.

Lemma apply_updates_spec m us by_status by' (s s' : Dav W M) :
  apply_updates m us by_status s = (Ok by', s') -> Dict.wf by_status ->
  exists statuses, Forall2 (verdict (is_folder m)) us statuses /\ Dict.wf by' /\
    (forall x, x ∈ Dict.keys by' <-> x ∈ Dict.keys by_status \/ x ∈ statuses) /\
    forall x, default [] (Dict.get x by') = default [] (Dict.get x by_status) ++ tags_with x us statuses.
Proof.
  clear check_netloc base_path. revert m by_status s. induction us as [|u us IH]; intros m b s; cbn [apply_updates].
  - intros [= <- _] Hwf. exists []. split; [constructor|]. split; [done|]. split; [|intros x; by rewrite app_nil_r].
    intros x. split; [by left|]. by intros [?|?%not_elem_of_nil].
  - unfold sbind. destruct (apply_property m u s) as [[[status m']|] s1] eqn:Ha; [|done].
    destruct (apply_property_spec _ _ _ _ _ _ Ha) as [Hv Hm]. intros Hrest Hwf.
    destruct (IH m' _ s1 Hrest (Dict.wf_set _ _ _ Hwf)) as (l & Hl & Hwf' & Hk & Ht). exists (status :: l).
    split; [constructor; [done|by rewrite <- Hm]|]. split; [done|]. split.
    + intros x. rewrite Hk, Dict.keys_set, elem_of_cons. destruct (Dict.mem status b) eqn:Hmem.
      * apply Dict.mem_In in Hmem. naive_solver.
      * rewrite elem_of_app, list_elem_of_singleton. tauto.
    + intros x. rewrite Ht. cbn [tags_with]. destruct (decide (x = status)) as [->|Hx].
      * rewrite Dict.get_set_eq, bool_decide_eq_true_2 by done. cbn [from_option id]. by rewrite app_assoc.
      * rewrite Dict.get_set_ne, bool_decide_eq_false_2 by congruence. done.
Qed.

(** The answer to a PROPPATCH reports every update of the request exactly
    once, under one status -- 200 only for what was stored or needs no
    storing, 403 for what the server computes itself or a folder cannot keep,
    409 for a date it cannot read -- with the statuses in ascending order and
    the tags of a status in the order of the request. *)
Theorem proppatch_reports_each m us x (s s' : Dav W M) :
  proppatch base_path m us s = (Ok x, s') ->
  exists statuses order, Forall2 (verdict (is_folder m)) us statuses /\
    NoDup order /\ Sorted Z.le order /\ (forall n, n ∈ order <-> n ∈ statuses) /\
    x = XElem (_tag "multistatus") None
          [XElem (_tag "response") None
             (XElem (_tag "href") (Some (href_of base_path m)) []
              :: map (fun n => XElem (_tag "propstat") None
                                 [XElem (_tag "prop") None (map (fun tag => XElem tag None []) (tags_with n us statuses));
                                  XElem (_tag "status") (Some ("HTTP/1.1 " +:+ pretty n +:+ " " +:+ phrase n)%string) []]) order)].
Proof.
  unfold proppatch, sbind. destruct (apply_updates m us [] s) as [[b|] s1] eqn:Ha; [|done]. intros [= <- _].
  destruct (apply_updates_spec _ _ _ _ _ _ Ha) as (statuses & Hv & Hwf & Hk & Ht); [constructor|].
  pose proof (merge_sort_Permutation Z.le (Dict.keys b)) as Hp.
  exists statuses, (merge_sort Z.le (Dict.keys b)). split; [done|]. split; [by rewrite Hp|]. split; [apply Sorted_merge_sort; apply _|].
  split.
  - intros n. rewrite Hp, Hk. cbn. split; [by intros [?%not_elem_of_nil|?]|by right].
  - do 3 f_equal. f_equal. apply map_ext. intros n. unfold status_elem. rewrite Ht. done.
Qed.

(** ** Ranges *)

(** A suffix range is misread: [bytes=-n], which asks for the last [n]
    bytes, is answered in every respect like [bytes=0-n], with the first
    [n + 1] bytes, and declared as those. *)
Theorem suffix_range_is_prefix n rq rq' path (s : Dav W M) :
  header "Range" rq = Some ("bytes=-" +:+ n)%string -> header "Range" rq' = Some ("bytes=0-" +:+ n)%string ->
  get_request rq path s = get_request rq' path s.
Proof.
  intros Hr Hr'. unfold get_request. rewrite Hr, Hr'. unfold parse_range.
  change (strip_prefix "bytes=" ("bytes=-" +:+ n)) with (Some (String "-" n)).
  change (strip_prefix "bytes=" ("bytes=0-" +:+ n)) with (Some (String "0" (String "-" n))). cbn [str_mem split_dash].
  rewrite !(bool_decide_eq_true_2 ("-"%char = "-"%char)) by done. cbn [orb]. rewrite orb_true_r.
  by rewrite (bool_decide_eq_false_2 ("0"%char = "-"%char)).
Qed.

(** ** A collection that was made is there *)

(** Where names lead in a tree when files hide directories of their name. *)
Fixpoint walk (h : heap) (d : nat) (cs : list string) : option nat :=
  match cs with
  | [] => Some d
  | c :: cs =>
      if bool_decide (c ∈ map (name_of h) (find_files h d [])) then None
      else match find_dir h d c with Ok e => walk h e cs | Raise _ => None end
  end.

(** The folder object of a directory. *)
Definition folder_obj (h : heap) (client path : string) (d : nat) : FolderObj :=
  {| fo_client := client; fo_path := path; fo_dir := d;
     fo_sub_folders := remove_dups (map (fun c => d_name (dir_at h c)) (find_dirs h d []));
     fo_sub_files := remove_dups (map (name_of h) (find_files h d [])) |}.

(** The path of the folder below the root along [cs]. *)
Definition folder_path (cs : list string) : string :=
  match cs with [] => "/"%string | _ => String "/" (join_slash cs +:+ "/") end.

Lemma join_snoc c cs x : join_slash ((c :: cs) ++ [x]) = (join_slash (c :: cs) +:+ String "/" x)%string.
Proof.
  revert c. induction cs as [|y cs IH]; intros c; [done|]. change ((c :: y :: cs) ++ [x]) with (c :: ((y :: cs) ++ [x])).
  rewrite join_cons, IH, (join_cons c (y :: cs)), append_assoc by done. done.
Qed.

Lemma folder_path_snoc cs x : folder_path (cs ++ [x]) = (folder_path cs +:+ x +:+ "/")%string.
Proof.
  destruct cs as [|c cs]; [done|]. unfold folder_path at 2. cbn [app folder_path]. change (c :: cs ++ [x]) with ((c :: cs) ++ [x]).
  rewrite join_snoc. rewrite str_app_cons, !append_assoc. done.
Qed.

Lemma cd_blank h o l : cd_loop h o (EmptyString :: l) = cd_loop h o l.
Proof. done. Qed.

Lemma cd_folder_path h root cs :
  Forall segment cs -> cd_loop h (Some root) (split_slash (folder_path cs)) = cd_loop h (Some root) cs.
Proof.
  intros Hcs. destruct cs as [|c cs]; [done|]. unfold folder_path.
  change (String "/" (join_slash (c :: cs) +:+ "/")) with ("" +:+ String "/" (join_slash (c :: cs) +:+ String "/" ""))%string.
  inversion Hcs; subst. rewrite !split_slash_app, split_segments by done. cbn [split_slash app]. rewrite cd_blank.
  change (c :: cs ++ [""%string]) with ((c :: cs) ++ [""%string]). rewrite cd_loop_app.
  by destruct (cd_loop h (Some root) (c :: cs)) as [o|].
Qed.

Lemma find_dir_names h d c : (exists e, find_dir h d c = Ok e) <-> c ∈ map (fun x => d_name (dir_at h x)) (find_dirs h d []).
Proof.
  change (find_dirs h d []) with (children (dir_at h d)). change (fun x => d_name (dir_at h x)) with (dir_name h).
  unfold find_dir. pose proof (find_dirs_none h d c) as Hn. destruct (find_dirs h d [c]) as [|e l] eqn:Hf.
  - split; [by intros [? ?]|]. intros Hin. by destruct (proj1 Hn eq_refl).
  - split; [intros _|by eexists]. destruct (decide (c ∈ map (dir_name h) (children (dir_at h d)))) as [?|Hni]; [done|].
    apply Hn in Hni. by rewrite Hni in Hf.
Qed.

Section Walk.
  Context (client : string) (c : FsClient W M) (root : nat).
  Local Abbreviation h := (fs_heap (cl_fs c)).
  Context (s : Dav W M) (Hc : Dict.get client (dv_clients s) = Some c) (Hroot : fs_root (cl_fs c) = Some root).

Lemma new_folder_run cs d :
  Forall segment cs -> cd_loop h (Some root) cs = Ok (Some d) ->
  new_folder client (folder_path cs) s = (Ok (folder_obj h client (folder_path cs) d), s).
Proof.
  intros Hcs Hcd. unfold new_folder, with_client. rewrite Hc. unfold sbind at 1. destruct c as [ac fs]. cbn [cl_fs cl_api] in *.
  assert ((if bool_decide (folder_path cs = "/"%string) then get_root_directory
           else let! d := cd (folder_path cs) in slift (need d)) fs = (Ok d, fs)) as ->.
  { case_bool_decide as Hp.
    - destruct cs as [|x cs]; [|exfalso; unfold folder_path in Hp; by destruct (join_slash (x :: cs))].
      injection Hcd as <-. unfold get_root_directory. by rewrite Hroot.
    - unfold cd, sbind, get_root_directory, the_heap, slift. rewrite Hroot, cd_folder_path, Hcd by done. done. }
  unfold sbind, the_heap, sret. rewrite dict_set_same by done. by destruct s.
Qed.

Lemma new_root_run : new_folder client "/" s = (Ok (folder_obj h client "/" root), s).
Proof. by apply (new_folder_run [] root). Qed.

(** The walk of the members follows the tree. *)
Lemma folder_member_walk pre cs d :
  Forall segment pre -> Forall segment cs -> Forall plain_name cs -> cd_loop h (Some root) pre = Ok (Some d) ->
  (forall e, walk h d cs = Some e ->
     cd_loop h (Some root) (pre ++ cs) = Ok (Some e) /\
     folder_member (folder_obj h client (folder_path pre) d) cs s
       = (Ok (Some (MFolder (folder_obj h client (folder_path (pre ++ cs)) e))), s)) /\
  (forall f, folder_member (folder_obj h client (folder_path pre) d) cs s = (Ok (Some (MFolder f)), s) -> is_Some (walk h d cs)).
Proof.
  revert pre d. induction cs as [|x cs IH]; intros pre d Hpre Hcs Hplain Hcd.
  - cbn [walk folder_member]. rewrite app_nil_r. split; [by intros e [= <-]|]. intros f _. by eexists.
  - apply Forall_cons in Hcs as [Hx Hcs], Hplain as [Hpx Hplain]. pose proof Hx as [Hne _]. cbn [walk folder_member].
    rewrite (bool_decide_eq_false_2 (x = EmptyString)) by done. cbn [fo_sub_files fo_sub_folders fo_client folder_obj].
    rewrite (bool_decide_ext (x ∈ remove_dups (map (name_of h) _)) (x ∈ map (name_of h) (find_files h d []))) by apply elem_of_remove_dups.
    case_bool_decide as Hfile; [split; [done|]; intros f; unfold sbind; by destruct (new_resource _ _ s) as [[r|] s1]|].
    destruct (find_dir h d x) as [e|ex] eqn:Hf.
    + rewrite (bool_decide_eq_true_2 (x ∈ _)) by (rewrite elem_of_remove_dups; apply find_dir_names; by eexists). unfold sub_path. cbn [fo_path folder_obj].
      assert (cd_loop h (Some root) (pre ++ [x]) = Ok (Some e)) as Hcd'.
      { rewrite cd_loop_app, Hcd. cbn [rbind]. rewrite cd_step by done. by rewrite Hf. }
      assert (Forall segment (pre ++ [x])) as Hpre' by (apply Forall_app; split; [done|by constructor]).
      unfold sbind. rewrite append_assoc, <- folder_path_snoc. rewrite (new_folder_run _ _ Hpre' Hcd').
      destruct (IH (pre ++ [x]) e Hpre' Hcs Hplain Hcd') as [IH1 IH2]. rewrite <- app_assoc in IH1. split; [exact IH1|exact IH2].
    + rewrite (bool_decide_eq_false_2 (x ∈ _)); [by split|]. rewrite elem_of_remove_dups, <- find_dir_names, Hf. by intros [? ?].
Qed.

End Walk.

Lemma walk_app h d a b : walk h d (a ++ b) = match walk h d a with Some e => walk h e b | None => None end.
Proof.
  revert d. induction a as [|x a IH]; intros d; [done|]. cbn [walk app]. destruct (bool_decide _); [done|].
  destruct (find_dir h d x); [apply IH|done].
Qed.

Section NewDirWalk.
  Context (t : datetime) (h : heap) (u : nat) (name : string) (Hwf : wf h) (Hu : is_Some (h_dirs h !! u)).
  Local Abbreviation h' := (with_new_dir t u (dir_at h u) name h).

Lemma find_files_new_dir e : is_Some (h_dirs h !! e) -> map (name_of h') (find_files h' e []) = map (name_of h) (find_files h e []).
Proof.
  intros He. change (name_of h') with (name_of h). f_equal. unfold find_files.
  assert (files (dir_at h' e) = files (dir_at h e)) as ->; [|done]. unfold with_new_dir. rewrite dir_at_put.
  destruct (decide (u = e)) as [->|Hne]; [done|]. pose proof (exists_not_fresh h Hwf e He). unfold dir_at, alloc_dir. cbn [h_dirs].
  by rewrite lookup_insert_ne.
Qed.

Lemma walk_after d cs e : is_Some (h_dirs h !! d) -> walk h d cs = Some e -> walk h' d cs = Some e /\ is_Some (h_dirs h !! e).
Proof.
  revert d. induction cs as [|x cs IH]; intros d Hd; cbn [walk]; [by intros [= <-]|]. rewrite find_files_new_dir by done.
  destruct (bool_decide _); [done|]. destruct (find_dir h d x) as [y|] eqn:Hf; [|done].
  rewrite (find_dir_after t h u _ name Hwf (dir_at_lookup _ _ Hu) d x y Hd Hf). apply IH. by eapply find_dir_exists.
Qed.

Lemma walk_new : name ∉ map (name_of h) (find_files h u []) -> find_dirs h u [name] = [] -> walk h' u [name] = Some (h_fresh h).
Proof.
  intros Hf Hd. cbn [walk]. rewrite find_files_new_dir, bool_decide_eq_false_2 by done. unfold find_dir.
  rewrite (find_dirs_after t h u _ name Hwf (dir_at_lookup _ _ Hu) u name Hu), Hd, bool_decide_eq_true_2 by done. done.
Qed.
End NewDirWalk.

Lemma substring_before a x : String.substring 0 (String.length (a +:+ String x "") - 1) (a +:+ String x "") = a.
Proof.
  induction a as [|c a IH]; [done|]. rewrite str_app_cons. cbn [String.length]. destruct a as [|d a]; [done|].
  rewrite !str_app_cons in *. cbn [String.length] in *. rewrite Nat.sub_succ, Nat.sub_0_r in *. cbn [String.substring]. f_equal. exact IH.
Qed.

Lemma split_parent_join client cs name :
  segment client -> Forall segment cs -> segment name ->
  split_parent (join_slash (client :: cs ++ [name])) = (join_slash (client :: cs), name).
Proof.
  intros Hc Hcs Hn. unfold split_parent. rewrite strip_segments_bare by (done || (apply Forall_app; split; [done|by constructor])).
  change (client :: cs ++ [name]) with ((client :: cs) ++ [name]). rewrite join_snoc.
  rewrite str_mem_app. cbn [str_mem]. rewrite (bool_decide_eq_true_2 ("/"%char = "/"%char)) by done. cbn [orb]. rewrite orb_true_r.
  rewrite split_last_join by by destruct Hn. cbv beta iota. by rewrite substring_before.
Qed.

Lemma dirname_folder cs name :
  Forall segment cs -> segment name ->
  basename (folder_path cs +:+ name) = name /\
  forall h root, cd_loop h (Some root) (split_slash (dirname (folder_path cs +:+ name))) = cd_loop h (Some root) cs.
Proof.
  intros Hcs [Hne Hs]. destruct cs as [|c cs].
  - change (folder_path [] +:+ name)%string with ("" +:+ String "/" name)%string. unfold basename, dirname. rewrite split_last_join by done. done.
  - unfold folder_path. destruct (join_segments_last (c :: cs) Hcs ltac:(done)) as (a & n & [Hn Hns] & Hj).
    rewrite Hj, str_app_cons, append_assoc. change ("/" +:+ name)%string with (String "/" name).
    change (String "/" ((a +:+ n) +:+ String "/" name)) with ((String "/" a +:+ n) +:+ String "/" name)%string.
    destruct (dirname_join (String "/" a) n name Hns Hn Hs) as [Hd Hb]. split; [exact Hb|]. intros h root. rewrite Hd, str_app_cons, <- Hj.
    change (String "/" (join_slash (c :: cs))) with ("" +:+ String "/" (join_slash (c :: cs)))%string. inversion Hcs; subst.
    rewrite split_slash_app, split_segments by done. done.
Qed.

(** The folder at the end of a path of a client. *)
Lemma get_folder client cs c root (s : Dav W M) m :
  segment client -> Forall segment cs -> Forall plain_name cs ->
  Dict.get client (dv_clients s) = Some c -> fs_root (cl_fs c) = Some root ->
  get_member (join_slash (client :: cs)) s = (Ok (Some m), s) -> is_folder m = true ->
  exists e, walk (fs_heap (cl_fs c)) root cs = Some e /\ cd_loop (fs_heap (cl_fs c)) (Some root) cs = Ok (Some e) /\
    m = MFolder (folder_obj (fs_heap (cl_fs c)) client (folder_path cs) e).
Proof.
  intros Hcl Hcs Hplain Hc Hroot. rewrite get_member_segments by (done || by rewrite Hc; eexists). unfold sbind.
  rewrite (new_root_run client c root s Hc Hroot). intros Hm Hf.
  pose proof (folder_member_walk client c root s Hc Hroot [] cs root (List.Forall_nil _) Hcs Hplain eq_refl) as [Hw1 Hw2].
  change (folder_path []) with "/"%string in *.
  destruct m as [members|f|r]; [|  |done].
  - exfalso. destruct (folder_member_canonical _ cs (MRoot members) s (segments_plain _ Hcs) Hm) as (? & _ & _ & _ & [[_ ?]|(_ & Hr & _)]); [done|].
    by destruct (Hr members).
  - destruct (Hw2 f Hm) as [e He]. destruct (Hw1 e He) as [Hcd Hfm]. exists e. split; [done|]. split; [done|].
    rewrite Hm in Hfm. by injection Hfm as ->.
Qed.

Lemma get_walked client cs c root (s : Dav W M) e :
  segment client -> Forall segment cs -> Forall plain_name cs ->
  Dict.get client (dv_clients s) = Some c -> fs_root (cl_fs c) = Some root ->
  walk (fs_heap (cl_fs c)) root cs = Some e ->
  get_member (join_slash (client :: cs)) s = (Ok (Some (MFolder (folder_obj (fs_heap (cl_fs c)) client (folder_path cs) e))), s).
Proof.
  intros Hcl Hcs Hplain Hc Hroot He. rewrite get_member_segments by (done || by rewrite Hc; eexists). unfold sbind.
  rewrite (new_root_run client c root s Hc Hroot).
  by destruct (folder_member_walk client c root s Hc Hroot [] cs root (List.Forall_nil _) Hcs Hplain eq_refl) as [Hw1 _]; apply Hw1.
Qed.

(** What [create_folder] does to the tree of its client. *)
Lemma create_folder_spec client cs name c root e (s s' : Dav W M) :
  Forall segment cs -> segment name -> wf (fs_heap (cl_fs c)) ->
  Dict.get client (dv_clients s) = Some c -> fs_root (cl_fs c) = Some root -> is_Some (h_dirs (fs_heap (cl_fs c)) !! root) ->
  cd_loop (fs_heap (cl_fs c)) (Some root) cs = Ok (Some e) -> is_Some (h_dirs (fs_heap (cl_fs c)) !! e) ->
  create_folder (MFolder (folder_obj (fs_heap (cl_fs c)) client (folder_path cs) e)) name s = (Ok tt, s') ->
  exists c' t, Dict.get client (dv_clients s') = Some c' /\ fs_root (cl_fs c') = Some root /\
    fs_heap (cl_fs c') = with_new_dir t e (dir_at (fs_heap (cl_fs c)) e) name (fs_heap (cl_fs c)).
Proof.
  intros Hcs Hn Hwf Hc Hroot Hr Hcd He. cbn [create_folder fo_client fo_path folder_obj]. unfold sbind at 1.
  pose proof (on_gfc_clients client (cache_reset (folder_path cs)) s) as Hoc.
  destruct (on_gfc _ _ s) as [[[]|] s1]; [|done]. simpl in Hoc. unfold with_client. rewrite Hoc, Hc.
  destruct c as [ac fs]. cbn [cl_api cl_fs] in *. unfold sbind at 1.
  destruct (dirname_folder cs name Hcs Hn) as [Hb Hd]. unfold mkdir, sbind at 1, slift. unfold sub_path. cbn [fo_path folder_obj].
  destruct (validate_path _) as [[]|]; [|done]. unfold sbind at 1. rewrite (at_dir_run _ _ _ Hroot), Hd, Hcd. cbn [rbind need].
  unfold sbind at 1, sret. rewrite Hb. destruct (dir_create name e fs) as [[d|] fs'] eqn:Hrun; [|done]. intros [= <-].
  destruct (dir_create_spec _ _ _ _ _ Hwf He Hrun) as (t & _ & _ & Hh & _ & Hr'). exists {| cl_api := ac; cl_fs := fs' |}, t.
  cbn [dv_clients with_dv_clients cl_fs]. rewrite Dict.get_set_eq. split; [done|]. split; [congruence|done].
Qed.

(** C16: A MKCOL that is answered with 201 has made the collection: whatever
    the tree was, the path now names a folder of that file system. *)
Theorem mkcol_makes_collection client cs name c root (s s' : Dav W M) :
  segment client -> Forall segment (cs ++ [name]) -> Forall plain_name (cs ++ [name]) ->
  Dict.get client (dv_clients s) = Some c -> wf (fs_heap (cl_fs c)) ->
  fs_root (cl_fs c) = Some root -> is_Some (h_dirs (fs_heap (cl_fs c)) !! root) ->
  mkcol (join_slash (client :: cs ++ [name])) s = (Ok CREATED, s') ->
  exists f, get_member (join_slash (client :: cs ++ [name])) s' = (Ok (Some (MFolder f)), s').
Proof.
  intros Hcl Hall Hplain Hc Hwf Hroot Hr. pose proof Hall as [Hcs [Hn _]%Forall_cons]%Forall_app.
  pose proof Hplain as [Hpcs _]%Forall_app. unfold mkcol. rewrite split_parent_join by done. unfold sbind at 1.
  pose proof (silent_get_member (join_slash (client :: cs)) s) as Hs.
  destruct (get_member (join_slash (client :: cs)) s) as [[[m|]|] s1] eqn:Hg; simpl in Hs; try done. subst s1.
  destruct (is_folder m) eqn:Hm; [|done]. cbn [negb].
  destruct (get_folder _ _ _ _ _ _ Hcl Hcs Hpcs Hc Hroot Hg Hm) as (e & He & Hcd & ->). unfold sbind at 1.
  cbn [member_of]. rewrite split_slash_plain by by destruct Hn.
  pose proof (folder_member_walk client c root s Hc Hroot cs [name] e Hcs ltac:(by constructor) ltac:(by apply Forall_app in Hplain as [_ ?]) Hcd) as [Hw1 Hw2].
  pose proof (silent_folder_member (folder_obj (fs_heap (cl_fs c)) client (folder_path cs) e) [name] s) as Hs.
  destruct (folder_member _ [name] s) as [[[m|]|] s1] eqn:Hf; simpl in Hs; try done; subst s1.
  - destruct m as [members|f|r]; cbn [is_folder]; [..|done].
    + exfalso. destruct (folder_member_canonical _ [name] (MRoot members) s ltac:(constructor; [by destruct Hn|done]) Hf)
        as (? & _ & _ & _ & [[_ ?]|(_ & Hx & _)]); [done|by destruct (Hx members)].
    + intros [= <-]. destruct (Hw2 f eq_refl) as [e' He']. eexists. eapply get_walked; try done.
      rewrite walk_app, He. exact He'.
  - unfold stry, sbind. destruct (create_folder _ name s) as [[[]|ex] s1] eqn:Hcf; [|by case_bool_decide].
    intros [= <-]. destruct (walk_after (fs_clock (cl_fs c) 0) _ e name Hwf) with (d := root) (cs := cs) (e := e) as [_ Hex]; [|done|done|].
    { clear -Hwf Hr Hcd. eapply cd_loop_exists; [done| |exact Hcd]. by intros ? [= <-]. }
    destruct (create_folder_spec _ _ _ _ _ _ _ _ Hcs Hn Hwf Hc Hroot Hr Hcd Hex Hcf) as (c' & t & Hc' & Hroot' & Hh').
    eexists. eapply get_walked; try done. rewrite Hh', walk_app.
    destruct (walk_after t _ e name Hwf Hex root cs e Hr He) as [-> _]. apply walk_new; try done.
    + intros Hin. cbn [folder_member] in Hf. rewrite bool_decide_eq_false_2 in Hf by by destruct Hn.
      rewrite bool_decide_eq_true_2 in Hf by by apply elem_of_remove_dups. unfold sbind in Hf. by destruct (new_resource _ _ s) as [[?|] ?].
    + apply find_dirs_none. intros Hin. cbn [folder_member] in Hf. rewrite bool_decide_eq_false_2 in Hf by by destruct Hn.
      destruct (bool_decide (name ∈ fo_sub_files _)); [unfold sbind in Hf; by destruct (new_resource _ _ s) as [[?|] ?]|].
      rewrite bool_decide_eq_true_2 in Hf by by apply elem_of_remove_dups. unfold sbind in Hf. by destruct (new_folder _ _ s) as [[?|] ?].
Qed.
End DavProps.

(** ** A readonly user *)

(** Over HTTP a readonly user cannot change anything: whichever way he
    authenticates, a request with a method that is not a reading one is
    answered without being passed on -- and so is every request that carries
    no valid login. *)
Theorem readonly_refused {S} users jwt_decode now method url_path authorization (call_next : st exn S Response) s :
  method ∉ READONLY_METHODS -> url_path <> "/login"%string ->
  (forall h u, authorization = Some h -> user_of users jwt_decode now h = Ok (Some u) -> readonly u = true) ->
  (forall h, authorization = Some h -> user_of users jwt_decode now h <> Raise CancelledError) ->
  exists r, auth_middleware users jwt_decode now method url_path authorization call_next s = (Ok r, s) /\
    (rs_status r = 401 \/ rs_status r = 403).
Proof.
  intros Hm Hp Hro Hc. unfold auth_middleware.
  rewrite (bool_decide_eq_false_2 (method = _)) by (intros ->; apply Hm; unfold READONLY_METHODS; set_solver).
  rewrite (bool_decide_eq_false_2 (url_path = _)) by done. cbn [orb].
  destruct authorization as [[|c h]|]; [eexists; split; [done|by left]| |eexists; split; [done|by left]].
  unfold stry, sbind, slift. destruct (user_of _ _ _ _) as [[u|]|ex] eqn:Hu.
  - rewrite bool_decide_eq_false_2, (Hro _ u eq_refl Hu) by done. eexists. split; [done|by right].
  - eexists. split; [done|by left].
  - destruct (is_Exception ex) eqn:He; [eexists; split; [done|by left]|].
    exfalso. destruct ex; try discriminate He. by apply (Hc (String c h)).
Qed.

(** ** The theorems at work *)

(** Documents as the code builds them, and no dates. *)
Inductive DemoXml := DemoElem (tag : option string) (text : option string) (children : list DemoXml).

Definition demo_tag (e : DemoXml) : option string := let '(DemoElem t _ _) := e in t.
Definition demo_children (e : DemoXml) : list DemoXml := let '(DemoElem _ _ l) := e in l.

#[local] Instance demo_lxml : Lxml DemoXml := {
  fromstring _ := Some (DemoElem (Some (_tag "propertyupdate")) None []);
  el_tag := demo_tag;
  el_text e := let '(DemoElem _ t _) := e in t;
  el_children := demo_children;
  find_below _ _ := None;
  find_children name e := List.filter (fun c => bool_decide (demo_tag c = Some (_tag name))) (demo_children e);
  localname e := match demo_tag e with Some t => Ok t | None => Raise ValueError end;
  tostring _ := EmptyString
}.

#[local] Instance demo_dates : DateText := {
  rfc1123 t := pretty t; iso8601 t := pretty t;
  parsedate_to_datetime s := rmap (fun n => {| pd_us := n; pd_offset := None |}) (int_of_string s);
  fromisoformat _ := Raise ValueError
}.

(** Two file systems with the files [/a/f] and [/g] and the directory [/b]. *)
Definition demo_dav : Dav MemWorld Pinned :=
  {| dv_clients := [("notes"%string, {| cl_api := demo_api; cl_fs := demo_fs |}); ("mine"%string, {| cl_api := demo_api; cl_fs := demo_fs |})];
     dv_caches := [("notes"%string, empty_cache); ("mine"%string, empty_cache)] |}.

Definition any_host (_ : string) : exc unit := Ok tt.

Definition demo_request (headers : dict string string) : Request := {| rq_headers := headers; rq_body := empty_stream |}.

Definition demo_file : ResourceObj := {| ro_client := "notes"; ro_path := "/g"; ro_ref := 1; ro_fd := None |}.

Example demo_file_found : get_member "notes/g" demo_dav = (Ok (Some (MResource demo_file)), demo_dav).
Proof. vm_compute. reflexivity. Qed.

Lemma refused_changes_nothing_witness :
  let '(r, s') := dav_app None id any_host "/webdav" DELETE (demo_request []) "notes/x" demo_dav in
  r = Ok NOT_FOUND /\ s' = demo_dav.
Proof.
  assert ((dav_app None id any_host "/webdav" DELETE (demo_request []) "notes/x" demo_dav).1 = Ok NOT_FOUND) as Hr by (vm_compute; reflexivity).
  destruct (dav_app _ _ _ _ _ _ _ _) as [r s'] eqn:Hd. simpl in Hr. subst r. split; [done|].
  apply (refused_changes_nothing None id any_host "/webdav" DELETE (demo_request []) "notes/x" demo_dav s' NOT_FOUND Hd).
  by left.
Defined.

Lemma path_below_file_is_file_witness :
  get_member ("notes/g" +:+ String "/" "x/y") demo_dav = (Ok (Some (MResource demo_file)), demo_dav) /\
  delete_request ("notes/g" +:+ String "/" "x/y") demo_dav = (member_remove (MResource demo_file) ;;; sret NO_CONTENT) demo_dav /\
  forall rq, put_request None rq ("notes/g" +:+ String "/" "x/y") demo_dav = put_request None rq "notes/g" demo_dav.
Proof. apply (path_below_file_is_file None "notes/g" "x/y" demo_file demo_dav). vm_compute. reflexivity. Defined.

Lemma put_without_length_loses_body_witness :
  put_request None {| rq_headers := []; rq_body := {| pieces := [[Byte.x61]]; fault := None |} |} "notes/g" demo_dav = (Ok CREATED, demo_dav).
Proof.
  apply (put_without_length_loses_body None _ "notes/g" demo_file demo_dav); [reflexivity|]. vm_compute. reflexivity.
Defined.

Definition demo_folder : Member := MFolder (folder_obj demo_heap "notes" "/a/" 2).
Definition demo_below : Member := MResource {| ro_client := "notes"; ro_path := "/a/f"; ro_ref := 5; ro_fd := None |}.

Example demo_members :
  (get_member "notes/a" demo_dav).1 = Ok (Some demo_folder) /\
  match (member_of demo_folder "f" demo_dav).1 with Ok (Some (MResource r)) => ro_path r = "/a/f"%string | _ => False end.
Proof. vm_compute. split; reflexivity. Qed.

(** The file [f] of the folder [a], as a listing of the folder shows it. *)
Definition demo_listed : Member :=
  match (member_of demo_folder "f" demo_dav).1 with Ok (Some m) => m | _ => MRoot [] end.

Lemma href_leads_back_witness :
  let href := href_of "/webdav" demo_listed in
  let server_path := ("/webdav" +:+ member_path demo_listed)%string in
  extract_path_from_destination any_host href = Ok server_path /\
  extract_path_from_destination any_host ("http://" +:+ "localhost:1900" +:+ href) = Ok server_path /\
  extract_path_from_destination any_host ("https://" +:+ "localhost:1900" +:+ href) = Ok server_path /\
  get_member (mount_relative "/webdav" server_path) demo_dav = (Ok (Some demo_listed), demo_dav).
Proof.
  apply (href_leads_back any_host "/webdav" demo_folder "f" demo_listed "localhost:1900" demo_dav).
  - exists "notes/a"%string. vm_compute. reflexivity.
  - reflexivity.
  - right. split; [by split|]. vm_compute. reflexivity.
  - right. split; [by eexists|]. reflexivity.
  - vm_compute. reflexivity.
  - vm_compute. reflexivity.
  - reflexivity.
Defined.

(** MOVE [/notes/g] to [/mine/g], which is deleted. *)
Definition cross_request : Request := demo_request [("Destination", "/webdav/mine/g")]%string.

Definition after_removal : Dav MemWorld Pinned :=
  (member_remove (MResource {| ro_client := "mine"; ro_path := "/g"; ro_ref := 1; ro_fd := None |}) demo_dav).2.

Lemma cross_client_transfer_loses_target_witness :
  exists ex s2,
    transfer None any_host "/webdav" cross_request "notes/g" true demo_dav = (Raise ex, s2) /\
    dv_clients s2 = dv_clients after_removal /\ (get_member "mine/g" after_removal).1 = Ok None.
Proof.
  destruct (cross_client_transfer_loses_target None any_host cross_request "/webdav/mine/g" "notes" ["g"%string] "mine" ["g"%string]
              demo_file {| cl_api := demo_api; cl_fs := demo_fs |}
              (MResource {| ro_client := "mine"; ro_path := "/g"; ro_ref := 1; ro_fd := None |}) true demo_dav after_removal)
    as (ex & s2 & Ht & Hs).
  - repeat constructor; discriminate.
  - repeat constructor; discriminate.
  - done.
  - done.
  - reflexivity.
  - done.
  - reflexivity.
  - reflexivity.
  - vm_compute. reflexivity.
  - reflexivity.
  - by eexists.
  - intros root [= <-]. vm_compute. reflexivity.
  - vm_compute. reflexivity.
  - vm_compute. reflexivity.
  - vm_compute. reflexivity.
  - exists ex, s2. split; [exact Ht|]. split; [exact Hs|]. vm_compute. reflexivity.
Defined.

(** A date that is read, one that is not, a property nobody keeps and one
    that is the server's. *)
Definition demo_updates : list PropertyUpdate :=
  [{| pu_tag := _tag "getlastmodified"; pu_value := Some "yesterday"%string; pu_remove := false |};
   {| pu_tag := _ms_tag "Win32FileAttributes"; pu_value := Some "20"%string; pu_remove := false |};
   {| pu_tag := _tag "getetag"; pu_value := None; pu_remove := true |}].

Definition demo_report : Xml :=
  match (proppatch "/webdav" (MResource demo_file) demo_updates demo_dav).1 with Ok x => x | Raise _ => XElem "" None [] end.

Lemma proppatch_reports_each_witness :
  exists statuses order, Forall2 (verdict false) demo_updates statuses /\ NoDup order /\ Sorted Z.le order /\
    (forall n, n ∈ order <-> n ∈ statuses) /\
    demo_report = XElem (_tag "multistatus") None
      [XElem (_tag "response") None
         (XElem (_tag "href") (Some (href_of "/webdav" (MResource demo_file))) []
          :: map (fun n => XElem (_tag "propstat") None
                             [XElem (_tag "prop") None (map (fun tag => XElem tag None []) (tags_with n demo_updates statuses));
                              XElem (_tag "status") (Some ("HTTP/1.1 " +:+ pretty n +:+ " " +:+ phrase n)%string) []]) order)].
Proof.
  apply (proppatch_reports_each "/webdav" (MResource demo_file) demo_updates demo_report demo_dav
           (proppatch "/webdav" (MResource demo_file) demo_updates demo_dav).2).
  assert (is_ok (proppatch "/webdav" (MResource demo_file) demo_updates demo_dav).1 = true) as Hok by (vm_compute; reflexivity).
  unfold demo_report. by destruct (proppatch "/webdav" (MResource demo_file) demo_updates demo_dav) as [[x|ex] s'].
Defined.

(** The date is refused, the attribute accepted, the removal forbidden. *)
Example demo_report_statuses :
  match demo_report with
  | XElem _ _ [XElem _ _ (_ :: l)] =>
      map (fun p => match p with XElem _ _ [XElem _ _ tags; XElem _ (Some st) _] => (length tags, st) | _ => (0%nat, EmptyString) end) l
  | _ => []
  end = [(1%nat, "HTTP/1.1 200 OK"); (1%nat, "HTTP/1.1 403 Forbidden"); (1%nat, "HTTP/1.1 409 Conflict")]%string.
Proof. vm_compute. reflexivity. Qed.

Lemma readonly_refused_witness :
  let users := [(YStr "guest", {| uc_password := YStr "pw"; uc_readonly := YBool true |})] in
  exists r, auth_middleware users (fun _ _ => Raise ValueError) 0 "PUT" "/webdav/notes/g" (Some "Basic Z3Vlc3Q6cHc="%string)
              (fun n : nat => (Ok CREATED, S n)) 7%nat = (Ok r, 7%nat) /\ (rs_status r = 401 \/ rs_status r = 403).
Proof.
  intros users. apply (readonly_refused users (fun _ _ => Raise ValueError) 0 "PUT" "/webdav/notes/g").
  - refine (bool_decide_eq_false_1 _ _). vm_compute. reflexivity.
  - done.
  - intros h u [= <-] Hu. vm_compute in Hu. by injection Hu as <-.
  - intros h [= <-]. vm_compute. discriminate.
Defined.

Lemma suffix_range_is_prefix_witness :
  get_request (demo_request [("Range", "bytes=-" +:+ "5")]%string) "notes/g" demo_dav
  = get_request (demo_request [("Range", "bytes=0-" +:+ "5")]%string) "notes/g" demo_dav.
Proof. apply (suffix_range_is_prefix "5"); reflexivity. Defined.

Lemma mkcol_makes_collection_witness :
  match mkcol (join_slash ("notes"%string :: ["b"%string] ++ ["new"%string])) demo_dav with
  | (Ok r, s') => r = CREATED /\ exists f, get_member (join_slash ("notes"%string :: ["b"%string] ++ ["new"%string])) s' = (Ok (Some (MFolder f)), s')
  | (Raise _, _) => False
  end.
Proof.
  assert ((mkcol (join_slash ("notes"%string :: ["b"%string] ++ ["new"%string])) demo_dav).1 = Ok CREATED) as Hok by (vm_compute; reflexivity).
  destruct (mkcol _ demo_dav) as [r s'] eqn:Hm. simpl in Hok. subst r. split; [done|].
  apply (mkcol_makes_collection "notes" ["b"%string] "new" {| cl_api := demo_api; cl_fs := demo_fs |} 0 demo_dav s').
  - by split.
  - repeat constructor; discriminate.
  - repeat constructor; discriminate.
  - reflexivity.
  - apply demo_heap_wf.
  - reflexivity.
  - vm_compute. by eexists.
  - exact Hm.
Defined.
