(* ===== verification/SftpProps.v ===== *)
(** * Properties of the SFTP server

    What a session may change: nothing for a readonly user, nothing by a
    rename that must be refused, nothing by a session that is cut off. *)

From S2P Require Import Prelude Errors Messages FileVersion Contents Stores FileContent FileContentProps FileRefs Directory DirectoryProps DirectorySer Mirror MirrorProps FdRepo ContentStoreProps FdSaved Api Stats PosixPath Ops Paths SftpHandleProps Sftp OpsProps.

Open Scope Z_scope.
Open Scope py_scope.

Section Silent.
  Context {W M : Type} `{Stores W} `{FDJson} `{ContentRepo (Live W)} `{MetaRepo M W}.
  Context (on_written : option (nat -> st exn (Fs W M) unit)) (meanwhile : Fs W M -> Fs W M).
  Local Abbreviation srv := (st exn (Session W M)).

Lemma silent_client {A} name (m : ApiConfig -> st exn (Fs W M) A) : (forall ac, silent (m ac)) -> silent (on_client name m).
Proof.
  intros Hm s. unfold on_client. destruct (Dict.get name (ss_clients s)) as [[ac fs]|] eqn:Hg; [|done]. cbn [cl_api cl_fs].
  pose proof (Hm ac fs) as Hs. destruct (m ac fs) as [r fs1]. simpl in *. subst fs1. rewrite dict_set_same by done. by destruct s.
Qed.

Lemma silent_dir r : silent (srv_dir (W := W) (M := M) r).
Proof.
  unfold srv_dir. apply silent_client. intros _. destruct (is_client_root r); [|apply silent_cd].
  apply silent_bind; [apply silent_root|]. intros ?. apply silent_ret.
Qed.

Lemma silent_found {A} (m : srv A) : silent m -> silent (found m).
Proof.
  intros Hm. apply silent_try; [apply silent_bind; [done|intros ?; apply silent_ret]|].
  intros ex. destruct ex; try apply silent_raise. apply silent_ret.
Qed.

Lemma silent_is_dir r : silent (is_dir (W := W) (M := M) r).
Proof. apply silent_found, silent_dir. Qed.
Lemma silent_exists r : silent (srv_exists (W := W) (M := M) r).
Proof. apply silent_found, silent_client. intros _. apply silent_stat_file. Qed.

Lemma silent_translate {A} (m : srv A) : silent m -> silent (translate_errors m).
Proof.
  intros Hm. apply silent_try; [done|]. intros ex. destruct ex; try apply silent_raise; simpl; apply silent_raise.
Qed.

Lemma silent_require ro : silent (require_write (W := W) (M := M) ro).
Proof. by destruct ro. Qed.
Lemma silent_not_root ex r : silent (not_client_root (W := W) (M := M) ex r).
Proof. unfold not_client_root. by destruct (_ || _). Qed.

Hint Resolve silent_dir silent_is_dir silent_exists silent_require silent_not_root : silent.

Lemma refuses_translate {A} (m : srv A) s : refuses m s -> refuses (translate_errors m) s.
Proof. intros [ex He]. unfold refuses, translate_errors, stry. rewrite He. destruct ex; try (by eexists); simpl; by eexists. Qed.

(** ** A readonly user *)

(** The requests that would change something. *)
Definition mutating (r : request) : bool :=
  match r with
  | RSetstat | RWrite _ _ _ | RMkdir _ | RRmdir _ | RRemove _ | RRename _ _ _ => true
  | ROpen _ f => flag f (Z.lor FXF_WRITE FXF_APPEND)
  | ROpen56 _ a f => flag (pflags_from_v56 a f) (Z.lor FXF_WRITE FXF_APPEND)
  | _ => false
  end.

Lemma open_refused path pflags s :
  flag pflags (Z.lor FXF_WRITE FXF_APPEND) = true -> refuses (open_file on_written true path pflags) s.
Proof.
  intros Hf. apply refuses_translate. apply refuses_bind; [apply silent_lift|]. intros r _. apply refuses_bind.
  - destruct (_ || _); auto with silent.
  - intros [|] _; [apply refuses_raise|]. rewrite Hf. apply refuses_first. apply refuses_raise.
Qed.

Lemma mutating_refused r s : mutating r = true -> refuses (serve on_written meanwhile true r) s.
Proof.
  destruct r; cbn [mutating serve]; try done; intros Hf; apply refuses_first.
  2: by apply open_refused.
  2: by apply refuses_translate, open_refused.
  1: apply refuses_raise.
  all: apply refuses_translate; apply refuses_first; apply refuses_raise.
Qed.

(** No open file was opened for writing. *)
Definition no_writers (s : Session W M) : Prop :=
  forall o f, ss_objects s !! o = Some f -> match f with HRead _ _ _ _ => True | HWrite _ _ _ => False end.

(** Calls that keep the open files. *)
Definition keeps_objects {A} (m : srv A) : Prop := forall s, ss_objects (m s).2 = ss_objects s.

Lemma keeps_silent {A} (m : srv A) : silent m -> keeps_objects m.
Proof. intros Hm s. by rewrite Hm. Qed.
Lemma keeps_bind {A B} (m : srv A) (k : A -> srv B) : keeps_objects m -> (forall a, keeps_objects (k a)) -> keeps_objects (sbind m k).
Proof. intros Hm Hk s. unfold sbind. pose proof (Hm s) as Hs. destruct (m s) as [[a|ex] s1]; [|done]. simpl in Hs. by rewrite Hk. Qed.
Lemma keeps_try {A} (m : srv A) h : keeps_objects m -> (forall ex, keeps_objects (h ex)) -> keeps_objects (stry m h).
Proof. intros Hm Hh s. unfold stry. pose proof (Hm s) as Hs. destruct (m s) as [[a|ex] s1]; [done|]. simpl in Hs. by rewrite Hh. Qed.
Lemma keeps_client {A} name (m : ApiConfig -> st exn (Fs W M) A) : keeps_objects (on_client name m).
Proof. intros s. unfold on_client. destruct (Dict.get _ _); [|done]. by destruct (m _ _). Qed.
Lemma keeps_translate {A} (m : srv A) : keeps_objects m -> keeps_objects (translate_errors m).
Proof. intros Hm. apply keeps_try; [done|]. intros ex. apply keeps_silent. destruct ex; simpl; auto with silent. Qed.

Hint Resolve keeps_silent keeps_client : silent.

Lemma keeps_file_entries ro r names : keeps_objects (file_entries meanwhile ro r names).
Proof.
  induction names as [|n names IH]; [apply keeps_silent, silent_ret|]. intros s. cbn [file_entries].
  pose proof (keeps_client (client_name (child n r))
    (fun ac => let! fr := stat_file (relative (child n r)) in let! stat := stat_get ac meanwhile fr in
               sret (file_attrs (fst_size stat) (fst_created_at stat) (fst_modified_at stat) ro)) s) as Hk.
  unfold file_entry_attrs. destruct (on_client _ _ s) as [[a|ex] s1]; simpl in Hk; rewrite <- Hk;
    (apply keeps_bind; [apply IH|intros; apply keeps_silent, silent_ret]).
Qed.

(** What a request other than [close] and those that open or use a file does. *)
Lemma keeps_stat ro path : keeps_objects (stat meanwhile ro path).
Proof.
  apply keeps_translate. apply keeps_bind; [auto with silent|]. intros r. unfold attrs_of. destruct (is_root r); [auto with silent|].
  apply keeps_try.
  - apply keeps_bind; [auto with silent|]. intros d. apply keeps_bind; [auto with silent|]. intros ?. auto with silent.
  - intros ex. destruct ex; auto with silent. unfold file_entry_attrs. auto with silent.
Qed.

Lemma keeps_scandir ro path : keeps_objects (scandir meanwhile ro path).
Proof.
  apply keeps_translate. apply keeps_bind; [auto with silent|]. intros r. unfold list_dir. destruct (is_root r); [by intros s|].
  apply keeps_bind; [auto with silent|]. intros d. apply keeps_bind; [auto with silent|]. intros d'.
  apply keeps_bind; [auto with silent|]. intros h. apply keeps_bind; [apply keeps_file_entries|]. intros l. auto with silent.
Qed.

Lemma reading_keeps (download : Z -> st exn (Session W M) stream) offset size s h :
  (forall o, keeps_objects (download o)) ->
  ss_objects (rh_read download offset size (s, h)).2.1 = ss_objects s.
Proof.
  intros Hd. assert (ss_objects ((reopen download offset ;;; on_handle (consume size)) (s, h)).2.1 = ss_objects s) as Hre.
  { unfold sbind, reopen. cbn [fst snd]. pose proof (Hd offset s) as Ho. destruct (download offset s) as [[c|ex] w]; [|done].
    unfold on_handle. cbn [fst snd]. by destruct (consume _ _). }
  unfold rh_read. cbn [fst snd]. destruct (_ || _); [done|]. destruct (rh_stream h); [|done]. destruct (offset <? rh_pos h); [done|].
  destruct (rh_pos h <? offset); [destruct (_ <? _); [done|]|]; unfold sbind, on_handle; cbn [fst snd].
  - destruct (consume _ h) as [[d|ex] h1]; [|done]. destruct (_ <? _); [done|]. cbn [fst snd]. by destruct (consume _ h1).
  - by destruct (consume _ h).
Qed.

Lemma translate_state {A} (m : srv A) s : (translate_errors m s).2 = (m s).2.
Proof. unfold translate_errors, stry. destruct (m s) as [[a|ex] s1]; [done|]. destruct ex; done. Qed.

(** Putting a reader back keeps a session free of writers. *)
Lemma no_writers_reader o c p n h s : no_writers s -> no_writers (put_object o (HRead c p n h) s).
Proof.
  intros Hn o' f. cbn [put_object ss_objects]. destruct (decide (o' = o)) as [->|Ho].
  - rewrite lookup_insert_eq. by intros [= <-].
  - rewrite lookup_insert_ne by done. apply Hn.
Qed.

Lemma no_writers_kept (s s' : Session W M) : ss_objects s' = ss_objects s -> no_writers s -> no_writers s'.
Proof. unfold no_writers. by intros ->. Qed.

(** [serve] adds a response to what a call of the server does. *)
Lemma bind_ret_state {S A B} (m : st exn S A) (f : A -> B) s : (sbind m (fun a => sret (f a)) s).2 = (m s).2.
Proof. unfold sbind. by destruct (m s) as [[a|ex] s1]. Qed.

Lemma open_no_writers path pflags s :
  flag pflags (Z.lor FXF_WRITE FXF_APPEND) = false -> no_writers s -> no_writers (open_file on_written true path pflags s).2.
Proof.
  intros Hf Hn. unfold open_file. rewrite translate_state. unfold sbind, slift.
  destruct (resolve path) as [r|]; [|done].
  assert (silent (if is_root r || is_client_root r then sret true else is_dir (W := W) (M := M) r)) as Hs by (destruct (_ || _); auto with silent).
  revert Hs. generalize (if is_root r || is_client_root r then sret true else is_dir (W := W) (M := M) r). intros m Hs. specialize (Hs s).
  destruct (m s) as [[dir|ex] s1]; simpl in Hs; subst s1; [|done]. destruct dir; [done|]. rewrite Hf.
  unfold open_for_read, sbind. match goal with |- context [on_client ?n ?m s] => pose proof (keeps_client n m s) as Hk; destruct (on_client n m s) as [[z|ex] s1] end.
  - intros o f. cbn [new_handle snd ss_objects]. simpl in Hk. rewrite Hk. destruct (decide (o = ss_next s1)) as [->|Ho].
    + rewrite lookup_insert_eq. by intros [= <-].
    + rewrite lookup_insert_ne by done. apply Hn.
  - by apply (no_writers_kept s).
Qed.

Lemma serve_no_writers r s : no_writers s -> no_writers (serve on_written meanwhile true r s).2.
Proof.
  intros Hn. destruct (mutating r) eqn:Hm.
  { destruct (mutating_refused r s Hm) as [ex He]. by rewrite He. }
  destruct r; cbn [mutating] in Hm; try done; cbn [serve]; rewrite ?bind_ret_state.
  - apply (no_writers_kept s); [apply keeps_stat|done].
  - unfold fstat. rewrite translate_state. by destruct (ss_objects s !! obj) as [[]|].
  - apply (no_writers_kept s); [apply keeps_scandir|done].
  - by apply open_no_writers.
  - unfold open56. rewrite translate_state. by apply open_no_writers.
  - unfold read. rewrite translate_state. destruct (ss_objects s !! obj) as [[c p n h|]|] eqn:Ho; [|done|done].
    pose proof (reading_keeps (handle_download c p n) offset size s h (fun o => keeps_client _ _)) as Hk.
    destruct (rh_read _ _ _ _) as [r [s1 h1]]. simpl in *. apply no_writers_reader. by apply (no_writers_kept s).
  - unfold close. rewrite translate_state. destruct (ss_objects s !! obj) as [[c p n h|c p h]|] eqn:Ho; [|by apply Hn in Ho|done].
    unfold close_object. rewrite Ho. cbn. apply (no_writers_kept (put_object obj (HRead c p n (rh_with None (rh_pos h) [] h)) s)); [done|].
    by apply no_writers_reader.
Qed.

Lemma session_no_writers rs s : no_writers s -> no_writers (session on_written meanwhile true rs s).2.
Proof.
  revert s. induction rs as [|r rs IH]; intros s Hn; [done|]. cbn [session].
  pose proof (serve_no_writers r s Hn) as Hs. destruct (serve _ _ _ r s) as [x s1].
  specialize (IH s1 Hs). by destruct (session _ _ _ rs s1).
Qed.

(** C37: However a session of a readonly user goes on, it never has a file
    open for writing, and at every point of it every request that would
    change something -- setting attributes, opening for writing, writing,
    making and removing directories, removing and renaming files -- is
    answered with an error and changes nothing at all. *)
Theorem readonly_session_changes_nothing rs s :
  no_writers s ->
  let s1 := (session on_written meanwhile true rs s).2 in
  no_writers s1 /\
  forall r, mutating r = true -> exists ex, serve on_written meanwhile true r s1 = (Raise ex, s1).
Proof. intros Hn s1. split; [by apply session_no_writers|]. intros r Hr. by apply mutating_refused. Qed.

(** ** Renaming *)

(** What a rename may not replace: anything, unless it was asked to
    overwrite; then a directory by a file, a file by a directory, and a
    directory that is not empty. *)
Definition must_keep (overwrite source_is_dir target_is_dir : bool) (target : ResolvedPath) (s : Session W M) : Prop :=
  overwrite = false \/ source_is_dir <> target_is_dir \/
  (target_is_dir = true /\ forall d h s1 s2, srv_dir target s = (Ok (Some d), s1) ->
     on_client (client_name target) (fun _ => the_heap) s = (Ok h, s2) ->
     nonempty (find_dirs h d []) || nonempty (find_files h d []) = true).

(** A rename onto something it must not replace -- anything for a plain
    rename; for a replacing one a directory in the way of a file, a file in
    the way of a directory, or a directory that is not empty -- is answered
    with an error, and neither the source nor the target nor anything else
    has changed. *)
Theorem rename_keeps_target readonly oldpath newpath overwrite source target source_is_dir target_is_dir taken s :
  resolve oldpath = Ok source -> resolve newpath = Ok target -> relative source <> relative target ->
  is_dir source s = (Ok source_is_dir, s) -> is_dir target s = (Ok target_is_dir, s) ->
  srv_exists target s = (Ok taken, s) -> target_is_dir || taken = true ->
  must_keep overwrite source_is_dir target_is_dir target s ->
  exists ex, rename readonly oldpath newpath overwrite s = (Raise ex, s).
Proof.
  intros Ho Hn Hne Hs Ht Hx Htaken Hkeep. apply refuses_translate.
  apply refuses_bind; [auto with silent|]. intros _ _.
  unfold refuses. unfold sbind, slift. rewrite Ho, Hn. apply refuses_bind; [auto with silent|]. intros _ _.
  apply refuses_bind; [auto with silent|]. intros _ _.
  destruct (negb _); [apply refuses_raise|]. apply refuses_bind; [auto with silent|]. intros b. rewrite Hs. intros [= <-].
  apply refuses_bind; [destruct source_is_dir; [auto with silent|]; apply silent_bind; [apply silent_client; auto with silent|auto with silent]|].
  intros _ _. rewrite bool_decide_eq_false_2 by done. destruct (is_within _ _); [apply refuses_raise|].
  apply refuses_bind; [auto with silent|]. intros b. rewrite Ht. intros [= <-].
  apply refuses_bind; [destruct target_is_dir; auto with silent|]. intros b Hb.
  assert (b = true) as -> by (destruct target_is_dir; [by injection Hb|]; rewrite Hx in Hb; by injection Hb as <-).
  apply refuses_first. destruct overwrite; cbn [negb]; [|apply refuses_raise]. unfold remove_rename_target.
  destruct Hkeep as [?|[Hd|[-> Hd]]]; [done| |].
  - destruct source_is_dir, target_is_dir; try done; apply refuses_raise.
  - destruct source_is_dir; [|apply refuses_raise]. cbn [negb andb]. destruct (is_within _ _); [apply refuses_raise|].
    apply refuses_bind; [auto with silent|]. intros d Hdir. apply refuses_bind; [auto with silent|]. intros d' Hd'.
    apply refuses_bind; [apply silent_client; auto with silent|]. intros h Hh. destruct d as [d|]; [|done]. injection Hd' as <-.
    rewrite (Hd d h s s Hdir Hh). apply refuses_raise.
Qed.

(** ** The end of a session *)

Definition closed_file (f : OpenFile) : Prop :=
  match f with HRead _ _ _ h => rh_stream h = None | HWrite _ _ h => wh_closed h = true end.

(** What the server does to a file that is still open. *)
Definition shut_file (f : OpenFile) : OpenFile :=
  match f with
  | HRead c p n h => HRead c p n (rh_with None (rh_pos h) [] h)
  | HWrite c p h => HWrite c p (if wh_closed h then h else shut h)
  end.

Lemma shut_file_closed f : closed_file (shut_file f).
Proof. destruct f as [c p n h|c p h]; simpl; [done|]. by destruct (wh_closed h) eqn:E. Qed.

Lemma clean_up_step o l (s : Session W M) :
  clean_up (o :: l) s = clean_up l (match ss_objects s !! o with Some f => put_object o (shut_file f) s | None => s end).
Proof.
  cbn [clean_up]. destruct (ss_objects s !! o) as [[c p n h|c p h]|]; [done| |done]. unfold wh_abort, shut_file. by destruct (wh_closed h).
Qed.

Lemma clean_up_spec l (s : Session W M) :
  ss_clients (clean_up l s) = ss_clients s /\ ss_handles (clean_up l s) = ss_handles s /\
  forall o f, ss_objects (clean_up l s) !! o = Some f ->
    (o ∈ l -> closed_file f) /\ ((exists f0, ss_objects s !! o = Some f0 /\ closed_file f0) -> closed_file f).
Proof.
  revert s. induction l as [|x l IH]; intros s.
  - split; [done|]. split; [done|]. simpl. intros o f Ho. split; [by intros ?%not_elem_of_nil|]. intros (f0 & Hf & Hc). congruence.
  - rewrite clean_up_step. set (s1 := match ss_objects s !! x with Some f => put_object x (shut_file f) s | None => s end).
    destruct (IH s1) as (Hc & Hh & Ho).
    assert (ss_clients s1 = ss_clients s /\ ss_handles s1 = ss_handles s) as [Hc1 Hh1] by (unfold s1; by destruct (ss_objects s !! x)).
    split; [congruence|]. split; [congruence|]. intros o f Hf. destruct (Ho o f Hf) as [Hin Hcl]. split.
    + intros [->|Hl]%elem_of_cons; [|by apply Hin]. destruct (ss_objects s !! x) as [f0|] eqn:Hx.
      * apply Hcl. exists (shut_file f0). split; [|apply shut_file_closed]. unfold s1. cbn. apply lookup_insert_eq.
      * destruct (decide (x ∈ l)); [by apply Hin|]. exfalso. clear Hin Hcl IH Ho. subst s1.
        assert (forall l (u : Session W M), ss_objects u !! x = None -> ss_objects (clean_up l u) !! x = None) as Hn.
        { clear. induction l as [|y l IH]; intros u Hu; [done|]. rewrite clean_up_step. apply IH.
          destruct (ss_objects u !! y) eqn:Hy; [|done]. cbn. rewrite lookup_insert_ne; [done|]. intros ->. congruence. }
        by rewrite Hn in Hf.
    + intros (f0 & Hf0 & Hc0). apply Hcl. unfold s1. destruct (decide (o = x)) as [->|Hne].
      * rewrite Hf0. exists (shut_file f0). split; [apply lookup_insert_eq|apply shut_file_closed].
      * exists f0. split; [|done]. destruct (ss_objects s !! x); [|done]. cbn. by rewrite lookup_insert_ne.
Qed.

(** When a session is cut off, whatever was still being written is
    dropped: no file system has changed, every file the session had open is
    closed, and closing it afterwards still uploads nothing. *)
Theorem cut_off_session_uploads_nothing (s : Session W M) :
  let '(r, s') := srv_exit s in
  r = Ok tt /\ ss_clients s' = ss_clients s /\ ss_handles s' = [] /\
  forall o f, o ∈ ss_handles s -> ss_objects s' !! o = Some f ->
    closed_file f /\ ss_clients (close on_written o s').2 = ss_clients s.
Proof.
  unfold srv_exit. destruct (clean_up_spec (ss_handles s) (with_handles [] s)) as (Hc & Hh & Ho).
  split; [done|]. split; [done|]. split; [done|]. intros o f Hin Hf. destruct (Ho o f Hf) as [Hcl _]. specialize (Hcl Hin). split; [done|].
  unfold close. rewrite translate_state, Hf. unfold close_object. rewrite Hf. destruct f as [c p n h|c p h]; [by cbn|].
  unfold wh_close. simpl in Hcl. rewrite Hcl. by cbn.
Qed.

(** ** Truncation *)

(** What [touch] does to a file that exists. *)
Lemma touch_existing ac path (s : Fs W M) fr :
  stat_file path s = (Ok fr, s) -> touch ac on_written path s = (Ok tt, s).
Proof.
  unfold stat_file, touch, sbind, slift, stry. destruct (validate_path path) as [[]|]; [|done].
  pose proof (silent_bind (cd (W := W) (M := M) (dirname path)) (fun d => slift (need d)) (silent_cd _) (fun _ => silent_lift _) s) as Hs.
  unfold at_dir in *. unfold sbind, slift in *. destruct (cd (dirname path) s) as [[d|ex] s1]; [|done].
  destruct (need d) as [d'|]; simpl in Hs; subst; [|done]. cbn. unfold get_fr. by destruct (find_file _ _ _).
Qed.

(** Opening an existing file for writing with the truncation flag, and
    closing it without having written, leaves the file as it was: the open
    succeeds and so does the close, but nothing was truncated -- no file
    system changed at all. *)
Theorem truncating_open_keeps_content path pflags r fr c (s : Session W M) :
  resolve path = Ok r -> is_root r || is_client_root r = false -> is_dir r s = (Ok false, s) ->
  Dict.get (client_name r) (ss_clients s) = Some c -> stat_file (relative r) (cl_fs c) = (Ok fr, cl_fs c) ->
  flag pflags (Z.lor FXF_WRITE FXF_APPEND) = true -> flag pflags FXF_APPEND = false -> flag pflags FXF_EXCL = false ->
  exists obj s1 s2,
    open_file on_written false path pflags s = (Ok obj, s1) /\ close on_written obj s1 = (Ok tt, s2) /\ ss_clients s2 = ss_clients s.
Proof.
  intros Hr Hroot Hdir Hc Hfr Hw Ha He. destruct c as [ac fs]. cbn [cl_fs] in Hfr.
  assert (srv_exists r s = (Ok true, s)) as Hex.
  { unfold srv_exists, found, stry, on_client, sbind. rewrite Hc. cbn [cl_api cl_fs]. rewrite Hfr. rewrite dict_set_same by done. by destruct s. }
  assert (on_client (client_name r) (fun ac => touch ac on_written (relative r)) s = (Ok tt, s)) as Ht.
  { unfold on_client. rewrite Hc. cbn [cl_api cl_fs]. rewrite (touch_existing _ _ _ _ Hfr). rewrite dict_set_same by done. by destruct s. }
  eexists (ss_next s), _, _. split; [|split].
  - unfold open_file, translate_errors, stry, sbind, slift. rewrite Hr, Hroot, Hdir, Hw.
    unfold open_for_write, sbind, require_write, sret. rewrite Ha, Hex, He. cbn [andb negb]. rewrite Ht. reflexivity.
  - unfold close, translate_errors, stry, close_object. cbn [new_handle ss_objects]. rewrite lookup_insert_eq. cbn. reflexivity.
  - done.
Qed.

End Silent.

(** ** The theorems at work *)

(** One client, [notes], with the files [/a/f] and [/g] and the empty
    directory [/b]; the file 0 is being written. *)
Definition demo_session : Session MemWorld Pinned :=
  {| ss_clients := [("notes"%string, {| cl_api := demo_api; cl_fs := demo_fs |})];
     ss_objects := {[ 0%nat := HWrite "notes" "/g" (writes [(0, [Byte.x61])] open_write) ]};
     ss_handles := [0%nat]; ss_next := 1 |}.

Definition idle_session : Session MemWorld Pinned :=
  {| ss_clients := ss_clients demo_session; ss_objects := ∅; ss_handles := []; ss_next := 0 |}.

Lemma readonly_session_changes_nothing_witness :
  let s1 := (session None id true [RScandir "/notes"; ROpen "/notes/g" 26] idle_session).2 in
  no_writers s1 /\ forall r, mutating r = true -> exists ex, serve None id true r s1 = (Raise ex, s1).
Proof.
  apply (readonly_session_changes_nothing None id [RScandir "/notes"; ROpen "/notes/g" 26] idle_session).
  intros o f. cbn. by rewrite lookup_empty.
Defined.

(** [/b] is not moved onto [/a], which holds a file. *)
Lemma rename_keeps_target_witness :
  exists ex, rename false "/notes/b" "/notes/a" true idle_session = (Raise ex, idle_session).
Proof.
  apply (rename_keeps_target false "/notes/b" "/notes/a" true {| client_name := "notes"; relative := "/b" |}
           {| client_name := "notes"; relative := "/a" |} true true false idle_session).
  - vm_compute; reflexivity.
  - vm_compute; reflexivity.
  - done.
  - vm_compute; reflexivity.
  - vm_compute; reflexivity.
  - vm_compute; reflexivity.
  - reflexivity.
  - right. right. split; [done|]. intros d h s1 s2 Hd Hh. apply (f_equal fst) in Hd, Hh. vm_compute in Hd.
    injection Hd as <-. vm_compute in Hh. injection Hh as <-. vm_compute. reflexivity.
Defined.

Lemma cut_off_session_uploads_nothing_witness :
  let '(r, s') := srv_exit demo_session in
  r = Ok tt /\ ss_clients s' = ss_clients demo_session /\ ss_handles s' = [] /\
  forall o f, o ∈ ss_handles demo_session -> ss_objects s' !! o = Some f ->
    closed_file f /\ ss_clients (close None o s').2 = ss_clients demo_session.
Proof. apply (cut_off_session_uploads_nothing None demo_session). Defined.

Lemma truncating_open_keeps_content_witness :
  exists obj s1 s2,
    open_file None false "/notes/g" 26 idle_session = (Ok obj, s1) /\ close None obj s1 = (Ok tt, s2) /\ ss_clients s2 = ss_clients idle_session.
Proof.
  eapply (truncating_open_keeps_content None "/notes/g" 26 {| client_name := "notes"; relative := "/g" |} _ {| cl_api := demo_api; cl_fs := demo_fs |}).
  - vm_compute; reflexivity.
  - reflexivity.
  - vm_compute; reflexivity.
  - reflexivity.
  - vm_compute; reflexivity.
  - reflexivity.
  - reflexivity.
  - reflexivity.
Defined.
