(* ===== verification/Github.v ===== *)
(** * GitHub, as the metadata repository uses it

    The REST calls of [PyGithub] are the class [Github] over the state [G] of
    the server; any of them may raise.  [GithubLaws] states what the Git Data
    API documents, for a repository nobody else writes to meanwhile: commits
    and trees never change, a listing that is not truncated is the tree, a
    branch moves only forward from its head, and a call that fails leaves the
    branch where it was -- or, when only its answer was lost, where the call
    has put it.  [GitMem] is a server in memory whose calls may be made to
    fail. *)

From S2P Require Import Prelude Errors Codec FileVersion PosixPath.

Open Scope Z_scope.
Open Scope py_scope.

(** ** The REST API *)

(** A file of a comparison; an entry of a recursive tree listing; a file or
    a folder of a directory listing; an element of a tree to create. *)
Record ChangedFile := { cf_filename : string; cf_previous : option string }.
Record Commit := { gc_message : option string; gc_date : exc datetime }.
Record GitTreeElement := { te_path : string; te_mode : string; te_type : string; te_sha : string }.
Record GitTree := { gt_truncated : bool; gt_tree : list GitTreeElement }.
Record ContentFile := { co_type : string; co_name : string; co_path : string; co_sha : string }.
Inductive Blob := BSha (sha : option string) | BContent (content : string).
Record InputGitTreeElement := { ie_path : string; ie_mode : string; ie_blob : Blob }.

(** Lists that are fetched page by page end where a page fails. *)
Class Github (G : Type) := {
  get_branch : string -> st exn G string;                        (* [.commit.sha] *)
  compare : string -> string -> st exn G (list ChangedFile);
  get_commits : string -> string -> st exn G (list Commit * option exn);
  repo_dates : st exn G (option datetime * option datetime * option datetime);   (* created, pushed, updated *)
  create_file : string -> string -> string -> st exn G unit;     (* path, message, branch *)
  get_contents : string -> string -> st exn G (list ContentFile);    (* path, ref; one file is a list of one *)
  delete_file : string -> string -> string -> string -> st exn G unit;
  get_git_ref : string -> st exn G string;                       (* [.object.sha] *)
  get_git_commit : string -> st exn G string;                    (* [.tree.sha] *)
  get_git_tree : string -> st exn G GitTree;                     (* recursive *)
  create_git_tree : list InputGitTreeElement -> option string -> st exn G string;
  create_git_commit : string -> string -> string -> st exn G string;   (* message, tree, parent *)
  edit_ref : string -> string -> st exn G unit;                  (* branch, commit *)
  get_git_blob : string -> st exn G string                       (* [.content] *)
}.


(** ** The repository behind it *)

(** The files of a tree: mode and object id by path. *)
Abbreviation files_of_tree := (gmap string (string * string)).

Record Repo := {
  rp_head : string;
  rp_commits : gmap string (string * option string);             (* tree, parent *)
  rp_trees : gmap string files_of_tree
}.

Definition commit_files (r : Repo) (c : string) : option files_of_tree :=
  match rp_commits r !! c with Some (t, _) => rp_trees r !! t | None => None end.

(** The files on the branch. *)
Definition head_files (r : Repo) : option files_of_tree := commit_files r (rp_head r).

Definition grows (r r' : Repo) : Prop := rp_commits r ⊆ rp_commits r' /\ rp_trees r ⊆ rp_trees r'.
Definition quiet (r r' : Repo) : Prop := grows r r' /\ rp_head r' = rp_head r.

#[export] Instance grows_preorder : PreOrder grows.
Proof. split; [by intros r|]. intros a b c [H1 H2] [H3 H4]. by split; etrans. Qed.
#[export] Instance quiet_preorder : PreOrder quiet.
Proof. split; [by intros r|]. intros a b c [H1 H2] [H3 H4]. split; [by etrans|congruence]. Qed.

(** What [create_git_tree] makes of its elements. *)
Definition apply_element (git_sha : string -> string) (files : files_of_tree) (e : InputGitTreeElement) : files_of_tree :=
  match ie_blob e with
  | BSha (Some sha) => <[ie_path e := (ie_mode e, sha)]> files
  | BSha None => delete (ie_path e) files
  | BContent content => <[ie_path e := (ie_mode e, git_sha content)]> files
  end.

Definition apply_elements (git_sha : string -> string) (base : files_of_tree) (l : list InputGitTreeElement) : files_of_tree :=
  foldl (apply_element git_sha) base l.

(** A listing of a tree, as far as its files go. *)
Definition lists (l : list GitTreeElement) (files : files_of_tree) : Prop :=
  NoDup (map te_path l) /\
  forall p m s, files !! p = Some (m, s) <->
                {| te_path := p; te_mode := m; te_type := "blob"; te_sha := s |} ∈ l.

Class GithubLaws (G : Type) `{Github G} := {
  repo : G -> Repo;
  git_sha : string -> string;                    (* the id of a blob with this content *)
  the_branch : string;
  ref_law : forall g, let '(r, g') := get_git_ref the_branch g in
    quiet (repo g) (repo g') /\ match r with Ok c => c = rp_head (repo g') | Raise _ => True end;
  commit_law : forall c g, let '(r, g') := get_git_commit c g in
    quiet (repo g) (repo g') /\
    match r with Ok t => forall p, rp_commits (repo g) !! c = Some p -> p.1 = t | Raise _ => True end;
  tree_law : forall t g, let '(r, g') := get_git_tree t g in
    quiet (repo g) (repo g') /\
    match r with
    | Ok gt => forall files, rp_trees (repo g) !! t = Some files -> gt_truncated gt = false -> lists (gt_tree gt) files
    | Raise _ => True
    end;
  new_tree_law : forall l base g, let '(r, g') := create_git_tree l base g in
    quiet (repo g) (repo g') /\
    match r with
    | Ok t => forall files, match base with None => files = ∅ | Some b => rp_trees (repo g) !! b = Some files end ->
              rp_trees (repo g') !! t = Some (apply_elements git_sha files l)
    | Raise _ => True
    end;
  new_commit_law : forall m t p g, let '(r, g') := create_git_commit m t p g in
    quiet (repo g) (repo g') /\
    match r with Ok c => rp_commits (repo g') !! c = Some (t, Some p) | Raise _ => True end;
  edit_law : forall c g, let '(r, g') := edit_ref the_branch c g in
    grows (repo g) (repo g') /\
    (rp_head (repo g') = rp_head (repo g) \/
     rp_head (repo g') = c /\ exists t, rp_commits (repo g) !! c = Some (t, Some (rp_head (repo g)))) /\
    match r with Ok _ => rp_head (repo g') = c | Raise x => is_Exception x = true end
}.

(** ** A server in memory *)

Inductive fate := Works | Fails | AnswerLost.

Record GitMem := { gm_repo : Repo; gm_limit : nat; gm_fates : list fate }.   (* [gm_limit]: entries of a listing *)

Definition mem_call {A} (m : Repo -> exc A * Repo) : st exn GitMem A := fun g =>
  let after r := {| gm_repo := r; gm_limit := gm_limit g; gm_fates := tail (gm_fates g) |} in
  match gm_fates g with
  | Fails :: _ => (Raise (BackendError 500), after (gm_repo g))
  | AnswerLost :: _ => (Raise (BackendError 502), after (m (gm_repo g)).2)
  | _ => ((m (gm_repo g)).1, after (m (gm_repo g)).2)
  end.

Definition not_found {A} (r : Repo) : exc A * Repo := (Raise (BackendError 404), r).

Definition mem_new_tree (l : list InputGitTreeElement) (base : option string) (r : Repo) : exc string * Repo :=
  let t := fresh (dom (rp_trees r)) in
  match (match base with None => Some ∅ | Some b => rp_trees r !! b end) with
  | None => not_found r
  | Some files =>
      (Ok t, {| rp_head := rp_head r; rp_commits := rp_commits r;
                rp_trees := <[t := apply_elements (String "c") files l]> (rp_trees r) |})
  end.

Definition mem_new_commit (t p : string) (r : Repo) : exc string * Repo :=
  let c := fresh (dom (rp_commits r)) in
  (Ok c, {| rp_head := rp_head r; rp_commits := <[c := (t, Some p)]> (rp_commits r); rp_trees := rp_trees r |}).

Definition mem_edit (c : string) (r : Repo) : exc unit * Repo :=
  match rp_commits r !! c with
  | Some (_, Some p) =>
      if bool_decide (p = rp_head r)
      then (Ok tt, {| rp_head := c; rp_commits := rp_commits r; rp_trees := rp_trees r |})
      else (Raise (BackendError 422), r)
  | _ => (Raise (BackendError 422), r)
  end.

(** One file of the branch written or removed, in a commit of its own. *)
Definition mem_change (e : InputGitTreeElement) (r : Repo) : exc unit * Repo :=
  match rp_commits r !! rp_head r with
  | None => not_found r
  | Some (base, _) =>
      match mem_new_tree [e] (Some base) r with
      | (Raise x, r) => (Raise x, r)
      | (Ok t, r) => let '(c, r) := mem_new_commit t (rp_head r) r in
                     match c with Ok c => mem_edit c r | Raise x => (Raise x, r) end
      end
  end.

Definition mem_files (r : Repo) : files_of_tree := default ∅ (head_files r).

(** The folders the paths of the files go through. *)
Fixpoint slash_prefixes (s : string) : list string :=
  match s with
  | EmptyString => []
  | String c s =>
      (if bool_decide (c = "/"%char) then [EmptyString] else []) ++ map (String c) (slash_prefixes s)
  end.

Definition mem_dirs (files : files_of_tree) : list string :=
  List.filter (fun p => negb (bool_decide (is_Some (files !! p))))
    (remove_dups (concat (map (fun f => slash_prefixes f.1) (map_to_list files)))).

Definition mem_listing (files : files_of_tree) : list GitTreeElement :=
  map (fun p => {| te_path := p; te_mode := "040000"; te_type := "tree"; te_sha := "" |}) (mem_dirs files) ++
  map (fun f => {| te_path := f.1; te_mode := f.2.1; te_type := "blob"; te_sha := f.2.2 |}) (map_to_list files).

Definition mem_tree (limit : nat) (t : string) (r : Repo) : exc GitTree * Repo :=
  match (match rp_trees r !! t with
         | Some files => Some files
         | None => if bool_decide (t = "main"%string) then head_files r else None
         end) with
  | None => not_found r
  | Some files =>
      let l := mem_listing files in
      (Ok {| gt_truncated := (limit <? length l)%nat; gt_tree := take limit l |}, r)
  end.

(** [get_contents]: the file, or what lies directly in the folder. *)
Definition mem_contents (path : string) (r : Repo) : exc (list ContentFile) * Repo :=
  let here p := bool_decide ((split_last p).1 = (if bool_decide (path = EmptyString) then EmptyString else (path +:+ "/")%string)) in
  match mem_files r !! path with
  | Some (_, sha) => (Ok [{| co_type := "file"; co_name := basename path; co_path := path; co_sha := sha |}], r)
  | None =>
      match List.filter (fun e => here (te_path e)) (mem_listing (mem_files r)) with
      | [] => not_found r
      | l => (Ok (map (fun e => {| co_type := if bool_decide (te_type e = "tree"%string) then "dir" else "file";
                                   co_name := basename (te_path e); co_path := te_path e; co_sha := te_sha e |}) l), r)
      end
  end.

Definition mem_compare (a b : string) (r : Repo) : exc (list ChangedFile) * Repo :=
  match commit_files r a, commit_files r b with
  | Some x, Some y =>
      (Ok (map (fun p => {| cf_filename := p; cf_previous := None |})
             (List.filter (fun p => negb (bool_decide (x !! p = y !! p))) (elements (dom x ∪ dom y)))), r)
  | _, _ => not_found r
  end.

Definition mem_blob (sha : string) (r : Repo) : exc string * Repo :=
  match sha with
  | String _ content => (Ok (String.string_of_list_ascii (b64_encode (String.list_byte_of_string content))), r)
  | EmptyString => not_found r
  end.

#[export] Instance git_mem : Github GitMem := {
  get_branch _ := mem_call (fun r => (Ok (rp_head r), r));
  compare a b := mem_call (mem_compare a b);
  get_commits _ _ := mem_call (fun r => (Ok ([], None), r));       (* no history is kept *)
  repo_dates := mem_call (fun r => (Ok (None, None, None), r));
  create_file path _ _ := mem_call (fun r =>
    if bool_decide (is_Some (mem_files r !! path)) then (Raise (BackendError 422), r)
    else mem_change {| ie_path := path; ie_mode := "100644"; ie_blob := BContent "" |} r);
  get_contents path _ := mem_call (mem_contents path);
  delete_file path _ sha _ := mem_call (fun r =>
    match mem_files r !! path with
    | Some (_, s) => if bool_decide (s = sha) then mem_change {| ie_path := path; ie_mode := "100644"; ie_blob := BSha None |} r
                     else (Raise (BackendError 409), r)
    | None => not_found r
    end);
  get_git_ref _ := mem_call (fun r => (Ok (rp_head r), r));
  get_git_commit c := mem_call (fun r => match rp_commits r !! c with Some (t, _) => (Ok t, r) | None => not_found r end);
  get_git_tree t g := mem_call (mem_tree (gm_limit g) t) g;
  create_git_tree l base := mem_call (mem_new_tree l base);
  create_git_commit _ t p := mem_call (mem_new_commit t p);
  edit_ref _ c := mem_call (mem_edit c);
  get_git_blob sha := mem_call (mem_blob sha)
}.

(** A repository with these files, its calls all working. *)
Definition git_with (limit : nat) (fates : list fate) (paths : list string) : GitMem :=
  {| gm_repo := {| rp_head := "C"; rp_commits := {[ "C"%string := ("T"%string, None) ]};
                   rp_trees := {[ "T"%string := list_to_map (map (fun p => (p, ("100644", "c"))) paths) ]} |};
     gm_limit := limit; gm_fates := fates |}.

(** ** The server keeps the laws *)

Lemma mem_call_spec {A} (m : Repo -> exc A * Repo) (P : Repo -> exc A -> Repo -> Prop) g :
  (forall x, is_Exception x = true -> P (gm_repo g) (Raise x) (gm_repo g)) ->
  (forall x, is_Exception x = true -> P (gm_repo g) (Raise x) (m (gm_repo g)).2) ->
  P (gm_repo g) (m (gm_repo g)).1 (m (gm_repo g)).2 ->
  let '(r, g') := mem_call m g in P (gm_repo g) r (gm_repo g').
Proof. intros H1 H2 H3. unfold mem_call. destruct (gm_fates g) as [|[| |] fs]; cbn; auto. Qed.

Lemma grows_trees r t files :
  rp_trees r !! t = None ->
  grows r {| rp_head := rp_head r; rp_commits := rp_commits r; rp_trees := <[t := files]> (rp_trees r) |}.
Proof. intros Ht. split; [done|]. cbn. by apply insert_subseteq. Qed.

Lemma grows_commits r c p :
  rp_commits r !! c = None ->
  grows r {| rp_head := rp_head r; rp_commits := <[c := p]> (rp_commits r); rp_trees := rp_trees r |}.
Proof. intros Hc. split; [|done]. cbn. by apply insert_subseteq. Qed.

Lemma fresh_key {V} (m : gmap string V) : m !! (fresh (dom m)) = None.
Proof. apply not_elem_of_dom, is_fresh. Qed.

Lemma mem_new_tree_spec l base r :
  quiet r (mem_new_tree l base r).2 /\
  match (mem_new_tree l base r).1 with
  | Ok t => forall files, match base with None => files = ∅ | Some b => rp_trees r !! b = Some files end ->
            rp_trees (mem_new_tree l base r).2 !! t = Some (apply_elements (String "c") files l)
  | Raise _ => True
  end.
Proof.
  unfold mem_new_tree. set (t := fresh (dom (rp_trees r))).
  assert (rp_trees r !! t = None) as Ht by apply fresh_key. destruct base as [b|].
  - destruct (rp_trees r !! b) as [files|] eqn:Hb; [|done]. cbn [fst snd]. split; [by split; [apply grows_trees|]|].
    intros f [= <-]. cbn [rp_trees]. apply lookup_insert_eq.
  - cbn [fst snd]. split; [by split; [apply grows_trees|]|]. intros f ->. cbn [rp_trees]. apply lookup_insert_eq.
Qed.

Lemma mem_listing_lists files : lists (mem_listing files) files.
Proof.
  assert (forall p, p ∈ mem_dirs files -> files !! p = None) as Hdirs.
  { intros p Hp. apply list_elem_of_In, filter_In in Hp as [_ Hp%negb_true_iff%bool_decide_eq_false].
    by apply eq_None_not_Some. }
  unfold mem_listing. split.
  - rewrite map_app, !map_map. cbn [te_path]. rewrite map_id. apply NoDup_app. split; [|split].
    + unfold mem_dirs. apply NoDup_ListNoDup, List.NoDup_filter, NoDup_ListNoDup, NoDup_remove_dups.
    + intros p Hp%Hdirs Hin. apply list_elem_of_In, in_map_iff in Hin as ([q v] & <- & Hv%list_elem_of_In).
      apply elem_of_map_to_list in Hv. cbn in Hp. congruence.
    + apply (NoDup_fst_map_to_list files).
  - intros p m s. rewrite elem_of_app. split.
    + intros Hf. right. apply list_elem_of_In, in_map_iff. exists (p, (m, s)). split; [done|].
      by apply list_elem_of_In, elem_of_map_to_list.
    + intros [Hd|Hb].
      * by apply list_elem_of_In, in_map_iff in Hd as (q & Hq & _).
      * apply list_elem_of_In, in_map_iff in Hb as ([q [m' s']] & [= <- <- <-] & Hq%list_elem_of_In).
        by apply elem_of_map_to_list in Hq.
Qed.

#[export] Program Instance git_mem_laws : GithubLaws GitMem := {
  repo := gm_repo;
  git_sha := String "c"%char;
  the_branch := "main"
}.
Next Obligation.
  intros g. apply (mem_call_spec _ (fun r res r' => quiet r r' /\ match res with Ok c => c = rp_head r' | Raise _ => True end)); done.
Qed.
Next Obligation.
  intros c g. apply (mem_call_spec _ (fun r res r' => quiet r r' /\
    match res with Ok t => forall p, rp_commits r !! c = Some p -> p.1 = t | Raise _ => True end)).
  - done.
  - intros x _. by destruct (rp_commits _ !! c) as [[t p]|].
  - destruct (rp_commits _ !! c) as [[t p]|] eqn:Hc; [|done]. cbn. split; [done|]. by intros q [= <-].
Qed.
Next Obligation.
  intros t g. cbn [get_git_tree git_mem]. apply (mem_call_spec _ (fun r res r' => quiet r r' /\
    match res with
    | Ok gt => forall files, rp_trees r !! t = Some files -> gt_truncated gt = false -> lists (gt_tree gt) files
    | Raise _ => True end)).
  - done.
  - intros x _. unfold mem_tree. by destruct (match rp_trees _ !! t with Some _ => _ | None => _ end).
  - unfold mem_tree. destruct (rp_trees (gm_repo g) !! t) as [files|] eqn:Ht.
    + cbn. split; [done|]. intros f [= <-] Hl%Nat.ltb_ge. rewrite take_ge by done. apply mem_listing_lists.
    + destruct (if bool_decide _ then _ else _) as [files|]; [|done]. by cbn.
Qed.
Next Obligation.
  intros l base g. apply (mem_call_spec _ (fun r res r' => quiet r r' /\
    match res with
    | Ok t => forall files, match base with None => files = ∅ | Some b => rp_trees r !! b = Some files end ->
              rp_trees r' !! t = Some (apply_elements (String "c") files l)
    | Raise _ => True end)).
  - done.
  - intros x _. split; [apply mem_new_tree_spec|done].
  - apply mem_new_tree_spec.
Qed.
Next Obligation.
  intros m t p g. apply (mem_call_spec _ (fun r res r' => quiet r r' /\
    match res with Ok c => rp_commits r' !! c = Some (t, Some p) | Raise _ => True end)).
  - done.
  - intros x _. split; [|done]. split; [apply grows_commits, fresh_key|done].
  - split; [split; [apply grows_commits, fresh_key|done]|]. cbn. apply lookup_insert_eq.
Qed.
Next Obligation.
  intros c g.
  assert (forall r, grows r (mem_edit c r).2 /\
    (rp_head (mem_edit c r).2 = rp_head r \/
     rp_head (mem_edit c r).2 = c /\ exists t, rp_commits r !! c = Some (t, Some (rp_head r))) /\
    match (mem_edit c r).1 with Ok _ => rp_head (mem_edit c r).2 = c | Raise x => is_Exception x = true end) as He.
  { intros r. unfold mem_edit. destruct (rp_commits r !! c) as [[t [p|]]|] eqn:Hc; [case_bool_decide as Hp|..]; cbn.
    1: { split; [done|]. split; [|done]. right. subst p. eauto. }
    all: by repeat split; auto. }
  apply (mem_call_spec _ (fun r res r' => grows r r' /\
    (rp_head r' = rp_head r \/ rp_head r' = c /\ exists t, rp_commits r !! c = Some (t, Some (rp_head r))) /\
    match res with Ok _ => rp_head r' = c | Raise x => is_Exception x = true end)).
  - intros x Hx. split; [done|]. auto.
  - intros x Hx. destruct (He (gm_repo g)) as (H1 & H2 & _). auto.
  - apply He.
Qed.
