(* ===== verification/GhTimes.v ===== *)
(** * The dates of the folders of a metadata repository on GitHub
      ([core/repository/impl/metadata/github_repo/dir_timestamps.py],
      [stats_file.py])

    [DirTimestampStore] is the record
    [Times]; the two workers that fill it run beside each other and beside
    the requests, so [step] takes one event at a time: what one thread does
    between two points where another may run (a lock is held or a remote call
    is under way).  The cache file holds a JSON value, which [json] writes and
    reads back as it is; how a file is written in place of the old one is
    reduced to success or failure. *)

From S2P Require Import Prelude Errors FileVersion PosixPath ConfigValue Github.

Open Scope Z_scope.
Open Scope py_scope.

(** [datetime.isoformat] and [datetime.fromisoformat]. *)
Class IsoText := { isoformat : datetime -> string; fromisoformat : string -> exc datetime }.
Class IsoLaws `{IsoText} := { iso_round_trip : forall d, fromisoformat (isoformat d) = Ok d }.

(** ** Stats files *)

Definition STATS_FILE_NAME : string := ".tgdcfsstats.json".
Definition STATS_COMMIT_PREFIX : string := "Update file stats".

Definition is_stats_file (path : string) : bool := bool_decide (basename path = STATS_FILE_NAME).

Definition is_stats_commit (message : option string) : bool :=
  match message with Some m => starts_with STATS_COMMIT_PREFIX m | None => false end.

(** ** The store *)

Definition CACHE_VERSION : Z := 1.
Definition COMPARE_FILE_LIMIT : nat := 300.
Definition WORKER_COUNT : nat := 2.
Definition SAVE_EVERY : Z := 25.
Definition STATS_COMMIT_SCAN_LIMIT : nat := 30.

Abbreviation Timestamps := (datetime * datetime)%type.

Definition ancestor_dirs (path : string) : list string :=
  let parts := removelast (split_slash path) in
  map (fun i => join_slash (take i parts)) (seq 1 (length parts)).

Record Times := {
  t_entries : dict string Timestamps;
  t_head : yaml;                                 (* the cached head; [YNull] for [None] *)
  t_queued : list string;                        (* a set *)
  t_queue : list string;
  t_started : bool;                              (* the workers *)
  t_unsaved : Z
}.

Definition no_times : Times :=
  {| t_entries := []; t_head := YNull; t_queued := []; t_queue := []; t_started := false; t_unsaved := 0 |}.

Definition with_entries (e : dict string Timestamps) (unsaved : Z) (t : Times) : Times :=
  {| t_entries := e; t_head := t_head t; t_queued := t_queued t; t_queue := t_queue t; t_started := t_started t;
     t_unsaved := unsaved |}.
Definition with_queue (queued queue : list string) (t : Times) : Times :=
  {| t_entries := t_entries t; t_head := t_head t; t_queued := queued; t_queue := queue; t_started := t_started t;
     t_unsaved := t_unsaved t |}.
Definition with_started (t : Times) : Times :=
  {| t_entries := t_entries t; t_head := t_head t; t_queued := t_queued t; t_queue := t_queue t; t_started := true;
     t_unsaved := t_unsaved t |}.

Section Times.
  Context {G : Type} `{Github G} `{IsoText} (full_name branch : string).

(** ** Reading the file *)

Definition from_iso (value : yaml) : option datetime :=
  match value with
  | YStr s => match fromisoformat s with Ok d => Some d | Raise _ => None end
  | _ => None
  end.

(** [data.get(key) == n]; a JSON number 1.0 equals 1, and so does [true]. *)
Definition y_equals (n : Z) (v : yaml) : bool :=
  match v with
  | YInt m => m =? n
  | YBool b => (if b then 1 else 0) =? n
  | YFloat trunc repr _ => match trunc with Ok m => m =? n | Raise _ => false end && bool_decide (repr = (pretty.pretty n +:+ ".0")%string)
  | _ => false
  end.

Definition value_at (key : string) (data : yaml) : yaml :=
  match data with YDict d => default YNull (y_lookup key d) | _ => YNull end.

Definition is_dict (v : yaml) : bool := match v with YDict _ => true | _ => false end.
Definition key_text (v : yaml) : string := match v with YStr s => s | _ => EmptyString end.

(** What [open] and [json.load] gave: the value, or the exception. *)
Definition read_entry (entries : dict string Timestamps) (kv : yaml * yaml) : dict string Timestamps :=
  let '(path, value) := kv in
  if negb (is_dict value) then entries
  else match from_iso (value_at "created" value), from_iso (value_at "modified" value) with
       | Some created, Some modified => Dict.set (key_text path) (created, modified) entries
       | _, _ => entries
       end.

Definition read_file (file : exc yaml) : exc (yaml * dict string Timestamps) :=
  match file with
  | Raise _ => Ok (YNull, [])
  | Ok data =>
      if negb (is_dict data) || negb (y_equals CACHE_VERSION (value_at "version" data)) then Ok (YNull, [])
      else if negb (is_key full_name (value_at "repo" data)) || negb (is_key branch (value_at "branch" data))
      then Ok (YNull, [])
      else
        let* paths := y_items (y_or (value_at "paths" data) (YDict [])) in
        Ok (value_at "head" data, foldl read_entry [] paths)
  end.

(** ** Revalidation *)

Definition current_head : st exn G (option string) :=
  stry (let! sha := get_branch branch in sret (Some sha))
       (fun ex => if is_Exception ex then sret None else sraise ex).

(** The names of a changed file that date a folder. *)
Definition dating_names (f : ChangedFile) : list string :=
  List.filter (fun n => negb (bool_decide (n = EmptyString)) && negb (is_stats_file n))
    (cf_filename f :: match cf_previous f with Some p => [p] | None => [] end).

Definition stale_dirs (files : list ChangedFile) : list string :=
  concat (map (fun f => concat (map ancestor_dirs (dating_names f))) files).

(** [base[:8]] in the message when the comparison failed. *)
Definition first_8 (base : yaml) : exc unit :=
  match base with YStr _ | YList _ => Ok tt | YDict _ => Raise KeyError | _ => Raise TypeError end.

Definition drop_changed (entries : dict string Timestamps) (base : yaml) (head : string)
  : st exn G (dict string Timestamps) :=
  stry (let! files := match base with YStr b => compare b head | _ => sraise RuntimeError end in
        sret (if (COMPARE_FILE_LIMIT <=? length files)%nat then []
              else List.filter (fun e => negb (bool_decide (e.1 ∈ stale_dirs files))) entries))
       (fun ex => if is_Exception ex then (slift (first_8 base) ;;; sret []) else sraise ex).

(** [head or cached_head]. *)
Definition head_or (head : option string) (cached : yaml) : yaml :=
  match head with Some h => y_or (YStr h) cached | None => cached end.

Definition head_differs (cached : yaml) (head : string) : bool :=
  truth cached && negb (bool_decide (head = EmptyString)) && negb (is_key head cached).

Definition load (file : exc yaml) (t : Times) : st exn G Times :=
  let! (cached_head, entries) := slift (read_file file) in
  let! head := current_head in
  let! entries :=
    (match head with
     | Some h => if head_differs cached_head h then drop_changed entries cached_head h
                 else sret (if truth cached_head then entries else [])
     | None => sret (if truth cached_head then entries else [])
     end) in
  sret {| t_entries := entries; t_head := head_or head cached_head; t_queued := t_queued t; t_queue := t_queue t;
          t_started := t_started t; t_unsaved := t_unsaved t |}.

(** ** Lookups *)

(** The part of [request] under the lock. *)
Definition admits (path : string) (t : Times) : bool :=
  negb (bool_decide (path = EmptyString)) && negb (Dict.mem path (t_entries t)) && negb (bool_decide (path ∈ t_queued t)).

Definition enter (path : string) (t : Times) : Times := with_queue (t_queued t ++ [path]) (t_queue t) t.
Definition put (path : string) (t : Times) : Times := with_started (with_queue (t_queued t) (t_queue t ++ [path]) t).

Definition request (path : string) (t : Times) : Times :=
  if admits path t then put path (enter path t) else t.

Definition get (path : string) (t : Times) : option Timestamps * Times :=
  match Dict.get path (t_entries t) with
  | Some found => (Some found, t)
  | None => (None, request path t)
  end.

(** ** One lookup *)

(** The loop over the commits; [seen] counts them, [newest] is the date of
    the first. *)
Fixpoint scan_commits (seen : nat) (newest : option datetime) (commits : list Commit) (fault : option exn)
  : exc (option datetime) :=
  match commits with
  | [] => match fault with Some e => Raise e | None => Ok newest end
  | c :: commits =>
      let* newest := match newest with Some d => Ok (Some d) | None => rmap Some (gc_date c) end in
      if negb (is_stats_commit (gc_message c)) then rmap Some (gc_date c)
      else if (STATS_COMMIT_SCAN_LIMIT <=? seen + 1)%nat then Ok newest
      else scan_commits (seen + 1) newest commits fault
  end.

Definition latest_commit_date (path : string) : st exn G (option datetime) :=
  stry (let! (commits, fault) := get_commits branch path in slift (scan_commits 0 None commits fault))
       (fun ex => if is_Exception ex then sret None else sraise ex).

(** The two lookups of [_resolve]: [None] when there is nothing to store. *)
Definition look_up (path : string) : st exn G (option Timestamps) :=
  let! modified := latest_commit_date path in
  let! keep := latest_commit_date (path +:+ "/.gitkeep") in
  let created := match keep with Some d => Some d | None => modified end in
  sret (match created, modified with Some c, Some m => Some (c, m) | _, _ => None end).

(** The rest of it: whether the cache is due to be saved. *)
Definition store (path : string) (found : Timestamps) (t : Times) : bool * Times :=
  (SAVE_EVERY <=? t_unsaved t + 1, with_entries (Dict.set path found (t_entries t)) (t_unsaved t + 1) t).

(** ** Saving *)

Definition payload (t : Times) : yaml :=
  YDict [(YStr "version", YInt CACHE_VERSION); (YStr "repo", YStr full_name); (YStr "branch", YStr branch);
         (YStr "head", t_head t);
         (YStr "paths", YDict (map (fun e => (YStr e.1, YDict [(YStr "created", YStr (isoformat e.2.1));
                                                               (YStr "modified", YStr (isoformat e.2.2))]))
                                   (t_entries t)))].

(** The part of [save] under the lock; [None] when nothing is unsaved. *)
Definition snapshot (t : Times) : option yaml * Times :=
  if t_unsaved t =? 0 then (None, t) else (Some (payload t), with_entries (t_entries t) 0 t).

(** The write: [written] says whether it succeeded. *)
Definition save_written (written : bool) (data : yaml) (file : exc yaml) (t : Times) : exc yaml * Times :=
  if written then (Ok data, t) else (file, with_entries (t_entries t) (t_unsaved t + 1) t).

Definition save (written : bool) (file : exc yaml) (t : Times) : exc yaml * Times :=
  match snapshot t with
  | (None, t) => (file, t)
  | (Some data, t) => save_written written data file t
  end.

(** ** The workers *)

Inductive phase :=
| Waiting                                        (* in [queue.get] *)
| Looking (path : string)                        (* the calls of [_resolve] *)
| Found (path : string) (found : option Timestamps)
| Saving (path : string) (data : yaml)           (* [save] inside [_resolve] *)
| Done (path : string)                           (* at the [finally] *)
| Released                                       (* behind it *)
| SavingLast (data : yaml).                      (* the [save] of an empty queue *)

Record Fill := {
  f_times : Times;
  f_putting : list string;                       (* requests between the lock and [put] *)
  f_workers : list phase;
  f_file : exc yaml
}.

Inductive event :=
| ERequest (path : string)
| EPut (path : string)
| EWorker (i : nat) (found : option Timestamps) (written : bool).

Definition set_worker (i : nat) (p : phase) (t : Times) (file : exc yaml) (f : Fill) : Fill :=
  {| f_times := t; f_putting := f_putting f; f_workers := <[i := p]> (f_workers f); f_file := file |}.

(** The next stretch of worker [i]: [found] is what its lookup gave,
    [written] whether its write succeeded. *)
Definition worker_step (i : nat) (found : option Timestamps) (written : bool) (f : Fill) : option Fill :=
  let t := f_times f in
  match f_workers f !! i with
  | None => None
  | Some Waiting =>
      match t_queue t with
      | [] => None
      | p :: rest => Some (set_worker i (Looking p) (with_queue (t_queued t) rest t) (f_file f) f)
      end
  | Some (Looking p) => Some (set_worker i (Found p found) t (f_file f) f)
  | Some (Found p None) => Some (set_worker i (Done p) t (f_file f) f)
  | Some (Found p (Some d)) =>
      let '(due, t) := store p d t in
      match (if due then snapshot t else (None, t)) with
      | (Some data, t) => Some (set_worker i (Saving p data) t (f_file f) f)
      | (None, t) => Some (set_worker i (Done p) t (f_file f) f)
      end
  | Some (Saving p data) =>
      let '(file, t) := save_written written data (f_file f) t in Some (set_worker i (Done p) t file f)
  | Some (Done p) =>
      Some (set_worker i Released
              (with_queue (List.filter (fun q => negb (bool_decide (q = p))) (t_queued t)) (t_queue t) t) (f_file f) f)
  | Some Released =>
      match t_queue t with
      | [] => match snapshot t with
              | (Some data, t) => Some (set_worker i (SavingLast data) t (f_file f) f)
              | (None, t) => Some (set_worker i Waiting t (f_file f) f)
              end
      | _ => Some (set_worker i Waiting t (f_file f) f)
      end
  | Some (SavingLast data) =>
      let '(file, t) := save_written written data (f_file f) t in Some (set_worker i Waiting t file f)
  end.

Definition step (e : event) (f : Fill) : option Fill :=
  match e with
  | ERequest path =>
      if admits path (f_times f)
      then Some {| f_times := enter path (f_times f); f_putting := f_putting f ++ [path];
                   f_workers := f_workers f; f_file := f_file f |}
      else Some f
  | EPut path =>
      if bool_decide (path ∈ f_putting f)
      then Some {| f_times := put path (f_times f);
                   f_putting := List.filter (fun q => negb (bool_decide (q = path))) (f_putting f);
                   f_workers := if t_started (f_times f) then f_workers f else replicate WORKER_COUNT Waiting;
                   f_file := f_file f |}
      else None
  | EWorker i found written => worker_step i found written f
  end.

Fixpoint run (es : list event) (f : Fill) : option Fill :=
  match es with
  | [] => Some f
  | e :: es => match step e f with Some f => run es f | None => None end
  end.

(** After [load]. *)
Definition started_with (t : Times) (file : exc yaml) : Fill :=
  {| f_times := t; f_putting := []; f_workers := []; f_file := file |}.

End Times.

(** ** Folders that contain a path *)

Lemma join_slash_cons p l : l <> [] -> join_slash (p :: l) = (p +:+ String "/" (join_slash l))%string.
Proof. by destruct l. Qed.

Lemma join_slash_app l k :
  l <> [] -> k <> [] -> join_slash (l ++ k) = (join_slash l +:+ String "/" (join_slash k))%string.
Proof.
  intros Hl Hk. induction l as [|p l IH]; [done|]. destruct l as [|q l].
  - cbn [app]. by apply join_slash_cons.
  - rewrite <- app_comm_cons, !join_slash_cons by done. rewrite IH by done.
    generalize (join_slash (q :: l)) as u, (join_slash k) as v. clear. intros u v.
    induction p as [|c p IH]; [done|]. rewrite !str_app_cons. by f_equal.
Qed.

Lemma join_split_slash s : join_slash (split_slash s) = s.
Proof.
  induction s as [|c s IH]; [done|]. cbn [split_slash]. case_bool_decide as Hc.
  - rewrite join_slash_cons by apply split_slash_nonnil. rewrite IH. by subst c.
  - destruct (split_slash s) as [|p ps] eqn:Hs; [by apply split_slash_nonnil in Hs|].
    destruct ps as [|q ps]; [by rewrite <- IH|]. rewrite join_slash_cons by done. rewrite str_app_cons, <- IH. done.
Qed.

(** Exactly the folders the path goes through. *)
Lemma ancestor_dirs_spec d path : d ∈ ancestor_dirs path <-> exists rest, path = (d +:+ String "/" rest)%string.
Proof.
  unfold ancestor_dirs. rewrite list_elem_of_fmap. setoid_rewrite elem_of_seq. split.
  - intros (i & -> & Hi). set (l := split_slash path) in *. pose proof (split_slash_nonnil path) as Hnn. fold l in Hnn.
    assert (l = take i (removelast l) ++ drop i l) as Hl.
    { destruct (exists_last Hnn) as (k & z & Hkz). rewrite Hkz, removelast_last in *.
      rewrite drop_app_le by lia. by rewrite app_assoc, take_drop. }
    assert (length (removelast l) < length l)%nat.
    { destruct (exists_last Hnn) as (k & z & ->). rewrite removelast_last, length_app. cbn. lia. }
    exists (join_slash (drop i l)). rewrite <- join_slash_app.
    + rewrite <- Hl. symmetry. apply join_split_slash.
    + intros He%(f_equal length). rewrite length_take in He. cbn in He. lia.
    + intros He%(f_equal length). rewrite length_drop in He. cbn in He. lia.
  - intros [rest ->]. rewrite split_slash_app.
    rewrite removelast_app by apply split_slash_nonnil. exists (length (split_slash d)). split.
    + by rewrite take_app_length, join_split_slash.
    + rewrite length_app. pose proof (split_slash_nonnil d). destruct (split_slash d); [done|]. cbn. lia.
Qed.

(** ** What a lookup finds *)

Section Lookup.
  Context (dates : Commit -> datetime).

Lemma scan_commits_from seen newest commits :
  (seen < STATS_COMMIT_SCAN_LIMIT)%nat -> Forall (fun c => gc_date c = Ok (dates c)) commits ->
  scan_commits seen newest commits None =
  Ok (match List.find (fun c => negb (is_stats_commit (gc_message c))) (take (STATS_COMMIT_SCAN_LIMIT - seen) commits) with
      | Some c => Some (dates c)
      | None => match newest with Some d => Some d | None => option_map dates (head commits) end
      end).
Proof.
  intros Hseen Hd. revert seen newest Hseen. induction Hd as [|c commits Hc Hd IH]; intros seen newest Hseen.
  - rewrite take_nil. by destruct newest.
  - replace (STATS_COMMIT_SCAN_LIMIT - seen)%nat with (S (STATS_COMMIT_SCAN_LIMIT - S seen)) by lia.
    cbn [scan_commits take List.find head option_map]. rewrite Hc. unfold rmap.
    destruct newest as [d|]; cbn [rbind]; (destruct (is_stats_commit (gc_message c)); cbn [negb]; [|done]).
    + destruct (STATS_COMMIT_SCAN_LIMIT <=? seen + 1)%nat eqn:Hl; [apply Nat.leb_le in Hl|apply Nat.leb_gt in Hl].
      * by replace (STATS_COMMIT_SCAN_LIMIT - S seen)%nat with 0%nat by lia.
      * rewrite IH by lia. by replace (seen + 1)%nat with (S seen) by lia.
    + destruct (STATS_COMMIT_SCAN_LIMIT <=? seen + 1)%nat eqn:Hl; [apply Nat.leb_le in Hl|apply Nat.leb_gt in Hl].
      * by replace (STATS_COMMIT_SCAN_LIMIT - S seen)%nat with 0%nat by lia.
      * rewrite IH by lia. by replace (seen + 1)%nat with (S seen) by lia.
Qed.

(** The date of the newest commit that changed a file, when one is among the
    thirty newest; of the newest commit otherwise. *)
Lemma scan_commits_spec commits :
  Forall (fun c => gc_date c = Ok (dates c)) commits ->
  scan_commits 0 None commits None =
  Ok (match List.find (fun c => negb (is_stats_commit (gc_message c))) (take STATS_COMMIT_SCAN_LIMIT commits) with
      | Some c => Some (dates c)
      | None => option_map dates (head commits)
      end).
Proof. intros Hd. rewrite scan_commits_from; [done|unfold STATS_COMMIT_SCAN_LIMIT; lia|done]. Qed.

End Lookup.

(** ** The cache file *)

Section Restart.
  Context {G : Type} `{Github G} `{IsoLaws} (full_name branch : string).

Lemma read_entries (d acc : dict string Timestamps) :
  foldl read_entry acc (map (fun e => (YStr e.1, YDict [(YStr "created", YStr (isoformat e.2.1));
                                                        (YStr "modified", YStr (isoformat e.2.2))])) d) =
  Dict.update acc d.
Proof.
  revert acc. induction d as [|[k [c m]] d IH]; intros acc; [done|]. cbn [map foldl read_entry is_dict negb fst snd].
  change (value_at "created" _) with (YStr (isoformat c)). change (value_at "modified" _) with (YStr (isoformat m)).
  cbn [from_iso]. rewrite !iso_round_trip. rewrite IH. done.
Qed.

Lemma read_payload t :
  Dict.wf (t_entries t) -> read_file full_name branch (Ok (payload full_name branch t)) = Ok (t_head t, t_entries t).
Proof.
  intros Hwf. unfold read_file. cbn [is_dict negb orb payload].
  change (value_at "version" _) with (YInt CACHE_VERSION). change (value_at "repo" _) with (YStr full_name).
  change (value_at "branch" _) with (YStr branch). change (value_at "head" _) with (t_head t).
  change (y_equals CACHE_VERSION (YInt CACHE_VERSION)) with true. cbn [is_key negb orb].
  rewrite !bool_decide_eq_true_2 by done. cbn [negb orb].
  match goal with |- context [value_at "paths" ?d] => change (value_at "paths" d) with
    (YDict (map (fun e => (YStr e.1, YDict [(YStr "created", YStr (isoformat e.2.1));
                                            (YStr "modified", YStr (isoformat e.2.2))])) (t_entries t))) end.
  unfold y_or. cbn [truth]. destruct (t_entries t) as [|e d] eqn:He; [done|]. cbn [map nonempty y_items rbind].
  rewrite <- (map_cons (fun e => (YStr e.1, YDict [(YStr "created", YStr (isoformat e.2.1));
                                            (YStr "modified", YStr (isoformat e.2.2))]))), read_entries.
  change (Dict.update [] (e :: d)) with (Dict.of_pairs (e :: d)). by rewrite dict_of_pairs_id.
Qed.

Lemma get_filter {V} (p : string -> bool) k (d : dict string V) :
  Dict.get k (List.filter (fun e => p e.1) d) = if p k then Dict.get k d else None.
Proof.
  induction d as [|[k' v] d IH]; cbn [List.filter Dict.get fst]; [by destruct (p k)|].
  destruct (p k') eqn:Hp; cbn [Dict.get]; rewrite IH; destruct (decide (k = k')) as [->|Hne]; try done.
  - by rewrite Hp.
  - rewrite Hp. done.
Qed.

Lemma stale_dirs_spec d files :
  d ∈ stale_dirs files <->
  exists f name rest, f ∈ files /\ name ∈ dating_names f /\ name = (d +:+ String "/" rest)%string.
Proof.
  unfold stale_dirs. rewrite list_elem_of_In, in_concat. split.
  - intros (l & (f & <- & Hf)%in_map_iff & Hd). apply in_concat in Hd as (l & (n & <- & Hn)%in_map_iff & Hd).
    apply list_elem_of_In, ancestor_dirs_spec in Hd as [rest Hr]. exists f, n, rest. by rewrite !list_elem_of_In.
  - intros (f & n & rest & Hf%list_elem_of_In & Hn%list_elem_of_In & Hr).
    eexists. split; [by apply in_map|]. apply in_concat. exists (ancestor_dirs n). split; [by apply in_map|].
    apply list_elem_of_In, ancestor_dirs_spec. by exists rest.
Qed.


End Restart.

(** ** The workers *)

Section Fill.
  Context `{IsoText} (full_name branch : string).

Definition path_of (p : phase) : list string :=
  match p with Looking q | Found q _ | Saving q _ | Done q => [q] | Waiting | Released | SavingLast _ => [] end.

(** The paths on their way: requested, queued, or with a worker. *)
Definition on_its_way (f : Fill) : list string :=
  f_putting f ++ t_queue (f_times f) ++ concat (map path_of (f_workers f)).

Definition filled (f : Fill) : Prop :=
  NoDup (on_its_way f) /\ t_queued (f_times f) ≡ₚ on_its_way f /\
  (t_started (f_times f) = false -> f_workers f = []).

Lemma concat_set i (p q : phase) ws :
  ws !! i = Some p ->
  exists rest, concat (map path_of ws) ≡ₚ path_of p ++ rest /\ concat (map path_of (<[i := q]> ws)) ≡ₚ path_of q ++ rest.
Proof.
  intros Hi. exists (concat (map path_of (take i ws)) ++ concat (map path_of (drop (S i) ws))). split.
  - rewrite <- (take_drop_middle _ _ _ Hi) at 1. rewrite map_app, concat_app. cbn [map concat].
    rewrite !app_assoc. apply Permutation_app_tail, Permutation_app_comm.
  - rewrite insert_take_drop by by eapply lookup_lt_Some. rewrite map_app, concat_app. cbn [map concat].
    rewrite !app_assoc. apply Permutation_app_tail, Permutation_app_comm.
Qed.

Lemma filter_ne_perm (p : string) l k :
  NoDup l -> l ≡ₚ p :: k -> List.filter (fun q => negb (bool_decide (q = p))) l ≡ₚ k.
Proof.
  intros Hnd Hp. rewrite Hp in Hnd. apply NoDup_cons in Hnd as [Hn Hnd].
  transitivity (List.filter (fun q => negb (bool_decide (q = p))) (p :: k)).
  - clear -Hp. induction Hp as [|x l l' Hp IH|x y l|l l' l'' _ IH1 _ IH2]; cbn [List.filter].
    + done.
    + case_bool_decide; cbn [negb]; by rewrite IH.
    + repeat case_bool_decide; cbn [negb]; try done. constructor.
    + by rewrite IH1.
  - cbn [List.filter]. rewrite bool_decide_eq_true_2 by done. cbn [negb]. clear Hp Hnd.
    induction k as [|x k IH]; [done|]. apply not_elem_of_cons in Hn as [Hx Hn]. cbn [List.filter].
    rewrite bool_decide_eq_false_2 by congruence. cbn [negb]. by rewrite IH.
Qed.

(** A worker that keeps its path, the queue and the set as they are. *)
Lemma filled_same i (p q : phase) t file f :
  f_workers f !! i = Some p -> path_of p = path_of q ->
  t_queued t = t_queued (f_times f) -> t_queue t = t_queue (f_times f) -> t_started t = t_started (f_times f) ->
  filled f -> filled (set_worker i q t file f).
Proof.
  intros Hi Hpq H1 H2 H3 (Hnd & Hperm & Hst). destruct (concat_set i p q _ Hi) as (rest & Hc & Hc').
  assert (on_its_way (set_worker i q t file f) ≡ₚ on_its_way f) as Hw.
  { unfold on_its_way. cbn [set_worker f_putting f_times f_workers]. by rewrite H2, Hc', <- Hpq, <- Hc. }
  split; [by rewrite Hw|]. split.
  - rewrite Hw. cbn [set_worker f_times]. by rewrite H1.
  - cbn [set_worker f_times f_workers]. rewrite H3. intros Hs. by rewrite (Hst Hs) in *.
Qed.

Lemma snapshot_keeps t : let t' := (snapshot full_name branch t).2 in
  t_queued t' = t_queued t /\ t_queue t' = t_queue t /\ t_started t' = t_started t.
Proof. unfold snapshot. by destruct (_ =? 0). Qed.

Lemma save_written_keeps w d file t : let t' := (save_written w d file t).2 in
  t_queued t' = t_queued t /\ t_queue t' = t_queue t /\ t_started t' = t_started t.
Proof. unfold save_written. by destruct w. Qed.

Lemma worker_step_filled i found w f f' :
  filled f -> worker_step full_name branch i found w f = Some f' -> filled f'.
Proof.
  intros Hf. unfold worker_step. destruct (f_workers f !! i) as [p|] eqn:Hi; [|done].
  destruct p as [|p|p [d|]|p data|p| |data].
  - destruct (t_queue (f_times f)) as [|p rest] eqn:Hq; [done|]. intros [= <-].
    destruct Hf as (Hnd & Hperm & Hst). destruct (concat_set i Waiting (Looking p) _ Hi) as (others & Hc & Hc').
    cbn [path_of app] in Hc, Hc'.
    assert (on_its_way (set_worker i (Looking p) (with_queue (t_queued (f_times f)) rest (f_times f)) (f_file f) f)
            ≡ₚ on_its_way f) as Hw.
    { unfold on_its_way. cbn [set_worker f_putting f_times f_workers with_queue t_queue]. rewrite Hc', Hc, Hq.
      cbn [app]. apply Permutation_app_head. symmetry. apply Permutation_middle. }
    split; [by rewrite Hw|]. split; [by rewrite Hw|]. cbn [set_worker f_times f_workers with_queue t_started]. intros Hs.
    by rewrite (Hst Hs) in Hi.
  - intros [= <-]. by eapply filled_same.
  - unfold store. set (t1 := with_entries _ _ _). pose proof (snapshot_keeps t1) as (H1 & H2 & H3).
    destruct (SAVE_EVERY <=? _).
    + destruct (snapshot full_name branch t1) as [[data|] t2]; intros [= <-]; by eapply filled_same.
    + intros [= <-]. by eapply filled_same.
  - intros [= <-]. by eapply filled_same.
  - pose proof (save_written_keeps w data (f_file f) (f_times f)) as (H1 & H2 & H3).
    destruct (save_written _ _ _ _) as [file t2]. intros [= <-]. by eapply filled_same.
  - intros [= <-]. destruct Hf as (Hnd & Hperm & Hst). destruct (concat_set i (Done p) Released _ Hi) as (others & Hc & Hc').
    cbn [path_of app] in Hc, Hc'. set (t2 := with_queue _ _ _).
    assert (on_its_way f ≡ₚ p :: on_its_way (set_worker i Released t2 (f_file f) f)) as Hw.
    { unfold on_its_way. cbn [set_worker f_putting f_times f_workers with_queue t_queue]. subst t2.
      cbn [with_queue t_queue]. rewrite Hc', Hc. rewrite !app_assoc. symmetry. apply Permutation_middle. }
    split; [rewrite Hw in Hnd; by apply NoDup_cons in Hnd as [_ Hnd]|]. split.
    + subst t2. cbn [set_worker f_times with_queue t_queued]. apply filter_ne_perm; [by rewrite Hperm|].
      by transitivity (on_its_way f).
    + cbn [set_worker f_times f_workers]. subst t2. cbn [with_queue t_started]. intros Hs. by rewrite (Hst Hs) in Hi.
  - pose proof (snapshot_keeps (f_times f)) as (H1 & H2 & H3).
    destruct (t_queue (f_times f)) eqn:Hq; [|intros [= <-]; by eapply filled_same].
    destruct (snapshot full_name branch (f_times f)) as [[data|] t2]; intros [= <-];
      (eapply filled_same; [exact Hi|done|done|by rewrite <- Hq in H2|done|done]).
  - pose proof (save_written_keeps w data (f_file f) (f_times f)) as (H1 & H2 & H3).
    destruct (save_written _ _ _ _) as [file t2]. intros [= <-]. by eapply filled_same.
Qed.

Lemma step_filled e f f' : filled f -> step full_name branch e f = Some f' -> filled f'.
Proof.
  intros Hf. destruct e as [p|p|i found w]; cbn [step].
  - destruct (admits p (f_times f)) eqn:Ha; [|congruence]. intros [= <-]. destruct Hf as (Hnd & Hperm & Hst).
    unfold admits in Ha. apply andb_prop in Ha as [_ Ha]. apply negb_true_iff, bool_decide_eq_false in Ha.
    rewrite Hperm in Ha.
    assert (on_its_way {| f_times := enter p (f_times f); f_putting := f_putting f ++ [p]; f_workers := f_workers f;
                          f_file := f_file f |} ≡ₚ p :: on_its_way f) as Hw.
    { unfold on_its_way. cbn [f_putting f_times f_workers enter with_queue t_queue].
      rewrite <- app_assoc. cbn [app]. symmetry. apply Permutation_middle. }
    split; [rewrite Hw; by apply NoDup_cons|]. split; [|done].
    rewrite Hw. cbn [f_times enter with_queue t_queued]. rewrite Hperm. symmetry. apply Permutation_cons_append.
  - case_bool_decide as Hp; [|done]. intros [= <-]. destruct Hf as (Hnd & Hperm & Hst).
    apply elem_of_Permutation in Hp as [rest Hr].
    assert (List.filter (fun q => negb (bool_decide (q = p))) (f_putting f) ≡ₚ rest) as Hfl.
    { apply filter_ne_perm; [|done]. unfold on_its_way in Hnd. by apply NoDup_app in Hnd as [Hnd _]. }
    assert (concat (map path_of (if t_started (f_times f) then f_workers f else [Waiting; Waiting])) =
            concat (map path_of (f_workers f))) as Hws.
    { destruct (t_started (f_times f)) eqn:Hs; [done|]. by rewrite (Hst eq_refl). }
    match goal with |- filled ?f2 => assert (on_its_way f2 ≡ₚ on_its_way f) as Hw end.
    { unfold on_its_way. cbn [f_putting f_times f_workers put with_started with_queue t_queue]. rewrite Hfl, Hr, Hws.
      rewrite <- app_assoc. cbn [app]. rewrite <- !Permutation_middle. done. }
    split; [by rewrite Hw|]. split; [|done]. rewrite Hw. done.
  - by apply worker_step_filled.
Qed.

Lemma run_filled es f f' : filled f -> run full_name branch es f = Some f' -> filled f'.
Proof.
  revert f. induction es as [|e es IH]; intros f Hf; cbn [run]; [by intros [= <-]|].
  destruct (step full_name branch e f) as [f1|] eqn:Hs; [|done]. apply IH. by eapply step_filled.
Qed.

(** C19: Whatever the order in which requests and the two workers run, a path
    is looked up by one worker at a time and queued at most once, and a path
    that counts as queued is on its way to a worker: no request is dropped
    and no folder is left waiting for a lookup that nobody makes. *)
Theorem dates_looked_up_once es t file f :
  t_queued t = [] -> t_queue t = [] -> t_started t = false ->
  run full_name branch es (started_with t file) = Some f ->
  NoDup (f_putting f ++ t_queue (f_times f) ++ concat (map path_of (f_workers f))) /\
  (forall p, p ∈ t_queued (f_times f) <->
             p ∈ f_putting f \/ p ∈ t_queue (f_times f) \/ exists w, w ∈ f_workers f /\ p ∈ path_of w).
Proof.
  intros H1 H2 H3 Hr. apply run_filled in Hr as (Hnd & Hperm & _).
  - split; [done|]. intros p. rewrite Hperm. unfold on_its_way. rewrite !elem_of_app.
    rewrite (list_elem_of_In (concat _)), in_concat. setoid_rewrite in_map_iff. setoid_rewrite list_elem_of_In.
    naive_solver.
  - split; [|split].
    + unfold on_its_way, started_with. cbn. rewrite H2. apply NoDup_nil_2.
    + unfold on_its_way, started_with. cbn. by rewrite H1, H2.
    + done.
Qed.

End Fill.

(** ** Witnesses *)

(** Dates as an offset mark and microseconds. *)
#[export] Instance demo_iso : IsoText := {
  isoformat d := String (if dt_aware d then "+" else "-")%char (pretty.pretty (dt_us d));
  fromisoformat s := match s with
                     | String c s => rmap (fun us => {| dt_aware := bool_decide (c = "+"%char); dt_us := us |}) (int_of_string s)
                     | EmptyString => Raise ValueError
                     end
}.
#[export] Instance demo_iso_laws : IsoLaws.
Proof. split. intros [a us]. cbn. rewrite int_of_pretty. by destruct a. Qed.

Definition at_us (us : Z) : datetime := {| dt_aware := true; dt_us := us |}.

Definition demo_times : Times :=
  with_entries [("a", (at_us 1, at_us 2)); ("a/c", (at_us 3, at_us 4)); ("b", (at_us 5, at_us 6))]%string 1
    {| t_entries := []; t_head := YStr "C"; t_queued := []; t_queue := []; t_started := false; t_unsaved := 1 |}.

(** A repository with a second commit that adds [a/c/x.1] and a stats file of [b]. *)
Definition demo_pushed : GitMem :=
  let '(r1, g1) := create_file "a/c/x.1" "m" "main" (git_with 100 [] ["a/.gitkeep"]%string) in
  let '(r2, g2) := create_file "b/.tgdcfsstats.json" "m" "main" g1 in g2.


(** Two workers: the first takes a snapshot and is slow to write it. *)
Definition slow_write : list event :=
  [ERequest "a"; EPut "a"; EWorker 0 None true; EWorker 0 (Some (at_us 1, at_us 1)) true; EWorker 0 None true;
   EWorker 0 None true; EWorker 0 None true;
   ERequest "b"; EPut "b"; EWorker 1 None true; EWorker 1 (Some (at_us 2, at_us 2)) true; EWorker 1 None true;
   EWorker 1 None true; EWorker 1 None true; EWorker 1 None true; EWorker 0 None true]%string.

Lemma dates_looked_up_once_witness :
  exists f, run "me/meta" "main" slow_write (started_with no_times (Raise OSError)) = Some f /\
            NoDup (f_putting f ++ t_queue (f_times f) ++ concat (map path_of (f_workers f))).
Proof.
  destruct (run "me/meta" "main" slow_write (started_with no_times (Raise OSError))) as [f|] eqn:Hf; [|by vm_compute in Hf].
  exists f. split; [done|]. by eapply (dates_looked_up_once "me/meta" "main" slow_write no_times).
Defined.

(** A snapshot that is written late replaces a newer one: with both
    workers at rest and nothing left to save, the file lacks a date that the
    store has. *)
Theorem late_snapshot_wins :
  exists f, run "me/meta" "main" slow_write (started_with no_times (Raise OSError)) = Some f /\
    f_workers f = [Waiting; Waiting] /\ t_unsaved (f_times f) = 0 /\
    Dict.get "b"%string (t_entries (f_times f)) = Some (at_us 2, at_us 2) /\
    exists t, read_file "me/meta" "main" (f_file f) = Ok t /\ Dict.get "b"%string t.2 = None.
Proof. eexists. split; [by vm_compute|]. repeat split. by eexists. Qed.

(** A list for [paths] in the file ends the load with an exception. *)
Example bad_paths_end_load :
  read_file "me/meta" "main" (Ok (YDict [(YStr "version", YInt 1); (YStr "repo", YStr "me/meta");
    (YStr "branch", YStr "main"); (YStr "paths", YList [YInt 1])])) = Raise AttributeError.
Proof. reflexivity. Qed.
