(* ===== verification/GhDir.v ===== *)
(** * Directories kept in a GitHub repository
      ([core/repository/impl/metadata/github_repo/gh_directory.py])

    A [GithubDirectory] is a directory of the tree that also writes itself
    into a git repository: a folder is the file [.gitkeep] under its path, a
    file ref the empty file [<name>.<message id>].  The state is the heap of
    directories, what a [GithubDirectory] has beyond a [TGFSDirectory] (by
    identity), the store of dates and the server.  [super().m(...)] is the
    operation of [Directory] on the heap; the dates a comparison of two
    directories reads are the stored ones. *)

From S2P Require Import Prelude Errors StoreKey FileVersion FileRefs Directory DirectoryProps PosixPath CryptoLib Names ConfigValue Github GhTimes.

Open Scope Z_scope.
Open Scope py_scope.

(** The configuration: the branch, the key of encrypted names, and whether
    there is a store of dates. *)
Record GithubConfig := { ghc_commit : string; ghc_name_key : option bytes; ghc_dated : bool }.

Record GhExt := {
  x_stored_encrypted : bool;
  x_created_pending : bool;
  x_modified_pending : bool;
  x_stats_sha : option string;
  x_stats_loaded : bool
}.

Definition no_ext : GhExt :=
  {| x_stored_encrypted := false; x_created_pending := false; x_modified_pending := false; x_stats_sha := None;
     x_stats_loaded := false |}.

Record Gh (G : Type) := { gh_heap : heap; gh_ext : gmap nat GhExt; gh_times : Times; gh_net : G }.
Arguments gh_heap {G}. Arguments gh_ext {G}. Arguments gh_times {G}. Arguments gh_net {G}.

(** ** Paths *)

(** ["/".join(part.strip("/") for part in args if part)]. *)
Definition join_path (args : list string) : string :=
  join_slash (map strip_slash (List.filter (fun p => negb (bool_decide (p = EmptyString))) args)).

(** [s.rsplit(".", 1)], when there is a dot. *)
Fixpoint rsplit_dot (s : string) : option (string * string) :=
  match s with
  | EmptyString => None
  | String c s' =>
      match rsplit_dot s' with
      | Some (a, b) => Some (String c a, b)
      | None => if bool_decide (c = "."%char) then Some (EmptyString, s') else None
      end
  end.

(** [path == prefix or path.startswith(prefix + "/")]. *)
Definition beneath (prefix path : string) : bool :=
  bool_decide (path = prefix) || starts_with (prefix +:+ "/") path.

(** [path[n:]]. *)
Fixpoint str_drop (n : nat) (s : string) : string :=
  match n, s with S n, String _ s => str_drop n s | _, _ => s end.

(** [list.index]. *)
Fixpoint list_index (eq : nat -> nat -> exc bool) (x : nat) (l : list nat) : exc nat :=
  match l with
  | [] => Raise ValueError
  | y :: l' =>
      let* same := (if (y =? x)%nat then Ok true else eq y x) in
      if same then Ok 0%nat else rmap S (list_index eq x l')
  end.

Section GhDir.
  Context {G : Type} `{Github G} `{CryptoLib} (ghc : GithubConfig).
  Local Abbreviation gst := (st exn (Gh G)).

Definition with_gh_heap (h : heap) (s : Gh G) : Gh G :=
  {| gh_heap := h; gh_ext := gh_ext s; gh_times := gh_times s; gh_net := gh_net s |}.
Definition with_gh_ext (e : gmap nat GhExt) (s : Gh G) : Gh G :=
  {| gh_heap := gh_heap s; gh_ext := e; gh_times := gh_times s; gh_net := gh_net s |}.
Definition with_gh_times (t : Times) (s : Gh G) : Gh G :=
  {| gh_heap := gh_heap s; gh_ext := gh_ext s; gh_times := t; gh_net := gh_net s |}.
Definition with_gh_net (g : G) (s : Gh G) : Gh G :=
  {| gh_heap := gh_heap s; gh_ext := gh_ext s; gh_times := gh_times s; gh_net := g |}.

Definition heaped {A} (m : hst A) : gst A := fun s => let '(r, h) := m (gh_heap s) in (r, with_gh_heap h s).
Definition netted {A} (m : st exn G A) : gst A := fun s => let '(r, g) := m (gh_net s) in (r, with_gh_net g s).
Definition ext_at (s : Gh G) (d : nat) : GhExt := default no_ext (gh_ext s !! d).
Definition modify_ext (d : nat) (f : GhExt -> GhExt) : gst unit := fun s =>
  (Ok tt, with_gh_ext (alter f d (gh_ext s)) s).

(** [isinstance(d, GithubDirectory)]. *)
Definition is_github (s : Gh G) (d : nat) : bool := bool_decide (is_Some (gh_ext s !! d)).

(** ** Construction *)

Definition new_github_dir (now : datetime) (name : string) (parent : option nat) (stored_encrypted : option bool)
    (defer_timestamps : bool) : gst nat :=
  let! d := heaped (new_dir name parent now now) in
  let! s := sget in
  sput (with_gh_ext (<[d := {| x_stored_encrypted := match stored_encrypted with
                                                     | Some b => b
                                                     | None => bool_decide (is_Some (ghc_name_key ghc))
                                                     end;
                               x_created_pending := defer_timestamps; x_modified_pending := defer_timestamps;
                               x_stats_sha := None; x_stats_loaded := false |}]> (gh_ext s)) s) ;;;
  sret d.

(** What the setters of the dates do besides: an explicit date stays. *)
Definition dated (created modified : bool) (x : GhExt) : GhExt :=
  {| x_stored_encrypted := x_stored_encrypted x;
     x_created_pending := if created then false else x_created_pending x;
     x_modified_pending := if modified then false else x_modified_pending x;
     x_stats_sha := x_stats_sha x; x_stats_loaded := x_stats_loaded x |}.
Definition settled (d : nat) : gst unit := modify_ext d (dated false true).

(** ** Names and paths in the repository *)

Definition encrypted_name (name : string) : string :=
  match ghc_name_key ghc with Some key => encrypt_path_name key name | None => name end.

Definition storage_name (s : Gh G) (d : nat) : string :=
  let name := d_name (dir_at (gh_heap s) d) in
  if x_stored_encrypted (ext_at s d) then encrypted_name name else name.

(** [name] or [encrypt(name)], behind it the id. *)
Definition file_ref_storage_name (name : string) (message_id : Z) : string :=
  (encrypted_name name +:+ "." +:+ pretty.pretty message_id)%string.

Definition message_name (name : string) : string := encrypted_name name.

Fixpoint github_path_loop (fuel : nat) (s : Gh G) (d : nat) : exc string :=
  match parent (dir_at (gh_heap s) d) with
  | None => Ok EmptyString
  | Some p =>
      match fuel with
      | O => Raise OutOfFuel
      | S fuel =>
          let* parent_path := (if is_github s p then github_path_loop fuel s p else Ok EmptyString) in
          Ok (join_path [parent_path; storage_name s d])
      end
  end.

Definition github_path (s : Gh G) (d : nat) : exc string := github_path_loop (size (h_dirs (gh_heap s))) s d.
Definition path_of_dir (d : nat) : gst string := fun s => (github_path s d, s).

Definition stats_path (s : Gh G) (d : nat) : exc string :=
  rmap (fun p => join_path [p; STATS_FILE_NAME]) (github_path s d).

Fixpoint attached_loop (fuel : nat) (s : Gh G) (d : nat) : exc bool :=
  match parent (dir_at (gh_heap s) d) with
  | None => Ok true
  | Some p =>
      if negb (bool_decide (d ∈ children (dir_at (gh_heap s) p))) then Ok false
      else match fuel with O => Raise OutOfFuel | S fuel => attached_loop fuel s p end
  end.
Definition is_attached (s : Gh G) (d : nat) : exc bool := attached_loop (size (h_dirs (gh_heap s))) s d.

(** ** Dates *)

Definition set_dates (created modified : option datetime) (x : TGFSDirectory) : TGFSDirectory :=
  {| d_name := d_name x; parent := parent x; children := children x; files := files x;
     d_created_at := default (d_created_at x) created; d_modified_at := default (d_modified_at x) modified |}.

Definition resolve_timestamps (d : nat) : gst unit := fun s =>
  let x := ext_at s d in
  if negb (x_created_pending x || x_modified_pending x) then (Ok tt, s)
  else if negb (ghc_dated ghc) then (Ok tt, s)
  else
    match github_path s d with
    | Raise e => (Raise e, s)
    | Ok path =>
        if bool_decide (path = EmptyString) then modify_ext d (dated true true) s
        else
          match get path (gh_times s) with
          | (None, t) => (Ok tt, with_gh_times t s)
          | (Some (created, modified), t) =>
              (heaped (modify_dir d (set_dates (if x_created_pending x then Some created else None)
                                               (if x_modified_pending x then Some modified else None))) ;;;
               modify_ext d (dated true true)) (with_gh_times t s)
          end
    end.

Definition created_at_of (d : nat) : gst datetime :=
  resolve_timestamps d ;;; let! s := sget in sret (d_created_at (dir_at (gh_heap s) d)).
Definition modified_at_of (d : nat) : gst datetime :=
  resolve_timestamps d ;;; let! s := sget in sret (d_modified_at (dir_at (gh_heap s) d)).

(** ** Creation *)

Definition create_dir_skip_github_ops (now : datetime) (d : nat) (name : string) : gst nat :=
  let! res := new_github_dir now name (Some d) None false in
  heaped (modify_dir d (fun x => with_children (children x ++ [res]) x)) ;;;
  sret res.

(** [try m except Exception: undo; raise]. *)
Definition undoing {A} (m : gst A) (undo : gst unit) : gst A :=
  stry m (fun ex => if is_Exception ex then (undo ;;; sraise ex) else sraise ex).

Definition gh_create_dir (now : datetime) (d : nat) (name : string) : gst nat :=
  let! child := heaped (create_dir now d name) in
  settled d ;;;
  let segment := encrypted_name name in
  let! path := path_of_dir d in
  undoing (netted (create_file (join_path [path; segment; ".gitkeep"]) ("Create directory " +:+ segment) (ghc_commit ghc)))
          (heaped (remove_child d child)) ;;;
  let! github_child := new_github_dir now name (Some d) None false in
  let! s := sget in
  let! i := slift (list_index (dir_eq recursion_limit (gh_heap s)) child (children (dir_at (gh_heap s) d))) in
  heaped (modify_dir d (fun x => with_children (<[i := github_child]> (children x)) x)) ;;;
  sret github_child.

Definition remove_ref (d r : nat) : hst unit :=
  let! h := sget in
  let! fs := slift (frl_remove (name_of h) (ref_eq h) r (files (dir_at h d))) in
  modify_dir d (with_files fs).

Definition gh_create_file_ref (now : datetime) (d : nat) (name : string) (file_message_id : Z) : gst nat :=
  let! file_ref := heaped (create_file_ref now d name file_message_id) in
  settled d ;;;
  let! path := path_of_dir d in
  undoing (netted (create_file (join_path [path; file_ref_storage_name name file_message_id])
                               ("Create file reference for " +:+ message_name name) (ghc_commit ghc)))
          (heaped (remove_ref d file_ref)) ;;;
  sret file_ref.

(** ** Deletion of a file ref *)

Definition candidates (name : string) (message_id : Z) : list string :=
  let plain := (name +:+ "." +:+ pretty.pretty message_id)%string in
  let keyed := file_ref_storage_name name message_id in
  if bool_decide (keyed = plain) then [plain] else [keyed; plain].

(** One candidate; whether it was deleted. *)
Definition delete_segment (path segment : string) : gst bool :=
  let file_path := join_path [path; segment] in
  stry (let! content := netted (get_contents file_path (ghc_commit ghc)) in
        match content with
        | [] => sraise IndexError
        | c :: _ =>
            netted (delete_file file_path
                      ("Delete file reference for " +:+ match rsplit_dot segment with Some (a, _) => a | None => segment end)
                      (co_sha c) (ghc_commit ghc)) ;;;
            sret true
        end)
       (fun ex => if is_Exception ex then sret false else sraise ex).

Fixpoint delete_candidates (path : string) (l : list string) : gst bool :=
  match l with
  | [] => sret false
  | segment :: l => let! gone := delete_segment path segment in if gone then sret true else delete_candidates path l
  end.

Definition gh_delete_file_ref (now : datetime) (d fr : nat) : gst unit :=
  let! s := sget in
  let x := ref_at (gh_heap s) fr in
  let! path := path_of_dir d in
  delete_candidates path (candidates (fr_name x) (fr_message_id x)) ;;;
  heaped (delete_file_ref now d fr) ;;;
  settled d.

(** The inherited [relocate_file_ref] calls the methods above. *)
Definition gh_relocate_file_ref (now : datetime) (d fr to : nat) (new_name : option string) : gst nat :=
  let! s := sget in
  let x := ref_at (gh_heap s) fr in
  let name := name_or new_name (fr_name x) in
  if (to =? d)%nat && bool_decide (name = fr_name x) then sret fr
  else
    let! moved := gh_create_file_ref now to name (fr_message_id x) in
    heaped (modify_ref moved (carry_over x)) ;;;
    stry (gh_delete_file_ref now d fr)
         (fun ex => if is_Exception ex then (gh_delete_file_ref now to moved ;;; sraise ex) else sraise ex) ;;;
    sret moved.

(** ** Whole folders *)

Definition blob_at (path : string) (e : GitTreeElement) : InputGitTreeElement :=
  {| ie_path := path; ie_mode := te_mode e; ie_blob := BSha (Some (te_sha e)) |}.

Definition blobs (l : list GitTreeElement) : list GitTreeElement :=
  List.filter (fun e => bool_decide (te_type e = "blob"%string)) l.

(** A new tree of these elements becomes the head, in one commit. *)
Definition commit_elements (message : string) (elements : list InputGitTreeElement) (base_commit : string) : st exn G unit :=
  let! new_tree := create_git_tree elements None in
  let! new_commit := create_git_commit message new_tree base_commit in
  edit_ref (ghc_commit ghc) new_commit.

(** The commit at the head and the listing of its tree. *)
Definition head_listing : st exn G (string * list GitTreeElement) :=
  let! ref := get_git_ref (ghc_commit ghc) in
  let! tree_sha := get_git_commit ref in
  let! tree := get_git_tree tree_sha in
  sret (ref, gt_tree tree).

(** The body of [_delete_github_directory]. *)
Definition drop_subtree (prefix : string) : st exn G unit :=
  let! (base_commit, entries) := head_listing in
  let kept := List.filter (fun e => negb (beneath prefix (te_path e))) (blobs entries) in
  if (length kept =? length (blobs entries))%nat then sret tt
  else commit_elements ("Delete directory " +:+ prefix) (map (fun e => blob_at (te_path e) e) kept) base_commit.

Definition delete_github_directory (d : nat) : gst unit :=
  let! prefix := path_of_dir d in
  if bool_decide (prefix = EmptyString) then sret tt
  else stry (netted (drop_subtree prefix)) (fun ex => if is_Exception ex then sret tt else sraise ex).

Definition gh_delete (now : datetime) (d : nat) : gst unit :=
  let! s := sget in
  match parent (dir_at (gh_heap s) d) with
  | Some p => delete_github_directory d ;;; heaped (delete now d) ;;; settled p
  | None => heaped (delete now d) ;;; settled d
  end.

Definition repath (old_prefix new_prefix path : string) : string :=
  if beneath old_prefix path then (new_prefix +:+ str_drop (String.length old_prefix) path)%string else path.

(** [_move_github_directory]. *)
Definition move_subtree (old_prefix new_prefix : string) : st exn G unit :=
  let! (base_commit, entries) := head_listing in
  if existsb (fun e => beneath old_prefix (te_path e)) (blobs entries)
  then commit_elements ("Move directory " +:+ old_prefix +:+ " to " +:+ new_prefix)
         (map (fun e => blob_at (repath old_prefix new_prefix (te_path e)) e) (blobs entries)) base_commit
  else sret tt.

(** [super().move_to(...)]: the parents it dates. *)
Definition super_move_to (now : datetime) (d new_parent : nat) (new_name : option string) : gst unit :=
  let! s := sget in
  let x := dir_at (gh_heap s) d in
  heaped (move_to now d new_parent new_name) ;;;
  match parent x with
  | None => sret tt
  | Some old_parent =>
      if (new_parent =? old_parent)%nat && bool_decide (name_or new_name (d_name x) = d_name x) then sret tt
      else settled old_parent ;;; settled new_parent
  end.

(** The directory goes back, to the end of its old parent's children. *)
Definition put_back (d : nat) (old_parent : option nat) (old_name : string) : hst unit :=
  let! h := sget in
  match old_parent, parent (dir_at h d) with
  | Some p, Some here =>
      remove_child here d ;;;
      modify_dir d (fun x => with_parent (Some p) (with_name old_name x)) ;;;
      modify_dir p (fun x => with_children (children x ++ [d]) x)
  | _, _ => sret tt
  end.

Definition gh_move_to (now : datetime) (d new_parent : nat) (new_name : option string) : gst unit :=
  let! s := sget in
  let x := dir_at (gh_heap s) d in
  let! old_prefix := path_of_dir d in
  super_move_to now d new_parent new_name ;;;
  let! new_prefix := path_of_dir d in
  if bool_decide (old_prefix = EmptyString) || bool_decide (new_prefix = EmptyString) || bool_decide (old_prefix = new_prefix)
  then sret tt
  else undoing (netted (move_subtree old_prefix new_prefix)) (heaped (put_back d (parent x) (d_name x))).

End GhDir.

(** ** What a rewritten tree holds *)

Lemma apply_blobs sha f l base :
  NoDup (map (fun e => f (te_path e)) l) ->
  forall p v, apply_elements sha base (map (fun e => blob_at (f (te_path e)) e) l) !! p = Some v <->
    (exists e, e ∈ l /\ f (te_path e) = p /\ v = (te_mode e, te_sha e)) \/
    (p ∉ map (fun e => f (te_path e)) l /\ base !! p = Some v).
Proof.
  unfold apply_elements. revert base. induction l as [|e l IH]; intros base Hnd p v; cbn [map foldl].
  - split; [intros Hb; right; split; [apply not_elem_of_nil|done]|].
    intros [(e & He%not_elem_of_nil & _)|[_ Hb]]; done.
  - cbn [map] in Hnd. apply NoDup_cons in Hnd as [Hn Hnd]. rewrite IH by done. clear IH.
    assert (apply_element sha base (blob_at (f (te_path e)) e) = <[f (te_path e) := (te_mode e, te_sha e)]> base) as -> by done.
    setoid_rewrite elem_of_cons. split.
    + intros [(x & Hx & Hp & Hv)|[Hnot Hb]]; [left; by eauto|]. apply lookup_insert_Some in Hb as [[<- <-]|[Hne Hb]].
      * left. exists e. auto.
      * right. split; [|done]. by intros [->|Hin].
    + intros [(x & [->|Hx] & Hp & Hv)|[Hnot Hb]].
      * right. subst p v. split; [done|]. apply lookup_insert_eq.
      * left. by eauto.
      * right. apply Decidable.not_or in Hnot as [Hne Hnot]. split; [done|]. by rewrite lookup_insert_ne by congruence.
Qed.

Lemma lists_blobs l files :
  lists l files -> NoDup (map te_path (blobs l)) /\
  forall p v, files !! p = Some v <-> exists e, e ∈ blobs l /\ te_path e = p /\ v = (te_mode e, te_sha e).
Proof.
  intros [Hnd Hl]. split.
  - by apply nodup_map_filter.
  - intros p [m sh]. rewrite Hl. unfold blobs. setoid_rewrite list_elem_of_In. setoid_rewrite filter_In. split.
    + intros He. eexists. split; [split; [exact He|]|]; [by apply bool_decide_eq_true_2|done].
    + intros ([pa m' ty sh'] & [He Hty%bool_decide_eq_true_1] & Hp & Hv). cbn in *. by simplify_eq.
Qed.

Lemma starts_with_spec p s : starts_with p s = true <-> exists t, s = (p +:+ t)%string.
Proof.
  revert s. induction p as [|a p IH]; intros s; cbn [starts_with].
  - split; [by exists s|done].
  - destruct s as [|b s]; [split; [done|by intros [t ?]]|]. rewrite andb_true_iff, bool_decide_eq_true, IH. split.
    + intros [-> [t ->]]. by exists t.
    + intros [t Ht]. rewrite str_app_cons in Ht. injection Ht as -> ->. eauto.
Qed.

Lemma str_app_assoc (u v w : string) : ((u +:+ v) +:+ w = u +:+ (v +:+ w))%string.
Proof. induction u as [|c u IH]; [done|]. rewrite !str_app_cons. by rewrite IH. Qed.

Lemma str_drop_app u v : str_drop (String.length u) (u +:+ v) = v.
Proof. induction u as [|c u IH]; [by destruct v|]. rewrite str_app_cons. exact IH. Qed.

(** What is beneath a folder: the folder's path, or a slash behind it. *)
Definition rest_ok (rest : string) : Prop := rest = EmptyString \/ exists t, rest = String "/" t.

Lemma beneath_spec prefix path : beneath prefix path = true <-> exists rest, path = (prefix +:+ rest)%string /\ rest_ok rest.
Proof.
  unfold beneath. rewrite orb_true_iff, bool_decide_eq_true, starts_with_spec. split.
  - intros [->|[t ->]].
    + exists EmptyString. split; [|by left]. clear. induction prefix as [|c s IH]; [done|]. rewrite str_app_cons. by rewrite <- IH.
    + exists (String "/" t). rewrite str_app_assoc. split; [done|]. right. by exists t.
  - intros (rest & -> & [->|[t ->]]).
    + left. clear. induction prefix as [|c s IH]; [done|]. rewrite str_app_cons. by rewrite IH.
    + right. exists t. by rewrite str_app_assoc.
Qed.

Lemma str_app_inj u v w : (u +:+ v = u +:+ w)%string -> v = w.
Proof. induction u as [|c u IH]; [done|]. rewrite !str_app_cons. intros [= He]. by apply IH. Qed.

Lemma repath_beneath old new path :
  beneath old path = true ->
  beneath new (repath old new path) = true /\ path = (old +:+ str_drop (String.length new) (repath old new path))%string.
Proof.
  intros Hb. unfold repath. rewrite Hb. apply beneath_spec in Hb as (rest & -> & Hr). rewrite str_drop_app. split.
  - apply beneath_spec. eauto.
  - by rewrite str_drop_app.
Qed.

(** Another injective way to name the items of a list. *)
Lemma nodup_rename {A B C} (f : A -> B) (g : A -> C) l :
  (forall x y, x ∈ l -> y ∈ l -> f x = f y -> g x = g y) -> NoDup (map g l) -> NoDup (map f l).
Proof.
  induction l as [|x l IH]; intros Hinj; cbn [map]; [constructor|]. intros [Hx Hl]%NoDup_cons. apply NoDup_cons. split.
  - intros (y & Hy & Hin)%list_elem_of_fmap. apply Hx. rewrite (Hinj x y); [by apply list_elem_of_fmap_2|left|by right|done].
  - apply IH; [|done]. intros y z Hy Hz. apply Hinj; by right.
Qed.

Section Rewriting.
  Context {G : Type} `{GithubLaws G} `{CryptoLib} (ghc : GithubConfig).
  Context (Hbranch : ghc_commit ghc = the_branch).

(** The listing of the tree at the head is not cut off. *)
Definition listing_complete (g : G) : Prop :=
  forall c g1 t g2 gt g3, get_git_ref the_branch g = (Ok c, g1) -> get_git_commit c g1 = (Ok t, g2) ->
    get_git_tree t g2 = (Ok gt, g3) -> gt_truncated gt = false.

Lemma head_files_quiet g g' fs :
  head_files (repo g) = Some fs -> quiet (repo g) (repo g') -> head_files (repo g') = Some fs.
Proof.
  unfold head_files, commit_files. intros Hf [[Hc Ht] ->]. destruct (rp_commits (repo g) !! rp_head (repo g)) as [[t p]|] eqn:He; [|done].
  rewrite (lookup_weaken _ _ _ _ He Hc). by eapply lookup_weaken.
Qed.

Lemma head_listing_spec g fs :
  listing_complete g -> head_files (repo g) = Some fs ->
  let '(r, g') := head_listing ghc g in
  quiet (repo g) (repo g') /\ match r with Ok (c, l) => c = rp_head (repo g') /\ lists l fs | Raise _ => True end.
Proof.
  intros Hfull Hf. unfold head_listing, sbind. rewrite Hbranch. unfold listing_complete in Hfull.
  pose proof (ref_law g) as La. destruct (get_git_ref the_branch g) as [[c|e] g1]; [|tauto]. destruct La as [Hq1 ->].
  specialize (fun t g2 gt g3 => Hfull _ g1 t g2 gt g3 eq_refl).
  pose proof (commit_law (rp_head (repo g1)) g1) as Lb. destruct (get_git_commit _ g1) as [[t|e] g2]; [|by split; [etrans; [|apply Lb]|]].
  destruct Lb as [Hq2 Ht]. pose proof (tree_law t g2) as Lc. specialize (fun gt g3 => Hfull t g2 gt g3 eq_refl).
  destruct (get_git_tree t g2) as [[gt|e] g3]; [|by split; [etrans; [exact Hq1|]; etrans; [exact Hq2|]; apply Lc|]].
  destruct Lc as [Hq3 Hl]. cbn [sret]. split; [etrans; [exact Hq1|]; by etrans|]. split.
  - destruct Hq2 as [_ <-], Hq3 as [_ <-]. done.
  - apply Hl; [|by eapply Hfull]. pose proof (head_files_quiet _ _ _ Hf Hq1) as Hf1. unfold head_files, commit_files in Hf1.
    destruct (rp_commits (repo g1) !! rp_head (repo g1)) as [[t' p]|] eqn:He; [|done].
    specialize (Ht _ eq_refl). cbn in Ht. subst t'. destruct Hq2 as [[_ Hg] _]. by eapply lookup_weaken.
Qed.

(** The branch ends at the new tree, or where it was. *)
Lemma commit_elements_spec m l g fs :
  head_files (repo g) = Some fs ->
  let '(r, g') := commit_elements ghc m l (rp_head (repo g)) g in
  match r with
  | Ok _ => head_files (repo g') = Some (apply_elements git_sha ∅ l)
  | Raise _ => head_files (repo g') = Some fs \/ head_files (repo g') = Some (apply_elements git_sha ∅ l)
  end.
Proof.
  intros Hf. unfold commit_elements, sbind. rewrite Hbranch.
  pose proof (new_tree_law l None g) as La. destruct (create_git_tree l None g) as [[t|e] g1];
    [|left; eapply head_files_quiet; [done|apply La]].
  destruct La as [Hq1 Ht]. specialize (Ht ∅ eq_refl).
  pose proof (new_commit_law m t (rp_head (repo g)) g1) as Lb. destruct (create_git_commit m t _ g1) as [[c|e] g2];
    [|left; eapply head_files_quiet; [done|etrans; [exact Hq1|apply Lb]]].
  destruct Lb as [Hq2 Hc]. assert (head_files (repo g2) = Some fs) as Hf2 by (eapply head_files_quiet; [done|by etrans]).
  pose proof (edit_law c g2) as Lc. destruct (edit_ref the_branch c g2) as [r g3]. destruct Lc as (Hg3 & Hh & Hr).
  assert (forall h, rp_head (repo g3) = h -> forall f, commit_files (repo g2) h = Some f -> head_files (repo g3) = Some f) as Hat.
  { intros h Hhh f Hcf. unfold head_files. rewrite Hhh. unfold commit_files in *.
    destruct (rp_commits (repo g2) !! h) as [[t' p]|] eqn:Hl; [|done]. destruct Hg3 as [Hgc Hgt].
    rewrite (lookup_weaken _ _ _ _ Hl Hgc). by eapply lookup_weaken. }
  assert (commit_files (repo g2) c = Some (apply_elements git_sha ∅ l)) as Hcf.
  { unfold commit_files. rewrite Hc. destruct Hq2 as [[_ Hgt] _]. by eapply lookup_weaken. }
  destruct r as [[]|e]; [by eapply Hat|]. destruct Hh as [Hh|[Hh _]]; [left|right]; by eapply Hat.
Qed.

Definition kept (prefix : string) (l : list GitTreeElement) : list GitTreeElement :=
  List.filter (fun e => negb (beneath prefix (te_path e))) (blobs l).

Lemma kept_elements prefix l fs :
  lists l fs ->
  forall p, apply_elements git_sha ∅ (map (fun e => blob_at (te_path e) e) (kept prefix l)) !! p =
            if beneath prefix p then None else fs !! p.
Proof.
  intros [Hnd Hl]%lists_blobs p. unfold kept.
  assert (NoDup (map te_path (List.filter (fun e => negb (beneath prefix (te_path e))) (blobs l)))) as Hnd' by by apply nodup_map_filter.
  pose proof (apply_blobs git_sha (fun x => x) _ ∅ Hnd' p) as Hsp. cbn beta in Hsp.
  apply option_eq. intros v. rewrite Hsp. setoid_rewrite list_elem_of_In. setoid_rewrite filter_In. rewrite lookup_empty.
  destruct (beneath prefix p) eqn:Hb.
  - split; [|done]. intros [(e & [_ Hk] & <- & _)|[_ ?]]; [|done]. by rewrite Hb in Hk.
  - rewrite Hl. setoid_rewrite list_elem_of_In. split.
    + intros [(e & [He _] & Hp & Hv)|[_ ?]]; [by eauto|done].
    + intros (e & He & Hp & Hv). left. exists e. rewrite Hp, Hb. auto.
Qed.

(** Deleting a folder in the repository removes exactly the files under
    its path, in one step: the branch afterwards has all other files with
    their contents, or is as it was; the latter only when a call failed.  It
    needs the listing of the tree to be complete. *)
Theorem folder_deletion_exact prefix g fs :
  listing_complete g -> head_files (repo g) = Some fs ->
  let '(r, g') := drop_subtree ghc prefix g in
  exists fs', head_files (repo g') = Some fs' /\
    ((forall p, fs' !! p = if beneath prefix p then None else fs !! p) \/ fs' = fs /\ r <> Ok tt).
Proof.
  intros Hfull Hf. unfold drop_subtree, sbind. pose proof (head_listing_spec g fs Hfull Hf) as Hl.
  destruct (head_listing ghc g) as [[[c l]|e] g1]; [|destruct Hl as [Hq _]; exists fs; split; [by eapply head_files_quiet|by right]].
  destruct Hl as (Hq & -> & Hl). pose proof (head_files_quiet _ _ _ Hf Hq) as Hf1. 
  pose proof (kept_elements prefix l fs Hl) as Happ. fold (kept prefix l).
  destruct (_ =? _)%nat eqn:Hlen.
  - exists fs. split; [done|]. left. intros p. rewrite <- Happ. apply Nat.eqb_eq in Hlen.
    assert (kept prefix l = blobs l) as Hall.
    { clear -Hlen. unfold kept in *. induction (blobs l) as [|e k IH]; [done|]. cbn [List.filter] in *.
      destruct (negb _); [f_equal; apply IH; by injection Hlen|].
      pose proof (List.filter_length_le (fun e => negb (beneath prefix (te_path e))) k). cbn [length] in Hlen. lia. }
    apply lists_blobs in Hl as [Hnd Hl]. rewrite Hall. apply option_eq. intros v. rewrite Hl.
    rewrite (apply_blobs git_sha (fun x => x) _ ∅ Hnd p v), lookup_empty. naive_solver.
  - pose proof (commit_elements_spec ("Delete directory " +:+ prefix)
      (map (fun e => blob_at (te_path e) e) (kept prefix l)) g1 fs Hf1) as Hc.
    destruct (commit_elements ghc _ _ _ g1) as [[[]|e] g2].
    + eexists. split; [exact Hc|]. left. exact Happ.
    + destruct Hc as [Hc|Hc]; eexists; (split; [exact Hc|]); [by right|left; exact Happ].
Qed.

(** The files after a move: those under the new path come from the old one. *)
Definition moved_file (old new : string) (fs : files_of_tree) (p : string) : option (string * string) :=
  if beneath new p then fs !! (old +:+ str_drop (String.length new) p)%string
  else if beneath old p then None else fs !! p.

Lemma moved_elements old new l fs :
  lists l fs -> (forall p, beneath new p = true -> fs !! p = None) ->
  NoDup (map (fun e => repath old new (te_path e)) (blobs l)) /\
  forall p, apply_elements git_sha ∅ (map (fun e => blob_at (repath old new (te_path e)) e) (blobs l)) !! p =
            moved_file old new fs p.
Proof.
  intros [Hnd Hl]%lists_blobs Hfree.
  assert (forall e, e ∈ blobs l -> beneath new (te_path e) = false) as Hnot.
  { intros e He. destruct (beneath new (te_path e)) eqn:Hb; [|done]. apply Hfree in Hb.
    rewrite (proj2 (Hl _ (te_mode e, te_sha e))) in Hb by eauto. done. }
  assert (NoDup (map (fun e => repath old new (te_path e)) (blobs l))) as Hnd'.
  { eapply nodup_rename; [|exact Hnd]. intros x y Hx Hy He.
    destruct (beneath old (te_path x)) eqn:Hbx, (beneath old (te_path y)) eqn:Hby.
    - destruct (repath_beneath old new _ Hbx) as [_ ->], (repath_beneath old new _ Hby) as [_ ->]. by rewrite He.
    - destruct (repath_beneath old new _ Hbx) as [Hb _]. rewrite He in Hb. unfold repath in Hb. rewrite Hby in Hb.
      by rewrite Hnot in Hb.
    - destruct (repath_beneath old new _ Hby) as [Hb _]. rewrite <- He in Hb. unfold repath in Hb. rewrite Hbx in Hb.
      by rewrite Hnot in Hb.
    - unfold repath in He. by rewrite Hbx, Hby in He. }
  split; [done|]. intros p. apply option_eq. intros v. rewrite (apply_blobs git_sha (repath old new) _ ∅ Hnd' p v), lookup_empty.
  unfold moved_file. destruct (beneath new p) eqn:Hbn; [|destruct (beneath old p) eqn:Hbo]; [rewrite Hl| |rewrite Hl]; split.
  - intros [(e & He & <- & Hv)|[_ ?]]; [|done]. exists e. split; [done|]. split; [|done].
    destruct (beneath old (te_path e)) eqn:Hb; [by apply repath_beneath|]. unfold repath in Hbn. rewrite Hb in Hbn.
    by rewrite Hnot in Hbn.
  - intros (e & He & Hp & Hv). left. exists e. split; [done|]. split; [|done]. unfold repath. apply beneath_spec in Hbn as (rest & -> & Hr).
    rewrite str_drop_app in Hp. rewrite Hp, (proj2 (beneath_spec old _)) by eauto. by rewrite str_drop_app.
  - intros [(e & He & <- & _)|[_ ?]]; [|done]. destruct (beneath old (te_path e)) eqn:Hb.
    + apply (repath_beneath old new) in Hb as [Hb _]. by rewrite Hbn in Hb.
    + unfold repath in Hbo. by rewrite Hb, Hb in Hbo.
  - done.
  - intros [(e & He & <- & Hv)|[_ ?]]; [|done]. exists e. split; [done|]. split; [|done].
    destruct (beneath old (te_path e)) eqn:Hb; [|by unfold repath; rewrite Hb].
    apply (repath_beneath old new) in Hb as [Hb _]. by rewrite Hbn in Hb.
  - intros (e & He & Hp & Hv). left. exists e. split; [done|]. split; [|done]. unfold repath. by rewrite Hp, Hbo.
Qed.


End Rewriting.
