(* ===== verification/GhDirProps.v ===== *)
(** * Directories kept in a GitHub repository: what holds

    Every operation of a [GithubDirectory] keeps the tree a tree, and one
    that raises -- above all because the repository refused -- leaves the
    tree as it was but for dates and the order of a folder's children. *)

From S2P Require Import Prelude Errors StoreKey FileVersion FileRefs Directory DirectoryProps DirectorySer PosixPath CryptoLib Names ConfigValue Github GhTimes GhDir.

Open Scope Z_scope.
Open Scope py_scope.

(** The same tree: every directory has its name, its parent, its children
    in some order, and its files. *)
Definition same_dir (x y : TGFSDirectory) : Prop :=
  d_name y = d_name x /\ parent y = parent x /\ children y ≡ₚ children x /\ items (files y) = items (files x).

Definition same_tree (h h' : heap) : Prop :=
  (forall d x, h_dirs h !! d = Some x -> exists y, h_dirs h' !! d = Some y /\ same_dir x y) /\
  (forall r, is_Some (h_refs h !! r) -> h_refs h' !! r = h_refs h !! r).

#[export] Instance same_dir_preorder : PreOrder same_dir.
Proof.
  split; [by intros x|]. intros x y z (H1 & H2 & H3 & H4) (K1 & K2 & K3 & K4).
  split; [congruence|]. split; [congruence|]. split; [by etrans|congruence].
Qed.

#[export] Instance same_tree_preorder : PreOrder same_tree.
Proof.
  split.
  - intros h. split; [|done]. intros d x Hx. by exists x.
  - intros h1 h2 h3 [H1 R1] [H2 R2]. split.
    + intros d x Hx. destruct (H1 d x Hx) as (y & Hy & Hxy). destruct (H2 d y Hy) as (z & Hz & Hyz).
      exists z. split; [done|]. by etrans.
    + intros r Hr. rewrite R2; [by apply R1|]. by rewrite R1.
Qed.

Lemma same_put h d x y : h_dirs h !! d = Some x -> same_dir x y -> same_tree h (put_dir d y h).
Proof.
  intros Hd Hs. split; [|done]. intros e z Hz. destruct (decide (d = e)) as [<-|Hne].
  - exists y. simpl. rewrite lookup_insert_eq. rewrite Hd in Hz. by injection Hz as <-.
  - exists z. simpl. by rewrite lookup_insert_ne.
Qed.

(** A date put back is no change of the invariant. *)
Lemma wf_redate h d t x : h_dirs h !! d = Some x -> wf (put_dir d (with_modified t x) h) -> wf h.
Proof.
  intros Hd Hwf. pose proof (wf_touch _ _ _ (d_modified_at x) Hwf (put_lookup _ _ _)) as Hw. rewrite put_put in Hw.
  replace h with (put_dir d (with_modified (d_modified_at x) (with_modified t x)) h); [done|].
  destruct h as [dirs refs n], x. unfold put_dir. cbn in *. f_equal. by rewrite insert_id.
Qed.

(** ** The undone creations *)

Lemma without_last c l : c ∉ l -> without c (l ++ [c]) = l.
Proof.
  intros Hn. unfold without. rewrite List.filter_app. cbn [List.filter]. rewrite Nat.eqb_refl. cbn [negb]. rewrite app_nil_r.
  induction l as [|x l IH]; [done|]. apply not_elem_of_cons in Hn as [Hx Hl]. cbn [List.filter].
  rewrite (proj2 (Nat.eqb_neq _ _)) by congruence. cbn [negb]. by rewrite IH.
Qed.

Lemma fresh_no_child h d x : wf h -> h_dirs h !! d = Some x -> h_fresh h ∉ children x.
Proof.
  intros Hwf Hd Hin. destruct (do_children _ _ _ (wf_dirs _ Hwf _ _ Hd) _ Hin) as (y & Hy & _).
  by rewrite fresh_dir_none in Hy.
Qed.

Lemma fresh_no_file h d x : wf h -> h_dirs h !! d = Some x -> h_fresh h ∉ items (files x).
Proof.
  intros Hwf Hd Hin. destruct (do_files _ _ _ (wf_dirs _ Hwf _ _ Hd) _ Hin) as (y & Hy & _).
  by rewrite fresh_ref_none in Hy.
Qed.

Lemma with_new_dir_at now h d x name :
  wf h -> h_dirs h !! d = Some x ->
  h_dirs (with_new_dir now d x name h) !! d = Some (with_modified now (with_children (children x ++ [h_fresh h]) x)) /\
  h_dirs (with_new_dir now d x name h) !! (h_fresh h) = Some (blank_dir name (Some d) now now).
Proof.
  intros Hwf Hd. unfold with_new_dir. split; [apply put_lookup|]. simpl. rewrite lookup_insert_ne, lookup_insert_eq; [done|].
  intros He. pose proof (fresh_dir_none _ Hwf). congruence.
Qed.

(** The child that could not be written goes. *)
Lemma undo_create_dir now h d x name :
  wf h -> h_dirs h !! d = Some x -> wf (with_new_dir now d x name h) ->
  exists h', remove_child d (h_fresh h) (with_new_dir now d x name h) = (Ok tt, h') /\ wf h' /\ same_tree h h'.
Proof.
  intros Hwf Hd Hw. destruct (with_new_dir_at now h d x name Hwf Hd) as [Hd1 _].
  rewrite (remove_child_eq _ _ _ _ Hw Hd1) by (cbn; apply elem_of_app; right; left).
  eexists. split; [reflexivity|]. split; [by apply wf_remove_child|].
  pose proof (fresh_no_child _ _ _ Hwf Hd) as Hn. cbn [with_modified with_children children].
  rewrite without_last by done. split; [|done]. intros e y Hy.
  destruct (decide (d = e)) as [<-|Hne].
  - rewrite put_lookup. eexists. split; [reflexivity|]. rewrite Hd in Hy. by injection Hy as <-.
  - simpl. rewrite !lookup_insert_ne by (try done; intros <-; by rewrite fresh_dir_none in Hy). by exists y.
Qed.

(** [files.remove] of a ref the directory has. *)
Lemma remove_ref_eq h d x r :
  wf h -> h_dirs h !! d = Some x -> r ∈ items (files x) -> remove_ref d r h = (Ok tt, put_dir d (drop_ref h r x) h).
Proof.
  intros Hwf Hd Hr. destruct (wf_dirs _ Hwf _ _ Hd) as [_ _ _ _ _ Hnd Hi].
  unfold remove_ref, sbind, sget, slift. rewrite (dir_at_some _ _ _ Hd). unfold frl_remove.
  rewrite list_remove_spec; [|by eapply nodup_of_map|done|].
  - cbn [rbind]. unfold modify_dir. by rewrite (dir_at_some _ _ _ Hd).
  - intros y Hy Hne. apply ref_eq_names. intros Heq. apply Hne. by eapply nodup_map_inj.
Qed.

Lemma with_new_ref_at now d x name mid h :
  h_dirs (touch_modified now d (with_new_ref d x name mid h)).2 !! d =
  Some (with_modified now (with_files (frl_append (name_of (alloc_ref (fresh_ref d name mid) h)) (h_fresh h) (files x)) x)).
Proof.
  unfold touch_modified, with_new_ref. cbn [snd]. rewrite (modify_dir_eq _ _ _ _ (put_lookup _ _ _)). cbn [snd]. apply put_lookup.
Qed.

Lemma undo_create_ref now h d x name mid :
  wf h -> h_dirs h !! d = Some x -> let h1 := (touch_modified now d (with_new_ref d x name mid h)).2 in wf h1 ->
  exists h', remove_ref d (h_fresh h) h1 = (Ok tt, h') /\ wf h' /\ same_tree h h'.
Proof.
  intros Hwf Hd h1 Hw. pose proof (with_new_ref_at now d x name mid h) as Hd1. fold h1 in Hd1.
  rewrite (remove_ref_eq _ _ _ _ Hw Hd1) by (cbn; apply elem_of_app; right; left).
  eexists. split; [reflexivity|]. split.
  - pose proof (wf_drop_ref now _ _ _ (h_fresh h) Hw Hd1) as Hwd.
    apply (wf_redate _ d now (drop_ref h1 (h_fresh h) (with_modified now (with_files
      (frl_append (name_of (alloc_ref (fresh_ref d name mid) h)) (h_fresh h) (files x)) x)))); [apply put_lookup|].
    by rewrite put_put.
  - pose proof (fresh_no_file _ _ _ Hwf Hd) as Hn. split.
    + intros e y Hy. destruct (decide (d = e)) as [<-|Hne].
      * rewrite put_lookup. eexists. split; [reflexivity|]. rewrite Hd in Hy. injection Hy as <-.
        split; [done|]. split; [done|]. split; [done|]. cbn. by apply without_last.
      * exists y. split; [|done]. subst h1. unfold touch_modified, with_new_ref.
        rewrite (modify_dir_eq _ _ _ _ (put_lookup _ _ _)). simpl. by rewrite !lookup_insert_ne.
    + intros r [y Hr]. subst h1. unfold touch_modified, with_new_ref. rewrite (modify_dir_eq _ _ _ _ (put_lookup _ _ _)).
      simpl. rewrite lookup_insert_ne; [done|]. intros <-. by rewrite fresh_ref_none in Hr.
Qed.

(** ** A move put back *)

(** The same heap but for the dates of modification. *)
Definition undated (x : TGFSDirectory) : TGFSDirectory := with_modified FIRST_DAY_OF_EPOCH x.
Definition redated (h h' : heap) : Prop :=
  h_refs h' = h_refs h /\ h_fresh h' = h_fresh h /\ forall d, undated <$> (h_dirs h' !! d) = undated <$> (h_dirs h !! d).

Lemma redated_at h h' d y : redated h h' -> h_dirs h' !! d = Some y -> exists x, h_dirs h !! d = Some x /\ undated y = undated x.
Proof.
  intros (_ & _ & Hd) Hy. specialize (Hd d). rewrite Hy in Hd. destruct (h_dirs h !! d) as [x|]; [|done].
  exists x. split; [done|]. by apply (inj Some) in Hd.
Qed.

Lemma redated_sym h h' : redated h h' -> redated h' h.
Proof. intros (H1 & H2 & H3). split; [done|]. split; [done|]. intros d. by rewrite H3. Qed.

Lemma undated_same x y : undated x = undated y ->
  d_name x = d_name y /\ parent x = parent y /\ children x = children y /\ files x = files y.
Proof. destruct x, y. unfold undated, with_modified. cbn. intros [= -> -> -> -> _]. done. Qed.

Lemma redated_some h h' d : redated h h' -> is_Some (h_dirs h !! d) -> is_Some (h_dirs h' !! d).
Proof. intros Hr [x Hx]. destruct (redated_at _ _ _ _ (redated_sym _ _ Hr) Hx) as (y & Hy & _). by eexists. Qed.

Lemma redated_parent h h' d : redated h h' -> parent (dir_at h' d) = parent (dir_at h d).
Proof.
  intros Hr. unfold dir_at. destruct (h_dirs h' !! d) as [y|] eqn:Hy; cbn [default].
  - destruct (redated_at _ _ _ _ Hr Hy) as (x & -> & Hu%undated_same). cbn. tauto.
  - destruct (h_dirs h !! d) as [x|] eqn:Hx; [|done].
    destruct (redated_some _ _ d Hr) as [y Hy']; [by eexists|congruence].
Qed.

Lemma wf_redated h h' : wf h -> redated h h' -> wf h'.
Proof.
  intros Hwf Hr. destruct Hr as (Hrefs & Hfresh & Hdirs) eqn:Hreq. clear Hreq. pose proof (conj Hrefs (conj Hfresh Hdirs)) as Hr'.
  fold (redated h h') in Hr'. split.
  - intros d y Hy. destruct (redated_at _ _ _ _ Hr' Hy) as (x & Hx & Hu%undated_same).
    assert (dir_ok h' d x) as Hok.
    { apply (dir_ok_ext h); [| | |by apply (wf_dirs _ Hwf)].
      - intros p. by apply redated_some.
      - intros c z _ Hz. destruct (redated_at _ _ _ _ (redated_sym _ _ Hr') Hz) as (z' & Hz' & Huz%undated_same).
        exists z'. split; [done|]. split; symmetry; tauto.
      - intros r f _ Hf. exists f. by rewrite Hrefs. }
    destruct Hu as (H1 & H2 & H3 & H4), Hok as [K1 K2 K3 K4 K5 K6 K7]. by split; rewrite ?H1, ?H2, ?H3, ?H4.
  - intros d Hd. destruct (wf_chain _ Hwf d) as [l Hl]; [by eapply redated_some; [apply redated_sym|]|].
    exists l. eapply up_chain_ext; [|exact Hl]. intros z _. by apply redated_parent.
  - intros d Hd. rewrite Hfresh. apply (wf_fresh_dirs _ Hwf). by eapply redated_some; [apply redated_sym|].
  - intros r Hs. rewrite Hfresh. apply (wf_fresh_refs _ Hwf). by rewrite <- Hrefs.
Qed.

Lemma redated_put h h' d x y : redated h h' -> undated x = undated y -> redated (put_dir d x h) (put_dir d y h').
Proof.
  intros (H1 & H2 & H3) Hu. split; [done|]. split; [done|]. intros e. simpl. destruct (decide (d = e)) as [<-|Hne].
  - rewrite !lookup_insert_eq. by rewrite !fmap_Some_1 || (cbn; by rewrite Hu).
  - rewrite !lookup_insert_ne by done. apply H3.
Qed.

Lemma redated_dir h h' d : redated h h' -> undated (dir_at h' d) = undated (dir_at h d).
Proof.
  intros (_ & _ & H3). specialize (H3 d). unfold dir_at.
  destruct (h_dirs h' !! d), (h_dirs h !! d); cbn in *; congruence.
Qed.

(** [dir_at] and lookups through [put_dir]. *)
Lemma lookup_put h d x e : h_dirs (put_dir d x h) !! e = if decide (d = e) then Some x else h_dirs h !! e.
Proof. simpl. case_decide; [subst; by rewrite lookup_insert_eq|by rewrite lookup_insert_ne]. Qed.

Section PutBack.
  Context (now : datetime) (h : heap) (d p np : nat) (name : string) (l : list nat).
  Context (Hwf : wf h) (Hd : is_Some (h_dirs h !! d)) (Hnp : is_Some (h_dirs h !! np)).
  Context (Hp : parent (dir_at h d) = Some p) (Hin : d ∈ children (dir_at h p)).
  Context (Hv : validate_name name = Ok tt) (Hl : up_chain h np l) (Hdl : d ∉ l).
  Context (Hfree : name ∉ map (dir_name h) (children (dir_at h np))).
  Context (Hmoves : np <> p \/ name <> dir_name h d).
  Local Abbreviation old := (dir_name h d).

(** The heap after the move. *)
Definition after_move : heap := moved_heap now d p np name h.
Local Abbreviation h1 := after_move.

Lemma moved_apart : d <> p /\ d <> np.
Proof. split; [intros <-; by apply (not_own_parent h d)|intros ->; by apply Hdl, (up_chain_head h)]. Qed.

(** What the moved directories look like. *)
Lemma moved_at e :
  dir_at h1 e =
  if decide (np = e) then
    with_modified now (with_children
      ((if decide (p = np) then without d (children (dir_at h p)) else children (dir_at h np)) ++ [d])
      (if decide (p = np) then with_modified now (with_children (without d (children (dir_at h p))) (dir_at h p)) else dir_at h np))
  else if decide (d = e) then with_parent (Some np) (with_name name (dir_at h d))
  else if decide (p = e) then with_modified now (with_children (without d (children (dir_at h p))) (dir_at h p))
  else dir_at h e.
Proof.
  destruct moved_apart as [H1 H2]. unfold after_move, moved_heap. rewrite dir_at_put. case_decide as He; [|by rewrite !dir_at_put].
  rewrite !dir_at_put. rewrite !(decide_False (P := d = np)) by done. by case_decide.
Qed.

Lemma moved_some e : is_Some (h_dirs h1 !! e) <-> is_Some (h_dirs h !! e).
Proof.
  assert (is_Some (h_dirs h !! p)) as Hsp.
  { apply (do_parent _ _ _ (wf_dirs _ Hwf _ _ (dir_at_lookup _ _ Hd))). done. }
  unfold after_move, moved_heap. rewrite !lookup_put. repeat case_decide; subst; naive_solver.
Qed.

Lemma moved_wf : wf h1.
Proof. by apply wf_moved with (l := l). Qed.

(** The heap after [put_back]. *)
Definition back_heap : heap :=
  let g1 := put_dir np (with_children (without d (children (dir_at h1 np))) (dir_at h1 np)) h1 in
  let g2 := put_dir d (with_parent (Some p) (with_name old (dir_at h1 d))) g1 in
  put_dir p (with_children (children (dir_at g2 p) ++ [d]) (dir_at g2 p)) g2.

Lemma put_back_eq : put_back d (Some p) old h1 = (Ok tt, back_heap).
Proof.
  destruct moved_apart as [H1 H2]. assert (parent (dir_at h1 d) = Some np) as Hd1.
  { by rewrite moved_at, decide_False, decide_True by done. }
  unfold put_back. unfold sbind at 1, sget. rewrite Hd1.
  assert (h_dirs h1 !! np = Some (dir_at h1 np)) as Hnp1 by by apply dir_at_lookup, (proj2 (moved_some _)).
  unfold sbind at 1. rewrite (remove_child_eq _ _ _ _ moved_wf Hnp1).
  2: { rewrite moved_at, decide_True by done. cbn. apply elem_of_app. right. left. }
  set (g1 := put_dir np _ h1). assert (h_dirs g1 !! d = Some (dir_at h1 d)) as Hg1.
  { unfold g1. rewrite lookup_put, decide_False by done. by apply dir_at_lookup, (proj2 (moved_some _)). }
  unfold sbind. rewrite (modify_dir_eq _ _ _ _ Hg1). set (g2 := put_dir d _ g1).
  assert (h_dirs g2 !! p = Some (dir_at g2 p)) as Hg2.
  { apply dir_at_lookup. unfold g2, g1. rewrite !lookup_put. case_decide; [done|]. case_decide; [done|].
    apply moved_some, (do_parent _ _ _ (wf_dirs _ Hwf _ _ (dir_at_lookup _ _ Hd))). done. }
  by rewrite (modify_dir_eq _ _ _ _ Hg2).
Qed.

Lemma back_wf : wf back_heap.
Proof.
  destruct moved_apart as [H1 H2].
  assert (is_Some (h_dirs h !! p)) as Hsp by (apply (do_parent _ _ _ (wf_dirs _ Hwf _ _ (dir_at_lookup _ _ Hd))); done).
  assert (parent (dir_at h1 d) = Some np) as Hd1 by by rewrite moved_at, decide_False, decide_True by done.
  destruct (wf_chain _ Hwf p Hsp) as [lp Hlp].
  assert (d ∉ lp) as Hdlp.
  { assert (up_chain h d (d :: lp)) as Hc by by econstructor. apply up_chain_nodup, NoDup_cons in Hc. tauto. }
  assert (up_chain h1 p lp) as Hlp1.
  { eapply up_chain_ext; [|exact Hlp]. intros z Hz. rewrite moved_at. assert (d <> z) by (by intros ->).
    destruct (decide (np = z)) as [<-|_]; [by destruct (decide (p = np)) as [->|_]|].
    rewrite decide_False by done. by destruct (decide (p = z)) as [<-|_]. }
  assert (wf (moved_heap now d np p old h1)) as Hw.
  { eapply wf_moved; [apply moved_wf|by apply (proj2 (moved_some _))|by apply (proj2 (moved_some _))|done| |exact Hlp1|done|].
    - apply (do_name _ _ _ (wf_dirs _ Hwf _ _ (dir_at_lookup _ _ Hd))).
    - assert (forall c, c ∈ children (dir_at h1 p) -> c = d /\ np = p \/ c ∈ without d (children (dir_at h p))) as Hch.
      { intros c. rewrite moved_at. destruct (decide (np = p)) as [He|Hne].
        - rewrite decide_True by done. cbn. intros [Hc| ->%list_elem_of_singleton]%elem_of_app; auto.
        - rewrite decide_False, decide_True by done. cbn. auto. }
      intros (c & Hc & Hcin)%(list_elem_of_fmap (dir_name h1)). apply Hch in Hcin as [[-> Hnpp]|Hcin].
      + unfold dir_name in Hc. rewrite moved_at, decide_False, decide_True in Hc by done. change (dir_name h d = name) in Hc. destruct Hmoves; congruence.
      + apply elem_of_without in Hcin as [Hcin Hcd].
        assert (dir_name h1 c = dir_name h c) as Hn.
        { unfold dir_name. rewrite moved_at. repeat case_decide; subst; cbn; congruence. }
        rewrite Hn in Hc. apply Hcd. pose proof (do_siblings _ _ _ (wf_dirs _ Hwf _ _ (dir_at_lookup _ _ Hsp))) as Hnd.
        by eapply (nodup_map_inj (dir_name h)). }
  eapply wf_redated; [exact Hw|]. unfold back_heap, moved_heap.
  assert (forall cs x, undated (with_children cs (with_modified now x)) = undated (with_children cs x)) as Hcm by done.
  set (g1 := put_dir np (with_modified _ _) h1). set (k1 := put_dir np (with_children _ _) h1).
  assert (redated g1 k1) as Hr1 by by apply redated_put.
  set (g2 := put_dir d _ g1). set (k2 := put_dir d _ k1). assert (redated g2 k2) as Hr2 by by apply redated_put.
  apply redated_put; [done|]. pose proof (redated_dir _ _ p Hr2) as Hu. pose proof (undated_same _ _ Hu) as (_ & _ & -> & _).
  cbn [with_modified with_children]. destruct (dir_at k2 p), (dir_at g2 p). unfold undated in *. cbn in *. by injection Hu as -> -> _ -> ->.
Qed.

Lemma back_same : same_tree h back_heap.
Proof.
  destruct moved_apart as [H1 H2]. split; [|done]. intros e x Hx.
  assert (is_Some (h_dirs back_heap !! e)) as Hs.
  { unfold back_heap. rewrite !lookup_put. repeat case_decide; try by eexists. apply moved_some. by eexists. }
  apply dir_at_lookup in Hs. eexists. split; [exact Hs|]. rewrite <- (dir_at_some _ _ _ Hx). clear Hs.
  assert (d :: without d (children (dir_at h p)) ≡ₚ children (dir_at h p)) as Hperm.
  { assert (is_Some (h_dirs h !! p)) as Hsp by (apply (do_parent _ _ _ (wf_dirs _ Hwf _ _ (dir_at_lookup _ _ Hd))); done).
    pose proof (do_siblings _ _ _ (wf_dirs _ Hwf _ _ (dir_at_lookup _ _ Hsp))) as Hnd%nodup_of_map.
    apply NoDup_Permutation; [|done|].
    - apply NoDup_cons. split; [by intros [_ ?]%elem_of_without|]. unfold without. by apply NoDup_ListNoDup, List.NoDup_filter, NoDup_ListNoDup.
    - intros c. rewrite elem_of_cons, elem_of_without. destruct (decide (c = d)) as [->|]; naive_solver. }
  unfold back_heap. cbv zeta. rewrite dir_at_put. destruct (decide (p = e)) as [<-|Hpe].
  - rewrite !dir_at_put, (decide_False (P := d = p)) by done. destruct (decide (np = p)) as [Heq|Hnpp].
    + rewrite moved_at, decide_True by done. rewrite !(decide_True (P := p = np)) by done. unfold same_dir. cbn [with_modified with_children children d_name parent files].
      split; [done|]. split; [done|]. split; [|done]. rewrite without_last by (by intros [_ ?]%elem_of_without).
      by rewrite <- Permutation_cons_append.
    + rewrite moved_at, !(decide_False (P := np = p)), (decide_False (P := d = p)), decide_True by done. unfold same_dir. cbn [with_modified with_children children d_name parent files].
      split; [done|]. split; [done|]. split; [|done]. by rewrite <- Permutation_cons_append.
  - rewrite dir_at_put. destruct (decide (d = e)) as [<-|Hde].
    + rewrite moved_at, decide_False, decide_True by done. split; [done|]. by split; cbn.
    + rewrite dir_at_put. destruct (decide (np = e)) as [<-|Hne].
      * rewrite moved_at, decide_True by done. rewrite !(decide_False (P := p = np)) by done. unfold same_dir. cbn [with_modified with_children children d_name parent files].
        rewrite without_last; [done|]. intros Hc.
        assert (h_dirs h !! np = Some (dir_at h np)) as Hnpx by by apply dir_at_lookup.
        destruct (do_children _ _ _ (wf_dirs _ Hwf _ _ Hnpx) _ Hc) as (y & Hy & Hpy). rewrite (dir_at_some _ _ _ Hy) in Hp. congruence.
      * by rewrite moved_at, !decide_False by done.
Qed.

End PutBack.

(** ** The operations *)

Section Operations.
  Context {G : Type} `{Github G} `{CryptoLib} (ghc : GithubConfig).

Lemma github_path_loop_total (s : Gh G) d l fuel :
  up_chain (gh_heap s) d l -> (length l <= S fuel)%nat -> exists path, github_path_loop ghc fuel s d = Ok path.
Proof.
  intros Hc. revert fuel. induction Hc as [d Hp|d p l Hp Hc IH]; intros fuel Hf.
  - exists ""%string. destruct fuel; simpl; by rewrite Hp.
  - destruct fuel as [|fuel]; simpl in *; [destruct l; [inversion Hc|simpl in Hf; lia]|]. rewrite Hp.
    destruct (is_github s p); [|cbn [rbind]; by eexists]. destruct (IH fuel) as [path ->]; [lia|]. cbn [rbind]. by eexists.
Qed.

(** The walk to the root ends. *)
Lemma github_path_total (s : Gh G) d :
  wf (gh_heap s) -> is_Some (h_dirs (gh_heap s) !! d) -> exists path, github_path ghc s d = Ok path.
Proof.
  intros Hwf Hd. destruct (wf_chain _ Hwf _ Hd) as [l Hl]. eapply github_path_loop_total; [exact Hl|].
  pose proof (up_chain_size _ _ _ Hwf Hd Hl). lia.
Qed.

Lemma netted_heap {A} (m : st exn G A) (s : Gh G) : gh_heap (netted m s).2 = gh_heap s.
Proof. unfold netted. by destruct (m (gh_net s)). Qed.

Lemma settled_heap d (s : Gh G) : exists s', settled d s = (Ok tt, s') /\ gh_heap s' = gh_heap s.
Proof. by eexists. Qed.

(** What every operation is shown to do with the tree [h]. *)
Definition tree_safe {A} (h : heap) (rs : exc A * Gh G) : Prop :=
  wf (gh_heap rs.2) /\ match rs.1 with Raise e => is_Exception e = true -> same_tree h (gh_heap rs.2) | Ok _ => True end.

Lemma safe_same {A} (r : exc A) (s : Gh G) h : wf h -> gh_heap s = h -> tree_safe h (r, s).
Proof. intros Hw <-. split; [done|]. destruct r; [done|]. intros _. reflexivity. Qed.

Lemma safe_ok {A} (a : A) (s : Gh G) h : wf (gh_heap s) -> tree_safe h (Ok a, s).
Proof. by split. Qed.

(** A remote call whose failure is undone. *)
Lemma undoing_safe {A B} (h : heap) (m : st exn G A) (undo : hst unit) (k : A -> st exn (Gh G) B) (s : Gh G) :
  wf (gh_heap s) ->
  (exists h', undo (gh_heap s) = (Ok tt, h') /\ wf h' /\ same_tree h h') ->
  (forall a (s' : Gh G), gh_heap s' = gh_heap s -> tree_safe h (k a s')) ->
  tree_safe h ((let! a := undoing (netted m) (heaped undo) in k a) s).
Proof.
  intros Hwf (h' & Hu & Hw & Hs) Hk. unfold sbind at 1, undoing, stry. pose proof (netted_heap m s) as Hn.
  destruct (netted m s) as [[a|e] s1]; cbn [snd] in Hn; [by apply Hk|].
  destruct (is_Exception e) eqn:He; [|by split; [cbn; by rewrite Hn|cbn; rewrite He]].
  unfold sbind, heaped. rewrite Hn, Hu. split; [exact Hw|by intros _].
Qed.

Lemma list_index_last eq c l :
  c ∉ l -> (forall y, y ∈ l -> eq y c = Ok false) -> list_index eq c (l ++ [c]) = Ok (length l).
Proof.
  intros Hn Heq. induction l as [|x l IH]; cbn [app list_index].
  - by rewrite Nat.eqb_refl.
  - apply not_elem_of_cons in Hn as [Hx Hl]. rewrite (proj2 (Nat.eqb_neq _ _)) by congruence. rewrite Heq by left.
    cbn [rbind]. rewrite IH; [done|done|]. intros y Hy. apply Heq. by right.
Qed.

Lemma create_dir_ok now (s : Gh G) d x name :
  wf (gh_heap s) -> h_dirs (gh_heap s) !! d = Some x -> tree_safe (gh_heap s) (gh_create_dir ghc now d name s).
Proof.
  intros Hwf Hd. unfold gh_create_dir. destruct (create_dir_spec now (gh_heap s) d x name Hwf Hd) as [Hc Hw].
  unfold sbind at 1, heaped at 1. rewrite Hc. revert Hw. clear Hc. case_bool_decide as Hin; [intros _; by apply safe_same|].
  destruct (validate_name name) as [[]|e] eqn:Hv; [|intros _; by apply safe_same]. cbn [snd]. intros Hw.
  destruct (settled_heap d (with_gh_heap (with_new_dir now d x name (gh_heap s)) s)) as (s1 & Hset & Hs1).
  unfold sbind at 1. rewrite Hset. cbn [gh_heap with_gh_heap] in Hs1. clear Hset.
  destruct (with_new_dir_at now _ _ _ name Hwf Hd) as [Hd1 Hc1].
  destruct (github_path_total s1 d) as [path Hpath]; [by rewrite Hs1|rewrite Hs1; by eexists|].
  unfold sbind at 1, path_of_dir. rewrite Hpath. apply undoing_safe; [by rewrite Hs1| |].
  { rewrite Hs1. by apply undo_create_dir. }
  intros [] s2 Hs2. rewrite Hs1 in Hs2. unfold sbind at 1, new_github_dir. unfold sbind at 1, heaped at 1.
  rewrite new_dir_eq by done. unfold sbind, sget, sput, sret. cbn [gh_heap with_gh_heap with_gh_ext]. rewrite Hs2.
  set (h1 := with_new_dir now d x name (gh_heap s)) in *. set (h2 := alloc_dir _ h1).
  pose proof (fresh_dir_none _ Hwf) as Hf. assert (h_fresh h1 = S (h_fresh (gh_heap s))) as Hf1 by done.
  pose proof (wf_fresh_dirs _ Hwf d (ex_intro _ x Hd)) as Hlt. assert (d <> h_fresh h1) as Hdf by lia.
  assert (h_dirs h2 !! d = Some (with_modified now (with_children (children x ++ [h_fresh (gh_heap s)]) x))) as Hd2.
  { simpl. by rewrite lookup_insert_ne. }
  assert (wf h2) as Hw2 by (apply wf_alloc_dir; [done..|]; intros q [= <-]; by eexists).
  unfold slift. rewrite (dir_at_some _ _ _ Hd2). cbn [with_modified with_children children].
  pose proof (fresh_no_child _ _ _ Hwf Hd) as Hn.
  pose proof (do_siblings _ _ _ (wf_dirs _ Hw2 _ _ Hd2)) as Hnd. cbn [with_modified with_children children] in Hnd.
  rewrite list_index_last; [|done|].
  2: { intros y Hy. unfold recursion_limit. apply (dir_eq_names _ 999). intros He. rewrite map_app in Hnd.
       apply NoDup_app in Hnd as (_ & Hnd & _). apply (Hnd (dir_name h2 y)); [by apply (list_elem_of_fmap_2 (dir_name h2))|].
       rewrite He. cbn. left. }
  unfold heaped. cbn [gh_heap with_gh_heap with_gh_ext]. rewrite (modify_dir_eq _ _ _ _ Hd2). split; [|done].
  cbn [snd fst gh_heap with_gh_heap with_gh_ext with_modified with_children children].
  rewrite insert_app_r_alt, Nat.sub_diag by done. cbn [list_insert insert].
  destruct (wf_dirs _ Hw2 _ _ Hd2) as [_ _ Hch _ _ _ _]. cbn [with_modified with_children children] in Hch.
  apply wf_set_children; [done..| |].
  - intros c [Hcx| ->%list_elem_of_singleton]%elem_of_app; [apply Hch, elem_of_app; by left|].
    eexists. split; [apply lookup_insert_eq|done].
  - rewrite map_app in Hnd |- *. apply NoDup_app in Hnd as (Hnd1 & Hnd2 & _). apply NoDup_app. split; [done|]. split; [|apply NoDup_singleton].
    intros n Hn1 Hn2. apply (Hnd2 n Hn1). cbn in *. apply list_elem_of_singleton in Hn2 as ->.
    unfold dir_name at 1, dir_at. simpl. rewrite lookup_insert_eq. cbn. unfold dir_name, dir_at. simpl.
    rewrite lookup_insert_ne by lia. rewrite lookup_insert_ne by lia. rewrite lookup_insert_eq. cbn. left.
Qed.

(** The creation of a ref, up to the remote call. *)
Lemma create_ref_eq now (s : Gh G) d x name mid :
  wf (gh_heap s) -> h_dirs (gh_heap s) !! d = Some x ->
  let h1 := (touch_modified now d (with_new_ref d x name mid (gh_heap s))).2 in
  (exists e, gh_create_file_ref ghc now d name mid s = (Raise e, s)) \/
  wf h1 /\ exists (s1 : Gh G) path, gh_heap s1 = h1 /\
    gh_create_file_ref ghc now d name mid s =
    (undoing (netted (create_file (join_path [path; file_ref_storage_name ghc name mid])
                        ("Create file reference for " +:+ message_name ghc name) (ghc_commit ghc)))
             (heaped (remove_ref d (h_fresh (gh_heap s)))) ;;; sret (h_fresh (gh_heap s))) s1.
Proof.
  intros Hwf Hd h1. destruct (create_file_ref_spec now (gh_heap s) d x name mid Hwf Hd) as [Hc Hw]. fold h1 in Hc, Hw.
  pose proof (with_new_ref_at now d x name mid (gh_heap s)) as Hd1. fold h1 in Hd1.
  revert Hw. clearbody h1. case_bool_decide as Hin; cbn [snd]; intros Hw.
  { left. eexists. unfold gh_create_file_ref, sbind, heaped. rewrite Hc. by destruct s. }
  right. split; [done|]. destruct (settled_heap d (with_gh_heap h1 s)) as (s1 & Hset & Hs1). cbn [gh_heap with_gh_heap] in Hs1.
  destruct (github_path_total s1 d) as [path Hpath]; [by rewrite Hs1|rewrite Hs1; by eexists|].
  exists s1, path. split; [done|]. unfold gh_create_file_ref. unfold sbind at 1, heaped at 1. rewrite Hc.
  unfold sbind at 1. rewrite Hset. unfold sbind at 1, path_of_dir. by rewrite Hpath.
Qed.

Lemma create_ref_ok now (s : Gh G) d x name mid :
  wf (gh_heap s) -> h_dirs (gh_heap s) !! d = Some x ->
  let rs := gh_create_file_ref ghc now d name mid s in
  tree_safe (gh_heap s) rs /\
  match rs.1 with
  | Ok r => r = h_fresh (gh_heap s) /\ gh_heap rs.2 = (touch_modified now d (with_new_ref d x name mid (gh_heap s))).2
  | Raise _ => True
  end.
Proof.
  intros Hwf Hd. cbv zeta. destruct (create_ref_eq now s d x name mid Hwf Hd) as [[e ->]|(Hw & s1 & path & Hs1 & ->)].
  { split; [by apply safe_same|done]. }
  split.
  - apply undoing_safe; [by rewrite Hs1| |].
    + rewrite Hs1. by apply undo_create_ref.
    + intros [] s2 Hs2. apply safe_ok. by rewrite Hs2, Hs1.
  - unfold sbind, undoing, stry.
    match goal with |- context [netted ?m s1] => pose proof (netted_heap m s1) as Hn; destruct (netted m s1) as [[[]|e] s2] end;
      cbn [snd] in Hn; [cbn; by rewrite Hn, Hs1|].
    destruct (is_Exception e); [|done]. unfold sbind. by destruct (heaped _ s2) as [[|] ?].
Qed.

(** The remote part of a deletion leaves the tree alone, and raises no
    [Exception]. *)
Lemma delete_segment_heap path segment (s : Gh G) :
  gh_heap (delete_segment ghc path segment s).2 = gh_heap s /\
  match (delete_segment ghc path segment s).1 with Raise e => is_Exception e = false | Ok _ => True end.
Proof.
  unfold delete_segment, stry, sbind. pose proof (netted_heap (get_contents (join_path [path; segment]) (ghc_commit ghc)) s) as H1'.
  destruct (netted _ s) as [[[|c l]|e] s1]; cbn [snd] in H1'.
  - cbn. done.
  - pose proof (netted_heap (delete_file (join_path [path; segment])
      ("Delete file reference for " +:+ match rsplit_dot segment with Some (a, _) => a | None => segment end)
      (co_sha c) (ghc_commit ghc)) s1) as H2'.
    destruct (netted _ s1) as [[[]|e] s2]; cbn [snd] in H2'; [cbn; by split; [congruence|]|].
    destruct (is_Exception e) eqn:He; cbn; (split; [congruence|done]).
  - destruct (is_Exception e) eqn:He; cbn; done.
Qed.

Lemma delete_candidates_heap path l (s : Gh G) :
  gh_heap (delete_candidates ghc path l s).2 = gh_heap s /\
  match (delete_candidates ghc path l s).1 with Raise e => is_Exception e = false | Ok _ => True end.
Proof.
  revert s. induction l as [|segment l IH]; intros s; [done|]. cbn [delete_candidates]. unfold sbind.
  destruct (delete_segment_heap path segment s) as [Hh Hr]. destruct (delete_segment ghc path segment s) as [[[|]|e] s1]; [done| |done].
  cbn [snd] in Hh. rewrite <- Hh. apply IH.
Qed.

(** A deletion that raises is one that was cancelled; otherwise the ref is gone. *)
Lemma delete_ref_ok now (s : Gh G) d x r :
  wf (gh_heap s) -> h_dirs (gh_heap s) !! d = Some x -> r ∈ items (files x) ->
  let rs := gh_delete_file_ref ghc now d r s in
  wf (gh_heap rs.2) /\
  match rs.1 with
  | Ok _ => gh_heap rs.2 = put_dir d (with_modified now (drop_ref (gh_heap s) r x)) (gh_heap s)
  | Raise e => is_Exception e = false
  end.
Proof.
  intros Hwf Hd Hr. cbv zeta. destruct (github_path_total s d) as [path Hpath]; [done|by eexists|].
  set (l := candidates ghc (fr_name (ref_at (gh_heap s) r)) (fr_message_id (ref_at (gh_heap s) r))).
  assert (gh_delete_file_ref ghc now d r s =
          (delete_candidates ghc path l ;;; heaped (delete_file_ref now d r) ;;; settled d) s) as ->.
  { unfold gh_delete_file_ref. unfold sbind at 1, sget. unfold sbind at 1, path_of_dir. by rewrite Hpath. }
  destruct (delete_candidates_heap path l s) as [Hh Hc]. unfold sbind.
  destruct (delete_candidates ghc path l s) as [[b|e] s1]; cbn [snd fst] in Hh, Hc; [|split; [cbn; by rewrite Hh|exact Hc]].
  unfold heaped. rewrite Hh, (delete_file_ref_eq now _ _ _ _ Hwf Hd Hr). cbn. split; [by apply wf_drop_ref|done].
Qed.

Lemma delete_dir_ok now (s : Gh G) d :
  wf (gh_heap s) -> is_Some (h_dirs (gh_heap s) !! d) -> attached (gh_heap s) d ->
  tree_safe (gh_heap s) (gh_delete ghc now d s).
Proof.
  intros Hwf Hd Hatt. unfold gh_delete. unfold sbind at 1, sget. destruct (delete_spec now _ _ Hwf Hd Hatt) as [He Hw].
  destruct (parent (dir_at (gh_heap s) d)) as [p|] eqn:Hp.
  - assert (gh_heap (delete_github_directory ghc d s).2 = gh_heap s) as Hh.
    { unfold delete_github_directory, sbind, path_of_dir. destruct (github_path ghc s d) as [path|]; [|done].
      case_bool_decide; [done|]. unfold stry. pose proof (netted_heap (drop_subtree ghc path) s) as Hn.
      destruct (netted _ s) as [[[]|e] s1]; cbn [snd] in Hn; [done|]. by destruct (is_Exception e). }
    unfold sbind at 1. destruct (delete_github_directory ghc d s) as [[[]|e] s1]; cbn [snd] in Hh; [|by apply safe_same].
    unfold sbind, heaped. rewrite Hh, He. by apply safe_ok.
  - unfold sbind, heaped. rewrite He. by apply safe_ok.
Qed.

(** The paths only depend on the tree and the stored forms. *)
Lemma github_path_loop_ext (s s' : Gh G) fuel d :
  gh_heap s = gh_heap s' -> gh_ext s = gh_ext s' -> github_path_loop ghc fuel s d = github_path_loop ghc fuel s' d.
Proof.
  intros Hh He. revert d. induction fuel as [|fuel IH]; intros d; cbn [github_path_loop]; rewrite Hh; [done|].
  destruct (parent _) as [p|]; [|done]. unfold is_github, storage_name, ext_at. by rewrite He, Hh, IH.
Qed.

(** The inherited move, on every branch. *)
Lemma super_move_eq now (s : Gh G) d np new_name :
  wf (gh_heap s) -> is_Some (h_dirs (gh_heap s) !! d) -> is_Some (h_dirs (gh_heap s) !! np) -> attached (gh_heap s) d ->
  exists s1, super_move_to now d np new_name s = ((move_result now d np new_name (gh_heap s)).1, s1) /\
    gh_heap s1 = (move_result now d np new_name (gh_heap s)).2 /\
    (forall p, parent (dir_at (gh_heap s) d) = Some p -> np = p ->
       name_or new_name (dir_name (gh_heap s) d) = dir_name (gh_heap s) d -> gh_ext s1 = gh_ext s).
Proof.
  intros Hwf Hd Hnp Hatt. destruct (move_to_spec now (gh_heap s) d np new_name Hwf Hd Hnp Hatt) as [Hm _].
  unfold super_move_to. unfold sbind at 1, sget. unfold sbind at 1, heaped. rewrite Hm.
  destruct (move_result now d np new_name (gh_heap s)) as [[[]|e] h1]; [|by eexists].
  destruct (parent (dir_at (gh_heap s) d)) as [p|]; [|by eexists].
  destruct (_ && _) eqn:Hs; [by eexists|]. eexists. split; [reflexivity|]. split; [done|]. intros q [= <-] -> He.
  rewrite Nat.eqb_refl in Hs. unfold dir_name in He. by rewrite bool_decide_eq_true_2 in Hs.
Qed.

Lemma move_dir_ok now (s : Gh G) d np new_name :
  wf (gh_heap s) -> is_Some (h_dirs (gh_heap s) !! d) -> is_Some (h_dirs (gh_heap s) !! np) -> attached (gh_heap s) d ->
  tree_safe (gh_heap s) (gh_move_to ghc now d np new_name s).
Proof.
  intros Hwf Hd Hnp Hatt. destruct (github_path_total s d) as [old_prefix Ho]; [done..|].
  destruct (super_move_eq now s d np new_name Hwf Hd Hnp Hatt) as (s1 & Hsup & Hs1 & Hext).
  destruct (move_to_spec now (gh_heap s) d np new_name Hwf Hd Hnp Hatt) as [_ Hw].
  assert (forall e, (move_result now d np new_name (gh_heap s)).1 = Raise e -> gh_heap s1 = gh_heap s) as Hraise.
  { rewrite Hs1. unfold move_result. destruct (parent _); [|done]. destruct (validate_name _); [|done]. destruct (_ && _); [done|].
    destruct (is_ancestor_of (gh_heap s) d np) as [[]|], (absolute_path (gh_heap s) d) as [|]; try done; by case_bool_decide. }
  unfold gh_move_to. unfold sbind at 1, sget. unfold sbind at 1, path_of_dir. rewrite Ho. unfold sbind at 1. rewrite Hsup.
  destruct (move_result now d np new_name (gh_heap s)).1 as [[]|e] eqn:Hr; [|by apply safe_same; [|apply (Hraise e)]].
  clear Hraise. destruct (github_path_total s1 d) as [new_prefix Hn]; [by rewrite Hs1|rewrite Hs1; revert Hr|].
  { unfold move_result. destruct (parent _); [|done]. destruct (validate_name _); [|done]. destruct (_ && _); [done|].
    destruct (is_ancestor_of (gh_heap s) d np) as [[]|], (absolute_path (gh_heap s) d) as [|]; try done; (case_bool_decide; [done|]); intros _;
      cbn [snd]; unfold moved_heap; rewrite !lookup_put; repeat case_decide; try done; by eexists. }
  unfold sbind at 1. rewrite Hn. destruct (_ || _) eqn:Hb; [apply safe_ok; by rewrite Hs1|].
  apply orb_false_elim in Hb as [_ Hne%bool_decide_eq_false].
  revert Hs1 Hr Hw. unfold move_result. destruct (parent (dir_at (gh_heap s) d)) as [p|] eqn:Hp; [|done].
  set (name := name_or _ _). destruct (validate_name name) as [[]|e] eqn:Hv; [|done].
  destruct (_ && _) eqn:Hsame.
  { intros Hs1 _ _. exfalso. apply Hne. apply andb_prop in Hsame as [He%Nat.eqb_eq Hnm%bool_decide_eq_true_1].
    specialize (Hext p eq_refl He Hnm). unfold github_path in *. rewrite Hs1 in Hn. cbn [snd] in Hs1, Hn.
    rewrite (github_path_loop_ext s1 s) in Hn by done. congruence. }
  destruct (is_ancestor_of_spec (gh_heap s) d np Hwf Hnp) as (l & Hl & ->). destruct (absolute_path_total _ d Hwf Hd) as [ap ->].
  destruct (bool_decide (d ∈ l)) eqn:Hdl; [cbn [fst]; intros _ Hno; discriminate Hno|].
  destruct (bool_decide (name ∈ _)) eqn:Hfree; [cbn [fst]; intros _ Hno; discriminate Hno|]. cbn [snd]. intros Hs1 _ Hw.
  apply bool_decide_eq_false in Hdl, Hfree.
  change (d_name (dir_at (gh_heap s) d)) with (dir_name (gh_heap s) d).
  assert (np <> p \/ name <> dir_name (gh_heap s) d) as Hmv.
  { apply andb_false_iff in Hsame as [He%Nat.eqb_neq|He%bool_decide_eq_false]; auto. }
  pose proof (Hatt _ Hp) as Hin.
  assert (tree_safe (gh_heap s) ((let! a := undoing (netted (move_subtree ghc old_prefix new_prefix))
            (heaped (put_back d (Some p) (dir_name (gh_heap s) d))) in sret a) s1)) as Hsafe.
  { apply undoing_safe; [by rewrite Hs1| |].
    - rewrite Hs1. eexists. split; [by apply (put_back_eq now (gh_heap s) d p np name l)|]. split.
      + by apply (back_wf now (gh_heap s) d p np name l).
      + by apply (back_same now (gh_heap s) d p np name l).
    - intros [] s2 Hs2. apply safe_ok. by rewrite Hs2, Hs1. }
  revert Hsafe. unfold sbind. by destruct (undoing _ _ s1) as [[[]|e] s2].
Qed.

Lemma relocate_ok now (s : Gh G) d fr to new_name :
  wf (gh_heap s) -> is_Some (h_dirs (gh_heap s) !! d) -> is_Some (h_dirs (gh_heap s) !! to) ->
  fr ∈ items (files (dir_at (gh_heap s) d)) ->
  tree_safe (gh_heap s) (gh_relocate_file_ref ghc now d fr to new_name s).
Proof.
  intros Hwf Hd Hto Hfr. unfold gh_relocate_file_ref. unfold sbind at 1, sget. set (x := ref_at (gh_heap s) fr).
  set (name := name_or _ _). destruct (_ && _); [by apply safe_ok|].
  destruct (create_ref_ok now s to _ name (fr_message_id x) Hwf (dir_at_lookup _ _ Hto)) as [Hsafe Hok].
  unfold sbind at 1. destruct (gh_create_file_ref ghc now to name (fr_message_id x) s) as [[moved|e] s1]; [|exact Hsafe].
  cbn [fst snd] in Hok. destruct Hok as [-> Hs1]. destruct Hsafe as [Hw1 _]. cbn [snd] in Hw1.
  unfold sbind at 1, heaped at 1, modify_ref. set (h2 := put_ref _ _ (gh_heap s1)).
  assert (h_refs (gh_heap s1) !! h_fresh (gh_heap s) = Some (fresh_ref to name (fr_message_id x))) as Hr1.
  { rewrite Hs1. unfold touch_modified, with_new_ref. rewrite (modify_dir_eq _ _ _ _ (put_lookup _ _ _)). apply lookup_insert_eq. }
  assert (wf h2) as Hw2.
  { eapply wf_put_ref; [exact Hw1|exact Hr1|unfold ref_at; by rewrite Hr1|unfold ref_at; by rewrite Hr1]. }
  assert (exists y, h_dirs h2 !! d = Some y /\ fr ∈ items (files y)) as (y & Hy & Hfy).
  { unfold h2. rewrite Hs1. unfold touch_modified, with_new_ref. rewrite (modify_dir_eq _ _ _ _ (put_lookup _ _ _)).
    cbn [snd put_ref h_dirs]. rewrite !lookup_put. destruct (decide (to = d)) as [->|Htd].
    - eexists. split; [reflexivity|]. cbn. apply elem_of_app. by left.
    - eexists. split; [by apply dir_at_lookup|done]. }
  unfold sbind, stry. destruct (delete_ref_ok now (with_gh_heap h2 s1) d y fr Hw2 Hy Hfy) as [Hw3 Hres].
  destruct (gh_delete_file_ref ghc now d fr (with_gh_heap h2 s1)) as [[[]|e] s3]; cbn [fst snd] in Hw3, Hres; [by apply safe_ok|].
  rewrite Hres. split; [done|]. cbn. by rewrite Hres.
Qed.

Inductive gh_op :=
| GhCreateDir (d : nat) (name : string)
| GhCreateRef (d : nat) (name : string) (mid : Z)
| GhDeleteRef (d r : nat)
| GhRelocateRef (d r to : nat) (new_name : option string)
| GhMoveDir (d new_parent : nat) (new_name : option string)
| GhDeleteDir (d : nat).

Definition gh_exec (now : datetime) (op : gh_op) : st exn (Gh G) unit :=
  match op with
  | GhCreateDir d name => gh_create_dir ghc now d name ;;; sret tt
  | GhCreateRef d name mid => gh_create_file_ref ghc now d name mid ;;; sret tt
  | GhDeleteRef d r => gh_delete_file_ref ghc now d r
  | GhRelocateRef d r to new_name => gh_relocate_file_ref ghc now d r to new_name ;;; sret tt
  | GhMoveDir d np new_name => gh_move_to ghc now d np new_name
  | GhDeleteDir d => gh_delete ghc now d
  end.

Definition gh_pre (op : gh_op) : heap -> Prop :=
  tree_pre match op with
           | GhCreateDir d name => CreateDir d name
           | GhCreateRef d name mid => CreateRef d name mid
           | GhDeleteRef d r => DeleteRef d r
           | GhRelocateRef d r to n => RelocateRef d r to n
           | GhMoveDir d np n => MoveDir d np n
           | GhDeleteDir d => DeleteDir d
           end.

Lemma tree_safe_unit {A} h (m : st exn (Gh G) A) s : tree_safe h (m s) -> tree_safe h ((m ;;; sret tt) s).
Proof. unfold sbind. by destruct (m s) as [[a|e] s']. Qed.

(** C14: Whatever the repository answers, every operation on a folder kept in
    GitHub leaves a well-formed tree; and one that fails -- the tree refuses
    it, or the repository does -- leaves the tree it found: same folders,
    names and parents, same files, the children of a folder possibly in
    another order. *)
Theorem refused_by_github_keeps_tree now op (s : Gh G) :
  wf (gh_heap s) -> gh_pre op (gh_heap s) ->
  let '(r, s') := gh_exec now op s in
  wf (gh_heap s') /\ match r with Raise e => is_Exception e = true -> same_tree (gh_heap s) (gh_heap s') | Ok _ => True end.
Proof.
  intros Hwf Hpre. assert (tree_safe (gh_heap s) (gh_exec now op s)) as Hsafe; [|by destruct (gh_exec now op s)].
  destruct op as [d name|d name mid|d r|d r to new_name|d np new_name|d]; cbn [gh_exec gh_pre tree_pre] in *.
  - apply tree_safe_unit. by apply (create_dir_ok now s d _ name Hwf (dir_at_lookup _ _ Hpre)).
  - apply tree_safe_unit. by apply (create_ref_ok now s d _ name mid Hwf (dir_at_lookup _ _ Hpre)).
  - destruct Hpre as [Hd Hr]. destruct (delete_ref_ok now s d _ r Hwf (dir_at_lookup _ _ Hd) Hr) as [Hw Hres].
    destruct (gh_delete_file_ref ghc now d r s) as [[[]|e] s1]; [by apply safe_ok|]. split; [done|]. cbn in *. by rewrite Hres.
  - destruct Hpre as (Hd & Hto & Hr). apply tree_safe_unit. by apply relocate_ok.
  - destruct Hpre as (Hd & Hnp & Hatt). by apply move_dir_ok.
  - destruct Hpre as (Hd & Hatt). by apply delete_dir_ok.
Qed.

End Operations.

(** ** A tree kept in the server in memory *)

Definition demo_ghc : GithubConfig := {| ghc_commit := "main"; ghc_name_key := None; ghc_dated := true |}.
Definition gh_now : datetime := fromtimestamp_ms 100.

Definition gh_start (limit : nat) : Gh GitMem :=
  (new_github_dir demo_ghc gh_now "root" None None false
     {| gh_heap := empty_heap; gh_ext := ∅; gh_times := no_times; gh_net := git_with limit [] [] |}).2.

(** [docs] is 2, [pics] is 4, and [docs/a.txt] the ref 5. *)
Definition gh_docs (limit : nat) : Gh GitMem := (gh_create_dir demo_ghc gh_now 0 "docs" (gh_start limit)).2.
Definition gh_pics (limit : nat) : Gh GitMem := (gh_create_dir demo_ghc gh_now 0 "pics" (gh_docs limit)).2.
Definition demo_gh (limit : nat) : Gh GitMem := (gh_create_file_ref demo_ghc gh_now 2 "a.txt" 7 (gh_pics limit)).2.

Definition with_fates (fates : list fate) (s : Gh GitMem) : Gh GitMem :=
  with_gh_net {| gm_repo := gm_repo (gh_net s); gm_limit := gm_limit (gh_net s); gm_fates := fates |} s.

Definition paths_of (s : Gh GitMem) : list string := (map fst (map_to_list (mem_files (gm_repo (gh_net s))))).

Example demo_paths : paths_of (demo_gh 100) ≡ₚ ["docs/.gitkeep"; "pics/.gitkeep"; "docs/a.txt.7"]%string.
Proof. apply (bool_decide_eq_true_1 _). by vm_compute. Qed.

Lemma demo_gh_wf limit : wf (gh_heap (demo_gh limit)).
Proof.
  assert (wf (gh_heap (gh_start limit))) as H0 by by apply (wf_alloc_dir empty_heap "root" None gh_now gh_now wf_empty).
  assert (exists x, h_dirs (gh_heap (gh_start limit)) !! 0%nat = Some x) as [x0 Hx0] by by eexists.
  destruct (create_dir_ok demo_ghc gh_now (gh_start limit) 0 x0 "docs" H0 Hx0) as [H1 _]. fold (gh_docs limit) in H1.
  assert (exists x, h_dirs (gh_heap (gh_docs limit)) !! 0%nat = Some x) as [x1 Hx1] by (vm_compute; by eexists).
  destruct (create_dir_ok demo_ghc gh_now (gh_docs limit) 0 x1 "pics" H1 Hx1) as [H2 _]. fold (gh_pics limit) in H2.
  assert (exists x, h_dirs (gh_heap (gh_pics limit)) !! 2%nat = Some x) as [x2 Hx2] by (vm_compute; by eexists).
  by destruct (create_ref_ok demo_ghc gh_now (gh_pics limit) 2 x2 "a.txt" 7 H2 Hx2) as [[H3 _] _].
Qed.

(** The move of [docs] below [pics] whose new tree is refused. *)
Lemma refused_by_github_keeps_tree_witness :
  let s := with_fates [Works; Works; Works; Fails] (demo_gh 100) in
  let rs := gh_exec demo_ghc gh_now (GhMoveDir 2 4 (Some "old"%string)) s in
  rs.1 = Raise (BackendError 500) /\ same_tree (gh_heap s) (gh_heap rs.2).
Proof.
  intros s rs. assert (rs.1 = Raise (BackendError 500)) as Hr by by vm_compute. split; [done|].
  pose proof (refused_by_github_keeps_tree demo_ghc gh_now (GhMoveDir 2 4 (Some "old"%string)) s) as Hk.
  fold rs in Hk. destruct rs as [r s']. cbn in Hr. subst r. apply Hk; [exact (demo_gh_wf 100)| |done].
  split; [by vm_compute; eexists|]. split; [by vm_compute; eexists|]. intros p. vm_compute. intros [= <-]. left.
Defined.
