(* ===== verification/GhRepo.v ===== *)
(** * The metadata repository on GitHub
      ([core/repository/impl/metadata/github_repo/__init__.py])

    Building the tree of directories from the files of a git repository --
    from one recursive listing, or folder by folder -- and the stats files of
    the folders.  The repository discharges the interface [MetaRepo] of the
    file system API.  [meanwhile] is what others do to the tree while a call
    waits for the server; that several listings of a folder share one read of
    its stats file is not modelled.  SHA-1 and [json] are parameters. *)

From S2P Require Import Prelude Errors Codec StoreKey FileVersion FileRefs Directory Stores FileContent FdRepo Api PosixPath CryptoLib Names ConfigValue Github GhTimes GhDir.

Open Scope Z_scope.
Open Scope py_scope.

(** [json.dumps(entries, sort_keys=True, separators=(",", ":"))],
    [json.loads], and [hashlib.sha1(data).hexdigest()]. *)
Class StatsJson := {
  stats_dumps : dict string pyval -> string;
  json_loads : bytes -> exc pyval;
  sha1_hex : bytes -> string
}.

Definition blob_sha `{StatsJson} (content : string) : string :=
  let data := String.list_byte_of_string content in
  sha1_hex (String.list_byte_of_string ("blob " +:+ pretty.pretty (length data)) ++ [Byte.x00] ++ data).

Definition STATS_COMMIT_ATTEMPTS : nat := 3.

(** [s.rpartition("/")], without the separator. *)
Definition rpartition (s : string) : string * string :=
  let '(head, tail) := split_last s in
  (String.substring 0 (String.length head - 1) head, tail).

Definition is_GithubException (e : exn) : bool := match e with BackendError _ => true | _ => false end.

Section GhRepo.
  Context {G : Type} `{Github G} `{CryptoLib} `{IsoText} `{StatsJson} (ghc : GithubConfig).
  Context (meanwhile : Gh G -> Gh G).
  Local Abbreviation gst := (st exn (Gh G)).

(** ** Names *)

Definition decode_name (raw : string) : exc (string * bool) :=
  if negb (is_encrypted_path_name raw) then Ok (raw, false)
  else
    match ghc_name_key ghc with
    | None => Ok (raw, true)
    | Some key =>
        match decrypt_path_name key raw with
        | Ok name => Ok (name, true)
        | Raise PathNameEncryptionError => Ok (raw, true)
        | Raise e => Raise e
        end
    end.

(** ** Building the tree *)

Definition create_child_dir (now : datetime) (name : string) (parent_dir : nat) (stored_encrypted defer : bool) : gst nat :=
  let! child := new_github_dir ghc now name (Some parent_dir) (Some stored_encrypted) defer in
  heaped (modify_dir parent_dir (fun x => with_children (children x ++ [child]) x)) ;;;
  sret child.

Definition request_dates (path : string) : gst unit := fun s =>
  (Ok tt, if ghc_dated ghc then with_gh_times (request path (gh_times s)) s else s).

Definition set_stats (sha : option string) (x : GhExt) : GhExt :=
  {| x_stored_encrypted := x_stored_encrypted x; x_created_pending := x_created_pending x;
     x_modified_pending := x_modified_pending x; x_stats_sha := sha; x_stats_loaded := x_stats_loaded x |}.
Definition set_loaded (x : GhExt) : GhExt :=
  {| x_stored_encrypted := x_stored_encrypted x; x_created_pending := x_created_pending x;
     x_modified_pending := x_modified_pending x; x_stats_sha := x_stats_sha x; x_stats_loaded := true |}.

(** The tree so far and the directory of every storage path seen. *)
Record Build := { b_gh : Gh G; b_dirs : dict string nat }.
Local Abbreviation bst := (st exn Build).

Definition built {A} (m : gst A) : bst A := fun b =>
  let '(r, s) := m (b_gh b) in (r, {| b_gh := s; b_dirs := b_dirs b |}).

(** [_dir_at]; the recursion goes up the path. *)
Fixpoint dir_at_path (fuel : nat) (now : datetime) (storage_path : string) : bst nat := fun b =>
  match Dict.get storage_path (b_dirs b) with
  | Some d => (Ok d, b)
  | None =>
      match fuel with
      | O => (Raise OutOfFuel, b)
      | S fuel =>
          let '(parent_path, segment) := rpartition storage_path in
          (let! (dir_name, was_encrypted) := slift (decode_name segment) in
           let! p := dir_at_path fuel now parent_path in
           let! child := built (create_child_dir now dir_name p was_encrypted true) in
           built (request_dates storage_path) ;;;
           let! b := sget in
           sput {| b_gh := b_gh b; b_dirs := Dict.set storage_path child (b_dirs b) |} ;;;
           sret child) b
      end
  end.

Definition the_dir_at (now : datetime) (path : string) : bst nat := dir_at_path (S (String.length path)) now path.

(** [except ValueError]: the entry is skipped. *)
Definition skipping (m : bst unit) : bst unit :=
  stry m (fun ex => if is_ValueError ex then sret tt else sraise ex).

Definition build_entry (now : datetime) (e : GitTreeElement) : bst unit :=
  if bool_decide (te_type e = "tree"%string) then (the_dir_at now (te_path e) ;;; sret tt)
  else if negb (bool_decide (te_type e = "blob"%string)) then sret tt
  else
    let '(parent_path, segment) := rpartition (te_path e) in
    if bool_decide (segment = ".gitkeep"%string) then sret tt
    else if bool_decide (segment = STATS_FILE_NAME) then
      (let! d := the_dir_at now parent_path in built (modify_ext d (set_stats (Some (te_sha e)))))
    else
      skipping
        (match rsplit_dot segment with
         | None => sraise ValueError
         | Some (stored_name, message_id) =>
             let! (file_name, _) := slift (decode_name stored_name) in
             let! d := the_dir_at now parent_path in
             let! mid := slift (int_of_string message_id) in
             built (heaped (attach_file_ref d file_name mid)) ;;;
             sret tt
         end).

Definition build_from_tree (now : datetime) (entries : list GitTreeElement) (root : nat) : gst unit := fun s =>
  let '(r, b) := sfor entries (build_entry now) {| b_gh := s; b_dirs := [(EmptyString, root)] |} in
  (r, b_gh b).

(** Folder by folder. *)
Fixpoint process_contents (fuel : nat) (now : datetime) (contents : list ContentFile) (parent_dir : nat) : gst unit :=
  match fuel with
  | O => sraise RecursionError
  | S fuel =>
      sfor contents (fun c =>
        if bool_decide (co_type c = "dir"%string) then
          let! (dir_name, was_encrypted) := slift (decode_name (co_name c)) in
          let! child := create_child_dir now dir_name parent_dir was_encrypted true in
          request_dates (co_path c) ;;;
          stry (let! child_contents := netted (get_contents (co_path c) (ghc_commit ghc)) in
                process_contents fuel now child_contents child)
               (fun ex => if is_Exception ex then sret tt else sraise ex)
        else if negb (bool_decide (co_type c = "file"%string)) then sret tt
        else if bool_decide (co_name c = ".gitkeep"%string) then sret tt
        else if bool_decide (co_name c = STATS_FILE_NAME) then modify_ext parent_dir (set_stats (Some (co_sha c)))
        else
          stry (match rsplit_dot (co_name c) with
                | None => sraise ValueError
                | Some (stored_name, message_id) =>
                    let! (file_name, _) := slift (decode_name stored_name) in
                    let! mid := slift (int_of_string message_id) in
                    heaped (attach_file_ref parent_dir file_name mid) ;;;
                    sret tt
                end)
               (fun ex => if is_ValueError ex then sret tt else sraise ex))
  end.

Definition or_else {A} (a b : option A) : option A := match a with Some x => Some x | None => b end.

Definition restore_root_timestamps (root : nat) : gst unit :=
  stry (let! (created, pushed, updated) := netted repo_dates in
        let modified := or_else pushed updated in
        heaped (modify_dir root (set_dates created modified)) ;;;
        modify_ext root (dated (bool_decide (is_Some created)) (bool_decide (is_Some modified))))
       (fun ex => if is_Exception ex then sret tt else sraise ex).

Definition read_tree : gst (option (list GitTreeElement)) :=
  stry (let! tree := netted (get_git_tree (ghc_commit ghc)) in
        sret (if gt_truncated tree then None else Some (gt_tree tree)))
       (fun ex => if is_Exception ex then sret None else sraise ex).

Definition build_directory_structure (now : datetime) : gst nat :=
  let! root := new_github_dir ghc now "root" None None false in
  restore_root_timestamps root ;;;
  stry (let! entries := read_tree in
        match entries with
        | Some entries => build_from_tree now entries root
        | None =>
            let! contents := netted (get_contents EmptyString (ghc_commit ghc)) in
            process_contents recursion_limit now contents root
        end)
       (fun ex => if is_Exception ex then sret tt else sraise ex) ;;;
  sret root.

(** [get]; [file] is what reading the cache of dates gave. *)
Definition gh_get (full_name : string) (now : datetime) (file : exc yaml) : gst TGFSMetadata :=
  let! s := sget in
  let! t := netted (load full_name (ghc_commit ghc) file (gh_times s)) in
  let! s := sget in
  sput (with_gh_times t s) ;;;
  let! root := build_directory_structure now in
  sret {| md_dir := root |}.

(** ** Stats files *)

Definition gh_push_writes_stats : bool := false.

(** A file ref takes the stored entry, unless it has one or has changed. *)
Definition take_stat (entries : dict string pyval) (x : TGFSFileRef) : TGFSFileRef :=
  match fr_stat x with
  | Some _ => x
  | None =>
      if fr_stat_epoch x =? 0
      then with_stat (match Dict.get (pretty.pretty (fr_message_id x)) entries with
                      | Some data => stat_from_dict data
                      | None => None
                      end) (fr_stat_epoch x) x
      else x
  end.

(** [_load_stats], for a directory with a stats file. *)
Definition read_stats (directory : nat) (sha : string) : gst bool :=
  let! entries :=
    stry (let! content := netted (get_git_blob sha) in
          let! data := slift (b64_decode (String.list_ascii_of_string content)) in
          let! entries := slift (json_loads data) in
          match entries with PDict d => sret (Some d) | _ => sraise ValueError end)
         (fun ex => if is_Exception ex then sret None else sraise ex) in
  (fun s => (Ok tt, meanwhile s)) ;;;
  match entries with
  | None => sret false
  | Some entries =>
      let! s := sget in
      sfor (find_files (gh_heap s) directory []) (fun fr => heaped (modify_ref fr (take_stat entries))) ;;;
      modify_ext directory set_loaded ;;;
      sret true
  end.

Definition gh_load_stats (directory : nat) : gst bool := fun s =>
  let x := ext_at s directory in
  if negb (is_github s directory) || x_stats_loaded x then (Ok true, s)
  else match x_stats_sha x with
       | None => (modify_ext directory set_loaded ;;; sret true) s
       | Some sha => read_stats directory sha s
       end.

Definition gh_stats_stored (s : Gh G) (directory : nat) : bool :=
  is_github s directory && bool_decide (is_Some (x_stats_sha (ext_at s directory))).

(** The entries of the files that have a stat. *)
Definition stats_entries (h : heap) (directory : nat) : dict string pyval :=
  Dict.of_pairs (concat (map (fun fr => let x := ref_at h fr in
                                        match fr_stat x with
                                        | Some stat => [(pretty.pretty (fr_message_id x), stat_to_dict stat)]
                                        | None => []
                                        end)
                             (find_files h directory []))).

Definition stats_content (h : heap) (directory : nat) : option string :=
  let entries := stats_entries h directory in
  if nonempty entries then Some (stats_dumps entries) else None.

Definition write_element (w : string * option string) : InputGitTreeElement :=
  {| ie_path := w.1; ie_mode := "100644";
     ie_blob := match w.2 with None => BSha None | Some content => BContent content end |}.

Fixpoint commit_attempts (n : nat) (elements : list InputGitTreeElement) (message : string) : st exn G unit :=
  match n with
  | O => sret tt
  | S n =>
      let! base_commit := get_git_ref (ghc_commit ghc) in
      let! base_tree := get_git_commit base_commit in
      let! tree := create_git_tree elements (Some base_tree) in
      let! commit := create_git_commit message tree base_commit in
      stry (edit_ref (ghc_commit ghc) commit)
           (fun ex => if negb (is_GithubException ex) then sraise ex
                      else match n with O => sraise ex | _ => commit_attempts n elements message end)
  end.

Definition commit_stats (writes : list (string * option string)) : st exn G unit :=
  commit_attempts STATS_COMMIT_ATTEMPTS (map write_element writes)
    (STATS_COMMIT_PREFIX +:+ " of " +:+ pretty.pretty (zlen writes) +:+ " folder(s)").

(** What is to be written, and the folders whose stored stats could not be
    read. *)
Record Plan := { pl_changes : list (nat * option string); pl_unreadable : list string }.

Definition plan_one (keep : bool) (pl : Plan) (directory : nat) : gst Plan :=
  let! s := sget in
  if negb (is_github s directory) then sret pl
  else
    let! attached := slift (is_attached s directory) in
    if negb attached then sret pl
    else
      let! readable := (if keep then gh_load_stats directory else sret true) in
      if negb readable then
        (let! s := sget in
         let! path := slift (stats_path ghc s directory) in
         sret {| pl_changes := pl_changes pl; pl_unreadable := pl_unreadable pl ++ [path] |})
      else
        let! s := sget in
        let content := if keep then stats_content (gh_heap s) directory else None in
        let stored := x_stats_sha (ext_at s directory) in
        let due := match content with
                   | None => bool_decide (is_Some stored)
                   | Some c => negb (bool_decide (Some (blob_sha c) = stored))
                   end in
        sret (if due then {| pl_changes := pl_changes pl ++ [(directory, content)]; pl_unreadable := pl_unreadable pl |} else pl).

Fixpoint plan_all (keep : bool) (pl : Plan) (directories : list nat) : gst Plan :=
  match directories with
  | [] => sret pl
  | d :: directories => let! pl := plan_one keep pl d in plan_all keep pl directories
  end.

Fixpoint join_comma (l : list string) : string :=
  match l with
  | [] => EmptyString
  | [p] => p
  | p :: l => (p +:+ ", " +:+ join_comma l)%string
  end.

Definition gh_save_stats (directories : list nat) (keep : bool) : gst unit :=
  let! pl := plan_all keep {| pl_changes := []; pl_unreadable := [] |} (Dict.keys (Dict.of_pairs (map (fun d => (d, tt)) directories))) in
  (if nonempty (pl_changes pl) then
     let! s := sget in
     let! writes := slift (rmapM (fun c => rmap (fun path => (path, c.2)) (stats_path ghc s c.1)) (pl_changes pl)) in
     netted (commit_stats writes) ;;;
     (fun s => (Ok tt, meanwhile s)) ;;;
     sfor (pl_changes pl) (fun c => modify_ext c.1 (fun x => set_loaded (set_stats (option_map blob_sha c.2) x)))
   else sret tt) ;;;
  if nonempty (pl_unreadable pl)
  then sraise (TechnicalError ("Could not read the stored stats of " +:+ join_comma (pl_unreadable pl)))
  else sret tt.

(** ** The interface of the API *)

(** What the repository keeps besides the tree. *)
Record GhState := { gs_ext : gmap nat GhExt; gs_times : Times; gs_net : G }.

Definition assemble (m : GhState) (h : heap) : Gh G :=
  {| gh_heap := h; gh_ext := gs_ext m; gh_times := gs_times m; gh_net := gs_net m |}.
Definition disassemble (s : Gh G) : GhState * heap :=
  ({| gs_ext := gh_ext s; gs_times := gh_times s; gs_net := gh_net s |}, gh_heap s).

Definition through {L A} (m : gst A) : st exn (GhState * heap * L) A := fun '(g, h, l) =>
  let '(r, s) := m (assemble g h) in
  let '(g, h) := disassemble s in
  (r, (g, h, l)).

Definition gh_meta (W : Type) : MetaRepo GhState W := {|
  md_push _ _ := sret tt;
  md_push_writes_stats := gh_push_writes_stats;
  md_load_stats directory := through (gh_load_stats directory);
  md_stats_stored _ directory h m := (gh_stats_stored (assemble m h) directory, m);
  md_save_stats _ directories keep := through (gh_save_stats directories keep)
|}.

End GhRepo.
