(* ===== verification/GhRepoProps.v ===== *)
(** * The metadata repository on GitHub: what holds *)

From S2P Require Import Prelude Errors Codec StoreKey FileVersion FileRefs Directory DirectoryProps DirectorySer Stores FileContent FdRepo FdSaved Api PosixPath CryptoLib Names ConfigValue Github GhTimes GhDir GhDirProps GhRepo.

Open Scope Z_scope.
Open Scope py_scope.

(** ** Names in the repository *)

Lemma rsplit_dot_join a b : str_mem "."%char b = false -> rsplit_dot (a +:+ String "." b) = Some (a, b).
Proof.
  intros Hb. assert (rsplit_dot b = None) as Hn.
  { induction b as [|c b IH]; [done|]. cbn [str_mem] in Hb. apply orb_false_iff in Hb as [Hc Hb]. cbn [rsplit_dot]. rewrite IH by done.
    rewrite bool_decide_eq_false_2; [done|]. by apply bool_decide_eq_false in Hc. }
  induction a as [|c a IH]; cbn [rsplit_dot].
  - change ("" +:+ String "." b)%string with (String "." b). cbn [rsplit_dot]. by rewrite Hn.
  - rewrite str_app_cons. cbn [rsplit_dot]. by rewrite IH.
Qed.

Lemma pretty_no_dot (n : Z) : str_mem "."%char (pretty.pretty n) = false.
Proof.
  assert (forall x : N, forall t, str_mem "."%char t = false -> str_mem "."%char (pretty.pretty_N_go x t) = false) as Hgo.
  { intros x. induction (N.lt_wf_0 x) as [x _ IH]. intros t Ht. destruct (decide (0 < x)%N) as [Hx|Hx].
    - rewrite pretty.pretty_N_go_step by done. apply IH; [by apply N.div_lt|]. cbn [str_mem]. rewrite Ht, orb_false_r.
      pose proof (N.mod_lt x 10 ltac:(done)) as Hm. destruct (x `mod` 10)%N as [|k]; [done|].
      by repeat (destruct k as [k|k|]; try done; try lia).
    - assert (x = 0%N) as -> by lia. done. }
  assert (forall x : N, str_mem "."%char (pretty.pretty x) = false) as HN.
  { intros x. unfold pretty.pretty, pretty.pretty_N. case_decide; [done|]. by apply Hgo. }
  destruct n as [|q|q]; [done|apply (HN (N.pos q))|]. change (str_mem "."%char (pretty.pretty (N.pos q)) = false). apply HN.
Qed.

Lemma pretty_id_inj (n m : Z) : pretty.pretty n = pretty.pretty m -> n = m.
Proof. intros He. pose proof (int_of_pretty n) as Hn. rewrite He, int_of_pretty in Hn. by injection Hn. Qed.

Section Names.
  Context `{CryptoLaws} (ghc : GithubConfig).

(** A name the repository can hold: any text under a key, any at all
    without. *)
Definition storable (name : string) : Prop :=
  match ghc_name_key ghc with Some key => zlen key = 64 /\ is_str name /\ name <> "" | None => True end.

Lemma decode_encrypted_name name :
  storable name -> exists enc, decode_name ghc (encrypted_name ghc name) = Ok (name, enc).
Proof.
  unfold storable, decode_name, encrypted_name. destruct (ghc_name_key ghc) as [key|].
  - intros (Hk & Hs & Hn). destruct (path_name_roundtrip key name name) as (Hd & _ & _); [done..|].
    assert (is_encrypted_path_name (encrypt_path_name key name) = true) as Henc.
    { unfold is_encrypted_path_name, encrypt_path_name. by rewrite strip_prefix_app. }
    rewrite Henc. cbn [negb]. rewrite Hd. by eexists.
  - intros _. destruct (negb _); by eexists.
Qed.

(** What a stored file name is read back as. *)
Definition parse_ref (segment : string) : exc (string * Z) :=
  match rsplit_dot segment with
  | None => Raise ValueError
  | Some (stored_name, message_id) =>
      let* (file_name, _) := decode_name ghc stored_name in
      let* mid := int_of_string message_id in
      Ok (file_name, mid)
  end.

Lemma parse_storage_name name mid : storable name -> parse_ref (file_ref_storage_name ghc name mid) = Ok (name, mid).
Proof.
  intros Hs. unfold parse_ref, file_ref_storage_name. change ("." +:+ pretty.pretty mid)%string with (String "." (pretty.pretty mid)).
  rewrite rsplit_dot_join by apply pretty_no_dot. destruct (decode_encrypted_name name Hs) as [enc ->]. cbn [rbind].
  by rewrite int_of_pretty.
Qed.

(** A folder whose name cannot be decrypted with the key is taken for an
    encrypted one under its raw name; what is done in it then goes to
    another path, the encryption of the raw name. *)
Theorem undecryptable_folder_misplaced {G : Type} key raw (s : Gh G) d :
  ghc_name_key ghc = Some key -> zlen key = 64 -> is_str raw -> raw <> "" ->
  is_encrypted_path_name raw = true -> decrypt_path_name key raw = Raise PathNameEncryptionError ->
  d_name (dir_at (gh_heap s) d) = raw -> x_stored_encrypted (ext_at s d) = true ->
  decode_name ghc raw = Ok (raw, true) /\ storage_name ghc s d <> raw.
Proof.
  intros Hkey Hk Hs Hn Henc Hd Hname Hx. unfold decode_name, storage_name, encrypted_name. rewrite Henc, Hkey, Hd, Hname, Hx.
  split; [done|]. intros He. destruct (path_name_roundtrip key raw raw) as (Hrt & _); [done..|]. rewrite He in Hrt. congruence.
Qed.

End Names.

(** ** Stats files *)

Section StatsFiles.
  Context {G : Type} `{GithubLaws G} `{CryptoLib} `{StatsJson} (ghc : GithubConfig).
  Context (Hbranch : ghc_commit ghc = the_branch).

(** The branch ends with the writes on top of the head, or where it was. *)
Lemma commit_attempts_spec n l m g fs :
  head_files (repo g) = Some fs -> (0 < n)%nat ->
  (forall fs' : files_of_tree, fs' = apply_elements git_sha fs l -> apply_elements git_sha fs' l = fs') ->
  let '(r, g') := commit_attempts ghc n l m g in
  (head_files (repo g') = Some fs /\ r <> Ok tt) \/ head_files (repo g') = Some (apply_elements git_sha fs l).
Proof.
  set (fs1 := apply_elements git_sha fs l). intros Hf Hn Hidem.
  assert (head_files (repo g) = Some fs \/ head_files (repo g) = Some fs1) as Hstart by by left.
  clear Hf. revert g Hstart. induction n as [|n IH]; [lia|]. intros g Hstart. cbn [commit_attempts]. unfold sbind. rewrite Hbranch.
  assert (forall (g1 : G) e, quiet (repo g) (repo g1) ->
            (head_files (repo g1) = Some fs /\ @Raise exn unit e <> Ok tt) \/ head_files (repo g1) = Some fs1) as Hstop.
  { intros g1 e Hq. destruct Hstart as [Hs|Hs]; [left; split; [|done]|right]; by eapply head_files_quiet. }
  pose proof (ref_law g) as La. destruct (get_git_ref the_branch g) as [[c|e] g1]; [|apply Hstop, La]. destruct La as [Hq1 ->].
  pose proof (commit_law (rp_head (repo g1)) g1) as Lb. destruct (get_git_commit _ g1) as [[t|e] g2]; [|apply Hstop; by etrans; [|apply Lb]].
  destruct Lb as [Hq2 Ht]. assert (quiet (repo g) (repo g2)) as Hq12 by by etrans.
  pose proof (new_tree_law l (Some t) g2) as Lc. destruct (create_git_tree l (Some t) g2) as [[t'|e] g3]; [|apply Hstop; by etrans; [|apply Lc]].
  destruct Lc as [Hq3 Ht']. assert (quiet (repo g) (repo g3)) as Hq13 by by etrans.
  pose proof (new_commit_law m t' (rp_head (repo g1)) g3) as Ld.
  destruct (create_git_commit m t' _ g3) as [[c|e] g4]; [|apply Hstop; by etrans; [|apply Ld]].
  destruct Ld as [Hq4 Hc]. assert (quiet (repo g) (repo g4)) as Hq14 by by etrans.
  (* the files under the new commit *)
  assert (commit_files (repo g4) c = Some fs1) as Hcf.
  { assert (exists b, head_files (repo g1) = Some b /\ apply_elements git_sha b l = fs1) as (b & Hb & Hbl).
    { destruct Hstart as [Hs|Hs]; eexists; (split; [exact (head_files_quiet _ _ _ Hs Hq1)|]); [done|by apply Hidem]. }
    unfold head_files, commit_files in Hb. destruct (rp_commits (repo g1) !! rp_head (repo g1)) as [[tb p]|] eqn:He; [|done].
    specialize (Ht _ eq_refl). cbn in Ht. subst tb.
    assert (rp_trees (repo g2) !! t = Some b) as Hb2 by (destruct Hq2 as [[_ Hg] _]; by eapply lookup_weaken).
    unfold commit_files. rewrite Hc. specialize (Ht' b Hb2). rewrite Hbl in Ht'. destruct Hq4 as [[_ Hg] _]. by eapply lookup_weaken. }
  unfold stry. pose proof (edit_law c g4) as Le. destruct (edit_ref the_branch c g4) as [r g5]. destruct Le as (Hg5 & Hh & Hr).
  assert (forall h, rp_head (repo g5) = h -> forall f, commit_files (repo g4) h = Some f -> head_files (repo g5) = Some f) as Hat.
  { intros h Hhh f Hcf'. unfold head_files. rewrite Hhh. unfold commit_files in *.
    destruct (rp_commits (repo g4) !! h) as [[t0 p]|] eqn:Hl; [|done]. destruct Hg5 as [Hgc Hgt].
    rewrite (lookup_weaken _ _ _ _ Hl Hgc). by eapply lookup_weaken. }
  destruct r as [[]|e]; [right; by eapply Hat|].
  assert (head_files (repo g5) = Some fs \/ head_files (repo g5) = Some fs1) as Hend.
  { destruct Hh as [Hh|[Hh _]]; [|right; by eapply Hat].
    destruct Hstart as [Hs|Hs]; [left|right]; exact (Hat _ Hh _ (head_files_quiet _ _ _ Hs Hq14)). }
  assert (forall e', (head_files (repo g5) = Some fs /\ @Raise exn unit e' <> Ok tt) \/ head_files (repo g5) = Some fs1) as Hout.
  { intros e'. destruct Hend; [left|right]; done. }
  destruct (negb (is_GithubException e)); [apply Hout|]. destruct n as [|n]; [apply Hout|]. apply IH; [lia|done].
Qed.

(** What writing stats files makes of a tree. *)
Lemma apply_writes_lookup (l : list (string * option string)) (base : files_of_tree) p :
  NoDup (map fst l) ->
  apply_elements git_sha base (map write_element l) !! p =
  match Dict.get p l with
  | Some (Some c) => Some ("100644"%string, git_sha c)
  | Some None => None
  | None => base !! p
  end.
Proof.
  unfold apply_elements. revert base. induction l as [|[q w] l IH]; intros base Hnd; [done|]. cbn [map foldl Dict.get fst] in *.
  apply NoDup_cons in Hnd as [Hq Hnd]. rewrite IH by done. unfold apply_element. cbn [write_element ie_blob ie_path ie_mode fst snd].
  case_decide as Hpq.
  - subst q. destruct (Dict.get p l) as [w'|] eqn:Hg.
    { exfalso. apply Hq. apply Dict.get_Some_In in Hg. apply (in_map fst) in Hg. by apply list_elem_of_In. }
    destruct w; [apply lookup_insert_eq|apply lookup_delete_eq].
  - destruct (Dict.get p l); [done|]. destruct w; [by rewrite lookup_insert_ne|by rewrite lookup_delete_ne].
Qed.

(** Writing the same files twice is writing them once. *)
Lemma apply_writes_idem (l : list (string * option string)) (fs : files_of_tree) :
  NoDup (map fst l) ->
  let ws := map write_element l in apply_elements git_sha (apply_elements git_sha fs ws) ws = apply_elements git_sha fs ws.
Proof.
  intros Hnd ws. unfold ws. apply map_eq. intros p. rewrite !apply_writes_lookup by done. by destruct (Dict.get p l) as [[|]|].
Qed.

(** The stats files of many folders are written in one commit on top of
    the branch, at the third attempt at the latest: afterwards the branch has
    all of them and every other file as before, or, when an exception is
    raised, possibly none. *)
Theorem stats_commit_atomic writes (g : G) fs :
  head_files (repo g) = Some fs -> NoDup (map fst writes) ->
  let '(r, g') := commit_stats ghc writes g in
  exists fs', head_files (repo g') = Some fs' /\
    ((fs' = fs /\ r <> Ok tt) \/
     forall p, fs' !! p = match Dict.get p writes with
                          | Some (Some c) => Some ("100644"%string, git_sha c)
                          | Some None => None
                          | None => fs !! p
                          end).
Proof.
  intros Hf Hnd. unfold commit_stats.
  pose proof (commit_attempts_spec STATS_COMMIT_ATTEMPTS (map write_element writes)
    (STATS_COMMIT_PREFIX +:+ " of " +:+ pretty.pretty (zlen writes) +:+ " folder(s)") g fs Hf) as Hc.
  destruct (commit_attempts _ _ _ _ g) as [r g']. destruct Hc as [[Hs Hr]|Hs].
  - unfold STATS_COMMIT_ATTEMPTS. lia.
  - intros fs' ->. by apply apply_writes_idem.
  - exists fs. auto.
  - eexists. split; [exact Hs|]. right. intros p. by apply apply_writes_lookup.
Qed.

End StatsFiles.

(** ** Stats are read back *)

(** Reading back what was written, up to the order of the keys. *)
Class StatsJsonLaws `{StatsJson} := {
  stats_round_trip : forall l : dict string FileStat,
    exists d, json_loads (String.list_byte_of_string (stats_dumps (map (fun kv => (kv.1, stat_to_dict kv.2)) l))) = Ok (PDict d) /\
              forall k, Dict.get k d = option_map stat_to_dict (Dict.get k l)
}.

Section Reload.
  Context {G : Type} `{Github G} `{CryptoLib} `{StatsJsonLaws} (ghc : GithubConfig).

(** The stats of the files of a folder, by id. *)
Definition folder_stats (h : heap) (rs : list nat) : dict string FileStat :=
  concat (map (fun fr => match fr_stat (ref_at h fr) with
                         | Some stat => [(pretty.pretty (fr_message_id (ref_at h fr)), stat)]
                         | None => []
                         end) rs).

Lemma stats_entries_map h d :
  stats_entries h d =
  Dict.of_pairs (map (fun kv => (kv.1, stat_to_dict kv.2)) (folder_stats h (find_files h d []))).
Proof.
  unfold stats_entries, folder_stats. f_equal. induction (find_files h d []) as [|fr rs IH]; [done|].
  cbn [map concat]. rewrite IH, map_app. by destruct (fr_stat (ref_at h fr)).
Qed.

Lemma of_pairs_map {V W} (f : V -> W) (l : dict string V) :
  Dict.of_pairs (map (fun kv => (kv.1, f kv.2)) l) = map (fun kv => (kv.1, f kv.2)) (Dict.of_pairs l).
Proof.
  unfold Dict.of_pairs, Dict.update. change (@nil (string * W)) with (map (fun kv : string * V => (kv.1, f kv.2)) []) at 1.
  generalize (@nil (string * V)) as acc. induction l as [|[k v] l IH]; intros acc; [done|]. cbn [map foldl fst snd].
  rewrite <- IH. f_equal. clear IH. induction acc as [|[k' v'] acc IH]; cbn [map Dict.set fst snd]; [done|].
  case_decide; cbn [map fst snd]; [done|]. by rewrite IH.
Qed.

(** With different ids, every file has its own entry. *)
Lemma get_folder_stats h rs fr :
  NoDup (map (fun r => fr_message_id (ref_at h r)) rs) -> fr ∈ rs ->
  Dict.get (pretty.pretty (fr_message_id (ref_at h fr))) (Dict.of_pairs (folder_stats h rs)) = fr_stat (ref_at h fr).
Proof.
  intros Hnd Hin.
  assert (forall rs, NoDup (map (fun r => fr_message_id (ref_at h r)) rs) ->
            Dict.wf (folder_stats h rs) /\
            forall k, k ∈ Dict.keys (folder_stats h rs) -> exists r, r ∈ rs /\ k = pretty.pretty (fr_message_id (ref_at h r))) as Hwf.
  { clear. induction rs as [|r rs IH]; intros Hnd; [split; [apply Dict.wf_nil|by intros k ?%not_elem_of_nil]|].
    cbn [map] in Hnd. apply NoDup_cons in Hnd as [Hr Hnd]. destruct (IH Hnd) as [Hw Hk]. unfold folder_stats. cbn [map concat].
    fold (folder_stats h rs). destruct (fr_stat (ref_at h r)) as [stat|]; cbn [app].
    - split.
      + apply NoDup_cons. split; [|done]. intros (q & Hq & He)%Hk. apply pretty_id_inj in He. apply Hr. rewrite He.
        by apply (list_elem_of_fmap_2 (fun r => fr_message_id (ref_at h r))).
      + intros k [->|Hin]%elem_of_cons; [exists r; split; [left|done]|]. destruct (Hk k Hin) as (q & Hq & ->).
        exists q. split; [by right|done].
    - split; [done|]. intros k (q & Hq & ->)%Hk. exists q. split; [by right|done]. }
  rewrite dict_of_pairs_id by by apply Hwf. revert Hnd Hin. induction rs as [|r rs IH]; [by intros _ ?%not_elem_of_nil|].
  intros Hnd Hin. cbn [map] in Hnd. pose proof Hnd as Hnd0. apply NoDup_cons in Hnd as [Hr Hnd]. destruct (Hwf rs Hnd) as [_ Hk].
  unfold folder_stats. cbn [map concat]. fold (folder_stats h rs). apply elem_of_cons in Hin as [->|Hin].
  - destruct (fr_stat (ref_at h r)) as [stat|]; cbn [app Dict.get]; [by rewrite decide_True|].
    destruct (Dict.get _ _) as [v|] eqn:Hg; [|done]. exfalso. apply Hr.
    assert (pretty.pretty (fr_message_id (ref_at h r)) ∈ Dict.keys (folder_stats h rs)) as Hin.
    { apply Dict.get_Some_In in Hg. apply (in_map fst) in Hg. by apply list_elem_of_In. }
    destruct (Hk _ Hin) as (q & Hq & He). apply pretty_id_inj in He. rewrite He.
    by apply (list_elem_of_fmap_2 (fun r => fr_message_id (ref_at h r))).
  - destruct (fr_stat (ref_at h r)) as [stat|]; cbn [app Dict.get]; [|by apply IH].
    rewrite decide_False; [by apply IH|]. intros He. apply pretty_id_inj in He. apply Hr. rewrite <- He.
    by apply (list_elem_of_fmap_2 (fun r => fr_message_id (ref_at h r))).
Qed.

(** Every file of a list takes its entry. *)
Lemma take_stats entries rs (s : Gh G) :
  NoDup rs ->
  exists s', sfor rs (fun fr => heaped (modify_ref fr (take_stat entries))) s = (Ok tt, s') /\
    (forall r, ref_at (gh_heap s') r = if decide (r ∈ rs) then take_stat entries (ref_at (gh_heap s) r) else ref_at (gh_heap s) r) /\
    gh_ext s' = gh_ext s.
Proof.
  revert s. induction rs as [|fr rs IH]; intros s Hnd; [by eexists|]. apply NoDup_cons in Hnd as [Hn Hnd]. cbn [sfor].
  unfold sbind, heaped at 1, modify_ref at 1. set (s1 := with_gh_heap _ s). destruct (IH s1 Hnd) as (s' & Hr & Hs & He).
  exists s'. split; [exact Hr|]. split; [|done]. intros r. rewrite Hs. unfold s1. cbn [gh_heap with_gh_heap].
  unfold ref_at, put_ref. cbn [h_refs]. destruct (decide (fr = r)) as [<-|Hne].
  - rewrite lookup_insert_eq. rewrite decide_False by done. by rewrite decide_True by left.
  - rewrite lookup_insert_ne by done. repeat case_decide; try done; exfalso; set_solver.
Qed.

(** C18: The sizes and dates a folder's files have when its stats file is
    written come back when the folder is loaded again: every file whose id
    the file names gets exactly its own, the others none. *)
Theorem stats_survive_reload h d content (s : Gh G) d' sha g' text :
  stats_content h d = Some content -> NoDup (map (fun r => fr_message_id (ref_at h r)) (find_files h d [])) ->
  is_github s d' = true -> x_stats_loaded (ext_at s d') = false -> x_stats_sha (ext_at s d') = Some sha ->
  get_git_blob sha (gh_net s) = (Ok text, g') ->
  b64_decode (String.list_ascii_of_string text) = Ok (String.list_byte_of_string content) ->
  NoDup (find_files (gh_heap s) d' []) ->
  (forall r, r ∈ find_files (gh_heap s) d' [] -> fr_stat (ref_at (gh_heap s) r) = None /\ fr_stat_epoch (ref_at (gh_heap s) r) = 0) ->
  exists s', gh_load_stats (fun s => s) d' s = (Ok true, s') /\
    forall r fr, r ∈ find_files (gh_heap s) d' [] -> fr ∈ find_files h d [] ->
      fr_message_id (ref_at (gh_heap s) r) = fr_message_id (ref_at h fr) ->
      fr_stat (ref_at (gh_heap s') r) = fr_stat (ref_at h fr).
Proof.
  intros Hc Hnd Hg Hl Hsha Hblob Hb64 Hnd' Hfresh. unfold stats_content in Hc. rewrite stats_entries_map, of_pairs_map in Hc.
  set (l := Dict.of_pairs (folder_stats h (find_files h d []))) in *.
  destruct (nonempty _); [|done]. injection Hc as <-. destruct (stats_round_trip l) as (es & Hes & Hget).
  unfold gh_load_stats. rewrite Hg, Hl, Hsha. cbn [negb orb]. unfold read_stats. unfold sbind at 1, stry, netted.
  unfold sbind at 1, sbind at 1, sbind at 1. rewrite Hblob. unfold slift. rewrite Hb64, Hes. cbn [sret].
  unfold sbind at 1. unfold sbind at 1, sget. cbn [gh_heap with_gh_net].
  destruct (take_stats es (find_files (gh_heap s) d' []) (with_gh_net g' s) Hnd') as (s1 & Hr & Hs1 & _). unfold sbind.
  rewrite Hr. eexists. split; [reflexivity|]. intros r fr Hin Hfr Hid. cbn [gh_heap with_gh_ext modify_ext snd].
  rewrite Hs1, decide_True by done. cbn [gh_heap with_gh_net]. destruct (Hfresh r Hin) as [Hnone Hepoch].
  unfold take_stat. rewrite Hnone, Hepoch. cbn [Z.eqb]. unfold with_stat. cbn [fr_stat]. rewrite Hid, Hget.
  unfold l. rewrite (get_folder_stats h (find_files h d []) fr Hnd Hfr).
  destruct (fr_stat (ref_at h fr)) as [stat|]; [|done]. cbn [option_map]. apply stat_roundtrip.
Qed.

End Reload.

(** ** The tree is rebuilt *)

(** A walk down the tree by names. *)
Inductive leads (h : heap) : nat -> list string -> nat -> Prop :=
| leads_nil d : leads h d [] d
| leads_cons d c n ns e : c ∈ children (dir_at h d) -> is_Some (h_dirs h !! c) -> d_name (dir_at h c) = n ->
    leads h c ns e -> leads h d (n :: ns) e.

Lemma leads_snoc h d ns e c n :
  leads h d ns e -> c ∈ children (dir_at h e) -> is_Some (h_dirs h !! c) -> d_name (dir_at h c) = n -> leads h d (ns ++ [n]) c.
Proof. induction 1 as [d|d c' n' ns e H1' H2' H3' _ IH]; intros; econstructor; try done; [by constructor|auto]. Qed.

(** Directories keep their names and children, and get more. *)
Definition extends (h h' : heap) : Prop :=
  (forall d, is_Some (h_dirs h !! d) -> is_Some (h_dirs h' !! d) /\ d_name (dir_at h' d) = d_name (dir_at h d)) /\
  (forall d c, c ∈ children (dir_at h d) -> c ∈ children (dir_at h' d)).

Lemma leads_mono h h' d ns e : extends h h' -> leads h d ns e -> leads h' d ns e.
Proof.
  intros [H1' H2']. induction 1 as [d|d c n ns e Hc Hs Hn _ IH]; [constructor|]. destruct (H1' c Hs) as [Hs' Hn'].
  apply (leads_cons _ _ c); [by apply H2'|done|congruence|done].
Qed.

(** A segment of a path in the repository. *)
Definition good_seg (s : string) : Prop := s <> "" /\ str_mem "/"%char s = false.

Lemma str_len_app (a b : string) : String.length (a +:+ b) = (String.length a + String.length b)%nat.
Proof. induction a as [|c a IH]; [done|]. rewrite str_app_cons. cbn. by rewrite IH. Qed.

Lemma substring_head a b : String.substring 0 (String.length a) (a +:+ b) = a.
Proof. induction a as [|c a IH]; [by destruct b|]. rewrite str_app_cons. cbn. by rewrite IH. Qed.

Lemma rpartition_join init z : good_seg z -> rpartition (join_slash (init ++ [z])) = (join_slash init, z).
Proof.
  intros [_ Hz]. unfold rpartition. destruct init as [|p init].
  - cbn [app join_slash]. by rewrite split_last_plain.
  - rewrite join_slash_app by done. change (join_slash [z]) with z. rewrite split_last_join by done.
    rewrite str_len_app. cbn [String.length]. rewrite Nat.add_sub. by rewrite substring_head.
Qed.

Lemma good_join_inj l k : Forall good_seg l -> Forall good_seg k -> join_slash l = join_slash k -> l = k.
Proof.
  assert (forall l, Forall good_seg l -> l <> [] -> join_slash l <> "") as Hne.
  { intros [|p [|q l0]] Hf Hn; [done| |]; inversion Hf as [|? ? [Hp _] _]; subst; [done|].
    rewrite join_slash_cons by done. by destruct p. }
  assert (forall l, Forall good_seg l -> Forall (fun c => str_mem "/"%char c = false) l) as Hns.
  { intros l0 Hf. eapply Forall_impl; [exact Hf|]. by intros s [_ ?]. }
  intros Hl Hk He. destruct l as [|p l], k as [|q k]; [done| | |].
  - symmetry in He. by apply Hne in He.
  - by apply Hne in He.
  - rewrite <- (split_join_slash (p :: l)), <- (split_join_slash (q :: k)) by (done || by apply Hns). by rewrite He.
Qed.

Lemma good_join_length l : Forall good_seg l -> (length l <= String.length (join_slash l))%nat.
Proof.
  induction 1 as [|p l [Hp _] _ IH]; [done|]. destruct l as [|q l].
  - destruct p; [done|cbn; lia].
  - rewrite join_slash_cons by done. rewrite str_len_app. cbn [String.length length] in *. lia.
Qed.

Section Rebuild.
  Context {G : Type} `{Github G} `{CryptoLib} (ghc : GithubConfig) (now : datetime) (root : nat).

(** The name a segment stands for. *)
Definition plain (seg : string) : string := match decode_name ghc seg with Ok (n, _) => n | Raise _ => seg end.

Definition dir_seg (seg : string) : Prop :=
  good_seg seg /\ (exists enc, decode_name ghc seg = Ok (plain seg, enc)) /\ validate_name (plain seg) = Ok tt.

(** The file an entry of the listing is, with the path of its folder. *)
Definition file_entry (e : GitTreeElement) : option (string * (string * Z)) :=
  if negb (bool_decide (te_type e = "blob"%string)) then None
  else
    let '(parent_path, segment) := rpartition (te_path e) in
    if bool_decide (segment = ".gitkeep"%string) || bool_decide (segment = STATS_FILE_NAME) then None
    else match parse_ref ghc segment with Ok f => Some (parent_path, f) | Raise _ => None end.

Definition files_in (entries : list GitTreeElement) (key : string) : list (string * Z) :=
  concat (map (fun e => match file_entry e with
                        | Some (k, f) => if bool_decide (k = key) then [f] else []
                        | None => []
                        end) entries).

Definition shown (h : heap) (x : TGFSDirectory) : list (string * Z) :=
  map (fun r => (name_of h r, fr_message_id (ref_at h r))) (items (files x)).

(** What holds after the entries [done]. *)
Record rebuilding (entries : list GitTreeElement) (b : Build (G := G)) : Prop := {
  rb_dirs : forall d, is_Some (h_dirs (gh_heap (b_gh b)) !! d) -> (d < h_fresh (gh_heap (b_gh b)))%nat;
  rb_refs : forall r, is_Some (h_refs (gh_heap (b_gh b)) !! r) -> (r < h_fresh (gh_heap (b_gh b)))%nat;
  rb_root : Dict.get "" (b_dirs b) = Some root;
  rb_keys : forall key d, Dict.get key (b_dirs b) = Some d ->
    exists segs, Forall good_seg segs /\ key = join_slash segs /\ leads (gh_heap (b_gh b)) root (map plain segs) d;
  rb_inj : forall key key' d, Dict.get key (b_dirs b) = Some d -> Dict.get key' (b_dirs b) = Some d -> key = key';
  rb_files : forall key d, Dict.get key (b_dirs b) = Some d ->
    exists x, h_dirs (gh_heap (b_gh b)) !! d = Some x /\ index_ok (name_of (gh_heap (b_gh b))) (files x) /\
      (forall r, r ∈ items (files x) -> is_Some (h_refs (gh_heap (b_gh b)) !! r)) /\
      shown (gh_heap (b_gh b)) x = files_in entries key;
  rb_none : forall key, Dict.get key (b_dirs b) = None -> files_in entries key = [];
  rb_seen : forall e, e ∈ entries -> te_type e = "tree"%string -> is_Some (Dict.get (te_path e) (b_dirs b))
}.

(** A new directory [h_fresh h] under [p]. *)
Definition child_heap (h : heap) (p : nat) (name : string) : heap :=
  put_dir p (with_children (children (dir_at h p) ++ [h_fresh h]) (dir_at h p)) (alloc_dir (blank_dir name (Some p) now now) h).

Lemma child_heap_at h p name d :
  is_Some (h_dirs h !! p) -> (forall d, is_Some (h_dirs h !! d) -> (d < h_fresh h)%nat) ->
  h_dirs (child_heap h p name) !! d =
  if decide (d = p) then Some (with_children (children (dir_at h p) ++ [h_fresh h]) (dir_at h p))
  else if decide (d = h_fresh h) then Some (blank_dir name (Some p) now now) else h_dirs h !! d.
Proof.
  intros Hp Hb. unfold child_heap. simpl. case_decide as Hdp; [subst; by rewrite lookup_insert_eq|].
  rewrite lookup_insert_ne by done. case_decide as Hdf; [subst; by rewrite lookup_insert_eq|by rewrite lookup_insert_ne].
Qed.

Lemma child_heap_extends h p name :
  is_Some (h_dirs h !! p) -> (forall d, is_Some (h_dirs h !! d) -> (d < h_fresh h)%nat) -> extends h (child_heap h p name).
Proof.
  intros Hp Hb. split.
  - intros d Hd. unfold dir_at. rewrite child_heap_at by done. case_decide as Hdp.
    + subst d. split; [by eexists|]. done.
    + rewrite decide_False by (intros ->; apply Hb in Hd; lia). done.
  - intros d c Hc. unfold dir_at. rewrite child_heap_at by done. case_decide as Hdp.
    + subst d. cbn. apply elem_of_app. by left.
    + case_decide as Hdf; [|done]. subst d. exfalso. unfold dir_at in Hc.
      destruct (h_dirs h !! h_fresh h) as [y|] eqn:Hy; [|by apply not_elem_of_nil in Hc].
      specialize (Hb _ (ex_intro _ y Hy)). lia.
Qed.

Lemma create_child_eq name p enc (s : Gh G) :
  is_Some (h_dirs (gh_heap s) !! p) -> (forall d, is_Some (h_dirs (gh_heap s) !! d) -> (d < h_fresh (gh_heap s))%nat) ->
  validate_name name = Ok tt ->
  exists s', create_child_dir ghc now name p enc true s = (Ok (h_fresh (gh_heap s)), s') /\
             gh_heap s' = child_heap (gh_heap s) p name.
Proof.
  intros Hp Hb Hv. eexists. split.
  - unfold create_child_dir, new_github_dir, sbind, heaped, sget, sput. rewrite (new_dir_eq _ _ _ _ _ Hv). reflexivity.
  - cbn. unfold child_heap. f_equal; unfold dir_at; simpl; rewrite lookup_insert_ne; try done;
      intros <-; specialize (Hb _ Hp); lia.
Qed.

Lemma request_dates_heap path (s : Gh G) : exists s', request_dates ghc path s = (Ok tt, s') /\ gh_heap s' = gh_heap s.
Proof. unfold request_dates. eexists. split; [reflexivity|]. by destruct (ghc_dated ghc). Qed.

Lemma shown_same h h' x : (forall r, r ∈ items (files x) -> h_refs h' !! r = h_refs h !! r) -> shown h' x = shown h x.
Proof. intros Hr. unfold shown. apply map_ext_elem. intros r Hin. unfold name_of, ref_at. by rewrite Hr. Qed.

Lemma rebuilding_child es (b : Build (G := G)) p init seg (s' : Gh G) :
  rebuilding es b -> Forall good_seg init -> good_seg seg -> Dict.get (join_slash init) (b_dirs b) = Some p ->
  Dict.get (join_slash (init ++ [seg])) (b_dirs b) = None -> gh_heap s' = child_heap (gh_heap (b_gh b)) p (plain seg) ->
  rebuilding es {| b_gh := s'; b_dirs := Dict.set (join_slash (init ++ [seg])) (h_fresh (gh_heap (b_gh b))) (b_dirs b) |}.
Proof.
  intros Hb Hinit Hseg Hp Hnone Hh. set (h := gh_heap (b_gh b)) in *. set (f := h_fresh h).
  destruct (rb_files _ _ Hb _ _ Hp) as (x & Hx & _). fold h in Hx.
  assert (is_Some (h_dirs h !! p)) as Hps by by eexists.
  pose proof (rb_dirs _ _ Hb) as Hbd. pose proof (rb_refs _ _ Hb) as Hbr. fold h in Hbd, Hbr.
  assert (p <> f) as Hpf by (intros ->; apply Hbd in Hps; unfold f in Hps; lia).
  pose proof (child_heap_extends h p (plain seg) Hps Hbd) as Hext.
  assert (h_dirs h !! f = None) as Hff.
  { destruct (h_dirs h !! f) eqn:Hf; [|done]. specialize (Hbd f (ex_intro _ _ Hf)). unfold f in Hbd. lia. }
  set (key := join_slash (init ++ [seg])) in *.
  assert (Forall good_seg (init ++ [seg])) as Hgood by (apply Forall_app; split; [done|by constructor]).
  assert (forall k d, Dict.get k (Dict.set key f (b_dirs b)) = Some d -> k = key /\ d = f \/ k <> key /\ d <> f /\ Dict.get k (b_dirs b) = Some d) as Hget.
  { intros k d Hk. destruct (decide (k = key)) as [->|Hne]; [rewrite Dict.get_set_eq in Hk; injection Hk as <-; by left|].
    rewrite Dict.get_set_ne in Hk by done. right. split; [done|]. split; [|done]. intros ->.
    destruct (rb_files _ _ Hb _ _ Hk) as (y & Hy & _). fold h in Hy. congruence. }
  split; cbn [b_gh b_dirs]; rewrite ?Hh.
  - intros d [y Hy]. rewrite child_heap_at in Hy by done. change (h_fresh (child_heap h p (plain seg))) with (S f).
    case_decide; [subst d; apply Hbd in Hps; unfold f; lia|]. case_decide as Hd; [unfold f; lia|].
    specialize (Hbd d (ex_intro _ y Hy)). unfold f. lia.
  - intros r Hr. apply Hbr in Hr. change (h_fresh (child_heap h p (plain seg))) with (S f). unfold f. lia.
  - rewrite Dict.get_set_ne; [apply (rb_root _ _ Hb)|]. unfold key. intros He.
    apply (good_join_inj [] _ ltac:(constructor) Hgood) in He. by destruct init.
  - intros k d Hk. apply Hget in Hk as [[-> ->]|(_ & _ & Hk)].
    + exists (init ++ [seg]). split; [done|]. split; [done|]. rewrite map_app. eapply leads_snoc.
      * destruct (rb_keys _ _ Hb _ _ Hp) as (segs & Hsg & He & Hl). apply good_join_inj in He as ->; [|done..].
        by eapply leads_mono.
      * unfold dir_at. rewrite child_heap_at, decide_True by done. cbn. apply elem_of_app. right. left.
      * rewrite child_heap_at, decide_False, decide_True by done. by eexists.
      * unfold dir_at. by rewrite child_heap_at, decide_False, decide_True by done.
    + destruct (rb_keys _ _ Hb _ _ Hk) as (segs & Hsg & He & Hl). exists segs. split; [done|]. split; [done|]. by eapply leads_mono.
  - intros k k' d Hk Hk'. apply Hget in Hk as [[-> ->]|(_ & Hd & Hk)]; apply Hget in Hk' as [[-> Hd']|(_ & Hd' & Hk')]; try done.
    by eapply (rb_inj _ _ Hb).
  - intros k d Hk. apply Hget in Hk as [[-> ->]|(_ & Hd & Hk)].
    + exists (blank_dir (plain seg) (Some p) now now). rewrite child_heap_at, decide_False, decide_True by done.
      split; [done|]. split; [split; [apply Dict.wf_nil|done]|]. split; [by intros r ?%not_elem_of_nil|].
      symmetry. by apply (rb_none _ _ Hb).
    + destruct (rb_files _ _ Hb _ _ Hk) as (y & Hy & Hi & Hr & Hs). fold h in Hy, Hi, Hr, Hs.
      rewrite child_heap_at by done. case_decide as Hdp.
      * subst d. rewrite (dir_at_some _ _ _ Hy). eexists. split; [reflexivity|]. by split_and!.
      * rewrite decide_False by done. exists y. by split_and!.
  - intros k Hk. destruct (decide (k = key)) as [->|Hne]; [by rewrite Dict.get_set_eq in Hk|].
    rewrite Dict.get_set_ne in Hk by done. by apply (rb_none _ _ Hb).
  - intros e He Ht. destruct (decide (te_path e = key)) as [->|Hne]; [by rewrite Dict.get_set_eq; eexists|].
    rewrite Dict.get_set_ne by done. by apply (rb_seen _ _ Hb).
Qed.

(** The directory of a path, made with its parents when it is new. *)
Lemma dir_at_path_spec es segs : forall fuel (b : Build (G := G)),
  rebuilding es b -> Forall dir_seg segs -> (length segs <= fuel)%nat ->
  exists d b', dir_at_path ghc fuel now (join_slash segs) b = (Ok d, b') /\ rebuilding es b' /\
               Dict.get (join_slash segs) (b_dirs b') = Some d /\
               forall k, is_Some (Dict.get k (b_dirs b')) ->
                         is_Some (Dict.get k (b_dirs b)) \/ exists pre, pre `prefix_of` segs /\ k = join_slash pre.
Proof.
  induction segs as [|seg init IH] using rev_ind; intros fuel b Hb Hsegs Hf.
  { exists root, b. pose proof (rb_root _ _ Hb) as Hr. destruct fuel; cbn [dir_at_path join_slash]; rewrite Hr; auto. }
  apply Forall_app in Hsegs as [Hinit Hseg]. inversion Hseg as [|? ? Hs _]; subst. pose proof Hs as (Hg & (enc & Hdec) & Hv).
  rewrite length_app in Hf. cbn [length] in Hf. destruct fuel as [|fuel]; [lia|]. cbn [dir_at_path].
  destruct (Dict.get (join_slash (init ++ [seg])) (b_dirs b)) as [d|] eqn:Hk; [exists d, b; auto|].
  rewrite rpartition_join by done. unfold sbind at 1, slift. rewrite Hdec.
  destruct (IH fuel b Hb Hinit ltac:(lia)) as (p & b1 & Hp & Hb1 & Hkp & Hnew). unfold sbind at 1. rewrite Hp.
  assert (Forall good_seg init) as Hgi by (eapply Forall_impl; [exact Hinit|]; by intros ? [? _]).
  assert (Forall good_seg (init ++ [seg])) as Hgall by by apply Forall_app_2; [|constructor].
  assert (Dict.get (join_slash (init ++ [seg])) (b_dirs b1) = None) as Hk1.
  { destruct (Dict.get (join_slash (init ++ [seg])) (b_dirs b1)) as [d|] eqn:Hk1; [exfalso|done].
    destruct (Hnew _ (ex_intro _ d Hk1)) as [[d' Hk']|(pre & Hpre & He)]; [congruence|].
    apply good_join_inj in He as <-; [|done|].
    - apply prefix_length in Hpre. rewrite length_app in Hpre. cbn in Hpre. lia.
    - destruct Hpre as [suf ->]. by apply Forall_app in Hgi as [? _]. }
  destruct (rb_files _ _ Hb1 _ _ Hkp) as (x & Hx & _).
  destruct (create_child_eq (plain seg) p enc (b_gh b1)) as (s2 & Hc & Hh2); [by eexists|apply (rb_dirs _ _ Hb1)|done|].
  unfold sbind at 1, built at 1. rewrite Hc. destruct (request_dates_heap (join_slash (init ++ [seg])) s2) as (s3 & Hr & Hh3).
  unfold sbind at 1, built at 1. cbn [b_gh b_dirs]. rewrite Hr. unfold sbind, sget, sput, sret. cbn [b_gh b_dirs].
  eexists _, _. split; [reflexivity|]. split.
  - apply (rebuilding_child _ _ p); try done. by rewrite Hh3.
  - cbn [b_dirs]. rewrite Dict.get_set_eq. split; [done|]. intros k Hsk.
    destruct (decide (k = join_slash (init ++ [seg]))) as [->|Hne]; [right; by exists (init ++ [seg])|].
    rewrite Dict.get_set_ne in Hsk by done. destruct (Hnew _ Hsk) as [?|(pre & Hpre & ->)]; [by left|].
    right. exists pre. split; [|done]. by apply prefix_app_r.
Qed.

Lemma the_dir_at_spec es segs (b : Build (G := G)) :
  rebuilding es b -> Forall dir_seg segs ->
  exists d b', the_dir_at ghc now (join_slash segs) b = (Ok d, b') /\ rebuilding es b' /\
               Dict.get (join_slash segs) (b_dirs b') = Some d.
Proof.
  intros Hb Hs. destruct (dir_at_path_spec es segs (S (String.length (join_slash segs))) b Hb Hs) as (d & b' & H1' & H2' & H3' & _); [|eauto].
  assert (Forall good_seg segs) as Hg by (eapply Forall_impl; [exact Hs|]; by intros ? [? _]).
  pose proof (good_join_length _ Hg). lia.
Qed.

(** ** One entry *)

(** An entry the build can take: the folders on its path have names, and
    what follows is a file, or no text the code takes for one. *)
Definition loadable (e : GitTreeElement) : Prop :=
  (te_type e = "tree"%string -> exists segs, Forall dir_seg segs /\ te_path e = join_slash segs) /\
  (te_type e = "blob"%string -> exists segs seg, Forall dir_seg segs /\ good_seg seg /\ te_path e = join_slash (segs ++ [seg]) /\
     match parse_ref ghc seg with Raise ex => is_ValueError ex = true | Ok _ => True end).

Lemma files_in_snoc es e key :
  files_in (es ++ [e]) key =
  files_in es key ++ match file_entry e with Some (k, f) => if bool_decide (k = key) then [f] else [] | None => [] end.
Proof. unfold files_in. rewrite map_app, concat_app. cbn [map concat]. by rewrite app_nil_r. Qed.

(** An entry that is no file, once its folder is there. *)
Lemma rebuilding_skip es e (b : Build (G := G)) :
  rebuilding es b -> file_entry e = None -> (te_type e = "tree"%string -> is_Some (Dict.get (te_path e) (b_dirs b))) ->
  rebuilding (es ++ [e]) b.
Proof.
  intros Hb He Ht. assert (forall key, files_in (es ++ [e]) key = files_in es key) as Hsame.
  { intros key. by rewrite files_in_snoc, He, app_nil_r. }
  destruct Hb as [B1 B2 B3 B4 B5 B6 B7 B8]. split; try done.
  - intros key d Hk. rewrite Hsame. by apply B6.
  - intros key Hk. rewrite Hsame. by apply B7.
  - intros e' [He'| ->%list_elem_of_singleton]%elem_of_app; [by apply B8|done].
Qed.

(** The rest of the state does not matter. *)
Lemma rebuilding_heap es (b : Build (G := G)) (s' : Gh G) :
  rebuilding es b -> gh_heap s' = gh_heap (b_gh b) -> rebuilding es {| b_gh := s'; b_dirs := b_dirs b |}.
Proof. intros [B1 B2 B3 B4 B5 B6 B7 B8] Hh. split; cbn [b_gh b_dirs]; rewrite ?Hh; done. Qed.

Lemma attach_eq h d x name mid :
  h_dirs h !! d = Some x -> index_ok (name_of h) (files x) -> name ∉ map (name_of h) (items (files x)) ->
  attach_file_ref d name mid h = (Ok (h_fresh h), with_new_ref d x name mid h).
Proof.
  intros Hd Hi Hn. unfold attach_file_ref. unfold sbind at 1, sget.
  assert (find_files h d [name] = []) as ->.
  { unfold find_files. rewrite (dir_at_some _ _ _ Hd), (named_filter _ _ _ Hi). clear Hi.
    induction (items (files x)) as [|r l IH]; [done|]. cbn [List.filter map] in *. apply not_elem_of_cons in Hn as [Hr Hn].
    rewrite bool_decide_eq_false_2 by congruence. by apply IH. }
  cbn [nonempty]. unfold sbind, new_ref, append_file. fold (fresh_ref d name mid). fold (alloc_ref (fresh_ref d name mid) h).
  by rewrite (modify_dir_eq _ _ (alloc_ref (fresh_ref d name mid) h) _ Hd).
Qed.

Lemma rebuilding_attach es e (b : Build (G := G)) key d x name mid (s' : Gh G) :
  rebuilding es b -> file_entry e = Some (key, (name, mid)) -> te_type e <> "tree"%string ->
  Dict.get key (b_dirs b) = Some d -> h_dirs (gh_heap (b_gh b)) !! d = Some x ->
  gh_heap s' = with_new_ref d x name mid (gh_heap (b_gh b)) ->
  rebuilding (es ++ [e]) {| b_gh := s'; b_dirs := b_dirs b |}.
Proof.
  intros Hb He Ht Hk Hx Hh. set (h := gh_heap (b_gh b)) in *. set (f := h_fresh h).
  pose proof (rb_dirs _ _ Hb) as Hbd. pose proof (rb_refs _ _ Hb) as Hbr. fold h in Hbd, Hbr.
  assert (forall r, is_Some (h_refs h !! r) -> h_refs (with_new_ref d x name mid h) !! r = h_refs h !! r) as Hrefs.
  { intros r Hr. unfold with_new_ref. simpl. rewrite lookup_insert_ne; [done|]. intros <-. apply Hbr in Hr. lia. }
  assert (forall d', h_dirs (with_new_ref d x name mid h) !! d' =
            if decide (d = d') then Some (with_files (frl_append (name_of (alloc_ref (fresh_ref d name mid) h)) f (files x)) x)
            else h_dirs h !! d') as Hdirs.
  { intros d'. unfold with_new_ref. by rewrite lookup_put. }
  assert (extends h (with_new_ref d x name mid h)) as Hext.
  { split.
    - intros d' [y Hy]. unfold dir_at. rewrite Hdirs. case_decide; [subst d'|by rewrite Hy].
      rewrite Hx in Hy. injection Hy as <-. rewrite Hx. split; [by eexists|done].
    - intros d' c. unfold dir_at. rewrite Hdirs. case_decide; [subst d'; by rewrite Hx|done]. }
  destruct Hb as [B1 B2 B3 B4 B5 B6 B7 B8]. fold h in B4, B6. split; cbn [b_gh b_dirs]; rewrite ?Hh; try done.
  - intros d' Hd'. change (h_fresh (with_new_ref d x name mid h)) with (S (h_fresh h)).
    destruct Hd' as [y Hy]. rewrite Hdirs in Hy. case_decide; [subst d'; specialize (Hbd d (ex_intro _ x Hx)); lia|].
    specialize (Hbd d' (ex_intro _ y Hy)). lia.
  - intros r Hr. change (h_fresh (with_new_ref d x name mid h)) with (S (h_fresh h)). destruct Hr as [y Hy].
    unfold with_new_ref in Hy. simpl in Hy. apply lookup_insert_Some in Hy as [[<- _]|[_ Hy]]; [lia|].
    specialize (Hbr r (ex_intro _ y Hy)). lia.
  - intros k d' Hkd. destruct (B4 _ _ Hkd) as (segs & H1' & H2' & H3'). exists segs. split; [done|]. split; [done|]. by eapply leads_mono.
  - intros k d' Hkd. rewrite Hdirs, files_in_snoc, He. destruct (B6 _ _ Hkd) as (y & Hy & Hi & Hr & Hs). case_decide as Hdd.
    + subst d'. assert (k = key) as -> by by eapply B5. rewrite Hx in Hy. injection Hy as <-. rewrite bool_decide_eq_true_2 by done.
      eexists. split; [reflexivity|]. cbn [with_files files frl_append items].
      assert (name_of (with_new_ref d x name mid h) f = name /\ fr_message_id (ref_at (with_new_ref d x name mid h) f) = mid) as [Hfn Hfm].
      { unfold name_of, ref_at, with_new_ref. simpl. by rewrite lookup_insert_eq. }
      split; [|split].
      * apply (index_ok_ext (name_of (alloc_ref (fresh_ref d name mid) h))); [done|]. apply append_ok.
        apply (index_ok_ext (name_of h)); [|done]. intros r Hin. unfold name_of, ref_at. simpl.
        rewrite lookup_insert_ne; [done|]. intros <-. specialize (Hbr _ (Hr _ Hin)). unfold f in Hbr. lia.
      * intros r [Hin| ->%list_elem_of_singleton]%elem_of_app; [by rewrite Hrefs; apply Hr|].
        unfold with_new_ref. simpl. rewrite lookup_insert_eq. by eexists.
      * unfold shown. cbn [with_files files frl_append items]. rewrite map_app. cbn [map]. rewrite Hfn, Hfm. f_equal.
        rewrite <- Hs. apply (shown_same h). intros r Hin. by apply Hrefs, Hr.
    + rewrite bool_decide_eq_false_2, app_nil_r.
      2: { intros <-. congruence. }
      exists y. split; [done|]. split; [|split].
      * apply (index_ok_ext (name_of h)); [|done]. intros r Hin. unfold name_of, ref_at. by rewrite Hrefs by by apply Hr.
      * intros r Hin. rewrite Hrefs by by apply Hr. by apply Hr.
      * rewrite <- Hs. apply shown_same. intros r Hin. by apply Hrefs, Hr.
  - intros k Hkn. rewrite files_in_snoc, He, bool_decide_eq_false_2, app_nil_r; [by apply B7|]. intros <-. congruence.
  - intros e' [He'| ->%list_elem_of_singleton]%elem_of_app; [by apply B8|done].
Qed.

(** Different files of a folder have different names. *)
Definition file_key (e : GitTreeElement) : option (string * string) := option_map (fun kf => (kf.1, kf.2.1)) (file_entry e).

Lemma files_in_names es key name : name ∈ map fst (files_in es key) -> (key, name) ∈ omap file_key es.
Proof.
  intros (f & -> & Hf)%list_elem_of_fmap. unfold files_in in Hf. apply list_elem_of_In, in_concat in Hf as (l & Hl & Hf).
  apply in_map_iff in Hl as (e & <- & He). apply list_elem_of_omap. exists e. split; [by apply list_elem_of_In|].
  unfold file_key. destruct (file_entry e) as [[k f']|]; [|done]. case_bool_decide; [subst k|done].
  destruct Hf as [->|[]]. done.
Qed.

Lemma build_entry_spec es e (b : Build (G := G)) :
  rebuilding es b -> loadable e -> (forall k, file_key e = Some k -> k ∉ omap file_key es) ->
  exists b', build_entry ghc now e b = (Ok tt, b') /\ rebuilding (es ++ [e]) b'.
Proof.
  intros Hb [Htree Hblob] Hnew. unfold build_entry. case_bool_decide as Ht.
  { destruct (Htree Ht) as (segs & Hsegs & Hp). destruct (the_dir_at_spec es segs b Hb Hsegs) as (d & b' & Hd & Hb' & Hk).
    unfold sbind. rewrite Hp, Hd. exists b'. split; [done|]. apply rebuilding_skip; [done| |by rewrite Hp, Hk; eexists].
    unfold file_entry. by rewrite Ht. }
  case_bool_decide as Hbl; cbn [negb].
  2: { exists b. split; [done|]. apply rebuilding_skip; [done| |done]. unfold file_entry. by rewrite bool_decide_eq_false_2. }
  destruct (Hblob Hbl) as (segs & seg & Hsegs & Hseg & Hp & Hparse).
  assert (rpartition (te_path e) = (join_slash segs, seg)) as Hrp by by rewrite Hp, rpartition_join.
  assert (file_entry e = if bool_decide (seg = ".gitkeep"%string) || bool_decide (seg = STATS_FILE_NAME) then None
                         else match parse_ref ghc seg with Ok f => Some (join_slash segs, f) | Raise _ => None end) as Hfe.
  { unfold file_entry. rewrite Hrp. by rewrite bool_decide_eq_true_2. }
  rewrite Hrp. case_bool_decide as Hkeep; [exists b; split; [done|]; by apply rebuilding_skip|]. cbn [orb] in Hfe.
  destruct (the_dir_at_spec es segs b Hb Hsegs) as (d & b' & Hd & Hb' & Hk).
  case_bool_decide as Hst.
  { unfold sbind. rewrite Hd. eexists. split; [reflexivity|]. apply rebuilding_skip; [by apply rebuilding_heap|done|done]. }
  unfold skipping, stry. revert Hfe Hparse. unfold parse_ref.
  destruct (rsplit_dot seg) as [[stored_name message_id]|]; [|intros Hfe _; exists b; split; [done|]; by apply rebuilding_skip].
  unfold sbind at 1, slift at 1. destruct (decode_name ghc stored_name) as [[name enc]|ex]; cbn [rbind].
  2: { intros Hfe ->. exists b. split; [done|]. by apply rebuilding_skip. }
  unfold sbind at 1. rewrite Hd. unfold sbind at 1, slift.
  destruct (int_of_string message_id) as [mid|ex]; cbn [rbind].
  2: { intros Hfe ->. exists b'. split; [done|]. by apply rebuilding_skip. }
  intros Hfe _. destruct (rb_files _ _ Hb' _ _ Hk) as (x & Hx & Hi & Hr & Hs).
  unfold sbind, built, heaped. rewrite (attach_eq _ d x name mid Hx Hi).
  - eexists. split; [reflexivity|]. by eapply rebuilding_attach.
  - intros Hin. apply (Hnew (join_slash segs, name)); [unfold file_key; by rewrite Hfe|]. apply files_in_names.
    rewrite <- Hs. unfold shown. by rewrite map_map.
Qed.

Lemma build_entries_spec es : forall done_ (b : Build (G := G)),
  rebuilding done_ b -> Forall loadable es -> NoDup (omap file_key (done_ ++ es)) ->
  exists b', sfor es (build_entry ghc now) b = (Ok tt, b') /\ rebuilding (done_ ++ es) b'.
Proof.
  induction es as [|e es IH]; intros done_ b Hb Hl Hnd; [exists b; rewrite app_nil_r; auto|].
  inversion Hl as [|? ? He Hes]; subst. cbn [sfor].
  destruct (build_entry_spec done_ e b Hb He) as (b1 & Hr & Hb1).
  { intros k Hk Hin. rewrite omap_app in Hnd. apply NoDup_app in Hnd as (_ & Hnd & _). apply (Hnd k Hin). cbn. rewrite Hk. left. }
  unfold sbind. rewrite Hr. rewrite (cons_middle e), app_assoc in Hnd |- *. by apply IH.
Qed.


End Rebuild.

(** ** Witnesses, and what the server in memory shows *)

(** Stats as strings of bits. *)
Definition stat_bits (d : dict string pyval) : list (string * (Z * Z * Z)) :=
  omap (fun kv => match stat_from_dict kv.2 with
                  | Some st => Some (kv.1, (fst_size st, fst_created_at st, fst_modified_at st))
                  | None => None
                  end) d.
Definition bits_stat (kv : string * (Z * Z * Z)) : string * pyval :=
  let '(k, (a, b, c)) := kv in (k, stat_to_dict {| fst_size := a; fst_created_at := b; fst_modified_at := c |}).

Lemma bits_stat_bits (l : dict string FileStat) :
  map bits_stat (stat_bits (map (fun kv => (kv.1, stat_to_dict kv.2)) l)) = map (fun kv => (kv.1, stat_to_dict kv.2)) l.
Proof.
  induction l as [|[k st] l IH]; [done|]. unfold stat_bits in *. cbn [map omap list_omap fst snd]. rewrite stat_roundtrip.
  cbn [map bits_stat]. rewrite IH. by destruct st.
Qed.

#[export] Instance demo_stats_json : StatsJson := {
  stats_dumps d := bits (encode (stat_bits d));
  json_loads data := match of_bits (String.string_of_list_byte data) ≫= decode with
                     | Some l => Ok (PDict (map bits_stat l))
                     | None => Raise ValueError
                     end;
  sha1_hex b := String "c" (String.string_of_list_byte b)
}.

#[export] Instance demo_stats_json_laws : StatsJsonLaws.
Proof.
  split. intros l. exists (map (fun kv => (kv.1, stat_to_dict kv.2)) l). split.
  - cbn [json_loads stats_dumps demo_stats_json]. rewrite String.string_of_list_byte_of_string, of_bits_bits.
    cbn [mbind option_bind]. rewrite decode_encode. by rewrite bits_stat_bits.
  - intros k. induction l as [|[k' st] l IH]; [done|]. cbn [map Dict.get fst snd]. by case_decide.
Qed.

Definition main_files (s : Gh GitMem) : files_of_tree := mem_files (gm_repo (gh_net s)).

Lemma folder_deletion_exact_witness :
  let g := gh_net (demo_gh 100) in
  let g' := (drop_subtree demo_ghc "docs" g).2 in
  exists fs', head_files (repo g') = Some fs' /\ fs' !! "docs/a.txt.7"%string = None /\ fs' !! "pics/.gitkeep"%string = Some ("100644", "c")%string.
Proof.
  intros g g'. pose proof (folder_deletion_exact demo_ghc eq_refl "docs" g (main_files (demo_gh 100))) as Hd.
  subst g'. assert ((drop_subtree demo_ghc "docs" g).1 = Ok tt) as Hr by by vm_compute.
  destruct (drop_subtree demo_ghc "docs" g) as [r g']. cbn in Hr. subst r. cbn [snd].
  destruct Hd as (fs' & Hh & [Hp|[_ []]]); [| | |done].
  - intros c g1 t g2 gt g3 H1 H2 H3. vm_compute in H1. injection H1 as <- <-. vm_compute in H2. injection H2 as <- <-.
    vm_compute in H3. by injection H3 as <- <-.
  - by vm_compute.
  - exists fs'. split; [done|]. rewrite !Hp. split; by vm_compute.
Defined.


Lemma stats_commit_atomic_witness :
  let ws := [("docs/.tgdcfsstats.json", Some "x"); ("pics/.tgdcfsstats.json", None)]%string in
  (* another commit wins twice *)
  let g := gh_net (with_fates [Works; Works; Works; Works; Fails; Works; Works; Works; Works; Fails] (demo_gh 100)) in
  exists fs', head_files (repo (commit_stats demo_ghc ws g).2) = Some fs' /\
              fs' !! "docs/.tgdcfsstats.json"%string = Some ("100644", "cx")%string /\ (commit_stats demo_ghc ws g).1 = Ok tt.
Proof.
  intros ws g. pose proof (stats_commit_atomic demo_ghc eq_refl ws g (main_files (demo_gh 100))) as Hc.
  assert ((commit_stats demo_ghc ws g).1 = Ok tt) as Hr by by vm_compute.
  destruct (commit_stats demo_ghc ws g) as [r g']. cbn in Hr. subst r.
  destruct Hc as (fs' & Hh & [[_ []]|Hp]); [by vm_compute| |done|].
  - apply (bool_decide_eq_true_1 _). by vm_compute.
  - exists fs'. split; [done|]. rewrite Hp. split; by vm_compute.
Defined.

(** The listing of the branch. *)
Definition demo_listing (s : Gh GitMem) : list GitTreeElement := mem_listing (main_files s).

Lemma demo_dir_seg seg : seg = "docs"%string \/ seg = "pics"%string -> dir_seg demo_ghc seg.
Proof. intros [->| ->]; (split; [done|split; [by eexists|done]]). Qed.

Lemma demo_loadable : Forall (loadable demo_ghc) (demo_listing (demo_gh 100)).
Proof.
  apply Forall_forall. intros e He. vm_compute in He.
  assert (forall n, n = "docs"%string \/ n = "pics"%string -> Forall (dir_seg demo_ghc) [n]) as Hd.
  { intros n Hn. constructor; [by apply demo_dir_seg|constructor]. }
  repeat (apply elem_of_cons in He as [->|He]); [..|by apply not_elem_of_nil in He]; (split; [intros [=]|intros [=]]).
  all: try (exists ["docs"%string]; split; [apply Hd; by left|reflexivity]).
  all: try (exists ["pics"%string]; split; [apply Hd; by right|reflexivity]).
  all: try (eexists ["docs"%string], _; split; [apply Hd; by left|]; split; [|split; [cbn; reflexivity|reflexivity]]; by split).
  all: try (eexists ["pics"%string], _; split; [apply Hd; by right|]; split; [|split; [cbn; reflexivity|reflexivity]]; by split).
Qed.


(** A folder with a file whose stat is known. *)
Definition stat_tree : Gh GitMem :=
  with_gh_heap (put_ref 5 (with_stat (Some {| fst_size := 3; fst_created_at := 1; fst_modified_at := 2 |}) 0
                             (ref_at (gh_heap (demo_gh 100)) 5)) (gh_heap (demo_gh 100))) (demo_gh 100).

(** The same folder behind a restart, with the stats file stored. *)
Definition stat_reloaded : Gh GitMem :=
  (modify_ext 2 (set_stats (Some ("c" +:+ default EmptyString (stats_content (gh_heap stat_tree) 2))%string)) (demo_gh 100)).2.

Lemma stats_survive_reload_witness :
  exists s', gh_load_stats (fun s => s) 2 stat_reloaded = (Ok true, s') /\
    fr_stat (ref_at (gh_heap s') 5) = Some {| fst_size := 3; fst_created_at := 1; fst_modified_at := 2 |}.
Proof.
  destruct (stats_content (gh_heap stat_tree) 2) as [content|] eqn:Hc; [|by vm_compute in Hc].
  set (text := String.string_of_list_ascii (b64_encode (String.list_byte_of_string content))).
  destruct (stats_survive_reload (gh_heap stat_tree) 2 content stat_reloaded 2 ("c" +:+ content)%string (gh_net stat_reloaded) text Hc)
    as (s' & Hr & Hs).
  - apply (bool_decide_eq_true_1 _). by vm_compute.
  - by vm_compute.
  - by vm_compute.
  - unfold stat_reloaded. rewrite Hc. by vm_compute.
  - by vm_compute.
  - unfold text. by rewrite String.list_ascii_of_string_of_list_ascii, b64_decode_encode.
  - apply (bool_decide_eq_true_1 _). by vm_compute.
  - intros r Hr. vm_compute in Hr. apply list_elem_of_singleton in Hr as ->. split; vm_compute; reflexivity.
  - exists s'. split; [done|]. rewrite (Hs 5%nat 5%nat); [by vm_compute|vm_compute; left|vm_compute; left|by vm_compute].
Defined.

Definition keyed_ghc : GithubConfig := {| ghc_commit := "main"; ghc_name_key := Some (replicate 64 x07); ghc_dated := true |}.

(** A folder stored as [TGFSP1_x], which no key can have written. *)
Definition odd_folder : Gh GitMem :=
  (create_child_dir keyed_ghc gh_now "TGFSP1_x" 0 true true (gh_start 100)).2.

Lemma undecryptable_folder_misplaced_witness :
  decode_name keyed_ghc "TGFSP1_x" = Ok ("TGFSP1_x"%string, true) /\ storage_name keyed_ghc odd_folder 1 <> "TGFSP1_x"%string.
Proof.
  apply (undecryptable_folder_misplaced keyed_ghc (replicate 64 x07) "TGFSP1_x" odd_folder 1); try done; by vm_compute.
Defined.

(** When GitHub cuts the listing off, deleting one folder takes others
    along: here [pics], which the tree still has.  The reader of the whole
    tree refuses such a listing. *)
Theorem cut_off_listing_loses_files :
  let s := demo_gh 4 in
  main_files s !! "pics/.gitkeep"%string = Some ("100644", "c")%string /\
  let '(r, s') := gh_delete demo_ghc gh_now 2 s in
  r = Ok tt /\ main_files s' !! "pics/.gitkeep"%string = None /\ find_dir (gh_heap s') 0 "pics" = Ok 4%nat /\
  (read_tree demo_ghc s).1 = Ok None.
Proof. by vm_compute. Qed.

(** A folder whose removal GitHub refuses is gone from the tree all the
    same, the caller is told so, and the next start brings it back with its
    files. *)
Theorem refused_deletion_comes_back :
  let s := with_fates [Fails] (demo_gh 100) in
  let '(r, s') := gh_delete demo_ghc gh_now 2 s in
  r = Ok tt /\ (find_dir (gh_heap s') 0 "docs") = Raise (FileOrDirectoryDoesNotExist "docs") /\
  main_files s' !! "docs/a.txt.7"%string = Some ("100644", "c")%string.
Proof. by vm_compute. Qed.

(** A file whose creation was answered with an error although it took
    place is created again under another message id; at the next start the
    second entry of that name ends the load, and every entry behind it is
    missing from the tree, without an exception. *)
Theorem lost_answer_hides_files :
  let s0 := with_fates [AnswerLost] (gh_pics 100) in
  let '(r1, s1) := gh_create_file_ref demo_ghc gh_now 2 "a.txt" 7 s0 in
  let '(r2, s2) := gh_create_file_ref demo_ghc gh_now 2 "a.txt" 8 s1 in
  let '(r3, s3) := gh_create_file_ref demo_ghc gh_now 2 "b.txt" 9 s2 in
  r1 = Raise (BackendError 502) /\ is_ok r2 = true /\ is_ok r3 = true /\
  let '(r, s') := build_directory_structure demo_ghc gh_now
                    {| gh_heap := empty_heap; gh_ext := ∅; gh_times := no_times; gh_net := gh_net s3 |} in
  r = Ok 0%nat /\ main_files s3 !! "docs/b.txt.9"%string = Some ("100644", "c")%string /\
  (let* d := find_dir (gh_heap s') 0 "docs" in find_file (gh_heap s') d "b.txt") = Raise (FileOrDirectoryDoesNotExist "b.txt").
Proof. by vm_compute. Qed.
