(* ===== verification/Migrate.v ===== *)
(** * Encrypting the names of a metadata repository
      ([scripts/encrypt_metadata_names.py])

    The script that renames every folder and file ref of a repository that
    was filled before names were encrypted, in one commit.  The configuration
    arrives as what the script reads of it; a name is its UTF-8 encoding, and
    digits are those of ASCII. *)

From S2P Require Import Prelude Errors FileVersion PosixPath ConfigValue CryptoLib Names Github GhTimes GhDir GhRepo GhRepoProps.

Open Scope Z_scope.
Open Scope py_scope.

(** [repo.create_git_ref(name, sha)]: a new ref beside the branch. *)
Class GitTags (G : Type) := { create_git_ref : string -> string -> st exn G unit }.
Class GitTagLaws (G : Type) `{GithubLaws G} `{GitTags G} := {
  tag_law : forall name sha g, let '(r, g') := create_git_ref name sha g in quiet (repo g) (repo g')
}.

Fixpoint all_digits (s : string) : bool :=
  match s with EmptyString => true | String c s => (48 <=? nat_of_ascii c)%nat && (nat_of_ascii c <=? 57)%nat && all_digits s end.
Definition isdigit (s : string) : bool := negb (bool_decide (s = EmptyString)) && all_digits s.

Section Migrate.
  Context {G : Type} `{Github G} `{GitTags G} `{CryptoLib}.

Definition encrypt_component (key : bytes) (name : string) : string :=
  if is_encrypted_path_name name then name else encrypt_path_name key name.

(** The last segment of a path. *)
Definition migrate_leaf (key : bytes) (leaf : string) : string :=
  if bool_decide (leaf = ".gitkeep"%string) then leaf
  else match rsplit_dot leaf with
       | Some (name, message_id) =>
           if negb (bool_decide (name = EmptyString)) && isdigit message_id
           then (encrypt_component key name +:+ "." +:+ message_id)%string
           else leaf
       | None => leaf
       end.

Definition migrate_path (key : bytes) (path : string) : string :=
  let parts := split_slash path in
  join_slash (map (encrypt_component key) (removelast parts) ++ [migrate_leaf key (List.last parts EmptyString)]).

Definition changes (key : bytes) (entries : list GitTreeElement) : bool :=
  existsb (fun e => negb (bool_decide (migrate_path key (te_path e) = te_path e))) (blobs entries).

(** What [main] does once it has the key and the repository; the exit code. *)
Definition migrate (ghc : GithubConfig) (key : bytes) (apply : bool) : st exn G Z :=
  let! (base_commit, entries) := head_listing ghc in
  if negb (changes key entries) then sret 0
  else if negb apply then sret 0
  else
    let! backup :=
      stry (create_git_ref ("refs/tags/pre-name-encryption-" +:+ String.substring 0 12 base_commit) base_commit ;;; sret true)
           (fun ex => if is_Exception ex then sret false else sraise ex) in
    if negb backup then sret 1
    else
      commit_elements ghc "Encrypt metadata path names"
        (map (fun e => blob_at (migrate_path key (te_path e)) e) (blobs entries)) base_commit ;;;
      sret 0.

(** [enabled] is that of the encryption, [master] the outcome of
    [load_master_key], [repos] the metadata configurations in order. *)
Definition main (enabled : bool) (master : exc bytes) (repos : list (option GithubConfig)) (apply : bool) : st exn G Z :=
  if negb enabled then sret 1
  else
    let! master := slift master in
    let! key := slift (derive_path_name_key master) in
    match omap id repos with
    | [] => sret 1
    | ghc :: _ => migrate ghc key apply
    end.

End Migrate.

(** ** One path *)

Lemma rsplit_dot_app s n m : rsplit_dot s = Some (n, m) -> s = (n +:+ String "." m)%string.
Proof.
  revert n m. induction s as [|c s IH]; intros n m; cbn [rsplit_dot]; [done|]. destruct (rsplit_dot s) as [[a b]|].
  - intros [= <- <-]. rewrite str_app_cons. f_equal. by apply IH.
  - case_bool_decide as Hc; [|done]. by intros [= <- <-]; subst c.
Qed.

Section Path.
  Context `{CryptoLaws} (ghc : GithubConfig) (key : bytes).
  Context (Hkey : ghc_name_key ghc = Some key) (Hlen : zlen key = 64).

(** What a path of the repository stands for: the names of the folders, and
    the file ref, when it is one. *)
Definition reads (path : string) : list string * option (string * Z) :=
  let '(parent_path, segment) := rpartition path in
  (map (plain ghc) (split_slash parent_path),
   if bool_decide (segment = ".gitkeep"%string) || bool_decide (segment = STATS_FILE_NAME) then None
   else match parse_ref ghc segment with Ok f => Some f | Raise _ => None end).

(** Paths whose names are text. *)
Definition text_seg (s : string) : Prop := good_seg s /\ is_str s.
Definition text_leaf (s : string) : Prop := good_seg s /\ forall n m, rsplit_dot s = Some (n, m) -> is_str n.
Definition text_path (path : string) : Prop :=
  exists segs leaf, path = join_slash (segs ++ [leaf]) /\ Forall text_seg segs /\ text_leaf leaf.

Lemma encrypt_is_encrypted name : is_encrypted_path_name (encrypt_path_name key name) = true.
Proof. unfold is_encrypted_path_name, encrypt_path_name. by rewrite strip_prefix_app. Qed.

Lemma component_encrypted name : is_encrypted_path_name (encrypt_component key name) = true.
Proof. unfold encrypt_component. destruct (is_encrypted_path_name name) eqn:He; [done|apply encrypt_is_encrypted]. Qed.

Lemma component_again name : encrypt_component key (encrypt_component key name) = encrypt_component key name.
Proof. unfold encrypt_component at 1. by rewrite component_encrypted. Qed.

Lemma component_good name : good_seg name -> good_seg (encrypt_component key name).
Proof.
  intros Hg. unfold encrypt_component. destruct (is_encrypted_path_name name); [done|]. split.
  - done.
  - pose proof (b64_text_valid_name "T" "GFSP1_" (aessiv_encrypt key (encode_utf8 name)) ltac:(done) ltac:(done)) as Hv.
    fold PATH_NAME_PREFIX in Hv. change (PATH_NAME_PREFIX +:+ _)%string with (encrypt_path_name key name) in Hv.
    unfold validate_name in Hv. destruct (encrypt_path_name key name) as [|c s]; [done|].
    destruct (bool_decide (c = "-"%char)); [done|]. by destruct (str_mem _ _).
Qed.

Lemma component_decodes name : is_str name -> name <> "" ->
  exists e e', decode_name ghc (encrypt_component key name) = Ok (plain ghc name, e) /\ decode_name ghc name = Ok (plain ghc name, e')
  \/ encrypt_component key name = name.
Proof.
  intros Hs Hn. unfold encrypt_component. destruct (is_encrypted_path_name name) eqn:He; [exists true, true; by right|].
  exists true, false. left. unfold plain, decode_name. rewrite He, encrypt_is_encrypted, Hkey. cbn [negb].
  destruct (path_name_roundtrip key name name) as (Hd & _ & _); [done..|]. by rewrite Hd.
Qed.

Lemma component_plain name : is_str name -> name <> "" -> plain ghc (encrypt_component key name) = plain ghc name.
Proof.
  intros Hs Hn. destruct (component_decodes name Hs Hn) as (e & e' & [[He Hd]|He]); [|by rewrite He]. unfold plain at 1. by rewrite He.
Qed.

Lemma encrypted_not_special n m :
  is_encrypted_path_name n = true -> (n +:+ String "." m)%string <> ".gitkeep"%string /\ (n +:+ String "." m)%string <> STATS_FILE_NAME.
Proof. unfold is_encrypted_path_name. destruct n as [|c n]; [done|]. rewrite str_app_cons. cbn. by split; intros [= -> _]. Qed.

Lemma all_digits_plain c s : (nat_of_ascii c < 48)%nat -> all_digits s = true -> str_mem c s = false.
Proof.
  intros Hc. induction s as [|x s IH]; [done|]. cbn [all_digits str_mem]. intros [[Hx _]%andb_true_iff Hs]%andb_true_iff.
  rewrite (IH Hs), orb_false_r. apply bool_decide_eq_false. intros ->. apply Nat.leb_le in Hx. lia.
Qed.

Lemma digits_no_dot m : isdigit m = true -> str_mem "."%char m = false.
Proof. intros [_ Hd]%andb_true_iff. by apply all_digits_plain; [apply Nat.ltb_lt|]. Qed.

(** The last segment: it stays, or it is a file ref under an encrypted name. *)
Lemma leaf_cases leaf : good_seg leaf ->
  migrate_leaf key leaf = leaf \/
  exists n m, leaf = (n +:+ String "." m)%string /\ rsplit_dot leaf = Some (n, m) /\ n <> EmptyString /\ isdigit m = true /\
    leaf <> ".gitkeep"%string /\ migrate_leaf key leaf = (encrypt_component key n +:+ String "." m)%string.
Proof.
  intros _. unfold migrate_leaf. case_bool_decide as Hk; [by left|]. destruct (rsplit_dot leaf) as [[n m]|] eqn:Hr; [|by left].
  case_bool_decide as Hn; cbn [negb andb]; [by left|]. destruct (isdigit m) eqn:Hd; [|by left]. right. exists n, m.
  split; [by apply rsplit_dot_app|]. by split_and!.
Qed.

Lemma leaf_good leaf : good_seg leaf -> good_seg (migrate_leaf key leaf).
Proof.
  intros Hg. destruct (leaf_cases leaf Hg) as [->|(n & m & He & _ & Hn & _ & _ & ->)]; [done|].
  destruct Hg as [_ Hs]. rewrite He, str_mem_app in Hs. apply orb_false_iff in Hs as [Hs1 Hs2].
  destruct (component_good n) as [H1' H2']; [done|]. split; [by destruct (encrypt_component key n)|].
  rewrite str_mem_app, H2'. exact Hs2.
Qed.

Lemma leaf_again leaf : good_seg leaf -> migrate_leaf key (migrate_leaf key leaf) = migrate_leaf key leaf.
Proof.
  intros Hg. destruct (leaf_cases leaf Hg) as [He|(n & m & _ & _ & Hn & Hd & _ & ->)]; [by rewrite !He|].
  unfold migrate_leaf. rewrite bool_decide_eq_false_2 by (apply encrypted_not_special, component_encrypted).
  rewrite rsplit_dot_join by by apply digits_no_dot.
  rewrite Hd, component_again. by case_bool_decide.
Qed.

Lemma leaf_reads leaf : text_leaf leaf ->
  migrate_leaf key leaf = leaf \/
  (migrate_leaf key leaf <> ".gitkeep" /\ migrate_leaf key leaf <> STATS_FILE_NAME /\ leaf <> ".gitkeep" /\ leaf <> STATS_FILE_NAME)%string /\
  match parse_ref ghc (migrate_leaf key leaf), parse_ref ghc leaf with
  | Ok f, Ok f' => f = f'
  | Raise _, Raise _ => True
  | _, _ => False
  end.
Proof.
  intros [Hg Ht]. destruct (leaf_cases leaf Hg) as [?|(n & m & He & Hr & Hn & Hd & Hk & ->)]; [by left|right]. split.
  - destruct (encrypted_not_special _ m (component_encrypted n)) as [H1' H2']. split_and!; try done.
    intros Hs. rewrite Hs in Hr. vm_compute in Hr. injection Hr as <- <-. done.
  - unfold parse_ref. rewrite Hr, rsplit_dot_join by by apply digits_no_dot.
    destruct (component_decodes n (Ht _ _ Hr) Hn) as (e & e' & [[Hd1 Hd2]|Hsame]).
    + rewrite Hd1, Hd2. cbn [rbind]. by destruct (int_of_string m).
    + rewrite Hsame. destruct (decode_name ghc n) as [[? ?]|]; cbn [rbind]; [by destruct (int_of_string m)|done].
Qed.

Lemma migrate_path_eq segs leaf :
  Forall good_seg (segs ++ [leaf]) ->
  migrate_path key (join_slash (segs ++ [leaf])) = join_slash (map (encrypt_component key) segs ++ [migrate_leaf key leaf]).
Proof.
  intros Hg. unfold migrate_path. rewrite split_join_slash; [|by destruct segs|eapply Forall_impl; [exact Hg|]; by intros ? [_ ?]].
  by rewrite removelast_last, last_last.
Qed.

Lemma migrated_good segs leaf :
  Forall good_seg (segs ++ [leaf]) -> Forall good_seg (map (encrypt_component key) segs ++ [migrate_leaf key leaf]).
Proof.
  intros [Hs Hl]%Forall_app. apply Forall_app. split.
  - apply Forall_map. eapply Forall_impl; [exact Hs|]. apply component_good.
  - constructor; [|done]. apply leaf_good. by inversion Hl.
Qed.

(** Migrating twice is migrating once. *)
Lemma migrate_path_again path : text_path path -> migrate_path key (migrate_path key path) = migrate_path key path.
Proof.
  intros (segs & leaf & -> & Hs & [Hl _]).
  assert (Forall good_seg (segs ++ [leaf])) as Hg.
  { apply Forall_app. split; [|by constructor]. eapply Forall_impl; [exact Hs|]. by intros ? [? _]. }
  rewrite migrate_path_eq by done. rewrite migrate_path_eq by by apply migrated_good. rewrite leaf_again by done. do 2 f_equal.
  rewrite map_map. apply map_ext. apply component_again.
Qed.

(** A migrated path stands for what the path stood for. *)
Lemma migrate_path_reads path : text_path path -> reads (migrate_path key path) = reads path.
Proof.
  intros (segs & leaf & -> & Hs & Hl).
  assert (Forall good_seg (segs ++ [leaf])) as Hg.
  { apply Forall_app. split; [|constructor; [apply Hl|done]]. eapply Forall_impl; [exact Hs|]. by intros ? [? _]. }
  rewrite migrate_path_eq by done. unfold reads.
  pose proof (proj1 Hl) as Hlg. rewrite (rpartition_join _ (migrate_leaf key leaf)) by by apply leaf_good. rewrite rpartition_join by done.
  f_equal.
  - destruct segs as [|p segs]; [done|]. apply Forall_app in Hg as [Hg _].
    rewrite !split_join_slash; try done; try (eapply Forall_impl; [exact Hg|]; by intros ? [_ ?]).
    + rewrite map_map. apply map_ext_in. intros s Hin. apply list_elem_of_In in Hin. rewrite Forall_forall in Hs.
      destruct (Hs s Hin) as [[? _] ?]. by apply component_plain.
    + apply Forall_map. eapply Forall_impl; [exact Hg|]. intros s Hgs. by apply component_good.
  - destruct (leaf_reads leaf Hl) as [->|[(H1' & H2' & H3' & H4') Hp]]; [done|].
    rewrite !bool_decide_eq_false_2 by done. cbn [orb]. destruct (parse_ref ghc (migrate_leaf key leaf)), (parse_ref ghc leaf); try done. by subst.
Qed.

End Path.

(** ** The repository *)

Section Repository.
  Context {G : Type} `{GitTagLaws G} `{CryptoLaws} (ghc : GithubConfig) (key : bytes).
  Context (Hbranch : ghc_commit ghc = the_branch) (Hkey : ghc_name_key ghc = Some key) (Hlen : zlen key = 64).

(** A dry run changes nothing. *)
Lemma dry_run_quiet g fs :
  listing_complete g -> head_files (repo g) = Some fs -> quiet (repo g) (repo (migrate ghc key false g).2).
Proof.
  intros Hfull Hf. pose proof (head_listing_spec ghc Hbranch g fs Hfull Hf) as Hl. unfold migrate, sbind.
  destruct (head_listing ghc g) as [[[c l]|e] g1]; [|by destruct Hl]. destruct Hl as [Hq _]. by destruct (negb (changes key l)).
Qed.


End Repository.

(** ** A repository in memory *)

#[export] Instance mem_tags : GitTags GitMem := { create_git_ref name sha := mem_call (fun r => (Ok tt, r)) }.
#[export] Instance mem_tag_laws : GitTagLaws GitMem.
Proof. split. intros name sha g. unfold create_git_ref, mem_tags, mem_call. by destruct (gm_fates g) as [|[] ?]. Qed.

Definition plain_repo : GitMem := git_with 100 [] ["docs/.gitkeep"; "docs/a.txt.7"]%string.
Definition demo_key : bytes := replicate 64 x07.

