(* ===== verification/Backfill.v ===== *)
(** * Copying what is not mirrored yet ([tgdcfs/core/backfill.py])

    [backfill_file] brings the copies of one file up to date: it is the unit
    of work of the backfill of a file system and of the replication queue.
    It changes the file system ([Fs]), the local cache, the tasks shown to
    users and its report.  The descriptor it works on is its own; a version
    is named by its id where the code changes the object.  The uploads of a
    distribution run at the same time in the code, into different stores, and
    one after the other here; that a read of the cache notes the time of the
    access is left out, and so is the text of an exception at the end of the message of
    a failure. *)

From stdpp Require Import pretty.
From S2P Require Import Prelude Errors Messages FileVersion Contents Stores FileContent FileRefs Directory Mirror FdRepo CacheEntry LocalCache Config CachedReadProps StagingProps Api Tasks.

Open Scope Z_scope.
Open Scope py_scope.

Record BackfillReport := {
  rp_files_scanned : Z;
  rp_versions_checked : Z;
  rp_versions_mirrored : Z;
  rp_versions_promoted : Z;
  rp_versions_distributed : Z;
  rp_fds_mirrored : Z;
  rp_failures : list string
}.

Definition new_report : BackfillReport :=
  {| rp_files_scanned := 0; rp_versions_checked := 0; rp_versions_mirrored := 0; rp_versions_promoted := 0;
     rp_versions_distributed := 0; rp_fds_mirrored := 0; rp_failures := [] |}.

(** The counters, one after the other, and the failures added. *)
Definition add_report (scanned checked mirrored promoted distributed fds : Z) (failures : list string) (r : BackfillReport) : BackfillReport :=
  {| rp_files_scanned := rp_files_scanned r + scanned; rp_versions_checked := rp_versions_checked r + checked;
     rp_versions_mirrored := rp_versions_mirrored r + mirrored; rp_versions_promoted := rp_versions_promoted r + promoted;
     rp_versions_distributed := rp_versions_distributed r + distributed; rp_fds_mirrored := rp_fds_mirrored r + fds;
     rp_failures := rp_failures r ++ failures |}.

Record Backfilling (W M : Type) := {
  bf_fs : Fs W M;
  bf_cache : LocalCache;
  bf_tasks : TaskStore;
  bf_report : BackfillReport
}.
Arguments bf_fs {W M}. Arguments bf_cache {W M}. Arguments bf_tasks {W M}. Arguments bf_report {W M}.

(** What a backfill is given: the client and the time. *)
Record BackfillConfig := {
  bc_api : ApiConfig;
  bc_name : string;                              (* client.name *)
  bc_cache : option CacheConfig;                 (* client.cache *)
  bc_plan_parts : Z -> list Z;                   (* client.store.plan_parts *)
  bc_now : Z
}.

(** [VersionBytes.read] of a version in the cache. *)
Definition cached_copy (v : string) (now : Z) (c : LocalCache) : local_copy := fun b e => (cache_read v b e now c).1.

Section Backfill.
  Context {W M : Type} `{Stores W} `{FDJson} `{ContentRepo (Live W)} `{MetaRepo M W} (bc : BackfillConfig).
  Local Abbreviation bst := (st exn (Backfilling W M)).
  Local Abbreviation ac := (bc_api bc).

Definition primary_key : string := store_key ac.

Definition bf_with_fs (f : Fs W M) (s : Backfilling W M) : Backfilling W M :=
  {| bf_fs := f; bf_cache := bf_cache s; bf_tasks := bf_tasks s; bf_report := bf_report s |}.
Definition bf_with_cache (c : LocalCache) (s : Backfilling W M) : Backfilling W M :=
  {| bf_fs := bf_fs s; bf_cache := c; bf_tasks := bf_tasks s; bf_report := bf_report s |}.
Definition bf_with_tasks (t : TaskStore) (s : Backfilling W M) : Backfilling W M :=
  {| bf_fs := bf_fs s; bf_cache := bf_cache s; bf_tasks := t; bf_report := bf_report s |}.
Definition bf_with_report (r : BackfillReport) (s : Backfilling W M) : Backfilling W M :=
  {| bf_fs := bf_fs s; bf_cache := bf_cache s; bf_tasks := bf_tasks s; bf_report := r |}.

Definition on_fs {A} (m : st exn (Fs W M) A) : bst A := fun s => let '(r, f) := m (bf_fs s) in (r, bf_with_fs f s).
Definition in_store {A} (m : st exn W A) : bst A := on_fs (on_store m).
Definition report (f : BackfillReport -> BackfillReport) : bst unit := fun s => (Ok tt, bf_with_report (f (bf_report s)) s).
Definition fail_with (message : string) : bst unit := report (add_report 0 0 0 0 0 0 [message]).

(** [fr.name@version.id: ...]. *)
Definition about (fr_name : string) (v : TGFSFileVersion) (what : string) : string :=
  (fr_name +:+ "@" +:+ fv_id v +:+ ": " +:+ what)%string.

(** [except Exception as ex: report.failures.append(...)]. *)
Definition or_report {A} (message : string) (dflt : A) (m : bst A) : bst A :=
  stry m (fun ex => if is_Exception ex then (fail_with message ;;; sret dflt) else sraise ex).

(** ** Copies that are gone *)

Definition version_copies (v : TGFSFileVersion) : list (string * list Z) :=
  mirrors v ++ map (fun kr => (kr.1, r_message_ids kr.2)) (replicas v).

Fixpoint verify_copies (mg : MirrorGroup) (copies : list (string * list Z)) (v : TGFSFileVersion) : bst TGFSFileVersion :=
  match copies with
  | [] => sret v
  | (key, all_ids) :: copies =>
      if bool_decide (store v = Some key) then verify_copies mg copies v
      else
        match group_store mg key with
        | None => verify_copies mg copies v
        | Some api =>
            let ids := List.filter (fun m => 0 <? m) all_ids in
            if negb (nonempty ids) then verify_copies mg copies v
            else
              let! whole := stry (let! ms := in_store (st_get_messages api ids) in
                                  sret (match all_documents ms with Some _ => true | None => false end))
                                 (fun ex => if is_Exception ex then sret true else sraise ex) in
              verify_copies mg copies
                (if whole then v else set_replicas (Dict.del key (replicas v)) (set_mirrors (Dict.del key (mirrors v)) v))
        end
  end.

Fixpoint verify_versions (mg : MirrorGroup) (vs : list TGFSFileVersion) (fd : TGFSFileDesc) : bst TGFSFileDesc :=
  match vs with
  | [] => sret fd
  | v :: vs => let! v := verify_copies mg (version_copies v) v in verify_versions mg vs (update_version (fv_id v) v fd)
  end.

(** [_verify_mirrors]. *)
Definition verify_mirrors (mg : MirrorGroup) (fd : TGFSFileDesc) : bst TGFSFileDesc := verify_versions mg (get_versions false true fd) fd.

(** ** Uploads that are only in the cache *)

Definition cache_of (v : string) : bst (option CacheEntry) := fun s =>
  (Ok (match bc_cache bc with Some _ => local v (bf_cache s) | None => None end), s).

(** [FileMessageFromCache.new(local, name)]. *)
Definition cache_source (e : CacheEntry) (name : string) (c : LocalCache) : FileMessageFromCache :=
  cache_message (ce_version_id e) name (ce_size e) 0 None (bc_now bc) c.

Definition upload_cached (key : string) (e : CacheEntry) (name : string) : bst (list SentFileMessage) := fun s =>
  in_store (st_upload key FileMessageFromCache cache_uploadable (cache_source e name (bf_cache s))) s.

(** [MirrorGroup.replicate_local]. *)
Definition replicate_local (key : string) (e : CacheEntry) (name : string) : bst Replica :=
  let! sent := upload_cached key e name in sret (replica_of sent).

(** The stores that get a replica at once. *)
Definition replica_targets (planned : list Z) (v : TGFSFileVersion) : list string :=
  match fc_group (ac_fd ac) with
  | None => []
  | Some mg => List.filter (fun k => negb (has_copy_in k v)) (List.filter (fun k => needs_replica mg k planned) (mg_stores mg))
  end.

(** [asyncio.gather(..., return_exceptions=True)] of the replicas. *)
Fixpoint gather_replicas (keys : list string) (e : CacheEntry) (name : string) : bst (list (string * exc Replica)) :=
  match keys with
  | [] => sret []
  | key :: keys => fun s =>
      let '(r, s) := replicate_local key e name s in
      (let! l := gather_replicas keys e name in sret ((key, r) :: l)) s
  end.

Fixpoint record_replicas (fr_name : string) (results : list (string * exc Replica)) (v : TGFSFileVersion) (changed : bool)
  : bst (bool * TGFSFileVersion) :=
  match results with
  | [] => sret (changed, v)
  | (key, Ok rep) :: results => record_replicas fr_name results (set_replicas (Dict.set key rep (replicas v)) v) true
  | (key, Raise ex) :: results =>
      if is_Exception ex then
        (fail_with (about fr_name v ("could not replicate to " +:+ key)) ;;; record_replicas fr_name results v changed)
      else sraise ex
  end.

Definition loss_message (fr_name : string) (v : TGFSFileVersion) : string :=
  about fr_name v ("the pending version is not in the local cache any more; its " +:+ pretty (fv_size v) +:+
                   " bytes are lost and the file falls back to its previous version")%string.

(** The task that tells users that bytes are lost; failing to add it is only
    logged. *)
Definition record_loss (fr : nat) (v : TGFSFileVersion) : bst unit :=
  let! h := on_fs the_heap in
  match absolute_path h (fr_location (ref_at h fr)) with
  | Raise ex => if is_Exception ex then sret tt else sraise ex
  | Ok dir =>
      let! id := on_fs uuid in
      fun s =>
        let path := ("/" +:+ bc_name bc +:+ dir +:+ "/" +:+ name_of h fr)%string in
        let '(id, tasks) := add_task id (bc_now bc) DISTRIBUTION path (name_of h fr) (Some (fv_size v)) (bf_tasks s) in
        (Ok tt, bf_with_tasks (mark_failed (bc_now bc) (bc_now bc) id (loss_message (name_of h fr) v) tasks) s)
  end.

(** [_distribute_pending]: whether the descriptor changed. *)
Definition distribute_pending (fr : nat) (v : TGFSFileVersion) (fd : TGFSFileDesc) : bst (bool * TGFSFileDesc) :=
  let! h := on_fs the_heap in
  let fr_name := name_of h fr in
  let! e := cache_of (fv_id v) in
  match e with
  | None =>
      record_loss fr v ;;;
      let! fd := on_fs (on_desc (delete_version (fv_id v)) fd) in
      sret (true, fd)
  | Some e =>
      let targets := replica_targets (bc_plan_parts bc (ce_size e)) v in
      fun s =>
        let '(sent, s) := upload_cached primary_key e fr_name s in
        (let! results := gather_replicas targets e fr_name in
         let! (changed, v) := record_replicas fr_name results v false in
         match sent with
         | Raise ex =>
             if is_Exception ex then
               (fail_with (about fr_name v "could not upload to the primary") ;;; sret (changed, update_version (fv_id v) v fd))
             else sraise ex
         | Ok sent =>
             let v := materialize primary_key (map sm_message_id sent) (map sm_size sent) v in
             report (add_report 0 0 0 0 1 0 []) ;;;
             sret (true, update_version (fv_id v) v fd)
         end) s
  end.

Fixpoint distribute_all (fr : nat) (vs : list TGFSFileVersion) (distributed : bool) (fd : TGFSFileDesc)
  : bst (bool * TGFSFileDesc) :=
  match vs with
  | [] => sret (distributed, fd)
  | v :: vs =>
      let! (d, fd) := distribute_pending fr v fd in
      distribute_all fr vs (distributed || d) fd
  end.

(** ** Versions without a copy somewhere *)

Definition version_cache (v : TGFSFileVersion) : option VersionCache :=
  version_cache_for (bc_cache bc) (bc_name bc) (Some (fv_id v)) (fv_size v).

Definition release_cache (v : option VersionCache) : bst unit := fun s =>
  match bc_cache bc, v with
  | Some cfg, Some vc => (Ok tt, bf_with_cache (vc_release cfg vc (bf_cache s)) s)
  | _, _ => (Ok tt, s)
  end.

(** [cache.local()]. *)
Definition local_of (v : option VersionCache) (c : LocalCache) : option local_copy :=
  match v with
  | Some vc => match vc_local vc c with Some e => Some (cached_copy (ce_version_id e) (bc_now bc) c) | None => None end
  | None => None
  end.

Definition still_missing (missing : list string) (copies : MirrorResult) : list string :=
  List.filter (fun k => negb (bool_decide (k ∈ result_keys copies))) missing.

(** A version of a former primary gets its copy in the current one. *)
Definition promote (mg : MirrorGroup) (fr_name : string) (v : TGFSFileVersion) : bst (bool * TGFSFileVersion) :=
  if owned_by (mg_primary mg) v then sret (false, v)
  else
    or_report (about fr_name v "could not copy into the primary") (false, v)
      (let! (ok, v) := in_store (copy_into_primary mg v) in
       (if ok then report (add_report 0 0 0 1 0 0 []) else fail_with (about fr_name v "could not copy into the primary")) ;;;
       sret (ok, v)).

(** One turn of the loop over the valid versions: whether the version
    changed. *)
Definition backfill_version (mg : MirrorGroup) (fr_name : string) (v : TGFSFileVersion) : bst (bool * TGFSFileVersion) :=
  report (add_report 0 1 0 0 0 0 []) ;;;
  let! (changed, v) := promote mg fr_name v in
  let cache := version_cache v in
  let missing := missing_stores mg v in
  if negb (nonempty missing) then (release_cache cache ;;; sret (changed, v))
  else if negb (owned_by (mg_primary mg) v) then sret (changed, v)
  else
    let! copies := (fun s => in_store (mirror_parts mg (message_ids v) (some_nonempty (part_sizes v)) (Some missing) None
                                                    (local_of cache (bf_cache s))) s) in
    let! (changed, v) := (if nonempty (result_keys copies)
                          then report (add_report 0 0 1 0 0 0 []) ;;; sret (true, apply_to copies v)
                          else sret (changed, v)) in
    (if nonempty (still_missing missing copies)
     then fail_with (about fr_name v ("could not mirror to " +:+ String.concat ", " (still_missing missing copies)))
     else release_cache cache) ;;;
    sret (changed, v).

Fixpoint backfill_versions (mg : MirrorGroup) (fr_name : string) (vs : list TGFSFileVersion) (changed : bool) (fd : TGFSFileDesc)
  : bst (bool * TGFSFileDesc) :=
  match vs with
  | [] => sret (changed, fd)
  | v :: vs =>
      let! (c, v) := backfill_version mg fr_name v in
      backfill_versions mg fr_name vs (changed || c) (update_version (fv_id v) v fd)
  end.

(** ** One file *)

(** [_sync_ref]. *)
Definition sync_ref (fr : nat) (resp : FDRepositoryResp) : bst unit := on_fs (
  let! h := the_heap in
  let x := ref_at h fr in
  if negb (dict_eq (rp_mirrors resp) (fr_mirrors x)) || negb (rp_message_id resp =? fr_message_id x) ||
     negb (bool_decide (rp_store resp = fr_store x))
  then on_heap (modify_ref fr (fun x => with_place (rp_message_id resp) (rp_mirrors resp) (rp_store resp) x))
  else sret tt).

(** [fd_repo.save(fd, fr)] and [_sync_ref]: the descriptor as it was saved. *)
Definition save_and_sync (fr : nat) (fd : TGFSFileDesc) : bst TGFSFileDesc :=
  let! resp := on_fs (save_file_desc ac fd (Some fr)) in
  sync_ref fr resp ;;;
  sret (rp_fd resp).

(** The pending versions that were moved into the stores, released. *)
Fixpoint release_distributed (vs : list TGFSFileVersion) (fd : TGFSFileDesc) : bst unit :=
  match vs with
  | [] => sret tt
  | v :: vs =>
      (match Dict.get (fv_id v) (versions fd), bc_cache bc with
       | Some v', Some cfg =>
           if pending v' then sret tt
           else fun s => (Ok tt, bf_with_cache (release cfg (fv_id v) (bf_cache s)) s)
       | _, _ => sret tt
       end) ;;;
      release_distributed vs fd
  end.

Definition fd_missing (mg : MirrorGroup) (x : TGFSFileRef) : bool :=
  existsb (fun key => match Dict.get key (fr_mirrors x) with Some mid => mid <=? 0 | None => true end) (mg_stores mg).

(** The part of a group: verify, copy, and commit in the descriptor. *)
Definition backfill_group (mg : MirrorGroup) (fr : nat) (verify : bool) (fd : TGFSFileDesc) : bst TGFSFileDesc :=
  let! fd := (if verify then verify_mirrors mg fd else sret fd) in
  let! h := on_fs the_heap in
  let! (changed, fd) := backfill_versions mg (name_of h fr) (get_versions false true fd) false fd in
  let! h := on_fs the_heap in
  let missing := fd_missing mg (ref_at h fr) in
  if changed || missing then
    let! fd := save_and_sync fr fd in
    report (add_report 0 0 0 0 0 (if missing then 1 else 0) []) ;;;
    sret fd
  else sret fd.

(** [backfill_file]: the descriptor at its end, for what is stated of it. *)
Definition backfill_file (fr : nat) (verify : bool) : bst TGFSFileDesc :=
  let! fd := on_fs (get_file_desc ac fr true true) in
  if negb (nonempty (get_versions false false fd)) then sret fd
  else
    let pending_vs := List.filter pending (get_versions false false fd) in
    let! (distributed, fd) := distribute_all fr pending_vs false fd in
    let! fd := (if distributed then save_and_sync fr fd else sret fd) in
    match fc_group (ac_fd ac) with
    | None => if nonempty pending_vs then (release_distributed pending_vs fd ;;; sret fd) else sret fd
    | Some mg => backfill_group mg fr verify fd
    end.

(** ** A whole file system *)

Definition task_progress (task_id : option string) (size_delta : option Z) (status : option TaskStatus) (error : option string)
  : bst unit := fun s =>
  match task_id with
  | None => (Ok tt, s)
  | Some i => (Ok tt, bf_with_tasks (update_task_progress (bc_now bc) (bc_now bc) i size_delta status error (bf_tasks s)).2 s)
  end.

(** The refs with the date of their newest version. *)
Fixpoint date_refs (refs : list nat) : bst (list (nat * Z)) :=
  match refs with
  | [] => sret []
  | fr :: refs =>
      let! h := on_fs the_heap in
      let! one := or_report (name_of h fr +:+ ": cannot read descriptor") []
                    (let! fd := on_fs (get_file_desc ac fr false true) in
                     let! t := slift (desc_updated_at_timestamp fd) in sret [(fr, t)]) in
      let! rest := date_refs refs in
      sret (one ++ rest)
  end.

Definition place_of (x : TGFSFileRef) : Z * dict string Z * option string := (fr_message_id x, fr_mirrors x, fr_store x).

Definition moved (before after : TGFSFileRef) : bool :=
  negb ((fr_message_id before =? fr_message_id after) && dict_eq (fr_mirrors before) (fr_mirrors after) &&
        bool_decide (fr_store before = fr_store after)).

Fixpoint backfill_refs (refs : list nat) (verify : bool) (task_id : option string) (dirty : bool) : bst bool :=
  match refs with
  | [] => sret dirty
  | fr :: refs =>
      let! before := on_fs the_heap in
      or_report (name_of before fr) tt (let! _ := backfill_file fr verify in sret tt) ;;;
      let! after := on_fs the_heap in
      report (add_report 1 0 0 0 0 0 []) ;;;
      task_progress task_id (Some 1) None None ;;;
      backfill_refs refs verify task_id (dirty || moved (ref_at before fr) (ref_at after fr))
  end.

(** [backfill_mirrors]: the report is in the state. *)
Definition backfill_mirrors (verify : bool) (task_id : option string) : bst unit :=
  report (fun _ => new_report) ;;;
  match fc_group (ac_fd ac) with
  | None => fail_with ("File system '" +:+ bc_name bc +:+ "' has no mirror stores configured")%string
  | Some _ =>
      let! root := on_fs get_root_directory in
      let! h := on_fs the_heap in
      let! dated := date_refs (iter_file_refs h root) in
      task_progress task_id None (Some IN_PROGRESS) None ;;;
      let! dirty := backfill_refs (map fst (sort_by (fun ft => - ft.2) dated)) verify task_id false in
      (if dirty then on_fs push else sret tt) ;;;
      fun s =>
        let failures := rp_failures (bf_report s) in
        task_progress task_id None (Some (if nonempty failures then FAILED else COMPLETED))
          (if nonempty failures then Some (String.concat "; " failures) else None) s
  end.

(** [create_backfill_task] and [count_files]. *)
Definition create_backfill_task (total_files : Z) : bst string := fun s =>
  (let! id := on_fs uuid in
   fun s =>
     let '(id, tasks) := add_task id (bc_now bc) MIRROR_BACKFILL ("/" +:+ bc_name bc) ("mirror-backfill-" +:+ bc_name bc)
                                  (Some total_files) (bf_tasks s) in
     (Ok id, bf_with_tasks tasks s)) s.

Definition count_files : bst Z := on_fs (
  let! root := get_root_directory in
  let! h := the_heap in
  sret (zlen (iter_file_refs h root))).

End Backfill.
