(* ===== verification/BackfillProps.v ===== *)
(** * What a backfill guarantees

    Every copy a version names is a true one before and after a backfill --
    also when the version moves to another primary store -- and a backfill
    that reports no failure leaves every version with a copy in every mirror
    store. *)

From S2P Require Import Prelude Errors Messages FileVersion FileVersionProps Contents Stores FileContent FileContentProps FileRefs Directory DirectorySer Mirror MirrorProps FdRepo FdSaved CacheEntry LocalCache LocalCacheProps CacheContent CachedReadProps StagingProps Api Tasks OpsProps Backfill.

Open Scope Z_scope.
Open Scope py_scope.

Lemma dict_del_elem {V} (k k' : string) (v : V) d : (k, v) ∈ Dict.del k' d -> (k, v) ∈ d.
Proof. unfold Dict.del. by intros [_ ?]%list_elem_of_filter. Qed.

Lemma dict_get_elem {V} (k : string) (v : V) d : Dict.get k d = Some v -> (k, v) ∈ d.
Proof. intros ?%Dict.get_Some_In. by apply list_elem_of_In. Qed.

Lemma dict_update_get {V} (k : string) (v : V) d e : Dict.get k (Dict.update d e) = Some v -> (k, v) ∈ e \/ Dict.get k d = Some v.
Proof.
  unfold Dict.update. revert d. induction e as [|[a b] e IH]; intros d; simpl; [by right|]. rewrite elem_of_cons. intros [?|Hg]%IH; [by left; right|].
  destruct (decide (k = a)) as [->|Hne]; [rewrite Dict.get_set_eq in Hg; left; left; congruence|]. rewrite Dict.get_set_ne in Hg by done. by right.
Qed.

Lemma dict_update_get_ne {V} (k : string) (d e : dict string V) : k ∉ Dict.keys e -> Dict.get k (Dict.update d e) = Dict.get k d.
Proof.
  unfold Dict.update. revert d. induction e as [|[a b] e IH]; intros d Hk; simpl in *; [done|]. apply not_elem_of_cons in Hk as [Hne Hk].
  rewrite IH by done. by rewrite Dict.get_set_ne.
Qed.

Lemma dict_update_get_in {V} (k : string) (d e : dict string V) :
  k ∈ Dict.keys e -> exists v, Dict.get k (Dict.update d e) = Some v /\ (k, v) ∈ e.
Proof.
  unfold Dict.update. revert d. induction e as [|[a b] e IH]; intros d; simpl; [by intros ?%not_elem_of_nil|]. intros Hk.
  destruct (decide (k ∈ Dict.keys e)) as [Hin|Hout]; [destruct (IH (Dict.set a b d) Hin) as (v & ? & ?); exists v; split; [done|by right]|].
  apply elem_of_cons in Hk as [->|Hk]; [|done]. exists b. split; [|left].
  pose proof (dict_update_get_ne a (Dict.set a b d) e Hout) as He. unfold Dict.update in He. by rewrite He, Dict.get_set_eq.
Qed.

(** ** What a version names *)

Section TrueVersions.
  Context {W : Type} `{WriteLaws W} (pk : string).

Definition home (v : TGFSFileVersion) : string := default pk (store v).

(** The version is the content [c] in the parts [bs], and so is every copy it
    names: its own messages, the aligned mirrors part by part, the replicas
    in their cut. *)
Record true_version (w : W) (c : bytes) (bs : list bytes) (v : TGFSFileVersion) : Prop := {
  tv_content : concat bs = c;
  tv_sizes : part_sizes v = map zlen bs;
  tv_ids : copies w (home v) (message_ids v) bs;
  tv_home : forall ids, Dict.get (home v) (mirrors v) = Some ids -> ids = message_ids v;
  tv_mirrors : forall k ids i m b, (k, ids) ∈ mirrors v -> ids !! i = Some m -> bs !! i = Some b -> 0 < m -> holds w k m b;
  tv_replicas : forall k r, (k, r) ∈ replicas v ->
    exists bs', concat bs' = c /\ r_part_sizes r = map zlen bs' /\ copies w k (r_message_ids r) bs'
}.

Lemma true_kept w w' c bs v : docs_kept w w' -> true_version w c bs v -> true_version w' c bs v.
Proof.
  intros Hk [T1 T2 T3 T4 T5 T6]. split; try done.
  - by eapply copies_kept.
  - intros k ids i m b ????. apply Hk. by eapply T5.
  - intros k r (bs' & ? & ? & ?)%T6. exists bs'. split; [done|]. split; [done|]. by eapply copies_kept.
Qed.

Lemma copies_length w k ids bs : copies w k ids bs -> zlen ids = zlen bs.
Proof. intros Hc%Forall2_length. unfold zlen. lia. Qed.

Lemma copies_positive (w : W) k ids bs : copies w k ids bs -> Forall (fun i => 0 < i) ids.
Proof. induction 1 as [|i b ids bs [? _] _ IH]; by constructor. Qed.

(** A version read from its own store is held as its metadata says. *)
Lemma true_held cc w c bs v : cc_store cc = pk -> true_version w c bs v -> version_held cc w v c bs.
Proof.
  intros Hcc [T1 T2 T3 T4 T5 T6]. split; try done.
  - intros Ho i m b Hm Hb _. rewrite Hcc in *.
    assert (home v = pk) as Hh by (unfold home, owned_by in *; destruct (store v); [by apply bool_decide_eq_true in Ho|done]).
    rewrite Hh in T3. by destruct (Forall2_lookup_lr _ _ _ _ _ _ T3 Hm Hb).
  - intros k r Hin _. destruct (T6 k r Hin) as (bs' & ? & ? & Hcp). exists bs'. split; [done|]. split; [done|].
    eapply Forall2_impl; [exact Hcp|]. by intros m b [_ ?].
Qed.

(** A complete mirror that is aligned with the parts holds them all. *)
Lemma aligned_copies w c bs v k ids :
  true_version w c bs v -> (k, ids) ∈ mirrors v -> zlen ids = zlen (message_ids v) -> Forall (fun i => 0 < i) ids -> copies w k ids bs.
Proof.
  intros [T1 T2 T3 T4 T5 T6] Hin Hl Hpos. pose proof (copies_length _ _ _ _ T3) as Hn.
  apply Forall2_same_length_lookup. split; [unfold zlen in *; lia|]. intros i m b Hm Hb.
  assert (0 < m) by (by eapply Forall_lookup_1 in Hpos). split; [done|]. by eapply T5.
Qed.

(** ** Moving to another primary *)

(** The mirrors of a version that becomes a replica layout of its own. *)
Lemma fold_replicas_true w c bs (old : list Z) ms acc :
  concat bs = c ->
  (forall k ids, (k, ids) ∈ ms -> zlen ids = zlen old -> Forall (fun i => 0 < i) ids -> copies w k ids bs) ->
  (forall k r, (k, r) ∈ acc -> exists bs', concat bs' = c /\ r_part_sizes r = map zlen bs' /\ copies w k (r_message_ids r) bs') ->
  forall k r, (k, r) ∈ foldl (fun acc ka =>
       if (zlen ka.2 =? zlen old) && zall (fun i => 0 <? i) ka.2
       then Dict.set ka.1 {| r_message_ids := ka.2; r_part_sizes := map zlen bs |} acc
       else acc) acc ms ->
    exists bs', concat bs' = c /\ r_part_sizes r = map zlen bs' /\ copies w k (r_message_ids r) bs'.
Proof.
  intros Hc. revert acc. induction ms as [|[k' ids'] ms IH]; intros acc Hms Hacc; simpl; [exact Hacc|].
  apply IH; [intros k ids Hin; apply Hms; by right|]. destruct ((zlen ids' =? zlen old) && _) eqn:Hcond; [|done].
  apply andb_prop in Hcond as [Hl%Z.eqb_eq Hp%zall_pos]. intros k r [[-> ->]|Hin]%dict_set_elem; [|by apply Hacc].
  exists bs. split; [done|]. split; [done|]. apply Hms; [left|done|done].
Qed.

Lemma relocate_true w c bs v :
  true_version w c bs v -> message_ids v <> [] ->
  exists bs', true_version w c bs' (relocate pk v) /\ message_ids (relocate pk v) <> [].
Proof.
  intros Ht Hne. destruct (Ht) as [T1 T2 T3 T4 T5 T6]. unfold relocate. destruct (store v) as [old|] eqn:Hst; [|by exists bs].
  destruct (owned_by pk v) eqn:Ho; [by exists bs|].
  assert (old <> pk) as Hold by (unfold owned_by in Ho; rewrite Hst in Ho; by apply bool_decide_eq_false in Ho).
  unfold home in T3, T4. rewrite Hst in T3, T4. cbn [from_option id] in T3, T4.
  set (ms := Dict.setdefault old (message_ids v) (mirrors v)).
  assert (forall k ids, (k, ids) ∈ ms -> (k = old /\ ids = message_ids v) \/ (k, ids) ∈ mirrors v) as Hms.
  { intros k ids. unfold ms, Dict.setdefault. destruct (Dict.mem old (mirrors v)); [by right|]. apply dict_set_elem. }
  assert (forall k ids i m b, (k, ids) ∈ ms -> ids !! i = Some m -> bs !! i = Some b -> 0 < m -> holds w k m b) as Hms5.
  { intros k ids i m b [[-> ->]|Hin]%Hms Hm Hb Hp; [|by eapply T5]. by destruct (Forall2_lookup_lr _ _ _ _ _ _ T3 Hm Hb). }
  assert (forall k ids, (k, ids) ∈ ms -> zlen ids = zlen (message_ids v) -> Forall (fun i => 0 < i) ids -> copies w k ids bs) as Hal.
  { intros k ids Hin Hl Hp. pose proof (copies_length _ _ _ _ T3). apply Forall2_same_length_lookup.
    split; [unfold zlen in *; lia|]. intros i m b Hm Hb. assert (0 < m) by (by eapply Forall_lookup_1 in Hp). split; [done|]. by eapply Hms5. }
  set (v1 := set_mirrors ms v).
  assert (forall ids, Dict.get old ms = Some ids -> ids = message_ids v) as Hown.
  { intros ids. unfold ms, Dict.setdefault, Dict.mem. destruct (Dict.get old (mirrors v)) as [ids'|] eqn:Hg; [rewrite Hg; intros [= <-]; by apply T4|].
    rewrite Dict.get_set_eq. by intros [= <-]. }
  assert (true_version w c bs v1) as Hkeep
    by (split; try done; unfold home; cbn [set_mirrors store mirrors v1 message_ids]; by rewrite Hst).
  change (mirrors v1) with ms. change (message_ids v1) with (message_ids v).
  destruct (aligned_complete (zlen (message_ids v)) (default [] (Dict.get pk ms))) eqn:Ha.
  - apply aligned_complete_spec in Ha as (Hn & Hl & Hp). destruct (Dict.get pk ms) as [ids|] eqn:Hg; [|by destruct Hn].
    cbn [from_option id] in *. 
    exists bs. split; [|done]. split; try done; unfold home; cbn [relocate_aligned store from_option id message_ids mirrors replicas].
    + apply Hal; [by apply dict_get_elem|done|done].
    + intros ids'. by rewrite Dict.get_del_eq.
    + intros k ids' i m b Hin%dict_del_elem. by apply Hms5.
  - destruct (Dict.get pk (replicas v1)) as [rep|] eqn:Hr; [|exists bs; split; [by apply Hkeep|done]].
    destruct (nonempty (r_message_ids rep)) eqn:Hrn.
    2: { exists bs. split; [|done]. destruct (Hkeep) as [K1 K2 K3 K4 K5 K6]. split; try done. intros k r Hin%dict_del_elem. by apply K6. }
    destruct (T6 pk rep (dict_get_elem _ _ _ Hr)) as (bs' & Hc' & Hs' & Hcp').
    assert (r_message_ids rep <> []) as Hrne by (by destruct (r_message_ids rep)). exists bs'. split; [|exact Hrne]. split; try done; unfold home;
      cbn [relocate_replica store from_option id message_ids mirrors replicas set_mirrors set_replicas].
    1: by intros k ids i m b Hin%not_elem_of_nil.
    assert (default (message_ids v1) (Dict.get old (mirrors v1)) = message_ids v) as Hold'.
    { change (mirrors v1) with ms. destruct (Dict.get old ms) as [ids|] eqn:Hg; [|reflexivity]. cbn [from_option id]. by apply Hown. }
    rewrite Hold'. cbn [part_sizes v1 set_replicas set_mirrors]. rewrite T2. apply fold_replicas_true; [done| |].
    + intros k ids Hin%dict_del_elem. by apply Hal.
    + intros k r [[-> ->]|Hin]%dict_set_elem; [by exists bs|]. apply dict_del_elem in Hin. by apply T6.
Qed.

Lemma relocate_id v : fv_id (relocate pk v) = fv_id v.
Proof.
  unfold relocate. destruct (store v); [|done]. destruct (owned_by pk v); [done|]. destruct (aligned_complete _ _); [done|].
  destruct (Dict.get pk _); [|done]. by destruct (nonempty _).
Qed.

(** ** New copies *)

Lemma apply_true w c bs v stores res :
  res_ok w stores pk bs res -> home v = pk -> true_version w c bs v -> true_version w c bs (apply_to res v).
Proof.
  intros [Hm Hr] Hh [T1 T2 T3 T4 T5 T6]. split; try done.
  - change (home (apply_to res v)) with (home v). intros ids [Hin|Hg]%dict_update_get; [|by apply T4].
    destruct (Hm _ _ Hin) as (_ & Hne & _). by rewrite Hh in Hne.
  - intros k ids i m b [Hin|Hin]%dict_update_elem Hi Hb Hp; [by eapply T5|].
    destruct (Hm _ _ Hin) as (_ & _ & Hc). by destruct (Forall2_lookup_lr _ _ _ _ _ _ Hc Hi Hb).
  - intros k r [Hin|Hin]%dict_update_elem; [by apply T6|]. destruct (Hr _ _ Hin) as (_ & _ & bs' & ? & ? & ?). exists bs'. naive_solver congruence.
Qed.

Lemma apply_has_copy w c bs v stores res k :
  res_ok w stores pk bs res -> true_version w c bs v -> message_ids v <> [] -> c <> [] ->
  k ∈ result_keys res \/ has_copy_in k v = true -> has_copy_in k (apply_to res v) = true.
Proof.
  intros [Hm Hr] [T1 T2 T3 T4 T5 T6] Hne Hc Hk. pose proof (copies_length _ _ _ _ T3) as Hl. rewrite has_copy_in_spec.
  cbn [apply_to set_replicas set_mirrors mirrors replicas store message_ids].
  destruct (decide (k ∈ Dict.keys (mres_mirrors res))) as [Hkm|Hkm].
  { destruct (dict_update_get_in k (mirrors v) _ Hkm) as (ids & Hg & Hin). right; left. exists ids. split; [done|].
    destruct (Hm _ _ Hin) as (_ & _ & Hcp). pose proof (copies_length _ _ _ _ Hcp). apply aligned_complete_spec.
    split; [intros ->; apply Hne, zlen_0; rewrite zlen_nil in *; lia|]. split; [lia|]. by eapply copies_positive. }
  destruct (decide (k ∈ Dict.keys (mres_replicas res))) as [Hkr|Hkr].
  { destruct (dict_update_get_in k (replicas v) _ Hkr) as (r & Hg & Hin). right; right. exists r. split; [done|].
    destruct (Hr _ _ Hin) as (_ & _ & bs' & Hcc & _ & Hcp). intros Hn. rewrite Hn in Hcp. inversion Hcp; subst bs'. apply Hc. by rewrite <- T1, <- Hcc. }
  destruct Hk as [Hk|Hk]; [unfold result_keys in Hk; by apply elem_of_app in Hk as [?|?]|].
  apply has_copy_in_spec in Hk. by rewrite !dict_update_get_ne.
Qed.

(** The new primary gets a copy of its own. *)
Lemma promote_true mg w c bs v :
  mg_primary mg = pk -> true_version w c bs v -> message_ids v <> [] ->
  safe (copy_into_primary mg v) w (fun r w' => r.1 = owned_by pk r.2 /\ fv_id r.2 = fv_id v /\
    exists bs', true_version w' c bs' r.2 /\ message_ids r.2 <> []).
Proof.
  intros Hpk Ht Hne. unfold copy_into_primary. rewrite Hpk. destruct (store v) as [old|] eqn:Hst; [|apply safe_ret; naive_solver].
  destruct (owned_by pk v) eqn:Ho; [apply safe_ret; naive_solver|]. unfold group_store. rewrite Hpk.
  assert (old <> pk) as Hold by (unfold owned_by in Ho; rewrite Hst in Ho; by apply bool_decide_eq_false in Ho).
  rewrite decide_False by done. case_bool_decide; [|apply safe_ret; naive_solver].
  assert (forall w', docs_kept w w' -> sources w' old (message_ids v) bs) as Hsrc.
  { intros w' Hk. pose proof (tv_ids _ _ _ _ Ht) as T3. unfold home in T3. rewrite Hst in T3. cbn [from_option id] in T3.
    eapply sources_kept; [exact Hk|]. eapply Forall2_impl; [exact T3|]. by intros m b [_ ?]. }
  eapply (safe_bind _ _ _ (fun sizes _ => sizes = map zlen bs)).
  { destruct (zlen (part_sizes v) =? zlen (message_ids v)); [apply safe_ret; apply (tv_sizes _ _ _ _ Ht)|].
    apply part_sizes_safe, Hsrc, docs_kept_refl. }
  intros sizes w1 Hk1 ->.
  eapply (safe_bind _ _ _ (fun v1 w' => fv_id v1 = fv_id v /\ part_sizes v1 = part_sizes v /\ message_ids v1 = message_ids v /\
                                       true_version w' c bs v1)).
  - destruct (fits_aligned _ _ _).
    + eapply safe_bind; [apply copy_to_safe; [by apply Hsrc|done|done]|]. intros ids w2 Hk2 Hc. apply safe_ret. split_and!; [done..|].
      assert (true_version w2 c bs v) as [T1 T2 T3 T4 T5 T6] by (eapply true_kept; [|exact Ht]; by eapply docs_kept_trans).
      split; try done; change (home _) with (home v); cbn [set_mirrors mirrors message_ids].
      * intros ids'. unfold home. rewrite Hst. cbn [from_option id]. rewrite Dict.get_set_ne by done. intros Hg. apply T4. unfold home. by rewrite Hst.
      * intros k ids' i m b [[-> ->]|Hin]%dict_set_elem Hi Hb Hp; [|by eapply T5]. by destruct (Forall2_lookup_lr _ _ _ _ _ _ Hc Hi Hb).
    + eapply safe_bind; [apply replicate_safe; [by apply Hsrc|done]|]. intros r w2 Hk2 (bs' & Hc & Hsz & Hcp). apply safe_ret. split_and!; [done..|].
      assert (true_version w2 c bs v) as [T1 T2 T3 T4 T5 T6] by (eapply true_kept; [|exact Ht]; by eapply docs_kept_trans).
      split; try done; cbn [set_replicas replicas]. intros k r' [[-> ->]|Hin]%dict_set_elem; [|by apply T6]. exists bs'. naive_solver congruence.
  - intros v1 w2 Hk2 (Hid & Hsz & Hms & Ht1). apply safe_ret. cbn [fst snd]. rewrite relocate_id.
    split; [done|]. split; [done|]. apply (relocate_true _ _ bs); [|cbn [set_part_sizes message_ids]; congruence].
    destruct Ht1 as [T1 T2 T3 T4 T5 T6]. by split.
Qed.

End TrueVersions.

(** ** Steps of a backfill *)

Section Backfilled.
  Context {W M : Type} `{WriteLaws W} `{FDJson} `{ContentRepo (Live W)} `{MetaRepo M W} (bc : BackfillConfig).
  Context (content : string -> bytes) (Hblock : forall cfg, bc_cache bc = Some cfg -> 0 < block_bytes cfg).
  Local Abbreviation state := (Backfilling W M).

Definition world (s : state) : W := lv_world (fs_live (bf_fs s)).
Definition fails (s : state) : list string := rp_failures (bf_report s).

(** The cache holds the versions' bytes, and nothing else is at work on it. *)
Definition cache_true (c : LocalCache) : Prop := match bc_cache bc with Some cfg => steady content cfg c | None => True end.

(** Nothing stored is lost, the cache stays true, failures are only added. *)
Record goes (s s' : state) : Prop := {
  go_docs : docs_kept (world s) (world s');
  go_cache : cache_true (bf_cache s) -> cache_true (bf_cache s');
  go_fails : exists l, fails s' = fails s ++ l
}.

Lemma goes_refl s : goes s s.
Proof. split; [apply docs_kept_refl|done|]. exists []. by rewrite app_nil_r. Qed.

Lemma goes_trans s1 s2 s3 : goes s1 s2 -> goes s2 s3 -> goes s1 s3.
Proof.
  intros [A1 A2 [l1 A3]] [B1 B2 [l2 B3]]. split; [by eapply docs_kept_trans|auto|]. exists (l1 ++ l2). by rewrite B3, A3, app_assoc.
Qed.

Lemma fails_between s1 s2 s3 : goes s1 s2 -> goes s2 s3 -> fails s3 = fails s1 -> fails s2 = fails s1 /\ fails s3 = fails s2.
Proof.
  intros [_ _ [l1 A]] [_ _ [l2 B]] He. rewrite B, A, <- app_assoc in He. rewrite <- (app_nil_r (fails s1)) in He at 2.
  apply app_inv_head in He. apply app_eq_nil in He as [-> ->]. rewrite B, A, !app_nil_r. done.
Qed.

Definition runs {A} (m : st exn state A) (s : state) (post : A -> state -> Prop) : Prop :=
  let '(r, s') := m s in goes s s' /\ match r with Ok a => post a s' | Raise _ => True end.

Lemma runs_ret {A} (a : A) s (post : A -> state -> Prop) : post a s -> runs (sret a) s post.
Proof. intros Hp. split; [apply goes_refl|done]. Qed.

Lemma runs_bind {A B} (m : st exn state A) (k : A -> st exn state B) s post post' :
  runs m s post -> (forall a s', goes s s' -> post a s' -> runs (k a) s' post') -> runs (sbind m k) s post'.
Proof.
  unfold runs, sbind. destruct (m s) as [[a|x] s1]; intros [Hg Hp] Hnext; [|done]. specialize (Hnext a s1 Hg Hp).
  destruct (k a s1) as [r s2]. destruct Hnext as [Hg2 Hp2]. split; [by eapply goes_trans|done].
Qed.

Lemma runs_weaken {A} (m : st exn state A) s (post post' : A -> state -> Prop) :
  runs m s post -> (forall a s', goes s s' -> post a s' -> post' a s') -> runs m s post'.
Proof. unfold runs. destruct (m s) as [[a|x] s1]; intros [Hg Hp] Himp; [|done]. split; [done|]. by apply Himp. Qed.

(** Calls that only reach the stores. *)
Lemma runs_in_store {A} (m : st exn W A) s post :
  safe m (world s) post -> runs (in_store m) s (fun a s' => post a (world s') /\ fails s' = fails s /\ bf_cache s' = bf_cache s).
Proof.
  unfold safe, runs, in_store, on_fs, on_store, on_live, onw, world. destruct s as [f c t r]. cbn [bf_fs].
  destruct (fs_live f) as [w d] eqn:Hl. cbn [lv_world]. destruct (m w) as [[a|x] w'] eqn:Hm; intros [Hk Hp]; simpl.
  - split; [|done]. split; unfold world, fails; simpl; [by rewrite Hl|done|exists []; by rewrite app_nil_r].
  - split; [|done]. split; unfold world, fails; simpl; [by rewrite Hl|done|exists []; by rewrite app_nil_r].
Qed.

(** Calls that change neither the stores nor the cache nor the report. *)
Lemma runs_aside {A} (m : st exn (Fs W M) A) s (Q : A -> Prop) :
  (forall f, lv_world (fs_live (m f).2) = lv_world (fs_live f)) -> (forall f a, (m f).1 = Ok a -> Q a) ->
  runs (on_fs m) s (fun a s' => Q a /\ fails s' = fails s).
Proof.
  intros Hm HQ. unfold runs, on_fs. specialize (Hm (bf_fs s)). specialize (HQ (bf_fs s)). destruct (m (bf_fs s)) as [r f]. cbn [fst snd] in *.
  split; [split|]; unfold world, fails; simpl; [rewrite Hm; apply docs_kept_refl|done|exists []; by rewrite app_nil_r|]. destruct r; [|done]. by split; [apply HQ|].
Qed.

Lemma runs_fail message s : runs (fail_with message) s (fun _ s' => fails s' <> fails s).
Proof.
  split; [split; [apply docs_kept_refl|done|by exists [message]]|]. unfold fails. simpl. intros He%(f_equal length). rewrite length_app in He. simpl in He. lia.
Qed.

Lemma runs_report a b c d e f s : runs (report (add_report a b c d e f [])) s (fun _ s' => fails s' = fails s /\ bf_cache s' = bf_cache s /\ world s' = world s).
Proof. split; [split; [apply docs_kept_refl|done|by exists []]|]. unfold fails. simpl. by rewrite app_nil_r. Qed.

Lemma runs_or_report {A} message (dflt : A) m s post :
  runs m s post -> runs (or_report message dflt m) s (fun a s' => post a s' \/ (a = dflt /\ fails s' <> fails s)).
Proof.
  unfold or_report, runs at 1 2, stry. destruct (m s) as [[a|x] s1]; intros [Hg Hp]; [by split; [|left]|].
  destruct (is_Exception x); [|by split]. pose proof (runs_fail message s1) as Hf. unfold runs, sbind in *.
  destruct (fail_with message s1) as [[[]|y] s2]; destruct Hf as [Hg2 Hne]; (split; [by eapply goes_trans|]); [|done].
  right. split; [done|]. intros He. apply (fails_between s s1 s2) in He as [_ ?]; done.
Qed.

(** The bytes a mirror is filled from are those of the version. *)
Lemma local_of_true v l c : cache_true c -> local_of bc (version_cache bc v) c = Some l -> local_ok l (content (fv_id v)).
Proof.
  unfold cache_true, local_of, version_cache, version_cache_for. destruct (bc_cache bc) as [cfg|] eqn:Hcfg; [|done]. intros Hs.
  destruct (_ || _); [done|]. unfold vc_local, local. cbn [vc_version_id]. destruct (entry_of (fv_id v) c) as [e|] eqn:He; [|done].
  destruct (ce_writing e || negb (is_complete e)) eqn:Hc; [done|]. apply orb_false_iff in Hc as [Hw Hc%negb_false_iff].
  intros Hl0. destruct (co_entry _ (steady_cache _ _ _ Hs) _ e He) as (_ & Hv & _). rewrite Hv in Hl0. injection Hl0 as <-.
  assert (complete (fv_id v) c = true) as Hcomp by (unfold LocalCache.complete; by rewrite He, Hw, Hc).
  intros b last Hr Hl. destruct (complete_read content cfg (fv_id v) b last (bc_now bc) c Hs Hcomp Hr Hl) as (Hy & _).
  unfold cached_copy. unfold yields in Hy. destruct (fault _); [destruct Hy as (t & Ht); by exists t|]. exists []. by rewrite app_nil_r.
Qed.

Lemma release_true vc s : runs (release_cache bc vc) s (fun _ s' => fails s' = fails s /\ world s' = world s).
Proof.
  unfold release_cache, runs. destruct (bc_cache bc) as [cfg|] eqn:Hcfg; [destruct vc as [x|]|];
    (split; [split; [apply docs_kept_refl| |by exists []; rewrite app_nil_r]|done]); [|done..].
  unfold cache_true. rewrite Hcfg. intros Hs. cbn [bf_with_cache bf_cache]. pose proof (steady_cache _ _ _ Hs) as Hok.
  eapply steady_step; [exact Hs|by apply good_release|apply keeps_stays, keeps_release, Hok].
Qed.

(** ** One version *)

(** A version with content whose named copies are true. *)
Definition version_ok (mg : MirrorGroup) (s : state) (v : TGFSFileVersion) : Prop :=
  message_ids v <> [] /\ content (fv_id v) <> [] /\ exists bs, true_version (mg_primary mg) (world s) (content (fv_id v)) bs v.

(** The primary has it, and so has every mirror store. *)
Definition covered (mg : MirrorGroup) (v : TGFSFileVersion) : Prop := owned_by (mg_primary mg) v = true /\ missing_stores mg v = [].

Lemma version_ok_goes mg s s' v : goes s s' -> version_ok mg s v -> version_ok mg s' v.
Proof. intros Hg (? & ? & bs & Ht). split; [done|]. split; [done|]. exists bs. eapply true_kept; [apply Hg|done]. Qed.

Lemma promote_spec mg name v s :
  version_ok mg s v ->
  runs (promote mg name v) s (fun r s' => fv_id r.2 = fv_id v /\ version_ok mg s' r.2 /\
    (fails s' = fails s -> owned_by (mg_primary mg) r.2 = true)).
Proof.
  intros Hv. unfold promote. destruct (owned_by (mg_primary mg) v) eqn:Ho; [by apply runs_ret|].
  destruct (Hv) as (Hne & Hc & bs & Ht). eapply runs_weaken; [apply runs_or_report; eapply runs_bind;
    [eapply runs_in_store, promote_true; [done|exact Ht|done]|]|].
  - intros [ok v'] s1 Hg1 ((Hok & Hid & bs' & Ht' & Hne') & Hf1 & _). cbn [fst snd] in *.
    assert (version_ok mg s1 v') as Hv' by (unfold version_ok; rewrite Hid; eauto).
    instantiate (1 := fun r s' => fv_id r.2 = fv_id v /\ version_ok mg s' r.2 /\ (fails s' = fails s -> owned_by (mg_primary mg) r.2 = true)).
    destruct ok; (eapply runs_bind; [first [apply runs_report|apply runs_fail]|]); intros [] s2 Hg2 Hf2; apply runs_ret; cbn [snd].
    + split; [done|]. split; [by eapply version_ok_goes|done].
    + split; [done|]. split; [by eapply version_ok_goes|]. intros He. by rewrite He, Hf1 in Hf2.
  - intros r s' Hg [?|[-> Hne2]]; [done|]. cbn [snd]. split; [done|]. split; [by eapply version_ok_goes|done].
Qed.

Lemma still_missing_nil mg res v k :
  still_missing (missing_stores mg v) res = [] -> k ∈ mg_stores mg -> k ∈ result_keys res \/ has_copy_in k v = true.
Proof.
  intros Hn Hk. destruct (has_copy_in k v) eqn:Hh; [by right|left].
  destruct (decide (k ∈ result_keys res)) as [|Hout]; [done|]. exfalso.
  assert (k ∈ still_missing (missing_stores mg v) res) as Hin; [|rewrite Hn in Hin; by apply not_elem_of_nil in Hin].
  unfold still_missing, missing_stores. apply list_elem_of_In, filter_In. rewrite bool_decide_eq_false_2 by done. split; [|done].
  apply filter_In. rewrite Hh. split; [by apply list_elem_of_In|done].
Qed.

Lemma missing_none mg v : (forall k, k ∈ mg_stores mg -> has_copy_in k v = true) -> missing_stores mg v = [].
Proof.
  intros Hall. unfold missing_stores. apply List.incl_l_nil. intros k Hk. apply filter_In in Hk as [Hk Hn].
  rewrite Hall in Hn by (by apply list_elem_of_In). done.
Qed.

Lemma home_owned pk v : owned_by pk v = true -> home pk v = pk.
Proof. unfold home, owned_by. destruct (store v); [by intros ?%bool_decide_eq_true|done]. Qed.

(** The call that fills the missing stores: what it records are true copies. *)
Lemma copies_spec mg v bs s :
  cache_true (bf_cache s) -> owned_by (mg_primary mg) v = true -> true_version (mg_primary mg) (world s) (content (fv_id v)) bs v ->
  runs (fun s => in_store (mirror_parts mg (message_ids v) (some_nonempty (part_sizes v)) (Some (missing_stores mg v)) None
                                       (local_of bc (version_cache bc v) (bf_cache s))) s) s
    (fun res s' => res_ok (world s') (mg_stores mg) (mg_primary mg) bs res /\ fails s' = fails s).
Proof.
  intros Hcache Hown Ht. set (local := local_of bc (version_cache bc v) (bf_cache s)).
  assert (sources (world s) (mg_primary mg) (message_ids v) bs) as Hsrc.
  { pose proof (tv_ids _ _ _ _ _ Ht) as T3. rewrite home_owned in T3 by done. eapply Forall2_impl; [exact T3|]. by intros m b [_ ?]. }
  assert (forall sz, some_nonempty (part_sizes v) = Some sz -> zlen sz = zlen (message_ids v) -> sz = map zlen bs) as Hsz.
  { intros sz Hsz _. rewrite (tv_sizes _ _ _ _ _ Ht) in Hsz. unfold some_nonempty in Hsz. by destruct (map zlen bs); [|injection Hsz as <-]. }
  assert (forall l, local = Some l -> local_ok l (concat bs)) as Hlocal.
  { intros l Hl. rewrite (tv_content _ _ _ _ _ Ht). by apply (local_of_true v l (bf_cache s)). }
  pose proof (mirror_parts_spec mg _ _ (Some (missing_stores mg v)) local bs (world s) Hsrc Hsz Hlocal) as Hmp.
  assert (safe (mirror_parts mg (message_ids v) (some_nonempty (part_sizes v)) (Some (missing_stores mg v)) None local) (world s)
            (fun res w => res_ok w (mg_stores mg) (mg_primary mg) bs res)) as Hsafe
    by (unfold safe; destruct (mirror_parts _ _ _ _ _ _ _) as [[res|x] w']; by destruct Hmp as [Hk Hr]).
  pose proof (runs_in_store _ s _ Hsafe) as Hr. unfold runs in *. fold local.
  destruct (in_store _ s) as [[res|x] s']; destruct Hr as [Hg Hr]; [|done]. by destruct Hr as (? & ? & _).
Qed.

(** What is recorded of its result, and whether something is still missing. *)
Lemma record_copies_spec mg name v bs res changed vc s :
  version_ok mg s v -> owned_by (mg_primary mg) v = true -> true_version (mg_primary mg) (world s) (content (fv_id v)) bs v ->
  res_ok (world s) (mg_stores mg) (mg_primary mg) bs res ->
  let missing := still_missing (missing_stores mg v) res in
  runs (let! (changed, v) := (if nonempty (result_keys res) then report (add_report 0 0 1 0 0 0 []) ;;; sret (true, apply_to res v)
                              else sret (changed, v)) in
        (if nonempty missing then fail_with (about name v ("could not mirror to " +:+ String.concat ", " missing)) else release_cache bc vc) ;;;
        sret (changed, v)) s
    (fun r s' => fv_id r.2 = fv_id v /\ version_ok mg s' r.2 /\ (fails s' = fails s -> covered mg r.2)).
Proof.
  intros Hv Hown Ht Hres missing. destruct (Hv) as (Hne & Hc & _).
  assert (version_ok mg s (apply_to res v)) as Happ.
  { split; [done|]. split; [done|]. exists bs. eapply apply_true; [exact Hres|by apply home_owned|done]. }
  eapply (runs_bind _ _ _ (fun r s' => r.2 = apply_to res v \/ (result_keys res = [] /\ r.2 = v))).
  { destruct (nonempty (result_keys res)) eqn:Hn.
    - eapply runs_bind; [apply runs_report|]. intros [] s1 _ _. apply runs_ret. by left.
    - apply nonempty_false in Hn. apply runs_ret. by right. }
  intros [changed2 v2] s1 Hg1 Hv2. cbn [snd] in *.
  assert (fv_id v2 = fv_id v /\ version_ok mg s1 v2 /\ owned_by (mg_primary mg) v2 = true) as (Hid2 & Hok2 & Ho2)
    by (destruct Hv2 as [->|[_ ->]]; (split; [done|]); (split; [by eapply version_ok_goes|done])).
  assert (nonempty missing = false -> missing_stores mg v2 = []) as Hall.
  { intros Hsm%nonempty_false. apply missing_none. intros k Hk. pose proof (still_missing_nil mg res v k Hsm Hk) as Hor.
    destruct Hv2 as [->|[Hn ->]]; [by eapply apply_has_copy|]. rewrite Hn in Hor. destruct Hor as [?%not_elem_of_nil|]; done. }
  eapply (runs_bind _ _ _ (fun _ s' => fails s' = fails s -> missing_stores mg v2 = [])).
  { destruct (nonempty missing) eqn:Hsm.
    - eapply runs_weaken; [apply runs_fail|]. intros [] s2 Hg2 Hne2 He. by apply (fails_between s s1 s2) in He as [_ ?].
    - eapply runs_weaken; [apply release_true|]. intros [] s2 _ _ _. by apply Hall. }
  intros [] s2 Hg2 Hm2. apply runs_ret. cbn [snd]. split; [done|]. split; [by eapply version_ok_goes|]. intros He. by split; [|apply Hm2].
Qed.

Lemma backfill_version_spec mg name v s :
  cache_true (bf_cache s) -> version_ok mg s v ->
  runs (backfill_version bc mg name v) s (fun r s' => fv_id r.2 = fv_id v /\ version_ok mg s' r.2 /\
    (fails s' = fails s -> covered mg r.2)).
Proof.
  intros Hcache Hv. unfold backfill_version. eapply runs_bind; [apply runs_report|]. intros [] s1 Hg1 (Hf1 & _).
  eapply runs_bind; [apply promote_spec; by eapply version_ok_goes|]. intros [changed v1] s2 Hg2 (Hid & Hv1 & Ho). cbn [snd] in *.
  destruct (nonempty (missing_stores mg v1)) eqn:Hm; cbn [negb].
  2: { apply nonempty_false in Hm. eapply runs_bind; [apply release_true|]. intros [] s3 Hg3 [Hf3 _]. apply runs_ret. cbn [snd].
       split; [done|]. split; [by eapply version_ok_goes|]. intros He. split; [apply Ho; congruence|done]. }
  destruct (owned_by (mg_primary mg) v1) eqn:Hown; cbn [negb].
  2: { apply runs_ret. cbn [snd]. split; [done|]. split; [done|]. intros He. rewrite Hf1 in Ho. by specialize (Ho He). }
  destruct (Hv1) as (Hne & Hc & bs & Ht).
  eapply runs_bind; [apply copies_spec; [apply Hg2, Hg1, Hcache|done|exact Ht]|]. intros res s3 Hg3 [Hres Hf3].
  eapply runs_weaken; [apply (record_copies_spec mg name v1 bs res); [by eapply version_ok_goes|done|eapply true_kept; [apply Hg3|exact Ht]|done]|].
  intros r s4 Hg4 (Hid4 & Hv4 & Hcov). split; [congruence|]. split; [done|]. intros He. apply Hcov.
  apply (fails_between s s3 s4); [|done..]. eapply goes_trans; [exact Hg1|]. by eapply goes_trans.
Qed.

(** ** All versions of a file *)

(** Versions by their ids, every valid one with true copies. *)
Record desc_ok (mg : MirrorGroup) (s : state) (fd : TGFSFileDesc) : Prop := {
  dk_wf : Dict.wf (versions fd);
  dk_id : forall k v, Dict.get k (versions fd) = Some v -> fv_id v = k;
  dk_true : forall k v, Dict.get k (versions fd) = Some v -> is_valid v = true -> version_ok mg s v
}.

Lemma desc_ok_goes mg s s' fd : goes s s' -> desc_ok mg s fd -> desc_ok mg s' fd.
Proof. intros Hg [A1 A2 A3]. split; [done|done|]. intros k v Hk Hval. eapply version_ok_goes; [exact Hg|by eapply A3]. Qed.

(** [fd'] has the versions of [fd], each as [P] says; the others as before. *)
Definition reworked (ids : list string) (P : TGFSFileVersion -> Prop) (fd fd' : TGFSFileDesc) : Prop :=
  Dict.wf (versions fd') /\
  forall k, if bool_decide (k ∈ ids) then exists v', Dict.get k (versions fd') = Some v' /\ fv_id v' = k /\ P v'
            else Dict.get k (versions fd') = Dict.get k (versions fd).

Lemma reworked_nil (P : TGFSFileVersion -> Prop) fd : Dict.wf (versions fd) -> reworked [] P fd fd.
Proof. intros Hwf. split; [done|]. intros k. by rewrite bool_decide_eq_false_2 by apply not_elem_of_nil. Qed.

Lemma reworked_cons id ids (P : TGFSFileVersion -> Prop) v fd fd' :
  id ∉ ids -> fv_id v = id -> P v -> reworked ids P (update_version id v fd) fd' -> reworked (id :: ids) P fd fd'.
Proof.
  intros Hnin Hid Hv [Hwf Hr]. split; [done|]. intros k. specialize (Hr k). destruct (decide (k = id)) as [->|Hne].
  - rewrite bool_decide_eq_true_2 by left. rewrite bool_decide_eq_false_2 in Hr by done. exists v. split; [|done].
    rewrite Hr. apply Dict.get_set_eq.
  - destruct (decide (k ∈ ids)) as [Hin|Hout].
    + rewrite bool_decide_eq_true_2 by (by right). by rewrite bool_decide_eq_true_2 in Hr.
    + rewrite bool_decide_eq_false_2 by (intros [?|?]%elem_of_cons; done). rewrite bool_decide_eq_false_2 in Hr by done.
      rewrite Hr. by apply Dict.get_set_ne.
Qed.

Lemma reworked_weaken ids (P Q : TGFSFileVersion -> Prop) fd fd' :
  (forall v, fv_id v ∈ ids -> P v -> Q v) -> reworked ids P fd fd' -> reworked ids Q fd fd'.
Proof.
  intros Himp [Hwf Hr]. split; [done|]. intros k. specialize (Hr k). destruct (decide (k ∈ ids)) as [Hin|Hout].
  - rewrite bool_decide_eq_true_2 in * by done. destruct Hr as (v & ? & Hid & ?). exists v. split_and!; try done. apply Himp; [by rewrite Hid|done].
  - by rewrite bool_decide_eq_false_2 in * by done.
Qed.

Lemma update_wf id v fd : Dict.wf (versions fd) -> Dict.wf (versions (update_version id v fd)).
Proof. apply Dict.wf_set. Qed.

Lemma backfill_versions_spec mg name vs changed fd s :
  Dict.wf (versions fd) -> NoDup (map fv_id vs) -> cache_true (bf_cache s) -> Forall (version_ok mg s) vs ->
  runs (backfill_versions bc mg name vs changed fd) s (fun r s' =>
    reworked (map fv_id vs) (fun v => version_ok mg s' v /\ (fails s' = fails s -> covered mg v)) fd r.2).
Proof.
  revert changed fd s. induction vs as [|v vs IH]; intros changed fd s Hwf Hnd Hcache Hvs; cbn [backfill_versions map].
  { apply runs_ret. by apply reworked_nil. }
  apply NoDup_cons in Hnd as [Hnin Hnd]. apply Forall_cons in Hvs as [Hv Hvs].
  eapply runs_bind; [by apply backfill_version_spec|]. intros [c v1] s1 Hg1 (Hid & Hv1 & Hcov). cbn [snd] in *.
  eapply runs_weaken; [apply IH; [by apply update_wf|done|by apply Hg1|eapply Forall_impl; [exact Hvs|intros; by eapply version_ok_goes]]|].
  intros r s2 Hg2 Hr. rewrite Hid in Hr. eapply reworked_cons; [exact Hnin|exact Hid| |].
  - split; [by eapply version_ok_goes|]. intros He. apply Hcov. by apply (fails_between s s1 s2).
  - eapply reworked_weaken; [|exact Hr]. intros v' _ [Hok Hc]. split; [done|]. intros He. apply Hc. by apply (fails_between s s1 s2).
Qed.

(** ** Verification drops entries *)

Lemma drop_true pk w c bs k v :
  true_version pk w c bs v -> true_version pk w c bs (set_replicas (Dict.del k (replicas v)) (set_mirrors (Dict.del k (mirrors v)) v)).
Proof.
  intros [T1 T2 T3 T4 T5 T6]. split; try done.
  - change (home pk _) with (home pk v). cbn [set_replicas set_mirrors mirrors message_ids]. intros ids Hg. apply T4.
    destruct (decide (home pk v = k)) as [Hk|Hk]; [rewrite Hk, Dict.get_del_eq in Hg; done|]. by rewrite Dict.get_del_ne in Hg.
  - intros k' ids i m b Hin%dict_del_elem. by apply T5.
  - intros k' r Hin%dict_del_elem. by apply T6.
Qed.

Lemma runs_get_messages key ids s : runs (in_store (st_get_messages key ids)) s (fun _ s' => fails s' = fails s).
Proof.
  eapply runs_weaken; [apply (runs_in_store _ _ (fun _ _ => True))|by intros a s' _ (_ & ? & _)].
  unfold safe. pose proof (get_messages_law (world s) key ids) as Hl. destruct (st_get_messages key ids (world s)) as [[ms|x] w]; by destruct Hl as [Hk _].
Qed.

Lemma runs_stry {A} (m : st exn state A) (h : exn -> st exn state A) s (post : A -> state -> Prop) :
  runs m s post -> (forall x s', goes s s' -> runs (h x) s' post) -> runs (stry m h) s post.
Proof.
  unfold runs, stry. destruct (m s) as [[a|x] s1]; intros [Hg Hp] Hh; [done|]. specialize (Hh x s1 Hg).
  destruct (h x s1) as [r s2]. destruct Hh as [Hg2 Hr]. split; [by eapply goes_trans|done].
Qed.

Lemma runs_raise {A} x s (post : A -> state -> Prop) : runs (sraise x) s post.
Proof. split; [apply goes_refl|done]. Qed.

Lemma drop_ok mg s k v :
  version_ok mg s v -> version_ok mg s (set_replicas (Dict.del k (replicas v)) (set_mirrors (Dict.del k (mirrors v)) v)).
Proof. intros (? & ? & bs & Ht). split; [done|]. split; [done|]. exists bs. by apply drop_true. Qed.

Lemma verify_copies_spec mg copies v s :
  version_ok mg s v -> runs (verify_copies mg copies v) s (fun v' s' => fv_id v' = fv_id v /\ version_ok mg s' v').
Proof.
  revert v s. induction copies as [|[key ids] copies IH]; intros v s Hv; cbn [verify_copies]; [by apply runs_ret|].
  destruct (bool_decide (store v = Some key)); [by apply IH|]. destruct (group_store mg key) as [api|]; [|by apply IH].
  destruct (negb _); [by apply IH|].
  eapply (runs_bind _ _ _ (fun _ _ => True)).
  - apply runs_stry; [|intros x s' _; destruct (is_Exception x); [by apply runs_ret|apply runs_raise]].
    eapply runs_bind; [apply runs_get_messages|]. intros ms s' _ _. by apply runs_ret.
  - intros whole s1 Hg1 _. eapply runs_weaken; [apply IH; destruct whole; [|apply drop_ok]; by eapply version_ok_goes|].
    intros v' s2 _ [Hid Hok]. split; [by destruct whole|done].
Qed.

Lemma verify_versions_spec mg vs fd s :
  Dict.wf (versions fd) -> NoDup (map fv_id vs) -> Forall (version_ok mg s) vs ->
  runs (verify_versions mg vs fd) s (fun fd' s' => reworked (map fv_id vs) (version_ok mg s') fd fd').
Proof.
  revert fd s. induction vs as [|v vs IH]; intros fd s Hwf Hnd Hvs; cbn [verify_versions map].
  { apply runs_ret. by apply reworked_nil. }
  apply NoDup_cons in Hnd as [Hnin Hnd]. apply Forall_cons in Hvs as [Hv Hvs].
  eapply runs_bind; [by apply verify_copies_spec|]. intros v1 s1 Hg1 [Hid Hv1].
  eapply runs_weaken; [apply IH; [by apply update_wf|done|eapply Forall_impl; [exact Hvs|intros; by eapply version_ok_goes]]|].
  intros fd' s2 Hg2 Hr. rewrite Hid in Hr. eapply reworked_cons; [exact Hnin|exact Hid| |exact Hr]. by eapply version_ok_goes.
Qed.

(** ** Saving the descriptor *)

Definition live_kept {A} (m : st exn (Live W) A) (Q : A -> Prop) : Prop := forall l,
  let '(r, l') := m l in docs_kept (lv_world l) (lv_world l') /\ match r with Ok a => Q a | Raise _ => True end.

Lemma live_ret {A} (a : A) (Q : A -> Prop) : Q a -> live_kept (sret a) Q.
Proof. intros Hq l. split; [apply docs_kept_refl|done]. Qed.

Lemma live_bind {A B} (m : st exn (Live W) A) (k : A -> st exn (Live W) B) Q Q' :
  live_kept m Q -> (forall a, Q a -> live_kept (k a) Q') -> live_kept (sbind m k) Q'.
Proof.
  intros Hm Hk l. specialize (Hm l). unfold sbind. destruct (m l) as [[a|x] l1]; destruct Hm as [Hd Hq]; [|done].
  specialize (Hk a Hq l1). destruct (k a l1) as [r l2]. destruct Hk as [Hd2 Hr]. split; [by eapply docs_kept_trans|done].
Qed.

Lemma live_lift {A} (r : exc A) : live_kept (slift r) (fun _ => True).
Proof. intros l. unfold slift. split; [apply docs_kept_refl|by destruct r]. Qed.

Lemma live_onw {A} (m : st exn W A) : (forall w, docs_kept w (m w).2) -> live_kept (onw m) (fun _ => True).
Proof. intros Hm [w d]. unfold onw. cbn [lv_world]. specialize (Hm w). destruct (m w) as [r w']. by split; [|destruct r]. Qed.

Lemma live_stry {A} (m : st exn (Live W) A) (h : exn -> st exn (Live W) A) Q :
  live_kept m Q -> (forall x, live_kept (h x) Q) -> live_kept (stry m h) Q.
Proof.
  intros Hm Hh l. specialize (Hm l). unfold stry. destruct (m l) as [[a|x] l1]; destruct Hm as [Hd Hq]; [done|].
  specialize (Hh x l1). destruct (h x l1) as [r l2]. destruct Hh as [Hd2 Hr]. split; [by eapply docs_kept_trans|done].
Qed.

Lemma mirror_fd_docs mg text existing (w : W) : docs_kept w (mirror_fd mg text existing w).2.
Proof.
  unfold mirror_fd. generalize (default [] existing) as res, (mg_stores mg) as stores. intros res stores. revert res w.
  induction stores as [|key stores IH]; intros res w; simpl; [apply docs_kept_refl|].
  pose proof (mirror_fd_one_spec key text res w) as Hone. destruct (mirror_fd_one key text res w) as [[res1|x] w1]; destruct Hone as (Hk & _).
  - eapply docs_kept_trans; [exact Hk|apply IH].
  - unfold on_write_error. destruct (is_Exception x); [|exact Hk]. unfold sbind, handle_write_error.
    destruct (mg_strict mg); [by destruct (is_TechnicalError x)|]. eapply docs_kept_trans; [exact Hk|apply IH].
Qed.

Lemma mirror_descriptor_docs fc fd existing : live_kept (mirror_descriptor fc fd existing) (fun _ => True).
Proof.
  unfold mirror_descriptor. destruct (fc_group fc); [|by apply live_ret]. eapply live_bind; [apply live_lift|]. intros text _.
  apply live_onw. intros w. apply mirror_fd_docs.
Qed.

Lemma send_text_docs key text : live_kept (onw (st_send_text key text)) (fun _ => True).
Proof. apply live_onw. intros w. pose proof (send_text_law w key text) as Hl. destruct (st_send_text key text w) as [r w']. by destruct Hl. Qed.

Lemma edit_text_docs key m text : live_kept (onw (st_edit_text key m text)) (fun _ => True).
Proof. apply live_onw. intros w. pose proof (edit_text_law w key m text) as Hl. destruct (st_edit_text key m text w) as [r w']. by destruct Hl. Qed.

Lemma send_descriptor_docs fc fd existing : live_kept (send_descriptor fc fd existing) (fun resp => rp_fd resp = fd).
Proof.
  unfold send_descriptor. eapply live_bind; [apply live_lift|]. intros text _. eapply live_bind; [apply send_text_docs|]. intros mid _.
  eapply live_bind; [apply mirror_descriptor_docs|]. intros ms _. by apply live_ret.
Qed.

Lemma stamp_stamp fc fd : stamp fc (stamp fc fd) = stamp fc fd.
Proof.
  unfold stamp, with_versions. cbn [versions fd_name latest_version_id created_at complete]. f_equal. rewrite map_map. apply map_ext. intros [k v]. cbn [fst snd].
  f_equal. unfold stamp_version. destruct (bool_decide (store v = None) && is_valid v) eqn:Hc; [|by rewrite Hc].
  cbn [set_store store]. by rewrite bool_decide_eq_false_2.
Qed.

Lemma fd_save_docs fc fd fr : live_kept (fd_save fc fd fr) (fun resp => rp_fd resp = stamp fc fd).
Proof.
  unfold fd_save. destruct fr as [fr|]; [|apply send_descriptor_docs]. destruct (negb _); [apply send_descriptor_docs|].
  apply live_stry.
  - eapply live_bind; [apply live_lift|]. intros text _. eapply live_bind; [apply edit_text_docs|]. intros mid _.
    eapply live_bind; [apply mirror_descriptor_docs|]. intros ms _. by apply live_ret.
  - intros x. destruct x; try (intros l; split; [apply docs_kept_refl|done]). rewrite stamp_stamp. apply send_descriptor_docs.
Qed.

(** Functions of the state that only read the tree or change a ref. *)
Lemma runs_heap {A} (m : hst A) s : runs (on_fs (on_heap m)) s (fun _ _ => True).
Proof.
  eapply runs_weaken; [apply (runs_aside _ s (fun _ => True)); [|done]|done]. intros f. unfold on_heap. by destruct (m (fs_heap f)).
Qed.

Lemma runs_read_heap s : runs (on_fs the_heap) s (fun _ _ => True).
Proof. by eapply runs_weaken; [apply (runs_aside _ s (fun _ => True))|]. Qed.

Lemma sync_ref_spec fr resp s : runs (sync_ref fr resp) s (fun _ _ => True).
Proof.
  eapply runs_weaken; [apply (runs_aside _ s (fun _ => True)); [|done]|done]. intros f. unfold sbind, the_heap, on_heap.
  destruct (_ || _); [|done]. by destruct (modify_ref _ _ _).
Qed.

Local Abbreviation fc := (ac_fd (bc_api bc)).

Lemma save_and_sync_spec fr fd s : runs (save_and_sync bc fr fd) s (fun fd' _ => fd' = stamp fc fd).
Proof.
  unfold save_and_sync. eapply (runs_bind _ _ _ (fun resp _ => rp_fd resp = stamp fc fd)).
  - unfold runs, on_fs, save_file_desc, sbind, the_heap, on_live, world. destruct s as [f c t r]. cbn [bf_fs].
    pose proof (fd_save_docs fc fd (option_map (ref_at (fs_heap f)) (Some fr)) (fs_live f)) as Hs.
    destruct (fd_save _ _ _ _) as [[resp|x] l]; destruct Hs as [Hd Hr]; (split; [split; [done|done|exists []; by rewrite app_nil_r]|done]).
  - intros resp s1 _ Hr. eapply runs_bind; [apply sync_ref_spec|]. intros _ s2 _ _. by apply runs_ret.
Qed.

(** Stamping tells the store and nothing else. *)
Lemma stamp_true mg w c bs v :
  fc_key fc = mg_primary mg -> true_version (mg_primary mg) w c bs v -> true_version (mg_primary mg) w c bs (stamp_version fc v).
Proof.
  intros Hpk Ht. unfold stamp_version. destruct (bool_decide (store v = None) && is_valid v) eqn:Hs; [|done].
  apply andb_prop in Hs as [Hst%bool_decide_eq_true _]. destruct Ht as [T1 T2 T3 T4 T5 T6]. unfold home in *. rewrite Hst in *.
  split; try done; unfold home; cbn [set_store store]; by rewrite Hpk.
Qed.

Lemma stamp_valid v : message_ids (stamp_version fc v) = message_ids v.
Proof. unfold stamp_version. by destruct (_ && _). Qed.

Lemma stamp_covered mg v : fc_key fc = mg_primary mg -> covered mg v -> covered mg (stamp_version fc v).
Proof.
  intros Hpk [Ho Hm]. unfold stamp_version. destruct (bool_decide (store v = None) && is_valid v) eqn:Hs; [|done]. split.
  - unfold owned_by. cbn [set_store store]. by apply bool_decide_eq_true.
  - apply missing_none. intros k Hk. apply andb_prop in Hs as [Hst%bool_decide_eq_true _]. rewrite has_copy_in_spec.
    assert (has_copy_in k v = true) as Hh.
    { destruct (has_copy_in k v) eqn:Hh; [done|]. assert (In k (missing_stores mg v)) as Hin; [|by rewrite Hm in Hin].
      unfold missing_stores. apply filter_In. split; [by apply list_elem_of_In|by rewrite Hh]. }
    apply has_copy_in_spec in Hh as [[Hn _]|?]; [by rewrite Hst in Hn|by right].
Qed.

Lemma stamp_ok mg s fd : fc_key fc = mg_primary mg -> desc_ok mg s fd -> desc_ok mg s (stamp fc fd).
Proof.
  intros Hpk [A1 A2 A3]. split.
  - unfold Dict.wf, stamp, with_versions in *. cbn [versions]. by rewrite dict_keys_map.
  - intros k v (v0 & Hg & ->)%stamp_get_inv. destruct (stamp_version_fields fc v0) as [-> _]. by apply A2.
  - intros k v (v0 & Hg & ->)%stamp_get_inv Hval. unfold version_ok. rewrite stamp_valid. destruct (stamp_version_fields fc v0) as [-> _].
    assert (is_valid v0 = true) as Hv0 by (unfold is_valid in *; by rewrite stamp_valid in Hval).
    destruct (A3 k v0 Hg Hv0) as (? & ? & bs & Ht). split; [done|]. split; [done|]. exists bs. by apply stamp_true.
Qed.

(** ** The part of a group *)

(** The ids of the valid versions, in the order they are visited. *)
Lemma valid_ids mg s fd :
  desc_ok mg s fd -> let vs := get_versions false true fd in
  NoDup (map fv_id vs) /\ Forall (version_ok mg s) vs /\
  forall k v, Dict.get k (versions fd) = Some v -> is_valid v = true -> k ∈ map fv_id vs.
Proof.
  intros [A1 A2 A3] vs.
  assert (forall v, v ∈ vs -> exists k, Dict.get k (versions fd) = Some v /\ is_valid v = true) as Hvs.
  { intros v [Hin Hval]%list_elem_of_In%filter_In. unfold Dict.values in Hin. apply in_map_iff in Hin as ([k x] & <- & Hin).
    exists k. split; [by apply Dict.In_get|done]. }
  split; [|split].
  - unfold vs, get_versions. assert (map fv_id (Dict.values (versions fd)) = Dict.keys (versions fd)) as Hids.
    { unfold Dict.values, Dict.keys. rewrite map_map. apply map_ext_in. intros [k v] Hin. cbn [fst snd]. apply A2. by apply Dict.In_get. }
    assert (NoDup (map fv_id (Dict.values (versions fd)))) as Hnd by (by rewrite Hids). revert Hnd. generalize (Dict.values (versions fd)) as l.
    induction l as [|v l IH]; simpl; [done|]. intros [Hn Hnd]%NoDup_cons. destruct (is_valid v); simpl; [|by apply IH].
    apply NoDup_cons. split; [|by apply IH]. intros Hin. apply Hn. apply list_elem_of_In, in_map_iff in Hin as (x & Hx & [Hin _]%filter_In).
    apply list_elem_of_In, in_map_iff. eauto.
  - apply Forall_forall. intros v Hin. destruct (Hvs v Hin) as (k & Hg & Hval). by eapply A3.
  - intros k v Hg Hval. apply list_elem_of_In, in_map_iff. exists v. split; [by apply A2|]. apply filter_In. split; [|done].
    apply Dict.get_Some_In in Hg. unfold Dict.values. apply in_map_iff. by exists (k, v).
Qed.

(** What became of the valid versions of [fd]. *)
Lemma reworked_ok mg s s' fd fd' (P : TGFSFileVersion -> Prop) :
  desc_ok mg s fd -> goes s s' -> (forall v, P v -> version_ok mg s' v) -> reworked (map fv_id (get_versions false true fd)) P fd fd' ->
  desc_ok mg s' fd' /\
  (forall k v, Dict.get k (versions fd) = Some v -> is_valid v = true -> exists v', Dict.get k (versions fd') = Some v' /\ is_valid v' = true) /\
  (forall k v, Dict.get k (versions fd') = Some v -> is_valid v = true -> P v).
Proof.
  intros Hok Hg HP [Hwf Hr]. destruct (valid_ids mg s fd Hok) as (_ & _ & Hin). destruct Hok as [A1 A2 A3].
  assert (forall k v, Dict.get k (versions fd') = Some v -> fv_id v = k /\ (is_valid v = true -> P v)) as Hall.
  { intros k v Hk. specialize (Hr k). destruct (decide (k ∈ map fv_id (get_versions false true fd))) as [Hi|Hi].
    - rewrite bool_decide_eq_true_2 in Hr by done. destruct Hr as (v' & Hg' & Hid & Hp). rewrite Hk in Hg'. by injection Hg' as <-.
    - rewrite bool_decide_eq_false_2 in Hr by done. rewrite Hr in Hk. split; [by apply A2|]. intros Hval. exfalso. by eapply Hi, Hin. }
  split; [split; [done|intros k v Hk; by apply Hall|intros k v Hk Hval; apply HP; exact (proj2 (Hall k v Hk) Hval)]|]. split; [|intros k v Hk; exact (proj2 (Hall k v Hk))].
  intros k v Hk Hval. specialize (Hr k). rewrite bool_decide_eq_true_2 in Hr by (by eapply Hin). destruct Hr as (v' & Hg' & _ & Hp).
  exists v'. split; [done|]. destruct (HP v' Hp) as [Hne _]. unfold is_valid. by destruct (message_ids v').
Qed.

(** What a run that began with [fd] in [s] has made of it. *)
Definition completed (mg : MirrorGroup) (s : state) (fd fd' : TGFSFileDesc) (s' : state) : Prop :=
  desc_ok mg s' fd' /\
  (forall k v, Dict.get k (versions fd) = Some v -> is_valid v = true -> exists v', Dict.get k (versions fd') = Some v' /\ is_valid v' = true) /\
  (fails s' = fails s -> forall k v, Dict.get k (versions fd') = Some v -> is_valid v = true -> covered mg v).

Lemma completed_stamp mg s fd fd' s1 s2 :
  fc_key fc = mg_primary mg -> goes s s1 -> goes s1 s2 -> completed mg s fd fd' s1 -> completed mg s fd (stamp fc fd') s2.
Proof.
  intros Hpk Hg1 Hg2 (Hok & Hkept & Hcov). split; [|split].
  - apply stamp_ok; [done|]. by eapply desc_ok_goes.
  - intros k v Hk Hval. destruct (Hkept k v Hk Hval) as (v' & Hg & Hv'). exists (stamp_version fc v'). rewrite stamp_get, Hg. split; [done|].
    unfold is_valid. by rewrite stamp_valid.
  - intros He k v (v0 & Hg & ->)%stamp_get_inv Hval. apply stamp_covered; [done|]. unfold is_valid in Hval. rewrite stamp_valid in Hval.
    apply (Hcov ltac:(by apply (fails_between s s1 s2)) k v0 Hg Hval).
Qed.

Lemma verify_spec mg (verify : bool) fd s :
  desc_ok mg s fd ->
  runs (if verify then verify_mirrors mg fd else sret fd) s (fun fd' s' => desc_ok mg s' fd' /\
    (forall k v, Dict.get k (versions fd) = Some v -> is_valid v = true -> exists v', Dict.get k (versions fd') = Some v' /\ is_valid v' = true)).
Proof.
  intros Hok. destruct verify; [|apply runs_ret; split; [done|eauto]]. destruct (valid_ids mg s fd Hok) as (Hnd & Hvs & _).
  eapply runs_weaken; [apply verify_versions_spec; [apply Hok|exact Hnd|exact Hvs]|]. intros fd' s' Hg Hr.
  destruct (reworked_ok mg s s' fd fd' _ Hok Hg ltac:(by intros v Hp; exact Hp) Hr) as (? & ? & _). done.
Qed.

Lemma backfill_group_spec mg fr verify fd s :
  fc_key fc = mg_primary mg -> desc_ok mg s fd -> cache_true (bf_cache s) ->
  runs (backfill_group bc mg fr verify fd) s (completed mg s fd).
Proof.
  intros Hpk Hok Hcache. unfold backfill_group. eapply runs_bind; [by apply verify_spec|]. intros fd1 s1 Hg1 [Hok1 Hkept1].
  eapply runs_bind; [apply runs_read_heap|]. intros h s2 Hg2 _.
  pose proof (desc_ok_goes _ _ _ _ Hg2 Hok1) as Hok2.
  destruct (valid_ids mg s2 fd1 Hok2) as (Hnd & Hvs & _).
  eapply runs_bind; [apply backfill_versions_spec; [apply Hok2|exact Hnd|apply Hg2, Hg1, Hcache|exact Hvs]|].
  intros [changed fd3] s3 Hg3 Hr. cbn [snd] in Hr.
  destruct (reworked_ok mg s2 s3 fd1 fd3 (fun v => version_ok mg s3 v /\ (fails s3 = fails s2 -> covered mg v)) Hok2 Hg3 ltac:(by intros v [Hp _]) Hr) as (Hok3 & Hkept3 & Hcov3).
  assert (goes s s2) as Hg02 by (by eapply goes_trans).
  assert (completed mg s fd fd3 s3) as Hdone.
  { split; [done|]. split.
    - intros k v Hk Hval. destruct (Hkept1 k v Hk Hval) as (v1 & Hk1 & Hv1). by eapply Hkept3.
    - intros He k v Hk Hval. destruct (Hcov3 k v Hk Hval) as [_ Hc]. apply Hc. by apply (fails_between s s2 s3). }
  assert (goes s s3) as Hg03 by (by eapply goes_trans).
  eapply (runs_bind _ _ _ (fun _ _ => True)); [apply runs_read_heap|]. intros h' s4 Hg4 _.
  destruct (changed || _).
  - eapply runs_bind; [apply save_and_sync_spec|]. intros fd5 s5 Hg5 ->.
    eapply runs_bind; [apply runs_report|]. intros [] s6 Hg6 _. apply runs_ret.
    apply (completed_stamp mg s fd fd3 s3 s6 Hpk Hg03); [|done]. eapply goes_trans; [exact Hg4|]. by eapply goes_trans.
  - apply runs_ret. destruct Hdone as (Hok' & Hkept & Hcov). split; [by eapply desc_ok_goes|]. split; [done|].
    intros He. apply Hcov. by apply (fails_between s s3 s4).
Qed.

(** ** The theorem *)

(** C33: Let the descriptor of a file be read, its versions all be in the
    stores, and every copy a version names be a true one.  Then
    [backfill_file] loses nothing that is stored, keeps every version and
    leaves every copy it names -- the ones it has made, the ones that moved
    with the version to another primary, what a verification has left -- a
    true one; and if it reports no failure, every version is in the current
    primary and has a copy in every mirror store. *)
Theorem backfill_file_complete mg fr verify fd s s1 :
  fc_group fc = Some mg -> fc_key fc = mg_primary mg ->
  on_fs (get_file_desc (bc_api bc) fr true true) s = (Ok fd, s1) ->
  List.filter pending (get_versions false false fd) = [] ->
  desc_ok mg s1 fd -> cache_true (bf_cache s1) ->
  let '(r, s') := backfill_file bc fr verify s in
  docs_kept (world s1) (world s') /\ cache_true (bf_cache s') /\
  match r with Ok fd' => completed mg s1 fd fd' s' | Raise _ => True end.
Proof.
  intros Hgrp Hpk Hget Hpend Hok Hcache.
  assert (backfill_file bc fr verify s = (if negb (nonempty (get_versions false false fd)) then sret fd else backfill_group bc mg fr verify fd) s1) as ->.
  { unfold backfill_file. unfold sbind at 1. rewrite Hget. destruct (negb _); [done|]. rewrite Hpend, Hgrp. done. }
  assert (runs (if negb (nonempty (get_versions false false fd)) then sret fd else backfill_group bc mg fr verify fd) s1 (completed mg s1 fd)) as Hrun.
  { destruct (nonempty (get_versions false false fd)) eqn:Hn; cbn [negb]; [by apply backfill_group_spec|]. apply runs_ret.
    apply nonempty_false in Hn. split; [done|]. split; [eauto|]. intros _ k v Hk _. exfalso.
    apply Dict.get_Some_In in Hk. unfold get_versions, Dict.values in Hn. by destruct (versions fd). }
  unfold runs in Hrun. destruct (_ s1) as [r s'] in *. destruct Hrun as [[Hd Hc _] Hr]. split; [done|]. split; [by apply Hc|done].
Qed.
End Backfilled.

(** ** Witness *)

Definition backfilled_version : TGFSFileVersion :=
  {| fv_id := "v"; updated_at := fromtimestamp_ms 1; fv_size_field := INVALID_FILE_SIZE; message_ids := [41; 42]; part_sizes := [3; 2];
     mirrors := []; replicas := []; store := Some "tg:1"; pending := false; cacheable := true; recorded_size := 5 |}%string.

(** The file [/g], with its descriptor and both parts in the primary only. *)
Definition unmirrored_world : MemWorld :=
  {| mw_docs := [("tg:1", 41, [x61; x62; x63]); ("tg:1", 42, [x64; x65])]%string; mw_down := [];
     mw_texts := [("tg:1"%string, 12, match fd_to_json (demo_desc "v" [backfilled_version]) with Ok t => t | Raise _ => EmptyString end)];
     mw_next := 100; mw_clock := 5 |}.

Definition unmirrored : Backfilling MemWorld Pinned :=
  {| bf_fs := with_live {| lv_world := unmirrored_world; lv_dead_until := 0 |} demo_fs;
     bf_cache := LocalCacheProps.empty_cache {| dk_data := ∅; dk_map := ∅; dk_index := None; dk_os := fun _ => Some 0; dk_free := fun _ => None; dk_calls := 0 |};
     bf_tasks := []; bf_report := new_report |}.

Definition demo_backfill : BackfillConfig :=
  {| bc_api := {| ac_fd := demo_repo; ac_inline_mirroring := false; ac_written_gaps_only := false; ac_write_ack_cache := false;
                  ac_persist := true; ac_validate := true |};
     bc_name := "notes"; bc_cache := None; bc_plan_parts := fun n => [n]; bc_now := 0 |}.

Definition unmirrored_desc : TGFSFileDesc :=
  {| fd_name := "g"; latest_version_id := "v"; created_at := demo_now; versions := [("v"%string, backfilled_version)]; FileVersion.complete := true |}.

Lemma unmirrored_ok (s : Backfilling MemWorld Pinned) : lv_world (fs_live (bf_fs s)) = unmirrored_world -> desc_ok (fun _ => concat demo_parts) demo_group s unmirrored_desc.
Proof.
  intros Hw. split; [apply NoDup_singleton| |]; intros k v; cbn; (case_decide as Hk; [|done]); intros [= <-]; [by subst k|]. intros _.
  split; [done|]. split; [done|]. exists demo_parts. unfold world. rewrite Hw. split; try done.
  - by repeat constructor.
  - by intros k' ids i m b Hin%not_elem_of_nil.
  - by intros k' r Hin%not_elem_of_nil.
Qed.

Lemma backfill_file_complete_witness :
  match backfill_file demo_backfill 1 true unmirrored with
  | (Ok fd', s') => exists v bs, Dict.get "v"%string (versions fd') = Some v /\ covered demo_group v /\
                      true_version "tg:1" (world s') (concat demo_parts) bs v
  | (Raise _, _) => False
  end.
Proof.
  assert ((on_fs (get_file_desc (bc_api demo_backfill) 1 true true) unmirrored).1 = Ok unmirrored_desc) as Hread by (vm_compute; reflexivity).
  destruct (on_fs _ unmirrored) as [r s1] eqn:Hget. cbn [fst] in Hread. subst r.
  assert (lv_world (fs_live (bf_fs s1)) = unmirrored_world) as Hw by (apply (f_equal snd) in Hget; cbn [snd] in Hget; rewrite <- Hget; vm_compute; reflexivity).
  pose proof (backfill_file_complete demo_backfill (fun _ => concat demo_parts) ltac:(by intros cfg) demo_group 1 true unmirrored_desc unmirrored s1
    eq_refl eq_refl Hget eq_refl (unmirrored_ok s1 Hw) I) as Hc.
  assert (is_ok (backfill_file demo_backfill 1 true unmirrored).1 = true) as Hok by (vm_compute; reflexivity).
  assert (fails (backfill_file demo_backfill 1 true unmirrored).2 = []) as Hf by (vm_compute; reflexivity).
  destruct (backfill_file demo_backfill 1 true unmirrored) as [[fd'|x] s']; [|done]. destruct Hc as (_ & _ & Hok' & Hkept & Hcov). cbn [snd] in Hf.
  destruct (Hkept "v"%string backfilled_version eq_refl eq_refl) as (v & Hg & Hval).
  destruct (dk_true _ _ _ _ Hok' _ _ Hg Hval) as (_ & _ & bs & Ht). exists v, bs. split; [done|]. split; [|exact Ht].
  apply (Hcov ltac:(rewrite Hf; apply (f_equal snd) in Hget; cbn [snd] in Hget; rewrite <- Hget; vm_compute; reflexivity) _ _ Hg Hval).
Defined.
