(* ===== verification/Replication.v ===== *)
(** * Background replication ([tgdcfs/core/replication.py])

    A write under [sync: background] records the version in the primary and
    queues the file's path; a worker copies what is missing.  The queue is a
    dictionary per file system, saved as a JSON file after every change; the
    worker runs while writers go on queueing, so what they do during one
    item's copying is an argument of [process_one].

    Times are milliseconds; [now] is [time.time()].  The JSON text is its
    content: what [json.dump] wrote is what [json.load] reads. *)

From S2P Require Import Prelude Errors FileVersion PosixPath FileRefs Directory Ops.

Open Scope Z_scope.
Open Scope py_scope.

Definition RETRY_BASE : Z := 15000.
Definition RETRY_MAX : Z := 900000.

(** ** Paths *)

Definition file_path (h : heap) (r : nat) : exc string :=
  let* p := absolute_path h (fr_location (ref_at h r)) in Ok (p +:+ "/" +:+ name_of h r)%string.

Fixpoint walk_dirs (h : heap) (node : nat) (names : list string) : option nat :=
  match names with
  | [] => Some node
  | name :: names =>
      match find_dirs h node [name] with
      | [] => None
      | d :: _ => walk_dirs h d names
      end
  end.

(** The replication's [find_file]. *)
Definition queued_file (h : heap) (root : nat) (path : string) : option nat :=
  match rev (List.filter (fun p => negb (bool_decide (p = EmptyString))) (split_slash path)) with
  | [] => None
  | name :: dirs =>
      match walk_dirs h root (rev dirs) with
      | None => None
      | Some node => match find_files h node [name] with [] => None | r :: _ => Some r end
      end
  end.

(** ** The queue *)

Record QueueItem := {
  qi_path : string;
  qi_queued_at : Z;
  qi_attempts : Z;
  qi_last_error : option string;
  qi_not_before : Z
}.

Definition new_item (path : string) (now : Z) : QueueItem :=
  {| qi_path := path; qi_queued_at := now; qi_attempts := 0; qi_last_error := None; qi_not_before := 0 |}.

(** An item of the file; all but the path may be missing. *)
Record SavedItem := { si_path : string; si_queued_at : option Z; si_attempts : option Z; si_last_error : option string }.

Definition item_to_dict (i : QueueItem) : SavedItem :=
  {| si_path := qi_path i; si_queued_at := Some (qi_queued_at i); si_attempts := Some (qi_attempts i);
     si_last_error := qi_last_error i |}.

Definition item_of (now : Z) (s : SavedItem) : QueueItem :=
  {| qi_path := si_path s; qi_queued_at := default now (si_queued_at s); qi_attempts := default 0 (si_attempts s);
     qi_last_error := si_last_error s; qi_not_before := 0 |}.

(** The file at [path]: absent, not readable as JSON, or its content. *)
Inductive queue_file := NoFile | Unreadable | Saved (data : dict string (list SavedItem)).

Record ReplicationQueue := {
  rq_path : option string;
  rq_items : dict string (dict string QueueItem);
  rq_wakeups : dict string bool;                 (* the events, set or not *)
  rq_file : queue_file;
  rq_writable : bool                             (* whether writing the file succeeds *)
}.

Definition set_items (i : dict string (dict string QueueItem)) (q : ReplicationQueue) : ReplicationQueue :=
  {| rq_path := rq_path q; rq_items := i; rq_wakeups := rq_wakeups q; rq_file := rq_file q; rq_writable := rq_writable q |}.
Definition set_wakeups (w : dict string bool) (q : ReplicationQueue) : ReplicationQueue :=
  {| rq_path := rq_path q; rq_items := rq_items q; rq_wakeups := w; rq_file := rq_file q; rq_writable := rq_writable q |}.
Definition set_file (f : queue_file) (q : ReplicationQueue) : ReplicationQueue :=
  {| rq_path := rq_path q; rq_items := rq_items q; rq_wakeups := rq_wakeups q; rq_file := f; rq_writable := rq_writable q |}.

(** [if not self.path]. *)
Definition persistent (q : ReplicationQueue) : bool :=
  match rq_path q with Some p => negb (bool_decide (p = EmptyString)) | None => false end.

Definition items_of (fs : string) (q : ReplicationQueue) : dict string QueueItem := default [] (Dict.get fs (rq_items q)).

Definition load_one (now : Z) (fs : string) (acc : dict string (dict string QueueItem)) (s : SavedItem)
  : dict string (dict string QueueItem) :=
  Dict.set fs (Dict.set (si_path s) (item_of now s) (default [] (Dict.get fs acc))) acc.

(** [_load]. *)
Definition load_queue (now : Z) (q : ReplicationQueue) : ReplicationQueue :=
  if persistent q then
    match rq_file q with
    | NoFile | Unreadable => q
    | Saved data => set_items (foldl (fun acc fi => foldl (load_one now fi.1) acc fi.2) (rq_items q) data) q
    end
  else q.

Definition queue_data (q : ReplicationQueue) : dict string (list SavedItem) :=
  map (fun fi => (fi.1, map (fun pi => item_to_dict pi.2) fi.2))
    (List.filter (fun fi => nonempty fi.2) (rq_items q)).

(** [_save]: a disk error only costs the file. *)
Definition save_queue (q : ReplicationQueue) : ReplicationQueue :=
  if persistent q && rq_writable q then set_file (Saved (queue_data q)) q else q.

Definition wakeup (fs : string) (q : ReplicationQueue) : ReplicationQueue :=
  set_wakeups (Dict.setdefault fs false (rq_wakeups q)) q.
Definition wakeup_set (fs : string) (q : ReplicationQueue) : ReplicationQueue :=
  set_wakeups (Dict.set fs true (rq_wakeups (wakeup fs q))) q.

Definition enqueue (fs path : string) (now : Z) (q : ReplicationQueue) : ReplicationQueue :=
  let items := items_of fs q in
  let q := set_items (Dict.setdefault fs [] (rq_items q)) q in
  let q := if Dict.mem path items then q
           else save_queue (set_items (Dict.set fs (Dict.set path (new_item path now) items) (rq_items q)) q) in
  wakeup_set fs q.

Definition pending (fs : string) (q : ReplicationQueue) : list QueueItem := sort_by qi_queued_at (Dict.values (items_of fs q)).

Definition ready (fs : string) (now : Z) (q : ReplicationQueue) : list QueueItem :=
  List.filter (fun i => qi_not_before i <=? now) (pending fs q).

Definition done (fs path : string) (q : ReplicationQueue) : ReplicationQueue :=
  let items := items_of fs q in
  if Dict.mem path items then save_queue (set_items (Dict.set fs (Dict.del path items) (rq_items q)) q) else q.

(** [RETRY_BASE_SECONDS * 2 ** (attempts - 1)]: an [int] of more than 1024
    bits does not fit a [float]. *)
Definition backoff (attempts : Z) : exc Z :=
  if 1024 <=? attempts - 1 then Raise OverflowError else Ok (Z.min (RETRY_BASE * 2 ^ (attempts - 1)) RETRY_MAX).

Definition update_item (fs path : string) (i : QueueItem) (q : ReplicationQueue) : ReplicationQueue :=
  set_items (Dict.set fs (Dict.set path i (items_of fs q)) (rq_items q)) q.

Definition failed (fs path error : string) (now : Z) (q : ReplicationQueue) : exc unit * ReplicationQueue :=
  match Dict.get path (items_of fs q) with
  | None => (Ok tt, q)
  | Some i =>
      let i := {| qi_path := qi_path i; qi_queued_at := qi_queued_at i; qi_attempts := qi_attempts i + 1;
                  qi_last_error := Some error; qi_not_before := qi_not_before i |} in
      match backoff (qi_attempts i) with
      | Raise ex => (Raise ex, update_item fs path i q)
      | Ok wait =>
          let i := {| qi_path := qi_path i; qi_queued_at := qi_queued_at i; qi_attempts := qi_attempts i;
                      qi_last_error := qi_last_error i; qi_not_before := now + wait |} in
          (Ok tt, save_queue (update_item fs path i q))
      end
  end.

Definition no_backoff (i : QueueItem) : QueueItem :=
  {| qi_path := qi_path i; qi_queued_at := qi_queued_at i; qi_attempts := qi_attempts i;
     qi_last_error := qi_last_error i; qi_not_before := 0 |}.

Fixpoint retry_loop (fs_name : option string) (all : dict string (dict string QueueItem)) (q : ReplicationQueue) : ReplicationQueue :=
  match all with
  | [] => q
  | (name, items) :: all =>
      if match fs_name with Some n => negb (bool_decide (name = n)) | None => false end then retry_loop fs_name all q
      else retry_loop fs_name all
             (wakeup_set name (set_items (Dict.set name (map (fun pi => (pi.1, no_backoff pi.2)) items) (rq_items q)) q))
  end.

Definition retry_now (fs_name : option string) (q : ReplicationQueue) : ReplicationQueue := retry_loop fs_name (rq_items q) q.

Definition queue_to_dict (q : ReplicationQueue) : dict string (list SavedItem) :=
  map (fun fi => (fi.1, map item_to_dict (pending fi.1 q))) (rq_items q).

(** ** The worker *)

(** What others do to the queue while an item is copied. *)
Inductive queue_op := OpEnqueue (path : string) (now : Z) | OpRetry.

Definition queue_exec (fs : string) (op : queue_op) (q : ReplicationQueue) : ReplicationQueue :=
  match op with
  | OpEnqueue path now => enqueue fs path now q
  | OpRetry => retry_now (Some fs) q
  end.

Section Worker.
  (** The rest of the client: its tree, [backfill_file] (with the failures it
      reports) and the push of the metadata. *)
  Context {S : Type} (tree : S -> heap) (root : nat).
  Context (backfill : nat -> st exn S (list string)) (push : st exn S unit).
  Context (name : string).

Definition copy_file (fr : nat) : st exn S unit :=
  let! failures := backfill fr in
  if nonempty failures then sraise RuntimeError else push.

(** [process_one], with what happens to the queue while it copies and the
    time at its end. *)
Definition process_one (path : string) (meanwhile : list queue_op) (now : Z) (s : S * ReplicationQueue)
  : exc bool * (S * ReplicationQueue) :=
  let '(w, q) := s in
  match queued_file (tree w) root path with
  | None => (Ok true, (w, done name path q))
  | Some fr =>
      let '(r, w) := copy_file fr w in
      let q := foldl (fun q op => queue_exec name op q) q meanwhile in
      match r with
      | Ok _ => (Ok true, (w, done name path q))
      | Raise ex =>
          if is_Exception ex then
            match failed name path "replication failed" now q with
            | (Ok _, q) => (Ok false, (w, q))
            | (Raise ex, q) => (Raise ex, (w, q))
            end
          else (Raise ex, (w, q))
      end
  end.

Fixpoint run_items (paths : list string) (meanwhile : string -> list queue_op) (now : Z) (count : Z) (s : S * ReplicationQueue)
  : exc Z * (S * ReplicationQueue) :=
  match paths with
  | [] => (Ok count, s)
  | path :: paths =>
      match process_one path (meanwhile path) now s with
      | (Raise ex, s) => (Raise ex, s)
      | (Ok finished, s) => run_items paths meanwhile now (if finished then count + 1 else count) s
      end
  end.

Definition run_once (meanwhile : string -> list queue_op) (now : Z) (s : S * ReplicationQueue) : exc Z * (S * ReplicationQueue) :=
  run_items (map qi_path (ready name now s.2)) meanwhile now 0 s.

(** How long [run] sleeps before it looks again; [None] until it is woken. *)
Definition next_delay (now : Z) (q : ReplicationQueue) : option Z :=
  match map qi_not_before (pending name q) with
  | [] => None
  | t :: ts => Some (Z.max (Z.max 0 (foldl Z.min t ts - now)) 1000)
  end.

End Worker.
