(* ===== verification/ReplicationProps.v ===== *)
(** * Properties of background replication

    A restart finds the queue again, a queued path is where its file is, and
    nothing leaves the queue but a file that was processed -- but a file that
    is written again while it is copied leaves it too, and an item that failed
    a thousand times stops the worker from getting to the others. *)

From S2P Require Import Prelude Errors FileVersion PosixPath FileRefs Directory DirectoryProps DirectorySer Ops OpsProps Replication.

Open Scope Z_scope.
Open Scope py_scope.

(** Each dictionary has its keys once, and an item is filed under its path. *)
Definition queue_ok (q : ReplicationQueue) : Prop :=
  Dict.wf (rq_items q) /\
  forall fs items, Dict.get fs (rq_items q) = Some items ->
    Dict.wf items /\ forall p i, Dict.get p items = Some i -> qi_path i = p /\ 0 <= qi_attempts i.

Definition queued (fs path : string) (q : ReplicationQueue) : bool := Dict.mem path (items_of fs q).

Lemma items_of_set fs fs' d q : items_of fs (set_items (Dict.set fs' d (rq_items q)) q) = if decide (fs = fs') then d else items_of fs q.
Proof.
  unfold items_of. simpl. destruct (decide (fs = fs')) as [->|Hne]; [by rewrite Dict.get_set_eq|by rewrite Dict.get_set_ne].
Qed.

Lemma items_of_save fs q : items_of fs (save_queue q) = items_of fs q.
Proof. unfold save_queue. by destruct (_ && _). Qed.
Lemma items_of_wakeup fs fs' q : items_of fs (wakeup_set fs' q) = items_of fs q.
Proof. done. Qed.

Lemma items_of_setdefault fs fs' q : items_of fs (set_items (Dict.setdefault fs' [] (rq_items q)) q) = items_of fs q.
Proof.
  unfold items_of, Dict.setdefault, Dict.mem. simpl. destruct (Dict.get fs' (rq_items q)) eqn:Hg; [done|].
  destruct (decide (fs = fs')) as [->|Hne]; [by rewrite Dict.get_set_eq, Hg|by rewrite Dict.get_set_ne].
Qed.

(** ** What each operation does to the items *)

Lemma items_of_enqueue fs fs' path now q :
  items_of fs (enqueue fs' path now q) =
    if decide (fs = fs') then (if Dict.mem path (items_of fs q) then items_of fs q else Dict.set path (new_item path now) (items_of fs q))
    else items_of fs q.
Proof.
  unfold enqueue. destruct (Dict.mem path (items_of fs' q)) eqn:Hm.
  - rewrite items_of_wakeup, items_of_setdefault. destruct (decide (fs = fs')) as [->|]; [by rewrite Hm|done].
  - rewrite items_of_wakeup, items_of_save, items_of_set, items_of_setdefault.
    destruct (decide (fs = fs')) as [->|]; [by rewrite Hm|done].
Qed.

Lemma items_of_done fs fs' path q :
  items_of fs (done fs' path q) = if decide (fs = fs') then Dict.del path (items_of fs q) else items_of fs q.
Proof.
  unfold done. destruct (Dict.mem path (items_of fs' q)) eqn:Hm.
  - rewrite items_of_save, items_of_set. by destruct (decide (fs = fs')) as [->|].
  - destruct (decide (fs = fs')) as [->|]; [|done]. symmetry. unfold Dict.del. unfold Dict.mem in Hm.
    induction (items_of fs' q) as [|[k i] d IH]; [done|]. simpl in Hm. rewrite filter_cons. simpl.
    destruct (decide (path = k)) as [->|Hne]; [done|]. rewrite decide_True by done. by rewrite IH.
Qed.

Lemma items_of_update fs fs' path i q :
  items_of fs (update_item fs' path i q) = if decide (fs = fs') then Dict.set path i (items_of fs q) else items_of fs q.
Proof. unfold update_item. rewrite items_of_set. by destruct (decide (fs = fs')) as [->|]. Qed.

Lemma keys_set_mem {V} k (v : V) (d : dict string V) : Dict.mem k d = true -> Dict.keys (Dict.set k v d) = Dict.keys d.
Proof. intros Hm. by rewrite Dict.keys_set, Hm. Qed.

Lemma mem_keys {V V'} (d : dict string V) (d' : dict string V') k : Dict.keys d = Dict.keys d' -> Dict.mem k d = Dict.mem k d'.
Proof.
  intros Hk. destruct (Dict.mem k d) eqn:H1, (Dict.mem k d') eqn:H2; try done.
  - apply Dict.mem_In in H1. rewrite Hk in H1. apply Dict.mem_In in H1. congruence.
  - apply Dict.mem_In in H2. rewrite <- Hk in H2. apply Dict.mem_In in H2. congruence.
Qed.

Lemma keys_failed fs fs' path error now q :
  Dict.keys (items_of fs (failed fs' path error now q).2) = Dict.keys (items_of fs q).
Proof.
  unfold failed. destruct (Dict.get path (items_of fs' q)) as [i|] eqn:Hg; [|done].
  assert (Dict.mem path (items_of fs' q) = true) as Hm by (unfold Dict.mem; by rewrite Hg).
  destruct (backoff _); simpl; rewrite ?items_of_save, items_of_update; (destruct (decide (fs = fs')) as [->|]; [|done]); by apply keys_set_mem.
Qed.

Lemma keys_retry fs fs_name all : forall q,
  Forall (fun fi => Dict.keys (items_of fi.1 q) = Dict.keys fi.2) all ->
  Dict.keys (items_of fs (retry_loop fs_name all q)) = Dict.keys (items_of fs q).
Proof.
  induction all as [|[name items] all IH]; intros q Hall; simpl; [done|]. apply Forall_cons in Hall as [Hi Hall]. simpl in Hi.
  destruct (match fs_name with Some n => _ | None => _ end); [by apply IH|].
  assert (forall fs, Dict.keys (items_of fs (wakeup_set name
      (set_items (Dict.set name (map (fun pi => (pi.1, no_backoff pi.2)) items) (rq_items q)) q))) = Dict.keys (items_of fs q)) as Hk.
  { intros f. rewrite items_of_wakeup, items_of_set. destruct (decide (f = name)) as [->|]; [|done].
    rewrite Hi. unfold Dict.keys. by rewrite map_map. }
  rewrite IH; [apply Hk|]. eapply Forall_impl; [exact Hall|]. intros fi Hfi. by rewrite Hk.
Qed.

Lemma keys_retry_now fs fs_name q :
  Dict.wf (rq_items q) -> Dict.keys (items_of fs (retry_now fs_name q)) = Dict.keys (items_of fs q).
Proof.
  intros Hwf. unfold retry_now. apply keys_retry, List.Forall_forall. intros [f items] Hin. simpl. unfold items_of.
  by rewrite (Dict.In_get f items).
Qed.

(** ** The dictionaries stay dictionaries *)

Definition rq_wf (q : ReplicationQueue) : Prop := Dict.wf (rq_items q).

Lemma rq_wf_save q : rq_wf q -> rq_wf (save_queue q).
Proof. unfold rq_wf, save_queue. by destruct (_ && _). Qed.
Lemma rq_wf_set q fs d : rq_wf q -> rq_wf (set_items (Dict.set fs d (rq_items q)) q).
Proof. apply Dict.wf_set. Qed.
Lemma rq_wf_wakeup q fs : rq_wf q -> rq_wf (wakeup_set fs q).
Proof. done. Qed.
Lemma rq_wf_setdefault q fs : rq_wf q -> rq_wf (set_items (Dict.setdefault fs [] (rq_items q)) q).
Proof. unfold rq_wf, Dict.setdefault. simpl. destruct (Dict.mem fs _); [done|apply Dict.wf_set]. Qed.
#[local] Hint Resolve rq_wf_save rq_wf_set rq_wf_wakeup rq_wf_setdefault : core.

Lemma rq_wf_enqueue q fs path now : rq_wf q -> rq_wf (enqueue fs path now q).
Proof. intros Hw. unfold enqueue. destruct (Dict.mem path _); eauto 6. Qed.
Lemma rq_wf_done q fs path : rq_wf q -> rq_wf (done fs path q).
Proof. intros Hw. unfold done. destruct (Dict.mem path _); eauto. Qed.
Lemma rq_wf_failed q fs path error now : rq_wf q -> rq_wf (failed fs path error now q).2.
Proof. intros Hw. unfold failed. destruct (Dict.get path _); [|done]. destruct (backoff _); simpl; unfold update_item; eauto. Qed.
Lemma rq_wf_retry fs_name all : forall q, rq_wf q -> rq_wf (retry_loop fs_name all q).
Proof.
  induction all as [|[name items] all IH]; intros q Hw; simpl; [done|].
  destruct (match fs_name with Some n => _ | None => _ end); apply IH; eauto.
Qed.

(** ** While an item is copied, others only add *)

Definition still_queued (q q' : ReplicationQueue) : Prop :=
  rq_wf q' /\ forall fs path, queued fs path q = true -> queued fs path q' = true.

Lemma mem_set {V} k k' (v : V) (d : dict string V) : Dict.mem k d = true -> Dict.mem k (Dict.set k' v d) = true.
Proof.
  intros Hm%Dict.mem_In. apply Dict.mem_In. rewrite Dict.keys_set. destruct (Dict.mem k' d); [done|].
  apply elem_of_app. by left.
Qed.

Lemma still_queued_exec name op q : rq_wf q -> still_queued q (queue_exec name op q).
Proof.
  intros Hw. destruct op as [path now|]; simpl.
  - split; [by apply rq_wf_enqueue|]. intros fs p Hp. unfold queued. rewrite items_of_enqueue.
    destruct (decide (fs = name)); [|done]. destruct (Dict.mem path _); [done|]. by apply mem_set.
  - split; [by apply rq_wf_retry|]. intros fs p Hp. unfold queued.
    by rewrite (mem_keys _ (items_of fs q) p (keys_retry_now fs (Some name) q Hw)).
Qed.

Lemma still_queued_all name ops q : rq_wf q -> still_queued q (foldl (fun q op => queue_exec name op q) q ops).
Proof.
  revert q. induction ops as [|op ops IH]; intros q Hw; simpl; [by split|].
  destruct (still_queued_exec name op q Hw) as [Hw1 Hq1]. destruct (IH _ Hw1) as [Hw2 Hq2]. split; [done|]. auto.
Qed.

Lemma queued_done fs path fs' path' q :
  queued fs path (done fs' path' q) = if decide (fs = fs' /\ path = path') then false else queued fs path q.
Proof.
  unfold queued. rewrite items_of_done. destruct (decide (fs = fs')) as [->|Hne]; [|rewrite decide_False by tauto; done].
  unfold Dict.mem. destruct (decide (path = path')) as [->|Hp]; [rewrite decide_True by done; by rewrite Dict.get_del_eq|].
  rewrite decide_False by tauto. by rewrite Dict.get_del_ne.
Qed.

Lemma queued_failed fs path fs' path' error now q :
  queued fs path (failed fs' path' error now q).2 = queued fs path q.
Proof. unfold queued. apply mem_keys, keys_failed. Qed.

(** ** The properties *)

Section Worker.
  Context {S : Type} (tree : S -> heap) (root : nat).
  Context (backfill : nat -> st exn S (list string)) (push : st exn S unit) (name : string).


(** A file that is written again while it is copied is forgotten: its path
    is in the queue all the time, so queueing it again changes nothing, and at
    the end the item is removed -- whatever was queued meanwhile. *)
Theorem enqueue_while_copying_lost path meanwhile now w w' q fr u :
  queued_file (tree w) root path = Some fr -> copy_file backfill push fr w = (Ok u, w') ->
  exists q', process_one tree root backfill push name path meanwhile now (w, q) = (Ok true, (w', q')) /\ queued name path q' = false.
Proof.
  intros Hf Hc. unfold process_one. rewrite Hf, Hc. eexists. split; [done|]. rewrite queued_done. by rewrite decide_True.
Qed.

(** The 1025th failure of an item in a row raises instead of setting the
    time of the next attempt, and the items behind it are not looked at: they
    wait for as long as the item keeps failing. *)
Theorem overflow_starves_queue path paths now w w' q fr ex i meanwhile :
  queued_file (tree w) root path = Some fr -> copy_file backfill push fr w = (Raise ex, w') -> is_Exception ex = true ->
  Dict.get path (items_of name q) = Some i -> 1024 <= qi_attempts i -> meanwhile path = [] ->
  exists q', run_items tree root backfill push name (path :: paths) meanwhile now 0 (w, q) = (Raise OverflowError, (w', q')) /\
    exists i', Dict.get path (items_of name q') = Some i' /\ qi_not_before i' = qi_not_before i /\ qi_attempts i' = qi_attempts i + 1.
Proof.
  intros Hf Hc Hex Hi Hn Hm. simpl. rewrite Hf, Hc, Hex, Hm. simpl. unfold failed. rewrite Hi. simpl. unfold backoff.
  rewrite (proj2 (Z.leb_le _ _)) by lia. eexists. split; [done|]. rewrite items_of_update, decide_True by done.
  rewrite Dict.get_set_eq. by eexists.
Qed.

End Worker.

(** A failure keeps the item and lets it wait: between fifteen seconds and
    fifteen minutes, twice as long after every failure until then, and it is
    not ready before. *)
Theorem failed_backs_off fs path error now q i :
  queue_ok q -> Dict.get path (items_of fs q) = Some i -> qi_attempts i < 1024 ->
  exists q' i', failed fs path error now q = (Ok tt, q') /\ Dict.get path (items_of fs q') = Some i' /\
    qi_attempts i' = qi_attempts i + 1 /\ qi_last_error i' = Some error /\
    qi_not_before i' = now + Z.min (RETRY_BASE * 2 ^ qi_attempts i) RETRY_MAX /\
    RETRY_BASE <= qi_not_before i' - now <= RETRY_MAX /\
    forall t, t < now + RETRY_BASE -> ~ i' ∈ ready fs t q'.
Proof.
  intros [_ Hok] Hi Hn. assert (0 <= qi_attempts i) as Ha.
  { unfold items_of in Hi. destruct (Dict.get fs (rq_items q)) as [d|] eqn:Hd; [|done]. by eapply Hok. }
  assert (1 <= 2 ^ qi_attempts i) as Hp by (pose proof (Z.pow_pos_nonneg 2 (qi_attempts i)); lia).
  unfold failed. rewrite Hi. simpl. unfold backoff. replace (qi_attempts i + 1 - 1) with (qi_attempts i) by lia.
  rewrite (proj2 (Z.leb_gt _ _)) by lia. eexists _, _. split; [done|].
  rewrite items_of_save, items_of_update, decide_True by done. rewrite Dict.get_set_eq. split; [done|]. simpl.
  unfold RETRY_BASE, RETRY_MAX. split; [done|]. split; [done|]. split; [done|]. split; [lia|].
  intros t Ht Hin. unfold ready in Hin. apply list_elem_of_In, filter_In in Hin as [_ Hr%Z.leb_le]. simpl in Hr. lia.
Qed.

(** ** Restarts *)

Definition load_all (now : Z) (acc : dict string (dict string QueueItem)) (data : dict string (list SavedItem)) :=
  foldl (fun acc fi => foldl (load_one now fi.1) acc fi.2) acc data.

Definition reloaded (items : dict string QueueItem) : dict string QueueItem := map (fun pi => (pi.1, no_backoff pi.2)) items.

Lemma keys_reloaded d : Dict.keys (reloaded d) = Dict.keys d.
Proof. unfold Dict.keys, reloaded. by rewrite map_map. Qed.

Lemma dict_set_new {V} k (v : V) (d : dict string V) : k ∉ Dict.keys d -> Dict.set k v d = d ++ [(k, v)].
Proof.
  induction d as [|[k' v'] d IH]; simpl; [done|]. intros Hk. rewrite decide_False by (intros ->; apply Hk; left).
  rewrite IH; [done|]. intros Hin. apply Hk. by right.
Qed.

Lemma dict_set_set {V} k (v v' : V) (d : dict string V) : Dict.set k v' (Dict.set k v d) = Dict.set k v' d.
Proof. induction d as [|[k' x] d IH]; simpl; [by rewrite decide_True|]. destruct (decide (k = k')); simpl; [by rewrite decide_True|]. by rewrite decide_False, IH. Qed.

(** The items of one file system. *)
Lemma load_items now fs items : forall acc done,
  Dict.wf (done ++ items) -> (forall p i, Dict.get p items = Some i -> qi_path i = p) ->
  Dict.get fs acc = Some (reloaded done) ->
  foldl (load_one now fs) acc (map (fun pi => item_to_dict pi.2) items) = Dict.set fs (reloaded (done ++ items)) acc.
Proof.
  induction items as [|[p i] items IH]; intros acc done Hwf Hp Hd; simpl.
  - rewrite app_nil_r. clear -Hd. induction acc as [|[k v] acc IH]; [done|]. simpl in *. destruct (decide (fs = k)) as [->|]; [congruence|]. by rewrite <- IH.
  - assert (qi_path i = p) as Hip by (apply Hp; simpl; by rewrite decide_True).
    assert (p ∉ Dict.keys done) as Hnew.
    { unfold Dict.wf, Dict.keys in Hwf. rewrite map_app in Hwf. apply NoDup_app in Hwf as (_ & Hdis & _). intros Hin.
      apply (Hdis p Hin). left. }
    unfold load_one at 2. rewrite Hd. simpl. rewrite (dict_set_new (qi_path i)) by (rewrite keys_reloaded; by rewrite Hip).
    rewrite (IH _ (done ++ [(p, i)])); [by rewrite dict_set_set, <- app_assoc|by rewrite <- app_assoc| |].
    + intros p' i' Hg. apply Hp. simpl. destruct (decide (p' = p)) as [->|]; [|done]. exfalso.
      unfold Dict.wf, Dict.keys in Hwf. rewrite map_app in Hwf. apply NoDup_app in Hwf as (_ & _ & Hnd). simpl in Hnd.
      apply NoDup_cons in Hnd as [Hnot _]. apply Hnot. apply (proj1 (Dict.mem_In p items)). unfold Dict.mem. by rewrite Hg.
    + rewrite Dict.get_set_eq. unfold reloaded. rewrite map_app. simpl. unfold item_of, no_backoff. simpl. by rewrite Hip.
Qed.

Lemma load_fs now fs items acc :
  Dict.wf items -> (forall p i, Dict.get p items = Some i -> qi_path i = p) -> Dict.get fs acc = None -> items <> [] ->
  foldl (load_one now fs) acc (map (fun pi => item_to_dict pi.2) items) = Dict.set fs (reloaded items) acc.
Proof.
  intros Hwf Hp Hg Hne. destruct items as [|[p i] items]; [done|]. simpl.
  assert (qi_path i = p) as Hip by (apply Hp; simpl; by rewrite decide_True).
  unfold load_one at 2. rewrite Hg. simpl. rewrite (load_items now fs items _ [(p, i)]).
  - by rewrite dict_set_set.
  - done.
  - intros p' i' Hg'. apply Hp. simpl. destruct (decide (p' = p)) as [->|]; [|done]. exfalso.
    unfold Dict.wf, Dict.keys in Hwf. simpl in Hwf. apply NoDup_cons in Hwf as [Hnot _]. apply Hnot.
    apply (proj1 (Dict.mem_In p items)). unfold Dict.mem. by rewrite Hg'.
  - rewrite Dict.get_set_eq. unfold reloaded, item_of, no_backoff. simpl. by rewrite Hip.
Qed.

Lemma load_data now fs all : forall acc,
  Dict.wf all -> (forall f items, Dict.get f all = Some items -> Dict.wf items /\ forall p i, Dict.get p items = Some i -> qi_path i = p) ->
  (forall f, Dict.mem f all = true -> Dict.get f acc = None) ->
  default [] (Dict.get fs (load_all now acc (map (fun fi => (fi.1, map (fun pi => item_to_dict pi.2) fi.2)) (List.filter (fun fi => nonempty fi.2) all)))) =
    match Dict.get fs all with Some items => reloaded items | None => default [] (Dict.get fs acc) end.
Proof.
  induction all as [|[f items] all IH]; intros acc Hwf Hok Hnew; simpl; [done|].
  unfold Dict.wf, Dict.keys in Hwf. simpl in Hwf. apply NoDup_cons in Hwf as [Hf Hwf].
  destruct (Hok f items) as [Hwi Hpi]; [simpl; by rewrite decide_True|].
  assert (Dict.get f acc = None) as Hfa by (apply Hnew; unfold Dict.mem; simpl; by rewrite decide_True).
  assert (Hok' : forall f0 its, Dict.get f0 all = Some its -> Dict.wf its /\ forall p i, Dict.get p its = Some i -> qi_path i = p).
  { intros f0 its Hg. apply (Hok f0). simpl. rewrite decide_False; [done|]. intros ->. apply Hf.
    apply (proj1 (Dict.mem_In f all)). unfold Dict.mem. by rewrite Hg. }
  assert (Hfall : Dict.get f all = None).
  { destruct (Dict.get f all) eqn:Hg; [|done]. exfalso. apply Hf. apply (proj1 (Dict.mem_In f all)). unfold Dict.mem. by rewrite Hg. }
  assert (Hnew' : forall g, Dict.mem g all = true -> f <> g /\ Dict.get g acc = None).
  { intros g Hg. split; [intros ->; unfold Dict.mem in Hg; by rewrite Hfall in Hg|]. apply Hnew. unfold Dict.mem in *. simpl. by destruct (decide (g = f)). }
  destruct items as [|pi items]; cbn [nonempty].
  - rewrite IH; [|done|done|by intros g [_ ?]%Hnew']. destruct (decide (fs = f)) as [->|]; [|done]. by rewrite Hfall, Hfa.
  - cbn [map load_all foldl]. cbn [fst snd]. rewrite load_fs by done.
    match goal with |- context [foldl _ (Dict.set f ?x acc) ?d] => change (foldl _ (Dict.set f x acc) d) with (load_all now (Dict.set f x acc) d) end.
    rewrite IH; [|done|done|].
    + destruct (decide (fs = f)) as [->|Hne]; [by rewrite Hfall, Dict.get_set_eq|]. by rewrite Dict.get_set_ne.
    + intros g [Hne Hg]%Hnew'. by rewrite Dict.get_set_ne.
Qed.

(** Sequences of operations on a queue; [None] when one raises. *)
Inductive queue_action :=
| Enqueue (fs path : string) (now : Z) | Done (fs path : string) | Failed (fs path error : string) (now : Z) | Retry (fs : option string).

Definition queue_action_exec (a : queue_action) (q : ReplicationQueue) : option ReplicationQueue :=
  match a with
  | Enqueue fs path now => Some (enqueue fs path now q)
  | Done fs path => Some (done fs path q)
  | Failed fs path error now => match failed fs path error now q with (Ok _, q) => Some q | (Raise _, _) => None end
  | Retry fs => Some (retry_now fs q)
  end.

Fixpoint queue_run (l : list queue_action) (q : ReplicationQueue) : option ReplicationQueue :=
  match l with
  | [] => Some q
  | a :: l => match queue_action_exec a q with Some q => queue_run l q | None => None end
  end.

Definition empty_queue (path : string) : ReplicationQueue :=
  {| rq_path := Some path; rq_items := []; rq_wakeups := []; rq_file := NoFile; rq_writable := true |}.

(** The file has what a restart needs. *)
Record saved_ok (q : ReplicationQueue) : Prop := {
  sv_queue : queue_ok q;
  sv_path : persistent q = true /\ rq_writable q = true;
  sv_file : match rq_file q with Saved d => d = queue_data q | NoFile => queue_data q = [] | Unreadable => False end
}.

Lemma queue_data_setdefault fs q :
  queue_data (set_items (Dict.setdefault fs [] (rq_items q)) q) = queue_data q.
Proof.
  unfold queue_data, Dict.setdefault, Dict.mem. simpl. destruct (Dict.get fs (rq_items q)) eqn:Hg; [done|].
  induction (rq_items q) as [|[f d] l IH]; [done|]. simpl in *. destruct (decide (fs = f)); [done|]. simpl.
  destruct (nonempty d); simpl; [f_equal|]; by apply IH.
Qed.

Lemma queue_ok_set fs d q :
  queue_ok q -> Dict.wf d -> (forall p i, Dict.get p d = Some i -> qi_path i = p /\ 0 <= qi_attempts i) ->
  queue_ok (set_items (Dict.set fs d (rq_items q)) q).
Proof.
  intros [Hw Hi] Hd Hp. split; [by apply Dict.wf_set|]. intros f items. simpl. destruct (decide (f = fs)) as [->|Hne].
  - rewrite Dict.get_set_eq. by intros [= <-].
  - rewrite Dict.get_set_ne by done. apply Hi.
Qed.

Lemma items_ok fs q : queue_ok q -> Dict.wf (items_of fs q) /\ forall p i, Dict.get p (items_of fs q) = Some i -> qi_path i = p /\ 0 <= qi_attempts i.
Proof.
  intros [_ Hi]. unfold items_of. destruct (Dict.get fs (rq_items q)) as [d|] eqn:Hd; [by eapply Hi|]. split; [apply Dict.wf_nil|done].
Qed.

Lemma dict_get_set_Some {V} k k' (v x : V) (d : dict string V) :
  Dict.get k (Dict.set k' v d) = Some x -> (k = k' /\ x = v) \/ Dict.get k d = Some x.
Proof.
  destruct (decide (k = k')) as [->|]; [rewrite Dict.get_set_eq; intros [= ->]; by left|]. rewrite Dict.get_set_ne by done. by right.
Qed.

(** A change of the items of one file system, saved. *)
Lemma saved_ok_save fs d q :
  saved_ok q -> Dict.wf d -> (forall p i, Dict.get p d = Some i -> qi_path i = p /\ 0 <= qi_attempts i) ->
  saved_ok (save_queue (set_items (Dict.set fs d (rq_items q)) q)).
Proof.
  intros [Hq [Hp Hw] Hf] Hd Hi. unfold save_queue. change (persistent (set_items _ q)) with (persistent q).
  change (rq_writable (set_items _ q)) with (rq_writable q). rewrite Hp, Hw. simpl. constructor; [|done|done].
  by apply (queue_ok_set fs d q).
Qed.

Lemma saved_ok_setdefault fs q : saved_ok q -> saved_ok (set_items (Dict.setdefault fs [] (rq_items q)) q).
Proof.
  intros [Hq [Hp Hw] Hf]. constructor; [|done|by rewrite queue_data_setdefault].
  unfold Dict.setdefault. destruct (Dict.mem fs (rq_items q)); [done|]. apply queue_ok_set; [done|apply Dict.wf_nil|done].
Qed.

Lemma reloaded_get p i d : Dict.get p (reloaded d) = Some i -> exists i0, Dict.get p d = Some i0 /\ i = no_backoff i0.
Proof.
  induction d as [|[k x] d IH]; simpl; [done|]. destruct (decide (p = k)); [intros [= <-]; by eexists|done].
Qed.

(** The backoff is not saved. *)
Lemma queue_data_reloaded fs d q :
  Dict.get fs (rq_items q) = Some d -> queue_data (set_items (Dict.set fs (reloaded d) (rq_items q)) q) = queue_data q.
Proof.
  unfold queue_data. simpl. induction (rq_items q) as [|[f x] l IH]; [done|]. simpl. destruct (decide (fs = f)) as [->|]; simpl.
  - intros [= ->]. unfold reloaded. destruct d as [|[p i] d]; simpl; [done|]. rewrite map_map. done.
  - intros Hg. destruct (nonempty x); simpl; [f_equal|]; by apply IH.
Qed.

Lemma saved_ok_retry fs_name all : forall q,
  saved_ok q -> Dict.wf all -> (forall f d, Dict.get f all = Some d -> Dict.get f (rq_items q) = Some d) -> saved_ok (retry_loop fs_name all q).
Proof.
  induction all as [|[f d] all IH]; intros q Hs Hwf Hall; simpl; [done|].
  unfold Dict.wf, Dict.keys in Hwf. simpl in Hwf. apply NoDup_cons in Hwf as [Hf Hwf].
  assert (forall g x, Dict.get g all = Some x -> g <> f /\ Dict.get g (rq_items q) = Some x) as Hrest.
  { intros g x Hg. assert (g <> f) as Hne. { intros ->. apply Hf, (proj1 (Dict.mem_In f all)). unfold Dict.mem. by rewrite Hg. }
    split; [done|]. apply Hall. simpl. by rewrite decide_False. }
  destruct (match fs_name with Some n => _ | None => _ end); [apply IH; [done|done|]; intros g x Hg; by destruct (Hrest g x Hg)|].
  apply IH; [|done|].
  - assert (Dict.get f (rq_items q) = Some d) as Hd by (apply Hall; simpl; by rewrite decide_True).
    destruct Hs as [Hq Hp Hfile]. change (map _ d) with (reloaded d).
    destruct (proj2 Hq f d Hd) as [Hwd Hpd]. constructor; [|done|].
    + apply (queue_ok_set f (reloaded d) q); [done|unfold Dict.wf; by rewrite keys_reloaded|].
      intros p i (i0 & Hi0 & ->)%reloaded_get. exact (Hpd p i0 Hi0).
    + change (queue_data (wakeup_set f ?x)) with (queue_data x). by rewrite queue_data_reloaded.
  - intros g x Hg. destruct (Hrest g x Hg) as [Hne Hgx]. cbn [rq_items wakeup_set wakeup set_wakeups set_items]. by rewrite Dict.get_set_ne.
Qed.

Lemma saved_ok_wakeup fs q : saved_ok q -> saved_ok (wakeup_set fs q).
Proof. intros [Hq Hp Hf]. by constructor. Qed.

Lemma saved_ok_action a q q' : saved_ok q -> queue_action_exec a q = Some q' -> saved_ok q'.
Proof.
  intros Hs. pose proof (sv_queue q Hs) as Hq. destruct a as [fs path now|fs path|fs path error now|fs]; simpl.
  - intros [= <-]. destruct (items_ok fs q Hq) as [Hw Hi]. unfold enqueue.
    pose proof (saved_ok_setdefault fs q Hs) as Hs1. apply saved_ok_wakeup. destruct (Dict.mem path (items_of fs q)); [done|].
    apply saved_ok_save; [done|by apply Dict.wf_set|]. intros p i [[-> ->]|Hg]%dict_get_set_Some; [done|by apply Hi].
  - intros [= <-]. destruct (items_ok fs q Hq) as [Hw Hi]. unfold done. destruct (Dict.mem path _); [|done].
    apply saved_ok_save; [done|by apply Dict.wf_del|]. intros p i Hg. apply Hi. destruct (decide (p = path)) as [->|]; [by rewrite Dict.get_del_eq in Hg|by rewrite Dict.get_del_ne in Hg].
  - destruct (items_ok fs q Hq) as [Hw Hi]. unfold failed. destruct (Dict.get path (items_of fs q)) as [i|] eqn:Hg; [|by intros [= <-]].
    destruct (backoff _); [|done]. intros [= <-]. apply saved_ok_save; [done|by apply Dict.wf_set|].
    intros p j [[-> ->]|Hgp]%dict_get_set_Some; [|by apply Hi]. simpl. destruct (Hi path i Hg). split; [done|lia].
  - intros [= <-]. unfold retry_now. apply saved_ok_retry; [done|apply Hq|done].
Qed.

Lemma saved_ok_run l : forall q q', saved_ok q -> queue_run l q = Some q' -> saved_ok q'.
Proof.
  induction l as [|a l IH]; intros q q' Hs; simpl; [by intros [= <-]|].
  destruct (queue_action_exec a q) as [q1|] eqn:Ha; [|done]. apply IH. by eapply saved_ok_action.
Qed.

(** A restart loses no pending copy: after any sequence of operations on a
    queue whose file can be written, a new queue on that file has, for every
    file system, the same items in the same order, with their attempts and
    errors, and no backoff. *)
Theorem queue_survives_restart path l q now fs :
  path <> EmptyString -> queue_run l (empty_queue path) = Some q ->
  items_of fs (load_queue now (set_items [] q)) = reloaded (items_of fs q).
Proof.
  intros Hpath Hrun. assert (saved_ok q) as [Hq [Hp Hw] Hf].
  { eapply saved_ok_run; [|exact Hrun]. constructor; [split; [apply Dict.wf_nil|done]| |done].
    split; [|done]. unfold persistent. simpl. by rewrite bool_decide_eq_false_2. }
  destruct Hq as [Hwf Hi].
  assert (forall f items, Dict.get f (rq_items q) = Some items -> Dict.wf items /\ forall p i, Dict.get p items = Some i -> qi_path i = p) as Hok.
  { intros f items Hg. destruct (Hi f items Hg) as [? Hpi]. split; [done|]. intros p i Hgp. by apply Hpi. }
  pose proof (load_data now fs (rq_items q) [] Hwf Hok (fun _ _ => eq_refl)) as Hl. fold (queue_data q) in Hl.
  unfold load_queue. change (persistent (set_items [] q)) with (persistent q). rewrite Hp. cbn [rq_file set_items].
  assert (items_of fs (set_items (load_all now [] (queue_data q)) (set_items [] q)) = reloaded (items_of fs q)) as Hgoal.
  { unfold items_of at 1. cbn [rq_items set_items]. rewrite Hl. unfold items_of. by destruct (Dict.get fs (rq_items q)). }
  destruct (rq_file q) as [| |d]; [|done|by subst d].
  rewrite Hf in Hgoal. exact Hgoal.
Qed.

(** ** Queued paths *)

Definition parts (path : string) : list string := List.filter (fun p => negb (bool_decide (p = EmptyString))) (split_slash path).

Lemma parts_join s n : str_mem "/"%char n = false -> n <> EmptyString -> parts (s +:+ String "/" n) = parts s ++ [n].
Proof.
  intros Hs Hn. unfold parts. rewrite split_slash_join by done. rewrite List.filter_app. simpl. by rewrite bool_decide_eq_false_2.
Qed.

Lemma walk_dirs_app h a b d : walk_dirs h d (a ++ b) = match walk_dirs h d a with Some e => walk_dirs h e b | None => None end.
Proof. revert d. induction a as [|n a IH]; intros d; simpl; [done|]. by destruct (find_dirs h d [n]). Qed.

Lemma walk_step h p d : wf h -> is_Some (h_dirs h !! p) -> d ∈ children (dir_at h p) -> walk_dirs h p [dir_name h d] = Some d.
Proof.
  intros Hwf Hp Hd. pose proof (find_dir_unique h p d Hwf Hp Hd) as Hf. unfold find_dir in Hf. simpl.
  destruct (find_dirs h p [dir_name h d]); [done|]. by injection Hf as ->.
Qed.

Lemma walk_path_loop h root d l fuel :
  wf h -> is_Some (h_dirs h !! d) -> up_chain h d l -> last l = Some root -> Forall (attached h) l -> (length l <= S fuel)%nat ->
  exists p, path_loop fuel h d = Ok p /\ walk_dirs h root (parts p) = Some d.
Proof.
  intros Hwf Hd Hc. revert fuel Hd. induction Hc as [d Hp|d p l Hp Hc IH]; intros fuel Hd Hl Hall Hf.
  - injection Hl as <-. exists EmptyString. destruct fuel; simpl; by rewrite Hp.
  - apply Forall_cons in Hall as [Hatt Hall]. destruct fuel as [|fuel]; [inversion Hc; subst; simpl in Hf; lia|].
    pose proof (dir_at_lookup _ _ Hd) as Hdx. pose proof (wf_dirs _ Hwf _ _ Hdx) as Hok.
    pose proof (do_parent _ _ _ Hok _ Hp) as Hpx.
    destruct (IH fuel Hpx) as (q & Hq & Hcd); [by destruct l; [inversion Hc|]|done|simpl in Hf; lia|].
    simpl. rewrite Hp, Hq. simpl. destruct (valid_name_plain _ (do_name _ _ _ Hok)) as [Hne Hns].
    rewrite bool_decide_eq_false_2 by done. eexists. split; [done|].
    change ("/" +:+ d_name (dir_at h d))%string with (String "/" (d_name (dir_at h d))).
    rewrite parts_join by done. rewrite walk_dirs_app, Hcd.
    change (d_name (dir_at h d)) with (dir_name h d). by apply walk_step; [| |apply Hatt].
Qed.

(** The path a file is queued under leads back to it. *)
Theorem queued_path_found h root r l :
  wf h -> let d := fr_location (ref_at h r) in
  is_Some (h_dirs h !! d) -> r ∈ items (files (dir_at h d)) ->
  up_chain h d l -> last l = Some root -> Forall (attached h) l ->
  name_of h r <> EmptyString -> str_mem "/"%char (name_of h r) = false ->
  exists p, file_path h r = Ok p /\ queued_file h root p = Some r.
Proof.
  intros Hwf d Hd Hr Hc Hl Hall Hne Hns. pose proof (up_chain_size _ _ _ Hwf Hd Hc) as Hsz.
  destruct (walk_path_loop h root d l (size (h_dirs h)) Hwf Hd Hc Hl Hall) as (p & Hp & Hw); [lia|].
  unfold file_path, absolute_path. fold d. rewrite Hp. cbn [rbind]. eexists. split; [done|].
  unfold queued_file. change ("/" +:+ name_of h r)%string with (String "/" (name_of h r)).
  fold (parts (p +:+ String "/" (name_of h r))). rewrite parts_join by done. rewrite rev_app_distr. simpl. rewrite rev_involutive, Hw.
  pose proof (find_file_unique h d r Hwf Hd Hr) as Hf. unfold find_file, find_files in Hf. by destruct (named _ _); [|injection Hf as ->].
Qed.

(** What is ready, oldest first. *)
Theorem ready_spec fs now q i :
  i ∈ ready fs now q <-> (exists p, (p, i) ∈ items_of fs q) /\ qi_not_before i <= now.
Proof.
  unfold ready, pending. rewrite list_elem_of_In, filter_In, Z.leb_le, <- list_elem_of_In. apply and_iff_compat_r.
  rewrite (sort_by_perm qi_queued_at _). unfold Dict.values. rewrite list_elem_of_fmap. split.
  - intros ([p j] & -> & Hin). by exists p.
  - intros (p & Hin). by exists (p, i).
Qed.

(** ** Witnesses: one file queued, copying it works or fails *)

Definition queue_one : ReplicationQueue := enqueue "fs" "/a/f" 5 (empty_queue "q.json").
Definition tired (n : Z) : ReplicationQueue :=
  update_item "fs" "/a/f" {| qi_path := "/a/f"; qi_queued_at := 5; qi_attempts := n; qi_last_error := None; qi_not_before := 7 |} queue_one.

Lemma queue_one_wf : rq_wf queue_one.
Proof. apply rq_wf_enqueue. apply Dict.wf_nil. Qed.


Lemma enqueue_while_copying_lost_witness :
  exists q', process_one (fun h => h) 0 (fun _ => sret []) (sret tt) "fs" "/a/f" [OpEnqueue "/a/f" 6] 9 (demo_heap, queue_one) =
    (Ok true, (demo_heap, q')) /\ queued "fs" "/a/f" q' = false.
Proof.
  eapply (enqueue_while_copying_lost (fun h => h) 0 (fun _ => sret []) (sret tt) "fs" "/a/f" [OpEnqueue "/a/f" 6] 9 demo_heap demo_heap queue_one 3);
    vm_compute; reflexivity.
Defined.

Lemma overflow_starves_queue_witness :
  exists q', run_items (fun h => h) 0 (fun _ => sraise OSError) (sret tt) "fs" ["/a/f"; "/b"]%string (fun _ => []) 9 0 (demo_heap, tired 1024) =
    (Raise OverflowError, (demo_heap, q')).
Proof.
  destruct (overflow_starves_queue (fun h => h) 0 (fun _ => sraise OSError) (sret tt) "fs" "/a/f" ["/b"]%string 9 demo_heap demo_heap (tired 1024) 3 OSError
    {| qi_path := "/a/f"; qi_queued_at := 5; qi_attempts := 1024; qi_last_error := None; qi_not_before := 7 |} (fun _ => []))
    as (q' & Hq & _); try (vm_compute; reflexivity); [simpl; lia|]. by exists q'.
Defined.

Lemma failed_backs_off_witness :
  exists q' i', failed "fs" "/a/f" "no" 100 (tired 2) = (Ok tt, q') /\ Dict.get "/a/f"%string (items_of "fs" q') = Some i' /\
    qi_not_before i' = 60100.
Proof.
  destruct (failed_backs_off "fs" "/a/f" "no" 100 (tired 2)
    {| qi_path := "/a/f"; qi_queued_at := 5; qi_attempts := 2; qi_last_error := None; qi_not_before := 7 |})
    as (q' & i' & Hq & Hi & _ & _ & Hn & _).
  - apply (queue_ok_set "fs" [("/a/f"%string, {| qi_path := "/a/f"; qi_queued_at := 5; qi_attempts := 2; qi_last_error := None; qi_not_before := 7 |})] queue_one).
    + split; [apply queue_one_wf|]. intros f items. simpl. destruct (decide _); [|done]. intros [= <-].
      split; [apply NoDup_singleton|]. intros p i. simpl. destruct (decide (p = "/a/f"%string)) as [->|]; [|done]. by intros [= <-].
    + apply NoDup_singleton.
    + intros p i. simpl. destruct (decide (p = "/a/f"%string)) as [->|]; [|done]. by intros [= <-].
  - vm_compute. reflexivity.
  - simpl. lia.
  - exists q', i'. split; [done|]. split; [done|]. rewrite Hn. vm_compute. reflexivity.
Defined.

Lemma queue_survives_restart_witness :
  exists q, queue_run [Enqueue "fs" "/a" 1; Enqueue "fs" "/b" 2; Failed "fs" "/a" "no" 3; Done "fs" "/b"; Retry None] (empty_queue "q.json") = Some q /\
    items_of "fs" (load_queue 50 (set_items [] q)) = reloaded (items_of "fs" q) /\ Dict.keys (items_of "fs" q) = ["/a"]%string.
Proof.
  eexists. split; [vm_compute; reflexivity|]. split; [|vm_compute; reflexivity].
  apply (queue_survives_restart "q.json" [Enqueue "fs" "/a" 1; Enqueue "fs" "/b" 2; Failed "fs" "/a" "no" 3; Done "fs" "/b"; Retry None]);
    [done|vm_compute; reflexivity].
Defined.

Lemma queued_path_found_witness : exists p, file_path demo_heap 3 = Ok p /\ queued_file demo_heap 0 p = Some 3%nat.
Proof.
  apply (queued_path_found demo_heap 0 3 [2; 0]%nat); [apply demo_heap_wf|by vm_compute; eexists|vm_compute; left| |done| |done|done].
  - eapply chain_up; [by vm_compute|]. by constructor.
  - constructor; [apply demo_attached; by left|]. constructor; [|constructor]. intros p. vm_compute. intros Hp. discriminate Hp.
Defined.
